(* ===== verification/_CoqProject ===== *)
-Q . S2P
Prelude.v
Mem.v
Layout.v
Kalloc.v
Spinlock.v
Sleeplock.v
Bio.v
Bcache.v
Fsdefs.v
Log.v
LogSafe.v
LogOps.v
LogReserve.v
Pipe.v
PipeSys.v
Proc.v
ProcInv.v
ProcSys.v
ProcProps.v
Vm.v
VmMap.v
VmUser.v
VmSpace.v
VmCopy.v
Dump.v
ProcMem.v
Fs.v
FsBlocks.v
FsAlloc.v
FsFile.v
FsRw.v
FsTrunc.v
FsIcache.v
FsRefs.v
FsPath.v
FsLog.v
FsGeom.v
FsProps.v
FsRwProps.v
FsDir.v
FsDirProps.v
File.v
Syscall.v
Sysfile.v
FileTable.v
SysRefs.v
FileWrite.v
SysProps.v
Grep.v
Printf.v
Ulib.v
Console.v
Sh.v
ShPrint.v
ShRun.v
ShRunProps.v
Umalloc.v
UmallocProps.v
UmallocSys.v
Mkfs.v
MkfsProps.v
MkfsImage.v
MkfsFs.v
Ide.v
IdeProps.v
Exec.v
ExecProps.v
Threads.v
ThreadsProps.v
ThreadsThms.v
ThreadsBalance.v
ThreadsSemm.v
Trap.v
TrapProps.v
Descr.v
Mp.v
Kbd.v
Userprogs.v
Boot.v
Start.v
