(* ===== verification/Prelude.v ===== *)
(** * A verification library for the xv6 kernel and its user programs

    The program is a 32-bit x86 teaching kernel (a port of xv6 with kernel threads added)
    and the programs that run on it.  Sources are named below by their file under src/src/.
    The library translates the C routines to Gallina functions, one per routine, and proves
    what makes them correct.

    ** The parts of the program and how they fit together

    - bootmain.c loads the kernel; main.c, mp.c, ioapic.c and picirq.c start the processors
      and route the interrupts; the descriptor tables of vm.c and trap.c say where they go.
    - kalloc.c hands out pages of physical memory; vm.c builds page tables out of them;
      proc.c keeps the process table and calls both through the address-space routines;
      exec.c replaces the memory of a process by a program.
    - trap.c receives interrupts and system calls; sysproc.c has the calls on processes.
    - spinlock.c and sleeplock.c protect everything shared.  sleep and wakeup of proc.c are
      how a routine waits: sleeplock.c, pipe.c, log.c, console.c and wait use them.
    - bio.c caches disk blocks over memide.c or ide.c; log.c groups block writes into transactions;
      fs.c builds inodes, files, directories and paths on bread, log_write and brelse;
      file.c has open files over inodes and pipes; syscall.c checks user arguments and
      sysfile.c has the system calls on files.  mkfs.c, run on the host, makes the disk.
    - console.c is the screen and the line discipline, kbd.c the keyboard; printf.c, ulib.c,
      umalloc.c, sh.c, the thread library of lockFunc.h and the programs run in user mode.

    ** How code is modelled

    A kernel routine is a function in the monad [K] below: it runs on an explicit state and
    returns, panics, sleeps on a channel, or runs out of the fuel of a loop.  The state of a
    component is a record with the fields of the C structures.  Machine words are integers
    [Z] with the wrap-around written out ([u32], [s32], [u16], [u8]).  A pointer into a table
    is an index of the table; a pointer to raw memory is an address of [mem] (Mem.v), a total
    function from addresses to bytes.  A C string that the code only scans is the list of its
    bytes before the zero.

    Sleeping gives the processor away, so a routine that sleeps ends there, with the outcome
    [Sleep]; the part that runs after the wakeup is a definition of its own ([wait_resume],
    [sleep_resume], [consoleread_resume]) or the same routine again where the code loops.
    Interleavings are explicit.  In Spinlock.v a step is an access to the lock.  In LogReserve.v,
    PipeSys.v and IdeProps.v calls of several processes alternate where the code gives up its
    lock.  In ProcSys.v a call of proc.c is one step up to its return or its sleep, also fork
    and thread_create, which release ptable.lock in between: the new entry is EMBRYO then, and
    the others leave it alone; calls start with nextpid below 2^31 - 1.  In FileTable.v and
    SysProps.v whole calls follow each other in any order.  User threads share
    memory without the kernel's help, so in Threads.v every memory access is a step, but for
    num++ and num-- of a semaphore, which are one step each under its lock.
    A device is a parameter: what it answers is an argument, what it is told is recorded.

    Components meet at type classes.  [FsH] and [FsLaws] (Fsdefs.v) are the constants, layout
    and documented laws of fs.h, which the sources include and the tree does not have; the
    layout of FsGeom.v is an instance.  [BlockLayer], [BlockLaws], [TxLayer] and [TxLaws]
    (Fs.v, FsBlocks.v) are what fs.c needs of the block layer; FsLog.v proves them of the log.
    [ProcEnv] (Proc.v) is what proc.c calls of the allocator, the virtual memory, the open
    files and the inodes; ProcMem.v implements the memory part by Kalloc.v and Vm.v and leaves
    the rest to [ProcFiles].  [ExecFs] and [ExecFsLaws] (Exec.v, ExecProps.v) are the file
    system as exec uses it; ExecProps.v proves the laws of the routines of Fs.v.  [MkfsH] and [MkfsLaws]
    (Mkfs.v) are the constants of fs.h that mkfs shares with the kernel.

    ** Which file models what

    - Prelude.v: the monad, its rules and tactics, machine words, lists.
    - Mem.v: string.c and the stos instructions of x86.h.
    - Layout.v: param.h, memlayout.h and the paging part of mmu.h.
    - Kalloc.v: kalloc.c.  The free list lies in the free pages, as in the code.
    - Spinlock.v, Sleeplock.v: spinlock.c with pushcli and popcli, sleeplock.c.
    - Bio.v: bio.c over memide.c, the ring of buffers.  Bcache.v: the cache as its clients
      see it (blocks held, blocks pinned, logical contents).
    - Log.v: log.c.  LogSafe.v: crash safety.  LogOps.v: transactions.  LogReserve.v: the
      space reservation under interleaving.
    - Pipe.v: pipe.c.  PipeSys.v: any number of readers and writers.
    - Proc.v: proc.c.  ProcInv.v, ProcSys.v, ProcProps.v: the table as a transition system,
      its invariant and the behaviour of the calls; procdump.
    - Vm.v: vm.c.  VmMap.v: page tables as maps.  VmUser.v: growing and shrinking.
      VmSpace.v: whole address spaces, made, freed and written by copyout.  VmCopy.v:
      copyuvm.  Dump.v: mywritebuffer and mycopybuffer of proc.c.  ProcMem.v: the processes
      of Proc.v over this memory.
    - Exec.v, ExecProps.v: exec.c and switchuvm, over the file system of Fs.v.
    - Trap.v, TrapProps.v: trap.c and sysproc.c.  Descr.v: the segment and gate descriptors
      of mmu.h with seginit, tvinit and idtinit.
    - Boot.v: bootmain.c.  Start.v: startothers and entrypgdir of main.c, kvmalloc and
      switchkvm, ioapic.c, picirq.c.  Mp.v: mp.c.
    - Ide.v, IdeProps.v: ide.c.  Kbd.v: kbd.c and kbd.h.
    - Fs.v: fs.c.  FsBlocks.v, FsAlloc.v: the bitmap.  FsFile.v, FsRw.v: contents of files.
      FsTrunc.v: freeing.  FsIcache.v, FsRefs.v: the inode cache and its references.
      FsDir.v, FsPath.v: directories and paths.  FsLog.v: the log as the block layer.
      FsGeom.v: a concrete layout and disk.  FsProps.v, FsRwProps.v, FsDirProps.v: the
      theorems, with concrete runs.
    - Mkfs.v: mkfs.c.  MkfsProps.v, MkfsImage.v: the image it writes.  MkfsFs.v: the kernel
      reading that image.
    - File.v: file.c and pipealloc.  FileTable.v, FileWrite.v: its theorems.
    - Syscall.v: syscall.c.  Sysfile.v: sysfile.c.  SysRefs.v, SysProps.v: its theorems.
    - Grep.v, Printf.v, Console.v: grep.c, printf.c (and atoi of ulib.c), console.c.
    - Ulib.v: the rest of ulib.c.  Umalloc.v, UmallocProps.v, UmallocSys.v: umalloc.c.
    - Sh.v, ShPrint.v: the parser of sh.c and the printer it inverts.  ShRun.v,
      ShRunProps.v: runcmd and main of sh.c.
    - Threads.v: lock.h, lockFunc.h and the programs of thread.c and extracredit1.c.
      ThreadsProps.v: the invariant of every interleaving.  ThreadsThms.v,
      ThreadsBalance.v, ThreadsSemm.v: semaphores and mailboxes, the shared balance, the
      producer and the consumer.
    - Userprogs.v: wc.c, cat.c, ls.c, rm.c, mkdir.c, ln.c, kill.c, forktest.c.

    ** What the theorems show

    - Storage: a commit is atomic under a crash at any disk write, also during recovery; a
      transaction on an idle log applies its writes; in the log
      of mkfs every call that begin_op admits can log MAXOPBLOCKS - 1 blocks, in a larger one
      MAXOPBLOCKS (one too many for the log of mkfs); a commit runs alone.
    - Files: balloc takes the first free block and bfree undoes it; writei replaces exactly
      the bytes of its range and readi returns them; a write of any length is cut into
      transactions that fit; the last iput of an unlinked file frees everything it used;
      dirlink and dirlookup agree; namex walks the elements of its path.  The kernel reads
      from the image mkfs makes the files that were copied into it, and finds them in the root
      directory unless its entries end at a block boundary.
    - Disk driver: requests reach the disk in the order they are made, in every interleaving
      of callers and interrupts, and the wakeups of the interrupt handler let each caller
      return with its block.
    - References: the counts of inodes, open files and pipe ends are exact in every sequence
      of calls, on every error path of sysfile.c.
    - Memory: no page is handed out twice; allocuvm maps everything or nothing; growing then
      shrinking restores map and free list; mappages maps exactly its range; fork gives the
      child a copy of everything; in every sequence of fork, sbrk, exit and wait each page
      has one owner and no process changes another's memory; exec of a file that is no device
      replaces the memory of the process or leaves no trace; dump copies another process's memory; user buffers and
      strings are admitted exactly when they lie in the process. In user mode, blocks of
      malloc never overlap and no byte is lost, as long as requests stay below 2^31 - 16 bytes.
    - Processes: mutual exclusion of spin locks; the invariant of the process table under all
      interleavings; no lost wakeup of wait, nor of a pipe unless a process is killed in
      the middle of a call; what wait frees; a killed process
      never gets back to its program; sleep(n) ends when n ticks have passed.
    - Start-up: every segment of a kernel file with sector-aligned segments in increasing
      order is in place when the boot loader jumps to it;
      each processor is started once with a stack of its own; descriptors, gates, processor
      table and interrupt routes are the ones meant.
    - Streams: bytes come out of a pipe and of the console in order; a line typed at the
      keyboard is what the console reads; console output stays on the screen.
    - Threads: in every interleaving the semaphores exclude, count exactly and lose no
      wakeup, the balance loses no update, and the consumer prints what is produced.
    - User programs: the matcher of grep decides the language of its pattern; grep prints the
      matching lines; numbers print within their buffer and atoi reads back those without a sign; the shell's
      parser ends on every line and inverts printing, and the programs it starts have the
      descriptors their command says; strcmp orders strings; wc counts; ls lists the entries
      in use; forktest ends.
    - Defects, most with a concrete run: the log's off-by-one, wait freeing a page table in
      use, dirlink waiting for its own lock, grep losing a line on a short read, a second
      message blocking a mailbox for ever, sleep(-1), an unknown entry of the processor
      table, dump reading kernel memory, sbrk to size 0, the boot loader overwriting zeros,
      and others.

    ** Fuel

    Loops that the code bounds by a count run on that count.  Loops over the ring of buffers
    get one step per buffer and one more ([scan_fuel]), which the ring invariant makes enough.
    readi, writei and filewrite get a step per byte, and each turn moves at least one byte.
    namex gets a step per byte of the path.  A number has at most 32 digits in any base
    ([digit_fuel]).  The parser gets [parse_fuel], four steps per byte of the line and three
    more; Sh.v proves that it suffices for every line.  grep's outer loop takes a step per
    read.  The theorems on these loops conclude that the routine returns; none assumes it.
    A walk over the free list of malloc gets a step per 8 bytes of the heap; iappend of mkfs
    a step per byte; the queue of ide.c a step per buffer; loaduvm and copyout a round per
    page; exec a round per program header; mycopybuffer and readseg a round per page or
    sector and one more.  The loop of the shell gets a step per line and one more.  mpsearch1
    gets a step per 16 bytes and mpinit one per entry: there more fuel would not help, since
    an unknown entry is read again for ever, which Mp.v proves.  Polling a disk runs up to a
    limit within which the disk is assumed to get ready.
    Only spinning on a lock may take any number of steps, and there, as for user threads, the
    theorems are about the step relation.

    ** Not modelled

    - fs.h, lapic.c and uart.c are not in the tree; what is used of them is a parameter.
    - The assembly files and the table of trap entries that vectors.pl generates; swtch is
      the point where a routine is suspended.
    - main, mpenter and mpmain of main.c, which call the initialisation of the components
      one after the other; panic, which stops the machine, is an outcome; myprint of proc.c,
      which is not called.
    - In proc.c, the check of sched that interrupts are off and its saving of intena, and the
      null checks of sleep; in sh.c, malloc returning 0 to a constructor.
    - The task-state structure of mmu.h but for the fields that switchuvm sets.
    - init.c, dump.c, ps.c and zombie.c, which make a few system calls and print, and the
      messages of the thread programs.
    - proc_old.c and proc_copy2.c: earlier versions of proc.c, not part of the build. *)

From stdpp Require Export base tactics list numbers strings gmap.
From Stdlib Require Export ZArith Lia.
#[global] Open Scope Z_scope.
#[global] Arguments Z.testbit : simpl never.

(** ** The kernel monad

    A kernel routine runs on a state [S] and ends in one of four ways: it
    returns a value, it calls [panic], it calls [sleep] on a channel (the
    process gives up the processor and the routine is suspended there), or
    the fuel given to a pointer-chasing loop ran out.  The last case is an
    artefact of the model: the theorems show that it does not happen. *)

Inductive outcome (S A : Type) : Type :=
| Ret (a : A) (s : S)
| Panic (msg : string)
| Sleep (chan : Z) (s : S)
| NoFuel.
Arguments Ret {S A} _ _.
Arguments Panic {S A} _.
Arguments Sleep {S A} _ _.
Arguments NoFuel {S A}.

Definition K (S A : Type) : Type := S -> outcome S A.

Definition kret {S A} (a : A) : K S A := fun s => Ret a s.

Definition kbind {S A B} (c : K S A) (k : A -> K S B) : K S B := fun s =>
  match c s with
  | Ret a s' => k a s'
  | Panic msg => Panic msg
  | Sleep ch s' => Sleep ch s'
  | NoFuel => NoFuel
  end.

Definition kpanic {S A} (msg : string) : K S A := fun _ => Panic msg.
Definition ksleep {S A} (ch : Z) : K S A := fun s => Sleep ch s.
Definition knofuel {S A} : K S A := fun _ => NoFuel.
Definition kget {S A} (f : S -> A) : K S A := fun s => Ret (f s) s.
Definition kmodify {S} (f : S -> S) : K S unit := fun s => Ret tt (f s).

Declare Scope kernel_scope.
Delimit Scope kernel_scope with kernel.
Notation "'let!' x ':=' c 'in' k" := (kbind c (fun x => k))
  (at level 200, x pattern, c at level 100, k at level 200, right associativity)
  : kernel_scope.
Notation "c ;; k" := (kbind c (fun _ => k))
  (at level 100, k at level 200, right associativity) : kernel_scope.
#[global] Open Scope kernel_scope.

(** Run a routine of a component inside a larger state. *)
Definition kzoom {S T A} (get : S -> T) (put : T -> S -> S) (c : K T A) : K S A :=
  fun s =>
    match c (get s) with
    | Ret a t => Ret a (put t s)
    | Panic msg => Panic msg
    | Sleep ch t => Sleep ch (put t s)
    | NoFuel => NoFuel
    end.

(** A counted loop: [body i], [body (i+1)], ... at most [n] times.  The body
    answers [Some r] to leave the loop with the result [r] (a [break] or a
    [return] of the C code) and [None] to go on; the loop answers [None] when
    its counter is exhausted. *)
Fixpoint kfor {S R} (n : nat) (i : Z) (body : Z -> K S (option R)) : K S (option R) :=
  match n with
  | O => kret None
  | Datatypes.S n' =>
      let! r := body i in
      match r with
      | Some v => kret (Some v)
      | None => kfor n' (i + 1) body
      end
  end.

(** Total-correctness predicate: the routine returns, and what it returns and
    the state it leaves satisfy [Q]. *)
Definition wp {S A} (c : K S A) (s : S) (Q : A -> S -> Prop) : Prop :=
  match c s with Ret a s' => Q a s' | _ => False end.

(** Partial-correctness predicate: whatever the routine returns satisfies [Q];
    a suspended routine left a state that satisfies [R]. *)
Definition wlp {S A} (c : K S A) (s : S) (Q : A -> S -> Prop) (R : S -> Prop) : Prop :=
  match c s with Ret a s' => Q a s' | Sleep _ s' => R s' | _ => True end.

Section wp_rules.
Context {S : Type}.
Implicit Types s : S.

Lemma wp_iff {A} (c : K S A) s Q :
  wp c s Q <-> exists a s', c s = Ret a s' /\ Q a s'.
Proof.
  unfold wp; split.
  - destruct (c s) eqn:E; naive_solver.
  - intros (a & s' & -> & H); exact H.
Qed.

Lemma wp_ret {A} (a : A) s (Q : A -> S -> Prop) : Q a s -> wp (kret a) s Q.
Proof. exact (fun H => H). Qed.

Lemma wp_get {A} (f : S -> A) s (Q : A -> S -> Prop) : Q (f s) s -> wp (kget f) s Q.
Proof. exact (fun H => H). Qed.

Lemma wp_modify (f : S -> S) s (Q : unit -> S -> Prop) : Q tt (f s) -> wp (kmodify f) s Q.
Proof. exact (fun H => H). Qed.

Lemma wp_bind {A B} (c : K S A) (k : A -> K S B) s Q :
  wp c s (fun a s' => wp (k a) s' Q) -> wp (kbind c k) s Q.
Proof. unfold wp, kbind. by destruct (c s). Qed.

Lemma wp_mono {A} (c : K S A) s (Q Q' : A -> S -> Prop) :
  wp c s Q -> (forall a s', Q a s' -> Q' a s') -> wp c s Q'.
Proof. unfold wp. destruct (c s); naive_solver. Qed.

Lemma wp_zoom {T A} (g : T -> S) (p : S -> T -> T) (c : K S A) (t : T) Q :
  wp c (g t) (fun a s => Q a (p s t)) -> wp (kzoom g p c) t Q.
Proof. unfold wp, kzoom. by destruct (c (g t)). Qed.

(** Invariant rule for counted loops: [I i s] holds when the counter is [i];
    an early exit establishes the postcondition directly. *)
Lemma wp_for {R} (n : nat) (i : Z) (body : Z -> K S (option R)) s
    (I : Z -> S -> Prop) (Q : option R -> S -> Prop) :
  I i s ->
  (forall j s', i <= j < i + Z.of_nat n -> I j s' ->
     wp (body j) s' (fun r s'' =>
       match r with Some v => Q (Some v) s'' | None => I (j + 1) s'' end)) ->
  (forall s', I (i + Z.of_nat n) s' -> Q None s') ->
  wp (kfor n i body) s Q.
Proof.
  revert i s. induction n as [|n IH]; intros i s Hi Hbody Hend; simpl.
  - apply wp_ret, Hend. by rewrite Z.add_0_r.
  - apply wp_bind. eapply wp_mono; [apply Hbody; [lia|done]|].
    intros [v|] s' H; [by apply wp_ret|]. apply IH; [done| |].
    + intros j s'' Hj. apply Hbody. lia.
    + intros s''. replace (i + 1 + Z.of_nat n) with (i + Z.of_nat (Datatypes.S n)) by lia.
      apply Hend.
Qed.

Lemma wlp_ret {A} (a : A) s (Q : A -> S -> Prop) R : Q a s -> wlp (kret a) s Q R.
Proof. exact (fun H => H). Qed.

Lemma wlp_get {A} (f : S -> A) s (Q : A -> S -> Prop) R : Q (f s) s -> wlp (kget f) s Q R.
Proof. exact (fun H => H). Qed.

Lemma wlp_modify (f : S -> S) s (Q : unit -> S -> Prop) R : Q tt (f s) -> wlp (kmodify f) s Q R.
Proof. exact (fun H => H). Qed.

Lemma wlp_panic {A} msg s (Q : A -> S -> Prop) R : wlp (kpanic msg) s Q R.
Proof. exact I. Qed.

Lemma wlp_sleep {A} ch s (Q : A -> S -> Prop) (R : S -> Prop) : R s -> wlp (ksleep ch) s Q R.
Proof. exact (fun H => H). Qed.

Lemma wlp_bind {A B} (c : K S A) (k : A -> K S B) s Q R :
  wlp c s (fun a s' => wlp (k a) s' Q R) R -> wlp (kbind c k) s Q R.
Proof. unfold wlp, kbind. by destruct (c s). Qed.

Lemma wlp_mono {A} (c : K S A) s (Q Q' : A -> S -> Prop) (R R' : S -> Prop) :
  wlp c s Q R -> (forall a s', Q a s' -> Q' a s') -> (forall s', R s' -> R' s') -> wlp c s Q' R'.
Proof. unfold wlp. destruct (c s); naive_solver. Qed.

Lemma wlp_use {A} (c : K S A) s (Q : A -> S -> Prop) (R : S -> Prop) :
  wlp c s Q R -> (forall a s', c s = Ret a s' -> Q a s') /\ (forall ch s', c s = Sleep ch s' -> R s').
Proof. unfold wlp. intros H. split; intros ? ? E; by rewrite E in H. Qed.

Lemma wlp_for {X} (n : nat) (i : Z) (body : Z -> K S (option X)) s
    (I : Z -> S -> Prop) (Q : option X -> S -> Prop) (R : S -> Prop) :
  I i s ->
  (forall j s', i <= j < i + Z.of_nat n -> I j s' -> wlp (body j) s' (fun r s'' =>
     match r with Some v => Q (Some v) s'' | None => I (j + 1) s'' end) R) ->
  (forall s', I (i + Z.of_nat n) s' -> Q None s') ->
  wlp (kfor n i body) s Q R.
Proof.
  revert i s. induction n as [|n IH]; intros i s Hi Hbody Hend; simpl.
  - apply wlp_ret, Hend. by rewrite Z.add_0_r.
  - apply wlp_bind. eapply wlp_mono; [apply Hbody; [lia|done]| |done].
    intros [v|] s' H; [by apply wlp_ret|]. apply IH; [done| |].
    + intros j s'' Hj. apply Hbody. lia.
    + intros s''. replace (i + 1 + Z.of_nat n) with (i + Z.of_nat (Datatypes.S n)) by lia. apply Hend.
Qed.
End wp_rules.

(** Evaluation of a routine, one bind at a time. *)
Lemma kbind_ret {S A B} (c : K S A) (k : A -> K S B) s a s' :
  c s = Ret a s' -> kbind c k s = k a s'.
Proof. unfold kbind. by intros ->. Qed.
Lemma kbind_get {S A B} (f : S -> A) (k : A -> K S B) s : kbind (kget f) k s = k (f s) s.
Proof. done. Qed.
Lemma kbind_modify {S B} (f : S -> S) (k : unit -> K S B) s : kbind (kmodify f) k s = k tt (f s).
Proof. done. Qed.
Lemma kbind_kret {S A B} (a : A) (k : A -> K S B) s : kbind (kret a) k s = k a s.
Proof. done. Qed.
Lemma kbind_assoc {S A B C} (c : K S A) (k : A -> K S B) (k' : B -> K S C) s :
  kbind (kbind c k) k' s = kbind c (fun a => kbind (k a) k') s.
Proof. unfold kbind. by destruct (c s). Qed.

Lemma ret_inj {S A} (o : outcome S A) a a' s s' : o = Ret a s -> o = Ret a' s' -> a = a' /\ s = s'.
Proof. intros ->. by intros [= -> ->]. Qed.

(** Run the leading reads, writes and returns of a routine in the goal. *)
Ltac krun :=
  repeat first
    [ rewrite kbind_get | rewrite kbind_modify | rewrite kbind_kret | rewrite kbind_assoc
    | progress change (negb true) with false | progress change (negb false) with true
    | progress cbv beta iota ].

(** Step through a monadic routine: unfold one bind at a time. *)
Ltac wp_step :=
  lazymatch goal with
  | |- wp (kbind _ _) _ _ => apply wp_bind
  | |- wp (kret _) _ _ => apply wp_ret
  | |- wp (kget _) _ _ => apply wp_get
  | |- wp (kmodify _) _ _ => apply wp_modify
  | |- wp (kzoom _ _ _) _ _ => apply wp_zoom
  | |- wp (if ?b then _ else _) _ _ => let E := fresh "E" in destruct b eqn:E
  end; cbn beta.
Ltac wp_steps := repeat wp_step.

(** The same for partial correctness; [wlp_user] is extended by the components
    with the rules of their own primitives. *)
Ltac wlp_user := fail.
Ltac wlp_step :=
  lazymatch goal with
  | |- wlp (kbind _ _) _ _ _ => apply wlp_bind
  | |- wlp (kret _) _ _ _ => apply wlp_ret
  | |- wlp (kget _) _ _ _ => apply wlp_get
  | |- wlp (kmodify _) _ _ _ => apply wlp_modify
  | |- wlp (kpanic _) _ _ _ => apply wlp_panic
  | |- wlp (ksleep _) _ _ _ => apply wlp_sleep
  | |- _ => wlp_user
  end; cbn beta.

(** ** Machine integers *)

Definition u8 (x : Z) : Z := x mod 256.
Definition u16 (x : Z) : Z := x mod 65536.
Definition u32 (x : Z) : Z := x mod 4294967296.

(** The [int] that has the same 32 bits. *)
Definition s32 (x : Z) : Z :=
  if u32 x <? 2147483648 then u32 x else u32 x - 4294967296.

(** The [short] that has the same 16 bits. *)
Definition s16 (x : Z) : Z := if u16 x <? 32768 then u16 x else u16 x - 65536.

(** C truth value of an integer expression. *)
Definition truth (x : Z) : bool := negb (x =? 0).
Definition of_bool (b : bool) : Z := if b then 1 else 0.

(** [lia] after turning divisions and remainders by constants into equations. *)
Ltac dlia := unfold u8, u16, u32 in *; Z.to_euclidean_division_equations; lia.

Lemma u8_range x : 0 <= u8 x < 256.
Proof. dlia. Qed.
Lemma u32_range x : 0 <= u32 x < 4294967296.
Proof. dlia. Qed.
Lemma u8_small x : 0 <= x < 256 -> u8 x = x.
Proof. intros. unfold u8. by rewrite Z.mod_small. Qed.
Lemma u32_small x : 0 <= x < 4294967296 -> u32 x = x.
Proof. intros. unfold u32. by rewrite Z.mod_small. Qed.
Lemma u32_u32 x : u32 (u32 x) = u32 x.
Proof. apply u32_small, u32_range. Qed.
Lemma u32_add_l x y : u32 (u32 x + y) = u32 (x + y).
Proof. unfold u32. by rewrite Zplus_mod_idemp_l. Qed.
Lemma u32_add_r x y : u32 (x + u32 y) = u32 (x + y).
Proof. unfold u32. by rewrite Zplus_mod_idemp_r. Qed.
Lemma s32_range x : -2147483648 <= s32 x < 2147483648.
Proof. unfold s32. pose proof (u32_range x). destruct (Z.ltb_spec (u32 x) 2147483648); lia. Qed.
Lemma s32_small x : -2147483648 <= x < 2147483648 -> s32 x = x.
Proof.
  intros H. unfold s32. destruct (Z.ltb_spec (u32 x) 2147483648); dlia.
Qed.
Lemma u32_s32 x : u32 (s32 x) = u32 x.
Proof. unfold s32. destruct (Z.ltb_spec (u32 x) 2147483648); dlia. Qed.

(** ** Bit fields: masks and disjoint unions of bits *)

Lemma land_low (n x : Z) : 0 <= n -> Z.land x (2 ^ n - 1) = x mod 2 ^ n.
Proof.
  intros Hn. rewrite <- Z.land_ones by done. f_equal. rewrite Z.ones_equiv. lia.
Qed.

Lemma land_high (n x : Z) : 0 <= n -> Z.land x (Z.lnot (2 ^ n - 1)) = x - x mod 2 ^ n.
Proof.
  intros Hn. rewrite <- Z.ldiff_land.
  replace (2 ^ n - 1) with (Z.ones n) by (rewrite Z.ones_equiv; lia).
  rewrite Z.ldiff_ones_r, Z.shiftl_mul_pow2, Z.shiftr_div_pow2 by done.
  pose proof (Z.div_mod x (2 ^ n)). pose proof (Z.pow_pos_nonneg 2 n). lia.
Qed.

Lemma lor_disjoint (n a b : Z) :
  0 <= n -> a mod 2 ^ n = 0 -> 0 <= b < 2 ^ n -> Z.lor a b = a + b.
Proof.
  intros Hn Ha Hb. symmetry.
  assert (Hz : Z.land a b = 0).
  { apply Z.bits_inj_0. intros i. rewrite Z.land_spec.
    destruct (Z.ltb_spec i 0); [by rewrite Z.testbit_neg_r|].
    destruct (Z.ltb_spec i n).
    - replace (Z.testbit a i) with (Z.testbit (a mod 2 ^ n) i)
        by (rewrite Z.mod_pow2_bits_low; done).
      by rewrite Ha, Z.bits_0.
    - replace b with (b mod 2 ^ n) by (rewrite Z.mod_small; lia).
      rewrite Z.mod_pow2_bits_high by lia. by rewrite andb_false_r. }
  rewrite Z.add_nocarry_lxor by done.
  apply Z.bits_inj. intros i. rewrite Z.lxor_spec, Z.lor_spec.
  apply (f_equal (fun z => Z.testbit z i)) in Hz.
  rewrite Z.land_spec, Z.bits_0 in Hz.
  destruct (Z.testbit a i), (Z.testbit b i); naive_solver.
Qed.

Lemma land_lor_disjoint_low (n a b : Z) :
  0 <= n -> a mod 2 ^ n = 0 -> 0 <= b < 2 ^ n -> Z.land (Z.lor a b) (2 ^ n - 1) = b.
Proof.
  intros Hn Ha Hb. rewrite land_low, (lor_disjoint n) by done.
  rewrite Z.add_mod, Ha, Z.add_0_l, Z.mod_mod by lia. by rewrite Z.mod_small.
Qed.

Lemma land_lor_disjoint_high (n a b : Z) :
  0 <= n -> a mod 2 ^ n = 0 -> 0 <= b < 2 ^ n -> Z.land (Z.lor a b) (Z.lnot (2 ^ n - 1)) = a.
Proof.
  intros Hn Ha Hb. rewrite land_high, (lor_disjoint n) by done.
  rewrite Z.add_mod, Ha, Z.add_0_l, Z.mod_mod by lia. rewrite Z.mod_small; lia.
Qed.

(** ** Arrays as lists *)

Lemma nth_alter_eq {A} (f : A -> A) l i d :
  (i < length l)%nat -> nth i (alter f i l) d = f (nth i l d).
Proof.
  intros H. rewrite !nth_lookup, list_lookup_alter_eq.
  destruct (lookup_lt_is_Some_2 l i H) as [x ->]. done.
Qed.

Lemma nth_alter_ne {A} (f : A -> A) l i j d :
  i <> j -> nth j (alter f i l) d = nth j l d.
Proof. intros H. rewrite !nth_lookup. by rewrite list_lookup_alter_ne. Qed.

Lemma alter_alter {A} (f g : A -> A) (l : list A) (i : nat) : alter f i (alter g i l) = alter (fun x => f (g x)) i l.
Proof.
  apply list_eq. intros j. destruct (decide (j = i)) as [->|Hj].
  - rewrite !list_lookup_alter_eq. by destruct (l !! i).
  - by rewrite !list_lookup_alter_ne.
Qed.

Lemma nth_replicate_same {A} (x : A) n i : nth i (replicate n x) x = x.
Proof. revert i. induction n as [|n IH]; intros [|i]; simpl; auto. Qed.

Lemma nth_insert_eq {A} (l : list A) i x d :
  (i < length l)%nat -> nth i (<[i := x]> l) d = x.
Proof. intros H. rewrite nth_lookup, list_lookup_insert_eq by done. done. Qed.

Lemma nth_insert_ne {A} (l : list A) i j x d : i <> j -> nth j (<[i := x]> l) d = nth j l d.
Proof. intros H. rewrite !nth_lookup. by rewrite list_lookup_insert_ne. Qed.

Lemma nth_lookup_lt {A} (l : list A) i d : (i < length l)%nat -> l !! i = Some (nth i l d).
Proof. intros H. destruct (lookup_lt_is_Some_2 l i H) as [y E]. by rewrite nth_lookup, E. Qed.

Lemma seqZ_snoc n : 0 <= n -> seqZ 0 (n + 1) = seqZ 0 n ++ [n].
Proof. intros. by rewrite seqZ_app by lia. Qed.

(** ** Single flag bits *)

Lemma land_bit (k f : Z) : 0 <= k -> Z.land f (2 ^ k) = if Z.testbit f k then 2 ^ k else 0.
Proof.
  intros Hk. apply Z.bits_inj'. intros i Hi. rewrite Z.land_spec, Z.pow2_bits_eqb by done.
  destruct (Z.eqb_spec k i) as [<-|Hne].
  - rewrite andb_true_r. destruct (Z.testbit f k) eqn:E.
    + rewrite Z.pow2_bits_eqb by done. by rewrite Z.eqb_refl.
    + by rewrite Z.bits_0.
  - rewrite andb_false_r. destruct (Z.testbit f k); [|by rewrite Z.bits_0].
    rewrite Z.pow2_bits_eqb by done. by apply Z.eqb_neq in Hne as ->.
Qed.

Lemma testbit_lor_bit (f k j : Z) :
  0 <= k -> Z.testbit (Z.lor f (2 ^ k)) j = Z.testbit f j || (k =? j).
Proof. intros Hk. by rewrite Z.lor_spec, Z.pow2_bits_eqb. Qed.

Lemma testbit_clear_bit (f k j : Z) :
  0 <= k -> 0 <= j -> Z.testbit (Z.land f (Z.lnot (2 ^ k))) j = Z.testbit f j && negb (k =? j).
Proof. intros Hk Hj. by rewrite Z.land_spec, Z.lnot_spec, Z.pow2_bits_eqb. Qed.
