(* ===== verification/Mem.v ===== *)
(** * Memory and the C string routines

    Byte-addressed memory, 32-bit little-endian words on top of it, and the
    routines of string.c (kernel) and ulib.c (user library) that copy, fill
    and compare byte ranges.  A memory is a total function from addresses to
    byte values; loops run over it one byte (or one stosl word) at a time. *)

From S2P Require Import Prelude.

(** ** Byte memory *)

Definition mem : Type := Z -> Z.

Definition mset (m : mem) (a v : Z) : mem := fun x => if x =? a then v else m x.

Definition load32 (m : mem) (a : Z) : Z :=
  m a + 256 * m (a + 1) + 65536 * m (a + 2) + 16777216 * m (a + 3).

Definition store32 (m : mem) (a v : Z) : mem :=
  mset (mset (mset (mset m a (u8 v)) (a + 1) (u8 (v / 256)))
          (a + 2) (u8 (v / 65536))) (a + 3) (u8 (v / 16777216)).

(** Two memories that hold the same bytes. *)
Definition mem_eq (m1 m2 : mem) : Prop := forall a, m1 a = m2 a.

(** Memory that holds bytes only. *)
Definition mem_ok (m : mem) : Prop := forall a, 0 <= m a < 256.

(** Bytes stored one after the other. *)
Fixpoint store_bytes (m : mem) (p : Z) (l : list Z) : mem :=
  match l with
  | [] => m
  | c :: l' => store_bytes (mset m p c) (p + 1) l'
  end.

Lemma mset_spec m a v x : mset m a v x = if x =? a then v else m x.
Proof. done. Qed.

Lemma mset_eq m a v : mset m a v a = v.
Proof. unfold mset. by rewrite Z.eqb_refl. Qed.

Lemma mset_ne m a v x : x <> a -> mset m a v x = m x.
Proof. intros H. unfold mset. by apply Z.eqb_neq in H as ->. Qed.

#[export] Instance mem_eq_equiv : Equivalence mem_eq.
Proof. split; unfold mem_eq; repeat intro; congruence. Qed.

#[export] Instance mset_proper : Proper (mem_eq ==> eq ==> eq ==> mem_eq) mset.
Proof. intros m1 m2 H a ? <- v ? <- x. unfold mset. by destruct (x =? a). Qed.

#[export] Instance load32_proper : Proper (mem_eq ==> eq ==> eq) load32.
Proof. intros m1 m2 H a ? <-. unfold load32. by rewrite !H. Qed.

#[export] Instance store32_proper : Proper (mem_eq ==> eq ==> eq ==> mem_eq) store32.
Proof. intros m1 m2 H a ? <- v ? <-. unfold store32. by rewrite H. Qed.

Lemma store32_out m a v x : ~ (a <= x < a + 4) -> store32 m a v x = m x.
Proof. intros H. unfold store32. rewrite !mset_ne by lia. done. Qed.

Lemma load32_store32_eq m a v : load32 (store32 m a v) a = u32 v.
Proof.
  unfold load32, store32, mset.
  rewrite !Z.eqb_refl.
  repeat match goal with
  | |- context [?x =? ?y] => replace (x =? y) with false by (symmetry; apply Z.eqb_neq; lia)
  end.
  dlia.
Qed.

Lemma load32_ext m1 m2 a :
  (forall x, a <= x < a + 4 -> m1 x = m2 x) -> load32 m1 a = load32 m2 a.
Proof. intros H. unfold load32. by rewrite !H by lia. Qed.

Lemma load32_store32_ne m a v b :
  b + 4 <= a \/ a + 4 <= b -> load32 (store32 m a v) b = load32 m b.
Proof. intros H. apply load32_ext. intros x Hx. apply store32_out. lia. Qed.

Lemma load32_range m a : mem_ok m -> 0 <= load32 m a < 4294967296.
Proof.
  intros H. unfold load32.
  pose proof (H a). pose proof (H (a + 1)). pose proof (H (a + 2)). pose proof (H (a + 3)). lia.
Qed.

Lemma mset_ok m a v : mem_ok m -> 0 <= v < 256 -> mem_ok (mset m a v).
Proof. intros Hm Hv x. rewrite mset_spec. by destruct (x =? a). Qed.

Lemma store32_ok m a v : mem_ok m -> mem_ok (store32 m a v).
Proof. intros Hm. unfold store32. repeat apply mset_ok; try done; apply u8_range. Qed.

Create HintDb mem.
#[export] Hint Resolve mset_ok store32_ok u8_range : mem.

(** ** x86 string instructions (x86.h) *)

(** [rep stosb]: [cnt] copies of the low byte of [data]. *)
Fixpoint stosb (m : mem) (addr data : Z) (cnt : nat) : mem :=
  match cnt with
  | O => m
  | S n => stosb (mset m addr (u8 data)) (addr + 1) data n
  end.

(** [rep stosl]: [cnt] copies of the 32-bit [data]. *)
Fixpoint stosl (m : mem) (addr data : Z) (cnt : nat) : mem :=
  match cnt with
  | O => m
  | S n => stosl (store32 m addr data) (addr + 4) data n
  end.

(** ** string.c *)

Definition memset (m : mem) (dst c n : Z) : mem :=
  if (Z.rem (s32 dst) 4 =? 0) && (n mod 4 =? 0) then
    let c := Z.land c 255 in
    stosl m dst
      (u32 (Z.lor (Z.lor (Z.lor (Z.shiftl c 24) (Z.shiftl c 16)) (Z.shiftl c 8)) c))
      (Z.to_nat (n / 4))
  else stosb m dst c (Z.to_nat n).

Fixpoint memcmp_loop (m : mem) (s1 s2 : Z) (n : nat) : Z :=
  match n with
  | O => 0
  | S n' => if negb (m s1 =? m s2) then m s1 - m s2
            else memcmp_loop m (s1 + 1) (s2 + 1) n'
  end.
Definition memcmp (m : mem) (v1 v2 n : Z) : Z := memcmp_loop m v1 v2 (Z.to_nat n).

(** [while(n-- > 0) *--d = *--s] *)
Fixpoint copy_backward (m : mem) (d s : Z) (n : nat) : mem :=
  match n with
  | O => m
  | S n' => copy_backward (mset m (d - 1) (m (s - 1))) (d - 1) (s - 1) n'
  end.

(** [while(n-- > 0) *d++ = *s++] *)
Fixpoint copy_forward (m : mem) (d s : Z) (n : nat) : mem :=
  match n with
  | O => m
  | S n' => copy_forward (mset m d (m s)) (d + 1) (s + 1) n'
  end.

Definition memmove (m : mem) (dst src n : Z) : mem :=
  if (src <? dst) && (dst <? src + n)
  then copy_backward m (dst + n) (src + n) (Z.to_nat n)
  else copy_forward m dst src (Z.to_nat n).

Definition memcpy (m : mem) (dst src n : Z) : mem := memmove m dst src n.

Fixpoint strncmp_loop (m : mem) (p q : Z) (n : nat) : Z :=
  match n with
  | O => 0
  | S n' => if truth (m p) && (m p =? m q) then strncmp_loop m (p + 1) (q + 1) n'
            else u8 (m p) - u8 (m q)
  end.
Definition strncmp (m : mem) (p q n : Z) : Z := strncmp_loop m p q (Z.to_nat n).

(** [while(n-- > 0) *s++ = 0] *)
Fixpoint zero_fill (m : mem) (s : Z) (n : nat) : mem :=
  match n with
  | O => m
  | S n' => zero_fill (mset m s 0) (s + 1) n'
  end.

Fixpoint strncpy_loop (m : mem) (s t : Z) (n : nat) : mem :=
  match n with
  | O => m
  | S n' =>
      let c := m t in
      let m' := mset m s c in
      if truth c then strncpy_loop m' (s + 1) (t + 1) n' else zero_fill m' (s + 1) n'
  end.
Definition strncpy (m : mem) (s t n : Z) : mem := strncpy_loop m s t (Z.to_nat n).

(** [while(--n > 0 && ( *s++ = *t++) != 0) ; *s = 0], entered with [n - 1 = k]. *)
Fixpoint safestrcpy_loop (m : mem) (s t : Z) (k : nat) : mem :=
  match k with
  | O => mset m s 0
  | S k' =>
      let c := m t in
      let m' := mset m s c in
      if truth c then safestrcpy_loop m' (s + 1) (t + 1) k' else mset m' (s + 1) 0
  end.
Definition safestrcpy (m : mem) (s t n : Z) : mem :=
  if n <=? 0 then m else safestrcpy_loop m s t (Z.to_nat (n - 1)).

(** [for(n = 0; s[n]; n++)] with fuel: [None] when no NUL is met in time. *)
Fixpoint strlen_loop (fuel : nat) (m : mem) (s n : Z) : option Z :=
  match fuel with
  | O => None
  | S f => if truth (m (s + n)) then strlen_loop f m s (n + 1) else Some n
  end.
Definition strlen (fuel : nat) (m : mem) (s : Z) : option Z := strlen_loop fuel m s 0.

(** ** What the routines compute *)

(** The intended result of a fill and of a copy. *)
Definition filled (m : mem) (dst n v : Z) : mem :=
  fun x => if (dst <=? x) && (x <? dst + n) then v else m x.
Definition copied (m : mem) (dst src n : Z) : mem :=
  fun x => if (dst <=? x) && (x <? dst + n) then m (src + (x - dst)) else m x.

Ltac range_cases :=
  repeat match goal with
  | |- context [?a <=? ?b] => destruct (Z.leb_spec a b)
  | |- context [?a <? ?b] => destruct (Z.ltb_spec a b)
  | |- context [?a =? ?b] => destruct (Z.eqb_spec a b)
  end; simpl; try lia.

Lemma filled_in m dst n v x : dst <= x < dst + n -> filled m dst n v x = v.
Proof. intros. unfold filled. range_cases; done. Qed.
Lemma filled_out m dst n v x : ~ (dst <= x < dst + n) -> filled m dst n v x = m x.
Proof. intros. unfold filled. range_cases; done. Qed.

Lemma stosb_filled m addr data cnt :
  mem_eq (stosb m addr data cnt) (filled m addr (Z.of_nat cnt) (u8 data)).
Proof.
  revert m addr. induction cnt as [|n IH]; intros m addr x; simpl.
  - unfold filled. range_cases; done.
  - rewrite IH. unfold filled, mset. range_cases; done.
Qed.

(** A word whose four bytes are all [b]. *)
Lemma store32_same_bytes m a w b :
  u8 w = b -> u8 (w / 256) = b -> u8 (w / 65536) = b -> u8 (w / 16777216) = b ->
  mem_eq (store32 m a w) (filled m a 4 b).
Proof.
  intros H0 H1 H2 H3 x. unfold store32, filled, mset.
  rewrite H0, H1, H2, H3. range_cases; done.
Qed.

Lemma stosl_filled m addr w cnt b :
  u8 w = b -> u8 (w / 256) = b -> u8 (w / 65536) = b -> u8 (w / 16777216) = b ->
  mem_eq (stosl m addr w cnt) (filled m addr (4 * Z.of_nat cnt) b).
Proof.
  intros H0 H1 H2 H3. revert m addr. induction cnt as [|n IH]; intros m addr x; cbn [stosl].
  - unfold filled. range_cases; done.
  - rewrite IH. unfold filled at 1.
    rewrite (store32_same_bytes m addr w b H0 H1 H2 H3 x). unfold filled. range_cases; done.
Qed.

(** Four copies of the byte [c], as memset builds the word. *)
Lemma replicate_byte c :
  0 <= c < 256 ->
  u32 (Z.lor (Z.lor (Z.lor (Z.shiftl c 24) (Z.shiftl c 16)) (Z.shiftl c 8)) c)
    = c * 16843009.
Proof.
  intros Hc. rewrite !Z.shiftl_mul_pow2 by lia.
  rewrite (lor_disjoint 24 (c * 2 ^ 24) (c * 2 ^ 16)) by (try lia; apply Z.mod_mul; lia).
  rewrite (lor_disjoint 16 _ (c * 2 ^ 8)).
  2: lia. 2: { replace (c * 2 ^ 24 + c * 2 ^ 16) with ((c * 257) * 2 ^ 16) by lia.
               apply Z.mod_mul. lia. } 2: lia.
  rewrite (lor_disjoint 8 _ c).
  2: lia. 2: { replace (c * 2 ^ 24 + c * 2 ^ 16 + c * 2 ^ 8) with ((c * 65793) * 2 ^ 8) by lia.
               apply Z.mod_mul. lia. } 2: lia.
  rewrite u32_small; lia.
Qed.

(** memset, whichever instruction it picks, fills exactly [n] bytes with the
    low byte of [c]. *)
Lemma memset_filled m dst c n :
  0 <= n -> mem_eq (memset m dst c n) (filled m dst n (u8 c)).
Proof.
  intros Hn. unfold memset. destruct (_ && _) eqn:E.
  - apply andb_true_iff in E as [_ En%Z.eqb_eq].
    assert (Hc : 0 <= Z.land c 255 < 256).
    { change 255 with (2 ^ 8 - 1). rewrite land_low by lia. apply Z.mod_pos_bound. lia. }
    assert (Hu : Z.land c 255 = u8 c).
    { change 255 with (2 ^ 8 - 1). by rewrite land_low by lia. }
    rewrite replicate_byte by done. rewrite Hu in *.
    replace n with (4 * Z.of_nat (Z.to_nat (n / 4))) at 2 by dlia.
    apply stosl_filled; set (b := u8 c) in *; clearbody b; dlia.
  - rewrite stosb_filled. by rewrite Z2Nat.id.
Qed.

Lemma copy_forward_copied m d s n :
  d <= s \/ s + Z.of_nat n <= d ->
  mem_eq (copy_forward m d s n) (copied m d s (Z.of_nat n)).
Proof.
  revert m d s. induction n as [|n IH]; intros m d s H x; cbn [copy_forward].
  - unfold copied. range_cases; done.
  - rewrite IH by lia. unfold copied, mset. range_cases; try done; f_equal; lia.
Qed.

Lemma copy_backward_copied m d s n :
  s <= d ->
  mem_eq (copy_backward m d s n)
         (copied m (d - Z.of_nat n) (s - Z.of_nat n) (Z.of_nat n)).
Proof.
  revert m d s. induction n as [|n IH]; intros m d s H x; cbn [copy_backward].
  - unfold copied. range_cases; done.
  - rewrite IH by lia. unfold copied, mset. range_cases; try done; f_equal; lia.
Qed.

Lemma memmove_copied m dst src n :
  0 <= n -> mem_eq (memmove m dst src n) (copied m dst src n).
Proof.
  intros Hn. unfold memmove. destruct (_ && _) eqn:E.
  - apply andb_true_iff in E as [E1%Z.ltb_lt E2%Z.ltb_lt].
    rewrite copy_backward_copied by lia. rewrite Z2Nat.id by done.
    by replace (dst + n - n) with dst by lia; replace (src + n - n) with src by lia.
  - apply andb_false_iff in E.
    rewrite copy_forward_copied; rewrite ?Z2Nat.id by done; [done|].
    destruct E as [E%Z.ltb_ge|E%Z.ltb_ge]; lia.
Qed.

(** ** NUL-terminated strings *)

(** The string at [a] consists of the non-zero bytes [l], followed by a NUL. *)
Fixpoint is_cstr (m : mem) (a : Z) (l : list Z) : Prop :=
  match l with
  | [] => m a = 0
  | c :: l' => m a = c /\ c <> 0 /\ is_cstr m (a + 1) l'
  end.

Lemma is_cstr_ext m1 m2 a l :
  (forall x, a <= x <= a + Z.of_nat (length l) -> m1 x = m2 x) ->
  is_cstr m1 a l -> is_cstr m2 a l.
Proof.
  revert a. induction l as [|c l IH]; intros a H; simpl.
  - intros E. rewrite <- H; [done|]. simpl; lia.
  - intros (E & Hc & Hl). split_and!; [rewrite <- H; [done|simpl; lia]|done|].
    apply IH; [|done]. intros x Hx. apply H. simpl. lia.
Qed.

Lemma strlen_loop_correct fuel m s n l :
  is_cstr m (s + n) l -> (length l < fuel)%nat ->
  strlen_loop fuel m s n = Some (n + Z.of_nat (length l)).
Proof.
  revert n l. induction fuel as [|f IH]; intros n l Hs Hl; [lia|]. simpl.
  destruct l as [|c l]; simpl in *.
  - rewrite Hs. simpl. by rewrite Z.add_0_r.
  - destruct Hs as (E & Hc & Hs). rewrite E. unfold truth.
    destruct (Z.eqb_spec c 0); [lia|]. simpl.
    replace (s + n + 1) with (s + (n + 1)) in Hs by lia.
    rewrite (IH (n + 1) l) by (done || lia). f_equal. lia.
Qed.

(** strlen counts the bytes before the NUL, given fuel for one more step. *)
Lemma strlen_correct fuel m s l :
  is_cstr m s l -> (length l < fuel)%nat ->
  strlen fuel m s = Some (Z.of_nat (length l)).
Proof.
  intros H Hl. unfold strlen. rewrite <- (Z.add_0_r s) in H.
  by rewrite (strlen_loop_correct fuel m s 0 l).
Qed.

Lemma strncmp_loop_zero m p q n lp lq :
  is_cstr m p lp -> is_cstr m q lq -> mem_ok m ->
  strncmp_loop m p q n = 0 <-> take n lp = take n lq.
Proof.
  revert p q lp lq. induction n as [|n IH]; intros p q lp lq Hp Hq Hm; [done|].
  cbn [strncmp_loop].
  assert (Hbyte : forall a, u8 (m a) = m a) by (intros; apply u8_small, Hm).
  destruct lp as [|c lp], lq as [|d lq]; cbn [is_cstr] in Hp, Hq.
  - by rewrite Hp, Hq.
  - destruct Hq as (E & Hd & Hq). rewrite Hp, E. unfold truth. simpl.
    split; [|discriminate]. pose proof (Hm q). rewrite !u8_small by lia. lia.
  - destruct Hp as (E & Hc & Hp). rewrite E, Hq. unfold truth.
    destruct (Z.eqb_spec c 0); [lia|]. simpl.
    split; [|discriminate]. pose proof (Hm p). rewrite !u8_small by lia. lia.
  - destruct Hp as (Ep & Hc & Hp), Hq as (Eq & Hd & Hq).
    rewrite !Hbyte, Ep, Eq. unfold truth. destruct (Z.eqb_spec c 0); [lia|]. simpl.
    destruct (Z.eqb_spec c d) as [->|Hne].
    + rewrite (IH _ _ lp lq) by done. split; [by intros ->|by intros [= ->]].
    + split; [lia|]. intros [= ->]. lia.
Qed.

Lemma zero_fill_filled m s n : mem_eq (zero_fill m s n) (filled m s (Z.of_nat n) 0).
Proof.
  revert m s. induction n as [|n IH]; intros m s x; cbn [zero_fill].
  - unfold filled. range_cases; done.
  - rewrite IH. unfold filled, mset. range_cases; done.
Qed.

(** strncpy writes the [n] bytes at [s], the source string padded with zeros,
    and nothing else. *)
Lemma strncpy_loop_spec m s t n l x :
  is_cstr m t l ->
  t + Z.of_nat (length l) < s \/ s + Z.of_nat n <= t ->
  strncpy_loop m s t n x =
    if (s <=? x) && (x <? s + Z.of_nat n)
    then default 0 (l !! Z.to_nat (x - s)) else m x.
Proof.
  revert m s t l. induction n as [|n IH]; intros m s t l Hl Hd; cbn [strncpy_loop].
  - range_cases; done.
  - destruct l as [|c l]; cbn [is_cstr length] in *.
    + rewrite Hl. simpl. rewrite zero_fill_filled. unfold filled, mset. range_cases; done.
    + destruct Hl as (E & Hc & Hl). rewrite E. unfold truth.
      destruct (Z.eqb_spec c 0); [lia|]. cbn [negb].
      rewrite (IH _ _ _ l).
      * unfold mset. range_cases; try done; subst.
        -- replace (Z.to_nat (x - s)) with (S (Z.to_nat (x - (s + 1)))) by lia. done.
        -- by replace (Z.to_nat (s - s)) with 0%nat by lia.
      * eapply is_cstr_ext; [|exact Hl]. intros y Hy. rewrite mset_ne by lia. done.
      * lia.
Qed.

Lemma safestrcpy_loop_spec m s t k l :
  is_cstr m t l ->
  t + Z.of_nat (length l) < s \/ s + Z.of_nat k < t ->
  is_cstr (safestrcpy_loop m s t k) s (take k l) /\
  (forall x, ~ (s <= x <= s + Z.of_nat k) -> safestrcpy_loop m s t k x = m x) /\
  (forall x, x < s -> safestrcpy_loop m s t k x = m x).
Proof.
  revert m s t l. induction k as [|k IH]; intros m s t l Hl Hd; cbn [safestrcpy_loop take].
  - split_and!; [simpl; apply mset_eq|intros x Hx; apply mset_ne; lia..].
  - destruct l as [|c l]; cbn [is_cstr length] in *.
    + rewrite Hl. simpl. split_and!.
      * rewrite mset_ne by lia. apply mset_eq.
      * intros x Hx. rewrite !mset_ne by lia. done.
      * intros x Hx. rewrite !mset_ne by lia. done.
    + destruct Hl as (E & Hc & Hl). rewrite E. unfold truth.
      destruct (Z.eqb_spec c 0); [lia|]. cbn [negb].
      destruct (IH (mset m s c) (s + 1) (t + 1) l) as (H1 & H2 & H3).
      * eapply is_cstr_ext; [|exact Hl]. intros y Hy. rewrite mset_ne by lia. done.
      * lia.
      * split_and!.
        -- simpl. split_and!; [|done|done]. rewrite H3 by lia. apply mset_eq.
        -- intros x Hx. rewrite H2 by lia. apply mset_ne. lia.
        -- intros x Hx. rewrite H3 by lia. apply mset_ne. lia.
Qed.

(** ** Stored bytes *)

Lemma store_bytes_lookup m p l x :
  store_bytes m p l x = if decide (p <= x < p + Z.of_nat (length l)) then nth (Z.to_nat (x - p)) l 0 else m x.
Proof.
  revert m p. induction l as [|c l IH]; intros m p; cbn [store_bytes length].
  - by rewrite decide_False by lia.
  - rewrite IH, mset_spec. destruct (Z.eqb_spec x p) as [->|Hx].
    + repeat case_decide; try lia. by rewrite Z.sub_diag.
    + repeat case_decide; try lia. replace (Z.to_nat (x - p)) with (S (Z.to_nat (x - (p + 1)))) by lia. done.
Qed.

Lemma store_bytes_ok m p l : mem_ok m -> Forall (fun b => 0 <= b < 256) l -> mem_ok (store_bytes m p l).
Proof.
  intros Hm Hl x. rewrite store_bytes_lookup. case_decide; [|apply Hm]. rewrite Forall_nth in Hl. apply Hl. lia.
Qed.
