(* ===== verification/Layout.v ===== *)
(** * Constants and address arithmetic

    param.h, memlayout.h and mmu.h: sizes, the kernel address layout, the two
    level x86 page-table index arithmetic and the descriptor encodings. *)

From S2P Require Import Prelude.

(** ** param.h *)
Definition NPROC : Z := 64.
Definition KSTACKSIZE : Z := 4096.
Definition NCPU : Z := 8.
Definition NOFILE : Z := 16.
Definition NFILE : Z := 100.
Definition NINODE : Z := 50.
Definition NDEV : Z := 10.
Definition ROOTDEV : Z := 1.
Definition MAXARG : Z := 32.
Definition MAXOPBLOCKS : Z := 10.
Definition LOGSIZE : Z := MAXOPBLOCKS * 3.
Definition NBUF : Z := MAXOPBLOCKS * 3.
Definition FSSIZE : Z := 1000.

(** ** memlayout.h *)
Definition EXTMEM : Z := 0x100000.
Definition PHYSTOP : Z := 0xE000000.
Definition DEVSPACE : Z := 0xFE000000.
Definition KERNBASE : Z := 0x80000000.
Definition KERNLINK : Z := KERNBASE + EXTMEM.
Definition V2P (a : Z) : Z := u32 (a - KERNBASE).
Definition P2V (a : Z) : Z := u32 (a + KERNBASE).

(** ** mmu.h *)
Definition NPDENTRIES : Z := 1024.
Definition NPTENTRIES : Z := 1024.
Definition PGSIZE : Z := 4096.
Definition PGSHIFT : Z := 12.
Definition PTXSHIFT : Z := 12.
Definition PDXSHIFT : Z := 22.

Definition PDX (va : Z) : Z := Z.land (Z.shiftr va PDXSHIFT) 0x3FF.
Definition PTX (va : Z) : Z := Z.land (Z.shiftr va PTXSHIFT) 0x3FF.
Definition PGADDR (d t o : Z) : Z :=
  u32 (Z.lor (Z.lor (Z.shiftl d PDXSHIFT) (Z.shiftl t PTXSHIFT)) o).
Definition PGROUNDUP (sz : Z) : Z := Z.land (u32 (sz + PGSIZE - 1)) (Z.lnot (PGSIZE - 1)).
Definition PGROUNDDOWN (a : Z) : Z := Z.land a (Z.lnot (PGSIZE - 1)).

Definition PTE_P : Z := 0x001.
Definition PTE_W : Z := 0x002.
Definition PTE_U : Z := 0x004.
Definition PTE_PS : Z := 0x080.
Definition PTE_ADDR (pte : Z) : Z := Z.land pte (Z.lnot 0xFFF).
Definition PTE_FLAGS (pte : Z) : Z := Z.land pte 0xFFF.

Definition FL_IF : Z := 0x200.
Definition SEG_KCODE : Z := 1.
Definition SEG_KDATA : Z := 2.
Definition SEG_UCODE : Z := 3.
Definition SEG_UDATA : Z := 4.
Definition SEG_TSS : Z := 5.
Definition DPL_USER : Z := 3.

(** ** Arithmetic of the masks *)

Lemma PGROUNDDOWN_eq a : PGROUNDDOWN a = a - a mod 4096.
Proof. unfold PGROUNDDOWN, PGSIZE. change (4096 - 1) with (2 ^ 12 - 1). by rewrite land_high. Qed.

Lemma PGROUNDUP_eq a : 0 <= a -> a + 4095 < 4294967296 ->
  PGROUNDUP a = (a + 4095) - (a + 4095) mod 4096.
Proof.
  intros H1 H2. unfold PGROUNDUP, PGSIZE. rewrite u32_small by lia.
  change (4096 - 1) with (2 ^ 12 - 1). rewrite land_high by lia.
  change (2 ^ 12) with 4096. by replace (a + 4096 - 1) with (a + 4095) by lia.
Qed.

Lemma PDX_eq va : PDX va = (va / 4194304) mod 1024.
Proof.
  unfold PDX, PDXSHIFT. change 0x3FF with (2 ^ 10 - 1).
  by rewrite land_low, Z.shiftr_div_pow2 by lia.
Qed.

Lemma PTX_eq va : PTX va = (va / 4096) mod 1024.
Proof.
  unfold PTX, PTXSHIFT. change 0x3FF with (2 ^ 10 - 1).
  by rewrite land_low, Z.shiftr_div_pow2 by lia.
Qed.

Lemma PTE_ADDR_eq pte : PTE_ADDR pte = pte - pte mod 4096.
Proof. unfold PTE_ADDR. change 0xFFF with (2 ^ 12 - 1). by rewrite land_high. Qed.

Lemma PTE_FLAGS_eq pte : PTE_FLAGS pte = pte mod 4096.
Proof. unfold PTE_FLAGS. change 0xFFF with (2 ^ 12 - 1). by rewrite land_low. Qed.

(** A page-aligned address is the page directory index, the page table index
    and twelve zero bits. *)
Lemma page_index_split va :
  0 <= va < 4294967296 -> va mod 4096 = 0 -> va = PDX va * 4194304 + PTX va * 4096.
Proof. intros H1 H2. rewrite PDX_eq, PTX_eq. dlia. Qed.

Lemma PDX_range va : 0 <= PDX va < 1024.
Proof. rewrite PDX_eq. dlia. Qed.
Lemma PTX_range va : 0 <= PTX va < 1024.
Proof. rewrite PTX_eq. dlia. Qed.

Lemma P2V_V2P a : 0 <= a < 4294967296 -> P2V (V2P a) = a.
Proof. intros H. unfold P2V, V2P. rewrite u32_add_l. rewrite u32_small; lia. Qed.
