(* ===== verification/Kalloc.v ===== *)
(** * The physical page allocator (kalloc.c)

    The free list is threaded through the free pages themselves: the first
    word of a free page is the address of the next one.  The state is the
    kernel's memory plus the fields of the [kmem] structure; the allocator's
    lock is represented by whether the running CPU holds it. *)

From S2P Require Import Prelude Mem Layout.

Record kmem := Kmem {
  km_mem : mem;         (* memory, by kernel virtual address *)
  km_locked : bool;     (* kmem.lock held *)
  km_use_lock : bool;   (* kmem.use_lock *)
  km_freelist : Z       (* kmem.freelist, 0 for the empty list *)
}.

Definition set_mem (m : mem) (k : kmem) : kmem :=
  Kmem m (km_locked k) (km_use_lock k) (km_freelist k).
Definition set_locked (b : bool) (k : kmem) : kmem :=
  Kmem (km_mem k) b (km_use_lock k) (km_freelist k).
Definition set_use_lock (b : bool) (k : kmem) : kmem :=
  Kmem (km_mem k) (km_locked k) b (km_freelist k).
Definition set_freelist (p : Z) (k : kmem) : kmem :=
  Kmem (km_mem k) (km_locked k) (km_use_lock k) p.

(** acquire and release of kmem.lock as the holder sees them; spinning on a
    lock held by another CPU is the subject of Spinlock.v. *)
Definition kmem_acquire : K kmem unit :=
  let! held := kget km_locked in
  if held : bool then kpanic "acquire" else kmodify (set_locked true).
Definition kmem_release : K kmem unit :=
  let! held := kget km_locked in
  if held : bool then kmodify (set_locked false) else kpanic "release".

Definition if_use_lock (c : K kmem unit) : K kmem unit :=
  let! u := kget km_use_lock in
  if u : bool then c else kret tt.

Section kalloc.
(** The linker symbol [end]: the first address after the loaded kernel. *)
Variable end_ : Z.

Definition kfree (v : Z) : K kmem unit :=
  if truth (v mod PGSIZE) || (v <? end_) || (PHYSTOP <=? V2P v)
  then kpanic "kfree"
  else
    kmodify (fun k => set_mem (memset (km_mem k) v 1 PGSIZE) k) ;;
    if_use_lock kmem_acquire ;;
    kmodify (fun k => set_mem (store32 (km_mem k) v (km_freelist k)) k) ;;
    kmodify (set_freelist v) ;;
    if_use_lock kmem_release.

Definition kalloc : K kmem Z :=
  if_use_lock kmem_acquire ;;
  let! r := kget km_freelist in
  (if truth r then kmodify (fun k => set_freelist (load32 (km_mem k) r) k) else kret tt) ;;
  if_use_lock kmem_release ;;
  kret r.

(** [for(; p + PGSIZE <= vend; p += PGSIZE) kfree(p)]: the bound [n] on the
    number of rounds is computed from the range. *)
Fixpoint freerange_loop (n : nat) (p vend : Z) : K kmem unit :=
  if p + PGSIZE <=? vend then
    match n with
    | O => knofuel
    | S n' => kfree p ;; freerange_loop n' (p + PGSIZE) vend
    end
  else kret tt.

Definition freerange (vstart vend : Z) : K kmem unit :=
  freerange_loop (Z.to_nat ((vend - PGROUNDUP vstart) / PGSIZE)) (PGROUNDUP vstart) vend.

Definition kinit1 (vstart vend : Z) : K kmem unit :=
  kmodify (set_locked false) ;;         (* initlock *)
  kmodify (set_use_lock false) ;;
  freerange vstart vend.

Definition kinit2 (vstart vend : Z) : K kmem unit :=
  freerange vstart vend ;;
  kmodify (set_use_lock true).
End kalloc.

(** ** Representation invariant *)

Section invariant.
Variable end_ : Z.

(** The addresses [kfree] accepts. *)
Definition page_ok (v : Z) : Prop :=
  0 <= v < 4294967296 /\ v mod PGSIZE = 0 /\ end_ <= v /\ V2P v < PHYSTOP.

(** The list headed by [p] threads exactly the pages [ps], in order. *)
Fixpoint freelist_at (m : mem) (p : Z) (ps : list Z) : Prop :=
  match ps with
  | [] => p = 0
  | v :: ps' => p = v /\ page_ok v /\ freelist_at m (load32 m v) ps'
  end.

Record kmem_wf (k : kmem) (ps : list Z) : Prop := {
  kw_unlocked : km_locked k = false;
  kw_list : freelist_at (km_mem k) (km_freelist k) ps;
  kw_nodup : NoDup ps
}.

Lemma page_ok_range v : page_ok v -> KERNBASE <= v < KERNBASE + PHYSTOP.
Proof. unfold page_ok, V2P, PHYSTOP, KERNBASE, PGSIZE. intros. dlia. Qed.

Lemma page_ok_kfree_guard v :
  0 <= v < 4294967296 ->
  truth (v mod PGSIZE) || (v <? end_) || (PHYSTOP <=? V2P v) = false <-> page_ok v.
Proof.
  intros Hv. unfold page_ok, truth. rewrite !orb_false_iff, negb_false_iff.
  rewrite Z.eqb_eq, Z.ltb_ge, Z.leb_gt. naive_solver.
Qed.

(** Distinct pages do not overlap. *)
Lemma pages_disjoint v w x :
  v mod PGSIZE = 0 -> w mod PGSIZE = 0 -> v <> w ->
  w <= x < w + PGSIZE -> ~ (v <= x < v + PGSIZE).
Proof. unfold PGSIZE. intros. dlia. Qed.

Lemma freelist_at_pages m p ps : freelist_at m p ps -> Forall page_ok ps.
Proof. revert p. induction ps as [|v ps IH]; intros p; [done|]. simpl. naive_solver. Qed.

(** The list only depends on the pages that are on it. *)
Lemma freelist_at_ext m m' p ps :
  (forall v x, v ∈ ps -> v <= x < v + PGSIZE -> m' x = m x) ->
  freelist_at m p ps -> freelist_at m' p ps.
Proof.
  revert p. induction ps as [|v ps IH]; intros p H; [done|]. simpl.
  intros (-> & Hv & Hps). split_and!; [done|done|].
  rewrite (load32_ext m' m).
  - apply IH; [|done]. intros w x Hw. apply H. set_solver.
  - intros x Hx. apply (H v); [set_solver|]. unfold PGSIZE. lia.
Qed.

Lemma freelist_at_zero m ps : freelist_at m 0 ps -> ps = [].
Proof.
  destruct ps as [|v ps]; [done|]. intros (<- & Hv & _).
  apply page_ok_range in Hv. unfold KERNBASE in Hv. lia.
Qed.

(** The bytes of a page right after it was freed. *)
Definition freed_page (m : mem) (v next : Z) : mem :=
  store32 (memset m v 1 PGSIZE) v next.

Lemma freed_page_out m v n x : ~ (v <= x < v + PGSIZE) -> freed_page m v n x = m x.
Proof.
  intros Hx. unfold freed_page. unfold PGSIZE in *. rewrite store32_out by lia.
  rewrite memset_filled by lia. by apply filled_out.
Qed.

Lemma freed_page_link m v n : load32 (freed_page m v n) v = u32 n.
Proof. apply load32_store32_eq. Qed.

Lemma freelist_at_head_range m p ps : freelist_at m p ps -> 0 <= p < 4294967296.
Proof. destruct ps; simpl; [lia|]. unfold page_ok. naive_solver. Qed.

(** kfree, as the state it leaves. *)
Lemma kfree_eq k v :
  km_locked k = false -> page_ok v ->
  kfree end_ v k =
    Ret tt (Kmem (freed_page (km_mem k) v (km_freelist k)) false (km_use_lock k) v).
Proof.
  intros Hl Hv. unfold kfree.
  rewrite (proj2 (page_ok_kfree_guard v (proj1 Hv)) Hv).
  destruct k as [m l u f]; simpl in Hl; subst l.
  unfold kbind, kmodify, if_use_lock, kmem_acquire, kmem_release, kget, kret. simpl.
  by destruct u.
Qed.

Lemma kfree_wf k ps v :
  kmem_wf k ps -> page_ok v -> v ∉ ps ->
  exists k', kfree end_ v k = Ret tt k' /\ kmem_wf k' (v :: ps) /\
    km_use_lock k' = km_use_lock k /\
    (forall x, ~ (v <= x < v + PGSIZE) -> km_mem k' x = km_mem k x).
Proof.
  intros [Hl Hp Hn] Hv Hnin. eexists. split; [by apply kfree_eq|].
  split_and!; [|done|intros x; apply freed_page_out].
  constructor; simpl; [done| |by constructor].
  split_and!; [done|done|]. rewrite freed_page_link, u32_small
    by (eapply freelist_at_head_range; eauto).
  eapply freelist_at_ext; [|exact Hp]. intros w x Hw Hx. apply freed_page_out.
  assert (page_ok w) as [_ [Hwa _]].
  { eapply Forall_forall; [|exact Hw]. by eapply freelist_at_pages. }
  apply (pages_disjoint v w); [apply Hv|done| |done]. congruence.
Qed.

(** kalloc pops the list; on an empty list it answers 0 and changes nothing. *)
Lemma kalloc_eq k :
  km_locked k = false ->
  kalloc k = Ret (km_freelist k)
    (if truth (km_freelist k)
     then set_freelist (load32 (km_mem k) (km_freelist k)) k else k).
Proof.
  intros Hl. destruct k as [m l u f]; simpl in Hl; subst l.
  unfold kalloc, kbind, kmodify, if_use_lock, kmem_acquire, kmem_release, kget, kret. simpl.
  destruct u; simpl; by destruct (truth f).
Qed.

Lemma kalloc_wf k ps :
  kmem_wf k ps ->
  exists r k', kalloc k = Ret r k' /\ km_mem k' = km_mem k /\
    km_use_lock k' = km_use_lock k /\
    match ps with
    | [] => r = 0 /\ k' = k
    | v :: ps' => r = v /\ kmem_wf k' ps'
    end.
Proof.
  intros [Hl Hp Hn]. rewrite kalloc_eq by done. do 2 eexists. split; [done|].
  destruct ps as [|v ps].
  - simpl in Hp. rewrite Hp. done.
  - destruct Hp as (E & Hv & Hp). rewrite E. pose proof (page_ok_range v Hv) as Hr.
    unfold KERNBASE in Hr. unfold truth. destruct (Z.eqb_spec v 0); [lia|]. simpl.
    split_and!; [done..|]. apply NoDup_cons in Hn as [_ Hn]. by constructor.
Qed.
End invariant.

(** ** Initialisation: the pages of a range *)

(** The whole pages of [p, vend), last one first: the order in which a range
    ends up on the free list. *)
Fixpoint pages_rev (n : nat) (p : Z) (ps : list Z) : list Z :=
  match n with
  | O => ps
  | S n' => pages_rev n' (p + PGSIZE) (p :: ps)
  end.

Lemma pages_rev_elem n p ps x :
  x ∈ pages_rev n p ps <-> x ∈ ps \/ exists i, 0 <= i < Z.of_nat n /\ x = p + i * PGSIZE.
Proof.
  revert p ps. induction n as [|n IH]; intros p ps; simpl.
  - split; [tauto|]. intros [H|(i & Hi & _)]; [done|lia].
  - rewrite IH, elem_of_cons. split.
    + intros [[->|H]|(i & Hi & ->)]; [right; exists 0; split; lia|tauto|].
      right. exists (i + 1). split; lia.
    + intros [H|(i & Hi & ->)]; [tauto|].
      destruct (decide (i = 0)) as [->|]; [left; left; lia|].
      right. exists (i - 1). split; lia.
Qed.

Section init.
Variable end_ : Z.
Notation kmem_wf := (kmem_wf end_).
Notation page_ok := (page_ok end_).

Lemma freerange_loop_wf n k ps p vend :
  kmem_wf k ps ->
  vend < p + Z.of_nat n * PGSIZE + PGSIZE ->
  p + Z.of_nat n * PGSIZE <= Z.max p vend ->
  (forall i, 0 <= i < Z.of_nat n -> page_ok (p + i * PGSIZE) /\ p + i * PGSIZE ∉ ps) ->
  exists k', freerange_loop end_ n p vend k = Ret tt k' /\
    kmem_wf k' (pages_rev n p ps) /\ km_use_lock k' = km_use_lock k.
Proof.
  revert k ps p. induction n as [|n IH]; intros k ps p Hwf H1 H2 Hi; cbn [freerange_loop].
  - destruct (Z.leb_spec (p + PGSIZE) vend); [lia|]. by exists k.
  - destruct (Z.leb_spec (p + PGSIZE) vend); [|unfold PGSIZE in *; lia].
    destruct (Hi 0) as [Hp Hnin]; [lia|]. rewrite Z.mul_0_l, Z.add_0_r in Hp, Hnin.
    destruct (kfree_wf end_ k ps p) as (k1 & E & Hwf1 & Hu & _); [done..|].
    unfold kbind at 1. rewrite E.
    destruct (IH k1 (p :: ps) (p + PGSIZE)) as (k2 & E2 & Hwf2 & Hu2);
      [done|lia|lia| |exists k2; rewrite E2, Hu2; done].
    intros i Hi'. destruct (Hi (i + 1)) as [Hpi Hni]; [lia|].
    replace (p + PGSIZE + i * PGSIZE) with (p + (i + 1) * PGSIZE) by lia.
    split; [done|]. rewrite not_elem_of_cons. split; [unfold PGSIZE; lia|done].
Qed.

(** Every whole page of the (rounded-up) range is freeable. *)
Definition range_ok (vstart vend : Z) : Prop :=
  0 <= vstart /\ vstart + 4095 < 4294967296 /\ vend < 4294967296 /\
  Z.max end_ KERNBASE <= PGROUNDUP vstart /\ vend <= KERNBASE + PHYSTOP.

Definition range_pages (vstart vend : Z) : nat :=
  Z.to_nat ((vend - PGROUNDUP vstart) / PGSIZE).

Lemma freerange_wf k ps vstart vend :
  kmem_wf k ps -> range_ok vstart vend ->
  (forall i, 0 <= i < Z.of_nat (range_pages vstart vend) ->
     PGROUNDUP vstart + i * PGSIZE ∉ ps) ->
  exists k', freerange end_ vstart vend k = Ret tt k' /\
    kmem_wf k' (pages_rev (range_pages vstart vend) (PGROUNDUP vstart) ps) /\
    km_use_lock k' = km_use_lock k.
Proof.
  intros Hwf (H0 & H1 & H2 & H3 & H4) Hnin. unfold freerange.
  pose proof (PGROUNDUP_eq vstart H0 H1) as Hr.
  set (p := PGROUNDUP vstart) in *. unfold range_pages in *. fold p in Hnin |- *.
  assert (Hp0 : p mod PGSIZE = 0) by (unfold PGSIZE; rewrite Hr; dlia).
  clearbody p. clear Hr.
  set (n := Z.to_nat _) in *.
  assert (Hn : Z.of_nat n = Z.max 0 ((vend - p) / PGSIZE)) by (unfold n, PGSIZE; dlia).
  clearbody n.
  apply freerange_loop_wf; [done|unfold PGSIZE in *; dlia..|].
  intros i Hi. split; [|by apply Hnin].
  unfold Kalloc.page_ok, V2P, PGSIZE, PHYSTOP, KERNBASE in *. split_and!; dlia.
Qed.

(** The allocator before kinit1: the zeroed [kmem] of the loaded kernel. *)
Definition kmem_boot (m : mem) : kmem := Kmem m false false 0.

(** main() donates [end, 4MB) with kinit1 and [4MB, PHYSTOP) with kinit2. *)
Definition kinit_all (vstart mid vend : Z) : K kmem unit :=
  kinit1 end_ vstart mid ;; kinit2 end_ mid vend.
End init.

(** ** Clients of the allocator *)

Section clients.
Variable end_ : Z.
Notation kmem_wf := (kmem_wf end_).
Notation page_ok := (page_ok end_).

(** One call by a client that frees only pages it holds. *)
Inductive client_step : kmem * list Z -> kmem * list Z -> Prop :=
| client_alloc k k' r held :
    kalloc k = Ret r k' -> r <> 0 -> client_step (k, held) (k', r :: held)
| client_alloc_fails k k' held :
    kalloc k = Ret 0 k' -> client_step (k, held) (k', held)
| client_free k k' v h1 h2 :
    kfree end_ v k = Ret tt k' ->
    client_step (k, h1 ++ v :: h2) (k', h1 ++ h2).

(** Held and free pages together are the pages [all] of the boot-time list. *)
Definition client_inv (all : list Z) (st : kmem * list Z) : Prop :=
  exists ps, kmem_wf (fst st) ps /\ snd st ++ ps ≡ₚ all.

Lemma client_step_inv all st st' :
  NoDup all -> Forall page_ok all ->
  client_step st st' -> client_inv all st -> client_inv all st'.
Proof.
  intros Hnd Hok Hstep (ps & Hwf & Hperm).
  destruct Hstep as [k k' r held E Hr|k k' held E|k k' v h1 h2 E]; simpl in *.
  - destruct (kalloc_wf end_ k ps Hwf) as (r' & k1 & E1 & _ & _ & H).
    rewrite E in E1. injection E1 as <- <-. destruct ps as [|v ps]; [naive_solver|].
    destruct H as [-> H]. exists ps. split; [done|]. simpl.
    rewrite <- Hperm. apply Permutation_middle.
  - destruct (kalloc_wf end_ k ps Hwf) as (r' & k1 & E1 & _ & _ & H).
    rewrite E in E1. injection E1 as <- <-. destruct ps as [|v ps].
    + destruct H as [_ ->]. by exists [].
    + exfalso. destruct H as [<- _].
      pose proof (kw_list _ _ _ Hwf) as Hl. simpl in Hl. destruct Hl as (_ & Hp & _).
      apply page_ok_range in Hp. unfold KERNBASE in Hp. lia.
  - assert (Hv : v ∈ all) by (rewrite <- Hperm; set_solver).
    assert (Hnd' : NoDup ((h1 ++ v :: h2) ++ ps)) by (by rewrite Hperm).
    destruct (kfree_wf end_ k ps v) as (k1 & E1 & Hwf1 & _).
    + done.
    + by eapply Forall_forall in Hok.
    + apply NoDup_app in Hnd' as (_ & H & _). apply H. set_solver.
    + rewrite E in E1. injection E1 as <-. exists (v :: ps). split; [done|].
      rewrite <- Hperm. simpl. rewrite <- !app_assoc. simpl.
      apply Permutation_app_head. symmetry. rewrite Permutation_middle. done.
Qed.

Lemma client_reach_inv all st st' :
  NoDup all -> Forall page_ok all ->
  rtc client_step st st' -> client_inv all st -> client_inv all st'.
Proof. intros Hn Hok. induction 1; [done|]. eauto using client_step_inv. Qed.
End clients.

(** ** Properties *)

(** C19: No page is ever handed out twice.  Start the allocator on a well-formed
    free list [all] and let clients call kalloc and kfree in any order, freeing
    only pages they hold.  Then the pages held are pairwise distinct and not on
    the free list, no page is lost (held plus free is always [all]), kfree of a
    held page never panics, and kalloc always returns, with 0 exactly when no
    page is left. *)
Theorem kalloc_no_double_allocation (end_ : Z) (k0 k : kmem) (all held : list Z) :
  kmem_wf end_ k0 all ->
  rtc (client_step end_) (k0, []) (k, held) ->
  exists free,
    kmem_wf end_ k free /\ NoDup (held ++ free) /\ held ++ free ≡ₚ all /\
    (forall v, v ∈ held -> exists k', kfree end_ v k = Ret tt k') /\
    (exists r k', kalloc k = Ret r k' /\ (r = 0 <-> free = [])).
Proof.
  intros Hwf Hreach.
  assert (Hok : Forall (page_ok end_) all)
    by (eapply freelist_at_pages, (kw_list _ _ _ Hwf)).
  pose proof (kw_nodup _ _ _ Hwf) as Hnd.
  destruct (client_reach_inv end_ all (k0, []) (k, held)) as (free & Hf & Hp);
    [done..|exists all; split; [done|by simpl]|].
  exists free. simpl in Hp, Hf.
  assert (Hnd2 : NoDup (held ++ free)) by (by rewrite Hp).
  split_and!; [done|done|done| |].
  - intros v Hv. destruct (kfree_wf end_ k free v) as (k' & E & _); [done| | |eauto].
    + eapply Forall_forall; [exact Hok|]. rewrite <- Hp. set_solver.
    + apply NoDup_app in Hnd2 as (_ & H & _). by apply H.
  - destruct (kalloc_wf end_ k free Hf) as (r & k' & E & _ & _ & H). exists r, k'.
    split; [done|]. destruct free as [|v free]; [naive_solver|].
    destruct H as [-> _]. split; [|done]. intros ->. exfalso.
    pose proof (kw_list _ _ _ Hf) as Hl. simpl in Hl. destruct Hl as (_ & Hpg & _).
    apply page_ok_range in Hpg. unfold KERNBASE in Hpg. lia.
Qed.

(** Boot-time initialisation.  kinit1 then kinit2 over adjacent ranges put
    exactly the whole pages of the two ranges on the free list, each once, and
    leave the allocator unlocked with locking switched on. *)
Theorem kinit_frees_all_pages (end_ : Z) (m : mem) (vstart mid vend : Z) :
  range_ok end_ vstart mid -> range_ok end_ mid vend -> mid mod PGSIZE = 0 ->
  exists k ps,
    kinit_all end_ vstart mid vend (kmem_boot m) = Ret tt k /\
    kmem_wf end_ k ps /\ km_use_lock k = true /\
    forall v, v ∈ ps <->
      (v mod PGSIZE = 0 /\ PGROUNDUP vstart <= v /\ v + PGSIZE <= mid) \/
      (v mod PGSIZE = 0 /\ mid <= v /\ v + PGSIZE <= vend).
Proof.
  intros R1 R2 Hmid.
  pose proof R1 as (A0 & A1 & A2 & A3 & A4). pose proof R2 as (B0 & B1 & B2 & B3 & B4).
  pose proof (PGROUNDUP_eq vstart A0 A1) as Hr1.
  assert (Hr2 : PGROUNDUP mid = mid)
    by (rewrite PGROUNDUP_eq by done; unfold PGSIZE in Hmid; dlia).
  assert (Hal : PGROUNDUP vstart mod PGSIZE = 0) by (unfold PGSIZE; rewrite Hr1; dlia).
  destruct (freerange_wf end_ (kmem_boot m) [] vstart mid) as (k1 & E1 & Hwf1 & Hu1);
    [repeat constructor|done|set_solver|].
  destruct (freerange_wf end_ k1 (pages_rev (range_pages vstart mid) (PGROUNDUP vstart) [])
              mid vend) as (k2 & E2 & Hwf2 & Hu2); [done|done| |].
  { intros i Hi. rewrite pages_rev_elem. intros [H|(j & Hj & Hij)]; [set_solver|].
    unfold range_pages, PGSIZE in *. dlia. }
  exists (set_use_lock true k2). eexists. split_and!.
  - unfold kinit_all, kinit1, kinit2, kbind, kmodify.
    change (set_use_lock false (set_locked false (kmem_boot m))) with (kmem_boot m).
    by rewrite E1, E2.
  - destruct Hwf2 as [Hl Hf Hn]. constructor; [done|exact Hf|exact Hn].
  - done.
  - intros v. rewrite !pages_rev_elem. unfold range_pages. rewrite Hr2.
    clear -Hal Hmid. unfold PGSIZE in *. split.
    + intros [[H|(i & Hi & ->)]|(i & Hi & ->)]; [set_solver|left; dlia|right; dlia].
    + intros [(H1 & H2 & H3)|(H1 & H2 & H3)].
      * left; right. exists ((v - PGROUNDUP vstart) / 4096). dlia.
      * right. exists ((v - mid) / 4096). dlia.
Qed.

(** ** Concrete instances *)

Definition ex_end : Z := 0x80200000.
Definition ex_pageA : Z := 0x80200000.
Definition ex_pageB : Z := 0x80201000.
Definition ex_kmem : kmem :=
  Kmem (store32 (fun _ => 0) ex_pageA ex_pageB) false true ex_pageA.

Lemma ex_kmem_wf : kmem_wf ex_end ex_kmem [ex_pageA; ex_pageB].
Proof.
  constructor; [done| |apply (bool_decide_unpack _); vm_compute; done].
  simpl. repeat split; vm_compute; congruence.
Qed.

(** The hypotheses of C1 hold after one allocation from a two-page list. *)
Lemma kalloc_no_double_allocation_witness :
  exists k free, kmem_wf ex_end k free /\ NoDup ([ex_pageA] ++ free) /\
    [ex_pageA] ++ free ≡ₚ [ex_pageA; ex_pageB].
Proof.
  destruct (kalloc_no_double_allocation ex_end ex_kmem
              (set_freelist ex_pageB ex_kmem) [ex_pageA; ex_pageB] [ex_pageA])
    as (free & H1 & H2 & H3 & _).
  - exact ex_kmem_wf.
  - eapply rtc_l; [|apply rtc_refl].
    apply client_alloc; [vm_compute; reflexivity|vm_compute; discriminate].
  - eauto.
Defined.

(** The hypotheses of C2 hold for a two-page and a three-page range. *)
Lemma kinit_frees_all_pages_witness :
  exists k ps, kinit_all ex_end 0x80200001 0x80202000 0x80205000 (kmem_boot (fun _ => 0)) = Ret tt k
    /\ kmem_wf ex_end k ps.
Proof.
  destruct (kinit_frees_all_pages ex_end (fun _ => 0) 0x80200001 0x80202000 0x80205000)
    as (k & ps & H1 & H2 & _).
  - vm_compute; intuition discriminate.
  - vm_compute; intuition discriminate.
  - reflexivity.
  - exists k, ps. split; [exact H1|exact H2].
Defined.
