(* ===== verification/Spinlock.v ===== *)
(** * Spin locks (spinlock.c) and the per-CPU interrupt nesting

    The machine state is the [cpus] table, the interrupt flag of each
    processor, the spin locks and memory.  A routine runs on the processor
    [me].  [acquire] is split at its atomic [xchg], so that its interleavings
    with other processors are explicit in [lock_step]. *)

From S2P Require Import Prelude Mem Layout.

(** struct cpu (proc.h), the fields the lock code uses. *)
Record cpu := Cpu { apicid : Z; ncli : Z; intena : Z }.

(** struct spinlock (spinlock.h); [lk_cpu] is an index into [cpus]. *)
Record spinlock := SpinLock {
  locked : Z;
  lk_name : string;
  lk_cpu : option nat;
  lk_pcs : list Z
}.

Record machine := Machine {
  cpus : list cpu;
  ncpu : nat;
  iflag : list bool;        (* FL_IF in the eflags of each processor *)
  locks : list spinlock;
  mmem : mem
}.

Definition set_cpus (l : list cpu) (m : machine) : machine :=
  Machine l (ncpu m) (iflag m) (locks m) (mmem m).
Definition set_iflag (l : list bool) (m : machine) : machine :=
  Machine (cpus m) (ncpu m) l (locks m) (mmem m).
Definition set_locks (l : list spinlock) (m : machine) : machine :=
  Machine (cpus m) (ncpu m) (iflag m) l (mmem m).

Definition dummy_cpu : cpu := Cpu 0 0 0.
Definition dummy_lock : spinlock := SpinLock 0 "" None [].
Definition cpu_at (m : machine) (i : nat) : cpu := nth i (cpus m) dummy_cpu.
Definition if_at (m : machine) (i : nat) : bool := nth i (iflag m) false.
Definition lock_at (m : machine) (l : nat) : spinlock := nth l (locks m) dummy_lock.
Definition upd_cpu (i : nat) (f : cpu -> cpu) (m : machine) : machine :=
  set_cpus (alter f i (cpus m)) m.
Definition upd_lock (l : nat) (f : spinlock -> spinlock) (m : machine) : machine :=
  set_locks (alter f l (locks m)) m.

Definition initlock (l : nat) (name : string) : K machine unit :=
  kmodify (upd_lock l (fun lk => SpinLock 0 name None (lk_pcs lk))).

(** Record the call stack: follow the %ebp chain from the frame of the caller. *)
Fixpoint callerpcs (n : nat) (m : mem) (ebp : Z) : list Z :=
  match n with
  | O => []
  | S n' =>
      if (ebp =? 0) || (ebp <? KERNBASE) || (ebp =? 0xffffffff) then repeat 0 n
      else load32 m (ebp + 4) :: callerpcs n' m (load32 m ebp)
  end.
Definition getcallerpcs (m : mem) (v : Z) : list Z := callerpcs 10 m (u32 (v - 8)).

Section on_cpu.
(** lapic.c: the local APIC id of processor [i]. *)
Variable lapicid : nat -> Z.
Variable me : nat.

Definition readeflags : K machine Z := kget (fun m => if if_at m me then FL_IF else 0).
Definition cli : K machine unit := kmodify (fun m => set_iflag (<[me := false]> (iflag m)) m).
Definition sti : K machine unit := kmodify (fun m => set_iflag (<[me := true]> (iflag m)) m).

(** [for (i = 0; i < ncpu; ++i) if (cpus[i].apicid == apicid) return &cpus[i];] *)
Fixpoint find_cpu (id : Z) (l : list cpu) (i : nat) : option nat :=
  match l with
  | [] => None
  | c :: l' => if apicid c =? id then Some i else find_cpu id l' (S i)
  end.

Definition mycpu : K machine nat :=
  let! fl := readeflags in
  if truth (Z.land fl FL_IF) then kpanic "mycpu called with interrupts enabled"
  else
    let! r := kget (fun m => find_cpu (lapicid me) (take (ncpu m) (cpus m)) 0) in
    match r with
    | Some i => kret i
    | None => kpanic "unknown apicid"
    end.

Definition cpuid : K machine Z := let! i := mycpu in kret (Z.of_nat i).

Definition pushcli : K machine unit :=
  let! eflags := readeflags in
  cli ;;
  let! i := mycpu in
  let! n := kget (fun m => ncli (cpu_at m i)) in
  (if n =? 0
   then kmodify (upd_cpu i (fun c => Cpu (apicid c) (ncli c) (Z.land eflags FL_IF)))
   else kret tt) ;;
  kmodify (upd_cpu i (fun c => Cpu (apicid c) (ncli c + 1) (intena c))).

Definition popcli : K machine unit :=
  let! fl := readeflags in
  if truth (Z.land fl FL_IF) then kpanic "popcli - interruptible"
  else
    let! i := mycpu in
    kmodify (upd_cpu i (fun c => Cpu (apicid c) (ncli c - 1) (intena c))) ;;
    let! c := kget (fun m => cpu_at m i) in
    if ncli c <? 0 then kpanic "popcli"
    else if (ncli c =? 0) && truth (intena c) then sti else kret tt.

(** [lock->locked && lock->cpu == mycpu()]: mycpu is only called when the
    lock is taken. *)
Definition holding (l : nat) : K machine bool :=
  let! lk := kget (fun m => lock_at m l) in
  if truth (locked lk) then
    let! i := mycpu in kret (bool_decide (lk_cpu lk = Some i))
  else kret false.

(** The atomic exchange: store [newval], answer the old value. *)
Definition xchg_locked (l : nat) (newval : Z) : K machine Z :=
  let! old := kget (fun m => locked (lock_at m l)) in
  kmodify (upd_lock l (fun lk => SpinLock newval (lk_name lk) (lk_cpu lk) (lk_pcs lk))) ;;
  kret old.

(** acquire, up to the spin loop. *)
Definition acquire_enter (l : nat) : K machine unit :=
  pushcli ;;
  let! h := holding l in
  if h : bool then kpanic "acquire" else kret tt.

(** acquire, after the loop; [fp] is the address of its argument. *)
Definition acquire_finish (l : nat) (fp : Z) : K machine unit :=
  let! i := mycpu in
  let! mm := kget mmem in
  kmodify (upd_lock l (fun lk =>
    SpinLock (locked lk) (lk_name lk) (Some i) (getcallerpcs mm fp))).

(** [while (xchg(&lk->locked, 1) != 0) ;] *)
Fixpoint spin (fuel : nat) (l : nat) : K machine unit :=
  match fuel with
  | O => knofuel
  | S f => let! old := xchg_locked l 1 in
           if truth old then spin f l else kret tt
  end.

Definition acquire (fuel : nat) (l : nat) (fp : Z) : K machine unit :=
  acquire_enter l ;; spin fuel l ;; acquire_finish l fp.

(** release, up to the store that frees the lock. *)
Definition release_enter (l : nat) : K machine unit :=
  let! h := holding l in
  if h : bool then
    kmodify (upd_lock l (fun lk =>
      SpinLock (locked lk) (lk_name lk) None (<[0%nat := 0]> (lk_pcs lk))))
  else kpanic "release".

(** The [movl $0] and popcli that end release. *)
Definition release_store (l : nat) : K machine unit :=
  kmodify (upd_lock l (fun lk => SpinLock 0 (lk_name lk) (lk_cpu lk) (lk_pcs lk))) ;;
  popcli.

Definition release (l : nat) : K machine unit := release_enter l ;; release_store l.
End on_cpu.

(** ** Sequential behaviour *)

Section facts.
Variable lapicid : nat -> Z.

(** The table filled by mpinit: one entry per processor, with its APIC id. *)
Record machine_ok (m : machine) : Prop := {
  mo_ncpu : ncpu m = length (cpus m);
  mo_iflag : length (iflag m) = length (cpus m);
  mo_apic : forall i, (i < ncpu m)%nat -> apicid (cpu_at m i) = lapicid i;
  mo_inj : forall i j, (i < ncpu m)%nat -> (j < ncpu m)%nat -> lapicid i = lapicid j -> i = j
}.

Lemma find_cpu_first id l k i :
  (i < length l)%nat ->
  apicid (nth i l dummy_cpu) = id ->
  (forall j, (j < i)%nat -> apicid (nth j l dummy_cpu) <> id) ->
  find_cpu id l k = Some (k + i)%nat.
Proof.
  revert k i. induction l as [|c l IH]; intros k i Hi Hid Hlt; [simpl in Hi; lia|]. simpl.
  destruct i as [|i].
  - simpl in Hid. rewrite Hid, Z.eqb_refl. f_equal. lia.
  - pose proof (Hlt 0%nat ltac:(lia)) as H0. simpl in H0.
    apply Z.eqb_neq in H0 as ->. rewrite (IH (S k) i); [f_equal; lia|simpl in Hi; lia|done|].
    intros j Hj. apply (Hlt (S j)). lia.
Qed.

Lemma mycpu_ok m me :
  machine_ok m -> (me < ncpu m)%nat -> if_at m me = false -> mycpu lapicid me m = Ret me m.
Proof.
  intros Hok Hme Hif. unfold mycpu, readeflags, kbind, kget. rewrite Hif. simpl.
  rewrite (mo_ncpu m Hok), take_ge by done.
  rewrite (find_cpu_first _ _ 0 me); [done| | |].
  - rewrite <- (mo_ncpu m Hok). done.
  - by apply (mo_apic m Hok).
  - intros j Hj E. assert (j = me); [|lia]. apply (mo_inj m Hok); [lia|done|].
    rewrite <- (mo_apic m Hok) by lia. done.
Qed.

(** The state pushcli and popcli leave. *)
Definition pushed (me : nat) (m : machine) : machine :=
  upd_cpu me (fun c => Cpu (apicid c) (ncli c + 1)
                (if ncli c =? 0 then (if if_at m me then FL_IF else 0) else intena c))
    (set_iflag (<[me := false]> (iflag m)) m).

Definition popped (me : nat) (m : machine) : machine :=
  let m1 := upd_cpu me (fun c => Cpu (apicid c) (ncli c - 1) (intena c)) m in
  if (ncli (cpu_at m me) =? 1) && truth (intena (cpu_at m me))
  then set_iflag (<[me := true]> (iflag m1)) m1 else m1.

Lemma machine_ok_upd_cpu m i f :
  (forall c, apicid (f c) = apicid c) -> machine_ok m -> machine_ok (upd_cpu i f m).
Proof.
  intros Hf [H1 H2 H3 H4]. unfold upd_cpu. constructor; simpl; rewrite ?length_alter; [done..| |done].
  intros j Hj. unfold cpu_at. simpl. destruct (decide (i = j)) as [->|Hne].
  - rewrite nth_alter_eq by lia. rewrite Hf. by apply H3.
  - rewrite nth_alter_ne by done. by apply H3.
Qed.

Lemma machine_ok_set_iflag m i b :
  machine_ok m -> machine_ok (set_iflag (<[i := b]> (iflag m)) m).
Proof. intros [H1 H2 H3 H4]. constructor; simpl; rewrite ?length_insert; done. Qed.

Lemma machine_ok_pushed m me : machine_ok m -> machine_ok (pushed me m).
Proof. intros H. apply machine_ok_upd_cpu; [done|]. by apply machine_ok_set_iflag. Qed.

Lemma machine_ok_popped m me : machine_ok m -> machine_ok (popped me m).
Proof.
  intros H. unfold popped. assert (Hu : forall c, apicid (Cpu (apicid c) (ncli c - 1) (intena c)) = apicid c) by done.
  destruct (_ && _); [apply machine_ok_set_iflag|]; by apply machine_ok_upd_cpu.
Qed.

Lemma machine_ok_upd_lock m l f : machine_ok m -> machine_ok (upd_lock l f m).
Proof. intros [H1 H2 H3 H4]. by constructor. Qed.
End facts.
#[export] Hint Resolve machine_ok_pushed machine_ok_popped machine_ok_upd_lock : mem.

Section seq_facts.
Variable lapicid : nat -> Z.
Notation machine_ok := (machine_ok lapicid).

Lemma if_at_cleared m me :
  machine_ok m -> (me < ncpu m)%nat -> if_at (set_iflag (<[me := false]> (iflag m)) m) me = false.
Proof.
  intros Hok Hme. unfold if_at. simpl. apply nth_insert_eq.
  rewrite (mo_iflag _ _ Hok), <- (mo_ncpu _ _ Hok). done.
Qed.

Lemma upd_cpu_compose i f g m : upd_cpu i f (upd_cpu i g m) = upd_cpu i (fun c => f (g c)) m.
Proof. unfold upd_cpu, set_cpus. simpl. f_equal. by rewrite list_alter_alter_eq. Qed.

Lemma upd_cpu_ext i f g m :
  f (cpu_at m i) = g (cpu_at m i) -> (i < length (cpus m))%nat -> upd_cpu i f m = upd_cpu i g m.
Proof.
  intros H Hi. unfold upd_cpu, set_cpus. f_equal. apply list_alter_ext; [|done].
  intros x Hx. unfold cpu_at in H. rewrite (nth_lookup_Some _ _ _ _ Hx) in H. done.
Qed.

Lemma cpu_at_upd_eq m i f : (i < length (cpus m))%nat -> cpu_at (upd_cpu i f m) i = f (cpu_at m i).
Proof. intros H. unfold cpu_at, upd_cpu. simpl. by rewrite nth_alter_eq. Qed.

Lemma pushcli_eq m me :
  machine_ok m -> (me < ncpu m)%nat -> pushcli lapicid me m = Ret tt (pushed me m).
Proof.
  intros Hok Hme. unfold pushcli, readeflags, cli, kbind, kget, kmodify.
  rewrite mycpu_ok; [|by apply machine_ok_set_iflag|done|by apply if_at_cleared].
  assert (Hc : forall m' l, cpu_at (set_iflag l m') me = cpu_at m' me) by done.
  assert (Hlen : (me < length (cpus m))%nat) by (rewrite <- (mo_ncpu _ _ Hok); done).
  rewrite Hc. unfold pushed.
  destruct (ncli (cpu_at m me) =? 0) eqn:E; unfold kret; f_equal.
  - rewrite upd_cpu_compose. apply upd_cpu_ext; [|done].
    rewrite Hc. cbn. rewrite E. by destruct (if_at m me).
  - apply upd_cpu_ext; [|done]. rewrite Hc. by rewrite E.
Qed.

Lemma popcli_eq m me :
  machine_ok m -> (me < ncpu m)%nat -> if_at m me = false -> 1 <= ncli (cpu_at m me) ->
  popcli lapicid me m = Ret tt (popped me m).
Proof.
  intros Hok Hme Hif Hn. unfold popcli, readeflags, sti, kbind, kget, kmodify.
  rewrite Hif. change (truth (Z.land 0 FL_IF)) with false. cbv iota beta. rewrite mycpu_ok by done.
  assert (Hlen : (me < length (cpus m))%nat) by (rewrite <- (mo_ncpu _ _ Hok); done).
  rewrite cpu_at_upd_eq by done. cbn [ncli intena].
  destruct (Z.ltb_spec (ncli (cpu_at m me) - 1) 0); [lia|]. unfold popped.
  replace (ncli (cpu_at m me) - 1 =? 0) with (ncli (cpu_at m me) =? 1)
    by (destruct (Z.eqb_spec (ncli (cpu_at m me)) 1), (Z.eqb_spec (ncli (cpu_at m me) - 1) 0); lia).
  by destruct (_ && _).
Qed.

(** What the nesting operations do to the counters and the flag. *)
Lemma pushed_ncli m me :
  machine_ok m -> (me < ncpu m)%nat -> ncli (cpu_at (pushed me m) me) = ncli (cpu_at m me) + 1.
Proof.
  intros Hok Hme. unfold pushed, cpu_at at 1, upd_cpu. cbn [cpus set_cpus set_iflag].
  rewrite nth_alter_eq by (rewrite <- (mo_ncpu _ _ Hok); done). done.
Qed.
Lemma pushed_intena m me :
  machine_ok m -> (me < ncpu m)%nat ->
  intena (cpu_at (pushed me m) me) =
    if ncli (cpu_at m me) =? 0 then (if if_at m me then FL_IF else 0) else intena (cpu_at m me).
Proof.
  intros Hok Hme. unfold pushed, cpu_at at 1, upd_cpu. cbn [cpus set_cpus set_iflag].
  rewrite nth_alter_eq by (rewrite <- (mo_ncpu _ _ Hok); done). done.
Qed.
Lemma pushed_if m me :
  machine_ok m -> (me < ncpu m)%nat -> if_at (pushed me m) me = false.
Proof. intros Hok Hme. by apply (if_at_cleared m me). Qed.
Lemma popped_ncli m me :
  machine_ok m -> (me < ncpu m)%nat -> ncli (cpu_at (popped me m) me) = ncli (cpu_at m me) - 1.
Proof.
  intros Hok Hme. unfold popped, cpu_at at 1, upd_cpu.
  destruct (_ && _); cbn [cpus set_cpus set_iflag];
    rewrite nth_alter_eq by (rewrite <- (mo_ncpu _ _ Hok); done); done.
Qed.
Lemma popped_intena m me :
  machine_ok m -> (me < ncpu m)%nat -> intena (cpu_at (popped me m) me) = intena (cpu_at m me).
Proof.
  intros Hok Hme. unfold popped, cpu_at at 1, upd_cpu.
  destruct (_ && _); cbn [cpus set_cpus set_iflag];
    rewrite nth_alter_eq by (rewrite <- (mo_ncpu _ _ Hok); done); done.
Qed.
Lemma popped_if m me :
  machine_ok m -> (me < ncpu m)%nat ->
  if_at (popped me m) me =
    if (ncli (cpu_at m me) =? 1) && truth (intena (cpu_at m me)) then true else if_at m me.
Proof.
  intros Hok Hme. unfold popped. destruct (_ && _) eqn:E; [|done].
  unfold if_at. cbn [iflag set_iflag]. apply nth_insert_eq.
  cbn. rewrite (mo_iflag _ _ Hok), <- (mo_ncpu _ _ Hok). done.
Qed.

Lemma pushed_other m me j :
  me <> j -> cpu_at (pushed me m) j = cpu_at m j /\ if_at (pushed me m) j = if_at m j.
Proof.
  intros Hne. unfold pushed, cpu_at, if_at, upd_cpu. cbn.
  by rewrite nth_alter_ne, nth_insert_ne.
Qed.
Lemma popped_other m me j :
  me <> j -> cpu_at (popped me m) j = cpu_at m j /\ if_at (popped me m) j = if_at m j.
Proof.
  intros Hne. unfold popped, cpu_at, if_at, upd_cpu.
  destruct (_ && _); cbn; rewrite nth_alter_ne, ?nth_insert_ne; done.
Qed.
Lemma pushed_frame m me : locks (pushed me m) = locks m /\ ncpu (pushed me m) = ncpu m.
Proof. done. Qed.
Lemma popped_frame m me : locks (popped me m) = locks m /\ ncpu (popped me m) = ncpu m.
Proof. unfold popped. by destruct (_ && _). Qed.
End seq_facts.

(** ** Nesting of pushcli and popcli *)

Fixpoint kiter {S} (n : nat) (c : K S unit) : K S unit :=
  match n with
  | O => kret tt
  | Datatypes.S n' => c ;; kiter n' c
  end.

Section nesting.
Variable lapicid : nat -> Z.
Notation machine_ok := (machine_ok lapicid).

Lemma pushcli_iter n m me :
  machine_ok m -> (me < ncpu m)%nat -> 0 <= ncli (cpu_at m me) ->
  exists m', kiter n (pushcli lapicid me) m = Ret tt m' /\ machine_ok m' /\ ncpu m' = ncpu m /\
    ncli (cpu_at m' me) = ncli (cpu_at m me) + Z.of_nat n /\
    if_at m' me = (if (0 <? Z.of_nat n) then false else if_at m me) /\
    intena (cpu_at m' me) =
      (if (0 <? Z.of_nat n) && (ncli (cpu_at m me) =? 0)
       then (if if_at m me then FL_IF else 0) else intena (cpu_at m me)).
Proof.
  revert m. induction n as [|n IH]; intros m Hok Hme Hn; cbn [kiter].
  - exists m. simpl. split_and!; [done..|lia|done|done].
  - unfold kbind. rewrite pushcli_eq by done.
    destruct (IH (pushed me m)) as (m' & E & Hok' & Hc & Hn' & Hi' & Ht');
      [by apply machine_ok_pushed|done|rewrite (pushed_ncli lapicid) by done; lia|].
    exists m'. rewrite E. rewrite (pushed_ncli lapicid) in Hn', Ht' by done.
    rewrite (pushed_if lapicid) in Hi', Ht' by done.
    rewrite (pushed_intena lapicid) in Ht' by done.
    split_and!; [done|done|by rewrite Hc|lia| |].
    + rewrite Hi'. replace (0 <? Z.of_nat (S n)) with true by (symmetry; apply Z.ltb_lt; lia).
      by destruct (0 <? Z.of_nat n).
    + rewrite Ht'. replace (0 <? Z.of_nat (S n)) with true by (symmetry; apply Z.ltb_lt; lia).
      replace (ncli (cpu_at m me) + 1 =? 0) with false by (symmetry; apply Z.eqb_neq; lia).
      by rewrite andb_false_r.
Qed.

Lemma popcli_iter n m me :
  machine_ok m -> (me < ncpu m)%nat -> if_at m me = false ->
  Z.of_nat n <= ncli (cpu_at m me) ->
  exists m', kiter n (popcli lapicid me) m = Ret tt m' /\
    ncli (cpu_at m' me) = ncli (cpu_at m me) - Z.of_nat n /\
    if_at m' me = (0 <? Z.of_nat n) && (ncli (cpu_at m me) =? Z.of_nat n) && truth (intena (cpu_at m me)).
Proof.
  revert m. induction n as [|n IH]; intros m Hok Hme Hif Hn; cbn [kiter].
  - exists m. simpl. split_and!; [done|lia|done].
  - unfold kbind. rewrite popcli_eq by (done || lia).
    pose proof (popped_ncli lapicid m me Hok Hme) as Hpn.
    pose proof (popped_intena lapicid m me Hok Hme) as Hpi.
    pose proof (popped_if lapicid m me Hok Hme) as Hpf.
    destruct (decide (n = 0%nat)) as [->|Hn0].
    + exists (popped me m). change (Z.of_nat 1) with 1. rewrite Hpf, Hif.
      split_and!; [done|lia|].
      by destruct (ncli (cpu_at m me) =? 1), (truth (intena (cpu_at m me))).
    + replace (ncli (cpu_at m me) =? 1) with false in Hpf by (symmetry; apply Z.eqb_neq; lia).
      simpl in Hpf. rewrite Hif in Hpf.
      destruct (IH (popped me m)) as (m' & E & Hn' & Hi');
        [by apply machine_ok_popped|by rewrite (proj2 (popped_frame m me))|done|lia|].
      exists m'. rewrite E. split_and!; [done|lia|]. rewrite Hi', Hpn, Hpi.
      replace (0 <? Z.of_nat n) with true by (symmetry; apply Z.ltb_lt; lia).
      replace (0 <? Z.of_nat (S n)) with true by (symmetry; apply Z.ltb_lt; lia).
      f_equal. simpl.
      destruct (Z.eqb_spec (ncli (cpu_at m me) - 1) (Z.of_nat n)),
        (Z.eqb_spec (ncli (cpu_at m me)) (Z.of_nat (S n))); lia || done.
Qed.
End nesting.

(** Pushcli and popcli nest.  On a processor whose interrupts are off
    whenever its nesting depth is positive, any number of pushcli calls turn
    interrupts off, and as many popcli calls succeed and restore both the depth
    and the interrupt flag of before: interrupts come back exactly when the
    outermost pushcli found them on. *)
Theorem pushcli_popcli_balanced (lapicid : nat -> Z) (m : machine) (me n : nat) :
  machine_ok lapicid m -> (me < ncpu m)%nat ->
  0 <= ncli (cpu_at m me) ->
  (0 < ncli (cpu_at m me) -> if_at m me = false) ->
  exists m1 m2,
    kiter n (pushcli lapicid me) m = Ret tt m1 /\
    ncli (cpu_at m1 me) = ncli (cpu_at m me) + Z.of_nat n /\
    ((0 < n)%nat -> if_at m1 me = false) /\
    kiter n (popcli lapicid me) m1 = Ret tt m2 /\
    ncli (cpu_at m2 me) = ncli (cpu_at m me) /\
    if_at m2 me = if_at m me.
Proof.
  intros Hok Hme Hn Hif.
  destruct (pushcli_iter lapicid n m me) as (m1 & E1 & Hok1 & Hc1 & Hn1 & Hi1 & Ht1); [done..|].
  destruct n as [|n].
  { simpl in *. injection E1 as <-. exists m, m. split_and!; [done|lia|lia|done..]. }
  replace (0 <? Z.of_nat (S n)) with true in Hi1, Ht1 by (symmetry; apply Z.ltb_lt; lia).
  simpl andb in Ht1.
  destruct (popcli_iter lapicid (S n) m1 me) as (m2 & E2 & Hn2 & Hi2);
    [done|by rewrite Hc1|done|lia|].
  exists m1, m2. split_and!; [done|done|done|done|lia|].
  replace (0 <? Z.of_nat (S n)) with true in Hi2 by (symmetry; apply Z.ltb_lt; lia).
  rewrite Hi2, Ht1, Hn1. simpl andb.
  destruct (Z.eqb_spec (ncli (cpu_at m me)) 0) as [H0|H0].
  - replace (ncli (cpu_at m me) + Z.of_nat (S n) =? Z.of_nat (S n)) with true
      by (symmetry; apply Z.eqb_eq; lia).
    by destruct (if_at m me).
  - replace (ncli (cpu_at m me) + Z.of_nat (S n) =? Z.of_nat (S n)) with false
      by (symmetry; apply Z.eqb_neq; lia).
    simpl. symmetry. apply Hif. lia.
Qed.

(** ** Interleaved processors *)

(** Where a processor is with respect to the lock code: outside it, in the spin
    loop of [acquire], past the loop, or about to do the store of [release]. *)
Inductive lock_pc := Run | Spin (l : nat) | Finish (l : nat) | Rel (l : nat).

(** Any processor outside the lock code may call acquire or release on any
    lock; each atomic piece of those routines is one step. *)
Inductive lock_step (lapicid : nat -> Z) : machine * list lock_pc -> machine * list lock_pc -> Prop :=
| ls_enter m m' pcs me l :
    pcs !! me = Some Run -> (l < length (locks m))%nat ->
    acquire_enter lapicid me l m = Ret tt m' ->
    lock_step lapicid (m, pcs) (m', <[me := Spin l]> pcs)
| ls_xchg m m' pcs me l old :
    pcs !! me = Some (Spin l) ->
    xchg_locked l 1 m = Ret old m' ->
    lock_step lapicid (m, pcs) (m', if truth old then pcs else <[me := Finish l]> pcs)
| ls_finish m m' pcs me l fp :
    pcs !! me = Some (Finish l) ->
    acquire_finish lapicid me l fp m = Ret tt m' ->
    lock_step lapicid (m, pcs) (m', <[me := Run]> pcs)
| ls_release m m' pcs me l :
    pcs !! me = Some Run -> (l < length (locks m))%nat ->
    release_enter lapicid me l m = Ret tt m' ->
    lock_step lapicid (m, pcs) (m', <[me := Rel l]> pcs)
| ls_store m m' pcs me l :
    pcs !! me = Some (Rel l) ->
    release_store lapicid me l m = Ret tt m' ->
    lock_step lapicid (m, pcs) (m', <[me := Run]> pcs).

(** All locks free, every processor outside the lock code with depth 0. *)
Definition lock_init (lapicid : nat -> Z) (m : machine) (pcs : list lock_pc) : Prop :=
  machine_ok lapicid m /\ length pcs = ncpu m /\
  (forall c, (c < ncpu m)%nat -> pcs !! c = Some Run /\ ncli (cpu_at m c) = 0) /\
  (forall l, (l < length (locks m))%nat ->
     locked (lock_at m l) = 0 /\ lk_cpu (lock_at m l) = None).

Section interleaving.
Variable lapicid : nat -> Z.

Definition spinning (pcs : list lock_pc) (c : nat) : Z :=
  match pcs !! c with Some (Spin _) => 1 | _ => 0 end.

(** [H c] is the set of locks processor [c] has taken. *)
Definition owns (m : machine) (pcs : list lock_pc) (c l : nat) : Prop :=
  pcs !! c = Some (Finish l) \/ pcs !! c = Some (Rel l) \/ lk_cpu (lock_at m l) = Some c.

Record lock_inv_with (H : nat -> gset nat) (m : machine) (pcs : list lock_pc) : Prop := {
  li_ok : machine_ok lapicid m;
  li_len : length pcs = ncpu m;
  li_owns : forall c l, l ∈ H c <-> owns m pcs c l;
  li_excl : forall c c' l, l ∈ H c -> l ∈ H c' -> c = c';
  li_locked : forall c l, l ∈ H c -> locked (lock_at m l) = 1;
  li_cpu : forall c l, lk_cpu (lock_at m l) = Some c ->
    (c < ncpu m)%nat /\ pcs !! c <> Some (Finish l) /\ pcs !! c <> Some (Rel l);
  li_range : forall c l,
    (pcs !! c = Some (Spin l) \/ pcs !! c = Some (Finish l) \/ pcs !! c = Some (Rel l)) ->
    (l < length (locks m))%nat;
  li_ncli : forall c, (c < ncpu m)%nat ->
    ncli (cpu_at m c) = Z.of_nat (size (H c)) + spinning pcs c;
  li_if : forall c, (c < ncpu m)%nat -> 0 < ncli (cpu_at m c) -> if_at m c = false
}.

Definition lock_inv (st : machine * list lock_pc) : Prop :=
  exists H, lock_inv_with H (fst st) (snd st).

Lemma lock_at_upd_eq m l f :
  (l < length (locks m))%nat -> lock_at (upd_lock l f m) l = f (lock_at m l).
Proof. intros Hl. unfold lock_at, upd_lock. simpl. by rewrite nth_alter_eq. Qed.
Lemma lock_at_upd_ne m l l' f : l <> l' -> lock_at (upd_lock l f m) l' = lock_at m l'.
Proof. intros Hl. unfold lock_at, upd_lock. simpl. by rewrite nth_alter_ne. Qed.
Lemma lock_at_locks m m' l : locks m' = locks m -> lock_at m' l = lock_at m l.
Proof. unfold lock_at. by intros ->. Qed.

Lemma lookup_insert_run (pcs : list lock_pc) me p c :
  (me < length pcs)%nat -> (<[me := p]> pcs) !! c = if decide (me = c) then Some p else pcs !! c.
Proof.
  intros H. destruct (decide (me = c)) as [->|Hne].
  - by apply list_lookup_insert_eq.
  - by apply list_lookup_insert_ne.
Qed.

Lemma holding_eq m me l :
  machine_ok lapicid m -> (me < ncpu m)%nat -> if_at m me = false ->
  holding lapicid me l m =
    Ret (truth (locked (lock_at m l)) && bool_decide (lk_cpu (lock_at m l) = Some me)) m.
Proof.
  intros Hok Hme Hif. unfold holding, kbind, kget. destruct (truth _); [|done].
  by rewrite mycpu_ok.
Qed.

Lemma acquire_enter_inv m me l m' :
  machine_ok lapicid m -> (me < ncpu m)%nat ->
  acquire_enter lapicid me l m = Ret tt m' -> m' = pushed me m.
Proof.
  intros Hok Hme. unfold acquire_enter, kbind. rewrite pushcli_eq by done.
  rewrite holding_eq; [|by apply machine_ok_pushed|done|by apply (pushed_if lapicid)].
  destruct (_ && _); [discriminate|]. by intros [= <-].
Qed.

Lemma lock_pc_bound (m : machine) (pcs : list lock_pc) c p :
  length pcs = ncpu m -> pcs !! c = Some p -> (c < ncpu m)%nat.
Proof. intros <- H. by eapply lookup_lt_Some. Qed.
End interleaving.

Section preservation.
Variable lapicid : nat -> Z.
Notation inv_with := (lock_inv_with lapicid).

Ltac pc_cases me c :=
  repeat match goal with
  | H : context [<[me := _]> _ !! c] |- _ => rewrite lookup_insert_run in H by lia
  | |- context [<[me := _]> _ !! c] => rewrite lookup_insert_run by lia
  end;
  destruct (decide (me = c)) as [<-|].

Lemma enter_preserves H m pcs me l :
  pcs !! me = Some Run -> (l < length (locks m))%nat ->
  inv_with H m pcs -> inv_with H (pushed me m) (<[me := Spin l]> pcs).
Proof.
  intros Hpc Hl [Hok Hlen Ho Hx Hlk Hc Hr Hn Hi].
  assert (Hme : (me < ncpu m)%nat) by (rewrite <- Hlen; by eapply lookup_lt_Some).
  constructor; rewrite ?length_insert; unfold owns in *.
  - by apply machine_ok_pushed.
  - done.
  - intros c l'. rewrite Ho. rewrite (lock_at_locks m (pushed me m)) by done.
    pc_cases me c; [|done]. rewrite Hpc. naive_solver.
  - done.
  - intros c l' Hin. rewrite (lock_at_locks m (pushed me m)) by done. by eapply Hlk.
  - intros c l'. rewrite (lock_at_locks m (pushed me m)) by done. intros E.
    pc_cases me c; [naive_solver|by apply Hc].
  - intros c l'. pc_cases me c; [|apply Hr]. intros [[= <-]|[[=]|[=]]]. done.
  - intros c Hc'. unfold spinning. pc_cases me c.
    + rewrite (pushed_ncli lapicid) by done. rewrite (Hn me) by done.
      unfold spinning. rewrite Hpc. lia.
    + rewrite (proj1 (pushed_other m me c ltac:(done))). by apply Hn.
  - intros c Hc'. destruct (decide (me = c)) as [<-|Hne].
    + intros _. by apply (pushed_if lapicid).
    + destruct (pushed_other m me c Hne) as [-> ->]. by apply Hi.
Qed.

Definition set_locked1 (lk : spinlock) : spinlock :=
  SpinLock 1 (lk_name lk) (lk_cpu lk) (lk_pcs lk).

Lemma xchg_eq m l :
  xchg_locked l 1 m = Ret (locked (lock_at m l)) (upd_lock l set_locked1 m).
Proof. done. Qed.

Lemma set_locked1_cpu m l l' :
  lk_cpu (lock_at (upd_lock l set_locked1 m) l') = lk_cpu (lock_at m l').
Proof.
  destruct (decide (l = l')) as [<-|]; [|by rewrite lock_at_upd_ne].
  destruct (decide (l < length (locks m))%nat); [by rewrite lock_at_upd_eq|].
  unfold lock_at, upd_lock. simpl. rewrite !nth_overflow; rewrite ?length_alter; lia || done.
Qed.

Lemma spin_preserves H m pcs me l :
  pcs !! me = Some (Spin l) ->
  inv_with H m pcs -> inv_with H (upd_lock l set_locked1 m) pcs.
Proof.
  intros Hpc [Hok Hlen Ho Hx Hlk Hc Hr Hn Hi].
  assert (Hl : (l < length (locks m))%nat) by (apply (Hr me); auto).
  constructor; [by apply machine_ok_upd_lock|done|..]; try done; unfold owns in *.
  - intros c l'. rewrite Ho, set_locked1_cpu. done.
  - intros c l' Hin. destruct (decide (l = l')) as [<-|].
    + by rewrite lock_at_upd_eq.
    + rewrite lock_at_upd_ne by done. by eapply Hlk.
  - intros c l'. rewrite set_locked1_cpu. apply Hc.
  - intros c l' E. simpl. rewrite length_alter. by eapply Hr.
Qed.

Lemma taken_preserves H m pcs me l :
  pcs !! me = Some (Spin l) -> locked (lock_at m l) = 0 ->
  inv_with H m pcs ->
  inv_with (fun c => if decide (me = c) then {[l]} ∪ H c else H c)
    (upd_lock l set_locked1 m) (<[me := Finish l]> pcs).
Proof.
  intros Hpc H0 Hinv. pose proof Hinv as [Hok Hlen Ho Hx Hlk Hc Hr Hn Hi].
  assert (Hme : (me < length pcs)%nat) by (by eapply lookup_lt_Some).
  assert (Hl : (l < length (locks m))%nat) by (apply (Hr me); auto).
  assert (Hfree : forall c, l ∉ H c) by (intros c Hin; apply Hlk in Hin; lia).
  constructor; rewrite ?length_insert; unfold owns in *.
  - by apply machine_ok_upd_lock.
  - done.
  - intros c l'. rewrite set_locked1_cpu. pc_cases me c; [|apply Ho].
    rewrite elem_of_union, elem_of_singleton, Ho, Hpc. naive_solver.
  - intros c c' l'. destruct (decide (me = c)), (decide (me = c')); set_solver.
  - intros c l' Hin. destruct (decide (l = l')) as [<-|].
    + by rewrite lock_at_upd_eq.
    + rewrite lock_at_upd_ne by done. apply (Hlk c). destruct (decide (me = c)); set_solver.
  - intros c l'. rewrite set_locked1_cpu. intros E. pc_cases me c; [|by apply Hc].
    split_and!; [simpl; lia| |done]. intros [= ->]. apply (Hfree me), Ho. auto.
  - intros c l' E. simpl. rewrite length_alter. revert E. pc_cases me c; [|apply Hr].
    intros [[=]|[[= <-]|[=]]]. done.
  - intros c Hcc. change (cpu_at (upd_lock l set_locked1 m) c) with (cpu_at m c).
    simpl in Hcc. rewrite (Hn c) by done. unfold spinning. pc_cases me c; [|done].
    rewrite Hpc, size_union by set_solver. rewrite size_singleton. lia.
  - intros c. apply Hi.
Qed.

Lemma finish_preserves H m pcs me l pcsv :
  pcs !! me = Some (Finish l) ->
  inv_with H m pcs ->
  inv_with H (upd_lock l (fun lk => SpinLock (locked lk) (lk_name lk) (Some me) pcsv) m)
    (<[me := Run]> pcs).
Proof.
  intros Hpc Hinv. pose proof Hinv as [Hok Hlen Ho Hx Hlk Hc Hr Hn Hi].
  assert (Hme : (me < length pcs)%nat) by (by eapply lookup_lt_Some).
  assert (Hl : (l < length (locks m))%nat) by (apply (Hr me); auto).
  assert (Hin : l ∈ H me) by (apply Ho; left; done).
  assert (Hnone : forall c, lk_cpu (lock_at m l) = Some c -> False).
  { intros c E. assert (c = me) as ->; [|by apply Hc in E as (_ & ? & _)].
    eapply Hx; [|exact Hin]. apply Ho. right; right; done. }
  constructor; rewrite ?length_insert; unfold owns in *.
  - by apply machine_ok_upd_lock.
  - done.
  - intros c l'. rewrite Ho. destruct (decide (l = l')) as [<-|].
    + rewrite lock_at_upd_eq by done. simpl. pc_cases me c; [rewrite Hpc; naive_solver|].
      split; [|naive_solver]. intros E. exfalso.
      assert (c = me); [|congruence]. eapply Hx; [|exact Hin]. by apply Ho.
    + rewrite lock_at_upd_ne by done. pc_cases me c; [rewrite Hpc; naive_solver|done].
  - done.
  - intros c l' Hin'. destruct (decide (l = l')) as [<-|].
    + rewrite lock_at_upd_eq by done. simpl. by apply (Hlk c).
    + rewrite lock_at_upd_ne by done. by eapply Hlk.
  - intros c l'. destruct (decide (l = l')) as [<-|].
    + rewrite lock_at_upd_eq by done. intros [= <-].
      rewrite !lookup_insert_run, decide_True by (done || lia).
      split_and!; [simpl; lia|done|done].
    + rewrite lock_at_upd_ne by done. intros E. pc_cases me c; [|by apply Hc].
      split_and!; [by eapply Hc|done|done].
  - intros c l' E. simpl. rewrite length_alter. revert E. pc_cases me c; [naive_solver|apply Hr].
  - intros c Hcc. simpl in Hcc. change (cpu_at (upd_lock _ _ m) c) with (cpu_at m c).
    rewrite (Hn c Hcc). unfold spinning. pc_cases me c; [by rewrite Hpc|done].
  - intros c. apply Hi.
Qed.

Definition released (lk : spinlock) : spinlock :=
  SpinLock (locked lk) (lk_name lk) None (<[0%nat := 0]> (lk_pcs lk)).

Lemma release_preserves H m pcs me l :
  pcs !! me = Some Run -> (l < length (locks m))%nat ->
  lk_cpu (lock_at m l) = Some me ->
  inv_with H m pcs -> inv_with H (upd_lock l released m) (<[me := Rel l]> pcs).
Proof.
  intros Hpc Hl Hcpu Hinv. pose proof Hinv as [Hok Hlen Ho Hx Hlk Hc Hr Hn Hi].
  assert (Hme : (me < length pcs)%nat) by (by eapply lookup_lt_Some).
  assert (Hin : l ∈ H me) by (apply Ho; right; right; done).
  constructor; rewrite ?length_insert; unfold owns in *.
  - by apply machine_ok_upd_lock.
  - done.
  - intros c l'. rewrite Ho. destruct (decide (l = l')) as [<-|].
    + rewrite lock_at_upd_eq by done. simpl. pc_cases me c; [rewrite Hpc; naive_solver|].
      split; [|naive_solver]. intros E. exfalso.
      assert (c = me); [|congruence]. eapply Hx; [|exact Hin]. by apply Ho.
    + rewrite lock_at_upd_ne by done. pc_cases me c; [rewrite Hpc; naive_solver|done].
  - done.
  - intros c l' Hin'. destruct (decide (l = l')) as [<-|].
    + rewrite lock_at_upd_eq by done. simpl. by apply (Hlk c).
    + rewrite lock_at_upd_ne by done. by eapply Hlk.
  - intros c l'. destruct (decide (l = l')) as [<-|].
    + by rewrite lock_at_upd_eq.
    + rewrite lock_at_upd_ne by done. intros E. pc_cases me c; [|by apply Hc].
      split_and!; [by eapply Hc|done|congruence].
  - intros c l' E. simpl. rewrite length_alter. revert E. pc_cases me c; [naive_solver|apply Hr].
  - intros c Hcc. simpl in Hcc. change (cpu_at (upd_lock _ _ m) c) with (cpu_at m c).
    rewrite (Hn c Hcc). unfold spinning. pc_cases me c; [by rewrite Hpc|done].
  - intros c. apply Hi.
Qed.

Definition unlocked (lk : spinlock) : spinlock :=
  SpinLock 0 (lk_name lk) (lk_cpu lk) (lk_pcs lk).

Lemma store_preserves H m pcs me l :
  pcs !! me = Some (Rel l) ->
  inv_with H m pcs ->
  inv_with (fun c => if decide (me = c) then H c ∖ {[l]} else H c)
    (popped me (upd_lock l unlocked m)) (<[me := Run]> pcs).
Proof.
  intros Hpc Hinv. pose proof Hinv as [Hok Hlen Ho Hx Hlk Hc Hr Hn Hi].
  assert (Hme : (me < length pcs)%nat) by (by eapply lookup_lt_Some).
  assert (Hl : (l < length (locks m))%nat) by (apply (Hr me); auto).
  assert (Hin : l ∈ H me) by (apply Ho; right; left; done).
  assert (Hnone : forall c, lk_cpu (lock_at m l) = Some c -> False).
  { intros c E. assert (c = me) as ->; [|by apply Hc in E as (_ & _ & ?)].
    eapply Hx; [|exact Hin]. apply Ho. right; right; done. }
  set (m1 := upd_lock l unlocked m).
  assert (Hok1 : machine_ok lapicid m1) by (by apply machine_ok_upd_lock).
  destruct (popped_frame m1 me) as [Hlocks Hncpu].
  assert (Hsz : (1 <= size (H me))%nat).
  { assert (size ({[l]} : gset nat) <= size (H me))%nat; [|by rewrite size_singleton in *].
    apply subseteq_size. set_solver. }
  assert (Hcpu1 : forall l', lk_cpu (lock_at m1 l') = lk_cpu (lock_at m l')).
  { intros l'. destruct (decide (l = l')) as [<-|];
      [by unfold m1; rewrite lock_at_upd_eq|by unfold m1; rewrite lock_at_upd_ne]. }
  constructor; rewrite ?length_insert, ?Hlocks, ?Hncpu; unfold owns in *.
  - by apply machine_ok_popped.
  - done.
  - intros c l'. rewrite (lock_at_locks m1) by done. rewrite Hcpu1. pc_cases me c; [|apply Ho].
    rewrite elem_of_difference, elem_of_singleton, Ho, Hpc.
    assert (lk_cpu (lock_at m l') = Some me -> l' <> l) by (intros E ->; naive_solver).
    naive_solver.
  - intros c c' l'. destruct (decide (me = c)), (decide (me = c')); set_solver.
  - intros c l' Hin'. rewrite (lock_at_locks m1) by done. destruct (decide (l = l')) as [<-|].
    + exfalso. destruct (decide (me = c)) as [<-|Hne]; [set_solver|].
      apply Hne. by eapply Hx.
    + unfold m1. rewrite lock_at_upd_ne by done.
      apply (Hlk c). destruct (decide (me = c)); set_solver.
  - intros c l'. rewrite (lock_at_locks m1) by done. rewrite Hcpu1. intros E.
    pc_cases me c; [|by apply Hc]. split_and!; [by eapply Hc|done|done].
  - intros c l' E. unfold m1. simpl. rewrite length_alter. revert E.
    pc_cases me c; [naive_solver|apply Hr].
  - intros c Hcc. unfold m1 in Hcc; simpl in Hcc. unfold spinning. pc_cases me c.
    + rewrite (popped_ncli lapicid) by (done || unfold m1; simpl; lia).
      change (cpu_at m1 me) with (cpu_at m me). rewrite (Hn me) by lia.
      unfold spinning. rewrite Hpc, size_difference, size_singleton by set_solver. lia.
    + rewrite (proj1 (popped_other m1 me c ltac:(done))). by apply Hn.
  - intros c Hcc. unfold m1 in Hcc; simpl in Hcc. destruct (decide (me = c)) as [<-|Hne].
    + rewrite (popped_ncli lapicid) by (done || unfold m1; simpl; lia).
      rewrite (popped_if lapicid) by (done || unfold m1; simpl; lia).
      change (cpu_at m1 me) with (cpu_at m me). change (if_at m1 me) with (if_at m me).
      intros Hpos. replace (ncli (cpu_at m me) =? 1) with false by (symmetry; apply Z.eqb_neq; lia).
      simpl. apply Hi; lia.
    + destruct (popped_other m1 me c Hne) as [-> ->]. by apply Hi.
Qed.

Lemma lock_step_preserves st st' :
  lock_step lapicid st st' -> lock_inv lapicid st -> lock_inv lapicid st'.
Proof.
  intros Hs [H Hinv].
  pose proof Hinv as [Hok Hlen Ho Hx Hlk Hc Hr Hn Hi].
  destruct Hs as [m m' pcs me l Hpc Hl E|m m' pcs me l old Hpc E|m m' pcs me l fp Hpc E
                 |m m' pcs me l Hpc Hl E|m m' pcs me l Hpc E]; simpl in *;
    assert (Hme : (me < ncpu m)%nat) by (rewrite <- Hlen; by eapply lookup_lt_Some).
  - apply acquire_enter_inv in E as ->; [|done..]. exists H. by apply enter_preserves.
  - rewrite xchg_eq in E. injection E as <- <-. unfold truth.
    destruct (Z.eqb_spec (locked (lock_at m l)) 0); simpl.
    + eexists. by apply taken_preserves.
    + exists H. by eapply spin_preserves.
  - exists H. assert (Hif : if_at m me = false).
    { apply Hi; [done|]. rewrite Hn by done.
      assert (size ({[l]} : gset nat) <= size (H me))%nat as Hs.
      { apply subseteq_size. intros x ->%elem_of_singleton. apply Ho. left; done. }
      rewrite size_singleton in Hs. unfold spinning. rewrite Hpc. lia. }
    unfold acquire_finish, kbind in E. rewrite mycpu_ok in E by done.
    injection E as <-. by apply finish_preserves.
  - exists H. unfold release_enter, kbind in E.
    destruct (if_at m me) eqn:Hif.
    + unfold holding, kbind, kget in E. destruct (truth (locked (lock_at m l))); [|discriminate].
      unfold mycpu, readeflags, kbind, kget in E. rewrite Hif in E. discriminate.
    + rewrite holding_eq in E by done. destruct (_ && _) eqn:Eh; [|discriminate].
      apply andb_true_iff in Eh as [_ Eh%bool_decide_eq_true].
      injection E as <-. by apply release_preserves.
  - assert (Hin : l ∈ H me) by (apply Ho; right; left; done).
    assert (Hsz : (1 <= size (H me))%nat).
    { assert (size ({[l]} : gset nat) <= size (H me))%nat; [|by rewrite size_singleton in *].
      apply subseteq_size. set_solver. }
    eexists. unfold release_store, kbind, kmodify in E.
    rewrite popcli_eq in E.
    + injection E as <-. by apply store_preserves.
    + by apply machine_ok_upd_lock.
    + done.
    + apply Hi; [done|]. rewrite Hn by done. unfold spinning. rewrite Hpc. lia.
    + change (cpu_at (upd_lock _ _ m) me) with (cpu_at m me).
      rewrite Hn by done. unfold spinning. rewrite Hpc. lia.
Qed.

Lemma lock_init_inv m pcs : lock_init lapicid m pcs -> lock_inv lapicid (m, pcs).
Proof.
  intros (Hok & Hlen & Hc & Hl). exists (fun _ => ∅).
  assert (Hrun : forall c p, pcs !! c = Some p -> p = Run).
  { intros c p E. assert (c < ncpu m)%nat by (rewrite <- Hlen; by eapply lookup_lt_Some).
    destruct (Hc c) as [E' _]; [done|]. congruence. }
  assert (Hcpu : forall l, lk_cpu (lock_at m l) = None).
  { intros l. destruct (decide (l < length (locks m))%nat); [by apply Hl|].
    unfold lock_at. rewrite nth_overflow by lia. done. }
  constructor; simpl; try done.
  - intros c l. split; [set_solver|]. unfold owns. rewrite Hcpu.
    intros [E|[E|E]]; [apply Hrun in E..|]; done.
  - intros c l. by rewrite Hcpu.
  - intros c l [E|[E|E]]; apply Hrun in E; done.
  - intros c Hcc. destruct (Hc c Hcc) as [E ->]. unfold spinning. by rewrite E.
  - intros c Hcc. destruct (Hc c Hcc) as [_ ->]. lia.
Qed.
End preservation.

(** C18: Mutual exclusion of spin locks under every interleaving.  Let any number
    of processors run acquire and release on any locks, interleaved at the
    granularity of the atomic exchange.  In every reachable state at most one
    processor is between acquire and release of a given lock, that lock is
    marked taken, and the holder runs with interrupts off, so that no interrupt
    handler can deadlock on it; and a holder outside the lock code can release
    the lock: neither half of release panics. *)
Theorem spinlock_mutual_exclusion (lapicid : nat -> Z) m0 pcs0 m pcs :
  lock_init lapicid m0 pcs0 ->
  rtc (lock_step lapicid) (m0, pcs0) (m, pcs) ->
  (forall l c c', owns m pcs c l -> owns m pcs c' l -> c = c') /\
  (forall l c, owns m pcs c l -> (c < ncpu m)%nat ->
     locked (lock_at m l) = 1 /\ if_at m c = false) /\
  (forall l c, lk_cpu (lock_at m l) = Some c -> pcs !! c = Some Run ->
     exists m', release lapicid c l m = Ret tt m').
Proof.
  intros Hinit Hreach.
  assert (Hinv : lock_inv lapicid (m, pcs)).
  { remember (m0, pcs0) as st0. remember (m, pcs) as st.
    assert (lock_inv lapicid st0) as H0 by (subst; by apply lock_init_inv).
    clear -Hreach H0. induction Hreach; eauto using lock_step_preserves. }
  destruct Hinv as [H Hinv]. simpl in Hinv. pose proof Hinv as [Hok Hlen Ho Hx Hlk Hc Hr Hn Hi].
  assert (Hoff : forall l c, owns m pcs c l -> (c < ncpu m)%nat ->
                   if_at m c = false /\ 1 <= ncli (cpu_at m c)).
  { intros l c Hown Hcc. assert (0 < ncli (cpu_at m c)).
    { rewrite Hn by done.
      assert (size ({[l]} : gset nat) <= size (H c))%nat as Hs.
      { apply subseteq_size. intros x ->%elem_of_singleton. by apply Ho. }
      rewrite size_singleton in Hs. unfold spinning. destruct (pcs !! c) as [[]|]; lia. }
    split; [by apply Hi|lia]. }
  split_and!.
  - intros l c c' H1 H2. apply (Hx c c' l); by apply Ho.
  - intros l c Hown Hcc. split; [by apply (Hlk c), Ho|]. by eapply Hoff.
  - intros l c E Hrun. destruct (Hc c l E) as (Hcc & _).
    destruct (Hoff l c) as [Hif Hpos]; [right; right; done|done|].
    unfold release, release_enter, kbind. rewrite holding_eq by done.
    rewrite (Hlk c l) by (apply Ho; right; right; done).
    rewrite bool_decide_eq_true_2 by done. simpl.
    eexists. unfold release_store, kbind, kmodify. apply popcli_eq; try done.
    by apply machine_ok_upd_lock, machine_ok_upd_lock.
Qed.

(** ** Concrete instances: two processors, one lock *)

Definition ex_lapicid (i : nat) : Z := 10 + Z.of_nat i.
Definition ex_machine : machine :=
  Machine [Cpu 10 0 0; Cpu 11 0 0] 2 [true; true] [SpinLock 0 "lk" None (repeat 0 10)] (fun _ => 0).

Lemma ex_machine_ok : machine_ok ex_lapicid ex_machine.
Proof.
  constructor; [done|done| |].
  - intros [|[|i]] Hi; [done|done|simpl in Hi; lia].
  - unfold ex_lapicid. intros. lia.
Qed.

Lemma pushcli_popcli_balanced_witness :
  exists m1 m2, kiter 3 (pushcli ex_lapicid 1) ex_machine = Ret tt m1 /\
    kiter 3 (popcli ex_lapicid 1) m1 = Ret tt m2 /\ if_at m2 1 = true.
Proof.
  destruct (pushcli_popcli_balanced ex_lapicid ex_machine 1 3) as (m1 & m2 & H1 & _ & _ & H2 & _ & H3).
  - exact ex_machine_ok.
  - vm_compute. lia.
  - vm_compute. discriminate.
  - vm_compute. discriminate.
  - exists m1, m2. split; [exact H1|]. split; [exact H2|exact H3].
Defined.

(** Processor 0 takes the lock while processor 1 enters acquire. *)
Lemma spinlock_mutual_exclusion_witness :
  exists m pcs, rtc (lock_step ex_lapicid) (ex_machine, [Run; Run]) (m, pcs) /\
    pcs = [Finish 0%nat; Spin 0%nat] /\
    forall l c c', owns m pcs c l -> owns m pcs c' l -> c = c'.
Proof.
  assert (Hr : exists m, rtc (lock_step ex_lapicid) (ex_machine, [Run; Run]) (m, [Finish 0%nat; Spin 0%nat])).
  { eexists. eapply rtc_l; [|eapply rtc_l; [|eapply rtc_l; [|apply rtc_refl]]].
    - eapply (ls_enter _ _ _ _ 0 0); [reflexivity|vm_compute; lia|vm_compute; reflexivity].
    - eapply (ls_enter _ _ _ _ 1 0); [reflexivity|vm_compute; lia|vm_compute; reflexivity].
    - change [Finish 0%nat; Spin 0%nat] with
        (if truth 0 then [Spin 0%nat; Spin 0%nat] else <[0%nat := Finish 0%nat]> [Spin 0%nat; Spin 0%nat]).
      change (<[1%nat := Spin 0]> (<[0%nat := Spin 0]> [Run; Run])) with [Spin 0%nat; Spin 0%nat].
      eapply (ls_xchg _ _ _ _ 0 0 0); [reflexivity|vm_compute; reflexivity]. }
  destruct Hr as [m Hr]. exists m, [Finish 0%nat; Spin 0%nat].
  split; [exact Hr|]. split; [reflexivity|].
  destruct (spinlock_mutual_exclusion ex_lapicid ex_machine [Run; Run] m [Finish 0%nat; Spin 0%nat])
    as (H & _).
  - split; [exact ex_machine_ok|]. split; [reflexivity|]. split.
    + intros [|[|c]] Hc; [split; reflexivity|split; reflexivity|vm_compute in Hc; lia].
    + intros [|l] Hl; [split; reflexivity|vm_compute in Hl; lia].
  - exact Hr.
  - exact H.
Defined.
