(* ===== verification/Sleeplock.v ===== *)
(** * Sleep locks (sleeplock.c)

    A sleep lock is a flag and an owner pid protected by a spin lock.  The
    routines run on one lock; [lk] says whether the inner spin lock is held.
    Waiting for a taken lock suspends the process: [sleep] releases the inner
    lock while the process sleeps. *)

From S2P Require Import Prelude.

Record sleeplock := SleepLock {
  sl_locked : Z;     (* is the lock held? *)
  sl_lk : bool;      (* inner spin lock held *)
  sl_name : string;
  sl_pid : Z         (* process holding the lock *)
}.

Definition set_lk (b : bool) (l : sleeplock) : sleeplock :=
  SleepLock (sl_locked l) b (sl_name l) (sl_pid l).
Definition set_owner (v pid : Z) (l : sleeplock) : sleeplock :=
  SleepLock v (sl_lk l) (sl_name l) pid.

Definition acquire_lk : K sleeplock unit :=
  let! held := kget sl_lk in
  if held : bool then kpanic "acquire" else kmodify (set_lk true).
Definition release_lk : K sleeplock unit :=
  let! held := kget sl_lk in
  if held : bool then kmodify (set_lk false) else kpanic "release".

Definition initsleeplock (name : string) : K sleeplock unit :=
  kmodify (fun _ => SleepLock 0 false name 0).

Section sleeplock.
(** Address of the lock: the channel waiters sleep on. *)
Variable chan : Z.

(** One passage through the loop head of acquiresleep: take the lock, or
    release the inner lock and sleep. *)
Definition acquiresleep (mypid : Z) : K sleeplock unit :=
  acquire_lk ;;
  let! v := kget sl_locked in
  if truth v then kmodify (set_lk false) ;; ksleep chan
  else kmodify (set_owner 1 mypid) ;; release_lk.

(** The result is the channel given to [wakeup] (proc.c): the process table
    is not part of the state here. *)
Definition releasesleep : K sleeplock Z :=
  acquire_lk ;; kmodify (set_owner 0 0) ;; release_lk ;; kret chan.

Definition holdingsleep : K sleeplock bool :=
  acquire_lk ;;
  let! r := kget sl_locked in
  release_lk ;;
  kret (truth r).
End sleeplock.

(** What each routine does when the inner lock is free. *)
Lemma acquiresleep_eq chan mypid l :
  sl_lk l = false ->
  acquiresleep chan mypid l =
    if truth (sl_locked l) then Sleep chan l
    else Ret tt (SleepLock 1 false (sl_name l) mypid).
Proof.
  intros H. destruct l as [v lk n p]; simpl in H; subst lk.
  unfold acquiresleep, acquire_lk, kbind, kget, kmodify. simpl. by destruct (truth v).
Qed.

Lemma releasesleep_eq chan l :
  sl_lk l = false -> releasesleep chan l = Ret chan (SleepLock 0 false (sl_name l) 0).
Proof. intros H. destruct l as [v lk n p]; simpl in H; subst lk. done. Qed.

Lemma holdingsleep_eq l :
  sl_lk l = false -> holdingsleep l = Ret (truth (sl_locked l)) l.
Proof. intros H. destruct l as [v lk n p]; simpl in H; subst lk. done. Qed.
