(* ===== verification/Bio.v ===== *)
(** * The buffer cache (bio.c) over the in-memory disk (memide.c)

    The cache is an array of buffers linked in a ring through [prev]/[next],
    with the list head as one extra entry at index NBUF.  Pointers are array
    indices.  The disk is the synchronous one of memide.c; every block it
    writes is also recorded in [wtrace] (newest last), which is how the crash
    theorems of Log.v see the order of disk writes. *)

From S2P Require Import Prelude Layout Sleeplock.

Definition nbuf : nat := Z.to_nat NBUF.
Definition head : nat := nbuf.

(** buf.h *)
Definition B_BUSY : Z := 1.
Definition B_VALID : Z := 2.
Definition B_DIRTY : Z := 4.

Record buf := Buf {
  b_flags : Z;
  b_dev : Z;
  b_blockno : Z;
  b_lock : sleeplock;
  b_refcnt : Z;
  b_prev : nat;
  b_next : nat;
  b_data : list Z
}.

Definition set_flags (v : Z) (b : buf) : buf :=
  Buf v (b_dev b) (b_blockno b) (b_lock b) (b_refcnt b) (b_prev b) (b_next b) (b_data b).
Definition set_lock (l : sleeplock) (b : buf) : buf :=
  Buf (b_flags b) (b_dev b) (b_blockno b) l (b_refcnt b) (b_prev b) (b_next b) (b_data b).
Definition set_refcnt (v : Z) (b : buf) : buf :=
  Buf (b_flags b) (b_dev b) (b_blockno b) (b_lock b) v (b_prev b) (b_next b) (b_data b).
Definition set_prev (v : nat) (b : buf) : buf :=
  Buf (b_flags b) (b_dev b) (b_blockno b) (b_lock b) (b_refcnt b) v (b_next b) (b_data b).
Definition set_next (v : nat) (b : buf) : buf :=
  Buf (b_flags b) (b_dev b) (b_blockno b) (b_lock b) (b_refcnt b) (b_prev b) v (b_data b).
Definition set_data (v : list Z) (b : buf) : buf :=
  Buf (b_flags b) (b_dev b) (b_blockno b) (b_lock b) (b_refcnt b) (b_prev b) (b_next b) v.
Definition recycle (dev blockno : Z) (b : buf) : buf :=
  Buf 0 dev blockno (b_lock b) 1 (b_prev b) (b_next b) (b_data b).

Record bstate := BState {
  bufs : list buf;              (* bcache.buf[0..NBUF), then bcache.head *)
  bc_lk : bool;                 (* bcache.lock held *)
  disk : Z -> list Z;           (* memdisk, by block number *)
  disksize : Z;
  wtrace : list (Z * list Z);   (* blocks written to the disk, in order *)
  woken : list Z;               (* channels given to wakeup, in order *)
  curpid : Z                    (* myproc()->pid *)
}.

Definition set_bufs (l : list buf) (s : bstate) : bstate :=
  BState l (bc_lk s) (disk s) (disksize s) (wtrace s) (woken s) (curpid s).
Definition set_bc_lk (b : bool) (s : bstate) : bstate :=
  BState (bufs s) b (disk s) (disksize s) (wtrace s) (woken s) (curpid s).

Definition dummy_buf : buf := Buf 0 0 0 (SleepLock 0 false "" 0) 0 head head [].
Definition buf_at (s : bstate) (i : nat) : buf := nth i (bufs s) dummy_buf.
Definition upd_buf (i : nat) (f : buf -> buf) (s : bstate) : bstate :=
  set_bufs (alter f i (bufs s)) s.

(** wakeup(chan): the processes are not part of this state. *)
Definition wakeup (chan : Z) (s : bstate) : bstate :=
  BState (bufs s) (bc_lk s) (disk s) (disksize s) (wtrace s) (woken s ++ [chan]) (curpid s).

(** Writing a block of memdisk. *)
Definition disk_write (bno : Z) (d : list Z) (s : bstate) : bstate :=
  BState (bufs s) (bc_lk s) (fun n => if n =? bno then d else disk s n) (disksize s)
    (wtrace s ++ [(bno, d)]) (woken s) (curpid s).

Definition bcache_acquire : K bstate unit :=
  let! held := kget bc_lk in
  if held : bool then kpanic "acquire" else kmodify (set_bc_lk true).
Definition bcache_release : K bstate unit :=
  let! held := kget bc_lk in
  if held : bool then kmodify (set_bc_lk false) else kpanic "release".

(** Run a sleep-lock routine on the lock of buffer [i]. *)
Definition on_lock {A} (i : nat) (c : K sleeplock A) : K bstate A :=
  kzoom (fun s => b_lock (buf_at s i)) (fun l => upd_buf i (set_lock l)) c.

Definition buf_chan (i : nat) : Z := Z.of_nat i.

(** ** memide.c *)

Definition iderw (i : nat) : K bstate unit :=
  let! h := on_lock i holdingsleep in
  if negb h then kpanic "iderw: buf not locked" else
  let! b := kget (fun s => buf_at s i) in
  if Z.land (b_flags b) (Z.lor B_VALID B_DIRTY) =? B_VALID then kpanic "iderw: nothing to do" else
  if negb (b_dev b =? 1) then kpanic "iderw: request not for disk 1" else
  let! size := kget disksize in
  if size <=? b_blockno b then kpanic "iderw: block out of range" else
  (if truth (Z.land (b_flags b) B_DIRTY) then
     kmodify (upd_buf i (fun b => set_flags (Z.land (b_flags b) (Z.lnot B_DIRTY)) b)) ;;
     kmodify (disk_write (b_blockno b) (b_data b))
   else
     kmodify (fun s => upd_buf i (set_data (disk s (b_blockno b))) s)) ;;
  kmodify (upd_buf i (fun b => set_flags (Z.lor (b_flags b) B_VALID) b)).

(** ** bio.c *)

(** One round of the loop of binit: push buffer [b] at the front of the ring. *)
Definition binit_buf (b : nat) : K bstate unit :=
  kmodify (fun s => upd_buf b (set_next (b_next (buf_at s head))) s) ;;
  kmodify (upd_buf b (set_prev head)) ;;
  on_lock b (initsleeplock "buffer") ;;
  kmodify (fun s => upd_buf (b_next (buf_at s head)) (set_prev b) s) ;;
  kmodify (upd_buf head (set_next b)).

Definition binit : K bstate unit :=
  kmodify (set_bc_lk false) ;;
  kmodify (upd_buf head (set_prev head)) ;;
  kmodify (upd_buf head (set_next head)) ;;
  let! _ := kfor (R := unit) nbuf 0 (fun b => binit_buf (Z.to_nat b) ;; kret None) in
  kret tt.

(** Follow [step] from buffer [b] until [test] holds or the head is reached
    ([Some None]); [None] when the fuel is used up. *)
Fixpoint scan (fuel : nat) (step : buf -> nat) (test : buf -> bool)
    (bs : list buf) (b : nat) : option (option nat) :=
  match fuel with
  | O => None
  | S f =>
      if (b =? head)%nat then Some None
      else if test (nth b bs dummy_buf) then Some (Some b)
      else scan f step test bs (step (nth b bs dummy_buf))
  end.

(** The ring has NBUF buffers, so NBUF steps and the head are enough. *)
Definition scan_fuel : nat := S nbuf.

Definition is_block (dev blockno : Z) (b : buf) : bool :=
  (b_dev b =? dev) && (b_blockno b =? blockno).
Definition is_unused (b : buf) : bool :=
  (b_refcnt b =? 0) && (Z.land (b_flags b) B_DIRTY =? 0).

Definition bget (dev blockno : Z) : K bstate nat :=
  bcache_acquire ;;
  let! hit := kget (fun s =>
    scan scan_fuel b_next (is_block dev blockno) (bufs s) (b_next (buf_at s head))) in
  match hit with
  | None => knofuel
  | Some (Some b) =>
      kmodify (upd_buf b (fun x => set_refcnt (u32 (b_refcnt x + 1)) x)) ;;
      bcache_release ;;
      let! pid := kget curpid in
      on_lock b (acquiresleep (buf_chan b) pid) ;;
      kret b
  | Some None =>
      let! free := kget (fun s =>
        scan scan_fuel b_prev is_unused (bufs s) (b_prev (buf_at s head))) in
      match free with
      | None => knofuel
      | Some (Some b) =>
          kmodify (upd_buf b (recycle dev blockno)) ;;
          bcache_release ;;
          let! pid := kget curpid in
          on_lock b (acquiresleep (buf_chan b) pid) ;;
          kret b
      | Some None => kpanic "bget: no buffers"
      end
  end.

Definition bread (dev blockno : Z) : K bstate nat :=
  let! b := bget dev blockno in
  let! fl := kget (fun s => b_flags (buf_at s b)) in
  (if Z.land fl B_VALID =? 0 then iderw b else kret tt) ;;
  kret b.

Definition bwrite (b : nat) : K bstate unit :=
  let! h := on_lock b holdingsleep in
  if negb h then kpanic "bwrite" else
  kmodify (upd_buf b (fun x => set_flags (Z.lor (b_flags x) B_DIRTY) x)) ;;
  iderw b.

Definition brelse (b : nat) : K bstate unit :=
  let! h := on_lock b holdingsleep in
  if negb h then kpanic "brelse" else
  let! ch := on_lock b (releasesleep (buf_chan b)) in
  kmodify (wakeup ch) ;;
  bcache_acquire ;;
  kmodify (upd_buf b (fun x => set_refcnt (u32 (b_refcnt x - 1)) x)) ;;
  let! n := kget (fun s => b_refcnt (buf_at s b)) in
  (if n =? 0 then
     kmodify (fun s => upd_buf (b_next (buf_at s b)) (set_prev (b_prev (buf_at s b))) s) ;;
     kmodify (fun s => upd_buf (b_prev (buf_at s b)) (set_next (b_next (buf_at s b))) s) ;;
     kmodify (fun s => upd_buf b (set_next (b_next (buf_at s head))) s) ;;
     kmodify (upd_buf b (set_prev head)) ;;
     kmodify (fun s => upd_buf (b_next (buf_at s head)) (set_prev b) s) ;;
     kmodify (upd_buf head (set_next b))
   else kret tt) ;;
  bcache_release.

(** The caller's store into [b->data]. *)
Definition bset_data (b : nat) (d : list Z) : K bstate unit :=
  kmodify (upd_buf b (set_data d)).

(** ** The ring of buffers *)

(** Pointer fields as functions, and a doubly linked segment: from [a] through
    the nodes [l] to [z], forwards by [nx] and backwards by [pv]. *)
Definition fset (f : nat -> nat) (i v : nat) : nat -> nat :=
  fun j => if decide (j = i) then v else f j.

Fixpoint chain (nx pv : nat -> nat) (a : nat) (l : list nat) (z : nat) : Prop :=
  match l with
  | [] => nx a = z /\ pv z = a
  | b :: l' => nx a = b /\ pv b = a /\ chain nx pv b l' z
  end.

Lemma chain_app nx pv a l1 b l2 z :
  chain nx pv a (l1 ++ b :: l2) z <-> chain nx pv a l1 b /\ chain nx pv b l2 z.
Proof. revert a. induction l1 as [|c l1 IH]; intros a; simpl; [tauto|]. rewrite IH. tauto. Qed.

Lemma chain_ext nx pv nx' pv' a l z :
  (forall i, i ∈ a :: l -> nx' i = nx i) ->
  (forall i, i ∈ l ++ [z] -> pv' i = pv i) ->
  chain nx pv a l z -> chain nx' pv' a l z.
Proof.
  revert a. induction l as [|b l IH]; intros a Hn Hp; simpl.
  - rewrite Hn, Hp by set_solver. done.
  - intros (H1 & H2 & H3). rewrite Hn, (Hp b) by set_solver. split_and!; [done|done|].
    apply IH; [..|done]; intros i Hi; [apply Hn|apply Hp]; set_solver.
Qed.

Lemma chain_last nx pv a l z : chain nx pv a l z -> pv z ∈ a :: l.
Proof.
  revert a. induction l as [|b l IH]; intros a; simpl; [set_solver|].
  intros (_ & _ & H). apply IH in H. set_solver.
Qed.
Lemma chain_first nx pv a l z : chain nx pv a l z -> nx a ∈ l ++ [z].
Proof. destruct l; simpl; intros (-> & _); set_solver. Qed.

Lemma fset_eq f i v : fset f i v i = v.
Proof. unfold fset. by rewrite decide_True. Qed.
Lemma fset_ne f i v j : j <> i -> fset f i v j = f j.
Proof. intros. unfold fset. by rewrite decide_False. Qed.

(** Replace the end points of a segment. *)
Lemma chain_set_end nx pv a l z z' :
  z' ∉ l -> NoDup (a :: l) ->
  chain nx pv a l z -> chain (fset nx (pv z) z') (fset pv z' (pv z)) a l z'.
Proof.
  revert a. induction l as [|b l IH]; intros a Hz Hnd; simpl.
  - intros (H1 & H2). rewrite H2, !fset_eq. done.
  - intros (H1 & H2 & H3). apply NoDup_cons in Hnd as [Ha Hnd].
    apply chain_last in H3 as Hl.
    assert (a <> pv z) by (intros ->; done).
    assert (b <> z') by set_solver.
    rewrite !fset_ne by done. split_and!; [done|done|].
    apply IH; [set_solver|done|done].
Qed.

(** Taking [b] out of the ring, as brelse does with its first two stores. *)
Lemma chain_unlink nx pv h l1 b l2 :
  NoDup (h :: l1 ++ b :: l2) ->
  chain nx pv h (l1 ++ b :: l2) h ->
  chain (fset nx (pv b) (nx b)) (fset pv (nx b) (pv b)) h (l1 ++ l2) h.
Proof.
  intros Hnd [H1 H2]%chain_app.
  assert (Hl1 : NoDup (h :: l1)).
  { rewrite app_comm_cons in Hnd. by apply NoDup_app in Hnd as (? & _). }
  assert (Hd : forall x, x ∈ h :: l1 -> x ∉ b :: l2).
  { rewrite app_comm_cons in Hnd. apply NoDup_app in Hnd as (_ & H & _). done. }
  pose proof (chain_last _ _ _ _ _ H1) as Hp.
  destruct l2 as [|c l2]; simpl in H2.
  - destruct H2 as (Hn & Hh). rewrite Hn, app_nil_r.
    apply chain_set_end; [by apply NoDup_cons in Hl1 as [? _]|done|done].
  - destruct H2 as (Hn & Hc & H2). rewrite Hn. apply chain_app. split.
    + apply chain_set_end; [|done|done]. intros Hin. apply (Hd c); [by right|right; left].
    + eapply chain_ext; [..|exact H2].
      * intros i Hi. apply fset_ne. intros ->. apply (Hd _ Hp). by right.
      * intros i Hi. apply fset_ne. intros ->.
        apply NoDup_cons in Hnd as [Hh Hnd]. apply NoDup_app in Hnd as (_ & _ & Hnd).
        apply NoDup_cons in Hnd as [_ Hnd]. apply NoDup_cons in Hnd as [Hc' _].
        apply elem_of_app in Hi as [Hi|Hi%list_elem_of_singleton]; [done|].
        apply (Hd h); [left|]. rewrite <- Hi. right; left.
Qed.

(** Putting [b] behind the head, as binit and the last four stores of brelse do. *)
Lemma chain_push nx pv h l b :
  b ∉ h :: l -> NoDup (h :: l) ->
  chain nx pv h l h ->
  chain (fset (fset nx b (nx h)) h b) (fset (fset pv b h) (nx h) b) h (b :: l) h.
Proof.
  intros Hb Hnd H. simpl. rewrite fset_eq.
  assert (Hbh : b <> h) by set_solver.
  split_and!; [done| |].
  - destruct l as [|c l]; simpl in H.
    + destruct H as [-> _]. rewrite fset_ne by done. apply fset_eq.
    + destruct H as (-> & _). rewrite fset_ne by set_solver. apply fset_eq.
  - destruct l as [|c l]; simpl in *.
    + destruct H as [Hn Hp]. rewrite Hn. rewrite fset_ne by done. by rewrite !fset_eq.
    + destruct H as (Hn & Hc & H). rewrite Hn.
      rewrite fset_ne by done. rewrite !fset_eq. split_and!; [done|done|].
      apply NoDup_cons in Hnd as [Hh Hnd]. apply NoDup_cons in Hnd as [Hc' Hnd].
      eapply chain_ext; [..|exact H].
      * intros i Hi. rewrite !fset_ne; [done|set_solver..].
      * intros i Hi. rewrite !fset_ne; [done|set_solver..].
Qed.

(** ** The cache invariant *)

Definition nx (s : bstate) (i : nat) : nat := b_next (buf_at s i).
Definition pv (s : bstate) (i : nat) : nat := b_prev (buf_at s i).

(** [l] lists the buffers from most to least recently used. *)
Record bcache_ok (s : bstate) (l : list nat) : Prop := {
  bo_len : length (bufs s) = S nbuf;
  bo_perm : l ≡ₚ seq 0 nbuf;
  bo_chain : chain (nx s) (pv s) head l head;
  bo_lk : bc_lk s = false;
  bo_lks : forall i, (i < nbuf)%nat -> sl_lk (b_lock (buf_at s i)) = false;
  bo_uniq : forall i j, (i < nbuf)%nat -> (j < nbuf)%nat ->
    b_dev (buf_at s i) = 1 -> b_dev (buf_at s j) = 1 ->
    b_blockno (buf_at s i) = b_blockno (buf_at s j) -> i = j
}.

Lemma bo_elem s l i : bcache_ok s l -> i ∈ l <-> (i < nbuf)%nat.
Proof. intros H. rewrite (bo_perm _ _ H). rewrite elem_of_seq. lia. Qed.

Lemma bo_nodup s l : bcache_ok s l -> NoDup (head :: l).
Proof.
  intros H. constructor.
  - rewrite (bo_elem s) by done. unfold head. lia.
  - rewrite (bo_perm _ _ H). apply NoDup_seq.
Qed.

Lemma buf_at_upd s i f j :
  (i < length (bufs s))%nat ->
  buf_at (upd_buf i f s) j = if decide (j = i) then f (buf_at s j) else buf_at s j.
Proof.
  intros H. unfold buf_at, upd_buf. simpl. destruct (decide (j = i)) as [->|Hne].
  - by rewrite nth_alter_eq.
  - by rewrite nth_alter_ne.
Qed.

(** What a client sees of a buffer: everything but the ring pointers. *)
Definition core (b : buf) : Z * Z * Z * sleeplock * Z * list Z :=
  (b_flags b, b_dev b, b_blockno b, b_lock b, b_refcnt b, b_data b).

Lemma core_eq b b' :
  core b = core b' <->
  b_flags b = b_flags b' /\ b_dev b = b_dev b' /\ b_blockno b = b_blockno b' /\
  b_lock b = b_lock b' /\ b_refcnt b = b_refcnt b' /\ b_data b = b_data b'.
Proof. unfold core. split; [by intros [= -> -> -> -> -> ->]|by intros (-> & -> & -> & -> & -> & ->)]. Qed.

(** ** Scans are searches of the list *)

Lemma scan_next s l a fuel test :
  chain (nx s) (pv s) a l head -> head ∉ l -> (length l < fuel)%nat ->
  scan fuel b_next test (bufs s) (nx s a) = Some (List.find (fun i => test (buf_at s i)) l).
Proof.
  revert a fuel. induction l as [|b l IH]; intros a [|f] Hc Hh Hf; simpl in Hf; try lia; simpl in *.
  - destruct Hc as [-> _]. by rewrite Nat.eqb_refl.
  - destruct Hc as (-> & _ & Hc). apply not_elem_of_cons in Hh as [Hb Hh].
    destruct (Nat.eqb_spec b head); [congruence|].
    change (nth b (bufs s) dummy_buf) with (buf_at s b).
    destruct (test (buf_at s b)); [done|]. change (b_next (buf_at s b)) with (nx s b).
    apply IH; [done|done|lia].
Qed.

Lemma scan_prev s l z fuel test :
  chain (nx s) (pv s) head l z -> head ∉ l -> (length l < fuel)%nat ->
  scan fuel b_prev test (bufs s) (pv s z) = Some (List.find (fun i => test (buf_at s i)) (rev l)).
Proof.
  revert z fuel. induction l as [|b l IH] using rev_ind; intros z [|f] Hc Hh Hf;
    rewrite ?length_app in Hf; simpl in Hf; try lia; simpl in *.
  - destruct Hc as [_ ->]. by rewrite Nat.eqb_refl.
  - apply chain_app in Hc as [Hc [Hb Hz]]. rewrite Hz.
    apply not_elem_of_app in Hh as [Hh Hbh%not_elem_of_cons].
    destruct (Nat.eqb_spec b head); [naive_solver|].
    rewrite rev_app_distr. simpl. change (nth b (bufs s) dummy_buf) with (buf_at s b).
    destruct (test (buf_at s b)); [done|]. change (b_prev (buf_at s b)) with (pv s b).
    apply IH; [done|done|lia].
Qed.

Lemma bcache_scan_next s l test :
  bcache_ok s l ->
  scan scan_fuel b_next test (bufs s) (b_next (buf_at s head))
    = Some (List.find (fun i => test (buf_at s i)) l).
Proof.
  intros H. apply (scan_next s l head).
  - apply H.
  - pose proof (bo_nodup s l H) as [Hd _]%NoDup_cons. done.
  - rewrite (bo_perm _ _ H), length_seq. unfold scan_fuel. lia.
Qed.

Lemma bcache_scan_prev s l test :
  bcache_ok s l ->
  scan scan_fuel b_prev test (bufs s) (b_prev (buf_at s head))
    = Some (List.find (fun i => test (buf_at s i)) (rev l)).
Proof.
  intros H. apply (scan_prev s l head).
  - apply H.
  - pose proof (bo_nodup s l H) as [Hd _]%NoDup_cons. done.
  - rewrite (bo_perm _ _ H), length_seq. unfold scan_fuel. lia.
Qed.

(** A buffer update that keeps pointers, inner locks and identity keeps the
    invariant. *)
Lemma bcache_ok_upd s l i f :
  bcache_ok s l -> (i < nbuf)%nat ->
  b_next (f (buf_at s i)) = b_next (buf_at s i) ->
  b_prev (f (buf_at s i)) = b_prev (buf_at s i) ->
  sl_lk (b_lock (f (buf_at s i))) = false ->
  (b_dev (f (buf_at s i)) = 1 -> forall j, (j < nbuf)%nat -> j <> i ->
     b_dev (buf_at s j) = 1 -> b_blockno (buf_at s j) <> b_blockno (f (buf_at s i))) ->
  bcache_ok (upd_buf i f s) l.
Proof.
  intros [Hlen Hp Hc Hk Hks Hu] Hi Hn Hpv Hl Hd.
  assert (Hi' : (i < length (bufs s))%nat) by lia.
  constructor; simpl; rewrite ?length_alter; [done|done| |done| |].
  - eapply chain_ext; [..|exact Hc]; intros j _; unfold nx, pv; rewrite buf_at_upd by done;
      destruct (decide (j = i)) as [->|]; done.
  - intros j Hj. rewrite buf_at_upd by done. destruct (decide (j = i)) as [->|]; [done|by apply Hks].
  - intros j k Hj Hk'. rewrite !buf_at_upd by done.
    destruct (decide (j = i)) as [->|], (decide (k = i)) as [->|]; [done| | |by apply Hu].
    + intros H1 H2 H3. exfalso. by apply (Hd H1 k).
    + intros H1 H2 H3. exfalso. by apply (Hd H2 j).
Qed.

Lemma bcache_ok_frame s s' l :
  bufs s' = bufs s -> bc_lk s' = bc_lk s -> bcache_ok s l -> bcache_ok s' l.
Proof.
  intros Hb Hk [H1 H2 H3 H4 H5 H6].
  assert (He : forall i, buf_at s' i = buf_at s i) by (intros; unfold buf_at; by rewrite Hb).
  constructor; rewrite ?Hb, ?Hk; try done.
  - eapply chain_ext; [..|exact H3]; intros; unfold nx, pv; by rewrite He.
  - intros. rewrite He. by apply H5.
  - intros i j. rewrite !He. apply H6.
Qed.

(** ** Flags *)

Definition valid (b : buf) : bool := Z.testbit (b_flags b) 1.
Definition dirty (b : buf) : bool := Z.testbit (b_flags b) 2.

Lemma valid_test f : (Z.land f B_VALID =? 0) = negb (Z.testbit f 1).
Proof. unfold B_VALID. change 2 with (2 ^ 1). rewrite land_bit by lia. by destruct (Z.testbit f 1). Qed.
Lemma dirty_test f : (Z.land f B_DIRTY =? 0) = negb (Z.testbit f 2).
Proof. unfold B_DIRTY. change 4 with (2 ^ 2). rewrite land_bit by lia. by destruct (Z.testbit f 2). Qed.
Lemma nothing_to_do_test f :
  (Z.land f (Z.lor B_VALID B_DIRTY) =? B_VALID) = Z.testbit f 1 && negb (Z.testbit f 2).
Proof.
  unfold B_VALID, B_DIRTY. rewrite Z.land_lor_distr_r.
  change 2 with (2 ^ 1) at 1. change 4 with (2 ^ 2). rewrite !land_bit by lia.
  by destruct (Z.testbit f 1), (Z.testbit f 2).
Qed.

Lemma is_unused_iff b : is_unused b = true <-> b_refcnt b = 0 /\ dirty b = false.
Proof.
  unfold is_unused, dirty. rewrite andb_true_iff, Z.eqb_eq, dirty_test, negb_true_iff. done.
Qed.

(** ** The effect of each operation *)

Definition lock_free (b : buf) : Prop := sl_locked (b_lock b) = 0.
Definition lock_held (b : buf) : Prop := sl_locked (b_lock b) = 1.
Definition owned (pid : Z) (b : buf) : sleeplock := SleepLock 1 false (sl_name (b_lock b)) pid.

(** A cached buffer, referenced once more and locked. *)
Definition hit_buf (pid : Z) (b : buf) : buf :=
  set_lock (owned pid b) (set_refcnt (u32 (b_refcnt b + 1)) b).
(** A recycled buffer, locked, with the block read from the disk. *)
Definition miss_buf (pid dev bno : Z) (d : list Z) (b : buf) : buf :=
  Buf B_VALID dev bno (owned pid b) 1 (b_prev b) (b_next b) d.

Lemma upd_buf_compose i f g s : upd_buf i f (upd_buf i g s) = upd_buf i (fun b => f (g b)) s.
Proof. unfold upd_buf, set_bufs. simpl. by rewrite list_alter_alter_eq. Qed.

Lemma upd_buf_ext i f g s : f (buf_at s i) = g (buf_at s i) -> upd_buf i f s = upd_buf i g s.
Proof.
  intros H. unfold upd_buf, set_bufs. f_equal. apply list_alter_ext; [|done].
  intros x Hx. unfold buf_at in H. by rewrite (nth_lookup_Some _ _ _ _ Hx) in H.
Qed.

Lemma on_lock_acquire s b pid :
  (b < length (bufs s))%nat -> sl_lk (b_lock (buf_at s b)) = false -> lock_free (buf_at s b) ->
  on_lock b (acquiresleep (buf_chan b) pid) s =
    Ret tt (upd_buf b (fun x => set_lock (owned pid x) x) s).
Proof.
  intros Hb Hk Hf. unfold on_lock, kzoom. rewrite acquiresleep_eq by done. rewrite Hf. simpl.
  f_equal. by apply upd_buf_ext.
Qed.

Lemma on_lock_holding s b :
  sl_lk (b_lock (buf_at s b)) = false -> lock_held (buf_at s b) ->
  on_lock b holdingsleep s = Ret true s.
Proof.
  intros Hk Hh. unfold on_lock, kzoom. rewrite holdingsleep_eq by done. rewrite Hh.
  f_equal. transitivity (upd_buf b id s); [by apply upd_buf_ext; destruct (buf_at s b)|].
  unfold upd_buf, set_bufs. destruct s; simpl. f_equal.
  apply list_eq. intros j. rewrite list_lookup_alter.
  destruct (decide (b = j)) as [->|]; [|done]. apply option_fmap_id.
Qed.

Lemma bcache_acquire_eq s : bc_lk s = false -> bcache_acquire s = Ret tt (set_bc_lk true s).
Proof. intros H. unfold bcache_acquire. krun. by rewrite H. Qed.
Lemma bcache_release_eq s : bc_lk s = true -> bcache_release s = Ret tt (set_bc_lk false s).
Proof. intros H. unfold bcache_release. krun. by rewrite H. Qed.

(** A critical section of bcache.lock that updates one buffer. *)
Lemma unlock_upd s b f :
  bc_lk s = false -> set_bc_lk false (upd_buf b f (set_bc_lk true s)) = upd_buf b f s.
Proof. destruct s; simpl. by intros ->. Qed.

Section effects.
Context (s : bstate) (l : list nat) (Hok : bcache_ok s l).

(** The tail shared by the two successful branches of bget. *)
Lemma bget_tail b f :
  (b < nbuf)%nat -> lock_free (buf_at s b) ->
  b_lock (f (buf_at s b)) = b_lock (buf_at s b) ->
  (bcache_release ;;
   (let! pid := kget curpid in
    on_lock b (acquiresleep (buf_chan b) pid) ;; kret b))
    (upd_buf b f (set_bc_lk true s))
  = Ret b (upd_buf b (fun x => set_lock (owned (curpid s) x) (f x)) s).
Proof.
  intros Hb Hfree Hf. pose proof (bo_len _ _ Hok) as Hlen.
  erewrite kbind_ret by (by apply bcache_release_eq).
  rewrite unlock_upd by apply Hok. krun.
  erewrite kbind_ret.
  2: { apply on_lock_acquire.
       - simpl. rewrite length_alter. lia.
       - rewrite buf_at_upd, decide_True by (done || lia). rewrite Hf. by apply Hok.
       - unfold lock_free. rewrite buf_at_upd, decide_True by (done || lia). by rewrite Hf. }
  unfold kret. f_equal. rewrite upd_buf_compose. apply upd_buf_ext. simpl.
  unfold owned. by rewrite Hf.
Qed.

Lemma bget_hit dev bno b :
  List.find (fun i => is_block dev bno (buf_at s i)) l = Some b ->
  lock_free (buf_at s b) ->
  bget dev bno s = Ret b (upd_buf b (hit_buf (curpid s)) s).
Proof.
  intros Hf Hfree.
  assert (Hb : (b < nbuf)%nat).
  { apply (bo_elem s l b Hok). apply list_elem_of_In. by apply find_some in Hf as [? _]. }
  unfold bget. erewrite kbind_ret by (by apply bcache_acquire_eq, Hok). krun.
  change (bufs (set_bc_lk true s)) with (bufs s).
  change (buf_at (set_bc_lk true s) head) with (buf_at s head).
  rewrite (bcache_scan_next s l) by done. rewrite Hf. krun.
  rewrite bget_tail by done. done.
Qed.

Lemma bget_miss dev bno b :
  List.find (fun i => is_block dev bno (buf_at s i)) l = None ->
  List.find (fun i => is_unused (buf_at s i)) (rev l) = Some b ->
  lock_free (buf_at s b) ->
  bget dev bno s =
    Ret b (upd_buf b (fun x => set_lock (owned (curpid s) x) (recycle dev bno x)) s).
Proof.
  intros Hn Hf Hfree.
  assert (Hb : (b < nbuf)%nat).
  { apply (bo_elem s l b Hok). apply list_elem_of_In. rewrite in_rev.
    by apply find_some in Hf as [? _]. }
  unfold bget. erewrite kbind_ret by (by apply bcache_acquire_eq, Hok). krun.
  change (bufs (set_bc_lk true s)) with (bufs s).
  change (buf_at (set_bc_lk true s) head) with (buf_at s head).
  rewrite (bcache_scan_next s l) by done. rewrite Hn. krun.
  change (bufs (set_bc_lk true s)) with (bufs s).
  change (buf_at (set_bc_lk true s) head) with (buf_at s head).
  rewrite (bcache_scan_prev s l) by done. rewrite Hf. krun.
  by rewrite bget_tail.
Qed.

Lemma bget_full dev bno :
  List.find (fun i => is_block dev bno (buf_at s i)) l = None ->
  List.find (fun i => is_unused (buf_at s i)) (rev l) = None ->
  bget dev bno s = Panic "bget: no buffers".
Proof.
  intros Hn Hf.
  unfold bget. erewrite kbind_ret by (by apply bcache_acquire_eq, Hok). krun.
  change (bufs (set_bc_lk true s)) with (bufs s).
  change (buf_at (set_bc_lk true s) head) with (buf_at s head).
  rewrite (bcache_scan_next s l) by done. rewrite Hn. krun.
  change (bufs (set_bc_lk true s)) with (bufs s).
  change (buf_at (set_bc_lk true s) head) with (buf_at s head).
  rewrite (bcache_scan_prev s l) by done. by rewrite Hf.
Qed.
End effects.

Section effects2.
Context (s : bstate) (b : nat).
Hypothesis Hlen : length (bufs s) = S nbuf.
Hypothesis Hb : (b < nbuf)%nat.
Hypothesis Hk : sl_lk (b_lock (buf_at s b)) = false.
Hypothesis Hheld : lock_held (buf_at s b).
Hypothesis Hdev : b_dev (buf_at s b) = 1.
Hypothesis Hbno : b_blockno (buf_at s b) < disksize s.

(** iderw of an invalid, clean buffer reads the block. *)
Lemma iderw_read :
  valid (buf_at s b) = false -> dirty (buf_at s b) = false ->
  iderw b s = Ret tt (upd_buf b (fun x =>
    set_flags (Z.lor (b_flags x) B_VALID) (set_data (disk s (b_blockno x)) x)) s).
Proof.
  unfold valid, dirty. intros Hv Hd. unfold iderw.
  erewrite kbind_ret by (by apply on_lock_holding). krun.
  rewrite nothing_to_do_test, Hv, Hd, Hdev. simpl. krun.
  replace (disksize s <=? b_blockno (buf_at s b)) with false by (symmetry; apply Z.leb_gt; done).
  unfold truth. rewrite dirty_test, Hd. simpl. krun. unfold kmodify. f_equal.
  rewrite upd_buf_compose. by apply upd_buf_ext.
Qed.

(** iderw of a dirty buffer writes the block and cleans the buffer. *)
Lemma iderw_write :
  dirty (buf_at s b) = true ->
  iderw b s = Ret tt (disk_write (b_blockno (buf_at s b)) (b_data (buf_at s b))
    (upd_buf b (fun x => set_flags (Z.lor (Z.land (b_flags x) (Z.lnot B_DIRTY)) B_VALID) x) s)).
Proof.
  unfold dirty. intros Hd. unfold iderw.
  erewrite kbind_ret by (by apply on_lock_holding). krun.
  rewrite nothing_to_do_test, Hd, andb_false_r, Hdev. simpl. krun.
  replace (disksize s <=? b_blockno (buf_at s b)) with false by (symmetry; apply Z.leb_gt; done).
  unfold truth. rewrite dirty_test, Hd. simpl. krun. unfold kmodify. f_equal.
  transitivity (disk_write (b_blockno (buf_at s b)) (b_data (buf_at s b))
    (upd_buf b (fun x => set_flags (Z.lor (b_flags x) B_VALID) x)
      (upd_buf b (fun x => set_flags (Z.land (b_flags x) (Z.lnot B_DIRTY)) x) s))); [done|].
  rewrite upd_buf_compose. f_equal. 
Qed.

(** bwrite leaves the buffer valid and clean and writes its block. *)
Definition written_flags (f : Z) : Z :=
  Z.lor (Z.land (Z.lor f B_DIRTY) (Z.lnot B_DIRTY)) B_VALID.
End effects2.

Lemma written_flags_bits f :
  Z.testbit (written_flags f) 1 = true /\ Z.testbit (written_flags f) 2 = false.
Proof.
  change (written_flags f)
    with (Z.lor (Z.land (Z.lor f (2 ^ 2)) (Z.lnot (2 ^ 2))) (2 ^ 1)).
  split; rewrite testbit_lor_bit, testbit_clear_bit, testbit_lor_bit by lia; simpl;
    by rewrite ?orb_true_r, ?andb_false_r.
Qed.

Lemma bwrite_eq s b :
  length (bufs s) = S nbuf -> (b < nbuf)%nat ->
  sl_lk (b_lock (buf_at s b)) = false -> lock_held (buf_at s b) ->
  b_dev (buf_at s b) = 1 -> b_blockno (buf_at s b) < disksize s ->
  bwrite b s = Ret tt (disk_write (b_blockno (buf_at s b)) (b_data (buf_at s b))
    (upd_buf b (fun x => set_flags (written_flags (b_flags x)) x) s)).
Proof.
  intros Hlen Hb Hk Hh Hd Hn. unfold bwrite.
  erewrite kbind_ret by (by apply on_lock_holding). krun.
  assert (Hat : buf_at (upd_buf b (fun x => set_flags (Z.lor (b_flags x) B_DIRTY) x) s) b
                = set_flags (Z.lor (b_flags (buf_at s b)) B_DIRTY) (buf_at s b))
    by (rewrite buf_at_upd, decide_True by (done || lia); done).
  rewrite iderw_write; rewrite ?Hat; try done.
  - f_equal. simpl. f_equal. by rewrite upd_buf_compose.
  - change (Z.testbit (Z.lor (b_flags (buf_at s b)) (2 ^ 2)) 2 = true).
    rewrite testbit_lor_bit by lia. by rewrite orb_true_r.
Qed.

(** bread of a cached block: no disk access. *)
Lemma bread_hit s l dev bno b :
  bcache_ok s l ->
  List.find (fun i => is_block dev bno (buf_at s i)) l = Some b ->
  lock_free (buf_at s b) -> valid (buf_at s b) = true ->
  bread dev bno s = Ret b (upd_buf b (hit_buf (curpid s)) s).
Proof.
  intros Hok Hf Hfree Hv. unfold bread.
  assert (Hb : (b < nbuf)%nat).
  { apply (bo_elem s l b Hok). apply list_elem_of_In. by apply find_some in Hf as [? _]. }
  erewrite kbind_ret by (by eapply bget_hit). krun.
  rewrite buf_at_upd, decide_True by (rewrite ?(bo_len _ _ Hok); done || lia).
  rewrite valid_test. simpl. unfold valid in Hv. rewrite Hv. done.
Qed.

(** bread of a block that is not cached recycles the least recently used
    unreferenced clean buffer. *)
Lemma bread_miss s l bno b :
  bcache_ok s l -> bno < disksize s ->
  List.find (fun i => is_block 1 bno (buf_at s i)) l = None ->
  List.find (fun i => is_unused (buf_at s i)) (rev l) = Some b ->
  lock_free (buf_at s b) ->
  bread 1 bno s = Ret b (upd_buf b (miss_buf (curpid s) 1 bno (disk s bno)) s).
Proof.
  intros Hok Hbno Hn Hf Hfree. unfold bread.
  assert (Hb : (b < nbuf)%nat).
  { apply (bo_elem s l b Hok). apply list_elem_of_In. rewrite in_rev.
    by apply find_some in Hf as [? _]. }
  pose proof (bo_len _ _ Hok) as Hlen.
  erewrite kbind_ret by (by eapply bget_miss). krun.
  set (s1 := upd_buf b _ s).
  assert (Hat : buf_at s1 b = set_lock (owned (curpid s) (buf_at s b)) (recycle 1 bno (buf_at s b)))
    by (unfold s1; rewrite buf_at_upd, decide_True by (done || lia); done).
  rewrite Hat, valid_test. simpl.
  erewrite kbind_ret; [reflexivity|].
  rewrite iderw_read; rewrite ?Hat; try done.
  f_equal. unfold s1. rewrite upd_buf_compose. by apply upd_buf_ext.
Qed.

(** ** brelse: moving a buffer to the front of the ring *)

Section pointers.
Context (t : bstate) (i v : nat) (Hi : (i < length (bufs t))%nat).

Lemma nx_set_prev j : nx (upd_buf i (set_prev v) t) j = nx t j.
Proof using Hi. unfold nx. rewrite buf_at_upd by done. by destruct (decide _). Qed.
Lemma pv_set_prev j : pv (upd_buf i (set_prev v) t) j = fset (pv t) i v j.
Proof using Hi. unfold pv, fset. rewrite buf_at_upd by done. by destruct (decide _). Qed.
Lemma nx_set_next j : nx (upd_buf i (set_next v) t) j = fset (nx t) i v j.
Proof using Hi. unfold nx, fset. rewrite buf_at_upd by done. by destruct (decide _). Qed.
Lemma pv_set_next j : pv (upd_buf i (set_next v) t) j = pv t j.
Proof using Hi. unfold pv. rewrite buf_at_upd by done. by destruct (decide _). Qed.
Lemma core_set_prev j : core (buf_at (upd_buf i (set_prev v) t) j) = core (buf_at t j).
Proof using Hi. rewrite buf_at_upd by done. by destruct (decide _). Qed.
Lemma core_set_next j : core (buf_at (upd_buf i (set_next v) t) j) = core (buf_at t j).
Proof using Hi. rewrite buf_at_upd by done. by destruct (decide _). Qed.
End pointers.

(** The six stores of brelse, in order. *)
Definition relink (b : nat) (t : bstate) : bstate :=
  let t1 := upd_buf (nx t b) (set_prev (pv t b)) t in
  let t2 := upd_buf (pv t1 b) (set_next (nx t1 b)) t1 in
  let t3 := upd_buf b (set_next (nx t2 head)) t2 in
  let t4 := upd_buf b (set_prev head) t3 in
  let t5 := upd_buf (nx t4 head) (set_prev b) t4 in
  upd_buf head (set_next b) t5.

Lemma relink_spec t l1 b l2 :
  length (bufs t) = S nbuf ->
  (forall i, i ∈ head :: l1 ++ b :: l2 -> (i < S nbuf)%nat) ->
  NoDup (head :: l1 ++ b :: l2) ->
  chain (nx t) (pv t) head (l1 ++ b :: l2) head ->
  chain (nx (relink b t)) (pv (relink b t)) head (b :: l1 ++ l2) head /\
  (forall j, core (buf_at (relink b t) j) = core (buf_at t j)).
Proof.
  intros Hlen Hr Hnd Hc.
  pose proof Hc as [Hc1 Hc2]%chain_app.
  assert (Hnb : nx t b ∈ head :: l1 ++ b :: l2).
  { apply chain_first in Hc2. set_solver. }
  assert (Hpb : pv t b ∈ head :: l1 ++ b :: l2).
  { apply chain_last in Hc1. set_solver. }
  assert (Hnd2 : NoDup (head :: l1 ++ l2)).
  { apply NoDup_cons in Hnd as [Hh Hnd]. apply NoDup_cons. split; [set_solver|].
    apply NoDup_app in Hnd as (? & H & [_ ?]%NoDup_cons). apply NoDup_app.
    split_and!; [done|set_solver|done]. }
  assert (Hbn : b ∉ head :: l1 ++ l2).
  { apply NoDup_cons in Hnd as [Hh Hnd]. rewrite not_elem_of_cons, not_elem_of_app.
    apply NoDup_app in Hnd as (? & H & [? ?]%NoDup_cons). split_and!; [set_solver| |done].
    intros Hin. apply (H b Hin). left. }
  assert (Hbne : b <> nx t b).
  { intros E. apply chain_first in Hc2. rewrite <- E in Hc2. set_solver. }
  set (t1 := upd_buf (nx t b) (set_prev (pv t b)) t).
  assert (Hl1 : length (bufs t1) = S nbuf) by (simpl; by rewrite length_alter).
  assert (Hpv1 : pv t1 b = pv t b).
  { unfold t1. rewrite pv_set_prev, fset_ne by (rewrite ?Hlen; auto). done. }
  assert (Hnx1 : forall j, nx t1 j = nx t j).
  { intros j. unfold t1. apply nx_set_prev. rewrite Hlen; auto. }
  set (t2 := upd_buf (pv t1 b) (set_next (nx t1 b)) t1).
  assert (Hl2 : length (bufs t2) = S nbuf) by (simpl; by rewrite !length_alter).
  assert (Hr1 : (nx t b < length (bufs t))%nat) by (rewrite Hlen; auto).
  assert (Hr2 : (pv t1 b < length (bufs t1))%nat) by (rewrite Hl1, Hpv1; auto).
  assert (Hchain2 : chain (nx t2) (pv t2) head (l1 ++ l2) head).
  { eapply chain_ext; [..|apply (chain_unlink _ _ _ _ _ _ Hnd Hc)]; intros j _; unfold t2.
    - rewrite nx_set_next by done. unfold fset. rewrite Hpv1, !Hnx1. done.
    - rewrite pv_set_next by done. unfold t1. by rewrite pv_set_prev. }
  assert (Hn2 : nx t2 head ∈ head :: l1 ++ b :: l2).
  { apply chain_first in Hchain2. set_solver. }
  set (t3 := upd_buf b (set_next (nx t2 head)) t2).
  set (t4 := upd_buf b (set_prev head) t3).
  assert (Hb : (b < S nbuf)%nat) by (apply Hr; set_solver).
  assert (Hl3 : length (bufs t3) = S nbuf) by (simpl; by rewrite !length_alter).
  assert (Hl4 : length (bufs t4) = S nbuf) by (simpl; by rewrite !length_alter).
  assert (Hn4 : nx t4 head = nx t2 head).
  { unfold t4. rewrite nx_set_prev by lia. unfold t3. rewrite nx_set_next by lia.
    apply fset_ne. set_solver. }
  set (t5 := upd_buf (nx t4 head) (set_prev b) t4).
  assert (Hl5 : length (bufs t5) = S nbuf) by (simpl; by rewrite !length_alter).
  assert (Hh : (head < S nbuf)%nat) by (unfold head; lia).
  assert (Hr4 : (nx t4 head < length (bufs t4))%nat) by (rewrite Hl4, Hn4; auto).
  change (relink b t) with (upd_buf head (set_next b) t5). split.
  - eapply chain_ext; [..|apply (chain_push _ _ _ _ _ Hbn Hnd2 Hchain2)]; intros j _.
    + rewrite nx_set_next by lia. unfold fset. unfold t5. rewrite nx_set_prev by done.
      unfold t4. rewrite nx_set_prev by lia. unfold t3. rewrite nx_set_next by lia. done.
    + rewrite pv_set_next by lia. unfold t5. rewrite pv_set_prev by done. rewrite Hn4.
      unfold fset. unfold t4. rewrite pv_set_prev by lia. unfold fset.
      unfold t3. rewrite pv_set_next by lia. done.
  - intros j. rewrite core_set_next by lia. unfold t5. rewrite core_set_prev by done.
    unfold t4. rewrite core_set_prev by lia. unfold t3. rewrite core_set_next by lia.
    unfold t2. rewrite core_set_next by done. unfold t1. by rewrite core_set_prev.
Qed.

Lemma relink_frame b t :
  length (bufs (relink b t)) = length (bufs t) /\ bc_lk (relink b t) = bc_lk t /\
  disk (relink b t) = disk t /\ disksize (relink b t) = disksize t /\
  wtrace (relink b t) = wtrace t /\ curpid (relink b t) = curpid t.
Proof. split_and!; [|done..]. unfold relink. simpl. by rewrite !length_alter. Qed.

(** The invariant reads the ring pointers and the cores only. *)
Lemma bcache_ok_cores s s' l l' :
  bcache_ok s l -> length (bufs s') = S nbuf -> l' ≡ₚ l ->
  chain (nx s') (pv s') head l' head -> bc_lk s' = false ->
  (forall j, (j < nbuf)%nat -> sl_lk (b_lock (buf_at s' j)) = false) ->
  (forall j, (j < nbuf)%nat -> b_dev (buf_at s' j) = b_dev (buf_at s j) /\
     b_blockno (buf_at s' j) = b_blockno (buf_at s j)) ->
  bcache_ok s' l'.
Proof.
  intros Hok Hlen Hp Hc Hk Hks Hid. constructor; try done.
  - by rewrite Hp, (bo_perm _ _ Hok).
  - intros i j Hi Hj. destruct (Hid i Hi) as [-> ->], (Hid j Hj) as [-> ->]. by apply Hok.
Qed.

(** The released buffer. *)
Definition released_buf (b : buf) : buf :=
  set_refcnt (u32 (b_refcnt b - 1)) (set_lock (SleepLock 0 false (sl_name (b_lock b)) 0) b).

Lemma on_lock_release s b :
  (b < length (bufs s))%nat -> sl_lk (b_lock (buf_at s b)) = false ->
  on_lock b (releasesleep (buf_chan b)) s =
    Ret (buf_chan b) (upd_buf b (fun x => set_lock (SleepLock 0 false (sl_name (b_lock x)) 0) x) s).
Proof.
  intros Hb Hk. unfold on_lock, kzoom. rewrite releasesleep_eq by done.
  f_equal. by apply upd_buf_ext.
Qed.

(** brelse unlocks the buffer, drops one reference, and moves the buffer to the
    most recently used end when that was the last reference. *)
Lemma brelse_spec s l1 b l2 :
  bcache_ok s (l1 ++ b :: l2) -> lock_held (buf_at s b) ->
  1 <= b_refcnt (buf_at s b) < 4294967296 ->
  exists s', brelse b s = Ret tt s' /\
    bcache_ok s' (if b_refcnt (buf_at s b) =? 1 then b :: l1 ++ l2 else l1 ++ b :: l2) /\
    core (buf_at s' b) = core (released_buf (buf_at s b)) /\
    (forall j, j <> b -> core (buf_at s' j) = core (buf_at s j)) /\
    disk s' = disk s /\ disksize s' = disksize s /\ wtrace s' = wtrace s /\ curpid s' = curpid s.
Proof.
  intros Hok Hh Hr. set (l := l1 ++ b :: l2) in *.
  assert (Hb : (b < nbuf)%nat) by (apply (bo_elem s l b Hok); unfold l; set_solver).
  pose proof (bo_len _ _ Hok) as Hlen.
  unfold brelse. erewrite kbind_ret by (apply on_lock_holding; [by apply Hok|done]). krun.
  erewrite kbind_ret by (apply on_lock_release; [lia|by apply Hok]). krun.
  erewrite kbind_ret by (apply bcache_acquire_eq; apply Hok). krun.
  set (t := upd_buf b (fun x => set_refcnt _ x) _).
  assert (Hat : forall j, buf_at t j = if decide (j = b) then released_buf (buf_at s j) else buf_at s j).
  { intros j. unfold t. rewrite buf_at_upd by (simpl; rewrite length_alter; lia).
    change (buf_at (set_bc_lk true (wakeup (buf_chan b) (upd_buf b ?f s))) j) with (buf_at (upd_buf b f s) j).
    rewrite buf_at_upd by lia. by destruct (decide (j = b)). }
  assert (Hlt : length (bufs t) = S nbuf) by (unfold t; simpl; by rewrite !length_alter).
  assert (Hct : chain (nx t) (pv t) head l head).
  { eapply chain_ext; [..|apply Hok]; intros j _; unfold nx, pv; rewrite Hat; by destruct (decide _). }
  rewrite Hat, decide_True by done. simpl b_refcnt. rewrite u32_small by lia.
  replace (b_refcnt (buf_at s b) - 1 =? 0) with (b_refcnt (buf_at s b) =? 1)
    by (destruct (Z.eqb_spec (b_refcnt (buf_at s b)) 1), (Z.eqb_spec (b_refcnt (buf_at s b) - 1) 0); lia).
  assert (Hlks : forall j, (j < nbuf)%nat -> sl_lk (b_lock (buf_at t j)) = false).
  { intros j Hj. rewrite Hat. destruct (decide (j = b)); [done|by apply Hok]. }
  destruct (b_refcnt (buf_at s b) =? 1) eqn:E1; krun.
  - rewrite bcache_release_eq by done. fold (relink b t).
    destruct (relink_spec t l1 b l2) as [Hc' Hcore]; [done| | |done|].
    { intros i [->|Hi]%elem_of_cons; [unfold head; lia|].
      apply (bo_elem s l i Hok) in Hi. lia. }
    { by apply (bo_nodup s l). }
    destruct (relink_frame b t) as (F1 & F2 & F3 & F4 & F5 & F6).
    exists (set_bc_lk false (relink b t)). split_and!; [done| |..].
    + eapply bcache_ok_cores; [exact Hok|by transitivity (length (bufs t))| |exact Hc'|done|..].
      * unfold l. by rewrite Permutation_middle.
      * intros j Hj. specialize (Hcore j). apply core_eq in Hcore as (_ & _ & _ & Hl & _).
        change (sl_lk (b_lock (buf_at (relink b t) j)) = false). rewrite Hl. by apply Hlks.
      * intros j Hj. specialize (Hcore j). apply core_eq in Hcore as (_ & Hd & Hn & _).
        change (buf_at (set_bc_lk false (relink b t)) j) with (buf_at (relink b t) j).
        rewrite Hd, Hn, Hat. by destruct (decide (j = b)).
    + change (core (buf_at (relink b t) b) = core (released_buf (buf_at s b))).
      by rewrite Hcore, Hat, decide_True.
    + intros j Hj. change (core (buf_at (relink b t) j) = core (buf_at s j)).
      by rewrite Hcore, Hat, decide_False.
    + exact F3.
    + exact F4.
    + exact F5.
    + exact F6.
  - rewrite bcache_release_eq by done. exists (set_bc_lk false t).
    split_and!; [done| | | |done..].
    + eapply bcache_ok_cores; [exact Hok|done|done|exact Hct|done|done|].
      intros j Hj. change (buf_at (set_bc_lk false t) j) with (buf_at t j).
      rewrite Hat. by destruct (decide (j = b)).
    + change (core (buf_at t b) = core (released_buf (buf_at s b))). by rewrite Hat, decide_True.
    + intros j Hj. change (core (buf_at t j) = core (buf_at s j)). by rewrite Hat, decide_False.
Qed.

(** ** What a single-threaded client relies on

    [H] are the blocks the client holds (read and not yet released), [D] the
    blocks pinned by B_DIRTY.  Every other cached block agrees with the disk. *)

Definition view (s : bstate) (n : Z) : list Z :=
  match List.find (fun i => is_block 1 n (buf_at s i)) (seq 0 nbuf) with
  | Some i => b_data (buf_at s i)
  | None => disk s n
  end.

Definition used_buf (s : bstate) (H D : gset Z) (b : buf) : Prop :=
  b_dev b = 1 /\ valid b = true /\
  b_refcnt b = of_bool (bool_decide (b_blockno b ∈ H)) /\
  sl_locked (b_lock b) = of_bool (bool_decide (b_blockno b ∈ H)) /\
  dirty b = bool_decide (b_blockno b ∈ D) /\
  b_blockno b < disksize s /\
  (b_blockno b ∉ H -> b_blockno b ∉ D -> b_data b = disk s (b_blockno b)).
Definition virgin_buf (b : buf) : Prop :=
  b_dev b <> 1 /\ b_refcnt b = 0 /\ sl_locked (b_lock b) = 0 /\ dirty b = false.

Definition cached (s : bstate) (n : Z) (i : nat) : Prop :=
  (i < nbuf)%nat /\ b_dev (buf_at s i) = 1 /\ b_blockno (buf_at s i) = n.

Record cache_abs (s : bstate) (H D : gset Z) : Prop := {
  ca_ok : exists l, bcache_ok s l;
  ca_buf : forall i, (i < nbuf)%nat -> used_buf s H D (buf_at s i) \/ virgin_buf (buf_at s i);
  ca_in : forall n, n ∈ H ∪ D -> exists i, cached s n i
}.

Lemma is_block_iff dev n b : is_block dev n b = true <-> b_dev b = dev /\ b_blockno b = n.
Proof. unfold is_block. rewrite andb_true_iff, !Z.eqb_eq. done. Qed.

(** Finding the buffer of a block does not depend on the order of the search. *)
Lemma find_cached s l l' n i :
  bcache_ok s l -> (forall j, j ∈ l' <-> (j < nbuf)%nat) -> cached s n i ->
  List.find (fun j => is_block 1 n (buf_at s j)) l' = Some i.
Proof.
  intros Hok Hl (Hi & Hd & Hn).
  destruct (List.find _ l') as [j|] eqn:E.
  - apply find_some in E as [Hj [Hdj Hnj]%is_block_iff].
    apply list_elem_of_In, Hl in Hj. f_equal. apply (bo_uniq _ _ Hok); congruence.
  - exfalso. eapply find_none in E; [|apply list_elem_of_In, Hl, Hi].
    apply not_true_iff_false in E. apply E. by apply is_block_iff.
Qed.

Lemma find_not_cached s l' n :
  (forall j, j ∈ l' <-> (j < nbuf)%nat) -> (forall i, ~ cached s n i) ->
  List.find (fun j => is_block 1 n (buf_at s j)) l' = None.
Proof.
  intros Hl Hn. destruct (List.find _ l') as [j|] eqn:E; [|done].
  apply find_some in E as [Hj Hd%is_block_iff]. apply list_elem_of_In, Hl in Hj.
  exfalso. by apply (Hn j).
Qed.

Lemma elem_seq_nbuf j : j ∈ seq 0 nbuf <-> (j < nbuf)%nat.
Proof. rewrite elem_of_seq. lia. Qed.

Lemma view_cached s l n i : bcache_ok s l -> cached s n i -> view s n = b_data (buf_at s i).
Proof.
  intros Hok Hc. unfold view. by rewrite (find_cached s l _ n i Hok elem_seq_nbuf Hc).
Qed.
Lemma view_not_cached s n : (forall i, ~ cached s n i) -> view s n = disk s n.
Proof. intros Hc. unfold view. by rewrite (find_not_cached s _ n elem_seq_nbuf Hc). Qed.

Lemma cached_dec s n : (exists i, cached s n i) \/ (forall i, ~ cached s n i).
Proof.
  destruct (List.find (fun j => is_block 1 n (buf_at s j)) (seq 0 nbuf)) as [i|] eqn:E.
  - left. exists i. apply find_some in E as [Hi Hd%is_block_iff].
    apply list_elem_of_In, elem_seq_nbuf in Hi. by split.
  - right. intros i (Hi & Hd). eapply find_none in E; [|apply list_elem_of_In, elem_seq_nbuf, Hi].
    apply not_true_iff_false in E. apply E. by apply is_block_iff.
Qed.

(** Pigeonhole: when fewer than NBUF blocks are held or dirty, some buffer can
    be recycled. *)
Lemma exists_unused s H D :
  cache_abs s H D -> (size (H ∪ D) < nbuf)%nat ->
  exists i, (i < nbuf)%nat /\ is_unused (buf_at s i) = true.
Proof.
  intros [[l Hok] Hbuf _] Hsz.
  destruct (List.find (fun i => is_unused (buf_at s i)) (seq 0 nbuf)) as [i|] eqn:E.
  { apply find_some in E as [Hi%list_elem_of_In%elem_seq_nbuf Hu]. eauto. }
  exfalso.
  assert (Hall : forall i, (i < nbuf)%nat -> b_dev (buf_at s i) = 1 /\ b_blockno (buf_at s i) ∈ H ∪ D).
  { intros i Hi. eapply find_none in E; [|apply list_elem_of_In, elem_seq_nbuf, Hi].
    apply not_true_iff_false in E. rewrite is_unused_iff in E.
    destruct (Hbuf i Hi) as [(Hd & _ & Hr & _ & Hdi & _)|(_ & Hr & _ & Hdi)]; [|tauto].
    split; [done|]. apply elem_of_union.
    rewrite Hr, Hdi in E. unfold of_bool in E.
    destruct (decide (b_blockno (buf_at s i) ∈ H)); [by left|].
    destruct (decide (b_blockno (buf_at s i) ∈ D)); [by right|].
    exfalso. apply E. by rewrite !bool_decide_eq_false_2. }
  set (bl := (fun i => b_blockno (buf_at s i)) <$> seq 0 nbuf).
  assert (Hnd : NoDup bl).
  { apply NoDup_fmap_2_strong; [|apply NoDup_seq].
    intros i j Hi%elem_seq_nbuf Hj%elem_seq_nbuf Hij.
    apply (bo_uniq _ _ Hok); [done|done|apply Hall; done|apply Hall; done|done]. }
  assert (Hsub : list_to_set bl ⊆ H ∪ D).
  { intros n Hn. apply elem_of_list_to_set, list_elem_of_fmap in Hn as (i & -> & Hi%elem_seq_nbuf).
    by apply Hall. }
  apply subseteq_size in Hsub. rewrite size_list_to_set in Hsub by done.
  unfold bl in Hsub. rewrite length_fmap, length_seq in Hsub. lia.
Qed.

Definition same_disk (s s' : bstate) : Prop :=
  disk s' = disk s /\ disksize s' = disksize s /\ wtrace s' = wtrace s /\ curpid s' = curpid s.

Lemma used_buf_congr s s' H D H' D' b b' :
  core b' = core b -> disksize s' = disksize s -> disk s' (b_blockno b) = disk s (b_blockno b) ->
  (b_blockno b ∈ H' <-> b_blockno b ∈ H) -> (b_blockno b ∈ D' <-> b_blockno b ∈ D) ->
  used_buf s H D b -> used_buf s' H' D' b'.
Proof.
  intros (E1 & E2 & E3 & E4 & E5 & E6)%core_eq Hsz Hd HH HD (U1 & U2 & U3 & U4 & U5 & U6 & U7).
  unfold used_buf, valid, dirty in *. rewrite E1, E2, E3, E4, E5, E6, Hsz, Hd.
  rewrite (bool_decide_ext _ _ HH), (bool_decide_ext _ _ HD). naive_solver.
Qed.

Lemma virgin_buf_congr b b' : core b' = core b -> virgin_buf b -> virgin_buf b'.
Proof.
  intros (E1 & E2 & E3 & E4 & E5 & E6)%core_eq. unfold virgin_buf, dirty.
  by rewrite E1, E2, E4, E5.
Qed.

Lemma cached_congr s s' n i :
  core (buf_at s' i) = core (buf_at s i) -> cached s n i <-> cached s' n i.
Proof. intros (_ & E2 & E3 & _)%core_eq. unfold cached. by rewrite E2, E3. Qed.

(** The common shape of the client operations: buffer [b], which holds block
    [n] afterwards, changes; every other buffer keeps its core. *)
Lemma cache_abs_step s s' H D H' D' n b :
  cache_abs s H D ->
  (exists l, bcache_ok s' l) -> cached s' n b ->
  (forall j, j <> b -> core (buf_at s' j) = core (buf_at s j)) ->
  disksize s' = disksize s -> (forall m, m <> n -> disk s' m = disk s m) ->
  (forall m, m <> n -> m ∈ H' <-> m ∈ H) -> (forall m, m <> n -> m ∈ D' <-> m ∈ D) ->
  (forall j, cached s n j -> j = b) ->
  (cached s n b \/ is_unused (buf_at s b) = true) ->
  used_buf s' H' D' (buf_at s' b) ->
  cache_abs s' H' D'.
Proof.
  intros [_ Hbuf Hin] Hok' Hcb Hcore Hsz Hdk HH HD Hu Hb Hub. constructor; [done| |].
  - intros j Hj. destruct (decide (j = b)) as [->|Hne]; [by left|].
    destruct (Hbuf j Hj) as [Hu1|Hv].
    + left. assert (b_blockno (buf_at s j) <> n).
      { intros E. apply Hne, Hu. split_and!; [done|apply Hu1|done]. }
      eapply used_buf_congr; [by apply Hcore|done|by apply Hdk|by apply HH|by apply HD|done].
    + right. eapply virgin_buf_congr; [by apply Hcore|done].
  - intros m Hm. destruct (decide (m = n)) as [->|Hne]; [by exists b|].
    assert (Hm' : m ∈ H ∪ D) by (rewrite elem_of_union, <- HH, <- HD by done; set_solver).
    destruct (Hin m Hm') as [j Hj]. exists j. apply (cached_congr s); [|done].
    apply Hcore. intros ->. destruct Hb as [Hb|Hb].
    + destruct Hb as (_ & _ & Hb). destruct Hj as (_ & _ & Hj). congruence.
    + destruct Hj as (Hj1 & Hj2 & Hj3). apply is_unused_iff in Hb as [Hb1 Hb2].
      destruct (Hbuf b Hj1) as [(_ & _ & R1 & _ & R2 & _)|(Hvd & _)]; [|done].
      rewrite Hj3 in R1, R2. rewrite R1 in Hb1. rewrite R2 in Hb2.
      apply elem_of_union in Hm' as [Hm'|Hm'].
      * by rewrite bool_decide_eq_true_2 in Hb1.
      * by rewrite bool_decide_eq_true_2 in Hb2.
Qed.

(** The logical contents after such a step. *)
Lemma view_step s s' H D n b m :
  cache_abs s H D ->
  (exists l, bcache_ok s' l) -> cached s' n b ->
  (forall j, j <> b -> core (buf_at s' j) = core (buf_at s j)) ->
  (forall m, m <> n -> disk s' m = disk s m) ->
  (cached s n b \/ is_unused (buf_at s b) = true) ->
  (forall j, cached s n j -> j = b) ->
  view s' m = if decide (m = n) then b_data (buf_at s' b) else view s m.
Proof.
  intros [[l Hok] Hbuf _] [l' Hok'] Hcb Hcore Hdk Hb Hu.
  destruct (decide (m = n)) as [->|Hne]; [by eapply view_cached|].
  assert (Hnot : ~ cached s' m b) by (intros (_ & _ & E); destruct Hcb as (_ & _ & E'); congruence).
  destruct (cached_dec s m) as [[j Hj]|Hj].
  - destruct (decide (j = b)) as [->|Hjb].
    + destruct Hb as [Hb|Hb]; [destruct Hb as (_ & _ & E), Hj as (_ & _ & E'); congruence|].
      rewrite view_not_cached.
      * rewrite (view_cached s l m b) by done. destruct Hj as (Hj1 & Hj2 & Hj3).
        rewrite Hdk by done. apply is_unused_iff in Hb as [Hb1 Hb2].
        destruct (Hbuf b Hj1) as [(_ & _ & R1 & _ & R2 & _ & R3)|(Hvd & _)]; [|done].
        rewrite Hj3 in *. symmetry. apply R3; intros Hin.
        -- by rewrite R1, bool_decide_eq_true_2 in Hb1.
        -- by rewrite R2, bool_decide_eq_true_2 in Hb2.
      * intros k Hk. destruct (decide (k = b)) as [->|Hkb]; [done|].
        apply (cached_congr s) in Hk; [|by apply Hcore].
        apply Hkb, (bo_uniq _ _ Hok); destruct Hj as (? & ? & ?), Hk as (? & ? & ?); congruence.
    + rewrite (view_cached s l m j), (view_cached s' l' m j); [|done|apply (cached_congr s); auto|done|done].
      specialize (Hcore j Hjb). by apply core_eq in Hcore as (_ & _ & _ & _ & _ & ->).
  - rewrite !view_not_cached; [by apply Hdk|done|].
    intros k Hk. destruct (decide (k = b)) as [->|Hkb]; [done|].
    apply (Hj k), (cached_congr s s'); auto.
Qed.

(** The buffers of held blocks stay where they are. *)
Lemma cached_step s s' H D n b m i :
  cache_abs s H D -> cached s' n b ->
  (forall j, j <> b -> core (buf_at s' j) = core (buf_at s j)) ->
  (cached s n b \/ is_unused (buf_at s b) = true) ->
  m ∈ H -> cached s m i -> cached s' m i.
Proof.
  intros [_ Hbuf _] Hcb Hcore Hb Hm Hi. destruct (decide (i = b)) as [->|Hne].
  - destruct Hb as [Hb|Hb].
    + destruct Hb as (_ & _ & E), Hi as (_ & _ & E'). by rewrite <- E', E.
    + destruct Hi as (Hi1 & Hi2 & Hi3). apply is_unused_iff in Hb as [Hb1 _].
      destruct (Hbuf b Hi1) as [(_ & _ & R & _)|(? & _)]; [|done].
      by rewrite R, Hi3, bool_decide_eq_true_2 in Hb1.
  - apply (cached_congr s); [by apply Hcore|done].
Qed.
