(* ===== verification/Bcache.v ===== *)
(** * The buffer cache as its clients see it

    Specifications of bread, bwrite, brelse and of the client's own stores,
    in terms of the blocks held [H], the blocks pinned dirty [D], the disk and
    the logical contents [view].  The log and the file system are verified
    against these, not against the ring of buffers. *)

From S2P Require Import Prelude Layout Sleeplock Bio.

(** The buffers of the blocks in [H] stay where they are. *)
Definition keeps (s s' : bstate) (H : gset Z) : Prop :=
  forall m i, m ∈ H -> cached s m i -> cached s' m i.

(** bread returns a locked buffer with the current contents of the block, and
    changes no block, provided the block is not already held and either it is
    pinned in the cache or not all buffers are in use. *)
Lemma bread_client s H D n :
  cache_abs s H D -> n ∉ H -> n < disksize s ->
  (size (H ∪ D) < nbuf)%nat \/ n ∈ D ->
  exists b s', bread 1 n s = Ret b s' /\ cache_abs s' ({[n]} ∪ H) D /\ cached s' n b /\
    b_data (buf_at s' b) = view s n /\ (forall m, view s' m = view s m) /\ same_disk s s' /\ keeps s s' H.
Proof.
  intros Habs Hn Hsz Hroom. pose proof Habs as [[l Hok] Hbuf Hin].
  pose proof (bo_len _ _ Hok) as Hlen.
  assert (Hel : forall j, j ∈ l <-> (j < nbuf)%nat) by (intros; by apply (bo_elem s)).
  destruct (cached_dec s n) as [[b Hc]|Hnc].
  - (* cached *)
    pose proof Hc as (Hb & Hd & Hbn).
    destruct (Hbuf b Hb) as [Hu|(? & _)]; [|done].
    pose proof Hu as (U1 & U2 & U3 & U4 & U5 & U6 & U7). rewrite Hbn in *.
    rewrite bool_decide_eq_false_2 in U3, U4 by done. simpl in U3, U4.
    set (s' := upd_buf b (hit_buf (curpid s)) s).
    assert (Hat : forall j, buf_at s' j = if decide (j = b) then hit_buf (curpid s) (buf_at s j) else buf_at s j)
      by (intros; unfold s'; rewrite buf_at_upd by lia; done).
    assert (Hok' : bcache_ok s' l).
    { apply bcache_ok_upd; try done. simpl. intros _ j Hj Hjb Hdj E.
      apply Hjb, (bo_uniq _ _ Hok); congruence. }
    assert (Hcs : cached s' n b)
      by (unfold cached; rewrite Hat, decide_True by done; done).
    assert (Hcore : forall j, j <> b -> core (buf_at s' j) = core (buf_at s j))
      by (intros j Hj; by rewrite Hat, decide_False).
    assert (Huq : forall j, cached s n j -> j = b).
    { intros j (? & ? & ?). apply (bo_uniq _ _ Hok); congruence. }
    assert (Hdat : b_data (buf_at s' b) = view s n)
      by (rewrite Hat, decide_True, (view_cached s l n b) by done; done).
    exists b, s'. split_and!.
    + eapply bread_hit; [done|by apply (find_cached s l)|done|done].
    + eapply (cache_abs_step s s' H D _ _ n b); try done; [by exists l|set_solver|by left|].
      rewrite Hat, decide_True by done. unfold used_buf, hit_buf, valid, dirty in *. simpl.
      rewrite Hbn, U3. rewrite bool_decide_eq_true_2 by set_solver.
      split_and!; [done..|]. set_solver.
    + done.
    + done.
    + intros m. rewrite (view_step s s' H D n b m); try done; [|by exists l|by left].
      destruct (decide (m = n)) as [->|]; done.
    + done.
    + intros m k Hm Hk. eapply (cached_step s s' H D n b); eauto.
  - (* not cached: recycle *)
    assert (Hroom' : (size (H ∪ D) < nbuf)%nat).
    { destruct Hroom as [?|HnD]; [done|]. destruct (Hin n) as [i Hi]; [set_solver|]. by apply Hnc in Hi. }
    destruct (exists_unused s H D Habs Hroom') as (i & Hi & Hiu).
    destruct (List.find (fun i => is_unused (buf_at s i)) (rev l)) as [b|] eqn:E.
    2: { eapply find_none in E; [|rewrite <- in_rev; by apply list_elem_of_In, Hel].
         congruence. }
    apply find_some in E as E'. destruct E' as [Hbl Hbu].
    rewrite <- in_rev in Hbl. apply list_elem_of_In, Hel in Hbl as Hb.
    pose proof Hbu as [Hb1 Hb2]%is_unused_iff.
    assert (Hfree : lock_free (buf_at s b)).
    { unfold lock_free. destruct (Hbuf b Hb) as [(_ & _ & R1 & R2 & _)|(_ & _ & R & _)]; [|done].
      by rewrite R2, <- R1. }
    set (s' := upd_buf b (miss_buf (curpid s) 1 n (disk s n)) s).
    assert (Hat : forall j, buf_at s' j =
              if decide (j = b) then miss_buf (curpid s) 1 n (disk s n) (buf_at s j) else buf_at s j)
      by (intros; unfold s'; rewrite buf_at_upd by lia; done).
    assert (Hok' : bcache_ok s' l).
    { apply bcache_ok_upd; try done. simpl. intros _ j Hj Hjb Hdj En. by apply (Hnc j). }
    assert (Hcs : cached s' n b) by (unfold cached; rewrite Hat, decide_True by done; done).
    assert (Hcore : forall j, j <> b -> core (buf_at s' j) = core (buf_at s j))
      by (intros j Hj; by rewrite Hat, decide_False).
    assert (HnD : n ∉ D) by (intros Hx; destruct (Hin n) as [k Hk]; [set_solver|by apply Hnc in Hk]).
    exists b, s'. split_and!.
    + eapply bread_miss; [done|done|by apply find_not_cached|done|done].
    + eapply (cache_abs_step s s' H D _ _ n b); try done;
        [by exists l|set_solver|intros j Hj; by apply Hnc in Hj|by right|].
      rewrite Hat, decide_True by done. unfold used_buf, miss_buf, valid, dirty. simpl.
      rewrite bool_decide_eq_true_2 by set_solver. rewrite bool_decide_eq_false_2 by done.
      split_and!; [done..|]. set_solver.
    + done.
    + rewrite Hat, decide_True by done. by rewrite view_not_cached.
    + intros m. rewrite (view_step s s' H D n b m); try done;
        [|by exists l|by right|intros j Hj; by apply Hnc in Hj].
      destruct (decide (m = n)) as [->|]; [|done].
      rewrite Hat, decide_True by done. by rewrite view_not_cached.
    + done.
    + intros m k Hm Hk. eapply (cached_step s s' H D n b); eauto.
Qed.

(** The buffer of a block is the only one that caches it. *)
Lemma cached_unique s l n i j : bcache_ok s l -> cached s n i -> cached s n j -> j = i.
Proof. intros Hok (? & ? & ?) (? & ? & ?). apply (bo_uniq _ _ Hok); congruence. Qed.

Lemma held_used s H D n b :
  cache_abs s H D -> cached s n b -> used_buf s H D (buf_at s b).
Proof.
  intros Habs (Hb & Hd & _). destruct (ca_buf _ _ _ Habs b Hb) as [?|(? & _)]; done.
Qed.

Lemma held_len s H D n b : cache_abs s H D -> cached s n b -> (b < length (bufs s))%nat.
Proof.
  intros Habs (Hb & _). destruct (ca_ok _ _ _ Habs) as [l Hok]. rewrite (bo_len _ _ Hok). lia.
Qed.

(** An update of a held buffer that keeps its identity, lock and count. *)
Section held.
Context (s : bstate) (H D : gset Z) (n : Z) (b : nat) (f : buf -> buf).
Hypothesis Habs : cache_abs s H D.
Hypothesis Hn : n ∈ H.
Hypothesis Hc : cached s n b.
Hypothesis Hf : b_dev (f (buf_at s b)) = 1 /\ b_blockno (f (buf_at s b)) = n /\
  b_lock (f (buf_at s b)) = b_lock (buf_at s b) /\
  b_refcnt (f (buf_at s b)) = b_refcnt (buf_at s b) /\
  b_next (f (buf_at s b)) = b_next (buf_at s b) /\
  b_prev (f (buf_at s b)) = b_prev (buf_at s b) /\
  valid (f (buf_at s b)) = true.

Lemma held_upd_at : buf_at (upd_buf b f s) b = f (buf_at s b).
Proof. rewrite buf_at_upd by (by eapply held_len). by rewrite decide_True. Qed.

Lemma held_upd_ok l : bcache_ok s l -> bcache_ok (upd_buf b f s) l.
Proof.
  intros Hok. destruct Hf as (F1 & F2 & F3 & F4 & F5 & F6 & F7). pose proof Hc as (Hb & Hd & Hbn).
  apply bcache_ok_upd; try done.
  - rewrite F3. by apply Hok.
  - rewrite F2. intros _ j Hj Hjb Hdj E. apply Hjb, (bo_uniq _ _ Hok); congruence.
Qed.

Lemma held_upd_cached : cached (upd_buf b f s) n b.
Proof.
  destruct Hf as (F1 & F2 & _). unfold cached. rewrite held_upd_at.
  split_and!; [apply Hc|done|done].
Qed.

Lemma held_upd_core j : j <> b -> core (buf_at (upd_buf b f s) j) = core (buf_at s j).
Proof. intros Hj. rewrite buf_at_upd by (by eapply held_len). by rewrite decide_False. Qed.

(** [D'] may differ from [D] at [n] only, as the dirty bit says. *)
Lemma held_upd_abs D' :
  (forall m, m <> n -> m ∈ D' <-> m ∈ D) ->
  dirty (f (buf_at s b)) = bool_decide (n ∈ D') ->
  cache_abs (upd_buf b f s) H D'.
Proof.
  intros HD Hdirty. destruct (ca_ok _ _ _ Habs) as [l Hok].
  destruct Hf as (F1 & F2 & F3 & F4 & F5 & F6 & F7).
  pose proof (held_used s H D n b Habs Hc) as (U1 & U2 & U3 & U4 & U5 & U6 & U7). pose proof Hc as (Hb & Hd & Hbn).
  eapply (cache_abs_step s _ H D H D' n b); try done.
  - exists l. by apply held_upd_ok.
  - apply held_upd_cached.
  - apply held_upd_core.
  - intros j Hj. eapply (cached_unique s); eauto.
  - by left.
  - rewrite held_upd_at. unfold used_buf. rewrite F1, F2, F3, F4, F7, Hdirty, U3, U4, Hbn.
    rewrite Hbn in U6. split_and!; done.
Qed.

Lemma held_upd_keeps : keeps s (upd_buf b f s) H.
Proof.
  intros m i Hm Hi. eapply (cached_step s _ H D n b); eauto using held_upd_cached, held_upd_core.
Qed.

Lemma held_upd_view m :
  view (upd_buf b f s) m = if decide (m = n) then b_data (f (buf_at s b)) else view s m.
Proof.
  destruct (ca_ok _ _ _ Habs) as [l Hok].
  rewrite (view_step s _ H D n b m); try done.
  - by rewrite held_upd_at.
  - exists l. by apply held_upd_ok.
  - apply held_upd_cached.
  - apply held_upd_core.
  - by left.
  - intros j Hj. eapply (cached_unique s); eauto.
Qed.
End held.

(** The client stores new bytes into a held buffer. *)
Lemma bset_data_client s H D n b d :
  cache_abs s H D -> n ∈ H -> cached s n b ->
  exists s', bset_data b d s = Ret tt s' /\ cache_abs s' H D /\ cached s' n b /\
    (forall m, view s' m = if decide (m = n) then d else view s m) /\ same_disk s s' /\ keeps s s' H.
Proof.
  intros Habs Hn Hc. pose proof (held_used s H D n b Habs Hc) as (U1 & U2 & U3 & U4 & U5 & U6 & U7).
  pose proof Hc as (Hb & Hd & Hbn).
  assert (Hf : b_dev (set_data d (buf_at s b)) = 1 /\ b_blockno (set_data d (buf_at s b)) = n /\
    b_lock (set_data d (buf_at s b)) = b_lock (buf_at s b) /\
    b_refcnt (set_data d (buf_at s b)) = b_refcnt (buf_at s b) /\
    b_next (set_data d (buf_at s b)) = b_next (buf_at s b) /\
    b_prev (set_data d (buf_at s b)) = b_prev (buf_at s b) /\
    valid (set_data d (buf_at s b)) = true) by done.
  exists (upd_buf b (set_data d) s). split_and!; [done| | | |done|].
  - apply (held_upd_abs s H D n b (set_data d) Habs Hn Hc Hf D); [done|].
    change (dirty (set_data d (buf_at s b))) with (dirty (buf_at s b)). by rewrite U5, Hbn.
  - by eapply held_upd_cached.
  - intros m. by rewrite (held_upd_view s H D n b (set_data d) Habs Hc Hf).
  - by eapply held_upd_keeps.
Qed.

(** The client pins a held buffer: log_write sets B_DIRTY. *)
Definition mark_dirty (b : nat) : K bstate unit :=
  kmodify (upd_buf b (fun x => set_flags (Z.lor (b_flags x) B_DIRTY) x)).

Lemma mark_dirty_client s H D n b :
  cache_abs s H D -> n ∈ H -> cached s n b ->
  exists s', mark_dirty b s = Ret tt s' /\ cache_abs s' H ({[n]} ∪ D) /\ cached s' n b /\
    (forall m, view s' m = view s m) /\ same_disk s s' /\ keeps s s' H.
Proof.
  intros Habs Hn Hc. pose proof (held_used s H D n b Habs Hc) as (U1 & U2 & U3 & U4 & U5 & U6 & U7).
  pose proof Hc as (Hb & Hd & Hbn). destruct (ca_ok _ _ _ Habs) as [l Hok].
  set (f := fun x => set_flags (Z.lor (b_flags x) B_DIRTY) x).
  assert (Hbits : forall k, 0 <= k -> Z.testbit (Z.lor (b_flags (buf_at s b)) B_DIRTY) k
            = Z.testbit (b_flags (buf_at s b)) k || (2 =? k)).
  { intros k Hk. change B_DIRTY with (2 ^ 2). by apply testbit_lor_bit. }
  assert (Hf : b_dev (f (buf_at s b)) = 1 /\ b_blockno (f (buf_at s b)) = n /\
    b_lock (f (buf_at s b)) = b_lock (buf_at s b) /\
    b_refcnt (f (buf_at s b)) = b_refcnt (buf_at s b) /\
    b_next (f (buf_at s b)) = b_next (buf_at s b) /\
    b_prev (f (buf_at s b)) = b_prev (buf_at s b) /\
    valid (f (buf_at s b)) = true).
  { split_and!; [done..|]. unfold valid, f in *. simpl. rewrite Hbits by lia. by rewrite U2. }
  exists (upd_buf b f s). split_and!; [done| | | |done|].
  - apply (held_upd_abs s H D n b f Habs Hn Hc Hf); [set_solver|].
    unfold dirty, f. simpl. rewrite Hbits by lia. rewrite orb_true_r.
    by rewrite bool_decide_eq_true_2 by set_solver.
  - by eapply held_upd_cached.
  - intros m. rewrite (held_upd_view s H D n b f Habs Hc Hf).
    destruct (decide (m = n)) as [->|]; [|done]. by rewrite (view_cached s l n b).
  - by eapply held_upd_keeps.
Qed.

(** bwrite writes a held block through to the disk and unpins it. *)
Lemma bwrite_client s H D n b :
  cache_abs s H D -> n ∈ H -> cached s n b ->
  exists s', bwrite b s = Ret tt s' /\ cache_abs s' H (D ∖ {[n]}) /\ cached s' n b /\
    (forall m, view s' m = view s m) /\
    (forall m, disk s' m = if decide (m = n) then view s n else disk s m) /\
    disksize s' = disksize s /\ wtrace s' = wtrace s ++ [(n, view s n)] /\ curpid s' = curpid s /\ keeps s s' H.
Proof.
  intros Habs Hn Hc. pose proof (held_used s H D n b Habs Hc) as (U1 & U2 & U3 & U4 & U5 & U6 & U7).
  pose proof Hc as (Hb & Hd & Hbn). destruct (ca_ok _ _ _ Habs) as [l Hok].
  rewrite Hbn in *. rewrite bool_decide_eq_true_2 in U3, U4 by done.
  pose proof (view_cached s l n b Hok Hc) as Hv.
  set (f := fun x => set_flags (written_flags (b_flags x)) x).
  pose proof (written_flags_bits (b_flags (buf_at s b))) as [W1 W2].
  set (s1 := upd_buf b f s).
  assert (Hlen : (b < length (bufs s))%nat) by (by eapply held_len).
  assert (Hat : buf_at s1 b = f (buf_at s b)) by (unfold s1; rewrite buf_at_upd by done; by rewrite decide_True).
  assert (Hok1 : bcache_ok s1 l).
  { apply bcache_ok_upd; try done; [by apply Hok|].
    simpl. intros _ j Hj Hjb Hdj E. apply Hjb, (bo_uniq _ _ Hok); congruence. }
  assert (Hcore : forall j, j <> b -> core (buf_at s1 j) = core (buf_at s j))
    by (intros j Hj; unfold s1; rewrite buf_at_upd by done; by rewrite decide_False).
  assert (Hc1 : cached s1 n b) by (unfold cached; rewrite Hat; done).
  set (s' := disk_write n (b_data (buf_at s b)) s1).
  assert (Hok' : bcache_ok s' l) by (by apply (bcache_ok_frame s1)).
  exists s'. split_and!; [| | | | |done| |done|].
  - rewrite bwrite_eq; rewrite ?Hbn; try done; [by apply Hok|by apply Hok].
  - eapply (cache_abs_step s s' H D H _ n b); try done.
    + by exists l.
    + intros m Hm. simpl. by apply Z.eqb_neq in Hm as ->.
    + set_solver.
    + intros j Hj. eapply (cached_unique s); eauto.
    + by left.
    + change (buf_at s' b) with (buf_at s1 b). rewrite Hat.
      unfold used_buf, f, valid, dirty. simpl. rewrite Hbn, W1, W2, U3, U4.
      rewrite (bool_decide_eq_true_2 (n ∈ H)), (bool_decide_eq_false_2 (n ∈ D ∖ {[n]})) by set_solver.
      split_and!; done.
  - done.
  - intros m. rewrite (view_step s s' H D n b m); try done.
    + change (buf_at s' b) with (buf_at s1 b). rewrite Hat. simpl.
      destruct (decide (m = n)) as [->|]; [by rewrite Hv|done].
    + by exists l.
    + intros k Hk. simpl. by apply Z.eqb_neq in Hk as ->.
    + by left.
    + intros j Hj. eapply (cached_unique s); eauto.
  - intros m. simpl. destruct (Z.eqb_spec m n), (decide (m = n)); naive_solver.
  - simpl. by rewrite Hv.
  - intros m i Hm Hi. eapply (cached_step s s' H D n b); eauto.
Qed.

(** brelse gives a held block back; a block that is not pinned must agree with
    the disk by then. *)
Lemma brelse_client s H D n b :
  cache_abs s H D -> n ∈ H -> cached s n b ->
  n ∈ D \/ view s n = disk s n ->
  exists s', brelse b s = Ret tt s' /\ cache_abs s' (H ∖ {[n]}) D /\
    (forall m, view s' m = view s m) /\ same_disk s s' /\ keeps s s' H.
Proof.
  intros Habs Hn Hc Hagree.
  pose proof (held_used s H D n b Habs Hc) as (U1 & U2 & U3 & U4 & U5 & U6 & U7).
  pose proof Hc as (Hb & Hd & Hbn). destruct (ca_ok _ _ _ Habs) as [l Hok].
  rewrite Hbn in *. rewrite bool_decide_eq_true_2 in U3, U4 by done. simpl in U3, U4.
  pose proof (view_cached s l n b Hok Hc) as Hv.
  destruct (list_elem_of_split l b) as (l1 & l2 & ->); [by apply (bo_elem s)|].
  destruct (brelse_spec s l1 b l2) as (s' & E & Hok' & Hcb & Hcore & Hsd); [done|done|lia|].
  apply core_eq in Hcb as (C1 & C2 & C3 & C4 & C5 & C6). simpl in *.
  pose proof Hsd as (S1 & S2 & S3 & S4).
  assert (Hc' : cached s' n b) by (unfold cached; rewrite C2, C3; done).
  exists s'. split; [done|]. split; [|split; [|split; [done|]]].
  - eapply (cache_abs_step s s' H D _ D n b); try done.
    + by eexists.
    + intros m _. by rewrite S1.
    + set_solver.
    + intros j Hj. eapply (cached_unique s); eauto.
    + by left.
    + unfold used_buf, valid, dirty in *. rewrite C1, C2, C3, C4, C5, C6, S1, S2, U3, Hbn.
      rewrite (bool_decide_eq_false_2 (n ∈ H ∖ {[n]})) by set_solver. simpl.
      split_and!; try done. intros _ HnD. destruct Hagree as [?|Ha]; [done|]. congruence.
  - intros m. rewrite (view_step s s' H D n b m); try done.
    + rewrite C6. destruct (decide (m = n)) as [->|]; [by rewrite Hv|done].
    + by eexists.
    + intros k _. by rewrite S1.
    + by left.
    + intros j Hj. eapply (cached_unique s); eauto.
  - intros m i Hm Hi. eapply (cached_step s s' H D n b); eauto.
Qed.

(** The two-lemma round trip used all over log.c and fs.c: nothing is held
    after bread and brelse of a block whose contents did not change. *)
Lemma insert_remove_held (H : gset Z) (n : Z) : n ∉ H -> ({[n]} ∪ H) ∖ {[n]} = H.
Proof. intros Hn. set_solver. Qed.

(** ** Start-up *)

(** The cache in zeroed memory, before binit. *)
Definition boot_bio (d : Z -> list Z) (sz pid : Z) : bstate :=
  BState (replicate (S nbuf) dummy_buf) false d sz [] [] pid.

(** binit links all the buffers, the last one first, and nothing is cached. *)
Lemma binit_abs d sz pid :
  exists s, binit (boot_bio d sz pid) = Ret tt s /\ cache_abs s ∅ ∅ /\
    disk s = d /\ disksize s = sz /\ wtrace s = [].
Proof.
  destruct (binit (boot_bio d sz pid)) as [[] s| | |] eqn:E; vm_compute in E; try discriminate E.
  injection E as <-. eexists. split; [done|]. split; [|done].
  assert (Hall : forall (P : nat -> Prop), Forall P (seq 0 nbuf) -> forall i, (i < nbuf)%nat -> P i).
  { intros P HP i Hi. rewrite Forall_forall in HP. apply HP, elem_seq_nbuf, Hi. }
  constructor.
  - exists (rev (seq 0 nbuf)). constructor; try done.
    + rewrite <- Permutation_rev. done.
    + apply Hall. vm_compute. repeat constructor.
    + intros i j Hi _ Hd. exfalso. revert Hd. revert i Hi.
      apply (Hall (fun i => b_dev (buf_at _ i) = 1 -> False)). vm_compute. repeat constructor; discriminate.
  - intros i Hi. right. revert i Hi. apply (Hall (fun i => virgin_buf (buf_at _ i))).
    vm_compute. repeat (apply Forall_cons; split; [repeat split; discriminate|]). constructor.
  - set_solver.
Qed.
