(* ===== verification/Fsdefs.v ===== *)
(** * What fs.h provides

    The header fs.h is included by the file-system sources but is not part of
    the tree, so its contents are parameters: the block size, the inode and
    bitmap geometry, the layout of the superblock, and the laws the sources
    rely on.  Bytes of a block are lists; this file also has 32-bit words in a
    byte list, as the casts of [bp->data] to [uint*] use them. *)

From S2P Require Import Prelude.

(** struct superblock: the fields fs.c and mkfs.c name. *)
Record superblock := Superblock {
  sb_size : Z; sb_nblocks : Z; sb_ninodes : Z; sb_nlog : Z;
  sb_logstart : Z; sb_inodestart : Z; sb_bmapstart : Z
}.

(** struct dinode and struct dirent: the fields the sources name. *)
Record dinode := Dinode {
  di_type : Z; di_major : Z; di_minor : Z; di_nlink : Z; di_size : Z; di_addrs : list Z
}.
Record dirent := Dirent { de_inum : Z; de_name : list Z }.

(** What the sources use of fs.h. *)
Class FsH := {
  BSIZE : Z;
  NDIRECT : Z;
  NINDIRECT : Z;
  MAXFILE : Z;
  BPB : Z;                                  (* bitmap bits per block *)
  IPB : Z;                                  (* inodes per block *)
  DIRSIZ : Z;
  ROOTINO : Z;
  IBLOCK : Z -> superblock -> Z;            (* block containing inode i *)
  BBLOCK : Z -> superblock -> Z;            (* block of the bitmap for block b *)
  sb_of_bytes : list Z -> superblock;       (* memmove(sb, bp->data, sizeof( *sb)) *)
  dinode_at : list Z -> Z -> dinode;        (* (struct dinode* )bp->data + i *)
  put_dinode : Z -> dinode -> list Z -> list Z;
  sizeof_dirent : Z;
  dirent_of : list Z -> dirent;
  bytes_of_dirent : dirent -> list Z
}.

(** The fields fit their C types. *)
Definition is_short (x : Z) : Prop := -32768 <= x < 32768.
Definition is_uint (x : Z) : Prop := 0 <= x < 4294967296.
Definition dinode_wf `{FsH} (d : dinode) : Prop :=
  is_short (di_type d) /\ is_short (di_major d) /\ is_short (di_minor d) /\ is_short (di_nlink d) /\
  is_uint (di_size d) /\ length (di_addrs d) = Z.to_nat (NDIRECT + 1) /\ Forall is_uint (di_addrs d).

(** What is documented of fs.h. *)
Class FsLaws `{FsH} : Prop := {
  bsize_pos : 0 < BSIZE < 65536;
  bsize_words : BSIZE mod 4 = 0;
  ndirect_pos : 0 < NDIRECT;
  nindirect_def : NINDIRECT = BSIZE / 4;
  maxfile_def : MAXFILE = NDIRECT + NINDIRECT;
  maxfile_small : MAXFILE * BSIZE < 2147483648;
  bpb_def : BPB = BSIZE * 8;
  bblock_def b sb : BBLOCK b sb = b / BPB + sb_bmapstart sb;
  ipb_pos : 0 < IPB;
  iblock_def i sb : IBLOCK i sb = i / IPB + sb_inodestart sb;
  dirsiz_pos : 0 < DIRSIZ;
  dinode_get_put i j d data :
    0 <= i < IPB -> 0 <= j < IPB -> length data = Z.to_nat BSIZE -> dinode_wf d ->
    dinode_at (put_dinode i d data) j = if decide (j = i) then d else dinode_at data j;
  put_dinode_length i d data : length (put_dinode i d data) = length data;
  sizeof_dirent_pos : 0 < sizeof_dirent /\ BSIZE mod sizeof_dirent = 0;
  dirent_length d : length (bytes_of_dirent d) = Z.to_nat sizeof_dirent;
  dirent_get_put d : 0 <= de_inum d < 65536 -> length (de_name d) = Z.to_nat DIRSIZ ->
    dirent_of (bytes_of_dirent d) = d
}.

(** ** Words in a block *)

Definition ld32 (d : list Z) (off : nat) : Z :=
  nth off d 0 + 256 * nth (off + 1) d 0 + 65536 * nth (off + 2) d 0 + 16777216 * nth (off + 3) d 0.

Definition st32 (d : list Z) (off : nat) (v : Z) : list Z :=
  <[(off + 3)%nat := u8 (v / 16777216)]> (<[(off + 2)%nat := u8 (v / 65536)]>
    (<[(off + 1)%nat := u8 (v / 256)]> (<[off := u8 v]> d))).

(** The bytes of a word. *)
Definition le32 (x : Z) : list Z := [u8 x; u8 (x / 256); u8 (x / 65536); u8 (x / 16777216)].

Lemma length_st32 d off v : length (st32 d off v) = length d.
Proof. unfold st32. by rewrite !length_insert. Qed.

Lemma ld32_st32_eq d off v : (off + 4 <= length d)%nat -> ld32 (st32 d off v) off = u32 v.
Proof.
  intros H. unfold ld32, st32.
  repeat (first [rewrite nth_insert_eq by (rewrite ?length_insert; lia)
                |rewrite nth_insert_ne by lia]).
  dlia.
Qed.

Lemma ld32_st32_ne d off v off' :
  (off' + 4 <= off \/ off + 4 <= off')%nat -> ld32 (st32 d off v) off' = ld32 d off'.
Proof.
  intros H. unfold ld32, st32.
  by repeat rewrite nth_insert_ne by lia.
Qed.
