(* ===== verification/Log.v ===== *)
(** * The write-ahead log (log.c)

    The in-memory log structure over the buffer cache.  The on-disk log is the
    header block at [start] followed by the logged blocks.  Every disk write is
    recorded in the trace of the disk, so that a crash is a prefix of it. *)

From S2P Require Import Prelude Layout Sleeplock Bio Bcache Fsdefs.

Record logstate := LogState {
  lg_lk : bool;           (* log.lock held *)
  lg_start : Z;
  lg_size : Z;
  lg_outstanding : Z;
  lg_committing : Z;
  lg_dev : Z;
  lh_n : Z;               (* log.lh.n *)
  lh_block : list Z;      (* log.lh.block, LOGSIZE entries *)
  lg_bio : bstate         (* the buffer cache and the disk *)
}.

Definition set_lg_lk (v : bool) (s : logstate) : logstate :=
  LogState v (lg_start s) (lg_size s) (lg_outstanding s) (lg_committing s) (lg_dev s) (lh_n s) (lh_block s) (lg_bio s).
Definition set_outstanding (v : Z) (s : logstate) : logstate :=
  LogState (lg_lk s) (lg_start s) (lg_size s) v (lg_committing s) (lg_dev s) (lh_n s) (lh_block s) (lg_bio s).
Definition set_committing (v : Z) (s : logstate) : logstate :=
  LogState (lg_lk s) (lg_start s) (lg_size s) (lg_outstanding s) v (lg_dev s) (lh_n s) (lh_block s) (lg_bio s).
Definition set_lh (n : Z) (bl : list Z) (s : logstate) : logstate :=
  LogState (lg_lk s) (lg_start s) (lg_size s) (lg_outstanding s) (lg_committing s) (lg_dev s) n bl (lg_bio s).
Definition set_bio (b : bstate) (s : logstate) : logstate :=
  LogState (lg_lk s) (lg_start s) (lg_size s) (lg_outstanding s) (lg_committing s) (lg_dev s) (lh_n s) (lh_block s) b.

(** A routine of the buffer cache. *)
Definition bio {A} (c : K bstate A) : K logstate A := kzoom lg_bio set_bio c.

Definition log_acquire : K logstate unit :=
  let! held := kget lg_lk in
  if held : bool then kpanic "acquire" else kmodify (set_lg_lk true).
Definition log_release : K logstate unit :=
  let! held := kget lg_lk in
  if held : bool then kmodify (set_lg_lk false) else kpanic "release".

(** &log, the channel on which begin_op sleeps. *)
Definition log_chan : Z := -1.

(** struct logheader: [int n; int block[LOGSIZE]]. *)
Definition sizeof_logheader : Z := 4 + 4 * LOGSIZE.
Definition hd_n (d : list Z) : Z := s32 (ld32 d 0).
Definition hd_block (d : list Z) (i : nat) : Z := s32 (ld32 d (4 + 4 * i)).
Definition hd_set_n (v : Z) (d : list Z) : list Z := st32 d 0 v.
Definition hd_set_block (i : nat) (v : Z) (d : list Z) : list Z := st32 d (4 + 4 * i) v.

Definition for_logged (body : Z -> K logstate unit) : K logstate unit :=
  let! n := kget lh_n in
  let! _ := kfor (R := unit) (Z.to_nat n) 0 (fun i => body i ;; kret None) in
  kret tt.

Definition lh_block_at (s : logstate) (i : Z) : Z := nth (Z.to_nat i) (lh_block s) 0.

(** [bread(log.dev, blockno)]: the int arguments are converted to uint. *)
Definition log_bread (blockno : Z) : K logstate nat :=
  let! dev := kget lg_dev in bio (bread (u32 dev) (u32 blockno)).

(** Copy committed blocks from the log to their home location. *)
Definition install_block (tail : Z) : K logstate unit :=
  let! start := kget lg_start in
  let! bno := kget (fun s => lh_block_at s tail) in
  let! lbuf := log_bread (start + tail + 1) in
  let! dbuf := log_bread bno in
  let! d := kget (fun s => b_data (buf_at (lg_bio s) lbuf)) in
  bio (bset_data dbuf d) ;;
  bio (bwrite dbuf) ;;
  bio (brelse lbuf) ;;
  bio (brelse dbuf).

Definition install_trans : K logstate unit := for_logged install_block.

(** Read the log header from disk into the in-memory log header. *)
Definition read_head : K logstate unit :=
  let! start := kget lg_start in
  let! b := log_bread start in
  let! d := kget (fun s => b_data (buf_at (lg_bio s) b)) in
  kmodify (fun s => set_lh (hd_n d) (lh_block s) s) ;;
  for_logged (fun i =>
    kmodify (fun s => set_lh (lh_n s) (<[Z.to_nat i := hd_block d (Z.to_nat i)]> (lh_block s)) s)) ;;
  bio (brelse b).

(** Write the in-memory log header to disk: the commit point. *)
Definition write_head : K logstate unit :=
  let! start := kget lg_start in
  let! b := log_bread start in
  let! n := kget lh_n in
  let! d := kget (fun s => b_data (buf_at (lg_bio s) b)) in
  bio (bset_data b (hd_set_n n d)) ;;
  for_logged (fun i =>
    let! d := kget (fun s => b_data (buf_at (lg_bio s) b)) in
    let! v := kget (fun s => lh_block_at s i) in
    bio (bset_data b (hd_set_block (Z.to_nat i) v d))) ;;
  bio (bwrite b) ;;
  bio (brelse b).

Definition recover_from_log : K logstate unit :=
  read_head ;;
  install_trans ;;
  kmodify (fun s => set_lh 0 (lh_block s) s) ;;
  write_head.

(** Copy modified blocks from the cache to the log. *)
Definition log_block (tail : Z) : K logstate unit :=
  let! start := kget lg_start in
  let! bno := kget (fun s => lh_block_at s tail) in
  let! to := log_bread (start + tail + 1) in
  let! from := log_bread bno in
  let! d := kget (fun s => b_data (buf_at (lg_bio s) from)) in
  bio (bset_data to d) ;;
  bio (bwrite to) ;;
  bio (brelse from) ;;
  bio (brelse to).

Definition write_log : K logstate unit := for_logged log_block.

Definition commit : K logstate unit :=
  let! n := kget lh_n in
  if 0 <? n then
    write_log ;;
    write_head ;;
    install_trans ;;
    kmodify (fun s => set_lh 0 (lh_block s) s) ;;
    write_head
  else kret tt.

(** One passage through the loop of begin_op: either the call is admitted or
    the process sleeps on &log (releasing log.lock). *)
Definition begin_op : K logstate unit :=
  log_acquire ;;
  let! s := kget id in
  if truth (lg_committing s) then kmodify (set_lg_lk false) ;; ksleep log_chan
  else if LOGSIZE <? lh_n s + (lg_outstanding s + 1) * MAXOPBLOCKS then
    kmodify (set_lg_lk false) ;; ksleep log_chan
  else
    kmodify (fun s => set_outstanding (lg_outstanding s + 1) s) ;;
    log_release.

(** end_op up to its first release of log.lock: whether this call commits. *)
Definition end_op_enter : K logstate bool :=
  log_acquire ;;
  kmodify (fun s => set_outstanding (lg_outstanding s - 1) s) ;;
  let! c := kget lg_committing in
  if truth c then kpanic "log.committing" else
  let! o := kget lg_outstanding in
  let! do_commit :=
    (if o =? 0 then kmodify (set_committing 1) ;; kret true
     else bio (kmodify (wakeup log_chan)) ;; kret false) in
  log_release ;;
  kret do_commit.

(** end_op after its commit. *)
Definition end_op_finish : K logstate unit :=
  log_acquire ;;
  kmodify (set_committing 0) ;;
  bio (kmodify (wakeup log_chan)) ;;
  log_release.

Definition end_op : K logstate unit :=
  let! do_commit := end_op_enter in
  if do_commit : bool then
    commit ;;
    end_op_finish
  else kret tt.

(** [for (i = 0; i < log.lh.n; i++) if (log.lh.block[i] == b->blockno) break;] *)
Fixpoint find_logged (n : nat) (i : nat) (bl : list Z) (bno : Z) : nat :=
  match n with
  | O => i
  | S n' => if u32 (nth i bl 0) =? bno then i else find_logged n' (S i) bl bno
  end.

Definition log_write (b : nat) : K logstate unit :=
  let! s := kget id in
  if (LOGSIZE <=? lh_n s) || (lg_size s - 1 <=? lh_n s) then kpanic "too big a transaction"
  else if lg_outstanding s <? 1 then kpanic "log_write outside of trans"
  else
    log_acquire ;;
    let! bno := kget (fun s => b_blockno (buf_at (lg_bio s) b)) in
    let! i := kget (fun s => find_logged (Z.to_nat (lh_n s)) 0 (lh_block s) bno) in
    kmodify (fun s => set_lh (lh_n s) (<[i := s32 bno]> (lh_block s)) s) ;;
    kmodify (fun s => if Z.of_nat i =? lh_n s then set_lh (lh_n s + 1) (lh_block s) s else s) ;;
    bio (mark_dirty b) ;;
    log_release.

Section initlog.
Context `{FsH}.

(** readsb (fs.c). *)
Definition readsb (dev : Z) : K logstate superblock :=
  let! bp := bio (bread (u32 dev) 1) in
  let! d := kget (fun s => b_data (buf_at (lg_bio s) bp)) in
  bio (brelse bp) ;;
  kret (sb_of_bytes d).

Definition initlog (dev : Z) : K logstate unit :=
  if BSIZE <=? sizeof_logheader then kpanic "initlog: too big logheader" else
  kmodify (set_lg_lk false) ;;
  let! sb := readsb dev in
  kmodify (fun s => LogState (lg_lk s) (sb_logstart sb) (sb_nlog sb) (lg_outstanding s)
                      (lg_committing s) dev (lh_n s) (lh_block s) (lg_bio s)) ;;
  recover_from_log.
End initlog.
