(* ===== verification/LogSafe.v ===== *)
(** * Crash safety of the log (log.c)

    What commit and recover_from_log do to the disk, write by write, and the
    theorem that a crash at any point leaves a disk from which recovery
    produces either all of a transaction or none of it. *)

From S2P Require Import Prelude Layout Sleeplock Bio Bcache Fsdefs Log.

(** ** Sequences of disk writes *)

Definition replay (d : Z -> list Z) (tr : list (Z * list Z)) : Z -> list Z :=
  foldl (fun d w m => if decide (m = w.1) then w.2 else d m) d tr.

Lemma replay_app d t1 t2 m : replay d (t1 ++ t2) m = replay (replay d t1) t2 m.
Proof. unfold replay. by rewrite foldl_app. Qed.

Lemma replay_notin d tr m : m ∉ tr.*1 -> replay d tr m = d m.
Proof.
  induction tr as [|w tr IH] using rev_ind; [done|].
  rewrite fmap_app, replay_app. intros Hm. simpl in *. rewrite decide_False by set_solver.
  apply IH. set_solver.
Qed.

Lemma replay_congr d d' tr m :
  (m ∉ tr.*1 -> d m = d' m) -> replay d tr m = replay d' tr m.
Proof.
  induction tr as [|w tr IH] using rev_ind; [intros H; apply H; set_solver|].
  rewrite fmap_app, !replay_app. intros Hm. simpl in *. destruct (decide (m = w.1)); [done|].
  apply IH. intros ?. apply Hm. set_solver.
Qed.

Lemma replay_take d tr k m : replay (replay d (take k tr)) tr m = replay d tr m.
Proof.
  apply replay_congr. intros Hm. apply replay_notin. intros Hin. apply Hm.
  rewrite fmap_take in Hin. eapply elem_of_take in Hin as (i & Hi & _).
  by eapply list_elem_of_lookup_2.
Qed.

(** Writes of [f i] to block [a i], for [i] counted up. *)
Lemma replay_seq d (a : Z -> Z) (f : Z -> list Z) n :
  (forall i j, 0 <= i < Z.of_nat n -> 0 <= j < Z.of_nat n -> a i = a j -> i = j) ->
  forall i, 0 <= i < Z.of_nat n ->
  replay d ((fun i => (a i, f i)) <$> seqZ 0 (Z.of_nat n)) (a i) = f i.
Proof.
  induction n as [|n IH]; intros Hinj i Hi; [lia|].
  replace (Z.of_nat (S n)) with (Z.of_nat n + 1) in * by lia.
  rewrite seqZ_snoc, fmap_app, replay_app by lia. simpl.
  destruct (decide (a i = a (Z.of_nat n))) as [E|E].
  - f_equal. symmetry. apply Hinj; [lia|lia|done].
  - apply IH; [intros x y Hx Hy; apply Hinj; lia|].
    assert (i <> Z.of_nat n) by congruence. lia.
Qed.

(** [b'] is [b] after the disk writes [tr]. *)
Record io (b b' : bstate) (tr : list (Z * list Z)) : Prop := {
  io_trace : wtrace b' = wtrace b ++ tr;
  io_disk : forall m, disk b' m = replay (disk b) tr m;
  io_size : disksize b' = disksize b
}.

Lemma io_nil b b' : same_disk b b' -> io b b' [].
Proof. intros (H1 & H2 & H3 & _). constructor; [by rewrite app_nil_r|by rewrite H1|done]. Qed.

Lemma io_app b b' b'' t t' : io b b' t -> io b' b'' t' -> io b b'' (t ++ t').
Proof.
  intros [A1 A2 A3] [B1 B2 B3]. constructor.
  - by rewrite B1, A1, app_assoc.
  - intros m. rewrite B2, replay_app. apply replay_congr. auto.
  - congruence.
Qed.

(** ** Running the buffer cache from the log *)

Lemma bio_bind {A B} (c : K bstate A) (k : A -> K logstate B) b s a b' :
  c b = Ret a b' -> kbind (bio c) k (set_bio b s) = k a (set_bio b' s).
Proof. intros E. unfold kbind, bio, kzoom. simpl. by rewrite E. Qed.

Lemma bio_last {A} (c : K bstate A) b s a b' :
  c b = Ret a b' -> bio c (set_bio b s) = Ret a (set_bio b' s).
Proof. intros E. unfold bio, kzoom. simpl. by rewrite E. Qed.

Lemma log_bread_bind {B} (k : nat -> K logstate B) n b s a b' :
  lg_dev s = 1 -> 0 <= n < 4294967296 -> bread 1 n b = Ret a b' ->
  kbind (log_bread n) k (set_bio b s) = k a (set_bio b' s).
Proof.
  intros Hd Hn E. unfold log_bread. krun.
  change (lg_dev (set_bio b s)) with (lg_dev s). rewrite Hd, (u32_small n) by done.
  change (u32 1) with 1. by apply bio_bind.
Qed.

Lemma size_add_le (n : Z) (D : gset Z) : (size ({[n]} ∪ D) <= S (size D))%nat.
Proof.
  destruct (decide (n ∈ D)).
  - replace ({[n]} ∪ D) with D by set_solver. lia.
  - rewrite size_union by set_solver. rewrite size_singleton. lia.
Qed.

(** A block that is neither held nor pinned reads as on the disk. *)
Lemma view_clean b H D n : cache_abs b H D -> n ∉ H -> n ∉ D -> view b n = disk b n.
Proof.
  intros Habs HH HD. destruct (cached_dec b n) as [[i Hi]|Hi]; [|by apply view_not_cached].
  destruct (ca_ok _ _ _ Habs) as [l Hok]. rewrite (view_cached b l n i Hok Hi).
  destruct (held_used b H D n i Habs Hi) as (_ & _ & _ & _ & _ & _ & U).
  destruct Hi as (_ & _ & E). rewrite E in U. auto.
Qed.

Definition blk_ok (b : bstate) (n : Z) : Prop := 0 <= n < disksize b /\ n < 4294967296.

(** Two blocks read one after the other, the first from the log. *)
Lemma bread_two b D lb hb :
  cache_abs b ∅ D -> lb ∉ D -> hb <> lb -> blk_ok b lb -> blk_ok b hb ->
  (size D < nbuf)%nat -> hb ∈ D \/ (size D + 1 < nbuf)%nat ->
  exists i b1 j b2, bread 1 lb b = Ret i b1 /\ bread 1 hb b1 = Ret j b2 /\
    cache_abs b2 {[hb; lb]} D /\ cached b2 lb i /\ cached b2 hb j /\
    (forall m, view b2 m = view b m) /\ io b b2 [].
Proof.
  intros Habs Hlb Hne [Hl _] [Hh _] Hroom Hroom2.
  destruct (bread_client b ∅ D lb) as (i & b1 & E1 & A1 & C1 & V1 & W1 & S1 & K1); [done|set_solver|lia| |].
  { left. by rewrite (left_id_L ∅ (∪)). }
  destruct (bread_client b1 ({[lb]} ∪ ∅) D hb) as (j & b2 & E2 & A2 & C2 & V2 & W2 & S2 & K2);
    [done|set_solver|destruct S1 as (_ & -> & _); lia| |].
  { destruct Hroom2 as [?|?]; [by right|left]. rewrite (right_id_L ∅ (∪)).
    pose proof (size_add_le lb D). lia. }
  exists i, b1, j, b2. split_and!; try done.
  - by replace {[hb; lb]} with ({[hb]} ∪ ({[lb]} ∪ ∅) : gset Z) by set_solver.
  - apply K2; [set_solver|done].
  - intros m. by rewrite W2.
  - apply (io_app b b1 b2 [] []); by apply io_nil.
Qed.

(** ** One block: from the log to its home, and from the cache to the log *)

Lemma copy_block b D src dst i j H :
  cache_abs b H D -> src ∈ H -> dst ∈ H -> src <> dst -> cached b src i -> cached b dst j ->
  exists b1 b2 : bstate, bset_data j (b_data (buf_at b i)) b = Ret tt b1 /\ bwrite j b1 = Ret tt b2 /\
    cache_abs b2 H (D ∖ {[dst]}) /\ cached b2 src i /\ cached b2 dst j /\
    io b b2 [(dst, view b src)] /\
    (forall m, view b2 m = if decide (m = dst) then view b src else view b m).
Proof.
  intros Habs Hs Hd Hne Ci Cj. destruct (ca_ok _ _ _ Habs) as [l Hok].
  rewrite <- (view_cached b l src i Hok Ci).
  destruct (bset_data_client b H D dst j (view b src) Habs Hd Cj) as (b1 & E1 & A1 & C1 & V1 & S1 & K1).
  destruct (bwrite_client b1 H D dst j A1 Hd C1) as (b2 & E2 & A2 & C2 & V2 & D2 & Z2 & T2 & _ & K2).
  exists b1, b2. split_and!; try done; [by apply K2, K1| |].
  - rewrite V1, decide_True in T2, D2 by done. destruct S1 as (S1 & S2 & S3 & _). constructor.
    + by rewrite T2, S3.
    + intros m. rewrite D2, S1. done.
    + by rewrite Z2, S2.
  - intros m. by rewrite V2, V1.
Qed.

Lemma brelse_two b D n1 n2 i1 i2 :
  cache_abs b {[n1; n2]} D -> n1 <> n2 -> cached b n1 i1 -> cached b n2 i2 ->
  n1 ∈ D \/ view b n1 = disk b n1 -> n2 ∈ D \/ view b n2 = disk b n2 ->
  exists b1 b2, brelse i1 b = Ret tt b1 /\ brelse i2 b1 = Ret tt b2 /\
    cache_abs b2 ∅ D /\ io b b2 [] /\ (forall m, view b2 m = view b m).
Proof.
  intros Habs Hne C1 C2 H1 H2.
  destruct (brelse_client b {[n1; n2]} D n1 i1) as (b1 & E1 & A1 & V1 & S1 & K1); [done|set_solver|done|done|].
  replace ({[n1; n2]} ∖ {[n1]}) with ({[n2]} : gset Z) in A1 by set_solver.
  destruct (brelse_client b1 {[n2]} D n2 i2) as (b2 & E2 & A2 & V2 & S2 & K2);
    [done|set_solver|apply K1; [set_solver|done]|destruct S1 as (-> & _); by rewrite V1|].
  replace ({[n2]} ∖ {[n2]}) with (∅ : gset Z) in A2 by set_solver.
  exists b1, b2. split_and!; try done.
  - apply (io_app b b1 b2 [] []); by apply io_nil.
  - intros m. by rewrite V2.
Qed.

Section one_block.
Context (s : logstate) (b : bstate) (D : gset Z) (tail : Z).
Let lb := lg_start s + tail + 1.
Let hb := lh_block_at s tail.
Hypothesis Hdev : lg_dev s = 1.
Hypothesis Habs : cache_abs b ∅ D.
Hypothesis Hlb : lb ∉ D.
Hypothesis Hne : hb <> lb.
Hypothesis Hlok : blk_ok b lb.
Hypothesis Hhok : blk_ok b hb.
Hypothesis Hroom : (size D < nbuf)%nat.

Lemma install_block_spec :
  hb ∈ D \/ (size D + 1 < nbuf)%nat ->
  exists b', install_block tail (set_bio b s) = Ret tt (set_bio b' s) /\
    cache_abs b' ∅ (D ∖ {[hb]}) /\ io b b' [(hb, view b lb)] /\
    (forall m, view b' m = if decide (m = hb) then view b lb else view b m).
Proof.
  intros Hroom2.
  destruct (bread_two b D lb hb) as (i & b1 & j & b2 & E1 & E2 & A2 & Ci & Cj & V2 & I2); try done.
  destruct (copy_block b2 D lb hb i j {[hb; lb]})
    as (b3 & b4 & E3 & E4 & A4 & Ci4 & Cj4 & I4 & V4); [done|set_solver|set_solver|done..|].
  pose proof (io_app _ _ _ _ _ I2 I4) as I. simpl in I. rewrite V2 in I.
  destruct (brelse_two b4 (D ∖ {[hb]}) lb hb i j)
    as (b5 & b6 & E5 & E6 & A6 & I6 & V6); [by rewrite (comm_L (∪))|done|done|done| | |].
  { right. rewrite V4, decide_False, V2, (view_clean b ∅ D) by set_solver.
    rewrite (io_disk _ _ _ I). simpl. by rewrite decide_False. }
  { right. rewrite V4, decide_True, V2, (io_disk _ _ _ I) by done. simpl. by rewrite decide_True. }
  exists b6. split_and!; [|done| |].
  - unfold install_block. krun. change (lg_start (set_bio b s)) with (lg_start s).
    change (lh_block_at (set_bio b s) tail) with hb. fold lb.
    destruct Hlok, Hhok.
    rewrite (log_bread_bind _ lb b s i b1), (log_bread_bind _ hb b1 s j b2) by (done || lia). krun.
    rewrite (bio_bind _ _ b2 s tt b3), (bio_bind _ _ b3 s tt b4), (bio_bind _ _ b4 s tt b5) by done.
    by apply bio_last.
  - by pose proof (io_app _ _ _ _ _ I I6).
  - intros m. by rewrite V6, V4, !V2.
Qed.

Lemma log_block_spec :
  hb ∈ D ->
  exists b', log_block tail (set_bio b s) = Ret tt (set_bio b' s) /\
    cache_abs b' ∅ D /\ io b b' [(lb, view b hb)] /\
    (forall m, view b' m = if decide (m = lb) then view b hb else view b m).
Proof.
  intros HhD.
  destruct (bread_two b D lb hb) as (i & b1 & j & b2 & E1 & E2 & A2 & Ci & Cj & V2 & I2);
    try done; [by left|].
  destruct (copy_block b2 D hb lb j i {[hb; lb]})
    as (b3 & b4 & E3 & E4 & A4 & Cj4 & Ci4 & I4 & V4); [done|set_solver|set_solver|done..|].
  replace (D ∖ {[lb]}) with D in A4 by set_solver.
  pose proof (io_app _ _ _ _ _ I2 I4) as I. simpl in I. rewrite V2 in I.
  destruct (brelse_two b4 D hb lb j i)
    as (b5 & b6 & E5 & E6 & A6 & I6 & V6); [done|done|done|done|by left| |].
  { right. rewrite V4, decide_True, V2, (io_disk _ _ _ I) by done. simpl. by rewrite decide_True. }
  exists b6. split_and!; [|done| |].
  - unfold log_block. krun. change (lg_start (set_bio b s)) with (lg_start s).
    change (lh_block_at (set_bio b s) tail) with hb. fold lb.
    destruct Hlok, Hhok.
    rewrite (log_bread_bind _ lb b s i b1), (log_bread_bind _ hb b1 s j b2) by (done || lia). krun.
    rewrite (bio_bind _ _ b2 s tt b3), (bio_bind _ _ b3 s tt b4), (bio_bind _ _ b4 s tt b5) by done.
    by apply bio_last.
  - by pose proof (io_app _ _ _ _ _ I I6).
  - intros m. by rewrite V6, V4, !V2.
Qed.
End one_block.

(** ** The loops over the header *)

Lemma for_logged_spec s b (body : Z -> K logstate unit) (I : Z -> bstate -> Prop) :
  0 <= lh_n s -> I 0 b ->
  (forall i c, 0 <= i < lh_n s -> I i c ->
     exists c', body i (set_bio c s) = Ret tt (set_bio c' s) /\ I (i + 1) c') ->
  exists b', for_logged body (set_bio b s) = Ret tt (set_bio b' s) /\ I (lh_n s) b'.
Proof.
  intros Hn H0 Hstep.
  enough (wp (for_logged body) (set_bio b s) (fun _ t => exists b', t = set_bio b' s /\ I (lh_n s) b')) as Hwp.
  { apply wp_iff in Hwp as ([] & t & E & b' & -> & HI). eauto. }
  unfold for_logged. apply wp_bind, wp_get, wp_bind.
  apply (wp_for _ _ _ _ (fun i t => exists c, t = set_bio c s /\ I i c)).
  - by exists b.
  - change (lh_n (set_bio b s)) with (lh_n s). intros i t Hi (c & -> & HI).
    destruct (Hstep i c) as (c' & E & HI'); [lia|done|].
    apply wp_bind, wp_iff. exists tt, (set_bio c' s). split; [done|]. apply wp_ret. by exists c'.
  - change (lh_n (set_bio b s)) with (lh_n s). intros t (c & -> & HI). apply wp_ret. exists c.
    split; [done|]. by replace (lh_n s) with (0 + Z.of_nat (Z.to_nat (lh_n s))) by lia.
Qed.

(** What write_head puts in the header block. *)
Definition put_head (n : nat) (v : Z) (bl : list Z) (d : list Z) : list Z :=
  foldl (fun d i => hd_set_block i (nth i bl 0) d) (hd_set_n v d) (seq 0 n).

Lemma put_head_S n v bl d :
  put_head (S n) v bl d = hd_set_block n (nth n bl 0) (put_head n v bl d).
Proof. unfold put_head. by rewrite seq_S, foldl_app. Qed.

Lemma length_put_head n v bl d : length (put_head n v bl d) = length d.
Proof.
  induction n as [|n IH]; [apply length_st32|]. rewrite put_head_S. unfold hd_set_block.
  by rewrite length_st32.
Qed.

Lemma hd_n_put_head n v bl d :
  0 <= v < 2147483648 -> (4 <= length d)%nat -> hd_n (put_head n v bl d) = v.
Proof.
  intros Hv Hd. unfold hd_n. assert (E : ld32 (put_head n v bl d) 0 = v).
  { induction n as [|n IH].
    - unfold put_head, hd_set_n. simpl. rewrite ld32_st32_eq by lia. apply u32_small. lia.
    - rewrite put_head_S. unfold hd_set_block. by rewrite ld32_st32_ne by lia. }
  rewrite E. apply s32_small. lia.
Qed.

Lemma hd_block_put_head n v bl d i :
  (i < n)%nat -> (4 + 4 * n <= length d)%nat -> 0 <= nth i bl 0 < 2147483648 ->
  hd_block (put_head n v bl d) i = nth i bl 0.
Proof.
  intros Hi Hd Hb. induction n as [|n IH]; [lia|]. rewrite put_head_S.
  unfold hd_block, hd_set_block in *. destruct (decide (i = n)) as [->|Hne].
  - rewrite ld32_st32_eq by (rewrite length_put_head; lia).
    rewrite u32_small by lia. apply s32_small. lia.
  - rewrite ld32_st32_ne by lia. apply IH; lia.
Qed.

Section header.
Context (s : logstate).
Notation start := (lg_start s).
Notation n := (lh_n s).
Notation lb i := (lg_start s + i + 1).
Notation hb i := (lh_block_at s i).

(** The log in memory names blocks on the disk outside the log region. *)
Record head_ok (sz : Z) : Prop := {
  ho_dev : lg_dev s = 1;
  ho_n : 0 <= n <= LOGSIZE;
  ho_start : 0 <= start;
  ho_end : start + n < sz;
  ho_sz : sz <= 2147483648;
  ho_in : forall i, 0 <= i < n -> 0 <= hb i < sz;
  ho_out : forall i, 0 <= i < n -> hb i < start \/ start + n < hb i
}.

Definition log_writes (k : Z) (b : bstate) : list (Z * list Z) :=
  (fun i => (lb i, view b (hb i))) <$> seqZ 0 k.
Definition home_writes (k : Z) (b : bstate) : list (Z * list Z) :=
  (fun i => (hb i, view b (lb i))) <$> seqZ 0 k.

Lemma log_writes_addr k b m :
  m ∈ (log_writes k b).*1 <-> exists i, m = lb i /\ 0 <= i < k.
Proof.
  unfold log_writes. rewrite <- list_fmap_compose, list_elem_of_fmap. setoid_rewrite elem_of_seqZ.
  simpl. naive_solver.
Qed.
Lemma home_writes_addr k b m :
  m ∈ (home_writes k b).*1 <-> exists i, m = hb i /\ 0 <= i < k.
Proof.
  unfold home_writes. rewrite <- list_fmap_compose, list_elem_of_fmap. setoid_rewrite elem_of_seqZ.
  simpl. naive_solver.
Qed.

Context (b : bstate) (D : gset Z).
Hypothesis Hho : head_ok (disksize b).
Hypothesis Habs : cache_abs b ∅ D.
Hypothesis HD : forall m, m ∈ D -> m < start \/ start + n < m.
Hypothesis Hroom : (size D < nbuf)%nat.

Lemma blk_ok_log c i : disksize c = disksize b -> -1 <= i < n -> blk_ok c (lb i).
Proof. intros E Hi. destruct Hho. unfold blk_ok. rewrite E. lia. Qed.
Lemma blk_ok_home c i : disksize c = disksize b -> 0 <= i < n -> blk_ok c (hb i).
Proof. intros E Hi. destruct Hho as [_ _ _ _ ? Hin _]. specialize (Hin i Hi). unfold blk_ok. rewrite E. lia. Qed.
Lemma lb_notin i : -1 <= i < n -> lb i ∉ D.
Proof. intros Hi Hin. apply HD in Hin. lia. Qed.
Lemma hb_lb i j : 0 <= i < n -> -1 <= j < n -> hb i <> lb j.
Proof. intros Hi Hj E. destruct Hho as [_ _ _ _ _ _ Ho]. specialize (Ho i Hi). lia. Qed.

(** write_log copies every pinned block to its log block. *)
Lemma write_log_spec :
  (forall i, 0 <= i < n -> hb i ∈ D) ->
  exists b', write_log (set_bio b s) = Ret tt (set_bio b' s) /\ cache_abs b' ∅ D /\
    io b b' (log_writes n b) /\ forall m, view b' m = replay (view b) (log_writes n b) m.
Proof.
  intros HhD. pose proof (ho_n _ Hho) as Hn.
  destruct (for_logged_spec s b log_block (fun i c => cache_abs c ∅ D /\ io b c (log_writes i b) /\
    forall m, view c m = replay (view b) (log_writes i b) m)) as (b' & E & HI); [lia| | |by exists b'].
  - split; [done|]. split; [by apply io_nil|done].
  - intros i c Hi (A & I & V).
    destruct (log_block_spec s c D i) as (c' & E & A' & I' & V');
      [apply Hho|done|apply lb_notin; lia|by apply hb_lb; lia
      |apply blk_ok_log; [apply I|lia]|apply blk_ok_home; [apply I|lia]|done|by apply HhD|].
    assert (Ehb : view c (hb i) = view b (hb i)).
    { rewrite V. apply replay_notin. rewrite log_writes_addr. intros (j & Ej & Hj). revert Ej. apply hb_lb; lia. }
    rewrite Ehb in *.
    assert (Ew : log_writes (i + 1) b = log_writes i b ++ [(lb i, view b (hb i))])
      by (unfold log_writes; by rewrite seqZ_snoc, fmap_app by lia).
    exists c'. rewrite Ew. split_and!; [done|done|by eapply io_app|].
    intros m. rewrite V', replay_app. simpl. by rewrite V.
Qed.

Definition homes (k : Z) : gset Z := list_to_set ((fun i => hb i) <$> seqZ 0 k).
Lemma elem_homes k m : m ∈ homes k <-> exists i, m = hb i /\ 0 <= i < k.
Proof.
  unfold homes. rewrite elem_of_list_to_set, list_elem_of_fmap. setoid_rewrite elem_of_seqZ.
  simpl. naive_solver.
Qed.

(** install_trans copies every log block to its home. *)
Lemma install_trans_spec :
  (forall i, 0 <= i < n -> hb i ∈ D) /\
    (forall i j, 0 <= i < n -> 0 <= j < n -> hb i = hb j -> i = j) \/ D = ∅ ->
  exists b', install_trans (set_bio b s) = Ret tt (set_bio b' s) /\ cache_abs b' ∅ (D ∖ homes n) /\
    io b b' (home_writes n b) /\ forall m, view b' m = replay (view b) (home_writes n b) m.
Proof.
  intros Hcase. pose proof (ho_n _ Hho) as Hn.
  destruct (for_logged_spec s b install_block (fun i c => cache_abs c ∅ (D ∖ homes i) /\
    io b c (home_writes i b) /\ forall m, view c m = replay (view b) (home_writes i b) m))
    as (b' & E & HI); [lia| | |by exists b'].
  - split; [|split; [by apply io_nil|done]].
    replace (D ∖ homes 0) with D; [done|]. unfold homes. simpl. set_solver.
  - intros i c Hi (A & I & V).
    assert (Hsz : (size (D ∖ homes i) <= size D)%nat) by (apply subseteq_size; set_solver).
    destruct (install_block_spec s c (D ∖ homes i) i) as (c' & E & A' & I' & V');
      [apply Hho|done| |by apply hb_lb; lia
      |apply blk_ok_log; [apply I|lia]|apply blk_ok_home; [apply I|lia]|lia| |].
    { pose proof (lb_notin i). intros Hx. apply elem_of_difference in Hx as [Hx _]. by apply H; [lia|]. }
    { destruct Hcase as [[HhD Hinj]| ->]; [left|right].
      - apply elem_of_difference. split; [by apply HhD|]. rewrite elem_homes.
        intros (j & Ej & Hj). apply Hinj in Ej; lia.
      - replace (∅ ∖ homes i) with (∅ : gset Z) by set_solver. rewrite size_empty. by apply Nat.ltb_lt. }
    assert (Elb : view c (lb i) = view b (lb i)).
    { rewrite V. apply replay_notin. rewrite home_writes_addr. intros (j & Ej & Hj). symmetry in Ej.
      revert Ej. apply hb_lb; lia. }
    rewrite Elb in *.
    assert (Ew : home_writes (i + 1) b = home_writes i b ++ [(hb i, view b (lb i))])
      by (unfold home_writes; by rewrite seqZ_snoc, fmap_app by lia).
    assert (Es : D ∖ homes (i + 1) = (D ∖ homes i) ∖ {[hb i]}).
    { unfold homes. rewrite seqZ_snoc, fmap_app by lia. simpl. set_solver. }
    exists c'. rewrite Ew, Es. split_and!; [done|done|by eapply io_app|].
    intros m. rewrite V', replay_app. simpl. by rewrite V.
Qed.
End header.

(** ** The header block *)

Lemma bread_one b D x :
  cache_abs b ∅ D -> blk_ok b x -> (size D < nbuf)%nat ->
  exists i b1, bread 1 x b = Ret i b1 /\ cache_abs b1 {[x]} D /\ cached b1 x i /\
    b_data (buf_at b1 i) = view b x /\ (forall m, view b1 m = view b m) /\ io b b1 [].
Proof.
  intros Habs [Hx _] Hroom.
  destruct (bread_client b ∅ D x) as (i & b1 & E1 & A1 & C1 & V1 & W1 & S1 & K1); [done|set_solver|lia| |].
  { left. by rewrite (left_id_L ∅ (∪)). }
  rewrite (right_id_L ∅ (∪)) in A1. exists i, b1. split_and!; try done. by apply io_nil.
Qed.

Lemma brelse_one b D x i :
  cache_abs b {[x]} D -> cached b x i -> x ∈ D \/ view b x = disk b x ->
  exists b', brelse i b = Ret tt b' /\ cache_abs b' ∅ D /\ io b b' [] /\ forall m, view b' m = view b m.
Proof.
  intros A C H. destruct (brelse_client b {[x]} D x i) as (b' & E & A' & V & S & _); [done|set_solver|done|done|].
  replace ({[x]} ∖ {[x]}) with (∅ : gset Z) in A' by set_solver.
  exists b'. split_and!; try done. by apply io_nil.
Qed.

(** The stores of write_head into the header buffer. *)
Lemma fill_head s b D i :
  let x := lg_start s in
  cache_abs b {[x]} D -> cached b x i -> 0 <= lh_n s ->
  exists b', for_logged (fun j =>
      let! d := kget (fun s => b_data (buf_at (lg_bio s) i)) in
      let! v := kget (fun s => lh_block_at s j) in
      bio (bset_data i (hd_set_block (Z.to_nat j) v d))) (set_bio b s) = Ret tt (set_bio b' s) /\
    cache_abs b' {[x]} D /\ cached b' x i /\ io b b' [] /\
    forall m, view b' m =
      if decide (m = x)
      then foldl (fun d i => hd_set_block i (nth i (lh_block s) 0) d) (view b x) (seq 0 (Z.to_nat (lh_n s)))
      else view b m.
Proof.
  intros x A C Hn. eapply (for_logged_spec s b _ (fun k c => cache_abs c {[x]} D /\ cached c x i /\
    io b c [] /\ forall m, view c m = if decide (m = x)
      then foldl (fun d i => hd_set_block i (nth i (lh_block s) 0) d) (view b x) (seq 0 (Z.to_nat k))
      else view b m)); [done| |].
  - split_and!; [done|done|by apply io_nil|]. intros m. by destruct (decide (m = x)) as [->|].
  - intros k c Hk (A1 & C1 & I1 & V1). destruct (ca_ok _ _ _ A1) as [l Hok].
    destruct (bset_data_client c {[x]} D x i
      (hd_set_block (Z.to_nat k) (lh_block_at s k) (view c x))) as (c' & E & A' & C' & V' & S' & _);
      [done|set_solver|done|].
    exists c'. split_and!; [|done|done| |].
    + krun. change (lg_bio (set_bio c s)) with c. rewrite <- (view_cached c l x i) by done.
      by apply bio_last.
    + apply (io_app b c c' [] []); [done|by apply io_nil].
    + intros m. rewrite V'. destruct (decide (m = x)); [|by rewrite V1, decide_False].
      rewrite V1, decide_True by done.
      replace (Z.to_nat (k + 1)) with (S (Z.to_nat k)) by lia. by rewrite seq_S, foldl_app.
Qed.

Lemma write_head_spec s b D :
  lg_dev s = 1 -> 0 <= lh_n s -> cache_abs b ∅ D -> blk_ok b (lg_start s) ->
  lg_start s ∉ D -> (size D < nbuf)%nat ->
  let hd := put_head (Z.to_nat (lh_n s)) (lh_n s) (lh_block s) (view b (lg_start s)) in
  exists b', write_head (set_bio b s) = Ret tt (set_bio b' s) /\ cache_abs b' ∅ D /\
    io b b' [(lg_start s, hd)] /\
    forall m, view b' m = if decide (m = lg_start s) then hd else view b m.
Proof.
  intros Hdev Hn A Hok HD Hroom hd. set (x := lg_start s) in *.
  destruct (bread_one b D x) as (i & b1 & E1 & A1 & C1 & V1 & W1 & I1); [done..|].
  destruct (bset_data_client b1 {[x]} D x i (hd_set_n (lh_n s) (view b x)))
    as (b2 & E2 & A2 & C2 & V2 & S2 & _); [done|set_solver|done|].
  destruct (fill_head s b2 D i) as (b3 & E3 & A3 & C3 & I3 & V3); [done|done|done|]. fold x in A3, C3, V3.
  rewrite V2, decide_True in V3 by done. fold hd in V3.
  destruct (bwrite_client b3 {[x]} D x i) as (b4 & E4 & A4 & C4 & V4 & D4 & Z4 & T4 & _);
    [done|set_solver|done|].
  replace (D ∖ {[x]}) with D in A4 by set_solver.
  rewrite V3, decide_True in D4, T4 by done.
  assert (I : io b b3 []) by (apply (io_app b b2 b3 [] []); [apply (io_app b b1 b2 [] []); [done|by apply io_nil]|done]).
  assert (I4 : io b b4 [(x, hd)]).
  { constructor; [by rewrite T4, (io_trace _ _ _ I), app_nil_r|
      intros m; by rewrite D4, (io_disk _ _ _ I)|by rewrite Z4, (io_size _ _ _ I)]. }
  destruct (brelse_one b4 D x i) as (b5 & E5 & A5 & I5 & V5); [done|done| |].
  { right. rewrite V4, V3, D4. by rewrite !decide_True. }
  exists b5. split_and!; [|done|by apply (io_app b b4 b5 [(x, hd)] [])|].
  - unfold write_head. krun. change (lg_start (set_bio b s)) with x.
    rewrite (log_bread_bind _ x b s i b1); [|done|destruct Hok; lia|done]. krun.
    change (lg_bio (set_bio b1 s)) with b1. change (lh_n (set_bio b1 s)) with (lh_n s). rewrite V1.
    rewrite (bio_bind _ _ b1 s tt b2) by done.
    erewrite kbind_ret by exact E3.
    rewrite (bio_bind _ _ b3 s tt b4) by done. by apply bio_last.
  - intros m. rewrite V5, V4, V3. destruct (decide (m = x)); [done|].
    by rewrite V2, decide_False, W1.
Qed.

Lemma read_head_spec s b D :
  let hd := view b (lg_start s) in
  lg_dev s = 1 -> cache_abs b ∅ D -> blk_ok b (lg_start s) -> lg_start s ∉ D -> (size D < nbuf)%nat ->
  0 <= hd_n hd <= Z.of_nat (length (lh_block s)) ->
  exists b' bl, read_head (set_bio b s) = Ret tt (set_bio b' (set_lh (hd_n hd) bl s)) /\
    cache_abs b' ∅ D /\ io b b' [] /\ (forall m, view b' m = view b m) /\
    length bl = length (lh_block s) /\
    forall i, (Z.of_nat i < hd_n hd) -> nth i bl 0 = hd_block hd i.
Proof.
  intros hd Hdev A Hok HD Hroom Hn. set (x := lg_start s) in *.
  destruct (bread_one b D x) as (i & b1 & E1 & A1 & C1 & V1 & W1 & I1); [done..|]. fold hd in V1.
  destruct (brelse_one b1 D x i) as (b2 & E2 & A2 & I2 & V2); [done|done| |].
  { right. rewrite W1, (view_clean b ∅ D) by set_solver. by rewrite (io_disk _ _ _ I1). }
  assert (Hloop : exists bl, for_logged (fun i =>
      kmodify (fun s => set_lh (lh_n s) (<[Z.to_nat i := hd_block hd (Z.to_nat i)]> (lh_block s)) s))
      (set_lh (hd_n hd) (lh_block s) (set_bio b1 s)) = Ret tt (set_lh (hd_n hd) bl (set_bio b1 s)) /\
    length bl = length (lh_block s) /\
    forall i, (Z.of_nat i < hd_n hd) -> nth i bl 0 = hd_block hd i).
  { set (t := set_bio b1 s).
    enough (wp (for_logged (fun i =>
      kmodify (fun s => set_lh (lh_n s) (<[Z.to_nat i := hd_block hd (Z.to_nat i)]> (lh_block s)) s)))
      (set_lh (hd_n hd) (lh_block s) t) (fun _ t' => exists bl, t' = set_lh (hd_n hd) bl t /\
        length bl = length (lh_block s) /\ forall i, (Z.of_nat i < hd_n hd) -> nth i bl 0 = hd_block hd i)) as Hwp.
    { apply wp_iff in Hwp as ([] & t' & E & bl & -> & Hbl). eauto. }
    unfold for_logged. apply wp_bind, wp_get, wp_bind. simpl lh_n.
    apply (wp_for _ _ _ _ (fun k t' => exists bl, t' = set_lh (hd_n hd) bl t /\
      length bl = length (lh_block s) /\ forall i, (Z.of_nat i < k) -> nth i bl 0 = hd_block hd i)).
    - exists (lh_block s). split_and!; [done|done|lia].
    - intros k t' Hk (bl & -> & Hl & Hbl). apply wp_bind, wp_modify, wp_ret.
      exists (<[Z.to_nat k := hd_block hd (Z.to_nat k)]> bl). split_and!; [done|by rewrite length_insert|].
      intros j Hj. destruct (decide (j = Z.to_nat k)) as [->|].
      + apply nth_insert_eq. lia.
      + rewrite nth_insert_ne by done. apply Hbl. lia.
    - intros t' (bl & -> & Hl & Hbl). apply wp_ret. exists bl. split_and!; [done|done|].
      intros j Hj. apply Hbl. lia. }
  destruct Hloop as (bl & E & Hl & Hbl).
  exists b2, bl. split_and!; [|done|by apply (io_app b b1 b2 [] [])|intros m; by rewrite V2|done|done].
  unfold read_head. krun. change (lg_start (set_bio b s)) with x.
  rewrite (log_bread_bind _ x b s i b1); [|done|destruct Hok; lia|done]. krun.
  change (lg_bio (set_bio b1 s)) with b1. rewrite V1.
  erewrite kbind_ret by exact E.
  change (set_lh (hd_n hd) bl (set_bio b1 s)) with (set_bio b1 (set_lh (hd_n hd) bl s)).
  by apply bio_last.
Qed.

(** ** commit and recovery, write by write *)

Lemma set_lh_empty s : lh_n s = 0 -> set_lh 0 (lh_block s) s = s.
Proof. destruct s; simpl. by intros ->. Qed.

Section commit.
Context (s : logstate) (b : bstate).
Notation start := (lg_start s).
Notation n := (lh_n s).
Notation lb i := (lg_start s + i + 1).
Notation hb i := (lh_block_at s i).

(** When end_op commits: the pinned blocks are those of the header, each
    once, and they fit in the cache beside one log block. *)
Record commit_pre : Prop := {
  cp_head : head_ok s (disksize b);
  cp_abs : cache_abs b ∅ (homes s n);
  cp_room : n < NBUF;
  cp_inj : forall i j, 0 <= i < n -> 0 <= j < n -> hb i = hb j -> i = j
}.
Hypothesis Hpre : commit_pre.

Definition new_head : list Z := put_head (Z.to_nat n) n (lh_block s) (view b start).
Definition install_writes : list (Z * list Z) := (fun i => (hb i, view b (hb i))) <$> seqZ 0 n.
Definition commit_trace : list (Z * list Z) :=
  if n =? 0 then []
  else log_writes s n b ++ [(start, new_head)] ++ install_writes ++ [(start, hd_set_n 0 new_head)].

Lemma homes_out m : m ∈ homes s n -> m < start \/ start + n < m.
Proof. rewrite elem_homes. intros (i & -> & Hi). by apply Hpre. Qed.

Lemma homes_size : (size (homes s n) < nbuf)%nat.
Proof.
  unfold homes. rewrite size_list_to_set.
  - rewrite length_fmap, length_seqZ. pose proof (cp_room Hpre). unfold nbuf. change NBUF with 30 in *. lia.
  - apply NoDup_fmap_2_strong; [|apply NoDup_seqZ].
    intros i j Hi%elem_of_seqZ Hj%elem_of_seqZ. apply Hpre; lia.
Qed.

Lemma lb_not_home i : -1 <= i < n -> lb i ∉ homes s n.
Proof. intros Hi Hin%homes_out. lia. Qed.

Lemma log_writes_home d m : m < start \/ start + n < m -> replay d (log_writes s n b) m = d m.
Proof. intros Hm. apply replay_notin. rewrite log_writes_addr. intros (i & -> & Hi). lia. Qed.

Lemma log_writes_lb d i : 0 <= i < n -> replay d (log_writes s n b) (lb i) = view b (hb i).
Proof.
  intros Hi. unfold log_writes. replace n with (Z.of_nat (Z.to_nat n)) by lia.
  apply (replay_seq d (fun i => lb i) (fun i => view b (hb i))); [intros ? ? _ _ E; lia|lia].
Qed.

Lemma commit_spec :
  exists b', commit (set_bio b s) = Ret tt (set_bio b' (set_lh 0 (lh_block s) s)) /\
    cache_abs b' ∅ ∅ /\ io b b' commit_trace.
Proof.
  destruct Hpre as [Hho Habs Hroom Hinj]. pose proof (ho_n _ _ Hho) as Hn.
  unfold commit, commit_trace. krun. change (lh_n (set_bio b s)) with n.
  destruct (Z.eqb_spec n 0) as [E0|Hpos].
  { exists b. rewrite set_lh_empty by done. rewrite E0 in *. split_and!; [done|done|by apply io_nil]. }
  replace (0 <? n) with true by lia.
  destruct (write_log_spec s b (homes s n)) as (b1 & E1 & A1 & I1 & V1);
    [done|done|apply homes_out|apply homes_size|intros i Hi; apply elem_homes; eauto|].
  assert (Vs : view b1 start = view b start)
    by (rewrite V1; apply replay_notin; rewrite log_writes_addr; intros (i & Ei & Hi); lia).
  destruct (write_head_spec s b1 (homes s n)) as (b2 & E2 & A2 & I2 & V2);
    [apply Hho|lia|done| | |apply homes_size|].
  { destruct Hho. unfold blk_ok. rewrite (io_size _ _ _ I1). lia. }
  { replace start with (lb (-1)) by lia. apply lb_not_home. lia. }
  rewrite Vs in I2, V2. fold new_head in I2, V2.
  pose proof (io_app _ _ _ _ _ I1 I2) as I12.
  assert (Vlb : forall i, 0 <= i < n -> view b2 (lb i) = view b (hb i)).
  { intros i Hi. rewrite V2, decide_False, V1 by lia. by apply log_writes_lb. }
  destruct (install_trans_spec s b2 (homes s n)) as (b3 & E3 & A3 & I3 & V3);
    [by rewrite (io_size _ _ _ I12)|done|apply homes_out|apply homes_size
    |left; split; [intros i Hi; apply elem_homes; eauto|done]|].
  assert (Ew : home_writes s n b2 = install_writes).
  { unfold home_writes, install_writes. apply list_fmap_ext. intros ? i Hi%list_elem_of_lookup_2%elem_of_seqZ.
    f_equal. apply Vlb. lia. }
  rewrite Ew in *. replace (homes s n ∖ homes s n) with (∅ : gset Z) in A3 by set_solver.
  assert (Vs3 : view b3 start = new_head).
  { rewrite V3, replay_notin, V2, decide_True; [done|done|]. rewrite <- Ew, home_writes_addr.
    intros (i & Ei & Hi). destruct Hho as [_ _ _ _ _ _ Ho]. specialize (Ho i Hi). lia. }
  pose proof (io_app _ _ _ _ _ I12 I3) as I13.
  destruct (write_head_spec (set_lh 0 (lh_block s) s) b3 ∅) as (b4 & E4 & A4 & I4 & V4);
    [apply Hho|done|done| |set_solver|by apply Nat.ltb_lt|].
  { destruct Hho. unfold blk_ok. rewrite (io_size _ _ _ I13). simpl. lia. }
  simpl in I4. rewrite Vs3 in I4. change (put_head 0 0 (lh_block s) new_head) with (hd_set_n 0 new_head) in I4.
  pose proof (io_app _ _ _ _ _ I13 I4) as I14.
  exists b4. split_and!; [|done|].
  - erewrite kbind_ret by exact E1. erewrite kbind_ret by exact E2. erewrite kbind_ret by exact E3. krun.
    exact E4.
  - by rewrite <- !app_assoc in I14.
Qed.
End commit.

(** The header on disk is one that recovery can follow: [lsz] is the size of
    the log region. *)
Record disk_head_ok (start lsz sz : Z) (d : Z -> list Z) : Prop := {
  dh_n : 0 <= hd_n (d start) <= LOGSIZE;
  dh_fit : hd_n (d start) < lsz;
  dh_start : 0 <= start;
  dh_end : start + lsz <= sz;
  dh_sz : sz <= 2147483648;
  dh_len : (4 <= length (d start))%nat;
  dh_blk : forall i, 0 <= i < hd_n (d start) ->
    0 <= hd_block (d start) (Z.to_nat i) < sz /\
    ~ (start <= hd_block (d start) (Z.to_nat i) < start + lsz)
}.

(** The writes of install_trans during recovery from the disk [d], all the
    writes of recovery, and the contents recovery gives to every block. *)
Definition redo_writes (start : Z) (d : Z -> list Z) : list (Z * list Z) :=
  (fun i => (hd_block (d start) (Z.to_nat i), d (start + i + 1))) <$> seqZ 0 (hd_n (d start)).
Definition recover_trace (start : Z) (d : Z -> list Z) : list (Z * list Z) :=
  redo_writes start d ++ [(start, hd_set_n 0 (d start))].
Definition recovered (start : Z) (d : Z -> list Z) : Z -> list Z := replay d (redo_writes start d).

Lemma recover_spec s b lsz :
  lg_dev s = 1 -> length (lh_block s) = Z.to_nat LOGSIZE -> cache_abs b ∅ ∅ ->
  disk_head_ok (lg_start s) lsz (disksize b) (disk b) ->
  exists b' bl, recover_from_log (set_bio b s) = Ret tt (set_bio b' (set_lh 0 bl s)) /\
    cache_abs b' ∅ ∅ /\ io b b' (recover_trace (lg_start s) (disk b)).
Proof.
  intros Hdev Hlen A [Hn Hfit Hst Hend Hsz Hl Hblk]. set (start := lg_start s) in *.
  assert (Hvd : forall m, view b m = disk b m) by (intros; apply (view_clean b ∅ ∅); set_solver).
  assert (Hroom : (size (∅ : gset Z) < nbuf)%nat) by (by apply Nat.ltb_lt).
  destruct (read_head_spec s b ∅) as (b1 & bl & E1 & A1 & I1 & V1 & L1 & B1);
    [done|done|unfold blk_ok; fold start; lia|set_solver|done|rewrite Hvd; fold start; lia|].
  fold start in E1, B1. rewrite Hvd in E1, B1. set (n := hd_n (disk b start)) in *.
  set (s1 := set_lh n bl s) in *.
  assert (Hhb : forall i, 0 <= i < n -> lh_block_at s1 i = hd_block (disk b start) (Z.to_nat i)).
  { intros i Hi. unfold lh_block_at. simpl. apply B1. lia. }
  assert (Hho : head_ok s1 (disksize b1)).
  { rewrite (io_size _ _ _ I1). constructor; simpl; fold start; try lia; try done.
    - intros i Hi. rewrite Hhb by done. by apply Hblk.
    - intros i Hi. rewrite Hhb by done. destruct (Hblk i Hi). lia. }
  destruct (install_trans_spec s1 b1 ∅) as (b2 & E2 & A2 & I2 & V2); [done|done|set_solver|done|by right|].
  replace (∅ ∖ homes s1 (lh_n s1)) with (∅ : gset Z) in A2 by set_solver.
  assert (Ew : home_writes s1 (lh_n s1) b1 = redo_writes start (disk b)).
  { unfold home_writes, redo_writes. apply list_fmap_ext. intros ? i Hi%list_elem_of_lookup_2%elem_of_seqZ.
    rewrite Hhb, V1, Hvd by lia. done. }
  rewrite Ew in *. pose proof (io_app _ _ _ _ _ I1 I2) as I12. simpl in I12.
  assert (Vs : view b2 start = disk b start).
  { rewrite V2, replay_notin; [by rewrite V1|]. rewrite <- Ew, home_writes_addr. intros (i & Ei & Hi).
    rewrite Hhb in Ei by done. destruct (Hblk i Hi). lia. }
  destruct (write_head_spec (set_lh 0 bl s) b2 ∅) as (b3 & E3 & A3 & I3 & V3);
    [done|done|done|unfold blk_ok; rewrite (io_size _ _ _ I12); simpl; fold start; lia|set_solver|done|].
  simpl in I3. fold start in I3. rewrite Vs in I3.
  exists b3, bl. split_and!; [|done|by pose proof (io_app _ _ _ _ _ I12 I3)].
  unfold recover_from_log. erewrite kbind_ret by exact E1. erewrite kbind_ret by exact E2. krun.
  exact E3.
Qed.

(** ** Crashes *)

Section crash.
Context (start lsz sz : Z).
Definition outside (m : Z) : Prop := ~ (start <= m < start + lsz).

(** Recovery from [d] gives the contents [T] to every block outside the log. *)
Definition leads_to (d T : Z -> list Z) : Prop :=
  disk_head_ok start lsz sz d /\ forall m, outside m -> recovered start d m = T m.

Lemma redo_addr d m :
  m ∈ (redo_writes start d).*1 <->
  exists i, m = hd_block (d start) (Z.to_nat i) /\ 0 <= i < hd_n (d start).
Proof.
  unfold redo_writes. rewrite <- list_fmap_compose, list_elem_of_fmap. setoid_rewrite elem_of_seqZ.
  simpl. naive_solver.
Qed.

Lemma redo_outside d m :
  disk_head_ok start lsz sz d -> m ∈ (redo_writes start d).*1 -> outside m.
Proof. intros [_ _ _ _ _ _ Hb]. rewrite redo_addr. intros (i & -> & Hi). by apply Hb. Qed.

(** Disks that agree on the log region redo the same writes. *)
Lemma redo_congr d d' :
  0 <= hd_n (d start) < lsz -> (forall m, start <= m < start + lsz -> d' m = d m) ->
  redo_writes start d' = redo_writes start d.
Proof.
  intros Hn Heq. unfold redo_writes. rewrite (Heq start) by lia.
  apply list_fmap_ext. intros ? i Hi%list_elem_of_lookup_2%elem_of_seqZ. by rewrite Heq by lia.
Qed.

Lemma disk_head_ok_congr d d' :
  disk_head_ok start lsz sz d -> (forall m, start <= m < start + lsz -> d' m = d m) ->
  disk_head_ok start lsz sz d'.
Proof.
  intros [] Heq. assert (E : d' start = d start) by (apply Heq; lia).
  by constructor; rewrite ?E.
Qed.

Lemma elem_take_addr (l : list (Z * list Z)) k m : m ∈ (take k l).*1 -> m ∈ l.*1.
Proof.
  rewrite fmap_take. intros (i & Hi & _)%elem_of_take. by eapply list_elem_of_lookup_2.
Qed.

(** An erased header: nothing is redone. *)
Lemma erased_redo d : hd_n (d start) = 0 -> redo_writes start d = [].
Proof. unfold redo_writes. by intros ->. Qed.

Lemma hd_n_erase h : (4 <= length h)%nat -> hd_n (hd_set_n 0 h) = 0.
Proof. intros Hl. by apply (hd_n_put_head 0 0 [] h). Qed.

Lemma erased_ok d h :
  0 <= start -> 0 < lsz -> start + lsz <= sz -> sz <= 2147483648 -> (4 <= length h)%nat ->
  d start = hd_set_n 0 h -> disk_head_ok start lsz sz d.
Proof.
  intros H1 H2 H3 H4 Hl E.
  assert (E0 : hd_n (d start) = 0) by (rewrite E; by apply hd_n_erase).
  constructor; rewrite ?E0; try lia; [by change LOGSIZE with 30|].
  rewrite E. unfold hd_set_n. by rewrite length_st32.
Qed.

(** A crash during recovery loses nothing: the next recovery leads to the
    same contents. *)
Lemma partial_recovery d T k :
  leads_to d T -> leads_to (replay d (take k (recover_trace start d))) T.
Proof.
  intros [Hok HT]. unfold recover_trace. rewrite take_app.
  set (W := redo_writes start d) in *.
  destruct (take (k - length W) [(start, hd_set_n 0 (d start))]) as [|w tl] eqn:Et.
  - rewrite app_nil_r.
    assert (Hin : forall m, start <= m < start + lsz -> replay d (take k W) m = d m).
    { intros m Hm. apply replay_notin. intros Hx%elem_take_addr.
      by apply (redo_outside d m Hok) in Hx. }
    split; [by eapply disk_head_ok_congr|].
    intros m Hm. rewrite <- HT by done. unfold recovered. rewrite (redo_congr d) by (done || (destruct Hok; lia)).
    fold W. apply replay_take.
  - assert (Hk : (length W <= k)%nat).
    { destruct (decide (length W <= k)%nat); [done|]. by replace (k - length W)%nat with 0%nat in Et by lia. }
    rewrite (take_ge W) by done.
    assert (w :: tl = [(start, hd_set_n 0 (d start))]) as ->.
    { rewrite <- Et. destruct (k - length W)%nat; [done|]. simpl. by rewrite take_nil. }
    set (d' := replay d _).
    assert (Es : d' start = hd_set_n 0 (d start)) by (unfold d'; rewrite replay_app; simpl; by rewrite decide_True).
    split.
    + destruct Hok. eapply (erased_ok d' (d start)); [lia..|done|done].
    + intros m Hm. unfold recovered. rewrite erased_redo
        by (rewrite Es; apply hd_n_erase; apply Hok).
      simpl. unfold d'. rewrite replay_app. simpl. rewrite decide_False; [by apply HT|].
      intros ->. apply Hm. destruct Hok. lia.
Qed.
End crash.

Lemma replay_val d tr m v :
  (forall w, w ∈ tr -> w.1 = m -> w.2 = v) -> (m ∉ tr.*1 -> d m = v) -> replay d tr m = v.
Proof.
  induction tr as [|w tr IH] using rev_ind; intros H1 H2; [apply H2; set_solver|].
  rewrite replay_app. simpl. destruct (decide (m = w.1)) as [->|Hne].
  - apply H1; [set_solver|done].
  - apply IH; [intros ???; apply H1; [set_solver|done]|].
    intros Hm. apply H2. rewrite fmap_app. simpl. set_solver.
Qed.

(** ** A crash in the middle of a commit *)

Section commit_crash.
Context (s : logstate) (b : bstate) (lsz : Z).
Notation start := (lg_start s).
Notation n := (lh_n s).
Notation hb i := (lh_block_at s i).

(** The log region holds the header and the logged blocks, the home blocks
    are outside it, and no transaction is on the disk when commit starts. *)
Record crash_pre : Prop := {
  cr_fit : n < lsz;
  cr_end : start + lsz <= disksize b;
  cr_out : forall i, 0 <= i < n -> outside start lsz (hb i);
  cr_empty : hd_n (disk b start) = 0;
  cr_len : (4 + 4 * Z.to_nat n <= length (disk b start))%nat
}.
Hypothesis Hpre : commit_pre s b.
Hypothesis Hcr : crash_pre.

Lemma start_clean : view b start = disk b start.
Proof.
  apply (view_clean b ∅ (homes s n)); [apply Hpre|set_solver|].
  replace start with (start + -1 + 1) by lia. apply (lb_not_home s b Hpre).
  pose proof (ho_n _ _ (cp_head _ _ Hpre)). lia.
Qed.

Lemma view_not_home m : m ∉ homes s n -> view b m = disk b m.
Proof. intros Hm. apply (view_clean b ∅ (homes s n)); [apply Hpre|set_solver|done]. Qed.

(** The disk just after the commit point. *)
Definition committed : Z -> list Z := replay (disk b) (log_writes s n b ++ [(start, new_head s b)]).

Lemma committed_start : committed start = new_head s b.
Proof. unfold committed. rewrite replay_app. simpl. by rewrite decide_True. Qed.

Lemma committed_log i : 0 <= i < n -> committed (start + i + 1) = view b (hb i).
Proof.
  intros Hi. unfold committed. rewrite replay_app. simpl. rewrite decide_False by lia.
  by apply log_writes_lb.
Qed.

Lemma committed_head :
  hd_n (committed start) = n /\
  forall i, 0 <= i < n -> hd_block (committed start) (Z.to_nat i) = hb i.
Proof.
  rewrite committed_start. destruct Hpre as [[] _ _ _], Hcr. unfold new_head. rewrite start_clean.
  change LOGSIZE with 30 in *. split; [apply hd_n_put_head; lia|].
  intros i Hi. apply hd_block_put_head; [lia|lia|].
  specialize (ho_in0 i Hi). unfold lh_block_at in *. lia.
Qed.

Lemma committed_redo : redo_writes start committed = install_writes s b.
Proof.
  destruct committed_head as [En Eb]. unfold redo_writes, install_writes. rewrite En.
  apply list_fmap_ext. intros ? i Hi%list_elem_of_lookup_2%elem_of_seqZ.
  by rewrite Eb, committed_log by lia.
Qed.

Lemma committed_leads : leads_to start lsz (disksize b) committed (view b).
Proof.
  destruct committed_head as [En Eb]. split.
  - destruct Hpre as [[] _ _ _]. pose proof Hcr as []. constructor; rewrite ?En; try lia.
    + rewrite committed_start. unfold new_head. rewrite length_put_head, start_clean. lia.
    + intros i Hi. rewrite Eb by done. split; [by apply ho_in0|by apply cr_out0].
  - intros m Hm. unfold recovered. rewrite committed_redo. apply replay_val.
    + intros w Hw <-. unfold install_writes in Hw. apply list_elem_of_fmap in Hw as (i & -> & _). done.
    + intros Hn. unfold committed. rewrite replay_app. simpl.
      assert (Hh : m ∉ homes s n).
      { rewrite elem_homes. intros (i & -> & Hi). apply Hn. unfold install_writes.
        rewrite <- list_fmap_compose, list_elem_of_fmap. exists i. split; [done|]. apply elem_of_seqZ. lia. }
      pose proof (cr_fit Hcr). pose proof (ho_n _ _ (cp_head _ _ Hpre)). unfold outside in Hm.
      rewrite decide_False, (log_writes_home s b) by lia. symmetry. by apply view_not_home.
Qed.

Lemma length_log_writes : length (log_writes s n b) = Z.to_nat n.
Proof. unfold log_writes. by rewrite length_fmap, length_seqZ. Qed.

(** Before the commit point the old contents are recovered. *)
Lemma uncommitted_leads k :
  leads_to start lsz (disksize b) (replay (disk b) (take k (log_writes s n b))) (disk b).
Proof.
  pose proof (ho_n _ _ (cp_head _ _ Hpre)) as Hn. pose proof (ho_start _ _ (cp_head _ _ Hpre)).
  pose proof (ho_sz _ _ (cp_head _ _ Hpre)). destruct Hcr.
  assert (Hout : forall m, m = start \/ outside start lsz m ->
            replay (disk b) (take k (log_writes s n b)) m = disk b m).
  { intros m Hm. apply replay_notin. intros (i & -> & Hi)%elem_take_addr%log_writes_addr.
    unfold outside in Hm. lia. }
  split.
  - constructor; rewrite ?(Hout start), ?cr_empty0 by (by left); try lia; by change LOGSIZE with 30.
  - intros m Hm. unfold recovered. rewrite erased_redo by (by rewrite Hout by (by left)).
    apply Hout. by right.
Qed.

Lemma commit_prefix k :
  leads_to start lsz (disksize b) (replay (disk b) (take k (commit_trace s b)))
    (if Z.of_nat k <=? n then disk b else view b).
Proof.
  pose proof (ho_n _ _ (cp_head _ _ Hpre)) as Hn. unfold commit_trace.
  destruct (Z.eqb_spec n 0) as [E0|Hpos].
  - rewrite take_nil. destruct (uncommitted_leads 0) as [Hok HT]. split; [done|].
    intros m Hm. rewrite HT by done. destruct (_ <=? _); [done|]. symmetry. apply view_not_home.
    rewrite elem_homes. intros (i & _ & Hi). lia.
  - destruct (Z.leb_spec (Z.of_nat k) n) as [Hk|Hk].
    + rewrite take_app_le by (rewrite length_log_writes; lia). apply uncommitted_leads.
    + rewrite (app_assoc (log_writes s n b)). rewrite take_app, take_ge
        by (rewrite length_app, length_log_writes; simpl; lia).
      unfold replay. rewrite foldl_app. fold (replay (disk b) (log_writes s n b ++ [(start, new_head s b)])).
      fold committed. set (j := (k - _)%nat).
      rewrite <- committed_redo, <- committed_start.
      apply (partial_recovery start lsz (disksize b) committed (view b) j committed_leads).
Qed.
End commit_crash.

(** The machine may crash again while it recovers, any number of times:
    [crashed s sz d d'] relates the disk of the first crash to that of the
    last.  [s] is the log in memory when recovery is called. *)
Inductive crashed (s : logstate) (sz : Z) : (Z -> list Z) -> (Z -> list Z) -> Prop :=
| crashed_once d : crashed s sz d d
| crashed_again d pid b t k d' :
    binit (boot_bio d sz pid) = Ret tt b ->
    recover_from_log (set_bio b s) = Ret tt t ->
    crashed s sz (replay d (take k (wtrace (lg_bio t)))) d' ->
    crashed s sz d d'.

Definition log_booted (s : logstate) (start : Z) : Prop :=
  lg_dev s = 1 /\ lg_start s = start /\ length (lh_block s) = Z.to_nat LOGSIZE.

(** A boot from a disk that leads somewhere recovers, and gets there. *)
Lemma boot_recovers s start lsz sz d T pid :
  log_booted s start -> leads_to start lsz sz d T ->
  exists b t, binit (boot_bio d sz pid) = Ret tt b /\ recover_from_log (set_bio b s) = Ret tt t /\
    lh_n t = 0 /\ wtrace (lg_bio t) = recover_trace start d /\
    (forall m, outside start lsz m -> disk (lg_bio t) m = T m) /\
    hd_n (disk (lg_bio t) start) = 0.
Proof.
  intros (Hdev & Hst & Hlen) [Hok HT].
  destruct (binit_abs d sz pid) as (b & Eb & A & Ed & Es & Et).
  destruct (recover_spec s b lsz) as (b' & bl & Er & A' & I); [done|done|done|by rewrite Hst, Ed, Es|].
  rewrite Hst, Ed in I. destruct I as [I1 I2 _]. rewrite Ed in I2.
  exists b, (set_bio b' (set_lh 0 bl s)). unfold recover_trace in *. split_and!; [exact Eb|exact Er|exact eq_refl|..].
  - simpl. by rewrite I1, Et.
  - intros m Hm. simpl. rewrite I2, replay_app. simpl. rewrite decide_False; [by apply HT|].
    intros ->. apply Hm. destruct Hok. lia.
  - simpl. rewrite I2, replay_app. simpl. rewrite decide_True by done. apply hd_n_erase, Hok.
Qed.

Lemma crashed_leads s start lsz sz d d' T :
  log_booted s start -> crashed s sz d d' -> leads_to start lsz sz d T -> leads_to start lsz sz d' T.
Proof.
  intros Hs Hc. induction Hc as [|d pid b t k d' Eb Er Hc IH]; [done|]. intros Hl. apply IH.
  destruct (boot_recovers s start lsz sz d T pid Hs Hl) as (b1 & t1 & Eb1 & Er1 & _ & Et & _).
  destruct (ret_inj _ _ _ _ _ Eb Eb1) as [_ <-]. destruct (ret_inj _ _ _ _ _ Er Er1) as [_ <-].
  rewrite Et. by apply partial_recovery.
Qed.

(** C15: a commit is atomic with respect to crashes.  [commit] returns; and if
    the machine stops after any number [k] of its disk writes, reboots, and
    possibly stops again any number of times during recovery, then the boot
    that completes [recover_from_log] finds every block outside the log with
    its old contents if the header write had not been reached, and every block
    with its new contents if it had.  Nothing is left in the log. *)
Theorem commit_crash_atomic s b lsz s2 :
  commit_pre s b -> crash_pre s b lsz -> log_booted s2 (lg_start s) ->
  exists t, commit (set_bio b s) = Ret tt t /\ lh_n t = 0 /\
    exists tr, wtrace (lg_bio t) = wtrace b ++ tr /\
    forall k d pid, crashed s2 (disksize b) (replay (disk b) (take k tr)) d ->
    exists b2 t2, binit (boot_bio d (disksize b) pid) = Ret tt b2 /\
      recover_from_log (set_bio b2 s2) = Ret tt t2 /\ lh_n t2 = 0 /\
      forall m, outside (lg_start s) lsz m ->
        disk (lg_bio t2) m = if Z.of_nat k <=? lh_n s then disk b m else view b m.
Proof.
  intros Hpre Hcr Hs2. destruct (commit_spec s b Hpre) as (b' & E & A & I).
  exists (set_bio b' (set_lh 0 (lh_block s) s)). split; [done|]. split; [done|].
  exists (commit_trace s b). split; [apply I|]. intros k d pid Hc.
  pose proof (commit_prefix s b lsz Hpre Hcr k) as Hl.
  eapply (crashed_leads s2 _ lsz) in Hc; [|done|exact Hl].
  destruct (boot_recovers s2 _ _ _ _ _ pid Hs2 Hc) as (b2 & t2 & Eb & Er & En & _ & Hd & _).
  exists b2, t2. split_and!; [exact Eb|exact Er|exact En|]. intros m Hm. rewrite Hd by exact Hm. by destruct (_ <=? _).
Qed.

(** A transaction that changed one block, [n], is pinned in the cache. *)
Lemma pin_one d sz n v :
  0 <= n < sz -> exists b, cache_abs b ∅ {[n]} /\ view b n = v /\ disk b = d /\ disksize b = sz.
Proof.
  intros Hn. destruct (binit_abs d sz 1) as (b0 & _ & A0 & D0 & Z0 & _).
  assert (Hroom : (size (∅ ∪ ∅ : gset Z) < nbuf)%nat) by (by apply Nat.ltb_lt).
  destruct (bread_client b0 ∅ ∅ n) as (i & b1 & _ & A1 & C1 & _ & _ & (D1 & Z1 & _) & _);
    [done|set_solver|lia|by left|].
  destruct (bset_data_client b1 _ _ n i v A1) as (b2 & _ & A2 & C2 & V2 & (D2 & Z2 & _) & _); [set_solver|done|].
  destruct (mark_dirty_client b2 _ _ n i A2) as (b3 & _ & A3 & C3 & V3 & (D3 & Z3 & _) & _); [set_solver|done|].
  destruct (brelse_client b3 _ _ n i A3) as (b4 & _ & A4 & V4 & (D4 & Z4 & _) & _); [set_solver|done|set_solver|].
  exists b4. split_and!; [| |congruence|congruence].
  - by replace (({[n]} ∪ ∅) ∖ {[n]}) with (∅ : gset Z) in A4 by set_solver;
      replace ({[n]} ∪ ∅) with ({[n]} : gset Z) in A4 by set_solver.
  - by rewrite V4, V3, V2, decide_True.
Qed.

Definition ex_log (b : bstate) : logstate := LogState false 2 30 0 1 1 1 (40 :: replicate 29 0) b.

Lemma commit_crash_atomic_witness :
  exists b, view b 40 = [7] /\ disk b 40 = replicate 512 0 /\
  exists t, commit (set_bio b (ex_log b)) = Ret tt t /\ lh_n t = 0.
Proof.
  destruct (pin_one (fun _ => replicate 512 0) 1000 40 [7]) as (b & A & V & D & Hz); [lia|].
  assert (H1 : forall i, 0 <= i < 1 -> lh_block_at (ex_log b) i = 40)
    by (intros i Hi; by replace i with 0 by lia).
  assert (Hp : commit_pre (ex_log b) b).
  { split; [| |done|simpl; lia].
    - rewrite Hz. constructor; try done; simpl; intros i Hi; rewrite H1 by done; lia.
    - by replace (homes (ex_log b) (lh_n (ex_log b))) with ({[40]} : gset Z) by set_solver. }
  assert (Hc : crash_pre (ex_log b) b 30).
  { split; [done|by rewrite Hz|intros i Hi; rewrite H1 by done; unfold outside; simpl; lia
      |by rewrite D|rewrite D; by apply Nat.leb_le]. }
  destruct (commit_crash_atomic (ex_log b) b 30 (ex_log b) Hp Hc) as (t & E & En & _); [done|].
  exists b. rewrite D. split_and!; [done|done|]. by exists t.
Defined.
