(* ===== verification/LogOps.v ===== *)
(** * Transactions: begin_op, log_write, end_op (log.c)

    The bookkeeping of log_write, whole transactions on an idle log, and the
    space reservation of begin_op. *)

From S2P Require Import Prelude Layout Sleeplock Bio Bcache Fsdefs Log LogSafe.

(** ** The log between two routines of a file-system call *)

(** [H] are the blocks the caller holds; [lsz] is the size of the log region. *)
Record log_ok (lsz : Z) (s : logstate) (H : gset Z) : Prop := {
  lo_lk : lg_lk s = false;
  lo_dev : lg_dev s = 1;
  lo_len : length (lh_block s) = Z.to_nat LOGSIZE;
  lo_n : 0 <= lh_n s <= LOGSIZE;
  lo_fit : lh_n s < lsz;
  lo_start : 0 <= lg_start s;
  lo_end : lg_start s + lsz <= disksize (lg_bio s);
  lo_sz : disksize (lg_bio s) <= 2147483648;
  lo_in : forall i, 0 <= i < lh_n s -> 0 <= lh_block_at s i < disksize (lg_bio s);
  lo_out : forall i, 0 <= i < lh_n s -> outside (lg_start s) lsz (lh_block_at s i);
  lo_inj : forall i j, 0 <= i < lh_n s -> 0 <= j < lh_n s ->
    lh_block_at s i = lh_block_at s j -> i = j;
  lo_abs : cache_abs (lg_bio s) H (homes s (lh_n s))
}.

(** The search of log_write answers the first entry equal to the block, or [n]. *)
Lemma find_logged_spec n i bl x :
  let k := find_logged n i bl x in
  (i <= k <= i + n)%nat /\ (forall j, (i <= j < k)%nat -> u32 (nth j bl 0) <> x) /\
  ((k < i + n)%nat -> u32 (nth k bl 0) = x).
Proof.
  revert i. induction n as [|n IH]; intros i; simpl; [split_and!; lia|].
  destruct (Z.eqb_spec (u32 (nth i bl 0)) x) as [E|E]; [split_and!; (lia || done)|].
  destruct (IH (S i)) as (H1 & H2 & H3). split_and!; [lia|lia| |intros; apply H3; lia].
  intros j Hj. destruct (decide (j = i)) as [->|]; [done|]. apply H2. lia.
Qed.

Section log_write.
Context (lsz : Z) (s : logstate) (H : gset Z) (x : Z) (i : nat).
Hypothesis Hok : log_ok lsz s H.
Hypothesis Hx : 0 <= x < disksize (lg_bio s).
Hypothesis Hout : outside (lg_start s) lsz x.
Hypothesis Hheld : x ∈ H.
Hypothesis Hc : cached (lg_bio s) x i.
Notation n := (lh_n s).
Let k := find_logged (Z.to_nat n) 0 (lh_block s) x.

Lemma logged_iff : x ∈ homes s n <-> (k < Z.to_nat n)%nat.
Proof.
  destruct (find_logged_spec (Z.to_nat n) 0 (lh_block s) x) as (K1 & K2 & K3). fold k in K1, K2, K3.
  assert (Hu : forall j, 0 <= j < n -> u32 (lh_block_at s j) = lh_block_at s j).
  { intros j Hj. apply u32_small. pose proof (lo_in _ _ _ Hok j Hj). pose proof (lo_sz _ _ _ Hok). lia. }
  rewrite elem_homes. split.
  - intros (j & Ej & Hj). destruct (decide (k < Z.to_nat n)%nat); [done|]. exfalso.
    apply (K2 (Z.to_nat j)); [lia|]. fold (lh_block_at s j). rewrite Hu; done.
  - intros Hk. exists (Z.of_nat k). split; [|lia]. rewrite <- Hu by lia.
    unfold lh_block_at. rewrite Nat2Z.id. symmetry. apply K3. lia.
Qed.

Definition logged : logstate :=
  if decide (x ∈ homes s n) then s else set_lh (n + 1) (<[Z.to_nat n := x]> (lh_block s)) s.

Hypothesis Hroom : n < LOGSIZE.

Lemma logged_at j :
  x ∉ homes s n -> 0 <= j < n + 1 -> lh_block_at logged j = if decide (j = n) then x else lh_block_at s j.
Proof.
  intros Hn Hj. unfold logged. rewrite decide_False by done. unfold lh_block_at. simpl.
  pose proof (lo_n _ _ _ Hok). destruct (decide (j = n)) as [Ej|].
  - rewrite Ej. apply nth_insert_eq. rewrite (lo_len _ _ _ Hok). lia.
  - apply nth_insert_ne. lia.
Qed.

Lemma logged_homes : homes logged (lh_n logged) = {[x]} ∪ homes s n.
Proof.
  destruct (decide (x ∈ homes s n)) as [Hin|Hin].
  { unfold logged. rewrite decide_True by done. set_solver. }
  pose proof (logged_at) as Hat.
  replace (lh_n logged) with (n + 1) by (unfold logged; by rewrite decide_False).
  pose proof (lo_n _ _ _ Hok).
  apply set_eq. intros m. rewrite elem_of_union, elem_of_singleton, !elem_homes. split.
  - intros (j & -> & Hj). rewrite Hat by done. destruct (decide (j = n)); [by left|right].
    exists j. split; [done|lia].
  - intros [->|(j & -> & Hj)].
    + exists n. rewrite Hat, decide_True by (done || lia). split; [done|lia].
    + exists j. rewrite Hat, decide_False by (done || lia). split; [done|lia].
Qed.

Lemma logged_ok b' :
  n + 1 < lsz -> disksize b' = disksize (lg_bio s) ->
  cache_abs b' H ({[x]} ∪ homes s n) -> log_ok lsz (set_bio b' logged) H.
Proof.
  intros Hfit Hsz A. rewrite <- logged_homes in A.
  destruct (decide (x ∈ homes s n)) as [Hin|Hin].
  { unfold logged in *. rewrite decide_True in * by done. destruct Hok. by constructor; simpl; rewrite ?Hsz. }
  pose proof (fun j => logged_at j Hin) as Hat.
  assert (En : lh_n logged = n + 1) by (unfold logged; by rewrite decide_False).
  assert (Es : lg_start logged = lg_start s) by (unfold logged; by rewrite decide_False).
  pose proof Hok as [].
  assert (Hne : forall j, 0 <= j < n -> lh_block_at s j <> x).
  { intros j Hj E. apply Hin, elem_homes. exists j. split; [done|lia]. }
  constructor; try (unfold logged; rewrite decide_False by done; simpl; rewrite ?length_insert; done || lia);
    change (lh_n (set_bio b' logged)) with (lh_n logged); rewrite ?En;
    change (lg_start (set_bio b' logged)) with (lg_start logged); rewrite ?Es;
    change (lh_block_at (set_bio b' logged)) with (lh_block_at logged);
    change (lg_bio (set_bio b' logged)) with b'; rewrite ?Hsz; try lia.
  - intros j Hj. rewrite Hat by done. destruct (decide (j = n)); [done|]. apply lo_in0. lia.
  - intros j Hj. rewrite Hat by done. destruct (decide (j = n)); [done|]. apply lo_out0. lia.
  - intros j1 j2 Hj1 Hj2. rewrite !Hat by done.
    destruct (decide (j1 = n)) as [D1|D1], (decide (j2 = n)) as [D2|D2]; intros E.
    + lia.
    + exfalso. apply (Hne j2); [lia|done].
    + exfalso. apply (Hne j1); [lia|done].
    + apply lo_inj0; [lia|lia|done].
  - by rewrite En in A.
Qed.

Lemma log_write_eq :
  n < lg_size s - 1 -> 1 <= lg_outstanding s ->
  exists b', log_write i s = Ret tt (set_bio b' logged) /\
    cache_abs b' H ({[x]} ∪ homes s n) /\ same_disk (lg_bio s) b' /\
    cached b' x i /\ (forall m, view b' m = view (lg_bio s) m) /\ keeps (lg_bio s) b' H.
Proof.
  intros Hsize Hos.
  destruct (mark_dirty_client (lg_bio s) H (homes s n) x i (lo_abs _ _ _ Hok) Hheld Hc)
    as (b' & E & A & C & V & S & Kp).
  exists b'. split_and!; try done; try apply S.
  unfold log_write. krun. unfold id.
  replace (LOGSIZE <=? n) with false by lia. replace (lg_size s - 1 <=? n) with false by lia.
  replace (lg_outstanding s <? 1) with false by lia. simpl.
  unfold log_acquire at 1. krun. rewrite (lo_lk _ _ _ Hok). krun.
  change (lg_bio (set_lg_lk true s)) with (lg_bio s). change (lh_n (set_lg_lk true s)) with n.
  change (lh_block (set_lg_lk true s)) with (lh_block s).
  destruct Hc as (_ & _ & ->). fold k. rewrite s32_small by (pose proof (lo_sz _ _ _ Hok); lia).
  set (s1 := set_lh n (<[k:=x]> (lh_block s)) (set_lg_lk true s)).
  change (lh_n s1) with n. pose proof (lo_n _ _ _ Hok) as Hn.
  assert (Es : (if Z.of_nat k =? n then set_lh (n + 1) (lh_block s1) s1 else s1) = set_lg_lk true logged).
  { unfold logged. destruct (decide (x ∈ homes s n)) as [Hin|Hin]; rewrite logged_iff in Hin.
    - replace (Z.of_nat k =? n) with false by lia. unfold s1.
      rewrite list_insert_id; [by destruct s|].
      destruct (find_logged_spec (Z.to_nat n) 0 (lh_block s) x) as (_ & _ & K3). fold k in K3.
      specialize (K3 ltac:(lia)). pose proof (lo_in _ _ _ Hok (Z.of_nat k) ltac:(lia)) as Hk.
      unfold lh_block_at in Hk. rewrite Nat2Z.id in Hk. pose proof (lo_sz _ _ _ Hok).
      rewrite u32_small in K3 by lia. rewrite <- K3.
      apply nth_lookup_lt. rewrite (lo_len _ _ _ Hok). lia.
    - destruct (find_logged_spec (Z.to_nat n) 0 (lh_block s) x) as (K1 & _). fold k in K1.
      replace (Z.of_nat k =? n) with true by lia. unfold s1. by replace (Z.to_nat n) with k by lia. }
  rewrite Es. unfold log_release.
  replace (set_lg_lk true logged) with (set_bio (lg_bio s) (set_lg_lk true logged))
    by (unfold logged; destruct (decide _); by destruct s).
  rewrite (bio_bind _ _ _ _ tt b') by done. krun. simpl. unfold kmodify. f_equal.
  pose proof (lo_lk _ _ _ Hok) as Hl. unfold logged. by destruct (decide _), s; simpl in *; subst.
Qed.
End log_write.

(** ** Whole transactions *)

(** One modified block, as log.c describes the use of log_write: bread, modify
    the data, log_write, brelse. *)
Definition log_update (x : Z) (d : list Z) : K logstate unit :=
  let! b := log_bread x in
  bio (bset_data b d) ;;
  log_write b ;;
  bio (brelse b).

Fixpoint log_updates (ws : list (Z * list Z)) : K logstate unit :=
  match ws with
  | [] => kret tt
  | (x, d) :: ws' => log_update x d ;; log_updates ws'
  end.

Definition transaction (ws : list (Z * list Z)) : K logstate unit :=
  begin_op ;; log_updates ws ;; end_op.

(** What log_update leaves alone. *)
Definition same_log (s s' : logstate) : Prop :=
  lg_start s' = lg_start s /\ lg_size s' = lg_size s /\ lg_outstanding s' = lg_outstanding s /\
  lg_committing s' = lg_committing s /\ io (lg_bio s) (lg_bio s') [].

Lemma homes_card lsz s H : log_ok lsz s H -> size (homes s (lh_n s)) = Z.to_nat (lh_n s).
Proof.
  intros Hok. unfold homes. rewrite size_list_to_set.
  - by rewrite length_fmap, length_seqZ.
  - apply NoDup_fmap_2_strong; [|apply NoDup_seqZ].
    intros i j Hi%elem_of_seqZ Hj%elem_of_seqZ. apply Hok; lia.
Qed.

Lemma log_ok_bio lsz s H H' b' :
  log_ok lsz s H -> disksize b' = disksize (lg_bio s) -> cache_abs b' H' (homes s (lh_n s)) ->
  log_ok lsz (set_bio b' s) H'.
Proof. intros [] Hsz A. by constructor; simpl; rewrite ?Hsz. Qed.

Lemma set_bio_id s : set_bio (lg_bio s) s = s.
Proof. by destruct s. Qed.

Lemma log_update_spec lsz s x d :
  log_ok lsz s ∅ -> 0 <= x < disksize (lg_bio s) -> outside (lg_start s) lsz x ->
  lh_n s < LOGSIZE -> lh_n s + 1 < lsz -> lg_size s = lsz -> 1 <= lg_outstanding s ->
  exists s', log_update x d s = Ret tt s' /\ log_ok lsz s' ∅ /\ same_log s s' /\
    homes s' (lh_n s') = {[x]} ∪ homes s (lh_n s) /\
    forall m, view (lg_bio s') m = if decide (m = x) then d else view (lg_bio s) m.
Proof.
  intros Hok Hx Hout Hn Hn1 Hsize Hos. pose proof (lo_sz _ _ _ Hok) as Hsz. pose proof (lo_n _ _ _ Hok) as Hn0.
  pose proof (homes_card _ _ _ Hok) as Hcard. set (b := lg_bio s) in *. set (D := homes s (lh_n s)) in *.
  destruct (bread_one b D x) as (i & b1 & E1 & A1 & C1 & V1 & W1 & I1);
    [apply Hok|unfold blk_ok; lia|rewrite Hcard; change nbuf with (Z.to_nat LOGSIZE); lia|].
  destruct (bset_data_client b1 {[x]} D x i d) as (b2 & E2 & A2 & C2 & V2 & S2 & _); [done|set_solver|done|].
  assert (I2 : io b b2 []) by (apply (io_app b b1 b2 [] []); [done|by apply io_nil]).
  assert (Ok2 : log_ok lsz (set_bio b2 s) {[x]})
    by (eapply log_ok_bio; [done|apply (io_size _ _ _ I2)|done]).
  set (s2 := set_bio b2 s) in *.
  assert (Hx2 : 0 <= x < disksize (lg_bio s2)) by (simpl; by rewrite (io_size _ _ _ I2)).
  assert (Hin : x ∈ ({[x]} : gset Z)) by set_solver.
  destruct (log_write_eq lsz s2 {[x]} x i) as (b3 & E3 & A3 & S3 & C3 & V3 & _); try done; [simpl; lia|].
  pose proof (logged_homes lsz s2 {[x]} x i Ok2 Hx2 Hout Hin C2 Hn) as Hh.
  pose proof (logged_ok lsz s2 {[x]} x i Ok2 Hx2 Hout Hin C2 Hn b3 Hn1 ltac:(apply S3) A3) as Ok3.
  set (s3 := logged s2 x) in *.
  destruct (brelse_one b3 (homes s3 (lh_n s3)) x i) as (b4 & E4 & A4 & I4 & V4);
    [by rewrite Hh|done|left; rewrite Hh; set_solver|].
  exists (set_bio b4 s3). split_and!.
  - unfold log_update. rewrite <- (set_bio_id s) at 1. fold b.
    rewrite (log_bread_bind _ x b s i b1); [|apply Hok|lia|done].
    rewrite (bio_bind _ _ b1 s tt b2) by done. fold s2.
    erewrite kbind_ret by exact E3. by apply bio_last.
  - apply (log_ok_bio lsz (set_bio b3 s3) {[x]} ∅ b4); [done|apply (io_size _ _ _ I4)|exact A4].
  - assert (I : io b b4 []).
    { apply (io_app b b2 b4 [] []); [done|]. apply (io_app b2 b3 b4 [] []); [by apply io_nil|done]. }
    unfold same_log, s3, logged. by destruct (decide _).
  - exact Hh.
  - intros m. simpl. rewrite V4, V3. simpl. rewrite V2. by rewrite W1.
Qed.

(** A run of updates inside one operation: absorption keeps the count at the
    number of distinct blocks. *)
Lemma log_updates_spec lsz ws : forall s T,
  log_ok lsz s ∅ -> lg_size s = lsz -> 1 <= lg_outstanding s ->
  homes s (lh_n s) ⊆ T -> Z.of_nat (size T) < LOGSIZE -> Z.of_nat (size T) + 1 < lsz ->
  (forall w, w ∈ ws -> w.1 ∈ T /\ 0 <= w.1 < disksize (lg_bio s) /\ outside (lg_start s) lsz w.1) ->
  exists s', log_updates ws s = Ret tt s' /\ log_ok lsz s' ∅ /\ same_log s s' /\
    homes s' (lh_n s') ⊆ T /\ forall m, view (lg_bio s') m = replay (view (lg_bio s)) ws m.
Proof.
  induction ws as [|[x d] ws IH]; intros s T Hok Hsize Hos HT Hc1 Hc2 Hws; simpl.
  - exists s. unfold same_log. split_and!; try done. by apply io_nil.
  - pose proof (homes_card _ _ _ Hok) as Hcard. pose proof (lo_n _ _ _ Hok) as Hn.
    pose proof (subseteq_size _ _ HT) as HTsz.
    destruct (Hws (x, d)) as (HxT & Hx & Hxo); [left|]. simpl in HxT, Hx, Hxo.
    destruct (log_update_spec lsz s x d) as (s1 & E1 & Ok1 & S1 & H1 & V1); [done|done|done|lia..|].
    pose proof S1 as (S1a & S1b & S1c & S1d & S1e).
    destruct (IH s1 T) as (s2 & E2 & Ok2 & S2 & H2 & V2); [done|by rewrite S1b|lia| |done|done| |].
    { rewrite H1. set_solver. }
    { intros w Hw. rewrite S1a, (io_size _ _ _ S1e). apply Hws. by right. }
    destruct S2 as (S2a & S2b & S2c & S2d & S2e).
    exists s2. split_and!; [by erewrite kbind_ret|done| |done|].
    + unfold same_log. rewrite S2a, S2b, S2c, S2d. split_and!; try done.
      by apply (io_app _ (lg_bio s1) _ [] []).
    + intros m. rewrite V2. change (replay (view (lg_bio s)) ((x, d) :: ws) m)
        with (replay (replay (view (lg_bio s)) [(x, d)]) ws m).
      apply replay_congr. intros _. by rewrite V1.
Qed.

(** The log with no operation in progress and nothing logged. *)
Record log_idle (lsz : Z) (s : logstate) : Prop := {
  li_ok : log_ok lsz s ∅;
  li_n : lh_n s = 0;
  li_out : lg_outstanding s = 0;
  li_com : lg_committing s = 0;
  li_size : lg_size s = lsz;
  li_head : hd_n (disk (lg_bio s) (lg_start s)) = 0;
  li_len : (4 + 4 * Z.to_nat LOGSIZE <= length (disk (lg_bio s) (lg_start s)))%nat
}.

Lemma begin_op_idle lsz s :
  log_idle lsz s -> begin_op s = Ret tt (set_outstanding 1 s).
Proof.
  intros [Hok Hn Ho Hc _ _ _]. pose proof (lo_lk _ _ _ Hok) as Hl.
  unfold begin_op, log_acquire. krun. rewrite Hl. krun. unfold id.
  change (lg_committing (set_lg_lk true s)) with (lg_committing s). rewrite Hc.
  change (lh_n (set_lg_lk true s)) with (lh_n s). rewrite Hn.
  change (lg_outstanding (set_lg_lk true s)) with (lg_outstanding s). rewrite Ho. simpl.
  unfold log_release. krun. simpl. unfold kmodify. f_equal. destruct s; simpl in *; by subst.
Qed.

(** The disk after a commit that ran to its end. *)
Lemma commit_final s b lsz :
  commit_pre s b -> crash_pre s b lsz ->
  let d := replay (disk b) (commit_trace s b) in
  (forall m, outside (lg_start s) lsz m -> d m = view b m) /\ hd_n (d (lg_start s)) = 0 /\
  length (d (lg_start s)) = length (disk b (lg_start s)).
Proof.
  intros Hpre Hcr d.
  assert (Hs : hd_n (d (lg_start s)) = 0 /\ length (d (lg_start s)) = length (disk b (lg_start s))).
  { unfold d, commit_trace. destruct (Z.eqb_spec (lh_n s) 0); [split; [apply Hcr|done]|].
    rewrite !app_assoc, replay_app. simpl. rewrite decide_True by done.
    assert (Hl : length (new_head s b) = length (disk b (lg_start s)))
      by (unfold new_head; by rewrite length_put_head, (start_clean s b lsz Hpre Hcr)).
    pose proof (cr_len _ _ _ Hcr). split; [apply hd_n_erase; lia|]. unfold hd_set_n. by rewrite length_st32. }
  split; [|done]. intros m Hm.
  destruct (commit_prefix s b lsz Hpre Hcr (length (commit_trace s b) + S (Z.to_nat (lh_n s)))) as [_ HT].
  rewrite take_ge in HT by lia. fold d in HT. specialize (HT m Hm).
  unfold recovered in HT. rewrite erased_redo in HT by apply Hs. simpl in HT. rewrite HT.
  pose proof (ho_n _ _ (cp_head _ _ Hpre)).
  by destruct (Z.leb_spec (Z.of_nat (length (commit_trace s b) + S (Z.to_nat (lh_n s)))) (lh_n s)); [lia|].
Qed.

Lemma cache_abs_wakeup ch b H D : cache_abs b H D -> cache_abs (wakeup ch b) H D.
Proof.
  intros [[l Hok] Hb Hi]. constructor; [|exact Hb|exact Hi].
  exists l. by apply (bcache_ok_frame b).
Qed.

(** log_ok is what commit needs. *)
Lemma log_ok_commit lsz s :
  log_ok lsz s ∅ -> lh_n s < NBUF -> commit_pre s (lg_bio s).
Proof.
  intros Hok Hn. split; [|apply Hok|done|apply Hok].
  destruct Hok. constructor; try done; [lia|].
  intros i Hi. specialize (lo_out0 i Hi). unfold outside in lo_out0. lia.
Qed.

(** Committing writes blocks of the length of those that were there. *)
Lemma replay_length n d tr m :
  length (d m) = n -> (forall w, w ∈ tr -> length w.2 = n) -> length (replay d tr m) = n.
Proof.
  intros Hd. induction tr as [|w tr IH] using rev_ind; [done|]. intros Hw. rewrite replay_app. simpl.
  case_decide; [apply Hw; set_solver|]. apply IH. intros w' Hw'. apply Hw. set_solver.
Qed.

Lemma commit_trace_length s b n w :
  (forall x, length (view b x) = n) -> w ∈ commit_trace s b -> length w.2 = n.
Proof.
  intros Hn. unfold commit_trace, log_writes, install_writes. destruct (lh_n s =? 0); [set_solver|].
  assert (Hh : length (new_head s b) = n) by (unfold new_head; by rewrite length_put_head).
  rewrite !elem_of_app, !list_elem_of_fmap, !list_elem_of_singleton.
  intros [(i & -> & _)|[->|[(i & -> & _)| ->]]]; try done; [apply Hn|apply Hn|]. unfold hd_set_n. simpl. by rewrite length_st32.
Qed.

(** end_op of the last operation commits and leaves the log idle. *)
Lemma end_op_last lsz s :
  log_ok lsz s ∅ -> lh_n s < NBUF -> lg_outstanding s = 1 -> lg_committing s = 0 -> lg_size s = lsz ->
  hd_n (disk (lg_bio s) (lg_start s)) = 0 ->
  (4 + 4 * Z.to_nat LOGSIZE <= length (disk (lg_bio s) (lg_start s)))%nat ->
  exists s', end_op s = Ret tt s' /\ log_idle lsz s' /\ lg_start s' = lg_start s /\
    disksize (lg_bio s') = disksize (lg_bio s) /\
    (forall m, outside (lg_start s) lsz m ->
      disk (lg_bio s') m = view (lg_bio s) m /\ view (lg_bio s') m = view (lg_bio s) m) /\
    (forall n, (forall x, length (view (lg_bio s) x) = n) -> forall x, length (view (lg_bio s') x) = n).
Proof.
  intros Hok Hn Ho Hc Hsize Hhd Hlen. set (b := lg_bio s) in *.
  set (s1 := set_committing 1 (set_outstanding 0 s)).
  pose proof (log_ok_commit lsz s Hok Hn) as Hpre0. fold b in Hpre0.
  assert (Hpre : commit_pre s1 b) by (by destruct Hpre0 as [[] ? ? ?]).
  assert (Hcr : crash_pre s1 b lsz).
  { pose proof Hok as []. change LOGSIZE with 30 in *. constructor; simpl; fold b; (done || lia). }
  destruct (commit_spec s1 b Hpre) as (b' & E & A & [I1 I2 I3]).
  destruct (commit_final s1 b lsz Hpre Hcr) as (F1 & F2 & F3). simpl in F1, F2, F3.
  assert (Hvd : forall m, view b' m = disk b' m) by (intros m; apply (view_clean b' ∅ ∅); set_solver).
  exists (LogState false (lg_start s) (lg_size s) 0 0 (lg_dev s) 0 (lh_block s) (wakeup log_chan b')).
  split_and!; [| |done|done| |].
  - pose proof (lo_lk _ _ _ Hok) as Hl.
    assert (E0 : end_op_enter s = Ret true (set_bio b s1)).
    { unfold end_op_enter, log_acquire, log_release, kbind, kget, kmodify, kret. rewrite Hl. simpl. rewrite Hc, Ho.
      simpl. unfold s1, b. destruct s; simpl in *; by subst. }
    unfold end_op. rewrite (kbind_ret _ _ _ _ _ E0), (kbind_ret _ _ _ _ _ E).
    unfold end_op_finish, log_acquire, log_release, bio, kzoom, kbind, kget, kmodify. simpl. rewrite Hl. simpl.
    by destruct s.
  - constructor; simpl; try done.
    + pose proof Hok as []. constructor; simpl; try done; try lia; [by rewrite I3..|].
      by apply cache_abs_wakeup.
    + by rewrite I2.
    + by rewrite I2, F3.
  - intros m Hm. simpl. change (view (wakeup log_chan b') m) with (view b' m).
    by rewrite Hvd, I2, F1.
  - intros k Hk x. simpl. change (view (wakeup log_chan b') x) with (view b' x).
    destruct (decide (x ∈ homes s (lh_n s))) as [Hx|Hx].
    + rewrite Hvd, I2, F1; [apply Hk|]. apply elem_homes in Hx as (i & -> & Hi). by apply Hok.
    + rewrite Hvd, I2. apply replay_length; [|intros w Hw; by eapply (commit_trace_length s1 b)].
      rewrite <- (view_clean b ∅ (homes s (lh_n s))); [apply Hk|apply Hok|set_solver|done].
Qed.

(** C16: a file-system operation that modifies at most MAXOPBLOCKS distinct
    blocks, on a log with no operation in progress, runs to completion without
    panic or sleep: begin_op admits it, log_write absorbs repeated writes, and
    end_op commits.  Afterwards the log is idle again, and every block outside
    the log has, on disk and in the cache, the contents obtained by applying
    the modifications in order to what the cache showed before. *)
Theorem transaction_applies_writes lsz s ws :
  log_idle lsz s -> MAXOPBLOCKS + 2 <= lsz ->
  (size (list_to_set ws.*1 : gset Z) <= Z.to_nat MAXOPBLOCKS)%nat ->
  (forall w, w ∈ ws -> 0 <= w.1 < disksize (lg_bio s) /\ outside (lg_start s) lsz w.1) ->
  exists s', transaction ws s = Ret tt s' /\ log_idle lsz s' /\
    forall m, outside (lg_start s) lsz m ->
      disk (lg_bio s') m = replay (view (lg_bio s)) ws m /\
      view (lg_bio s') m = replay (view (lg_bio s)) ws m.
Proof.
  intros Hid Hlsz Hcard Hws. pose proof Hid as [Hok Hn Ho Hc Hsize Hhd Hlen].
  set (T := list_to_set ws.*1 : gset Z) in *. change MAXOPBLOCKS with 10 in *.
  destruct (log_updates_spec lsz ws (set_outstanding 1 s) T) as (s1 & E1 & Ok1 & S1 & H1 & V1).
  - destruct Hok. by constructor.
  - done.
  - done.
  - simpl. rewrite Hn. set_solver.
  - change LOGSIZE with 30. lia.
  - lia.
  - intros w Hw. split; [|by apply Hws]. apply elem_of_list_to_set, list_elem_of_fmap. by exists w.
  - destruct S1 as (Sa & Sb & Sc & Sd & [_ Se1 Se2]). simpl in *.
    pose proof (homes_card _ _ _ Ok1) as Hc1. pose proof (subseteq_size _ _ H1).
    destruct (end_op_last lsz s1) as (s2 & E2 & Id2 & Hst & Hsz & Hd & _); try done;
      [change NBUF with 30; pose proof (lo_n _ _ _ Ok1); lia|congruence|by rewrite Sb
      |by rewrite Se1, Sa|by rewrite Se1, Sa|].
    exists s2. split_and!; [|done|].
    + unfold transaction. rewrite (kbind_ret _ _ _ _ _ (begin_op_idle lsz s Hid)).
      by rewrite (kbind_ret _ _ _ _ _ E1).
    + intros m Hm. rewrite Sa in Hd. specialize (Hd m Hm). rewrite V1 in Hd. exact Hd.
Qed.

Definition boot_log (b : bstate) : logstate :=
  LogState false 2 30 0 0 1 0 (replicate (Z.to_nat LOGSIZE) 0) b.

Lemma boot_log_idle :
  exists b, binit (boot_bio (fun _ => replicate 512 0) 1000 1) = Ret tt b /\
    disksize b = 1000 /\ log_idle 30 (boot_log b).
Proof.
  destruct (binit_abs (fun _ => replicate 512 0) 1000 1) as (b & E & A & D & Hz & _).
  exists b. split; [exact E|]. clear E. split; [done|].
  assert (Hok : log_ok 30 (boot_log b) ∅) by (constructor; simpl; rewrite ?Hz; (exact A || done || lia)).
  constructor; simpl; rewrite ?D; [exact Hok|done..|by apply Nat.leb_le].
Qed.

Lemma transaction_applies_writes_witness :
  exists s s', transaction [(40, [1]); (41, [2]); (40, [3])] s = Ret tt s' /\
    disk (lg_bio s') 40 = [3] /\ disk (lg_bio s') 41 = [2].
Proof.
  destruct boot_log_idle as (b & _ & Hz & Hid).
  destruct (transaction_applies_writes 30 (boot_log b) [(40, [1]); (41, [2]); (40, [3])] Hid)
    as (s' & E & _ & Hd).
  - done.
  - by apply Nat.leb_le.
  - simpl. rewrite Hz. intros w Hw. unfold outside.
    repeat (apply elem_of_cons in Hw as [->|Hw]; [simpl; lia|]). by apply not_elem_of_nil in Hw.
  - exists (boot_log b), s'. split; [exact E|]. unfold outside in Hd. simpl in Hd.
    split; [by apply (Hd 40); lia|by apply (Hd 41); lia].
Defined.
