(* ===== verification/LogReserve.v ===== *)
(** * Space reservation in the log (log.c, begin_op and end_op)

    Several file-system calls interleave at the points where log.lock is
    free.  A call that begin_op admitted logs at most [m] blocks; the budgets
    are the ghost state of the step relation.  The call that ends last
    runs commit without the lock, with log.committing set. *)

From S2P Require Import Prelude Layout Sleeplock Bio Bcache Fsdefs Log LogSafe LogOps.

Record config := Config {
  cf_log : logstate;
  cf_budgets : list nat;       (* one per admitted call: blocks it may still log *)
  cf_committer : option bool   (* Some false: a call is to commit; Some true: it has *)
}.

Section Calls.
(** How many blocks a call logs at most. *)
Variable m : Z.

Inductive op_step : config -> config -> Prop :=
| step_begin s s' bs c :
    begin_op s = Ret tt s' ->
    op_step (Config s bs c) (Config s' (Z.to_nat m :: bs) c)
| step_begin_sleeps s s' bs c ch :
    begin_op s = Sleep ch s' ->
    op_step (Config s bs c) (Config s' bs c)
| step_write s s' bs c j k i :
    bs !! j = Some (S k) -> log_write i s = Ret tt s' ->
    op_step (Config s bs c) (Config s' (<[j := k]> bs) c)
| step_end s s' bs c j k :
    bs !! j = Some k -> end_op_enter s = Ret false s' ->
    op_step (Config s bs c) (Config s' (delete j bs) c)
| step_end_last s s' bs c j k :
    bs !! j = Some k -> end_op_enter s = Ret true s' ->
    op_step (Config s bs c) (Config s' (delete j bs) (Some false))
| step_commit s s' bs :
    commit s = Ret tt s' ->
    op_step (Config s bs (Some false)) (Config s' bs (Some true))
| step_finish s s' bs :
    end_op_finish s = Ret tt s' ->
    op_step (Config s bs (Some true)) (Config s' bs None).

Inductive op_steps : config -> config -> Prop :=
| steps_refl c : op_steps c c
| steps_step c1 c2 c3 : op_steps c1 c2 -> op_step c2 c3 -> op_steps c1 c3.

(** ** Which routines leave the bookkeeping alone *)

Definition book (s : logstate) : bool * Z * Z * Z * Z * list Z :=
  (lg_lk s, lg_size s, lg_outstanding s, lg_committing s, lh_n s, lh_block s).

Definition keeps_book {A} (c : K logstate A) : Prop :=
  forall s a t, c s = Ret a t -> book t = book s.

Create HintDb book.

Lemma kb_ret {A} (a : A) : keeps_book (kret a).
Proof. by intros s a' t [= <- <-]. Qed.
Lemma kb_get {A} (f : logstate -> A) : keeps_book (kget f).
Proof. by intros s a' t [= <- <-]. Qed.
Lemma kb_bio {A} (c : K bstate A) : keeps_book (bio c).
Proof. intros s a t. unfold bio, kzoom. destruct (c (lg_bio s)); intros E; by simplify_eq. Qed.
Lemma kb_bind {A B} (c : K logstate A) (k : A -> K logstate B) :
  keeps_book c -> (forall a, keeps_book (k a)) -> keeps_book (kbind c k).
Proof.
  intros Hc Hk s b t. unfold kbind. destruct (c s) eqn:E; intros Ek; simplify_eq.
  apply Hk in Ek. apply Hc in E. congruence.
Qed.
Lemma kb_for {R} n i (body : Z -> K logstate (option R)) :
  (forall j, keeps_book (body j)) -> keeps_book (kfor n i body).
Proof.
  intros Hb. revert i. induction n as [|n IH]; intros i; simpl; [apply kb_ret|].
  apply kb_bind; [apply Hb|]. intros [v|]; [apply kb_ret|apply IH].
Qed.
#[local] Hint Resolve kb_ret kb_get kb_bio kb_bind kb_for : book.

Lemma kb_for_logged body : (forall j, keeps_book (body j)) -> keeps_book (for_logged body).
Proof. intros Hb. unfold for_logged. auto 10 with book. Qed.
Lemma kb_log_bread n : keeps_book (log_bread n).
Proof. unfold log_bread. auto with book. Qed.
#[local] Hint Resolve kb_for_logged kb_log_bread : book.

Lemma kb_install_trans : keeps_book install_trans.
Proof. unfold install_trans, install_block. auto 20 with book. Qed.
Lemma kb_write_log : keeps_book write_log.
Proof. unfold write_log, log_block. auto 20 with book. Qed.
Lemma kb_write_head : keeps_book write_head.
Proof. unfold write_head. auto 20 with book. Qed.

(** commit empties the header and changes nothing else of the bookkeeping. *)
Lemma commit_book s t :
  commit s = Ret tt t -> 0 <= lh_n s ->
  lh_n t = 0 /\ lg_lk t = lg_lk s /\ lg_size t = lg_size s /\
  lg_outstanding t = lg_outstanding s /\ lg_committing t = lg_committing s.
Proof.
  unfold commit. krun. intros E Hn. destruct (Z.ltb_spec 0 (lh_n s)).
  - revert E. unfold kbind at 1. destruct (write_log s) as [[] s1| | |] eqn:E1; try done.
    unfold kbind at 1. destruct (write_head s1) as [[] s2| | |] eqn:E2; try done.
    unfold kbind at 1. destruct (install_trans s2) as [[] s3| | |] eqn:E3; try done. krun. intros E4.
    apply kb_write_log in E1. apply kb_write_head in E2, E4. apply kb_install_trans in E3.
    unfold book in *. simpl in *. naive_solver congruence.
  - injection E as <-. split_and!; (done || lia).
Qed.

(** ** The invariant *)

Definition total (bs : list nat) : nat := foldr Nat.add 0%nat bs.

Record op_inv (c : config) : Prop := {
  oi_lk : lg_lk (cf_log c) = false;
  oi_n : 0 <= lh_n (cf_log c);
  oi_out : lg_outstanding (cf_log c) = Z.of_nat (length (cf_budgets c));
  oi_room : lh_n (cf_log c) + Z.of_nat (total (cf_budgets c)) + (MAXOPBLOCKS - m) * lg_outstanding (cf_log c) <= LOGSIZE;
  oi_each : Forall (fun k => (k <= Z.to_nat m)%nat) (cf_budgets c);
  oi_com : match cf_committer c with
           | None => lg_committing (cf_log c) = 0
           | Some done =>
               lg_committing (cf_log c) = 1 /\ cf_budgets c = [] /\
               (done = true -> lh_n (cf_log c) = 0)
           end
}.

Lemma total_max bs :
  0 <= m -> Forall (fun k => (k <= Z.to_nat m)%nat) bs -> Z.of_nat (total bs) <= Z.of_nat (length bs) * m.
Proof. intros Hm. induction 1; simpl; lia. Qed.

Lemma total_insert bs j k : bs !! j = Some (S k) -> total bs = S (total (<[j := k]> bs)).
Proof.
  revert j. induction bs as [|x bs IH]; intros [|j] Hj; simplify_eq/=; [done|].
  by rewrite (IH j Hj), Nat.add_succ_r.
Qed.
Lemma total_delete bs j k : bs !! j = Some k -> total bs = (k + total (delete j bs))%nat.
Proof.
  revert j. induction bs as [|x bs IH]; intros [|j] Hj; simplify_eq/=; [done|].
  rewrite (IH j Hj). lia.
Qed.

(** begin_op admits a call exactly when no commit is running and the log has
    room for MAXOPBLOCKS blocks of every call; otherwise it sleeps on the log,
    without the lock and with nothing changed. *)
Lemma begin_op_eq s :
  lg_lk s = false ->
  begin_op s =
    if truth (lg_committing s) || (LOGSIZE <? lh_n s + (lg_outstanding s + 1) * MAXOPBLOCKS)
    then Sleep log_chan s
    else Ret tt (set_outstanding (lg_outstanding s + 1) s).
Proof.
  intros Hl. unfold begin_op, log_acquire, log_release, kbind, kget, kmodify, ksleep, id. rewrite Hl. simpl.
  destruct (truth (lg_committing s)); simpl; [by destruct s; simpl in *; subst|].
  destruct (_ <? _); by destruct s; simpl in *; subst.
Qed.

Lemma end_op_enter_eq s :
  lg_lk s = false -> lg_committing s = 0 ->
  end_op_enter s =
    if lg_outstanding s =? 1
    then Ret true (set_committing 1 (set_outstanding 0 s))
    else Ret false (set_bio (wakeup log_chan (lg_bio s)) (set_outstanding (lg_outstanding s - 1) s)).
Proof.
  intros Hl Hc. unfold end_op_enter, log_acquire, log_release, bio, kzoom, kbind, kget, kmodify, kret.
  rewrite Hl. simpl. rewrite Hc. simpl.
  destruct (Z.eqb_spec (lg_outstanding s) 1) as [E|E].
  - rewrite E. simpl. by destruct s; simpl in *; subst.
  - replace (lg_outstanding s - 1 =? 0) with false by lia. simpl. by destruct s; simpl in *; subst.
Qed.

(** log_write, as far as the counters are concerned. *)
Lemma log_write_book i s s' :
  log_write i s = Ret tt s' ->
  lh_n s < LOGSIZE /\ 1 <= lg_outstanding s /\ lg_lk s' = false /\
  lh_n s <= lh_n s' <= lh_n s + 1 /\ lg_outstanding s' = lg_outstanding s /\
  lg_committing s' = lg_committing s.
Proof.
  unfold log_write, log_acquire, log_release, bio, mark_dirty, kzoom, kbind, kget, kmodify, kpanic, id.
  destruct (Z.leb_spec LOGSIZE (lh_n s)); simpl; [done|].
  destruct (Z.leb_spec (lg_size s - 1) (lh_n s)); simpl; [done|].
  destruct (Z.ltb_spec (lg_outstanding s) 1); simpl; [done|].
  destruct (lg_lk s); [done|]. simpl. destruct (_ =? _); simpl; intros [= <-]; simpl; lia || (split_and!; lia || done).
Qed.

Hypothesis m_range : 0 <= m <= MAXOPBLOCKS.

Lemma op_inv_step c1 c2 : op_step c1 c2 -> op_inv c1 -> op_inv c2.
Proof.
  intros Hs [Hl Hn Ho Hr He Hc].
  destruct Hs as [s s' bs c E|s s' bs c ch E|s s' bs c j k i Hj E|s s' bs c j k Hj E
    |s s' bs c j k Hj E|s s' bs E|s s' bs E]; simpl in *.
  - rewrite begin_op_eq in E by done. destruct (truth _) eqn:Et; [done|]. simpl in E.
    destruct (Z.ltb_spec LOGSIZE (lh_n s + (lg_outstanding s + 1) * MAXOPBLOCKS)); simplify_eq.
    pose proof (total_max bs ltac:(lia) He). destruct c as [d|].
    { destruct Hc as (Hc & _). by rewrite Hc in Et. }
    constructor; simpl; try done; [lia| |by constructor]. rewrite Ho in *. nia.
  - rewrite begin_op_eq in E by done. destruct (_ || _); by simplify_eq.
  - apply log_write_book in E as (W1 & W2 & W3 & W4 & W5 & W6).
    apply total_insert in Hj as Ht.
    constructor; simpl; [done|lia|by rewrite length_insert, W5|rewrite W5; lia| |].
    + apply Forall_insert; [done|]. rewrite Forall_lookup in He. apply He in Hj. lia.
    + destruct c as [d|]; [|by rewrite W6]. destruct Hc as (_ & -> & _). done.
  - pose proof (length_delete bs j (mk_is_Some _ _ Hj)). apply total_delete in Hj as Ht.
    destruct c as [d|]; [by destruct Hc as (_ & -> & _)|].
    rewrite end_op_enter_eq in E by done. destruct (Z.eqb_spec (lg_outstanding s) 1); simplify_eq.
    apply lookup_lt_Some in Hj.
    constructor; simpl; try done; [lia|nia|]. by apply Forall_delete.
  - pose proof (length_delete bs j (mk_is_Some _ _ Hj)) as Hd. apply total_delete in Hj as Ht.
    destruct c as [d|]; [by destruct Hc as (_ & -> & _)|].
    rewrite end_op_enter_eq in E by done. destruct (Z.eqb_spec (lg_outstanding s) 1); simplify_eq.
    assert (Hnil : delete j bs = []) by (apply length_zero_iff_nil; lia).
    rewrite Hnil. constructor; simpl; try done. nia.
  - destruct Hc as (Hc & -> & _). apply commit_book in E as (B1 & B2 & B3 & B4 & B5); [|done].
    change LOGSIZE with 30 in *. constructor; simpl in *; rewrite ?B1, ?B2, ?B4, ?B5; try done; try lia. rewrite Ho, Z.mul_0_r. done.
  - destruct Hc as (Hc & -> & Hn0). specialize (Hn0 eq_refl).
    revert E. unfold end_op_finish, log_acquire, log_release, bio, kzoom, kbind, kget, kmodify.
    rewrite Hl. simpl. intros [= <-]. constructor; simpl; try done.
Qed.

Lemma op_inv_steps c1 c2 : op_steps c1 c2 -> op_inv c1 -> op_inv c2.
Proof. induction 1; eauto using op_inv_step. Qed.

(** The log as initlog leaves it: nothing logged, no call in progress. *)
Definition log_fresh (s : logstate) : Prop :=
  lg_lk s = false /\ lh_n s = 0 /\ lg_outstanding s = 0 /\ lg_committing s = 0.

Lemma op_inv_fresh s : log_fresh s -> op_inv (Config s [] None).
Proof. intros (H1 & H2 & H3 & H4). constructor; simpl; try done; [lia|]. rewrite H2, H3, Z.mul_0_r. done. Qed.

(** C17: the reservation of begin_op, however the calls interleave.  With a log area of
    LOGSIZE blocks, which is what mkfs makes, every call that begin_op admits can log
    MAXOPBLOCKS - 1 blocks: log_write returns, it neither panics nor blocks.  With a larger
    log area every call can log MAXOPBLOCKS blocks.  (That MAXOPBLOCKS blocks are one too many
    for the log of mkfs is [log_reservation_off_by_one].) *)
Theorem log_reservation_sufficient s0 c j k i :
  log_fresh s0 -> op_steps (Config s0 [] None) c -> cf_budgets c !! j = Some (S k) ->
  LOGSIZE <= lg_size (cf_log c) -> m < MAXOPBLOCKS \/ LOGSIZE < lg_size (cf_log c) ->
  exists s', log_write i (cf_log c) = Ret tt s'.
Proof using m_range.
  intros Hf Hs Hj Hsz Hm. apply op_inv_steps in Hs; [|by apply op_inv_fresh].
  destruct Hs as [Hl Hn Ho Hr He Hc]. apply total_insert in Hj as Ht. apply lookup_lt_Some in Hj.
  assert (Hroom : lh_n (cf_log c) + 1 + (MAXOPBLOCKS - m) <= LOGSIZE) by nia.
  unfold log_write, log_acquire, log_release, bio, mark_dirty, kzoom, kbind, kget, kmodify, kpanic, id.
  replace (LOGSIZE <=? lh_n (cf_log c)) with false by lia.
  replace (lg_size (cf_log c) - 1 <=? lh_n (cf_log c)) with false by lia.
  replace (lg_outstanding (cf_log c) <? 1) with false by lia. simpl. rewrite Hl. simpl.
  destruct (_ =? _); simpl; eauto.
Qed.

(** A commit never sees the updates of a call in progress.  Whenever
    log.committing is set, no call is outstanding, begin_op admits none (it
    sleeps and changes nothing), and log_write cannot succeed. *)
Theorem commit_excludes_operations s0 c i :
  log_fresh s0 -> op_steps (Config s0 [] None) c -> lg_committing (cf_log c) <> 0 ->
  lg_outstanding (cf_log c) = 0 /\ begin_op (cf_log c) = Sleep log_chan (cf_log c) /\
  exists msg, log_write i (cf_log c) = Panic msg.
Proof using m_range.
  intros Hf Hs Hne. apply op_inv_steps in Hs; [|by apply op_inv_fresh].
  destruct Hs as [Hl Hn Ho Hr He Hc]. destruct (cf_committer c) as [d|]; [|done].
  destruct Hc as (Hc & Hb & _). rewrite Hb in Ho. split_and!; [done| |].
  - rewrite begin_op_eq by done. by rewrite Hc.
  - unfold log_write, kbind, kget, id. rewrite Ho. simpl. destruct (_ || _); eauto.
Qed.

End Calls.

(** Three calls that log [k] blocks in all. *)
Definition three_calls (k : Z) : K logstate unit :=
  begin_op ;; begin_op ;; begin_op ;;
  log_updates ((fun i => (100 + i, [i])) <$> seqZ 0 k).

(** With the log area that mkfs makes, LOGSIZE blocks including the header,
    the reservation is one block short.  begin_op admits three calls at once,
    which is a budget of LOGSIZE blocks; they can log 29 blocks, and logging
    the thirtieth panics. *)
Theorem log_reservation_off_by_one :
  exists b s, binit (boot_bio (fun _ => replicate 512 0) 1000 1) = Ret tt b /\
    lg_size (boot_log b) = LOGSIZE /\ 3 * MAXOPBLOCKS = 30 /\
    three_calls 29 (boot_log b) = Ret tt s /\
    three_calls 30 (boot_log b) = Panic "too big a transaction".
Proof.
  destruct (binit (boot_bio (fun _ => replicate 512 0) 1000 1)) as [[] b| | |] eqn:E; vm_compute in E; try discriminate E.
  injection E as <-. eexists _, _. split; [reflexivity|]. split_and!; [reflexivity|reflexivity| |].
  - vm_compute. reflexivity.
  - vm_compute. reflexivity.
Qed.

(** The log that mkfs makes, LOGSIZE blocks from block 2 on. *)
Definition mkfs_log (b : bstate) : logstate :=
  LogState false 2 LOGSIZE 0 0 1 0 (replicate (Z.to_nat LOGSIZE) 0) b.

(** Two calls are admitted, and the second one logs a block. *)
Lemma log_reservation_sufficient_witness :
  exists s1 s2 s', begin_op (mkfs_log (boot_bio (fun _ => []) 1000 1)) = Ret tt s1 /\ begin_op s1 = Ret tt s2 /\ log_write 0 s2 = Ret tt s'.
Proof.
  set (s0 := mkfs_log (boot_bio (fun _ => []) 1000 1)). set (s1 := set_outstanding 1 s0).
  destruct (log_reservation_sufficient 9 ltac:(done) s0 (Config (set_outstanding 2 s1) [9%nat; 9%nat] None) 0 8 0)
    as [s' E]; [done| |done|done|left; done|].
  - eapply steps_step; [|by apply (step_begin 9 s1)]. eapply steps_step; [constructor|]. by apply (step_begin 9 s0).
  - exists s1, (set_outstanding 2 s1), s'. split; [done|]. split; [done|exact E].
Defined.

Lemma commit_excludes_operations_witness :
  exists s, lg_committing s = 1 /\ begin_op s = Sleep log_chan s.
Proof.
  set (s0 := mkfs_log (boot_bio (fun _ => []) 1000 1)).
  set (s1 := set_outstanding 1 s0). set (s2 := set_committing 1 (set_outstanding 0 s1)).
  destruct (commit_excludes_operations 10 ltac:(done) s0 (Config s2 [] (Some false)) 0) as (_ & E & _); [done| |done|].
  - eapply (steps_step _ _ (Config s1 [10%nat] None)).
    + eapply steps_step; [constructor|]. by apply (step_begin 10 s0).
    + by apply (step_end_last 10 s1 s2 [10%nat] None 0 10).
  - exists s2. split; [done|exact E].
Defined.
