(* ===== verification/Pipe.v ===== *)
(** * Pipes (pipe.c)

    The ring buffer with its free-running 32-bit counters, and the calls that
    use it.  A call runs until it returns or sleeps; sleeping gives p->lock up,
    so other calls interleave there.  wakeup records the channel, and the step
    relation below marks the sleepers of the channel runnable. *)

From S2P Require Import Prelude Layout.

Definition PIPESIZE : Z := 512.

Record pipe := Pipe {
  p_lk : bool;
  p_data : list Z;
  p_nread : Z;
  p_nwrite : Z;
  p_readopen : Z;
  p_writeopen : Z;
  p_woken : list Z     (* channels given to wakeup, in order *)
}.

(** &p->nread and &p->nwrite. *)
Definition nread_chan : Z := 0.
Definition nwrite_chan : Z := 1.

Definition p_set_lk (b : bool) (p : pipe) : pipe :=
  Pipe b (p_data p) (p_nread p) (p_nwrite p) (p_readopen p) (p_writeopen p) (p_woken p).
Definition p_set_open (r w : Z) (p : pipe) : pipe :=
  Pipe (p_lk p) (p_data p) (p_nread p) (p_nwrite p) r w (p_woken p).
Definition p_wakeup (ch : Z) (p : pipe) : pipe :=
  Pipe (p_lk p) (p_data p) (p_nread p) (p_nwrite p) (p_readopen p) (p_writeopen p) (p_woken p ++ [ch]).
(** [p->data[p->nwrite++ % PIPESIZE] = c] *)
Definition p_put (c : Z) (p : pipe) : pipe :=
  Pipe (p_lk p) (<[Z.to_nat (p_nwrite p mod PIPESIZE) := c]> (p_data p)) (p_nread p)
    (u32 (p_nwrite p + 1)) (p_readopen p) (p_writeopen p) (p_woken p).
(** [p->data[p->nread++ % PIPESIZE]] *)
Definition p_peek (p : pipe) : Z := nth (Z.to_nat (p_nread p mod PIPESIZE)) (p_data p) 0.
Definition p_advance (p : pipe) : pipe :=
  Pipe (p_lk p) (p_data p) (u32 (p_nread p + 1)) (p_nwrite p) (p_readopen p) (p_writeopen p) (p_woken p).

Definition p_acquire : K pipe unit :=
  let! held := kget p_lk in
  if held : bool then kpanic "acquire" else kmodify (p_set_lk true).
Definition p_release : K pipe unit :=
  let! held := kget p_lk in
  if held : bool then kmodify (p_set_lk false) else kpanic "release".

(** The part of pipealloc that fills in the pipe. *)
Definition pipe_init (data : list Z) : pipe := Pipe false data 0 0 1 1 [].

(** pipeclose; the answer tells whether the pipe is freed. *)
Definition pipeclose (writable : bool) : K pipe bool :=
  p_acquire ;;
  (if writable then
     kmodify (fun p => p_set_open (p_readopen p) 0 p) ;; kmodify (p_wakeup nread_chan)
   else
     kmodify (fun p => p_set_open 0 (p_writeopen p) p) ;; kmodify (p_wakeup nwrite_chan)) ;;
  let! p := kget id in
  if (p_readopen p =? 0) && (p_writeopen p =? 0) then
    p_release ;; kret true
  else
    p_release ;; kret false.

(** How a passage through the loop of pipewrite ends: everything was copied,
    the call sleeps with the pipe full, or it gives up (-1). *)
Inductive wstat := WAll | WSleep | WFail.

(** The for loop of pipewrite from the bytes that remain. *)
Fixpoint pipewrite_copy (killed : bool) (rest : list Z) : K pipe (wstat * list Z) :=
  match rest with
  | [] => kret (WAll, [])
  | c :: rest' =>
      let! p := kget id in
      if p_nwrite p =? u32 (p_nread p + PIPESIZE) then
        if (p_readopen p =? 0) || killed then
          p_release ;; kret (WFail, rest)
        else
          kmodify (p_wakeup nread_chan) ;;
          p_release ;;                       (* sleep(&p->nwrite, &p->lock) *)
          kret (WSleep, rest)
      else
        kmodify (p_put c) ;;
        pipewrite_copy killed rest'
  end.

(** pipewrite of [rest], from its start or from the wakeup of its sleep: the
    while loop tests its condition again with the lock held. *)
Definition pipewrite (killed : bool) (rest : list Z) : K pipe (wstat * list Z) :=
  p_acquire ;;
  let! r := pipewrite_copy killed rest in
  match r with
  | (WAll, _) =>
      kmodify (p_wakeup nread_chan) ;;
      p_release ;;
      kret r
  | _ => kret r
  end.

(** The value of the call, for a write of [n] bytes. *)
Definition pipewrite_result (n : Z) (r : wstat) : option Z :=
  match r with WAll => Some n | WFail => Some (-1) | WSleep => None end.

(** The copy loop of piperead. *)
Fixpoint piperead_copy (n : nat) : K pipe (list Z) :=
  match n with
  | O => kret []
  | S n' =>
      let! p := kget id in
      if p_nread p =? p_nwrite p then kret []
      else
        kmodify p_advance ;;
        let! l := piperead_copy n' in
        kret (p_peek p :: l)
  end.

Inductive rstat := RBytes (l : list Z) | RSleep | RFail.

(** piperead, from its start or from the wakeup of its sleep.  The value of the
    call is the number of bytes read, or -1. *)
Definition piperead (killed : bool) (n : Z) : K pipe rstat :=
  p_acquire ;;
  let! p := kget id in
  if (p_nread p =? p_nwrite p) && truth (p_writeopen p) then
    if killed then
      p_release ;; kret RFail
    else
      p_release ;; kret RSleep               (* sleep(&p->nread, &p->lock) *)
  else
    let! l := piperead_copy (Z.to_nat n) in
    kmodify (p_wakeup nwrite_chan) ;;
    p_release ;;
    kret (RBytes l).

(** ** The bytes in the pipe *)

Definition p_count (p : pipe) : Z := u32 (p_nwrite p - p_nread p).
Definition contents (p : pipe) : list Z :=
  (fun k => nth (Z.to_nat (u32 (p_nread p + k) mod PIPESIZE)) (p_data p) 0) <$> seqZ 0 (p_count p).

Record pipe_ok (p : pipe) : Prop := {
  po_lk : p_lk p = false;
  po_data : length (p_data p) = Z.to_nat PIPESIZE;
  po_r : 0 <= p_nread p < 4294967296;
  po_w : 0 <= p_nwrite p < 4294967296;
  po_count : p_count p <= PIPESIZE
}.

(** The invariant with the lock held. *)
Definition pipe_in (p : pipe) : Prop := p_lk p = true /\ pipe_ok (p_set_lk false p).

Lemma full_iff p :
  pipe_ok p -> (p_nwrite p =? u32 (p_nread p + PIPESIZE)) = (p_count p =? PIPESIZE).
Proof.
  intros [_ _ Hr Hw Hc]. unfold p_count, PIPESIZE in *.
  destruct (Z.eqb_spec (p_nwrite p) (u32 (p_nread p + 512))), (Z.eqb_spec (u32 (p_nwrite p - p_nread p)) 512);
    try done; dlia.
Qed.

Lemma empty_iff p : pipe_ok p -> (p_nread p =? p_nwrite p) = (p_count p =? 0).
Proof.
  intros [_ _ Hr Hw Hc]. unfold p_count in *.
  destruct (Z.eqb_spec (p_nread p) (p_nwrite p)), (Z.eqb_spec (u32 (p_nwrite p - p_nread p)) 0); try done; dlia.
Qed.

Lemma count_range p : 0 <= p_count p < 4294967296.
Proof. apply u32_range. Qed.

Lemma length_contents p : length (contents p) = Z.to_nat (p_count p).
Proof. unfold contents. by rewrite length_fmap, length_seqZ. Qed.

Lemma put_ok p c :
  pipe_ok p -> p_count p < PIPESIZE -> pipe_ok (p_put c p) /\ p_count (p_put c p) = p_count p + 1.
Proof.
  intros [Hl Hd Hr Hw Hc] Hlt. unfold p_count, PIPESIZE in *.
  assert (E : u32 (u32 (p_nwrite p + 1) - p_nread p) = u32 (p_nwrite p - p_nread p) + 1) by dlia.
  split; [|done]. constructor; simpl; try done; [by rewrite length_insert|apply u32_range|].
  unfold p_count. simpl. unfold PIPESIZE. lia.
Qed.

(** Two places of the ring are the same only if the counters agree: 512
    divides 2^32, so this also holds when a counter wraps around. *)
Lemma ring_index (r : Z) (k n : Z) :
  0 <= k < n -> n < PIPESIZE ->
  Z.to_nat (u32 (r + n) mod PIPESIZE) <> Z.to_nat (u32 (r + k) mod PIPESIZE).
Proof. intros Hk Hn. unfold PIPESIZE in *. dlia. Qed.

Lemma put_contents p c :
  pipe_ok p -> p_count p < PIPESIZE -> contents (p_put c p) = contents p ++ [c].
Proof.
  intros Hok Hlt. destruct (put_ok p c Hok Hlt) as [_ E]. pose proof Hok as [Hl Hd Hr Hw Hc].
  pose proof (count_range p).
  unfold contents. rewrite E, seqZ_snoc, fmap_app by lia. simpl.
  assert (Ei : u32 (p_nread p + p_count p) = p_nwrite p) by (unfold p_count in *; dlia).
  f_equal.
  - apply list_fmap_ext. intros ? k Hk%list_elem_of_lookup_2%elem_of_seqZ.
    apply nth_insert_ne. rewrite <- Ei. apply ring_index; lia.
  - f_equal. rewrite Ei. apply nth_insert_eq. rewrite Hd. unfold PIPESIZE. dlia.
Qed.

Lemma advance_ok p :
  pipe_ok p -> 0 < p_count p ->
  pipe_ok (p_advance p) /\ p_count (p_advance p) = p_count p - 1 /\
  contents p = p_peek p :: contents (p_advance p).
Proof.
  intros [Hl Hd Hr Hw Hc] Hlt.
  assert (E : p_count (p_advance p) = p_count p - 1) by (unfold p_count in *; simpl; dlia).
  split_and!; [|done|].
  - constructor; simpl; try done; [apply u32_range|lia].
  - unfold contents. rewrite E, (seqZ_cons 0) by lia. simpl. f_equal.
    + unfold p_peek. by rewrite Z.add_0_r, u32_small.
    + rewrite <- (fmap_add_seqZ 1 0), <- list_fmap_compose.
      replace (Z.pred (p_count p)) with (p_count p - 1) by lia.
      apply list_fmap_ext. intros ? k _. simpl. f_equal. f_equal. f_equal.
      rewrite u32_add_l. f_equal. lia.
Qed.

(** ** What one passage through a call does *)

Lemma pipe_in_ok p : pipe_in p -> pipe_ok (p_set_lk false p).
Proof. by intros [_ ?]. Qed.

Lemma p_acquire_eq p : p_lk p = false -> p_acquire p = Ret tt (p_set_lk true p).
Proof. intros H. unfold p_acquire, kbind, kget. by rewrite H. Qed.
Lemma p_release_eq p : p_lk p = true -> p_release p = Ret tt (p_set_lk false p).
Proof. intros H. unfold p_release, kbind, kget. by rewrite H. Qed.

Definition same_ends (p p' : pipe) : Prop :=
  p_readopen p' = p_readopen p /\ p_writeopen p' = p_writeopen p.

Definition copy_post (killed : bool) (p : pipe) (st : wstat) (rest' : list Z) (p' : pipe) : Prop :=
  match st with
  | WAll => rest' = [] /\ pipe_in p' /\ p_woken p' = p_woken p
  | WSleep => pipe_ok p' /\ p_count p' = PIPESIZE /\ p_readopen p <> 0 /\ killed = false /\
      rest' <> [] /\ p_woken p' = p_woken p ++ [nread_chan]
  | WFail => pipe_ok p' /\ p_count p' = PIPESIZE /\ (p_readopen p = 0 \/ killed = true) /\
      rest' <> [] /\ p_woken p' = p_woken p
  end.

Lemma pipewrite_copy_spec killed rest : forall p,
  pipe_in p ->
  exists st rest' p' acc, pipewrite_copy killed rest p = Ret (st, rest') p' /\
    rest = acc ++ rest' /\ contents p' = contents p ++ acc /\ same_ends p p' /\
    copy_post killed p st rest' p'.
Proof.
  induction rest as [|c rest IH]; intros p Hin.
  - exists WAll, [], p, []. simpl. rewrite app_nil_r. done.
  - pose proof Hin as [Hl Hok]. simpl. unfold kbind, kget, id.
    pose proof (full_iff _ Hok) as Hf. simpl in Hf. rewrite Hf.
    change (p_count (p_set_lk false p)) with (p_count p) in *.
    destruct (Z.eqb_spec (p_count p) PIPESIZE) as [Efull|Efull].
    + destruct ((p_readopen p =? 0) || killed) eqn:Er.
      * exists WFail, (c :: rest), (p_set_lk false p), []. rewrite p_release_eq by done.
        rewrite app_nil_r. split_and!; try done. simpl. split_and!; try done.
        apply orb_true_iff in Er as [Er%Z.eqb_eq| ->]; [by left|by right].
      * apply orb_false_iff in Er as [Er%Z.eqb_neq ->].
        exists WSleep, (c :: rest), (p_set_lk false (p_wakeup nread_chan p)), [].
        unfold kmodify. rewrite p_release_eq by done. rewrite app_nil_r. by destruct Hok.
    + pose proof (po_count _ Hok) as Hc. change (p_count (p_set_lk false p)) with (p_count p) in Hc.
      destruct (put_ok (p_set_lk false p) c Hok) as [Hok' Hcnt];
        [change (p_count (p_set_lk false p)) with (p_count p); lia|].
      pose proof (put_contents (p_set_lk false p) c Hok) as Hct.
      change (p_count (p_set_lk false p)) with (p_count p) in Hct. specialize (Hct ltac:(lia)).
      destruct (IH (p_put c p)) as (st & rest' & p' & acc & E & -> & Ec & Es & Hp); [by split|].
      exists st, rest', p', (c :: acc). unfold kmodify. split_and!; try done.
      rewrite Ec. change (contents (p_put c p)) with (contents (p_put c (p_set_lk false p))).
      rewrite Hct. change (contents (p_set_lk false p)) with (contents p). by rewrite <- app_assoc.
Qed.

Definition write_post (killed : bool) (p : pipe) (st : wstat) (rest' : list Z) (p' : pipe) : Prop :=
  match st with
  | WAll => rest' = [] /\ p_woken p' = p_woken p ++ [nread_chan]
  | WSleep => p_count p' = PIPESIZE /\ p_readopen p <> 0 /\ killed = false /\
      rest' <> [] /\ p_woken p' = p_woken p ++ [nread_chan]
  | WFail => p_count p' = PIPESIZE /\ (p_readopen p = 0 \/ killed = true) /\
      rest' <> [] /\ p_woken p' = p_woken p
  end.

Lemma pipewrite_spec killed rest p :
  pipe_ok p ->
  exists st rest' p' acc, pipewrite killed rest p = Ret (st, rest') p' /\ pipe_ok p' /\
    rest = acc ++ rest' /\ contents p' = contents p ++ acc /\ same_ends p p' /\
    write_post killed p st rest' p'.
Proof.
  intros Hok. unfold pipewrite. rewrite (kbind_ret _ _ _ _ _ (p_acquire_eq p (po_lk _ Hok))).
  destruct (pipewrite_copy_spec killed rest (p_set_lk true p)) as (st & rest' & p' & acc & E & Er & Ec & Es & Hp).
  { split; [done|]. by destruct Hok. }
  rewrite (kbind_ret _ _ _ _ _ E). destruct st; simpl in Hp.
  - destruct Hp as (-> & [Hl Hok'] & Hw).
    exists WAll, [], (p_set_lk false (p_wakeup nread_chan p')), acc.
    krun. rewrite (kbind_ret _ _ _ _ _ (p_release_eq (p_wakeup nread_chan p') Hl)).
    split_and!; try done; [by destruct Hok'|]. simpl. by rewrite Hw.
  - destruct Hp as (Hok' & Hp). exists WSleep, rest', p', acc. done.
  - destruct Hp as (Hok' & Hp). exists WFail, rest', p', acc. done.
Qed.

Lemma piperead_copy_spec n : forall p,
  pipe_in p ->
  exists l p', piperead_copy n p = Ret l p' /\ pipe_in p' /\ contents p = l ++ contents p' /\
    length l = Nat.min n (length (contents p)) /\ same_ends p p' /\ p_woken p' = p_woken p.
Proof.
  induction n as [|n IH]; intros p Hin; [exists [], p; done|].
  pose proof Hin as [Hl Hok]. simpl. unfold kbind, kget, id.
  pose proof (empty_iff _ Hok) as He. simpl in He. rewrite He.
  change (p_count (p_set_lk false p)) with (p_count p) in *. pose proof (count_range p).
  destruct (Z.eqb_spec (p_count p) 0) as [E0|E0].
  - exists [], p. split_and!; try done. rewrite length_contents, E0. simpl. lia.
  - destruct (advance_ok (p_set_lk false p) Hok) as (Hok' & Hcnt & Hct);
      [change (p_count (p_set_lk false p)) with (p_count p); lia|].
    destruct (IH (p_advance p)) as (l & p' & E & Hin' & Ec & El & Es & Hw); [by split|].
    unfold kmodify. rewrite E. exists (p_peek p :: l), p'.
    change (contents (p_set_lk false p)) with (contents p) in Hct.
    change (contents (p_advance (p_set_lk false p))) with (contents (p_advance p)) in Hct.
    split_and!; try done; [by rewrite Hct, Ec|]. rewrite Hct. simpl. by rewrite El.
Qed.

Lemma piperead_spec killed n p :
  pipe_ok p ->
  exists r p', piperead killed n p = Ret r p' /\ pipe_ok p' /\ same_ends p p' /\
    match r with
    | RBytes l => contents p = l ++ contents p' /\ length l = Nat.min (Z.to_nat n) (length (contents p)) /\
        p_woken p' = p_woken p ++ [nwrite_chan] /\ (contents p <> [] \/ p_writeopen p = 0)
    | RSleep => p' = p /\ contents p = [] /\ p_writeopen p <> 0 /\ killed = false
    | RFail => p' = p /\ killed = true
    end.
Proof.
  intros Hok. unfold piperead. rewrite (kbind_ret _ _ _ _ _ (p_acquire_eq p (po_lk _ Hok))). krun. unfold id.
  change (p_nread (p_set_lk true p)) with (p_nread p). change (p_nwrite (p_set_lk true p)) with (p_nwrite p).
  change (p_writeopen (p_set_lk true p)) with (p_writeopen p).
  assert (Hid : p_set_lk false (p_set_lk true p) = p) by (destruct Hok; destruct p; simpl in *; by subst).
  rewrite empty_iff by done. pose proof (length_contents p) as Hlen. pose proof (count_range p).
  destruct ((p_count p =? 0) && truth (p_writeopen p)) eqn:Eb.
  - apply andb_true_iff in Eb as [E0%Z.eqb_eq Ew]. unfold truth in Ew. apply negb_true_iff, Z.eqb_neq in Ew.
    rewrite E0 in Hlen. apply length_zero_iff_nil in Hlen.
    destruct killed; rewrite (kbind_ret _ _ _ _ _ (p_release_eq (p_set_lk true p) eq_refl)), Hid.
    + exists RFail, p. done.
    + exists RSleep, p. done.
  - destruct (piperead_copy_spec (Z.to_nat n) (p_set_lk true p)) as (l & p' & E & [Hl Hok'] & Ec & El & Es & Hw).
    { split; [done|]. by destruct Hok. }
    rewrite (kbind_ret _ _ _ _ _ E). krun.
    rewrite (kbind_ret _ _ _ _ _ (p_release_eq (p_wakeup nwrite_chan p') Hl)).
    exists (RBytes l), (p_set_lk false (p_wakeup nwrite_chan p')). split_and!; try done; [by destruct Hok'| |].
    + simpl. by rewrite Hw.
    + apply andb_false_iff in Eb as [E0%Z.eqb_neq|Ew]; [left|right].
      * intros En. rewrite En in Hlen. simpl in Hlen. lia.
      * unfold truth in Ew. by apply negb_false_iff, Z.eqb_eq in Ew.
Qed.
