(* ===== verification/PipeSys.v ===== *)
(** * Readers and writers of a pipe

    Any number of pipewrite and piperead calls interleave at their sleeps.  A
    call in progress holds its descriptor, so the end it uses is not closed
    under it (file.c counts the references). *)

From S2P Require Import Prelude Layout Pipe.

Record psys := PSys {
  ps_pipe : pipe;
  ps_ws : list (list Z * bool);   (* sleeping writes: bytes left, and whether woken *)
  ps_rs : list (Z * bool);        (* sleeping reads: bytes wanted, and whether woken *)
  ps_in : list Z;                 (* bytes accepted so far *)
  ps_out : list Z                 (* bytes delivered so far *)
}.

Definition p_clear (p : pipe) : pipe :=
  Pipe (p_lk p) (p_data p) (p_nread p) (p_nwrite p) (p_readopen p) (p_writeopen p) [].

(** The wakeups of a passage reach the sleepers of their channels. *)
Definition wake_all {A} (ch : Z) (woken : list Z) (l : list (A * bool)) : list (A * bool) :=
  if bool_decide (ch ∈ woken) then (fun x => (x.1, true)) <$> l else l.

Definition after_write (p' : pipe) (ws : list (list Z * bool)) (rs : list (Z * bool)) (i o : list Z)
    (bytes : list Z) (r : wstat * list Z) : psys :=
  let ws' := wake_all nwrite_chan (p_woken p') ws in
  PSys (p_clear p') (match r.1 with WSleep => ws' ++ [(r.2, false)] | _ => ws' end)
    (wake_all nread_chan (p_woken p') rs) (i ++ take (length bytes - length r.2) bytes) o.

Definition after_read (p' : pipe) (ws : list (list Z * bool)) (rs : list (Z * bool)) (i o : list Z)
    (n : Z) (r : rstat) : psys :=
  let rs' := wake_all nread_chan (p_woken p') rs in
  PSys (p_clear p') (wake_all nwrite_chan (p_woken p') ws)
    (match r with RSleep => rs' ++ [(n, false)] | _ => rs' end) i
    (match r with RBytes l => o ++ l | _ => o end).

(** [kills] says whether processes may be killed while they use the pipe. *)
Inductive pipe_step (kills : bool) : psys -> psys -> Prop :=
| ps_write p p' ws rs i o killed bytes r :
    (killed = true -> kills = true) -> p_writeopen p <> 0 ->
    pipewrite killed bytes p = Ret r p' ->
    pipe_step kills (PSys p ws rs i o) (after_write p' ws rs i o bytes r)
| ps_write_again p p' ws rs i o killed bytes r j :
    (killed = true -> kills = true) -> ws !! j = Some (bytes, true) ->
    pipewrite killed bytes p = Ret r p' ->
    pipe_step kills (PSys p ws rs i o) (after_write p' (delete j ws) rs i o bytes r)
| ps_read p p' ws rs i o killed n r :
    (killed = true -> kills = true) -> p_readopen p <> 0 ->
    piperead killed n p = Ret r p' ->
    pipe_step kills (PSys p ws rs i o) (after_read p' ws rs i o n r)
| ps_read_again p p' ws rs i o killed n r j :
    (killed = true -> kills = true) -> rs !! j = Some (n, true) ->
    piperead killed n p = Ret r p' ->
    pipe_step kills (PSys p ws rs i o) (after_read p' ws (delete j rs) i o n r)
| ps_close_write p p' rs i o :
    p_writeopen p <> 0 -> pipeclose true p = Ret false p' ->
    pipe_step kills (PSys p [] rs i o) (PSys (p_clear p') [] (wake_all nread_chan (p_woken p') rs) i o)
| ps_close_read p p' ws i o :
    p_readopen p <> 0 -> pipeclose false p = Ret false p' ->
    pipe_step kills (PSys p ws [] i o) (PSys (p_clear p') (wake_all nwrite_chan (p_woken p') ws) [] i o).

Inductive pipe_steps (kills : bool) : psys -> psys -> Prop :=
| pipe_steps_refl s : pipe_steps kills s s
| pipe_steps_step s1 s2 s3 : pipe_steps kills s1 s2 -> pipe_step kills s2 s3 -> pipe_steps kills s1 s3.

Definition psys_init (data : list Z) : psys := PSys (pipe_init data) [] [] [] [].

(** ** First in, first out *)

Record fifo_inv (s : psys) : Prop := {
  fi_ok : pipe_ok (ps_pipe s);
  fi_woken : p_woken (ps_pipe s) = [];
  fi_fifo : ps_in s = ps_out s ++ contents (ps_pipe s)
}.

Lemma pipe_ok_clear p : pipe_ok p -> pipe_ok (p_clear p).
Proof. by intros []. Qed.

Lemma take_acc (acc rest : list Z) : take (length (acc ++ rest) - length rest) (acc ++ rest) = acc.
Proof. rewrite length_app, Nat.add_sub. apply take_app_length. Qed.

Lemma pipeclose_spec w p :
  pipe_ok p ->
  pipeclose w p =
    let p' := if w then p_wakeup nread_chan (p_set_open (p_readopen p) 0 p)
              else p_wakeup nwrite_chan (p_set_open 0 (p_writeopen p) p) in
    Ret ((p_readopen p' =? 0) && (p_writeopen p' =? 0)) p'.
Proof.
  intros Hok. unfold pipeclose. rewrite (kbind_ret _ _ _ _ _ (p_acquire_eq p (po_lk _ Hok))).
  pose proof (po_lk _ Hok) as Hl. unfold p_release, kbind, kget, kmodify, id, kret.
  destruct p; simpl in *; subst. destruct w; simpl; by case_match.
Qed.

Lemma after_write_fifo p p' ws ws' rs i o killed bytes r :
  fifo_inv (PSys p ws rs i o) -> pipewrite killed bytes p = Ret r p' ->
  fifo_inv (after_write p' ws' rs i o bytes r).
Proof.
  intros [Hok _ Hf] E. simpl in *.
  destruct (pipewrite_spec killed bytes p Hok) as (st & rest' & p1 & acc & E1 & Hok1 & Hb & Hc & _).
  rewrite E in E1. simplify_eq. unfold after_write. constructor; simpl; [by apply pipe_ok_clear|done|].
  rewrite take_acc. change (contents (p_clear p1)) with (contents p1). by rewrite Hc, <- !app_assoc.
Qed.

Lemma after_read_fifo p p' ws rs rs' i o killed n r :
  fifo_inv (PSys p ws rs i o) -> piperead killed n p = Ret r p' ->
  fifo_inv (after_read p' ws rs' i o n r).
Proof.
  intros [Hok _ Hf] E. simpl in *.
  destruct (piperead_spec killed n p Hok) as (r1 & p1 & E1 & Hok1 & _ & Hr).
  rewrite E in E1. simplify_eq. unfold after_read. constructor; simpl; [by apply pipe_ok_clear|done|].
  change (contents (p_clear p1)) with (contents p1). destruct r1 as [l| |].
  - destruct Hr as (Hc & _). by rewrite Hc, app_assoc.
  - by destruct Hr as (-> & _).
  - by destruct Hr as (-> & _).
Qed.

Lemma fifo_step kills s s' : pipe_step kills s s' -> fifo_inv s -> fifo_inv s'.
Proof.
  intros Hs Hi.
  destruct Hs as [? ? ? ? ? ? ? ? ? _ _ E|? ? ? ? ? ? ? ? ? ? _ _ E|? ? ? ? ? ? ? ? ? _ _ E
    |? ? ? ? ? ? ? ? ? ? _ _ E|p p' rs i o _ E|p p' ws i o _ E].
  - by eapply after_write_fifo.
  - by eapply after_write_fifo.
  - by eapply after_read_fifo.
  - by eapply after_read_fifo.
  - destruct Hi as [Hok _ Hf]. simpl in *. rewrite pipeclose_spec in E by done. simpl in E. simplify_eq.
    constructor; simpl; try done. by destruct Hok.
  - destruct Hi as [Hok _ Hf]. simpl in *. rewrite pipeclose_spec in E by done. simpl in E. simplify_eq.
    constructor; simpl; try done. by destruct Hok.
Qed.

Lemma pipe_init_ok data : length data = Z.to_nat PIPESIZE -> fifo_inv (psys_init data).
Proof. intros H. constructor; [by constructor|done|done]. Qed.

Lemma fifo_steps kills s s' : pipe_steps kills s s' -> fifo_inv s -> fifo_inv s'.
Proof. induction 1; eauto using fifo_step. Qed.

(** C27: a pipe is a bounded first-in first-out queue.  In every interleaving
    of writes, reads and closes, including killed processes and the wrap-around
    of the two 32-bit counters, the bytes delivered to readers followed by the
    bytes in the ring are exactly the bytes accepted from writers, in order,
    and the ring never holds more than PIPESIZE bytes. *)
Theorem pipe_fifo kills data s :
  length data = Z.to_nat PIPESIZE -> pipe_steps kills (psys_init data) s ->
  ps_in s = ps_out s ++ contents (ps_pipe s) /\
  (length (contents (ps_pipe s)) <= Z.to_nat PIPESIZE)%nat.
Proof.
  intros Hd Hs. apply fifo_steps in Hs as [Hok _ Hf]; [|by apply pipe_init_ok].
  split; [done|]. rewrite length_contents. pose proof (po_count _ Hok). pose proof (count_range (ps_pipe s)). lia.
Qed.

(** ** No wakeup is lost *)

Record wake_inv (s : psys) : Prop := {
  wi_fifo : fifo_inv s;
  wi_rs : forall n, (n, false) ∈ ps_rs s -> contents (ps_pipe s) = [] /\ p_writeopen (ps_pipe s) <> 0;
  wi_ws : forall b, (b, false) ∈ ps_ws s ->
    p_count (ps_pipe s) = PIPESIZE /\ p_readopen (ps_pipe s) <> 0;
  wi_closed_r : p_readopen (ps_pipe s) = 0 -> ps_rs s = [];
  wi_closed_w : p_writeopen (ps_pipe s) = 0 -> ps_ws s = []
}.

Lemma wake_all_in {A} ch woken (l : list (A * bool)) x :
  (x, false) ∈ wake_all ch woken l -> ch ∉ woken /\ (x, false) ∈ l.
Proof.
  unfold wake_all. case_bool_decide; [|done].
  intros (y & Ey & _)%list_elem_of_fmap. done.
Qed.

Lemma wake_all_nil {A} ch woken (l : list (A * bool)) : l = [] -> wake_all ch woken l = [].
Proof. intros ->. unfold wake_all. by case_bool_decide. Qed.

Lemma full_nonempty p : p_count p = PIPESIZE -> contents p <> [].
Proof. intros E En. pose proof (length_contents p) as Hl. by rewrite En, E in Hl. Qed.

Lemma after_write_wake p p' ws ws' rs i o bytes r :
  wake_inv (PSys p ws rs i o) -> (forall x, x ∈ ws' -> x ∈ ws) -> p_writeopen p <> 0 ->
  pipewrite false bytes p = Ret r p' -> wake_inv (after_write p' ws' rs i o bytes r).
Proof.
  intros [Hf HR HW HcR HcW] Hsub Hopen E. pose proof Hf as [Hok Hwk _]. simpl in *.
  destruct (pipewrite_spec false bytes p Hok) as (st & rest' & p1 & acc & E1 & Hok1 & Hb & Hc & [Er Ew] & Hp).
  rewrite E in E1. simplify_eq.
  assert (Hlen : p_count p = PIPESIZE -> p_count p1 = PIPESIZE).
  { intros Ef. pose proof (po_count _ Hok1). pose proof (length_contents p1) as L1. pose proof (length_contents p) as L0.
    rewrite Hc, length_app in L1. pose proof (count_range p). pose proof (count_range p1). unfold PIPESIZE in *. lia. }
  constructor; [by eapply after_write_fifo| | | |].
  - intros n Hn. simpl in *. apply wake_all_in in Hn as [Hnw Hn]. destruct st; simpl in Hp.
    + destruct Hp as (_ & Hp). rewrite Hp in Hnw. set_solver.
    + destruct Hp as (_ & _ & _ & _ & Hp). rewrite Hp in Hnw. set_solver.
    + destruct Hp as (_ & [H0|H0] & _); [|done]. apply HcR in H0. rewrite H0 in Hn. by apply not_elem_of_nil in Hn.
  - simpl. intros b Hb.
    assert ((b, false) ∈ wake_all nwrite_chan (p_woken p1) ws' \/ (st = WSleep /\ b = rest')) as [Hb'|[-> ->]].
    { destruct st; simpl in Hb; try (by left). apply elem_of_app in Hb as [Hb|Hb%list_elem_of_singleton]; [by left|].
      right. by simplify_eq. }
    + apply wake_all_in in Hb' as [_ Hb']. apply Hsub, HW in Hb' as [H1 H2]. rewrite Er. split; [|done].
      by apply Hlen.
    + simpl in Hp. rewrite Er. by destruct Hp as (? & ? & _).
  - simpl. rewrite Er. intros H0. by apply wake_all_nil, HcR.
  - simpl. by rewrite Ew.
Qed.

Lemma after_read_wake p p' ws rs rs' i o n r :
  wake_inv (PSys p ws rs i o) -> (forall x, x ∈ rs' -> x ∈ rs) -> p_readopen p <> 0 ->
  piperead false n p = Ret r p' -> wake_inv (after_read p' ws rs' i o n r).
Proof.
  intros [Hf HR HW HcR HcW] Hsub Hopen E. pose proof Hf as [Hok Hwk _]. simpl in *.
  destruct (piperead_spec false n p Hok) as (r1 & p1 & E1 & Hok1 & [Er Ew] & Hr).
  rewrite E in E1. simplify_eq.
  constructor; [by eapply after_read_fifo| | | |].
  - simpl. intros m Hm. change (contents (p_clear p1)) with (contents p1). rewrite Ew.
    assert ((m, false) ∈ rs' \/ (r1 = RSleep)) as [Hm'|Hs].
    { destruct r1; [left|by right|left]; by apply wake_all_in in Hm as [_ Hm]. }
    + apply Hsub, HR in Hm' as [H0 H1]. split; [|done]. destruct r1 as [l| |].
      * destruct Hr as (Hc & _). rewrite H0 in Hc. by destruct l.
      * by destruct Hr as (-> & _).
      * by destruct Hr as (-> & _).
    + rewrite Hs in Hr. by destruct Hr as (-> & ? & ? & _).
  - simpl. intros b [Hnw Hb]%wake_all_in. change (p_count (p_clear p1)) with (p_count p1). rewrite Er.
    destruct r1 as [l| |].
    + destruct Hr as (_ & _ & Hw & _). rewrite Hw in Hnw. set_solver.
    + destruct Hr as (-> & _). by apply (HW b).
    + destruct Hr as (-> & _). by apply (HW b).
  - simpl. by rewrite Er.
  - simpl. rewrite Ew. intros H0. by apply wake_all_nil, HcW.
Qed.

Lemma wake_step s s' : pipe_step false s s' -> wake_inv s -> wake_inv s'.
Proof.
  intros Hs Hi. assert (Hf' : fifo_inv s') by (eapply fifo_step, wi_fifo; done).
  destruct Hs as [p p' ws rs i o killed bytes r Hk Ho E|p p' ws rs i o killed bytes r j Hk Hj E
    |p p' ws rs i o killed n r Hk Ho E|p p' ws rs i o killed n r j Hk Hj E
    |p p' rs i o Ho E|p p' ws i o Ho E].
  - destruct killed; [by discriminate Hk|]. by eapply after_write_wake.
  - destruct killed; [by discriminate Hk|]. eapply after_write_wake; [exact Hi| | |exact E].
    + intros x. apply list_elem_of_delete_inv.
    + intros H0. apply (wi_closed_w _ Hi) in H0. simpl in H0. by rewrite H0 in Hj.
  - destruct killed; [by discriminate Hk|]. by eapply after_read_wake.
  - destruct killed; [by discriminate Hk|]. eapply after_read_wake; [exact Hi| | |exact E].
    + intros x. apply list_elem_of_delete_inv.
    + intros H0. apply (wi_closed_r _ Hi) in H0. simpl in H0. by rewrite H0 in Hj.
  - destruct Hi as [[Hok Hwk Hf] HR HW HcR HcW]. simpl in *. rewrite pipeclose_spec in E by done. simpl in E. simplify_eq.
    constructor; simpl; [done| | | |done].
    + intros n [Hnw _]%wake_all_in. rewrite Hwk in Hnw. set_solver.
    + intros b Hb. by apply not_elem_of_nil in Hb.
    + intros H0. by apply wake_all_nil, HcR.
  - destruct Hi as [[Hok Hwk Hf] HR HW HcR HcW]. simpl in *. rewrite pipeclose_spec in E by done. simpl in E. simplify_eq.
    constructor; simpl; [done| | |done|].
    + intros n Hn. by apply not_elem_of_nil in Hn.
    + intros b [Hnw _]%wake_all_in. rewrite Hwk in Hnw. set_solver.
    + intros H0. by apply wake_all_nil, HcW.
Qed.

Lemma wake_steps s s' : pipe_steps false s s' -> wake_inv s -> wake_inv s'.
Proof. induction 1; eauto using wake_step. Qed.

Lemma wake_init data : length data = Z.to_nat PIPESIZE -> wake_inv (psys_init data).
Proof.
  intros H. constructor; [by apply pipe_init_ok|..]; simpl; try done; intros x Hx; by apply not_elem_of_nil in Hx.
Qed.

(** C28: no wakeup is lost as long as no process is killed in the middle of a
    call.  A reader that sleeps and has not been woken sleeps on an empty pipe
    that can still be written, a writer on a full pipe that can still be read;
    so a reader and a writer never wait for each other. *)
Theorem pipe_no_lost_wakeup data s :
  length data = Z.to_nat PIPESIZE -> pipe_steps false (psys_init data) s ->
  (forall n, (n, false) ∈ ps_rs s -> contents (ps_pipe s) = [] /\ p_writeopen (ps_pipe s) <> 0) /\
  (forall b, (b, false) ∈ ps_ws s -> length (contents (ps_pipe s)) = Z.to_nat PIPESIZE /\
     p_readopen (ps_pipe s) <> 0) /\
  ~ (exists n b, (n, false) ∈ ps_rs s /\ (b, false) ∈ ps_ws s).
Proof.
  intros Hd Hs. apply wake_steps in Hs as [_ HR HW _ _]; [|by apply wake_init]. split_and!; [done| |].
  - intros b Hb. rewrite length_contents. by destruct (HW b Hb) as [-> ?].
  - intros (n & b & Hn & Hb). apply HR in Hn as [Hn _]. apply HW in Hb as [Hb _]. by apply full_nonempty in Hb.
Qed.

(** A write by a killed process can lose a wakeup.  With a reader asleep
    on the empty pipe, a killed process that writes more than PIPESIZE bytes
    fills the pipe and returns -1 without calling wakeup: the reader stays
    asleep with PIPESIZE bytes waiting. *)
Theorem pipe_killed_writer_loses_wakeup :
  exists s, pipe_steps true (psys_init (replicate 512 0)) s /\
    ps_rs s = [(1, false)] /\ length (contents (ps_pipe s)) = 512%nat.
Proof.
  set (p0 := pipe_init (replicate 512 0)).
  destruct (pipewrite true (replicate 513 7) p0) as [r p| | |] eqn:E; vm_compute in E; try discriminate E.
  injection E as <- <-. eexists. split_and!.
  - eapply pipe_steps_step.
    + eapply pipe_steps_step; [apply pipe_steps_refl|].
      by apply (ps_read true p0 p0 [] [] [] [] false 1 RSleep).
    + eapply (ps_write true p0 _ [] _ [] [] true (replicate 513 7)); [done|done|].
      vm_compute. reflexivity.
  - vm_compute. reflexivity.
  - vm_compute. reflexivity.
Qed.

Lemma pipe_fifo_witness :
  exists s, pipe_steps true (psys_init (replicate 512 0)) s /\
    ps_in s = [1; 2; 3] /\ ps_out s = [1; 2] /\ ps_in s = ps_out s ++ contents (ps_pipe s).
Proof.
  set (p0 := pipe_init (replicate 512 0)).
  assert (exists s, pipe_steps true (psys_init (replicate 512 0)) s /\ ps_in s = [1; 2; 3] /\ ps_out s = [1; 2])
    as (s & H & Hi & Ho).
  { eexists. split.
    - eapply pipe_steps_step; [eapply pipe_steps_step; [apply pipe_steps_refl|]|].
      + by apply (ps_write true p0 (p_wakeup nread_chan (p_put 3 (p_put 2 (p_put 1 p0)))) [] [] [] [] false
          [1; 2; 3] (WAll, [])).
      + eapply (ps_read true _ _ _ _ _ _ false 2 (RBytes [1; 2])); [done|done|]. reflexivity.
    - split; reflexivity. }
  destruct (pipe_fifo true (replicate 512 0) s eq_refl H) as [Hf _]. by exists s.
Defined.

Lemma pipe_no_lost_wakeup_witness :
  exists s, pipe_steps false (psys_init (replicate 512 0)) s /\ ps_rs s = [(5, false)] /\
    contents (ps_pipe s) = [].
Proof.
  set (p0 := pipe_init (replicate 512 0)).
  assert (H : pipe_steps false (psys_init (replicate 512 0)) (PSys p0 [] [(5, false)] [] [])).
  { eapply pipe_steps_step; [apply pipe_steps_refl|].
    by apply (ps_read false p0 p0 [] [] [] [] false 5 RSleep). }
  destruct (pipe_no_lost_wakeup (replicate 512 0) _ eq_refl H) as (HR & _).
  exists (PSys p0 [] [(5, false)] [] []). split; [exact H|]. split; [done|].
  by destruct (HR 5) as [? _]; [left|].
Defined.
