(* ===== verification/Proc.v ===== *)
(** * Processes (proc.c)

    The process table and the operations on it.  Processes and parents are
    table indices.  The allocator, the virtual memory, the file table and the
    inodes are reached through the interface [ProcEnv]; the process table
    itself is never visible to them.

    A routine that enters the scheduler ends with the outcome [Sleep]: the
    state it carries is the one at the context switch in sched, with
    ptable.lock held.  The routine goes on from there when the scheduler picks
    the process again; where it has more to do than release the lock, the
    remaining part is a definition of its own. *)

From S2P Require Import Prelude Layout.

Inductive procstate := UNUSED | EMBRYO | SLEEPING | RUNNABLE | RUNNING | ZOMBIE.

#[global] Instance procstate_eq_dec : EqDecision procstate.
Proof. solve_decision. Defined.

(** The registers of the trap frame that proc.c names; the others are kept
    together. *)
Record trapframe := TrapFrame {
  tf_eax : Z; tf_eip : Z; tf_esp : Z; tf_cs : Z; tf_ds : Z; tf_es : Z; tf_ss : Z;
  tf_eflags : Z; tf_others : list Z
}.

Record context := Context { c_edi : Z; c_esi : Z; c_ebx : Z; c_ebp : Z; c_eip : Z }.

Record proc := Proc {
  sz : Z;
  pgdir : Z;
  kstack : Z;
  state : procstate;
  pid : Z;
  parent : option nat;
  tf : trapframe;
  ctx : context;
  chan : Z;
  killed : Z;
  ofile : list Z;              (* NOFILE entries, 0 when closed *)
  cwd : Z;
  pname : list Z;
  isThread : Z
}.

Definition set_state (v : procstate) (p : proc) : proc :=
  Proc (sz p) (pgdir p) (kstack p) v (pid p) (parent p) (tf p) (ctx p) (chan p) (killed p) (ofile p) (cwd p) (pname p) (isThread p).
Definition set_pid (v : Z) (p : proc) : proc :=
  Proc (sz p) (pgdir p) (kstack p) (state p) v (parent p) (tf p) (ctx p) (chan p) (killed p) (ofile p) (cwd p) (pname p) (isThread p).
Definition set_kstack (v : Z) (p : proc) : proc :=
  Proc (sz p) (pgdir p) v (state p) (pid p) (parent p) (tf p) (ctx p) (chan p) (killed p) (ofile p) (cwd p) (pname p) (isThread p).
Definition set_pgdir (v : Z) (p : proc) : proc :=
  Proc (sz p) v (kstack p) (state p) (pid p) (parent p) (tf p) (ctx p) (chan p) (killed p) (ofile p) (cwd p) (pname p) (isThread p).
Definition set_sz (v : Z) (p : proc) : proc :=
  Proc v (pgdir p) (kstack p) (state p) (pid p) (parent p) (tf p) (ctx p) (chan p) (killed p) (ofile p) (cwd p) (pname p) (isThread p).
Definition set_parent (v : option nat) (p : proc) : proc :=
  Proc (sz p) (pgdir p) (kstack p) (state p) (pid p) v (tf p) (ctx p) (chan p) (killed p) (ofile p) (cwd p) (pname p) (isThread p).
Definition set_tf (v : trapframe) (p : proc) : proc :=
  Proc (sz p) (pgdir p) (kstack p) (state p) (pid p) (parent p) v (ctx p) (chan p) (killed p) (ofile p) (cwd p) (pname p) (isThread p).
Definition set_ctx (v : context) (p : proc) : proc :=
  Proc (sz p) (pgdir p) (kstack p) (state p) (pid p) (parent p) (tf p) v (chan p) (killed p) (ofile p) (cwd p) (pname p) (isThread p).
Definition set_chan (v : Z) (p : proc) : proc :=
  Proc (sz p) (pgdir p) (kstack p) (state p) (pid p) (parent p) (tf p) (ctx p) v (killed p) (ofile p) (cwd p) (pname p) (isThread p).
Definition set_killed (v : Z) (p : proc) : proc :=
  Proc (sz p) (pgdir p) (kstack p) (state p) (pid p) (parent p) (tf p) (ctx p) (chan p) v (ofile p) (cwd p) (pname p) (isThread p).
Definition set_ofile (fd : nat) (v : Z) (p : proc) : proc :=
  Proc (sz p) (pgdir p) (kstack p) (state p) (pid p) (parent p) (tf p) (ctx p) (chan p) (killed p) (<[fd := v]> (ofile p)) (cwd p) (pname p) (isThread p).
Definition set_cwd (v : Z) (p : proc) : proc :=
  Proc (sz p) (pgdir p) (kstack p) (state p) (pid p) (parent p) (tf p) (ctx p) (chan p) (killed p) (ofile p) v (pname p) (isThread p).
Definition set_pname (v : list Z) (p : proc) : proc :=
  Proc (sz p) (pgdir p) (kstack p) (state p) (pid p) (parent p) (tf p) (ctx p) (chan p) (killed p) (ofile p) (cwd p) v (isThread p).
Definition set_isThread (v : Z) (p : proc) : proc :=
  Proc (sz p) (pgdir p) (kstack p) (state p) (pid p) (parent p) (tf p) (ctx p) (chan p) (killed p) (ofile p) (cwd p) (pname p) v.

Definition nproc : nat := Z.to_nat NPROC.
Definition nofile : nat := Z.to_nat NOFILE.

Definition zero_tf : trapframe := TrapFrame 0 0 0 0 0 0 0 0 [].
Definition zero_ctx : context := Context 0 0 0 0 0.
Definition zero_proc : proc :=
  Proc 0 0 0 UNUSED 0 None zero_tf zero_ctx 0 0 (replicate nofile 0) 0 (replicate 16 0) 0.

(** The components that the process operations call. *)
Class ProcEnv (E : Type) := {
  env_kalloc : K E Z;
  env_kfree : Z -> K E unit;
  env_setupkvm : K E Z;
  env_inituvm : Z -> K E unit;               (* inituvm(pgdir, initcode) *)
  env_allocuvm : Z -> Z -> Z -> K E Z;
  env_deallocuvm : Z -> Z -> Z -> K E Z;
  env_copyuvm : Z -> Z -> K E Z;
  env_freevm : Z -> K E unit;
  env_switchuvm : Z -> K E unit;             (* by page table *)
  env_switchkvm : K E unit;
  env_store : Z -> Z -> Z -> K E unit;       (* page table, address, word *)
  env_xchg : Z -> Z -> Z -> K E Z;           (* page table, address, new word *)
  env_filedup : Z -> K E Z;
  env_fileclose : Z -> K E unit;
  env_idup : Z -> K E Z;
  env_iput : Z -> K E unit;
  env_begin_op : K E unit;
  env_end_op : K E unit;
  env_namei_root : K E Z;
  forkret_addr : Z;
  trapret_addr : Z
}.

Record ptable (E : Type) := PTable {
  procs : list proc;
  pt_lk : bool;                (* ptable.lock held by this CPU *)
  locks_held : gset Z;         (* the other spin locks held by this CPU *)
  nextpid : Z;
  initproc : option nat;
  penv : E
}.
Arguments PTable {E} _ _ _ _ _ _.
Arguments procs {E} _.
Arguments pt_lk {E} _.
Arguments locks_held {E} _.
Arguments nextpid {E} _.
Arguments initproc {E} _.
Arguments penv {E} _.

Definition p_at {E} (s : ptable E) (i : nat) : proc := nth i (procs s) zero_proc.

Section proc_ops.
Context {E : Type} `{ProcEnv E}.

Definition set_procs (l : list proc) (s : ptable E) : ptable E :=
  PTable l (pt_lk s) (locks_held s) (nextpid s) (initproc s) (penv s).
Definition set_pt_lk (b : bool) (s : ptable E) : ptable E :=
  PTable (procs s) b (locks_held s) (nextpid s) (initproc s) (penv s).
Definition set_locks_held (l : gset Z) (s : ptable E) : ptable E :=
  PTable (procs s) (pt_lk s) l (nextpid s) (initproc s) (penv s).
Definition set_nextpid (v : Z) (s : ptable E) : ptable E :=
  PTable (procs s) (pt_lk s) (locks_held s) v (initproc s) (penv s).
Definition set_initproc (v : option nat) (s : ptable E) : ptable E :=
  PTable (procs s) (pt_lk s) (locks_held s) (nextpid s) v (penv s).
Definition set_penv (v : E) (s : ptable E) : ptable E :=
  PTable (procs s) (pt_lk s) (locks_held s) (nextpid s) (initproc s) v.

Definition upd_proc (i : nat) (f : proc -> proc) : K (ptable E) unit :=
  kmodify (fun s => set_procs (alter f i (procs s)) s).
Definition env {A} (c : K E A) : K (ptable E) A := kzoom penv set_penv c.

Definition pt_acquire : K (ptable E) unit :=
  let! held := kget pt_lk in
  if held : bool then kpanic "acquire" else kmodify (set_pt_lk true).
Definition pt_release : K (ptable E) unit :=
  let! held := kget pt_lk in
  if held : bool then kmodify (set_pt_lk false) else kpanic "release".

(** Channels: the address of a process entry. *)
Definition proc_chan (i : nat) : Z := -1 - Z.of_nat i.

Definition pinit : K (ptable E) unit := kmodify (set_pt_lk false).

(** *** Allocation *)

Fixpoint find_state (st : procstate) (l : list proc) (i : nat) : option nat :=
  match l with
  | [] => None
  | p :: l' => if decide (state p = st) then Some i else find_state st l' (S i)
  end.

Definition allocproc : K (ptable E) (option nat) :=
  pt_acquire ;;
  let! found := kget (fun s => find_state UNUSED (procs s) 0) in
  match found with
  | None => pt_release ;; kret None
  | Some i =>
      upd_proc i (set_state EMBRYO) ;;
      let! n := kget nextpid in
      upd_proc i (set_pid n) ;;
      kmodify (set_nextpid (s32 (n + 1))) ;;
      pt_release ;;
      let! ks := env env_kalloc in
      upd_proc i (set_kstack ks) ;;
      if ks =? 0 then
        upd_proc i (set_state UNUSED) ;;
        kret None
      else
        (* the context at the top of the kernel stack: all zero but eip *)
        upd_proc i (set_ctx (Context 0 0 0 0 forkret_addr)) ;;
        kret (Some i)
  end.

Definition initcode_name : list Z := [105; 110; 105; 116; 99; 111; 100; 101; 0].

(** The bytes before the first zero. *)
Fixpoint before_nul (l : list Z) : list Z :=
  match l with
  | [] => []
  | c :: l' => if c =? 0 then [] else c :: before_nul l'
  end.

(** safestrcpy into a 16-byte name: at most 15 bytes up to the first zero, then
    one zero; the rest of the field keeps its bytes. *)
Definition safe_name (old src : list Z) : list Z :=
  let s := take 15 (before_nul src) in
  s ++ [0] ++ drop (S (length s)) old.

Definition userinit : K (ptable E) unit :=
  let! r := allocproc in
  match r with
  | None => kpanic "null dereference"
  | Some p =>
      kmodify (set_initproc (Some p)) ;;
      let! pg := env env_setupkvm in
      upd_proc p (set_pgdir pg) ;;
      if pg =? 0 then kpanic "userinit: out of memory?" else
      env (env_inituvm pg) ;;
      upd_proc p (set_sz PGSIZE) ;;
      (let cs := Z.lor (Z.shiftl SEG_UCODE 3) DPL_USER in
       let ds := Z.lor (Z.shiftl SEG_UDATA 3) DPL_USER in
       upd_proc p (set_tf (TrapFrame 0 0 PGSIZE cs ds ds ds FL_IF []))) ;;
      upd_proc p (fun x => set_pname (safe_name (pname x) initcode_name) x) ;;
      let! root := env env_namei_root in
      upd_proc p (set_cwd root) ;;
      pt_acquire ;;
      upd_proc p (set_state RUNNABLE) ;;
      pt_release
  end.

Definition growproc (me : nat) (n : Z) : K (ptable E) Z :=
  let! p := kget (fun s => p_at s me) in
  let! newsz :=
    (if 0 <? n then env (env_allocuvm (pgdir p) (sz p) (u32 (sz p + n)))
     else if n <? 0 then env (env_deallocuvm (pgdir p) (sz p) (u32 (sz p + n)))
     else kret (sz p)) in
  if truth n && (newsz =? 0) then kret (-1) else
  upd_proc me (set_sz newsz) ;;
  env (env_switchuvm (pgdir p)) ;;
  kret 0.

(** Copy the open files: [for (i = 0; i < NOFILE; i++) if (ofile[i]) filedup]. *)
Definition dup_files (me np : nat) : K (ptable E) unit :=
  let! _ := kfor (R := unit) nofile 0 (fun i =>
    let! f := kget (fun s => nth (Z.to_nat i) (ofile (p_at s me)) 0) in
    (if truth f then
       let! g := env (env_filedup f) in upd_proc np (set_ofile (Z.to_nat i) g)
     else kret tt) ;;
    kret None) in
  kret tt.

Definition set_eax (v : Z) (t : trapframe) : trapframe :=
  TrapFrame v (tf_eip t) (tf_esp t) (tf_cs t) (tf_ds t) (tf_es t) (tf_ss t) (tf_eflags t) (tf_others t).
Definition set_eip (v : Z) (t : trapframe) : trapframe :=
  TrapFrame (tf_eax t) v (tf_esp t) (tf_cs t) (tf_ds t) (tf_es t) (tf_ss t) (tf_eflags t) (tf_others t).
Definition set_esp (v : Z) (t : trapframe) : trapframe :=
  TrapFrame (tf_eax t) (tf_eip t) v (tf_cs t) (tf_ds t) (tf_es t) (tf_ss t) (tf_eflags t) (tf_others t).

(** The common end of fork and thread_create: files, directory and name are
    copied, and the new process becomes runnable. *)
Definition publish (me np : nat) (cur : proc) : K (ptable E) Z :=
  dup_files me np ;;
  let! d := env (env_idup (cwd cur)) in
  upd_proc np (set_cwd d) ;;
  upd_proc np (fun x => set_pname (safe_name (pname x) (pname cur)) x) ;;
  let! n := kget (fun s => pid (p_at s np)) in
  pt_acquire ;;
  upd_proc np (set_state RUNNABLE) ;;
  pt_release ;;
  kret n.

Definition fork (me : nat) : K (ptable E) Z :=
  let! r := allocproc in
  match r with
  | None => kret (-1)
  | Some np =>
      let! cur := kget (fun s => p_at s me) in
      let! pg := env (env_copyuvm (pgdir cur) (sz cur)) in
      upd_proc np (set_pgdir pg) ;;
      if pg =? 0 then
        let! ks := kget (fun s => kstack (p_at s np)) in
        env (env_kfree ks) ;;
        upd_proc np (set_kstack 0) ;;
        upd_proc np (set_state UNUSED) ;;
        kret (-1)
      else
        upd_proc np (set_sz (sz cur)) ;;
        upd_proc np (set_parent (Some me)) ;;
        upd_proc np (set_tf (set_eax 0 (tf cur))) ;;
        publish me np cur
  end.

(** *** Sleeping and waking *)

Definition wake_proc (ch : Z) (p : proc) : proc :=
  if bool_decide (state p = SLEEPING) && (chan p =? ch) then set_state RUNNABLE p else p.

(** wakeup1: over the whole table, ptable.lock held. *)
Definition wakeup1 (ch : Z) : K (ptable E) unit :=
  kmodify (fun s => set_procs (wake_proc ch <$> procs s) s).

Definition wakeup (ch : Z) : K (ptable E) unit :=
  pt_acquire ;; wakeup1 ch ;; pt_release.

(** sched up to swtch.  Left out: the check that interrupts are off, which acquire of
    ptable.lock has done and Spinlock.v proves for every holder of a lock, and the saving of
    the CPU's intena around swtch. *)
Definition sched (me : nat) : K (ptable E) unit :=
  let! s := kget id in
  if negb (pt_lk s) then kpanic "sched ptable.lock" else
  if negb (Z.of_nat (size (locks_held s)) + 1 =? 1) then kpanic "sched locks" else
  if bool_decide (state (p_at s me) = RUNNING) then kpanic "sched running" else
  ksleep 0.

Definition yield (me : nat) : K (ptable E) unit :=
  pt_acquire ;;
  upd_proc me (set_state RUNNABLE) ;;
  sched me.
(** The rest of yield, when the process runs again. *)
Definition yield_resume : K (ptable E) unit := pt_release.

(** forkret: [first] is its static variable; the first call initialises the
    inode layer and the log. *)
Definition forkret (init : K E unit) (first : bool) : K (ptable E) bool :=
  pt_release ;;
  if first then env init ;; kret false else kret false.

Definition other_release (lk : Z) : K (ptable E) unit :=
  let! held := kget locks_held in
  if bool_decide (lk ∈ held) then kmodify (set_locks_held (held ∖ {[lk]})) else kpanic "release".
Definition other_acquire (lk : Z) : K (ptable E) unit :=
  let! held := kget locks_held in
  if bool_decide (lk ∈ held) then kpanic "acquire" else kmodify (set_locks_held ({[lk]} ∪ held)).

(** sleep(chan, lk) up to the context switch; [lk = None] is &ptable.lock.  The panics for a
    null process or a null lock have no counterpart: [me] and [lk] always name one. *)
Definition sleep (me : nat) (ch : Z) (lk : option Z) : K (ptable E) unit :=
  (match lk with
   | None => kret tt
   | Some l => pt_acquire ;; other_release l
   end) ;;
  upd_proc me (set_chan ch) ;;
  upd_proc me (set_state SLEEPING) ;;
  sched me.

Definition sleep_resume (me : nat) (lk : option Z) : K (ptable E) unit :=
  upd_proc me (set_chan 0) ;;
  match lk with
  | None => kret tt
  | Some l => pt_release ;; other_acquire l
  end.

Fixpoint find_pid (n : Z) (l : list proc) (i : nat) : option nat :=
  match l with
  | [] => None
  | p :: l' => if pid p =? n then Some i else find_pid n l' (S i)
  end.

Definition kill (n : Z) : K (ptable E) Z :=
  pt_acquire ;;
  let! r := kget (fun s => find_pid n (procs s) 0) in
  match r with
  | Some i =>
      upd_proc i (set_killed 1) ;;
      upd_proc i (fun p => if decide (state p = SLEEPING) then set_state RUNNABLE p else p) ;;
      pt_release ;;
      kret 0
  | None => pt_release ;; kret (-1)
  end.

(** *** Exit and wait *)

Definition close_files (me : nat) : K (ptable E) unit :=
  let! _ := kfor (R := unit) nofile 0 (fun fd =>
    let! f := kget (fun s => nth (Z.to_nat fd) (ofile (p_at s me)) 0) in
    (if truth f then
       env (env_fileclose f) ;; upd_proc me (set_ofile (Z.to_nat fd) 0)
     else kret tt) ;;
    kret None) in
  kret tt.

(** The channel of a pointer to a process. *)
Definition ptr_chan (q : option nat) : Z :=
  match q with None => 0 | Some i => proc_chan i end.

(** Pass abandoned children to init; a zombie among them wakes init. *)
Definition reparent (me : nat) : K (ptable E) unit :=
  let! ip := kget initproc in
  let! _ := kfor (R := unit) nproc 0 (fun i =>
    let! p := kget (fun s => p_at s (Z.to_nat i)) in
    (if bool_decide (parent p = Some me) then
       upd_proc (Z.to_nat i) (set_parent ip) ;;
       (if bool_decide (state p = ZOMBIE) then wakeup1 (ptr_chan ip) else kret tt)
     else kret tt) ;;
    kret None) in
  kret tt.

Definition exit (me : nat) : K (ptable E) unit :=
  let! ip := kget initproc in
  if bool_decide (ip = Some me) then kpanic "init exiting" else
  close_files me ;;
  env env_begin_op ;;
  let! d := kget (fun s => cwd (p_at s me)) in
  env (env_iput d) ;;
  env env_end_op ;;
  upd_proc me (set_cwd 0) ;;
  pt_acquire ;;
  let! q := kget (fun s => parent (p_at s me)) in
  wakeup1 (ptr_chan q) ;;
  reparent me ;;
  upd_proc me (set_state ZOMBIE) ;;
  sched me.

(** Scan the table for children selected by [sel]: whether there is one, and
    the first zombie among them. *)
Fixpoint scan_children (sel : proc -> bool) (l : list proc) (i : nat) (havekids : bool)
    : bool * option nat :=
  match l with
  | [] => (havekids, None)
  | p :: l' =>
      if sel p then
        if decide (state p = ZOMBIE) then (true, Some i)
        else scan_children sel l' (S i) true
      else scan_children sel l' (S i) havekids
  end.

Definition clear_name (p : proc) : proc := set_pname (<[0%nat := 0]> (pname p)) p.

Definition child_of (me : nat) (p : proc) : bool := bool_decide (parent p = Some me).

(** One round of the loop of wait, with ptable.lock held. *)
Definition wait_round (me : nat) : K (ptable E) Z :=
  let! r := kget (fun s => scan_children (child_of me) (procs s) 0 false) in
  match r with
  | (_, Some i) =>
      let! p := kget (fun s => p_at s i) in
      env (env_kfree (kstack p)) ;;
      upd_proc i (set_kstack 0) ;;
      env (env_freevm (pgdir p)) ;;
      upd_proc i (set_pid 0) ;;
      upd_proc i (set_parent None) ;;
      upd_proc i clear_name ;;
      upd_proc i (set_killed 0) ;;
      upd_proc i (set_state UNUSED) ;;
      pt_release ;;
      kret (pid p)
  | (havekids, None) =>
      let! k := kget (fun s => killed (p_at s me)) in
      if negb havekids || truth k then pt_release ;; kret (-1)
      else sleep me (proc_chan me) None ;; kret 0
  end.

Definition wait (me : nat) : K (ptable E) Z := pt_acquire ;; wait_round me.
(** wait after its sleep: the next round. *)
Definition wait_resume (me : nat) : K (ptable E) Z := sleep_resume me None ;; wait_round me.

(** *** The scheduler *)

Fixpoint find_runnable (l : list proc) (i : nat) : option nat :=
  match l with
  | [] => None
  | p :: l' => if decide (state p = RUNNABLE) then Some i else find_runnable l' (S i)
  end.

(** The scheduler's loop over the table, from entry [from] to its next context
    switch, with ptable.lock held: the process to run, or the end of the pass. *)
Definition scheduler_next (from : nat) : K (ptable E) (option nat) :=
  let! r := kget (fun s => find_runnable (drop from (procs s)) from) in
  match r with
  | Some i =>
      let! pg := kget (fun s => pgdir (p_at s i)) in
      env (env_switchuvm pg) ;;
      upd_proc i (set_state RUNNING) ;;
      kret (Some i)
  | None => kret None
  end.
(** Between two context switches. *)
Definition scheduler_return : K (ptable E) unit := env env_switchkvm.
(** The start and the end of a pass. *)
Definition scheduler_start : K (ptable E) unit := pt_acquire.
Definition scheduler_end : K (ptable E) unit := pt_release.

(** *** Threads *)

Definition thread_create (me : nat) (fcn arg stack : Z) : K (ptable E) Z :=
  if u32 stack =? 0 then kret (-1) else
  let! r := allocproc in
  match r with
  | None => kret (-1)
  | Some np =>
      let! cur := kget (fun s => p_at s me) in
      upd_proc np (set_pgdir (pgdir cur)) ;;
      upd_proc np (set_sz (sz cur)) ;;
      upd_proc np (set_parent (Some me)) ;;
      upd_proc np (set_isThread 1) ;;
      let esp1 := u32 (stack + 4096 - 4) in
      let esp2 := u32 (esp1 - 4) in
      env (env_store (pgdir cur) esp1 arg) ;;
      env (env_store (pgdir cur) esp2 0xffffffff) ;;
      upd_proc np (set_tf (set_esp esp2 (set_eip fcn (set_eax 0 (tf cur))))) ;;
      publish me np cur
  end.

Definition thread_child_of (me : nat) (p : proc) : bool :=
  negb ((isThread p =? 0) || negb (child_of me p)).

Definition join_round (me : nat) : K (ptable E) Z :=
  let! r := kget (fun s => scan_children (thread_child_of me) (procs s) 0 false) in
  match r with
  | (_, Some i) =>
      let! n := kget (fun s => pid (p_at s i)) in
      upd_proc i (set_kstack 0) ;;
      upd_proc i (set_pid 0) ;;
      upd_proc i (set_parent None) ;;
      upd_proc i clear_name ;;
      upd_proc i (set_killed 0) ;;
      upd_proc i (set_state UNUSED) ;;
      pt_release ;;
      kret n
  | (havekids, None) =>
      let! k := kget (fun s => killed (p_at s me)) in
      if negb havekids || truth k then pt_release ;; kret (-1)
      else sleep me (proc_chan me) None ;; kret 0
  end.

Definition thread_join (me : nat) : K (ptable E) Z := pt_acquire ;; join_round me.
Definition thread_join_resume (me : nat) : K (ptable E) Z := sleep_resume me None ;; join_round me.

Definition thread_exit (me : nat) : K (ptable E) unit :=
  let! ip := kget initproc in
  if bool_decide (ip = Some me) then kpanic "init exiting" else
  close_files me ;;
  env env_begin_op ;;
  let! d := kget (fun s => cwd (p_at s me)) in
  env (env_iput d) ;;
  env env_end_op ;;
  upd_proc me (set_cwd 0) ;;
  pt_acquire ;;
  let! q := kget (fun s => parent (p_at s me)) in
  wakeup1 (ptr_chan q) ;;
  reparent me ;;
  upd_proc me (set_state ZOMBIE) ;;
  sched me.

(** One attempt of kernel_mutex_lock; a failed one yields and tries again. *)
Definition kernel_mutex_lock (me : nat) (lk : Z) : K (ptable E) unit :=
  let! pg := kget (fun s => pgdir (p_at s me)) in
  let! v := env (env_xchg pg lk 1) in
  if v =? 0 then kret tt else yield me.
Definition kernel_mutex_unlock (me : nat) (lk : Z) : K (ptable E) unit :=
  let! pg := kget (fun s => pgdir (p_at s me)) in
  env (env_store pg lk 0).

(** mysleep(chan, lk) with [lk] a user mutex, up to the context switch. *)
Definition mysleep (me : nat) (ch lk : Z) : K (ptable E) unit :=
  if lk =? 0 then kpanic "sleep without lk" else
  pt_acquire ;;
  kernel_mutex_unlock me lk ;;
  upd_proc me (set_chan ch) ;;
  upd_proc me (set_state SLEEPING) ;;
  sched me.
Definition mysleep_resume (me : nat) (lk : Z) : K (ptable E) unit :=
  upd_proc me (set_chan 0) ;;
  pt_release ;;
  kernel_mutex_lock me lk.

Definition mywakeup (ch : Z) : K (ptable E) Z :=
  pt_acquire ;; wakeup1 ch ;; pt_release ;; kret 0.
End proc_ops.
