(* ===== verification/ProcInv.v ===== *)
(** * The process table under interleaved calls

    Partial-correctness specifications of the operations of proc.c, the step
    relation of processes that call them and of the scheduler, and the
    invariant of the table. *)

From S2P Require Import Prelude Layout Proc.

Section specs.
Context {E : Type} `{ProcEnv E}.
Implicit Types s : ptable E.

Lemma p_at_alter s i f j :
  (i < length (procs s))%nat ->
  p_at (set_procs (alter f i (procs s)) s) j = if decide (j = i) then f (p_at s j) else p_at s j.
Proof.
  intros Hi. unfold p_at. simpl. destruct (decide (j = i)) as [->|Hne].
  - by rewrite nth_alter_eq.
  - by rewrite nth_alter_ne.
Qed.

Lemma p_at_mk l b h n ip (e : E) i : p_at (PTable l b h n ip e) i = nth i l zero_proc.
Proof. done. Qed.

Lemma p_at_oob s j : (length (procs s) <= j)%nat -> p_at s j = zero_proc.
Proof. intros. unfold p_at. by apply nth_overflow. Qed.

Lemma live_lt s j : state (p_at s j) <> UNUSED -> (j < length (procs s))%nat.
Proof.
  intros Hl. destruct (decide (j < length (procs s))%nat); [done|]. by rewrite p_at_oob in Hl by lia.
Qed.

(** What the invariant of the table reads of an entry. *)
Definition essence (p : proc) : procstate * Z * option nat * Z * Z :=
  (state p, pid p, parent p, chan p, isThread p).

Lemma essence_eq p p' :
  essence p = essence p' <->
  state p = state p' /\ pid p = pid p' /\ parent p = parent p' /\ chan p = chan p' /\ isThread p = isThread p'.
Proof. unfold essence. split; [by intros [= -> -> -> -> ->]|by intros (-> & -> & -> & -> & ->)]. Qed.

(** The same table, apart from the environment and fields outside the essence. *)
Record same_table s s' : Prop := {
  sm_len : length (procs s') = length (procs s);
  sm_ess : forall j, essence (p_at s' j) = essence (p_at s j);
  sm_lk : pt_lk s' = pt_lk s;
  sm_held : locks_held s' = locks_held s;
  sm_pid : nextpid s' = nextpid s;
  sm_init : initproc s' = initproc s
}.

Lemma same_table_refl s : same_table s s.
Proof. by constructor. Qed.
Lemma same_table_trans s1 s2 s3 : same_table s1 s2 -> same_table s2 s3 -> same_table s1 s3.
Proof. intros [] []. constructor; intros; etrans; eauto. Qed.

Lemma same_table_env s e : same_table s (set_penv e s).
Proof. by constructor. Qed.

Lemma same_table_alter s i f :
  (forall p, essence (f p) = essence p) -> same_table s (set_procs (alter f i (procs s)) s).
Proof.
  intros Hf. constructor; try done; simpl; [by rewrite length_alter|].
  intros j. destruct (decide (i < length (procs s))%nat).
  - rewrite p_at_alter by done. destruct (decide (j = i)); [apply Hf|done].
  - unfold p_at. simpl. destruct (decide (j = i)) as [->|]; [|by rewrite nth_alter_ne].
    rewrite !nth_overflow; [done|lia|rewrite length_alter; lia].
Qed.

(** The environment may do anything to its own state. *)
Lemma wlp_env {A} (c : K E A) s Q (R : ptable E -> Prop) :
  (forall a e, Q a (set_penv e s)) -> (forall e, R (set_penv e s)) -> wlp (env c) s Q R.
Proof. intros HQ HR. unfold wlp, env, kzoom. destruct (c (penv s)); auto. Qed.

Lemma wlp_acquire s Q R : (pt_lk s = false -> Q tt (set_pt_lk true s)) -> wlp pt_acquire s Q R.
Proof. intros HQ. unfold wlp, pt_acquire, kbind, kget. destruct (pt_lk s) eqn:Ek; [done|]. by apply HQ. Qed.
Lemma wlp_release s Q R : Q tt (set_pt_lk false s) -> wlp pt_release s Q R.
Proof. intros HQ. unfold wlp, pt_release, kbind, kget. by destruct (pt_lk s). Qed.

Lemma wlp_upd i f s Q R : Q tt (set_procs (alter f i (procs s)) s) -> wlp (upd_proc i f) s Q R.
Proof. done. Qed.
End specs.

(** Keep the state of the table in normal form, one constructor. *)
Ltac pt_norm :=
  unfold set_procs, set_pt_lk, set_locks_held, set_nextpid, set_initproc, set_penv;
  cbn [procs pt_lk locks_held nextpid initproc penv].

Ltac wlp_user ::=
  lazymatch goal with
  | |- wlp (upd_proc _ _) _ _ _ => apply wlp_upd; pt_norm
  | |- wlp pt_acquire _ _ _ => apply wlp_acquire; intro; pt_norm
  | |- wlp pt_release _ _ _ => apply wlp_release; pt_norm
  | |- wlp (wakeup1 _) _ _ _ => apply wlp_modify; pt_norm
  | |- wlp (env _) _ _ _ => apply wlp_env; [intros ? ?; pt_norm|intros ?; pt_norm]
  end.

(** Read entry [i] of a table whose entries were updated one by one. *)
Ltac entry_simpl :=
  rewrite ?p_at_mk;
  repeat first [ rewrite nth_alter_eq by (rewrite ?length_alter; lia)
               | rewrite nth_alter_ne by done ];
  repeat match goal with
         | |- context [nth ?i (procs ?s) zero_proc] =>
             change (nth i (procs s) zero_proc) with (p_at s i)
         end.

Section loops.
Context {E : Type} `{ProcEnv E}.
Implicit Types s : ptable E.

Lemma dup_files_spec me np s (R : ptable E -> Prop) :
  (forall s', same_table s s' -> R s') ->
  wlp (dup_files me np) s (fun _ s' => same_table s s' /\
    (forall j, j <> np -> p_at s' j = p_at s j) /\
    exists l, p_at s' np = Proc (sz (p_at s np)) (pgdir (p_at s np)) (kstack (p_at s np)) (state (p_at s np))
      (pid (p_at s np)) (parent (p_at s np)) (tf (p_at s np)) (ctx (p_at s np)) (chan (p_at s np))
      (killed (p_at s np)) l (cwd (p_at s np)) (pname (p_at s np)) (isThread (p_at s np))) R.
Proof.
  intros HR. unfold dup_files. wlp_step.
  apply (wlp_for _ _ _ _ (fun _ s' => same_table s s' /\
    (forall j, j <> np -> p_at s' j = p_at s j) /\
    exists l, p_at s' np = Proc (sz (p_at s np)) (pgdir (p_at s np)) (kstack (p_at s np)) (state (p_at s np))
      (pid (p_at s np)) (parent (p_at s np)) (tf (p_at s np)) (ctx (p_at s np)) (chan (p_at s np))
      (killed (p_at s np)) l (cwd (p_at s np)) (pname (p_at s np)) (isThread (p_at s np)))).
  - split_and!; [apply same_table_refl|done|]. exists (ofile (p_at s np)). by destruct (p_at s np).
  - intros i s' _ (Hs & Hj & l & Hl). do 3 wlp_step. destruct (truth _).
    + do 2 wlp_step; [|apply HR; by eapply same_table_trans, same_table_env].
      do 2 wlp_step.
      assert (Hs2 : same_table s' (set_penv e s')) by apply same_table_env.
      split_and!.
      * eapply same_table_trans; [by eapply same_table_trans|].
        by apply (same_table_alter (set_penv e s') np (set_ofile (Z.to_nat i) a)).
      * intros j Hjn. unfold p_at. simpl. rewrite nth_alter_ne by done. by apply Hj.
      * destruct (decide (np < length (procs s'))%nat).
        -- exists (<[Z.to_nat i := a]> l). entry_simpl.
           by rewrite Hl.
        -- exists l. unfold p_at in *. simpl. rewrite <- Hl. rewrite !nth_overflow; [done|lia|rewrite length_alter; lia].
    + do 2 wlp_step. split_and!; eauto.
  - intros s' Hs. by wlp_step.
Qed.

Lemma close_files_spec me s (R : ptable E -> Prop) :
  (forall s', same_table s s' -> R s') ->
  wlp (close_files me) s (fun _ s' => same_table s s') R.
Proof.
  intros HR. unfold close_files. wlp_step. apply (wlp_for _ _ _ _ (fun _ s' => same_table s s')).
  - apply same_table_refl.
  - intros i s' _ Hs. do 3 wlp_step. destruct (truth _).
    + do 2 wlp_step; [|apply HR; by eapply same_table_trans, same_table_env].
      do 2 wlp_step. eapply same_table_trans; [by eapply same_table_trans, (same_table_env _ e)|].
      by apply (same_table_alter (set_penv e s') me (set_ofile (Z.to_nat i) 0)).
    + by do 2 wlp_step.
  - intros s' Hs. by wlp_step.
Qed.
End loops.

(** ** New processes *)

Section spawn.
Context {E : Type} `{ProcEnv E}.
Implicit Types s : ptable E.

(** Only entry [i] of the table changes. *)
Record only (i : nat) s s' : Prop := {
  on_len : length (procs s') = length (procs s);
  on_at : forall j, j <> i -> p_at s' j = p_at s j;
  on_held : locks_held s' = locks_held s;
  on_init : initproc s' = initproc s
}.

Lemma only_refl i s : only i s s.
Proof. by constructor. Qed.
Lemma only_trans i s1 s2 s3 : only i s1 s2 -> only i s2 s3 -> only i s1 s3.
Proof.
  intros [A1 A2 A3 A4] [B1 B2 B3 B4]. constructor; [congruence| |congruence|congruence].
  intros j Hj. by rewrite B2, A2.
Qed.
Lemma only_dup np s s' :
  same_table s s' -> (forall j, j <> np -> p_at s' j = p_at s j) -> only np s s'.
Proof. intros [] Hj. by constructor. Qed.

End spawn.

(** One entry of the table in normal form was updated. *)
Ltac only_tac :=
  constructor; cbn [procs locks_held initproc];
  [ by rewrite ?length_alter
  | intros ? ?; unfold p_at; cbn [procs]; by rewrite ?nth_alter_ne by done
  | done | done ].

Section alloc.
Context {E : Type} `{ProcEnv E}.
Implicit Types s : ptable E.

Lemma find_state_spec st l : forall i j, find_state st l i = Some j ->
  exists k, j = (i + k)%nat /\ (k < length l)%nat /\ state (nth k l zero_proc) = st.
Proof.
  induction l as [|p l IH]; intros i j; simpl; [done|]. destruct (decide (state p = st)) as [Es|_].
  - intros [= <-]. exists 0%nat. split_and!; [lia|lia|done].
  - intros (k & -> & Hk & Hs)%IH. exists (S k). split_and!; [lia|lia|done].
Qed.

(** allocproc gives out an unused entry with the next pid; when it fails, at
    most an unused entry has a new pid. *)
Definition alloc_post s (r : option nat) s' : Prop :=
  pt_lk s' = false /\
  match r with
  | Some i => state (p_at s i) = UNUSED /\ (i < length (procs s))%nat /\ only i s s' /\
      nextpid s' = s32 (nextpid s + 1) /\
      exists ks, ks <> 0 /\ p_at s' i =
        set_ctx (Context 0 0 0 0 forkret_addr) (set_kstack ks (set_pid (nextpid s) (set_state EMBRYO (p_at s i))))
  | None => (procs s' = procs s /\ nextpid s' = nextpid s /\ initproc s' = initproc s /\
        locks_held s' = locks_held s /\ forall i, (i < length (procs s))%nat -> state (p_at s i) <> UNUSED) \/
      exists i, state (p_at s i) = UNUSED /\ (i < length (procs s))%nat /\ only i s s' /\
        nextpid s' = s32 (nextpid s + 1) /\
        p_at s' i = set_kstack 0 (set_pid (nextpid s) (p_at s i))
  end.

Lemma find_state_none st l : forall i, find_state st l i = None ->
  forall k, (k < length l)%nat -> state (nth k l zero_proc) <> st.
Proof.
  induction l as [|p l IH]; intros i; simpl; [lia|]. destruct (decide (state p = st)); [done|].
  intros Hn [|k] Hk; [done|]. eapply IH; [done|lia].
Qed.

Lemma allocproc_spec s : wlp allocproc s (alloc_post s) (fun _ => True).
Proof.
  unfold allocproc. do 4 wlp_step. pt_norm. destruct (find_state UNUSED (procs s) 0) as [i|] eqn:Ef.
  - apply find_state_spec in Ef as (k & -> & Hk & Hst). rewrite Nat.add_0_l.
    change (nth k (procs s) zero_proc) with (p_at s k) in Hst.
    do 10 wlp_step. wlp_step. pt_norm. wlp_step; [|done]. do 2 wlp_step.
    destruct (Z.eqb_spec a 0) as [->|Hks].
    + do 3 wlp_step. split; [done|]. right. exists k. split_and!; try done; [only_tac|].
      entry_simpl. destruct (p_at s k); simpl in *; by subst.
    + do 3 wlp_step. split; [done|]. split_and!; try done; [only_tac|].
      exists a. split; [done|]. by entry_simpl.
  - do 3 wlp_step. split; [done|]. left. split_and!; try done.
    intros i Hi. by eapply find_state_none.
Qed.

(** What fork and thread_create do to the table. *)
Definition spawn_post (me : nat) s (r : Z) s' : Prop :=
  pt_lk s' = false /\
  ((exists np, state (p_at s np) = UNUSED /\ (np < length (procs s))%nat /\ only np s s' /\
      nextpid s' = s32 (nextpid s + 1) /\ r = nextpid s /\
      state (p_at s' np) = RUNNABLE /\ pid (p_at s' np) = nextpid s /\ parent (p_at s' np) = Some me /\
      sz (p_at s' np) = sz (p_at s me) /\ tf_eax (tf (p_at s' np)) = 0 /\
      killed (p_at s' np) = killed (p_at s np)) \/
   (r = -1 /\ exists np, (state (p_at s np) = UNUSED /\ (np < length (procs s))%nat) /\ only np s s' /\
      nextpid s' = s32 (nextpid s + 1) /\
      state (p_at s' np) = UNUSED /\ parent (p_at s' np) = parent (p_at s np)) \/
   (r = -1 /\ procs s' = procs s /\ nextpid s' = nextpid s /\ initproc s' = initproc s /\
      locks_held s' = locks_held s)).

Lemma alloc_fail_spawn me s s' : alloc_post s None s' -> spawn_post me s (-1) s'.
Proof.
  intros (Hl & [(A1 & A2 & A3 & A4 & _)|(i & A1 & A2 & A3 & A4 & A5)]); split; [done| |done|].
  - right; right. done.
  - right; left. split; [done|]. exists i. rewrite A5. split_and!; done.
Qed.

Lemma publish_spec me np cur s :
  (np < length (procs s))%nat ->
  wlp (publish me np cur) s (fun r s' => only np s s' /\ pt_lk s' = false /\ nextpid s' = nextpid s /\
    r = pid (p_at s np) /\ state (p_at s' np) = RUNNABLE /\ pid (p_at s' np) = pid (p_at s np) /\
    parent (p_at s' np) = parent (p_at s np) /\ sz (p_at s' np) = sz (p_at s np) /\
    tf (p_at s' np) = tf (p_at s np) /\ killed (p_at s' np) = killed (p_at s np)) (fun _ => True).
Proof.
  intros Hlen. unfold publish. wlp_step. eapply wlp_mono; [apply dup_files_spec; done| |done].
  intros _ s2 (Hs & Hj & l & Hl2). do 2 wlp_step; [|done]. do 12 wlp_step.
  assert (Ho2 : only np s s2) by (by apply only_dup).
  assert (Hlen2 : (np < length (procs s2))%nat) by (by rewrite (on_len _ _ _ Ho2)).
  split; [eapply only_trans; [exact Ho2|]; only_tac|]. split; [done|]. split; [apply Hs|].
  entry_simpl. by rewrite Hl2.
Qed.

Lemma fork_spec me s :
  state (p_at s me) <> UNUSED -> wlp (fork me) s (spawn_post me s) (fun _ => True).
Proof.
  intros Hme. unfold fork. wlp_step. eapply wlp_mono; [apply allocproc_spec| |done].
  intros [np|] s1 Ha; [|wlp_step; by apply alloc_fail_spawn].
  destruct Ha as (Hl & Hu & Hlt & Ho & Hn & ks & Hks & Hat).
  assert (Hmn : me <> np) by (intros ->; done).
  assert (Hlen : (np < length (procs s1))%nat) by (by rewrite (on_len _ _ _ Ho)).
  do 4 wlp_step; [|done]. do 2 wlp_step. destruct (Z.eqb_spec a 0) as [->|Hpg].
  - do 3 wlp_step. wlp_step; [|done]. do 5 wlp_step. split; [done|]. right; left. split; [done|].
    exists np. split; [done|]. split_and!.
    + eapply only_trans; [exact Ho|]. only_tac.
    + done.
    + by entry_simpl.
    + entry_simpl. by rewrite Hat.
  - do 6 wlp_step. eapply wlp_mono; [apply publish_spec; simpl; by rewrite !length_alter| |done].
    intros r s' (Ho2 & Hl2 & Hn2 & P1 & P2 & P3 & P4 & P5 & P6 & P7).
    revert P1 P3 P4 P5 P6 P7. entry_simpl.
    rewrite Hat. simpl. intros P1 P3 P4 P5 P6 P7.
    split; [done|]. left. exists np. rewrite <- (on_at _ _ _ Ho me Hmn), P6.
    split_and!; try done; [|by rewrite Hn2].
    eapply only_trans; [exact Ho|]. eapply only_trans; [|exact Ho2]. only_tac.
Qed.

Lemma thread_create_spec me fcn arg stack s :
  state (p_at s me) <> UNUSED -> wlp (thread_create me fcn arg stack) s
    (fun r s' => spawn_post me s r s' \/ (r = -1 /\ s' = s)) (fun _ => True).
Proof.
  intros Hme. unfold thread_create. destruct (_ =? 0); [wlp_step; by right|].
  wlp_step. eapply wlp_mono; [apply allocproc_spec| |done].
  intros [np|] s1 Ha; [|wlp_step; left; by apply alloc_fail_spawn].
  destruct Ha as (Hl & Hu & Hlt & Ho & Hn & ks & Hks & Hat).
  assert (Hmn : me <> np) by (intros ->; done).
  assert (Hlen : (np < length (procs s1))%nat) by (by rewrite (on_len _ _ _ Ho)).
  do 10 wlp_step. cbv zeta. do 2 wlp_step; [|done]. do 2 wlp_step; [|done]. do 2 wlp_step.
  eapply wlp_mono; [apply publish_spec; simpl; by rewrite !length_alter| |done].
  intros r s' (Ho2 & Hl2 & Hn2 & P1 & P2 & P3 & P4 & P5 & P6 & P7).
  revert P1 P3 P4 P5 P6 P7. entry_simpl.
  rewrite Hat. simpl. intros P1 P3 P4 P5 P6 P7.
  left. split; [done|]. left. exists np. rewrite <- (on_at _ _ _ Ho me Hmn), P6.
  split_and!; try done; [|by rewrite Hn2].
  eapply only_trans; [exact Ho|]. eapply only_trans; [|exact Ho2]. only_tac.
Qed.
End alloc.

(** ** Sleeping, waking, exiting and waiting *)

Section waits.
Context {E : Type} `{ProcEnv E}.
Implicit Types s : ptable E.

Lemma sched_spec me s Q (R : ptable E -> Prop) : R s -> wlp (sched me) s Q R.
Proof.
  intros HR. unfold sched, wlp, kbind, kget, id.
  destruct (negb (pt_lk s)); [done|]. destruct (negb (_ =? 1)); [done|]. by case_bool_decide.
Qed.

Lemma p_at_fmap l b h n ip (e : E) ch j :
  p_at (PTable (wake_proc ch <$> l) b h n ip e) j = wake_proc ch (nth j l zero_proc).
Proof. exact (map_nth (wake_proc ch) l zero_proc j). Qed.

(** An entry that at most was woken. *)
Record woke (p p' : proc) : Prop := {
  wk_pid : pid p' = pid p;
  wk_parent : parent p' = parent p;
  wk_chan : chan p' = chan p;
  wk_thread : isThread p' = isThread p;
  wk_state : state p' = state p \/ state p = SLEEPING /\ state p' = RUNNABLE
}.

Lemma woke_refl p : woke p p.
Proof. constructor; try done. by left. Qed.
Lemma woke_trans p1 p2 p3 : woke p1 p2 -> woke p2 p3 -> woke p1 p3.
Proof. intros [] []. constructor; try congruence. naive_solver congruence. Qed.
Lemma wake_proc_woke ch p : woke p (wake_proc ch p).
Proof.
  unfold wake_proc. destruct (bool_decide _ && _) eqn:Eb; [|apply woke_refl].
  apply andb_true_iff in Eb as [Es%bool_decide_eq_true _]. constructor; try done. by right.
Qed.
Lemma wake_proc_wakes ch p : chan p = ch -> state (wake_proc ch p) <> SLEEPING.
Proof.
  intros <-. unfold wake_proc. rewrite Z.eqb_refl, andb_true_r.
  case_bool_decide; [done|done].
Qed.
Lemma essence_woke p p' : essence p' = essence p -> woke p p'.
Proof. intros (? & ? & ? & ? & ?)%essence_eq. constructor; try done. by left. Qed.

(** A process that sleeps on its own entry: in wait or thread_join. *)
Definition self_asleep s (q : nat) : Prop :=
  state (p_at s q) = SLEEPING /\ chan (p_at s q) = proc_chan q.

Lemma awake_mono s s' q :
  state (p_at s' q) = state (p_at s q) \/ state (p_at s q) = SLEEPING /\ state (p_at s' q) = RUNNABLE ->
  chan (p_at s' q) = chan (p_at s q) -> ~ self_asleep s q -> ~ self_asleep s' q.
Proof. intros Hst Hch Hs [H1 H2]. apply Hs. split; [naive_solver congruence|congruence]. Qed.
Lemma woke_awake s s' q :
  woke (p_at s q) (p_at s' q) -> ~ self_asleep s q -> ~ self_asleep s' q.
Proof. intros []. by apply awake_mono. Qed.

(** What reparent has done when it reaches entry [k]. *)
Record reparenting (me : nat) (k : Z) s s' : Prop := {
  rp_len : length (procs s') = length (procs s);
  rp_lk : pt_lk s' = pt_lk s;
  rp_held : locks_held s' = locks_held s;
  rp_pid : nextpid s' = nextpid s;
  rp_init : initproc s' = initproc s;
  rp_at : forall j, woke (set_parent (parent (p_at s' j)) (p_at s j)) (p_at s' j);
  rp_parent : forall j, parent (p_at s' j) =
    if decide (Z.of_nat j < k /\ parent (p_at s j) = Some me) then initproc s else parent (p_at s j);
  rp_wake : forall j i, initproc s = Some i -> Z.of_nat j < k ->
    parent (p_at s j) = Some me -> state (p_at s j) = ZOMBIE -> ~ self_asleep s' i
}.

Lemma set_parent_id p : set_parent (parent p) p = p.
Proof. by destruct p. Qed.

Lemma rp_state me k s s' j :
  reparenting me k s s' ->
  state (p_at s' j) = state (p_at s j) \/ state (p_at s j) = SLEEPING /\ state (p_at s' j) = RUNNABLE.
Proof. intros Hr. by destruct (rp_at _ _ _ _ Hr j) as [_ _ _ _ ?]. Qed.

(** The state after one more entry: first the parent, then the wakeup. *)
Lemma reparent_entry me s s1 k (wake : bool) :
  let i := Z.to_nat k in
  let l1 := alter (set_parent (initproc s)) i (procs s1) in
  let s2 := PTable (if wake then wake_proc (ptr_chan (initproc s)) <$> l1 else l1)
              (pt_lk s1) (locks_held s1) (nextpid s1) (initproc s1) (penv s1) in
  0 <= k < Z.of_nat (length (procs s)) ->
  reparenting me k s s1 -> parent (p_at s1 i) = Some me ->
  (state (p_at s1 i) = ZOMBIE -> wake = true) ->
  reparenting me (k + 1) s s2.
Proof.
  intros i l1 s2 Hk Hr Hp Hz. pose proof Hr as [R1 R2 R3 R4 R5 R6 R7 R8].
  assert (Hps : parent (p_at s i) = Some me).
  { specialize (R7 i). rewrite decide_False in R7 by (unfold i; lia). congruence. }
  assert (Hi : (i < length (procs s1))%nat) by (rewrite R1; unfold i; lia).
  assert (Hl1 : forall j, nth j l1 zero_proc =
            if decide (j = i) then set_parent (initproc s) (p_at s1 j) else p_at s1 j).
  { intros j. unfold l1. destruct (decide (j = i)) as [->|]; [by rewrite nth_alter_eq|by rewrite nth_alter_ne]. }
  assert (Hat : forall j, woke (nth j l1 zero_proc) (p_at s2 j)).
  { intros j. unfold s2. destruct wake; [rewrite p_at_fmap; apply wake_proc_woke|rewrite p_at_mk; apply woke_refl]. }
  assert (Hpar : forall j, parent (p_at s2 j) = parent (nth j l1 zero_proc)) by (intros j; apply Hat).
  constructor; try done.
  - unfold s2, l1. destruct wake; simpl; by rewrite ?length_fmap, length_alter.
  - intros j. eapply woke_trans; [|apply Hat]. rewrite Hpar, Hl1. destruct (R6 j).
    destruct (decide (j = i)); by constructor.
  - intros j. rewrite Hpar, Hl1. destruct (decide (j = i)) as [->|Hji].
    + rewrite decide_True; [done|]. split; [unfold i; lia|done].
    + rewrite R7. repeat case_decide; naive_solver lia.
  - intros j i0 E0 Hj Hpj Hzj. destruct (decide (j = i)) as [->|Hji].
    + assert (state (p_at s1 i) = ZOMBIE) as Hz1%Hz by (destruct (rp_state _ _ _ _ i Hr) as [?|[? _]]; congruence).
      intros [Hs1 Hs2]. unfold s2 in Hs1, Hs2. rewrite Hz1, E0, p_at_fmap in Hs1, Hs2.
      revert Hs1. apply wake_proc_wakes. by destruct (wake_proc_woke (ptr_chan (Some i0)) (nth i0 l1 zero_proc)) as [_ _ <- _ _].
    + eapply (woke_awake (PTable l1 (pt_lk s1) (locks_held s1) (nextpid s1) (initproc s1) (penv s1))); [apply Hat|].
      intros [H1 H2]. rewrite p_at_mk, Hl1 in H1, H2.
      apply (R8 j i0 E0); [lia|done|done|]. by destruct (decide (i0 = i)).
Qed.

Lemma reparent_spec me s (R : ptable E -> Prop) :
  length (procs s) = nproc ->
  wlp (reparent me) s (fun _ s' => reparenting me (Z.of_nat nproc) s s') R.
Proof.
  intros Hlen. unfold reparent. do 3 wlp_step.
  apply (wlp_for _ _ _ _ (fun k s' => reparenting me k s s')).
  - constructor; try done.
    + intros j. rewrite set_parent_id. apply woke_refl.
    + intros j. by rewrite decide_False by lia.
    + lia.
  - intros k s1 Hk Hr. do 3 wlp_step. pose proof Hr as [R1 R2 R3 R4 R5 R6 R7 R8].
    case_bool_decide as Hp.
    + do 2 wlp_step. case_bool_decide as Hz.
      * do 2 wlp_step. apply (reparent_entry me s s1 k true); [lia|done|done|done].
      * do 2 wlp_step. apply (reparent_entry me s s1 k false); [lia|done|done|done].
    + do 2 wlp_step.
      assert (Hps : parent (p_at s (Z.to_nat k)) <> Some me).
      { specialize (R7 (Z.to_nat k)). rewrite decide_False in R7 by lia. congruence. }
      constructor; try done.
      * intros j. rewrite R7. destruct (decide (j = Z.to_nat k)) as [->|]; [by rewrite !decide_False by tauto|].
        repeat case_decide; naive_solver lia.
      * intros j i0 E0 Hj Hpj. apply (R8 j i0 E0); [|done]. assert (j <> Z.to_nat k) by congruence. lia.
  - intros s' Hr. by wlp_step.
Qed.

(** What exit has done when it enters the scheduler for the last time. *)
Record exit_post (me : nat) s s' : Prop := {
  ex_len : length (procs s') = length (procs s);
  ex_held : locks_held s' = locks_held s;
  ex_next : nextpid s' = nextpid s;
  ex_init : initproc s' = initproc s;
  ex_me : state (p_at s' me) = ZOMBIE;
  ex_pid : forall j, pid (p_at s' j) = pid (p_at s j);
  ex_chan : forall j, chan (p_at s' j) = chan (p_at s j);
  ex_thread : forall j, isThread (p_at s' j) = isThread (p_at s j);
  ex_state : forall j, j <> me ->
    state (p_at s' j) = state (p_at s j) \/ state (p_at s j) = SLEEPING /\ state (p_at s' j) = RUNNABLE;
  ex_parent : forall j, parent (p_at s' j) =
    if decide (parent (p_at s j) = Some me) then initproc s else parent (p_at s j);
  ex_wake_parent : forall q, parent (p_at s me) = Some q -> q <> me -> ~ self_asleep s' q;
  ex_wake_init : forall j i, initproc s = Some i -> i <> me ->
    parent (p_at s j) = Some me -> state (p_at s j) = ZOMBIE -> ~ self_asleep s' i
}.

(** The locked part of exit, shared with thread_exit. *)
Lemma exit_tail_spec me s0 s q (R : ptable E -> Prop) :
  length (procs s) = nproc -> (me < nproc)%nat -> same_table s0 s -> q = parent (p_at s me) ->
  (forall s', exit_post me s0 s' -> R s') ->
  wlp (wakeup1 (ptr_chan q) ;; reparent me ;; upd_proc me (set_state ZOMBIE) ;; sched me)
    (set_pt_lk true s) (fun _ _ => False) R.
Proof.
  intros Hlen Hme Hs -> HR. do 2 wlp_step. set (s1 := PTable _ _ _ _ _ _).
  assert (Hat1 : forall j, p_at s1 j = wake_proc (ptr_chan (parent (p_at s me))) (p_at s j))
    by (intros j; apply p_at_fmap).
  assert (Hw1 : forall j, woke (p_at s j) (p_at s1 j)) by (intros j; rewrite Hat1; apply wake_proc_woke).
  wlp_step. eapply wlp_mono;
    [apply reparent_spec; unfold s1; simpl; by rewrite length_fmap| |done].
  intros [] s2 Hr. cbv beta in Hr. pose proof Hr as [R1 R2 R3 R4 R5 R6 R7 R8].
  do 2 wlp_step. apply sched_spec, HR. set (s3 := PTable _ _ _ _ _ _).
  assert (Hlen2 : (me < length (procs s2))%nat) by (rewrite R1; unfold s1; simpl; rewrite length_fmap; lia).
  assert (Hat3 : forall j, p_at s3 j = if decide (j = me) then set_state ZOMBIE (p_at s2 j) else p_at s2 j).
  { intros j. unfold s3. destruct (decide (j = me)) as [->|]; by entry_simpl. }
  assert (Hes : forall j, essence (p_at s j) = essence (p_at s0 j)) by apply Hs.
  assert (Hall : forall j, pid (p_at s3 j) = pid (p_at s0 j) /\ chan (p_at s3 j) = chan (p_at s0 j) /\
            isThread (p_at s3 j) = isThread (p_at s0 j) /\ parent (p_at s3 j) = parent (p_at s2 j)).
  { intros j. rewrite Hat3. destruct (R6 j) as [A1 A2 A3 A4 A5], (Hw1 j) as [B1 B2 B3 B4 B5].
    pose proof (Hes j) as (C1 & C2 & C3 & C4 & C5)%essence_eq. simpl in *.
    destruct (decide (j = me)); simpl; split_and!; congruence. }
  assert (Hpar1 : forall j, parent (p_at s1 j) = parent (p_at s0 j)).
  { intros j. pose proof (Hes j) as (_ & _ & C3 & _)%essence_eq. destruct (Hw1 j) as [_ -> _ _ _]. done. }
  assert (Hself : forall j, j <> me -> ~ self_asleep s2 j -> ~ self_asleep s3 j).
  { intros j Hj Hn [H1 H2]. rewrite Hat3, decide_False in H1, H2 by done. by apply Hn. }
  constructor; try (intros j; by apply Hall).
  - unfold s3. simpl. rewrite length_alter, R1. unfold s1. simpl. rewrite length_fmap. apply Hs.
  - unfold s3. simpl. rewrite R3. apply Hs.
  - unfold s3. simpl. rewrite R4. apply Hs.
  - unfold s3. simpl. rewrite R5. apply Hs.
  - by rewrite Hat3, decide_True.
  - intros j Hj. rewrite Hat3, decide_False by done. pose proof (rp_state _ _ _ _ j Hr).
    destruct (Hw1 j) as [_ _ _ _ B5]. pose proof (Hes j) as (C1 & _)%essence_eq. naive_solver congruence.
  - intros j. destruct (Hall j) as (_ & _ & _ & ->). rewrite R7, Hpar1.
    replace (initproc s1) with (initproc s0) by (symmetry; apply Hs).
    destruct (decide (parent (p_at s0 j) = Some me)) as [Hp|Hp]; [|by rewrite decide_False by tauto].
    destruct (decide (Z.of_nat j < Z.of_nat nproc)); [by rewrite decide_True|].
    exfalso. rewrite p_at_oob in Hp; [done|]. rewrite <- (sm_len _ _ Hs). lia.
  - intros q Hq Hqm. apply Hself; [done|].
    apply (awake_mono s1); [apply (rp_state _ _ _ _ q Hr)|apply (R6 q)|].
    intros [H1 H2]. revert H1. rewrite Hat1. apply wake_proc_wakes.
    replace (parent (p_at s me)) with (Some q) by (pose proof (Hes me) as (_ & _ & -> & _)%essence_eq; done).
    simpl. rewrite <- H2. symmetry. apply (Hw1 q).
  - intros j i E0 Hi Hp Hz. apply Hself; [done|]. apply (R8 j i).
    + rewrite <- E0. apply Hs.
    + destruct (decide (Z.of_nat j < Z.of_nat nproc)); [done|].
      exfalso. rewrite p_at_oob in Hp; [done|]. rewrite <- (sm_len _ _ Hs). lia.
    + by rewrite Hpar1.
    + destruct (Hw1 j) as [_ _ _ _ [B5|[B5 _]]]; pose proof (Hes j) as (C1 & _)%essence_eq; congruence.
Qed.

Lemma exit_spec me s :
  length (procs s) = nproc -> state (p_at s me) = RUNNING ->
  wlp (exit me) s (fun _ _ => False) (fun s' => state (p_at s' me) = ZOMBIE -> initproc s <> Some me /\ exit_post me s s').
Proof.
  intros Hlen Hrun. assert (Hme : (me < nproc)%nat) by (rewrite <- Hlen; apply live_lt; by rewrite Hrun).
  assert (HR : forall s', same_table s s' -> state (p_at s' me) = ZOMBIE -> initproc s <> Some me /\ exit_post me s s').
  { intros s' Hs Hz. destruct Hs as [_ He _ _ _ _]. specialize (He me). apply essence_eq in He as (He & _). congruence. }
  unfold exit. do 2 wlp_step. case_bool_decide; [wlp_step|]. wlp_step.
  eapply wlp_mono; [by apply close_files_spec| |done]. intros [] s1 Hs1. cbv beta in Hs1.
  do 2 wlp_step; [|apply HR; by eapply same_table_trans, same_table_env].
  do 4 wlp_step; [|apply HR; by eapply same_table_trans, (same_table_env _ _)].
  do 2 wlp_step; [|apply HR; by eapply same_table_trans, (same_table_env _ _)].
  do 6 wlp_step.
  pose (s2 := PTable (alter (set_cwd 0) me (procs s1)) (pt_lk s1) (locks_held s1) (nextpid s1) (initproc s1) e1).
  assert (Hs2 : same_table s s2).
  { eapply same_table_trans; [eapply same_table_trans; [exact Hs1|apply (same_table_env _ e1)]|].
    by apply (same_table_alter (set_penv e1 s1) me (set_cwd 0)). }
  apply (exit_tail_spec me s s2); [by rewrite (sm_len _ _ Hs2)|done|done|done|by intros].
Qed.

Lemma thread_exit_spec me s :
  length (procs s) = nproc -> state (p_at s me) = RUNNING ->
  wlp (thread_exit me) s (fun _ _ => False) (fun s' => state (p_at s' me) = ZOMBIE -> initproc s <> Some me /\ exit_post me s s').
Proof. exact (exit_spec me s). Qed.

(** The scan of wait and thread_join. *)
Lemma scan_children_spec sel l : forall i hk,
  match scan_children sel l i hk with
  | (_, Some j) => exists k, j = (i + k)%nat /\ (k < length l)%nat /\
      sel (nth k l zero_proc) = true /\ state (nth k l zero_proc) = ZOMBIE
  | (b, None) => (b = true <-> hk = true \/ exists k, (k < length l)%nat /\ sel (nth k l zero_proc) = true) /\
      forall k, (k < length l)%nat -> sel (nth k l zero_proc) = true -> state (nth k l zero_proc) <> ZOMBIE
  end.
Proof.
  induction l as [|p l IH]; intros i hk; simpl.
  { split; [split; [by left|intros [?|(k & Hk & _)]; [done|lia]]|lia]. }
  destruct (sel p) eqn:Es; [destruct (decide (state p = ZOMBIE)) as [Hz|Hz]|].
  - exists 0%nat. split_and!; [lia|lia|done|done].
  - specialize (IH (S i) true). destruct (scan_children sel l (S i) true) as [b [j|]].
    + destruct IH as (k & -> & Hk & H1 & H2). exists (S k). split_and!; [lia|lia|done|done].
    + destruct IH as [Hb Hz']. split.
      * split; [|intros _; apply Hb; by left]. intros _. right. exists 0%nat. split; [lia|done].
      * intros [|k] Hk Hsel; [done|]. apply Hz'; [lia|done].
  - specialize (IH (S i) hk). destruct (scan_children sel l (S i) hk) as [b [j|]].
    + destruct IH as (k & -> & Hk & H1 & H2). exists (S k). split_and!; [lia|lia|done|done].
    + destruct IH as [Hb Hz']. split.
      * rewrite Hb. split; (intros [?|(k & Hk & H1)]; [by left|right]).
        -- exists (S k). split; [lia|done].
        -- destruct k; [congruence|]. exists k. split; [lia|done].
      * intros [|k] Hk Hsel; [congruence|]. apply Hz'; [lia|done].
Qed.

(** A zombie child was freed, or nothing changed. *)
Definition reap_post (me : nat) (sel : proc -> bool) s (r : Z) s' : Prop :=
  pt_lk s' = false /\ nextpid s' = nextpid s /\ locks_held s' = locks_held s /\ initproc s' = initproc s /\
  ((exists i, (i < length (procs s))%nat /\ sel (p_at s i) = true /\ state (p_at s i) = ZOMBIE /\
      only i s s' /\ r = pid (p_at s i) /\ state (p_at s' i) = UNUSED /\ parent (p_at s' i) = None /\
      pid (p_at s' i) = 0 /\ killed (p_at s' i) = 0) \/
   (r = -1 /\ procs s' = procs s /\
     ((forall j, sel (p_at s j) = true -> (j < length (procs s))%nat -> False) \/ killed (p_at s me) <> 0))).

(** The caller sleeps on its own entry, and no selected child is a zombie. *)
Record asleep_post (me : nat) (sel : proc -> bool) s s' : Prop := {
  as_only : only me s s';
  as_next : nextpid s' = nextpid s;
  as_state : state (p_at s' me) = SLEEPING;
  as_chan : chan (p_at s' me) = proc_chan me;
  as_keep : pid (p_at s' me) = pid (p_at s me) /\ parent (p_at s' me) = parent (p_at s me) /\
    isThread (p_at s' me) = isThread (p_at s me);
  as_none : forall j, (j < length (procs s))%nat -> sel (p_at s j) = true -> state (p_at s j) <> ZOMBIE;
  as_child : exists j, (j < length (procs s))%nat /\ sel (p_at s j) = true
}.

Lemma wait_sleep_spec me sel s k (R : ptable E -> Prop) (Q : Z -> ptable E -> Prop) hk :
  (me < length (procs s))%nat ->
  (hk = true <-> false = true \/ exists j, (j < length (procs s))%nat /\ sel (p_at s j) = true) ->
  (forall j, (j < length (procs s))%nat -> sel (p_at s j) = true -> state (p_at s j) <> ZOMBIE) ->
  k = killed (p_at s me) ->
  (forall s', reap_post me sel s (-1) s' -> Q (-1) s') ->
  (forall s', asleep_post me sel s s' -> R s') ->
  wlp (if negb hk || truth k then pt_release ;; kret (-1) else sleep me (proc_chan me) None ;; kret 0) s Q R.
Proof.
  intros Hme Hhk Hnz -> HQ HR. destruct (negb hk || truth (killed (p_at s me))) eqn:Eb.
  - do 3 wlp_step. apply HQ. split_and!; try done. right. split_and!; try done.
    apply orb_true_iff in Eb as [Eb%negb_true_iff|Eb]; [left|right].
    + intros j Hj Hlt. rewrite Eb in Hhk. destruct Hhk as [_ Hh]. discriminate Hh. right. eauto.
    + unfold truth in Eb. by apply negb_true_iff, Z.eqb_neq in Eb.
  - apply orb_false_iff in Eb as [Eb%negb_false_iff _]. unfold sleep. do 7 wlp_step. apply sched_spec, HR.
    apply Hhk in Eb as [?|Hch]; [done|].
    constructor; try done; [only_tac|by entry_simpl|by entry_simpl|by entry_simpl].
Qed.

Lemma wait_round_spec me s :
  state (p_at s me) = RUNNING ->
  wlp (wait_round me) s (reap_post me (child_of me) s)
    (fun s' => state (p_at s' me) <> RUNNING -> asleep_post me (child_of me) s s').
Proof.
  intros Hrun. assert (Hme : (me < length (procs s))%nat) by (apply live_lt; by rewrite Hrun).
  unfold wait_round. do 2 wlp_step.
  pose proof (scan_children_spec (child_of me) (procs s) 0 false) as Hsc.
  destruct (scan_children _ _ _ _) as [hk [i|]].
  - destruct Hsc as (k & -> & Hk & Hsel & Hz). rewrite Nat.add_0_l.
    change (nth k (procs s) zero_proc) with (p_at s k) in *.
    assert (Hkm : k <> me) by (intros ->; congruence).
    do 4 wlp_step; [|by entry_simpl].
    do 4 wlp_step; [|by entry_simpl]. do 13 wlp_step.
    split_and!; try done. left. exists k.
    split_and!; try done; [only_tac|by entry_simpl..].
  - destruct Hsc as [Hhk Hnz]. do 2 wlp_step.
    apply (wait_sleep_spec me (child_of me) s (killed (p_at s me))); try done; by intros.
Qed.

Lemma join_round_spec me s :
  state (p_at s me) = RUNNING ->
  wlp (join_round me) s (reap_post me (thread_child_of me) s)
    (fun s' => state (p_at s' me) <> RUNNING -> asleep_post me (thread_child_of me) s s').
Proof.
  intros Hrun. assert (Hme : (me < length (procs s))%nat) by (apply live_lt; by rewrite Hrun).
  unfold join_round. do 2 wlp_step.
  pose proof (scan_children_spec (thread_child_of me) (procs s) 0 false) as Hsc.
  destruct (scan_children _ _ _ _) as [hk [i|]].
  - destruct Hsc as (k & -> & Hk & Hsel & Hz). rewrite Nat.add_0_l.
    change (nth k (procs s) zero_proc) with (p_at s k) in *.
    do 17 wlp_step.
    split_and!; try done. left. exists k.
    split_and!; try done; [only_tac|by entry_simpl..].
  - destruct Hsc as [Hhk Hnz]. do 2 wlp_step.
    apply (wait_sleep_spec me (thread_child_of me) s (killed (p_at s me))); try done; by intros.
Qed.
End waits.
