(* ===== verification/ProcSys.v ===== *)
(** * Processes as a transition system

    The processes call the routines of proc.c, sleep in them and are resumed
    by the scheduler, in any order.  [pc] records where a process that is not
    running is suspended; the scheduler resumes it there. *)

From S2P Require Import Prelude Layout Proc ProcInv.

Inductive pc := Run | New | InYield | InSleep (lk : Z) | InMySleep (lk : Z) | InMutex (lk : Z) | InWait | InJoin.

Section system.
Context {E : Type} `{ProcEnv E}.
Implicit Types s : ptable E.
Implicit Types pcs : nat -> pc.

Definition at_pc pcs (i : nat) (c : pc) : nat -> pc := fun j => if decide (j = i) then c else pcs j.
Definition running s (me : nat) : Prop := state (p_at s me) = RUNNING.
Definition unlock s : ptable E := set_pt_lk false (set_locks_held ∅ s).
Definition lock s : ptable E := set_pt_lk true s.

(** Calls that return to the process that makes them. *)
Inductive call (me : nat) : K (ptable E) Z -> Prop :=
| call_fork : call me (fork me)
| call_thread_create fcn arg stack : call me (thread_create me fcn arg stack)
| call_wait : call me (wait me)
| call_join : call me (thread_join me)
| call_kill n : call me (kill n)
| call_mywakeup ch : call me (mywakeup ch)
| call_wakeup ch : call me (wakeup ch ;; kret 0).

(** The part of a routine that runs when the scheduler resumes it, from the
    context switch on, with ptable.lock held. *)
Definition resume (i : nat) (c : pc) : K (ptable E) unit :=
  match c with
  | InYield | New => pt_release
  | InSleep l => sleep_resume i (Some l)
  | InMySleep l => mysleep_resume i l
  | InMutex l => pt_release ;; kernel_mutex_lock i l
  | InWait => wait_resume i ;; kret tt
  | InJoin => thread_join_resume i ;; kret tt
  | Run => kpanic "not suspended"
  end.

(** Where the routine is suspended when it sleeps again. *)
Definition again (c : pc) : pc := match c with InMySleep l => InMutex l | _ => c end.

(** A call is one step from where the process runs to where it returns or sleeps.  For the
    calls that hold ptable.lock throughout this is what the code does.  fork and thread_create
    release it inside allocproc and when they have filled in the new entry; the entry is EMBRYO
    in between, and of an EMBRYO entry the other routines only read the state (kill may set
    killed, which nothing before the second release looks at), so they are one step too.  Pids
    do not wrap around: a call starts with nextpid below 2^31 - 1. *)
Inductive proc_step : ptable E * (nat -> pc) -> ptable E * (nat -> pc) -> Prop :=
| st_call me c r s s' pcs :
    running s me -> call me c -> nextpid s < 2147483647 -> c s = Ret r s' ->
    proc_step (s, pcs) (s', pcs)
| st_wait me ch s s' pcs :
    running s me -> wait me s = Sleep ch s' -> state (p_at s' me) = SLEEPING ->
    proc_step (s, pcs) (unlock s', at_pc pcs me InWait)
| st_join me ch s s' pcs :
    running s me -> thread_join me s = Sleep ch s' -> state (p_at s' me) = SLEEPING ->
    proc_step (s, pcs) (unlock s', at_pc pcs me InJoin)
| st_yield me ch s s' pcs :
    running s me -> yield me s = Sleep ch s' ->
    proc_step (s, pcs) (unlock s', at_pc pcs me InYield)
| st_sleep me chn l ch s s' pcs :
    running s me -> sleep me chn (Some l) (set_locks_held {[l]} s) = Sleep ch s' ->
    proc_step (s, pcs) (unlock s', at_pc pcs me (InSleep l))
| st_mysleep me chn l ch s s' pcs :
    running s me -> mysleep me chn l s = Sleep ch s' -> state (p_at s' me) = SLEEPING ->
    proc_step (s, pcs) (unlock s', at_pc pcs me (InMySleep l))
| st_exit me ch s s' pcs :
    running s me -> exit me s = Sleep ch s' -> state (p_at s' me) = ZOMBIE ->
    proc_step (s, pcs) (unlock s', at_pc pcs me New)
| st_thread_exit me ch s s' pcs :
    running s me -> thread_exit me s = Sleep ch s' -> state (p_at s' me) = ZOMBIE ->
    proc_step (s, pcs) (unlock s', at_pc pcs me New)
| st_resume from i s s1 s' pcs :
    scheduler_next from (lock s) = Ret (Some i) s1 -> resume i (pcs i) s1 = Ret tt s' ->
    proc_step (s, pcs) (unlock s', at_pc pcs i Run)
| st_resume_again from i ch s s1 s' pcs :
    scheduler_next from (lock s) = Ret (Some i) s1 -> resume i (pcs i) s1 = Sleep ch s' ->
    state (p_at s' i) <> RUNNING ->
    proc_step (s, pcs) (unlock s', at_pc pcs i (again (pcs i))).

Inductive proc_steps : ptable E * (nat -> pc) -> ptable E * (nat -> pc) -> Prop :=
| proc_steps_refl c : proc_steps c c
| proc_steps_step c1 c2 c3 : proc_steps c1 c2 -> proc_step c2 c3 -> proc_steps c1 c3.

(** ** The invariant *)

Definition live (st : procstate) : Prop := st <> UNUSED /\ st <> ZOMBIE.

Record pt_inv (s : ptable E) (pcs : nat -> pc) : Prop := {
  iv_len : length (procs s) = nproc;
  iv_init : exists ip, initproc s = Some ip /\ live (state (p_at s ip)) /\ parent (p_at s ip) = None;
  iv_next : 1 <= nextpid s <= 2147483647;
  iv_pid : forall i, state (p_at s i) <> UNUSED -> 1 <= pid (p_at s i) < nextpid s;
  iv_inj : forall i j, state (p_at s i) <> UNUSED -> state (p_at s j) <> UNUSED ->
    pid (p_at s i) = pid (p_at s j) -> i = j;
  iv_parent : forall i q, parent (p_at s i) = Some q ->
    state (p_at s i) <> UNUSED /\ q <> i /\ live (state (p_at s q));
  iv_wait : forall i, pcs i = InWait -> state (p_at s i) = SLEEPING ->
    chan (p_at s i) = proc_chan i /\ forall j, parent (p_at s j) = Some i -> state (p_at s j) <> ZOMBIE;
  iv_join : forall i, pcs i = InJoin -> state (p_at s i) = SLEEPING ->
    chan (p_at s i) = proc_chan i /\
    forall j, isThread (p_at s j) <> 0 -> parent (p_at s j) = Some i -> state (p_at s j) <> ZOMBIE
}.

(** The invariant does not read the locks or the environment. *)
Lemma pt_inv_frame s s' pcs :
  pt_inv s pcs -> procs s' = procs s -> nextpid s' = nextpid s -> initproc s' = initproc s -> pt_inv s' pcs.
Proof.
  intros [] Hp Hn Hi. assert (Hat : forall j, p_at s' j = p_at s j) by (intros j; unfold p_at; by rewrite Hp).
  constructor; rewrite ?Hp, ?Hn, ?Hi; repeat setoid_rewrite Hat; done.
Qed.

(** (A) entries that at most wake up. *)
Lemma pt_inv_woke s s' pcs :
  pt_inv s pcs -> length (procs s') = length (procs s) -> nextpid s' = nextpid s -> initproc s' = initproc s ->
  (forall j, woke (p_at s j) (p_at s' j)) -> pt_inv s' pcs.
Proof.
  intros [I1 I2 I3 I4 I5 I6 I7 I8] Hlen Hn Hi Hw.
  assert (Hst : forall j, state (p_at s' j) = state (p_at s j) \/
    state (p_at s j) = SLEEPING /\ state (p_at s' j) = RUNNABLE) by (intros j; apply Hw).
  assert (Hun : forall j, state (p_at s' j) = UNUSED <-> state (p_at s j) = UNUSED)
    by (intros j; destruct (Hst j) as [->|[-> ->]]; done).
  assert (Hzo : forall j, state (p_at s' j) = ZOMBIE <-> state (p_at s j) = ZOMBIE)
    by (intros j; destruct (Hst j) as [->|[-> ->]]; done).
  assert (Hsl : forall j, state (p_at s' j) = SLEEPING -> state (p_at s j) = SLEEPING)
    by (intros j; destruct (Hst j) as [->|[-> ->]]; done).
  constructor; rewrite ?Hlen, ?Hn, ?Hi; try done.
  - destruct I2 as (ip & ? & [? ?] & ?). exists ip. unfold live. rewrite Hun, Hzo.
    by destruct (Hw ip) as [_ -> _ _ _].
  - intros i. rewrite Hun. destruct (Hw i) as [-> _ _ _ _]. apply I4.
  - intros i j. rewrite !Hun. destruct (Hw i) as [-> _ _ _ _], (Hw j) as [-> _ _ _ _]. apply I5.
  - intros i q. unfold live. rewrite !Hun, Hzo. destruct (Hw i) as [_ -> _ _ _]. apply I6.
  - intros i Hpc Hs%Hsl. destruct (I7 i Hpc Hs) as [H1 H2]. split; [destruct (Hw i) as [_ _ -> _ _]; done|].
    intros j. rewrite Hzo. destruct (Hw j) as [_ -> _ _ _]. apply H2.
  - intros i Hpc Hs%Hsl. destruct (I8 i Hpc Hs) as [H1 H2]. split; [destruct (Hw i) as [_ _ -> _ _]; done|].
    intros j. rewrite Hzo. destruct (Hw j) as [_ -> _ -> _]. apply H2.
Qed.

(** (B) one live process changes its state or its channel, and its place. *)
Lemma pt_inv_only s s' pcs i c :
  pt_inv s pcs -> only i s s' -> nextpid s' = nextpid s ->
  live (state (p_at s i)) -> live (state (p_at s' i)) ->
  pid (p_at s' i) = pid (p_at s i) -> parent (p_at s' i) = parent (p_at s i) ->
  isThread (p_at s' i) = isThread (p_at s i) ->
  (c = InWait -> state (p_at s' i) = SLEEPING -> chan (p_at s' i) = proc_chan i /\
     forall j, parent (p_at s j) = Some i -> state (p_at s j) <> ZOMBIE) ->
  (c = InJoin -> state (p_at s' i) = SLEEPING -> chan (p_at s' i) = proc_chan i /\
     forall j, isThread (p_at s j) <> 0 -> parent (p_at s j) = Some i -> state (p_at s j) <> ZOMBIE) ->
  pt_inv s' (at_pc pcs i c).
Proof.
  intros [I1 I2 I3 I4 I5 I6 I7 I8] [O1 O2 O3 O4] Hn Hl Hl' Hpid Hpar Hth Hw Hj.
  assert (Hun : forall j, state (p_at s' j) = UNUSED <-> state (p_at s j) = UNUSED).
  { intros j. destruct (decide (j = i)) as [->|]; [destruct Hl, Hl'; tauto|by rewrite O2]. }
  assert (Hzo : forall j, state (p_at s' j) = ZOMBIE <-> state (p_at s j) = ZOMBIE).
  { intros j. destruct (decide (j = i)) as [->|]; [destruct Hl, Hl'; tauto|by rewrite O2]. }
  assert (Hp : forall j, pid (p_at s' j) = pid (p_at s j) /\ parent (p_at s' j) = parent (p_at s j) /\
             isThread (p_at s' j) = isThread (p_at s j)).
  { intros j. destruct (decide (j = i)) as [->|]; [done|by rewrite O2]. }
  constructor; rewrite ?O1, ?Hn, ?O4; try done.
  - destruct I2 as (ip & ? & [? ?] & ?). exists ip. unfold live. rewrite Hun, Hzo.
    by destruct (Hp ip) as (_ & -> & _).
  - intros j. rewrite Hun. destruct (Hp j) as [-> _]. apply I4.
  - intros j k. rewrite !Hun. destruct (Hp j) as [-> _], (Hp k) as [-> _]. apply I5.
  - intros j q. unfold live. rewrite !Hun, Hzo. destruct (Hp j) as (_ & -> & _). apply I6.
  - intros j. unfold at_pc. destruct (decide (j = i)) as [->|Hji].
    + intros Hc Hs. destruct (Hw Hc Hs) as [H1 H2]. split; [done|].
      intros k. rewrite Hzo. destruct (Hp k) as (_ & -> & _). apply H2.
    + rewrite (O2 j) by done. intros Hc Hs. destruct (I7 j Hc Hs) as [H1 H2]. split; [done|].
      intros k. rewrite Hzo. destruct (Hp k) as (_ & -> & _). apply H2.
  - intros j. unfold at_pc. destruct (decide (j = i)) as [->|Hji].
    + intros Hc Hs. destruct (Hj Hc Hs) as [H1 H2]. split; [done|].
      intros k. rewrite Hzo. destruct (Hp k) as (_ & -> & ->). apply H2.
    + rewrite (O2 j) by done. intros Hc Hs. destruct (I8 j Hc Hs) as [H1 H2]. split; [done|].
      intros k. rewrite Hzo. destruct (Hp k) as (_ & -> & ->). apply H2.
Qed.

(** (C) a new process. *)
Lemma pt_inv_spawn me s s' r pcs :
  pt_inv s pcs -> running s me -> nextpid s < 2147483647 -> spawn_post me s r s' -> pt_inv s' pcs.
Proof.
  intros Hinv Hrun Hmax (_ & Hcase). pose proof Hinv as [I1 I2 I3 I4 I5 I6 I7 I8].
  destruct Hcase as [(np & Hu & Hlt & [O1 O2 O3 O4] & Hn & -> & Hst & Hpid & Hpar & _)
    |[(-> & np & [Hu Hlt] & [O1 O2 O3 O4] & Hn & Hst & Hpar)|(-> & Hp & Hn & Hi & _)]].
  3: { by apply (pt_inv_frame s). }
  all: assert (Hnext : nextpid s' = nextpid s + 1) by (rewrite Hn; apply s32_small; lia).
  all: assert (Hnochild : forall j, parent (p_at s j) <> Some np)
    by (intros j Hj; destruct (I6 j np Hj) as (_ & _ & [? _]); done).
  - assert (Hmn : me <> np) by (intros ->; unfold running in Hrun; congruence).
    assert (Hlv : forall j, live (state (p_at s j)) -> live (state (p_at s' j))).
    { intros j [? ?]. destruct (decide (j = np)) as [->|]; [by rewrite Hst|by rewrite O2]. }
    constructor; try congruence.
    + destruct I2 as (ip & ? & Hip & ?). exists ip. rewrite O4. split_and!; [done|by apply Hlv|].
      rewrite O2; [done|]. intros ->. by destruct Hip.
    + lia.
    + intros i Hi. destruct (decide (i = np)) as [->|]; [rewrite Hpid; lia|].
      rewrite (O2 i) in Hi |- * by done. specialize (I4 i Hi). lia.
    + intros i j Hi Hj. destruct (decide (i = np)) as [->|], (decide (j = np)) as [->|]; [done| | |].
      * rewrite (O2 j) in Hj |- * by done. rewrite Hpid. intros Heq. specialize (I4 j Hj). lia.
      * rewrite (O2 i) in Hi |- * by done. rewrite Hpid. intros Heq. specialize (I4 i Hi). lia.
      * rewrite (O2 i), (O2 j) by done. rewrite (O2 i) in Hi by done. rewrite (O2 j) in Hj by done. by apply I5.
    + intros i q. destruct (decide (i = np)) as [->|Hi].
      * rewrite Hpar. intros [= <-]. split_and!; [by rewrite Hst|done|]. apply Hlv. by rewrite Hrun.
      * rewrite O2 by done. intros Hp. destruct (I6 i q Hp) as (? & ? & ?). split_and!; [done|done|by apply Hlv].
    + intros i Hpc Hs. destruct (decide (i = np)) as [->|Hi]; [congruence|]. rewrite (O2 i) in Hs |- * by done.
      destruct (I7 i Hpc Hs) as [? Hz]. split; [done|]. intros j. destruct (decide (j = np)) as [->|]; [by rewrite Hst|].
      rewrite O2 by done. apply Hz.
    + intros i Hpc Hs. destruct (decide (i = np)) as [->|Hi]; [congruence|]. rewrite (O2 i) in Hs |- * by done.
      destruct (I8 i Hpc Hs) as [? Hz]. split; [done|]. intros j. destruct (decide (j = np)) as [->|]; [by rewrite Hst|].
      rewrite O2 by done. apply Hz.
  - assert (Hst' : forall j, state (p_at s' j) = state (p_at s j))
      by (intros j; destruct (decide (j = np)) as [->|]; [congruence|by rewrite O2]).
    assert (Hpar' : forall j, parent (p_at s' j) = parent (p_at s j))
      by (intros j; destruct (decide (j = np)) as [->|]; [done|by rewrite O2]).
    assert (Hother : forall j, state (p_at s j) <> UNUSED -> p_at s' j = p_at s j)
      by (intros j Hj; apply O2; congruence).
    constructor; try congruence.
    + destruct I2 as (ip & ? & Hip). exists ip. by rewrite O4, Hst', Hpar'.
    + lia.
    + intros i. rewrite Hst'. intros Hi. rewrite Hother by done. specialize (I4 i Hi). lia.
    + intros i j. rewrite !Hst'. intros Hi Hj. rewrite !Hother by done. by apply I5.
    + intros i q. rewrite Hpar', !Hst'. apply I6.
    + intros i Hpc. rewrite Hst'. intros Hs. rewrite Hother by congruence. destruct (I7 i Hpc Hs) as [? Hz].
      split; [done|]. intros j. rewrite Hpar', Hst'. apply Hz.
    + intros i Hpc. rewrite Hst'. intros Hs. rewrite Hother by congruence. destruct (I8 i Hpc Hs) as [? Hz].
      split; [done|]. intros j Ht. rewrite Hpar'. intros Hp. destruct (I6 j i Hp) as (Hju & _).
      rewrite Hother in * by done. by apply Hz.
Qed.

(** (D) a zombie is freed. *)
Lemma pt_inv_reap me sel s s' r pcs : pt_inv s pcs -> reap_post me sel s r s' -> pt_inv s' pcs.
Proof.
  intros Hinv (_ & Hn & _ & Hi & Hcase). pose proof Hinv as [I1 I2 I3 I4 I5 I6 I7 I8].
  destruct Hcase as [(k & Hlt & _ & Hz & [O1 O2 O3 O4] & _ & Hst & Hpar & _)|(_ & Hp & _)];
    [|by apply (pt_inv_frame s)].
  assert (Hlv : forall j, live (state (p_at s j)) -> j <> k) by (intros j [_ ?] ->; done).
  constructor; rewrite ?Hn; try congruence.
  - destruct I2 as (ip & ? & Hip & ?). exists ip. rewrite O4, O2 by (by apply Hlv). done.
  - intros i. destruct (decide (i = k)) as [->|]; [done|]. rewrite O2 by done. apply I4.
  - intros i j. destruct (decide (i = k)) as [->|], (decide (j = k)) as [->|]; try done.
    rewrite !O2 by done. apply I5.
  - intros i q. destruct (decide (i = k)) as [->|]; [by rewrite Hpar|]. rewrite O2 by done.
    intros Hp. destruct (I6 i q Hp) as (? & ? & Hq). rewrite (O2 q) by (by apply Hlv). done.
  - intros i Hpc Hs. destruct (decide (i = k)) as [->|]; [congruence|]. rewrite (O2 i) in Hs |- * by done.
    destruct (I7 i Hpc Hs) as [? Hz']. split; [done|]. intros j.
    destruct (decide (j = k)) as [->|]; [congruence|]. rewrite O2 by done. apply Hz'.
  - intros i Hpc Hs. destruct (decide (i = k)) as [->|]; [congruence|]. rewrite (O2 i) in Hs |- * by done.
    destruct (I8 i Hpc Hs) as [? Hz']. split; [done|]. intros j.
    destruct (decide (j = k)) as [->|]; [congruence|]. rewrite O2 by done. apply Hz'.
Qed.

(** (E) a process exits. *)
Lemma pt_inv_exit me s s' pcs :
  pt_inv s pcs -> running s me -> initproc s <> Some me -> exit_post me s s' ->
  pt_inv s' (at_pc pcs me New).
Proof.
  intros [I1 I2 I3 I4 I5 I6 I7 I8] Hrun Hnot [X1 X2 X3 X4 X5 X6 X7 X8 X9 X10 X11 X12].
  destruct I2 as (ip & Hip & Hlip & Hpip). assert (Hipm : ip <> me) by congruence. unfold running in Hrun.
  assert (Hun : forall j, state (p_at s' j) = UNUSED <-> state (p_at s j) = UNUSED).
  { intros j. destruct (decide (j = me)) as [->|Hj]; [by rewrite X5, Hrun|].
    destruct (X9 j Hj) as [->|[-> ->]]; done. }
  assert (Hlv : forall j, j <> me -> live (state (p_at s j)) -> live (state (p_at s' j))).
  { intros j Hj [? ?]. unfold live. rewrite Hun. split; [done|]. destruct (X9 j Hj) as [->|[_ ->]]; done. }
  assert (Hzo : forall j, state (p_at s' j) = ZOMBIE -> j = me \/ state (p_at s j) = ZOMBIE).
  { intros j Hz. destruct (decide (j = me)) as [->|Hj]; [by left|right].
    destruct (X9 j Hj) as [<-|[_ Hr]]; [done|congruence]. }
  assert (Hsl : forall i, state (p_at s' i) = SLEEPING -> i <> me /\ state (p_at s i) = SLEEPING).
  { intros i Hs. assert (i <> me) by congruence. split; [done|]. destruct (X9 i) as [<-|[? _]]; done. }
  (* a process asleep on its own entry has no zombie child afterwards *)
  assert (Hnoz : forall i j, self_asleep s' i -> parent (p_at s' j) = Some i -> state (p_at s' j) = ZOMBIE ->
            parent (p_at s j) = Some i /\ state (p_at s j) = ZOMBIE).
  { intros i j Has Hp Hz. destruct (Hsl i) as [Him _]; [apply Has|]. rewrite X10 in Hp.
    destruct (decide (parent (p_at s j) = Some me)) as [Hpm|Hpm].
    - assert (i = ip) as -> by congruence. destruct (Hzo j Hz) as [->|Hzj].
      + destruct (I6 me me Hpm) as (_ & ? & _). done.
      + exfalso. by apply (X12 j ip Hip Hipm Hpm Hzj).
    - destruct (Hzo j Hz) as [->|Hzj]; [|done]. exfalso. by apply (X11 i Hp Him). }
  constructor; rewrite ?X3, ?X4; try congruence.
  - exists ip. split_and!; [done|by apply Hlv|]. by rewrite X10, Hpip, decide_False.
  - intros i. rewrite Hun, X6. apply I4.
  - intros i j. rewrite !Hun, !X6. apply I5.
  - intros i q. rewrite X10, Hun. destruct (decide (parent (p_at s i) = Some me)) as [Hp|Hp].
    + rewrite Hip. intros [= <-]. destruct (I6 i me Hp) as (? & ? & _). split_and!; [done| |by apply Hlv].
      intros <-. congruence.
    + intros Hq. destruct (I6 i q Hq) as (? & ? & ?). split_and!; [done|done|]. apply Hlv; [congruence|done].
  - intros i Hpc Hs. destruct (Hsl i Hs) as [Him Hs0]. unfold at_pc in Hpc. rewrite decide_False in Hpc by done.
    destruct (I7 i Hpc Hs0) as [Hch Hz]. rewrite X7. split; [done|]. intros j Hp Hzj.
    destruct (Hnoz i j) as [Hp0 Hz0]; [split; [done|by rewrite X7]|done|done|]. by apply (Hz j).
  - intros i Hpc Hs. destruct (Hsl i Hs) as [Him Hs0]. unfold at_pc in Hpc. rewrite decide_False in Hpc by done.
    destruct (I8 i Hpc Hs0) as [Hch Hz]. rewrite X7. split; [done|]. intros j Ht Hp Hzj. rewrite X8 in Ht.
    destruct (Hnoz i j) as [Hp0 Hz0]; [split; [done|by rewrite X7]|done|done|]. by apply (Hz j).
Qed.

(** ** Every step preserves the invariant *)

Lemma pt_inv_ext s pcs pcs' : (forall j, pcs j = pcs' j) -> pt_inv s pcs -> pt_inv s pcs'.
Proof.
  intros Hp []. constructor; try done; intros i; rewrite <- Hp; auto.
Qed.

Lemma wakeup1_woke ch s :
  forall j, woke (p_at s j) (p_at (set_procs (wake_proc ch <$> procs s) s) j).
Proof. intros j. unfold set_procs. rewrite p_at_fmap. apply wake_proc_woke. Qed.

Lemma find_pid_spec n l : forall i j, find_pid n l i = Some j ->
  exists k, j = (i + k)%nat /\ (k < length l)%nat /\ pid (nth k l zero_proc) = n.
Proof.
  induction l as [|p l IH]; intros i j; simpl; [done|]. destruct (Z.eqb_spec (pid p) n).
  - intros [= <-]. exists 0%nat. split_and!; [lia|lia|done].
  - intros (k & -> & ? & ?)%IH. exists (S k). split_and!; [lia|lia|done].
Qed.

(** kill marks the process that has the pid and wakes it if it sleeps. *)
Lemma kill_spec n s R :
  wlp (kill n) s (fun r s' => length (procs s') = length (procs s) /\ nextpid s' = nextpid s /\
    initproc s' = initproc s /\ forall j, woke (p_at s j) (p_at s' j)) R.
Proof.
  unfold kill. do 4 wlp_step. pt_norm. destruct (find_pid n (procs s) 0) as [i|] eqn:Ef.
  - apply find_pid_spec in Ef as (k & -> & Hk & _). rewrite Nat.add_0_l. do 7 wlp_step.
    split_and!; try done; [simpl; by rewrite !length_alter|].
    intros j. destruct (decide (j = k)) as [->|]; entry_simpl; [|apply woke_refl].
    case_decide as Hs; constructor; try done; [by right|by left].
  - do 3 wlp_step. split_and!; try done. intros j. apply woke_refl.
Qed.

Lemma call_inv me c s pcs :
  call me c -> running s me -> nextpid s < 2147483647 -> pt_inv s pcs ->
  wlp c s (fun _ s' => pt_inv s' pcs) (fun _ => True).
Proof.
  intros Hc Hrun Hmax Hinv. assert (Hnu : state (p_at s me) <> UNUSED) by (by rewrite Hrun).
  destruct Hc.
  - eapply wlp_mono; [by apply fork_spec| |done]. intros r s' Hs. by eapply pt_inv_spawn.
  - eapply wlp_mono; [by apply thread_create_spec| |done]. intros r s' [Hs|[_ ->]]; [by eapply pt_inv_spawn|done].
  - unfold wait. do 2 wlp_step. eapply wlp_mono; [by apply (wait_round_spec me (lock s))| |done].
    intros r s' Hs. eapply pt_inv_reap, Hs. by apply (pt_inv_frame s).
  - unfold thread_join. do 2 wlp_step. eapply wlp_mono; [by apply (join_round_spec me (lock s))| |done].
    intros r s' Hs. eapply pt_inv_reap, Hs. by apply (pt_inv_frame s).
  - eapply wlp_mono; [apply (kill_spec n s (fun _ => True))| |done].
    intros r s' (? & ? & ? & ?). by apply (pt_inv_woke s).
  - unfold mywakeup. do 7 wlp_step. apply (pt_inv_woke s); try done; [simpl; by rewrite length_fmap|].
    intros j. apply (wakeup1_woke ch s).
  - unfold wakeup. do 7 wlp_step. apply (pt_inv_woke s); try done; [simpl; by rewrite length_fmap|].
    intros j. apply (wakeup1_woke ch s).
Qed.

(** The process [me] leaves the processor: only its own entry changes. *)
Definition leave_post (me : nat) (st : procstate) s s' : Prop :=
  only me s s' /\ nextpid s' = nextpid s /\ state (p_at s' me) = st /\ pid (p_at s' me) = pid (p_at s me) /\
  parent (p_at s' me) = parent (p_at s me) /\ isThread (p_at s' me) = isThread (p_at s me).

Lemma leave_inv me s s' pcs c st :
  pt_inv s pcs -> running s me -> live st -> c <> InWait -> c <> InJoin ->
  leave_post me st s s' -> pt_inv (unlock s') (at_pc pcs me c).
Proof.
  intros Hinv Hrun Hst Hc1 Hc2 (Ho & Hn & Hs & H1 & H2 & H3).
  apply (pt_inv_frame s'); [|done..]. eapply (pt_inv_only s); try done; by rewrite ?Hrun, ?Hs.
Qed.

Lemma asleep_inv me s s' pcs :
  pt_inv s pcs -> running s me -> asleep_post me (child_of me) s s' ->
  pt_inv (unlock s') (at_pc pcs me InWait).
Proof.
  intros Hinv Hrun [Ho Hn Hs Hc (K1 & K2 & K3) Hz _]. apply (pt_inv_frame s'); [|done..].
  eapply (pt_inv_only s); try done; [by rewrite Hrun|by rewrite Hs|].
  intros _ _. split; [done|]. intros j Hp. apply Hz; [|by apply bool_decide_eq_true].
  apply live_lt. by destruct (iv_parent _ _ Hinv j me Hp).
Qed.

Lemma asleep_join_inv me s s' pcs :
  pt_inv s pcs -> running s me -> asleep_post me (thread_child_of me) s s' ->
  pt_inv (unlock s') (at_pc pcs me InJoin).
Proof.
  intros Hinv Hrun [Ho Hn Hs Hc (K1 & K2 & K3) Hz _]. apply (pt_inv_frame s'); [|done..].
  eapply (pt_inv_only s); try done; [by rewrite Hrun|by rewrite Hs|].
  intros _ _. split; [done|]. intros j Ht Hp. apply Hz.
  - apply live_lt. by destruct (iv_parent _ _ Hinv j me Hp).
  - unfold thread_child_of, child_of. apply Z.eqb_neq in Ht as ->. by rewrite bool_decide_eq_true_2.
Qed.

Lemma yield_spec me s :
  (me < length (procs s))%nat -> wlp (yield me) s (fun _ _ => False) (leave_post me RUNNABLE s).
Proof.
  intros Hme. unfold yield. do 4 wlp_step. apply sched_spec.
  unfold leave_post. split_and!; try done; [only_tac|by entry_simpl..].
Qed.

Lemma sleep_spec me chn l s :
  (me < length (procs s))%nat ->
  wlp (sleep me chn (Some l)) (set_locks_held {[l]} s) (fun _ _ => False)
    (leave_post me SLEEPING (set_locks_held ∅ s)).
Proof.
  intros Hme. unfold sleep, other_release. do 5 wlp_step. case_bool_decide as Hl; [|wlp_step].
  do 5 wlp_step. apply sched_spec. unfold leave_post.
  split_and!; try done; [|by entry_simpl..].
  constructor; cbn; [by rewrite !length_alter| |set_solver|done].
  intros j Hj. unfold p_at. cbn. by rewrite !nth_alter_ne by done.
Qed.

Lemma mysleep_spec me chn l s :
  running s me ->
  wlp (mysleep me chn l) s (fun _ _ => False)
    (fun s' => state (p_at s' me) = SLEEPING -> leave_post me SLEEPING s s').
Proof.
  intros Hrun. assert (Hme : (me < length (procs s))%nat) by (apply live_lt; by rewrite Hrun).
  unfold mysleep, kernel_mutex_unlock. destruct (l =? 0); [wlp_step|]. do 6 wlp_step.
  - do 4 wlp_step. apply sched_spec. intros _. unfold leave_post.
    split_and!; try done; [only_tac|by entry_simpl..].
  - rewrite p_at_mk. change (nth me (procs s) zero_proc) with (p_at s me). unfold running in Hrun. congruence.
Qed.

Lemma kernel_mutex_lock_spec me l s :
  running s me ->
  wlp (kernel_mutex_lock me l) s (fun _ s' => leave_post me RUNNING s s')
    (fun s' => state (p_at s' me) <> RUNNING -> leave_post me RUNNABLE s s').
Proof.
  intros Hrun. assert (Hme : (me < length (procs s))%nat) by (apply live_lt; by rewrite Hrun).
  unfold kernel_mutex_lock. do 4 wlp_step; [|by intros []; rewrite p_at_mk].
  set (s1 := PTable _ _ _ _ _ _).
  assert (Hs1 : only me s s1) by (by constructor). assert (Hat : p_at s1 me = p_at s me) by done.
  destruct (_ =? 0).
  - wlp_step. unfold leave_post. by rewrite Hat.
  - eapply wlp_mono; [by apply yield_spec|done|]. intros s' (Ho & Hn & H1 & H2 & H3 & H4) _.
    unfold leave_post. rewrite H2, H3, H4, Hat. split_and!; try done. by eapply only_trans.
Qed.

Lemma leave_trans me st1 st2 s1 s2 s3 :
  leave_post me st1 s1 s2 -> leave_post me st2 s2 s3 -> leave_post me st2 s1 s3.
Proof.
  intros (A1 & A2 & A3 & A4 & A5 & A6) (B1 & B2 & B3 & B4 & B5 & B6). unfold leave_post.
  split_and!; try congruence. by eapply only_trans.
Qed.

Lemma find_runnable_spec l : forall i j, find_runnable l i = Some j ->
  exists k, j = (i + k)%nat /\ (k < length l)%nat /\ state (nth k l zero_proc) = RUNNABLE.
Proof.
  induction l as [|p l IH]; intros i j; simpl; [done|]. destruct (decide (state p = RUNNABLE)).
  - intros [= <-]. exists 0%nat. split_and!; [lia|lia|done].
  - intros (k & -> & ? & ?)%IH. exists (S k). split_and!; [lia|lia|done].
Qed.

(** The scheduler picks a runnable process and marks it running. *)
Lemma scheduler_next_spec from s :
  wlp (scheduler_next from) s (fun r s' =>
    match r with
    | Some i => (i < length (procs s))%nat /\ state (p_at s i) = RUNNABLE /\ leave_post i RUNNING s s'
    | None => s' = s
    end) (fun _ => True).
Proof.
  unfold scheduler_next. do 2 wlp_step. destruct (find_runnable (drop from (procs s)) from) as [i|] eqn:Ef;
    [|by wlp_step].
  apply find_runnable_spec in Ef as (k & -> & Hk & Hs). rewrite nth_skipn in Hs. rewrite length_drop in Hk.
  do 4 wlp_step; [|done]. do 3 wlp_step. split; [lia|]. split; [done|].
  unfold leave_post. split_and!; try done; [only_tac|by entry_simpl..].
Qed.

(** What a resumed routine does, from an invariant state in which its process
    has just become running. *)
Lemma resume_inv i c s pcs :
  pt_inv s (at_pc pcs i Run) -> running s i ->
  wlp (resume i c) s (fun _ s' => pt_inv s' (at_pc pcs i Run))
    (fun s' => state (p_at s' i) <> RUNNING -> pt_inv (unlock s') (at_pc pcs i (again c))).
Proof.
  intros Hinv Hrun. assert (Hi : (i < length (procs s))%nat) by (apply live_lt; by rewrite Hrun).
  assert (Hpc : forall c1 c2 j, at_pc (at_pc pcs i c1) i c2 j = at_pc pcs i c2 j)
    by (intros; unfold at_pc; by destruct (decide _)).
  assert (Hpc' : forall c0, c0 = Run -> forall s', pt_inv s' (at_pc (at_pc pcs i Run) i c0) -> pt_inv s' (at_pc pcs i Run))
    by (intros c0 -> s'; apply pt_inv_ext, Hpc).
  (* the tidying up of sleep *)
  pose (s1 := set_procs (alter (set_chan 0) i (procs s)) s).
  assert (Hat1 : p_at s1 i = set_chan 0 (p_at s i)) by (unfold s1; rewrite p_at_alter by done; by rewrite decide_True).
  assert (Hrun1 : running s1 i) by (unfold running; rewrite Hat1; exact Hrun).
  assert (Ho1 : only i s s1).
  { constructor; try done; unfold s1; simpl; [by rewrite length_alter|].
    intros j Hj. rewrite p_at_alter by done. by rewrite decide_False. }
  assert (Hinv1 : pt_inv s1 (at_pc pcs i Run)).
  { apply (Hpc' Run eq_refl). eapply (pt_inv_only s); try done; try (by rewrite ?Hrun, ?Hrun1); by rewrite Hat1. }
  assert (Hl1 : leave_post i RUNNING s1 s1) by (unfold leave_post; split_and!; try done; apply only_refl).
  (* taking the user mutex again *)
  assert (Hmutex : forall l s2, pt_inv s2 (at_pc pcs i Run) -> running s2 i ->
    wlp (kernel_mutex_lock i l) s2 (fun _ s' => pt_inv s' (at_pc pcs i Run))
      (fun s' => state (p_at s' i) <> RUNNING -> pt_inv (unlock s') (at_pc pcs i (InMutex l)))).
  { intros l s2 Hinv2 Hrun2. eapply wlp_mono; [by apply kernel_mutex_lock_spec| |].
    - intros [] s' Hl. cbv beta in Hl. apply (Hpc' Run eq_refl).
      destruct Hl as (L1 & L2 & L3 & L4 & L5 & L6). eapply (pt_inv_only s2); try done; by rewrite ?Hrun2, ?L3.
    - intros s' Hl Hst. eapply pt_inv_ext; [apply (Hpc Run)|]. eapply (leave_inv i s2); try done; [|by apply Hl]. done. }
  destruct c as [| | |l|l|l| |]; cbn [resume again].
  - wlp_step.
  - wlp_step. by apply (pt_inv_frame s).
  - wlp_step. by apply (pt_inv_frame s).
  - unfold sleep_resume, other_acquire. do 6 wlp_step. case_bool_decide; wlp_step. by apply (pt_inv_frame s1).
  - unfold mysleep_resume. do 4 wlp_step. apply Hmutex; [by apply (pt_inv_frame s1)|done].
  - do 2 wlp_step. apply Hmutex; [by apply (pt_inv_frame s)|done].
  - unfold wait_resume, sleep_resume. do 5 wlp_step.
    eapply wlp_mono; [apply (wait_round_spec i s1 Hrun1)| |].
    + intros r s' Hr. wlp_step. by eapply pt_inv_reap.
    + intros s' Ha Hst. eapply pt_inv_ext; [apply (Hpc Run)|]. by eapply (asleep_inv i s1); [| |apply Ha].
  - unfold thread_join_resume, sleep_resume. do 5 wlp_step.
    eapply wlp_mono; [apply (join_round_spec i s1 Hrun1)| |].
    + intros r s' Hr. wlp_step. by eapply pt_inv_reap.
    + intros s' Ha Hst. eapply pt_inv_ext; [apply (Hpc Run)|]. by eapply (asleep_join_inv i s1); [| |apply Ha].
Qed.

Lemma proc_step_inv c c' : proc_step c c' -> pt_inv c.1 c.2 -> pt_inv c'.1 c'.2.
Proof.
  intros Hs Hinv. destruct Hs as [me c r s s' pcs Hr Hc Hmax Ec|me ch s s' pcs Hr Ec Hst|me ch s s' pcs Hr Ec Hst
    |me ch s s' pcs Hr Ec|me chn l ch s s' pcs Hr Ec|me chn l ch s s' pcs Hr Ec Hst|me ch s s' pcs Hr Ec Hst
    |me ch s s' pcs Hr Ec Hst|from i s s1 s' pcs En Er|from i ch s s1 s' pcs En Er Hst]; simpl in *.
  - by eapply (wlp_use _ _ _ _ (call_inv me c s pcs Hc Hr Hmax Hinv)).
  - assert (Hw : wlp (wait me) s (fun _ _ => True) (fun s' => state (p_at s' me) <> RUNNING ->
      asleep_post me (child_of me) (lock s) s')).
    { unfold wait. do 2 wlp_step. eapply wlp_mono; [by apply (wait_round_spec me (lock s))|done|done]. }
    apply (asleep_inv me (lock s)); [by apply (pt_inv_frame s)|done|].
    apply (proj2 (wlp_use _ _ _ _ Hw) _ _ Ec). congruence.
  - assert (Hw : wlp (thread_join me) s (fun _ _ => True) (fun s' => state (p_at s' me) <> RUNNING ->
      asleep_post me (thread_child_of me) (lock s) s')).
    { unfold thread_join. do 2 wlp_step. eapply wlp_mono; [by apply (join_round_spec me (lock s))|done|done]. }
    apply (asleep_join_inv me (lock s)); [by apply (pt_inv_frame s)|done|].
    apply (proj2 (wlp_use _ _ _ _ Hw) _ _ Ec). congruence.
  - eapply (leave_inv me s); try done;
      [|apply (proj2 (wlp_use _ _ _ _ (yield_spec me s (live_lt s me ltac:(by rewrite Hr)))) _ _ Ec)]. done.
  - eapply (leave_inv me (set_locks_held ∅ s)); try done;
      [by apply (pt_inv_frame s)| |apply (proj2 (wlp_use _ _ _ _ (sleep_spec me chn l s (live_lt s me ltac:(by rewrite Hr)))) _ _ Ec)].
    done.
  - eapply (leave_inv me s); try done;
      [|by apply (proj2 (wlp_use _ _ _ _ (mysleep_spec me chn l s Hr)) _ _ Ec)]. done.
  - destruct (proj2 (wlp_use _ _ _ _ (exit_spec me s (iv_len _ _ Hinv) Hr)) _ _ Ec Hst) as [Hni Hx].
    apply (pt_inv_frame s'); [|done..]. by eapply pt_inv_exit.
  - destruct (proj2 (wlp_use _ _ _ _ (thread_exit_spec me s (iv_len _ _ Hinv) Hr)) _ _ Ec Hst) as [Hni Hx].
    apply (pt_inv_frame s'); [|done..]. by eapply pt_inv_exit.
  - destruct (proj1 (wlp_use _ _ _ _ (scheduler_next_spec from (lock s))) _ _ En) as (Hi & Hrb & Hl).
    destruct Hl as (L1 & L2 & L3 & L4 & L5 & L6).
    assert (Hinv1 : pt_inv s1 (at_pc pcs i Run)).
    { eapply (pt_inv_only (lock s)); try done; [by apply (pt_inv_frame s)|by rewrite Hrb|by rewrite L3]. }
    apply (pt_inv_frame s'); [|done..].
    by apply (proj1 (wlp_use _ _ _ _ (resume_inv i (pcs i) s1 pcs Hinv1 L3)) _ _ Er).
  - destruct (proj1 (wlp_use _ _ _ _ (scheduler_next_spec from (lock s))) _ _ En) as (Hi & Hrb & Hl).
    destruct Hl as (L1 & L2 & L3 & L4 & L5 & L6).
    assert (Hinv1 : pt_inv s1 (at_pc pcs i Run)).
    { eapply (pt_inv_only (lock s)); try done; [by apply (pt_inv_frame s)|by rewrite Hrb|by rewrite L3]. }
    by apply (proj2 (wlp_use _ _ _ _ (resume_inv i (pcs i) s1 pcs Hinv1 L3)) _ _ Er).
Qed.

Lemma proc_steps_inv c c' : proc_steps c c' -> pt_inv c.1 c.2 -> pt_inv c'.1 c'.2.
Proof. induction 1; eauto using proc_step_inv. Qed.
End system.
