(* ===== verification/ProcProps.v ===== *)
(** * Properties of the process table *)

From S2P Require Import Prelude Layout Proc ProcInv ProcSys.

Section props.
Context {E : Type} `{ProcEnv E}.

(** The table in zeroed memory. *)
Definition pt_boot (e : E) : ptable E := PTable (replicate nproc zero_proc) false ∅ 1 None e.

Lemma p_at_boot e i : p_at (pt_boot e) i = zero_proc.
Proof.
  unfold p_at, pt_boot. cbn [procs]. rewrite nth_lookup.
  destruct (replicate nproc zero_proc !! i) eqn:Er; [|done]. by apply lookup_replicate in Er as [-> _].
Qed.

Lemma userinit_inv e : wlp userinit (pt_boot e) (fun _ s => pt_inv s (fun _ => New)) (fun _ => True).
Proof.
  unfold userinit. wlp_step. eapply wlp_mono; [apply allocproc_spec| |done].
  intros [p|] s1 Ha; [|wlp_step]. destruct Ha as (Hl & _ & Hlt & [O1 O2 O3 O4] & Hn & ks & Hks & Hat).
  assert (Hlen1 : (p < length (procs s1))%nat) by (by rewrite O1).
  do 4 wlp_step; [|done]. do 2 wlp_step. destruct (_ =? 0); [wlp_step|].
  do 2 wlp_step; [|done]. do 8 wlp_step; [|done]. do 7 wlp_step. rename a1 into root, e2 into e'.
  match goal with |- pt_inv ?x _ => set (s := x) end.
  assert (Hat' : p_at s p = set_state RUNNABLE (set_cwd root (set_pname (safe_name (pname (p_at s1 p)) initcode_name)
    (set_tf (TrapFrame 0 0 PGSIZE (Z.lor (Z.shiftl SEG_UCODE 3) DPL_USER) (Z.lor (Z.shiftl SEG_UDATA 3) DPL_USER)
      (Z.lor (Z.shiftl SEG_UDATA 3) DPL_USER) (Z.lor (Z.shiftl SEG_UDATA 3) DPL_USER) FL_IF [])
      (set_sz PGSIZE (set_pgdir a (p_at s1 p))))))) by (unfold s; by entry_simpl).
  assert (Ho : forall j, j <> p -> p_at s j = zero_proc).
  { intros j Hj. unfold s. entry_simpl. rewrite O2 by done. apply p_at_boot. }
  rewrite Hat, p_at_boot in Hat'.
  assert (Hlv : forall j, state (p_at s j) <> UNUSED -> j = p).
  { intros j Hj. destruct (decide (j = p)); [done|]. by rewrite Ho in Hj. }
  constructor; try done.
  - unfold s. simpl. rewrite !length_alter, O1. done.
  - exists p. by rewrite Hat'.
  - unfold s. simpl. by rewrite Hn.
  - intros i Hi. rewrite (Hlv i Hi), Hat'. unfold s. simpl. by rewrite Hn.
  - intros i j Hi Hj _. by rewrite (Hlv i Hi), (Hlv j Hj).
  - intros i q. destruct (decide (i = p)) as [->|]; [by rewrite Hat'|by rewrite Ho].
Qed.

(** C21: the process table stays consistent.  From userinit on, in every
    interleaving of fork, thread_create, exit, thread_exit, wait, thread_join,
    kill, sleep, wakeup and the scheduler, and whatever the other components
    do: live processes have distinct positive pids, the parent of a process is
    a live process other than itself that has not exited, and the init process
    is alive. *)
Theorem process_table_consistent e s0 s pcs :
  userinit (pt_boot e) = Ret tt s0 -> proc_steps (s0, fun _ => New) (s, pcs) ->
  (forall i j, state (p_at s i) <> UNUSED -> state (p_at s j) <> UNUSED ->
     1 <= pid (p_at s i) < nextpid s /\ (pid (p_at s i) = pid (p_at s j) -> i = j)) /\
  (forall i q, parent (p_at s i) = Some q ->
     q <> i /\ state (p_at s q) <> UNUSED /\ state (p_at s q) <> ZOMBIE) /\
  (exists ip, initproc s = Some ip /\ state (p_at s ip) <> UNUSED /\ state (p_at s ip) <> ZOMBIE).
Proof.
  intros Hu Hs. pose proof (proj1 (wlp_use _ _ _ _ (userinit_inv e)) _ _ Hu) as Hinv.
  apply proc_steps_inv in Hs; [|exact Hinv]. destruct Hs as [_ I2 _ I4 I5 I6 _ _]. simpl in *. split_and!.
  - intros i j Hi Hj. split; [by apply I4|by apply I5].
  - intros i q Hp. destruct (I6 i q Hp) as (_ & ? & [? ?]). done.
  - destruct I2 as (ip & ? & [? ?] & _). by exists ip.
Qed.

(** C22: no exit is missed.  A process that sleeps in wait has no zombie child,
    and one that sleeps in thread_join has no zombie thread: exit wakes the
    parent before the zombie appears, also when an exiting process hands its
    zombies to init. *)
Theorem wait_misses_no_exit e s0 s pcs i j :
  userinit (pt_boot e) = Ret tt s0 -> proc_steps (s0, fun _ => New) (s, pcs) ->
  state (p_at s i) = SLEEPING -> parent (p_at s j) = Some i ->
  pcs i = InWait \/ (pcs i = InJoin /\ isThread (p_at s j) <> 0) ->
  state (p_at s j) <> ZOMBIE.
Proof.
  intros Hu Hs Hsl Hp Hpc. pose proof (proj1 (wlp_use _ _ _ _ (userinit_inv e)) _ _ Hu) as Hinv.
  apply proc_steps_inv in Hs; [|exact Hinv]. destruct Hs as [_ _ _ _ _ _ I7 I8]. simpl in *.
  destruct Hpc as [Hpc|[Hpc Ht]].
  - destruct (I7 i Hpc Hsl) as [_ Hz]. by apply Hz.
  - destruct (I8 i Hpc Hsl) as [_ Hz]. by apply Hz.
Qed.

(** What fork does to the table.  If it returns a pid, exactly one entry
    changed: an unused one is now runnable, a child of the caller with the
    next pid, the caller's size and trap frame except that fork answers 0
    there.  If it returns -1, the table is as before up to an entry that is
    still unused. *)
Theorem fork_effect me (s s' : ptable E) r :
  fork me s = Ret r s' -> state (p_at s me) = RUNNING -> 0 <= nextpid s ->
  (r = nextpid s /\ exists np, np <> me /\ state (p_at s np) = UNUSED /\ only np s s' /\
     state (p_at s' np) = RUNNABLE /\ pid (p_at s' np) = r /\ parent (p_at s' np) = Some me /\
     sz (p_at s' np) = sz (p_at s me) /\ tf_eax (tf (p_at s' np)) = 0 /\ nextpid s' = s32 (r + 1)) \/
  (r = -1 /\ forall j, state (p_at s' j) = state (p_at s j) /\ (state (p_at s j) <> UNUSED -> p_at s' j = p_at s j)).
Proof.
  intros Ef Hrun Hn. assert (Hnu : state (p_at s me) <> UNUSED) by congruence.
  destruct (proj1 (wlp_use _ _ _ _ (fork_spec me s Hnu)) _ _ Ef) as (_ & Hc).
  destruct Hc as [(np & A1 & A2 & A3 & A4 & -> & A6 & A7 & A8 & A9 & A10 & _)
    |[(-> & np & [A1 A2] & A3 & A4 & A5 & A6)|(-> & A1 & _)]].
  - left. split; [done|]. exists np. split_and!; try done. congruence.
  - right. split; [done|]. intros j. destruct (decide (j = np)) as [->|Hj]; [by rewrite A1, A5|].
    by rewrite (on_at _ _ _ A3 j Hj).
  - right. split; [done|]. intros j. unfold p_at. by rewrite A1.
Qed.

(** What wait does when it finds a zombie: it returns the pid of a zombie
    child of the caller and frees exactly that entry; it returns -1 only if
    the caller has no child or was killed; and it does not return while there
    is only a live child. *)
Theorem wait_effect me (s s' : ptable E) r :
  wait me s = Ret r s' -> state (p_at s me) = RUNNING ->
  (exists i, parent (p_at s i) = Some me /\ state (p_at s i) = ZOMBIE /\ r = pid (p_at s i) /\
     only i s s' /\ state (p_at s' i) = UNUSED /\ parent (p_at s' i) = None /\ killed (p_at s' i) = 0) \/
  (r = -1 /\ procs s' = procs s /\
   ((forall j, (j < length (procs s))%nat -> parent (p_at s j) <> Some me) \/ killed (p_at s me) <> 0)).
Proof.
  intros Ew Hrun. unfold wait in Ew. revert Ew. unfold kbind, pt_acquire, kbind, kget.
  destruct (pt_lk s); [done|]. unfold kmodify. intros Ew.
  assert (Hrun' : state (p_at (set_pt_lk true s) me) = RUNNING) by exact Hrun.
  destruct (proj1 (wlp_use _ _ _ _ (wait_round_spec me _ Hrun')) _ _ Ew) as (_ & _ & _ & _ & Hc).
  destruct Hc as [(i & _ & A2 & A3 & [O1 O2 O3 O4] & A5 & A6 & A7 & _ & A9)|(-> & A2 & A3)].
  - left. exists i. apply bool_decide_eq_true in A2. split_and!; try done.
  - right. split_and!; try done. destruct A3 as [A3|A3]; [left|by right].
    intros j Hj Hp. apply (A3 j); [by apply bool_decide_eq_true|done].
Qed.

(** Thread_join frees no memory.  When it returns, the allocator and all
    other components are exactly as before, although the entry of the joined
    thread has lost the address of its kernel stack: the page is leaked. *)
Theorem thread_join_frees_nothing me (s s' : ptable E) r :
  thread_join me s = Ret r s' -> 0 <= r ->
  penv s' = penv s /\
  exists i, isThread (p_at s i) <> 0 /\ state (p_at s i) = ZOMBIE /\ r = pid (p_at s i) /\ kstack (p_at s' i) = 0.
Proof.
  intros Ej Hr.
  assert (Hw : wlp (thread_join me) s (fun r s' => 0 <= r -> penv s' = penv s /\
    exists i, isThread (p_at s i) <> 0 /\ state (p_at s i) = ZOMBIE /\ r = pid (p_at s i) /\ kstack (p_at s' i) = 0)
    (fun _ => True)).
  { unfold thread_join, join_round. do 4 wlp_step. pt_norm.
    pose proof (scan_children_spec (thread_child_of me) (procs s) 0 false) as Hsc.
    destruct (scan_children _ _ _ _) as [hk [i|]].
    - destruct Hsc as (k & -> & Hk & Hsel & Hz). rewrite Nat.add_0_l. do 17 wlp_step. intros _.
      split; [done|]. exists k. split_and!; [|done|done|by entry_simpl].
      unfold thread_child_of in Hsel. apply negb_true_iff, orb_false_iff in Hsel as [Hsel%Z.eqb_neq _]. done.
    - do 2 wlp_step. destruct (_ || _); [do 3 wlp_step; lia|].
      unfold sleep. do 7 wlp_step. by apply sched_spec. }
  exact (proj1 (wlp_use _ _ _ _ Hw) _ _ Ej Hr).
Qed.
End props.

(** ** Concrete runs *)

(** An environment that hands out pages in order and logs what is freed. *)
Record tenv := TEnv { t_next : Z; t_freed : list Z; t_freedvm : list Z }.

Definition t_page : K tenv Z :=
  let! n := kget t_next in
  kmodify (fun e => TEnv (n + 4096) (t_freed e) (t_freedvm e)) ;; kret n.

#[export] Instance tenv_env : ProcEnv tenv := {
  env_kalloc := t_page;
  env_kfree p := kmodify (fun e => TEnv (t_next e) (t_freed e ++ [p]) (t_freedvm e));
  env_setupkvm := t_page;
  env_inituvm _ := kret tt;
  env_allocuvm _ _ n := kret n;
  env_deallocuvm _ _ n := kret n;
  env_copyuvm _ _ := t_page;
  env_freevm p := kmodify (fun e => TEnv (t_next e) (t_freed e) (t_freedvm e ++ [p]));
  env_switchuvm _ := kret tt;
  env_switchkvm := kret tt;
  env_store _ _ _ := kret tt;
  env_xchg _ _ _ := kret 0;
  env_filedup f := kret f;
  env_fileclose _ := kret tt;
  env_idup i := kret i;
  env_iput _ := kret tt;
  env_begin_op := kret tt;
  env_end_op := kret tt;
  env_namei_root := kret 77;
  forkret_addr := 1;
  trapret_addr := 2
}.

Definition t_boot : ptable tenv := pt_boot (TEnv 4096 [] []).

(** A routine that sleeps gives its state to the scheduler. *)
Definition to_sched {A} (o : outcome (ptable tenv) A) : outcome (ptable tenv) unit :=
  match o with Ret _ s => Ret tt s | Sleep _ s => Ret tt s | Panic m => Panic m | NoFuel => NoFuel end.
Definition suspends {A} (c : K (ptable tenv) A) : K (ptable tenv) unit := fun s => to_sched (c s).

(** Let the scheduler run process [i] next, and run its resumed routine. *)
Definition run_proc (i : nat) (c : pc) : K (ptable tenv) unit :=
  kmodify (set_pt_lk true) ;;
  let! _ := scheduler_next i in
  resume i c.

(** Process 0 creates a thread, which runs and exits; then process 0 waits. *)
Definition shared_run : K (ptable tenv) Z :=
  userinit ;; run_proc 0 New ;; thread_create 0 100 0 8192 ;; suspends (yield 0) ;;
  run_proc 1 New ;; suspends (thread_exit 1) ;; run_proc 0 InYield ;; wait 0.

(** Process 0 calls kill(0), then fork. *)
Definition kill_zero_run : K (ptable tenv) (Z * Z) :=
  userinit ;; run_proc 0 New ;; let! k := kill 0 in let! c := fork 0 in kret (k, c).

(** Wait can destroy the address space of its caller.  A process that
    creates a thread and calls wait (instead of thread_join) after the thread
    has exited frees the page table it shares with the thread, its own. *)
Theorem wait_frees_shared_page_table :
  exists s, shared_run t_boot = Ret 2 s /\
    state (p_at s 0) = RUNNING /\ t_freedvm (penv s) = [pgdir (p_at s 0)].
Proof.
  destruct (shared_run t_boot) as [r s| | |] eqn:E; vm_compute in E; try discriminate E.
  injection E as <- <-. eexists. split; [reflexivity|]. split; reflexivity.
Qed.

(** Kill(0) reports success and kills a process that does not exist yet:
    unused entries have pid 0, their killed flag is set, and the next fork
    that uses the entry creates a process that is already killed. *)
Theorem kill_zero_kills_next_child :
  exists s, kill_zero_run t_boot = Ret (0, 2) s /\
    pid (p_at s 1) = 2 /\ killed (p_at s 1) = 1.
Proof.
  destruct (kill_zero_run t_boot) as [r s| | |] eqn:E; vm_compute in E; try discriminate E.
  injection E as <- <-. eexists. split; [reflexivity|]. split; reflexivity.
Qed.

(** A run for the theorems above: init starts, forks, waits, the child exits. *)
Definition st_of {A} (o : outcome (ptable tenv) A) : ptable tenv :=
  match o with Ret _ s => s | Sleep _ s => s | _ => t_boot end.

Definition r_init : ptable tenv := st_of (userinit t_boot).
Definition r_run : ptable tenv := unlock (st_of (resume 0 New (st_of (scheduler_next 0 (lock r_init))))).
Definition r_fork : ptable tenv := st_of (fork 0 r_run).
Definition r_wait : ptable tenv := unlock (st_of (wait 0 r_fork)).
Definition r_child : ptable tenv := unlock (st_of (resume 1 New (st_of (scheduler_next 0 (lock r_wait))))).
Definition r_exit : ptable tenv := unlock (st_of (exit 1 r_child)).
Definition r_back : ptable tenv := st_of (resume 0 InYield (st_of (scheduler_next 0 (lock r_exit)))).
Definition r_thread : ptable tenv := st_of (thread_create 0 100 0 8192 r_run).
Definition r_texit : ptable tenv :=
  st_of ((suspends (yield 0) ;; run_proc 1 New ;; suspends (thread_exit 1) ;; run_proc 0 InYield) r_thread).

Definition r_pcs : nat -> pc := at_pc (fun _ => New) 0 Run.

Lemma r_fork_steps : proc_steps (r_init, fun _ => New) (r_fork, r_pcs).
Proof.
  eapply proc_steps_step; [eapply proc_steps_step; [apply proc_steps_refl|]|].
  - apply (st_resume 0 0 r_init (st_of (scheduler_next 0 (lock r_init)))
      (st_of (resume 0 New (st_of (scheduler_next 0 (lock r_init)))))); vm_compute; reflexivity.
  - apply (st_call 0 (fork 0) 2); [vm_compute; reflexivity|constructor|vm_compute; reflexivity|vm_compute; reflexivity].
Qed.

Lemma r_wait_steps : proc_steps (r_init, fun _ => New) (r_wait, at_pc r_pcs 0 InWait).
Proof.
  assert (H1 : running r_fork 0) by (vm_compute; reflexivity).
  assert (H2 : wait 0 r_fork = Sleep 0 (st_of (wait 0 r_fork))) by (vm_compute; reflexivity).
  assert (H3 : state (p_at (st_of (wait 0 r_fork)) 0) = SLEEPING) by (vm_compute; reflexivity).
  unfold r_wait. exact (proc_steps_step _ _ _ r_fork_steps (st_wait 0 0 r_fork _ r_pcs H1 H2 H3)).
Qed.

Lemma process_table_consistent_witness :
  pid (p_at r_fork 0) = 1 /\ pid (p_at r_fork 1) = 2 /\ parent (p_at r_fork 1) = Some 0%nat /\
  state (p_at r_fork 0) <> ZOMBIE.
Proof.
  destruct (process_table_consistent (TEnv 4096 [] []) r_init r_fork r_pcs) as (_ & Hp & _);
    [vm_compute; reflexivity|exact r_fork_steps|].
  split_and!; [vm_compute; reflexivity..|]. apply (Hp 1%nat 0%nat). vm_compute. reflexivity.
Defined.

Lemma wait_misses_no_exit_witness :
  state (p_at r_wait 0) = SLEEPING /\ state (p_at r_wait 1) <> ZOMBIE.
Proof.
  split; [vm_compute; reflexivity|].
  apply (wait_misses_no_exit (TEnv 4096 [] []) r_init r_wait (at_pc r_pcs 0 InWait) 0 1);
    [vm_compute; reflexivity|exact r_wait_steps|vm_compute; reflexivity|vm_compute; reflexivity|by left].
Defined.

Lemma fork_effect_witness : fork 0 r_run = Ret 2 r_fork /\ exists np, parent (p_at r_fork np) = Some 0%nat.
Proof.
  assert (Hf : fork 0 r_run = Ret 2 r_fork) by (vm_compute; reflexivity). split; [exact Hf|].
  destruct (fork_effect 0 r_run r_fork 2 Hf) as [(_ & np & _ & _ & _ & _ & _ & Hp & _)|[Hr _]];
    [vm_compute; reflexivity|vm_compute; discriminate| |discriminate Hr]. exists np. exact Hp.
Defined.

Lemma wait_effect_witness :
  exists s, wait 0 r_back = Ret 2 s /\ exists i, parent (p_at r_back i) = Some 0%nat /\ state (p_at r_back i) = ZOMBIE.
Proof.
  assert (Hw : wait 0 r_back = Ret 2 (st_of (wait 0 r_back))) by (vm_compute; reflexivity).
  exists (st_of (wait 0 r_back)). split; [exact Hw|].
  destruct (wait_effect 0 r_back _ 2 Hw) as [(i & H1 & H2 & _)|[Hr _]];
    [vm_compute; reflexivity| |discriminate Hr]. exists i. split; [exact H1|exact H2].
Defined.

Lemma thread_join_frees_nothing_witness :
  exists s, thread_join 0 r_texit = Ret 2 s /\ t_freed (penv s) = [].
Proof.
  assert (Hw : thread_join 0 r_texit = Ret 2 (st_of (thread_join 0 r_texit))) by (vm_compute; reflexivity).
  exists (st_of (thread_join 0 r_texit)). split; [exact Hw|].
  destruct (thread_join_frees_nothing 0 r_texit _ 2 Hw) as [He _]; [done|].
  rewrite He. vm_compute. reflexivity.
Defined.

(** ** Printing the table (procdump) *)

From S2P Require Import Mem Spinlock.

Definition state_name (st : procstate) : string :=
  match st with
  | UNUSED => "unused" | EMBRYO => "embryo" | SLEEPING => "sleep " | RUNNABLE => "runble" | RUNNING => "run   " | ZOMBIE => "zombie"
  end.
(** One line: pid, state, name and the return addresses of a sleeping process. *)
Record dumpline := DumpLine { dl_pid : Z; dl_state : string; dl_name : list Z; dl_pcs : list Z }.

Fixpoint until_zero (l : list Z) : list Z :=
  match l with [] => [] | x :: l => if x =? 0 then [] else x :: until_zero l end.
Fixpoint procdump (m : mem) (ps : list proc) : list dumpline :=
  match ps with
  | [] => []
  | p :: ps =>
      if bool_decide (state p = UNUSED) then procdump m ps else
      DumpLine (pid p) (state_name (state p)) (pname p)
        (if bool_decide (state p = SLEEPING) then until_zero (getcallerpcs m (u32 (c_ebp (ctx p) + 8))) else [])
      :: procdump m ps
  end.

(** Every return address lies on a chain of frames in the kernel's half of memory. *)
Inductive frames (m : mem) : Z -> list Z -> Prop :=
| frames_end ebp : frames m ebp []
| frames_next ebp pcs : KERNBASE <= ebp -> frames m (load32 m ebp) pcs -> frames m ebp (load32 m (ebp + 4) :: pcs).

Lemma callerpcs_frames n m ebp : frames m ebp (until_zero (callerpcs n m ebp)).
Proof.
  revert ebp. induction n as [|n IH]; intros ebp; [constructor|]. cbn [callerpcs].
  destruct ((ebp =? 0) || (ebp <? KERNBASE) || (ebp =? 0xffffffff)) eqn:E; [constructor|]. cbn [until_zero].
  destruct (load32 m (ebp + 4) =? 0); [constructor|]. apply frames_next; [|apply IH].
  apply orb_false_iff in E as [E _]. apply orb_false_iff in E as [_ E]. by apply Z.ltb_ge in E.
Qed.

(** procdump prints one line for each process in use, in the order of the table, and at most
    ten return addresses, for sleeping processes only. *)
Lemma procdump_lists m ps :
  map dl_pid (procdump m ps) = map pid (filter (fun p => state p <> UNUSED) ps) /\
  Forall (fun l => (length (dl_pcs l) <= 10)%nat /\ (dl_pcs l <> [] -> dl_state l = "sleep ") /\ exists ebp, frames m ebp (dl_pcs l)) (procdump m ps).
Proof.
  assert (Hl : forall l, (length (until_zero l) <= length l)%nat) by (induction l as [|x l IH]; simpl; [done|destruct (x =? 0); simpl; lia]).
  assert (Hc : forall n e, length (callerpcs n m e) = n) by (induction n as [|n IH]; intros e; simpl; [done|]; destruct (_ || _); simpl; [by rewrite repeat_length|by rewrite IH]).
  induction ps as [|p ps [IH1 IH2]]; [done|]. cbn [procdump]. case_bool_decide as Hu.
  - rewrite filter_cons_False by tauto. done.
  - rewrite filter_cons_True by done. cbn [map dl_pid]. rewrite IH1. split; [done|]. constructor; [|done]. cbn [dl_pcs dl_state].
    case_bool_decide as Hs; [|split_and!; [simpl; lia|done|exists 0; constructor]]. split_and!.
    + pose proof (Hl (getcallerpcs m (u32 (c_ebp (ctx p) + 8)))) as Hlen. unfold getcallerpcs in Hlen at 2. by rewrite Hc in Hlen.
    + by rewrite Hs.
    + eexists. apply callerpcs_frames.
Qed.
