(* ===== verification/Vm.v ===== *)
(** * Virtual memory (vm.c)

    Page directories and page tables are pages of the kernel's memory, as the
    allocator hands them out; entries are 32-bit words.  Loading the page-table
    register and the segment descriptors are not modelled: they do not touch
    this state.  Dereferencing a null page-table entry is the outcome
    [Panic "null dereference"]. *)

From S2P Require Import Prelude Mem Layout Kalloc.

Definition mload (a : Z) : K kmem Z := kget (fun k => load32 (km_mem k) a).
Definition mstore (a v : Z) : K kmem unit := kmodify (fun k => set_mem (store32 (km_mem k) a v) k).
Definition mmemset (a c n : Z) : K kmem unit := kmodify (fun k => set_mem (memset (km_mem k) a c n) k).
Definition mmemmove (d s n : Z) : K kmem unit := kmodify (fun k => set_mem (memmove (km_mem k) d s n) k).
Definition mwrite (d : Z) (l : list Z) : K kmem unit := kmodify (fun k => set_mem (store_bytes (km_mem k) d l) k).

Section vm.
(** The linker symbols [end] and [data]. *)
Variable end_ data : Z.

(** walkpgdir: the address of the entry, 0 if there is none. *)
Definition walkpgdir (pgdir va : Z) (alloc : bool) : K kmem Z :=
  let pde := pgdir + 4 * PDX va in
  let! e := mload pde in
  if truth (Z.land e PTE_P) then
    kret (P2V (PTE_ADDR e) + 4 * PTX va)
  else if negb alloc then kret 0
  else
    let! pgtab := kalloc in
    if pgtab =? 0 then kret 0
    else
      mmemset pgtab 0 PGSIZE ;;
      mstore pde (Z.lor (Z.lor (Z.lor (V2P pgtab) PTE_P) PTE_W) PTE_U) ;;
      kret (pgtab + 4 * PTX va).

(** The loop of mappages; [n] rounds lead from [a] to [last]. *)
Fixpoint mappages_loop (n : nat) (pgdir a last pa perm : Z) : K kmem Z :=
  let! pte := walkpgdir pgdir a true in
  if pte =? 0 then kret (-1) else
  let! e := mload pte in
  if truth (Z.land e PTE_P) then kpanic "remap" else
  mstore pte (Z.lor (Z.lor pa perm) PTE_P) ;;
  if a =? last then kret 0
  else match n with
       | O => knofuel
       | S n' => mappages_loop n' pgdir (u32 (a + PGSIZE)) last (u32 (pa + PGSIZE)) perm
       end.

(** The number of rounds after the first is the distance in pages, taken
    modulo the address space as the uint arithmetic does. *)
Definition mappages (pgdir va size pa perm : Z) : K kmem Z :=
  let a := PGROUNDDOWN va in
  let last := PGROUNDDOWN (u32 (va + size - 1)) in
  mappages_loop (Z.to_nat (u32 (last - a) / PGSIZE)) pgdir a last pa perm.

Record kmap := KMap { virt : Z; phys_start : Z; phys_end : Z; kperm : Z }.
Definition kmaps : list kmap :=
  [ KMap KERNBASE 0 EXTMEM PTE_W;
    KMap KERNLINK (V2P KERNLINK) (V2P data) 0;
    KMap data (V2P data) PHYSTOP PTE_W;
    KMap DEVSPACE DEVSPACE 0 PTE_W ].

(** One iteration of deallocuvm's loop answers the next [a]. *)
Fixpoint deallocuvm_loop (n : nat) (pgdir a oldsz : Z) : K kmem unit :=
  if a <? oldsz then
    match n with
    | O => knofuel
    | S n' =>
        let! pte := walkpgdir pgdir a false in
        if pte =? 0 then
          deallocuvm_loop n' pgdir (u32 (u32 (PGADDR (PDX a + 1) 0 0 - PGSIZE) + PGSIZE)) oldsz
        else
          let! e := mload pte in
          (if truth (Z.land e PTE_P) then
             let pa := PTE_ADDR e in
             if pa =? 0 then kpanic "kfree" else
             kfree end_ (P2V pa) ;;
             mstore pte 0
           else kret tt) ;;
          deallocuvm_loop n' pgdir (u32 (a + PGSIZE)) oldsz
    end
  else kret tt.

Definition deallocuvm (pgdir oldsz newsz : Z) : K kmem Z :=
  if oldsz <=? newsz then kret oldsz else
  deallocuvm_loop (Z.to_nat (oldsz / PGSIZE + 1)) pgdir (PGROUNDUP newsz) oldsz ;;
  kret newsz.

Definition freevm (pgdir : Z) : K kmem unit :=
  if pgdir =? 0 then kpanic "freevm: no pgdir" else
  deallocuvm pgdir KERNBASE 0 ;;
  let! _ := kfor (R := unit) (Z.to_nat NPDENTRIES) 0 (fun i =>
    let! e := mload (pgdir + 4 * i) in
    (if truth (Z.land e PTE_P) then kfree end_ (P2V (PTE_ADDR e)) else kret tt) ;;
    kret None) in
  kfree end_ pgdir.

Fixpoint map_kernel (pgdir : Z) (l : list kmap) : K kmem Z :=
  match l with
  | [] => kret pgdir
  | k :: l' =>
      let! r := mappages pgdir (virt k) (u32 (phys_end k - phys_start k)) (phys_start k) (kperm k) in
      if r <? 0 then freevm pgdir ;; kret 0
      else map_kernel pgdir l'
  end.

Definition setupkvm : K kmem Z :=
  let! pgdir := kalloc in
  if pgdir =? 0 then kret 0 else
  mmemset pgdir 0 PGSIZE ;;
  if DEVSPACE <? P2V PHYSTOP then kpanic "PHYSTOP too high" else
  map_kernel pgdir kmaps.

(** inituvm; [init] is the address of the program image. *)
Definition inituvm (pgdir init sz : Z) : K kmem unit :=
  if PGSIZE <=? sz then kpanic "inituvm: more than a page" else
  let! m := kalloc in
  mmemset m 0 PGSIZE ;;
  mappages pgdir 0 PGSIZE (V2P m) (Z.lor PTE_W PTE_U) ;;
  mmemmove m init sz.

(** loaduvm.  The state [S] holds the memory, which [vm] reaches, and the file system, from
    which [readi] reads the inode: it answers readi's result and the bytes delivered. *)
Section loaduvm.
Context {S : Type} (vm : forall A, K kmem A -> K S A) (readi : Z -> Z -> K S (Z * list Z)).
Arguments vm {A} _.

Fixpoint loaduvm_loop (n : nat) (pgdir addr i offset sz : Z) : K S Z :=
  if i <? sz then
    match n with
    | O => knofuel
    | Datatypes.S n' =>
        let! pte := vm (walkpgdir pgdir (u32 (addr + i)) false) in
        if pte =? 0 then kpanic "loaduvm: address should exist" else
        let! e := vm (mload pte) in
        let pa := PTE_ADDR e in
        let len := if u32 (sz - i) <? PGSIZE then u32 (sz - i) else PGSIZE in
        let! r := readi (u32 (offset + i)) len in
        vm (mwrite (P2V pa) (snd r)) ;;
        if negb (u32 (fst r) =? len) then kret (-1)
        else loaduvm_loop n' pgdir addr (u32 (i + PGSIZE)) offset sz
    end
  else kret 0.

Definition loaduvm (pgdir addr offset sz : Z) : K S Z :=
  if truth (addr mod PGSIZE) then kpanic "loaduvm: addr must be page aligned" else
  loaduvm_loop (Z.to_nat (sz / PGSIZE + 1)) pgdir addr 0 offset sz.
End loaduvm.

Fixpoint allocuvm_loop (n : nat) (pgdir a oldsz newsz : Z) : K kmem Z :=
  if a <? newsz then
    match n with
    | O => knofuel
    | S n' =>
        let! m := kalloc in
        if m =? 0 then deallocuvm pgdir newsz oldsz ;; kret 0 else
        mmemset m 0 PGSIZE ;;
        let! r := mappages pgdir a PGSIZE (V2P m) (Z.lor PTE_W PTE_U) in
        if r <? 0 then
          deallocuvm pgdir newsz oldsz ;; kfree end_ m ;; kret 0
        else allocuvm_loop n' pgdir (u32 (a + PGSIZE)) oldsz newsz
    end
  else kret newsz.

Definition allocuvm (pgdir oldsz newsz : Z) : K kmem Z :=
  if KERNBASE <=? newsz then kret 0 else
  if newsz <? oldsz then kret oldsz else
  allocuvm_loop (Z.to_nat (newsz / PGSIZE + 1)) pgdir (PGROUNDUP oldsz) oldsz newsz.

Definition clearpteu (pgdir uva : Z) : K kmem unit :=
  let! pte := walkpgdir pgdir uva false in
  if pte =? 0 then kpanic "clearpteu" else
  let! e := mload pte in
  mstore pte (Z.land e (Z.lnot PTE_U)).

Fixpoint copyuvm_loop (n : nat) (pgdir d i sz : Z) : K kmem Z :=
  if i <? sz then
    match n with
    | O => knofuel
    | S n' =>
        let! pte := walkpgdir pgdir i false in
        if pte =? 0 then kpanic "copyuvm: pte should exist" else
        let! e := mload pte in
        if negb (truth (Z.land e PTE_P)) then kpanic "copyuvm: page not present" else
        let pa := PTE_ADDR e in
        let flags := PTE_FLAGS e in
        let! m := kalloc in
        if m =? 0 then freevm d ;; kret 0 else
        mmemmove m (P2V pa) PGSIZE ;;
        let! r := mappages d i PGSIZE (V2P m) flags in
        if r <? 0 then freevm d ;; kret 0
        else copyuvm_loop n' pgdir d (u32 (i + PGSIZE)) sz
    end
  else kret d.

Definition copyuvm (pgdir sz : Z) : K kmem Z :=
  let! d := setupkvm in
  if d =? 0 then kret 0 else
  copyuvm_loop (Z.to_nat (sz / PGSIZE + 1)) pgdir d 0 sz.

Definition uva2ka (pgdir uva : Z) : K kmem Z :=
  let! pte := walkpgdir pgdir uva false in
  if pte =? 0 then kpanic "null dereference" else
  let! e := mload pte in
  if Z.land e PTE_P =? 0 then kret 0 else
  if Z.land e PTE_U =? 0 then kret 0 else
  kret (P2V (PTE_ADDR e)).

(** copyout; [p] are the bytes to copy.  Every round but the first advances a whole page. *)
Fixpoint copyout_loop (n : nat) (pgdir va : Z) (buf : list Z) (len : Z) : K kmem Z :=
  if 0 <? len then
    match n with
    | O => knofuel
    | S n' =>
        let va0 := PGROUNDDOWN va in
        let! pa0 := uva2ka pgdir va0 in
        if pa0 =? 0 then kret (-1) else
        let k := u32 (PGSIZE - (va - va0)) in
        let k := if len <? k then len else k in
        mwrite (pa0 + (va - va0)) (take (Z.to_nat k) buf) ;;
        copyout_loop n' pgdir (u32 (va0 + PGSIZE)) (drop (Z.to_nat k) buf) (u32 (len - k))
    end
  else kret 0.

Definition copyout (pgdir va : Z) (p : list Z) (len : Z) : K kmem Z :=
  copyout_loop (Z.to_nat (len / PGSIZE + 2)) pgdir va p len.
End vm.
