(* ===== verification/VmMap.v ===== *)
(** * Page tables as maps (vm.c)

    A page directory stands for a function from virtual addresses to
    page-table entries.  walkpgdir leaves the function alone, mappages extends
    it, and neither disturbs the free list or other pages. *)

From S2P Require Import Prelude Mem Layout Kalloc Vm.

Definition present (e : Z) : bool := truth (Z.land e PTE_P).
Definition table (e : Z) : Z := P2V (PTE_ADDR e).
Definition pde_at (m : mem) (pgdir i : Z) : Z := load32 m (pgdir + 4 * i).

(** The entry for [va]; 0, which is not present, where there is no table. *)
Definition pte_of (m : mem) (pgdir va : Z) : Z :=
  let e := pde_at m pgdir (PDX va) in
  if present e then load32 m (table e + 4 * PTX va) else 0.

Section vmmap.
Variable end_ : Z.

Record vm_ok (k : kmem) (ps : list Z) (pgdir : Z) : Prop := {
  vo_wf : kmem_wf end_ k ps;
  vo_bytes : mem_ok (km_mem k);
  vo_dir : page_ok end_ pgdir /\ pgdir ∉ ps;
  vo_tab : forall i, 0 <= i < 1024 -> present (pde_at (km_mem k) pgdir i) = true ->
    page_ok end_ (table (pde_at (km_mem k) pgdir i)) /\
    table (pde_at (km_mem k) pgdir i) ∉ ps /\ table (pde_at (km_mem k) pgdir i) <> pgdir;
  vo_inj : forall i j, 0 <= i < 1024 -> 0 <= j < 1024 ->
    present (pde_at (km_mem k) pgdir i) = true -> present (pde_at (km_mem k) pgdir j) = true ->
    table (pde_at (km_mem k) pgdir i) = table (pde_at (km_mem k) pgdir j) -> i = j
}.

(** The pages the page table itself is made of. *)
Definition is_table (m : mem) (pgdir v : Z) : Prop :=
  v = pgdir \/ exists i, 0 <= i < 1024 /\ present (pde_at m pgdir i) = true /\ table (pde_at m pgdir i) = v.

Lemma is_table_ok k ps pgdir v :
  vm_ok k ps pgdir -> is_table (km_mem k) pgdir v -> page_ok end_ v /\ v ∉ ps.
Proof.
  intros [_ _ Hd Htab _] [->|(i & Hi & Hp & <-)]; [done|]. destruct (Htab i Hi Hp) as (? & ? & _). done.
Qed.

Lemma is_table_nth m pgdir i :
  0 <= i < 1024 -> present (pde_at m pgdir i) = true -> is_table m pgdir (table (pde_at m pgdir i)).
Proof. right. by exists i. Qed.

(** *** Entries *)

Lemma present_odd e : present e = Z.odd e.
Proof.
  unfold present, PTE_P, truth. change 1 with (2 ^ 0) at 1. rewrite land_bit by lia.
  rewrite Z.bit0_odd. by destruct (Z.odd e).
Qed.

(** The entry that walkpgdir makes for a new table. *)
Lemma new_pde_eq v :
  page_ok end_ v -> Z.lor (Z.lor (Z.lor (V2P v) PTE_P) PTE_W) PTE_U = V2P v + 7.
Proof.
  intros Hv. rewrite <- !Z.lor_assoc. change (Z.lor PTE_P (Z.lor PTE_W PTE_U)) with 7.
  apply (lor_disjoint 12); [lia| |lia]. destruct Hv as (H1 & H2 & _). unfold V2P, KERNBASE, PGSIZE in *. dlia.
Qed.

Lemma new_pde_facts v :
  page_ok end_ v -> let e := V2P v + 7 in
  0 <= e < 4294967296 /\ present e = true /\ table e = v.
Proof.
  intros (H1 & H2 & H3 & H4) e. unfold e, table. rewrite present_odd, PTE_ADDR_eq.
  pose proof (u32_range (v - KERNBASE)) as Hr. fold (V2P v) in Hr. unfold PHYSTOP in H4.
  assert (Ha : V2P v mod 4096 = 0) by (unfold V2P, KERNBASE, PGSIZE in *; dlia).
  split_and!; [lia|lia| |].
  - rewrite Z.odd_add. replace (Z.odd (V2P v)) with false; [done|].
    symmetry. rewrite <- Z.negb_even. apply negb_false_iff, Z.even_spec. exists (V2P v / 2). dlia.
  - replace (V2P v + 7 - (V2P v + 7) mod 4096) with (V2P v) by dlia. by apply P2V_V2P.
Qed.

(** *** Memory around a page *)

Lemma page_words m m' a o :
  (forall x, a <= x < a + 4096 -> m' x = m x) -> 0 <= o < 1024 ->
  load32 m' (a + 4 * o) = load32 m (a + 4 * o).
Proof. intros H Ho. apply load32_ext. intros x Hx. apply H. lia. Qed.

Lemma zeroed_word m a o :
  0 <= o < 1024 -> load32 (memset m a 0 PGSIZE) (a + 4 * o) = 0.
Proof.
  intros Ho. unfold load32. unfold PGSIZE. rewrite !memset_filled by lia.
  rewrite !filled_in by lia. done.
Qed.

Lemma memset_out m a n x : 0 <= n -> ~ (a <= x < a + n) -> memset m a 0 n x = m x.
Proof. intros Hn Hx. rewrite memset_filled by done. by apply filled_out. Qed.

Lemma memset_ok m a n : 0 <= n -> mem_ok m -> mem_ok (memset m a 0 n).
Proof.
  intros Hn Hm x. rewrite memset_filled by done. unfold filled. destruct (_ && _); [done|apply Hm].
Qed.

Lemma page_ok_aligned v : page_ok end_ v -> v mod 4096 = 0.
Proof. by intros (_ & ? & _). Qed.

(** Two different pages share no byte. *)
Lemma page_ok_disjoint v w x :
  page_ok end_ v -> page_ok end_ w -> v <> w -> w <= x < w + 4096 -> ~ (v <= x < v + 4096).
Proof. intros Hv Hw Hne. apply (pages_disjoint v w x); [apply Hv|apply Hw|done]. Qed.

Lemma free_page_ok k ps v : kmem_wf end_ k ps -> v ∈ ps -> page_ok end_ v.
Proof. intros [_ Hl _] Hv. by eapply Forall_forall; [eapply freelist_at_pages|]. Qed.

(** The free list survives writes outside the free pages. *)
Lemma kmem_wf_write k ps m' :
  kmem_wf end_ k ps -> (forall v x, v ∈ ps -> v <= x < v + 4096 -> m' x = km_mem k x) ->
  kmem_wf end_ (set_mem m' k) ps.
Proof.
  intros [H1 H2 H3] Hm. constructor; simpl; try done.
  eapply freelist_at_ext; [|done]. exact Hm.
Qed.

(** *** walkpgdir *)

Section walk.
Context (k : kmem) (ps : list Z) (pgdir : Z).
Hypothesis Hok : vm_ok k ps pgdir.
Notation m := (km_mem k).

Lemma tab_words i m' :
  0 <= i < 1024 -> present (pde_at m pgdir i) = true ->
  (forall x, table (pde_at m pgdir i) <= x < table (pde_at m pgdir i) + 4096 -> m' x = m x) ->
  forall o, 0 <= o < 1024 ->
  load32 m' (table (pde_at m pgdir i) + 4 * o) = load32 m (table (pde_at m pgdir i) + 4 * o).
Proof. intros Hi Hp Hx o Ho. by apply page_words. Qed.

Lemma dir_words m' i :
  (forall x, pgdir <= x < pgdir + 4096 -> m' x = m x) -> 0 <= i < 1024 -> pde_at m' pgdir i = pde_at m pgdir i.
Proof. intros Hx Hi. by apply page_words. Qed.

(** The memory after walkpgdir has made a new table in page [v]. *)
Definition new_table (v i : Z) : mem := store32 (memset m v 0 PGSIZE) (pgdir + 4 * i) (V2P v + 7).

Lemma new_table_out v i x :
  ~ (v <= x < v + 4096) -> ~ (pgdir + 4 * i <= x < pgdir + 4 * i + 4) -> new_table v i x = m x.
Proof. intros H1 H2. unfold new_table. rewrite store32_out by done. by apply memset_out. Qed.

Section new.
Context (v i : Z) (ps' : list Z).
Hypothesis Hps : ps = v :: ps'.
Hypothesis Hi : 0 <= i < 1024.
Hypothesis Hnp : present (pde_at m pgdir i) = false.

Lemma new_page : page_ok end_ v /\ v <> pgdir /\ v ∉ ps'.
Proof.
  destruct Hok as [Hwf _ [Hd Hdn] _ _]. split_and!.
  - eapply free_page_ok; [exact Hwf|]. rewrite Hps. left.
  - intros ->. apply Hdn. rewrite Hps. left.
  - destruct Hwf as [_ _ Hnd]. rewrite Hps in Hnd. by apply NoDup_cons in Hnd as [? _].
Qed.

Lemma new_dir j : 0 <= j < 1024 ->
  pde_at (new_table v i) pgdir j = if decide (j = i) then V2P v + 7 else pde_at m pgdir j.
Proof.
  intros Hj. destruct new_page as (Hv & Hne & _). destruct Hok as [_ _ [Hd _] _ _].
  destruct (new_pde_facts v Hv) as (Hr & _ & _). unfold pde_at, new_table. destruct (decide (j = i)) as [->|Hji].
  - rewrite load32_store32_eq. by apply u32_small.
  - rewrite load32_store32_ne by lia. apply load32_ext. intros x Hx. apply memset_out; [done|].
    unfold PGSIZE. apply (page_ok_disjoint v pgdir); [done|done|done|lia].
Qed.

(** Another table is not touched. *)
Lemma new_other_table j o :
  0 <= j < 1024 -> 0 <= o < 1024 -> present (pde_at m pgdir j) = true ->
  load32 (new_table v i) (table (pde_at m pgdir j) + 4 * o) = load32 m (table (pde_at m pgdir j) + 4 * o).
Proof.
  intros Hj Ho Hp. destruct new_page as (Hv & Hne & _). pose proof Hok as [_ _ [Hd _] Htab _].
  destruct (Htab j Hj Hp) as (Ht & Htp & Htd). apply page_words; [|done].
  intros x Hx. apply new_table_out.
  - apply (page_ok_disjoint v (table (pde_at m pgdir j))); [done|done| |done].
    intros ->. apply Htp. rewrite Hps. left.
  - intros Hx'. apply (page_ok_disjoint pgdir (table (pde_at m pgdir j)) x); [done|done|congruence|done|lia].
Qed.

Lemma new_pte va : pte_of (new_table v i) pgdir va = pte_of m pgdir va.
Proof.
  pose proof (PDX_range va). pose proof (PTX_range va). unfold pte_of. rewrite new_dir by done.
  destruct new_page as (Hv & Hne & _). destruct (new_pde_facts v Hv) as (_ & Hp & Ht).
  destruct (decide (PDX va = i)) as [E|E].
  - rewrite Hp, Ht, E, Hnp. unfold new_table. rewrite (load32_ext _ (memset m v 0 PGSIZE)); [by apply zeroed_word|].
    intros x Hx. apply store32_out. intros Hx'. destruct Hok as [_ _ [Hd _] _ _].
    apply (page_ok_disjoint pgdir v x); [done|done|congruence|lia|lia].
  - destruct (present (pde_at m pgdir (PDX va))) eqn:Ep; [|done]. by apply new_other_table.
Qed.

Lemma new_vm_ok k1 : km_mem k1 = m -> kmem_wf end_ k1 ps' -> vm_ok (set_mem (new_table v i) k1) ps' pgdir.
Proof.
  intros Hm Hwf1. destruct new_page as (Hv & Hne & Hvn). pose proof Hok as [Hwf Hby [Hd Hdn] Htab Hinj].
  destruct (new_pde_facts v Hv) as (_ & Hp & Ht).
  assert (Hdir := new_dir). constructor; simpl.
  - apply kmem_wf_write; [done|]. rewrite Hm. intros w x Hw Hx.
    assert (Hwp : page_ok end_ w) by (eapply free_page_ok; [exact Hwf|]; rewrite Hps; by right).
    apply new_table_out.
    + apply (page_ok_disjoint v w); [done|done| |done]. by intros ->.
    + intros Hx'. apply (page_ok_disjoint pgdir w x); [done|done| |done|lia].
      intros ->. apply Hdn. rewrite Hps. by right.
  - unfold new_table. apply store32_ok, memset_ok; done.
  - split; [done|]. intros Hin. apply Hdn. rewrite Hps. by right.
  - intros j Hj. rewrite Hdir by done. destruct (decide (j = i)); [rewrite Ht; done|].
    intros Hpj. destruct (Htab j Hj Hpj) as (? & Hn & ?). split_and!; try done.
    intros Hin. apply Hn. rewrite Hps. by right.
  - intros j1 j2 H1 H2. rewrite !Hdir by done.
    destruct (decide (j1 = i)) as [->|], (decide (j2 = i)) as [->|]; [done| | |by apply Hinj].
    + rewrite Ht. intros _ Hp2 E. destruct (Htab j2 H2 Hp2) as (_ & Hn & _). exfalso. apply Hn.
      rewrite <- E, Hps. left.
    + rewrite Ht. intros Hp1 _ E. destruct (Htab j1 H1 Hp1) as (_ & Hn & _). exfalso. apply Hn.
      rewrite E, Hps. left.
Qed.
End new.

End walk.

(** Page tables are only added, in pages that were free; no free page is lost, and
    pages that are neither free nor page tables keep their contents. *)
Record grows (k : kmem) (ps : list Z) (pgdir : Z) (k' : kmem) (ps' : list Z) : Prop := {
  gr_new : forall w, is_table (km_mem k') pgdir w -> is_table (km_mem k) pgdir w \/ w ∈ ps;
  gr_old : forall w, is_table (km_mem k) pgdir w -> is_table (km_mem k') pgdir w;
  gr_free : ps' `suffix_of` ps;
  gr_all : forall w, w ∈ ps -> w ∈ ps' \/ is_table (km_mem k') pgdir w;
  gr_data : forall w x, page_ok end_ w -> w ∉ ps -> ~ is_table (km_mem k) pgdir w -> w <= x < w + 4096 ->
     km_mem k' x = km_mem k x
}.

Lemma grows_refl k ps pgdir : grows k ps pgdir k ps.
Proof. constructor; try done; by left. Qed.

Lemma grows_trans k1 ps1 k2 ps2 k3 ps3 pgdir :
  grows k1 ps1 pgdir k2 ps2 -> grows k2 ps2 pgdir k3 ps3 -> grows k1 ps1 pgdir k3 ps3.
Proof.
  intros [G1 G2 [l ->] G4 G5] [G6 G7 G8 G9 G10]. constructor.
  - intros w Hw. destruct (G6 w Hw) as [?|?]; [by apply G1|]. right. apply elem_of_app. by right.
  - auto.
  - by apply suffix_app_r.
  - intros w Hw. destruct (G4 w Hw) as [?|?]; [by apply G9|]. right. by apply G7.
  - intros w x Hw Hn Ht Hx. rewrite <- (G5 w x) by done. apply (G10 w); try done.
    + intros ?. apply Hn, elem_of_app. by right.
    + intros ?. destruct (G1 w); done.
Qed.

Lemma new_grows k ps pgdir (Hok : vm_ok k ps pgdir) v i ps' k1 :
  ps = v :: ps' -> 0 <= i < 1024 -> present (pde_at (km_mem k) pgdir i) = false ->
  grows k ps pgdir (set_mem (new_table k pgdir v i) k1) ps'.
Proof.
  intros Hps Hi Hnp. destruct (new_page k ps pgdir Hok v ps' Hps) as (Hv & _).
  pose proof (new_dir k ps pgdir Hok v i ps' Hps Hi) as Hdir.
  destruct (new_pde_facts v Hv) as (_ & Ep & E). constructor; cbn [km_mem set_mem].
  - intros w [->|(j & Hj & Hp & Ht)]; [by left; left|]. rewrite Hdir in * by done. case_decide.
    + right. rewrite Hps, <- Ht, E. left.
    + left. right. by exists j.
  - intros w [->|(j & Hj & Hp & Ht)]; [by left|]. right. exists j. rewrite Hdir by done.
    rewrite decide_False by congruence. done.
  - rewrite Hps. by exists [v].
  - intros w. rewrite Hps, elem_of_cons. intros [->|?]; [right|by left]. right. exists i.
    rewrite Hdir by done. by rewrite decide_True.
  - intros w x Hw Hn Ht Hx. apply new_table_out.
    + apply (page_ok_disjoint v w x); [done|done| |done]. intros ->. apply Hn. rewrite Hps. left.
    + destruct (is_table_ok k ps pgdir pgdir Hok) as [Hd _]; [by left|]. intros Hx'.
      apply (page_ok_disjoint pgdir w x); [done|done| |done|lia]. intros ->. apply Ht. by left.
Qed.

(** walkpgdir that may allocate: it answers the address of the entry, and the
    page table maps what it mapped before; it fails only without free pages. *)
Lemma walkpgdir_alloc k ps pgdir va :
  vm_ok k ps pgdir ->
  exists r k' ps', walkpgdir pgdir va true k = Ret r k' /\ vm_ok k' ps' pgdir /\
    (forall va', pte_of (km_mem k') pgdir va' = pte_of (km_mem k) pgdir va') /\ grows k ps pgdir k' ps' /\
    ((r = 0 /\ ps' = []) \/
     (r <> 0 /\ present (pde_at (km_mem k') pgdir (PDX va)) = true /\
      r = table (pde_at (km_mem k') pgdir (PDX va)) + 4 * PTX va)).
Proof.
  intros Hok. pose proof (PDX_range va) as Hi. pose proof (PTX_range va) as Ho.
  pose proof Hok as [Hwf _ _ Htab _]. unfold walkpgdir, mload. krun.
  fold (pde_at (km_mem k) pgdir (PDX va)). fold (present (pde_at (km_mem k) pgdir (PDX va))).
  destruct (present (pde_at (km_mem k) pgdir (PDX va))) eqn:Ep.
  { destruct (Htab _ Hi Ep) as (Hp & _). apply page_ok_range in Hp. unfold KERNBASE in Hp.
    eexists _, k, ps. split_and!; try done; [apply grows_refl|]. right. split_and!; try done.
    unfold table in Hp. lia. }
  destruct (kalloc_wf end_ k ps Hwf) as (r & k1 & E1 & Hm1 & _ & Hr). erewrite kbind_ret by exact E1.
  destruct ps as [|v ps'].
  - destruct Hr as [-> ->]. exists 0, k, []. split_and!; try done; [apply grows_refl|]. by left.
  - destruct Hr as [-> Hwf1]. destruct (new_page k _ pgdir Hok v ps' eq_refl) as (Hv & _).
    pose proof (page_ok_range end_ v Hv) as Hr. unfold KERNBASE in Hr.
    replace (v =? 0) with false by lia. unfold mmemset, mstore. krun. rewrite new_pde_eq by done.
    exists (v + 4 * PTX va), (set_mem (new_table k pgdir v (PDX va)) k1), ps'. split_and!.
    + unfold kret, new_table. by rewrite <- Hm1.
    + by eapply new_vm_ok.
    + intros va'. by eapply new_pte.
    + by apply (new_grows k _ pgdir Hok v (PDX va) ps').
    + right. simpl. rewrite (new_dir k _ pgdir Hok v (PDX va) ps') by done. rewrite decide_True by done.
      destruct (new_pde_facts v Hv) as (_ & -> & ->). split_and!; [lia|done..].
Qed.

(** walkpgdir without allocation only looks. *)
Lemma walkpgdir_look k pgdir va :
  walkpgdir pgdir va false k =
    Ret (if present (pde_at (km_mem k) pgdir (PDX va))
         then table (pde_at (km_mem k) pgdir (PDX va)) + 4 * PTX va else 0) k.
Proof.
  unfold walkpgdir, mload. krun.
  fold (pde_at (km_mem k) pgdir (PDX va)). fold (present (pde_at (km_mem k) pgdir (PDX va))).
  by destruct (present (pde_at (km_mem k) pgdir (PDX va))).
Qed.

(** *** Writing an entry *)

Section store.
Context (k : kmem) (ps : list Z) (pgdir i o w : Z).
Hypothesis Hok : vm_ok k ps pgdir.
Hypothesis Hi : 0 <= i < 1024.
Hypothesis Ho : 0 <= o < 1024.
Hypothesis Hp : present (pde_at (km_mem k) pgdir i) = true.
Hypothesis Hw : 0 <= w < 4294967296.
Notation tab := (table (pde_at (km_mem k) pgdir i)).
Notation m' := (store32 (km_mem k) (tab + 4 * o) w).

Lemma store_page x v : page_ok end_ v -> v <> tab -> v <= x < v + 4096 -> m' x = km_mem k x.
Proof.
  intros Hv Hne Hx. apply store32_out. intros Hx'. destruct (vo_tab _ _ _ Hok i Hi Hp) as (Ht & _).
  apply (page_ok_disjoint tab v x); [done|done|congruence|done|lia].
Qed.

Lemma store_dir j : 0 <= j < 1024 -> pde_at m' pgdir j = pde_at (km_mem k) pgdir j.
Proof.
  intros Hj. destruct (vo_tab _ _ _ Hok i Hi Hp) as (Ht & _ & Hne). apply page_words; [|done].
  intros x. apply store_page; [apply (vo_dir _ _ _ Hok)|congruence].
Qed.

Lemma store_vm_ok : vm_ok (set_mem m' k) ps pgdir.
Proof.
  pose proof Hok as [Hwf Hby Hd Htab Hinj]. destruct (Htab i Hi Hp) as (Ht & Htp & _).
  constructor; simpl.
  - apply kmem_wf_write; [done|]. intros v x Hv. apply store_page.
    + by eapply free_page_ok.
    + by intros ->.
  - by apply store32_ok.
  - done.
  - intros j Hj. rewrite store_dir by done. by apply Htab.
  - intros j1 j2 H1 H2. rewrite !store_dir by done. by apply Hinj.
Qed.

Lemma store_tables v : is_table m' pgdir v <-> is_table (km_mem k) pgdir v.
Proof.
  split; (intros [->|(j & Hj & Hq & Ht)]; [by left|]); right; exists j;
    rewrite store_dir in * by done; done.
Qed.

Lemma store_grows : grows k ps pgdir (set_mem m' k) ps.
Proof.
  pose proof store_tables as Ht.
  constructor; cbn [km_mem set_mem]; try done.
  - intros v. rewrite Ht. by left.
  - intros v. by rewrite Ht.
  - by left.
  - intros v x Hv Hn Hnt Hx. apply (store_page x v); try done.
    intros ->. apply Hnt. by apply is_table_nth.
Qed.

(** Exactly one entry of the map changes. *)
Lemma store_pte va :
  pte_of m' pgdir va = if decide (PDX va = i /\ PTX va = o) then w else pte_of (km_mem k) pgdir va.
Proof.
  pose proof (PDX_range va) as H1. pose proof (PTX_range va) as H2.
  unfold pte_of. rewrite store_dir by done. destruct (decide (PDX va = i)) as [E|E].
  - rewrite E, Hp. destruct (decide (PTX va = o)) as [E'|E'].
    + rewrite decide_True by done. rewrite E', load32_store32_eq. by apply u32_small.
    + rewrite decide_False by tauto. apply load32_store32_ne. lia.
  - rewrite decide_False by tauto. destruct (present (pde_at (km_mem k) pgdir (PDX va))) eqn:Ep; [|done].
    apply page_words; [|done]. intros x. destruct (vo_tab _ _ _ Hok _ H1 Ep) as (Ht & _).
    apply store_page; [done|]. intros Et. apply E. by apply (vo_inj _ _ _ Hok).
Qed.
End store.
End vmmap.

(** *** Addresses by page *)

Lemma same_page va a :
  0 <= va < 4294967296 -> 0 <= a < 4294967296 -> a mod 4096 = 0 ->
  (PDX va = PDX a /\ PTX va = PTX a) <-> a <= va < a + 4096.
Proof. intros H1 H2 H3. rewrite !PDX_eq, !PTX_eq. dlia. Qed.

(** The entry mappages writes. *)
Lemma map_entry_eq pa perm :
  0 <= pa -> pa mod 4096 = 0 -> 0 <= perm < 4096 ->
  Z.lor (Z.lor pa perm) PTE_P = pa + Z.lor perm PTE_P /\ 0 <= Z.lor perm PTE_P < 4096.
Proof.
  intros H1 H2 H3. rewrite <- Z.lor_assoc.
  assert (0 <= Z.lor perm PTE_P < 4096).
  { unfold PTE_P. split; [apply Z.lor_nonneg; lia|].
    destruct (Z.eq_dec (Z.lor perm 1) 0) as [->|]; [lia|].
    change 4096 with (2 ^ 12). apply Z.log2_lt_pow2; [|rewrite Z.log2_lor by lia].
    - pose proof (proj2 (Z.lor_nonneg perm 1)). lia.
    - change (Z.log2 1) with 0. pose proof (Z.log2_nonneg perm). apply Z.max_lub_lt; [|lia].
      destruct (Z.eq_dec perm 0) as [->|]; [done|]. apply Z.log2_lt_pow2; lia. }
  split; [|done]. apply (lor_disjoint 12); [lia|done|done].
Qed.

Section mappages.
Variable end_ : Z.
Notation vm_ok := (vm_ok end_).

(** The map after the pages of [[a, a + n pages]] were mapped at [pa]. *)
Definition mapped (f : Z -> Z) (a n pa perm va : Z) : Z :=
  if decide (a <= va < a + n * 4096) then pa + (va - va mod 4096 - a) + Z.lor perm PTE_P else f va.

(** One page: the entry walkpgdir answers is the one to write. *)
Lemma map_page k ps pgdir a pa perm :
  vm_ok k ps pgdir -> 0 <= a < 4294967296 -> a mod 4096 = 0 ->
  0 <= pa < 4294967296 -> pa mod 4096 = 0 -> 0 <= perm < 4096 ->
  present (pte_of (km_mem k) pgdir a) = false ->
  exists r k1 ps1, walkpgdir pgdir a true k = Ret r k1 /\ ((r = 0 /\ ps1 = [] /\ vm_ok k1 [] pgdir /\ grows end_ k ps pgdir k1 [] /\
        forall va, pte_of (km_mem k1) pgdir va = pte_of (km_mem k) pgdir va) \/
     (r <> 0 /\ present (load32 (km_mem k1) r) = false /\
      let k2 := set_mem (store32 (km_mem k1) r (Z.lor (Z.lor pa perm) PTE_P)) k1 in
      vm_ok k2 ps1 pgdir /\ grows end_ k ps pgdir k2 ps1 /\ forall va, 0 <= va < 4294967296 ->
        pte_of (km_mem k2) pgdir va = mapped (pte_of (km_mem k) pgdir) a 1 pa perm va)).
Proof.
  intros Hok Ha1 Ha2 Hp1 Hp2 Hpe Hnp.
  destruct (walkpgdir_alloc end_ k ps pgdir a Hok) as (r & k1 & ps1 & E & Hok1 & Hpte & Hg & Hr).
  exists r, k1, ps1. split; [done|]. destruct Hr as [[-> ->]|(Hr & Hpr & ->)]; [by left|right].
  destruct (map_entry_eq pa perm) as [He Hf]; [lia|done..|].
  pose proof (PDX_range a). pose proof (PTX_range a). split; [done|]. split.
  { rewrite <- Hnp, <- Hpte. unfold pte_of. by rewrite Hpr. }
  split; [by apply store_vm_ok|]. split; [by eapply grows_trans; [|apply store_grows]|].
  intros va Hva. cbn [km_mem set_mem].
  rewrite (store_pte end_ _ ps1) by (first [done | rewrite He; dlia]). rewrite Hpte, He. unfold mapped.
  destruct (decide (a <= va < a + 1 * 4096)).
  - rewrite decide_True by (apply same_page; [done..|lia]). dlia.
  - rewrite decide_False; [done|]. intros Hs. apply same_page in Hs; [lia|done..].
Qed.

Lemma mapped_more f a n pa perm va :
  0 <= n -> a mod 4096 = 0 -> 
  mapped (mapped f a 1 pa perm) (a + 4096) n (pa + 4096) perm va = mapped f a (n + 1) pa perm va.
Proof. intros Hn Ha. unfold mapped. repeat case_decide; lia || dlia. Qed.

Lemma mappages_loop_spec n k ps pgdir a pa perm :
  vm_ok k ps pgdir ->
  0 <= a -> a mod 4096 = 0 -> a + Z.of_nat n * 4096 < 4294967296 ->
  0 <= pa -> pa mod 4096 = 0 -> pa + Z.of_nat n * 4096 < 4294967296 -> 0 <= perm < 4096 ->
  (forall va, a <= va <= a + Z.of_nat n * 4096 -> present (pte_of (km_mem k) pgdir va) = false) ->
  exists r k' ps', mappages_loop n pgdir a (a + Z.of_nat n * 4096) pa perm k = Ret r k' /\
    vm_ok k' ps' pgdir /\ grows end_ k ps pgdir k' ps' /\
    ((r = 0 /\ forall va, 0 <= va < 4294967296 ->
        pte_of (km_mem k') pgdir va =
        mapped (pte_of (km_mem k) pgdir) a (Z.of_nat n + 1) pa perm va) \/
     (r = -1 /\ ps' = [] /\ forall va, 0 <= va < 4294967296 ->
        ~ (a <= va < a + (Z.of_nat n + 1) * 4096) ->
        pte_of (km_mem k') pgdir va = pte_of (km_mem k) pgdir va)).
Proof.
  revert k ps a pa. induction n as [|n IH]; intros k ps a pa Hok Ha1 Ha2 Ha3 Hp1 Hp2 Hp3 Hpe Hnp;
    destruct (map_page k ps pgdir a pa perm) as (r & k1 & ps1 & E & Hr);
      try (done || lia || (apply Hnp; lia));
    cbn [mappages_loop]; erewrite kbind_ret by exact E;
    (destruct Hr as [(-> & -> & Hok1 & Hg & Hpte)|(Hr & Hn & Hok2 & Hg & Hpte)];
      [exists (-1), k1, []; split_and!; try done; by right|]);
    apply Z.eqb_neq in Hr as ->; unfold mload, mstore; krun;
    fold (present (load32 (km_mem k1) r)); rewrite Hn; krun.
  - rewrite (proj2 (Z.eqb_eq a _)) by lia. eexists 0, _, ps1. split_and!; try done. by left.
  - rewrite (proj2 (Z.eqb_neq a _)) by lia. unfold PGSIZE. rewrite !u32_small by lia.
    replace (a + Z.of_nat (S n) * 4096) with (a + 4096 + Z.of_nat n * 4096) by lia.
    destruct (IH _ ps1 (a + 4096) (pa + 4096) Hok2) as (r' & k' & ps' & E' & Hok' & Hg' & Hr');
      [lia|dlia|lia|lia|dlia|lia|done| |].
    { intros va Hva. rewrite Hpte by lia. unfold mapped. rewrite decide_False by lia. apply Hnp. lia. }
    exists r', k', ps'. split; [done|]. split; [done|].
    split; [by eapply grows_trans|]. destruct Hr' as [[-> Hr']|(-> & -> & Hr')]; [left|right].
    + split; [done|]. intros va Hva. rewrite Hr' by done. unfold mapped at 1. rewrite Hpte by done.
      fold (mapped (mapped (pte_of (km_mem k) pgdir) a 1 pa perm) (a + 4096) (Z.of_nat n + 1) (pa + 4096) perm va).
      rewrite mapped_more by lia. f_equal. lia.
    + split_and!; try done. intros va Hva Hout. rewrite Hr' by lia. rewrite Hpte by lia.
      unfold mapped. by rewrite decide_False by lia.
Qed.
End mappages.

(** ** mappages

    Given page tables that do not map any page of the range [va .. va+size) yet, mappages
    returns: with 0 it has mapped every page of the range to the consecutive frames from
    [pa] on with the permissions asked for, and no other virtual address changed its entry;
    with -1 the free list is exhausted and nothing outside the range changed. *)
Lemma mappages_spec (end_ : Z) (k : kmem) (ps : list Z) (pgdir va size pa perm : Z) :
  vm_ok end_ k ps pgdir ->
  0 <= va -> 0 < size -> va + size <= 4294967296 ->
  0 <= pa -> pa mod PGSIZE = 0 -> pa + size + va mod PGSIZE <= 4294967296 -> 0 <= perm < PGSIZE ->
  (forall v, PGROUNDDOWN va <= v <= PGROUNDDOWN (va + size - 1) ->
     present (pte_of (km_mem k) pgdir v) = false) ->
  exists r k' ps', mappages pgdir va size pa perm k = Ret r k' /\
    vm_ok end_ k' ps' pgdir /\ grows end_ k ps pgdir k' ps' /\
    ((r = 0 /\ forall v, 0 <= v < 4294967296 ->
        pte_of (km_mem k') pgdir v =
          if decide (PGROUNDDOWN va <= v < PGROUNDDOWN (va + size - 1) + PGSIZE)
          then pa + (PGROUNDDOWN v - PGROUNDDOWN va) + Z.lor perm PTE_P
          else pte_of (km_mem k) pgdir v) \/
     (r = -1 /\ ps' = [] /\ forall v, 0 <= v < 4294967296 ->
        ~ (PGROUNDDOWN va <= v < PGROUNDDOWN (va + size - 1) + PGSIZE) ->
        pte_of (km_mem k') pgdir v = pte_of (km_mem k) pgdir v)).
Proof.
  intros Hok Hva Hsz Hend Hpa Hpm Hpe Hperm Hnp. unfold mappages, PGSIZE in *.
  rewrite (u32_small (va + size - 1)) by lia. rewrite !PGROUNDDOWN_eq in *.
  set (a := va - va mod 4096) in *. set (last := va + size - 1 - (va + size - 1) mod 4096) in *.
  assert (Ha : 0 <= a /\ a mod 4096 = 0 /\ a <= last /\ (last - a) mod 4096 = 0 /\ last < 4294967296
    /\ last - a + pa < 4294967296) by (unfold a, last; split_and!; dlia).
  destruct Ha as (Ha1 & Ha2 & Ha3 & Ha4 & Ha5 & Ha6). rewrite (u32_small (last - a)) by lia.
  set (n := Z.to_nat ((last - a) / 4096)).
  assert (En : last = a + Z.of_nat n * 4096) by (unfold n; rewrite Z2Nat.id; dlia).
  destruct (mappages_loop_spec end_ n k ps pgdir a pa perm) as (r & k' & ps' & E & Hok' & Hg & Hr);
    try (done || lia). { intros v Hv. apply Hnp. lia. }
  rewrite <- En in E. exists r, k', ps'. split; [done|]. split; [done|]. split; [done|].
  destruct Hr as [[-> Hr]|(-> & -> & Hr)]; [left|right].
  - split; [done|]. intros v Hv. rewrite Hr by done. unfold mapped. rewrite PGROUNDDOWN_eq.
    repeat case_decide; lia.
  - split_and!; try done. intros v Hv Ho. apply Hr; [done|lia].
Qed.
