(* ===== verification/VmUser.v ===== *)
(** * User memory (vm.c)

    The part of the address space below KERNBASE: growing it with allocuvm and
    shrinking it with deallocuvm.  Every user page has a frame of its own, which
    is neither free nor part of the page tables. *)

From S2P Require Import Prelude Mem Layout Kalloc Vm VmMap.

(** The kernel address of the frame behind a user address. *)
Definition frame (m : mem) (pgdir va : Z) : Z := P2V (PTE_ADDR (pte_of m pgdir va)).
Definition mapped_at (m : mem) (pgdir va : Z) : Prop :=
  0 <= va < KERNBASE /\ present (pte_of m pgdir va) = true.

Section user.
Variable end_ : Z.
(** The kernel is loaded above KERNBASE. *)
Hypothesis end_high : KERNBASE < end_.
Notation vm_ok := (vm_ok end_).
Notation page_ok := (page_ok end_).

Record uvm_ok (k : kmem) (ps : list Z) (pgdir : Z) : Prop := {
  uo_vm : vm_ok k ps pgdir;
  uo_frame : forall va, mapped_at (km_mem k) pgdir va ->
    page_ok (frame (km_mem k) pgdir va) /\ frame (km_mem k) pgdir va ∉ ps /\
    ~ is_table (km_mem k) pgdir (frame (km_mem k) pgdir va);
  uo_inj : forall va va', mapped_at (km_mem k) pgdir va -> mapped_at (km_mem k) pgdir va' ->
    frame (km_mem k) pgdir va = frame (km_mem k) pgdir va' -> va / 4096 = va' / 4096
}.

(** A page that is out of the allocator and not yet used for anything. *)
Definition fresh (k : kmem) (ps : list Z) (pgdir r : Z) : Prop :=
  page_ok r /\ r ∉ ps /\ ~ is_table (km_mem k) pgdir r /\
  forall va, mapped_at (km_mem k) pgdir va -> frame (km_mem k) pgdir va <> r.

(** *** Changes outside the page tables *)

Section outside.
Context (k k' : kmem) (ps ps' : list Z) (pgdir : Z).
Hypothesis Hok : vm_ok k ps pgdir.
Hypothesis Hsame : forall v x, is_table (km_mem k) pgdir v -> v <= x < v + 4096 -> km_mem k' x = km_mem k x.

Lemma outside_pde i : 0 <= i < 1024 -> pde_at (km_mem k') pgdir i = pde_at (km_mem k) pgdir i.
Proof. intros Hi. apply page_words; [|done]. intros x. apply Hsame. by left. Qed.

Lemma outside_pte va : pte_of (km_mem k') pgdir va = pte_of (km_mem k) pgdir va.
Proof.
  pose proof (PDX_range va). unfold pte_of. rewrite outside_pde by done.
  destruct (present _) eqn:Ep; [|done]. apply page_words; [|apply PTX_range].
  intros x. apply Hsame. by apply is_table_nth.
Qed.

Lemma outside_tables v : is_table (km_mem k') pgdir v <-> is_table (km_mem k) pgdir v.
Proof.
  split; (intros [->|(i & Hi & Hp & Ht)]; [by left|]); right; exists i;
    rewrite outside_pde in * by done; done.
Qed.

Lemma outside_vm_ok :
  kmem_wf end_ k' ps' -> mem_ok (km_mem k') ->
  (forall v, is_table (km_mem k) pgdir v -> v ∉ ps') -> vm_ok k' ps' pgdir.
Proof.
  intros Hwf Hm Hps. pose proof Hok as [_ _ [Hd _] Htab Hinj]. constructor; try done.
  - split; [done|]. apply Hps. by left.
  - intros i Hi. rewrite outside_pde by done. intros Hp. destruct (Htab i Hi Hp) as (? & _ & ?).
    split_and!; try done. apply Hps. by apply is_table_nth.
  - intros i j Hi Hj. rewrite !outside_pde by done. by apply Hinj.
Qed.

Lemma outside_mapped va : mapped_at (km_mem k') pgdir va <-> mapped_at (km_mem k) pgdir va.
Proof. unfold mapped_at. by rewrite outside_pte. Qed.

Lemma outside_frame va : frame (km_mem k') pgdir va = frame (km_mem k) pgdir va.
Proof. unfold frame. by rewrite outside_pte. Qed.
End outside.

(** Tables and other pages are apart. *)
Lemma not_table_apart k ps pgdir r v x :
  vm_ok k ps pgdir -> page_ok r -> ~ is_table (km_mem k) pgdir r -> is_table (km_mem k) pgdir v ->
  v <= x < v + 4096 -> ~ (r <= x < r + 4096).
Proof.
  intros Hok Hr Hn Hv. destruct (is_table_ok end_ k ps pgdir v Hok Hv) as [Hp _].
  apply (page_ok_disjoint end_ r v); [done|done|congruence].
Qed.

(** *** Taking a page from the allocator and clearing it *)

(** The page may be filled in any way. *)
Lemma take_page_any k ps pgdir r :
  uvm_ok k (r :: ps) pgdir ->
  exists k1, kalloc k = Ret r k1 /\ r <> 0 /\ km_mem k1 = km_mem k /\
    forall m2, mem_ok m2 -> (forall x, ~ (r <= x < r + 4096) -> m2 x = km_mem k x) ->
    let k2 := set_mem m2 k1 in
    uvm_ok k2 ps pgdir /\ fresh k2 ps pgdir r /\
    (forall va, pte_of (km_mem k2) pgdir va = pte_of (km_mem k) pgdir va) /\
    (forall w, is_table (km_mem k2) pgdir w <-> is_table (km_mem k) pgdir w).
Proof.
  intros [Hvm Hfr Hinj]. pose proof Hvm as [Hwf Hm _ _ _].
  destruct (kalloc_wf end_ k _ Hwf) as (r' & k1 & E & Hm1 & _ & -> & Hwf1). exists k1.
  assert (Hr : page_ok r) by (eapply free_page_ok; [exact Hwf|left]).
  pose proof Hwf as [_ _ Hnd]. apply NoDup_cons in Hnd as [Hrn _].
  split; [done|]. split. { apply page_ok_range in Hr. unfold KERNBASE in Hr. lia. }
  split; [done|]. intros m2 Hm2 Hx k2.
  assert (Hnt : ~ is_table (km_mem k) pgdir r).
  { intros Ht. apply (is_table_ok end_ k (r :: ps)) in Ht as [_ Ht]; [|done]. apply Ht. left. }
  assert (Hs : forall v x, is_table (km_mem k) pgdir v -> v <= x < v + 4096 -> km_mem k2 x = km_mem k x).
  { intros v x Hv Hxv. apply Hx. by eapply not_table_apart. }
  assert (Hok2 : vm_ok k2 ps pgdir).
  { eapply outside_vm_ok; [exact Hvm|done| |done|].
    - apply kmem_wf_write; [done|]. intros w x Hw Hwx. rewrite Hm1. apply Hx.
      apply (page_ok_disjoint end_ r w); [done| | |done]; [by eapply free_page_ok|]. by intros ->.
    - intros v Hv Hin. apply (is_table_ok end_ k (r :: ps)) in Hv as [_ Hv]; [|done]. apply Hv. by right. }
  split_and!.
  - constructor; [done| |].
    + intros va. rewrite (outside_mapped k k2 _ Hs), (outside_frame k k2 _ Hs), (outside_tables k k2 _ Hs).
      intros Hva. destruct (Hfr va Hva) as (? & Hn & ?). split_and!; try done. intros Hin. apply Hn. by right.
    + intros va va'. rewrite !(outside_mapped k k2 _ Hs), !(outside_frame k k2 _ Hs). apply Hinj.
  - split_and!; [done|done| |].
    + by rewrite (outside_tables k k2 _ Hs).
    + intros va. rewrite (outside_mapped k k2 _ Hs), (outside_frame k k2 _ Hs). intros Hva Er.
      destruct (Hfr va Hva) as (_ & Hn & _). apply Hn. rewrite Er. left.
  - apply (outside_pte k k2 _ Hs).
  - apply (outside_tables k k2 _ Hs).
Qed.

Lemma take_page k ps pgdir r :
  uvm_ok k (r :: ps) pgdir ->
  exists k1, kalloc k = Ret r k1 /\ r <> 0 /\
    let k2 := set_mem (memset (km_mem k1) r 0 PGSIZE) k1 in
    uvm_ok k2 ps pgdir /\ fresh k2 ps pgdir r /\
    (forall va, pte_of (km_mem k2) pgdir va = pte_of (km_mem k) pgdir va) /\
    (forall w, is_table (km_mem k2) pgdir w <-> is_table (km_mem k) pgdir w) /\
    (forall x, km_mem k2 x = if decide (r <= x < r + 4096) then 0 else km_mem k x).
Proof.
  intros Hok. destruct (take_page_any k ps pgdir r Hok) as (k1 & E & Hr & Hm1 & Hany). exists k1. split; [done|]. split; [done|].
  intros k2. assert (Hx : forall x, km_mem k2 x = if decide (r <= x < r + 4096) then 0 else km_mem k x).
  { intros x. unfold k2. cbn [km_mem set_mem]. rewrite Hm1. case_decide; [|by apply memset_out].
    rewrite memset_filled by done. by apply filled_in. }
  destruct (Hany (memset (km_mem k1) r 0 PGSIZE)) as (? & ? & ? & ?).
  - apply memset_ok; [done|]. rewrite Hm1. apply Hok.
  - intros x Hxr. change (km_mem k2 x = km_mem k x). by rewrite Hx, decide_False.
  - done.
Qed.

(** *** Giving a page back *)

Lemma give_page k ps pgdir r :
  vm_ok k ps pgdir -> page_ok r -> r ∉ ps -> ~ is_table (km_mem k) pgdir r ->
  exists k', kfree end_ r k = Ret tt k' /\ vm_ok k' (r :: ps) pgdir /\
    (forall va, pte_of (km_mem k') pgdir va = pte_of (km_mem k) pgdir va) /\
    (forall w, is_table (km_mem k') pgdir w <-> is_table (km_mem k) pgdir w) /\
    (forall x, ~ (r <= x < r + 4096) -> km_mem k' x = km_mem k x).
Proof.
  intros Hvm Hr Hrn Hnt. pose proof Hvm as [Hwf Hm _ _ _].
  destruct (kfree_wf end_ k ps r Hwf Hr Hrn) as (k' & E & Hwf' & _ & Hx). exists k'.
  assert (Hs : forall v x, is_table (km_mem k) pgdir v -> v <= x < v + 4096 -> km_mem k' x = km_mem k x).
  { intros v x Hv Hxv. apply Hx. by eapply not_table_apart. }
  split; [done|]. split_and!; [|by apply outside_pte|by apply outside_tables|done].
  eapply outside_vm_ok; [exact Hvm|done|done| |].
  - rewrite kfree_eq in E; [|apply Hwf|done]. injection E as <-. unfold freed_page.
    apply store32_ok. intros x. rewrite memset_filled by done. unfold filled. case_match; [done|apply Hm].
  - intros v Hv. apply not_elem_of_cons. split; [by intros ->|].
    by apply (is_table_ok end_ k ps pgdir v Hvm).
Qed.

(** A page that was never used goes back with nothing changed. *)
Lemma give_fresh k ps pgdir r :
  uvm_ok k ps pgdir -> fresh k ps pgdir r ->
  exists k', kfree end_ r k = Ret tt k' /\ uvm_ok k' (r :: ps) pgdir /\
    (forall va, pte_of (km_mem k') pgdir va = pte_of (km_mem k) pgdir va) /\
    (forall w, is_table (km_mem k') pgdir w <-> is_table (km_mem k) pgdir w) /\
    (forall x, ~ (r <= x < r + 4096) -> km_mem k' x = km_mem k x).
Proof.
  intros [Hvm Hfr Hinj] (Hr & Hrn & Hnt & Hnf).
  destruct (give_page k ps pgdir r) as (k' & E & Hvm' & Hpte & Htab & Hx); try done.
  exists k'. split_and!; try done. constructor; [done| |].
  - intros va. unfold mapped_at, frame. rewrite Hpte, Htab. intros Hva. destruct (Hfr va Hva) as (? & ? & ?).
    split_and!; try done. apply not_elem_of_cons. split; [by apply Hnf|done].
  - intros va va'. unfold mapped_at, frame. rewrite !Hpte. apply Hinj.
Qed.

(** *** Growing the page tables *)

(** Page tables that grow by pages of the free list, and at most the entry of
    [a], which then maps a fresh page. *)
Lemma grow_uvm k ps pgdir k' ps' a r :
  uvm_ok k ps pgdir -> fresh k ps pgdir r -> vm_ok k' ps' pgdir -> grows end_ k ps pgdir k' ps' ->
  0 <= a -> a mod 4096 = 0 ->
  (forall va, mapped_at (km_mem k') pgdir va ->
     (mapped_at (km_mem k) pgdir va /\ frame (km_mem k') pgdir va = frame (km_mem k) pgdir va) \/
     (a <= va < a + 4096 /\ frame (km_mem k') pgdir va = r)) ->
  uvm_ok k' ps' pgdir.
Proof.
  intros [Hvm Hfr Hinj] (Hr & Hrn & Hnt & Hnf) Hvm' [Htab _ [l ->] _ _] Ha1 Ha2 Hmap. constructor; [done| |].
  - intros va Hva. destruct (Hmap va Hva) as [[Hva0 ->]|[_ ->]].
    + destruct (Hfr va Hva0) as (? & Hn & Ht). split_and!; try done.
      * intros Hin. apply Hn, elem_of_app. by right.
      * intros Ht'. destruct (Htab _ Ht'); done.
    + split_and!; try done.
      * intros Hin. apply Hrn, elem_of_app. by right.
      * intros Ht'. destruct (Htab _ Ht'); done.
  - intros va va' Hva Hva'. destruct (Hmap va Hva) as [[H1 ->]|[H1 ->]], (Hmap va' Hva') as [[H2 ->]|[H2 ->]].
    + by apply Hinj.
    + intros E. by destruct (Hnf va H1).
    + intros E. by destruct (Hnf va' H2).
    + intros _. dlia.
Qed.

(** *** One page of allocuvm *)

Notation perm := (Z.lor PTE_W PTE_U).

Lemma user_entry r : page_ok r -> V2P r + Z.lor perm PTE_P = V2P r + 7 /\ P2V (PTE_ADDR (V2P r + 7)) = r.
Proof. intros Hr. split; [done|]. apply (new_pde_facts end_ r Hr). Qed.

Lemma mappages_one pgdir a pa pm k :
  0 <= a -> a mod 4096 = 0 -> a + 4096 <= 4294967296 ->
  mappages pgdir a PGSIZE pa pm k = mappages_loop 0 pgdir a a pa pm k.
Proof.
  intros H1 H2 H3. unfold mappages, PGSIZE. rewrite (u32_small (a + 4096 - 1)) by lia. rewrite !PGROUNDDOWN_eq.
  replace (a + 4096 - 1 - (a + 4096 - 1) mod 4096) with a by dlia.
  replace (a - a mod 4096) with a by lia. rewrite Z.sub_diag. done.
Qed.

(** The entry of a page with permissions. *)
Lemma page_entry r pm : page_ok r -> 0 <= pm < 4096 -> P2V (PTE_ADDR (V2P r + Z.lor pm PTE_P)) = r.
Proof.
  intros Hr Hpm. assert (Ha : V2P r mod 4096 = 0) by (destruct Hr as (_ & Hr & _); unfold V2P, KERNBASE, PGSIZE in *; dlia).
  destruct (map_entry_eq (V2P r) pm) as [_ Hf]; [apply u32_range|done|done|]. rewrite PTE_ADDR_eq.
  replace (V2P r + Z.lor pm PTE_P - (V2P r + Z.lor pm PTE_P) mod 4096) with (V2P r) by dlia.
  destruct Hr as (? & ? & ? & ?). by apply P2V_V2P.
Qed.

Lemma map_fresh k ps pgdir a r pm :
  uvm_ok k ps pgdir -> fresh k ps pgdir r -> 0 <= pm < 4096 -> 0 <= a < KERNBASE -> a mod 4096 = 0 ->
  present (pte_of (km_mem k) pgdir a) = false ->
  exists q k' ps', mappages pgdir a PGSIZE (V2P r) pm k = Ret q k' /\
    uvm_ok k' ps' pgdir /\ grows end_ k ps pgdir k' ps' /\
    ((q = 0 /\ forall va, 0 <= va < 4294967296 -> pte_of (km_mem k') pgdir va =
        if decide (a <= va < a + 4096) then V2P r + Z.lor pm PTE_P else pte_of (km_mem k) pgdir va) \/
     (q = -1 /\ ps' = [] /\ fresh k' [] pgdir r /\
        forall va, pte_of (km_mem k') pgdir va = pte_of (km_mem k) pgdir va)).
Proof.
  intros Hu Hfresh Hpm Ha Ha2 Hnp. pose proof Hu as [Hvm Hfr _]. pose proof Hfresh as (Hr & Hrn & Hrt & Hrf).
  unfold KERNBASE in Ha. pose proof (page_entry r pm Hr Hpm) as Hf.
  assert (Hpa : 0 <= V2P r < 4294967296 /\ V2P r mod 4096 = 0).
  { split; [apply u32_range|]. destruct Hr as (_ & Hr & _). unfold V2P, KERNBASE, PGSIZE in *. dlia. }
  rewrite mappages_one by lia. cbn [mappages_loop].
  destruct (map_page end_ k ps pgdir a (V2P r) pm) as (q & k1 & ps1 & E & Hq); [done|lia|done|apply Hpa|apply Hpa|done|done|].
  erewrite kbind_ret by exact E.
  destruct Hq as [(-> & -> & Hok1 & Hg & Hpte)|(Hq & Hn & Hok2 & Hg & Hpte)].
  - exists (-1), k1, []. split; [done|]. split_and!; try done.
    + eapply (grow_uvm k ps pgdir k1 [] a r); try done; [lia|].
      intros va. unfold mapped_at, frame. rewrite Hpte. by left.
    + right. split_and!; try done. split_and!; try done; [apply not_elem_of_nil| |].
      * intros Ht. destruct (gr_new _ _ _ _ _ _ Hg r Ht); done.
      * intros va. unfold mapped_at, frame. rewrite Hpte. apply Hrf.
  - apply Z.eqb_neq in Hq as ->. unfold mload, mstore. krun.
    fold (present (load32 (km_mem k1) q)). rewrite Hn. krun. rewrite Z.eqb_refl.
    assert (Hpte' : forall va, 0 <= va < 4294967296 ->
      pte_of (store32 (km_mem k1) q (Z.lor (Z.lor (V2P r) pm) PTE_P)) pgdir va =
      if decide (a <= va < a + 4096) then V2P r + Z.lor pm PTE_P else pte_of (km_mem k) pgdir va).
    { intros va Hva. cbn [km_mem set_mem] in Hpte. rewrite Hpte by done. unfold mapped.
      replace (a + 1 * 4096) with (a + 4096) by lia. case_decide; [|done]. dlia. }
    eexists 0, _, ps1. split; [done|]. split_and!; [|done|by left].
    eapply (grow_uvm k ps pgdir _ ps1 a r); try done; [lia|].
    intros va Hva. pose proof Hva as [Hr1 _]. unfold KERNBASE in Hr1.
    unfold mapped_at, frame in *. cbn [km_mem set_mem] in *. rewrite Hpte' in * by lia.
    case_decide; [by right|by left].
Qed.
(** *** Unmapping a range of user pages *)

(** From [(k, ps)] to [(k', ps')] exactly the pages of [lo .. hi) were unmapped and
    their frames, and nothing else, given back. *)
Record unmapped (k : kmem) (ps : list Z) (pgdir lo hi : Z) (k' : kmem) (ps' : list Z) : Prop := {
  un_ok : uvm_ok k' ps' pgdir;
  un_pte : forall va, 0 <= va < 4294967296 -> pte_of (km_mem k') pgdir va =
    if decide (lo <= va < hi /\ present (pte_of (km_mem k) pgdir va) = true) then 0
    else pte_of (km_mem k) pgdir va;
  un_free : forall w, w ∈ ps' <-> w ∈ ps \/
    exists va, lo <= va < hi /\ mapped_at (km_mem k) pgdir va /\ frame (km_mem k) pgdir va = w;
  un_tab : forall w, is_table (km_mem k') pgdir w <-> is_table (km_mem k) pgdir w;
  un_data : forall w x, page_ok w -> w ∉ ps' -> ~ is_table (km_mem k) pgdir w -> w <= x < w + 4096 ->
    km_mem k' x = km_mem k x
}.

Lemma unmapped_none k ps pgdir lo hi :
  uvm_ok k ps pgdir -> 0 <= lo -> hi <= KERNBASE ->
  (forall va, lo <= va < hi -> present (pte_of (km_mem k) pgdir va) = false) ->
  unmapped k ps pgdir lo hi k ps.
Proof.
  intros Hok Hlo Hhi Hnp. constructor; try done.
  - intros va Hva. case_decide as E; [|done]. destruct E as [E1 E2]. by rewrite Hnp in E2.
  - intros w. split; [by left|]. intros [?|(va & Hva & [_ Hp] & _)]; [done|]. by rewrite Hnp in Hp.
Qed.

Lemma unmapped_trans k ps pgdir lo mid hi k1 ps1 k2 ps2 :
  0 <= lo <= mid -> mid <= hi <= KERNBASE ->
  unmapped k ps pgdir lo mid k1 ps1 -> unmapped k1 ps1 pgdir mid hi k2 ps2 ->
  unmapped k ps pgdir lo hi k2 ps2.
Proof.
  intros Hlo Hhi [A1 A2 A3 A4 A5] [B1 B2 B3 B4 B5]. unfold KERNBASE in *.
  assert (Hm : forall va, mid <= va < hi -> pte_of (km_mem k1) pgdir va = pte_of (km_mem k) pgdir va).
  { intros va Hva. rewrite A2 by lia. rewrite decide_False; [done|]. lia. }
  constructor; [done| | | |].
  - intros va Hva. rewrite B2 by done. destruct (decide (mid <= va < hi)).
    + rewrite Hm by done. apply decide_ext. intuition lia.
    + rewrite decide_False by lia. rewrite A2 by done. apply decide_ext. intuition lia.
  - intros w. rewrite B3, A3. unfold mapped_at, frame. split.
    + intros [[?|(va & ? & ?)]|(va & Hva & Hp & Hf)]; [by left|right; exists va; split; [lia|done]|].
      rewrite Hm in * by done. right. exists va. split; [lia|done].
    + intros [?|(va & Hva & Hp)]; [by left; left|]. destruct (decide (va < mid)).
      * left. right. exists va. split; [lia|done].
      * right. exists va. rewrite Hm by lia. split; [lia|done].
  - intros w. by rewrite B4, A4.
  - intros w x Hw Hn Ht Hx. rewrite (B5 w), (A5 w); try done; [|by rewrite A4].
    intros Hin. apply Hn, B3. by left.
Qed.

(** One page: kfree of the frame, then the entry cleared. *)
Lemma unmap_page k ps pgdir a :
  uvm_ok k ps pgdir -> 0 <= a -> a mod 4096 = 0 -> a < KERNBASE ->
  present (pte_of (km_mem k) pgdir a) = true ->
  exists k1, kfree end_ (frame (km_mem k) pgdir a) k = Ret tt k1 /\
    unmapped k ps pgdir a (a + 4096)
      (set_mem (store32 (km_mem k1) (table (pde_at (km_mem k) pgdir (PDX a)) + 4 * PTX a) 0) k1)
      (frame (km_mem k) pgdir a :: ps).
Proof.
  intros [Hvm Hfr Hinj] Ha Ha2 Ha3 Hp. set (r := frame (km_mem k) pgdir a).
  pose proof (PDX_range a) as Hi. pose proof (PTX_range a) as Ho. unfold KERNBASE in Ha3.
  assert (Hma : mapped_at (km_mem k) pgdir a) by (unfold mapped_at, KERNBASE; split; [lia|done]).
  destruct (Hfr a Hma) as (Hr & Hrn & Hrt). fold r in Hr, Hrn, Hrt.
  assert (Hpd : present (pde_at (km_mem k) pgdir (PDX a)) = true).
  { unfold pte_of in Hp. by destruct (present (pde_at _ _ _)). }
  destruct (give_page k ps pgdir r Hvm Hr Hrn Hrt) as (k1 & E & Hvm1 & Hpte1 & Htab1 & Hx1).
  assert (Hd1 : forall i, 0 <= i < 1024 -> pde_at (km_mem k1) pgdir i = pde_at (km_mem k) pgdir i).
  { intros i Hi'. apply page_words; [|done]. intros x Hx. apply Hx1.
    eapply (not_table_apart k ps pgdir r pgdir); try done. by left. }
  exists k1. split; [done|]. rewrite <- Hd1 by done. rewrite <- Hd1 in Hpd by done.
  pose proof (store_grows end_ k1 (r :: ps) pgdir (PDX a) (PTX a) 0 Hvm1 Hi Ho Hpd) as [_ _ _ _ Hdata].
  pose proof (store_dir end_ k1 (r :: ps) pgdir (PDX a) (PTX a) 0 Hvm1 Hi Ho Hpd) as Hdir.
  pose proof (store_pte end_ k1 (r :: ps) pgdir (PDX a) (PTX a) 0 Hvm1 Hi Ho Hpd ltac:(lia)) as Hst.
  set (k2 := set_mem _ k1) in *.
  assert (Hpte : forall va, 0 <= va < 4294967296 -> pte_of (km_mem k2) pgdir va =
    if decide (a <= va < a + 4096) then 0 else pte_of (km_mem k) pgdir va).
  { intros va Hva. unfold k2. cbn [km_mem set_mem]. rewrite Hst, Hpte1. apply decide_ext.
    apply same_page; lia. }
  assert (Htab : forall w, is_table (km_mem k2) pgdir w <-> is_table (km_mem k) pgdir w).
  { intros w. rewrite <- Htab1. unfold k2. cbn [km_mem set_mem].
    split; (intros [->|(j & Hj & Hq & Ht)]; [by left|]); right; exists j; rewrite Hdir in * by done; done. }
  assert (Hpg : forall va, a <= va < a + 4096 -> pte_of (km_mem k) pgdir va = pte_of (km_mem k) pgdir a).
  { intros va Hva. unfold pte_of.
    assert (PDX va = PDX a /\ PTX va = PTX a) as [-> ->] by (apply same_page; lia). done. }
  assert (Hmap : forall va, mapped_at (km_mem k2) pgdir va -> mapped_at (km_mem k) pgdir va /\
    ~ (a <= va < a + 4096) /\ frame (km_mem k2) pgdir va = frame (km_mem k) pgdir va).
  { intros va [Hv Hq]. unfold KERNBASE in Hv. unfold mapped_at, frame. rewrite Hpte in * by lia.
    case_decide; done. }
  constructor.
  - constructor.
    + by apply store_vm_ok.
    + intros va Hva. destruct (Hmap va Hva) as (Hv & Hne & ->). destruct (Hfr va Hv) as (? & ? & ?).
      split_and!; try done; [|by rewrite Htab]. apply not_elem_of_cons. split; [|done].
      intros Er. apply Hinj in Er; try done. apply Hne. dlia.
    + intros va va' H1 H2. destruct (Hmap va H1) as (? & _ & ->), (Hmap va' H2) as (? & _ & ->). by apply Hinj.
  - intros va Hva. rewrite Hpte by done. case_decide as Hc.
    + rewrite decide_True; [done|]. split; [done|]. by rewrite Hpg.
    + by rewrite decide_False by tauto.
  - intros w. rewrite elem_of_cons. split.
    + intros [->|?]; [right; exists a; split_and!; try done; lia|by left].
    + intros [?|(va & Hva & _ & <-)]; [by right|left]. unfold r, frame. by rewrite Hpg.
  - done.
  - intros w x Hw Hn Ht Hx. apply not_elem_of_cons in Hn as [Hn1 Hn2]. rewrite (Hdata w); try done.
    + apply Hx1. apply (page_ok_disjoint end_ r w); [done|done|congruence|done].
    + apply not_elem_of_cons. done.
    + by rewrite Htab1.
Qed.
(** *** deallocuvm *)

(** Rounding up to a page. *)
Definition page_up (x : Z) : Z := (x + 4095) / 4096 * 4096.

Lemma PGROUNDUP_page_up x : 0 <= x <= KERNBASE -> PGROUNDUP x = page_up x.
Proof. unfold KERNBASE. intros Hx. rewrite PGROUNDUP_eq by lia. unfold page_up. dlia. Qed.

(** Where deallocuvm goes on when a whole page table is missing. *)
Lemma next_table a :
  0 <= a < KERNBASE ->
  u32 (u32 (PGADDR (PDX a + 1) 0 0 - PGSIZE) + PGSIZE) = (a / 4194304 + 1) * 4194304.
Proof.
  intros Ha. unfold KERNBASE in Ha. unfold PGADDR, PDXSHIFT, PTXSHIFT, PGSIZE. rewrite u32_add_l.
  rewrite Z.shiftl_0_l, !Z.lor_0_r, Z.shiftl_mul_pow2 by lia. change (2 ^ 22) with 4194304.
  rewrite PDX_eq. rewrite (Z.mod_small (a / 4194304)) by dlia. rewrite Z.sub_add, u32_u32. apply u32_small. dlia.
Qed.

Lemma missing_table k pgdir a va :
  0 <= a < KERNBASE -> present (pde_at (km_mem k) pgdir (PDX a)) = false ->
  a <= va < (a / 4194304 + 1) * 4194304 -> pte_of (km_mem k) pgdir va = 0.
Proof.
  intros Ha Hp Hva. unfold KERNBASE in Ha. unfold pte_of. replace (PDX va) with (PDX a); [by rewrite Hp|].
  rewrite !PDX_eq. f_equal. dlia.
Qed.

Lemma deallocuvm_loop_end n pgdir a oldsz k :
  oldsz <= a -> deallocuvm_loop end_ n pgdir a oldsz k = Ret tt k.
Proof. intros H. apply Z.ltb_ge in H. destruct n; cbn [deallocuvm_loop]; by rewrite H. Qed.

Lemma deallocuvm_loop_spec n k ps pgdir a hi oldsz :
  uvm_ok k ps pgdir -> 0 <= a -> a mod 4096 = 0 -> 0 <= oldsz <= KERNBASE -> hi = page_up oldsz ->
  oldsz <= a + Z.of_nat n * 4096 ->
  exists k' ps', deallocuvm_loop end_ n pgdir a oldsz k = Ret tt k' /\ unmapped k ps pgdir a hi k' ps'.
Proof.
  revert k ps a. induction n as [|n IH]; intros k ps a Hok Ha Ha2 Hsz Hhi Hn;
    assert (Hhk : oldsz <= hi < oldsz + 4096 /\ hi mod 4096 = 0 /\ hi <= KERNBASE)
      by (unfold page_up, KERNBASE in *; dlia);
    cbn [deallocuvm_loop]; destruct (Z.ltb_spec a oldsz) as [Hlt|Hge]; try lia;
    try (exists k, ps; split; [done|]; apply unmapped_none; try done; [lia|]; intros; dlia).
  assert (Haup : a + 4096 <= hi) by dlia. unfold KERNBASE in Hsz, Hhk.
  erewrite kbind_ret by apply walkpgdir_look.
  destruct (present (pde_at (km_mem k) pgdir (PDX a))) eqn:Ep.
  - destruct (vo_tab _ _ _ _ (uo_vm _ _ _ Hok) (PDX a) (PDX_range a) Ep) as (Ht & _).
    apply page_ok_range in Ht. unfold KERNBASE in Ht. pose proof (PTX_range a).
    rewrite (proj2 (Z.eqb_neq _ 0)) by lia. unfold mload. krun.
    assert (Ee : load32 (km_mem k) (table (pde_at (km_mem k) pgdir (PDX a)) + 4 * PTX a) = pte_of (km_mem k) pgdir a)
      by (unfold pte_of; by rewrite Ep).
    rewrite Ee. fold (present (pte_of (km_mem k) pgdir a)). unfold PGSIZE. rewrite (u32_small (a + 4096)) by lia.
    destruct (present (pte_of (km_mem k) pgdir a)) eqn:Epp.
    + destruct (unmap_page k ps pgdir a Hok Ha Ha2) as (k1 & E1 & Hun); [unfold KERNBASE; lia|done|].
      assert (Hnz : PTE_ADDR (pte_of (km_mem k) pgdir a) <> 0).
      { destruct (uo_frame _ _ _ Hok a) as (Hf & _); [by split; [unfold KERNBASE; lia|]|].
        intros E0. unfold frame in Hf. rewrite E0 in Hf. destruct Hf as (_ & _ & Hf & _).
        change (P2V 0) with KERNBASE in Hf. lia. }
      apply Z.eqb_neq in Hnz as ->. rewrite kbind_assoc. erewrite kbind_ret by exact E1. unfold mstore. krun.
      destruct (IH _ _ (a + 4096) (un_ok _ _ _ _ _ _ _ Hun)) as (k' & ps' & E' & Hun');
        [lia|dlia|unfold KERNBASE; lia|done|lia|].
      exists k', ps'. split; [done|]. by eapply unmapped_trans; [| |exact Hun|exact Hun']; unfold KERNBASE; lia.
    + krun. destruct (IH k ps (a + 4096) Hok) as (k' & ps' & E' & Hun');
        [lia|dlia|unfold KERNBASE; lia|done|lia|].
      exists k', ps'. split; [done|]. eapply (unmapped_trans k ps pgdir a (a + 4096)); [lia|unfold KERNBASE; lia| |done].
      apply unmapped_none; [done|lia|unfold KERNBASE; lia|]. intros va Hva. rewrite <- Epp. f_equal.
      unfold pte_of. assert (PDX va = PDX a /\ PTX va = PTX a) as [-> ->] by (apply same_page; lia). done.
  - rewrite Z.eqb_refl. rewrite next_table by (unfold KERNBASE; lia).
    set (b := (a / 4194304 + 1) * 4194304). assert (Hb : a + 4096 <= b /\ b mod 4096 = 0) by (unfold b; dlia).
    assert (Hno : forall va, a <= va < b -> present (pte_of (km_mem k) pgdir va) = false).
    { intros va Hva. rewrite (missing_table k pgdir a) by (first [done | unfold KERNBASE; lia]). done. }
    destruct (decide (b <= hi)).
    + destruct (IH k ps b Hok) as (k' & ps' & E' & Hun'); [lia|lia|unfold KERNBASE; lia|done|lia|].
      exists k', ps'. split; [done|]. eapply (unmapped_trans k ps pgdir a b); [lia|unfold KERNBASE; lia| |done].
      apply unmapped_none; [done|lia|unfold KERNBASE; lia|done].
    + exists k, ps. split; [by apply deallocuvm_loop_end; lia|].
      apply unmapped_none; [done|lia|unfold KERNBASE; lia|]. intros va Hva. apply Hno. lia.
Qed.

Lemma deallocuvm_spec k ps pgdir oldsz newsz :
  uvm_ok k ps pgdir -> 0 <= newsz <= oldsz -> oldsz <= KERNBASE ->
  exists k' ps', deallocuvm end_ pgdir oldsz newsz k = Ret newsz k' /\
    unmapped k ps pgdir (page_up newsz) (page_up oldsz) k' ps'.
Proof.
  intros Hok Hn Ho. unfold KERNBASE in Ho. unfold deallocuvm. destruct (Z.leb_spec oldsz newsz).
  - assert (oldsz = newsz) as -> by lia. exists k, ps. split; [done|].
    apply unmapped_none; try done; unfold page_up, KERNBASE; intros; dlia.
  - rewrite PGROUNDUP_page_up by (unfold KERNBASE; lia).
    destruct (deallocuvm_loop_spec (Z.to_nat (oldsz / PGSIZE + 1)) k ps pgdir (page_up newsz) (page_up oldsz) oldsz Hok)
      as (k' & ps' & E & Hun); [unfold page_up; dlia|unfold page_up; dlia|unfold KERNBASE; lia|reflexivity| |].
    { unfold PGSIZE, page_up. rewrite Z2Nat.id by dlia. dlia. }
    erewrite kbind_ret by exact E. by exists k', ps'.
Qed.
(** *** allocuvm *)

Lemma user_flags_present e : PTE_FLAGS e = Z.lor (Z.lor PTE_P PTE_W) PTE_U -> present e = true.
Proof.
  intros Hfl. rewrite present_odd. apply (f_equal Z.odd) in Hfl. rewrite PTE_FLAGS_eq in Hfl.
  change (Z.odd (Z.lor _ _)) with true in Hfl. rewrite <- Hfl, <- !Z.bit0_odd.
  symmetry. by apply (Z.mod_pow2_bits_low _ 12).
Qed.

(** A page in the caller's hands stays so while other pages are unmapped. *)
Lemma fresh_unmapped k ps pgdir lo hi k' ps' r :
  fresh k ps pgdir r -> unmapped k ps pgdir lo hi k' ps' -> fresh k' ps' pgdir r.
Proof.
  intros (Hr & Hrn & Hrt & Hrf) [B1 B2 B3 B4 B5]. split_and!; [done| |by rewrite B4|].
  - rewrite B3. intros [?|(va & _ & Hm & Hf)]; [done|]. by apply (Hrf va).
  - intros va [Hva Hp]. unfold KERNBASE in Hva. unfold frame. rewrite B2 in * by lia. case_decide; [done|].
    apply Hrf. by split; [unfold KERNBASE|].
Qed.

(** From [(k0, ps0)] to [(k, ps)] the pages of [lo .. a) were mapped to distinct cleared
    pages that were free, readable and writable by the user; of the pages that were free, those of [hs] are held
    by the caller and all others accounted for. *)
Record extended (k0 : kmem) (ps0 : list Z) (pgdir lo a : Z) (hs : list Z) (k : kmem) (ps : list Z) : Prop := {
  ex_ok : uvm_ok k ps pgdir;
  ex_free : ps ⊆ ps0;
  ex_same : forall va, 0 <= va < 4294967296 -> ~ (lo <= va < a) ->
    pte_of (km_mem k) pgdir va = pte_of (km_mem k0) pgdir va;
  ex_new : forall va, lo <= va < a -> frame (km_mem k) pgdir va ∈ ps0 /\
    PTE_FLAGS (pte_of (km_mem k) pgdir va) = Z.lor (Z.lor PTE_P PTE_W) PTE_U /\
    forall x, frame (km_mem k) pgdir va <= x < frame (km_mem k) pgdir va + 4096 -> km_mem k x = 0;
  ex_tab : forall w, is_table (km_mem k) pgdir w -> is_table (km_mem k0) pgdir w \/ w ∈ ps0;
  ex_all : forall w, w ∈ ps0 -> w ∈ hs ++ ps \/ is_table (km_mem k) pgdir w \/
    exists va, lo <= va < a /\ frame (km_mem k) pgdir va = w;
  ex_data : forall w x, page_ok w -> w ∉ ps0 -> ~ is_table (km_mem k0) pgdir w -> w <= x < w + 4096 ->
    km_mem k x = km_mem k0 x;
  ex_old : forall w, is_table (km_mem k0) pgdir w -> is_table (km_mem k) pgdir w
}.

Lemma extended_refl k ps pgdir a : uvm_ok k ps pgdir -> extended k ps pgdir a a [] k ps.
Proof. intros Hok. constructor; try done; [intros; lia|by left..]. Qed.

(** One more page. *)
Lemma extended_step k0 ps0 pgdir lo a k r ps :
  extended k0 ps0 pgdir lo a [] k (r :: ps) -> 0 <= lo <= a -> a mod 4096 = 0 -> a < KERNBASE ->
  present (pte_of (km_mem k0) pgdir a) = false ->
  exists k1, kalloc k = Ret r k1 /\ r <> 0 /\ exists q k' ps',
    mappages pgdir a PGSIZE (V2P r) perm (set_mem (memset (km_mem k1) r 0 PGSIZE) k1) = Ret q k' /\
    ((q = 0 /\ extended k0 ps0 pgdir lo (a + 4096) [] k' ps') \/
     (q = -1 /\ extended k0 ps0 pgdir lo a [r] k' ps' /\ fresh k' ps' pgdir r /\ r ∈ ps0)).
Proof.
  intros [A1 A2 A3 A4 A5 A7 A6 A8] Hlo Ha Hak Hnp. unfold KERNBASE in Hak.
  assert (Hr0 : r ∈ ps0) by (apply A2; left). assert (Hps0 : ps ⊆ ps0) by (intros w Hw; apply A2; by right).
  destruct (take_page k ps pgdir r A1) as (k1 & E1 & Hrz & Hu & Hf & Hpte & Htab & Hx).
  exists k1. split; [done|]. split; [done|]. set (k2 := set_mem (memset (km_mem k1) r 0 PGSIZE) k1) in *.
  destruct (map_fresh k2 ps pgdir a r perm Hu Hf) as (q & k' & ps' & E2 & Hu' & Hg & Hq);
    [done|unfold KERNBASE; lia|done|rewrite Hpte, A3 by lia; done|]. exists q, k', ps'. split; [done|].
  pose proof Hf as (Hr & Hrn & Hrt & Hrf). change (Z.lor perm PTE_P) with 7 in Hq.
  assert (Hps' : ps' ⊆ ps) by (destruct (gr_free _ _ _ _ _ _ Hg) as [l ->]; intros w Hw; apply elem_of_app; by right).
  assert (Htab' : forall w, is_table (km_mem k') pgdir w -> is_table (km_mem k0) pgdir w \/ w ∈ ps0).
  { intros w Hw. destruct (gr_new _ _ _ _ _ _ Hg w Hw) as [Hw'|Hw']; [|right; by apply Hps0].
    apply A5. by rewrite <- Htab. }
  assert (Hold_tab : forall w, is_table (km_mem k0) pgdir w -> is_table (km_mem k') pgdir w).
  { intros w Hw. apply (gr_old _ _ _ _ _ _ Hg), Htab, A8, Hw. }
  assert (Hdata : forall w x, page_ok w -> w ∉ ps -> ~ is_table (km_mem k) pgdir w -> w <> r ->
    w <= x < w + 4096 -> km_mem k' x = km_mem k x).
  { intros w x Hw Hn Ht Hwr Hxw. rewrite (gr_data _ _ _ _ _ _ Hg w x); try done; [|by rewrite Htab].
    rewrite Hx, decide_False; [done|]. apply (page_ok_disjoint end_ r w); [done|done|congruence|done]. }
  assert (Hdata0 : forall w x, page_ok w -> w ∉ ps0 -> ~ is_table (km_mem k0) pgdir w -> w <= x < w + 4096 ->
    km_mem k' x = km_mem k0 x).
  { intros w x Hw Hn Ht Hxw. rewrite (Hdata w x), (A6 w x); try done.
    - intros Hin. by apply Hn, Hps0.
    - intros Ht'. destruct (A5 w Ht'); done.
    - by intros ->. }
  (* the pages mapped before keep their contents *)
  assert (Hold : forall va, lo <= va < a -> forall x,
    frame (km_mem k) pgdir va <= x < frame (km_mem k) pgdir va + 4096 -> km_mem k' x = 0).
  { intros va Hva x Hxf. destruct (A4 va Hva) as (_ & Hfl & Hz). rewrite <- (Hz x Hxf).
    assert (Hma : mapped_at (km_mem k) pgdir va).
    { split; [unfold KERNBASE; lia|]. by apply user_flags_present. }
    destruct (uo_frame _ _ _ A1 va Hma) as (Hp & Hn & Ht). apply not_elem_of_cons in Hn as [Hn1 Hn2].
    by apply (Hdata (frame (km_mem k) pgdir va)). }
  assert (Hall : forall w, w ∈ ps0 -> w = r \/ w ∈ ps' \/ is_table (km_mem k') pgdir w \/
    exists va, lo <= va < a /\ frame (km_mem k) pgdir va = w).
  { intros w Hw. destruct (A7 w Hw) as [Hw'|[Hw'|Hw']].
    - simpl in Hw'. apply elem_of_cons in Hw' as [->|Hw']; [by left|].
      destruct (gr_all _ _ _ _ _ _ Hg w Hw'); tauto.
    - right; right; left. apply (gr_old _ _ _ _ _ _ Hg). by apply Htab.
    - tauto. }
  destruct Hq as [[-> Hq]|(-> & -> & Hf' & Hq)]; [left|right].
  - split; [done|]. assert (Hold' : forall va, lo <= va < a -> pte_of (km_mem k') pgdir va = pte_of (km_mem k) pgdir va)
      by (intros va Hva; rewrite Hq, decide_False by lia; apply Hpte).
    constructor; try done.
    + by etrans.
    + intros va Hva Hout. rewrite Hq by done. rewrite decide_False by lia. rewrite Hpte. apply A3; [done|lia].
    + intros va Hva. unfold frame. destruct (decide (va < a)).
      * rewrite Hold' by lia. destruct (A4 va) as (H1 & H2 & H3); [lia|]. split_and!; try done. apply Hold. lia.
      * rewrite Hq by lia. rewrite decide_True by lia. destruct (user_entry r Hr) as [_ ->].
        split_and!; [done| |].
        -- rewrite PTE_FLAGS_eq. change (Z.lor (Z.lor PTE_P PTE_W) PTE_U) with 7.
           destruct Hr as (_ & Hr & _). unfold V2P, KERNBASE, PGSIZE in *. dlia.
        -- intros x Hxr. rewrite (gr_data _ _ _ _ _ _ Hg r x) by done. rewrite Hx. by rewrite decide_True.
    + intros w Hw. destruct (Hall w Hw) as [->|[?|[?|(va & Hva & Hf')]]]; [|by left|by right; left|].
      * right; right. exists a. split; [lia|]. unfold frame. rewrite Hq, decide_True by lia. by apply user_entry.
      * right; right. exists va. split; [lia|]. unfold frame. by rewrite Hold'.
  - split_and!; try done. constructor; try done.
    + intros w Hw. by apply not_elem_of_nil in Hw.
    + intros va Hva Hout. rewrite Hq, Hpte. by apply A3.
    + intros va Hva. unfold frame. rewrite Hq, Hpte. destruct (A4 va Hva) as (H1 & H2 & H3).
      split_and!; try done. by apply Hold.
    + intros w Hw. destruct (Hall w Hw) as [->|[Hn|[?|(va & Hva & Hfw)]]]; [left; left| |by right; left|].
      * by apply not_elem_of_nil in Hn.
      * right; right. exists va. split; [lia|]. unfold frame. by rewrite Hq, Hpte.
Qed.
(** What a failed allocuvm leaves: the map as it was, and every page that was free is free
    again unless it has become a page table. *)
Record rolled_back (k0 : kmem) (ps0 : list Z) (pgdir lo hi : Z) (hs : list Z) (k : kmem) (ps : list Z) : Prop := {
  rb_ok : uvm_ok k ps pgdir;
  rb_same : forall va, 0 <= va < 4294967296 -> ~ (lo <= va < hi) ->
    pte_of (km_mem k) pgdir va = pte_of (km_mem k0) pgdir va;
  rb_none : forall va, lo <= va < hi -> present (pte_of (km_mem k) pgdir va) = false;
  rb_free : ps ⊆ ps0;
  rb_all : forall w, w ∈ ps0 -> w ∈ hs ++ ps \/ is_table (km_mem k) pgdir w;
  rb_data : forall w x, page_ok w -> w ∉ ps0 -> ~ is_table (km_mem k0) pgdir w -> w <= x < w + 4096 ->
    km_mem k x = km_mem k0 x;
  rb_tab : forall w, is_table (km_mem k) pgdir w -> is_table (km_mem k0) pgdir w \/ w ∈ ps0;
  rb_old : forall w, is_table (km_mem k0) pgdir w -> is_table (km_mem k) pgdir w
}.

Lemma roll_back k0 ps0 pgdir lo a hi hs k ps k' ps' :
  0 <= lo <= a -> a <= hi <= KERNBASE ->
  (forall va, lo <= va < hi -> present (pte_of (km_mem k0) pgdir va) = false) ->
  extended k0 ps0 pgdir lo a hs k ps -> unmapped k ps pgdir lo hi k' ps' ->
  rolled_back k0 ps0 pgdir lo hi hs k' ps'.
Proof.
  intros Hlo Hhi Hnp [A1 A2 A3 A4 A5 A7 A6 A8] [B1 B2 B3 B4 B5]. unfold KERNBASE in Hhi.
  assert (Hfr : forall va, lo <= va < hi -> mapped_at (km_mem k) pgdir va -> lo <= va < a).
  { intros va Hva [_ Hp]. destruct (decide (va < a)); [lia|]. rewrite A3, Hnp in Hp by lia. done. }
  assert (Hps' : ps' ⊆ ps0).
  { intros w Hw. apply B3 in Hw as [Hw|(va & Hva & Hm & <-)]; [by apply A2|]. apply A4. by apply Hfr. }
  constructor; try done.
  - intros va Hva Hout. rewrite B2 by done. rewrite decide_False by tauto. apply A3; [done|lia].
  - intros va Hva. rewrite B2 by lia. case_decide as E; [done|]. destruct (present _) eqn:Ep; [|done]. tauto.
  - intros w Hw. destruct (A7 w Hw) as [Hw'|[Hw'|(va & Hva & Hf)]].
    + left. rewrite elem_of_app in *. destruct Hw' as [?|?]; [by left|]. right. apply B3. by left.
    + right. by apply B4.
    + left. apply elem_of_app. right. apply B3. right. exists va. split_and!; [lia|lia|split; [unfold KERNBASE; lia|]|done].
      destruct (A4 va Hva) as (_ & Hfl & _). by apply user_flags_present.
  - intros w x Hw Hn Ht Hx. rewrite (B5 w x), (A6 w x); try done.
    + intros ?. by apply Hn, Hps'.
    + intros Ht'. destruct (A5 w Ht'); done.
  - intros w Hw. by apply A5, B4.
  - intros w Hw. by apply B4, A8.
Qed.

Lemma allocuvm_loop_spec n k0 ps0 pgdir lo a oldsz newsz k ps :
  extended k0 ps0 pgdir lo a [] k ps ->
  0 <= oldsz <= newsz -> newsz < KERNBASE -> lo = page_up oldsz -> lo <= a -> a <= page_up newsz \/ a = lo ->
  a mod 4096 = 0 -> newsz <= a + Z.of_nat n * 4096 ->
  (forall va, lo <= va < page_up newsz -> present (pte_of (km_mem k0) pgdir va) = false) ->
  exists r k' ps', allocuvm_loop end_ n pgdir a oldsz newsz k = Ret r k' /\
    ((r = newsz /\ extended k0 ps0 pgdir lo (page_up newsz) [] k' ps') \/
     (r = 0 /\ rolled_back k0 ps0 pgdir lo (page_up newsz) [] k' ps')).
Proof.
  intros Hex Hsz Hnk Hlo Ha1 Ha2 Ha3 Hn Hnp. unfold KERNBASE in Hnk.
  assert (Hup : newsz <= page_up newsz < newsz + 4096 /\ page_up newsz mod 4096 = 0
    /\ page_up newsz <= 2147483648) by (unfold page_up; dlia).
  assert (Hlo' : oldsz <= lo < oldsz + 4096 /\ lo mod 4096 = 0) by (subst lo; unfold page_up; dlia).
  revert a k ps Hex Ha1 Ha2 Ha3 Hn. induction n as [|n IH]; intros a k ps Hex Ha1 Ha2 Ha3 Hn;
    cbn [allocuvm_loop]; destruct (Z.ltb_spec a newsz) as [Hlt|Hge]; try lia;
    try (assert (a = page_up newsz) as -> by dlia; exists newsz, k, ps; split; [done|]; by left).
  assert (Hap : a + 4096 <= page_up newsz) by dlia.
  pose proof Hex as [Hok _ _ _ _ _ _ _]. pose proof (vo_wf _ _ _ _ (uo_vm _ _ _ Hok)) as Hwf.
  destruct ps as [|r ps].
  - destruct (kalloc_wf end_ k [] Hwf) as (r & k1 & E & _ & _ & -> & ->). erewrite kbind_ret by exact E.
    cbv beta. rewrite Z.eqb_refl.
    destruct (deallocuvm_spec k [] pgdir newsz oldsz Hok) as (k' & ps' & E' & Hun); [lia|unfold KERNBASE; lia|].
    erewrite kbind_ret by exact E'. exists 0, k', ps'. split; [done|]. right. split; [done|].
    rewrite <- Hlo in Hun. eapply (roll_back k0 ps0 pgdir lo a); try done; unfold KERNBASE; lia.
  - destruct (extended_step k0 ps0 pgdir lo a k r ps) as (k1 & E & Hr & q & k' & ps' & E' & Hq);
      try done; [lia|unfold KERNBASE; lia|apply Hnp; lia|].
    erewrite kbind_ret by exact E. apply Z.eqb_neq in Hr as ->. unfold mmemset. krun.
    erewrite kbind_ret by exact E'. destruct Hq as [[-> Hex']|(-> & Hex' & Hf & Hr0)].
    + change (0 <? 0) with false. cbv iota. unfold PGSIZE. rewrite u32_small by lia.
      apply (IH _ k' ps' Hex'); [lia|left; lia|dlia|lia].
    + change (-1 <? 0) with true. cbv iota.
      destruct (deallocuvm_spec k' ps' pgdir newsz oldsz) as (k2 & ps2 & E2 & Hun);
        [apply Hex'|lia|unfold KERNBASE; lia|]. erewrite kbind_ret by exact E2. rewrite <- Hlo in Hun.
      destruct (give_fresh k2 ps2 pgdir r) as (k3 & E3 & Hok3 & Hpte3 & Htab3 & Hx3);
        [apply Hun|by eapply fresh_unmapped|].
      erewrite kbind_ret by exact E3. exists 0, k3, (r :: ps2). split; [done|]. right. split; [done|].
      assert (Hrb : rolled_back k0 ps0 pgdir lo (page_up newsz) [r] k2 ps2)
        by (eapply (roll_back k0 ps0 pgdir lo a); try done; unfold KERNBASE; lia).
      destruct Hrb as [C1 C2 C3 C4 C5 C6 C7 C8]. constructor; try done.
      * intros va Hva Ho. rewrite Hpte3. by apply C2.
      * intros va Hva. rewrite Hpte3. by apply C3.
      * intros w Hw. apply elem_of_cons in Hw as [->|Hw]; [done|by apply C4].
      * intros w Hw. rewrite Htab3. by apply C5.
      * intros w x Hw Hnn Ht Hx. rewrite Hx3; [by apply (C6 w)|].
        destruct Hf as (Hrp & _). apply (page_ok_disjoint end_ r w); [done|done| |done]. by intros ->.
      * intros w Hw. by apply C7, Htab3.
      * intros w Hw. by apply Htab3, C8.
Qed.
End user.

(** ** Properties *)

Section claims.
Variable end_ : Z.
Hypothesis He : KERNBASE < end_.

Lemma allocuvm_spec k ps pgdir oldsz newsz :
  uvm_ok end_ k ps pgdir -> 0 <= oldsz <= newsz -> newsz < KERNBASE ->
  (forall va, page_up oldsz <= va < page_up newsz -> present (pte_of (km_mem k) pgdir va) = false) ->
  exists r k' ps', allocuvm end_ pgdir oldsz newsz k = Ret r k' /\
    ((r = newsz /\ extended end_ k ps pgdir (page_up oldsz) (page_up newsz) [] k' ps') \/
     (r = 0 /\ rolled_back end_ k ps pgdir (page_up oldsz) (page_up newsz) [] k' ps')).
Proof.
  intros Hok Hsz Hn Hnp. unfold KERNBASE in Hn. unfold allocuvm.
  rewrite (proj2 (Z.leb_gt _ _)) by (unfold KERNBASE; lia). rewrite (proj2 (Z.ltb_ge _ _)) by lia.
  rewrite PGROUNDUP_page_up by (unfold KERNBASE; lia).
  apply (allocuvm_loop_spec end_ He _ k ps pgdir (page_up oldsz) _ _ _ k ps);
    [by apply extended_refl|done|unfold KERNBASE; lia|done|lia|by right|unfold page_up; dlia| |done].
  unfold PGSIZE, page_up. rewrite Z2Nat.id by dlia. dlia.
Qed.
End claims.

(** Allocuvm is all or nothing.  When it grows a process it returns the new size and has
    mapped every page between the sizes, user readable and writable, to a page of its own
    that was free and is now zero; when memory runs out half way it returns 0, the address
    space is mapped as before, and every page that was free is free again except those that
    became page tables.  Other pages' contents and mappings are untouched either way. *)
Theorem allocuvm_all_or_nothing (end_ : Z) (k : kmem) (ps : list Z) (pgdir oldsz newsz : Z) :
  KERNBASE < end_ -> uvm_ok end_ k ps pgdir -> 0 <= oldsz <= newsz -> newsz < KERNBASE ->
  (forall va, page_up oldsz <= va < page_up newsz -> present (pte_of (km_mem k) pgdir va) = false) ->
  exists r k' ps', allocuvm end_ pgdir oldsz newsz k = Ret r k' /\
    ((r = newsz /\ extended end_ k ps pgdir (page_up oldsz) (page_up newsz) [] k' ps') \/
     (r = 0 /\ rolled_back end_ k ps pgdir (page_up oldsz) (page_up newsz) [] k' ps')).
Proof. intros He Hok Hsz Hn Hnp. by apply allocuvm_spec. Qed.

(** Growing a process and shrinking it back leaks nothing: after a successful allocuvm,
    deallocuvm to the old size returns it, and leaves the address space mapped as it was at
    the start, with every page that was free at the start free again unless it has become
    a page table. *)
Theorem grow_shrink_no_leak (end_ : Z) (k k1 : kmem) (ps : list Z) (pgdir oldsz newsz : Z) :
  KERNBASE < end_ -> uvm_ok end_ k ps pgdir -> 0 <= oldsz <= newsz -> 0 < newsz < KERNBASE ->
  (forall va, page_up oldsz <= va < page_up newsz -> present (pte_of (km_mem k) pgdir va) = false) ->
  allocuvm end_ pgdir oldsz newsz k = Ret newsz k1 ->
  exists k' ps', deallocuvm end_ pgdir newsz oldsz k1 = Ret oldsz k' /\
    rolled_back end_ k ps pgdir (page_up oldsz) (page_up newsz) [] k' ps'.
Proof.
  intros He Hok Hsz Hn Hnp Ha. unfold KERNBASE in Hn.
  destruct (allocuvm_spec end_ He k ps pgdir oldsz newsz) as (r & k1' & ps1 & E & Hr);
    try done; [unfold KERNBASE; lia|].
  rewrite Ha in E. injection E as <- <-. destruct Hr as [[_ Hex]|[? _]]; [|lia].
  destruct (deallocuvm_spec end_ He k1 ps1 pgdir newsz oldsz) as (k' & ps' & E & Hun);
    [apply Hex|lia|unfold KERNBASE; lia|]. exists k', ps'. split; [done|].
  assert (page_up oldsz <= page_up newsz <= KERNBASE /\ 0 <= page_up oldsz) by (unfold page_up, KERNBASE; dlia).
  by eapply (roll_back end_ k ps pgdir (page_up oldsz) (page_up newsz)); [lia|lia|done|done|].
Qed.

(** Three free pages: one becomes the page table, two hold the data. *)
Definition ex_pageC : Z := 0x80202000.
Definition ex_pageD : Z := 0x80203000.
Definition ex_uvm : kmem :=
  Kmem (store32 (store32 (fun _ => 0) ex_pageB ex_pageC) ex_pageC ex_pageD) false true ex_pageB.

Lemma ex_uvm_dir i : 0 <= i < 1024 -> pde_at (km_mem ex_uvm) ex_pageA i = 0.
Proof.
  intros Hi. unfold pde_at, ex_uvm, ex_pageA, ex_pageB, ex_pageC. cbn [km_mem].
  rewrite !load32_store32_ne by lia. done.
Qed.

Lemma ex_uvm_pte va : pte_of (km_mem ex_uvm) ex_pageA va = 0.
Proof. unfold pte_of. by rewrite ex_uvm_dir by apply PDX_range. Qed.

Lemma ex_uvm_ok : uvm_ok ex_end ex_uvm [ex_pageB; ex_pageC; ex_pageD] ex_pageA.
Proof.
  constructor; [constructor| |].
  - constructor; [done| |apply (bool_decide_unpack _); vm_compute; done].
    simpl. repeat split; vm_compute; congruence.
  - apply store32_ok, store32_ok. intros a. lia.
  - split; [repeat split; vm_compute; congruence|]. apply (bool_decide_unpack _). vm_compute. done.
  - intros i Hi. by rewrite ex_uvm_dir.
  - intros i j Hi _. by rewrite ex_uvm_dir.
  - intros va [_ Hp]. by rewrite ex_uvm_pte in Hp.
  - intros va va' [_ Hp]. by rewrite ex_uvm_pte in Hp.
Qed.

Lemma allocuvm_all_or_nothing_witness :
  exists r k' ps', allocuvm ex_end ex_pageA 0 5000 ex_uvm = Ret r k' /\
    r = 5000 /\ extended ex_end ex_uvm [ex_pageB; ex_pageC; ex_pageD] ex_pageA (page_up 0) (page_up 5000) [] k' ps'.
Proof.
  destruct (allocuvm_all_or_nothing ex_end ex_uvm _ ex_pageA 0 5000 ltac:(reflexivity) ex_uvm_ok)
    as (r & k' & ps' & E & Hr); [lia|reflexivity|intros va _; by rewrite ex_uvm_pte|].
  assert (Hr0 : match allocuvm ex_end ex_pageA 0 5000 ex_uvm with
                | Ret r _ => r =? 5000 | _ => false end = true) by (vm_compute; reflexivity).
  rewrite E in Hr0. apply Z.eqb_eq in Hr0. exists r, k', ps'. split; [exact E|]. split; [exact Hr0|].
  destruct Hr as [[_ Hr]|[Hr _]]; [exact Hr|lia].
Defined.

Lemma grow_shrink_no_leak_witness :
  exists k1 k' ps', allocuvm ex_end ex_pageA 0 5000 ex_uvm = Ret 5000 k1 /\
    deallocuvm ex_end ex_pageA 5000 0 k1 = Ret 0 k' /\
    rolled_back ex_end ex_uvm [ex_pageB; ex_pageC; ex_pageD] ex_pageA (page_up 0) (page_up 5000) [] k' ps'.
Proof.
  destruct (allocuvm ex_end ex_pageA 0 5000 ex_uvm) as [r k1| | |] eqn:E.
  2-4: exfalso; apply (f_equal (fun o => match o with Ret _ _ => true | _ => false end)) in E; vm_compute in E; discriminate.
  assert (Hr : r = 5000).
  { apply (f_equal (fun o => match o with Ret r _ => r | _ => 0 end)) in E. vm_compute in E. congruence. }
  rewrite Hr in E.
  destruct (grow_shrink_no_leak ex_end ex_uvm k1 _ ex_pageA 0 5000 ltac:(reflexivity) ex_uvm_ok)
    as (k' & ps' & E' & Hrb); [lia|split; reflexivity|intros va _; by rewrite ex_uvm_pte|exact E|].
  exists k1, k', ps'. rewrite Hr. split; [reflexivity|]. split; [exact E'|exact Hrb].
Defined.
