(* ===== verification/VmSpace.v ===== *)
(** * Whole address spaces (vm.c)

    Making an address space (setupkvm), taking it apart again (freevm) and copying one
    (copyuvm).  An address space owns the pages of its page tables and the frames of its
    user pages; each of these routines moves pages between the free list and one address
    space and leaves all others alone. *)

From S2P Require Import Prelude Mem Layout Kalloc Vm VmMap VmUser.

(** The pages an address space is made of. *)
Definition owned (m : mem) (pgdir w : Z) : Prop :=
  is_table m pgdir w \/ exists va, mapped_at m pgdir va /\ frame m pgdir va = w.

(** ** Pages and entries *)

Lemma page_up_bounds sz : sz <= page_up sz < sz + 4096 /\ page_up sz mod 4096 = 0.
Proof. unfold page_up. dlia. Qed.

Lemma page_up_mono a b : a <= b -> page_up a <= page_up b.
Proof. unfold page_up. dlia. Qed.

Lemma user_bit e : Z.land e PTE_U = Z.land (PTE_FLAGS e) PTE_U.
Proof. unfold PTE_FLAGS. by rewrite <- Z.land_assoc. Qed.

Lemma present_bit e : present e = truth (Z.land (PTE_FLAGS e) PTE_P).
Proof. unfold present, PTE_FLAGS. by rewrite <- Z.land_assoc. Qed.

Lemma pte_same_page m d v v0 : 0 <= v < 4294967296 -> 0 <= v0 < 4294967296 -> v0 mod 4096 = 0 -> v0 <= v < v0 + 4096 -> pte_of m d v = pte_of m d v0.
Proof. intros H1 H2 H3 H4. unfold pte_of. assert (PDX v = PDX v0 /\ PTX v = PTX v0) as [-> ->] by (by apply same_page). done. Qed.

Lemma clear_user_bit e : PTE_ADDR (Z.land e (Z.lnot PTE_U)) = PTE_ADDR e /\ present (Z.land e (Z.lnot PTE_U)) = present e /\
  Z.land (Z.land e (Z.lnot PTE_U)) PTE_U = 0.
Proof.
  unfold PTE_ADDR, present. rewrite <- !Z.land_assoc. split_and!; [done|done|]. change (Z.land (Z.lnot PTE_U) PTE_U) with 0. apply Z.land_0_r.
Qed.

Lemma land_lnot_le a b : 0 <= a -> Z.land a (Z.lnot b) <= a.
Proof.
  intros Ha. pose proof (Z.add_lor_land (Z.ldiff a b) (Z.land a b)) as H. rewrite Z.lor_ldiff_and in H.
  assert (Z.land (Z.ldiff a b) (Z.land a b) = 0) as E by (apply Z.bits_inj'; intros n Hn; rewrite Z.land_spec, Z.ldiff_spec, Z.land_spec, Z.bits_0;
    by destruct (Z.testbit a n), (Z.testbit b n)).
  rewrite E in H. rewrite Z.ldiff_land in H. pose proof (proj2 (Z.land_nonneg a b)). lia.
Qed.

Section space.
Variable end_ : Z.
Hypothesis end_high : KERNBASE < end_.
Notation vm_ok := (vm_ok end_).
Notation uvm_ok := (uvm_ok end_).
Notation page_ok := (page_ok end_).
Notation kmem_wf := (kmem_wf end_).

Lemma owned_page k ps pgdir w : uvm_ok k ps pgdir -> owned (km_mem k) pgdir w -> page_ok w /\ w ∉ ps.
Proof.
  intros Hok [Ht|(va & Hm & <-)]; [by eapply is_table_ok; [apply Hok|]|].
  destruct (uo_frame _ _ _ _ Hok va Hm) as (? & ? & _). done.
Qed.

(** The free list and the memory, for the pages [ps]. *)
Record free_ok (k : kmem) (ps : list Z) : Prop := {
  fr_wf : kmem_wf k ps;
  fr_bytes : mem_ok (km_mem k) }.

Lemma uvm_free k ps pgdir : uvm_ok k ps pgdir -> free_ok k ps.
Proof. intros Hok. destruct (uo_vm _ _ _ _ Hok) as [? ? _ _ _]. done. Qed.

(** An address space survives whatever leaves its own pages alone. *)
Lemma owned_frame k ps pgdir k' ps' : uvm_ok k ps pgdir -> free_ok k' ps' ->
  (forall w, owned (km_mem k) pgdir w -> w ∉ ps' /\ forall x, w <= x < w + 4096 -> km_mem k' x = km_mem k x) ->
  uvm_ok k' ps' pgdir /\ (forall va, pte_of (km_mem k') pgdir va = pte_of (km_mem k) pgdir va) /\
  (forall w, owned (km_mem k') pgdir w <-> owned (km_mem k) pgdir w).
Proof.
  intros [Hvm Hfr Hinj] [Hwf Hby] Hsame.
  assert (Hs : forall v x, is_table (km_mem k) pgdir v -> v <= x < v + 4096 -> km_mem k' x = km_mem k x).
  { intros v x Hv. apply Hsame. by left. }
  pose proof (outside_pte k k' pgdir Hs) as Hpte. pose proof (outside_tables k k' pgdir Hs) as Htab.
  split; [|split; [done|]].
  - constructor.
    + eapply outside_vm_ok; [exact Hvm|done|done|done|]. intros v Hv. apply Hsame. by left.
    + intros va. unfold mapped_at, frame. rewrite Hpte, Htab. intros Hva. destruct (Hfr va Hva) as (? & _ & ?).
      split_and!; try done. apply Hsame. right. by exists va.
    + intros va va'. unfold mapped_at, frame. rewrite !Hpte. apply Hinj.
  - intros w. unfold owned. rewrite Htab. unfold mapped_at, frame. by setoid_rewrite Hpte.
Qed.

(** *** Giving back *)

Lemma kfree_free_ok k ps v : free_ok k ps -> page_ok v -> v ∉ ps ->
  exists k', kfree end_ v k = Ret tt k' /\ free_ok k' (v :: ps) /\ (forall x, ~ (v <= x < v + 4096) -> km_mem k' x = km_mem k x).
Proof.
  intros [Hwf Hby] Hv Hn. destruct (kfree_wf end_ k ps v Hwf Hv Hn) as (k' & E & Hwf' & _ & Hx).
  exists k'. split; [done|]. split; [|done]. split; [done|].
  rewrite kfree_eq in E; [|apply Hwf|done]. injection E as <-. unfold freed_page.
  apply store32_ok. intros x. rewrite memset_filled by done. unfold filled. case_match; [done|apply Hby].
Qed.

(** The tables of the directory entries from [i] on. *)
Definition tables_from (m : mem) (pgdir i w : Z) : Prop :=
  exists j, i <= j < 1024 /\ present (pde_at m pgdir j) = true /\ table (pde_at m pgdir j) = w.

Notation free_tables pgdir := (fun i =>
    let! e := mload (pgdir + 4 * i) in
    (if truth (Z.land e PTE_P) then kfree end_ (P2V (PTE_ADDR e)) else kret tt) ;;
    kret (@None unit)).

Lemma free_tables_spec n : forall i k ps pgdir, 0 <= i -> i + Z.of_nat n = 1024 -> free_ok k ps -> page_ok pgdir -> pgdir ∉ ps ->
  (forall j, i <= j < 1024 -> present (pde_at (km_mem k) pgdir j) = true ->
     page_ok (table (pde_at (km_mem k) pgdir j)) /\ table (pde_at (km_mem k) pgdir j) ∉ ps /\ table (pde_at (km_mem k) pgdir j) <> pgdir) ->
  (forall j j', i <= j < 1024 -> i <= j' < 1024 -> present (pde_at (km_mem k) pgdir j) = true -> present (pde_at (km_mem k) pgdir j') = true ->
     table (pde_at (km_mem k) pgdir j) = table (pde_at (km_mem k) pgdir j') -> j = j') ->
  exists k' ps', kfor n i (free_tables pgdir) k = Ret None k' /\ free_ok k' ps' /\ pgdir ∉ ps' /\
    (forall w, w ∈ ps' <-> w ∈ ps \/ tables_from (km_mem k) pgdir i w) /\
    (forall x, (forall w, tables_from (km_mem k) pgdir i w -> ~ (w <= x < w + 4096)) -> km_mem k' x = km_mem k x).
Proof.
  induction n as [|n IH]; intros i k ps pgdir Hi Hn Hok Hd Hdn Htab Hinj.
  - exists k, ps. split; [done|]. split_and!; try done. intros w. split; [by left|]. intros [?|(j & Hj & _)]; [done|lia].
  - cbn [kfor]. unfold mload. krun. fold (pde_at (km_mem k) pgdir i). fold (present (pde_at (km_mem k) pgdir i)).
    destruct (present (pde_at (km_mem k) pgdir i)) eqn:Ep.
    + destruct (Htab i) as (Ht & Htn & Htd); [lia|done|]. fold (table (pde_at (km_mem k) pgdir i)).
      destruct (kfree_free_ok k ps _ Hok Ht Htn) as (k1 & E & Hok1 & Hx). rewrite (kbind_ret _ _ _ _ _ E). krun.
      assert (Hpde : forall j, 0 <= j < 1024 -> pde_at (km_mem k1) pgdir j = pde_at (km_mem k) pgdir j).
      { intros j Hj. apply page_words; [|done]. intros x Hxd. apply Hx. by apply (page_ok_disjoint end_ _ pgdir). }
      assert (Hfrom : forall w, tables_from (km_mem k1) pgdir (i + 1) w <-> tables_from (km_mem k) pgdir (i + 1) w).
      { intros w. split; intros (j & Hj & Hp & Hw); exists j; rewrite Hpde in * by lia; done. }
      destruct (IH (i + 1) k1 (table (pde_at (km_mem k) pgdir i) :: ps) pgdir) as (k' & ps' & E' & Hok' & Hdn' & Hps & Hm);
        [lia|lia|done|done|apply not_elem_of_cons; by split; [congruence|]| | |].
      { intros j Hj. rewrite Hpde by lia. intros Hp. destruct (Htab j) as (? & ? & ?); [lia|done|]. split_and!; try done.
        apply not_elem_of_cons. split; [|done]. intros Et. assert (j = i) by (apply Hinj; (lia || done)). lia. }
      { intros j j' Hj Hj'. rewrite !Hpde by lia. intros. apply Hinj; (lia || done). }
      assert (Hsplit : forall w, tables_from (km_mem k) pgdir i w <-> w = table (pde_at (km_mem k) pgdir i) \/ tables_from (km_mem k) pgdir (i + 1) w).
      { intros w. split; [intros (j & Hj & Hp & Hw)|intros [->|(j & Hj & Hp & Hw)]].
        - destruct (decide (j = i)) as [->|]; [by left|]. right. exists j. split; [lia|done].
        - exists i. split; [lia|done].
        - exists j. split; [lia|done]. }
      exists k', ps'. split; [done|]. split; [done|]. split; [done|]. split.
      * intros w. rewrite Hps, Hfrom, Hsplit, elem_of_cons. tauto.
      * intros x Hxn. rewrite Hm; [apply Hx, Hxn, Hsplit; by left|]. intros w Hw. apply Hxn, Hsplit. right. by apply Hfrom.
    + krun. destruct (IH (i + 1) k ps pgdir) as (k' & ps' & E' & Hok' & Hdn' & Hps & Hm); [lia|lia|done|done|done| | |].
      { intros j Hj. apply Htab. lia. } { intros j j' Hj Hj'. apply Hinj; lia. }
      assert (Hsplit : forall w, tables_from (km_mem k) pgdir i w <-> tables_from (km_mem k) pgdir (i + 1) w).
      { intros w. split; intros (j & Hj & Hp & Hw); exists j; (split; [|done]); [|lia]. destruct (decide (j = i)); [congruence|lia]. }
      exists k', ps'. split; [done|]. split_and!; try done.
      * intros w. by rewrite Hps, Hsplit.
      * intros x Hxn. apply Hm. intros w Hw. apply Hxn, Hsplit. done.
Qed.

(** freevm gives back exactly the pages of the address space. *)
Lemma freevm_spec k ps pgdir : uvm_ok k ps pgdir ->
  exists k' ps', freevm end_ pgdir k = Ret tt k' /\ free_ok k' ps' /\
    (forall w, w ∈ ps' <-> w ∈ ps \/ owned (km_mem k) pgdir w) /\
    (forall w x, page_ok w -> w ∉ ps' -> w <= x < w + 4096 -> km_mem k' x = km_mem k x).
Proof.
  intros Hok. destruct (is_table_ok end_ k ps pgdir pgdir (uo_vm _ _ _ _ Hok)) as [Hd Hdn]; [by left|].
  unfold freevm. pose proof (page_ok_range end_ pgdir Hd) as Hr. unfold KERNBASE in Hr. rewrite (proj2 (Z.eqb_neq pgdir 0)) by lia.
  destruct (deallocuvm_spec end_ end_high k ps pgdir KERNBASE 0 Hok) as (k1 & ps1 & E1 & [U1 U2 U3 U4 U5]); [unfold KERNBASE; lia|done|].
  rewrite (kbind_ret _ _ _ _ _ E1). change (page_up 0) with 0 in *. change (page_up KERNBASE) with KERNBASE in *.
  pose proof (uo_vm _ _ _ _ U1) as Hvm1. pose proof Hvm1 as [Hwf1 Hby1 [_ Hdn1] Htab1 Hinj1].
  destruct (free_tables_spec 1024 0 k1 ps1 pgdir) as (k2 & ps2 & E2 & Hok2 & Hdn2 & Hps2 & Hm2); try done; try lia.
  rewrite (kbind_ret _ _ _ _ _ E2). destruct (kfree_free_ok k2 ps2 pgdir Hok2 Hd Hdn2) as (k3 & E3 & Hok3 & Hm3).
  exists k3, (pgdir :: ps2). split; [done|]. split; [done|].
  assert (Htabs : forall w, is_table (km_mem k1) pgdir w <-> w = pgdir \/ tables_from (km_mem k1) pgdir 0 w) by done.
  assert (Hall : forall w, w ∈ pgdir :: ps2 <-> w ∈ ps \/ owned (km_mem k) pgdir w).
  { intros w. rewrite elem_of_cons, Hps2, U3. unfold owned. rewrite <- (U4 w), Htabs. split.
    - intros [?|[[?|(va & _ & ?)]|?]]; try tauto. right. right. by exists va.
    - intros [?|[[?|?]|(va & Hva & Hf)]]; try tauto. right. left. right. exists va. split; [apply Hva|done]. }
  split; [done|]. intros w x Hw Hn Hx. apply not_elem_of_cons in Hn as [Hwd Hn2].
  rewrite Hm3 by (by apply (page_ok_disjoint end_ pgdir w); congruence).
  rewrite Hm2.
  - apply (U5 w); try done.
    + intros Hin. apply Hn2, Hps2. by left.
    + rewrite <- U4, Htabs. intros [?|?]; [done|]. apply Hn2, Hps2. by right.
  - intros v Hv. assert (Hv' : is_table (km_mem k1) pgdir v) by (apply Htabs; by right).
    destruct (is_table_ok end_ k1 ps1 pgdir v Hvm1 Hv') as [Hvp _].
    apply (page_ok_disjoint end_ v w); try done. intros ->. apply Hn2, Hps2. by right.
Qed.

(** ** Address spaces under construction *)

(** From [(k0, ps0)] to [(k, ps)] pages of the free list became the address space [d], and
    nothing else changed. *)
Record space_new (k0 : kmem) (ps0 : list Z) (d : Z) (k : kmem) (ps : list Z) : Prop := {
  sn_ok : uvm_ok k ps d;
  sn_free : ps ⊆ ps0;
  sn_own : forall w, owned (km_mem k) d w -> w ∈ ps0;
  sn_all : forall w, w ∈ ps0 -> w ∈ ps \/ owned (km_mem k) d w;
  sn_data : forall w x, page_ok w -> w ∉ ps0 -> w <= x < w + 4096 -> km_mem k x = km_mem k0 x }.

(** The free list has the same pages again, and no other page has changed. *)
Definition restored (k0 : kmem) (ps0 : list Z) (k : kmem) (ps : list Z) : Prop :=
  free_ok k ps /\ (forall w, w ∈ ps <-> w ∈ ps0) /\
  forall w x, page_ok w -> w ∉ ps0 -> w <= x < w + 4096 -> km_mem k x = km_mem k0 x.

Lemma space_free k0 ps0 d k ps : space_new k0 ps0 d k ps ->
  exists k' ps', freevm end_ d k = Ret tt k' /\ restored k0 ps0 k' ps'.
Proof.
  intros [S1 S2 S3 S4 S5]. destruct (freevm_spec k ps d S1) as (k' & ps' & E & Hok & Hps & Hm). exists k', ps'.
  split; [done|]. assert (Hsame : forall w, w ∈ ps' <-> w ∈ ps0).
  { intros w. rewrite Hps. split; [intros [?|?]; auto|apply S4]. }
  split_and!; try done. intros w x Hw Hn Hx. rewrite (Hm w x), (S5 w x); try done. by rewrite Hsame.
Qed.

(** The page tables grow; the user part of the map stays. *)
Lemma space_grow k0 ps0 d k ps k' ps' : space_new k0 ps0 d k ps -> vm_ok k' ps' d -> grows end_ k ps d k' ps' ->
  (forall va, 0 <= va < KERNBASE -> pte_of (km_mem k') d va = pte_of (km_mem k) d va) ->
  space_new k0 ps0 d k' ps'.
Proof.
  intros [[Hvm Hfr Hinj] S2 S3 S4 S5] Hvm' [G1 G2 [l Hl] G4 G5] Hpte.
  assert (Hsub : forall w, w ∈ ps' -> w ∈ ps) by (intros w Hw; rewrite Hl; apply elem_of_app; by right).
  assert (Hma : forall va, mapped_at (km_mem k') d va <-> mapped_at (km_mem k) d va).
  { intros va. unfold mapped_at. split; intros [Hva Hp]; (split; [done|]); rewrite Hpte in * by done; done. }
  assert (Hf : forall va, mapped_at (km_mem k) d va -> frame (km_mem k') d va = frame (km_mem k) d va).
  { intros va [Hva _]. unfold frame. by rewrite Hpte. }
  constructor.
  - constructor; [done| |].
    + intros va Hva%Hma. rewrite Hf by done. destruct (Hfr va Hva) as (H1 & H2 & H3). split_and!; [done|by intros ?%Hsub|].
      intros Ht. destruct (G1 _ Ht); done.
    + intros va va' Hva%Hma Hva'%Hma. rewrite !Hf by done. by apply Hinj.
  - intros w Hw. by apply S2, Hsub.
  - intros w [Ht|(va & Hva & <-)].
    + destruct (G1 _ Ht); [apply S3; by left|by apply S2].
    + apply Hma in Hva. rewrite Hf by done. apply S3. right. by exists va.
  - intros w Hw. destruct (S4 w Hw) as [Hp|[Ht|(va & Hva & <-)]].
    + destruct (G4 w Hp); [by left|right; by left].
    + right. left. by apply G2.
    + right. right. exists va. rewrite Hma, Hf by done. done.
  - intros w x Hw Hn Hx. rewrite <- (S5 w x) by done. apply (G5 w); try done; [by intros ?%S2|].
    intros Ht. apply Hn, S3. by left.
Qed.

(** *** setupkvm *)

(** The linker symbol [data]: the first address after the kernel's text, on a page boundary. *)
Variable data : Z.
Hypothesis data_aligned : data mod 4096 = 0.
Hypothesis data_range : KERNLINK < data < KERNBASE + PHYSTOP.

(** The entry of a kernel address: the physical page with its permissions. *)
Definition kpte (va : Z) : Z :=
  let page := va - va mod 4096 in
  if va <? KERNBASE then 0
  else if va <? KERNLINK then page - KERNBASE + Z.lor PTE_W PTE_P
  else if va <? data then page - KERNBASE + PTE_P
  else if va <? KERNBASE + PHYSTOP then page - KERNBASE + Z.lor PTE_W PTE_P
  else if va <? DEVSPACE then 0
  else page + Z.lor PTE_W PTE_P.

(** The map below [hi] is the kernel's and empty above. *)
Definition kernel_upto (hi : Z) (m : mem) (d : Z) : Prop :=
  forall va, 0 <= va < 4294967296 -> pte_of m d va = if va <? hi then kpte va else 0.
Definition kernel_mapped (m : mem) (d : Z) : Prop :=
  forall va, KERNBASE <= va < 4294967296 -> pte_of m d va = kpte va.

(** Evaluate [kpte] by comparing with the boundaries of the regions. *)
Ltac kpte_solve :=
  intros v Hv; unfold kpte, KERNLINK, EXTMEM, KERNBASE, PHYSTOP, DEVSPACE, PTE_W, PTE_P in *;
  repeat match goal with |- context [v <? ?x] => destruct (Z.ltb_spec v x); try lia end;
  change (Z.lor 0 1) with 1; change (Z.lor 2 1) with 3; try lia.

(** One entry of kmap. *)
Lemma map_kernel_one k0 ps0 d k ps lo va size pa perm :
  space_new k0 ps0 d k ps -> kernel_upto lo (km_mem k) d -> lo <= va -> KERNBASE <= va -> 0 < size -> va + size <= 4294967296 ->
  va mod 4096 = 0 -> (va + size) mod 4096 = 0 -> 0 <= pa -> pa mod 4096 = 0 -> pa + size <= 4294967296 -> 0 <= perm < 4096 ->
  (forall v, lo <= v < va -> kpte v = 0) -> (forall v, va <= v < va + size -> kpte v = pa + (v - v mod 4096 - va) + Z.lor perm PTE_P) ->
  exists r k' ps', mappages d va size pa perm k = Ret r k' /\ space_new k0 ps0 d k' ps' /\
    ((r = 0 /\ kernel_upto (va + size) (km_mem k') d) \/ r = -1).
Proof.
  intros Hs Hk Hlo Hva Hsz Hend Ha1 Ha2 Hp1 Hp2 Hp3 Hpe Hgap Hin. unfold KERNBASE in Hva.
  assert (Hd1 : PGROUNDDOWN va = va) by (rewrite PGROUNDDOWN_eq; lia).
  assert (Hd2 : PGROUNDDOWN (va + size - 1) = va + size - 4096) by (rewrite PGROUNDDOWN_eq; dlia).
  destruct (mappages_spec end_ k ps d va size pa perm) as (r & k' & ps' & E & Hvm' & Hg & Hr);
    [apply Hs|lia|done|done|done|done|unfold PGSIZE; lia|done| |].
  { intros v Hv. rewrite Hk by (rewrite Hd1, Hd2 in Hv; lia). rewrite (proj2 (Z.ltb_ge v lo)) by lia. done. }
  rewrite Hd1, Hd2 in Hr. unfold PGSIZE in Hr. exists r, k', ps'. split; [done|]. split.
  - eapply space_grow; [done..|]. intros v Hv. unfold KERNBASE in Hv. destruct Hr as [[_ Hr]|(_ & _ & Hr)]; rewrite Hr by lia; [|done].
    by rewrite decide_False by lia.
  - destruct Hr as [[-> Hr]|(-> & _)]; [left; split; [done|]|by right]. intros v Hv. rewrite Hr by done. rewrite PGROUNDDOWN_eq.
    replace (va + size - 4096 + 4096) with (va + size) by lia. rewrite Hk by done. case_decide.
    + rewrite (proj2 (Z.ltb_lt v (va + size))) by lia. rewrite Hin by lia. lia.
    + destruct (Z.ltb_spec v (va + size)), (Z.ltb_spec v lo); try lia. symmetry. apply Hgap. lia.
Qed.

Lemma take_dir k ps r : free_ok k (r :: ps) ->
  exists k1, kalloc k = Ret r k1 /\ r <> 0 /\ let k2 := set_mem (memset (km_mem k1) r 0 PGSIZE) k1 in
    space_new k (r :: ps) r k2 ps /\ kernel_upto KERNBASE (km_mem k2) r.
Proof.
  intros [Hwf Hby]. destruct (kalloc_wf end_ k _ Hwf) as (r' & k1 & E & Hm1 & _ & -> & Hwf1). exists k1.
  assert (Hr : page_ok r) by (eapply free_page_ok; [exact Hwf|left]).
  pose proof Hwf as [_ _ Hnd]. apply NoDup_cons in Hnd as [Hrn _].
  split; [done|]. split. { apply page_ok_range in Hr. unfold KERNBASE in Hr. lia. } intros k2.
  assert (Hpde : forall i, 0 <= i < 1024 -> pde_at (km_mem k2) r i = 0) by (intros i Hi; apply zeroed_word; done).
  assert (Hpte : forall va, pte_of (km_mem k2) r va = 0) by (intros va; unfold pte_of; by rewrite Hpde by apply PDX_range).
  assert (Hout : forall x, ~ (r <= x < r + 4096) -> km_mem k2 x = km_mem k x).
  { intros x Hx. unfold k2. cbn [km_mem set_mem]. rewrite Hm1. by apply memset_out. }
  assert (Hdis : forall w x, page_ok w -> w <> r -> w <= x < w + 4096 -> km_mem k2 x = km_mem k x).
  { intros w x Hw Hwr Hx. apply Hout. by apply (page_ok_disjoint end_ r w). }
  assert (Hnm : forall va, ~ mapped_at (km_mem k2) r va) by (intros va [_ Hp]; by rewrite Hpte in Hp).
  assert (Hown : forall w, owned (km_mem k2) r w <-> w = r).
  { intros w. split; [|by left; left]. intros [[->|(i & Hi & Hp & _)]|(va & Hva & _)]; [done| |by apply Hnm in Hva].
    by rewrite Hpde in Hp. }
  split.
  - constructor.
    + constructor; [constructor| |].
      * apply kmem_wf_write; [done|]. intros w x Hw Hx. change (km_mem k2 x = km_mem k1 x). rewrite Hm1. apply (Hdis w); [|by intros ->|done].
        eapply free_page_ok; [exact Hwf|]. by right.
      * apply memset_ok; [done|]. by rewrite Hm1.
      * done.
      * intros i Hi Hp. by rewrite Hpde in Hp.
      * intros i j Hi Hj Hp. by rewrite Hpde in Hp.
      * intros va Hva. by apply Hnm in Hva.
      * intros va va' Hva. by apply Hnm in Hva.
    + intros w Hw. by right.
    + intros w ->%Hown. left.
    + intros w [->|Hw]%elem_of_cons; [right; by apply Hown|by left].
    + intros w x Hw [Hwr Hn]%not_elem_of_cons Hx. by apply (Hdis w).
  - intros va Hva. rewrite Hpte. unfold kpte. by destruct (va <? KERNBASE).
Qed.

(** setupkvm makes an address space that maps exactly the kernel, or leaves the free list as it was. *)
Lemma setupkvm_spec k ps : free_ok k ps ->
  exists r k' ps', setupkvm end_ data k = Ret r k' /\
    ((r = 0 /\ restored k ps k' ps') \/
     (r <> 0 /\ space_new k ps r k' ps' /\ kernel_upto 4294967296 (km_mem k') r)).
Proof.
  intros Hok. unfold KERNLINK, EXTMEM, PHYSTOP, KERNBASE in data_range. unfold setupkvm. destruct ps as [|r ps].
  { destruct (kalloc_wf end_ k _ (fr_wf _ _ Hok)) as (r & k1 & E & _ & _ & -> & ->). rewrite (kbind_ret _ _ _ _ _ E).
    exists 0, k, []. split; [done|]. left. split; [done|]. by split. }
  destruct (take_dir k ps r Hok) as (k1 & E & Hr & Hs & Hk). rewrite (kbind_ret _ _ _ _ _ E).
  rewrite (proj2 (Z.eqb_neq r 0)) by done. unfold mmemset. krun. change (DEVSPACE <? P2V PHYSTOP) with false. cbv iota.
  set (k2 := set_mem _ _) in *. clearbody k2. clear E k1.
  assert (Hbad : forall k3 ps3, space_new k (r :: ps) r k3 ps3 -> exists r' k' ps', (freevm end_ r ;; kret 0) k3 = Ret r' k' /\
    ((r' = 0 /\ restored k (r :: ps) k' ps') \/ (r' <> 0 /\ space_new k (r :: ps) r' k' ps' /\ kernel_upto 4294967296 (km_mem k') r'))).
  { intros k3 ps3 Hs3. destruct (space_free _ _ _ _ _ Hs3) as (k' & ps' & E & Hre). exists 0, k', ps'.
    rewrite (kbind_ret _ _ _ _ _ E). split; [done|]. by left. }
  unfold kmaps. cbn [map_kernel virt phys_start phys_end kperm].
  change (u32 (EXTMEM - 0)) with 1048576. change (V2P KERNLINK) with 1048576. change (u32 (0 - DEVSPACE)) with 33554432.
  assert (Ed : V2P data = data - 2147483648) by (unfold V2P, KERNBASE; apply u32_small; lia). rewrite Ed.
  rewrite (u32_small (data - 2147483648 - 1048576)), (u32_small (PHYSTOP - (data - 2147483648))) by (unfold PHYSTOP; lia).
  change (Z.lor PTE_W PTE_P) with 3 in *.
  destruct (map_kernel_one k (r :: ps) r k2 ps 2147483648 2147483648 1048576 0 PTE_W) as (q1 & k3 & ps3 & E1 & Hs1 & Hq1);
    try (done || lia || (intros; lia)); [kpte_solve..|].
  rewrite (kbind_ret _ _ _ _ _ E1). destruct Hq1 as [[-> Hk1]| ->]; [|by apply (Hbad _ _ Hs1)]. change (0 <? 0) with false. cbv iota.
  destruct (map_kernel_one k (r :: ps) r k3 ps3 2148532224 2148532224 (data - 2147483648 - 1048576) 1048576 0) as (q2 & k4 & ps4 & E2 & Hs2 & Hq2);
    try (done || lia || (intros; lia) || dlia); [kpte_solve..|].
  rewrite (kbind_ret _ _ _ _ _ E2). destruct Hq2 as [[-> Hk2]| ->]; [|by apply (Hbad _ _ Hs2)]. change (0 <? 0) with false. cbv iota.
  replace (2148532224 + (data - 2147483648 - 1048576)) with data in Hk2 by lia.
  destruct (map_kernel_one k (r :: ps) r k4 ps4 data data (PHYSTOP - (data - 2147483648)) (data - 2147483648) PTE_W) as (q3 & k5 & ps5 & E3 & Hs3 & Hq3);
    try (done || lia || (intros; lia) || (unfold PHYSTOP, KERNBASE; dlia)); [kpte_solve..|].
  rewrite (kbind_ret _ _ _ _ _ E3). destruct Hq3 as [[-> Hk3]| ->]; [|by apply (Hbad _ _ Hs3)]. change (0 <? 0) with false. cbv iota.
  replace (data + (PHYSTOP - (data - 2147483648))) with 2382364672 in Hk3 by (unfold PHYSTOP; lia).
  destruct (map_kernel_one k (r :: ps) r k5 ps5 2382364672 DEVSPACE 33554432 DEVSPACE PTE_W) as (q4 & k6 & ps6 & E4 & Hs4 & Hq4);
    try (done || lia || (intros; lia)); [kpte_solve..|].
  rewrite (kbind_ret _ _ _ _ _ E4). destruct Hq4 as [[-> Hk4]| ->]; [|by apply (Hbad _ _ Hs4)]. change (0 <? 0) with false. cbv iota.
  exists r, k6, ps6. split; [done|]. right. split; [done|]. split; [done|exact Hk4].
Qed.

(** *** Growing *)

Lemma extended_space k0 ps0 d k ps lo a k' ps' : space_new k0 ps0 d k ps -> extended end_ k ps d lo a [] k' ps' ->
  0 <= lo -> a <= KERNBASE -> (forall va, lo <= va < a -> present (pte_of (km_mem k) d va) = false) ->
  space_new k0 ps0 d k' ps'.
Proof.
  intros [S1 S2 S3 S4 S5] [A1 A2 A3 A4 A5 A7 A6 A8] Hlo Ha Hnp. unfold KERNBASE in Ha. constructor; [done| | | |].
  - intros w Hw. by apply S2, A2.
  - intros w [Ht|(va & [Hva Hp] & <-)].
    + destruct (A5 w Ht); [apply S3; by left|by apply S2].
    + destruct (decide (lo <= va < a)) as [Hr|Hr]; [apply S2; by apply A4|]. unfold KERNBASE in Hva. unfold frame. rewrite A3 in * by lia.
      apply S3. right. by exists va.
  - intros w Hw. destruct (S4 w Hw) as [Hf|[Ht|(va & [Hva Hp] & <-)]].
    + destruct (A7 w Hf) as [Hw'|[Hw'|(va & Hva & <-)]]; [by left|right; by left|]. right. right. exists va. split; [|done].
      split; [unfold KERNBASE; lia|]. apply user_flags_present. by apply A4.
    + right. left. by apply A8.
    + right. right. exists va. assert (Hr : ~ (lo <= va < a)) by (intros Hr; rewrite Hnp in Hp; done). unfold KERNBASE in Hva.
      unfold mapped_at, frame. rewrite A3 by lia. done.
  - intros w x Hw Hn Hx. rewrite <- (S5 w x) by done. apply (A6 w); try done; [by intros ?%S2|]. intros Ht. apply Hn, S3. by left.
Qed.

Lemma rolled_space k0 ps0 d k ps lo hi k' ps' : space_new k0 ps0 d k ps -> rolled_back end_ k ps d lo hi [] k' ps' ->
  0 <= lo -> hi <= KERNBASE -> (forall va, lo <= va < hi -> present (pte_of (km_mem k) d va) = false) ->
  space_new k0 ps0 d k' ps'.
Proof.
  intros [S1 S2 S3 S4 S5] [B1 B2 B3 B4 B5 B6 B7 B8] Hlo Ha Hnp. unfold KERNBASE in Ha.
  assert (Hma : forall va, mapped_at (km_mem k') d va <-> mapped_at (km_mem k) d va).
  { intros va. unfold mapped_at, KERNBASE. destruct (decide (lo <= va < hi)) as [Hr|Hr]; [by rewrite B3, Hnp|].
    split; intros [Hva Hp]; (split; [done|]); rewrite B2 in * by lia; done. }
  assert (Hf : forall va, mapped_at (km_mem k) d va -> frame (km_mem k') d va = frame (km_mem k) d va).
  { intros va [Hva Hp]. unfold KERNBASE in Hva. unfold frame. rewrite B2; [done|lia|]. intros Hr. by rewrite Hnp in Hp. }
  constructor; [done| | | |].
  - intros w Hw. by apply S2, B4.
  - intros w [Ht|(va & Hva & <-)]; [destruct (B7 w Ht); [apply S3; by left|by apply S2]|].
    apply Hma in Hva. rewrite Hf by done. apply S3. right. by exists va.
  - intros w Hw. destruct (S4 w Hw) as [Hp|[Ht|(va & Hva & <-)]].
    + destruct (B5 w Hp); [by left|right; by left].
    + right. left. by apply B8.
    + right. right. exists va. by rewrite Hma, Hf.
  - intros w x Hw Hn Hx. rewrite <- (S5 w x) by done. apply (B6 w); try done; [by intros ?%S2|]. intros Ht. apply Hn, S3. by left.
Qed.

(** ** The user's view *)

(** The byte at user address [va]. *)
Definition ubyte (m : mem) (d va : Z) : Z := m (frame m d va + va mod 4096).

(** Exactly the pages below [sz] are mapped, with all rights. *)
Definition user_pages (m : mem) (d sz : Z) : Prop :=
  (forall va, 0 <= va < page_up sz -> PTE_FLAGS (pte_of m d va) = 7) /\
  (forall va, page_up sz <= va < KERNBASE -> present (pte_of m d va) = false).

Lemma user_pages_mapped m d sz va : user_pages m d sz -> 0 <= va < page_up sz -> sz <= KERNBASE -> mapped_at m d va.
Proof using Type. clear data_aligned data_range.
  intros [H _] Hva Hsz. split; [unfold page_up, KERNBASE in *; dlia|]. apply user_flags_present. by apply H.
Qed.

(** allocuvm on an address space under construction. *)
Lemma space_allocuvm k0 ps0 d k ps sz newsz :
  space_new k0 ps0 d k ps -> kernel_mapped (km_mem k) d -> user_pages (km_mem k) d sz -> 0 <= sz < KERNBASE -> 0 <= newsz ->
  exists r k' ps', allocuvm end_ d sz newsz k = Ret r k' /\ space_new k0 ps0 d k' ps' /\ kernel_mapped (km_mem k') d /\
    (r = 0 \/ (r = Z.max sz newsz /\ r < KERNBASE /\ user_pages (km_mem k') d r /\
      (forall va, 0 <= va < page_up sz -> pte_of (km_mem k') d va = pte_of (km_mem k) d va /\ ubyte (km_mem k') d va = ubyte (km_mem k) d va) /\
      (forall va, page_up sz <= va < page_up r -> ubyte (km_mem k') d va = 0))).
Proof.
  intros Hs Hk Hu Hsz Hn. unfold KERNBASE in Hsz. pose proof (page_up_bounds sz) as Hp1. pose proof Hs as [S1 S2 S3 S4 S5].
  destruct (decide (KERNBASE <= newsz)) as [Hbig|Hbig].
  { unfold allocuvm. rewrite (proj2 (Z.leb_le _ _) Hbig). exists 0, k, ps. split; [done|]. split; [done|]. split; [done|]. by left. }
  unfold KERNBASE in Hbig. destruct (decide (newsz < sz)) as [Hlt|Hge].
  { unfold allocuvm, KERNBASE. rewrite (proj2 (Z.leb_gt _ _)) by lia. rewrite (proj2 (Z.ltb_lt _ _) Hlt). exists sz, k, ps.
    split; [done|]. split; [done|]. split; [done|]. right. split; [lia|]. split; [lia|]. split; [done|]. split; [done|intros; lia]. }
  pose proof (page_up_mono sz newsz) as Hmono. pose proof (page_up_bounds newsz) as Hp2.
  assert (Hup : page_up newsz <= 2147483648) by (unfold page_up; dlia).
  assert (Hnp : forall va, page_up sz <= va < page_up newsz -> present (pte_of (km_mem k) d va) = false).
  { intros va Hva. apply Hu. unfold KERNBASE. lia. }
  destruct (allocuvm_spec end_ end_high k ps d sz newsz) as (r & k' & ps' & E & Hr); [done|lia|unfold KERNBASE; lia|done|].
  exists r, k', ps'. split; [done|]. destruct Hr as [[-> Hex]|[-> Hrb]].
  - pose proof Hex as [A1 A2 A3 A4 A5 A7 A6 A8].
    split; [eapply extended_space; [done|done|lia|unfold KERNBASE; lia|done]|]. split.
    { intros va Hva. unfold KERNBASE in Hva. rewrite A3 by lia. apply Hk. unfold KERNBASE. lia. }
    right. split; [lia|]. split; [unfold KERNBASE; lia|]. split; [split|split].
    + intros va Hva. destruct (decide (va < page_up sz)); [rewrite A3 by lia; apply Hu; lia|]. apply A4. lia.
    + intros va Hva. unfold KERNBASE in Hva. rewrite A3 by lia. apply Hu. unfold KERNBASE. lia.
    + intros va Hva. assert (Ep : pte_of (km_mem k') d va = pte_of (km_mem k) d va) by (apply A3; lia). split; [done|].
      unfold ubyte, frame. rewrite Ep. fold (frame (km_mem k) d va).
      destruct (uo_frame _ _ _ _ S1 va) as (F1 & F2 & F3); [eapply user_pages_mapped; [done|done|unfold KERNBASE; lia]|].
      apply (A6 (frame (km_mem k) d va)); try done. pose proof (Z.mod_pos_bound va 4096). lia.
    + intros va Hva. destruct (A4 va Hva) as (_ & _ & Hz). apply Hz. pose proof (Z.mod_pos_bound va 4096). lia.
  - split; [eapply rolled_space; [done|done|lia|unfold KERNBASE; lia|done]|]. split; [|by left].
    intros va Hva. unfold KERNBASE in Hva. rewrite (rb_same _ _ _ _ _ _ _ _ _ Hrb) by lia. apply Hk. unfold KERNBASE. lia.
Qed.

(** *** Writing into user pages *)

Lemma kpte_not_user v : Z.land (kpte v) PTE_U = 0.
Proof.
  rewrite user_bit. assert (Hf : PTE_FLAGS (kpte v) = 0 \/ PTE_FLAGS (kpte v) = 1 \/ PTE_FLAGS (kpte v) = 3).
  { rewrite PTE_FLAGS_eq. unfold kpte. change (Z.lor PTE_W PTE_P) with 3. change PTE_P with 1. unfold KERNBASE.
    repeat case_match; dlia. }
  by destruct Hf as [-> |[-> | ->]].
Qed.

(** Bytes written inside the frame of a user page. *)
Lemma space_write k0 ps0 d k ps va0 off l :
  space_new k0 ps0 d k ps -> mapped_at (km_mem k) d va0 -> va0 mod 4096 = 0 -> 0 <= off -> off + Z.of_nat (length l) <= 4096 ->
  Forall (fun b => 0 <= b < 256) l ->
  let k' := set_mem (store_bytes (km_mem k) (frame (km_mem k) d va0 + off) l) k in
  space_new k0 ps0 d k' ps /\ (forall v, pte_of (km_mem k') d v = pte_of (km_mem k) d v) /\
  (forall v, mapped_at (km_mem k) d v -> ubyte (km_mem k') d v =
     if decide (va0 + off <= v < va0 + off + Z.of_nat (length l)) then nth (Z.to_nat (v - va0 - off)) l 0 else ubyte (km_mem k) d v).
Proof using Type. clear data_aligned data_range.
  intros [S1 S2 S3 S4 S5] Hm Ha Hoff Hlen Hl. destruct (uo_frame _ _ _ _ S1 va0 Hm) as (Hp & Hn & Ht).
  set (f := frame (km_mem k) d va0) in *. intros k'.
  assert (Hx : forall x, ~ (f <= x < f + 4096) -> km_mem k' x = km_mem k x).
  { intros x Hx. unfold k'. cbn [km_mem set_mem]. rewrite store_bytes_lookup. by rewrite decide_False by lia. }
  pose proof (uo_vm _ _ _ _ S1) as Hvm.
  assert (Htx : forall v x, is_table (km_mem k) d v -> v <= x < v + 4096 -> km_mem k' x = km_mem k x).
  { intros v x Hv Hvx. apply Hx. by eapply not_table_apart. }
  pose proof (outside_pte k k' d Htx) as Hpte. pose proof (outside_tables k k' d Htx) as Htab.
  assert (Hown : forall w, owned (km_mem k') d w <-> owned (km_mem k) d w).
  { intros w. unfold owned. rewrite Htab. unfold mapped_at, frame. by setoid_rewrite Hpte. }
  split; [|split; [done|]].
  - constructor.
    + constructor.
      * eapply outside_vm_ok; [exact Hvm|done| | |].
        -- apply kmem_wf_write; [apply Hvm|]. intros v x Hv Hvx. change (km_mem k' x = km_mem k x). apply Hx.
           apply (page_ok_disjoint end_ f v); [done| |by intros ->|done]. eapply free_page_ok; [apply Hvm|done].
        -- apply store_bytes_ok; [apply Hvm|done].
        -- intros v Hv. by apply (is_table_ok end_ k ps d v Hvm).
      * intros v. unfold mapped_at, frame. rewrite Hpte, Htab. apply S1.
      * intros v v'. unfold mapped_at, frame. rewrite !Hpte. apply S1.
    + done.
    + intros w. rewrite Hown. apply S3.
    + intros w Hw. rewrite Hown. by apply S4.
    + intros w x Hw Hnw Hwx. rewrite Hx; [by apply (S5 w)|]. apply (page_ok_disjoint end_ f w); try done.
      intros Ef. apply Hnw, S3. right. exists va0. by split.
  - intros v Hv. unfold ubyte, frame. rewrite Hpte. fold (frame (km_mem k) d v). pose proof (Z.mod_pos_bound v 4096) as Hb.
    destruct (decide (v / 4096 = va0 / 4096)) as [Es|Es].
    + assert (Ef : frame (km_mem k) d v = f).
      { unfold f, frame, pte_of. destruct Hm as [[Hm1 Hm2] _], Hv as [[Hv1 Hv2] _]. unfold KERNBASE in *.
        assert (PDX v = PDX va0 /\ PTX v = PTX va0) as [-> ->] by (apply same_page; dlia). done. }
      rewrite Ef. unfold k'. cbn [km_mem set_mem]. rewrite store_bytes_lookup.
      assert (Ev : v = va0 + v mod 4096) by dlia. repeat case_decide; try lia. f_equal. lia.
    + rewrite Hx.
      * rewrite decide_False; [done|]. intros Hr. apply Es. dlia.
      * destruct (uo_frame _ _ _ _ S1 v Hv) as (Hpv & _). apply (page_ok_disjoint end_ f (frame (km_mem k) d v)); [done|done| |lia].
        intros Ef. apply Es. by apply (uo_inj _ _ _ _ S1).
Qed.

(** *** copyout *)

(** Whether the user may access [v]. *)
Definition user_access (m : mem) (d v : Z) : Prop := Z.land (pte_of m d v) PTE_U <> 0.

Lemma uva2ka_spec k ps d va : vm_ok k ps d -> present (pte_of (km_mem k) d va) = true ->
  uva2ka d va k = Ret (if Z.land (pte_of (km_mem k) d va) PTE_U =? 0 then 0 else frame (km_mem k) d va) k.
Proof.
  intros Hvm Hp. unfold uva2ka. rewrite (kbind_ret _ _ _ _ _ (walkpgdir_look k d va)).
  assert (Hd : present (pde_at (km_mem k) d (PDX va)) = true).
  { unfold pte_of in Hp. by destruct (present (pde_at (km_mem k) d (PDX va))). }
  assert (Ee : load32 (km_mem k) (table (pde_at (km_mem k) d (PDX va)) + 4 * PTX va) = pte_of (km_mem k) d va) by (unfold pte_of; by rewrite Hd).
  destruct (vo_tab _ _ _ _ Hvm (PDX va) (PDX_range va) Hd) as (Ht & _). apply page_ok_range in Ht. unfold KERNBASE in Ht. pose proof (PTX_range va).
  rewrite Hd. rewrite (proj2 (Z.eqb_neq _ 0)) by lia. unfold mload. krun. rewrite Ee. unfold present, truth in Hp.
  destruct (Z.land (pte_of (km_mem k) d va) PTE_P =? 0); [done|]. by destruct (_ =? 0).
Qed.

Lemma copyout_loop_spec k0 ps0 d n : forall k ps va buf,
  space_new k0 ps0 d k ps -> kernel_mapped (km_mem k) d -> 0 <= va -> va + Z.of_nat (length buf) <= 4294967296 ->
  va mod 4096 + Z.of_nat (length buf) <= Z.of_nat n * 4096 -> Forall (fun b => 0 <= b < 256) buf ->
  (forall v, va <= v < va + Z.of_nat (length buf) -> present (pte_of (km_mem k) d v) = true) ->
  exists r k', copyout_loop n d va buf (Z.of_nat (length buf)) k = Ret r k' /\ space_new k0 ps0 d k' ps /\
    (forall v, pte_of (km_mem k') d v = pte_of (km_mem k) d v) /\
    ((r = 0 /\ (forall v, va <= v < va + Z.of_nat (length buf) -> user_access (km_mem k) d v) /\
      forall v, mapped_at (km_mem k) d v -> ubyte (km_mem k') d v =
        if decide (va <= v < va + Z.of_nat (length buf)) then nth (Z.to_nat (v - va)) buf 0 else ubyte (km_mem k) d v) \/
     (r = -1 /\ exists v, va <= v < va + Z.of_nat (length buf) /\ ~ user_access (km_mem k) d v)).
Proof using Type. clear data_aligned data_range.
  induction n as [|n IH]; intros k ps va buf Hs Hk Hva Hend Hn Hby Hpr.
  { assert (buf = []) as -> by (destruct buf; [done|]; simpl in Hn; pose proof (Z.mod_pos_bound va 4096); lia).
    exists 0, k. split; [done|]. split; [done|]. split; [done|]. left. split; [done|]. split; [simpl; lia|]. intros v _. by rewrite decide_False by (simpl; lia). }
  cbn [copyout_loop]. destruct (Z.ltb_spec 0 (Z.of_nat (length buf))) as [Hpos|Hpos].
  2:{ assert (buf = []) as -> by (destruct buf; [done|]; simpl in Hpos; lia).
    exists 0, k. split; [done|]. split; [done|]. split; [done|]. left. split; [done|]. split; [simpl; lia|]. intros v _. by rewrite decide_False by (simpl; lia). }
  rewrite PGROUNDDOWN_eq. set (va0 := va - va mod 4096). set (off := va - va0). pose proof (Z.mod_pos_bound va 4096) as Hmb.
  assert (Hv0 : 0 <= va0 /\ va0 mod 4096 = 0 /\ 0 <= off < 4096 /\ va = va0 + off /\ off = va mod 4096) by (unfold off, va0; dlia). destruct Hv0 as (Hv0 & Hv0m & Hoff & Eva & Eoff).
  assert (Hv0e : va0 + 4096 <= 4294967296) by (unfold va0; dlia).
  assert (Epte : forall v, va0 <= v < va0 + 4096 -> pte_of (km_mem k) d v = pte_of (km_mem k) d va0) by (intros v Hv; apply pte_same_page; lia).
  assert (Hp0 : present (pte_of (km_mem k) d va0) = true) by (rewrite <- (Epte va) by lia; apply Hpr; lia).
  rewrite (kbind_ret _ _ _ _ _ (uva2ka_spec k ps d va0 (uo_vm _ _ _ _ (sn_ok _ _ _ _ _ Hs)) Hp0)).
  destruct (Z.eqb_spec (Z.land (pte_of (km_mem k) d va0) PTE_U) 0) as [Eu|Eu].
  { exists (-1), k. split; [done|]. split; [done|]. split; [done|]. right. split; [done|]. exists va. split; [lia|].
    unfold user_access. rewrite Epte by lia. tauto. }
  assert (Hma : mapped_at (km_mem k) d va0).
  { split; [|done]. split; [done|]. destruct (decide (va0 < KERNBASE)) as [|Hh]; [done|]. exfalso. apply Eu. rewrite Hk by lia. apply kpte_not_user. }
  destruct (uo_frame _ _ _ _ (sn_ok _ _ _ _ _ Hs) va0 Hma) as (Hfp & _). apply page_ok_range in Hfp. unfold KERNBASE in Hfp.
  rewrite (proj2 (Z.eqb_neq (frame (km_mem k) d va0) 0)) by lia. unfold PGSIZE. rewrite (u32_small (4096 - off)) by lia.
  set (kk := if Z.of_nat (length buf) <? 4096 - off then Z.of_nat (length buf) else 4096 - off).
  assert (Hkk : 0 < kk <= Z.of_nat (length buf) /\ kk <= 4096 - off /\ (kk = Z.of_nat (length buf) \/ kk = 4096 - off)).
  { unfold kk. destruct (Z.ltb_spec (Z.of_nat (length buf)) (4096 - off)); lia. }
  destruct Hkk as (Hk1 & Hk2 & Hk3). clearbody kk. unfold mwrite. krun.
  assert (Hlt : Z.of_nat (length (take (Z.to_nat kk) buf)) = kk) by (rewrite length_take; lia).
  destruct (space_write k0 ps0 d k ps va0 off (take (Z.to_nat kk) buf) Hs Hma Hv0m) as (Hs1 & Hpte1 & Hub1); [lia|lia|by apply Forall_take|].
  rewrite Hlt in Hub1. set (k1 := set_mem _ k) in *. clearbody k1.
  assert (Hld : Z.of_nat (length (drop (Z.to_nat kk) buf)) = Z.of_nat (length buf) - kk) by (rewrite length_drop; lia).
  rewrite (u32_small (Z.of_nat (length buf) - kk)), <- Hld by lia.
  assert (Hmap1 : forall v, mapped_at (km_mem k1) d v <-> mapped_at (km_mem k) d v) by (intros v; unfold mapped_at; by rewrite Hpte1).
  destruct (decide (kk = Z.of_nat (length buf))) as [Eall|Erest].
  - assert (Hnil : drop (Z.to_nat kk) buf = []) by (apply drop_ge; lia). rewrite Hnil. exists 0, k1. split; [by destruct n|]. split; [done|]. split; [done|].
    left. split; [done|]. split; [intros v Hv; unfold user_access; by rewrite Epte by lia|]. intros v Hv. rewrite Hub1 by done.
    repeat case_decide; try lia. rewrite nth_firstn. rewrite (proj2 (Nat.ltb_lt _ _)) by lia. f_equal. lia.
  - assert (Ek : kk = 4096 - off) by lia. rewrite (u32_small (va0 + 4096)) by lia.
    destruct (IH k1 ps (va0 + 4096) (drop (Z.to_nat kk) buf)) as (r & k' & E & Hs' & Hpte' & Hr).
    { done. } { intros v Hv. rewrite Hpte1. by apply Hk. } { lia. } { lia. } { rewrite Hld. dlia. } { by apply Forall_drop. } { intros v Hv. rewrite Hpte1. apply Hpr. lia. }
    exists r, k'. split; [done|]. split; [done|]. split; [intros v; by rewrite Hpte'|]. destruct Hr as [(-> & Hu & Hub)|(-> & v & Hv & Hnu)].
    + left. split; [done|]. split.
      * intros v Hv. destruct (decide (v < va0 + 4096)); [unfold user_access; by rewrite Epte by lia|].
        specialize (Hu v). unfold user_access in *. rewrite Hpte1 in Hu. apply Hu. lia.
      * intros v Hv. rewrite Hub by (by apply Hmap1). rewrite Hub1 by done. repeat case_decide; try lia.
        -- rewrite nth_skipn. f_equal. lia.
        -- rewrite nth_firstn. rewrite (proj2 (Nat.ltb_lt _ _)) by lia. f_equal. lia.
    + right. split; [done|]. exists v. split; [lia|]. unfold user_access in *. by rewrite Hpte1 in Hnu.
Qed.

Lemma copyout_spec k0 ps0 d k ps va buf :
  space_new k0 ps0 d k ps -> kernel_mapped (km_mem k) d -> 0 <= va -> va + Z.of_nat (length buf) <= 4294967296 ->
  Forall (fun b => 0 <= b < 256) buf ->
  (forall v, va <= v < va + Z.of_nat (length buf) -> present (pte_of (km_mem k) d v) = true) ->
  exists r k', copyout d va buf (Z.of_nat (length buf)) k = Ret r k' /\ space_new k0 ps0 d k' ps /\
    (forall v, pte_of (km_mem k') d v = pte_of (km_mem k) d v) /\
    ((r = 0 /\ (forall v, va <= v < va + Z.of_nat (length buf) -> user_access (km_mem k) d v) /\
      forall v, mapped_at (km_mem k) d v -> ubyte (km_mem k') d v =
        if decide (va <= v < va + Z.of_nat (length buf)) then nth (Z.to_nat (v - va)) buf 0 else ubyte (km_mem k) d v) \/
     (r = -1 /\ exists v, va <= v < va + Z.of_nat (length buf) /\ ~ user_access (km_mem k) d v)).
Proof using Type. clear data_aligned data_range. intros Hs Hk Hva Hend Hby Hp. apply copyout_loop_spec; try done. unfold PGSIZE. rewrite Z2Nat.id by dlia. dlia. Qed.

(** *** clearpteu *)

Lemma clearpteu_spec k0 ps0 d k ps va :
  space_new k0 ps0 d k ps -> mapped_at (km_mem k) d va -> va mod 4096 = 0 ->
  exists k', clearpteu d va k = Ret tt k' /\ space_new k0 ps0 d k' ps /\
    (forall v, 0 <= v < 4294967296 -> pte_of (km_mem k') d v =
       if decide (va <= v < va + 4096) then Z.land (pte_of (km_mem k) d v) (Z.lnot PTE_U) else pte_of (km_mem k) d v) /\
    (forall v, mapped_at (km_mem k) d v -> ubyte (km_mem k') d v = ubyte (km_mem k) d v).
Proof.
  intros [S1 S2 S3 S4 S5] [Hva Hp] Ha. pose proof (uo_vm _ _ _ _ S1) as Hvm. unfold KERNBASE in Hva. unfold clearpteu.
  rewrite (kbind_ret _ _ _ _ _ (walkpgdir_look k d va)).
  assert (Hd : present (pde_at (km_mem k) d (PDX va)) = true).
  { unfold pte_of in Hp. by destruct (present (pde_at (km_mem k) d (PDX va))). }
  assert (Ee : load32 (km_mem k) (table (pde_at (km_mem k) d (PDX va)) + 4 * PTX va) = pte_of (km_mem k) d va) by (unfold pte_of; by rewrite Hd).
  destruct (vo_tab _ _ _ _ Hvm (PDX va) (PDX_range va) Hd) as (Ht & _ & _). pose proof (page_ok_range end_ _ Ht) as Hr. unfold KERNBASE in Hr.
  pose proof (PTX_range va) as Ho. pose proof (PDX_range va) as Hi. rewrite Hd, (proj2 (Z.eqb_neq _ 0)) by lia. unfold mload, mstore. krun.
  pose proof (load32_range (km_mem k) (table (pde_at (km_mem k) d (PDX va)) + 4 * PTX va) (vo_bytes _ _ _ _ Hvm)) as Her. rewrite Ee in Her.
  rewrite Ee. set (e := pte_of (km_mem k) d va) in *.
  assert (Hw : 0 <= Z.land e (Z.lnot PTE_U) < 4294967296).
  { split; [apply Z.land_nonneg; lia|]. pose proof (land_lnot_le e PTE_U). lia. }
  set (k' := set_mem (store32 (km_mem k) (table (pde_at (km_mem k) d (PDX va)) + 4 * PTX va) (Z.land e (Z.lnot PTE_U))) k).
  assert (Hpte : forall v, 0 <= v < 4294967296 -> pte_of (km_mem k') d v =
       if decide (va <= v < va + 4096) then Z.land (pte_of (km_mem k) d v) (Z.lnot PTE_U) else pte_of (km_mem k) d v).
  { intros v Hv. unfold k'. cbn [km_mem set_mem]. rewrite (store_pte end_ _ ps) by done. destruct (decide (va <= v < va + 4096)) as [Hin|Hin].
    - rewrite decide_True by (apply same_page; lia). by rewrite (pte_same_page _ _ v va) by lia.
    - rewrite decide_False; [done|]. intros Hs. apply same_page in Hs; lia. }
  assert (Hma : forall v, mapped_at (km_mem k') d v <-> mapped_at (km_mem k) d v).
  { intros v. unfold mapped_at, KERNBASE. split; intros [Hv Hpv]; (split; [done|]); rewrite Hpte in * by lia; case_decide; try done.
    - by rewrite (proj1 (proj2 (clear_user_bit _))) in Hpv.
    - by rewrite (proj1 (proj2 (clear_user_bit _))). }
  assert (Hf : forall v, mapped_at (km_mem k) d v -> frame (km_mem k') d v = frame (km_mem k) d v).
  { intros v [Hv _]. unfold KERNBASE in Hv. unfold frame. rewrite Hpte by lia. case_decide; [|done]. by rewrite (proj1 (clear_user_bit _)). }
  pose proof (store_tables end_ k ps d (PDX va) (PTX va) (Z.land e (Z.lnot PTE_U)) Hvm Hi Ho Hd) as Htab.
  assert (Hpage : forall w x, page_ok w -> ~ is_table (km_mem k) d w -> w <= x < w + 4096 -> km_mem k' x = km_mem k x).
  { intros w x Hw0 Hnt Hx. apply (store_page end_ k ps d (PDX va) (PTX va) _ Hvm Hi Ho Hd x w); try done.
    intros ->. apply Hnt. by apply is_table_nth. }
  exists k'. split; [done|]. split; [|split; [done|]].
  - constructor; [constructor| | | |].
    + by apply (store_vm_ok end_ k ps d (PDX va) (PTX va)).
    + intros v Hv%Hma. rewrite Hf by done. destruct (uo_frame _ _ _ _ S1 v Hv) as (? & ? & Hnt). split_and!; try done. intros ?%Htab. done.
    + intros v v' Hv%Hma Hv'%Hma. rewrite !Hf by done. by apply (uo_inj _ _ _ _ S1).
    + done.
    + intros w [Ht'|(v & Hv%Hma & <-)]; [apply S3; left; by apply Htab|]. rewrite Hf by done. apply S3. right. by exists v.
    + intros w Hw0. destruct (S4 w Hw0) as [?|[Ht'|(v & Hv & <-)]]; [by left|right; left; by apply Htab|].
      right. right. exists v. by rewrite Hma, Hf.
    + intros w x Hw0 Hn Hx. rewrite <- (S5 w x) by done. apply (Hpage w); try done. intros Ht'. apply Hn, S3. by left.
  - intros v Hv. unfold ubyte. rewrite Hf by done. destruct (uo_frame _ _ _ _ S1 v Hv) as (? & _ & ?).
    apply (Hpage (frame (km_mem k) d v)); try done. pose proof (Z.mod_pos_bound v 4096). lia.
Qed.
End space.
