(* ===== verification/VmCopy.v ===== *)
(** * Copying an address space (vm.c, copyuvm)

    fork's copy: the child has the same user memory in pages of its own. *)

From S2P Require Import Prelude Mem Layout Kalloc Vm VmMap VmUser VmSpace.

Section copy.
Variable end_ : Z.
Hypothesis end_high : KERNBASE < end_.
Variable data : Z.
Hypothesis data_aligned : data mod 4096 = 0.
Hypothesis data_range : KERNLINK < data < KERNBASE + PHYSTOP.
Notation uvm_ok := (uvm_ok end_).
Notation page_ok := (page_ok end_).
Notation space_new := (space_new end_).
Notation restored := (restored end_).

(** An address space under construction, while the page [r] has been taken from the free
    list for it. *)
Record space_hold (k0 : kmem) (ps0 : list Z) (d r : Z) (k : kmem) (ps : list Z) : Prop := {
  sh_ok : uvm_ok k ps d;
  sh_fresh : fresh end_ k ps d r;
  sh_page : r ∈ ps0;
  sh_free : ps ⊆ ps0;
  sh_own : forall w, owned (km_mem k) d w -> w ∈ ps0;
  sh_all : forall w, w ∈ ps0 -> w ∈ ps \/ owned (km_mem k) d w \/ w = r;
  sh_data : forall w x, page_ok w -> w ∉ ps0 -> w <= x < w + 4096 -> km_mem k x = km_mem k0 x }.

Lemma fresh_not_owned k ps d r : uvm_ok k ps d -> fresh end_ k ps d r -> ~ owned (km_mem k) d r.
Proof. intros Hok (_ & _ & Ht & Hf) [?|(va & Hva & E)]; [done|]. by apply (Hf va). Qed.

(** Take a page and fill it. *)
Lemma space_take k0 ps0 d k ps r : space_new k0 ps0 d k (r :: ps) ->
  exists k1, kalloc k = Ret r k1 /\ r <> 0 /\ km_mem k1 = km_mem k /\
    forall m2, mem_ok m2 -> (forall x, ~ (r <= x < r + 4096) -> m2 x = km_mem k x) ->
    let k2 := set_mem m2 k1 in
    space_hold k0 ps0 d r k2 ps /\ (forall v, pte_of (km_mem k2) d v = pte_of (km_mem k) d v) /\
    (forall v, mapped_at (km_mem k) d v -> ubyte (km_mem k2) d v = ubyte (km_mem k) d v).
Proof.
  intros [S1 S2 S3 S4 S5]. destruct (take_page_any end_ k ps d r S1) as (k1 & E & Hr & Hm1 & Hany). exists k1.
  split; [done|]. split; [done|]. split; [done|]. intros m2 Hm2 Hx k2. destruct (Hany m2 Hm2 Hx) as (Hok & Hf & Hpte & Htab). fold k2 in Hok, Hf, Hpte, Htab.
  assert (Hown : forall w, owned (km_mem k2) d w <-> owned (km_mem k) d w).
  { intros w. unfold owned. rewrite Htab. unfold mapped_at, frame. by setoid_rewrite Hpte. }
  assert (Hrp : page_ok r) by apply Hf.
  split; [constructor; try done|split; [done|]].
  - apply S2. left.
  - intros w Hw. apply S2. by right.
  - intros w. rewrite Hown. apply S3.
  - intros w Hw. rewrite Hown. destruct (S4 w Hw) as [[->|?]%elem_of_cons|?]; tauto.
  - intros w x Hw Hn Hwx. rewrite <- (S5 w x) by done. apply Hx. apply (page_ok_disjoint end_ r w); try done.
    intros ->. apply Hn, S2. left.
  - intros v Hv. unfold ubyte, frame. rewrite Hpte. fold (frame (km_mem k) d v). apply Hx.
    destruct (uo_frame _ _ _ _ S1 v Hv) as (Hfp & Hn & _). apply (page_ok_disjoint end_ r (frame (km_mem k) d v)); try done.
    + intros ->. apply Hn. left.
    + pose proof (Z.mod_pos_bound v 4096). lia.
Qed.

(** Map the page that was taken, or fail for lack of a page for the table. *)
Lemma space_hold_map k0 ps0 d r k ps a pm : space_hold k0 ps0 d r k ps -> 0 <= pm < 4096 -> 0 <= a < KERNBASE -> a mod 4096 = 0 ->
  present (pte_of (km_mem k) d a) = false ->
  exists q k' ps', mappages d a PGSIZE (V2P r) pm k = Ret q k' /\
    ((q = 0 /\ space_new k0 ps0 d k' ps' /\
       (forall v, 0 <= v < 4294967296 -> pte_of (km_mem k') d v = if decide (a <= v < a + 4096) then V2P r + Z.lor pm PTE_P else pte_of (km_mem k) d v) /\
       (forall v, mapped_at (km_mem k) d v -> ubyte (km_mem k') d v = ubyte (km_mem k) d v) /\
       (forall v, a <= v < a + 4096 -> ubyte (km_mem k') d v = km_mem k (r + v mod 4096))) \/
     (q = -1 /\ space_hold k0 ps0 d r k' ps')).
Proof.
  intros [S1 Sf Sp S2 S3 S4 S5] Hpm Ha Ham Hnp. pose proof Sf as (Hr & Hrn & Hrt & Hrf).
  destruct (map_fresh end_ k ps d a r pm S1 Sf Hpm Ha Ham Hnp) as (q & k' & ps' & E & Hok' & [G1 G2 [l Hl] G4 G5] & Hq).
  exists q, k', ps'. split; [done|]. unfold KERNBASE in Ha.
  assert (Hsub : forall w, w ∈ ps' -> w ∈ ps) by (intros w Hw; rewrite Hl; apply elem_of_app; by right).
  assert (Hdata : forall w x, page_ok w -> w ∉ ps0 -> w <= x < w + 4096 -> km_mem k' x = km_mem k0 x).
  { intros w x Hw Hn Hx. rewrite <- (S5 w x) by done. apply (G5 w); try done; [by intros ?%S2|]. intros Ht. apply Hn, S3. by left. }
  assert (Htab : forall w, is_table (km_mem k') d w -> w ∈ ps0) by (intros w Ht; destruct (G1 w Ht); [apply S3; by left|by apply S2]).
  destruct Hq as [[-> Hq]|(-> & -> & Hf' & Hq)]; [left|right].
  - split; [done|]. assert (Hout : forall v, 0 <= v < 4294967296 -> ~ (a <= v < a + 4096) -> pte_of (km_mem k') d v = pte_of (km_mem k) d v)
      by (intros v Hv Hn; rewrite Hq by done; by rewrite decide_False).
    assert (Hnpv : forall v, a <= v < a + 4096 -> present (pte_of (km_mem k) d v) = false).
    { intros v Hv. rewrite (pte_same_page _ _ v a); [done|lia|lia|done|lia]. }
    assert (Hfa : forall v, a <= v < a + 4096 -> frame (km_mem k') d v = r) by (intros v Hv; unfold frame; rewrite Hq, decide_True by lia; by apply (page_entry end_)).
    assert (Hpa : forall v, a <= v < a + 4096 -> mapped_at (km_mem k') d v).
    { intros v Hv. split; [unfold KERNBASE; unfold PGSIZE in *; dlia|]. rewrite Hq, decide_True by lia. rewrite present_odd, Z.odd_add.
      assert (V2P r mod 4096 = 0) by (destruct Hr as (_ & Hr & _); unfold V2P, KERNBASE, PGSIZE in *; dlia).
      replace (Z.odd (V2P r)) with false; [|symmetry; rewrite <- Z.negb_even; apply negb_false_iff, Z.even_spec; exists (V2P r / 2); dlia].
      rewrite <- Z.bit0_odd, Z.lor_spec, orb_true_r. done. }
    assert (Hmo : forall v, mapped_at (km_mem k) d v -> ~ (a <= v < a + 4096)) by (intros v [_ Hp] Hv; by rewrite Hnpv in Hp).
    split; [|split; [done|split]].
    + constructor; try done.
      * intros w Hw. by apply S2, Hsub.
      * intros w [Ht|(v & Hv & <-)]; [by apply Htab|]. destruct (decide (a <= v < a + 4096)); [by rewrite Hfa|].
        destruct Hv as [Hv Hp]. unfold KERNBASE in Hv. unfold frame. rewrite Hout in * by lia. apply S3. right. exists v. by split; [split; [unfold KERNBASE|]|].
      * intros w Hw. destruct (S4 w Hw) as [Hps|[[Ht|(v & Hv & <-)]| ->]].
        -- destruct (G4 w Hps); [by left|right; by left].
        -- right. left. by apply G2.
        -- right. right. exists v. pose proof (Hmo v Hv). destruct Hv as [Hv Hp]. unfold KERNBASE in Hv. unfold mapped_at, frame, KERNBASE. by rewrite Hout by lia.
        -- right. right. exists a. split; [apply Hpa; lia|apply Hfa; lia].
    + intros v Hv. pose proof (Hmo v Hv). destruct (uo_frame _ _ _ _ S1 v Hv) as (F1 & F2 & F3). destruct Hv as [Hv Hp]. unfold KERNBASE in Hv.
      unfold ubyte, frame. rewrite Hout by lia. fold (frame (km_mem k) d v). apply (G5 (frame (km_mem k) d v)); try done. pose proof (Z.mod_pos_bound v 4096). lia.
    + intros v Hv. unfold ubyte. rewrite Hfa by done. apply (G5 r); try done. pose proof (Z.mod_pos_bound v 4096). lia.
  - split; [done|]. constructor; try done.
    + intros w Hw. by apply not_elem_of_nil in Hw.
    + intros w [Ht|(v & Hv & <-)]; [by apply Htab|]. unfold mapped_at, frame in *. rewrite Hq in *. apply S3. right. by exists v.
    + intros w Hw. destruct (S4 w Hw) as [Hps|[[Ht|(v & Hv & <-)]| ->]]; [| | |by right; right].
      * destruct (G4 w Hps); [by left|right; left; by left].
      * right. left. left. by apply G2.
      * right. left. right. exists v. unfold mapped_at, frame. by rewrite Hq.
Qed.

(** freevm while a page is held gives back all but that page. *)
Lemma space_hold_free k0 ps0 d r k ps : space_hold k0 ps0 d r k ps ->
  exists k' ps', freevm end_ d k = Ret tt k' /\ free_ok end_ k' ps' /\ (forall w, w ∈ ps' <-> w ∈ ps0 /\ w <> r) /\
    forall w x, page_ok w -> w ∉ ps0 -> w <= x < w + 4096 -> km_mem k' x = km_mem k0 x.
Proof.
  intros [S1 Sf Sp S2 S3 S4 S5]. destruct (freevm_spec end_ end_high k ps d S1) as (k' & ps' & E & Hok & Hps & Hm). exists k', ps'.
  pose proof (fresh_not_owned _ _ _ _ S1 Sf) as Hno. destruct Sf as (_ & Hrn & _).
  split; [done|]. split; [done|]. assert (Hsame : forall w, w ∈ ps' <-> w ∈ ps0 /\ w <> r).
  { intros w. rewrite Hps. split.
    - intros [Hw|Hw]; (split; [auto|]); by intros ->.
    - intros [Hw Hwr]. destruct (S4 w Hw) as [?|[?|?]]; tauto. }
  split; [done|]. intros w x Hw Hn Hx. rewrite (Hm w x), (S5 w x); try done. rewrite Hsame. tauto.
Qed.

(** *** The parent *)

(** Whoever else owned pages before still has them, unchanged. *)
Record intact (k0 : kmem) (pgdir : Z) (k : kmem) (ps : list Z) : Prop := {
  in_ok : uvm_ok k ps pgdir;
  in_pte : forall v, pte_of (km_mem k) pgdir v = pte_of (km_mem k0) pgdir v;
  in_own : forall w, owned (km_mem k) pgdir w <-> owned (km_mem k0) pgdir w;
  in_data : forall v, mapped_at (km_mem k0) pgdir v -> ubyte (km_mem k) pgdir v = ubyte (km_mem k0) pgdir v }.

Lemma owned_intact k0 ps0 k ps pgdir : uvm_ok k0 ps0 pgdir -> free_ok end_ k ps ->
  (forall w, owned (km_mem k0) pgdir w -> w ∉ ps /\ forall x, w <= x < w + 4096 -> km_mem k x = km_mem k0 x) -> intact k0 pgdir k ps.
Proof.
  intros Hok Hf Hw. destruct (owned_frame end_ k0 ps0 pgdir k ps Hok Hf Hw) as (H1 & H2 & H3). constructor; try done.
  intros v Hv. unfold ubyte, frame. rewrite H2. fold (frame (km_mem k0) pgdir v). apply (Hw (frame (km_mem k0) pgdir v)); [right; by exists v|].
  pose proof (Z.mod_pos_bound v 4096). lia.
Qed.

Lemma pages_intact k0 ps0 k ps pgdir : uvm_ok k0 ps0 pgdir -> free_ok end_ k ps -> ps ⊆ ps0 ->
  (forall w x, page_ok w -> w ∉ ps0 -> w <= x < w + 4096 -> km_mem k x = km_mem k0 x) -> intact k0 pgdir k ps.
Proof.
  intros Hok Hf Hsub Hd. eapply owned_intact; [done|done|]. intros w Hw. destruct (owned_page end_ _ _ _ _ Hok Hw) as [Hp Hn].
  split; [by intros ?%Hsub|]. intros x. by apply Hd.
Qed.

Lemma others_intact k0 ps0 d k ps pgdir : uvm_ok k0 ps0 pgdir -> space_new k0 ps0 d k ps -> intact k0 pgdir k ps.
Proof. intros Hok [S1 S2 S3 S4 S5]. eapply pages_intact; [done|by eapply uvm_free|done..]. Qed.

(** *** The loop *)

(** The pages below [i] are copied. *)
Definition copied_upto (k0 : kmem) (pgdir i : Z) (m : mem) (d : Z) : Prop :=
  (forall v, 0 <= v < i -> PTE_FLAGS (pte_of m d v) = PTE_FLAGS (pte_of (km_mem k0) pgdir v) /\ ubyte m d v = ubyte (km_mem k0) pgdir v) /\
  (forall v, i <= v < KERNBASE -> present (pte_of m d v) = false).

(** What a failed copy leaves: the free list again, except for at most one page. *)
Definition given_up (k0 : kmem) (ps0 : list Z) (k : kmem) (ps : list Z) : Prop :=
  exists lost, (lost = [] \/ exists r, r ∈ ps0 /\ lost = [r]) /\ free_ok end_ k ps /\ (forall w, w ∈ ps <-> w ∈ ps0 /\ w ∉ lost) /\
    forall w x, page_ok w -> w ∉ ps0 -> w <= x < w + 4096 -> km_mem k x = km_mem k0 x.

Lemma odd_flags e : present e = true -> Z.lor (PTE_FLAGS e) PTE_P = PTE_FLAGS e /\ 0 <= PTE_FLAGS e < 4096.
Proof.
  intros Hp. split; [|rewrite PTE_FLAGS_eq; dlia]. rewrite present_bit in Hp. apply Z.bits_inj'. intros n Hn. rewrite Z.lor_spec.
  change PTE_P with (2 ^ 0). destruct (decide (n = 0)) as [->|Hne]; [|rewrite Z.pow2_bits_false, orb_false_r by done; done].
  change PTE_P with (2 ^ 0) in Hp. rewrite land_bit in Hp by lia. destruct (Z.testbit (PTE_FLAGS e) 0); [done|]. done.
Qed.

(** One page copied. *)
Lemma copy_page k0 ps0 pgdir d k ps i r :
  uvm_ok k0 ps0 pgdir -> space_new k0 ps0 d k (r :: ps) -> kernel_mapped data (km_mem k) d -> copied_upto k0 pgdir i (km_mem k) d ->
  0 <= i < KERNBASE -> i mod 4096 = 0 -> (forall v, 0 <= v < i + 4096 -> present (pte_of (km_mem k0) pgdir v) = true) ->
  exists k1, kalloc k = Ret r k1 /\ r <> 0 /\ exists q k' ps',
    mappages d i PGSIZE (V2P r) (PTE_FLAGS (pte_of (km_mem k0) pgdir i))
      (set_mem (memmove (km_mem k1) r (frame (km_mem k0) pgdir i) PGSIZE) k1) = Ret q k' /\
    ((q = 0 /\ space_new k0 ps0 d k' ps' /\ kernel_mapped data (km_mem k') d /\ copied_upto k0 pgdir (i + 4096) (km_mem k') d) \/
     (q = -1 /\ space_hold k0 ps0 d r k' ps')).
Proof.
  intros Hok Hs Hk [Hc1 Hc2] Hi Him Hpar. unfold KERNBASE in Hi. assert (Hp : present (pte_of (km_mem k0) pgdir i) = true) by (apply Hpar; lia).
  destruct (space_take k0 ps0 d k ps r Hs) as (k1 & E & Hr & Hm1 & Hany). exists k1. split; [done|]. split; [done|].
  destruct (others_intact _ _ _ _ _ _ Hok Hs) as [Hok1 Hpt Hown Hub].
  assert (Hmi : mapped_at (km_mem k0) pgdir i) by (split; [unfold KERNBASE; lia|done]).
  set (f := frame (km_mem k0) pgdir i) in *. set (m2 := memmove (km_mem k1) r f PGSIZE).
  assert (Hrp : page_ok r) by (eapply free_page_ok; [apply Hs|left]).
  assert (Hmm : forall x, m2 x = if decide (r <= x < r + 4096) then km_mem k (f + (x - r)) else km_mem k x).
  { intros x. unfold m2. rewrite (memmove_copied (km_mem k1) r f PGSIZE ltac:(done) x). unfold copied. rewrite Hm1. unfold PGSIZE.
    case_decide; destruct (Z.leb_spec r x), (Z.ltb_spec x (r + 4096)); try lia; simpl; try done; f_equal; lia. }
  destruct (Hany m2) as (Hh & Hpte2 & Hub2).
  { intros x. rewrite Hmm. case_decide; apply (vo_bytes _ _ _ _ (uo_vm _ _ _ _ (sn_ok _ _ _ _ _ _ Hs))). }
  { intros x Hx. rewrite Hmm. by rewrite decide_False. }
  set (k2 := set_mem m2 k1) in *. destruct (odd_flags _ Hp) as [Hfl Hfr].
  destruct (space_hold_map k0 ps0 d r k2 ps i (PTE_FLAGS (pte_of (km_mem k0) pgdir i)) Hh Hfr) as (q & k' & ps' & E' & Hq);
    [unfold KERNBASE; lia|done|rewrite Hpte2; apply Hc2; unfold KERNBASE; lia|].
  exists q, k', ps'. split; [done|]. destruct Hq as [(-> & Hs' & Hpte' & Hub' & Hnew)|[-> Hh']]; [left|by right].
  rewrite Hfl in Hpte'. split; [done|]. split; [done|].
  assert (Hva2 : V2P r mod 4096 = 0) by (destruct Hrp as (_ & Ha & _); unfold V2P, KERNBASE, PGSIZE in *; dlia).
  split; [|split].
  - intros v Hv. unfold KERNBASE in Hv. rewrite Hpte' by lia. rewrite decide_False by dlia. rewrite Hpte2. apply Hk. unfold KERNBASE. lia.
  - intros v Hv. destruct (decide (v < i)) as [Hlt|Hge].
    + rewrite Hpte' by lia. rewrite decide_False by lia. rewrite Hpte2.
      destruct (Hc1 v) as [Hf1 Hu1]; [lia|]. split; [done|]. assert (Hmv : mapped_at (km_mem k2) d v).
      { split; [unfold KERNBASE; lia|]. rewrite Hpte2, present_bit, Hf1, <- present_bit. apply Hpar. lia. }
      rewrite Hub', Hub2; [done| |done]. unfold mapped_at in *. by rewrite <- Hpte2.
    + rewrite Hpte' by lia. rewrite decide_True by lia. rewrite (pte_same_page (km_mem k0) pgdir v i) by lia. split.
      { rewrite (PTE_FLAGS_eq (V2P r + _)). dlia. }
      rewrite Hnew by lia. unfold ubyte. unfold k2. cbn [km_mem set_mem]. pose proof (Z.mod_pos_bound v 4096) as Hvm. rewrite Hmm, decide_True by lia.
      unfold frame. rewrite (pte_same_page (km_mem k0) pgdir v i) by lia. fold (frame (km_mem k0) pgdir i). fold f.
      replace (f + (r + v mod 4096 - r)) with (f + v mod 4096) by lia.
      destruct (uo_frame _ _ _ _ Hok i Hmi) as (F1 & F2 & _). apply (sn_data _ _ _ _ _ _ Hs f); try done. lia.
  - intros v Hv. unfold KERNBASE in Hv. rewrite Hpte' by lia. rewrite decide_False by lia. rewrite Hpte2. apply Hc2. unfold KERNBASE. lia.
Qed.

Lemma copyuvm_loop_spec k0 ps0 pgdir sz d n : forall k ps i,
  uvm_ok k0 ps0 pgdir -> (forall v, 0 <= v < page_up sz -> present (pte_of (km_mem k0) pgdir v) = true) -> 0 <= sz <= KERNBASE ->
  space_new k0 ps0 d k ps -> kernel_mapped data (km_mem k) d -> copied_upto k0 pgdir i (km_mem k) d -> d <> 0 ->
  0 <= i -> i mod 4096 = 0 -> i <= page_up sz -> sz <= i + Z.of_nat n * 4096 ->
  exists r k' ps', copyuvm_loop end_ n pgdir d i sz k = Ret r k' /\
    ((r = d /\ space_new k0 ps0 d k' ps' /\ kernel_mapped data (km_mem k') d /\ copied_upto k0 pgdir (page_up sz) (km_mem k') d) \/
     (r = 0 /\ given_up k0 ps0 k' ps')).
Proof.
  induction n as [|n IH]; intros k ps i Hok Hpar Hsz Hs Hk Hc Hd Hi Him Hip Hn; unfold KERNBASE in Hsz; pose proof (page_up_bounds sz) as Hup;
    cbn [copyuvm_loop]; destruct (Z.ltb_spec i sz) as [Hlt|Hge]; try lia;
    try (assert (i = page_up sz) as -> by dlia; exists d, k, ps; split; [done|]; by left).
  assert (Haup : i + 4096 <= page_up sz) by dlia.
  destruct (others_intact _ _ _ _ _ _ Hok Hs) as [Hok1 Hpt _ _]. assert (Hp : present (pte_of (km_mem k0) pgdir i) = true) by (apply Hpar; lia).
  rewrite (kbind_ret _ _ _ _ _ (walkpgdir_look k pgdir i)).
  assert (Hpd : present (pde_at (km_mem k) pgdir (PDX i)) = true).
  { rewrite <- Hpt in Hp. unfold pte_of in Hp. by destruct (present (pde_at (km_mem k) pgdir (PDX i))). }
  assert (Ee : load32 (km_mem k) (table (pde_at (km_mem k) pgdir (PDX i)) + 4 * PTX i) = pte_of (km_mem k0) pgdir i) by (rewrite <- Hpt; unfold pte_of; by rewrite Hpd).
  destruct (vo_tab _ _ _ _ (uo_vm _ _ _ _ Hok1) (PDX i) (PDX_range i) Hpd) as (Ht & _). apply page_ok_range in Ht. unfold KERNBASE in Ht. pose proof (PTX_range i).
  rewrite Hpd, (proj2 (Z.eqb_neq _ 0)) by lia. unfold mload. krun. rewrite Ee. fold (present (pte_of (km_mem k0) pgdir i)). rewrite Hp. krun.
  destruct ps as [|r ps].
  - destruct (kalloc_wf end_ k [] (vo_wf _ _ _ _ (uo_vm _ _ _ _ Hok1))) as (r & k1 & E & _ & _ & -> & ->). rewrite (kbind_ret _ _ _ _ _ E). rewrite Z.eqb_refl.
    destruct (space_free end_ end_high _ _ _ _ _ Hs) as (k' & ps' & E' & (R1 & R2 & R3)). rewrite (kbind_ret _ _ _ _ _ E'). exists 0, k', ps'. split; [done|].
    right. split; [done|]. exists []. split; [by left|]. split; [done|]. split; [|done]. intros w. rewrite R2. split; [intros; split; [done|apply not_elem_of_nil]|tauto].
  - destruct (copy_page k0 ps0 pgdir d k ps i r) as (k1 & E & Hr & q & k' & ps' & E' & Hq); try done; [unfold KERNBASE; lia|intros v Hv; apply Hpar; lia|].
    rewrite (kbind_ret _ _ _ _ _ E). rewrite (proj2 (Z.eqb_neq r 0)) by done. unfold mmemmove. krun. fold (frame (km_mem k0) pgdir i).
    rewrite (kbind_ret _ _ _ _ _ E'). destruct Hq as [(-> & Hs' & Hk' & Hc')|[-> Hh]].
    + change (0 <? 0) with false. cbv iota. unfold PGSIZE. rewrite u32_small by lia. apply (IH k' ps'); try done; try lia; dlia.
    + change (-1 <? 0) with true. cbv iota. destruct (space_hold_free _ _ _ _ _ _ Hh) as (k2 & ps2 & E2 & Hok2 & Hps2 & Hd2).
      rewrite (kbind_ret _ _ _ _ _ E2). exists 0, k2, ps2. split; [done|]. right. split; [done|]. exists [r].
      split; [right; exists r; split; [apply Hh|done]|]. split; [done|]. split; [|done]. intros w. rewrite Hps2, list_elem_of_singleton. done.
Qed.

(** copyuvm, whatever memory is left. *)
Lemma copyuvm_spec k ps pgdir sz :
  uvm_ok k ps pgdir -> 0 <= sz <= KERNBASE -> (forall v, 0 <= v < page_up sz -> present (pte_of (km_mem k) pgdir v) = true) ->
  exists r k' ps', copyuvm end_ data pgdir sz k = Ret r k' /\
    ((r <> 0 /\ space_new k ps r k' ps' /\ kernel_mapped data (km_mem k') r /\ copied_upto k pgdir (page_up sz) (km_mem k') r) \/
     (r = 0 /\ given_up k ps k' ps')).
Proof.
  intros Hok Hsz Hpar. unfold copyuvm. destruct (setupkvm_spec end_ end_high data data_aligned data_range k ps) as (d & k1 & ps1 & E & Hd).
  { by eapply uvm_free. }
  rewrite (kbind_ret _ _ _ _ _ E). destruct Hd as [[-> (R1 & R2 & R3)]|(Hd & Hs & Hk)].
  - rewrite Z.eqb_refl. exists 0, k1, ps1. split; [done|]. right. split; [done|]. exists []. split; [by left|]. split; [done|]. split; [|done].
    intros w. rewrite R2. split; [intros; split; [done|apply not_elem_of_nil]|tauto].
  - rewrite (proj2 (Z.eqb_neq d 0)) by done. unfold KERNBASE in Hsz. pose proof (page_up_bounds sz).
    destruct (copyuvm_loop_spec k ps pgdir sz d (Z.to_nat (sz / PGSIZE + 1)) k1 ps1 0) as (r & k' & ps' & E' & Hr); try done.
    + intros v Hv. rewrite Hk by (unfold KERNBASE in *; lia). by rewrite (proj2 (Z.ltb_lt _ _)) by lia.
    + split; [lia|]. intros v Hv. rewrite Hk by (unfold KERNBASE in *; lia). unfold kpte. unfold KERNBASE in *.
      rewrite !(proj2 (Z.ltb_lt _ _)) by lia. done.
    + unfold page_up. dlia.
    + unfold PGSIZE. rewrite Z2Nat.id by dlia. dlia.
    + exists r, k', ps'. split; [done|]. destruct Hr as [[-> Hr]|Hr]; [by left|by right].
Qed.
End copy.

(** Copyuvm always returns.  When it returns a page directory, that address space maps
    the kernel and exactly the parent's pages, each with the parent's permissions and bytes
    but in a page of its own that was free before; when memory runs out it returns 0 and
    every page is free again, except that at most one page is lost.  The parent's address
    space is untouched either way. *)
Theorem copyuvm_copies (end_ data : Z) (k : kmem) (ps : list Z) (pgdir sz : Z) :
  KERNBASE < end_ -> data mod PGSIZE = 0 -> KERNLINK < data < KERNBASE + PHYSTOP ->
  uvm_ok end_ k ps pgdir -> 0 <= sz <= KERNBASE -> (forall v, 0 <= v < page_up sz -> present (pte_of (km_mem k) pgdir v) = true) ->
  exists r k' ps', copyuvm end_ data pgdir sz k = Ret r k' /\ intact end_ k pgdir k' ps' /\
    ((r <> 0 /\ uvm_ok end_ k' ps' r /\ kernel_mapped data (km_mem k') r /\
      (forall v, 0 <= v < page_up sz -> PTE_FLAGS (pte_of (km_mem k') r v) = PTE_FLAGS (pte_of (km_mem k) pgdir v) /\
         ubyte (km_mem k') r v = ubyte (km_mem k) pgdir v) /\
      (forall v, page_up sz <= v < KERNBASE -> present (pte_of (km_mem k') r v) = false) /\
      (forall w, w ∈ ps <-> w ∈ ps' \/ owned (km_mem k') r w)) \/
     (r = 0 /\ exists lost, (length lost <= 1)%nat /\ (forall w, w ∈ ps' <-> w ∈ ps /\ w ∉ lost))).
Proof.
  intros He Hda Hdr Hok Hsz Hpar. destruct (copyuvm_spec end_ He data Hda Hdr k ps pgdir sz Hok Hsz Hpar) as (r & k' & ps' & E & Hr).
  exists r, k', ps'. split; [done|]. destruct Hr as [(Hr & Hs & Hk & Hc1 & Hc2)|(-> & lost & Hl & Hf & Hps & Hd)].
  - split; [by eapply others_intact|]. left. split; [done|]. split; [apply Hs|]. split; [done|]. split; [done|]. split; [done|].
    intros w. split; [apply Hs|]. intros [?|?]; [by apply (sn_free _ _ _ _ _ _ Hs)|by apply (sn_own _ _ _ _ _ _ Hs)].
  - split; [eapply pages_intact; try done; by intros w [? _]%Hps|]. right. split; [done|]. exists lost. split; [|done].
    destruct Hl as [->|(r & _ & ->)]; simpl; lia.
Qed.

Lemma copyuvm_copies_witness :
  exists k1 ps1, allocuvm ex_end ex_pageA 0 5000 ex_uvm = Ret 5000 k1 /\ uvm_ok ex_end k1 ps1 ex_pageA /\
    exists r k' ps', copyuvm ex_end 0x80108000 ex_pageA 5000 k1 = Ret r k' /\ intact ex_end k1 ex_pageA k' ps'.
Proof.
  destruct (allocuvm_spec ex_end ltac:(reflexivity) ex_uvm _ ex_pageA 0 5000 ex_uvm_ok) as (r & k1 & ps1 & E & Hr); [lia|reflexivity|intros va _; by rewrite ex_uvm_pte|].
  assert (Hr0 : match allocuvm ex_end ex_pageA 0 5000 ex_uvm with Ret r _ => r =? 5000 | _ => false end = true) by (vm_compute; reflexivity).
  rewrite E in Hr0. apply Z.eqb_eq in Hr0. destruct Hr as [[_ Hex]|[Hr _]]; [|lia].
  exists k1, ps1. split; [rewrite Hr0 in E; exact E|]. split; [apply Hex|].
  destruct (copyuvm_copies ex_end 0x80108000 k1 ps1 ex_pageA 5000) as (r' & k' & ps' & E' & Hi & _); [reflexivity|reflexivity|split; reflexivity|apply Hex|unfold KERNBASE; lia| |].
  - intros v Hv. apply user_flags_present. destruct Hex as [_ _ _ A4 _ _ _ _]. by apply A4.
  - exists r', k', ps'. split; [exact E'|exact Hi].
Defined.
