(* ===== verification/Dump.v ===== *)
(** * Dumping the memory of a process (mywritebuffer, mycopybuffer of proc.c)

    The dump call copies pages of another address space into a buffer of the caller.  The
    kernel writes the buffer at its user address, so every byte goes through the page table
    of the caller, which is the one loaded; a page that is not there, or not writable, faults
    in the kernel, where trap panics. *)

From S2P Require Import Prelude Mem Layout Kalloc Vm VmMap VmUser VmSpace.

Definition writable (e : Z) : bool := present e && truth (Z.land e PTE_W).

Section dump.
(** The page directory that is loaded. *)
Variable cur : Z.

(** One byte written at a virtual address. *)
Definition vstore (va b : Z) : K kmem unit :=
  let! e := kget (fun k => pte_of (km_mem k) cur va) in
  if writable e then kmodify (fun k => set_mem (mset (km_mem k) (P2V (PTE_ADDR e) + va mod 4096) b) k) else kpanic "trap".

(** memmove from the kernel address [src] to the virtual address [dst], upwards or
    downwards as string.c has it. *)
Fixpoint vcopy_up (n : nat) (dst src : Z) : K kmem unit :=
  match n with
  | O => kret tt
  | S n => let! b := kget (fun k => km_mem k src) in vstore dst b ;; vcopy_up n (dst + 1) (src + 1)
  end.
Fixpoint vcopy_down (n : nat) (dst src : Z) : K kmem unit :=
  match n with
  | O => kret tt
  | S n => let! b := kget (fun k => km_mem k (src + Z.of_nat n)) in vstore (dst + Z.of_nat n) b ;; vcopy_down n dst src
  end.
Definition vmemmove (dst src n : Z) : K kmem unit :=
  if (src <? dst) && (dst <? src + n) then vcopy_down (Z.to_nat n) dst src else vcopy_up (Z.to_nat n) dst src.

(** memmove from a variable of the kernel's stack, given by its bytes. *)
Fixpoint vstore_bytes (dst : Z) (l : list Z) : K kmem unit :=
  match l with [] => kret tt | b :: l => vstore dst b ;; vstore_bytes (dst + 1) l end.
Definition word_bytes (x : Z) : list Z := [x mod 256; x / 256 mod 256; x / 65536 mod 256; x / 16777216 mod 256].

Definition mywritebuffer (buffer src off n : Z) : K kmem Z :=
  vmemmove (u32 (buffer + off)) src n ;; kret n.

Fixpoint mycopybuffer_loop (fuel : nat) (pgdir addr buffer buffersize i guardFlag : Z) : K kmem Z :=
  match fuel with
  | O => knofuel
  | S fuel =>
      if i <? buffersize then
        let! pte := walkpgdir pgdir (u32 (addr + i)) false in
        if pte =? 0 then kpanic "mycopybuffer: fail to walkpgdir" else
        let! e := mload pte in
        let pa := PTE_ADDR e in
        let n := if u32 (buffersize - i) <? PGSIZE then u32 (buffersize - i) else PGSIZE in
        let guard := (guardFlag =? 0) && (Z.land e PTE_U =? 0) in
        (if guard then vstore_bytes (u32 (buffer + buffersize)) (word_bytes i) else kret tt) ;;
        let! r := mywritebuffer buffer (P2V pa) i n in
        if negb (r =? n) then kret (-1) else
        mycopybuffer_loop fuel pgdir addr buffer buffersize (u32 (i + PGSIZE)) (if guard then guardFlag + 1 else guardFlag)
      else kret 0
  end.
(** The argument [offset] is not used. *)
Definition mycopybuffer (pgdir addr buffer offset buffersize : Z) : K kmem Z :=
  mycopybuffer_loop (Z.to_nat (buffersize / PGSIZE + 2)) pgdir addr buffer buffersize 0 0.
End dump.

(** ** What the buffer holds *)

Section copy.
Variable end_ : Z.
Hypothesis end_high : KERNBASE + PGSIZE <= end_.
Context (k0 : kmem) (ps : list Z) (cur d b N : Z).
Notation m0 := (km_mem k0).
Hypothesis Hcur : uvm_ok end_ k0 ps cur.
Hypothesis Hd : uvm_ok end_ k0 ps d.
Hypothesis Hb : 0 <= b /\ 0 <= N /\ b + N + 4 <= KERNBASE.
(** The buffer and the word behind it. *)
Definition in_buf (v : Z) : Prop := b <= v < b + N + 4.
Hypothesis Hw : forall v, in_buf v -> writable (pte_of m0 cur v) = true.
(** The pages of the buffer do not belong to the process that is dumped. *)
Hypothesis Hapart : forall v, in_buf v -> ~ owned m0 d (frame m0 cur v).

Definition baddr (v : Z) : Z := frame m0 cur v + v mod 4096.

(** The memory in which the buffer holds [f] and nothing else has changed. *)
Definition buf_holds (m : mem) (f : Z -> Z) : Prop :=
  (forall v, in_buf v -> m (baddr v) = f v) /\ (forall x, (forall v, in_buf v -> baddr v <> x) -> m x = m0 x).

Lemma buf_mapped v : in_buf v -> mapped_at m0 cur v.
Proof using Hw Hb.
  intros Hv. split; [unfold in_buf in Hv; lia|]. specialize (Hw v Hv). unfold writable in Hw. by apply andb_true_iff in Hw as [? _].
Qed.

Lemma baddr_page v : in_buf v -> page_ok end_ (frame m0 cur v) /\ frame m0 cur v <= baddr v < frame m0 cur v + 4096.
Proof using Hw Hb Hcur.
  intros Hv. destruct (uo_frame _ _ _ _ Hcur v (buf_mapped v Hv)) as (Hp & _). split; [done|]. unfold baddr. pose proof (Z.mod_pos_bound v 4096). lia.
Qed.

Lemma baddr_inj v v' : in_buf v -> in_buf v' -> baddr v = baddr v' -> v = v'.
Proof using Hw Hb Hcur.
  intros Hv Hv' E. destruct (baddr_page v Hv) as [P1 R1], (baddr_page v' Hv') as [P2 R2].
  assert (Ef : frame m0 cur v = frame m0 cur v').
  { destruct (decide (frame m0 cur v = frame m0 cur v')) as [|Hne]; [done|]. exfalso.
    apply (page_ok_disjoint end_ (frame m0 cur v) (frame m0 cur v') (baddr v)); [done|done|done|lia|lia]. }
  assert (v / 4096 = v' / 4096) by (apply (uo_inj _ _ _ _ Hcur); [by apply buf_mapped|by apply buf_mapped|done]).
  unfold baddr in E. assert (v mod 4096 = v' mod 4096) by lia. dlia.
Qed.

(** Pages that are not the buffer's keep their bytes. *)
Lemma buf_other m f w x : buf_holds m f -> page_ok end_ w -> (forall v, in_buf v -> frame m0 cur v <> w) -> w <= x < w + 4096 -> m x = m0 x.
Proof using Hw Hb Hcur.
  intros [_ H] Hp Hne Hx. apply H. intros v Hv <-. destruct (baddr_page v Hv) as [P R].
  apply (page_ok_disjoint end_ (frame m0 cur v) w (baddr v)); [done|done|by apply Hne|done|done].
Qed.

Lemma buf_pte m f v : buf_holds m f -> pte_of m cur v = pte_of m0 cur v /\ pte_of m d v = pte_of m0 d v /\ forall i, 0 <= i < 1024 -> pde_at m d i = pde_at m0 d i.
Proof using Hw Hb Hcur Hd Hapart.
  intros H. assert (Hc : forall w x, is_table m0 cur w -> w <= x < w + 4096 -> m x = m0 x).
  { intros w x Ht. destruct (is_table_ok end_ k0 ps cur w (uo_vm _ _ _ _ Hcur) Ht) as [Hp _]. eapply buf_other; [done|done|].
    intros u Hu Ef. destruct (uo_frame _ _ _ _ Hcur u (buf_mapped u Hu)) as (_ & _ & Hn). rewrite Ef in Hn. done. }
  assert (Hdd : forall w x, is_table m0 d w -> w <= x < w + 4096 -> m x = m0 x).
  { intros w x Ht. destruct (is_table_ok end_ k0 ps d w (uo_vm _ _ _ _ Hd) Ht) as [Hp _]. eapply buf_other; [done|done|].
    intros u Hu Ef. apply (Hapart u Hu). rewrite Ef. by left. }
  split_and!.
  - exact (outside_pte k0 (set_mem m k0) cur Hc v).
  - exact (outside_pte k0 (set_mem m k0) d Hdd v).
  - intros i Hi. exact (outside_pde k0 (set_mem m k0) d Hdd i Hi).
Qed.

Lemma vstore_ok k f v x : buf_holds (km_mem k) f -> in_buf v ->
  exists k', vstore cur v x k = Ret tt k' /\ buf_holds (km_mem k') (fun u => if u =? v then x else f u).
Proof using Hw Hb Hcur Hd Hapart.
  intros H Hv. unfold vstore. krun. rewrite (proj1 (buf_pte _ _ v H)), (Hw v Hv). eexists. split; [done|].
  cbn [km_mem set_mem]. fold (frame m0 cur v). fold (baddr v). destruct H as [H1 H2]. split.
  - intros u Hu. destruct (Z.eqb_spec u v) as [->|Hne]; [apply mset_eq|]. rewrite mset_ne; [auto|]. intros E. apply Hne. by apply baddr_inj.
  - intros y Hy. rewrite mset_ne; [auto|]. intros ->. by apply (Hy v).
Qed.

Lemma vstore_bytes_ok l : forall k f v, buf_holds (km_mem k) f -> b <= v -> v + Z.of_nat (length l) <= b + N + 4 ->
  exists k', vstore_bytes cur v l k = Ret tt k' /\
    buf_holds (km_mem k') (fun u => if decide (v <= u < v + Z.of_nat (length l)) then nth (Z.to_nat (u - v)) l 0 else f u).
Proof using Hw Hb Hcur Hd Hapart.
  induction l as [|x l IH]; intros k f v H Hv Hl; cbn [vstore_bytes length] in *.
  - exists k. split; [done|]. destruct H as [H1 H2]. split; [|done]. intros u Hu. rewrite decide_False by lia. auto.
  - destruct (vstore_ok k f v x H) as (k1 & E1 & H1); [unfold in_buf; lia|]. rewrite (kbind_ret _ _ _ _ _ E1).
    destruct (IH k1 _ (v + 1) H1) as (k' & E & H'); [lia|lia|]. exists k'. split; [done|]. destruct H' as [H2 H3]. split; [|done].
    intros u Hu. rewrite H2 by done. destruct (Z.eqb_spec u v) as [->|Hne].
    + rewrite decide_False, decide_True by lia. replace (v - v) with 0 by lia. done.
    + repeat case_decide; try lia. replace (Z.to_nat (u - v)) with (S (Z.to_nat (u - (v + 1)))) by lia. done.
Qed.

(** Bytes that are not in the buffer are copied into it. *)
Lemma vcopy_up_ok n : forall k f v src, buf_holds (km_mem k) f -> b <= v -> v + Z.of_nat n <= b + N + 4 ->
  (forall x u, src <= x < src + Z.of_nat n -> in_buf u -> baddr u <> x) ->
  exists k', vcopy_up cur n v src k = Ret tt k' /\ buf_holds (km_mem k') (fun u => if decide (v <= u < v + Z.of_nat n) then m0 (src + (u - v)) else f u).
Proof using Hw Hb Hcur Hd Hapart.
  induction n as [|n IH]; intros k f v src H Hv Hl Hs; cbn [vcopy_up].
  - exists k. split; [done|]. destruct H as [H1 H2]. split; [|done]. intros u Hu. rewrite decide_False by lia. auto.
  - krun. assert (Ex : km_mem k src = m0 src) by (apply H; intros u Hu; apply Hs; [lia|done]). rewrite Ex.
    destruct (vstore_ok k f v (m0 src) H) as (k1 & E1 & H1); [unfold in_buf; lia|]. rewrite (kbind_ret _ _ _ _ _ E1).
    destruct (IH k1 _ (v + 1) (src + 1) H1) as (k' & E & H'); [lia|lia|intros; apply Hs; [lia|done]|]. exists k'. split; [done|].
    destruct H' as [H2 H3]. split; [|done]. intros u Hu. rewrite H2 by done. destruct (Z.eqb_spec u v) as [->|Hne].
    + rewrite decide_False, decide_True by lia. f_equal. lia.
    + repeat case_decide; try lia. f_equal. lia.
Qed.

(** ** The loop over the pages *)

Variable addr : Z.
Hypothesis Haddr : 0 <= addr /\ addr + N <= KERNBASE.
(** Every page that is dumped has a page table; it is mapped or its entry is 0. *)
Hypothesis Htab : forall i, 0 <= i < N -> i mod 4096 = 0 ->
  present (pde_at m0 d (PDX (addr + i))) = true /\ (present (pte_of m0 d (addr + i)) = true \/ pte_of m0 d (addr + i) = 0).

(** The byte that goes to position [j] of the buffer. *)
Definition dumped (j : Z) : Z := m0 (frame m0 d (addr + j / 4096 * 4096) + j mod 4096).
(** The first page, of [n] from offset [i], that the user may not access. *)
Fixpoint guard_from (n : nat) (i : Z) : option Z :=
  match n with
  | O => None
  | S n => if Z.land (pte_of m0 d (addr + i)) PTE_U =? 0 then Some i else guard_from n (i + 4096)
  end.
Definition with_guard (g : option Z) (f : Z -> Z) (u : Z) : Z :=
  match g with Some i => if decide (b + N <= u) then nth (Z.to_nat (u - (b + N))) (word_bytes i) 0 else f u | None => f u end.

(** The source page is apart from the buffer. *)
Lemma source_apart i x u : 0 <= i < N -> i mod 4096 = 0 -> frame m0 d (addr + i) <= x < frame m0 d (addr + i) + 4096 -> in_buf u -> baddr u <> x.
Proof using Hw Hb Hcur Hd Hapart Haddr Htab end_high.
  intros Hi Hm Hx Hu <-. destruct (baddr_page u Hu) as [P R]. destruct (Htab i Hi Hm) as [_ [Hp|H0]].
  - assert (Hma : mapped_at m0 d (addr + i)) by (split; [lia|done]). destruct (uo_frame _ _ _ _ Hd _ Hma) as (P2 & _).
    apply (page_ok_disjoint end_ (frame m0 cur u) (frame m0 d (addr + i)) (baddr u)); [done|done| |done|done].
    intros Ef. apply (Hapart u Hu). rewrite Ef. right. by exists (addr + i).
  - unfold frame in Hx at 1 2. rewrite H0 in Hx. change (P2V (PTE_ADDR 0)) with KERNBASE in Hx. destruct P as (_ & _ & Hge & _). unfold PGSIZE in *. lia.
Qed.

Lemma mywritebuffer_ok k f i n : buf_holds (km_mem k) f -> 0 <= i < N -> i mod 4096 = 0 -> 0 <= n <= 4096 -> i + n <= N ->
  exists k', mywritebuffer cur b (frame m0 d (addr + i)) i n k = Ret n k' /\
    buf_holds (km_mem k') (fun u => if decide (b + i <= u < b + i + n) then dumped (u - b) else f u).
Proof using Hw Hb Hcur Hd Hapart Haddr Htab end_high.
  intros H Hi Hm Hn Hin. unfold mywritebuffer, vmemmove. unfold KERNBASE in Hb. rewrite u32_small by lia.
  assert (Hsrc : KERNBASE <= frame m0 d (addr + i)).
  { destruct (Htab i Hi Hm) as [_ [Hp|H0]].
    - assert (Hma : mapped_at m0 d (addr + i)) by (split; [lia|done]). destruct (uo_frame _ _ _ _ Hd _ Hma) as (P2 & _).
      apply page_ok_range in P2. lia.
    - unfold frame. rewrite H0. done. }
  unfold KERNBASE in Hsrc. rewrite (proj2 (Z.ltb_ge (frame m0 d (addr + i)) (b + i))) by lia. cbn [andb].
  destruct (vcopy_up_ok (Z.to_nat n) k f (b + i) (frame m0 d (addr + i)) H) as (k' & E & H'); [lia|lia| |].
  { intros x u Hx. apply (source_apart i); [done|done|lia]. }
  rewrite (kbind_ret _ _ _ _ _ E). exists k'. split; [done|]. rewrite Z2Nat.id in H' by lia. destruct H' as [H1 H2]. split; [|done].
  intros u Hu. rewrite H1 by done. case_decide; [|done]. unfold dumped.
  assert (Eu : (u - b) / 4096 * 4096 = i /\ (u - b) mod 4096 = u - (b + i) \/ u = b + i + 4096) by dlia.
  destruct Eu as [[-> ->]| ->]; [done|lia].
Qed.

(** The entry that the loop reads. *)
Lemma walk_entry k f i : buf_holds (km_mem k) f -> 0 <= i < N -> i mod 4096 = 0 ->
  exists a, walkpgdir d (u32 (addr + i)) false k = Ret a k /\ a <> 0 /\ load32 (km_mem k) a = pte_of m0 d (addr + i).
Proof using Hw Hb Hcur Hd Hapart Haddr Htab.
  intros H Hi Hm. unfold KERNBASE in *. rewrite u32_small by lia. rewrite walkpgdir_look.
  destruct (Htab i Hi Hm) as [Hp _]. destruct (buf_pte _ _ (addr + i) H) as (_ & Ep & Ed). pose proof (PDX_range (addr + i)) as Hr.
  rewrite Ed, Hp by done. eexists. split; [done|]. destruct (vo_tab _ _ _ _ (uo_vm _ _ _ _ Hd) _ Hr Hp) as (Ht & _). apply page_ok_range in Ht.
  unfold KERNBASE in Ht. pose proof (PTX_range (addr + i)). split; [lia|]. rewrite <- Ep. unfold pte_of. by rewrite Ed, Hp by done.
Qed.

Lemma with_guard_low g f u : u < b + N -> with_guard g f u = f u.
Proof using Type. intros Hu. unfold with_guard. destruct g; [|done]. by rewrite decide_False by lia. Qed.

Lemma with_guard_ok k f i : buf_holds (km_mem k) f -> 0 <= i ->
  exists k', vstore_bytes cur (u32 (b + N)) (word_bytes i) k = Ret tt k' /\ buf_holds (km_mem k') (with_guard (Some i) f).
Proof using Hw Hb Hcur Hd Hapart.
  intros H Hi. unfold KERNBASE in Hb. rewrite u32_small by lia. destruct (vstore_bytes_ok (word_bytes i) k f (b + N) H) as (k' & E & H'); [lia|simpl; lia|].
  exists k'. split; [done|]. destruct H' as [H1 H2]. split; [|done]. intros u Hu. rewrite H1 by done. unfold with_guard, in_buf in *. simpl length.
  repeat case_decide; done || lia.
Qed.

Lemma mycopybuffer_loop_ok n : forall fuel k f i gf, (n < fuel)%nat -> buf_holds (km_mem k) f -> 0 <= i -> i mod 4096 = 0 -> 0 <= gf ->
  (4096 * (Z.of_nat n - 1) < N - i <= 4096 * Z.of_nat n \/ n = O /\ N <= i) ->
  exists k', mycopybuffer_loop cur fuel d addr b N i gf k = Ret 0 k' /\
    buf_holds (km_mem k') (fun u => if decide (b + i <= u < b + N) then dumped (u - b)
      else with_guard (if gf =? 0 then guard_from n i else None) f u).
Proof using Hw Hb Hcur Hd Hapart Haddr Htab end_high.
  induction n as [|n IH]; intros fuel k f i gf Hf H Hi Him Hg Hn; (destruct fuel as [|fuel]; [lia|]); cbn [mycopybuffer_loop guard_from].
  - rewrite (proj2 (Z.ltb_ge _ _)) by lia. exists k. split; [done|]. destruct H as [H1 H2]. split; [|done]. intros u Hu. rewrite decide_False by lia.
    destruct (gf =? 0); cbn [with_guard]; auto.
  - unfold KERNBASE in Hb. rewrite (proj2 (Z.ltb_lt _ _)) by lia. destruct (walk_entry k f i H) as (a & E & Ha & Ee); [lia|done|].
    rewrite (kbind_ret _ _ _ _ _ E), (proj2 (Z.eqb_neq a 0)) by done. unfold mload. krun. rewrite Ee. fold (frame m0 d (addr + i)).
    rewrite (u32_small (N - i)), (u32_small (i + PGSIZE)) by (unfold PGSIZE; lia).
    set (sz := if N - i <? PGSIZE then N - i else PGSIZE). set (g := (gf =? 0) && (Z.land (pte_of m0 d (addr + i)) PTE_U =? 0)).
    assert (Hsz : 0 <= sz <= 4096 /\ i + sz <= N /\ (sz = 4096 \/ i + sz = N)) by (unfold sz, PGSIZE; destruct (Z.ltb_spec (N - i) 4096); lia).
    assert (Hguard : exists k1, (if g then vstore_bytes cur (u32 (b + N)) (word_bytes i) else kret tt) k = Ret tt k1 /\
      buf_holds (km_mem k1) (with_guard (if g then Some i else None) f)).
    { destruct g; [by apply with_guard_ok|by exists k]. }
    destruct Hguard as (k1 & E1 & H1). rewrite (kbind_ret _ _ _ _ _ E1).
    destruct (mywritebuffer_ok k1 _ i sz H1) as (k2 & E2 & H2); [lia|done|lia|lia|]. rewrite (kbind_ret _ _ _ _ _ E2), Z.eqb_refl. cbn [negb].
    destruct (IH fuel k2 _ (i + PGSIZE) (if g then gf + 1 else gf) ltac:(lia) H2) as (k' & E' & H'); [unfold PGSIZE; lia|unfold PGSIZE; dlia|destruct g; lia|unfold PGSIZE; lia|].
    exists k'. split; [done|]. destruct H' as [H3 H4]. split; [|done]. intros u Hu. rewrite H3 by done. unfold PGSIZE, in_buf in *.
    destruct (decide (b + i <= u < b + N)) as [Hin|Hout].
    + case_decide; [done|]. rewrite with_guard_low by lia. by rewrite decide_True by lia.
    + rewrite decide_False by lia. unfold g. destruct (Z.eqb_spec gf 0) as [Hz|Hz]; cbn [andb].
      * destruct (Z.land (pte_of m0 d (addr + i)) PTE_U =? 0).
        -- rewrite (proj2 (Z.eqb_neq _ 0)) by lia. cbn [with_guard]. rewrite decide_False by lia. done.
        -- subst gf. cbn [Z.eqb]. destruct (guard_from n (i + 4096)); cbn [with_guard]; [case_decide; [done|]|]; by rewrite decide_False by lia.
      * rewrite (proj2 (Z.eqb_neq gf 0)) by done. cbn [with_guard]. by rewrite decide_False by lia.
Qed.

Lemma dumped_eq j : 0 <= j < N -> dumped j = ubyte m0 d (PGROUNDDOWN addr + j).
Proof using Hb Haddr.
  intros Hj. unfold KERNBASE in *. rewrite PGROUNDDOWN_eq. set (a0 := addr - addr mod 4096). pose proof (Z.mod_pos_bound addr 4096 ltac:(lia)).
  assert (Ha : a0 mod 4096 = 0 /\ 0 <= a0 <= addr) by (unfold a0; dlia). unfold dumped, ubyte, frame. set (i := j / 4096 * 4096).
  assert (Hi : 0 <= i <= j /\ i mod 4096 = 0 /\ j < i + 4096) by (unfold i; dlia).
  rewrite (pte_same_page m0 d (addr + i) (a0 + i)) by (dlia || (unfold a0 in *; lia)).
  rewrite (pte_same_page m0 d (a0 + j) (a0 + i)) by (dlia || lia). do 2 f_equal. dlia.
Qed.

Lemma ubyte_buf m f v : buf_holds m f -> in_buf v -> ubyte m cur v = f v.
Proof using Hw Hb Hcur Hd Hapart.
  intros H Hv. destruct (buf_pte _ _ v H) as (Ep & _). unfold ubyte, frame. rewrite Ep. by apply (proj1 H).
Qed.
End copy.

(** C32: mycopybuffer fills the caller's buffer with the memory of the other process, from the
    start of the page of [addr] on, and always returns 0; the word behind the buffer gets the
    offset of the first page the other process may not access itself (the guard page), and
    no page but the buffer's changes.  Where a page is not mapped the buffer gets whatever
    its entry points to, which for an entry of 0 is physical page 0. *)
Theorem mycopybuffer_copies (end_ : Z) (k : kmem) (ps : list Z) (cur d b N addr : Z) :
  KERNBASE + PGSIZE <= end_ -> uvm_ok end_ k ps cur -> uvm_ok end_ k ps d ->
  0 <= b /\ 0 <= N /\ b + N + 4 <= KERNBASE -> 0 <= addr /\ addr + N <= KERNBASE ->
  (forall v, in_buf b N v -> writable (pte_of (km_mem k) cur v) = true) ->
  (forall v, in_buf b N v -> ~ owned (km_mem k) d (frame (km_mem k) cur v)) ->
  (forall i, 0 <= i < N -> i mod 4096 = 0 ->
     present (pde_at (km_mem k) d (PDX (addr + i))) = true /\ (present (pte_of (km_mem k) d (addr + i)) = true \/ pte_of (km_mem k) d (addr + i) = 0)) ->
  exists k', mycopybuffer cur d addr b 0 N k = Ret 0 k' /\
    (forall j, 0 <= j < N -> ubyte (km_mem k') cur (b + j) = ubyte (km_mem k) d (PGROUNDDOWN addr + j)) /\
    (forall t, 0 <= t < 4 -> ubyte (km_mem k') cur (b + N + t) =
       match guard_from k d addr (Z.to_nat ((N + 4095) / 4096)) 0 with
       | Some i => nth (Z.to_nat t) (word_bytes i) 0
       | None => ubyte (km_mem k) cur (b + N + t)
       end) /\
    (forall w x, page_ok end_ w -> (forall v, in_buf b N v -> frame (km_mem k) cur v <> w) -> w <= x < w + 4096 -> km_mem k' x = km_mem k x).
Proof.
  intros He Hcur Hd Hb Ha Hw Hap Ht. pose proof Ha as Ha'. pose proof Hb as Hb'. unfold KERNBASE in Ha', Hb'. unfold mycopybuffer, PGSIZE.
  set (n := Z.to_nat ((N + 4095) / 4096)).
  destruct (mycopybuffer_loop_ok end_ He k ps cur d b N Hcur Hd Hb Hw Hap addr Ha Ht n (Z.to_nat (N / 4096 + 2)) k (fun v => km_mem k (baddr k cur v)) 0 0)
    as (k' & E & H); [unfold n; dlia|by split|lia|done|lia|unfold n; dlia|].
  exists k'. split; [done|]. split_and!.
  - intros j Hj. rewrite (ubyte_buf end_ k ps cur d b N Hcur Hd Hb Hw Hap _ _ (b + j) H) by (unfold in_buf; lia).
    rewrite decide_True by lia. replace (b + j - b) with j by lia. by apply (dumped_eq k d b N Hb addr Ha).
  - intros t Ht4. rewrite (ubyte_buf end_ k ps cur d b N Hcur Hd Hb Hw Hap _ _ (b + N + t) H) by (unfold in_buf; lia).
    rewrite decide_False by lia. cbn [Z.eqb]. unfold with_guard. destruct (guard_from k d addr n 0); [|done].
    rewrite decide_True by lia. do 2 f_equal. lia.
  - intros w x. by eapply buf_other.
Qed.

(** ** A concrete run *)

(** Two address spaces with one page each: the caller's directory, table and page are A, B
    and C, those of the other process D, E and F.  F begins with 42. *)
Definition ex_pageE : Z := 0x80204000.
Definition ex_pageF : Z := 0x80205000.
Definition ex_two_mem : mem :=
  store32 (store32 (store32 (store32 (store32 (store32 (fun _ => 0) ex_pageA (V2P ex_pageB + 7)) ex_pageB (V2P ex_pageC + 7))
    ex_pageD (V2P ex_pageE + 7)) ex_pageE (V2P ex_pageF + 7)) ex_pageF 42) KERNBASE 77.
Definition ex_two : kmem := Kmem ex_two_mem false true 0.

Ltac two_loads := unfold ex_two_mem, ex_pageA, ex_pageB, ex_pageC, ex_pageD, ex_pageE, ex_pageF, KERNBASE.

Lemma ex_two_pde i : 0 <= i < 1024 ->
  pde_at ex_two_mem ex_pageA i = (if decide (i = 0) then V2P ex_pageB + 7 else 0) /\
  pde_at ex_two_mem ex_pageD i = (if decide (i = 0) then V2P ex_pageE + 7 else 0).
Proof.
  intros Hi. unfold pde_at. destruct (decide (i = 0)) as [->|Hne]; [vm_compute; done|]. two_loads.
  rewrite !load32_store32_ne by lia. done.
Qed.

Lemma ex_two_pte va :
  pte_of ex_two_mem ex_pageA va = (if decide (PDX va = 0 /\ PTX va = 0) then V2P ex_pageC + 7 else 0) /\
  pte_of ex_two_mem ex_pageD va = (if decide (PDX va = 0 /\ PTX va = 0) then V2P ex_pageF + 7 else 0).
Proof.
  pose proof (PDX_range va) as Hd. pose proof (PTX_range va) as Ht. unfold pte_of. destruct (ex_two_pde (PDX va) Hd) as [-> ->].
  destruct (decide (PDX va = 0)) as [E|E]; [|rewrite !decide_False by tauto; split; reflexivity].
  change (present (V2P ex_pageB + 7)) with true. change (present (V2P ex_pageE + 7)) with true. cbv iota.
  change (table (V2P ex_pageB + 7)) with ex_pageB. change (table (V2P ex_pageE + 7)) with ex_pageE.
  destruct (decide (PTX va = 0)) as [E2|E2].
  - rewrite E2, !decide_True by done. vm_compute. done.
  - rewrite !decide_False by tauto. two_loads. rewrite !load32_store32_ne by lia. done.
Qed.

Lemma first_page va : 0 <= va < KERNBASE -> PDX va = 0 /\ PTX va = 0 <-> va / 4096 = 0.
Proof.
  intros Hv. unfold KERNBASE in Hv. change (PDX va = PDX 0 /\ PTX va = PTX 0 <-> va / 4096 = 0).
  rewrite (same_page va 0) by (done || lia). dlia.
Qed.

Lemma one_page_ok dir tab pg : page_ok ex_end dir -> page_ok ex_end tab -> page_ok ex_end pg -> dir <> tab -> dir <> pg -> tab <> pg ->
  table (V2P tab + 7) = tab -> P2V (PTE_ADDR (V2P pg + 7)) = pg ->
  (forall i, 0 <= i < 1024 -> pde_at ex_two_mem dir i = (if decide (i = 0) then V2P tab + 7 else 0)) ->
  (forall va, pte_of ex_two_mem dir va = (if decide (PDX va = 0 /\ PTX va = 0) then V2P pg + 7 else 0)) ->
  uvm_ok ex_end ex_two [] dir.
Proof.
  intros P1 P2 P3 N1 N2 N3 Et Ep Hpde Hpte. constructor; [constructor| |]; cbn [km_mem ex_two].
  - constructor; [done|done|constructor].
  - repeat apply store32_ok. intros a. lia.
  - split; [done|apply not_elem_of_nil].
  - intros i Hi. rewrite Hpde by done. case_decide; [|done]. intros _. rewrite Et. split_and!; [done|apply not_elem_of_nil|congruence].
  - intros i j Hi Hj. rewrite !Hpde by done. repeat case_decide; done || lia.
  - intros va [Hr Hp]. unfold frame. rewrite Hpte in *. case_decide; [|done]. rewrite Ep. split_and!; [done|apply not_elem_of_nil|].
    intros [Ed|(i & Hi & Hpi & Ei)]; [congruence|]. rewrite Hpde in * by done. case_decide; [congruence|done].
  - intros va va' [Hr Hp] [Hr' Hp'] _. rewrite Hpte in Hp, Hp'. repeat case_decide; try done.
    rewrite (proj1 (first_page va Hr)), (proj1 (first_page va' Hr')) by done. done.
Qed.

Lemma ex_two_ok : uvm_ok ex_end ex_two [] ex_pageA /\ uvm_ok ex_end ex_two [] ex_pageD.
Proof.
  assert (P : Forall (page_ok ex_end) [ex_pageA; ex_pageB; ex_pageC; ex_pageD; ex_pageE; ex_pageF]) by (apply (bool_decide_unpack _); vm_compute; exact I).
  repeat (apply Forall_cons in P as [? P]). split.
  - apply (one_page_ok ex_pageA ex_pageB ex_pageC); [done|done|done|done|done|done|reflexivity|reflexivity|apply ex_two_pde|apply ex_two_pte].
  - apply (one_page_ok ex_pageD ex_pageE ex_pageF); [done|done|done|done|done|done|reflexivity|reflexivity|apply ex_two_pde|apply ex_two_pte].
Qed.

Lemma mycopybuffer_copies_witness :
  exists k', mycopybuffer ex_pageA ex_pageD 3 16 0 8 ex_two = Ret 0 k' /\ ubyte (km_mem k') ex_pageA 16 = 42 /\ ubyte (km_mem k') ex_pageA 24 = 0.
Proof.
  assert (Hpg : forall v, in_buf 16 8 v -> pte_of ex_two_mem ex_pageA v = V2P ex_pageC + 7).
  { intros v Hv. unfold in_buf in Hv. rewrite (proj1 (ex_two_pte v)). rewrite decide_True; [reflexivity|]. apply first_page; [unfold KERNBASE; lia|]. apply Z.div_small. lia. }
  destruct (mycopybuffer_copies ex_end ex_two [] ex_pageA ex_pageD 16 8 3) as (k' & E & Hj & Hg & _).
  - vm_compute. congruence.
  - apply ex_two_ok.
  - apply ex_two_ok.
  - unfold KERNBASE. lia.
  - unfold KERNBASE. lia.
  - intros v Hv. cbn [km_mem ex_two]. rewrite Hpg by exact Hv. reflexivity.
  - intros v Hv Ho. cbn [km_mem ex_two] in Ho. unfold frame in Ho. rewrite Hpg in Ho by exact Hv. change (P2V (PTE_ADDR (V2P ex_pageC + 7))) with ex_pageC in Ho.
    destruct Ho as [[Ed|(i & Hi & Hp & Ei)]|(va & [_ Hp] & Ef)].
    + discriminate Ed.
    + destruct (ex_two_pde i Hi) as [_ Hq]. rewrite Hq in Ei, Hp. destruct (decide (i = 0)); [discriminate Ei|discriminate Hp].
    + unfold frame in Ef. destruct (ex_two_pte va) as [_ Hq]. rewrite Hq in Ef, Hp. destruct (decide _); [discriminate Ef|discriminate Hp].
  - intros i Hi Hm. assert (Hi0 : i = 0) by (rewrite (Z.mod_small i 4096) in Hm by lia; exact Hm). rewrite Hi0. split; [reflexivity|left; reflexivity].
  - exists k'. split; [exact E|]. split; [exact (Hj 0 ltac:(lia))|exact (Hg 0 ltac:(lia))].
Defined.

(** A page that is not mapped: the guard word gets its offset, and the buffer bytes of
    physical page 0, the kernel's memory. *)
Example mycopybuffer_reads_kernel_memory :
  match mycopybuffer ex_pageA ex_pageD 4096 16 0 8 ex_two with
  | Ret r k' => r = 0 /\ ubyte (km_mem k') ex_pageA 16 = 77
  | _ => False
  end.
Proof. vm_compute. done. Qed.

(** A buffer that ends outside the caller's memory stops the kernel. *)
Example mycopybuffer_buffer_not_mapped : mycopybuffer ex_pageA ex_pageD 0 4090 0 8 ex_two = Panic "trap".
Proof. vm_compute. done. Qed.
