(* ===== verification/ProcMem.v ===== *)
(** * The memory of the processes (proc.c over vm.c and kalloc.c)

    proc.c reaches the allocator and the page tables through [ProcEnv].  Here the interface is
    implemented by Kalloc.v and Vm.v, and the pages of all processes together are accounted
    for: every page is free, or belongs to the address space or is the kernel stack of one
    process.  The calls are fork, growproc, exit and wait in any order.  Two cases are outside
    the account: threads, which share one page table (ProcProps.v says what wait does to them),
    and a growproc that shrinks a process to nothing ([growproc_to_nothing], at the end). *)

From S2P Require Import Proc ProcInv.
From S2P Require Import Prelude Mem Layout Kalloc Vm VmMap VmUser VmSpace VmCopy Dump.

(** ** Pages and their owners *)

(** What a process has of memory. *)
Record aspace := ASpace { a_pgdir : Z; a_kstack : Z; a_sz : Z }.
Definition pages_of (m : mem) (a : aspace) (w : Z) : Prop := w = a_kstack a \/ owned m (a_pgdir a) w.

Section world.
Variable end_ : Z.
Notation page_ok := (page_ok end_).

(** One process: its address space maps exactly the pages below its size. *)
Record space_ok (k : kmem) (ps : list Z) (a : aspace) : Prop := {
  so_vm : uvm_ok end_ k ps (a_pgdir a);
  so_stack : page_ok (a_kstack a) /\ a_kstack a ∉ ps /\ ~ owned (km_mem k) (a_pgdir a) (a_kstack a);
  so_size : 0 <= a_sz a < KERNBASE;
  so_in : forall v, 0 <= v < page_up (a_sz a) -> present (pte_of (km_mem k) (a_pgdir a) v) = true;
  so_out : forall v, page_up (a_sz a) <= v < KERNBASE -> present (pte_of (km_mem k) (a_pgdir a) v) = false }.

(** No page has two owners, and none is lost but those of [lost]. *)
Record world (all lost : list Z) (k : kmem) (ps : list Z) (l : list aspace) : Prop := {
  wo_free : free_ok end_ k ps;
  wo_space : forall a, a ∈ l -> space_ok k ps a;
  wo_disj : forall i j a b w, l !! i = Some a -> l !! j = Some b -> i <> j -> pages_of (km_mem k) a w -> ~ pages_of (km_mem k) b w;
  wo_all : forall w, w ∈ all -> w ∈ ps \/ (exists a, a ∈ l /\ pages_of (km_mem k) a w) \/ w ∈ lost }.

Lemma pages_page k ps a w : space_ok k ps a -> pages_of (km_mem k) a w -> page_ok w /\ w ∉ ps.
Proof.
  intros [H1 H2 _ _ _] [->|Hw]; [destruct H2 as (? & ? & _); done|]. by eapply owned_page.
Qed.

(** A process whose own pages are left alone keeps everything. *)
Lemma space_frame k ps k' ps' a : space_ok k ps a -> free_ok end_ k' ps' ->
  (forall w, pages_of (km_mem k) a w -> w ∉ ps' /\ forall x, w <= x < w + 4096 -> km_mem k' x = km_mem k x) ->
  space_ok k' ps' a /\ (forall w, pages_of (km_mem k') a w <-> pages_of (km_mem k) a w) /\
  (forall v, pte_of (km_mem k') (a_pgdir a) v = pte_of (km_mem k) (a_pgdir a) v).
Proof.
  intros [H1 (H2 & H3 & H4) H5 H6 H7] Hf Hw. destruct (owned_frame end_ k ps (a_pgdir a) k' ps' H1 Hf) as (G1 & G2 & G3).
  { intros w Ho. apply Hw. by right. }
  assert (Hp : forall w, pages_of (km_mem k') a w <-> pages_of (km_mem k) a w) by (intros w; unfold pages_of; by rewrite G3).
  split; [|done]. constructor; try done.
  - split_and!; [done| |by rewrite G3]. apply Hw. by left.
  - intros v Hv. rewrite G2. auto.
  - intros v Hv. rewrite G2. auto.
Qed.

(** Every process sees the same memory in both states. *)
Definition kept (k k' : kmem) (l : list aspace) : Prop :=
  forall a v, a ∈ l -> 0 <= v < page_up (a_sz a) ->
    pte_of (km_mem k') (a_pgdir a) v = pte_of (km_mem k) (a_pgdir a) v /\ ubyte (km_mem k') (a_pgdir a) v = ubyte (km_mem k) (a_pgdir a) v.

Lemma kept_frame k ps k' ps' l : (forall a, a ∈ l -> space_ok k ps a) -> free_ok end_ k' ps' ->
  (forall a w, a ∈ l -> pages_of (km_mem k) a w -> w ∉ ps' /\ forall x, w <= x < w + 4096 -> km_mem k' x = km_mem k x) -> kept k k' l.
Proof.
  intros Hsp Hf Hw a v Ha Hv. pose proof (Hsp a Ha) as Hs. destruct (space_frame k ps k' ps' a Hs Hf) as (_ & _ & Hp); [by intros; apply (Hw a)|].
  split; [apply Hp|]. unfold ubyte, frame. rewrite Hp. fold (frame (km_mem k) (a_pgdir a) v). apply (Hw a (frame (km_mem k) (a_pgdir a) v) Ha).
  - right. right. exists v. split; [|done]. destruct Hs as [_ _ H5 H6 _]. split; [unfold page_up, KERNBASE in *; dlia|by apply H6].
  - pose proof (Z.mod_pos_bound v 4096). lia.
Qed.

Lemma kept_trans k1 k2 k3 l : kept k1 k2 l -> kept k2 k3 l -> kept k1 k3 l.
Proof. intros H1 H2 a v Ha Hv. destruct (H1 a v Ha Hv), (H2 a v Ha Hv). split; congruence. Qed.
Lemma kept_mem k k' l : km_mem k' = km_mem k -> kept k k' l.
Proof. intros E a v _ _. by rewrite E. Qed.
Lemma kept_sub k k' l l' : kept k k' l -> l' ⊆ l -> kept k k' l'.
Proof. intros H Hl a v Ha. apply H. by apply Hl. Qed.

(** The same for all processes; pages may move between the free list and [lost]. *)
Lemma world_frame all lost lost' k ps l k' ps' : world all lost k ps l -> free_ok end_ k' ps' ->
  (forall a w, a ∈ l -> pages_of (km_mem k) a w -> w ∉ ps' /\ forall x, w <= x < w + 4096 -> km_mem k' x = km_mem k x) ->
  (forall w, w ∈ ps \/ w ∈ lost -> w ∈ ps' \/ w ∈ lost') -> world all lost' k' ps' l.
Proof.
  intros [W1 W2 W3 W4] Hf Hw Hl. assert (Hs : forall a, a ∈ l -> space_ok k' ps' a /\ (forall w, pages_of (km_mem k') a w <-> pages_of (km_mem k) a w)).
  { intros a Ha. destruct (space_frame k ps k' ps' a (W2 a Ha) Hf) as (? & ? & _); [by intros; apply (Hw a)|done]. }
  constructor.
  - done.
  - intros a Ha. by apply Hs.
  - intros i j a b w Hi Hj Hne. rewrite (proj2 (Hs a (list_elem_of_lookup_2 _ _ _ Hi))), (proj2 (Hs b (list_elem_of_lookup_2 _ _ _ Hj))). by apply (W3 i j).
  - intros w Hall. destruct (W4 w Hall) as [H|[(a & Ha & H)|H]].
    + destruct (Hl w) as [?|?]; [by left|by left|right; by right].
    + right; left. exists a. split; [done|]. by apply Hs.
    + destruct (Hl w) as [?|?]; [by right|by left|right; by right].
Qed.

(** The order of the processes does not matter. *)
#[export] Instance world_perm all lost k ps : Proper ((≡ₚ) ==> iff) (world all lost k ps).
Proof.
  assert (H : forall l l', l ≡ₚ l' -> world all lost k ps l -> world all lost k ps l').
  { intros l l' Hp [W1 W2 W3 W4]. constructor; [done| | |].
    - intros a. rewrite <- Hp. apply W2.
    - intros i j a b w Hi Hj Hne. symmetry in Hp. apply Permutation_inj in Hp as (_ & f & Hinj & Hf). rewrite Hf in Hi, Hj. by eapply W3; [exact Hi|exact Hj|intros E; apply Hne; by apply Hinj].
    - intros w Hw. destruct (W4 w Hw) as [?|[(a & Ha & ?)|?]]; [by left| |right; by right]. right; left. exists a. by rewrite <- Hp. }
  intros l l' Hp. split; [by apply H|by apply H; symmetry].
Qed.

Lemma world_cons all lost k ps a l : world all lost k ps (a :: l) ->
  space_ok k ps a /\ (forall b w, b ∈ l -> pages_of (km_mem k) a w -> ~ pages_of (km_mem k) b w) /\
  forall lost', (forall w, pages_of (km_mem k) a w \/ w ∈ lost -> w ∈ lost') -> world all lost' k ps l.
Proof.
  intros [W1 W2 W3 W4]. split_and!.
  - apply W2. left.
  - intros b w (i & Hi)%list_elem_of_lookup_1. by apply (W3 0%nat (S i)).
  - intros lost' Hl. constructor; [done| | |].
    + intros b Hb. apply W2. by right.
    + intros i j b c w Hi Hj Hne. apply (W3 (S i) (S j)); [done|done|lia].
    + intros w Hw. destruct (W4 w Hw) as [?|[(b & Hb & ?)|?]]; [by left| |right; right; auto].
      apply elem_of_cons in Hb as [->|Hb]; [right; right; auto|right; left; by exists b].
Qed.

Lemma world_add all lost lost' k ps a l : world all lost k ps l -> space_ok k ps a ->
  (forall b w, b ∈ l -> pages_of (km_mem k) a w -> ~ pages_of (km_mem k) b w) ->
  (forall w, w ∈ lost -> pages_of (km_mem k) a w \/ w ∈ lost') -> world all lost' k ps (a :: l).
Proof.
  intros [W1 W2 W3 W4] Ha Hd Hl. constructor; [done| | |].
  - intros b [->|Hb]%elem_of_cons; auto.
  - intros [|i] [|j] b c w Hi Hj Hne; simpl in Hi, Hj; [done| | |].
    + injection Hi as <-. apply Hd. by eapply list_elem_of_lookup_2.
    + injection Hj as <-. intros Hb Ha'. by eapply Hd; [eapply list_elem_of_lookup_2; exact Hi|exact Ha'|].
    + apply (W3 i j); [done|done|lia].
  - intros w Hw. destruct (W4 w Hw) as [?|[(b & Hb & ?)|?]]; [by left| |].
    + right; left. exists b. split; [by right|done].
    + destruct (Hl w) as [?|?]; [done| |right; by right]. right; left. exists a. split; [left|done].
Qed.

(** A page that is in nobody's hands: not free and of no process. *)
Definition loose (k : kmem) (ps : list Z) (l : list aspace) (v : Z) : Prop :=
  page_ok v /\ v ∉ ps /\ forall a, a ∈ l -> ~ pages_of (km_mem k) a v.

(** *** kalloc and kfree *)

Lemma world_kalloc all lost k v ps l : world all lost k (v :: ps) l ->
  exists k1, kalloc k = Ret v k1 /\ v <> 0 /\ km_mem k1 = km_mem k /\ world all (v :: lost) k1 ps l /\ loose k1 ps l v.
Proof.
  intros W. pose proof (wo_free _ _ _ _ _ W) as [Hwf Hby]. destruct (kalloc_wf end_ k _ Hwf) as (r & k1 & E & Em & _ & -> & Hwf1).
  assert (Hv : page_ok v) by (eapply free_page_ok; [exact Hwf|left]). pose proof Hwf as [_ _ [Hn _]%NoDup_cons]. exists k1. split; [done|].
  split; [apply page_ok_range in Hv; unfold KERNBASE in Hv; lia|]. split; [done|]. split; [|split_and!; [done|done|]].
  - eapply world_frame; [exact W|split; [done|by rewrite Em]| |].
    + intros a w Ha Hw. destruct (pages_page k _ a w (wo_space _ _ _ _ _ W a Ha) Hw) as [_ Hp]. rewrite Em. split; [set_solver|done].
    + set_solver.
  - intros a Ha. rewrite Em. intros Hw. destruct (pages_page k _ a v (wo_space _ _ _ _ _ W a Ha) Hw) as [_ Hp]. apply Hp. left.
Qed.

Lemma world_kfree all lost k ps l v : world all (v :: lost) k ps l -> loose k ps l v ->
  exists k', kfree end_ v k = Ret tt k' /\ world all lost k' (v :: ps) l /\ kept k k' l.
Proof.
  intros W (Hv & Hn & Hl). destruct (kfree_free_ok end_ k ps v (wo_free _ _ _ _ _ W) Hv Hn) as (k' & E & Hf & Hx). exists k'. split; [done|].
  assert (Hsame : forall a w, a ∈ l -> pages_of (km_mem k) a w -> w ∉ v :: ps /\ forall x, w <= x < w + 4096 -> km_mem k' x = km_mem k x).
  { intros a w Ha Hw. destruct (pages_page k _ a w (wo_space _ _ _ _ _ W a Ha) Hw) as [Hp Hnp]. assert (w <> v) by (intros ->; by apply (Hl a)).
    split; [set_solver|]. intros x Hxw. apply Hx. by apply (page_ok_disjoint end_ v w). }
  split; [eapply world_frame; [exact W|done|exact Hsame|set_solver]|]. by eapply kept_frame; [apply W|exact Hf|exact Hsame].
Qed.

(** One process changes with pages of its own and of the free list. *)
Lemma world_change all lost k ps a l k' ps' a' : world all lost k ps (a :: l) -> space_ok k' ps' a' ->
  (forall w, pages_of (km_mem k') a' w \/ w ∈ ps' -> pages_of (km_mem k) a w \/ w ∈ ps) ->
  (forall w, pages_of (km_mem k) a w \/ w ∈ ps -> pages_of (km_mem k') a' w \/ w ∈ ps') ->
  (forall w x, page_ok w -> w ∉ ps -> ~ pages_of (km_mem k) a w -> w <= x < w + 4096 -> km_mem k' x = km_mem k x) ->
  world all lost k' ps' (a' :: l) /\ kept k k' l.
Proof.
  intros W Ha' Hsub Hsup Hdata. destruct (world_cons _ _ _ _ _ _ W) as (Ha & Hd & Hl). pose proof (wo_space _ _ _ _ _ W) as Wsp.
  pose proof (uvm_free end_ _ _ _ (so_vm _ _ _ Ha')) as Hf.
  assert (Hsame : forall b w, b ∈ l -> pages_of (km_mem k) b w -> w ∉ ps' /\ forall x, w <= x < w + 4096 -> km_mem k' x = km_mem k x).
  { intros b w Hb Hw. destruct (pages_page k ps b w (Wsp b ltac:(by right)) Hw) as [Hp Hn].
    assert (Hna : ~ pages_of (km_mem k) a w) by (intros Haw; by apply (Hd b w)). split; [|intros x; by apply Hdata].
    intros Hw'. destruct (Hsub w) as [?|?]; [by right|done|done]. }
  assert (Hown : forall b w, b ∈ l -> pages_of (km_mem k') b w <-> pages_of (km_mem k) b w).
  { intros b w Hb. destruct (space_frame k ps k' ps' b (Wsp b ltac:(by right)) Hf) as (_ & Hp & _); [by intros; apply (Hsame b)|apply Hp]. }
  split; [|eapply kept_frame; [intros b Hb; apply Wsp; by right|exact Hf|exact Hsame]].
  constructor; [done| | |].
  - intros b [->|Hb]%elem_of_cons; [done|]. destruct (space_frame k ps k' ps' b (Wsp b ltac:(by right)) Hf) as (? & _); [by intros; apply (Hsame b)|done].
  - assert (Hd' : forall b w, b ∈ l -> pages_of (km_mem k') a' w -> ~ pages_of (km_mem k') b w).
    { intros b w Hb Hw. rewrite Hown by done. intros Hbw. destruct (pages_page k ps b w (Wsp b ltac:(by right)) Hbw) as [_ Hn].
      destruct (Hsub w) as [?|?]; [by left| |done]. by apply (Hd b w). }
    intros [|i] [|j] b c w Hi Hj Hne; simpl in Hi, Hj; [done| | |].
    + injection Hi as <-. apply Hd'. by eapply list_elem_of_lookup_2.
    + injection Hj as <-. intros Hb Hw. by eapply Hd'; [eapply list_elem_of_lookup_2; exact Hi|exact Hw|].
    + rewrite !Hown by (eapply list_elem_of_lookup_2; done). apply (wo_disj _ _ _ _ _ W (S i) (S j)); [done|done|lia].
  - intros w Hw. destruct (wo_all _ _ _ _ _ W w Hw) as [Hp|[(b & Hb & Hp)|?]]; [| |right; by right].
    + destruct (Hsup w) as [?|?]; [by right| |by left]. right; left. exists a'. split; [left|done].
    + apply elem_of_cons in Hb as [->|Hb]; [|right; left; exists b; split; [by right|by apply Hown]].
      destruct (Hsup w) as [?|?]; [by left| |by left]. right; left. exists a'. split; [left|done].
Qed.

Hypothesis end_high : KERNBASE < end_.

(** *** Giving everything back *)

Lemma world_reap all lost k ps a l : world all lost k ps (a :: l) ->
  exists k1 k' ps', kfree end_ (a_kstack a) k = Ret tt k1 /\ freevm end_ (a_pgdir a) k1 = Ret tt k' /\ world all lost k' ps' l /\
    kept k k' l /\ forall w, w ∈ ps' <-> w ∈ ps \/ pages_of (km_mem k) a w.
Proof.
  intros W. destruct (world_cons _ _ _ _ _ _ W) as (Ha & Hd & Hl). pose proof Ha as [A1 (A2 & A3 & A4) _ _ _]. pose proof (wo_space _ _ _ _ _ W) as Wsp.
  destruct (kfree_free_ok end_ k ps (a_kstack a) (wo_free _ _ _ _ _ W) A2 A3) as (k1 & E1 & Hf1 & Hx1).
  assert (Hst : forall w, page_ok w -> w <> a_kstack a -> forall x, w <= x < w + 4096 -> km_mem k1 x = km_mem k x).
  { intros w Hp Hne x Hx. apply Hx1. by apply (page_ok_disjoint end_ (a_kstack a) w). }
  destruct (owned_frame end_ k ps (a_pgdir a) k1 (a_kstack a :: ps) A1 Hf1) as (B1 & _ & B3).
  { intros w Hw. destruct (owned_page end_ _ _ _ _ A1 Hw) as [Hp Hn]. assert (w <> a_kstack a) by (by intros ->). split; [set_solver|by apply Hst]. }
  destruct (freevm_spec end_ end_high k1 _ (a_pgdir a) B1) as (k' & ps' & E2 & Hf2 & Hps & Hx2). exists k1, k', ps'. split; [done|]. split; [done|].
  assert (Hiff : forall w, w ∈ ps' <-> w ∈ ps \/ pages_of (km_mem k) a w) by (intros w; rewrite Hps, B3, elem_of_cons; unfold pages_of; tauto).
  assert (Hsame : forall b w, b ∈ l -> pages_of (km_mem k) b w -> w ∉ ps' /\ forall x, w <= x < w + 4096 -> km_mem k' x = km_mem k x).
  { intros b w Hb Hw. destruct (pages_page k ps b w (Wsp b ltac:(by right)) Hw) as [Hp Hn].
    assert (Hna : ~ pages_of (km_mem k) a w) by (intros Haw; by apply (Hd b w)). split; [rewrite Hiff; tauto|].
    intros x Hx. rewrite (Hx2 w x); [|done|rewrite Hiff; tauto|done]. apply (Hst w); [done| |done]. intros ->. apply Hna. by left. }
  split; [|split; [eapply kept_frame; [intros b Hb; apply Wsp; by right|exact Hf2|exact Hsame]|done]].
  pose (own := filter (fun w => w ∉ ps) ps'). apply (world_frame all (own ++ lost) lost k ps l k' ps').
  - apply Hl. intros w [Hw|Hw]; apply elem_of_app; [left|by right]. apply list_elem_of_filter. split; [|apply Hiff; by right]. by eapply pages_page.
  - done.
  - exact Hsame.
  - intros w [Hw|Hw]; [left; apply Hiff; by left|]. apply elem_of_app in Hw as [[_ Hw]%list_elem_of_filter|Hw]; [by left|by right].
Qed.

(** *** Growing and shrinking *)

Lemma world_extended all lost k ps a l newsz k' ps' : world all lost k ps (a :: l) -> a_sz a <= newsz -> newsz < KERNBASE ->
  extended end_ k ps (a_pgdir a) (page_up (a_sz a)) (page_up newsz) [] k' ps' ->
  world all lost k' ps' (ASpace (a_pgdir a) (a_kstack a) newsz :: l) /\ kept k k' l.
Proof.
  intros W Hn Hb X. destruct (world_cons _ _ _ _ _ _ W) as (Ha & _). pose proof Ha as [A1 (A2 & A3 & A4) A5 A6 A7].
  pose proof (page_up_bounds (a_sz a)) as B1. pose proof (page_up_bounds newsz) as B2. pose proof (page_up_mono (a_sz a) newsz ltac:(lia)) as B3. unfold KERNBASE in *.
  assert (Hup : page_up newsz <= 2147483648) by (unfold page_up; dlia).
  destruct X as [X1 X2 X3 X4 X5 X6 X7 X8].
  assert (Hown1 : forall w, owned (km_mem k') (a_pgdir a) w -> owned (km_mem k) (a_pgdir a) w \/ w ∈ ps).
  { intros w [Ht|(va & [Hva Hp] & <-)]; [destruct (X5 w Ht); [left; by left|by right]|].
    destruct (decide (page_up (a_sz a) <= va < page_up newsz)) as [Hr|Hr]; [right; by apply X4|]. unfold KERNBASE in Hva. left. right. exists va.
    unfold mapped_at, frame, KERNBASE. rewrite X3 in * by lia. done. }
  assert (Hown2 : forall w, owned (km_mem k) (a_pgdir a) w -> owned (km_mem k') (a_pgdir a) w).
  { intros w [Ht|(va & [Hva Hp] & <-)]; [left; by apply X8|]. right. exists va. assert (~ (page_up (a_sz a) <= va < page_up newsz)).
    { intros Hr. rewrite A7 in Hp; [done|lia]. } unfold mapped_at, frame, KERNBASE in *. rewrite X3 by lia. done. }
  apply (world_change all lost k ps a l k' ps' _ W).
  - constructor; cbn [a_pgdir a_kstack a_sz]; [done| |unfold KERNBASE; lia| |].
    + split_and!; [done|by intros ?%X2|]. intros [?|?]%Hown1; done.
    + intros v Hv. destruct (decide (page_up (a_sz a) <= v)); [apply user_flags_present; apply (X4 v); lia|]. rewrite X3 by lia. apply A6. lia.
    + intros v Hv. unfold KERNBASE in Hv. rewrite X3 by lia. apply A7. unfold KERNBASE. lia.
  - intros w [[->|Hw]|Hw]; [left; by left| |right; by apply X2]. destruct (Hown1 w Hw); [left; by right|by right].
  - intros w [[->|Hw]|Hw]; [left; by left|left; right; by apply Hown2|]. destruct (X6 w Hw) as [?|[?|(va & Hva & <-)]]; [by right|left; right; by left|].
    left; right; right. exists va. split; [|done]. split; [unfold KERNBASE; lia|]. apply user_flags_present. by apply X4.
  - intros w x Hp Hn' Hna Hx. apply (X7 w); try done. intros Ht. apply Hna. right. by left.
Qed.

Lemma world_rolled_back all lost k ps a l newsz k' ps' : world all lost k ps (a :: l) -> a_sz a <= newsz -> newsz < KERNBASE ->
  rolled_back end_ k ps (a_pgdir a) (page_up (a_sz a)) (page_up newsz) [] k' ps' -> world all lost k' ps' (a :: l) /\ kept k k' l.
Proof.
  intros W Hn Hb X. destruct (world_cons _ _ _ _ _ _ W) as (Ha & _). pose proof Ha as [A1 (A2 & A3 & A4) A5 A6 A7].
  pose proof (page_up_bounds (a_sz a)) as B1. pose proof (page_up_bounds newsz) as B2. pose proof (page_up_mono (a_sz a) newsz ltac:(lia)) as B3. unfold KERNBASE in *.
  assert (Hup : page_up newsz <= 2147483648) by (unfold page_up; dlia).
  destruct X as [X1 X2 X3 X4 X5 X6 X7 X8].
  assert (Hpte : forall v, 0 <= v < 2147483648 -> present (pte_of (km_mem k') (a_pgdir a) v) = present (pte_of (km_mem k) (a_pgdir a) v)).
  { intros v Hv. destruct (decide (page_up (a_sz a) <= v < page_up newsz)) as [Hr|Hr]; [rewrite X3, A7 by (unfold KERNBASE in *; lia); done|]. by rewrite X2 by lia. }
  assert (Hfr : forall v, mapped_at (km_mem k) (a_pgdir a) v -> frame (km_mem k') (a_pgdir a) v = frame (km_mem k) (a_pgdir a) v).
  { intros v [Hv Hp]. unfold KERNBASE in Hv. unfold frame. rewrite X2; [done|lia|]. intros Hr. rewrite A7 in Hp by lia. done. }
  assert (Hown1 : forall w, owned (km_mem k') (a_pgdir a) w -> owned (km_mem k) (a_pgdir a) w \/ w ∈ ps).
  { intros w [Ht|(va & [Hva Hp] & <-)]; [destruct (X7 w Ht); [left; by left|by right]|]. unfold KERNBASE in Hva. rewrite Hpte in Hp by lia.
    left. right. exists va. split; [by split|]. symmetry. apply Hfr. by split. }
  assert (Hown2 : forall w, owned (km_mem k) (a_pgdir a) w -> owned (km_mem k') (a_pgdir a) w).
  { intros w [Ht|(va & [Hva Hp] & <-)]; [left; by apply X8|]. right. exists va. unfold KERNBASE in Hva. split; [split; [done|by rewrite Hpte]|]. apply Hfr. by split. }
  apply (world_change all lost k ps a l k' ps' _ W).
  - constructor; [done| |done| |].
    + split_and!; [done|by intros ?%X4|]. intros [?|?]%Hown1; done.
    + intros v Hv. rewrite Hpte by lia. auto.
    + intros v Hv. unfold KERNBASE in Hv. rewrite Hpte by lia. auto.
  - intros w [[->|Hw]|Hw]; [left; by left| |right; by apply X4]. destruct (Hown1 w Hw); [left; by right|by right].
  - intros w [[->|Hw]|Hw]; [left; by left|left; right; by apply Hown2|]. destruct (X5 w Hw) as [?|?]; [by right|left; right; by left].
  - intros w x Hp Hn' Hna Hx. apply (X6 w); try done. intros Ht. apply Hna. right. by left.
Qed.

Lemma world_allocuvm all lost k ps a l newsz : world all lost k ps (a :: l) -> 0 <= newsz ->
  exists r k' ps', allocuvm end_ (a_pgdir a) (a_sz a) newsz k = Ret r k' /\
    world all lost k' ps' ((if r =? 0 then a else ASpace (a_pgdir a) (a_kstack a) r) :: l) /\ kept k k' l.
Proof.
  intros W Hn. destruct (world_cons _ _ _ _ _ _ W) as (Ha & _). pose proof Ha as [A1 _ A5 _ A7].
  destruct (decide (KERNBASE <= newsz)) as [Hbig|Hbig].
  { exists 0, k, ps. unfold allocuvm. rewrite (proj2 (Z.leb_le _ _)) by lia. split; [done|]. split; [done|by apply kept_mem]. }
  destruct (decide (newsz < a_sz a)) as [Hsm|Hsm].
  { exists (a_sz a), k, ps. unfold allocuvm. rewrite (proj2 (Z.leb_gt _ _)), (proj2 (Z.ltb_lt _ _)) by lia. split; [done|]. split; [|by apply kept_mem]. destruct (_ =? 0); [done|]. by destruct a. }
  destruct (allocuvm_spec end_ end_high k ps (a_pgdir a) (a_sz a) newsz A1) as (r & k' & ps' & E & Hr); [lia|lia| |].
  { intros v Hv. apply A7. unfold page_up, KERNBASE in *. dlia. }
  exists r, k', ps'. split; [done|]. destruct Hr as [[-> X]|[-> X]]; [|rewrite Z.eqb_refl; exact (world_rolled_back all lost k ps a l newsz k' ps' W ltac:(lia) ltac:(lia) X)].
  pose proof (world_extended all lost k ps a l newsz k' ps' W ltac:(lia) ltac:(lia) X) as [Hnew Hk]. split; [|done]. destruct (Z.eqb_spec newsz 0) as [H0|_]; [|done].
  assert (Hz : a_sz a = newsz) by lia. rewrite <- Hz in Hnew. by destruct a.
Qed.

Lemma world_deallocuvm all lost k ps a l newsz : world all lost k ps (a :: l) -> 0 <= newsz ->
  exists k' ps', deallocuvm end_ (a_pgdir a) (a_sz a) newsz k = Ret (Z.min (a_sz a) newsz) k' /\
    world all lost k' ps' (ASpace (a_pgdir a) (a_kstack a) (Z.min (a_sz a) newsz) :: l) /\ kept k k' l.
Proof.
  intros W Hn. destruct (world_cons _ _ _ _ _ _ W) as (Ha & _). pose proof Ha as [A1 (A2 & A3 & A4) A5 A6 A7].
  destruct (decide (a_sz a <= newsz)) as [Hbig|Hbig].
  { exists k, ps. unfold deallocuvm. rewrite (proj2 (Z.leb_le _ _)), Z.min_l by lia. split; [done|]. split; [by destruct a|by apply kept_mem]. }
  rewrite Z.min_r by lia. destruct (deallocuvm_spec end_ end_high k ps (a_pgdir a) (a_sz a) newsz A1) as (k' & ps' & E & X); [lia|lia|].
  exists k', ps'. split; [done|]. destruct X as [X1 X2 X3 X4 X5]. pose proof (page_up_mono newsz (a_sz a) ltac:(lia)) as B.
  pose proof (page_up_bounds newsz) as B2. unfold KERNBASE in *. assert (B3 : page_up (a_sz a) <= 2147483648) by (unfold page_up; dlia).
  assert (Hlow : forall v, 0 <= v < 4294967296 -> ~ (page_up newsz <= v < page_up (a_sz a)) -> pte_of (km_mem k') (a_pgdir a) v = pte_of (km_mem k) (a_pgdir a) v).
  { intros v Hv Hr. rewrite X2 by done. by rewrite decide_False by tauto. }
  assert (Hgone : forall v, page_up newsz <= v < page_up (a_sz a) -> present (pte_of (km_mem k') (a_pgdir a) v) = false).
  { intros v Hv. rewrite X2, decide_True by (lia || (split; [done|apply A6; lia])). done. }
  assert (Hown : forall w, owned (km_mem k) (a_pgdir a) w <-> owned (km_mem k') (a_pgdir a) w \/
    exists va, page_up newsz <= va < page_up (a_sz a) /\ mapped_at (km_mem k) (a_pgdir a) va /\ frame (km_mem k) (a_pgdir a) va = w).
  { intros w. unfold owned. rewrite X4. split.
    - intros [Ht|(va & Hva & <-)]; [left; by left|]. destruct (decide (page_up newsz <= va < page_up (a_sz a))); [right; by exists va|].
      left; right. exists va. destruct Hva as [Hva Hp]. unfold mapped_at, frame, KERNBASE in *. rewrite Hlow by lia. done.
    - intros [[Ht|(va & [Hva Hp] & <-)]|(va & _ & Hva & <-)]; [by left| |right; by exists va]. right. exists va. unfold mapped_at, frame, KERNBASE in *.
      assert (~ (page_up newsz <= va < page_up (a_sz a))) by (intros Hr; by rewrite Hgone in Hp). rewrite Hlow in * by lia. done. }
  apply (world_change all lost k ps a l k' ps' _ W).
  - constructor; cbn [a_pgdir a_kstack a_sz]; [done| |unfold KERNBASE; lia| |].
    + split_and!; [done| |intros Ho; apply A4, Hown; by left]. intros [?|(va & Hva & Hm & Ef)]%X3; [done|]. apply A4. rewrite <- Ef. right. by exists va.
    + intros v Hv. rewrite Hlow by lia. apply A6. lia.
    + intros v Hv. unfold KERNBASE in Hv. destruct (decide (v < page_up (a_sz a))); [apply Hgone; lia|]. rewrite Hlow by lia. apply A7. unfold KERNBASE. lia.
  - intros w [[->|Hw]|Hw]; [left; by left|left; right; apply Hown; by left|]. apply X3 in Hw as [?|(va & Hva & Hm & <-)]; [by right|]. left; right; right. by exists va.
  - intros w [[->|Hw]|Hw]; [left; by left| |right; apply X3; by left]. apply Hown in Hw as [?|?]; [left; by right|right; apply X3; by right].
  - intros w x Hp Hn' Hna Hx. apply (X5 w); try done.
    + intros [?|(va & Hva & Hm & Ef)]%X3; [done|]. apply Hna. right. right. by exists va.
    + intros Ht. apply Hna. right. by left.
Qed.

(** *** copyuvm: a new process *)

Variable data : Z.
Hypothesis data_aligned : data mod PGSIZE = 0.
Hypothesis data_range : KERNLINK < data < KERNBASE + PHYSTOP.

Lemma world_copyuvm all lost k ps l ks a : world all (ks :: lost) k ps l -> loose k ps l ks -> a ∈ l ->
  exists r k' ps', copyuvm end_ data (a_pgdir a) (a_sz a) k = Ret r k' /\
    ((r <> 0 /\ world all lost k' ps' (ASpace r ks (a_sz a) :: l) /\
      (forall v, 0 <= v < page_up (a_sz a) -> PTE_FLAGS (pte_of (km_mem k') r v) = PTE_FLAGS (pte_of (km_mem k) (a_pgdir a) v) /\
         ubyte (km_mem k') r v = ubyte (km_mem k) (a_pgdir a) v)) \/
     (r = 0 /\ exists lost1, (length lost1 <= 1)%nat /\ world all (ks :: lost1 ++ lost) k' ps' l /\ loose k' ps' l ks)) /\ kept k k' l.
Proof.
  intros W (Hk1 & Hk2 & Hk3) Ha. destruct (wo_space _ _ _ _ _ W a Ha) as [A1 A2 A3 A4 A5]. pose proof (wo_space _ _ _ _ _ W) as Wsp.
  destruct (copyuvm_spec end_ end_high data data_aligned data_range k ps (a_pgdir a) (a_sz a) A1) as (r & k' & ps' & E & Hr); [lia|done|].
  assert (Hpg : forall b w, b ∈ l -> pages_of (km_mem k) b w -> page_ok w /\ w ∉ ps) by (intros; eapply pages_page; [apply Wsp|]; done).
  exists r, k', ps'. split; [done|]. destruct Hr as [(Hr & Hs & _ & Hc1 & Hc2)|(-> & lost1 & Hl1 & Hf & Hps & Hdata)].
  - destruct Hs as [S1 S2 S3 S4 S5]. pose proof (uvm_free end_ _ _ _ S1) as Hf.
    assert (Hsame : forall b w, b ∈ l -> pages_of (km_mem k) b w -> w ∉ ps' /\ forall x, w <= x < w + 4096 -> km_mem k' x = km_mem k x).
    { intros b w Hb Hw. destruct (Hpg b w Hb Hw) as [Hp Hn]. split; [by intros ?%S2|]. intros x. by apply S5. }
    assert (Hown : forall b w, b ∈ l -> pages_of (km_mem k') b w <-> pages_of (km_mem k) b w).
    { intros b w Hb. destruct (space_frame k ps k' ps' b (Wsp b Hb) Hf) as (_ & Hp & _); [by intros; apply (Hsame b)|apply Hp]. }
    assert (Hout : forall w, w ∈ ps -> w ∈ ps' \/ w ∈ ks :: filter (fun w => w ∉ ps') ps ++ lost).
    { intros w Hw. destruct (decide (w ∈ ps')); [by left|]. right. right. apply elem_of_app. left. by apply list_elem_of_filter. }
    split; [|by eapply kept_frame]. left. split; [done|]. split; [|done].
    apply (world_add all (ks :: filter (fun w => w ∉ ps') ps ++ lost)).
    + eapply world_frame; [exact W|done|by intros; eapply Hsame|]. intros w [Hw|Hw]; [by apply Hout|right; set_solver].
    + constructor; cbn [a_pgdir a_kstack a_sz]; [done| |done| |].
      * split_and!; [done|by intros ?%S2|]. by intros ?%S3.
      * intros v Hv. rewrite present_bit. rewrite (proj1 (Hc1 v Hv)). rewrite <- present_bit. auto.
      * done.
    + intros b w Hb Hw Hbw. rewrite Hown in Hbw by done. destruct (Hpg b w Hb Hbw) as [_ Hn]. destruct Hw as [->|Hw]; [by apply (Hk3 b)|]. by apply Hn, S3.
    + intros w [->|[[Hn Hw]%list_elem_of_filter|Hw]%elem_of_app]%elem_of_cons; [left; by left| |by right].
      destruct (S4 w Hw) as [?|?]; [done|]. left. by right.
  - assert (Hsame : forall w, page_ok w -> w ∉ ps -> w ∉ ps' /\ forall x, w <= x < w + 4096 -> km_mem k' x = km_mem k x).
    { intros w Hp Hn. split; [by intros [? _]%Hps|]. intros x. by apply Hdata. }
    assert (Hall : forall b w, b ∈ l -> pages_of (km_mem k) b w -> w ∉ ps' /\ forall x, w <= x < w + 4096 -> km_mem k' x = km_mem k x).
    { intros b w Hb Hw. by apply Hsame; eapply Hpg. }
    split; [|by eapply kept_frame]. right. split; [done|]. exists lost1. split; [destruct Hl1 as [->|(x & _ & ->)]; simpl; lia|]. split.
    + eapply world_frame; [exact W|done|exact Hall|]. intros w [Hw|Hw]; [|right; set_solver].
      destruct (decide (w ∈ lost1)); [right; set_solver|]. left. by apply Hps.
    + split_and!; [done|by apply Hsame|]. intros b Hb. destruct (space_frame k ps k' ps' b (Wsp b Hb) Hf) as (_ & Hp & _); [by intros; apply (Hall b)|].
      rewrite Hp. by apply Hk3.
Qed.

End world.

(** ** The environment of the processes *)

(** The open files and inodes, as proc.c uses them. *)
Class ProcFiles (F : Type) := {
  pf_filedup : Z -> K F Z;
  pf_fileclose : Z -> K F unit;
  pf_idup : Z -> K F Z;
  pf_iput : Z -> K F unit;
  pf_begin_op : K F unit;
  pf_end_op : K F unit;
  pf_namei_root : K F Z }.

(** Memory, the page-table register and the files. *)
Record menv (F : Type) := MEnv { me_km : kmem; me_cr3 : Z; me_files : F }.
Arguments MEnv {F} _ _ _.
Arguments me_km {F} _.
Arguments me_cr3 {F} _.
Arguments me_files {F} _.

Definition on_mem {F A} (c : K kmem A) : K (menv F) A := kzoom me_km (fun k e => MEnv k (me_cr3 e) (me_files e)) c.
Definition on_files {F A} (c : K F A) : K (menv F) A := kzoom me_files (fun f e => MEnv (me_km e) (me_cr3 e) f) c.

(** A word read at a user address, through a page table. *)
Definition vload (pg va : Z) : K kmem Z :=
  kget (fun k => let b i := ubyte (km_mem k) pg (va + i) in b 0 + 256 * b 1 + 65536 * b 2 + 16777216 * b 3).

Section procmem.
Context {F : Type} `{ProcFiles F}.
(** Linker symbols, the program image of the first process, the kernel's page table and the
    addresses of forkret and trapret. *)
Variables end_ data init init_size kpgdir forkret_a trapret_a : Z.

(** switchuvm and switchkvm act here by the page table they load; the descriptors that
    switchuvm also sets are in Exec.v.  Open files and inodes stay an interface. *)
#[export] Instance mem_env : ProcEnv (menv F) := {
  env_kalloc := on_mem kalloc;
  env_kfree v := on_mem (kfree end_ v);
  env_setupkvm := on_mem (setupkvm end_ data);
  env_inituvm pg := on_mem (inituvm pg init init_size);
  env_allocuvm pg o n := on_mem (allocuvm end_ pg o n);
  env_deallocuvm pg o n := on_mem (deallocuvm end_ pg o n);
  env_copyuvm pg n := on_mem (copyuvm end_ data pg n);
  env_freevm pg := on_mem (freevm end_ pg);
  env_switchuvm pg := kmodify (fun e => MEnv (me_km e) (V2P pg) (me_files e));
  env_switchkvm := kmodify (fun e => MEnv (me_km e) (V2P kpgdir) (me_files e));
  env_store pg va w := on_mem (vstore_bytes pg va (word_bytes w));
  env_xchg pg va w := on_mem (let! old := vload pg va in vstore_bytes pg va (word_bytes w) ;; kret old);
  env_filedup f := on_files (pf_filedup f);
  env_fileclose f := on_files (pf_fileclose f);
  env_idup i := on_files (pf_idup i);
  env_iput i := on_files (pf_iput i);
  env_begin_op := on_files pf_begin_op;
  env_end_op := on_files pf_end_op;
  env_namei_root := on_files pf_namei_root;
  forkret_addr := forkret_a;
  trapret_addr := trapret_a
}.

Notation PT := (ptable (menv F)).
Definition km (s : PT) : kmem := me_km (penv s).

(** *** The processes in use *)

Definition space_of (p : proc) : aspace := ASpace (pgdir p) (kstack p) (sz p).
Definition spaces (l : list proc) : list aspace := space_of <$> filter (fun p => state p <> UNUSED) l.

(** Entry [i] and the others. *)
Lemma spaces_at l i : (i < length l)%nat -> exists rest,
  spaces l ≡ₚ (if decide (state (nth i l zero_proc) <> UNUSED) then [space_of (nth i l zero_proc)] else []) ++ rest /\
  (forall q, spaces (<[i := q]> l) ≡ₚ (if decide (state q <> UNUSED) then [space_of q] else []) ++ rest) /\
  (forall j, j <> i -> state (nth j l zero_proc) <> UNUSED -> space_of (nth j l zero_proc) ∈ rest).
Proof.
  intros Hi. exists (spaces (take i l) ++ spaces (drop (S i) l)).
  assert (Hq : forall q, spaces (<[i := q]> l) ≡ₚ (if decide (state q <> UNUSED) then [space_of q] else []) ++ spaces (take i l) ++ spaces (drop (S i) l)).
  { intros q. rewrite insert_take_drop by done. unfold spaces. rewrite filter_app, fmap_app, filter_cons.
    destruct (decide (state q <> UNUSED)); [|done]. rewrite fmap_cons. simpl. by rewrite Permutation_middle. }
  split_and!; [|done|].
  - rewrite <- Hq. rewrite list_insert_id; [done|]. destruct (lookup_lt_is_Some_2 l i Hi) as (p & Hp). by rewrite (nth_lookup_Some _ _ _ _ Hp).
  - intros j Hj Hs. unfold spaces. rewrite <- fmap_app, <- filter_app. apply list_elem_of_fmap_2, list_elem_of_filter. split; [done|].
    rewrite <- delete_take_drop. rewrite nth_lookup in *. destruct (l !! j) as [p|] eqn:E; [|done]. simpl. apply list_elem_of_lookup.
    destruct (decide (j < i)%nat); [exists j; by rewrite list_lookup_delete_lt by lia|]. exists (pred j). rewrite list_lookup_delete_ge by lia. by replace (S (pred j)) with j by lia.
Qed.

Lemma alter_insert (f : proc -> proc) i l : (i < length l)%nat -> alter f i l = <[i := f (nth i l zero_proc)]> l.
Proof.
  intros Hi. destruct (lookup_lt_is_Some_2 l i Hi) as (p & Hp). rewrite (nth_lookup_Some _ _ _ _ Hp).
  apply list_eq. intros j. destruct (decide (i = j)) as [<-|]; [|by rewrite list_lookup_alter_ne, list_lookup_insert_ne].
  by rewrite list_lookup_alter_eq, list_lookup_insert_eq, Hp.
Qed.

Lemma env_ret {A} (c : K (menv F) A) (s : PT) a e : c (penv s) = Ret a e -> env c s = Ret a (set_penv e s).
Proof. intros E. unfold env, kzoom. by rewrite E. Qed.

Lemma on_mem_ret {A} (c : K kmem A) (e : menv F) a k : c (me_km e) = Ret a k -> on_mem c e = Ret a (MEnv k (me_cr3 e) (me_files e)).
Proof. intros E. unfold on_mem, kzoom. by rewrite E. Qed.

Lemma find_unused l i np : find_state UNUSED l i = Some np -> (i <= np)%nat /\ (np - i < length l)%nat /\ state (nth (np - i) l zero_proc) = UNUSED.
Proof.
  revert i. induction l as [|p l IH]; intros i; simpl; [done|]. destruct (decide (state p = UNUSED)) as [Hp|Hp].
  - intros [= <-]. rewrite Nat.sub_diag. split_and!; [lia|lia|done].
  - intros E. destruct (IH _ E) as (H1 & H2 & H3). destruct (np - i)%nat as [|j] eqn:Ej; [lia|]. replace (np - S i)%nat with j in * by lia. split_and!; [lia|lia|done].
Qed.

(** The entry that allocproc makes. *)
Definition fresh_proc (s : PT) (ks : Z) (p : proc) : proc := set_kstack ks (set_pid (nextpid s) (set_state EMBRYO p)).

Lemma allocproc_run (s : PT) : pt_lk s = false ->
  match find_state UNUSED (procs s) 0 with
  | None => allocproc s = Ret None s
  | Some i => forall ks k', kalloc (km s) = Ret ks k' ->
      let e := MEnv k' (me_cr3 (penv s)) (me_files (penv s)) in
      let mk q := PTable (<[i := q]> (procs s)) false (locks_held s) (s32 (nextpid s + 1)) (initproc s) e in
      let q := fresh_proc s ks (p_at s i) in
      allocproc s = if ks =? 0 then Ret None (mk (set_state UNUSED q)) else Ret (Some i) (mk (set_ctx (Context 0 0 0 0 forkret_a) q))
  end.
Proof.
  intros Hl. destruct (find_state UNUSED (procs s) 0) as [i|] eqn:Ef.
  - intros ks k' Ek e mk q. destruct (find_unused _ _ _ Ef) as (_ & Hi & Hu). rewrite Nat.sub_0_r in Hi, Hu.
    unfold allocproc, pt_acquire, pt_release, upd_proc. krun. rewrite Hl. krun. pt_norm. rewrite Ef. krun. pt_norm. krun. pt_norm.
    erewrite kbind_ret; [|apply env_ret; apply on_mem_ret; exact Ek]. krun. pt_norm. unfold mk, e, q, fresh_proc, p_at.
    destruct (ks =? 0); krun; pt_norm; unfold kret; do 2 f_equal; rewrite !alter_alter, alter_insert by done; done.
  - unfold allocproc, pt_acquire, pt_release. krun. rewrite Hl. krun. pt_norm. rewrite Ef. krun. pt_norm. destruct s; simpl in *; by subst.
Qed.

(** *** fork *)

Hypothesis end_high : KERNBASE < end_.
Hypothesis data_aligned : data mod PGSIZE = 0.
Hypothesis data_range : KERNLINK < data < KERNBASE + PHYSTOP.
Notation world := (world end_).

Lemma alter_of_insert (f : proc -> proc) (i : nat) (q : proc) (l : list proc) : alter f i (<[i := q]> l) = <[i := f q]> l.
Proof. revert i. induction l as [|p l IH]; intros [|i]; simpl; [done..|]. f_equal. apply IH. Qed.

Lemma live_in (s : PT) me : state (p_at s me) <> UNUSED -> (me < length (procs s))%nat /\ space_of (p_at s me) ∈ spaces (procs s).
Proof.
  intros Hs. pose proof (live_lt s me Hs) as Hl. split; [done|]. destruct (spaces_at (procs s) me Hl) as (rest & Hp & _ & _).
  fold (p_at s me) in Hp. rewrite decide_True in Hp by done. rewrite Hp. left.
Qed.

(** The child as fork makes it, before its files are copied. *)
Definition forked (me np : nat) (s : PT) (ks pg : Z) : proc :=
  set_tf (set_eax 0 (tf (p_at s me))) (set_parent (Some me) (set_sz (sz (p_at s me)) (set_pgdir pg
    (set_ctx (Context 0 0 0 0 forkret_a) (fresh_proc s ks (p_at s np)))))).
Definition same_memory (k : kmem) (pg : Z) (k' : kmem) (pg' n : Z) : Prop :=
  forall v, 0 <= v < page_up n -> PTE_FLAGS (pte_of (km_mem k') pg' v) = PTE_FLAGS (pte_of (km_mem k) pg v) /\
    ubyte (km_mem k') pg' v = ubyte (km_mem k) pg v.

(** fork either fails, and loses at most one page, or comes to copying the files with the
    child's memory made. *)
Lemma fork_run all lost ps me (s : PT) : pt_lk s = false -> world all lost (km s) ps (spaces (procs s)) -> state (p_at s me) <> UNUSED ->
  (exists s' ps' lost1, fork me s = Ret (-1) s' /\ pt_lk s' = false /\ (length lost1 <= 1)%nat /\ world all (lost1 ++ lost) (km s') ps' (spaces (procs s')) /\
    kept (km s) (km s') (spaces (procs s)) /\ forall j, state (p_at s j) <> UNUSED -> p_at s' j = p_at s j) \/
  (exists np ks pg s2 ps', fork me s = publish me np (p_at s me) s2 /\ pt_lk s2 = false /\ np <> me /\ (np < length (procs s))%nat /\ state (p_at s np) = UNUSED /\
    procs s2 = <[np := forked me np s ks pg]> (procs s) /\ world all lost (km s2) ps' (spaces (procs s2)) /\
    same_memory (km s) (pgdir (p_at s me)) (km s2) pg (sz (p_at s me)) /\ kept (km s) (km s2) (spaces (procs s))).
Proof using end_high data_aligned data_range.
  intros Hl W Hme. destruct (live_in s me Hme) as [Hlen Hin]. pose proof (allocproc_run s Hl) as Ha. unfold fork.
  destruct (find_state UNUSED (procs s) 0) as [np|] eqn:Ef.
  2: { left. exists s, ps, []. rewrite (kbind_ret _ _ _ _ _ Ha). split_and!; [done|done|simpl; lia|done|by apply kept_mem|done]. }
  destruct (find_unused _ _ _ Ef) as (_ & Hnp & Hu). rewrite Nat.sub_0_r in Hnp, Hu. assert (Hne : np <> me) by (intros ->; done).
  destruct (spaces_at (procs s) np Hnp) as (rest & Hr & Hrest & _). rewrite decide_False in Hr by tauto. simpl in Hr.
  assert (Hdead : forall q, state q = UNUSED -> spaces (<[np := q]> (procs s)) ≡ₚ spaces (procs s)).
  { intros q Hq. rewrite Hrest, Hr. rewrite decide_False by tauto. done. }
  assert (Hoth : forall q j, state (p_at s j) <> UNUSED -> nth j (<[np := q]> (procs s)) zero_proc = p_at s j).
  { intros q j Hj. apply nth_insert_ne. intros ->. done. }
  destruct ps as [|ks ps].
  { destruct (kalloc_wf end_ (km s) [] (fr_wf _ _ _ (wo_free _ _ _ _ _ _ W))) as (r & k1 & E1 & _ & _ & -> & ->). specialize (Ha _ _ E1). cbv zeta in Ha.
    left. rewrite (kbind_ret _ _ _ _ _ Ha). eexists _, [], []. split; [done|]. split; [done|]. split; [simpl; lia|]. cbn [procs km penv me_km]. rewrite Hdead by done. split; [done|]. split; [by apply kept_mem|apply Hoth]. }
  destruct (world_kalloc end_ all lost (km s) ks ps _ W) as (k1 & E1 & Hks & Em & W1 & Hlo). specialize (Ha _ _ E1). cbv zeta in Ha.
  rewrite (proj2 (Z.eqb_neq ks 0)) in Ha by done. rewrite (kbind_ret _ _ _ _ _ Ha). krun. rewrite p_at_mk, nth_insert_ne by done. fold (p_at s me).
  destruct (world_copyuvm end_ end_high data data_aligned data_range all lost k1 ps _ ks _ W1 Hlo Hin) as (pg & k2 & ps2 & E2 & Hc & Hk2). cbn [a_pgdir a_sz space_of] in E2, Hc.
  erewrite kbind_ret; [|apply env_ret; apply on_mem_ret; exact E2]. unfold upd_proc. krun. pt_norm. cbn [me_cr3 me_files]. rewrite alter_of_insert.
  destruct Hc as [(Hpg & W2 & Hcp)|(-> & lost1 & Hl1 & W2 & Hlo2)].
  - right. rewrite (proj2 (Z.eqb_neq pg 0)) by done. krun. pt_norm. rewrite !alter_of_insert. eexists np, ks, pg, _, ps2. split; [done|].
    cbn [pt_lk procs km penv me_km]. split_and!; [done|done|done|done|done| | |eapply kept_trans; [by apply kept_mem|exact Hk2]].
    + rewrite Hrest. unfold forked. rewrite decide_True by done. simpl. rewrite <- Hr. exact W2.
    + unfold same_memory. unfold km in *. rewrite <- Em. exact Hcp.
  - left. cbn [Z.eqb]. krun. pt_norm. rewrite p_at_mk, nth_insert_eq by done. cbn [kstack set_pgdir set_ctx fresh_proc set_kstack].
    destruct (world_kfree end_ all (lost1 ++ lost) k2 ps2 _ ks W2 Hlo2) as (k3 & E3 & W3 & Hk3).
    erewrite kbind_ret; [|apply env_ret; apply on_mem_ret; exact E3]. krun. pt_norm. rewrite !alter_of_insert. cbn [me_cr3 me_files].
    eexists _, (ks :: ps2), lost1. split; [done|]. split; [done|]. split; [done|]. cbn [procs km penv me_km]. rewrite Hdead by done. split; [exact W3|].
    split; [|apply Hoth]. eapply kept_trans; [by apply kept_mem|]. by eapply kept_trans.
Qed.

(** *** Copying the files *)

Lemma wlp_files {A} (c : K F A) (s : PT) Q (R : PT -> Prop) :
  (forall a f, Q a (set_penv (MEnv (km s) (me_cr3 (penv s)) f) s)) -> (forall f, R (set_penv (MEnv (km s) (me_cr3 (penv s)) f) s)) ->
  wlp (env (on_files c)) s Q R.
Proof. intros HQ HR. unfold wlp, env, on_files, kzoom. destruct (c (me_files (penv s))); auto. Qed.

(** Entry [np] may have new files, directory and name; nothing else has changed. *)
Record files_only (np : nat) (s s' : PT) : Prop := {
  fo_km : km s' = km s;
  fo_lk : pt_lk s' = pt_lk s;
  fo_np : exists q, procs s' = <[np := q]> (procs s) /\ space_of q = space_of (p_at s np) /\ state q = state (p_at s np) /\
    pid q = pid (p_at s np) /\ parent q = parent (p_at s np) /\ tf q = tf (p_at s np) }.

Lemma files_only_refl np s : files_only np s s.
Proof.
  constructor; [done|done|]. exists (p_at s np). split_and!; try done. destruct (decide (np < length (procs s))%nat) as [Hlt|Hge].
  - rewrite list_insert_id; [done|]. destruct (lookup_lt_is_Some_2 (procs s) np Hlt) as (p & Hp). unfold p_at. by rewrite (nth_lookup_Some _ _ _ _ Hp).
  - by rewrite list_insert_ge by lia.
Qed.

Lemma files_only_alter np s s' f : (np < length (procs s))%nat -> files_only np s s' ->
  (forall p, space_of (f p) = space_of p /\ state (f p) = state p /\ pid (f p) = pid p /\ parent (f p) = parent p /\ tf (f p) = tf p) ->
  files_only np s (set_procs (alter f np (procs s')) s').
Proof.
  intros Hlt [H1 H2 (q & Hq & H3 & H4 & H5 & H6 & H7)] Hf. constructor; [done|done|]. exists (f q). cbn [procs set_procs]. rewrite Hq, alter_of_insert.
  destruct (Hf q) as (-> & -> & -> & -> & ->). done.
Qed.

Lemma files_only_env np s s' f : files_only np s s' -> files_only np s (set_penv (MEnv (km s') (me_cr3 (penv s')) f) s').
Proof. intros [H1 H2 H3]. by constructor. Qed.

Lemma dup_files_only me np (s : PT) : (np < length (procs s))%nat -> wlp (dup_files me np) s (fun _ s' => files_only np s s') (fun _ => True).
Proof.
  intros Hlt. unfold dup_files. apply wlp_bind. apply (wlp_for _ _ _ _ (fun _ s' => files_only np s s')).
  - apply files_only_refl.
  - intros i s1 _ Hs. do 3 wlp_step. destruct (truth _); [|do 2 wlp_step; done]. wlp_step. apply wlp_files; [|done]. intros g f. apply wlp_upd. wlp_step.
    apply files_only_alter; [done|by apply files_only_env|done].
  - intros s' Hs. by wlp_step.
Qed.

Lemma publish_keeps me np cur (s : PT) : (np < length (procs s))%nat ->
  wlp (publish me np cur) s (fun r s' => r = pid (p_at s np) /\ pt_lk s' = false /\ km s' = km s /\ exists q, procs s' = <[np := q]> (procs s) /\
    space_of q = space_of (p_at s np) /\ state q = RUNNABLE /\ pid q = pid (p_at s np) /\ parent q = parent (p_at s np) /\ tf q = tf (p_at s np)) (fun _ => True).
Proof.
  intros Hlt. unfold publish. wlp_step. eapply wlp_mono; [by apply dup_files_only| |done]. intros [] s1 Hs. cbv beta in Hs. wlp_step. apply wlp_files; [|done]. intros d f.
  pose proof (files_only_env np s s1 f Hs) as Hs2. set (s2 := set_penv _ s1) in *. clearbody s2. clear dependent s1.
  wlp_step. apply wlp_upd. pose proof (files_only_alter np s s2 (set_cwd d) Hlt Hs2 ltac:(done)) as Hs3. set (s3 := set_procs _ s2) in *. clearbody s3. clear dependent s2.
  wlp_step. apply wlp_upd. pose proof (files_only_alter np s s3 (fun x => set_pname (safe_name (pname x) (pname cur)) x) Hlt Hs3 ltac:(done)) as Hs4.
  set (s4 := set_procs _ s3) in *. clearbody s4. clear dependent s3. destruct Hs4 as [H1 H2 (q & Hq & H3 & H4 & H5 & H6 & H7)].
  assert (Hp : p_at s4 np = q) by (unfold p_at; rewrite Hq; by apply nth_insert_eq). do 8 wlp_step. rewrite Hp, Hq, alter_of_insert.
  split; [done|]. split; [done|]. split; [done|]. exists (set_state RUNNABLE q). done.
Qed.

(** Copying the files of process [me] returns. *)
Definition files_return (s : PT) (me : nat) : Prop :=
  (forall f e, f ∈ ofile (p_at s me) -> truth f = true -> exists r e', pf_filedup f e = Ret r e') /\
  (forall i e, exists r e', pf_idup i e = Ret r e').

Lemma publish_returns me np cur (s : PT) : pt_lk s = false -> np <> me -> files_return s me -> exists r s', publish me np cur s = Ret r s'.
Proof.
  intros Hl Hne [Hfd Hid]. assert (Hw : wp (publish me np cur) s (fun _ _ => True)); [|apply wp_iff in Hw as (r & s' & E & _); by exists r, s'].
  assert (Hme : forall f (s' : PT), p_at (set_procs (alter f np (procs s')) s') me = p_at s' me) by (intros; unfold p_at; cbn [procs set_procs]; by rewrite nth_alter_ne).
  unfold publish. wp_step. unfold dup_files. wp_step. apply (wp_for _ _ _ _ (fun _ s' => pt_lk s' = false /\ p_at s' me = p_at s me)); [done| |].
  - intros i s1 _ [H1 H2]. do 3 wp_step. rewrite H2. destruct (truth (nth (Z.to_nat i) (ofile (p_at s me)) 0)) eqn:Et; [|wp_step; wp_step; done].
    destruct (Hfd (nth (Z.to_nat i) (ofile (p_at s me)) 0) (me_files (penv s1))) as (g & e' & E); [|done|].
    { destruct (nth_in_or_default (Z.to_nat i) (ofile (p_at s me)) 0) as [Hin|Hz]; [by apply list_elem_of_In|]. by rewrite Hz in Et. }
    wp_step. apply wp_iff. eexists _, _. split; [apply env_ret; unfold env_filedup; cbn [mem_env]; unfold on_files, kzoom; rewrite E; done|].
    unfold upd_proc. do 2 wp_step. split; [done|]. by rewrite Hme.
  - intros s1 [H1 H2]. wp_step. wp_step. destruct (Hid (cwd cur) (me_files (penv s1))) as (d & e' & E). apply wp_iff.
    eexists _, _. split; [apply env_ret; unfold env_idup; cbn [mem_env]; unfold on_files, kzoom; rewrite E; done|].
    unfold upd_proc, pt_acquire, pt_release. do 9 wp_step. pt_norm. rewrite H1. repeat (wp_step; pt_norm). done.
Qed.

(** Once the files are copied the child is an ordinary process. *)
Lemma published all lost ps me np cur (s : PT) r s' : publish me np cur s = Ret r s' -> (np < length (procs s))%nat -> state (p_at s np) <> UNUSED ->
  world all lost (km s) ps (spaces (procs s)) ->
  r = pid (p_at s np) /\ pt_lk s' = false /\ km s' = km s /\ world all lost (km s') ps (spaces (procs s')) /\ (forall j, np <> j -> p_at s' j = p_at s j) /\
  state (p_at s' np) = RUNNABLE /\ space_of (p_at s' np) = space_of (p_at s np) /\ pid (p_at s' np) = pid (p_at s np) /\
  parent (p_at s' np) = parent (p_at s np) /\ tf (p_at s' np) = tf (p_at s np).
Proof.
  intros E Hlt Hs W. destruct (proj1 (wlp_use _ _ _ _ (publish_keeps me np cur s Hlt)) _ _ E) as (Hr & Hl & Ekm & q & Hq & Hsq & Hst & Hpid & Hpar & Htf).
  assert (Hp : p_at s' np = q) by (unfold p_at; rewrite Hq; by apply nth_insert_eq). rewrite Hp. split_and!; try done.
  - rewrite Ekm. destruct (spaces_at (procs s) np Hlt) as (rest & Hrs & Hrest & _). fold (p_at s np) in Hrs. rewrite Hrs, decide_True in W by done.
    rewrite Hq, Hrest, decide_True by (by rewrite Hst). by rewrite Hsq.
  - intros j Hj. unfold p_at. by rewrite Hq, nth_insert_ne.
Qed.

(** *** The other calls *)

Lemma set_penv_id (s : PT) : set_penv (MEnv (km s) (me_cr3 (penv s)) (me_files (penv s))) s = s.
Proof. by destruct s as [? ? ? ? ? []]. Qed.

(** growproc always returns; unless it shrinks the process to nothing, it changes the memory of
    this process only and keeps the account of the pages. *)
Lemma growproc_run all lost ps me n (s : PT) : world all lost (km s) ps (spaces (procs s)) -> state (p_at s me) <> UNUSED ->
  0 < u32 (sz (p_at s me) + n) ->
  exists r s' ps', growproc me n s = Ret r s' /\ world all lost (km s') ps' (spaces (procs s')) /\
    (forall j, j <> me -> state (p_at s j) <> UNUSED -> kept (km s) (km s') [space_of (p_at s j)]) /\ (forall j, j <> me -> p_at s' j = p_at s j).
Proof using end_high.
  intros W Hme Hsz. pose proof (live_lt s me Hme) as Hlen. destruct (spaces_at (procs s) me Hlen) as (rest & Hr & Hrest & Hoth). fold (p_at s me) in Hr.
  rewrite decide_True in Hr by done. simpl in Hr. pose proof W as W0. rewrite Hr in W0. pose proof (u32_range (sz (p_at s me) + n)) as Hrg.
  destruct (world_cons end_ _ _ _ _ _ _ W0) as (Hsp & _). destruct (so_size _ _ _ _ Hsp) as [Hz0 _]. cbn [a_sz space_of] in Hz0.
  unfold growproc. krun. set (p := p_at s me) in *.
  assert (Hmem : exists newsz k' ps', (if 0 <? n then env (env_allocuvm (pgdir p) (sz p) (u32 (sz p + n)))
      else if n <? 0 then env (env_deallocuvm (pgdir p) (sz p) (u32 (sz p + n))) else kret (sz p)) s = Ret newsz (set_penv (MEnv k' (me_cr3 (penv s)) (me_files (penv s))) s) /\
    world all lost k' ps' ((if truth n && (newsz =? 0) then space_of p else ASpace (pgdir p) (kstack p) newsz) :: rest) /\ kept (km s) k' rest).
  { destruct (Z.ltb_spec 0 n) as [Hn|Hn]; [|destruct (Z.ltb_spec n 0) as [Hn2|Hn2]].
    - destruct (world_allocuvm end_ end_high all lost (km s) ps (space_of p) rest (u32 (sz p + n)) W0) as (r & k' & ps' & E & W' & Hk); [lia|].
      exists r, k', ps'. split; [apply env_ret; by apply on_mem_ret|]. split; [|done]. unfold truth. rewrite (proj2 (Z.eqb_neq n 0)) by lia. exact W'.
    - destruct (world_deallocuvm end_ end_high all lost (km s) ps (space_of p) rest (u32 (sz p + n)) W0) as (k' & ps' & E & W' & Hk); [lia|].
      cbn [a_sz a_pgdir a_kstack space_of] in *. exists (Z.min (sz p) (u32 (sz p + n))), k', ps'. split; [apply env_ret; by apply on_mem_ret|]. split; [|done].
      destruct (Z.eqb_spec (Z.min (sz p) (u32 (sz p + n))) 0) as [Em|Em]; rewrite ?andb_false_r; [|done].
      assert (Ez : sz p = 0) by lia. rewrite Em in W'. rewrite Em. unfold space_of. rewrite Ez. by destruct (truth n && true).
    - exists (sz p), (km s), ps. split; [by rewrite set_penv_id|]. split; [|by apply kept_mem].
      assert (n = 0) as -> by lia. exact W0. }
  destruct Hmem as (newsz & k' & ps' & E & W' & Hk). rewrite (kbind_ret _ _ _ _ _ E). destruct (truth n && (newsz =? 0)).
  - eexists _, _, ps'. split; [done|]. cbn [procs set_penv km penv me_km]. split; [by rewrite Hr|]. split; [|done].
    intros j Hj Hs. eapply kept_sub; [exact Hk|]. intros x ->%list_elem_of_singleton. by apply Hoth.
  - unfold upd_proc. krun. eexists _, _, ps'. split; [done|]. cbn [procs set_penv set_procs km penv me_km]. split_and!.
    + rewrite alter_insert by done. rewrite Hrest. fold (p_at s me). fold p. rewrite decide_True by done. exact W'.
    + intros j Hj Hs. eapply kept_sub; [exact Hk|]. intros x ->%list_elem_of_singleton. by apply Hoth.
    + intros j Hj. unfold p_at. cbn [procs set_penv set_procs]. by rewrite nth_alter_ne by done.
Qed.

(** *** Steps that change the table only *)

Record table_only (s s' : PT) : Prop := {
  to_km : km s' = km s;
  to_len : length (procs s') = length (procs s);
  to_at : forall j, space_of (p_at s' j) = space_of (p_at s j) /\ (state (p_at s' j) = UNUSED <-> state (p_at s j) = UNUSED) }.

Lemma table_only_refl s : table_only s s.
Proof. by constructor. Qed.
Lemma table_only_trans s1 s2 s3 : table_only s1 s2 -> table_only s2 s3 -> table_only s1 s3.
Proof.
  intros [A1 A2 A3] [B1 B2 B3]. constructor; [congruence|congruence|]. intros j. destruct (A3 j) as [E1 E2], (B3 j) as [E3 E4]. split; [congruence|tauto].
Qed.

Lemma table_only_alter (s : PT) i f :
  (forall p, (i < length (procs s))%nat -> p = p_at s i -> space_of (f p) = space_of p /\ (state (f p) = UNUSED <-> state p = UNUSED)) ->
  table_only s (set_procs (alter f i (procs s)) s).
Proof.
  intros Hf. constructor; [done|by apply length_alter|]. intros j. destruct (decide (i < length (procs s))%nat) as [Hi|Hi].
  - rewrite p_at_alter by done. destruct (decide (j = i)) as [->|]; [by apply Hf|done].
  - unfold p_at. cbn [procs set_procs]. destruct (decide (j = i)) as [->|Hj]; [rewrite !nth_overflow; [done|lia|rewrite length_alter; lia]|by rewrite nth_alter_ne by done].
Qed.

Lemma table_only_spaces s s' : table_only s s' -> spaces (procs s') = spaces (procs s).
Proof.
  intros [_ Hl Ha]. unfold p_at in Ha. revert Hl Ha. generalize (procs s) as l. generalize (procs s') as l'. induction l' as [|q l' IH]; intros [|p l] Hl Ha; try done.
  destruct (Ha 0%nat) as [E1 E2]. assert (E : spaces l' = spaces l) by (apply IH; [simpl in Hl; lia|intros j; apply (Ha (S j))]). simpl in E1, E2.
  unfold spaces in *. rewrite !filter_cons. destruct (decide (state q <> UNUSED)), (decide (state p <> UNUSED)); try tauto. rewrite !fmap_cons. by f_equal.
Qed.

Lemma table_only_world all lost ps s s' : table_only s s' -> world all lost (km s) ps (spaces (procs s)) -> world all lost (km s') ps (spaces (procs s')).
Proof. intros Ht W. rewrite (table_only_spaces s s' Ht), (to_km _ _ Ht). done. Qed.

(** Rules for the primitives, with [table_only] from a fixed first state. *)
Lemma wlp_table_upd s0 (s : PT) i f Q (R : PT -> Prop) : table_only s0 s ->
  (forall p, (i < length (procs s))%nat -> p = p_at s i -> space_of (f p) = space_of p /\ (state (f p) = UNUSED <-> state p = UNUSED)) ->
  (forall s', table_only s0 s' -> (forall j, state (p_at s' j) = UNUSED <-> state (p_at s j) = UNUSED) -> Q tt s') -> wlp (upd_proc i f) s Q R.
Proof.
  intros Ht Hf HQ. apply wlp_upd. pose proof (table_only_alter s i f Hf) as Ha. apply HQ; [by eapply table_only_trans|apply Ha].
Qed.
Lemma wlp_table_files {A} s0 (s : PT) (c : K F A) Q (R : PT -> Prop) : table_only s0 s ->
  (forall a s', table_only s0 s' -> (forall j, p_at s' j = p_at s j) -> Q a s') -> (forall s', table_only s0 s' -> R s') -> wlp (env (on_files c)) s Q R.
Proof. intros [H1 H2 H3] HQ HR. apply wlp_files; [intros; apply HQ; [by constructor|done]|intros; apply HR; by constructor]. Qed.

Lemma wake_all_table ch (s : PT) : table_only s (set_procs (wake_proc ch <$> procs s) s).
Proof.
  assert (Hw : forall p, space_of (wake_proc ch p) = space_of p /\ (state (wake_proc ch p) = UNUSED <-> state p = UNUSED)).
  { intros p. unfold wake_proc. destruct (bool_decide_reflect (state p = SLEEPING)) as [E|E]; [|done]. destruct (chan p =? ch); [|done]. simpl. split; [done|]. rewrite E. done. }
  constructor; [done|apply length_fmap|]. intros j. unfold p_at. cbn [procs set_procs]. rewrite !nth_lookup, list_lookup_fmap.
  destruct (procs s !! j) as [p|]; [apply Hw|done].
Qed.

Lemma close_files_table me s0 (s : PT) : table_only s0 s -> wlp (close_files me) s (fun _ s' => table_only s0 s') (fun s' => table_only s0 s').
Proof.
  intros H0. unfold close_files. apply wlp_bind. apply (wlp_for _ _ _ _ (fun _ s' => table_only s0 s')); [done| |].
  - intros i s1 _ Hs. do 3 wlp_step. destruct (truth _); [|do 2 wlp_step; done]. wlp_step. apply (wlp_table_files s0); [done| |done]. intros [] s2 H2 _.
    apply (wlp_table_upd s0); [done|done|]. intros s3 H3 _. by wlp_step.
  - intros s' Hs. by wlp_step.
Qed.

Lemma reparent_table me s0 (s : PT) : table_only s0 s -> wlp (reparent me) s (fun _ s' => table_only s0 s') (fun s' => table_only s0 s').
Proof.
  intros H0. unfold reparent. do 3 wlp_step. apply (wlp_for _ _ _ _ (fun _ s' => table_only s0 s')); [done| |].
  - intros i s1 _ Hs. do 3 wlp_step. destruct (bool_decide _); [|do 2 wlp_step; done]. wlp_step. apply (wlp_table_upd s0); [done|done|]. intros s2 H2 _.
    destruct (bool_decide _); [|do 2 wlp_step; done]. apply wlp_modify. wlp_step. eapply table_only_trans; [exact H2|apply wake_all_table].
  - intros s' Hs. by wlp_step.
Qed.

Lemma table_only_lk s0 (s : PT) b : table_only s0 s -> table_only s0 (set_pt_lk b s).
Proof. intros [H1 H2 H3]. by constructor. Qed.

Lemma sched_table me s0 (s : PT) Q : table_only s0 s -> wlp (sched me) s Q (fun s' => table_only s0 s').
Proof. intros Ht. by apply sched_spec. Qed.

Lemma exit_table me (s : PT) : state (p_at s me) <> UNUSED -> wlp (exit me) s (fun _ s' => table_only s s') (fun s' => table_only s s').
Proof.
  intros Hme. unfold exit. do 2 wlp_step. destruct (bool_decide _); [done|]. wlp_step.
  eapply wlp_mono; [apply (close_files_table me s); apply table_only_refl| |done]. intros [] s1 H1.
  wlp_step. apply (wlp_table_files s); [done| |done]. intros [] s2 H2 _. do 2 wlp_step. wlp_step. apply (wlp_table_files s); [done| |done]. intros [] s3 H3 _.
  wlp_step. apply (wlp_table_files s); [done| |done]. intros [] s4 H4 _. wlp_step. apply (wlp_table_upd s); [done|done|]. intros s5 H5 _.
  wlp_step. apply wlp_acquire. intros _. pose proof (table_only_lk s s5 true H5) as H6. set (s6 := set_pt_lk true s5) in *. clearbody s6. do 3 wlp_step.
  apply wlp_modify. wlp_step. eapply wlp_mono; [apply (reparent_table me s); eapply table_only_trans; [exact H6|apply wake_all_table]| |done].
  intros [] s7 H7. wlp_step. apply (wlp_table_upd s); [done| |].
  - intros p _ ->. split; [done|]. destruct (to_at _ _ H7 me) as [_ E]. simpl. split; [done|]. intros Hp. exfalso. by apply Hme, E.
  - intros s8 H8 _. by apply sched_table.
Qed.

(** What a call leaves of the memory of the processes that are still there. *)
Definition isolated (s s' : PT) : Prop := forall j, state (p_at s' j) <> UNUSED ->
  state (p_at s j) <> UNUSED /\ space_of (p_at s' j) = space_of (p_at s j) /\ kept (km s) (km s') [space_of (p_at s j)].

Lemma table_only_isolated s s' : table_only s s' -> isolated s s'.
Proof. intros [H1 H2 H3] j Hj. destruct (H3 j) as [E1 E2]. split_and!; [tauto|done|]. apply kept_mem. by rewrite H1. Qed.

Lemma isolated_after s0 s s' : table_only s0 s -> isolated s s' -> isolated s0 s'.
Proof.
  intros [H1 H2 H3] Hi j Hj. destruct (Hi j Hj) as (E1 & E2 & E3). destruct (H3 j) as [E4 E5]. rewrite <- H1, <- E4. split_and!; [tauto|done|done].
Qed.

(** wait gives every page of the child back, and touches no one else's. *)
Lemma wait_round_mem all lost ps me (s : PT) : world all lost (km s) ps (spaces (procs s)) -> state (p_at s me) <> UNUSED ->
  wlp (wait_round me) s (fun r s' => isolated s s' /\ exists ps', world all lost (km s') ps' (spaces (procs s')))
    (fun s' => isolated s s' /\ exists ps', world all lost (km s') ps' (spaces (procs s'))).
Proof using end_high data_aligned data_range.
  intros W Hme. unfold wait_round. do 2 wlp_step. pose proof (scan_children_spec (child_of me) (procs s) 0 false) as Hsc.
  destruct (scan_children _ _ _ _) as [hk [i|]].
  - destruct Hsc as (k & -> & Hi & _ & Hz). rewrite Nat.add_0_l. rename k into i. fold (p_at s i) in Hz. do 2 wlp_step.
    destruct (spaces_at (procs s) i Hi) as (rest & Hr & Hrest & Hoth). fold (p_at s i) in Hr. rewrite decide_True in Hr by (by rewrite Hz). simpl in Hr.
    pose proof W as W0. rewrite Hr in W0. destruct (world_reap end_ end_high all lost (km s) ps _ rest W0) as (k1 & k2 & ps2 & E1 & E2 & W2 & Hk & _).
    cbn [a_kstack a_pgdir space_of] in E1, E2. set (p := p_at s i) in *. clearbody p. unfold wlp.
    erewrite kbind_ret; [|apply env_ret; apply on_mem_ret; exact E1]. unfold upd_proc. krun. pt_norm.
    erewrite kbind_ret; [|apply env_ret; apply on_mem_ret; exact E2]. krun. pt_norm. rewrite !alter_alter, alter_insert by done. unfold pt_release. krun. cbn [pt_lk].
    destruct (pt_lk s); [|done]. krun. unfold kret. split.
    + intros j Hj. cbn [procs set_pt_lk] in *. unfold p_at in Hj |- *. cbn [procs set_pt_lk] in Hj |- *. destruct (decide (j = i)) as [->|Hji].
      { rewrite nth_insert_eq in Hj by done. done. }
      rewrite nth_insert_ne in * by congruence. split_and!; [done|done|]. eapply kept_sub; [exact Hk|]. intros x ->%list_elem_of_singleton. by apply Hoth.
    + exists ps2. cbn [procs set_pt_lk km penv me_km]. rewrite Hrest. rewrite decide_False by (simpl; tauto). exact W2.
  - assert (Ht : forall s', table_only s s' -> isolated s s' /\ exists ps', world all lost (km s') ps' (spaces (procs s'))).
    { intros s' Ht. split; [by apply table_only_isolated|]. exists ps. by eapply table_only_world. }
    do 2 wlp_step. destruct (negb hk || _).
    + wlp_step. apply wlp_release. wlp_step. apply Ht, table_only_lk, table_only_refl.
    + wlp_step. unfold sleep. do 3 wlp_step. apply (wlp_table_upd s); [apply table_only_refl|done|]. intros s1 H1 Hs1. wlp_step.
      apply (wlp_table_upd s); [done| |].
      * intros q _ ->. split; [done|]. simpl. split; [done|]. intros Hq. exfalso. by apply Hme, Hs1.
      * intros s2 H2 _. eapply (wlp_mono _ _ (fun _ s' => table_only s s')); [by apply (sched_table me s)| |by apply Ht]. intros [] s3 H3. wlp_step. by apply Ht.
Qed.

(** *** Processes that call fork, sbrk, exit and wait *)

(** A call of process [me], or any step that leaves the memory alone (scheduling, waking,
    killing).  The number is how many pages the step may lose: one for a fork that fails. *)
Inductive mstep (me : nat) : nat -> PT -> PT -> Prop :=
| ms_fork r s s' : pt_lk s = false -> state (p_at s me) <> UNUSED -> fork me s = Ret r s' -> mstep me (if r =? -1 then 1 else 0) s s'
| ms_grow n r s s' : state (p_at s me) <> UNUSED -> 0 < u32 (sz (p_at s me) + n) -> growproc me n s = Ret r s' -> mstep me 0 s s'
| ms_exit ch s s' : state (p_at s me) <> UNUSED -> exit me s = Sleep ch s' -> mstep me 0 s s'
| ms_wait r s s' : state (p_at s me) <> UNUSED -> wait me s = Ret r s' -> mstep me 0 s s'
| ms_wait_sleeps ch s s' : state (p_at s me) <> UNUSED -> wait me s = Sleep ch s' -> mstep me 0 s s'
| ms_waited r s s' : state (p_at s me) <> UNUSED -> wait_resume me s = Ret r s' -> mstep me 0 s s'
| ms_waited_sleeps ch s s' : state (p_at s me) <> UNUSED -> wait_resume me s = Sleep ch s' -> mstep me 0 s s'
| ms_table s s' : table_only s s' -> mstep me 0 s s'.

Inductive mreach : nat -> PT -> PT -> Prop :=
| mr_refl s : mreach 0 s s
| mr_step me n m s1 s2 s3 : mreach n s1 s2 -> mstep me m s2 s3 -> mreach (n + m) s1 s3.

(** The processes other than [me] that live on see the same memory. *)
Definition others_kept (me : nat) (s s' : PT) : Prop := forall j, j <> me -> state (p_at s j) <> UNUSED -> state (p_at s' j) <> UNUSED ->
  space_of (p_at s' j) = space_of (p_at s j) /\ kept (km s) (km s') [space_of (p_at s j)].

Lemma isolated_others me s s' : isolated s s' -> others_kept me s s'.
Proof. intros Hi j _ _ Hj. by destruct (Hi j Hj) as (_ & ? & ?). Qed.

Lemma wait_mem all lost ps me (s : PT) : world all lost (km s) ps (spaces (procs s)) -> state (p_at s me) <> UNUSED ->
  wlp (wait me) s (fun r s' => isolated s s' /\ exists ps', world all lost (km s') ps' (spaces (procs s')))
    (fun s' => isolated s s' /\ exists ps', world all lost (km s') ps' (spaces (procs s'))).
Proof using end_high data_aligned data_range.
  intros W Hme. unfold wait. wlp_step. apply wlp_acquire. intros _. pose proof (table_only_lk s s true (table_only_refl s)) as Ht.
  eapply wlp_mono; [eapply (wait_round_mem all lost ps me (set_pt_lk true s)); done| |]; cbv beta.
  - intros r s' [Hi Hw]. split; [by eapply isolated_after|done].
  - intros s' [Hi Hw]. split; [by eapply isolated_after|done].
Qed.

Lemma wait_resume_mem all lost ps me (s : PT) : world all lost (km s) ps (spaces (procs s)) -> state (p_at s me) <> UNUSED ->
  wlp (wait_resume me) s (fun r s' => isolated s s' /\ exists ps', world all lost (km s') ps' (spaces (procs s')))
    (fun s' => isolated s s' /\ exists ps', world all lost (km s') ps' (spaces (procs s'))).
Proof using end_high data_aligned data_range.
  intros W Hme. unfold wait_resume, sleep_resume. do 2 wlp_step. apply (wlp_table_upd s); [apply table_only_refl|done|]. intros s1 Ht _. wlp_step.
  eapply wlp_mono; [eapply (wait_round_mem all lost ps me s1); [by eapply table_only_world|]| |]; cbv beta.
  - intros Hz. by apply Hme, (to_at _ _ Ht me).
  - intros r s' [Hi Hw]. split; [by eapply isolated_after|done].
  - intros s' [Hi Hw]. split; [by eapply isolated_after|done].
Qed.

Lemma mstep_ok all lost ps me n (s s' : PT) : world all lost (km s) ps (spaces (procs s)) -> mstep me n s s' ->
  others_kept me s s' /\ exists lost1 ps', (length lost1 <= n)%nat /\ world all (lost1 ++ lost) (km s') ps' (spaces (procs s')).
Proof using end_high data_aligned data_range.
  intros W Hs. destruct Hs as [r s s' Hl Hme E|n r s s' Hme Hn E|ch s s' Hme E|r s s' Hme E|ch s s' Hme E|r s s' Hme E|ch s s' Hme E|s s' Ht].
  - destruct (fork_run all lost ps me s Hl W Hme) as [(s1 & ps1 & lost1 & E1 & _ & Hlen & W1 & Hk & Hj)|(np & ks & pg & s2 & ps2 & E1 & Hl2 & Hne & Hnp & Hun & Hp2 & W2 & _ & Hk)].
    + rewrite E in E1. injection E1 as -> ->. split; [|by exists lost1, ps1]. intros j _ Hjs _. rewrite Hj by done. split; [done|].
      eapply kept_sub; [exact Hk|]. intros x ->%list_elem_of_singleton. by apply live_in.
    + rewrite E in E1. symmetry in E1. assert (Hlt : (np < length (procs s2))%nat) by (rewrite Hp2, length_insert; done).
      assert (Hpn : p_at s2 np = forked me np s ks pg) by (unfold p_at; rewrite Hp2; by apply nth_insert_eq).
      destruct (published all lost ps2 me np (p_at s me) s2 r s' E1 Hlt) as (_ & _ & Ekm & W' & Hoth & _); [by rewrite Hpn|done|].
      split; [|by exists [], ps2; split; [simpl; lia|]]. intros j _ Hjs _. assert (Hjn : np <> j) by (by intros ->).
      assert (Hpj : p_at s' j = p_at s j) by (rewrite Hoth by done; unfold p_at; by rewrite Hp2, nth_insert_ne).
      rewrite Hpj, Ekm. split; [done|]. eapply kept_sub; [exact Hk|]. intros x ->%list_elem_of_singleton. by apply live_in.
  - destruct (growproc_run all lost ps me n s W Hme Hn) as (r1 & s1 & ps1 & E1 & W1 & Hk & Hj). rewrite E in E1. injection E1 as -> ->.
    split; [|by exists [], ps1]. intros j Hjm Hjs _. rewrite Hj by done. split; [done|by apply Hk].
  - pose proof (proj2 (wlp_use _ _ _ _ (exit_table me s Hme)) _ _ E) as Ht. split; [by apply isolated_others, table_only_isolated|].
    exists [], ps. split; [done|]. by eapply table_only_world.
  - destruct (proj1 (wlp_use _ _ _ _ (wait_mem all lost ps me s W Hme)) _ _ E) as [Hi [ps' W']]. split; [by apply isolated_others|by exists [], ps'].
  - destruct (proj2 (wlp_use _ _ _ _ (wait_mem all lost ps me s W Hme)) _ _ E) as [Hi [ps' W']]. split; [by apply isolated_others|by exists [], ps'].
  - destruct (proj1 (wlp_use _ _ _ _ (wait_resume_mem all lost ps me s W Hme)) _ _ E) as [Hi [ps' W']]. split; [by apply isolated_others|by exists [], ps'].
  - destruct (proj2 (wlp_use _ _ _ _ (wait_resume_mem all lost ps me s W Hme)) _ _ E) as [Hi [ps' W']]. split; [by apply isolated_others|by exists [], ps'].
  - split; [by apply isolated_others, table_only_isolated|]. exists [], ps. split; [done|]. by eapply table_only_world.
Qed.

Lemma mreach_world all ps0 n (s0 s : PT) : world all [] (km s0) ps0 (spaces (procs s0)) -> mreach n s0 s ->
  exists lost ps, (length lost <= n)%nat /\ world all lost (km s) ps (spaces (procs s)).
Proof using end_high data_aligned data_range.
  intros W Hr. induction Hr as [s|me n m s1 s2 s3 Hr IH Hs]; [by exists [], ps0|]. destruct (IH W) as (lost & ps & Hl & W2).
  destruct (mstep_ok all lost ps me m s2 s3 W2 Hs) as (_ & lost1 & ps' & Hl1 & W3). exists (lost1 ++ lost), ps'. split; [|done]. rewrite length_app. lia.
Qed.

(** C20: Memory is accounted for and isolated.  From a state in which no page has two owners,
    every sequence of fork, growproc (to a size above 0), exit and wait calls of any processes,
    interleaved with steps that leave the memory alone, keeps every page free, or owned by exactly one process
    that maps exactly the pages below its size, or lost, with at most one page lost by each fork
    that fails; and no such call changes a page-table entry or a byte of user memory of another
    process. *)
Theorem process_memory_isolated all ps0 n (s0 s : PT) : world all [] (km s0) ps0 (spaces (procs s0)) -> mreach n s0 s ->
  (exists lost ps, (length lost <= n)%nat /\ world all lost (km s) ps (spaces (procs s))) /\
  (forall me m s', mstep me m s s' -> others_kept me s s').
Proof using end_high data_aligned data_range.
  intros W Hr. destruct (mreach_world all ps0 n s0 s W Hr) as (lost & ps & Hl & W2). split; [by exists lost, ps|].
  intros me m s' Hs. by apply (mstep_ok all lost ps me m).
Qed.

(** What a fork that succeeds makes: entry [np] is a runnable child whose memory is a copy of
    the parent's, and which returns 0 from the call. *)
Record child_of_fork (me np : nat) (r : Z) (s s' : PT) : Prop := {
  cf_new : state (p_at s np) = UNUSED;
  cf_run : state (p_at s' np) = RUNNABLE;
  cf_pid : r = nextpid s /\ pid (p_at s' np) = r;
  cf_parent : parent (p_at s' np) = Some me;
  cf_tf : tf (p_at s' np) = set_eax 0 (tf (p_at s me));
  cf_sz : sz (p_at s' np) = sz (p_at s me);
  cf_mem : same_memory (km s) (pgdir (p_at s me)) (km s') (pgdir (p_at s' np)) (sz (p_at s me)) }.

(** C31: fork over the real allocator and page tables always returns: with -1, having lost at
    most one page and given every other page back, or with the pid of a new runnable child, the
    only new entry of the table, whose user memory and page permissions equal the parent's byte
    for byte and whose pages belong to no other process.  Either way every process that was
    there before keeps its table entry and its memory. *)
Theorem fork_copies_process all lost ps me (s : PT) : pt_lk s = false -> world all lost (km s) ps (spaces (procs s)) ->
  state (p_at s me) <> UNUSED -> files_return s me ->
  exists r s' ps' lost1, fork me s = Ret r s' /\ pt_lk s' = false /\ world all (lost1 ++ lost) (km s') ps' (spaces (procs s')) /\
    ((r = -1 /\ (length lost1 <= 1)%nat) \/ (lost1 = [] /\ exists np, child_of_fork me np r s s')) /\
    kept (km s) (km s') (spaces (procs s)) /\ forall j, state (p_at s j) <> UNUSED -> p_at s' j = p_at s j.
Proof using end_high data_aligned data_range.
  intros Hl W Hme Hfr. destruct (fork_run all lost ps me s Hl W Hme) as
    [(s1 & ps1 & lost1 & E1 & Hl1 & Hlen & W1 & Hk & Hj)|(np & ks & pg & s2 & ps2 & E1 & Hl2 & Hne & Hnp & Hun & Hp2 & W2 & Hm & Hk)].
  { exists (-1), s1, ps1, lost1. split_and!; try done. by left. }
  assert (Hpn : p_at s2 np = forked me np s ks pg) by (unfold p_at; rewrite Hp2; by apply nth_insert_eq).
  assert (Hfr2 : files_return s2 me) by (unfold files_return, p_at; by rewrite Hp2, nth_insert_ne).
  destruct (publish_returns me np (p_at s me) s2 Hl2 Hne Hfr2) as (r & s' & E2). rewrite E2 in E1.
  destruct (published all lost ps2 me np (p_at s me) s2 r s' E2) as (-> & Hl' & Ekm & W' & Hoth & Hst & Hsp & Hpid & Hpar & Htf);
    [by rewrite Hp2, length_insert|by rewrite Hpn|done|]. rewrite Hpn in Hsp, Hpid, Hpar, Htf. rewrite Hpn in E1. injection Hsp as Hpg Hks Hsz.
  eexists _, s', ps2, []. split_and!; [exact E1|done|done| |by rewrite Ekm|].
  - right. split; [done|]. exists np. constructor; try done. by rewrite Ekm, Hpg.
  - intros j Hj. assert (Hjn : np <> j) by (by intros ->). rewrite Hoth by done. unfold p_at. by rewrite Hp2, nth_insert_ne.
Qed.
End procmem.

(** ** Two processes and no free page *)

#[local] Instance no_files : ProcFiles unit := {
  pf_filedup f := kret f; pf_fileclose _ := kret tt; pf_idup i := kret i; pf_iput _ := kret tt;
  pf_begin_op := kret tt; pf_end_op := kret tt; pf_namei_root := kret 1 }.
#[local] Instance ex_env : ProcEnv (menv unit) := mem_env ex_end 0x80108000 0 0 0x80100000 0 0.

Definition ex_stack1 : Z := 0x80206000.
Definition ex_stack2 : Z := 0x80207000.
Definition ex_proc (pg ks n : Z) (par : option nat) : proc :=
  set_parent par (set_pid n (set_state RUNNING (set_kstack ks (set_pgdir pg (set_sz 4096 zero_proc))))).
Definition ex_pair : ptable (menv unit) :=
  PTable [ex_proc ex_pageA ex_stack1 1 None; ex_proc ex_pageD ex_stack2 2 (Some 0%nat); zero_proc] false ∅ 3 (Some 0%nat) (MEnv ex_two 0 tt).
Definition ex_all : list Z := [ex_pageA; ex_pageB; ex_pageC; ex_pageD; ex_pageE; ex_pageF; ex_stack1; ex_stack2].

Lemma one_page_space dir tab pg ks : uvm_ok ex_end ex_two [] dir -> page_ok ex_end ks -> ks ∉ [dir; tab; pg] ->
  table (V2P tab + 7) = tab -> P2V (PTE_ADDR (V2P pg + 7)) = pg -> present (V2P pg + 7) = true -> present (V2P tab + 7) = true ->
  (forall i, 0 <= i < 1024 -> pde_at ex_two_mem dir i = (if decide (i = 0) then V2P tab + 7 else 0)) ->
  (forall va, pte_of ex_two_mem dir va = (if decide (PDX va = 0 /\ PTX va = 0) then V2P pg + 7 else 0)) ->
  space_ok ex_end ex_two [] (ASpace dir ks 4096) /\ forall w, pages_of ex_two_mem (ASpace dir ks 4096) w <-> w ∈ [ks; dir; tab; pg].
Proof.
  intros Hu Hks Hn Et Ep Pp Pt Hpde Hpte.
  assert (Ho : forall w, owned ex_two_mem dir w <-> w ∈ [dir; tab; pg]).
  { intros w. unfold owned, is_table. rewrite !elem_of_cons. split.
    - intros [[->|(i & Hi & Hp & <-)]|(va & [Hr Hp] & <-)]; [by left| |].
      + rewrite Hpde in * by done. case_decide; [rewrite Et; by right; left|done].
      + unfold frame. rewrite Hpte in *. case_decide; [rewrite Ep; by right; right; left|done].
    - intros [->|[->|[->|[]%elem_of_nil]]]; [by left; left|left; right|right].
      + exists 0. rewrite Hpde by lia. done.
      + exists 0. unfold mapped_at, frame. rewrite Hpte. done. }
  split; [|intros w; unfold pages_of; cbn [a_kstack a_pgdir]; rewrite Ho, !elem_of_cons; tauto].
  constructor; cbn [a_pgdir a_kstack a_sz km_mem ex_two]; [done| |unfold KERNBASE; lia| |].
  - rewrite Ho. split_and!; [done|apply not_elem_of_nil|done].
  - intros v Hv. change (page_up 4096) with 4096 in Hv. rewrite Hpte, decide_True; [done|]. apply first_page; [unfold KERNBASE; lia|]. apply Z.div_small. lia.
  - intros v Hv. change (page_up 4096) with 4096 in Hv. rewrite Hpte, decide_False; [done|]. rewrite first_page by lia. dlia.
Qed.

Lemma list_elem_check (l l' : list Z) : forallb (fun w => bool_decide (w ∈ l')) l = true -> forall w, w ∈ l -> w ∈ l'.
Proof. rewrite forallb_forall. intros H w Hw%list_elem_of_In. apply (proj1 (bool_decide_eq_true _)). by apply H. Qed.
Lemma world_two end_ all k ps a b : free_ok end_ k ps -> space_ok end_ k ps a -> space_ok end_ k ps b ->
  (forall w, pages_of (km_mem k) a w -> pages_of (km_mem k) b w -> False) ->
  (forall w, w ∈ all -> pages_of (km_mem k) a w \/ pages_of (km_mem k) b w) -> world end_ all [] k ps [a; b].
Proof.
  intros Hf Ha Hb Hd Hall. constructor; [done| | |].
  - intros c [->|[->|[]%elem_of_nil]%elem_of_cons]%elem_of_cons; done.
  - intros [|[|i]] [|[|j]] c d w Hi Hj Hne; simplify_eq/=; eauto.
  - intros w Hw. right; left. destruct (Hall w Hw); [exists a|exists b]; split; try done; [left|right; left].
Qed.

Lemma ex_pair_world : world ex_end ex_all [] (km ex_pair) [] (spaces (procs ex_pair)).
Proof.
  assert (P : Forall (page_ok ex_end) [ex_stack1; ex_stack2]) by (apply (bool_decide_unpack _); vm_compute; exact I).
  apply Forall_cons in P as [P1 [P2 _]%Forall_cons]. destruct ex_two_ok as [U1 U2].
  destruct (one_page_space ex_pageA ex_pageB ex_pageC ex_stack1 U1 P1) as [S1 O1]; [by apply (bool_decide_unpack _)|reflexivity..|apply ex_two_pde|apply ex_two_pte|].
  destruct (one_page_space ex_pageD ex_pageE ex_pageF ex_stack2 U2 P2) as [S2 O2]; [by apply (bool_decide_unpack _)|reflexivity..|apply ex_two_pde|apply ex_two_pte|].
  change (spaces (procs ex_pair)) with [ASpace ex_pageA ex_stack1 4096; ASpace ex_pageD ex_stack2 4096]. change (km ex_pair) with ex_two.
  assert (Hd : forall w, pages_of ex_two_mem (ASpace ex_pageA ex_stack1 4096) w -> pages_of ex_two_mem (ASpace ex_pageD ex_stack2 4096) w -> False).
  { intros w. rewrite O1, O2. intros H1 H2. repeat (apply elem_of_cons in H1 as [->|H1]); [..|by apply elem_of_nil in H1]; revert H2; apply (bool_decide_unpack _); vm_compute; exact I. }
  apply (world_two ex_end); [apply (uvm_free _ _ _ _ U1)|exact S1|exact S2|exact Hd|].
  intros w Hw. rewrite (O1 w : pages_of (km_mem ex_two) _ w <-> _), (O2 w : pages_of (km_mem ex_two) _ w <-> _).
  rewrite <- elem_of_app. revert w Hw. apply list_elem_check. reflexivity.
Qed.

(** A fork of process 0, for which there is no memory, and then the exit of process 1. *)
Definition ex_forked : ptable (menv unit) :=
  PTable (<[2%nat := set_kstack 0 (set_pid 3 zero_proc)]> (procs ex_pair)) false ∅ 4 (Some 0%nat) (MEnv ex_two 0 tt).
Definition ex_exited : ptable (menv unit) :=
  set_pt_lk true (set_procs (alter (fun p => set_cwd 0 (set_state ZOMBIE p)) 1%nat (procs ex_forked)) ex_forked).

Lemma ex_exit_any k : let s := set_penv (MEnv k 0 tt) ex_forked in exit 1 s = Sleep 0 (set_penv (MEnv k 0 tt) ex_exited).
Proof. vm_compute. reflexivity. Qed.

Lemma ex_pair_runs : mreach ex_end 0x80108000 0 0 0x80100000 0 0 1 ex_pair ex_exited.
Proof.
  apply (mr_step _ _ _ _ _ _ _ 1 1 0 _ ex_forked).
  - apply (mr_step _ _ _ _ _ _ _ 0 0 1 _ ex_pair); [apply mr_refl|]. apply (ms_fork _ _ _ _ _ _ _ _ (-1)); [reflexivity|discriminate|reflexivity].
  - apply (ms_exit _ _ _ _ _ _ _ _ 0); [discriminate|exact (ex_exit_any ex_two)].
Qed.

Lemma process_memory_isolated_witness :
  (exists lost ps, (length lost <= 1)%nat /\ world ex_end ex_all lost (km ex_exited) ps (spaces (procs ex_exited))) /\
  forall me m s', mstep ex_end 0x80108000 0 0 0x80100000 0 0 me m ex_exited s' -> others_kept me ex_exited s'.
Proof.
  apply (process_memory_isolated ex_end 0x80108000 0 0 0x80100000 0 0 ltac:(reflexivity) ltac:(reflexivity) ltac:(by vm_compute) ex_all [] 1 ex_pair).
  - exact ex_pair_world.
  - apply ex_pair_runs.
Defined.

Lemma fork_copies_process_witness : exists r s' ps' lost1, fork 0 ex_pair = Ret r s' /\ r = -1 /\
  world ex_end ex_all (lost1 ++ []) (km s') ps' (spaces (procs s')) /\ (length lost1 <= 1)%nat.
Proof.
  destruct (fork_copies_process ex_end 0x80108000 0 0 0x80100000 0 0 ltac:(reflexivity) ltac:(reflexivity) ltac:(by vm_compute) ex_all [] [] 0 ex_pair)
    as (r & s' & ps' & lost1 & E & _ & W & Hr & _).
  - reflexivity.
  - exact ex_pair_world.
  - discriminate.
  - split; [intros f e _ _; exists f, e; reflexivity|intros i e; exists i, e; reflexivity].
  - exists r, s', ps', lost1. split; [exact E|]. assert (E0 : fork 0 ex_pair = Ret (-1) ex_forked) by reflexivity. pose proof (eq_trans (eq_sym E0) E) as E1. injection E1 as <- <-.
    split; [reflexivity|]. split; [exact W|]. destruct Hr as [[_ Hl]|[-> _]]; [exact Hl|simpl; lia].
Defined.

(** A process that gives all of its memory back: the pages are freed, but growproc fails and
    keeps the size, so the process is left with a size that its page table does not map. *)
Example growproc_to_nothing :
  match growproc 0 (-4096) ex_pair with
  | Ret r s => r = -1 /\ sz (p_at s 0) = 4096 /\ present (pte_of (km_mem (km s)) ex_pageA 0) = false /\ km_freelist (km s) = ex_pageC
  | _ => False
  end.
Proof. vm_compute. split_and!; reflexivity. Qed.
