(* ===== verification/Fs.v ===== *)
(** * The file system (fs.c)

    Block allocation, the inode cache, file contents, directories and paths, over
    a layer of blocks: bread, log_write and brelse.  Pointers to inodes of the
    cache are indices into it, so the tests of fs.c for null pointers to inodes
    do not appear.  The bytes that readi stores and writei takes are lists. *)

From S2P Require Import Prelude Layout Sleeplock Fsdefs.

(** The buffer operations fs.c calls.  Between bread and brelse, data of a buffer
    is modified only just before log_write: [bl_log b d] is the two together. *)
Class BlockLayer (B : Type) := {
  bl_bread : Z -> Z -> K B nat;         (* bread(dev, blockno) *)
  bl_data : B -> nat -> list Z;         (* bp->data *)
  bl_log : nat -> list Z -> K B unit;   (* bp->data = d; log_write(bp) *)
  bl_brelse : nat -> K B unit
}.

(** ** State *)

(** struct inode (file.h) *)
Record inode := Inode {
  i_dev : Z; i_inum : Z; i_ref : Z; i_lock : sleeplock; i_valid : Z;
  i_type : Z; i_major : Z; i_minor : Z; i_nlink : Z; i_size : Z; i_addrs : list Z
}.
Definition set_ref (v : Z) (i : inode) : inode :=
  Inode (i_dev i) (i_inum i) v (i_lock i) (i_valid i) (i_type i) (i_major i) (i_minor i) (i_nlink i) (i_size i) (i_addrs i).
Definition set_ilock (l : sleeplock) (i : inode) : inode :=
  Inode (i_dev i) (i_inum i) (i_ref i) l (i_valid i) (i_type i) (i_major i) (i_minor i) (i_nlink i) (i_size i) (i_addrs i).
Definition set_valid (v : Z) (i : inode) : inode :=
  Inode (i_dev i) (i_inum i) (i_ref i) (i_lock i) v (i_type i) (i_major i) (i_minor i) (i_nlink i) (i_size i) (i_addrs i).
Definition set_itype (v : Z) (i : inode) : inode :=
  Inode (i_dev i) (i_inum i) (i_ref i) (i_lock i) (i_valid i) v (i_major i) (i_minor i) (i_nlink i) (i_size i) (i_addrs i).
Definition set_nlink (v : Z) (i : inode) : inode :=
  Inode (i_dev i) (i_inum i) (i_ref i) (i_lock i) (i_valid i) (i_type i) (i_major i) (i_minor i) v (i_size i) (i_addrs i).
Definition set_devnums (ma mi : Z) (i : inode) : inode :=
  Inode (i_dev i) (i_inum i) (i_ref i) (i_lock i) (i_valid i) (i_type i) ma mi (i_nlink i) (i_size i) (i_addrs i).
Definition set_isize (v : Z) (i : inode) : inode :=
  Inode (i_dev i) (i_inum i) (i_ref i) (i_lock i) (i_valid i) (i_type i) (i_major i) (i_minor i) (i_nlink i) v (i_addrs i).
Definition set_addrs (v : list Z) (i : inode) : inode :=
  Inode (i_dev i) (i_inum i) (i_ref i) (i_lock i) (i_valid i) (i_type i) (i_major i) (i_minor i) (i_nlink i) (i_size i) v.

(** An entry of the cache given to another inode of the disk. *)
Definition reuse_inode (dev inum : Z) (i : inode) : inode :=
  Inode dev inum 1 (i_lock i) 0 (i_type i) (i_major i) (i_minor i) (i_nlink i) (i_size i) (i_addrs i).

(** The copies between the cached and the disk inode (iupdate, ilock). *)
Definition to_dinode (i : inode) : dinode :=
  Dinode (i_type i) (i_major i) (i_minor i) (i_nlink i) (i_size i) (i_addrs i).
Definition load_dinode (d : dinode) (i : inode) : inode :=
  Inode (i_dev i) (i_inum i) (i_ref i) (i_lock i) (i_valid i)
    (di_type d) (di_major d) (di_minor d) (di_nlink d) (di_size d) (di_addrs d).

(** stat.h *)
Definition T_DIR : Z := 1.
Definition T_FILE : Z := 2.
Definition T_DEV : Z := 3.
Record stat := Stat { st_type : Z; st_dev : Z; st_ino : Z; st_nlink : Z; st_size : Z }.

Record fsstate (B : Type) := FsState {
  ic_lk : bool;               (* icache.lock held *)
  inodes : list inode;        (* icache.inode, NINODE entries *)
  fs_sb : superblock;         (* sb *)
  fs_blk : B;                 (* the block layer *)
  fs_pid : Z;                 (* myproc()->pid *)
  fs_cwd : nat;               (* myproc()->cwd *)
  fs_woken : list Z           (* channels given to wakeup *)
}.
Arguments FsState {B} _ _ _ _ _ _ _.
Arguments ic_lk {B} _.
Arguments inodes {B} _.
Arguments fs_sb {B} _.
Arguments fs_blk {B} _.
Arguments fs_pid {B} _.
Arguments fs_cwd {B} _.
Arguments fs_woken {B} _.

Section fs.
Context `{FsH} {B : Type} `{BlockLayer B}.
Notation S := (fsstate B).

Definition set_ic_lk (v : bool) (s : S) : S :=
  FsState v (inodes s) (fs_sb s) (fs_blk s) (fs_pid s) (fs_cwd s) (fs_woken s).
Definition set_inodes (v : list inode) (s : S) : S :=
  FsState (ic_lk s) v (fs_sb s) (fs_blk s) (fs_pid s) (fs_cwd s) (fs_woken s).
Definition set_sb (v : superblock) (s : S) : S :=
  FsState (ic_lk s) (inodes s) v (fs_blk s) (fs_pid s) (fs_cwd s) (fs_woken s).
Definition set_blk (v : B) (s : S) : S :=
  FsState (ic_lk s) (inodes s) (fs_sb s) v (fs_pid s) (fs_cwd s) (fs_woken s).
Definition add_woken (ch : Z) (s : S) : S :=
  FsState (ic_lk s) (inodes s) (fs_sb s) (fs_blk s) (fs_pid s) (fs_cwd s) (fs_woken s ++ [ch]).

Definition null_inode : inode := Inode 0 0 0 (SleepLock 0 false "" 0) 0 0 0 0 0 0 [].
Definition inode_at (s : S) (ip : nat) : inode := nth ip (inodes s) null_inode.
Definition upd_inode (ip : nat) (f : inode -> inode) : K S unit :=
  kmodify (fun s => set_inodes (alter f ip (inodes s)) s).
Definition iget_field {A} (ip : nat) (f : inode -> A) : K S A := kget (fun s => f (inode_at s ip)).

Definition blk {A} (c : K B A) : K S A := kzoom fs_blk set_blk c.
Definition bread (dev blockno : Z) : K S nat := blk (bl_bread dev blockno).
Definition bdata (bp : nat) : K S (list Z) := kget (fun s => bl_data (fs_blk s) bp).
Definition blog (bp : nat) (d : list Z) : K S unit := blk (bl_log bp d).
Definition brelse (bp : nat) : K S unit := blk (bl_brelse bp).

Definition ic_acquire : K S unit :=
  let! held := kget ic_lk in
  if held : bool then kpanic "acquire" else kmodify (set_ic_lk true).
Definition ic_release : K S unit :=
  let! held := kget ic_lk in
  if held : bool then kmodify (set_ic_lk false) else kpanic "release".

Definition inode_chan (ip : nat) : Z := Z.of_nat ip.
Definition on_ilock {A} (ip : nat) (c : K sleeplock A) : K S A :=
  kzoom (fun s => i_lock (inode_at s ip)) (fun l s => set_inodes (alter (set_ilock l) ip (inodes s)) s) c.
Definition iacquiresleep (ip : nat) : K S unit :=
  let! pid := kget fs_pid in on_ilock ip (acquiresleep (inode_chan ip) pid).
Definition ireleasesleep (ip : nat) : K S unit :=
  let! ch := on_ilock ip (releasesleep (inode_chan ip)) in kmodify (add_woken ch).

(** ** Blocks *)

Definition readsb (dev : Z) : K S unit :=
  let! bp := bread dev 1 in
  let! d := bdata bp in
  kmodify (set_sb (sb_of_bytes d)) ;;
  brelse bp.

Definition zeros : list Z := replicate (Z.to_nat BSIZE) 0.

Definition bzero (dev bno : Z) : K S unit :=
  let! bp := bread dev (u32 bno) in
  blog bp zeros ;;
  brelse bp.

Definition bit_mask (bi : Z) : Z := Z.shiftl 1 (bi mod 8).
Definition bit_set (d : list Z) (bi : Z) : bool := truth (Z.land (nth (Z.to_nat (bi / 8)) d 0) (bit_mask bi)).
Definition mark_bit (bi : Z) (d : list Z) : list Z :=
  alter (fun x => Z.lor x (bit_mask bi)) (Z.to_nat (bi / 8)) d.
Definition clear_bit (bi : Z) (d : list Z) : list Z :=
  alter (fun x => Z.land x (u8 (Z.lnot (bit_mask bi)))) (Z.to_nat (bi / 8)) d.

(** The inner loop of balloc: the first clear bit among the [n] from [bi] on. *)
Fixpoint find_clear (n : nat) (bi : Z) (d : list Z) : option Z :=
  match n with
  | O => None
  | Datatypes.S n' => if bit_set d bi then find_clear n' (bi + 1) d else Some bi
  end.

Definition balloc (dev : Z) : K S Z :=
  let! size := kget (fun s => sb_size (fs_sb s)) in
  let! r := kfor (Z.to_nat ((size + BPB - 1) / BPB)) 0 (fun i =>
    let b := i * BPB in
    let! sb := kget fs_sb in
    let! bp := bread dev (BBLOCK b sb) in
    let! d := bdata bp in
    match find_clear (Z.to_nat (Z.min BPB (size - b))) 0 d with
    | Some bi =>
        blog bp (mark_bit bi d) ;;
        brelse bp ;;
        bzero dev (b + bi) ;;
        kret (Some (b + bi))
    | None => brelse bp ;; kret None
    end) in
  match r with Some b => kret b | None => kpanic "balloc: out of blocks" end.

Definition bfree (dev b : Z) : K S unit :=
  readsb dev ;;
  let! sb := kget fs_sb in
  let! bp := bread dev (BBLOCK b sb) in
  let! d := bdata bp in
  let bi := b mod BPB in
  if negb (bit_set d bi) then kpanic "freeing free block" else
  blog bp (clear_bit bi d) ;;
  brelse bp.

(** ** Inodes *)

(** iinit; the message it prints is left out. *)
Definition iinit (dev : Z) : K S unit :=
  kmodify (set_ic_lk false) ;;
  let! _ := kfor (R := unit) (Z.to_nat NINODE) 0 (fun i =>
    upd_inode (Z.to_nat i) (set_ilock (SleepLock 0 false "inode" 0)) ;; kret None) in
  readsb dev.

Fixpoint find_cached (dev inum : Z) (l : list inode) (k : nat) : option nat :=
  match l with
  | [] => None
  | i :: l' => if (0 <? i_ref i) && (i_dev i =? dev) && (i_inum i =? inum) then Some k
               else find_cached dev inum l' (Datatypes.S k)
  end.
Fixpoint find_empty (l : list inode) (k : nat) : option nat :=
  match l with
  | [] => None
  | i :: l' => if i_ref i =? 0 then Some k else find_empty l' (Datatypes.S k)
  end.

Definition iget (dev inum : Z) : K S nat :=
  ic_acquire ;;
  let! l := kget inodes in
  match find_cached dev inum l 0 with
  | Some ip =>
      upd_inode ip (fun i => set_ref (i_ref i + 1) i) ;;
      ic_release ;;
      kret ip
  | None =>
      match find_empty l 0 with
      | None => kpanic "iget: no inodes"
      | Some ip =>
          upd_inode ip (reuse_inode dev inum) ;;
          ic_release ;;
          kret ip
      end
  end.

Definition ialloc (dev type : Z) : K S nat :=
  let! sb := kget fs_sb in
  let! r := kfor (Z.to_nat (sb_ninodes sb - 1)) 1 (fun inum =>
    let! bp := bread dev (IBLOCK inum sb) in
    let! d := bdata bp in
    let dip := dinode_at d (inum mod IPB) in
    if di_type dip =? 0 then
      blog bp (put_dinode (inum mod IPB) (Dinode type 0 0 0 0 (replicate (Z.to_nat (NDIRECT + 1)) 0)) d) ;;
      brelse bp ;;
      let! ip := iget dev inum in
      kret (Some ip)
    else brelse bp ;; kret None) in
  match r with Some ip => kret ip | None => kpanic "ialloc: no inodes" end.

Definition iupdate (ip : nat) : K S unit :=
  let! i := iget_field ip id in
  let! sb := kget fs_sb in
  let! bp := bread (i_dev i) (IBLOCK (i_inum i) sb) in
  let! d := bdata bp in
  blog bp (put_dinode (i_inum i mod IPB) (to_dinode i) d) ;;
  brelse bp.

Definition idup (ip : nat) : K S nat :=
  ic_acquire ;;
  upd_inode ip (fun i => set_ref (i_ref i + 1) i) ;;
  ic_release ;;
  kret ip.

Definition ilock (ip : nat) : K S unit :=
  let! ref := iget_field ip i_ref in
  if ref <? 1 then kpanic "ilock" else
  iacquiresleep ip ;;
  let! i := iget_field ip id in
  if i_valid i =? 0 then
    let! sb := kget fs_sb in
    let! bp := bread (i_dev i) (IBLOCK (i_inum i) sb) in
    let! d := bdata bp in
    let dip := dinode_at d (i_inum i mod IPB) in
    upd_inode ip (load_dinode dip) ;;
    brelse bp ;;
    upd_inode ip (set_valid 1) ;;
    if di_type dip =? 0 then kpanic "ilock: no type" else kret tt
  else kret tt.

Definition iunlock (ip : nat) : K S unit :=
  let! h := on_ilock ip holdingsleep in
  let! ref := iget_field ip i_ref in
  if negb h || (ref <? 1) then kpanic "iunlock" else ireleasesleep ip.

(** *** Contents *)

Definition set_addr (ip : nat) (k addr : Z) : K S unit :=
  upd_inode ip (fun i => set_addrs (<[Z.to_nat k := addr]> (i_addrs i)) i).
Definition get_addr (ip : nat) (k : Z) : K S Z := iget_field ip (fun i => nth (Z.to_nat k) (i_addrs i) 0).

Definition bmap (ip : nat) (bn : Z) : K S Z :=
  let! dev := iget_field ip i_dev in
  if bn <? NDIRECT then
    let! addr := get_addr ip bn in
    if addr =? 0 then
      let! addr := balloc dev in set_addr ip bn addr ;; kret addr
    else kret addr
  else
    let bn := u32 (bn - NDIRECT) in
    if bn <? NINDIRECT then
      let! addr := get_addr ip NDIRECT in
      let! addr := (if addr =? 0 then
          let! addr := balloc dev in set_addr ip NDIRECT addr ;; kret addr
        else kret addr) in
      let! bp := bread dev addr in
      let! a := bdata bp in
      let addr := ld32 a (4 * Z.to_nat bn) in
      if addr =? 0 then
        let! addr := balloc dev in
        let! a := bdata bp in
        blog bp (st32 a (4 * Z.to_nat bn) addr) ;;
        brelse bp ;;
        kret addr
      else brelse bp ;; kret addr
    else kpanic "bmap: out of range".

Definition itrunc (ip : nat) : K S unit :=
  let! dev := iget_field ip i_dev in
  let! _ := kfor (R := unit) (Z.to_nat NDIRECT) 0 (fun i =>
    let! addr := get_addr ip i in
    (if truth addr then bfree dev addr ;; set_addr ip i 0 else kret tt) ;;
    kret None) in
  let! addr := get_addr ip NDIRECT in
  (if truth addr then
     let! bp := bread dev addr in
     let! _ := kfor (R := unit) (Z.to_nat NINDIRECT) 0 (fun j =>
       let! a := bdata bp in
       let aj := ld32 a (4 * Z.to_nat j) in
       (if truth aj then bfree dev aj else kret tt) ;;
       kret None) in
     brelse bp ;;
     bfree dev addr ;;
     set_addr ip NDIRECT 0
   else kret tt) ;;
  upd_inode ip (set_isize 0) ;;
  iupdate ip.

Definition iput (ip : nat) : K S unit :=
  iacquiresleep ip ;;
  let! i := iget_field ip id in
  (if truth (i_valid i) && (i_nlink i =? 0) then
     ic_acquire ;;
     let! r := iget_field ip i_ref in
     ic_release ;;
     if r =? 1 then
       itrunc ip ;;
       upd_inode ip (set_itype 0) ;;
       iupdate ip ;;
       upd_inode ip (set_valid 0)
     else kret tt
   else kret tt) ;;
  ireleasesleep ip ;;
  ic_acquire ;;
  upd_inode ip (fun i => set_ref (i_ref i - 1) i) ;;
  ic_release.

Definition iunlockput (ip : nat) : K S unit := iunlock ip ;; iput ip.

Definition stati (ip : nat) : K S stat :=
  iget_field ip (fun i => Stat (i_type i) (i_dev i) (i_inum i) (i_nlink i) (i_size i)).

(** devsw: the functions of a device, by major number. *)
Variable dev_read : Z -> option (nat -> Z -> K S (Z * list Z)).
Variable dev_write : Z -> option (nat -> list Z -> Z -> K S Z).

(** The device, where the major number has one. *)
Definition devsw {A} (tbl : Z -> option A) (major : Z) : option A :=
  if (major <? 0) || (NDEV <=? major) then None else tbl major.

Definition min_u (a b : Z) : Z := if a <? b then a else b.

(** The loop of readi: the bytes copied to [dst]. *)
Fixpoint readi_loop (fuel : nat) (ip : nat) (off n tot : Z) : K S (list Z) :=
  if tot <? n then
    match fuel with
    | O => knofuel
    | Datatypes.S fuel' =>
        let! dev := iget_field ip i_dev in
        let! addr := bmap ip (off / BSIZE) in
        let! bp := bread dev addr in
        let m := min_u (u32 (n - tot)) (u32 (BSIZE - off mod BSIZE)) in
        let! d := bdata bp in
        let bytes := take (Z.to_nat m) (drop (Z.to_nat (off mod BSIZE)) d) in
        brelse bp ;;
        let! rest := readi_loop fuel' ip (u32 (off + m)) n (u32 (tot + m)) in
        kret (bytes ++ rest)
    end
  else kret [].

Definition readi (ip : nat) (off n : Z) : K S (Z * list Z) :=
  let! i := iget_field ip id in
  if i_type i =? T_DEV then
    match devsw dev_read (i_major i) with
    | None => kret (-1, [])
    | Some f => f ip n
    end
  else if (i_size i <? off) || (u32 (off + n) <? off) then kret (-1, []) else
  let n := if i_size i <? u32 (off + n) then u32 (i_size i - off) else n in
  let! bytes := readi_loop (Z.to_nat (n / BSIZE + 2)) ip off n 0 in
  kret (s32 n, bytes).

(** The loop of writei answers the final offset. *)
Definition splice (o : nat) (src d : list Z) : list Z := take o d ++ src ++ drop (o + length src) d.
Fixpoint writei_loop (fuel : nat) (ip : nat) (src : list Z) (off n tot : Z) : K S Z :=
  if tot <? n then
    match fuel with
    | O => knofuel
    | Datatypes.S fuel' =>
        let! dev := iget_field ip i_dev in
        let! addr := bmap ip (off / BSIZE) in
        let! bp := bread dev addr in
        let m := min_u (u32 (n - tot)) (u32 (BSIZE - off mod BSIZE)) in
        let! d := bdata bp in
        blog bp (splice (Z.to_nat (off mod BSIZE)) (take (Z.to_nat m) src) d) ;;
        brelse bp ;;
        writei_loop fuel' ip (drop (Z.to_nat m) src) (u32 (off + m)) n (u32 (tot + m))
    end
  else kret off.

(** writei; [src] holds the [n] bytes the pointer leads to. *)
Definition writei (ip : nat) (src : list Z) (off n : Z) : K S Z :=
  let! i := iget_field ip id in
  if i_type i =? T_DEV then
    match devsw dev_write (i_major i) with
    | None => kret (-1)
    | Some f => f ip src n
    end
  else if (i_size i <? off) || (u32 (off + n) <? off) then kret (-1) else
  if MAXFILE * BSIZE <? u32 (off + n) then kret (-1) else
  let! off' := writei_loop (Z.to_nat (n / BSIZE + 2)) ip src off n 0 in
  (if (0 <? n) && (i_size i <? off') then upd_inode ip (set_isize off') ;; iupdate ip else kret tt) ;;
  kret (s32 n).

(** ** Directories *)

(** strncmp and strncpy (string.c) on arrays; a string that fills its array has
    no terminating zero. *)
Fixpoint strncmp_arr (n : nat) (p q : list Z) : Z :=
  match n with
  | O => 0
  | Datatypes.S n' =>
      let a := nth 0 p 0 in
      let b := nth 0 q 0 in
      if truth a && (a =? b) then strncmp_arr n' (tail p) (tail q) else u8 a - u8 b
  end.
Fixpoint strncpy_arr (n : nat) (t : list Z) : list Z :=
  match n with
  | O => []
  | Datatypes.S n' =>
      let c := nth 0 t 0 in
      if c =? 0 then replicate n 0 else c :: strncpy_arr n' (tail t)
  end.

Definition namecmp (s t : list Z) : Z := strncmp_arr (Z.to_nat DIRSIZ) s t.

(** Read the directory entry at [off]. *)
Definition read_dirent (dp : nat) (off : Z) (msg : string) : K S dirent :=
  let! r := readi dp off sizeof_dirent in
  if negb (fst r =? sizeof_dirent) then kpanic msg else kret (dirent_of (snd r)).

(** The number of entries the loops over a directory look at. *)
Definition dir_entries (size : Z) : nat := Z.to_nat ((size + sizeof_dirent - 1) / sizeof_dirent).

(** dirlookup answers the entry of the cache and the offset for [poff]. *)
Definition dirlookup (dp : nat) (name : list Z) : K S (option (nat * Z)) :=
  let! i := iget_field dp id in
  if negb (i_type i =? T_DIR) then kpanic "dirlookup not DIR" else
  kfor (dir_entries (i_size i)) 0 (fun k =>
    let off := k * sizeof_dirent in
    let! de := read_dirent dp off "dirlookup read" in
    if de_inum de =? 0 then kret None else
    if namecmp name (de_name de) =? 0 then
      let! ip := iget (i_dev i) (de_inum de) in kret (Some (ip, off))
    else kret None).

Definition dirlink (dp : nat) (name : list Z) (inum : Z) : K S Z :=
  let! r := dirlookup dp name in
  match r with
  | Some (ip, _) => iput ip ;; kret (-1)
  | None =>
      let! size := iget_field dp i_size in
      let! r := kfor (dir_entries size) 0 (fun k =>
        let off := k * sizeof_dirent in
        let! de := read_dirent dp off "dirlink read" in
        kret (if de_inum de =? 0 then Some off else None)) in
      let off := match r with Some off => off | None => Z.of_nat (dir_entries size) * sizeof_dirent end in
      let de := Dirent (u16 inum) (strncpy_arr (Z.to_nat DIRSIZ) name) in
      let! w := writei dp (bytes_of_dirent de) off sizeof_dirent in
      if negb (w =? sizeof_dirent) then kpanic "dirlink" else kret 0
  end.

(** ** Paths *)

Definition slash : Z := 47.
Fixpoint skip_slashes (path : list Z) : list Z :=
  match path with
  | c :: path' => if c =? slash then skip_slashes path' else path
  | [] => []
  end.
(** The bytes up to the next slash, and what follows them. *)
Fixpoint span_elem (path : list Z) : list Z * list Z :=
  match path with
  | c :: path' => if c =? slash then ([], path) else let (e, r) := span_elem path' in (c :: e, r)
  | [] => ([], [])
  end.

(** skipelem on the bytes of a string before its zero; [name] is the array of
    DIRSIZ bytes that receives the element. *)
Definition skipelem (path name : list Z) : option (list Z * list Z) :=
  match skip_slashes path with
  | [] => None
  | p =>
      let (s, rest) := span_elem p in
      let len := Z.of_nat (length s) in
      let name' := if DIRSIZ <=? len then splice 0 (take (Z.to_nat DIRSIZ) s) name
                   else splice 0 (s ++ [0]) name in
      Some (skip_slashes rest, name')
  end.

Fixpoint namex_loop (fuel : nat) (ip : nat) (path name : list Z) (nameiparent : bool) : K S (option (nat * list Z)) :=
  match skipelem path name with
  | None =>
      if nameiparent then iput ip ;; kret None else kret (Some (ip, name))
  | Some (path', name') =>
      match fuel with
      | O => knofuel
      | Datatypes.S fuel' =>
          ilock ip ;;
          let! type := iget_field ip i_type in
          if negb (type =? T_DIR) then iunlockput ip ;; kret None else
          if nameiparent && bool_decide (path' = []) then
            iunlock ip ;; kret (Some (ip, name'))
          else
            let! next := dirlookup ip name' in
            match next with
            | None => iunlockput ip ;; kret None
            | Some (next, _) =>
                iunlockput ip ;;
                namex_loop fuel' next path' name' nameiparent
            end
      end
  end.

(** namex answers the inode and the contents of [name]. *)
Definition namex (path : list Z) (nameiparent : bool) (name : list Z) : K S (option (nat * list Z)) :=
  let! ip := (if nth 0 path 0 =? slash then iget ROOTDEV ROOTINO
              else let! cwd := kget fs_cwd in idup cwd) in
  namex_loop (length path) ip path name nameiparent.

(** namei; the array [name] is on its stack. *)
Definition namei (path name : list Z) : K S (option nat) :=
  let! r := namex path false name in
  kret (option_map fst r).

Definition nameiparent (path name : list Z) : K S (option (nat * list Z)) := namex path true name.
End fs.
