(* ===== verification/FsBlocks.v ===== *)
(** * The block layer seen from fs.c, and block allocation

    [BlockLaws] states what the routines of fs.c may rely on: bread, log_write and
    brelse over a map from block numbers to contents, inside one transaction.  The
    theorems on balloc and bfree are proved against it. *)

From S2P Require Import Prelude Layout Sleeplock Fsdefs Fs.

(** The most buffers a system call may hold: the others hold logged blocks. *)
Definition max_held : nat := Z.to_nat (NBUF - MAXOPBLOCKS).
Definition max_logged : nat := Z.to_nat MAXOPBLOCKS.

(** [bl_ok s H T]: inside a transaction that holds the blocks [H] and has logged the
    blocks [T]. *)
Class BlockLaws (B : Type) `{BlockLayer B} := {
  bl_ok : B -> gset Z -> gset Z -> Prop;
  bl_view : B -> Z -> list Z;                (* contents of a block *)
  bl_holds : B -> Z -> nat -> Prop;          (* the buffer a held block is in *)
  bl_block : Z -> Prop;                      (* blocks of the disk *)
  bl_home : Z -> Prop;                       (* blocks that are not part of the log *)
  bl_bread_law s H T x :
    bl_ok s H T -> x ∉ H -> bl_block x -> (size H < max_held)%nat ->
    exists b s', bl_bread ROOTDEV x s = Ret b s' /\ bl_ok s' ({[x]} ∪ H) T /\ bl_holds s' x b /\
      (forall y, bl_view s' y = bl_view s y) /\ (forall y c, y ∈ H -> bl_holds s y c -> bl_holds s' y c);
  bl_data_law s H T x b : bl_ok s H T -> x ∈ H -> bl_holds s x b -> bl_data s b = bl_view s x;
  bl_log_law s H T x b d :
    bl_ok s H T -> x ∈ H -> bl_holds s x b -> bl_block x -> bl_home x ->
    (size ({[x]} ∪ T : gset Z) <= max_logged)%nat ->
    exists s', bl_log b d s = Ret tt s' /\ bl_ok s' H ({[x]} ∪ T) /\
      (forall y, bl_view s' y = if decide (y = x) then d else bl_view s y) /\
      (forall y c, y ∈ H -> bl_holds s y c -> bl_holds s' y c);
  bl_brelse_law s H T x b :
    bl_ok s H T -> x ∈ H -> bl_holds s x b ->
    exists s', bl_brelse b s = Ret tt s' /\ bl_ok s' (H ∖ {[x]}) T /\
      (forall y, bl_view s' y = bl_view s y) /\
      (forall y c, y ∈ H -> y <> x -> bl_holds s y c -> bl_holds s' y c)
}.

(** begin_op and end_op around such a transaction, when no other one is running. *)
Class TxLayer (B : Type) := { tx_begin : K B unit; tx_end : K B unit }.
Class TxLaws (B : Type) `{LL : BlockLaws B} `{!TxLayer B} := {
  tx_idle : B -> Prop;
  tx_begin_law s : tx_idle s -> exists s', tx_begin s = Ret tt s' /\ bl_ok s' ∅ ∅ /\ forall y, bl_view s' y = bl_view s y;
  tx_end_law s T : bl_ok s ∅ T -> exists s', tx_end s = Ret tt s' /\ tx_idle s' /\
    (forall y, bl_home y -> bl_view s' y = bl_view s y) /\
    (forall n, (forall y, length (bl_view s y) = n) -> forall y, length (bl_view s' y) = n)
}.

Section rules.
Context `{FsH} {B : Type} `{BL : BlockLayer B} {LL : BlockLaws B}.
Notation S := (fsstate B).
Implicit Types (s : S) (H T : gset Z).

Definition view (s : S) (x : Z) : list Z := bl_view (fs_blk s) x.

(** Only the block layer differs, and the buffers of [H] are where they were. *)
Definition keeps (X : gset Z) (b b' : B) : Prop := forall y c, y ∈ X -> bl_holds b y c -> bl_holds b' y c.

Lemma keeps_refl X b : keeps X b b.
Proof. by intros y c. Qed.
Lemma keeps_trans X b1 b2 b3 : keeps X b1 b2 -> keeps X b2 b3 -> keeps X b1 b3.
Proof. intros K1 K2 y c Hy Hc. eauto. Qed.
Lemma keeps_sub X Y b b' : X ⊆ Y -> keeps Y b b' -> keeps X b b'.
Proof. intros Hs Hk y c Hy. apply Hk. by apply Hs. Qed.

Lemma wp_bread s X T x (Q : nat -> S -> Prop) :
  bl_ok (fs_blk s) X T -> x ∉ X -> bl_block x -> (size X < max_held)%nat ->
  (forall b B', bl_ok B' ({[x]} ∪ X) T -> bl_holds B' x b -> (forall y, bl_view B' y = view s y) ->
     keeps X (fs_blk s) B' -> Q b (set_blk B' s)) ->
  wp (bread ROOTDEV x) s Q.
Proof.
  intros Hok Hx Hb Hsz HQ. destruct (bl_bread_law _ _ _ _ Hok Hx Hb Hsz) as (b & B' & E & Ok' & Hh & Hv & Hk).
  unfold bread, blk, wp, kzoom. rewrite E. apply HQ; try done.
Qed.

Lemma wp_bdata s X T x b (Q : list Z -> S -> Prop) :
  bl_ok (fs_blk s) X T -> x ∈ X -> bl_holds (fs_blk s) x b -> Q (view s x) s -> wp (bdata b) s Q.
Proof. intros Hok Hx Hh HQ. unfold bdata. apply wp_get. by rewrite (bl_data_law _ _ _ _ _ Hok Hx Hh). Qed.

Lemma wp_blog s X T x b d (Q : unit -> S -> Prop) :
  bl_ok (fs_blk s) X T -> x ∈ X -> bl_holds (fs_blk s) x b -> bl_block x -> bl_home x ->
  (size ({[x]} ∪ T : gset Z) <= max_logged)%nat ->
  (forall B', bl_ok B' X ({[x]} ∪ T) -> (forall y, bl_view B' y = if decide (y = x) then d else view s y) ->
     keeps X (fs_blk s) B' -> Q tt (set_blk B' s)) ->
  wp (blog b d) s Q.
Proof.
  intros Hok Hx Hh Hb Ho Hsz HQ. destruct (bl_log_law _ _ _ _ _ d Hok Hx Hh Hb Ho Hsz) as (B' & E & Ok' & Hv & Hk).
  unfold blog, blk, wp, kzoom. rewrite E. by apply HQ.
Qed.

Lemma wp_brelse s X T x b (Q : unit -> S -> Prop) :
  bl_ok (fs_blk s) X T -> x ∈ X -> bl_holds (fs_blk s) x b ->
  (forall B', bl_ok B' (X ∖ {[x]}) T -> (forall y, bl_view B' y = view s y) ->
     keeps (X ∖ {[x]}) (fs_blk s) B' -> Q tt (set_blk B' s)) ->
  wp (brelse b) s Q.
Proof.
  intros Hok Hx Hh HQ. destruct (bl_brelse_law _ _ _ _ _ Hok Hx Hh) as (B' & E & Ok' & Hv & Hk).
  unfold brelse, blk, wp, kzoom. rewrite E. apply HQ; try done.
  intros y c Hy. apply Hk; set_solver.
Qed.

(** *** The two patterns of use *)

(** Read one block. *)
Lemma wp_look s X T x {A} (f : list Z -> K S A) (Q : A -> S -> Prop) :
  bl_ok (fs_blk s) X T -> x ∉ X -> bl_block x -> (size X < max_held)%nat ->
  (forall b B', bl_ok B' ({[x]} ∪ X) T -> bl_holds B' x b -> (forall y, bl_view B' y = view s y) ->
     keeps X (fs_blk s) B' -> wp (f (view s x)) (set_blk B' s) Q) ->
  wp (let! b := bread ROOTDEV x in let! d := bdata b in f d) s Q.
Proof.
  intros Hok Hx Hb Hsz HQ. apply wp_bind. eapply wp_bread; try done. intros b B' Ok' Hh Hv Hk.
  apply wp_bind. eapply (wp_bdata _ ({[x]} ∪ X) T x); [done|set_solver|done|].
  unfold view in *. cbn [fs_blk set_blk]. rewrite Hv. by eapply HQ.
Qed.

(** Replace the contents of one block. *)
Definition update (x : Z) (d : list Z) (v : Z -> list Z) (y : Z) : list Z :=
  if decide (y = x) then d else v y.

Lemma wp_rewrite s X T x b d {A} (f : K S A) (Q : A -> S -> Prop) :
  bl_ok (fs_blk s) ({[x]} ∪ X) T -> x ∉ X -> bl_holds (fs_blk s) x b -> bl_block x -> bl_home x ->
  (size ({[x]} ∪ T : gset Z) <= max_logged)%nat ->
  (forall B', bl_ok B' X ({[x]} ∪ T) -> (forall y, bl_view B' y = update x d (view s) y) ->
     keeps X (fs_blk s) B' -> wp f (set_blk B' s) Q) ->
  wp (blog b d ;; brelse b ;; f) s Q.
Proof.
  intros Hok Hx Hh Hb Ho Hsz HQ. assert (Hin : x ∈ {[x]} ∪ X) by set_solver.
  apply wp_bind. eapply wp_blog; try done. intros B1 Ok1 Hv1 Hk1.
  apply wp_bind. eapply (wp_brelse _ ({[x]} ∪ X)); [exact Ok1|done|by apply Hk1|]. intros B2 Ok2 Hv2 Hk2.
  replace (({[x]} ∪ X) ∖ {[x]}) with X in Ok2, Hk2 by set_solver.
  apply (HQ B2); [done| |].
  - intros y. rewrite Hv2. unfold view. cbn [fs_blk set_blk]. apply Hv1.
  - eapply keeps_trans; [|exact Hk2]. eapply keeps_sub; [|exact Hk1]. set_solver.
Qed.
End rules.
