(* ===== verification/FsAlloc.v ===== *)
(** * The block bitmap: balloc and bfree (fs.c) *)

From S2P Require Import Prelude Layout Sleeplock Fsdefs Fs FsBlocks.

(** ** Bits of a block *)

Lemma bit_mask_pow bi : 0 <= bi -> bit_mask bi = 2 ^ (bi mod 8).
Proof. intros Hb. unfold bit_mask. rewrite Z.shiftl_mul_pow2 by dlia. lia. Qed.

Lemma bit_set_testbit d bi : 0 <= bi -> bit_set d bi = Z.testbit (nth (Z.to_nat (bi / 8)) d 0) (bi mod 8).
Proof.
  intros Hb. unfold bit_set. rewrite bit_mask_pow, land_bit by dlia. unfold truth.
  destruct (Z.testbit _ _); [|done]. pose proof (Z.pow_pos_nonneg 2 (bi mod 8)). apply negb_true_iff, Z.eqb_neq. dlia.
Qed.

Lemma same_bit bi bj : 0 <= bi -> 0 <= bj -> bi / 8 = bj / 8 -> bi mod 8 = bj mod 8 -> bi = bj.
Proof. intros. dlia. Qed.

Lemma bit_set_mark bi bj d :
  0 <= bi < 8 * Z.of_nat (length d) -> 0 <= bj ->
  bit_set (mark_bit bi d) bj = bool_decide (bj = bi) || bit_set d bj.
Proof.
  intros Hi Hj. rewrite !bit_set_testbit by lia. unfold mark_bit. destruct (decide (bj / 8 = bi / 8)) as [E|E].
  - rewrite E, nth_alter_eq by dlia. rewrite bit_mask_pow, testbit_lor_bit by dlia.
    destruct (Z.eqb_spec (bi mod 8) (bj mod 8)).
    + rewrite orb_true_r, bool_decide_true; [done|]. apply same_bit; congruence || lia.
    + rewrite orb_false_r, bool_decide_false; [done|]. by intros ->.
  - rewrite nth_alter_ne by dlia. rewrite bool_decide_false; [done|]. by intros ->.
Qed.

Lemma testbit_u8_lnot k j : 0 <= k -> 0 <= j < 8 -> Z.testbit (u8 (Z.lnot (2 ^ k))) j = negb (k =? j).
Proof.
  intros Hk Hj. unfold u8. change 256 with (2 ^ 8). rewrite Z.mod_pow2_bits_low by lia.
  by rewrite Z.lnot_spec, Z.pow2_bits_eqb by lia.
Qed.

Lemma bit_set_clear bi bj d :
  0 <= bi < 8 * Z.of_nat (length d) -> 0 <= bj ->
  bit_set (clear_bit bi d) bj = bit_set d bj && negb (bool_decide (bj = bi)).
Proof.
  intros Hi Hj. rewrite !bit_set_testbit by lia. unfold clear_bit. destruct (decide (bj / 8 = bi / 8)) as [E|E].
  - rewrite E, nth_alter_eq by dlia. rewrite bit_mask_pow, Z.land_spec, testbit_u8_lnot by dlia.
    destruct (Z.eqb_spec (bi mod 8) (bj mod 8)).
    + rewrite bool_decide_true; [done|]. apply same_bit; congruence || lia.
    + rewrite bool_decide_false; [done|]. by intros ->.
  - rewrite nth_alter_ne by dlia. rewrite bool_decide_false; [by rewrite andb_true_r|]. by intros ->.
Qed.

Lemma length_mark_bit bi d : length (mark_bit bi d) = length d.
Proof. apply length_alter. Qed.
Lemma length_clear_bit bi d : length (clear_bit bi d) = length d.
Proof. apply length_alter. Qed.

(** Marking and clearing a clear bit of a byte gives the byte back. *)
Lemma clear_mark_bit bi d :
  0 <= bi < 8 * Z.of_nat (length d) -> Forall (fun x => 0 <= x < 256) d -> bit_set d bi = false ->
  clear_bit bi (mark_bit bi d) = d.
Proof.
  intros Hi Hd Hb. apply list_eq. intros j. unfold clear_bit, mark_bit.
  destruct (decide (j = Z.to_nat (bi / 8))) as [->|Hj]; [|by rewrite !list_lookup_alter_ne by done].
  rewrite !list_lookup_alter_eq. destruct (d !! Z.to_nat (bi / 8)) as [x|] eqn:Ex; [|done]. simpl. f_equal.
  rewrite bit_set_testbit in Hb by lia. rewrite nth_lookup, Ex in Hb. simpl in Hb.
  rewrite bit_mask_pow by lia. assert (Hx : 0 <= x < 2 ^ 8) by (rewrite Forall_lookup in Hd; by eapply Hd).
  apply Z.bits_inj'. intros k Hk. rewrite Z.land_spec, testbit_lor_bit by dlia.
  destruct (decide (k < 8)).
  - rewrite testbit_u8_lnot by dlia. destruct (Z.eqb_spec (bi mod 8) k) as [<-|]; [by rewrite Hb|].
    by rewrite orb_false_r, andb_true_r.
  - replace (Z.testbit x k) with false.
    2: { symmetry. rewrite <- (Z.mod_small x (2 ^ 8)) by done. apply Z.mod_pow2_bits_high. lia. }
    destruct (Z.eqb_spec (bi mod 8) k); [dlia|]. done.
Qed.

Lemma find_clear_spec n bi d :
  match find_clear n bi d with
  | Some r => bi <= r < bi + Z.of_nat n /\ bit_set d r = false /\ forall j, bi <= j < r -> bit_set d j = true
  | None => forall j, bi <= j < bi + Z.of_nat n -> bit_set d j = true
  end.
Proof.
  revert bi. induction n as [|n IH]; intros bi; cbn [find_clear]; [intros; lia|].
  destruct (bit_set d bi) eqn:E; [|split_and!; [lia|lia|done|intros; lia]].
  specialize (IH (bi + 1)). destruct (find_clear n (bi + 1) d) as [r|].
  - destruct IH as (H1 & H2 & H3). split_and!; [lia|lia|done|]. intros j Hj.
    destruct (decide (j = bi)) as [->|]; [done|]. apply H3. lia.
  - intros j Hj. destruct (decide (j = bi)) as [->|]; [done|]. apply IH. lia.
Qed.

Lemma size_add (x : Z) (T : gset Z) : (size ({[x]} ∪ T) <= size T + 1)%nat.
Proof.
  destruct (decide (x ∈ T)); [by replace ({[x]} ∪ T) with T by set_solver; lia|].
  rewrite size_union by set_solver. rewrite size_singleton. lia.
Qed.

Section alloc.
Context `{FH : FsH} {FL : FsLaws} {B : Type} `{BL : BlockLayer B} {LL : BlockLaws B}.
Notation S := (fsstate B).
Implicit Types (s : S) (X T : gset Z).

(** The bitmap says that block [b] is in use. *)
Definition in_use (s : S) (b : Z) : bool := bit_set (view s (BBLOCK b (fs_sb s))) (b mod BPB).

(** The geometry of the disk, and a bitmap that covers its own blocks. *)
Record disk_ok (s : S) : Prop := {
  do_size : 0 < sb_size (fs_sb s) < 2147483648;
  do_len : forall x, length (view s x) = Z.to_nat BSIZE;
  do_block : forall b, 0 <= b < sb_size (fs_sb s) -> bl_block b;
  do_home : forall b, 0 <= b < sb_size (fs_sb s) -> in_use s b = false -> bl_home b;
  do_map : forall b, 0 <= b < sb_size (fs_sb s) ->
    let x := BBLOCK b (fs_sb s) in 0 <= x < sb_size (fs_sb s) /\ bl_home x /\ in_use s x = true;
  do_sb : 1 < sb_size (fs_sb s) /\ in_use s 1 = true /\ sb_of_bytes (view s 1) = fs_sb s /\
    forall b, 0 <= b < sb_size (fs_sb s) -> BBLOCK b (fs_sb s) <> 1
}.

(** Held blocks are in use. *)
Definition held_ok (s : S) (X : gset Z) : Prop := forall x, x ∈ X -> in_use s x = true.

Lemma BPB_pos : 0 < BPB.
Proof. rewrite bpb_def. pose proof bsize_pos. lia. Qed.

Lemma bitmap_bit b : b mod BPB < 8 * BSIZE /\ 0 <= b mod BPB.
Proof. pose proof (Z.mod_pos_bound b BPB BPB_pos). rewrite bpb_def in *. lia. Qed.

Lemma same_bitmap_bit b b' sb :
  BBLOCK b sb = BBLOCK b' sb -> b mod BPB = b' mod BPB -> b = b'.
Proof.
  rewrite !bblock_def. intros E1 E2. pose proof BPB_pos.
  rewrite (Z.div_mod b BPB), (Z.div_mod b' BPB) by lia. assert (b / BPB = b' / BPB) by lia. congruence.
Qed.

(** What balloc leaves. *)
Record balloc_post (s : S) (X T : gset Z) (b : Z) (B' : B) : Prop := {
  bp_range : 0 <= b < sb_size (fs_sb s);
  bp_free : in_use s b = false;
  bp_first : forall b', 0 <= b' < b -> in_use s b' = true;
  bp_ok : bl_ok B' X ({[b]} ∪ ({[BBLOCK b (fs_sb s)]} ∪ T));
  bp_keeps : keeps X (fs_blk s) B';
  bp_view : forall y, bl_view B' y = update b zeros
    (update (BBLOCK b (fs_sb s)) (mark_bit (b mod BPB) (view s (BBLOCK b (fs_sb s)))) (view s)) y
}.

Lemma wp_bzero s X T b (Q : unit -> S -> Prop) :
  bl_ok (fs_blk s) X T -> b ∉ X -> bl_block b -> bl_home b -> 0 <= b < 2147483648 -> (size X < max_held)%nat ->
  (size ({[b]} ∪ T : gset Z) <= max_logged)%nat ->
  (forall B', bl_ok B' X ({[b]} ∪ T) -> (forall y, bl_view B' y = update b zeros (view s) y) ->
     keeps X (fs_blk s) B' -> Q tt (set_blk B' s)) ->
  wp (bzero ROOTDEV b) s Q.
Proof.
  intros Hok Hb Hbl Hbh Hr Hsz Hl HQ. unfold bzero. rewrite u32_small by lia. apply wp_bind.
  eapply wp_bread; try done. intros bp B1 Ok1 Hh1 Hv1 Hk1. apply wp_bind.
  eapply (wp_blog (set_blk B1 s) ({[b]} ∪ X) T b bp); try done; [set_solver|]. intros B2 Ok2 Hv2 Hk2.
  eapply (wp_brelse (set_blk B2 (set_blk B1 s)) ({[b]} ∪ X) _ b bp); [exact Ok2|set_solver|apply Hk2; [set_solver|done]|].
  intros B3 Ok3 Hv3 Hk3. replace (({[b]} ∪ X) ∖ {[b]}) with X in Ok3, Hk3 by set_solver.
  apply (HQ B3); [done| |].
  - intros y. rewrite Hv3. unfold view, update in *. cbn [fs_blk set_blk] in *. rewrite Hv2. case_decide; [done|].
    apply Hv1.
  - eapply keeps_trans; [exact Hk1|]. eapply keeps_trans; [|exact Hk3]. eapply keeps_sub; [|exact Hk2]. set_solver.
Qed.

(** The bits of one bitmap block. *)
Lemma in_use_bit s i bi :
  0 <= bi < BPB -> in_use s (i * BPB + bi) = bit_set (view s (BBLOCK (i * BPB) (fs_sb s))) bi.
Proof.
  intros Hb. unfold in_use. rewrite !bblock_def. pose proof BPB_pos.
  rewrite Z.div_add_l, Z.div_mul, (Z.div_small bi), Z.add_0_r by lia.
  by rewrite (Z.add_comm (i * BPB)), Z.mod_add, Z.mod_small by lia.
Qed.

Lemma balloc_spec s X T :
  bl_ok (fs_blk s) X T -> disk_ok s -> held_ok s X ->
  (forall b, 0 <= b < sb_size (fs_sb s) -> BBLOCK b (fs_sb s) ∉ X) ->
  (size X < max_held)%nat -> (size T + 2 <= max_logged)%nat ->
  (exists b, 0 <= b < sb_size (fs_sb s) /\ in_use s b = false) ->
  wp (balloc ROOTDEV) s (fun b s' => exists B', s' = set_blk B' s /\ balloc_post s X T b B').
Proof.
  intros Hok Hd Hheld HX Hsz HT (b0 & Hb0 & Hfree). pose proof BPB_pos as Hbpb. pose proof (do_size s Hd) as Hsb.
  set (size := sb_size (fs_sb s)) in *. unfold balloc. apply wp_bind, wp_get. apply wp_bind.
  eapply (wp_for _ _ _ _ (fun i s' => exists B', s' = set_blk B' s /\ bl_ok B' X T /\ keeps X (fs_blk s) B' /\
    (forall y, bl_view B' y = view s y) /\ forall b', 0 <= b' < size -> b' < i * BPB -> in_use s b' = true)).
  - exists (fs_blk s). split_and!; [by destruct s|done|apply keeps_refl|done|intros; lia].
  - intros i s' Hi (B1 & -> & Ok1 & K1 & V1 & Hused). apply wp_bind, wp_get. cbn [fs_sb set_blk].
    assert (Hib : i * BPB < size) by (fold size in Hi; Z.to_euclidean_division_equations; nia).
    destruct (do_map s Hd (i * BPB)) as (Hx1 & Hx2 & Hx3); [fold size; nia|]. cbv zeta in *.
    set (x := BBLOCK (i * BPB) (fs_sb s)) in *. apply wp_bind.
    eapply (wp_bread (set_blk B1 s) X T x); [done|apply HX; fold size; nia|by apply (do_block s Hd)|done|].
    intros bp B2 Ok2 Hh2 Hv2 K2. apply wp_bind.
    eapply (wp_bdata _ ({[x]} ∪ X) T x); [done|set_solver|done|]. unfold view at 1. cbn [fs_blk set_blk].
    assert (Vx : forall y, bl_view B2 y = view s y) by (intros y; rewrite Hv2; unfold view; cbn [fs_blk set_blk]; apply V1).
    rewrite Vx. pose proof (find_clear_spec (Z.to_nat (Z.min BPB (size - i * BPB))) 0 (view s x)) as Hfc.
    fold size. destruct (find_clear _ 0 (view s x)) as [bi|].
    + destruct Hfc as (Hbi & Hclr & Hbefore). rewrite Z2Nat.id in Hbi by lia.
      set (b := i * BPB + bi). assert (Hbr : 0 <= b < size) by (unfold b; nia).
      assert (Hbf : in_use s b = false) by (unfold b; rewrite in_use_bit by lia; done).
      assert (Hbx : BBLOCK b (fs_sb s) = x).
      { unfold x, b. rewrite !bblock_def, Z.div_add_l, Z.div_mul, (Z.div_small bi) by lia. lia. }
      assert (Hbm : b mod BPB = bi) by (unfold b; rewrite (Z.add_comm (i * BPB)), Z.mod_add, Z.mod_small; lia).
      assert (Hnb : b <> x) by congruence.
      assert (HxX : x ∉ X) by (rewrite <- Hbx; by apply HX).
      eapply (wp_rewrite _ X T x bp); [exact Ok2|done|done|by apply (do_block s Hd)|done| |].
      { pose proof (size_add x T). lia. }
      intros B3 Ok3 Hv3 K3. apply wp_bind.
      eapply (wp_bzero _ X ({[x]} ∪ T) b); [exact Ok3| |by apply (do_block s Hd)|by apply (do_home s Hd)|lia|done| |].
      { intros Hin. apply Hheld in Hin. congruence. }
      { pose proof (size_add x T). pose proof (size_add b ({[x]} ∪ T)). lia. }
      intros B4 Ok4 Hv4 K4. apply wp_ret. exists B4. split; [done|].
      constructor; rewrite ?Hbx, ?Hbm; try done.
      * intros b' Hb'. destruct (decide (b' < i * BPB)); [by apply Hused; [lia|]|].
        replace b' with (i * BPB + (b' - i * BPB)) by lia. rewrite in_use_bit by lia. apply Hbefore. lia.
      * eapply keeps_trans; [|exact K4]. eapply keeps_trans; [|exact K3]. by eapply keeps_trans.
      * intros y. rewrite Hv4. unfold update. case_decide; [done|]. unfold view at 1. cbn [fs_blk set_blk].
        rewrite Hv3. unfold update. case_decide; [f_equal; apply Vx|]. unfold view at 1. cbn [fs_blk set_blk]. apply Vx.
    + apply wp_bind. eapply (wp_brelse _ ({[x]} ∪ X) _ x bp); [exact Ok2|set_solver|done|]. intros B3 Ok3 Hv3 K3.
      replace (({[x]} ∪ X) ∖ {[x]}) with X in Ok3, K3 by (pose proof (HX (i * BPB)); set_solver by nia).
      apply wp_ret. exists B3. split_and!; [done|done| |intros y; rewrite Hv3; apply Vx|].
      * eapply keeps_trans; [|exact K3]. by eapply keeps_trans.
      * intros b' Hb' Hlt. destruct (decide (b' < i * BPB)); [by apply Hused|].
        replace b' with (i * BPB + (b' - i * BPB)) by lia. rewrite in_use_bit by lia. apply Hfc. lia.
  - intros s' (B1 & _ & _ & _ & _ & Hused). rewrite Hused in Hfree; [done|done|].
    fold size. rewrite Z2Nat.id by (Z.to_euclidean_division_equations; nia).
    Z.to_euclidean_division_equations; nia.
Qed.
(** *** The bitmap afterwards *)

(** A state in which only bitmap bits of [b] may have changed, among the blocks that hold metadata. *)
Section bitmap.
Context (s : S) (B' : B) (b : Z) (v : bool) (d : list Z).
Hypothesis Hd : disk_ok s.
Hypothesis Hb : 0 <= b < sb_size (fs_sb s).
Notation x := (BBLOCK b (fs_sb s)).
Hypothesis Hlen : length d = Z.to_nat BSIZE.
Hypothesis Hbits : forall bj, 0 <= bj -> bit_set d bj =
  if decide (bj = b mod BPB) then v else bit_set (view s x) bj.
(** Every block of the bitmap but [x], and the superblock, is as before. *)
Hypothesis Hx : bl_view B' x = d.
Hypothesis Hmap : forall b', 0 <= b' < sb_size (fs_sb s) -> BBLOCK b' (fs_sb s) <> x ->
  bl_view B' (BBLOCK b' (fs_sb s)) = view s (BBLOCK b' (fs_sb s)).
Hypothesis Hsb1 : bl_view B' 1 = view s 1.
Hypothesis Hlens : forall y, length (bl_view B' y) = Z.to_nat BSIZE.

Lemma bitmap_in_use b' : 0 <= b' < sb_size (fs_sb s) ->
  in_use (set_blk B' s) b' = if decide (b' = b) then v else in_use s b'.
Proof.
  intros Hb'. unfold in_use at 1. unfold view. cbn [fs_blk fs_sb set_blk].
  destruct (decide (BBLOCK b' (fs_sb s) = x)) as [E|E].
  - rewrite E, Hx, Hbits by apply bitmap_bit. destruct (decide (b' = b)) as [->|Hne]; [by rewrite decide_True|].
    rewrite decide_False; [unfold in_use; by rewrite E|]. intros Em. by apply Hne, (same_bitmap_bit _ _ (fs_sb s)).
  - rewrite Hmap by done. rewrite decide_False; [done|]. by intros ->.
Qed.

Lemma bitmap_disk_ok :
  (v = false -> bl_home b /\ b <> 1 /\ forall b', 0 <= b' < sb_size (fs_sb s) -> BBLOCK b' (fs_sb s) <> b) ->
  disk_ok (set_blk B' s).
Proof.
  intros Hv. pose proof Hd as [D1 D2 D3 D4 D5 (D6 & D7 & D8 & D9)]. pose proof bitmap_in_use as Hu.
  constructor; cbn [fs_sb set_blk]; try done.
  - intros b' Hb'. rewrite Hu by done. case_decide; [subst b'; intros ->; by apply Hv|]. by apply D4.
  - intros b' Hb'. destruct (D5 b' Hb') as (E1 & E2 & E3). split_and!; try done; try lia.
    rewrite Hu by done. case_decide as E; [|done]. destruct v; [done|]. destruct Hv as (_ & _ & Hv); [done|].
    by destruct (Hv b' Hb').
  - split_and!; [done| | |done].
    + rewrite Hu by lia. case_decide as E; [|done]. destruct v; [done|]. by destruct Hv as (_ & ? & _).
    + unfold view. cbn [fs_blk set_blk]. by rewrite Hsb1.
Qed.
End bitmap.

Lemma balloc_bitmap s X T b B' :
  disk_ok s -> balloc_post s X T b B' ->
  disk_ok (set_blk B' s) /\
  forall b', 0 <= b' < sb_size (fs_sb s) ->
    in_use (set_blk B' s) b' = if decide (b' = b) then true else in_use s b'.
Proof.
  intros Hd [P1 P2 P3 P4 P5 P6]. pose proof Hd as [D1 D2 D3 D4 D5 (D6 & D7 & D8 & D9)].
  set (d := mark_bit (b mod BPB) (view s (BBLOCK b (fs_sb s)))) in *.
  assert (Hl : length d = Z.to_nat BSIZE) by (unfold d; by rewrite length_mark_bit).
  assert (Hne : forall b', 0 <= b' < sb_size (fs_sb s) -> BBLOCK b' (fs_sb s) <> b).
  { intros b' Hb' E. destruct (D5 b' Hb') as (_ & _ & Hu). congruence. }
  assert (Hbits : forall bj, 0 <= bj -> bit_set d bj =
    if decide (bj = b mod BPB) then true else bit_set (view s (BBLOCK b (fs_sb s))) bj).
  { intros bj Hj. unfold d. rewrite bit_set_mark; [|rewrite D2; pose proof (bitmap_bit b); pose proof bsize_pos; lia|done].
    case_decide; [by rewrite bool_decide_true|by rewrite bool_decide_false]. }
  assert (Hx : bl_view B' (BBLOCK b (fs_sb s)) = d).
  { rewrite P6. unfold update. rewrite decide_False by (by apply Hne). by rewrite decide_True. }
  assert (Hmap : forall b', 0 <= b' < sb_size (fs_sb s) -> BBLOCK b' (fs_sb s) <> BBLOCK b (fs_sb s) ->
    bl_view B' (BBLOCK b' (fs_sb s)) = view s (BBLOCK b' (fs_sb s))).
  { intros b' Hb' E. rewrite P6. unfold update. rewrite decide_False by (by apply Hne). by rewrite decide_False. }
  split; [|by apply (bitmap_in_use s B' b true d)].
  apply (bitmap_disk_ok s B' b true d); try done.
  - rewrite P6. unfold update. rewrite !decide_False; [done|by apply not_eq_sym, D9|congruence].
  - intros y. rewrite P6. unfold update, zeros. repeat case_decide; [by rewrite length_replicate|done|apply D2].
Qed.

(** *** bfree *)

Lemma wp_readsb s X T (Q : unit -> S -> Prop) :
  bl_ok (fs_blk s) X T -> disk_ok s -> 1 ∉ X -> (size X < max_held)%nat ->
  (forall B', bl_ok B' X T -> (forall y, bl_view B' y = view s y) -> keeps X (fs_blk s) B' -> Q tt (set_blk B' s)) ->
  wp (readsb ROOTDEV) s Q.
Proof.
  intros Hok Hd H1 Hsz HQ. destruct (do_sb s Hd) as (D6 & D7 & D8 & D9). unfold readsb. apply wp_bind.
  eapply (wp_bread s X T 1); [done|done|apply (do_block s Hd); lia|done|]. intros b B1 Ok1 Hh1 V1 K1. apply wp_bind.
  eapply (wp_bdata _ ({[1]} ∪ X) T 1); [done|set_solver|done|]. apply wp_bind, wp_modify.
  eapply (wp_brelse _ ({[1]} ∪ X) T 1); [done|set_solver|done|]. intros B2 Ok2 V2 K2.
  replace (({[1]} ∪ X) ∖ {[1]}) with X in Ok2, K2 by set_solver.
  match goal with |- Q tt ?st => replace st with (set_blk B2 s) end.
  - apply HQ; [done|intros y; rewrite V2; apply V1|]. by eapply keeps_trans.
  - destruct s; cbn in *. unfold set_blk, set_sb. cbn. f_equal. unfold view in *. cbn in *. by rewrite V1.
Qed.

Record bfree_post (s : S) (X T : gset Z) (b : Z) (B' : B) : Prop := {
  fp_ok : bl_ok B' X ({[BBLOCK b (fs_sb s)]} ∪ T);
  fp_keeps : keeps X (fs_blk s) B';
  fp_view : forall y, bl_view B' y =
    update (BBLOCK b (fs_sb s)) (clear_bit (b mod BPB) (view s (BBLOCK b (fs_sb s)))) (view s) y
}.

Lemma bfree_spec s X T b :
  bl_ok (fs_blk s) X T -> disk_ok s -> 0 <= b < sb_size (fs_sb s) -> in_use s b = true ->
  1 ∉ X -> BBLOCK b (fs_sb s) ∉ X -> (size X < max_held)%nat ->
  (size ({[BBLOCK b (fs_sb s)]} ∪ T : gset Z) <= max_logged)%nat ->
  wp (bfree ROOTDEV b) s (fun _ s' => exists B', s' = set_blk B' s /\ bfree_post s X T b B').
Proof.
  intros Hok Hd Hb Hu H1 HX Hsz HT. destruct (do_map s Hd b Hb) as (Hx1 & Hx2 & _). cbv zeta in *.
  unfold bfree. apply wp_bind. eapply (wp_readsb s X T); try done. intros B1 Ok1 V1 K1.
  apply wp_bind, wp_get. cbn [fs_sb set_blk]. set (x := BBLOCK b (fs_sb s)) in *. apply wp_bind.
  eapply (wp_bread _ X T x); [done|done|by apply (do_block s Hd)|done|]. intros bp B2 Ok2 Hh2 V2 K2. apply wp_bind.
  eapply (wp_bdata _ ({[x]} ∪ X) T x); [done|set_solver|done|].
  assert (Vx : forall y, view (set_blk B2 (set_blk B1 s)) y = view s y)
    by (intros y; unfold view at 1; cbn [fs_blk set_blk]; rewrite V2; apply V1).
  unfold in_use in Hu. fold x in Hu. rewrite Vx, Hu. cbn [negb].
  apply wp_bind. eapply (wp_blog _ ({[x]} ∪ X) T x bp); [done|set_solver|done|by apply (do_block s Hd)|done|done|].
  intros B3 Ok3 V3 K3. eapply (wp_brelse _ ({[x]} ∪ X) _ x bp); [exact Ok3|set_solver|apply K3; [set_solver|done]|].
  intros B4 Ok4 V4 K4. replace (({[x]} ∪ X) ∖ {[x]}) with X in Ok4, K4 by set_solver.
  exists B4. split; [done|]. constructor.
  - exact Ok4.
  - eapply keeps_trans; [exact K1|]. eapply keeps_trans; [exact K2|].
    eapply keeps_trans; [|exact K4]. eapply keeps_sub; [|exact K3]. set_solver.
  - intros y. rewrite V4. unfold view at 1. cbn [fs_blk set_blk]. rewrite V3. unfold update. fold x.
    case_decide; [done|]. apply Vx.
Qed.

Lemma bfree_bitmap s X T b B' :
  disk_ok s -> 0 <= b < sb_size (fs_sb s) -> bfree_post s X T b B' ->
  bl_home b -> b <> 1 -> (forall b', 0 <= b' < sb_size (fs_sb s) -> BBLOCK b' (fs_sb s) <> b) ->
  disk_ok (set_blk B' s) /\
  forall b', 0 <= b' < sb_size (fs_sb s) ->
    in_use (set_blk B' s) b' = if decide (b' = b) then false else in_use s b'.
Proof.
  intros Hd Hb [P1 P2 P3] Hh Hn1 Hnm. pose proof Hd as [D1 D2 D3 D4 D5 (D6 & D7 & D8 & D9)].
  set (d := clear_bit (b mod BPB) (view s (BBLOCK b (fs_sb s)))) in *.
  assert (Hl : length d = Z.to_nat BSIZE) by (unfold d; by rewrite length_clear_bit).
  assert (Hbits : forall bj, 0 <= bj -> bit_set d bj =
    if decide (bj = b mod BPB) then false else bit_set (view s (BBLOCK b (fs_sb s))) bj).
  { intros bj Hj. unfold d. rewrite bit_set_clear; [|rewrite D2; pose proof (bitmap_bit b); pose proof bsize_pos; lia|done].
    case_decide; [by rewrite bool_decide_true, andb_false_r|by rewrite bool_decide_false, andb_true_r]. }
  assert (Hx : bl_view B' (BBLOCK b (fs_sb s)) = d) by (rewrite P3; unfold update; by rewrite decide_True).
  assert (Hmap : forall b', 0 <= b' < sb_size (fs_sb s) -> BBLOCK b' (fs_sb s) <> BBLOCK b (fs_sb s) ->
    bl_view B' (BBLOCK b' (fs_sb s)) = view s (BBLOCK b' (fs_sb s)))
    by (intros b' Hb' E; rewrite P3; unfold update; by rewrite decide_False).
  split; [|by apply (bitmap_in_use s B' b false d)].
  apply (bitmap_disk_ok s B' b false d); try done.
  - rewrite P3. unfold update. rewrite decide_False; [done|by apply not_eq_sym, D9].
  - intros y. rewrite P3. unfold update. case_decide; [done|apply D2].
Qed.
End alloc.
