(* ===== verification/FsFile.v ===== *)
(** * File contents: bmap, readi and writei (fs.c)

    An inode stands for a sequence of blocks, direct and through the indirect block.
    bmap extends the sequence without changing its contents, readi reads the bytes and
    writei replaces them. *)

From S2P Require Import Prelude Layout Sleeplock Fsdefs Fs FsBlocks FsAlloc.

Lemma filter_ext_in {A} (P Q : A -> Prop) `{!forall x, Decision (P x)} `{!forall x, Decision (Q x)} (l : list A) :
  (forall x, x ∈ l -> P x <-> Q x) -> filter P l = filter Q l.
Proof.
  induction l as [|x l IH]; intros Hl; [done|]. rewrite !filter_cons.
  rewrite IH by (intros y Hy; apply Hl; by right). apply decide_ext, Hl. left.
Qed.

Section file.
Context `{FH : FsH} {FL : FsLaws} {B : Type} `{BL : BlockLayer B} {LL : BlockLaws B}.
Notation S := (fsstate B).
Implicit Types (s : S) (T : gset Z).
(** The inode. *)
Variable ip : nat.

(** ** Blocks of the file *)

Definition ino (s : S) : inode := inode_at s ip.
Definition ind (s : S) : Z := nth (Z.to_nat NDIRECT) (i_addrs (ino s)) 0.
Definition blockno (s : S) (k : Z) : Z :=
  if k <? NDIRECT then nth (Z.to_nat k) (i_addrs (ino s)) 0
  else if ind s =? 0 then 0 else ld32 (view s (ind s)) (4 * Z.to_nat (k - NDIRECT)).

(** The contents of block [k]; a block that is not there is a hole of zeros. *)
Definition fblock (s : S) (k : Z) : list Z := if blockno s k =? 0 then zeros else view s (blockno s k).
Definition fbyte (s : S) (o : Z) : Z := nth (Z.to_nat (o mod BSIZE)) (fblock s (o / BSIZE)) 0.

(** A block that the bitmap counts as used and that holds no metadata. *)
Definition in_map (s : S) (a : Z) : Prop := exists b, 0 <= b < sb_size (fs_sb s) /\ BBLOCK b (fs_sb s) = a.
Definition iblk (s : S) : Z := IBLOCK (i_inum (ino s)) (fs_sb s).
Definition data_block (s : S) (a : Z) : Prop :=
  0 < a < sb_size (fs_sb s) /\ in_use s a = true /\ bl_home a /\ a <> 1 /\ ~ in_map s a /\ a <> iblk s.

Record ino_ok (s : S) : Prop := {
  io_ip : (ip < length (inodes s))%nat;
  io_dev : i_dev (ino s) = ROOTDEV;
  io_len : length (i_addrs (ino s)) = Z.to_nat (NDIRECT + 1);
  io_blk : forall k, 0 <= k < MAXFILE -> blockno s k <> 0 -> data_block s (blockno s k) /\ blockno s k <> ind s;
  io_ind : ind s <> 0 -> data_block s (ind s);
  io_inj : forall j k, 0 <= j < MAXFILE -> 0 <= k < MAXFILE -> blockno s j <> 0 -> blockno s j = blockno s k -> j = k;
  io_boot : in_use s 0 = true;
  io_iblk : 0 < iblk s < sb_size (fs_sb s) /\ in_use s (iblk s) = true /\ bl_home (iblk s) /\
    iblk s <> 1 /\ ~ in_map s (iblk s)
}.

(** The state with another block layer and other addresses in the inode. *)
Definition mk (b : B) (l : list Z) (s : S) : S := set_blk b (set_inodes (alter (set_addrs l) ip (inodes s)) s).

Lemma mk_mk b1 l1 b2 l2 s : mk b2 l2 (mk b1 l1 s) = mk b2 l2 s.
Proof.
  unfold mk, set_blk, set_inodes. cbn. rewrite alter_alter. reflexivity.
Qed.

Lemma ino_set_blk b s : ino (set_blk b s) = ino s.
Proof. done. Qed.

Lemma ino_mk b l s : (ip < length (inodes s))%nat -> ino (mk b l s) = set_addrs l (ino s).
Proof. intros Hl. unfold ino, inode_at, mk. cbn. by apply nth_alter_eq. Qed.

Lemma mk_id s : (ip < length (inodes s))%nat -> mk (fs_blk s) (i_addrs (ino s)) s = s.
Proof.
  intros Hl. unfold mk, ino, inode_at. destruct s as [lk il sb b pd cw wk]; cbn in *. unfold set_blk, set_inodes; cbn. f_equal.
  apply list_eq. intros j. destruct (decide (j = ip)) as [->|Hj]; [|by rewrite list_lookup_alter_ne].
  rewrite list_lookup_alter_eq, (nth_lookup_lt il ip null_inode) by done. cbn. f_equal. by destruct (nth ip il null_inode).
Qed.

Lemma mk_set_blk b l b' s : mk b l (set_blk b' s) = mk b l s.
Proof. done. Qed.

(** *** Free blocks *)

Definition nfree (s : S) : nat := length (filter (fun b => in_use s b = false) (seqZ 0 (sb_size (fs_sb s)))).

Lemma nfree_pos s : (0 < nfree s)%nat -> exists b, 0 <= b < sb_size (fs_sb s) /\ in_use s b = false.
Proof.
  unfold nfree. destruct (filter _ _) as [|b l] eqn:E; [cbn; lia|]. intros _.
  assert (Hb : b ∈ filter (fun b => in_use s b = false) (seqZ 0 (sb_size (fs_sb s)))) by (rewrite E; left).
  apply list_elem_of_filter in Hb as [H1 H2%elem_of_seqZ]. exists b. split; [lia|done].
Qed.

Lemma nfree_take s s' b :
  fs_sb s' = fs_sb s -> 0 <= b < sb_size (fs_sb s) -> in_use s b = false ->
  (forall b', 0 <= b' < sb_size (fs_sb s) -> in_use s' b' = if decide (b' = b) then true else in_use s b') ->
  nfree s = Datatypes.S (nfree s').
Proof.
  intros Hsb Hb Hf Hu. unfold nfree. rewrite Hsb.
  change (Datatypes.S (length ?l)) with (length (b :: l)). apply Permutation_length, NoDup_Permutation.
  - apply NoDup_filter, NoDup_seqZ.
  - constructor; [|apply NoDup_filter, NoDup_seqZ]. rewrite list_elem_of_filter. intros [H1 _].
    rewrite Hu in H1 by done. by rewrite decide_True in H1.
  - intros b'. rewrite elem_of_cons, !list_elem_of_filter, elem_of_seqZ. split.
    + intros [H1 H2]. destruct (decide (b' = b)); [by left|right]. rewrite Hu by lia. by rewrite decide_False.
    + intros [->|[H1 H2]]; [split; [done|lia]|]. split; [|done]. rewrite Hu in H1 by lia. by case_decide.
Qed.

(** *** Words of a block *)

Lemma ld32_zeros o : ld32 zeros o = 0.
Proof. unfold ld32, zeros. by rewrite !nth_replicate_same. Qed.

Lemma ld32_st32 d k j v :
  length d = Z.to_nat BSIZE -> 0 <= k < NINDIRECT -> 0 <= j < NINDIRECT -> 0 <= v < 4294967296 ->
  ld32 (st32 d (4 * Z.to_nat k) v) (4 * Z.to_nat j) = if decide (j = k) then v else ld32 d (4 * Z.to_nat j).
Proof.
  intros Hl Hk Hj Hv. rewrite nindirect_def in Hk, Hj. pose proof bsize_words. pose proof bsize_pos.
  case_decide.
  - subst j. rewrite ld32_st32_eq; [by apply u32_small|]. rewrite Hl. dlia.
  - apply ld32_st32_ne. lia.
Qed.
(** ** A block from balloc changes no file *)

Section fresh.
Context (s : S) (X T : gset Z) (a : Z) (B' : B).
Hypothesis Hd : disk_ok s.
Hypothesis Hi : ino_ok s.
Hypothesis Hp : balloc_post s X T a B'.
Notation s1 := (set_blk B' s).

Lemma fresh_use b : 0 <= b < sb_size (fs_sb s) -> in_use s1 b = if decide (b = a) then true else in_use s b.
Proof. by apply (balloc_bitmap s X T a B' Hd Hp). Qed.

Lemma fresh_not_map : ~ in_map s a.
Proof. intros (b & Hb & E). destruct (do_map s Hd b Hb) as (_ & _ & Hu). rewrite E in Hu. destruct Hp. congruence. Qed.

Lemma fresh_view y : y <> a -> ~ in_map s y -> view s1 y = view s y.
Proof.
  intros Hy Hm. destruct Hp as [P1 P2 P3 P4 P5 P6]. unfold view at 1. cbn [fs_blk set_blk]. rewrite P6. unfold update.
  rewrite decide_False by done. rewrite decide_False; [done|]. intros ->. apply Hm. by exists a.
Qed.

Lemma fresh_ne y : in_use s y = true -> y <> a.
Proof. intros Hu ->. destruct Hp. congruence. Qed.

Lemma fresh_data_view y : data_block s y -> view s1 y = view s y.
Proof. intros (_ & Hu & _ & _ & Hm & _). apply fresh_view; [by apply fresh_ne|done]. Qed.

Lemma fresh_data_block y : data_block s y -> data_block s1 y.
Proof.
  intros (H1 & H2 & H3 & H4 & H5 & H6). split; [exact H1|]. split; [|by split_and!].
  rewrite fresh_use by (split; lia). by rewrite decide_False by (by apply fresh_ne).
Qed.

Lemma fresh_blockno k : 0 <= k < MAXFILE -> blockno s1 k = blockno s k.
Proof.
  intros Hk. unfold blockno, ind. rewrite ino_set_blk. destruct (k <? NDIRECT); [done|].
  destruct (Z.eqb_spec (nth (Z.to_nat NDIRECT) (i_addrs (ino s)) 0) 0) as [|Hn]; [done|].
  by rewrite fresh_data_view by (by apply (io_ind s Hi)).
Qed.

Lemma fresh_zero : view s1 a = zeros.
Proof. destruct Hp as [P1 P2 P3 P4 P5 P6]. unfold view. cbn. rewrite P6. unfold update. by rewrite decide_True. Qed.

Lemma fresh_fblock k : 0 <= k < MAXFILE -> fblock s1 k = fblock s k.
Proof.
  intros Hk. unfold fblock. rewrite fresh_blockno by done.
  destruct (Z.eqb_spec (blockno s k) 0) as [|Hn]; [done|]. apply fresh_data_view. by apply (io_blk s Hi).
Qed.

Lemma fresh_is_data : data_block s1 a /\ (forall k, 0 <= k < MAXFILE -> blockno s1 k <> a) /\ ind s1 <> a.
Proof.
  destruct Hp as [P1 P2 P3 P4 P5 P6]. pose proof (io_boot s Hi) as Hb.
  destruct (io_iblk s Hi) as (I1 & I2 & I3 & I4 & I5). destruct (do_sb s Hd) as (D6 & D7 & D8 & D9).
  assert (Ha0 : a <> 0) by congruence. split_and!.
  - split; [cbn [fs_sb set_blk]; lia|]. split; [rewrite fresh_use by done; by rewrite decide_True|].
    split; [by apply (do_home s Hd)|]. split; [congruence|]. split; [apply fresh_not_map|].
    change (iblk s1) with (iblk s). congruence.
  - intros k Hk. rewrite fresh_blockno by done. destruct (Z.eq_dec (blockno s k) 0) as [->|Hn]; [congruence|].
    destruct (io_blk s Hi k Hk Hn) as [(_ & Hu & _) _]. by apply fresh_ne.
  - change (ind s1) with (ind s). destruct (Z.eq_dec (ind s) 0) as [->|Hn]; [congruence|].
    destruct (io_ind s Hi Hn) as (_ & Hu & _). by apply fresh_ne.
Qed.

Lemma fresh_ino_ok : ino_ok s1.
Proof.
  destruct Hi as [I1 I2 I3 I4 I5 I6 I7 I8]. destruct I8 as (J1 & J2 & J3 & J4 & J5). constructor; try done.
  - intros k Hk. rewrite fresh_blockno by done. intros Hn. destruct (I4 k Hk Hn). split; [by apply fresh_data_block|done].
  - intros Hn. by apply fresh_data_block, I5.
  - intros j k Hj Hk. rewrite !fresh_blockno by done. by apply I6.
  - rewrite fresh_use by (pose proof (do_size s Hd); lia). by rewrite decide_False by (by apply fresh_ne).
  - split; [exact J1|]. split; [|by split_and!]. change (iblk s1) with (iblk s). rewrite fresh_use by lia.
    by rewrite decide_False by (by apply fresh_ne).
Qed.

Lemma fresh_nfree : nfree s = Datatypes.S (nfree s1).
Proof. destruct Hp as [P1 P2 P3 P4 P5 P6]. apply (nfree_take s s1 a); try done. intros b Hb. by apply fresh_use. Qed.
End fresh.
(** ** Writing a block that holds data *)

Section dwrite.
Context (s : S) (B' : B) (x : Z) (d : list Z).
Hypothesis Hd : disk_ok s.
Hypothesis Hx : 0 <= x < sb_size (fs_sb s) /\ x <> 1 /\ ~ in_map s x.
Hypothesis Hlen : length d = Z.to_nat BSIZE.
Hypothesis Hv : forall y, bl_view B' y = update x d (view s) y.
Notation s1 := (set_blk B' s).

Lemma dw_view y : view s1 y = if decide (y = x) then d else view s y.
Proof. unfold view at 1. cbn [fs_blk set_blk]. by rewrite Hv. Qed.

Lemma dw_use b : 0 <= b < sb_size (fs_sb s) -> in_use s1 b = in_use s b.
Proof.
  intros Hb. unfold in_use. cbn [fs_sb set_blk]. rewrite dw_view, decide_False; [done|].
  intros E. apply Hx. by exists b.
Qed.

Lemma dw_disk_ok : disk_ok s1.
Proof.
  destruct Hx as (H1 & H2 & H3). destruct Hd as [D1 D2 D3 D4 D5 (D6 & D7 & D8 & D9)].
  constructor; cbn [fs_sb set_blk]; try done.
  - intros y. rewrite dw_view. by case_decide.
  - intros b Hb. rewrite dw_use by done. by apply D4.
  - intros b Hb. destruct (D5 b Hb) as (E1 & E2 & E3). split; [done|]. split; [done|]. by rewrite dw_use.
  - split; [done|]. split; [by rewrite dw_use by lia|]. split; [|done]. rewrite dw_view. by rewrite decide_False by congruence.
Qed.

Lemma dw_data_block y : data_block s1 y <-> data_block s y.
Proof.
  unfold data_block. change (fs_sb s1) with (fs_sb s). change (iblk s1) with (iblk s).
  change (in_map s1 y) with (in_map s y). split; intros (H1 & H2 & H3); (split; [done|]); (split; [|done]).
  - by rewrite <- dw_use by lia.
  - by rewrite dw_use by lia.
Qed.

Lemma dw_nfree : nfree s1 = nfree s.
Proof.
  unfold nfree. cbn [fs_sb set_blk]. f_equal. apply filter_ext_in. intros b Hb%elem_of_seqZ. by rewrite dw_use by lia.
Qed.
End dwrite.

(** ** A new block in the inode *)

Section link.
Context (s : S) (a : Z).
Hypothesis Hi : ino_ok s.
Hypothesis Ha : data_block s a.
Hypothesis Hfresh : forall j, 0 <= j < MAXFILE -> blockno s j <> a.
Hypothesis Hind : ind s <> a.
Hypothesis Hz : view s a = zeros.

Section addrs.
Context (k : Z).
Hypothesis Hk : 0 <= k <= NDIRECT.
Notation l := (<[Z.to_nat k := a]> (i_addrs (ino s))).
Notation s2 := (mk (fs_blk s) l s).

Lemma link_ino : ino s2 = set_addrs l (ino s).
Proof. apply ino_mk, (io_ip s Hi). Qed.

Lemma link_data_block y : data_block s2 y <-> data_block s y.
Proof.
  unfold data_block. replace (iblk s2) with (iblk s); [done|]. unfold iblk. by rewrite link_ino.
Qed.

Lemma link_addr j : 0 <= j <= NDIRECT ->
  nth (Z.to_nat j) (i_addrs (ino s2)) 0 = if decide (j = k) then a else nth (Z.to_nat j) (i_addrs (ino s)) 0.
Proof.
  intros Hj. rewrite link_ino. cbn [i_addrs set_addrs]. case_decide.
  - subst j. apply nth_insert_eq. rewrite (io_len s Hi). lia.
  - apply nth_insert_ne. lia.
Qed.

(** What remains to be checked when one address changes. *)
Lemma link_ok :
  (forall j, 0 <= j < MAXFILE -> blockno s2 j = if decide (j = k /\ k < NDIRECT) then a else blockno s j) ->
  (ind s2 = if decide (k = NDIRECT) then a else ind s) ->
  (k = NDIRECT -> ind s = 0) -> ino_ok s2.
Proof.
  intros Hb Hn Hk0. destruct Hi as [I1 I2 I3 I4 I5 I6 I7 I8]. pose proof ndirect_pos.
  assert (Hneq : forall j, 0 <= j < MAXFILE -> blockno s2 j <> 0 -> blockno s2 j <> ind s2).
  { intros j Hj. rewrite Hb, Hn by done. destruct (decide (j = k /\ k < NDIRECT)) as [E|E].
    - rewrite decide_False by lia. congruence.
    - intros Hnz. case_decide; [by apply Hfresh|]. by apply I4. }
  constructor.
  - cbn. by rewrite length_alter.
  - by rewrite link_ino.
  - rewrite link_ino. cbn. by rewrite length_insert.
  - intros j Hj Hnz. split; [|by apply Hneq]. rewrite link_data_block. rewrite Hb in * by done.
    case_decide; [done|]. by apply I4.
  - rewrite link_data_block, Hn. case_decide; [done|]. by apply I5.
  - intros j j' Hj Hj'. rewrite !Hb by done.
    destruct (decide (j = k /\ k < NDIRECT)), (decide (j' = k /\ k < NDIRECT)); intros Hnz E; [lia| | |].
    + symmetry in E. by destruct (Hfresh j' Hj' E).
    + by destruct (Hfresh j Hj E).
    + by apply I6.
  - done.
  - unfold iblk. rewrite link_ino. exact I8.
Qed.
End addrs.

Lemma link_direct k :
  0 <= k < NDIRECT -> blockno s k = 0 ->
  let s2 := mk (fs_blk s) (<[Z.to_nat k := a]> (i_addrs (ino s))) s in
  ino_ok s2 /\ (forall j, 0 <= j < MAXFILE -> blockno s2 j = if decide (j = k) then a else blockno s j) /\
  (forall j, 0 <= j < MAXFILE -> fblock s2 j = fblock s j) /\ ind s2 = ind s.
Proof.
  intros Hk H0 s2.
  assert (Hn : ind s2 = ind s). { unfold ind, s2. rewrite link_addr by lia. by rewrite decide_False by lia. }
  assert (Hb : forall j, 0 <= j < MAXFILE -> blockno s2 j = if decide (j = k) then a else blockno s j).
  { intros j Hj. unfold blockno. rewrite Hn. destruct (Z.ltb_spec j NDIRECT).
    - unfold s2. by rewrite link_addr by lia.
    - rewrite decide_False by lia. done. }
  split_and!; [|done| |done].
  - apply link_ok; [lia| | |lia].
    + intros j Hj. rewrite Hb by done. apply decide_ext. lia.
    + rewrite decide_False by lia. done.
  - intros j Hj. unfold fblock. rewrite Hb by done. case_decide; [|done]. subst j. rewrite H0.
    destruct Ha as (Ha1 & _). rewrite (proj2 (Z.eqb_neq a 0)) by lia. exact Hz.
Qed.

Lemma link_ind :
  ind s = 0 ->
  let s2 := mk (fs_blk s) (<[Z.to_nat NDIRECT := a]> (i_addrs (ino s))) s in
  ino_ok s2 /\ (forall j, 0 <= j < MAXFILE -> blockno s2 j = blockno s j) /\
  (forall j, 0 <= j < MAXFILE -> fblock s2 j = fblock s j) /\ ind s2 = a.
Proof.
  intros H0 s2. pose proof ndirect_pos. destruct Ha as (Ha1 & _).
  assert (Hn : ind s2 = a). { unfold ind, s2. rewrite link_addr by lia. by rewrite decide_True by lia. }
  assert (Hb : forall j, 0 <= j < MAXFILE -> blockno s2 j = blockno s j).
  { intros j Hj. unfold blockno. rewrite Hn, H0. destruct (Z.ltb_spec j NDIRECT).
    - unfold s2. rewrite link_addr by lia. by rewrite decide_False by lia.
    - rewrite (proj2 (Z.eqb_neq a 0)) by lia. change (view s2 a) with (view s a). rewrite Hz. apply ld32_zeros. }
  split_and!; [|done| |done].
  - apply link_ok; [lia| | |done].
    + intros j Hj. rewrite Hb by done. by rewrite decide_False by lia.
    + by rewrite decide_True.
  - intros j Hj. unfold fblock. by rewrite Hb.
Qed.
Lemma link_entry B' k :
  disk_ok s -> NDIRECT <= k < MAXFILE -> ind s <> 0 -> blockno s k = 0 ->
  (forall y, bl_view B' y =
     update (ind s) (st32 (view s (ind s)) (4 * Z.to_nat (k - NDIRECT)) a) (view s) y) ->
  let s2 := set_blk B' s in
  ino_ok s2 /\ (forall j, 0 <= j < MAXFILE -> blockno s2 j = if decide (j = k) then a else blockno s j) /\
  (forall j, 0 <= j < MAXFILE -> fblock s2 j = fblock s j).
Proof.
  intros Hd Hk Hn0 H0 Hv s2. pose proof ndirect_pos. pose proof maxfile_def. pose proof Ha as (Ha1 & _).
  pose proof (do_size s Hd) as Hsz. destruct (io_ind s Hi Hn0) as (N1 & N2 & N3 & N4 & N5 & N6).
  set (d := st32 _ _ _) in Hv.
  assert (Hl : length d = Z.to_nat BSIZE) by (unfold d; rewrite length_st32; apply Hd).
  assert (Hx : 0 <= ind s < sb_size (fs_sb s) /\ ind s <> 1 /\ ~ in_map s (ind s)) by (split; [lia|done]).
  pose proof (dw_view s B' (ind s) d Hv) as Hview. pose proof (dw_data_block s B' (ind s) d Hx Hl Hv) as Hdb.
  assert (Hb : forall j, 0 <= j < MAXFILE -> blockno s2 j = if decide (j = k) then a else blockno s j).
  { intros j Hj. unfold blockno. change (ino s2) with (ino s). change (ind s2) with (ind s).
    destruct (Z.ltb_spec j NDIRECT); [by rewrite decide_False by lia|]. rewrite (proj2 (Z.eqb_neq _ _) Hn0).
    unfold s2. rewrite Hview, decide_True by done. unfold d. rewrite ld32_st32 by (apply Hd || lia).
    apply decide_ext. lia. }
  split_and!; [|done|].
  - destruct Hi as [I1 I2 I3 I4 I5 I6 I7 I8]. constructor; try done.
    + intros j Hj. rewrite Hb by done. change (ind s2) with (ind s). intros Hnz. split.
      * apply Hdb. case_decide; [done|]. by apply I4.
      * case_decide; [congruence|]. by apply I4.
    + intros _. apply Hdb. by apply I5.
    + intros j j' Hj Hj'. rewrite !Hb by done.
      destruct (decide (j = k)), (decide (j' = k)); intros Hnz E; [congruence| | |by apply I6].
      * symmetry in E. by destruct (Hfresh j' Hj' E).
      * by destruct (Hfresh j Hj E).
    + rewrite (dw_use s B' (ind s) d Hx Hv) by lia. done.
    + destruct I8 as (J1 & J2 & J3). split; [done|]. split; [|done].
      change (iblk s2) with (iblk s). by rewrite (dw_use s B' (ind s) d Hx Hv) by lia.
  - intros j Hj. unfold fblock. rewrite Hb by done. case_decide as E.
    + subst j. rewrite H0. rewrite (proj2 (Z.eqb_neq a 0)) by lia. cbn [Z.eqb]. unfold s2. rewrite Hview.
      rewrite decide_False by congruence. exact Hz.
    + destruct (Z.eqb_spec (blockno s j) 0) as [|Hnz]; [done|]. unfold s2. rewrite Hview.
      rewrite decide_False; [done|]. by apply (io_blk s Hi).
Qed.
End link.
(** ** bmap *)

(** The blocks the indirect block may still cost: log entries and free blocks. *)
Definition c_ind (s : S) (T : gset Z) : nat := if ind s =? 0 then 2 else if decide (ind s ∈ T) then 0 else 1.
Definition f_ind (s : S) : nat := if ind s =? 0 then 1 else 0.

Record bmap_post (s : S) (T : gset Z) (k a : Z) (s' : S) (T' : gset Z) : Prop := {
  bm_shape : exists l, s' = mk (fs_blk s') l s;
  bm_ok : bl_ok (fs_blk s') ∅ T';
  bm_disk : disk_ok s';
  bm_ino : ino_ok s';
  bm_nz : a <> 0;
  bm_blockno : forall j, 0 <= j < MAXFILE -> blockno s' j = if decide (j = k) then a else blockno s j;
  bm_fblock : forall j, 0 <= j < MAXFILE -> fblock s' j = fblock s j;
  bm_old : blockno s k <> 0 ->
    a = blockno s k /\ s' = set_blk (fs_blk s') s /\ (forall y, view s' y = view s y) /\ T' = T;
  bm_fresh : blockno s k = 0 -> in_use s a = false /\ a ∈ T';
  bm_frame : forall y, 0 <= y < sb_size (fs_sb s) -> in_use s y = true -> ~ in_map s y -> y <> ind s -> view s' y = view s y;
  bm_use : forall y, 0 <= y < sb_size (fs_sb s) -> in_use s y = true -> in_use s' y = true;
  bm_ind : ind s' = ind s \/ in_use s (ind s') = false;
  bm_T : T ⊆ T';
  bm_cost : (size T' + c_ind s' T' <= size T + c_ind s T + (if decide (blockno s k = 0%Z) then 2 else 0))%nat;
  bm_free : (nfree s + f_ind s' <= nfree s' + f_ind s + (if decide (blockno s k = 0%Z) then 1 else 0))%nat
}.

Lemma c_ind_mono s s' T T' : ind s' = ind s -> T ⊆ T' -> (c_ind s' T' <= c_ind s T)%nat.
Proof.
  intros E HT. unfold c_ind. rewrite E. destruct (ind s =? 0); [done|].
  destruct (decide (ind s ∈ T)); [by rewrite decide_True by set_solver|]. case_decide; lia.
Qed.

(** A block layer with the same contents. *)
Section same_view.
Context (s : S) (B' : B).
Hypothesis Hv : forall y, bl_view B' y = view s y.
Notation s' := (set_blk B' s).

Lemma sv_view y : view s' y = view s y.
Proof. apply Hv. Qed.
Lemma sv_use b : in_use s' b = in_use s b.
Proof. unfold in_use. by rewrite sv_view. Qed.
Lemma sv_blockno j : blockno s' j = blockno s j.
Proof. unfold blockno. change (ino s') with (ino s). change (ind s') with (ind s). by rewrite sv_view. Qed.
Lemma sv_data_block y : data_block s' y <-> data_block s y.
Proof. unfold data_block. by rewrite sv_use. Qed.
Lemma sv_nfree : nfree s' = nfree s.
Proof. unfold nfree. cbn [fs_sb set_blk]. f_equal. apply filter_ext_in. intros b _. by rewrite sv_use. Qed.
Lemma sv_disk_ok : disk_ok s -> disk_ok s'.
Proof.
  intros [D1 D2 D3 D4 D5 (D6 & D7 & D8 & D9)]. constructor; cbn; try done.
  - intros y. by rewrite sv_view.
  - intros b Hb'. rewrite sv_use. by apply D4.
  - intros b Hb'. rewrite sv_use. by apply D5.
  - rewrite sv_use, sv_view. done.
Qed.
Lemma sv_ino_ok : ino_ok s -> ino_ok s'.
Proof.
  intros [I1 I2 I3 I4 I5 I6 I7 I8]. constructor; try done.
  - intros j Hj. rewrite sv_blockno, sv_data_block. by apply I4.
  - intros Hj. rewrite sv_data_block. by apply I5.
  - intros j j' Hj Hj'. rewrite !sv_blockno. by apply I6.
  - by rewrite sv_use.
  - rewrite sv_use. exact I8.
Qed.
End same_view.

(** The block is there. *)
Lemma bmap_hit s T k B' :
  disk_ok s -> ino_ok s -> 0 <= k < MAXFILE -> blockno s k <> 0 ->
  bl_ok B' ∅ T -> (forall y, bl_view B' y = view s y) ->
  bmap_post s T k (blockno s k) (set_blk B' s) T.
Proof.
  intros Hd Hi Hk Hn Hok Hv. set (s' := set_blk B' s). constructor; try done.
  - exists (i_addrs (ino s)). change (s' = set_blk B' (mk (fs_blk s) (i_addrs (ino s)) s)).
    by rewrite mk_id by apply (io_ip s Hi).
  - by apply sv_disk_ok.
  - by apply sv_ino_ok.
  - intros j Hj. unfold s'. rewrite sv_blockno by done. case_decide; [by subst|done].
  - intros j Hj. unfold fblock, s'. rewrite sv_blockno by done. by rewrite (sv_view s B' Hv).
  - intros y _ _ _ _. apply Hv.
  - intros y _ H. unfold s'. by rewrite sv_use.
  - by left.
  - rewrite decide_False by done. unfold c_ind. change (ind s') with (ind s). lia.
  - rewrite decide_False by done. unfold f_ind, s'. change (ind (set_blk B' s)) with (ind s). rewrite sv_nfree by done. lia.
Qed.

Lemma bmap_trans_ind s T s1 T1 k a s' T' :
  (* the indirect block was added first *)
  ind s = 0 -> blockno s k = 0 -> ino_ok s ->
  (exists l, s1 = mk (fs_blk s1) l s) ->
  (forall j, 0 <= j < MAXFILE -> blockno s1 j = blockno s j) ->
  (forall j, 0 <= j < MAXFILE -> fblock s1 j = fblock s j) ->
  (forall y, 0 <= y < sb_size (fs_sb s) -> in_use s y = true -> ~ in_map s y -> view s1 y = view s y) ->
  (forall y, 0 <= y < sb_size (fs_sb s) -> in_use s y = true -> in_use s1 y = true) ->
  in_use s (ind s1) = false -> ind s1 <> 0 -> ind s1 ∈ T1 -> T ⊆ T1 -> (size T1 <= size T + 2)%nat ->
  nfree s = Datatypes.S (nfree s1) -> 0 <= k < MAXFILE ->
  0 <= a < sb_size (fs_sb s) ->
  bmap_post s1 T1 k a s' T' -> ind s' = ind s1 -> bmap_post s T k a s' T'.
Proof.
  intros H0 Hk0 Hi (l & El) Hb Hf Hv Hu Hn Hn0 HnT HT Hsz Hfree Hk Ha P Ei.
  assert (Esb : fs_sb s1 = fs_sb s) by (rewrite El; done). destruct P.
  constructor; try done.
  - destruct bm_shape0 as [l' E']. exists l'. rewrite E' at 1. rewrite El. by rewrite mk_mk.
  - intros j Hj. rewrite bm_blockno0 by done. by rewrite Hb.
  - intros j Hj. rewrite bm_fblock0 by done. by apply Hf.
  - intros _. destruct bm_fresh0 as [Hfa HaT]; [by rewrite Hb|]. split; [|done].
    destruct (in_use s a) eqn:E; [|done]. rewrite Hu in Hfa; done.
  - intros y Hy Huy Hm _. rewrite bm_frame0.
    + by apply Hv.
    + by rewrite Esb.
    + by apply Hu.
    + unfold in_map in *. by rewrite Esb.
    + intros ->. congruence.
  - intros y Hy Huy. apply bm_use0; [by rewrite Esb|]. by apply Hu.
  - right. by rewrite Ei.
  - set_solver.
  - rewrite Hb in bm_cost0 by done. rewrite Hk0 in *. rewrite decide_True in * by done.
    unfold c_ind in *. rewrite H0. cbn [Z.eqb]. rewrite Ei in *. rewrite (proj2 (Z.eqb_neq _ _) Hn0) in *.
    rewrite (decide_True _ _ HnT) in bm_cost0. lia.
  - rewrite Hb in bm_free0 by done. rewrite Hk0 in *. rewrite decide_True in * by done.
    unfold f_ind in *. rewrite H0. cbn [Z.eqb]. rewrite Ei in *. rewrite (proj2 (Z.eqb_neq _ _) Hn0) in *. lia.
Qed.
Lemma disk_ok_mk l s : disk_ok s -> disk_ok (mk (fs_blk s) l s).
Proof. intros [D1 D2 D3 D4 D5 D6]. by constructor. Qed.

Lemma set_addr_mk s k a :
  (ip < length (inodes s))%nat ->
  set_addr ip k a s = Ret tt (mk (fs_blk s) (<[Z.to_nat k := a]> (i_addrs (ino s))) s).
Proof.
  intros Hl. unfold set_addr, upd_inode, kmodify, mk. f_equal. unfold set_blk, set_inodes. cbn. f_equal.
  apply list_alter_ext; [|done]. intros x Hx. unfold ino, inode_at. by rewrite (nth_lookup_Some _ _ _ _ Hx).
Qed.

Lemma held_ok_empty s : held_ok s ∅.
Proof. intros x Hx. set_solver. Qed.

Lemma max_held_pos : (0 < max_held)%nat.
Proof. apply Nat.ltb_lt. vm_compute. reflexivity. Qed.

(** A direct block that is missing. *)
Lemma bmap_direct_miss s T k a B1 :
  disk_ok s -> ino_ok s -> 0 <= k < NDIRECT -> k < MAXFILE -> blockno s k = 0 -> balloc_post s ∅ T a B1 ->
  bmap_post s T k a (mk B1 (<[Z.to_nat k := a]> (i_addrs (ino s))) s) ({[a]} ∪ ({[BBLOCK a (fs_sb s)]} ∪ T)).
Proof.
  intros Hd Hi Hk Hkm H0 Hp. destruct (balloc_bitmap s ∅ T a B1 Hd Hp) as [Hd1 Hu1].
  pose proof (fresh_ino_ok s ∅ T a B1 Hd Hi Hp) as Hi1. pose proof (fresh_zero s ∅ T a B1 Hp) as Hz.
  destruct (fresh_is_data s ∅ T a B1 Hd Hi Hp) as (Ha & Hnb & Hni).
  assert (Hb0 : blockno (set_blk B1 s) k = 0) by (by rewrite (fresh_blockno s ∅ T a B1 Hi Hp) by lia).
  destruct (link_direct (set_blk B1 s) a Hi1 Ha Hnb Hni Hz k Hk Hb0) as (Hi2 & Hb2 & Hf2 & Hn2).
  change (mk (fs_blk (set_blk B1 s)) (<[Z.to_nat k:=a]> (i_addrs (ino (set_blk B1 s)))) (set_blk B1 s))
    with (mk B1 (<[Z.to_nat k:=a]> (i_addrs (ino s))) s) in *.
  set (s' := mk B1 _ s) in *. pose proof Hp as [P1 P2 P3 P4 P5 P6]. constructor; try done.
  - by eexists.
  - by apply (disk_ok_mk _ (set_blk B1 s)).
  - destruct Ha as (Ha1 & _). lia.
  - intros j Hj. rewrite Hb2 by done. by rewrite (fresh_blockno s ∅ T a B1 Hi Hp).
  - intros j Hj. rewrite Hf2 by done. by rewrite (fresh_fblock s ∅ T a B1 Hi Hp).
  - intros _. split; [done|set_solver].
  - intros y Hy Hu Hm _. change (view s' y) with (view (set_blk B1 s) y).
    apply (fresh_view s ∅ T a B1 Hp); [by apply (fresh_ne s ∅ T a B1 Hp)|done].
  - intros y Hy Hu. change (in_use s' y) with (in_use (set_blk B1 s) y). rewrite Hu1 by done. by case_decide.
  - by left.
  - set_solver.
  - rewrite decide_True by done. pose proof (size_add a ({[BBLOCK a (fs_sb s)]} ∪ T)).
    pose proof (size_add (BBLOCK a (fs_sb s)) T).
    assert (c_ind s' ({[a]} ∪ ({[BBLOCK a (fs_sb s)]} ∪ T)) <= c_ind s T)%nat by (apply c_ind_mono; [done|set_solver]).
    lia.
  - rewrite decide_True by done. rewrite (fresh_nfree s ∅ T a B1 Hd Hp).
    change (nfree (set_blk B1 s)) with (nfree s'). unfold f_ind. rewrite Hn2. change (ind (set_blk B1 s)) with (ind s). lia.
Qed.
(** The indirect block that is missing. *)
Lemma bmap_ind_miss s T a B1 :
  disk_ok s -> ino_ok s -> ind s = 0 -> balloc_post s ∅ T a B1 ->
  let s1 := mk B1 (<[Z.to_nat NDIRECT := a]> (i_addrs (ino s))) s in
  disk_ok s1 /\ ino_ok s1 /\ ind s1 = a /\ a <> 0 /\ in_use s a = false /\ 0 <= a < sb_size (fs_sb s) /\
  (forall j, 0 <= j < MAXFILE -> blockno s1 j = blockno s j) /\
  (forall j, 0 <= j < MAXFILE -> fblock s1 j = fblock s j) /\
  (forall y, 0 <= y < sb_size (fs_sb s) -> in_use s y = true -> ~ in_map s y -> view s1 y = view s y) /\
  (forall y, 0 <= y < sb_size (fs_sb s) -> in_use s y = true -> in_use s1 y = true) /\
  nfree s = Datatypes.S (nfree s1).
Proof.
  intros Hd Hi H0 Hp s1. destruct (balloc_bitmap s ∅ T a B1 Hd Hp) as [Hd1 Hu1].
  pose proof (fresh_ino_ok s ∅ T a B1 Hd Hi Hp) as Hi1. pose proof (fresh_zero s ∅ T a B1 Hp) as Hz.
  destruct (fresh_is_data s ∅ T a B1 Hd Hi Hp) as (Ha & Hnb & Hni).
  destruct (link_ind (set_blk B1 s) a Hi1 Ha Hnb Hni Hz H0) as (Hi2 & Hb2 & Hf2 & Hn2).
  change (mk (fs_blk (set_blk B1 s)) (<[Z.to_nat NDIRECT:=a]> (i_addrs (ino (set_blk B1 s)))) (set_blk B1 s))
    with s1 in *.
  pose proof Hp as [P1 P2 P3 P4 P5 P6]. destruct Ha as (Ha1 & _).
  split; [by apply (disk_ok_mk _ (set_blk B1 s))|]. split; [done|]. split; [done|]. split; [lia|].
  split; [done|]. split; [done|]. split_and!.
  - intros j Hj. rewrite Hb2 by done. by rewrite (fresh_blockno s ∅ T a B1 Hi Hp).
  - intros j Hj. rewrite Hf2 by done. by rewrite (fresh_fblock s ∅ T a B1 Hi Hp).
  - intros y Hy Hu Hm. change (view s1 y) with (view (set_blk B1 s) y).
    apply (fresh_view s ∅ T a B1 Hp); [by apply (fresh_ne s ∅ T a B1 Hp)|done].
  - intros y Hy Hu. change (in_use s1 y) with (in_use (set_blk B1 s) y). rewrite Hu1 by done. by case_decide.
  - apply (fresh_nfree s ∅ T a B1 Hd Hp).
Qed.

(** The part of bmap that reads the indirect block. *)
Definition bmap_entry (dev addr bn : Z) : K S Z :=
  let! bp := bread dev addr in
  let! a := bdata bp in
  let addr := ld32 a (4 * Z.to_nat bn) in
  if addr =? 0 then
    let! addr := balloc dev in
    let! a := bdata bp in
    blog bp (st32 a (4 * Z.to_nat bn) addr) ;;
    brelse bp ;;
    kret addr
  else brelse bp ;; kret addr.

(** The log entries that a new entry of the indirect block takes. *)
Lemma entry_cost s T a m :
  ind s <> 0 -> (size ({[ind s]} ∪ ({[a]} ∪ ({[m]} ∪ T)) : gset Z) <= size T + c_ind s T + 2)%nat.
Proof.
  intros Hn. unfold c_ind. rewrite (proj2 (Z.eqb_neq _ _) Hn).
  pose proof (size_add a ({[m]} ∪ T)). pose proof (size_add m T). destruct (decide (ind s ∈ T)).
  - replace ({[ind s]} ∪ ({[a]} ∪ ({[m]} ∪ T))) with ({[a]} ∪ ({[m]} ∪ T)) by set_solver. lia.
  - pose proof (size_add (ind s) ({[a]} ∪ ({[m]} ∪ T))). lia.
Qed.

Lemma bmap_entry_spec s T k :
  bl_ok (fs_blk s) ∅ T -> disk_ok s -> ino_ok s -> NDIRECT <= k < MAXFILE -> ind s <> 0 ->
  (blockno s k = 0 -> (size T + c_ind s T + 2 <= max_logged /\ 0 < nfree s)%nat) ->
  wp (bmap_entry ROOTDEV (ind s) (k - NDIRECT)) s
    (fun a s' => exists T', bmap_post s T k a s' T' /\ ind s' = ind s).
Proof.
  intros Hok Hd Hi Hk Hn Hroom. pose proof ndirect_pos as Hnd. pose proof maxfile_def as Hmf.
  destruct (io_ind s Hi Hn) as (N1 & N2 & N3 & N4 & N5 & N6). set (x := ind s) in *.
  assert (Ebn : blockno s k = ld32 (view s x) (4 * Z.to_nat (k - NDIRECT))).
  { unfold blockno. rewrite (proj2 (Z.ltb_ge _ _)) by lia. by rewrite (proj2 (Z.eqb_neq (ind s) 0) Hn). }
  assert (HX : (size ({[x]} ∪ ∅ : gset Z) <= 1)%nat)
    by (rewrite (right_id_L ∅ (∪)), size_singleton; done).
  assert (Hmh : (1 < max_held)%nat) by (apply Nat.ltb_lt; vm_compute; reflexivity).
  unfold bmap_entry. apply wp_bind.
  eapply (wp_bread s ∅ T x); [done|set_solver|apply (do_block s Hd); lia|rewrite size_empty; apply max_held_pos|].
  intros bp B1 Ok1 Hh1 V1 K1. apply wp_bind. eapply (wp_bdata _ ({[x]} ∪ ∅) T x); [done|set_solver|done|].
  rewrite sv_view by done. rewrite <- Ebn. destruct (Z.eqb_spec (blockno s k) 0) as [H0|H0].
  - destruct (Hroom H0) as [HT Hfr]. set (s1 := set_blk B1 s) in *.
    assert (Hd1 : disk_ok s1) by (by apply sv_disk_ok). assert (Hi1 : ino_ok s1) by (by apply sv_ino_ok).
    assert (Hf1 : nfree s1 = nfree s) by (by apply sv_nfree).
    apply wp_bind. eapply wp_mono; [eapply (balloc_spec s1 ({[x]} ∪ ∅) T); try done|].
    { intros y Hy. assert (y = x) as -> by set_solver. unfold s1. by rewrite sv_use. }
    { intros b Hb Hin. apply N5. exists b. split; [done|set_solver]. }
    { lia. } { lia. } { apply nfree_pos. by rewrite Hf1. }
    intros a s2 (B2 & -> & Hp). destruct (balloc_bitmap s1 _ T a B2 Hd1 Hp) as [Hd2 Hu2].
    pose proof (fresh_ino_ok s1 _ T a B2 Hd1 Hi1 Hp) as Hi2. pose proof (fresh_zero s1 _ T a B2 Hp) as Hz.
    destruct (fresh_is_data s1 _ T a B2 Hd1 Hi1 Hp) as (Ha & Hnb & Hni). set (s2 := set_blk B2 s1) in *.
    pose proof Hp as [P1 P2 P3 P4 P5 P6]. change (fs_sb s1) with (fs_sb s) in *.
    assert (Hh2 : bl_holds B2 x bp) by (apply P5; [set_solver|done]).
    assert (Hvx : view s2 x = view s x).
    { unfold s2. rewrite (fresh_data_view s1 _ T a B2 Hp); [by apply V1|]. by apply sv_data_block. }
    apply wp_bind. eapply (wp_bdata _ ({[x]} ∪ ∅) _ x); [exact P4|set_solver|done|].
    eapply (wp_rewrite s2 ∅ _ x bp); [exact P4|set_solver|done|apply (do_block s Hd); lia|done| |].
    { etrans; [by apply entry_cost|]. lia. }
    intros B3 Ok3 V3 K3. apply wp_ret. set (s3 := set_blk B3 s2).
    assert (Hb2 : forall j, 0 <= j < MAXFILE -> blockno s2 j = blockno s j).
    { intros j Hj. unfold s2. rewrite (fresh_blockno s1 _ T a B2 Hi1 Hp) by done. by apply sv_blockno. }
    destruct (link_entry s2 a Hi2 Ha Hnb Hni Hz B3 k Hd2 Hk Hn) as (Hi3 & Hb3 & Hf3); [by rewrite Hb2 by lia|done|].
    fold s3 in Hi3, Hb3, Hf3.
    assert (Hx2 : 0 <= x < sb_size (fs_sb s2) /\ x <> 1 /\ ~ in_map s2 x) by (split; [cbn; lia|done]).
    assert (Hl3 : length (st32 (view s2 x) (4 * Z.to_nat (k - NDIRECT)) a) = Z.to_nat BSIZE)
      by (rewrite length_st32; apply Hd2).
    assert (Hu3 : forall b, 0 <= b < sb_size (fs_sb s) -> in_use s3 b = if decide (b = a) then true else in_use s b).
    { intros b Hb. unfold s3. rewrite (dw_use s2 B3 x _ Hx2 V3) by done. unfold s2. rewrite Hu2 by done.
      case_decide; [done|]. by apply sv_use. }
    eexists. split; [|done]. constructor.
    + exists (i_addrs (ino s)). change (s3 = set_blk B3 (mk (fs_blk s) (i_addrs (ino s)) s)).
      by rewrite mk_id by apply (io_ip s Hi).
    + exact Ok3.
    + by eapply dw_disk_ok.
    + done.
    + destruct Ha as (Ha1 & _). lia.
    + intros j Hj. rewrite Hb3 by done. by rewrite Hb2.
    + intros j Hj. rewrite Hf3 by done. unfold s2. rewrite (fresh_fblock s1 _ T a B2 Hi1 Hp) by done.
      unfold fblock, s1. rewrite sv_blockno by done. by rewrite sv_view.
    + done.
    + intros _. split; [|set_solver]. by rewrite <- (sv_use s B1 V1).
    + intros y Hy Hu Hm Hyx. unfold s3. rewrite (dw_view s2 B3 x _ V3), decide_False by done.
      unfold s2. rewrite (fresh_view s1 _ T a B2 Hp); [by apply V1| |done].
      apply (fresh_ne s1 _ T a B2 Hp). unfold s1. by rewrite sv_use.
    + intros y Hy Hu. rewrite Hu3 by done. by case_decide.
    + by left.
    + set_solver.
    + rewrite decide_True by done. unfold c_ind. change (ind s3) with (ind s). fold x.
      rewrite (proj2 (Z.eqb_neq _ _) Hn). rewrite (decide_True (P := x ∈ {[x]} ∪ _)) by set_solver.
      pose proof (entry_cost s T a (BBLOCK a (fs_sb s)) Hn) as Hc. unfold c_ind in Hc. fold x in Hc.
      rewrite (proj2 (Z.eqb_neq _ _) Hn) in Hc. lia.
    + rewrite decide_True by done. unfold f_ind. change (ind s3) with (ind s).
      unfold s3. rewrite (dw_nfree s2 B3 x _ Hx2 Hl3 V3). pose proof (fresh_nfree s1 _ T a B2 Hd1 Hp) as Hnf.
      fold s2 in Hnf. lia.
  - apply wp_bind. eapply (wp_brelse _ ({[x]} ∪ ∅) T x bp); [done|set_solver|done|]. intros B2 Ok2 V2 K2.
    apply wp_ret. exists T. split; [|done].
    replace (({[x]} ∪ ∅) ∖ {[x]}) with (∅ : gset Z) in Ok2 by set_solver.
    change (set_blk B2 (set_blk B1 s)) with (set_blk B2 s). apply bmap_hit; try done; [lia|].
    intros y. rewrite V2. by apply sv_view.
Qed.
Lemma bmap_spec s T k :
  bl_ok (fs_blk s) ∅ T -> disk_ok s -> ino_ok s -> 0 <= k < MAXFILE ->
  (blockno s k = 0 -> (size T + c_ind s T + 2 <= max_logged /\ f_ind s < nfree s)%nat) ->
  wp (bmap ip k) s (fun a s' => exists T', bmap_post s T k a s' T').
Proof.
  intros Hok Hd Hi Hk Hroom. pose proof ndirect_pos as Hnd. pose proof maxfile_def as Hmf. pose proof maxfile_small as Hms.
  pose proof bsize_pos as Hbs. pose proof (io_ip s Hi) as Hip. unfold bmap, iget_field.
  apply wp_bind, wp_get. change (i_dev (inode_at s ip)) with (i_dev (ino s)). rewrite (io_dev s Hi).
  assert (Hball : (size T + 2 <= max_logged)%nat -> (0 < nfree s)%nat ->
    wp (balloc ROOTDEV) s (fun b s' => exists B', s' = set_blk B' s /\ balloc_post s ∅ T b B')).
  { intros HT Hf. apply balloc_spec; [done|done|apply held_ok_empty|intros b _; set_solver| |done|by apply nfree_pos].
    rewrite size_empty. apply max_held_pos. }
  destruct (Z.ltb_spec k NDIRECT) as [Hlt|Hge].
  - unfold get_addr, iget_field. apply wp_bind, wp_get. fold (ino s).
    assert (Eb : nth (Z.to_nat k) (i_addrs (ino s)) 0 = blockno s k)
      by (unfold blockno; by rewrite (proj2 (Z.ltb_lt _ _) Hlt)).
    rewrite Eb. destruct (Z.eqb_spec (blockno s k) 0) as [H0|H0].
    + destruct (Hroom H0) as [HT Hf]. apply wp_bind. eapply wp_mono; [apply Hball; lia|].
      intros a s1 (B1 & -> & Hp). apply wp_bind. unfold wp at 1. rewrite set_addr_mk by done. apply wp_ret.
      eexists. eapply (bmap_direct_miss s T k a B1); (done || lia).
    + apply wp_ret. exists T. pose proof (bmap_hit s T k (fs_blk s) Hd Hi Hk H0 Hok (fun y => eq_refl)) as P.
      replace (set_blk (fs_blk s) s) with s in P by (by destruct s). exact P.
  - rewrite (u32_small (k - NDIRECT)) by nia. rewrite (proj2 (Z.ltb_lt (k - NDIRECT) NINDIRECT)) by lia.
    unfold get_addr, iget_field. apply wp_bind, wp_get. fold (ino s). fold (ind s).
    change (fun addr => let! bp := bread ROOTDEV addr in _) with (fun addr => bmap_entry ROOTDEV addr (k - NDIRECT)).
    apply wp_bind. destruct (Z.eqb_spec (ind s) 0) as [Hn|Hn].
    + assert (H0 : blockno s k = 0).
      { unfold blockno. rewrite (proj2 (Z.ltb_ge _ _)) by lia. by rewrite Hn. }
      destruct (Hroom H0) as [HT Hf]. unfold c_ind, f_ind in HT, Hf. rewrite Hn in HT, Hf. cbn [Z.eqb] in HT, Hf.
      apply wp_bind. eapply wp_mono; [apply Hball; lia|]. intros a s1 (B1 & -> & Hp). apply wp_bind. unfold wp at 1.
      rewrite set_addr_mk by done. apply wp_ret.
      destruct (bmap_ind_miss s T a B1 Hd Hi Hn Hp) as (Hd1 & Hi1 & En & Ha0 & Hfa & Har & Hb1 & Hf1 & Hv1 & Hu1 & Hnf).
      change (mk (fs_blk (set_blk B1 s)) (<[Z.to_nat NDIRECT:=a]> (i_addrs (ino (set_blk B1 s)))) (set_blk B1 s))
        with (mk B1 (<[Z.to_nat NDIRECT:=a]> (i_addrs (ino s))) s).
      set (s1 := mk B1 _ s) in *. rewrite <- En. set (T1 := {[a]} ∪ ({[BBLOCK a (fs_sb s)]} ∪ T) : gset Z).
      assert (HT1 : (size T1 <= size T + 2)%nat).
      { pose proof (size_add a ({[BBLOCK a (fs_sb s)]} ∪ T)). pose proof (size_add (BBLOCK a (fs_sb s)) T). unfold T1. lia. }
      eapply wp_mono; [apply (bmap_entry_spec s1 T1 k); [apply Hp|done|done|lia|by rewrite En|]|].
      * intros _. unfold c_ind. rewrite En, (proj2 (Z.eqb_neq _ _) Ha0).
        rewrite decide_True by (unfold T1; set_solver). lia.
      * intros a' s' (T' & P & Ei). exists T'. eapply (bmap_trans_ind s T s1 T1); try done.
        -- by eexists.
        -- by rewrite En.
        -- by rewrite En.
        -- rewrite En. unfold T1. set_solver.
        -- unfold T1. set_solver.
        -- destruct (io_blk s' (bm_ino _ _ _ _ _ _ P) k Hk) as [(Hr & _) _].
           { rewrite (bm_blockno _ _ _ _ _ _ P) by done. rewrite decide_True by done. apply P. }
           rewrite (bm_blockno _ _ _ _ _ _ P), decide_True in Hr by done.
           destruct (bm_shape _ _ _ _ _ _ P) as [l El]. rewrite El in Hr. cbn in Hr. lia.
    + apply wp_ret. eapply wp_mono; [apply (bmap_entry_spec s T k); [done|done|done|lia|done|]|].
      * intros H0. destruct (Hroom H0). lia.
      * intros a s' (T' & P & _). by exists T'.
Qed.
End file.
