(* ===== verification/FsRw.v ===== *)
(** * Reading and writing files: readi, writei and iupdate (fs.c) *)

From S2P Require Import Prelude Layout Sleeplock Fsdefs Fs FsBlocks FsAlloc FsFile.

Section rw.
Context `{FH : FsH} {FL : FsLaws} {B : Type} `{BL : BlockLayer B} {LL : BlockLaws B}.
Notation S := (fsstate B).
Implicit Types (s : S) (T : gset Z).
Variable ip : nat.
Notation ino := (ino ip).
Notation ind := (ind ip).
Notation blockno := (blockno ip).
Notation fblock := (fblock ip).
Notation fbyte := (fbyte ip).
Notation ino_ok := (ino_ok ip).
Notation mk := (mk ip).

Lemma mod_bsize x : 0 <= x mod BSIZE < BSIZE.
Proof. apply Z.mod_pos_bound. pose proof bsize_pos. lia. Qed.
Lemma div_bsize x : x = BSIZE * (x / BSIZE) + x mod BSIZE.
Proof. apply Z.div_mod. pose proof bsize_pos. lia. Qed.

Lemma fblock_length s k : disk_ok s -> length (fblock s k) = Z.to_nat BSIZE.
Proof.
  intros Hd. unfold FsFile.fblock, zeros. destruct (_ =? 0); [by rewrite length_replicate|apply Hd].
Qed.

(** The bytes of one block. *)
Lemma fblock_chunk s off m :
  disk_ok s -> 0 <= off -> 0 <= m -> off mod BSIZE + m <= BSIZE ->
  take (Z.to_nat m) (drop (Z.to_nat (off mod BSIZE)) (fblock s (off / BSIZE))) = fbyte s <$> seqZ off m.
Proof.
  intros Hd Ho Hm Hle. pose proof bsize_pos as Hb. pose proof (mod_bsize off). 
  pose proof (fblock_length s (off / BSIZE) Hd) as Hl. apply list_eq. intros i. rewrite list_lookup_fmap.
  destruct (decide (i < Z.to_nat m)%nat) as [Hi|Hi].
  - rewrite lookup_take_lt, lookup_drop by done. rewrite lookup_seqZ_lt by lia. cbn.
    rewrite (nth_lookup_lt _ _ 0) by (rewrite Hl; lia). f_equal. unfold FsFile.fbyte.
    assert (E : (off + Z.of_nat i) / BSIZE = off / BSIZE /\ (off + Z.of_nat i) mod BSIZE = off mod BSIZE + Z.of_nat i).
    { pose proof (div_bsize off). 
      replace (off + Z.of_nat i) with (off / BSIZE * BSIZE + (off mod BSIZE + Z.of_nat i)) by lia.
      rewrite Z.div_add_l, (Z.div_small (_ + Z.of_nat i)) by lia.
      rewrite (Z.add_comm (_ * BSIZE)), Z.mod_add, Z.mod_small by lia. lia. }
    destruct E as [-> ->]. f_equal. lia.
  - rewrite lookup_take_ge by lia. rewrite lookup_seqZ_ge by lia. done.
Qed.

Lemma sv_fbyte s B' o : (forall y, bl_view B' y = view s y) -> fbyte (set_blk B' s) o = fbyte s o.
Proof.
  intros Hv. unfold FsFile.fbyte, FsFile.fblock. rewrite (sv_blockno ip s B' Hv). by rewrite (sv_view s B' Hv).
Qed.

(** *** readi *)

Lemma min_u_eq a b : min_u a b = Z.min a b.
Proof. unfold min_u. destruct (Z.ltb_spec a b); lia. Qed.

(** The size of one step of the loops: up to the end of the block or of the request. *)
Lemma step_size off n tot :
  0 <= tot < n -> n < 2147483648 ->
  let m := min_u (u32 (n - tot)) (u32 (BSIZE - off mod BSIZE)) in
  m = Z.min (n - tot) (BSIZE - off mod BSIZE) /\ 0 < m /\ off mod BSIZE + m <= BSIZE.
Proof.
  intros Ht Hn m. pose proof bsize_pos as Hb. pose proof (mod_bsize off).
  unfold m. rewrite min_u_eq, !u32_small by lia. lia.
Qed.

(** After a whole step either the request is done or the offset is at a block boundary. *)
Lemma next_off off n tot m :
  0 <= off -> 0 <= tot < n -> m = Z.min (n - tot) (BSIZE - off mod BSIZE) ->
  tot + m = n \/ (off + m = (off / BSIZE + 1) * BSIZE /\ (off + m) mod BSIZE = 0 /\ (off + m) / BSIZE = off / BSIZE + 1).
Proof.
  intros Ho Ht ->. pose proof bsize_pos. pose proof (div_bsize off).
  destruct (Z.min_spec (n - tot) (BSIZE - off mod BSIZE)) as [[_ ->]|[_ ->]]; [left; lia|right].
  assert (E : off + (BSIZE - off mod BSIZE) = (off / BSIZE + 1) * BSIZE) by lia.
  rewrite E, Z.mod_mul, Z.div_mul by lia. done.
Qed.

Lemma readi_loop_spec fuel : forall s T off n tot,
  bl_ok (fs_blk s) ∅ T -> disk_ok s -> ino_ok s -> 0 <= off -> 0 <= tot <= n -> n < 2147483648 ->
  off + (n - tot) <= MAXFILE * BSIZE ->
  (forall k, off / BSIZE <= k -> k * BSIZE < off + (n - tot) -> blockno s k <> 0) ->
  off mod BSIZE + (n - tot) <= Z.of_nat fuel * BSIZE ->
  wp (readi_loop fuel ip off n tot) s (fun l s' => exists B', s' = set_blk B' s /\ bl_ok B' ∅ T /\
    (forall y, bl_view B' y = view s y) /\ l = fbyte s <$> seqZ off (n - tot)).
Proof.
  pose proof bsize_pos as Hb. pose proof maxfile_small as Hms.
  induction fuel as [|fuel IH]; intros s T off n tot Hok Hd Hi Ho Ht Hn Hmax Hpres Hfuel; cbn [readi_loop];
    pose proof (mod_bsize off) as Hmod;
    (destruct (Z.ltb_spec tot n) as [Hlt|Hge];
      [|apply wp_ret; exists (fs_blk s); split_and!; [by destruct s|done|done|by rewrite seqZ_nil by lia]]); [lia|].
  destruct (step_size off n tot) as (Em & Hm0 & Hm1); [lia|lia|]. set (m := min_u _ _) in *.
  set (k := off / BSIZE) in *.
  assert (Hk : 0 <= k < MAXFILE).
  { unfold k. split; [by apply Z.div_pos; lia|]. apply Z.div_lt_upper_bound; lia. }
  assert (Hkn : blockno s k <> 0).
  { apply Hpres; [done|]. unfold k. pose proof (div_bsize off). lia. }
  unfold iget_field. apply wp_bind, wp_get. change (i_dev (inode_at s ip)) with (i_dev (ino s)). rewrite (io_dev ip s Hi).
  apply wp_bind. eapply wp_mono; [by apply (bmap_spec ip s T k)|]. intros a s1 (T1 & P).
  destruct (bm_old ip _ _ _ _ _ _ P Hkn) as (-> & Es1 & Hv1 & ->).
  pose proof (bm_ok ip _ _ _ _ _ _ P) as Ok1. destruct (io_blk ip s Hi k Hk Hkn) as [(Ha1 & _) _].
  rewrite Es1. set (B1 := fs_blk s1) in *. apply wp_bind.
  eapply (wp_bread _ ∅ T (blockno s k)); [exact Ok1|set_solver|apply (do_block s Hd); lia|rewrite size_empty; apply max_held_pos|].
  intros bp B2 Ok2 Hh2 V2 K2. apply wp_bind.
  eapply (wp_bdata _ ({[blockno s k]} ∪ ∅) T (blockno s k)); [exact Ok2|set_solver|done|].
  assert (V2' : forall y, bl_view B2 y = view s y).
  { intros y. rewrite V2. change (view (set_blk B1 s) y) with (bl_view B1 y). rewrite <- Hv1. done. }
  rewrite (sv_view (set_blk B1 s) B2 V2). change (view (set_blk B1 s) (blockno s k)) with (bl_view B1 (blockno s k)).
  replace (bl_view B1 (blockno s k)) with (fblock s k).
  2: { unfold FsFile.fblock. rewrite (proj2 (Z.eqb_neq _ _) Hkn). symmetry. apply Hv1. }
  rewrite fblock_chunk by (done || lia).
  apply wp_bind. eapply (wp_brelse _ ({[blockno s k]} ∪ ∅) T (blockno s k) bp); [exact Ok2|set_solver|done|].
  intros B3 Ok3 V3 K3. replace (({[blockno s k]} ∪ ∅) ∖ {[blockno s k]}) with (∅ : gset Z) in Ok3 by set_solver.
  assert (V3' : forall y, bl_view B3 y = view s y) by (intros y; rewrite V3; apply V2').
  change (set_blk B3 (set_blk B2 (set_blk B1 s))) with (set_blk B3 s).
  rewrite !u32_small by lia. apply wp_bind.
  destruct (next_off off n tot m) as [Hdone|(Hb1 & Hb2 & Hb3)]; [done|lia|done| |].
  - rewrite Hdone. destruct fuel; cbn [readi_loop]; rewrite Z.ltb_irrefl; apply wp_ret, wp_ret;
      (exists B3; split_and!; [done|done|done|]; rewrite app_nil_r; do 2 f_equal; lia).
  - eapply wp_mono; [apply (IH (set_blk B3 s) T (off + m) n (tot + m))|].
    + done.
    + by apply sv_disk_ok.
    + by apply sv_ino_ok.
    + lia.
    + lia.
    + lia.
    + lia.
    + intros j Hj1 Hj2. rewrite sv_blockno by done. apply Hpres; [unfold k in *; lia|lia].
    + lia.
    + intros l s' (B4 & -> & Ok4 & V4 & ->). apply wp_ret. exists B4. split_and!; [done|done| |].
      * intros y. rewrite V4. by apply sv_view.
      * replace (n - tot) with (m + (n - (tot + m))) by lia. rewrite seqZ_app by lia. rewrite fmap_app. f_equal.
        apply list_fmap_ext. intros i o _. by apply sv_fbyte.
Qed.

(** A file without holes: every block below the size is there. *)
Definition full (s : S) : Prop :=
  0 <= i_size (ino s) <= MAXFILE * BSIZE /\ forall k, 0 <= k -> k * BSIZE < i_size (ino s) -> blockno s k <> 0.

Lemma readi_spec dr s T off n :
  bl_ok (fs_blk s) ∅ T -> disk_ok s -> ino_ok s -> full s -> i_type (ino s) <> T_DEV ->
  0 <= off < 4294967296 -> 0 <= n < 4294967296 ->
  wp (readi dr ip off n) s (fun r s' => exists B', s' = set_blk B' s /\ bl_ok B' ∅ T /\
    (forall y, bl_view B' y = view s y) /\
    if (i_size (ino s) <? off) || (4294967296 <=? off + n) then r = (-1, [])
    else r = (Z.min n (i_size (ino s) - off), fbyte s <$> seqZ off (Z.min n (i_size (ino s) - off)))).
Proof.
  intros Hok Hd Hi [Hs Hf] Hty Ho Hn. pose proof bsize_pos as Hb. pose proof maxfile_small as Hms.
  unfold readi, iget_field. apply wp_bind, wp_get. unfold id. change (inode_at s ip) with (ino s).
  rewrite (proj2 (Z.eqb_neq _ _) Hty).
  replace (u32 (off + n) <? off) with (4294967296 <=? off + n).
  2: { destruct (Z.leb_spec 4294967296 (off + n)), (Z.ltb_spec (u32 (off + n)) off); (done || dlia). }
  destruct ((i_size (ino s) <? off) || (4294967296 <=? off + n)) eqn:Eg.
  { apply wp_ret. exists (fs_blk s). split_and!; [by destruct s|done..]. }
  apply orb_false_iff in Eg as [E1%Z.ltb_ge E2%Z.leb_gt]. rewrite (u32_small (off + n)), (u32_small (i_size (ino s) - off)) by lia.
  assert (En : (if i_size (ino s) <? off + n then i_size (ino s) - off else n) = Z.min n (i_size (ino s) - off)).
  { destruct (Z.ltb_spec (i_size (ino s)) (off + n)); lia. }
  rewrite En. set (n' := Z.min n (i_size (ino s) - off)) in *. apply wp_bind.
  eapply wp_mono; [apply (readi_loop_spec _ s T off n' 0); try done; try lia|].
  - intros k Hk1 Hk2. apply Hf; [|lia]. assert (0 <= off / BSIZE) by (apply Z.div_pos; lia). lia.
  - pose proof (mod_bsize off). pose proof (div_bsize n'). assert (0 <= n' / BSIZE) by (apply Z.div_pos; lia).
    rewrite Z2Nat.id by lia. pose proof (mod_bsize n'). lia.
  - intros l s' (B' & -> & Ok' & V' & ->). apply wp_ret. exists B'. rewrite Z.sub_0_r, s32_small by lia. done.
Qed.
(** *** Writing one block of the file *)

Section wblock.
Context (s : S) (B' : B) (k : Z) (d : list Z).
Hypothesis Hd : disk_ok s.
Hypothesis Hi : ino_ok s.
Hypothesis Hk : 0 <= k < MAXFILE.
Hypothesis Hn : blockno s k <> 0.
Hypothesis Hl : length d = Z.to_nat BSIZE.
Hypothesis Hv : forall y, bl_view B' y = update (blockno s k) d (view s) y.
Notation s' := (set_blk B' s).

Lemma wb_meta : 0 <= blockno s k < sb_size (fs_sb s) /\ blockno s k <> 1 /\ ~ in_map s (blockno s k).
Proof. destruct (io_blk ip s Hi k Hk Hn) as [(H1 & _ & _ & H2 & H3 & _) _]. split; [lia|done]. Qed.

Lemma wb_blockno j : blockno s' j = blockno s j.
Proof.
  unfold FsFile.blockno. change (ino s') with (ino s). change (ind s') with (ind s).
  destruct (j <? NDIRECT); [done|]. destruct (ind s =? 0); [done|].
  rewrite (dw_view s B' (blockno s k) d Hv), decide_False; [done|].
  destruct (io_blk ip s Hi k Hk Hn) as [_ H]. congruence.
Qed.

Lemma wb_fblock j : 0 <= j < MAXFILE -> fblock s' j = if decide (j = k) then d else fblock s j.
Proof.
  intros Hj. unfold FsFile.fblock. rewrite wb_blockno. case_decide as E.
  - subst j. rewrite (proj2 (Z.eqb_neq _ _) Hn). rewrite (dw_view s B' _ d Hv). by rewrite decide_True.
  - destruct (Z.eqb_spec (blockno s j) 0) as [|Hnj]; [done|]. rewrite (dw_view s B' _ d Hv).
    rewrite decide_False; [done|]. intros Eb. by apply E, (io_inj ip s Hi).
Qed.

Lemma wb_ino_ok : ino_ok s'.
Proof.
  pose proof wb_meta as Hm. destruct Hi as [I1 I2 I3 I4 I5 I6 I7 I8].
  pose proof (dw_data_block ip s B' (blockno s k) d Hm Hl Hv) as Hdb.
  assert (Hu : forall b, 0 <= b < sb_size (fs_sb s) -> in_use s' b = in_use s b)
    by (intros b Hb; by apply (dw_use s B' (blockno s k) d Hm Hv)).
  constructor; try done.
  - intros j Hj. rewrite wb_blockno. rewrite Hdb. by apply I4.
  - intros Hj. apply Hdb. by apply I5.
  - intros j j' Hj Hj'. rewrite !wb_blockno. by apply I6.
  - rewrite Hu; [done|]. pose proof (do_size s Hd). lia.
  - destruct I8 as (J1 & J2 & J3). split; [done|]. split; [|done]. change (iblk ip s') with (iblk ip s). by rewrite Hu by lia.
Qed.
End wblock.

(** Bytes after the block of [off] was replaced from [off] on. *)
Lemma splice_nth (o : nat) (src d : list Z) (i : nat) :
  (o + length src <= length d)%nat ->
  nth i (splice o src d) 0 = if decide (o <= i < o + length src)%nat then nth (i - o) src 0 else nth i d 0.
Proof.
  intros Hl. unfold splice. case_decide as E.
  - rewrite app_nth2 by (rewrite length_take; lia). rewrite length_take_le by lia. by rewrite app_nth1 by lia.
  - destruct (decide (i < o)%nat).
    + rewrite app_nth1 by (rewrite length_take; lia). rewrite !nth_lookup. by rewrite lookup_take_lt.
    + rewrite app_nth2 by (rewrite length_take; lia). rewrite length_take_le by lia. rewrite app_nth2 by lia.
      rewrite !nth_lookup, lookup_drop. do 2 f_equal. lia.
Qed.

Lemma length_splice (o : nat) (src d : list Z) : (o + length src <= length d)%nat -> length (splice o src d) = length d.
Proof. intros Hl. unfold splice. rewrite !length_app, length_take, length_drop. lia. Qed.

Lemma write_bytes s B' src off o :
  disk_ok s -> ino_ok s -> 0 <= off -> off / BSIZE < MAXFILE -> blockno s (off / BSIZE) <> 0 ->
  off mod BSIZE + Z.of_nat (length src) <= BSIZE ->
  (forall y, bl_view B' y =
     update (blockno s (off / BSIZE)) (splice (Z.to_nat (off mod BSIZE)) src (fblock s (off / BSIZE))) (view s) y) ->
  0 <= o < MAXFILE * BSIZE ->
  fbyte (set_blk B' s) o =
    if decide (off <= o < off + Z.of_nat (length src)) then nth (Z.to_nat (o - off)) src 0 else fbyte s o.
Proof.
  intros Hd Hi Ho Hk Hn Hle Hv Hr. pose proof bsize_pos as Hb. pose proof (mod_bsize off) as Hm.
  assert (Hk0 : 0 <= off / BSIZE) by (apply Z.div_pos; lia).
  pose proof (fblock_length s (off / BSIZE) Hd) as Hl.
  assert (Ho1 : 0 <= o / BSIZE < MAXFILE) by (split; [apply Z.div_pos; lia|apply Z.div_lt_upper_bound; lia]).
  unfold FsFile.fbyte. rewrite (wb_fblock s B' (off / BSIZE) _ Hi (conj Hk0 Hk) Hn Hv) by done.
  pose proof (div_bsize off) as Eoff. pose proof (div_bsize o) as Eo. pose proof (mod_bsize o) as Hmo.
  destruct (decide (o / BSIZE = off / BSIZE)) as [E|E].
  - rewrite E in *. rewrite splice_nth by (rewrite Hl; lia).
    destruct (decide (off <= o < off + Z.of_nat (length src))).
    + rewrite decide_True by lia. f_equal. lia.
    + rewrite decide_False by lia. done.
  - rewrite decide_False; [done|]. intros Hin. apply E.
    assert (0 <= o - BSIZE * (off / BSIZE) < BSIZE) by lia.
    symmetry. apply (Z.div_unique _ _ _ (o - BSIZE * (off / BSIZE))); lia.
Qed.
(** *** writei *)

(** [src] was written at [off], taking [c] more log entries and [f] more blocks at most. *)
Record wr_post (s : S) (T : gset Z) (off : Z) (src : list Z) (s' : S) (T' : gset Z) (c f : nat) : Prop := {
  wr_shape : exists l, s' = mk (fs_blk s') l s;
  wr_ok : bl_ok (fs_blk s') ∅ T';
  wr_disk : disk_ok s';
  wr_ino : ino_ok s';
  wr_bytes : forall o, 0 <= o < MAXFILE * BSIZE -> fbyte s' o =
    if decide (off <= o < off + Z.of_nat (length src)) then nth (Z.to_nat (o - off)) src 0 else fbyte s o;
  wr_old : forall k, 0 <= k < MAXFILE -> blockno s k <> 0 -> blockno s' k = blockno s k;
  wr_new : forall k, 0 <= k < MAXFILE -> blockno s' k = blockno s k \/ in_use s (blockno s' k) = false;
  wr_pres : forall k, off / BSIZE <= k -> k * BSIZE < off + Z.of_nat (length src) -> blockno s' k <> 0;
  wr_frame : forall y, 0 <= y < sb_size (fs_sb s) -> in_use s y = true -> ~ in_map s y -> y <> ind s ->
    (forall k, 0 <= k < MAXFILE -> blockno s k <> y) -> view s' y = view s y;
  wr_use : forall y, 0 <= y < sb_size (fs_sb s) -> in_use s y = true -> in_use s' y = true;
  wr_ind : ind s' = ind s \/ in_use s (ind s') = false;
  wr_same : (forall k, off / BSIZE <= k -> k * BSIZE < off + Z.of_nat (length src) -> blockno s k <> 0) ->
    s' = set_blk (fs_blk s') s;
  wr_T : T ⊆ T';
  wr_cost : (size T' + c_ind ip s' T' <= size T + c_ind ip s T + c)%nat;
  wr_free : (nfree s + f_ind ip s' <= nfree s' + f_ind ip s + f)%nat
}.

Lemma wr_nil s T off : bl_ok (fs_blk s) ∅ T -> disk_ok s -> ino_ok s -> off mod BSIZE = 0 \/ blockno s (off / BSIZE) <> 0 ->
  wr_post s T off [] s T 0 0.
Proof.
  intros Hok Hd Hi Hoff. constructor; try done; try (cbn; lia); try by left.
  - exists (i_addrs (ino s)). by rewrite mk_id by apply (io_ip ip s Hi).
  - intros o Ho. rewrite decide_False by (cbn; lia). done.
  - intros k Hk1 Hk2. cbn in Hk2. pose proof bsize_pos. pose proof (div_bsize off). pose proof (mod_bsize off).
    destruct Hoff as [Hz|Hz]; [exfalso; nia|]. assert (k = off / BSIZE) as -> by nia. done.
  - intros _. by destruct s.
Qed.

Lemma in_use_back s s' y :
  (forall y, 0 <= y < sb_size (fs_sb s) -> in_use s y = true -> in_use s' y = true) ->
  0 <= y < sb_size (fs_sb s) -> in_use s' y = false -> in_use s y = false.
Proof. intros Hu Hy Hf. destruct (in_use s y) eqn:E; [|done]. by rewrite Hu in Hf. Qed.

Lemma wr_trans s T off src1 s1 T1 c1 f1 src2 s2 T2 c2 f2 :
  0 <= off -> ino_ok s -> wr_post s T off src1 s1 T1 c1 f1 -> off + Z.of_nat (length src1) <= MAXFILE * BSIZE ->
  off + Z.of_nat (length src1) + Z.of_nat (length src2) <= MAXFILE * BSIZE ->
  (off + Z.of_nat (length src1)) mod BSIZE = 0 ->
  wr_post s1 T1 (off + Z.of_nat (length src1)) src2 s2 T2 c2 f2 ->
  wr_post s T off (src1 ++ src2) s2 T2 (c1 + c2) (f1 + f2).
Proof.
  intros Ho Hi A Hm1 Hm2 Hal C. pose proof bsize_pos as Hb. destruct A, C. destruct wr_shape0 as [l1 E1], wr_shape1 as [l2 E2].
  assert (Esb : fs_sb s1 = fs_sb s) by (rewrite E1; done).
  assert (Esb2 : fs_sb s2 = fs_sb s) by (rewrite E2; cbn; done).
  constructor; try done.
  - exists l2. rewrite E2 at 1. rewrite E1. by rewrite mk_mk.
  - intros o Hr. rewrite wr_bytes1, wr_bytes0 by done. rewrite length_app, Nat2Z.inj_add.
    repeat case_decide; try lia; try done.
    + rewrite app_nth2 by lia. f_equal. lia.
    + by rewrite app_nth1 by lia.
  - intros k Hk Hn. rewrite wr_old1; [by apply wr_old0|done|]. by rewrite wr_old0.
  - intros k Hk. destruct (wr_new1 k Hk) as [E|E]; [rewrite E; by apply wr_new0|]. right.
    apply (in_use_back s s1); try done. destruct (Z.eq_dec (blockno s2 k) 0) as [E0|E0].
    + rewrite E0 in E. pose proof (io_boot ip s1 wr_ino0). congruence.
    + destruct (io_blk ip s2 wr_ino1 k Hk E0) as [(Hr & _) _]. rewrite Esb2 in Hr. lia.
  - intros k Hk1 Hk2. rewrite length_app, Nat2Z.inj_add in Hk2.
    destruct (decide ((off + Z.of_nat (length src1)) / BSIZE <= k)); [apply wr_pres1; [done|lia]|].
    assert (Hk3 : k * BSIZE < off + Z.of_nat (length src1)).
    { pose proof (div_bsize (off + Z.of_nat (length src1))). nia. }
    assert (Hkr : 0 <= k < MAXFILE). { split; [pose proof (Z.div_pos off BSIZE); lia|nia]. }
    rewrite wr_old1; [by apply wr_pres0|done|by apply wr_pres0].
  - intros y Hy Hu Hm Hni Hnb. rewrite wr_frame1.
    + by apply wr_frame0.
    + by rewrite Esb.
    + by apply wr_use0.
    + unfold in_map in *. by rewrite Esb.
    + destruct wr_ind0 as [->|Hf]; [done|]. congruence.
    + intros k Hk. destruct (wr_new0 k Hk) as [->|Hf]; [by apply Hnb|congruence].
  - intros y Hy Hu. apply wr_use1; [by rewrite Esb|]. by apply wr_use0.
  - destruct wr_ind1 as [->|E]; [done|]. right. apply (in_use_back s s1); try done.
    destruct (Z.eq_dec (ind s2) 0) as [E0|E0].
    + rewrite E0 in E. pose proof (io_boot ip s1 wr_ino0). congruence.
    + destruct (io_ind ip s2 wr_ino1 E0) as (Hr & _). rewrite Esb2 in Hr. lia.
  - intros Hall. rewrite length_app, Nat2Z.inj_add in Hall.
    rewrite wr_same1, wr_same0; [done| |].
    + intros k Hk1 Hk2. apply Hall; [done|lia].
    + intros k Hk1 Hk2. assert (Hk3 : off / BSIZE <= k)
        by (pose proof (Z.div_le_mono off (off + Z.of_nat (length src1)) BSIZE); lia).
      assert (0 <= k < MAXFILE) by (split; [pose proof (Z.div_pos off BSIZE); lia|nia]).
      rewrite wr_old0; [apply Hall; [done|lia]|done|apply Hall; [done|lia]].
  - set_solver.
  - lia.
  - lia.
Qed.
(** The body of the loop of writei, for bytes inside one block. *)
Definition write_step (off : Z) (src : list Z) : K S unit :=
  let! dev := iget_field ip i_dev in
  let! addr := bmap ip (off / BSIZE) in
  let! bp := bread dev addr in
  let! d := bdata bp in
  blog bp (splice (Z.to_nat (off mod BSIZE)) src d) ;;
  brelse bp.

Definition absent (s : S) (k : Z) : nat := if blockno s k =? 0 then 1 else 0.

Lemma write_step_spec s T off src :
  bl_ok (fs_blk s) ∅ T -> disk_ok s -> ino_ok s -> 0 <= off -> src <> [] ->
  off mod BSIZE + Z.of_nat (length src) <= BSIZE -> off + Z.of_nat (length src) <= MAXFILE * BSIZE ->
  (size T + c_ind ip s T + 1 + absent s (off / BSIZE) <= max_logged)%nat ->
  (f_ind ip s + absent s (off / BSIZE) <= nfree s)%nat ->
  wp (write_step off src) s (fun _ s' => exists T',
    wr_post s T off src s' T' (1 + absent s (off / BSIZE)) (absent s (off / BSIZE))).
Proof.
  intros Hok Hd Hi Ho Hsrc Hle Hmax HT Hfr. pose proof bsize_pos as Hb. pose proof (mod_bsize off) as Hm.
  pose proof (div_bsize off) as Eo. set (k := off / BSIZE) in *.
  assert (Hlen : (0 < length src)%nat) by (destruct src; [done|cbn; lia]).
  assert (Hk : 0 <= k < MAXFILE).
  { unfold k. split; [apply Z.div_pos; lia|]. apply Z.div_lt_upper_bound; lia. }
  unfold write_step, iget_field. apply wp_bind, wp_get.
  change (i_dev (inode_at s ip)) with (i_dev (ino s)). rewrite (io_dev ip s Hi). apply wp_bind.
  eapply wp_mono; [apply (bmap_spec ip s T k); try done|].
  { intros H0. unfold absent in *. rewrite H0 in *. cbn [Z.eqb] in *. lia. }
  intros a s1 (T1 & P). pose proof P as [Psh Pok Pd Pi Pnz Pb Pf Pold Pfresh Pfr Pu Pind PT Pc Pfree].
  destruct Psh as [l El]. assert (Esb : fs_sb s1 = fs_sb s) by (rewrite El; done).
  assert (Hba : blockno s1 k = a) by (rewrite Pb by done; by rewrite decide_True).
  assert (Hn1 : blockno s1 k <> 0) by congruence.
  destruct (io_blk ip s1 Pi k Hk Hn1) as [(Ha1 & Ha2 & Ha3 & Ha4 & Ha5 & Ha6) _].
  rewrite Hba in Ha1, Ha2, Ha3, Ha4, Ha5, Ha6.
  assert (HaT : (size ({[a]} ∪ T1 : gset Z) + c_ind ip s1 ({[a]} ∪ T1) <= size T + c_ind ip s T + 1 + absent s k)%nat).
  { assert (c_ind ip s1 ({[a]} ∪ T1) <= c_ind ip s1 T1)%nat by (apply c_ind_mono; [done|set_solver]).
    unfold absent. destruct (decide (blockno s k = 0)) as [E0|E0].
    - destruct (Pfresh E0) as [_ HaT1]. rewrite E0. cbn [Z.eqb].
      replace ({[a]} ∪ T1) with T1 in * by set_solver. lia.
    - rewrite (proj2 (Z.eqb_neq _ _) E0). pose proof (size_add a T1). lia. }
  apply wp_bind.
  eapply (wp_bread s1 ∅ T1 a); [exact Pok|set_solver|apply (do_block s1 Pd); lia|rewrite size_empty; apply max_held_pos|].
  intros bp B2 Ok2 Hh2 V2 K2. apply wp_bind.
  eapply (wp_bdata _ ({[a]} ∪ ∅) T1 a); [exact Ok2|set_solver|done|]. rewrite (sv_view s1 B2 V2).
  replace (view s1 a) with (fblock s k).
  2: { rewrite <- Pf by done. unfold FsFile.fblock. rewrite Hba. by rewrite (proj2 (Z.eqb_neq _ _) Pnz). }
  apply wp_bind. eapply (wp_blog _ ({[a]} ∪ ∅) T1 a bp); [exact Ok2|set_solver|done|apply (do_block s1 Pd); lia|done|lia|].
  intros B3 Ok3 V3 K3. eapply (wp_brelse _ ({[a]} ∪ ∅) _ a bp); [exact Ok3|set_solver|apply K3; [set_solver|done]|].
  intros B4 Ok4 V4 K4. replace (({[a]} ∪ ∅) ∖ {[a]}) with (∅ : gset Z) in Ok4 by set_solver.
  change (set_blk B4 (set_blk B3 (set_blk B2 s1))) with (set_blk B4 s1). set (s2 := set_blk B4 s1).
  set (d := splice (Z.to_nat (off mod BSIZE)) src (fblock s k)) in *.
  assert (Hl : length d = Z.to_nat BSIZE).
  { unfold d. rewrite length_splice; rewrite fblock_length by done; lia. }
  assert (V : forall y, bl_view B4 y = update (blockno s1 k) d (view s1) y).
  { intros y. rewrite V4. unfold view at 1. cbn [fs_blk set_blk]. rewrite V3, Hba. unfold update. destruct (decide (y = a)); [done|apply V2]. }
  assert (Hmeta : 0 <= blockno s1 k < sb_size (fs_sb s1) /\ blockno s1 k <> 1 /\ ~ in_map s1 (blockno s1 k))
    by (rewrite Hba; split; [lia|done]).
  assert (Hb2 : forall j, blockno s2 j = blockno s1 j) by (intros j; by eapply (wb_blockno s1 B4 k d)).
  pose proof (dw_view s1 B4 (blockno s1 k) d V) as Hv2. fold s2 in Hv2. rewrite Hba in Hv2.
  exists ({[a]} ∪ T1). constructor.
  - exists l. change s2 with (set_blk B4 s1). rewrite El. done.
  - exact Ok4.
  - by apply (dw_disk_ok s1 B4 (blockno s1 k) d).
  - by apply (wb_ino_ok s1 B4 k d).
  - intros o Hr. assert (Ebyte : fbyte s1 o = fbyte s o).
    { unfold FsFile.fbyte. rewrite Pf; [done|]. split; [apply Z.div_pos; lia|apply Z.div_lt_upper_bound; lia]. }
    rewrite <- Ebyte. unfold s2. apply write_bytes; [done|done|done|fold k; lia|done|done| |done]. fold k. rewrite Pf by done. exact V.
  - intros j Hj Hnj. rewrite Hb2, Pb by done. destruct (decide (j = k)); [|done]. subst j. by apply Pold.
  - intros j Hj. rewrite Hb2, Pb by done. destruct (decide (j = k)); [|by left]. subst j.
    destruct (Z.eq_dec (blockno s k) 0) as [E0|E0]; [right; by apply Pfresh|left; by apply Pold].
  - intros j Hj1 Hj2. fold k in Hj1. assert (j = k) as -> by nia. rewrite Hb2. congruence.
  - intros y Hy Hu Hmy Hni Hnb. rewrite Hv2, decide_False; [by apply Pfr|]. intros ->.
    destruct (Z.eq_dec (blockno s k) 0) as [E0|E0].
    + destruct (Pfresh E0) as [Hf _]. congruence.
    + apply (Hnb k Hk). symmetry. by apply Pold.
  - intros y Hy Hu. unfold s2. rewrite (dw_use s1 B4 (blockno s1 k) d Hmeta V) by (by rewrite Esb). by apply Pu.
  - exact Pind.
  - intros Hall. destruct Pold as (_ & Es & _); [apply Hall; [done|lia]|]. unfold s2. by rewrite Es.
  - set_solver.
  - change (c_ind ip s2 ({[a]} ∪ T1)) with (c_ind ip s1 ({[a]} ∪ T1)). lia.
  - unfold s2. rewrite (dw_nfree s1 B4 (blockno s1 k) d Hmeta Hl V). change (f_ind ip (set_blk B4 s1)) with (f_ind ip s1).
    unfold absent. destruct (decide (blockno s k = 0)) as [E0|E0].
    + rewrite E0. cbn [Z.eqb]. exact Pfree.
    + rewrite (proj2 (Z.eqb_neq _ _) E0). exact Pfree.
Qed.
Lemma writei_loop_step fuel src off n tot s :
  tot < n ->
  writei_loop (Datatypes.S fuel) ip src off n tot s =
  (let m := min_u (u32 (n - tot)) (u32 (BSIZE - off mod BSIZE)) in
   write_step off (take (Z.to_nat m) src) ;;
   writei_loop fuel ip (drop (Z.to_nat m) src) (u32 (off + m)) n (u32 (tot + m))) s.
Proof.
  intros Hlt. cbn [writei_loop]. rewrite (proj2 (Z.ltb_lt _ _) Hlt). cbv zeta. unfold write_step, kbind.
  repeat (case_match; try done).
Qed.

(** The blocks that [n] bytes from [off] on touch. *)
Definition nblk (off n : Z) : nat := if 0 <? n then Z.to_nat ((off + n - 1) / BSIZE - off / BSIZE + 1) else 0.

Lemma nblk_step off n m :
  0 <= off -> 0 < n -> m < n -> 0 < m -> (off + m) / BSIZE = off / BSIZE + 1 -> nblk off n = Datatypes.S (nblk (off + m) (n - m)).
Proof.
  intros Ho Hn Hm Hm0 E. pose proof bsize_pos. unfold nblk. rewrite !(proj2 (Z.ltb_lt 0 _)) by lia. rewrite E.
  replace (off + m + (n - m) - 1) with (off + n - 1) by lia.
  assert ((off + m) / BSIZE <= (off + n - 1) / BSIZE) by (apply Z.div_le_mono; lia). lia.
Qed.

Lemma nblk_pos off n : 0 <= off -> 0 < n -> (0 < nblk off n)%nat.
Proof.
  intros Ho Hn. pose proof bsize_pos. unfold nblk. rewrite (proj2 (Z.ltb_lt 0 n)) by lia.
  assert (off / BSIZE <= (off + n - 1) / BSIZE) by (apply Z.div_le_mono; lia). lia.
Qed.

Lemma wr_weaken s T off src s' T' c f c' f' :
  wr_post s T off src s' T' c f -> (c <= c')%nat -> (f <= f')%nat -> wr_post s T off src s' T' c' f'.
Proof. intros [] Hc Hf. constructor; try done; lia. Qed.

Lemma absent_le s k : (absent s k <= 1)%nat.
Proof. unfold absent. destruct (_ =? 0); lia. Qed.

Lemma writei_loop_spec fuel : forall s T src off n tot,
  bl_ok (fs_blk s) ∅ T -> disk_ok s -> ino_ok s -> 0 <= off -> 0 <= tot < n -> n < 2147483648 ->
  Z.of_nat (length src) = n - tot -> off + (n - tot) <= MAXFILE * BSIZE ->
  off mod BSIZE + (n - tot) <= Z.of_nat fuel * BSIZE ->
  (size T + c_ind ip s T + 2 * nblk off (n - tot) + absent s (off / BSIZE) <= max_logged + 1)%nat ->
  (f_ind ip s + nblk off (n - tot) + absent s (off / BSIZE) <= nfree s + 1)%nat ->
  wp (writei_loop fuel ip src off n tot) s (fun r s' => r = off + (n - tot) /\ exists T',
    wr_post s T off src s' T' (2 * nblk off (n - tot) + absent s (off / BSIZE) - 1)
      (nblk off (n - tot) + absent s (off / BSIZE) - 1)).
Proof.
  pose proof bsize_pos as Hb. pose proof maxfile_small as Hms.
  induction fuel as [|fuel IH]; intros s T src off n tot Hok Hd Hi Ho Ht Hn Hlen Hmax Hfuel HT Hfr;
    pose proof (mod_bsize off) as Hmod; [lia|].
  pose proof (nblk_pos off (n - tot) Ho ltac:(lia)) as Hnb.
  unfold wp. rewrite writei_loop_step by lia. cbv zeta.
  destruct (step_size off n tot) as (Em & Hm0 & Hm1); [lia|lia|]. set (m := min_u _ _) in *.
  assert (Hlm : length (take (Z.to_nat m) src) = Z.to_nat m) by (rewrite length_take; lia).
  rewrite !u32_small by lia. fold (wp (write_step off (take (Z.to_nat m) src) ;;
    writei_loop fuel ip (drop (Z.to_nat m) src) (off + m) n (tot + m)) s (fun r s' => r = off + (n - tot) /\ exists T',
    wr_post s T off src s' T' (2 * nblk off (n - tot) + absent s (off / BSIZE) - 1)
      (nblk off (n - tot) + absent s (off / BSIZE) - 1))).
  pose proof (absent_le s (off / BSIZE)) as Hab. apply wp_bind.
  eapply wp_mono; [apply (write_step_spec s T off (take (Z.to_nat m) src)); try done|].
  - intros E. apply (f_equal length) in E. rewrite Hlm in E. cbn in E. lia.
  - rewrite Hlm. lia.
  - rewrite Hlm. lia.
  - lia.
  - lia.
  - intros [] s1 (T1 & W). pose proof W as [[l1 El1] Wok Wd Wi _ _ _ _ _ _ _ _ _ Wc Wf].
    destruct (next_off off n tot m) as [Hdone|(Hb1 & Hb2 & Hb3)]; [done|lia|done| |].
    + assert (Er : Z.to_nat m = length src) by lia.
      rewrite Er, take_ge in W by lia. rewrite Hdone.
      assert (Ew : writei_loop fuel ip (drop (Z.to_nat m) src) (off + m) n n s1 = Ret (off + m) s1)
        by (destruct fuel; cbn [writei_loop]; by rewrite Z.ltb_irrefl).
      unfold wp. rewrite Ew. split; [lia|]. exists T1. eapply wr_weaken; [exact W| |]; lia.
    + assert (Hmn : m < n - tot \/ m = n - tot) by lia. destruct Hmn as [Hlt|Heq].
      2: { assert (Er : Z.to_nat m = length src) by lia. rewrite Er, take_ge in W by lia.
           replace (tot + m) with n by lia.
           assert (Ew : writei_loop fuel ip (drop (Z.to_nat m) src) (off + m) n n s1 = Ret (off + m) s1)
             by (destruct fuel; cbn [writei_loop]; by rewrite Z.ltb_irrefl).
           unfold wp. rewrite Ew. split; [lia|]. exists T1. eapply wr_weaken; [exact W| |]; lia. }
      pose proof (nblk_step off (n - tot) m Ho ltac:(lia) Hlt Hm0 Hb3) as Enb.
      replace (n - tot - m) with (n - (tot + m)) in Enb by lia.
      pose proof (absent_le s1 ((off + m) / BSIZE)) as Hab1.
      eapply wp_mono; [apply (IH s1 T1 (drop (Z.to_nat m) src) (off + m) n (tot + m)); try done; try lia|].
      * rewrite length_drop. lia.
      * intros r s2 (-> & T2 & W2). split; [lia|]. exists T2.
        rewrite <- (take_drop (Z.to_nat m) src). eapply wr_weaken.
        -- eapply (wr_trans s T off (take (Z.to_nat m) src) s1 T1); [done|done|exact W|..].
           ++ rewrite Hlm. lia.
           ++ rewrite Hlm, length_drop. lia.
           ++ rewrite Hlm, Z2Nat.id by lia. done.
           ++ rewrite Hlm, Z2Nat.id by lia. exact W2.
        -- lia.
        -- lia.
Qed.
(** *** iupdate *)

Definition synced (s : S) : Prop :=
  dinode_at (view s (iblk ip s)) (i_inum (ino s) mod IPB) = to_dinode (ino s).

Lemma iupdate_spec s T :
  bl_ok (fs_blk s) ∅ T -> disk_ok s -> ino_ok s -> dinode_wf (to_dinode (ino s)) ->
  (size ({[iblk ip s]} ∪ T : gset Z) <= max_logged)%nat ->
  wp (iupdate ip) s (fun _ s' => exists B', s' = set_blk B' s /\ bl_ok B' ∅ ({[iblk ip s]} ∪ T) /\
    disk_ok s' /\ ino_ok s' /\ synced s' /\ (forall j, fblock s' j = fblock s j \/ ~ 0 <= j < MAXFILE) /\
    (forall j, blockno s' j = blockno s j) /\
    (forall y, y <> iblk ip s -> view s' y = view s y) /\
    (forall y, 0 <= y < sb_size (fs_sb s) -> in_use s' y = in_use s y)).
Proof.
  intros Hok Hd Hi Hwf HT. destruct (io_iblk ip s Hi) as (I0 & I2 & I3 & I4 & I5). set (x := iblk ip s) in *.
  assert (I1 : 0 <= x < sb_size (fs_sb s)) by lia. unfold iupdate, iget_field. apply wp_bind, wp_get. unfold id. change (inode_at s ip) with (ino s). apply wp_bind, wp_get.
  rewrite (io_dev ip s Hi). fold (iblk ip s). fold x. apply wp_bind.
  eapply (wp_bread s ∅ T x); [done|set_solver|by apply (do_block s Hd)|rewrite size_empty; apply max_held_pos|].
  intros bp B1 Ok1 Hh1 V1 K1. apply wp_bind. eapply (wp_bdata _ ({[x]} ∪ ∅) T x); [done|set_solver|done|].
  rewrite (sv_view s B1 V1). apply wp_bind.
  eapply (wp_blog _ ({[x]} ∪ ∅) T x bp); [done|set_solver|done|by apply (do_block s Hd)|done|done|].
  intros B2 Ok2 V2 K2. eapply (wp_brelse _ ({[x]} ∪ ∅) _ x bp); [exact Ok2|set_solver|apply K2; [set_solver|done]|].
  intros B3 Ok3 V3 K3. replace (({[x]} ∪ ∅) ∖ {[x]}) with (∅ : gset Z) in Ok3 by set_solver.
  change (set_blk B3 (set_blk B2 (set_blk B1 s))) with (set_blk B3 s). set (s' := set_blk B3 s).
  set (d := put_dinode (i_inum (ino s) mod IPB) (to_dinode (ino s)) (view s x)) in *.
  assert (Hl : length d = Z.to_nat BSIZE) by (unfold d; rewrite put_dinode_length; apply Hd).
  assert (V : forall y, bl_view B3 y = update x d (view s) y).
  { intros y. rewrite V3. unfold view at 1. cbn [fs_blk set_blk]. rewrite V2. unfold update.
    destruct (decide (y = x)); [done|apply V1]. }
  assert (Hm : 0 <= x < sb_size (fs_sb s) /\ x <> 1 /\ ~ in_map s x) by done.
  assert (Hv : forall y, view s' y = if decide (y = x) then d else view s y) by apply (dw_view s B3 x d V).
  assert (Hu : forall y, 0 <= y < sb_size (fs_sb s) -> in_use s' y = in_use s y) by (by apply (dw_use s B3 x d Hm V)).
  assert (Hdb : forall y, data_block ip s' y <-> data_block ip s y) by (by apply (dw_data_block ip s B3 x d)).
  assert (Hbn : forall j, blockno s' j = blockno s j).
  { intros j. unfold FsFile.blockno. change (ino s') with (ino s). change (ind s') with (ind s).
    destruct (j <? NDIRECT); [done|]. destruct (Z.eqb_spec (ind s) 0) as [|Hn]; [done|].
    rewrite Hv, decide_False; [done|]. by apply (io_ind ip s Hi Hn). }
  exists B3. split; [done|]. split; [done|]. split; [by apply (dw_disk_ok s B3 x d)|]. split_and!.
  - destruct Hi as [J1 J2 J3 J4 J5 J6 J7 J8]. constructor; try done.
    + intros j Hj. rewrite Hbn, Hdb. by apply J4.
    + intros Hj. apply Hdb. by apply J5.
    + intros j j' Hj Hj'. rewrite !Hbn. by apply J6.
    + rewrite Hu; [done|]. pose proof (do_size s Hd). lia.
    + change (iblk ip s') with x. rewrite Hu by done. done.
  - unfold synced. change (iblk ip s') with x. change (ino s') with (ino s). rewrite Hv, decide_True by done.
    pose proof ipb_pos. pose proof (Z.mod_pos_bound (i_inum (ino s)) IPB).
    unfold d. rewrite dinode_get_put; [by rewrite decide_True|lia|lia|apply Hd|done].
  - intros j. destruct (decide (0 <= j < MAXFILE)) as [Hj|]; [left|by right]. unfold FsFile.fblock. rewrite Hbn.
    destruct (Z.eqb_spec (blockno s j) 0) as [|Hn]; [done|]. rewrite Hv, decide_False; [done|].
    destruct (io_blk ip s Hi j Hj Hn) as [(_ & _ & _ & _ & _ & H6) _]. done.
  - done.
  - intros y Hy. rewrite Hv. by rewrite decide_False.
  - done.
Qed.
(** *** The size of the inode *)

Definition with_size (z : Z) (s : S) : S := set_inodes (alter (set_isize z) ip (inodes s)) s.

Section size.
Context (s : S) (z : Z).
Hypothesis Hi : ino_ok s.
Notation s' := (with_size z s).

Lemma ws_ino : ino s' = set_isize z (ino s).
Proof. unfold FsFile.ino, inode_at, with_size. cbn. apply nth_alter_eq. apply Hi. Qed.
Lemma ws_addrs : i_addrs (ino s') = i_addrs (ino s).
Proof. by rewrite ws_ino. Qed.
Lemma ws_ind : ind s' = ind s.
Proof. unfold FsFile.ind. by rewrite ws_addrs. Qed.
Lemma ws_blockno j : blockno s' j = blockno s j.
Proof. unfold FsFile.blockno. by rewrite ws_ind, ws_addrs. Qed.
Lemma ws_iblk : iblk ip s' = iblk ip s.
Proof. unfold iblk. by rewrite ws_ino. Qed.
Lemma ws_fblock j : fblock s' j = fblock s j.
Proof. unfold FsFile.fblock. by rewrite ws_blockno. Qed.
Lemma ws_disk_ok : disk_ok s -> disk_ok s'.
Proof. intros []. by constructor. Qed.
Lemma ws_ino_ok : ino_ok s'.
Proof.
  assert (Hdb : forall y, data_block ip s' y <-> data_block ip s y) by (intros y; unfold data_block; by rewrite ws_iblk).
  destruct Hi as [J1 J2 J3 J4 J5 J6 J7 J8]. constructor.
  - cbn. by rewrite length_alter.
  - by rewrite ws_ino.
  - by rewrite ws_addrs.
  - intros j Hj. rewrite ws_blockno, ws_ind, Hdb. by apply J4.
  - rewrite ws_ind, Hdb. apply J5.
  - intros j j' Hj Hj'. rewrite !ws_blockno. by apply J6.
  - done.
  - rewrite ws_iblk. exact J8.
Qed.
End size.

(** The addresses of a file that is in order fit their type. *)
Lemma addrs_uint s : disk_ok s -> ino_ok s -> Forall is_uint (i_addrs (ino s)).
Proof.
  intros Hd Hi. pose proof (do_size s Hd) as Hsz. pose proof ndirect_pos. pose proof maxfile_def. pose proof nindirect_def.
  pose proof bsize_pos. assert (0 <= NINDIRECT) by (rewrite nindirect_def; apply Z.div_pos; lia).
  apply Forall_lookup. intros j a Hj. pose proof (lookup_lt_Some _ _ _ Hj) as Hlt. rewrite (io_len ip s Hi) in Hlt.
  assert (Ea : nth j (i_addrs (ino s)) 0 = a) by (by rewrite nth_lookup, Hj). unfold is_uint.
  destruct (Z.eq_dec a 0) as [->|Hn]; [lia|]. destruct (decide (Z.of_nat j < NDIRECT)) as [Hd'|Hd'].
  - assert (Eb : blockno s (Z.of_nat j) = a)
      by (unfold FsFile.blockno; rewrite (proj2 (Z.ltb_lt _ _) Hd'); by rewrite Nat2Z.id).
    destruct (io_blk ip s Hi (Z.of_nat j)) as [(Hr & _) _]; [lia|congruence|]. rewrite Eb in Hr. lia.
  - assert (Eb : ind s = a) by (unfold FsFile.ind; by replace (Z.to_nat NDIRECT) with j by lia).
    destruct (io_ind ip s Hi) as (Hr & _); [congruence|]. rewrite Eb in Hr. lia.
Qed.

(** *** The whole of writei *)

Record writei_post (s : S) (off : Z) (src : list Z) (s' : S) (T' : gset Z) : Prop := {
  wi_ok : bl_ok (fs_blk s') ∅ T';
  wi_disk : disk_ok s';
  wi_ino : ino_ok s';
  wi_full : full s';
  wi_synced : synced s';
  wi_wf : dinode_wf (to_dinode (ino s'));
  wi_size : i_size (ino s') = Z.max (i_size (ino s)) (off + Z.of_nat (length src));
  wi_bytes : forall o, 0 <= o < MAXFILE * BSIZE -> fbyte s' o =
    if decide (off <= o < off + Z.of_nat (length src)) then nth (Z.to_nat (o - off)) src 0 else fbyte s o;
  wi_frame : forall y, 0 <= y < sb_size (fs_sb s) -> in_use s y = true -> ~ in_map s y -> y <> ind s -> y <> iblk ip s ->
    (forall k, 0 <= k < MAXFILE -> blockno s k <> y) -> view s' y = view s y;
  wi_use : forall y, 0 <= y < sb_size (fs_sb s) -> in_use s y = true -> in_use s' y = true;
  wi_free : (nfree s + f_ind ip s' <= nfree s' + f_ind ip s + (nblk off (Z.of_nat (length src)) + absent s (off / BSIZE) - 1))%nat;
  wi_inodes : exists l, inodes s' = alter (fun i => set_isize (i_size (ino s')) (set_addrs l i)) ip (inodes s);
  wi_rest : fs_sb s' = fs_sb s /\ ic_lk s' = ic_lk s /\ fs_pid s' = fs_pid s /\ fs_cwd s' = fs_cwd s
}.

Lemma set_size_same s l : 
  (ip < length (inodes s))%nat ->
  alter (set_addrs l) ip (inodes s) = alter (fun i => set_isize (i_size (ino s)) (set_addrs l i)) ip (inodes s).
Proof.
  intros Hl. apply list_alter_ext; [|done]. intros i Hi. unfold FsFile.ino, inode_at.
  by rewrite (nth_lookup_Some _ _ _ _ Hi).
Qed.

Lemma writei_spec dw s T src off :
  bl_ok (fs_blk s) ∅ T -> disk_ok s -> ino_ok s -> full s -> synced s -> dinode_wf (to_dinode (ino s)) ->
  i_type (ino s) <> T_DEV -> 0 <= off <= i_size (ino s) -> src <> [] ->
  off + Z.of_nat (length src) <= MAXFILE * BSIZE ->
  (size T + c_ind ip s T + 2 * nblk off (Z.of_nat (length src)) + absent s (off / BSIZE) <= max_logged)%nat ->
  (f_ind ip s + nblk off (Z.of_nat (length src)) + absent s (off / BSIZE) <= nfree s + 1)%nat ->
  wp (writei dw ip src off (Z.of_nat (length src))) s (fun r s' => r = Z.of_nat (length src) /\
    exists T', writei_post s off src s' T').
Proof.
  intros Hok Hd Hi [Hs Hfull] Hsy Hwf Hty Ho Hsrc Hmax HT Hfr. pose proof bsize_pos as Hb. pose proof maxfile_small as Hms.
  set (n := Z.of_nat (length src)) in *. assert (Hn : 0 < n) by (unfold n; destruct src; [done|cbn; lia]).
  pose proof (mod_bsize off) as Hmod. pose proof (nblk_pos off n ltac:(lia) Hn) as Hnb.
  unfold writei, iget_field. apply wp_bind, wp_get. unfold id. change (inode_at s ip) with (ino s).
  rewrite (proj2 (Z.eqb_neq _ _) Hty), (u32_small (off + n)) by lia.
  rewrite (proj2 (Z.ltb_ge (i_size (ino s)) off)), (proj2 (Z.ltb_ge (off + n) off)) by lia. cbn [orb].
  rewrite (proj2 (Z.ltb_ge (MAXFILE * BSIZE) _)) by lia. apply wp_bind.
  eapply wp_mono; [apply (writei_loop_spec _ s T src off n 0); try done; try lia; rewrite ?Z.sub_0_r; try done; try lia|].
  { assert (0 <= n / BSIZE) by (apply Z.div_pos; lia). rewrite Z2Nat.id by lia.
    pose proof (div_bsize n). pose proof (mod_bsize n). lia. }
  rewrite Z.sub_0_r. intros r s1 (-> & T1 & W). pose proof W as [[l El] Wok Wd Wi Wby Wold Wnew Wpres Wframe Wuse Wind Wsame WT Wc Wf].
  assert (Hino1 : ino s1 = set_addrs l (ino s)) by (rewrite El; apply ino_mk, Hi).
  assert (Hfull1 : forall k, 0 <= k -> k * BSIZE < Z.max (i_size (ino s)) (off + n) -> blockno s1 k <> 0).
  { intros k Hk0 Hk. assert (Hkr : 0 <= k < MAXFILE) by nia. destruct (decide (k * BSIZE < i_size (ino s))).
    - rewrite Wold; [by apply Hfull|done|by apply Hfull].
    - apply Wpres; [|lia]. pose proof (div_bsize off). nia. }
  assert (Hwf1 : forall z, is_uint z -> dinode_wf (to_dinode (set_isize z (ino s1)))).
  { intros z Hz. destruct Hwf as (F1 & F2 & F3 & F4 & F5 & F6 & F7). pose proof (addrs_uint s1 Wd Wi) as F8.
    pose proof (io_len ip s1 Wi) as F9. unfold dinode_wf. rewrite Hino1 in *. split_and!; try done; apply Hz. }
  rewrite (proj2 (Z.ltb_lt 0 n) Hn), s32_small by lia. cbn [andb]. destruct (Z.ltb_spec (i_size (ino s)) (off + n)) as [Hg|Hg].
  - apply wp_bind, wp_bind, wp_modify. change (set_inodes (alter (set_isize (off + n)) ip (inodes s1)) s1) with (with_size (off + n) s1).
    set (s2 := with_size (off + n) s1). assert (Ei2 : ino s2 = set_isize (off + n) (ino s1)) by (by apply ws_ino).
    assert (Hib : iblk ip s2 = iblk ip s) by (unfold s2; rewrite ws_iblk by done; unfold iblk; rewrite Hino1, El; done).
    eapply wp_mono; [apply (iupdate_spec s2 T1)|].
    + exact Wok.
    + by apply ws_disk_ok.
    + by apply ws_ino_ok.
    + rewrite Ei2. apply Hwf1. unfold is_uint. lia.
    + pose proof (size_add (iblk ip s2) T1). pose proof (absent_le s (off / BSIZE)). lia.
    + intros [] s3 (B3 & -> & Ok3 & Hd3 & Hi3 & Hsy3 & Hfb3 & Hbn3 & Hv3 & Hu3). apply wp_ret. split; [done|].
      exists ({[iblk ip s2]} ∪ T1). set (s3 := set_blk B3 s2) in *.
      assert (Ei3 : ino s3 = set_isize (off + n) (ino s1)) by exact Ei2.
      assert (Esb : fs_sb s2 = fs_sb s) by (unfold s2; rewrite El; done).
      assert (Esz : i_size (ino s3) = Z.max (i_size (ino s)) (off + n)) by (rewrite Ei3; cbn; lia).
      constructor; try done.
      * split; [rewrite Esz; lia|]. intros k Hk0 Hk. rewrite Hbn3. unfold s2. rewrite ws_blockno by done.
        apply Hfull1; [done|]. by rewrite <- Esz.
      * rewrite Ei3. apply Hwf1. unfold is_uint. lia.
      * intros o Hr. rewrite <- Wby by done. unfold FsFile.fbyte.
        destruct (Hfb3 (o / BSIZE)) as [->|Hn']; [unfold s2; by rewrite ws_fblock|].
        destruct Hn'. split; [apply Z.div_pos; lia|apply Z.div_lt_upper_bound; lia].
      * intros y Hy Hu Hm Hni Hnib Hnb'. rewrite Hv3 by (by rewrite Hib). change (view s2 y) with (view s1 y). by apply Wframe.
      * intros y Hy Hu. rewrite Hu3 by (by rewrite Esb). change (in_use s2 y) with (in_use s1 y). by apply Wuse.
      * assert (En : nfree s3 = nfree s1).
        { unfold nfree. change (fs_sb s3) with (fs_sb s1). f_equal. apply filter_ext_in. intros b Hbr%elem_of_seqZ.
          rewrite Hu3 by (change (fs_sb s2) with (fs_sb s1); lia). done. }
        assert (Ef : f_ind ip s3 = f_ind ip s1) by (unfold f_ind, FsFile.ind; rewrite Ei3; done). rewrite En, Ef. fold n. lia.
      * exists l. rewrite Ei3. cbn [i_size set_isize]. change (inodes s3) with (alter (set_isize (off + n)) ip (inodes s1)).
        rewrite El. cbn. rewrite alter_alter. by apply list_alter_ext.
      * change (ic_lk s3) with (ic_lk s1). change (fs_pid s3) with (fs_pid s1). change (fs_cwd s3) with (fs_cwd s1).
        rewrite El. split_and!; try done. 
  - assert (Es1 : s1 = set_blk (fs_blk s1) s).
    { apply Wsame. intros k Hk1 Hk2. assert (0 <= off / BSIZE) by (apply Z.div_pos; lia). apply Hfull; [lia|lia]. }
    apply wp_bind, wp_ret, wp_ret. split; [done|]. exists T1.
    assert (Ei1 : ino s1 = ino s) by (rewrite Es1; done).
    assert (Hib : iblk ip s1 = iblk ip s) by (rewrite Es1; done).
    destruct (io_iblk ip s Hi) as (I1 & I2 & I3 & I4 & I5).
    assert (Esz : i_size (ino s1) = Z.max (i_size (ino s)) (off + n)) by (rewrite Ei1; lia).
    constructor; try done.
    + split; [rewrite Esz; lia|]. by rewrite Esz.
    + unfold synced. rewrite Hib, Ei1. rewrite Wframe; [exact Hsy|lia|done|done| |].
      * intros E. destruct (io_ind ip s Hi) as (_ & _ & _ & _ & _ & H6); [lia|congruence].
      * intros k Hk E. destruct (io_blk ip s Hi k Hk) as [(_ & _ & _ & _ & _ & H6) _]; [lia|congruence].
    + by rewrite Ei1.
    + intros y Hy Hu Hm Hni Hnib Hnb'. by apply Wframe.
    + exists (i_addrs (ino s)). rewrite Ei1. rewrite Es1. cbn.
      rewrite <- set_size_same by apply Hi. pose proof (mk_id ip s (io_ip ip s Hi)) as Hmk.
      apply (f_equal inodes) in Hmk. by rewrite <- Hmk at 1.
    + rewrite Es1. done.
Qed.
End rw.
