(* ===== verification/FsTrunc.v ===== *)
(** * Freeing files: itrunc and iput (fs.c) *)

From S2P Require Import Prelude Layout Sleeplock Fsdefs Fs FsBlocks FsAlloc FsFile FsRw.

Section trunc.
Context `{FH : FsH} {FL : FsLaws} {B : Type} `{BL : BlockLayer B} {LL : BlockLaws B}.
Notation S := (fsstate B).
Implicit Types (s : S) (T : gset Z).
Variable ip : nat.
Notation ino := (ino ip).
Notation ind := (ind ip).
Notation blockno := (blockno ip).
Notation ino_ok := (ino_ok ip).
Notation mk := (mk ip).

(** The blocks of a file: its contents and the indirect block. *)
Definition file_block (s : S) (b : Z) : Prop :=
  b <> 0 /\ (b = ind s \/ exists k, 0 <= k < MAXFILE /\ blockno s k = b).

(** ** Freeing some of the blocks *)

(** [s] is [s0] after the blocks of [F] were freed; of the log, only the blocks of the
    set [M] were used. *)
Record freed (s0 : S) (X M : gset Z) (F : Z -> Prop) (B' : B) : Prop := {
  fr_ok : exists T, bl_ok B' X T /\ T ⊆ M;
  fr_disk : disk_ok (set_blk B' s0);
  fr_use : forall b, 0 <= b < sb_size (fs_sb s0) -> in_use (set_blk B' s0) b = true <-> in_use s0 b = true /\ ~ F b;
  fr_view : forall y, ~ in_map s0 y -> bl_view B' y = view s0 y
}.

Lemma freed_ext s0 X M F G B' : (forall b, F b <-> G b) -> freed s0 X M F B' -> freed s0 X M G B'.
Proof.
  intros E [F1 F2 F3 F4]. constructor; try done. intros b Hb. rewrite F3 by done. by rewrite E.
Qed.

Lemma freed_nil s0 X T M : bl_ok (fs_blk s0) X T -> T ⊆ M -> disk_ok s0 -> freed s0 X M (fun _ => False) (fs_blk s0).
Proof.
  intros Hok HT Hd. constructor; [by exists T|by destruct s0| |done].
  intros b Hb. replace (set_blk (fs_blk s0) s0) with s0 by (by destruct s0). naive_solver.
Qed.

(** One more block.  Only the block layer matters, so the inodes of [s] may differ from those of [s0]. *)
Lemma freed_step s0 s X M F B' a :
  freed s0 X M F B' -> fs_sb s = fs_sb s0 -> fs_blk s = B' ->
  data_block ip s0 a -> ~ F a -> 1 ∉ X -> (forall b, 0 <= b < sb_size (fs_sb s0) -> BBLOCK b (fs_sb s0) ∉ X) ->
  (forall b, 0 <= b < sb_size (fs_sb s0) -> BBLOCK b (fs_sb s0) ∈ M) ->
  (size X < max_held)%nat -> (size M <= max_logged)%nat ->
  wp (bfree ROOTDEV a) s (fun _ s' => exists B'', s' = set_blk B'' s /\ freed s0 X M (fun b => F b \/ b = a) B'' /\
    keeps X B' B'').
Proof.
  intros [(T & Hok & HT) Fd Fu Fv] Hsb Hbl (A1 & A2 & A3 & A4 & A5 & A6) Ha H1 HX HM Hsz HMs.
  assert (Es : set_blk B' s0 = set_inodes (inodes s0) (set_blk B' s0)) by (by destruct s0).
  assert (Hd : disk_ok s). { destruct Fd as [D1 D2 D3 D4 D5 D6]. unfold in_use, view in *. cbn [fs_sb fs_blk set_blk] in *.
    constructor; unfold in_use, view; rewrite ?Hsb, ?Hbl; done. }
  assert (Hu : forall b, in_use s b = in_use (set_blk B' s0) b)
    by (intros b; unfold in_use, view; cbn [fs_sb fs_blk set_blk]; by rewrite Hsb, Hbl).
  assert (Har : 0 <= a < sb_size (fs_sb s0)) by lia. rewrite <- Hbl in Hok.
  assert (Hxm : BBLOCK a (fs_sb s0) ∈ M) by (by apply HM).
  eapply wp_mono; [apply (bfree_spec s X T a); try done; rewrite ?Hsb; try done|].
  - rewrite Hu. by apply Fu.
  - by apply HX.
  - etrans; [|exact HMs]. apply subseteq_size. set_solver.
  - intros [] s' (B'' & -> & P). exists B''. split; [done|]. split; [|rewrite <- Hbl; apply P].
    destruct (bfree_bitmap s X T a B'' Hd) as [Hd' Hu']; [by rewrite Hsb|done|done|done| |].
    { rewrite Hsb. intros b' Hb' E. apply A5. by exists b'. }
    assert (Hu2 : forall b, in_use (set_blk B'' s0) b = in_use (set_blk B'' s) b)
      by (intros b; unfold in_use, view; cbn [fs_sb fs_blk set_blk]; by rewrite Hsb).
    constructor.
    + eexists. split; [apply P|]. rewrite Hsb. set_solver.
    + destruct Hd' as [D1 D2 D3 D4 D5 D6]. unfold in_use, view in *. cbn [fs_sb fs_blk set_blk] in *. rewrite Hsb in *.
      by constructor.
    + intros b Hb. rewrite Hu2, Hu' by (by rewrite Hsb). rewrite Hu.
      destruct (decide (b = a)) as [->|Hne]; [naive_solver|]. rewrite Fu by done. naive_solver.
    + intros y Hy. rewrite (fp_view _ _ _ _ _ P). unfold update. rewrite Hsb.
      rewrite decide_False; [unfold view at 1; rewrite Hbl; by apply Fv|]. intros ->. apply Hy. by exists a.
Qed.

(** ** The two loops of itrunc *)

(** The log may take every block of the bitmap, and the block of the inode. *)
Record trunc_room (s : S) (T M : gset Z) : Prop := {
  tr_T : T ⊆ M;
  tr_map : forall b, 0 <= b < sb_size (fs_sb s) -> BBLOCK b (fs_sb s) ∈ M;
  tr_iblk : iblk ip s ∈ M;
  tr_size : (size M <= max_logged)%nat
}.

(** The blocks of the file below number [k]. *)
Definition below (s : S) (k b : Z) : Prop := b <> 0 /\ exists j, 0 <= j < k /\ blockno s j = b.

Lemma below_step s k a : 0 <= k -> blockno s k = a -> a <> 0 -> forall b, (below s k b \/ b = a) <-> below s (k + 1) b.
Proof.
  intros Hk Ha Hn b. unfold below. split.
  - intros [(H0 & j & Hj & E)| ->]; (split; [done|]); [exists j|exists k]; (split; [lia|done]).
  - intros (H0 & j & Hj & E). destruct (decide (j = k)) as [->|]; [right; congruence|left]. split; [done|].
    exists j. split; [lia|done].
Qed.

Lemma below_same s k : 0 <= k -> blockno s k = 0 -> forall b, below s k b <-> below s (k + 1) b.
Proof.
  intros Hk Ha b. unfold below. split; intros (H0 & j & Hj & E); (split; [done|]); exists j; (split; [|done]); [lia|].
  destruct (decide (j = k)) as [->|]; [congruence|lia].
Qed.

Lemma not_below s k : ino_ok s -> 0 <= k < MAXFILE -> blockno s k <> 0 -> ~ below s k (blockno s k).
Proof. intros Hi Hk Hn (_ & j & Hj & E). assert (j = k); [|lia]. apply (io_inj ip s Hi); lia || congruence. Qed.

Definition direct_inv (s : S) (M : gset Z) (i : Z) (s' : S) : Prop := exists B' l, s' = mk B' l s /\
  length l = Z.to_nat (NDIRECT + 1) /\ (forall j : nat, nth j l 0 = if decide (Z.of_nat j < i) then 0 else nth j (i_addrs (ino s)) 0) /\
  freed s ∅ M (below s i) B'.

Lemma direct_loop s T M :
  bl_ok (fs_blk s) ∅ T -> disk_ok s -> ino_ok s -> trunc_room s T M ->
  wp (kfor (R := unit) (Z.to_nat NDIRECT) 0 (fun i =>
    let! addr := get_addr ip i in
    (if truth addr then bfree ROOTDEV addr ;; set_addr ip i 0 else kret tt) ;; kret None)) s
    (fun _ s' => direct_inv s M NDIRECT s').
Proof.
  intros Hok Hd Hi [R1 R2 R3 R4]. pose proof ndirect_pos as Hnd. pose proof (io_ip ip s Hi) as Hip.
  eapply (wp_for _ _ _ _ (fun i s' => 0 <= i <= NDIRECT /\ direct_inv s M i s')).
  - split; [lia|]. exists (fs_blk s), (i_addrs (ino s)). split_and!.
    + by rewrite mk_id.
    + apply Hi.
    + intros j. by rewrite decide_False by lia.
    + eapply freed_ext; [|by apply (freed_nil s ∅ T)]. intros b. unfold below. split; [done|]. intros (_ & j & Hj & _). lia.
  - intros i s' Hir (Hi0 & B' & l & -> & Hl & Hnth & Hf). apply wp_bind. unfold get_addr, iget_field. apply wp_get.
    change (inode_at (mk B' l s) ip) with (ino (mk B' l s)). rewrite ino_mk by done. cbn [i_addrs set_addrs].
    rewrite Hnth, decide_False by lia.
    assert (Eb : nth (Z.to_nat i) (i_addrs (ino s)) 0 = blockno s i)
      by (unfold FsFile.blockno; by rewrite (proj2 (Z.ltb_lt i NDIRECT)) by lia).
    rewrite Eb. assert (HiM : 0 <= i < MAXFILE).
    { rewrite maxfile_def, nindirect_def. pose proof bsize_pos. assert (0 <= BSIZE / 4) by (apply Z.div_pos; lia). lia. }
    unfold truth. destruct (Z.eqb_spec (blockno s i) 0) as [E0|E0]; cbn [negb].
    + apply wp_bind, wp_ret, wp_ret. split; [lia|]. exists B', l. split_and!; try done.
      * intros j. rewrite Hnth. destruct (decide (Z.of_nat j < i)); [by rewrite decide_True by lia|].
        case_decide; [|done]. replace j with (Z.to_nat i) by lia. by rewrite Eb.
      * eapply freed_ext; [|exact Hf]. apply below_same; lia || done.
    + destruct (io_blk ip s Hi i HiM E0) as [Hdb _]. apply wp_bind, wp_bind.
      eapply wp_mono; [apply (freed_step s (mk B' l s) ∅ M (below s i) B'); try done|].
      * by apply not_below.
      * rewrite size_empty. apply max_held_pos.
      * intros [] s'' (B'' & -> & Hf' & _). unfold wp. rewrite set_addr_mk by (cbn; by rewrite length_alter).
        change (set_blk B'' (mk B' l s)) with (mk B'' l s). rewrite ino_mk by done. rewrite mk_mk.
        split; [lia|]. exists B'', (<[Z.to_nat i := 0]> l). split_and!; try done.
        -- by rewrite length_insert.
        -- intros j. destruct (decide (j = Z.to_nat i)) as [->|Hj].
           ++ rewrite nth_insert_eq by lia. by rewrite decide_True by lia.
           ++ rewrite nth_insert_ne by done. rewrite Hnth. apply decide_ext. lia.
        -- eapply freed_ext; [|exact Hf']. apply below_step; lia || done.
  - intros s' (_ & Hinv). replace (0 + Z.of_nat (Z.to_nat NDIRECT)) with NDIRECT in Hinv by lia. exact Hinv.
Qed.

(** The indirect block: its entries, then the block itself. *)
Section indirect.
Context (s : S) (M : gset Z) (l : list Z).
Notation x := (ind s).
Hypothesis Hi : ino_ok s.
Hypothesis HM : forall b, 0 <= b < sb_size (fs_sb s) -> BBLOCK b (fs_sb s) ∈ M.
Hypothesis HMs : (size M <= max_logged)%nat.
Hypothesis Hn : x <> 0.

Lemma x_not_map b : 0 <= b < sb_size (fs_sb s) -> BBLOCK b (fs_sb s) ∉ ({[x]} : gset Z).
Proof. intros Hb. destruct (io_ind ip s Hi Hn) as (_ & _ & _ & _ & H5 & _). rewrite elem_of_singleton. intros E. apply H5. by exists b. Qed.

Lemma entries_loop B1 bp :
  freed s {[x]} M (below s NDIRECT) B1 -> bl_holds B1 x bp ->
  wp (kfor (R := unit) (Z.to_nat NINDIRECT) 0 (fun j =>
    let! a := bdata bp in
    let aj := ld32 a (4 * Z.to_nat j) in
    (if truth aj then bfree ROOTDEV aj else kret tt) ;; kret None)) (mk B1 l s)
    (fun _ s' => exists B', s' = mk B' l s /\ freed s {[x]} M (below s MAXFILE) B' /\ bl_holds B' x bp).
Proof.
  intros Hf1 Hh1. pose proof ndirect_pos as Hnd. pose proof maxfile_def as Hmf.
  assert (Hni : 0 <= NINDIRECT) by (rewrite nindirect_def; pose proof bsize_pos; apply Z.div_pos; lia).
  destruct (io_ind ip s Hi Hn) as (X1 & X2 & X3 & X4 & X5 & X6).
  eapply (wp_for _ _ _ _ (fun j s' => 0 <= j <= NINDIRECT /\ exists B', s' = mk B' l s /\
    freed s {[x]} M (below s (NDIRECT + j)) B' /\ bl_holds B' x bp)).
  - split; [lia|]. exists B1. by rewrite Z.add_0_r.
  - intros j s' Hj (Hj0 & B' & -> & Hf & Hh). pose proof Hf as [(T & Hok & HT) _ _ Fv]. apply wp_bind.
    eapply (wp_bdata _ {[x]} T x); [exact Hok|set_solver|exact Hh|].
    change (view (mk B' l s) x) with (bl_view B' x). rewrite Fv by done.
    assert (Eb : ld32 (view s x) (4 * Z.to_nat j) = blockno s (NDIRECT + j)).
    { unfold FsFile.blockno. rewrite (proj2 (Z.ltb_ge _ _)), (proj2 (Z.eqb_neq _ _) Hn) by lia. do 3 f_equal. lia. }
    cbv zeta. rewrite Eb. set (k := NDIRECT + j) in *. replace (NDIRECT + (j + 1)) with (k + 1) by lia.
    unfold truth. destruct (Z.eqb_spec (blockno s k) 0) as [E0|E0]; cbn [negb].
    + apply wp_bind, wp_ret, wp_ret. split; [lia|]. exists B'. split_and!; try done.
      eapply freed_ext; [|exact Hf]. apply below_same; lia || done.
    + assert (Hk : 0 <= k < MAXFILE) by lia. destruct (io_blk ip s Hi k Hk E0) as [Hdb _].
      apply wp_bind. eapply wp_mono; [apply (freed_step s (mk B' l s) {[x]} M (below s k) B'); try done|].
      * by apply not_below.
      * set_solver.
      * apply x_not_map.
      * rewrite size_singleton. apply Nat.ltb_lt. vm_compute. reflexivity.
      * intros [] s'' (B'' & -> & Hf' & K). apply wp_ret. split; [lia|]. exists B''. split_and!; [done| |].
        -- eapply freed_ext; [|exact Hf']. apply below_step; lia || done.
        -- apply K; [set_solver|done].
  - intros s' (_ & B' & H1 & H2 & H3). exists B'. split; [done|]. split; [|done].
    replace (NDIRECT + (0 + Z.of_nat (Z.to_nat NINDIRECT))) with MAXFILE in H2 by lia. done.
Qed.
End indirect.

Lemma freed_bread s X M F B1 x (s' : S) (Q : nat -> S -> Prop) :
  freed s X M F B1 -> fs_blk s' = B1 -> x ∉ X -> bl_block x -> (size X < max_held)%nat ->
  (forall bp B2, freed s ({[x]} ∪ X) M F B2 -> bl_holds B2 x bp -> Q bp (set_blk B2 s')) ->
  wp (bread ROOTDEV x) s' Q.
Proof.
  intros [(T & Hok & HT) Fd Fu Fv] E Hx Hb Hsz HQ. eapply (wp_bread _ X T x); [by rewrite E|done..|].
  intros bp B2 Ok2 H2 V2 K2. assert (V : forall y, bl_view B2 y = bl_view B1 y) by (intros y; rewrite V2; unfold view; by rewrite E).
  apply HQ; [|done]. assert (V' : forall y, bl_view B2 y = view (set_blk B1 s) y) by done. constructor.
  - by exists T.
  - apply (sv_disk_ok (set_blk B1 s) B2 V' Fd).
  - intros b Hb'. rewrite <- Fu by done. by rewrite <- (sv_use (set_blk B1 s) B2 V').
  - intros y Hy. rewrite V. by apply Fv.
Qed.

Lemma freed_brelse s X M F B1 x bp (s' : S) (Q : unit -> S -> Prop) :
  freed s X M F B1 -> fs_blk s' = B1 -> x ∈ X -> bl_holds B1 x bp ->
  (forall B2, freed s (X ∖ {[x]}) M F B2 -> Q tt (set_blk B2 s')) ->
  wp (brelse bp) s' Q.
Proof.
  intros [(T & Hok & HT) Fd Fu Fv] E Hx Hh HQ. eapply (wp_brelse _ X T x); [by rewrite E|done|by rewrite E|].
  intros B2 Ok2 V2 K2. assert (V : forall y, bl_view B2 y = bl_view B1 y) by (intros y; rewrite V2; unfold view; by rewrite E).
  apply HQ. assert (V' : forall y, bl_view B2 y = view (set_blk B1 s) y) by done. constructor.
  - by exists T.
  - apply (sv_disk_ok (set_blk B1 s) B2 V' Fd).
  - intros b Hb'. rewrite <- Fu by done. by rewrite <- (sv_use (set_blk B1 s) B2 V').
  - intros y Hy. rewrite V. by apply Fv.
Qed.

Lemma below_all_no_ind s : ind s = 0 -> forall b, below s NDIRECT b <-> file_block s b.
Proof.
  intros H0 b. pose proof ndirect_pos. assert (0 <= NINDIRECT) by (rewrite nindirect_def; pose proof bsize_pos; apply Z.div_pos; lia).
  pose proof maxfile_def. unfold below, file_block. rewrite H0. split.
  - intros (Hb & j & Hj & E). split; [done|]. right. exists j. split; [lia|done].
  - intros (Hb & [?|(k & Hk & E)]); [done|]. split; [done|]. exists k. split; [|done].
    destruct (decide (k < NDIRECT)); [lia|]. destruct Hb. rewrite <- E. unfold FsFile.blockno.
    by rewrite (proj2 (Z.ltb_ge _ _)), H0 by lia.
Qed.

Lemma below_all_ind s : ind s <> 0 -> forall b, (below s MAXFILE b \/ b = ind s) <-> file_block s b.
Proof. intros Hn b. unfold below, file_block. naive_solver. Qed.

(** The second half of itrunc, up to the size. *)
Definition free_indirect (dev : Z) : K S unit :=
  let! addr := get_addr ip NDIRECT in
  if truth addr then
    let! bp := bread dev addr in
    let! _ := kfor (R := unit) (Z.to_nat NINDIRECT) 0 (fun j =>
      let! a := bdata bp in
      let aj := ld32 a (4 * Z.to_nat j) in
      (if truth aj then bfree dev aj else kret tt) ;;
      kret None) in
    brelse bp ;;
    bfree dev addr ;;
    set_addr ip NDIRECT 0
  else kret tt.

Definition cleared (s : S) (M : gset Z) (s' : S) : Prop := exists B' l, s' = mk B' l s /\
  length l = Z.to_nat (NDIRECT + 1) /\ (forall j : nat, nth j l 0 = 0) /\ freed s ∅ M (file_block s) B'.

Lemma free_indirect_spec s M s1 :
  disk_ok s -> ino_ok s -> (forall b, 0 <= b < sb_size (fs_sb s) -> BBLOCK b (fs_sb s) ∈ M) -> (size M <= max_logged)%nat ->
  direct_inv s M NDIRECT s1 -> wp (free_indirect ROOTDEV) s1 (fun _ s' => cleared s M s').
Proof.
  intros Hd Hi HM HMs (B1 & l & -> & Hl & Hnth & Hf). pose proof ndirect_pos as Hnd. pose proof (io_ip ip s Hi) as Hip.
  unfold free_indirect, get_addr, iget_field. apply wp_bind, wp_get.
  change (inode_at (mk B1 l s) ip) with (ino (mk B1 l s)). rewrite ino_mk by done. cbn [i_addrs set_addrs].
  rewrite Hnth, decide_False by lia. fold (ind s). unfold truth. destruct (Z.eqb_spec (ind s) 0) as [E0|E0]; cbn [negb].
  - apply wp_ret. exists B1, l. split_and!; try done.
    + intros j. rewrite Hnth. case_decide; [done|]. destruct (decide (j = Z.to_nat NDIRECT)) as [->|]; [exact E0|].
      apply nth_overflow. rewrite (io_len ip s Hi). lia.
    + eapply freed_ext; [|exact Hf]. by apply below_all_no_ind.
  - destruct (io_ind ip s Hi E0) as (X1 & X2 & X3 & X4 & X5 & X6). apply wp_bind.
    eapply (freed_bread s ∅ M _ B1 (ind s)); [exact Hf|done|set_solver|apply (do_block s Hd); lia|rewrite size_empty; apply max_held_pos|].
    intros bp B2 Hf2 Hh2. rewrite (right_id_L ∅ (∪)) in Hf2. apply wp_bind. change (set_blk B2 (mk B1 l s)) with (mk B2 l s).
    eapply wp_mono; [by apply (entries_loop s M l Hi HM HMs E0 B2 bp)|]. intros _ s3 (B3 & -> & Hf3 & Hh3).
    apply wp_bind. eapply (freed_brelse s {[ind s]} M _ B3 (ind s) bp); [exact Hf3|done|set_solver|done|].
    intros B4 Hf4. replace (({[ind s]} : gset Z) ∖ {[ind s]}) with (∅ : gset Z) in Hf4 by set_solver.
    change (set_blk B4 (mk B3 l s)) with (mk B4 l s). apply wp_bind.
    eapply wp_mono; [apply (freed_step s (mk B4 l s) ∅ M (below s MAXFILE) B4); try done|].
    + intros (_ & k & Hk & E). destruct (io_blk ip s Hi k Hk) as [_ H]; congruence.
    + rewrite size_empty. apply max_held_pos.
    + intros [] s5 (B5 & -> & Hf5 & _). unfold wp. rewrite set_addr_mk by (cbn; by rewrite length_alter).
      change (set_blk B5 (mk B4 l s)) with (mk B5 l s). rewrite ino_mk by done. rewrite mk_mk.
      exists B5, (<[Z.to_nat NDIRECT := 0]> l). split_and!; try done.
      * by rewrite length_insert.
      * intros j. destruct (decide (j = Z.to_nat NDIRECT)) as [->|Hj]; [by rewrite nth_insert_eq by lia|].
        rewrite nth_insert_ne by done. rewrite Hnth. case_decide; [done|].
        apply nth_overflow. rewrite (io_len ip s Hi). lia.
      * eapply freed_ext; [|exact Hf5]. by apply below_all_ind.
Qed.

(** ** itrunc *)

Record itrunc_post (s : S) (M : gset Z) (s' : S) : Prop := {
  it_shape : s' = set_blk (fs_blk s') (set_inodes (alter (fun i => set_isize 0 (set_addrs (i_addrs (ino s')) i)) ip (inodes s)) s);
  it_ok : exists T', bl_ok (fs_blk s') ∅ T' /\ T' ⊆ M;
  it_disk : disk_ok s';
  it_ino : ino_ok s';
  it_synced : synced ip s';
  it_wf : dinode_wf (to_dinode (ino s'));
  it_size : i_size (ino s') = 0;
  it_addrs : i_addrs (ino s') = replicate (Z.to_nat (NDIRECT + 1)) 0;
  it_use : forall b, 0 <= b < sb_size (fs_sb s) -> in_use s' b = true <-> in_use s b = true /\ ~ file_block s b;
  it_view : forall y, ~ in_map s y -> y <> iblk ip s -> view s' y = view s y
}.

(** The state after the blocks were freed and the addresses and the size cleared. *)
Section after.
Context (s s2 : S) (M : gset Z) (l : list Z).
Hypothesis Hd : disk_ok s.
Hypothesis Hi : ino_ok s.
Hypothesis Hf : freed s ∅ M (file_block s) (fs_blk s2).
Hypothesis Esb : fs_sb s2 = fs_sb s.
Hypothesis Ein : inodes s2 = alter (fun i => set_isize 0 (set_addrs l i)) ip (inodes s).
Hypothesis El : l = replicate (Z.to_nat (NDIRECT + 1)) 0.

Lemma af_ino : ino s2 = set_isize 0 (set_addrs l (ino s)).
Proof. unfold FsFile.ino, inode_at. rewrite Ein. rewrite nth_alter_eq by apply Hi. done. Qed.

Lemma af_iblk : iblk ip s2 = iblk ip s.
Proof. unfold iblk. by rewrite af_ino, Esb. Qed.

Lemma af_ind : ind s2 = 0.
Proof. unfold FsFile.ind. rewrite af_ino, El. apply nth_replicate_same. Qed.

Lemma af_blockno k : blockno s2 k = 0.
Proof.
  unfold FsFile.blockno. rewrite af_ind. destruct (k <? NDIRECT); [|done]. rewrite af_ino, El. apply nth_replicate_same.
Qed.

Lemma af_use b : in_use s2 b = in_use (set_blk (fs_blk s2) s) b.
Proof. unfold in_use, view. cbn [fs_sb fs_blk set_blk]. by rewrite Esb. Qed.

Lemma af_disk : disk_ok s2.
Proof.
  destruct (fr_disk _ _ _ _ _ Hf) as [D1 D2 D3 D4 D5 D6]. cbn [fs_sb fs_blk set_blk] in *. rewrite <- Esb in *.
  constructor; try done.
  - intros b. rewrite af_use. auto.
  - intros b. cbv zeta. rewrite af_use. auto.
  - rewrite af_use. exact D6.
Qed.

Lemma iblk_not_file : ~ file_block s (iblk ip s).
Proof.
  intros (Hn & [E|(k & Hk & E)]).
  - destruct (io_ind ip s Hi) as (_ & _ & _ & _ & _ & H6); congruence.
  - destruct (io_blk ip s Hi k Hk) as [(_ & _ & _ & _ & _ & H6) _]; congruence.
Qed.

Lemma af_ino_ok : ino_ok s2.
Proof.
  pose proof (io_iblk ip s Hi) as (J1 & J2 & J3 & J4 & J5). pose proof (do_size s Hd).
  constructor; rewrite ?af_iblk.
  - rewrite Ein, length_alter. apply Hi.
  - rewrite af_ino. apply Hi.
  - rewrite af_ino, El. apply length_replicate.
  - intros k _ Hk. by rewrite af_blockno in Hk.
  - intros Hk. by rewrite af_ind in Hk.
  - intros j k _ _ Hk. by rewrite af_blockno in Hk.
  - rewrite af_use. apply (fr_use _ _ _ _ _ Hf); [lia|]. split; [apply Hi|]. by intros [? _].
  - rewrite Esb. split; [done|]. split; [|split; [done|split; [done|]]].
    + rewrite af_use. apply (fr_use _ _ _ _ _ Hf); [lia|]. split; [done|apply iblk_not_file].
    + unfold in_map in *. by rewrite Esb.
Qed.
End after.

Lemma itrunc_spec s T M :
  bl_ok (fs_blk s) ∅ T -> disk_ok s -> ino_ok s -> dinode_wf (to_dinode (ino s)) -> trunc_room s T M ->
  wp (itrunc ip) s (fun _ s' => itrunc_post s M s').
Proof.
  intros Hok Hd Hi Hwf HR. pose proof HR as [R1 R2 R3 R4]. pose proof (io_ip ip s Hi) as Hip. pose proof ndirect_pos.
  unfold itrunc, iget_field. apply wp_bind, wp_get. change (i_dev (inode_at s ip)) with (i_dev (ino s)). rewrite (io_dev ip s Hi).
  apply wp_bind. eapply wp_mono; [by eapply direct_loop|]. intros r s1 Hinv. cbn beta in Hinv. clear r.
  assert (Hwp : wp (free_indirect ROOTDEV) s1 (fun _ s' => cleared s M s')) by (by eapply free_indirect_spec).
  apply wp_iff in Hwp as ([] & s2 & E & B' & l & -> & Hl & Hnth & Hf).
  assert (El : l = replicate (Z.to_nat (NDIRECT + 1)) 0).
  { apply list_eq. intros j. destruct (decide (j < length l)%nat) as [Hj|Hj].
    - rewrite (nth_lookup_lt l j 0), Hnth by done. symmetry. apply lookup_replicate. lia.
    - rewrite !lookup_ge_None_2; [done|rewrite length_replicate; lia|lia]. }
  unfold wp. unfold free_indirect in E. rewrite <- kbind_assoc. rewrite (kbind_ret _ _ _ _ _ E). clear E.
  match goal with |- match ?c with _ => _ end => fold (wp (upd_inode ip (set_isize 0) ;; iupdate ip) (mk B' l s) (fun _ s' => itrunc_post s M s')) end.
  apply wp_bind. apply wp_modify.
  set (s2 := set_inodes _ (mk B' l s)).
  assert (Ein : inodes s2 = alter (fun i => set_isize 0 (set_addrs l i)) ip (inodes s)) by (unfold s2, mk; cbn; by rewrite alter_alter).
  change B' with (fs_blk s2) in Hf. pose proof (af_ino s s2 l Hi Ein) as Ei.
  pose proof (af_disk s s2 M Hf eq_refl) as Hd2. pose proof (af_ino_ok s s2 M l Hd Hi Hf eq_refl Ein El) as Hi2.
  assert (Hwf2 : dinode_wf (to_dinode (ino s2))).
  { destruct Hwf as (F1 & F2 & F3 & F4 & F5 & F6 & F7). rewrite Ei. unfold dinode_wf, is_uint. cbn. split_and!; try done; try lia.
    rewrite El. apply Forall_replicate. lia. }
  destruct (fr_ok _ _ _ _ _ Hf) as (T2 & Ok2 & HT2).
  assert (Hib : iblk ip s2 = iblk ip s) by (by apply (af_iblk s s2 l Hi)).
  eapply wp_mono; [apply (iupdate_spec ip s2 T2 Ok2 Hd2 Hi2 Hwf2)|].
  { rewrite Hib. etrans; [|exact R4]. apply subseteq_size. set_solver. }
  intros [] s3 (B3 & -> & Ok3 & Hd3 & Hi3 & Hsy3 & _ & _ & Hv3 & Hu3). rewrite Hib in *.
  assert (Ei3 : ino (set_blk B3 s2) = set_isize 0 (set_addrs l (ino s))) by exact Ei.
  constructor; rewrite ?Ei3; try done.
  - unfold s2, mk, set_blk, set_inodes. cbn. by rewrite alter_alter.
  - eexists. split; [exact Ok3|]. set_solver.
  - by rewrite <- Ei.
  - intros b Hb. rewrite Hu3 by done. rewrite (af_use s s2 eq_refl). by apply (fr_use _ _ _ _ _ Hf).
  - intros y Hm Hy. rewrite Hv3 by done. by apply (fr_view _ _ _ _ _ Hf).
Qed.

(** ** iput *)

(** States that differ only in fields of inodes that are not on the disk or not about blocks. *)
Lemma disk_ok_ext s s' : fs_blk s' = fs_blk s -> fs_sb s' = fs_sb s -> disk_ok s -> disk_ok s'.
Proof.
  intros E1 E2 [D1 D2 D3 D4 D5 D6]. unfold in_use, view in *. rewrite <- E1, <- E2 in *. by constructor.
Qed.

Lemma ino_ok_ext s s' :
  fs_blk s' = fs_blk s -> fs_sb s' = fs_sb s -> length (inodes s') = length (inodes s) ->
  i_dev (ino s') = i_dev (ino s) -> i_inum (ino s') = i_inum (ino s) -> i_addrs (ino s') = i_addrs (ino s) ->
  ino_ok s -> ino_ok s'.
Proof.
  intros E1 E2 E3 E4 E5 E6 [I1 I2 I3 I4 I5 I6 I7 I8].
  constructor; unfold FsFile.blockno, FsFile.ind, data_block, iblk, in_map, in_use, view in *;
    rewrite ?E1, ?E2, ?E3, ?E4, ?E5, ?E6; done.
Qed.

Lemma upd_ino f s : (ip < length (inodes s))%nat -> ino (set_inodes (alter f ip (inodes s)) s) = f (ino s).
Proof. intros H. unfold FsFile.ino, inode_at. cbn. by apply nth_alter_eq. Qed.

(** Nobody holds the inode or the cache lock. *)
Definition unlocked (s : S) : Prop :=
  ic_lk s = false /\ sl_lk (i_lock (ino s)) = false /\ sl_locked (i_lock (ino s)) = 0.

Definition with_ino (f : inode -> inode) (s : S) : S := set_inodes (alter f ip (inodes s)) s.

Lemma with_ino_comp f g s : with_ino f (with_ino g s) = with_ino (fun i => f (g i)) s.
Proof. unfold with_ino, set_inodes. cbn. by rewrite alter_alter. Qed.

Lemma acquiresleep_ino s :
  unlocked s -> iacquiresleep ip s =
    Ret tt (with_ino (set_ilock (SleepLock 1 false (sl_name (i_lock (ino s))) (fs_pid s))) s).
Proof.
  intros (_ & H1 & H2). unfold iacquiresleep, on_ilock. krun. unfold kzoom. fold (ino s).
  rewrite acquiresleep_eq by done. by rewrite H2.
Qed.

Lemma releasesleep_ino s :
  sl_lk (i_lock (ino s)) = false -> ireleasesleep ip s =
    Ret tt (add_woken (inode_chan ip) (with_ino (set_ilock (SleepLock 0 false (sl_name (i_lock (ino s))) 0)) s)).
Proof.
  intros H1. unfold ireleasesleep, on_ilock, kbind, kzoom. fold (ino s). by rewrite releasesleep_eq.
Qed.

Lemma drop_ref s :
  ic_lk s = false ->
  (ic_acquire ;; upd_inode ip (fun i => set_ref (i_ref i - 1) i) ;; ic_release) s =
    Ret tt (with_ino (fun i => set_ref (i_ref i - 1) i) s).
Proof.
  intros H. unfold ic_acquire, ic_release, upd_inode. krun. rewrite H. krun. cbn [ic_lk set_ic_lk set_inodes].
  unfold kmodify. f_equal. unfold with_ino, set_ic_lk, set_inodes. cbn. by rewrite H.
Qed.

Lemma read_ref {A} (k : Z -> K S A) s :
  ic_lk s = false -> (ic_acquire ;; let! r := iget_field ip i_ref in ic_release ;; k r) s = k (i_ref (ino s)) s.
Proof.
  intros H. unfold ic_acquire, ic_release, iget_field. krun. rewrite H. krun. cbn [ic_lk set_ic_lk]. krun.
  f_equal. unfold set_ic_lk. cbn. destruct s; cbn in *. by subst.
Qed.

(** The entry that iput leaves when the file stays: one reference less. *)
Lemma iput_keeps s :
  (ip < length (inodes s))%nat -> unlocked s ->
  truth (i_valid (ino s)) && (i_nlink (ino s) =? 0) && (i_ref (ino s) =? 1) = false ->
  exists nm, iput ip s = Ret tt (add_woken (inode_chan ip)
    (with_ino (fun i => set_ref (i_ref i - 1) (set_ilock (SleepLock 0 false nm 0) i)) s)).
Proof.
  intros Hip Hu Hc. exists (sl_name (i_lock (ino s))). unfold iput. rewrite (kbind_ret _ _ _ _ _ (acquiresleep_ino s Hu)).
  set (nm := sl_name _) in *. set (s1 := with_ino _ s). unfold iget_field at 1. krun. unfold id.
  assert (Ei : inode_at s1 ip = set_ilock (SleepLock 1 false nm (fs_pid s)) (ino s)) by (by apply upd_ino).
  rewrite !Ei. cbn [i_valid i_nlink set_ilock].
  assert (H1 : ic_lk s1 = false) by apply Hu.
  match goal with |- kbind ?c _ _ = _ => assert (Hbr : c s1 = Ret tt s1) end.
  { destruct (truth (i_valid (ino s)) && (i_nlink (ino s) =? 0)); [|done]. cbn [andb] in Hc.
    rewrite read_ref by done. unfold FsFile.ino at 1. rewrite Ei. cbn [i_ref set_ilock]. by rewrite Hc. }
  rewrite (kbind_ret _ _ _ _ _ Hbr). assert (H2 : sl_lk (i_lock (ino s1)) = false) by (unfold FsFile.ino; by rewrite Ei).
  rewrite (kbind_ret _ _ _ _ _ (releasesleep_ino s1 H2)). rewrite drop_ref by done. f_equal.
  unfold FsFile.ino at 1. rewrite Ei. cbn [i_lock set_ilock sl_name]. unfold s1.
  unfold with_ino, add_woken, set_inodes. cbn. by rewrite !alter_alter.
Qed.

(** What iput leaves of a file without links when the last reference goes. *)
Record iput_post (s : S) (M : gset Z) (s' : S) : Prop := {
  ip_ok : exists T', bl_ok (fs_blk s') ∅ T' /\ T' ⊆ M;
  ip_disk : disk_ok s';
  ip_entry : i_ref (ino s') = 0 /\ i_valid (ino s') = 0;
  ip_unlocked : unlocked s';
  ip_dinode : dinode_at (view s' (iblk ip s)) (i_inum (ino s) mod IPB) =
    Dinode 0 (i_major (ino s)) (i_minor (ino s)) 0 0 (replicate (Z.to_nat (NDIRECT + 1)) 0);
  ip_use : forall b, 0 <= b < sb_size (fs_sb s) -> in_use s' b = true <-> in_use s b = true /\ ~ file_block s b;
  ip_view : forall y, ~ in_map s y -> y <> iblk ip s -> view s' y = view s y;
  ip_others : forall j, j <> ip -> inode_at s' j = inode_at s j;
  ip_rest : fs_sb s' = fs_sb s /\ fs_pid s' = fs_pid s /\ fs_cwd s' = fs_cwd s
}.

Lemma with_ino_ne f s j : j <> ip -> inode_at (with_ino f s) j = inode_at s j.
Proof. intros H. unfold inode_at, with_ino. cbn. by apply nth_alter_ne. Qed.

Lemma iput_last_spec s T M :
  bl_ok (fs_blk s) ∅ T -> disk_ok s -> ino_ok s -> dinode_wf (to_dinode (ino s)) -> trunc_room s T M ->
  unlocked s -> i_valid (ino s) <> 0 -> i_nlink (ino s) = 0 -> i_ref (ino s) = 1 ->
  wp (iput ip) s (fun _ s' => iput_post s M s').
Proof.
  intros Hok Hd Hi Hwf HR Hu Hva Hnl Hrf. pose proof (io_ip ip s Hi) as Hip.
  unfold iput. apply wp_bind. unfold wp at 1. rewrite (acquiresleep_ino s Hu). set (nm := sl_name _).
  set (f1 := set_ilock _). set (s1 := with_ino f1 s). apply wp_bind, wp_get. unfold id.
  assert (Ei : inode_at s1 ip = f1 (ino s)) by (by apply upd_ino). fold (ino s1) in Ei. fold (ino s1). rewrite Ei.
  cbn [i_valid i_nlink f1 set_ilock]. unfold truth. rewrite (proj2 (Z.eqb_neq _ _) Hva), Hnl. cbn [negb andb Z.eqb].
  apply wp_bind. unfold wp at 1. rewrite read_ref by apply Hu. rewrite Ei. cbn [i_ref f1 set_ilock]. rewrite Hrf. cbn [Z.eqb Pos.eqb].
  assert (Hi1 : ino_ok s1) by (apply (ino_ok_ext s); rewrite ?Ei; try done; cbn; apply length_alter).
  assert (Hd1 : disk_ok s1) by (by apply (disk_ok_ext s)).
  assert (Hib1 : iblk ip s1 = iblk ip s) by (unfold iblk; by rewrite Ei).
  assert (HR1 : trunc_room s1 T M) by (destruct HR; constructor; rewrite ?Hib1; done).
  assert (Hfb : forall b, file_block s1 b <-> file_block s b).
  { intros b. unfold file_block, FsFile.blockno, FsFile.ind. rewrite Ei. done. }
  fold (wp (itrunc ip ;; upd_inode ip (set_itype 0) ;; iupdate ip ;; upd_inode ip (set_valid 0)) s1
    (fun _ s' => wp (ireleasesleep ip ;; ic_acquire ;; upd_inode ip (fun i => set_ref (i_ref i - 1) i) ;; ic_release) s'
      (fun _ s'' => iput_post s M s''))).
  apply wp_bind. eapply wp_mono; [apply (itrunc_spec s1 T M); try done; by rewrite Ei|].
  intros [] s2 [P1 (T2 & Ok2 & HT2) Pd Pi Psy Pwf Psz Pad Pus Pvi]. rewrite Pad in P1.
  set (f2 := fun i => set_isize 0 (set_addrs (replicate (Z.to_nat (NDIRECT + 1)) 0) i)) in *.
  assert (Ei2 : ino s2 = f2 (f1 (ino s))).
  { rewrite P1. unfold FsFile.ino, inode_at. cbn. rewrite alter_alter. by rewrite nth_alter_eq. }
  apply wp_bind, wp_modify. fold (with_ino (set_itype 0) s2). set (s3 := with_ino (set_itype 0) s2).
  assert (Hip2 : (ip < length (inodes s2))%nat) by apply Pi.
  assert (Ei3 : ino s3 = set_itype 0 (f2 (f1 (ino s)))) by (unfold s3, with_ino; by rewrite upd_ino, Ei2).
  assert (Esb2 : fs_sb s2 = fs_sb s) by (rewrite P1; done).
  assert (Hib3 : iblk ip s3 = iblk ip s) by (unfold iblk; rewrite Ei3; cbn; by rewrite Esb2).
  destruct HR as [R1 R2 R3 R4]. apply wp_bind.
  eapply wp_mono; [apply (iupdate_spec ip s3 T2 Ok2)|].
  { by apply (disk_ok_ext s2). }
  { apply (ino_ok_ext s2); try done; [cbn; apply length_alter|rewrite Ei3, Ei2; done..]. }
  { rewrite Ei3. rewrite Ei2 in Pwf. destruct Pwf as (F1 & F2). split; [unfold is_short; cbn; lia|exact F2]. }
  { rewrite Hib3. etrans; [|exact R4]. apply subseteq_size. set_solver. }
  intros [] s4 (B4 & -> & Ok4 & Hd4 & _ & Hsy4 & _ & _ & Hv4 & Hu4). apply wp_modify.
  fold (with_ino (set_valid 0) (set_blk B4 s3)). set (s5 := with_ino (set_valid 0) (set_blk B4 s3)).
  assert (Ei5 : ino s5 = set_valid 0 (set_itype 0 (f2 (f1 (ino s))))).
  { unfold s5, with_ino. rewrite upd_ino; [exact (f_equal (set_valid 0) Ei3)|]. cbn. by rewrite length_alter. }
  apply wp_bind. unfold wp at 1. rewrite releasesleep_ino by (by rewrite Ei5). unfold wp.
  assert (Hic : ic_lk s2 = false) by (rewrite P1; apply Hu). rewrite drop_ref by exact Hic.
  set (f6 := set_ilock _). set (f7 := fun i => set_ref (i_ref i - 1) i).
  match goal with |- iput_post _ _ ?st => set (s' := st) end.
  assert (Hl5 : (ip < length (inodes s5))%nat) by (cbn; by rewrite !length_alter).
  assert (Eif : ino s' = f7 (f6 (ino s5))).
  { unfold s', with_ino. rewrite upd_ino by (cbn; by rewrite !length_alter). f_equal.
    unfold FsFile.ino, inode_at. cbn. rewrite nth_alter_eq; [done|]. cbn. by rewrite !length_alter. }
  constructor.
  - exists ({[iblk ip s3]} ∪ T2). split; [exact Ok4|]. rewrite Hib3. set_solver.
  - by apply (disk_ok_ext (set_blk B4 s3)).
  - rewrite Eif, Ei5. cbn. rewrite Hrf. done.
  - split; [exact Hic|]. rewrite Eif. done.
  - unfold synced in Hsy4. rewrite <- Hib3. change (ino (set_blk B4 s3)) with (ino s3) in Hsy4. change (iblk ip (set_blk B4 s3)) with (iblk ip s3) in Hsy4.
    rewrite Ei3 in Hsy4. cbn in Hsy4. unfold to_dinode in Hsy4. cbn in Hsy4. rewrite Hnl in Hsy4. exact Hsy4.
  - intros b Hb. rewrite <- Hfb. change (in_use s b) with (in_use s1 b). rewrite <- (Pus b Hb).
    change (in_use s' b) with (in_use (set_blk B4 s3) b). rewrite Hu4; [done|]. unfold s3. cbn. by rewrite Esb2.
  - intros y Hm Hy. change (view s' y) with (view (set_blk B4 s3) y). rewrite Hv4 by (by rewrite Hib3).
    change (view s3 y) with (view s2 y). apply Pvi; [done|by rewrite Hib1].
  - intros j Hj. unfold s'. rewrite with_ino_ne by done. transitivity (inode_at s5 j); [by apply (with_ino_ne _ s5)|].
    unfold s5. rewrite with_ino_ne by done. transitivity (inode_at s3 j); [done|]. unfold s3. rewrite with_ino_ne by done.
    rewrite P1. unfold inode_at. cbn. rewrite nth_alter_ne by done. by apply nth_alter_ne.
  - change (fs_sb s') with (fs_sb s2). change (fs_pid s') with (fs_pid s2). change (fs_cwd s') with (fs_cwd s2).
    rewrite P1. done.
Qed.
End trunc.
