(* ===== verification/FsIcache.v ===== *)
(** * The inode cache: iget, idup and iput (fs.c)

    Entries are found by device and inode number and counted by reference.  The
    theorem is about any sequence of iget, idup and iput by clients that only use
    pointers they hold. *)

From S2P Require Import Prelude Layout Sleeplock Fsdefs Fs.

(** The number of times [ip] is held. *)
Definition held (ip : nat) (h : list nat) : Z := Z.of_nat (length (filter (eq ip) h)).

Lemma held_cons ip a h : held ip (a :: h) = (if decide (ip = a) then 1 else 0) + held ip h.
Proof. unfold held. rewrite filter_cons. case_decide; cbn [length]; lia. Qed.
Lemma held_nonneg ip h : 0 <= held ip h.
Proof. unfold held. lia. Qed.
Lemma held_in ip h : ip ∈ h -> 1 <= held ip h.
Proof.
  intros Hin. induction h as [|a h IH]; [by apply elem_of_nil in Hin|]. rewrite held_cons. pose proof (held_nonneg ip h).
  apply elem_of_cons in Hin as [->|Hin]; [rewrite decide_True by done; lia|]. case_decide; specialize (IH Hin); lia.
Qed.

(** Take one occurrence out. *)
Fixpoint drop_one (ip : nat) (h : list nat) : list nat :=
  match h with
  | [] => []
  | a :: h' => if decide (a = ip) then h' else a :: drop_one ip h'
  end.
Lemma held_drop ip j h : ip ∈ h -> held j (drop_one ip h) = held j h - (if decide (j = ip) then 1 else 0).
Proof.
  intros Hin. induction h as [|a h IH]; [by apply elem_of_nil in Hin|]. cbn [drop_one]. destruct (decide (a = ip)) as [->|Ha].
  - rewrite held_cons. lia.
  - apply elem_of_cons in Hin as [->|Hin]; [done|]. rewrite !held_cons, (IH Hin). lia.
Qed.
Lemma in_drop_one ip j h : j ∈ drop_one ip h -> j ∈ h.
Proof.
  induction h as [|a h IH]; cbn [drop_one]; [done|]. case_decide; [by right|].
  intros [->|Hj]%elem_of_cons; [left|right; by apply IH].
Qed.

Section icache.
Context `{FsH} {B : Type} `{BlockLayer B}.
Notation S := (fsstate B).
Implicit Types s : S.

(** ** The identity and the count of every entry *)

Definition entry (i : inode) : Z * Z * Z := (i_dev i, i_inum i, i_ref i).
Definition entries (s : S) : list (Z * Z * Z) := entry <$> inodes s.

Lemma entries_alter f ip s : (forall i, entry (f i) = entry i) -> entries (set_inodes (alter f ip (inodes s)) s) = entries s.
Proof.
  intros Hf. unfold entries. cbn. apply list_eq. intros j. rewrite !list_lookup_fmap.
  destruct (decide (j = ip)) as [->|Hj]; [|by rewrite list_lookup_alter_ne].
  rewrite list_lookup_alter_eq. destruct (inodes s !! ip); cbn; [by rewrite Hf|done].
Qed.

(** A routine that leaves every entry's identity and count, the cache lock and the
    current directory alone. *)
Definition same_refs (s s' : S) : Prop := entries s' = entries s /\ ic_lk s' = ic_lk s /\ fs_cwd s' = fs_cwd s.
Definition quiet {A} (c : K S A) : Prop := forall s, wlp c s (fun _ s' => same_refs s s') (fun s' => same_refs s s').

Lemma quiet_bind {A C} (c : K S A) (k : A -> K S C) : quiet c -> (forall a, quiet (k a)) -> quiet (kbind c k).
Proof.
  intros Hc Hk s. apply wlp_bind. eapply wlp_mono; [apply Hc| |done]. intros a s1 (E1 & E2 & E3).
  eapply wlp_mono; [apply Hk| |]; intros; cbn beta in *; unfold same_refs; rewrite <- E1, <- E2, <- E3; done.
Qed.
Lemma quiet_ret {A} (a : A) : quiet (kret a).
Proof. done. Qed.
Lemma quiet_get {A} (f : S -> A) : quiet (kget f).
Proof. done. Qed.
Lemma quiet_panic {A} msg : quiet (kpanic msg : K S A).
Proof. done. Qed.
Lemma quiet_blk {A} (c : K B A) : quiet (blk c).
Proof. intros s. unfold blk, wlp, kzoom. by destruct (c (fs_blk s)). Qed.
Lemma quiet_upd ip f : (forall i, entry (f i) = entry i) -> quiet (upd_inode ip f).
Proof. intros Hf s. apply wlp_modify. split; [by apply entries_alter|done]. Qed.
Lemma quiet_sb f : quiet (kmodify (fun s => set_sb (f s) s)).
Proof. done. Qed.
Lemma quiet_for {R} n i (body : Z -> K S (option R)) : (forall j, quiet (body j)) -> quiet (kfor n i body).
Proof.
  intros Hb. revert i. induction n as [|n IH]; intros i; cbn [kfor]; [apply quiet_ret|].
  apply quiet_bind; [apply Hb|]. intros [r|]; [apply quiet_ret|apply IH].
Qed.
Lemma quiet_if {A} (b : bool) (c d : K S A) : quiet c -> quiet d -> quiet (if b then c else d).
Proof. by destruct b. Qed.
Lemma quiet_lock ip {A} (c : K sleeplock A) : quiet (on_ilock ip c).
Proof.
  intros s. unfold on_ilock, wlp, kzoom. destruct (c (i_lock (inode_at s ip))); try done; (split; [by apply entries_alter|done]).
Qed.
End icache.

Create HintDb quiet.
#[export] Hint Resolve quiet_ret quiet_get quiet_panic quiet_blk quiet_sb quiet_lock : quiet.

Ltac quiet_step :=
  lazymatch goal with
  | |- quiet (kbind _ _) => apply quiet_bind; [|intros]
  | |- quiet (kfor _ _ _) => apply quiet_for; intros
  | |- quiet (if _ then _ else _) => apply quiet_if
  | |- quiet (upd_inode _ _) => apply quiet_upd; done
  | |- quiet (let _ := _ in _) => cbv zeta
  | |- _ => solve [auto with quiet]
  end.
Ltac quiet := repeat quiet_step.

Section routines.
Context `{FsH} {B : Type} `{BlockLayer B}.
Notation S := (fsstate B).
Implicit Types s : S.

Lemma quiet_readsb dev : quiet (readsb dev : K S unit).
Proof. unfold readsb, bread, bdata, brelse. quiet. Qed.

Lemma quiet_bfree dev b : quiet (bfree dev b : K S unit).
Proof. unfold bfree, bread, bdata, blog, brelse. quiet. apply quiet_readsb. Qed.

Lemma quiet_iupdate ip : quiet (iupdate ip : K S unit).
Proof. unfold iupdate, iget_field, bread, bdata, blog, brelse. quiet. Qed.

Lemma quiet_itrunc ip : quiet (itrunc ip : K S unit).
Proof.
  unfold itrunc, get_addr, set_addr, iget_field, bread, bdata, brelse. quiet; try apply quiet_bfree. apply quiet_iupdate.
Qed.

Lemma quiet_ilock ip : quiet (ilock ip : K S unit).
Proof. unfold ilock, iacquiresleep, iget_field, bread, bdata, brelse. quiet. Qed.

Lemma quiet_iunlock ip : quiet (iunlock ip : K S unit).
Proof. unfold iunlock, ireleasesleep, iget_field. quiet. done. Qed.

Lemma quiet_iacquiresleep ip : quiet (iacquiresleep ip : K S unit).
Proof. unfold iacquiresleep. quiet. Qed.
Lemma quiet_ireleasesleep ip : quiet (ireleasesleep ip : K S unit).
Proof. unfold ireleasesleep. quiet. done. Qed.
Lemma quiet_ic_pair ip (k : Z -> K S unit) :
  (forall r, quiet (k r)) -> quiet (ic_acquire ;; let! r := iget_field ip i_ref in ic_release ;; k r).
Proof.
  intros Hk s. unfold ic_acquire, ic_release, iget_field. apply wlp_bind, wlp_bind, wlp_get.
  destruct (ic_lk s) eqn:E; [apply wlp_panic|]. apply wlp_modify, wlp_bind, wlp_get, wlp_bind, wlp_bind, wlp_get. cbn [ic_lk set_ic_lk].
  apply wlp_modify. eapply wlp_mono; [apply Hk| |]; intros; cbn beta in *; unfold same_refs in *; cbn [ic_lk set_ic_lk] in *; by rewrite E.
Qed.

(** ** What each operation does to the entries *)

Definition inc (e : Z * Z * Z) : Z * Z * Z := (e.1, e.2 + 1).
Definition dec (e : Z * Z * Z) : Z * Z * Z := (e.1, e.2 - 1).

Lemma entries_upd f g ip s : (forall i, entry (f i) = g (entry i)) ->
  entries (set_inodes (alter f ip (inodes s)) s) = alter g ip (entries s).
Proof.
  intros Hf. unfold entries. cbn. apply list_eq. intros j. rewrite list_lookup_fmap.
  destruct (decide (j = ip)) as [->|Hj]; [|by rewrite !list_lookup_alter_ne, list_lookup_fmap].
  rewrite !list_lookup_alter_eq, list_lookup_fmap. destruct (inodes s !! ip); cbn; [by rewrite Hf|done].
Qed.

Lemma iput_wlp ip s : ic_lk s = false ->
  wlp (iput ip) s (fun _ s' => entries s' = alter dec ip (entries s) /\ ic_lk s' = false /\ fs_cwd s' = fs_cwd s) (fun _ => True).
Proof.
  intros Hl. unfold iput. apply wlp_bind. eapply wlp_mono; [apply quiet_iacquiresleep| |done]. intros _ s1 (E1 & L1 & C1).
  apply wlp_bind, wlp_get. apply wlp_bind.
  eapply wlp_mono with (Q := fun _ s2 => same_refs s1 s2); [| |intros ? HR; exact I].
  { apply (quiet_if _ _ _); [|apply quiet_ret]. apply quiet_ic_pair. intros r. apply quiet_if; [|apply quiet_ret].
    quiet; [apply quiet_itrunc|apply quiet_iupdate]. }
  intros _ s2 (E2 & L2 & C2). apply wlp_bind. eapply wlp_mono; [apply quiet_ireleasesleep| |done]. intros _ s3 (E3 & L3 & C3).
  rewrite <- E1, <- E2, <- E3, <- C1, <- C2, <- C3. rewrite <- L1, <- L2, <- L3 in Hl. unfold ic_acquire, ic_release, upd_inode.
  apply wlp_bind, wlp_bind, wlp_get. rewrite Hl. apply wlp_modify, wlp_bind, wlp_modify, wlp_bind, wlp_get.
  cbn [ic_lk set_ic_lk set_inodes]. apply wlp_modify. split; [|done].
  by rewrite <- (entries_upd (fun i => set_ref (i_ref i - 1) i) dec).
Qed.

Lemma iput_entries ip s s' : iput ip s = Ret tt s' -> ic_lk s = false ->
  entries s' = alter dec ip (entries s) /\ ic_lk s' = false /\ fs_cwd s' = fs_cwd s.
Proof. intros E Hl. by apply (proj1 (wlp_use _ _ _ _ (iput_wlp ip s Hl)) _ _ E). Qed.

Lemma idup_entries ip s ip' s' : idup ip s = Ret ip' s' -> ic_lk s = false ->
  ip' = ip /\ entries s' = alter inc ip (entries s) /\ ic_lk s' = false /\ fs_cwd s' = fs_cwd s.
Proof.
  unfold idup, ic_acquire, ic_release, upd_inode, kbind, kget, kmodify, kret. intros E Hl. rewrite Hl in E. cbn in E.
  injection E as <- <-. split; [done|]. split; [|done]. by rewrite <- (entries_upd (fun i => set_ref (i_ref i + 1) i) inc).
Qed.

Lemma find_cached_spec dev inum l k :
  match find_cached dev inum l k with
  | Some p => (k <= p)%nat /\ exists i, l !! (p - k)%nat = Some i /\ 0 < i_ref i /\ i_dev i = dev /\ i_inum i = inum
  | None => forall i, i ∈ l -> ~ (0 < i_ref i /\ i_dev i = dev /\ i_inum i = inum)
  end.
Proof.
  revert k. induction l as [|i l IH]; intros k; cbn [find_cached]; [intros i Hi; by apply elem_of_nil in Hi|].
  destruct ((0 <? i_ref i) && (i_dev i =? dev) && (i_inum i =? inum)) eqn:E.
  - split; [lia|]. exists i. rewrite Nat.sub_diag. split; [done|]. lia.
  - specialize (IH (Datatypes.S k)). destruct (find_cached dev inum l (Datatypes.S k)) as [p|].
    + destruct IH as (Hk & j & Hj & Hp). split; [lia|]. exists j. split; [|done]. by replace (p - k)%nat with (Datatypes.S (p - Datatypes.S k)) by lia.
    + intros j [->|Hj]%elem_of_cons; [lia|by apply IH].
Qed.

Lemma find_empty_spec l k :
  match find_empty l k with
  | Some p => (k <= p)%nat /\ exists i, l !! (p - k)%nat = Some i /\ i_ref i = 0
  | None => forall i, i ∈ l -> i_ref i <> 0
  end.
Proof.
  revert k. induction l as [|i l IH]; intros k; cbn [find_empty]; [intros i Hi; by apply elem_of_nil in Hi|].
  destruct (Z.eqb_spec (i_ref i) 0) as [E|E].
  - split; [lia|]. exists i. rewrite Nat.sub_diag. done.
  - specialize (IH (Datatypes.S k)). destruct (find_empty l (Datatypes.S k)) as [p|].
    + destruct IH as (Hk & j & Hj & Hp). split; [lia|]. exists j. split; [|done]. by replace (p - k)%nat with (Datatypes.S (p - Datatypes.S k)) by lia.
    + intros j [->|Hj]%elem_of_cons; [done|by apply IH].
Qed.

(** iget answers the entry that is there, with one more reference, or takes a free one. *)
Lemma iget_entries dev inum s ip s' : iget dev inum s = Ret ip s' -> ic_lk s = false ->
  ic_lk s' = false /\ fs_cwd s' = fs_cwd s /\
  ((exists r, entries s !! ip = Some (dev, inum, r) /\ 0 < r /\ entries s' = alter inc ip (entries s)) \/
   (exists e, entries s !! ip = Some (e, 0) /\ entries s' = <[ip := (dev, inum, 1)]> (entries s) /\
      forall j r, entries s !! j = Some (dev, inum, r) -> ~ 0 < r)).
Proof.
  unfold iget, ic_acquire, ic_release, upd_inode, kbind, kget, kmodify, kret, kpanic. intros E Hl. rewrite Hl in E. cbn in E.
  pose proof (find_cached_spec dev inum (inodes s) 0) as Hc. destruct (find_cached dev inum (inodes s) 0) as [p|].
  - injection E as <- <-. split; [done|]. split; [done|]. left. destruct Hc as (_ & i & Hi & Hr0 & Hd & Hn). rewrite Nat.sub_0_r in Hi.
    exists (i_ref i). unfold entries at 1. rewrite list_lookup_fmap, Hi. cbn. split; [by rewrite <- Hd, <- Hn|]. split; [done|].
    by rewrite <- (entries_upd (fun i => set_ref (i_ref i + 1) i) inc).
  - pose proof (find_empty_spec (inodes s) 0) as He. destruct (find_empty (inodes s) 0) as [p|]; [|done].
    injection E as <- <-. split; [done|]. split; [done|]. right. destruct He as (_ & i & Hi & Hr0). rewrite Nat.sub_0_r in Hi.
    exists (i_dev i, i_inum i). unfold entries at 1. rewrite list_lookup_fmap, Hi. cbn. unfold entry. rewrite Hr0. split; [done|]. split.
    + apply list_eq. intros j. unfold entries. cbn. rewrite list_lookup_fmap. destruct (decide (j = p)) as [->|Hj].
      * rewrite list_lookup_alter_eq, Hi. cbn. rewrite list_lookup_insert_eq; [done|]. rewrite length_fmap. by eapply lookup_lt_Some.
      * rewrite list_lookup_alter_ne, list_lookup_insert_ne, list_lookup_fmap by done. done.
    + intros j r Hj Hr. unfold entries in Hj. rewrite list_lookup_fmap in Hj. destruct (inodes s !! j) as [k|] eqn:Ek; [|done].
      cbn in Hj. injection Hj as E1 E2 E3. apply (Hc k); [by eapply list_elem_of_lookup_2|]. lia.
Qed.

(** With a free entry iget returns one for the inode. *)
Lemma iget_finds dev inum s (free : nat) :
  ic_lk s = false -> (free < length (inodes s))%nat -> i_ref (inode_at s free) = 0 ->
  exists ip s', iget dev inum s = Ret ip s' /\ i_dev (inode_at s' ip) = dev /\ i_inum (inode_at s' ip) = inum /\
    fs_blk s' = fs_blk s.
Proof.
  intros Hl Hlt Hfr. unfold iget, ic_acquire, ic_release, upd_inode, kbind, kget, kmodify, kret, kpanic. rewrite Hl. cbn.
  assert (Hat : forall ip i f, inodes s !! ip = Some i -> nth ip (alter f ip (inodes s)) null_inode = f i).
  { intros ip i f Hi. rewrite nth_alter_eq by (by eapply lookup_lt_Some). by rewrite (nth_lookup_Some _ _ _ _ Hi). }
  pose proof (find_cached_spec dev inum (inodes s) 0) as Hc. destruct (find_cached dev inum (inodes s) 0) as [p|].
  - destruct Hc as (_ & i & Hi & _ & Hd & Hn). rewrite Nat.sub_0_r in Hi. eexists p, _. split; [done|].
    unfold inode_at. cbn. by rewrite !(Hat _ _ _ Hi).
  - pose proof (find_empty_spec (inodes s) 0) as He. destruct (find_empty (inodes s) 0) as [p|].
    + destruct He as (_ & i & Hi & _). rewrite Nat.sub_0_r in Hi. eexists p, _. split; [done|].
      unfold inode_at. cbn. by rewrite !(Hat _ _ _ Hi).
    + exfalso. apply (He (inode_at s free)); [|done]. apply list_elem_of_lookup_2 with free. unfold inode_at. by apply nth_lookup_lt.
Qed.
End routines.

(** ** Sequences of calls *)

Section sequences.
Context `{FsH} {B : Type} `{BlockLayer B}.
Notation S := (fsstate B).
Implicit Types s : S.

(** The state and the pointers that clients hold. *)
Inductive istep : S * list nat -> S * list nat -> Prop :=
| st_iget dev inum s h ip s' : iget dev inum s = Ret ip s' -> istep (s, h) (s', ip :: h)
| st_idup ip s h ip' s' : ip ∈ h -> idup ip s = Ret ip' s' -> istep (s, h) (s', ip' :: h)
| st_iput ip s h s' : ip ∈ h -> iput ip s = Ret tt s' -> istep (s, h) (s', drop_one ip h)
| st_ilock ip s h s' : ip ∈ h -> ilock ip s = Ret tt s' -> istep (s, h) (s', h)
| st_iunlock ip s h s' : ip ∈ h -> iunlock ip s = Ret tt s' -> istep (s, h) (s', h).

(** The reference of an entry counts its holders, and no inode has two entries. *)
Record icache_inv (s : S) (h : list nat) : Prop := {
  ii_lk : ic_lk s = false;
  ii_held : forall ip, ip ∈ h -> is_Some (entries s !! ip);
  ii_ref : forall ip e r, entries s !! ip = Some (e, r) -> r = held ip h;
  ii_uniq : forall ip jp e r r', entries s !! ip = Some (e, r) -> entries s !! jp = Some (e, r') -> 0 < r -> 0 < r' -> ip = jp
}.

(** One entry's count changes. *)
Lemma inv_count s s' h h' ip (d : Z) :
  icache_inv s h -> ic_lk s' = false -> entries s' = alter (fun e => (e.1, e.2 + d)) ip (entries s) ->
  (forall j, held j h' = held j h + if decide (j = ip) then d else 0) -> (forall j, j ∈ h' -> j ∈ h \/ j = ip) -> ip ∈ h ->
  icache_inv s' h' /\ forall j, j ∈ h -> fst <$> entries s' !! j = fst <$> entries s !! j.
Proof.
  intros [I1 I2 I3 I4] Hl E Hh Hsub Hin.
  assert (Hlk : forall j, entries s' !! j = (fun e => (e.1, e.2 + if decide (j = ip) then d else 0)) <$> entries s !! j).
  { intros j. rewrite E. destruct (decide (j = ip)) as [->|Hj].
    - by rewrite list_lookup_alter_eq.
    - rewrite list_lookup_alter_ne by done. destruct (entries s !! j) as [[e r]|]; cbn; [by rewrite Z.add_0_r|done]. }
  split; [constructor|].
  - done.
  - intros j Hj. rewrite Hlk. apply fmap_is_Some, I2. destruct (Hsub j Hj) as [?| ->]; done.
  - intros j e r Hj. rewrite Hlk in Hj. destruct (entries s !! j) as [[e0 r0]|] eqn:Ej; [|done]. cbn in Hj. injection Hj as <- <-.
    rewrite Hh. by rewrite (I3 _ _ _ Ej).
  - intros j k e r r' Hj Hk Hr Hr'. rewrite Hlk in Hj, Hk.
    destruct (entries s !! j) as [[e0 r0]|] eqn:Ej; [|done]. destruct (entries s !! k) as [[e1 r1]|] eqn:Ek; [|done].
    cbn in Hj, Hk. injection Hj as -> <-. injection Hk as -> <-.
    assert (Hip : forall q x y, entries s !! q = Some (x, y) -> q = ip -> 0 < y).
    { intros q x y Hq ->. rewrite (I3 _ _ _ Hq). pose proof (held_in ip h Hin). lia. }
    apply (I4 j k e r0 r1 Ej Ek).
    + destruct (decide (j = ip)); [by eapply Hip|lia].
    + destruct (decide (k = ip)); [by eapply Hip|lia].
  - intros j _. rewrite Hlk. by destruct (entries s !! j) as [[]|].
Qed.

Lemma quiet_step_inv {A} (c : K S A) a s s' h : quiet c -> c s = Ret a s' -> icache_inv s h ->
  icache_inv s' h /\ forall j, j ∈ h -> fst <$> entries s' !! j = fst <$> entries s !! j.
Proof.
  intros Hq E [I1 I2 I3 I4]. specialize (Hq s). unfold wlp in Hq. rewrite E in Hq. destruct Hq as (E1 & E2 & _).
  split; [constructor; rewrite ?E1, ?E2; done|]. intros j _. by rewrite E1.
Qed.

Lemma istep_inv c c' : istep c c' -> icache_inv c.1 c.2 ->
  icache_inv c'.1 c'.2 /\ forall j, j ∈ c.2 -> fst <$> entries c'.1 !! j = fst <$> entries c.1 !! j.
Proof.
  destruct 1 as [dev inum s h ip s' E|ip s h ip' s' Hin E|ip s h s' Hin E|ip s h s' Hin E|ip s h s' Hin E]; cbn [fst snd]; intros I.
  - destruct (iget_entries dev inum s ip s' E (ii_lk _ _ I)) as (Hl & _ & [(r & Hi & Hr & Es)|(e & Hi & Es & Hno)]).
    + assert (Hin : ip ∈ h).
      { destruct (decide (ip ∈ h)) as [|Hn]; [done|]. rewrite (ii_ref _ _ I _ _ _ Hi) in Hr. unfold held in Hr.
        destruct (filter (eq ip) h) as [|x l] eqn:Ef; [cbn in Hr; lia|].
        assert (Hx : x ∈ filter (eq ip) h) by (rewrite Ef; left). apply list_elem_of_filter in Hx as [<- Hx]. done. }
      eapply (inv_count s s' h (ip :: h) ip 1); try done.
      * intros j. rewrite held_cons. case_decide; lia.
      * intros j [->|Hj]%elem_of_cons; [by right|by left].
    + assert (Hni : ip ∉ h). { intros Hin. pose proof (held_in ip h Hin). pose proof (ii_ref _ _ I _ _ _ Hi). lia. }
      assert (Hlt : (ip < length (entries s))%nat) by (by eapply lookup_lt_Some).
      destruct I as [I1 I2 I3 I4]. split; [constructor|].
      * done.
      * intros j [->|Hj]%elem_of_cons; rewrite Es.
        -- rewrite list_lookup_insert_eq by done. done.
        -- rewrite list_lookup_insert_ne by (by intros ->). by apply I2.
      * intros j e' r Hj. rewrite Es in Hj. rewrite held_cons. destruct (decide (j = ip)) as [->|Hne].
        -- rewrite list_lookup_insert_eq in Hj by done. injection Hj as <- <-. rewrite <- (I3 _ _ _ Hi). done.
        -- rewrite list_lookup_insert_ne in Hj by done. by apply I3 in Hj.
      * intros j k e' r r' Hj Hk Hr Hr'. rewrite Es in Hj, Hk.
        destruct (decide (j = ip)) as [->|Hnj], (decide (k = ip)) as [->|Hnk]; [done| | |].
        -- rewrite list_lookup_insert_eq in Hj by done. rewrite list_lookup_insert_ne in Hk by done. injection Hj as <- <-.
           by destruct (Hno _ _ Hk).
        -- rewrite list_lookup_insert_eq in Hk by done. rewrite list_lookup_insert_ne in Hj by done. injection Hk as <- <-.
           by destruct (Hno _ _ Hj).
        -- rewrite list_lookup_insert_ne in Hj, Hk by done. by eapply I4.
      * intros j Hj. rewrite Es, list_lookup_insert_ne; [done|]. by intros ->.
  - destruct (idup_entries ip s ip' s' E (ii_lk _ _ I)) as (-> & Es & Hl & _).
    eapply (inv_count s s' h (ip :: h) ip 1); try done.
    + intros j. rewrite held_cons. case_decide; lia.
    + intros j [->|Hj]%elem_of_cons; [by right|by left].
  - destruct (iput_entries ip s s' E (ii_lk _ _ I)) as (Es & Hl & _).
    eapply (inv_count s s' h (drop_one ip h) ip (-1)); try done.
    + intros j. rewrite held_drop by done. case_decide; lia.
    + intros j Hj. left. by eapply in_drop_one.
  - by eapply (quiet_step_inv (ilock ip)); [apply quiet_ilock|..].
  - by eapply (quiet_step_inv (iunlock ip)); [apply quiet_iunlock|..].
Qed.

(** The cache when no pointer is out. *)
Definition icache_fresh (s : S) : Prop := ic_lk s = false /\ forall ip, i_ref (inode_at s ip) = 0.

Lemma fresh_inv s : icache_fresh s -> icache_inv s [].
Proof.
  intros [Hl Hr]. assert (H0' : forall ip e r, entries s !! ip = Some (e, r) -> r = 0).
  { intros ip e r He. unfold entries in He. rewrite list_lookup_fmap in He. destruct (inodes s !! ip) as [i|] eqn:Ei; [|done].
    cbn in He. injection He as <- <-. specialize (Hr ip). unfold inode_at in Hr. by rewrite (nth_lookup_Some _ _ _ _ Ei) in Hr. }
  constructor; [done| | |].
  - intros ip Hip. by apply elem_of_nil in Hip.
  - intros ip e r He. by rewrite (H0' _ _ _ He).
  - intros ip jp e r r' He _ Hr1. rewrite (H0' _ _ _ He) in Hr1. lia.
Qed.
End sequences.

(** C36: in every sequence of completed iget, idup, iput, ilock and iunlock calls by
    clients that use only pointers they hold, starting from an unreferenced cache, the
    reference count of an entry is the number of pointers to it that are held; two held
    pointers to the same inode of the same device are the same entry; and no call gives
    an entry that someone holds to another inode. *)
Theorem icache_references `{FsH} {B : Type} `{BlockLayer B} (s0 s : fsstate B) (h : list nat) :
  icache_fresh s0 -> rtc istep (s0, []) (s, h) ->
  (forall ip, ip ∈ h -> (ip < length (inodes s))%nat /\ i_ref (inode_at s ip) = held ip h) /\
  (forall ip jp, ip ∈ h -> jp ∈ h -> i_dev (inode_at s ip) = i_dev (inode_at s jp) ->
     i_inum (inode_at s ip) = i_inum (inode_at s jp) -> ip = jp) /\
  (forall s' h' ip, istep (s, h) (s', h') -> ip ∈ h ->
     i_dev (inode_at s' ip) = i_dev (inode_at s ip) /\ i_inum (inode_at s' ip) = i_inum (inode_at s ip)).
Proof.
  intros Hf Hr. assert (I : icache_inv s h).
  { change (icache_inv (s, h).1 (s, h).2). apply fresh_inv in Hf. change (icache_inv (s0, @nil nat).1 (s0, @nil nat).2) in Hf.
    revert Hf. induction Hr as [|c1 c2 c3 Hs _ IH]; [done|]. intros Hc. apply IH. by apply (istep_inv _ _ Hs). }
  assert (Hat : forall ip, ip ∈ h -> entries s !! ip = Some (entry (inode_at s ip)) /\ (ip < length (inodes s))%nat).
  { intros ip Hip. destruct (ii_held _ _ I ip Hip) as [e He]. unfold entries in *. rewrite list_lookup_fmap in *.
    destruct (inodes s !! ip) as [i|] eqn:Ei; [|done]. unfold inode_at. rewrite (nth_lookup_Some _ _ _ _ Ei).
    split; [done|by eapply lookup_lt_Some]. }
  split_and!.
  - intros ip Hip. destruct (Hat ip Hip) as [He Hlt]. split; [done|]. apply (ii_ref _ _ I _ _ _ He).
  - intros ip jp Hip Hjp Hd Hn. destruct (Hat ip Hip) as [He _], (Hat jp Hjp) as [Hj _].
    unfold entry in He, Hj. rewrite Hd, Hn in He. apply (ii_uniq _ _ I _ _ _ _ _ He Hj).
    + rewrite (ii_ref _ _ I _ _ _ He). pose proof (held_in ip h Hip). lia.
    + rewrite (ii_ref _ _ I _ _ _ Hj). pose proof (held_in jp h Hjp). lia.
  - intros s' h' ip Hs Hip. destruct (istep_inv _ _ Hs I) as [_ Hk]. specialize (Hk ip Hip). cbn [fst snd] in Hk.
    destruct (Hat ip Hip) as [He _]. rewrite He in Hk. unfold entries in Hk. rewrite list_lookup_fmap in Hk.
    destruct (inodes s' !! ip) as [i|] eqn:Ei; [|done]. unfold inode_at at 1 3. rewrite (nth_lookup_Some _ _ _ _ Ei).
    cbn in Hk. by injection Hk.
Qed.
