(* ===== verification/FsRefs.v ===== *)
(** * Inode references of the routines of fs.c

    Which references to cache entries each routine needs, gives and gives up: reading
    and writing keep them, a directory lookup or a path walk that succeeds gives one,
    one that fails gives none. *)

From S2P Require Import Prelude Layout Sleeplock Fsdefs Fs FsIcache.
From Stdlib Require Import Permutation.

Lemma wlp_rets {T A} (c : K T A) (s : T) (Q : A -> T -> Prop) : (forall a s', c s = Ret a s' -> Q a s') -> wlp c s Q (fun _ => True).
Proof. intros Hq. unfold wlp. destruct (c s) eqn:E; [by apply Hq|done..]. Qed.

Section refs.
Context `{FsH} {B : Type} `{BlockLayer B}.
Notation S := (fsstate B).
Implicit Types s : S.
Variable dr : Z -> option (nat -> Z -> K S (Z * list Z)).
Variable dw : Z -> option (nat -> list Z -> Z -> K S Z).
Hypothesis Hdr : forall m f, dr m = Some f -> forall ip n, quiet (f ip n).
Hypothesis Hdw : forall m f, dw m = Some f -> forall ip l n, quiet (f ip l n).

(** ** Routines that keep every reference *)

Lemma quiet_bzero dev b : quiet (bzero dev b : K S unit).
Proof. unfold bzero, bread, blog, brelse. quiet. Qed.

Lemma quiet_balloc dev : quiet (balloc dev : K S Z).
Proof.
  unfold balloc, bread, bdata, blog, brelse. quiet.
  - case_match; quiet. apply quiet_bzero.
  - case_match; quiet.
Qed.

Lemma quiet_bmap ip bn : quiet (bmap ip bn : K S Z).
Proof. unfold bmap, get_addr, set_addr, iget_field, bread, bdata, blog, brelse. quiet; apply quiet_balloc. Qed.

Lemma quiet_readi_loop fuel ip n : forall off tot, quiet (readi_loop fuel ip off n tot : K S (list Z)).
Proof.
  induction fuel as [|fuel IH]; intros off tot; cbn [readi_loop]; unfold iget_field, bread, bdata, brelse; quiet; try done; (apply quiet_bmap || apply IH).
Qed.

Lemma quiet_writei_loop fuel ip n : forall src off tot, quiet (writei_loop fuel ip src off n tot : K S Z).
Proof.
  induction fuel as [|fuel IH]; intros src off tot; cbn [writei_loop]; unfold iget_field, bread, bdata, blog, brelse; quiet; try done; (apply quiet_bmap || apply IH).
Qed.

Lemma quiet_readi ip off n : quiet (readi dr ip off n : K S (Z * list Z)).
Proof.
  unfold readi, iget_field. quiet; [|apply quiet_readi_loop]. unfold devsw. destruct (_ || _); [quiet|].
  destruct (dr _) eqn:E; [by eapply Hdr|quiet].
Qed.

Lemma quiet_writei ip src off n : quiet (writei dw ip src off n : K S Z).
Proof.
  unfold writei, iget_field. quiet; [|apply quiet_writei_loop|apply quiet_iupdate]. unfold devsw. destruct (_ || _); [quiet|].
  destruct (dw _) eqn:E; [by eapply Hdw|quiet].
Qed.

Lemma quiet_read_dirent dp off msg : quiet (read_dirent dr dp off msg : K S dirent).
Proof. unfold read_dirent. quiet. apply quiet_readi. Qed.

(** ** References *)

(** The references [h] are out, and the current directory is [cw]. *)
Definition holds (cw : nat) s (h : list nat) : Prop := icache_inv s h /\ fs_cwd s = cw.

Lemma held_perm j h h' : h ≡ₚ h' -> held j h = held j h'.
Proof. intros E. unfold held. by rewrite E. Qed.

Lemma holds_perm cw s h h' : h ≡ₚ h' -> holds cw s h -> holds cw s h'.
Proof.
  intros E [[I1 I2 I3 I4] Hc]. split; [|done]. constructor; [done| | |done].
  - intros ip Hip. apply I2. by rewrite E.
  - intros ip e r Hr. rewrite <- (held_perm ip h h' E). by eapply I3.
Qed.

Lemma drop_one_perm ip h : ip ∈ h -> h ≡ₚ ip :: drop_one ip h.
Proof.
  induction h as [|a h IH]; [by intros ?%elem_of_nil|]. cbn [drop_one]. case_decide as E; [by subst|].
  intros [->|Hin]%elem_of_cons; [done|]. rewrite Permutation_swap. by rewrite <- IH.
Qed.

Notation gives cw c s Q := (wlp c s (fun a s' => holds cw s' (Q a)) (fun _ => True)).

Lemma gives_quiet {A} cw (c : K S A) s h : quiet c -> holds cw s h -> gives cw c s (fun _ => h).
Proof.
  intros Hq [I Hc]. apply wlp_rets. intros a s' E. split; [by apply (quiet_step_inv c a s s' h Hq E I)|].
  specialize (Hq s). unfold wlp in Hq. rewrite E in Hq. destruct Hq as (_ & _ & Hq). congruence.
Qed.

Lemma gives_iget cw dev inum s h : holds cw s h -> gives cw (iget dev inum) s (fun ip => ip :: h).
Proof.
  intros [I Hc]. apply wlp_rets. intros ip s' E. split; [exact (proj1 (istep_inv (s, h) (s', ip :: h) (st_iget dev inum s h ip s' E) I))|].
  destruct (iget_entries dev inum s ip s' E (ii_lk _ _ I)) as (_ & C & _). congruence.
Qed.

Lemma gives_idup cw ip s h : holds cw s h -> ip ∈ h -> gives cw (idup ip) s (fun ip' => ip' :: h).
Proof.
  intros [I Hc] Hin. apply wlp_rets. intros ip' s' E. split; [exact (proj1 (istep_inv (s, h) (s', ip' :: h) (st_idup ip s h ip' s' Hin E) I))|].
  destruct (idup_entries ip s ip' s' E (ii_lk _ _ I)) as (_ & _ & _ & C). congruence.
Qed.

Lemma gives_iput cw ip s h h' : holds cw s h -> h ≡ₚ ip :: h' -> gives cw (iput ip) s (fun _ => h').
Proof.
  intros [I Hc] Hp. assert (Hin : ip ∈ h) by (rewrite Hp; left). apply wlp_rets. intros [] s' E.
  apply (holds_perm cw s' (drop_one ip h)); [apply (Permutation_cons_inv (a := ip)); by rewrite <- Hp, <- drop_one_perm|].
  split; [exact (proj1 (istep_inv (s, h) (s', drop_one ip h) (st_iput ip s h s' Hin E) I))|].
  destruct (iput_entries ip s s' E (ii_lk _ _ I)) as (_ & _ & C). congruence.
Qed.

Lemma gives_bind {A C} cw (c : K S A) (k : A -> K S C) s Q R :
  gives cw c s Q -> (forall a s', holds cw s' (Q a) -> gives cw (k a) s' R) -> gives cw (kbind c k) s R.
Proof. intros Hc Hk. apply wlp_bind. eapply wlp_mono; [exact Hc| |done]. intros a s' Ha. by apply Hk. Qed.

Lemma gives_seq {A C} cw (c : K S A) (k : A -> K S C) s h R :
  quiet c -> holds cw s h -> (forall a s', holds cw s' h -> gives cw (k a) s' R) -> gives cw (kbind c k) s R.
Proof. intros Hq Hh. by apply (gives_bind cw c k s (fun _ => h)), gives_quiet. Qed.

Lemma gives_iunlockput cw ip s h h' : holds cw s h -> h ≡ₚ ip :: h' -> gives cw (iunlockput ip) s (fun _ => h').
Proof.
  intros Hh Hp. unfold iunlockput. eapply gives_seq; [apply quiet_iunlock|exact Hh|]. intros _ s1 H1. by eapply gives_iput.
Qed.

(** A reference given up, in sequence. *)
Lemma gives_put {C} cw ip (k : unit -> K S C) s h h' R : holds cw s h -> h ≡ₚ ip :: h' ->
  (forall a s', holds cw s' h' -> gives cw (k a) s' R) -> gives cw (kbind (iput ip) k) s R.
Proof. intros Hh Hp. by apply (gives_bind cw _ k s (fun _ => h')), (gives_iput cw ip s h). Qed.
Lemma gives_unput {C} cw ip (k : unit -> K S C) s h h' R : holds cw s h -> h ≡ₚ ip :: h' ->
  (forall a s', holds cw s' h' -> gives cw (k a) s' R) -> gives cw (kbind (iunlockput ip) k) s R.
Proof. intros Hh Hp. by apply (gives_bind cw _ k s (fun _ => h')), (gives_iunlockput cw ip s h). Qed.

(** ** Directories and paths *)

Lemma gives_for {R} cw n (body : Z -> K S (option R)) h (give : R -> list nat) :
  (forall i s, holds cw s h -> gives cw (body i) s (fun r => match r with Some v => give v | None => h end)) ->
  forall i s, holds cw s h -> gives cw (kfor n i body) s (fun r => match r with Some v => give v | None => h end).
Proof.
  intros Hb. induction n as [|n IH]; intros i s Hs; cbn [kfor]; [by apply wlp_ret|].
  eapply gives_bind; [by apply Hb|]. intros [v|] s' Hs'; [by apply wlp_ret|by apply IH].
Qed.

(** The reference that comes with an answer. *)
Definition got {X} (r : option (nat * X)) (h : list nat) : list nat := match r with Some (ip, _) => ip :: h | None => h end.
Definition got1 (r : option nat) (h : list nat) : list nat := match r with Some ip => ip :: h | None => h end.

Lemma gives_dirlookup cw dp name s h : holds cw s h -> gives cw (dirlookup dr dp name) s (fun r => got r h).
Proof.
  intros Hs. unfold dirlookup, iget_field. apply wlp_bind, wlp_get. destruct (negb _); [done|].
  eapply wlp_mono; [apply (gives_for cw _ _ h (fun v : nat * Z => v.1 :: h)); [|exact Hs]| |done].
  - intros i s1 H1. eapply gives_seq; [apply quiet_read_dirent|exact H1|]. intros de s2 H2.
    destruct (_ =? _); [by apply wlp_ret|]. destruct (_ =? _); [|by apply wlp_ret].
    eapply gives_bind; [by apply gives_iget|]. intros ip s3 H3. by apply wlp_ret.
  - intros [[ip off]|] s1 H1; exact H1.
Qed.

Lemma gives_dirlink cw dp name inum s h : holds cw s h -> gives cw (dirlink dr dw dp name inum) s (fun _ => h).
Proof.
  intros Hs. unfold dirlink. eapply gives_bind; [by apply gives_dirlookup|]. intros [[ip off]|] s1 H1; cbn [got] in H1.
  - eapply gives_put; [eassumption|done|]. intros _ s2 H2. by apply wlp_ret.
  - apply (gives_quiet cw); [|done]. unfold iget_field. quiet; [apply quiet_read_dirent|apply quiet_writei].
Qed.

Lemma gives_namex_loop cw np fuel : forall ip path name s h, holds cw s (ip :: h) ->
  gives cw (namex_loop dr fuel ip path name np) s (fun r => got r h).
Proof.
  induction fuel as [|fuel IH]; intros ip path name s h Hs; cbn [namex_loop]; destruct (skipelem path name) as [[path' name']|].
  - done.
  - destruct np; [|by apply wlp_ret]. eapply gives_put; [eassumption|done|]. intros _ s1 H1. by apply wlp_ret.
  - eapply gives_seq; [apply quiet_ilock|exact Hs|]. intros _ s1 H1. unfold iget_field. apply wlp_bind, wlp_get.
    destruct (negb _). { eapply gives_unput; [eassumption|done|]. intros _ s2 H2. by apply wlp_ret. }
    destruct (np && _). { eapply gives_seq; [apply quiet_iunlock|exact H1|]. intros _ s2 H2. by apply wlp_ret. }
    eapply gives_bind; [by apply gives_dirlookup|]. intros [[next off]|] s2 H2; cbn [got] in H2.
    + eapply gives_unput; [exact H2|apply Permutation_swap|]. intros _ s3 H3. by apply IH.
    + eapply gives_unput; [eassumption|done|]. intros _ s3 H3. by apply wlp_ret.
  - destruct np; [|by apply wlp_ret]. eapply gives_put; [eassumption|done|]. intros _ s1 H1. by apply wlp_ret.
Qed.

Lemma gives_namex cw path np name s h : holds cw s h -> cw ∈ h -> gives cw (namex dr path np name) s (fun r => got r h).
Proof.
  intros Hs Hin. unfold namex. apply gives_bind with (Q := fun ip => ip :: h); [|intros ip s1 H1; by apply gives_namex_loop].
  destruct (_ =? _); [by apply gives_iget|]. apply wlp_bind, wlp_get. destruct Hs as [I Hc]. rewrite Hc. by apply gives_idup.
Qed.

Lemma gives_namei cw path name s h : holds cw s h -> cw ∈ h -> gives cw (namei dr path name) s (fun r => got1 r h).
Proof.
  intros Hs Hin. unfold namei. eapply gives_bind; [by apply gives_namex|]. intros [[ip n]|] s1 H1; by apply wlp_ret.
Qed.

Lemma gives_ialloc cw dev type s h : holds cw s h -> gives cw (ialloc dev type) s (fun ip => ip :: h).
Proof.
  intros Hs. unfold ialloc, bread, bdata, blog, brelse. apply wlp_bind, wlp_get.
  eapply gives_bind; [apply (gives_for cw _ _ h (fun ip : nat => ip :: h)); [|exact Hs]|].
  - intros i s1 H1. eapply gives_seq; [apply quiet_blk|exact H1|]. intros bp s2 H2. apply wlp_bind, wlp_get.
    destruct (_ =? _).
    + eapply gives_seq; [apply quiet_blk|exact H2|]. intros _ s3 H3. eapply gives_seq; [apply quiet_blk|exact H3|]. intros _ s4 H4.
      eapply gives_bind; [by apply gives_iget|]. intros ip s5 H5. by apply wlp_ret.
    + eapply gives_seq; [apply quiet_blk|exact H2|]. intros _ s3 H3. by apply wlp_ret.
  - intros [ip|] s1 H1; [by apply wlp_ret|done].
Qed.
End refs.
