(* ===== verification/FsPath.v ===== *)
(** * Paths: skipelem and namex (fs.c)

    A path is the list of its elements; namex walks from directory to directory
    along that list. *)

From S2P Require Import Prelude Layout Sleeplock Fsdefs Fs.

(** The elements of a path: what stands between slashes, without the empty ones. *)
Fixpoint elements (path : list Z) : list (list Z) :=
  match path with
  | [] => []
  | c :: p =>
      if c =? slash then elements p
      else match p with
           | [] => [[c]]
           | d :: _ => if d =? slash then [c] :: elements p
                       else match elements p with e :: es => (c :: e) :: es | [] => [[c]] end
           end
  end.

Lemma elements_skip path : elements (skip_slashes path) = elements path.
Proof. induction path as [|c p IH]; [done|]. cbn. destruct (c =? slash) eqn:E; [done|]. cbn. by rewrite E. Qed.

Lemma skip_slashes_head path : skip_slashes path = [] \/ exists c p, skip_slashes path = c :: p /\ c <> slash.
Proof.
  induction path as [|c p IH]; [by left|]. cbn. destruct (Z.eqb_spec c slash); [done|]. right. by exists c, p.
Qed.

Lemma skip_slashes_length path : (length (skip_slashes path) <= length path)%nat.
Proof. induction path as [|c p IH]; [done|]. cbn. destruct (c =? slash); cbn; lia. Qed.

Lemma span_length path : (length (span_elem path).1 + length (span_elem path).2 = length path)%nat.
Proof. induction path as [|c p IH]; [done|]. cbn. destruct (c =? slash); [done|]. destruct (span_elem p). cbn in *. lia. Qed.

(** A path that does not start with a slash starts with its first element. *)
Lemma elements_span path c p : path = c :: p -> c <> slash ->
  elements path = (span_elem path).1 :: elements (span_elem path).2 /\ (0 < length (span_elem path).1)%nat.
Proof.
  intros E Hc. revert path c E Hc. induction p as [|d p IH]; intros path c -> Hc.
  { cbn. rewrite (proj2 (Z.eqb_neq _ _) Hc). by split; [|cbn; lia]. }
  change (elements (c :: d :: p)) with (if c =? slash then elements (d :: p) else if d =? slash then [c] :: elements (d :: p)
    else match elements (d :: p) with e :: es => (c :: e) :: es | [] => [[c]] end).
  change (span_elem (c :: d :: p)) with (if c =? slash then ([], c :: d :: p) else let (e, r) := span_elem (d :: p) in (c :: e, r)).
  rewrite (proj2 (Z.eqb_neq _ _) Hc). destruct (Z.eqb_spec d slash) as [Ed|Hd].
  - replace (span_elem (d :: p)) with (@nil Z, d :: p) by (cbn; by rewrite (proj2 (Z.eqb_eq _ _) Ed)). split; [done|cbn; lia].
  - destruct (IH (d :: p) d eq_refl Hd) as [E1 E2]. rewrite E1. destruct (span_elem (d :: p)) as [e r]. cbn. split; [done|lia].
Qed.

Section path.
Context `{FH : FsH} {B : Type} `{BL : BlockLayer B}.
Notation S := (fsstate B).
Variable dr : Z -> option (nat -> Z -> K S (Z * list Z)).

(** What skipelem leaves in the array [name] for the element [e]. *)
Definition store_name (e name : list Z) : list Z :=
  if DIRSIZ <=? Z.of_nat (length e) then splice 0 (take (Z.to_nat DIRSIZ) e) name else splice 0 (e ++ [0]) name.

(** skipelem takes the first element off. *)
Lemma skipelem_elements path name :
  match skipelem path name with
  | None => elements path = []
  | Some (path', name') => exists e, elements path = e :: elements path' /\ name' = store_name e name /\
      (length path' < length path)%nat /\ (path' = [] <-> elements path' = []) /\ nth 0 path' 0 <> slash
  end.
Proof.
  unfold skipelem. pose proof (elements_skip path) as Hs. pose proof (skip_slashes_length path) as Hl.
  destruct (skip_slashes_head path) as [E|(c & p & E & Hc)]; rewrite E in *; [by rewrite <- Hs|].
  destruct (elements_span (c :: p) c p eq_refl Hc) as [E1 E2]. pose proof (span_length (c :: p)) as Hn.
  destruct (span_elem (c :: p)) as [e r] eqn:Es. cbn [fst snd] in *. exists e.
  rewrite <- Hs, E1, elements_skip. split; [done|]. split; [done|].
  pose proof (skip_slashes_length r). split; [cbn in *; lia|]. rewrite <- (elements_skip r).
  destruct (skip_slashes_head r) as [->|(c' & p' & -> & Hc')]; [done|].
  split; [|done]. split; [done|]. destruct (elements_span (c' :: p') c' p' eq_refl Hc') as [-> _]. done.
Qed.

(** The walk of namex along the elements. *)
Fixpoint walk (ip : nat) (elems : list (list Z)) (name : list Z) (parent : bool) : K S (option (nat * list Z)) :=
  match elems with
  | [] => if parent then iput ip ;; kret None else kret (Some (ip, name))
  | e :: es =>
      ilock ip ;;
      let! type := iget_field ip i_type in
      if negb (type =? T_DIR) then iunlockput ip ;; kret None else
      if parent && bool_decide (es = []) then iunlock ip ;; kret (Some (ip, store_name e name))
      else
        let! next := dirlookup dr ip (store_name e name) in
        match next with
        | None => iunlockput ip ;; kret None
        | Some (next, _) => iunlockput ip ;; walk next es (store_name e name) parent
        end
  end.

Lemma kbind_ext {A C} (c : K S A) (k k' : A -> K S C) s : (forall a s', k a s' = k' a s') -> kbind c k s = kbind c k' s.
Proof. intros Hk. unfold kbind. destruct (c s); [apply Hk|done..]. Qed.

Lemma namex_loop_walk fuel : forall ip path name parent s,
  (length (elements path) <= fuel)%nat -> namex_loop dr fuel ip path name parent s = walk ip (elements path) name parent s.
Proof.
  induction fuel as [|fuel IH]; intros ip path name parent s Hf; cbn [namex_loop];
    pose proof (skipelem_elements path name) as Hs; destruct (skipelem path name) as [[path' name']|].
  - destruct Hs as (e & E & _). rewrite E in Hf. cbn in Hf. lia.
  - by rewrite Hs.
  - destruct Hs as (e & E & -> & _ & Hnil & _). rewrite E. cbn [walk]. apply kbind_ext. intros _ s1. apply kbind_ext. intros ty s2.
    destruct (negb (ty =? T_DIR)); [done|].
    replace (bool_decide (path' = [])) with (bool_decide (elements path' = [])) by (by apply bool_decide_ext).
    destruct (parent && bool_decide (elements path' = [])); [done|]. apply kbind_ext. intros [[next off]|] s3; [|done].
    apply kbind_ext. intros _ s4. apply IH. rewrite E in Hf. cbn in Hf. lia.
  - by rewrite Hs.
Qed.

Lemma elements_length path : (length (elements path) <= length path)%nat.
Proof.
  induction path as [|c p IH]; [done|]. cbn. destruct (c =? slash); [lia|]. destruct p as [|d p]; [cbn; lia|].
  destruct (d =? slash); [cbn in *; lia|]. destruct (elements (d :: p)); cbn in *; lia.
Qed.
End path.

(** C38: namex is the walk along the elements of the path from the root, for a path that
    starts with a slash, or from the current directory: the number of turns of its loop
    is the number of elements, so the bound on the loop is never reached; repeated and
    trailing slashes have no effect, and an element longer than DIRSIZ bytes is looked
    up by its first DIRSIZ bytes. *)
Theorem namex_walks_elements `{FsH} {B : Type} `{BlockLayer B}
    (dr : Z -> option (nat -> Z -> K (fsstate B) (Z * list Z))) (path name : list Z) (parent : bool) (s : fsstate B) :
  namex dr path parent name s =
    (let! ip := (if nth 0 path 0 =? slash then iget ROOTDEV ROOTINO else let! cwd := kget fs_cwd in idup cwd) in
     walk dr ip (elements path) name parent) s.
Proof.
  unfold namex. apply kbind_ext. intros ip s'. apply namex_loop_walk. apply elements_length.
Qed.
