(* ===== verification/FsLog.v ===== *)
(** * The log as the block layer of fs.c

    bread, log_write and brelse of bio.c and log.c keep what [BlockLaws] promises:
    the theorems on fs.c hold of the file system over the real log. *)

From S2P Require Import Prelude Layout Sleeplock Bio Bcache Fsdefs Log LogSafe LogOps Fs FsBlocks.

#[export] Instance log_layer : BlockLayer logstate := {
  bl_bread dev blockno := bio (Bio.bread (u32 dev) (u32 blockno));
  bl_data s b := b_data (buf_at (lg_bio s) b);
  bl_log b d := (bio (bset_data b d) ;; log_write b);
  bl_brelse b := bio (Bio.brelse b)
}.

Section laws.
(** The place of the log on a disk of [size] blocks. *)
Context (start lsz size : Z).

Record in_trans (s : logstate) (H T : gset Z) : Prop := {
  it_ok : log_ok lsz s H;
  it_logged : homes s (lh_n s) = T;
  it_start : lg_start s = start;
  it_size : lg_size s = lsz;
  it_room : MAXOPBLOCKS + 2 <= lsz;
  it_disk : disksize (lg_bio s) = size;
  it_out : lg_outstanding s = 1 /\ lg_committing s = 0;
  it_head : hd_n (disk (lg_bio s) start) = 0 /\ (4 + 4 * Z.to_nat LOGSIZE <= length (disk (lg_bio s) start))%nat;
  it_few : (base.size T <= max_logged)%nat;
  it_clean : forall x, x ∈ H -> x ∈ T \/ Bio.view (lg_bio s) x = disk (lg_bio s) x
}.

Lemma in_trans_bread s H T x :
  in_trans s H T -> x ∉ H -> 0 <= x < size -> (base.size H < max_held)%nat ->
  exists b s', bl_bread ROOTDEV x s = Ret b s' /\ in_trans s' ({[x]} ∪ H) T /\ cached (lg_bio s') x b /\
    (forall y, Bio.view (lg_bio s') y = Bio.view (lg_bio s) y) /\
    (forall y c, y ∈ H -> cached (lg_bio s) y c -> cached (lg_bio s') y c).
Proof.
  intros [Ok ET Es Ez Er Ed Eo Eh Ef Ec] Hx Hr Hsz. pose proof (lo_sz _ _ _ Ok) as Hd. rewrite Ed in Hd.
  destruct (bread_client (lg_bio s) H T x) as (b & b' & E & A & C & V & W & (S1 & S2 & _) & K);
    [rewrite <- ET; apply Ok|done|lia| |].
  { left. pose proof (size_union_alt H T) as Hu.
    assert (Hs0 : (base.size (T ∖ H) <= base.size T)%nat) by (apply subseteq_size; set_solver).
    unfold max_held, max_logged, nbuf in *. change (Z.to_nat (NBUF - MAXOPBLOCKS)) with 20%nat in *.
    change (Z.to_nat NBUF) with 30%nat. change (Z.to_nat MAXOPBLOCKS) with 10%nat in *. lia. }
  exists b, (set_bio b' s). split_and!; [| |done|done|].
  - cbn [bl_bread log_layer]. unfold bio, kzoom. rewrite (u32_small x) by lia. change (u32 ROOTDEV) with 1. by rewrite E.
  - constructor; try done; cbn [lg_bio set_bio].
    + eapply log_ok_bio; [done|done|]. by rewrite ET.
    + by rewrite S2.
    + by rewrite S1.
    + intros y Hy. rewrite W, S1. destruct (decide (y ∈ H)); [by apply Ec|]. destruct (decide (y ∈ T)); [by left|right].
      apply (view_clean _ H T); [rewrite <- ET; apply Ok|done|done].
  - intros y c Hy Hc. by apply K.
Qed.

Lemma in_trans_data s H T x b :
  in_trans s H T -> x ∈ H -> cached (lg_bio s) x b -> bl_data s b = Bio.view (lg_bio s) x.
Proof.
  intros [Ok _ _ _ _ _ _ _ _ _] Hx Hc. destruct (ca_ok _ _ _ (lo_abs _ _ _ Ok)) as [l Hl].
  cbn. by rewrite (view_cached _ l x b Hl Hc).
Qed.

Lemma in_trans_log s H T x b d :
  in_trans s H T -> x ∈ H -> cached (lg_bio s) x b -> 0 <= x < size -> outside start lsz x ->
  (base.size ({[x]} ∪ T : gset Z) <= max_logged)%nat ->
  exists s', bl_log b d s = Ret tt s' /\ in_trans s' H ({[x]} ∪ T) /\
    (forall y, Bio.view (lg_bio s') y = if decide (y = x) then d else Bio.view (lg_bio s) y) /\
    (forall y c, y ∈ H -> cached (lg_bio s) y c -> cached (lg_bio s') y c).
Proof.
  intros [Ok ET Es Ez Er Ed Eo Eh Ef Ec] Hx Hc Hr Ho Hl. pose proof (lo_abs _ _ _ Ok) as A.
  destruct (bset_data_client (lg_bio s) H (homes s (lh_n s)) x b d) as (b1 & E1 & A1 & C1 & V1 & S1 & K1); try done.
  set (s1 := set_bio b1 s). pose proof S1 as (S1a & S1b & _).
  assert (Ok1 : log_ok lsz s1 H) by (by eapply log_ok_bio).
  assert (Hcard := homes_card _ _ _ Ok). rewrite ET in Hcard. pose proof (lo_n _ _ _ Ok) as Hn.
  assert (Hmax : max_logged = 10%nat) by done. rewrite Hmax in *.
  change MAXOPBLOCKS with 10 in *. 
  assert (Hx1 : 0 <= x < disksize (lg_bio s1)) by (cbn; rewrite S1b; lia).
  assert (Hn1 : lh_n s1 < LOGSIZE) by (change LOGSIZE with 30; cbn; lia).
  destruct (log_write_eq lsz s1 H x b) as (b2 & E2 & A2 & S2 & C2 & V2 & K2); try done; try (cbn; lia).
  { cbn. by rewrite Es. }
  assert (Hlh : homes (logged s1 x) (lh_n (logged s1 x)) = {[x]} ∪ homes s1 (lh_n s1)).
  { eapply logged_homes; try done. cbn. by rewrite Es. }
  assert (Hlok : log_ok lsz (set_bio b2 (logged s1 x)) H).
  { eapply logged_ok; try done; [cbn; by rewrite Es|cbn; lia|]. apply S2. }
  change (homes s1 (lh_n s1)) with (homes s (lh_n s)) in *. rewrite ET in *.
  destruct S2 as (S2a & S2b & _).
  exists (set_bio b2 (logged s1 x)). split_and!.
  - cbn [bl_log log_layer]. rewrite <- (set_bio_id s) at 1. rewrite (bio_bind _ _ _ _ tt b1) by done. exact E2.
  - assert (Hf : lg_start (logged s1 x) = start /\ lg_size (logged s1 x) = lsz /\ lg_outstanding (logged s1 x) = 1 /\ lg_committing (logged s1 x) = 0)
      by (unfold logged; by case_decide).
    destruct Hf as (F1 & F2 & F3). constructor; cbn [lg_bio set_bio lg_start lg_size lg_outstanding]; try done.
    + rewrite S2b. cbn. by rewrite S1b.
    + rewrite S2a. cbn. by rewrite S1a.
    + intros y Hy. destruct (decide (y = x)) as [->|Hne]; [left; set_solver|].
      rewrite V2, S2a. cbn [lg_bio set_bio s1]. rewrite V1, S1a. rewrite decide_False by done.
      destruct (Ec y Hy); [left; set_solver|by right].
  - intros y. cbn [lg_bio set_bio]. rewrite V2. apply V1.
  - intros y c Hy Hy'. apply K2; [done|]. by apply K1.
Qed.
Lemma in_trans_brelse s H T x b :
  in_trans s H T -> x ∈ H -> cached (lg_bio s) x b ->
  exists s', bl_brelse b s = Ret tt s' /\ in_trans s' (H ∖ {[x]}) T /\
    (forall y, Bio.view (lg_bio s') y = Bio.view (lg_bio s) y) /\
    (forall y c, y ∈ H -> y <> x -> cached (lg_bio s) y c -> cached (lg_bio s') y c).
Proof.
  intros [Ok ET Es Ez Er Ed Eo Eh Ef Ec] Hx Hc.
  destruct (brelse_client (lg_bio s) H T x b) as (b' & E & A & V & (S1 & S2 & _) & K);
    [rewrite <- ET; apply Ok|done|done|by apply Ec|].
  exists (set_bio b' s). split_and!; [| |done|].
  - cbn [bl_brelse log_layer]. unfold bio, kzoom. by rewrite E.
  - constructor; try done; cbn [lg_bio set_bio].
    + eapply log_ok_bio; [done|done|]. by rewrite ET.
    + by rewrite S2.
    + by rewrite S1.
    + intros y Hy. rewrite V, S1. apply Ec. set_solver.
  - intros y c Hy _ Hc'. by apply K.
Qed.

#[export] Instance log_laws : BlockLaws logstate := {
  bl_ok := in_trans;
  bl_view s := Bio.view (lg_bio s);
  bl_holds s := cached (lg_bio s);
  bl_block x := 0 <= x < size;
  bl_home x := outside start lsz x;
  bl_bread_law := in_trans_bread;
  bl_data_law := in_trans_data;
  bl_log_law := in_trans_log;
  bl_brelse_law := in_trans_brelse
}.
End laws.

(** After begin_op on an idle log a transaction has begun. *)
Lemma begin_op_in_trans lsz s :
  log_idle lsz s -> MAXOPBLOCKS + 2 <= lsz ->
  exists s', begin_op s = Ret tt s' /\ in_trans (lg_start s) lsz (disksize (lg_bio s)) s' ∅ ∅ /\
    lg_bio s' = lg_bio s.
Proof.
  intros Hid Hlsz. exists (set_outstanding 1 s). split; [by apply (begin_op_idle lsz)|]. split; [|done].
  destruct Hid as [[] Hn Hou Hco Hsz Hhd Hle]. constructor; try done.
  - cbn [lh_n set_outstanding]. by rewrite Hn.

  - rewrite size_empty. apply Nat.le_0_l.
Qed.

#[export] Instance log_tx : TxLayer logstate := { tx_begin := begin_op; tx_end := end_op }.

Section tx.
Context (start lsz size : Z).

(** No transaction is running. *)
Definition log_rest (s : logstate) : Prop :=
  log_idle lsz s /\ MAXOPBLOCKS + 2 <= lsz /\ lg_start s = start /\ disksize (lg_bio s) = size.

Lemma log_begin s : log_rest s -> exists s', tx_begin s = Ret tt s' /\ in_trans start lsz size s' ∅ ∅ /\
  forall y, Bio.view (lg_bio s') y = Bio.view (lg_bio s) y.
Proof.
  intros (Hid & Hl & Hst & Hsz). destruct (begin_op_in_trans lsz s Hid Hl) as (s' & E & Ht & Hb). rewrite Hst, Hsz in Ht.
  exists s'. split; [done|]. split; [done|]. intros y. by rewrite Hb.
Qed.

Lemma log_end s T : in_trans start lsz size s ∅ T -> exists s', tx_end s = Ret tt s' /\ log_rest s' /\
  (forall y, outside start lsz y -> Bio.view (lg_bio s') y = Bio.view (lg_bio s) y) /\
  (forall n, (forall y, length (Bio.view (lg_bio s) y) = n) -> forall y, length (Bio.view (lg_bio s') y) = n).
Proof.
  intros [Ok ET Es Ez Er Ed [Eo Ec] [Eh El] Ef _]. pose proof (homes_card _ _ _ Ok) as Hc. rewrite ET in Hc.
  pose proof (lo_n _ _ _ Ok). unfold max_logged in Ef. change (Z.to_nat MAXOPBLOCKS) with 10%nat in Ef. rewrite <- Es in Eh, El.
  destruct (end_op_last lsz s) as (s' & E & Hid & Hst & Hsz & Hv & Hn); try done; [change NBUF with 30; lia|].
  exists s'. split; [done|]. split; [split_and!; congruence|]. split; [|done]. intros y Hy. apply Hv. by rewrite Es.
Qed.

#[export] Instance log_tx_laws : TxLaws logstate (LL := log_laws start lsz size) := {
  tx_idle := log_rest; tx_begin_law := log_begin; tx_end_law := log_end
}.
End tx.
