(* ===== verification/FsGeom.v ===== *)
(** * A layout that satisfies the laws of fs.h

    Blocks of 512 bytes, 64-byte inodes with 12 direct blocks, 16-byte directory
    entries, all fields little-endian.  The theorems on the file system hold for
    every layout with the laws of Fsdefs.v; this one shows that there is one, and
    the concrete examples use it. *)

From S2P Require Import Prelude Layout Fsdefs Fs.

Definition le16 (x : Z) : list Z := [u8 x; u8 (x / 256)].
Definition of_le16 (l : list Z) (o : nat) : Z := nth o l 0 + 256 * nth (o + 1) l 0.
Definition to_short (x : Z) : Z := if x <? 32768 then x else x - 65536.

Definition dinode_bytes (d : dinode) : list Z :=
  le16 (di_type d) ++ le16 (di_major d) ++ le16 (di_minor d) ++ le16 (di_nlink d) ++
  le32 (di_size d) ++ concat (le32 <$> di_addrs d).
Definition bytes_dinode (l : list Z) : dinode :=
  Dinode (to_short (of_le16 l 0)) (to_short (of_le16 l 2)) (to_short (of_le16 l 4)) (to_short (of_le16 l 6))
    (ld32 l 8) ((fun i => ld32 l (12 + 4 * i)) <$> seq 0 13).

#[export] Instance geom : FsH := {
  BSIZE := 512;
  NDIRECT := 12;
  NINDIRECT := 128;
  MAXFILE := 140;
  BPB := 4096;
  IPB := 8;
  DIRSIZ := 14;
  ROOTINO := 1;
  IBLOCK i sb := i / 8 + sb_inodestart sb;
  BBLOCK b sb := b / 4096 + sb_bmapstart sb;
  sb_of_bytes l := Superblock (ld32 l 0) (ld32 l 4) (ld32 l 8) (ld32 l 12) (ld32 l 16) (ld32 l 20) (ld32 l 24);
  dinode_at l i := bytes_dinode (take 64 (drop (64 * Z.to_nat i) l));
  put_dinode i d l :=
    if decide (length (dinode_bytes d) = 64%nat /\ (64 * Z.to_nat i + 64 <= length l)%nat)
    then splice (64 * Z.to_nat i) (dinode_bytes d) l else l;
  sizeof_dirent := 16;
  dirent_of l := Dirent (of_le16 l 0) (take 14 (drop 2 l));
  bytes_of_dirent d := le16 (de_inum d) ++ take 14 (de_name d ++ replicate 14 0)
}.

Lemma to_short_le16 x : is_short x -> to_short (u8 x + 256 * u8 (x / 256)) = x.
Proof. unfold is_short, to_short. intros H. destruct (Z.ltb_spec (u8 x + 256 * u8 (x / 256)) 32768); dlia. Qed.

Lemma le32_uint x : is_uint x -> u8 x + 256 * u8 (x / 256) + 65536 * u8 (x / 65536) + 16777216 * u8 (x / 16777216) = x.
Proof. unfold is_uint. intros H. dlia. Qed.

Lemma dinode_bytes_length d : dinode_wf d -> length (dinode_bytes d) = 64%nat.
Proof.
  intros (_ & _ & _ & _ & _ & Hl & _). change (Z.to_nat (NDIRECT + 1)) with 13%nat in Hl. destruct d as [? ? ? ? ? l].
  simpl in Hl. do 13 (destruct l as [|? l]; [done|]). by destruct l.
Qed.

Lemma bytes_dinode_bytes d : dinode_wf d -> bytes_dinode (dinode_bytes d) = d.
Proof.
  destruct d as [ty ma mi nl sz l]. intros (H1 & H2 & H3 & H4 & H5 & Hl & Hu). simpl in *.
  do 13 (destruct l as [|? l]; [done|]). destruct l; [|done]. clear Hl.
  repeat (apply Forall_cons in Hu as [? Hu]). unfold bytes_dinode, dinode_bytes, of_le16, ld32. simpl.
  rewrite !to_short_le16, !le32_uint by done. done.
Qed.

(** Chunks of a list. *)
Lemma splice_chunk (o o' n : nat) (c l : list Z) :
  length c = n -> (o + n <= length l)%nat -> (o' + n <= o \/ o + n <= o' \/ o' = o)%nat ->
  take n (drop o' (splice o c l)) = if decide (o' = o) then c else take n (drop o' l).
Proof.
  intros Hc Ho Hd. unfold splice. rewrite Hc. case_decide as E.
  - subst o'. rewrite drop_app_length' by (rewrite length_take; lia). by rewrite take_app_length'.
  - destruct (decide (o' < o)%nat).
    + rewrite drop_app_le, take_app_le by (rewrite ?length_drop, length_take; lia).
      rewrite !take_drop_commute, take_take. do 2 f_equal. lia.
    + rewrite drop_app_ge by (rewrite length_take; lia). rewrite drop_app_ge by (rewrite length_take; lia).
      rewrite drop_drop. do 2 f_equal. rewrite length_take. lia.
Qed.

Lemma splice_length o c l : (o + length c <= length l)%nat -> length (splice o c l) = length l.
Proof. intros H. unfold splice. rewrite !length_app, length_take, length_drop. lia. Qed.

#[export] Instance geom_laws : FsLaws.
Proof.
  constructor; cbn [BSIZE NDIRECT NINDIRECT MAXFILE BPB IPB DIRSIZ IBLOCK BBLOCK dinode_at put_dinode sizeof_dirent
    dirent_of bytes_of_dirent geom]; try done.
  - intros i j d data Hi Hj Hl Hd. change (Z.to_nat 512) with 512%nat in Hl.
    pose proof (dinode_bytes_length d Hd) as Hdl.
    assert (Hi2 : (64 * Z.to_nat i + 64 <= length data)%nat) by (rewrite Hl; lia).
    assert (Hj2 : (Z.to_nat j < 8)%nat) by lia. rewrite decide_True by done.
    rewrite (splice_chunk _ _ 64) by (done || lia). case_decide as E.
    + rewrite decide_True by lia. by apply bytes_dinode_bytes.
    + rewrite decide_False by lia. done.
  - intros i d data. case_decide as E; [|done]. apply splice_length. lia.
  - intros d. rewrite length_app, length_take, length_app, length_replicate. change (length (le16 (de_inum d))) with 2%nat. lia.
  - intros [inum nm] H1 H2. cbn [de_inum de_name] in *. change (Z.to_nat 14) with 14%nat in H2. f_equal.
    + unfold of_le16. cbn. dlia.
    + change (drop 2 (le16 inum ++ take 14 (nm ++ replicate 14 0))) with (take 14 (nm ++ replicate 14 0)).
      rewrite take_take. by rewrite take_app_length'.
Qed.

(** ** A small disk

    The concrete disk on which the examples of the file-system files run: 1000 blocks,
    the log from block 2 on, inodes from block 32 on, the bitmap in block 58; the first
    59 blocks and nothing else in use. *)

From S2P Require Import Sleeplock Bio Bcache Log LogSafe LogOps.
From S2P Require Import FsBlocks FsAlloc FsLog.

(** The disk inodes: 1 is an empty directory, 2 an empty file. *)
Definition ex_addrs : list Z := replicate 13 0.
Definition ex_dir : dinode := Dinode T_DIR 0 0 1 0 ex_addrs.
Definition ex_file : dinode := Dinode T_FILE 0 0 1 0 ex_addrs.
Definition ex_iblock : list Z := put_dinode 2 ex_file (put_dinode 1 ex_dir (replicate 512 0)).

Definition ex_sb : superblock := Superblock 1000 941 200 30 2 32 58.
Definition ex_bitmap : list Z := replicate 7 255 ++ [7] ++ replicate 504 0.
Definition ex_sb_block : list Z :=
  le32 1000 ++ le32 941 ++ le32 200 ++ le32 30 ++ le32 2 ++ le32 32 ++ le32 58 ++ replicate 484 0.
Definition ex_disk (x : Z) : list Z :=
  if x =? 1 then ex_sb_block else if x =? 58 then ex_bitmap
  else if x =? 32 then ex_iblock else replicate 512 0.

Lemma ex_bitmap_bits : forallb (fun b => Bool.eqb (bit_set ex_bitmap b) (b <? 59)) (seqZ 0 1000) = true.
Proof. vm_compute. reflexivity. Qed.

Lemma ex_bitmap_bit b : 0 <= b < 1000 -> bit_set ex_bitmap b = (b <? 59).
Proof.
  intros Hb. pose proof ex_bitmap_bits as H. rewrite forallb_forall in H. specialize (H b).
  apply eqb_prop, H. rewrite <- list_elem_of_In. apply elem_of_seqZ. lia.
Qed.

Lemma ex_disk_cases (P : list Z -> Prop) : P ex_sb_block -> P ex_bitmap -> P ex_iblock -> P (replicate 512 0) -> forall x, P (ex_disk x).
Proof.
  intros H1 H2 H3 H4 x. unfold ex_disk. destruct (x =? 1); [done|]. destruct (x =? 58); [done|]. by destruct (x =? 32).
Qed.

(** Both inodes are in the cache, locked by process 1; the other entries are free. *)
Definition ex_lock : sleeplock := SleepLock 1 false "inode" 1.
Definition ex_inodes : list inode :=
  Inode ROOTDEV 1 1 ex_lock 1 T_DIR 0 0 1 0 ex_addrs :: Inode ROOTDEV 2 1 ex_lock 1 T_FILE 0 0 1 0 ex_addrs ::
  replicate 48 null_inode.
Definition ex_fs (l : logstate) : fsstate logstate := FsState false ex_inodes ex_sb l 1 0%nat [].

#[export] Instance ex_laws : BlockLaws logstate := log_laws 2 30 1000.

#[export] Instance ex_tx_laws : TxLaws logstate := log_tx_laws 2 30 1000.

(** The log of a booted disk, when its log header is empty. *)
Lemma boot_rest (d : Z -> list Z) : hd_n (d 2) = 0 -> (4 + 4 * Z.to_nat LOGSIZE <= length (d 2%Z))%nat ->
  exists l, tx_idle l /\ forall y, bl_view l y = d y.
Proof.
  intros Hh Hlen. destruct (binit_abs d 1000 1) as (b & E & A & D & Hz & _). clear E.
  assert (Hok : log_ok 30 (boot_log b) ∅) by (constructor; simpl; rewrite ?Hz; (exact A || done || lia)).
  assert (Hid : log_idle 30 (boot_log b)).
  { constructor; cbn [lh_n lg_outstanding lg_committing lg_size lg_bio lg_start boot_log]; rewrite ?D; [exact Hok|done..]. }
  exists (boot_log b). split; [split; [exact Hid|]; split; [done|]; split; [done|]; exact Hz|].
  intros y. cbn. rewrite (view_clean b ∅ ∅) by (first [exact A | set_solver]). by rewrite D.
Qed.

(** A transaction that has just begun on it. *)
Lemma boot_begun (d : Z -> list Z) : hd_n (d 2) = 0 -> (4 + 4 * Z.to_nat LOGSIZE <= length (d 2%Z))%nat ->
  exists l, bl_ok l ∅ ∅ /\ forall y, bl_view l y = d y.
Proof.
  intros H1 H2. destruct (boot_rest d H1 H2) as (l & Hid & Hv). destruct (tx_begin_law l Hid) as (l' & _ & Hok & Hv').
  exists l'. split; [exact Hok|]. intros y. by rewrite Hv'.
Qed.

Lemma ex_log_rest : exists l, tx_idle l /\ forall y, FsBlocks.view (ex_fs l) y = ex_disk y.
Proof. apply (boot_rest ex_disk); [reflexivity|by apply Nat.leb_le]. Qed.

(** The state of a transaction that has just begun on this disk. *)
Lemma ex_fs_ok : exists l, bl_ok l ∅ ∅ /\ forall y, FsBlocks.view (ex_fs l) y = ex_disk y.
Proof. apply (boot_begun ex_disk); [reflexivity|by apply Nat.leb_le]. Qed.

Lemma ex_in_use l b : (forall y, FsBlocks.view (ex_fs l) y = ex_disk y) -> 0 <= b < 1000 -> in_use (ex_fs l) b = (b <? 59).
Proof.
  intros Hv Hb. unfold in_use. rewrite Hv. cbn [fs_sb ex_fs BBLOCK BPB geom sb_bmapstart ex_sb].
  rewrite Z.div_small, Z.mod_small by lia. cbn [Z.add]. by apply ex_bitmap_bit.
Qed.

Lemma ex_disk_ok l : (forall y, FsBlocks.view (ex_fs l) y = ex_disk y) -> disk_ok (ex_fs l).
Proof.
  intros Hv. pose proof (ex_in_use l) as Hu.
  constructor; cbn [fs_sb ex_fs sb_size ex_sb BBLOCK geom sb_bmapstart]; try lia.
  - intros x. rewrite Hv. apply (ex_disk_cases (fun d => length d = Z.to_nat BSIZE)); vm_compute; reflexivity.
  - intros b Hb. exact Hb.
  - intros b Hb Hf. rewrite Hu in Hf by done. cbn. unfold outside. lia.
  - intros b Hb. rewrite Z.div_small by lia. cbn [Z.add]. split; [lia|]. split; [cbn; unfold outside; lia|].
    by rewrite Hu by (done || lia).
  - split_and!; [lia|by rewrite Hu by (done || lia)| |].
    + rewrite Hv. vm_compute. reflexivity.
    + intros b Hb. rewrite Z.div_small by lia. lia.
Qed.

