(* ===== verification/FsProps.v ===== *)
(** * Properties of block allocation *)

From S2P Require Import Prelude Layout Sleeplock Bio Bcache Fsdefs Log LogSafe LogOps.
From S2P Require Import Fs FsBlocks FsAlloc FsLog FsGeom.

(** On a disk with a free block, balloc returns the first block whose bitmap bit is
    clear; afterwards that block reads as zeros and its bit, and no other bit, has been
    set; every other block but that part of the bitmap keeps its contents, and the
    bitmap is still consistent.  It returns also while the caller holds buffers. *)
Theorem balloc_takes_first_free `{FsH} {FL : FsLaws} {B : Type} `{BlockLayer B} {LL : BlockLaws B}
    (s : fsstate B) (X T : gset Z) :
  bl_ok (fs_blk s) X T -> disk_ok s -> held_ok s X ->
  (forall b, 0 <= b < sb_size (fs_sb s) -> BBLOCK b (fs_sb s) ∉ X) ->
  (size X < max_held)%nat -> (size T + 2 <= max_logged)%nat ->
  (exists b, 0 <= b < sb_size (fs_sb s) /\ in_use s b = false) ->
  exists b s', balloc ROOTDEV s = Ret b s' /\
    0 <= b < sb_size (fs_sb s) /\ in_use s b = false /\ (forall b', 0 <= b' < b -> in_use s b' = true) /\
    FsBlocks.view s' b = zeros /\ disk_ok s' /\
    (forall b', 0 <= b' < sb_size (fs_sb s) -> in_use s' b' = if decide (b' = b) then true else in_use s b') /\
    (forall y, y <> b -> y <> BBLOCK b (fs_sb s) -> FsBlocks.view s' y = FsBlocks.view s y).
Proof.
  intros Hok Hd Hh HX Hs HT Hf. pose proof (balloc_spec s X T Hok Hd Hh HX Hs HT Hf) as Hwp.
  apply wp_iff in Hwp as (b & s' & E & B' & -> & Hp).
  destruct (balloc_bitmap s X T b B' Hd Hp) as [Hd' Hu]. destruct Hp as [P1 P2 P3 P4 P5 P6].
  exists b, (set_blk B' s). split; [done|]. split_and!; try done; try lia.
  - unfold FsBlocks.view. cbn. rewrite P6. unfold update. by rewrite decide_True.
  - intros y H1 H2. unfold FsBlocks.view at 1. cbn. rewrite P6. unfold update. by rewrite !decide_False.
Qed.

(** Freeing the block that balloc returned restores the bitmap byte for byte, and
    with it every block of the disk except the one that was allocated, which is zero. *)
Theorem bfree_undoes_balloc `{FsH} {FL : FsLaws} {B : Type} `{BlockLayer B} {LL : BlockLaws B}
    (s : fsstate B) (X T : gset Z) :
  bl_ok (fs_blk s) X T -> disk_ok s -> held_ok s X -> 1 ∉ X ->
  (forall b, 0 <= b < sb_size (fs_sb s) -> BBLOCK b (fs_sb s) ∉ X) ->
  (size X < max_held)%nat -> (size T + 2 <= max_logged)%nat ->
  (forall x, Forall (fun c => 0 <= c < 256) (FsBlocks.view s x)) ->
  (exists b, 0 <= b < sb_size (fs_sb s) /\ in_use s b = false) ->
  exists b s', (let! b := balloc ROOTDEV in bfree ROOTDEV b ;; kret b) s = Ret b s' /\ disk_ok s' /\
    (forall b', 0 <= b' < sb_size (fs_sb s) -> in_use s' b' = in_use s b') /\
    (forall y, FsBlocks.view s' y = if decide (y = b) then zeros else FsBlocks.view s y).
Proof.
  intros Hok Hd Hh H1 HX Hs HT Hby Hf. pose proof (balloc_spec s X T Hok Hd Hh HX Hs HT Hf) as Hwp.
  apply wp_iff in Hwp as (b & s1 & E & B1 & -> & Hp).
  destruct (balloc_bitmap s X T b B1 Hd Hp) as [Hd1 Hu1]. destruct Hp as [P1 P2 P3 P4 P5 P6].
  pose proof Hd as [D1 D2 D3 D4 D5 (D6 & D7 & D8 & D9)].
  assert (Hnm : forall b', 0 <= b' < sb_size (fs_sb s) -> BBLOCK b' (fs_sb s) <> b).
  { intros b' Hb' Eb. destruct (D5 b' Hb') as (_ & _ & Hu). congruence. }
  set (x := BBLOCK b (fs_sb s)) in *.
  assert (Hwp : wp (bfree ROOTDEV b) (set_blk B1 s) (fun _ s' => exists B', s' = set_blk B' (set_blk B1 s) /\
    bfree_post (set_blk B1 s) X ({[b]} ∪ ({[x]} ∪ T)) b B')).
  { apply bfree_spec; try done.
    - rewrite Hu1 by done. by rewrite decide_True.
    - by apply HX.
    - cbn [fs_sb set_blk]. fold x. replace ({[x]} ∪ ({[b]} ∪ ({[x]} ∪ T))) with ({[b]} ∪ ({[x]} ∪ T)) by set_solver.
      pose proof (size_add x T). pose proof (size_add b ({[x]} ∪ T)). lia. }
  apply wp_iff in Hwp as ([] & s2 & E2 & B2 & -> & Hp2).
  destruct (bfree_bitmap (set_blk B1 s) X _ b B2 Hd1 P1 Hp2) as [Hd2 Hu2];
    [by apply D4|intros ->; congruence|done|].
  exists b, (set_blk B2 (set_blk B1 s)). split_and!.
  - rewrite (kbind_ret _ _ _ _ _ E), (kbind_ret _ _ _ _ _ E2). done.
  - done.
  - intros b' Hb'. rewrite Hu2, Hu1 by done. case_decide; [by subst b'|done].
  - intros y. unfold FsBlocks.view at 1. cbn [fs_blk set_blk]. rewrite (fp_view _ _ _ _ _ Hp2).
    change (FsBlocks.view (set_blk B1 s)) with (bl_view B1). cbn [fs_sb set_blk]. fold x. unfold update at 1.
    assert (Hxb : x <> b) by (by apply Hnm). destruct (decide (y = x)) as [->|Hy].
    + rewrite decide_False by done. rewrite P6. unfold update. rewrite decide_False by done.
      rewrite decide_True by done. apply clear_mark_bit; [|done|exact P2].
      rewrite D2. pose proof (bitmap_bit b). pose proof bsize_pos. lia.
    + rewrite P6. unfold update. case_decide; [done|]. by rewrite decide_False.
Qed.

(** Freeing a block that is already free panics, whatever the caller holds, and
    changes nothing before. *)
Theorem bfree_rejects_free_block `{FsH} {FL : FsLaws} {B : Type} `{BlockLayer B} {LL : BlockLaws B}
    (s : fsstate B) (X T : gset Z) (b : Z) :
  bl_ok (fs_blk s) X T -> disk_ok s -> 0 <= b < sb_size (fs_sb s) -> in_use s b = false ->
  1 ∉ X -> BBLOCK b (fs_sb s) ∉ X -> (size X < max_held)%nat ->
  bfree ROOTDEV b s = Panic "freeing free block".
Proof.
  intros Hok Hd Hb Hu H1 HX Hs. destruct (do_map s Hd b Hb) as (Hx1 & Hx2 & _). cbv zeta in *.
  assert (Hsb : wp (readsb ROOTDEV) s (fun _ s' => exists B', s' = set_blk B' s /\ bl_ok B' X T /\
    forall y, bl_view B' y = FsBlocks.view s y)).
  { eapply wp_readsb; try done. intros B' Ok V K. by exists B'. }
  apply wp_iff in Hsb as ([] & s1 & E1 & B1 & -> & Ok1 & V1). unfold bfree. rewrite (kbind_ret _ _ _ _ _ E1). krun.
  cbn [fs_sb set_blk]. set (x := BBLOCK b (fs_sb s)) in *.
  destruct (bl_bread_law B1 X T x) as (bp & B2 & E2 & Ok2 & H2 & V2 & _); try done; [by apply (do_block s Hd)|].
  assert (E2' : bread ROOTDEV x (set_blk B1 s) = Ret bp (set_blk B2 (set_blk B1 s)))
    by (unfold bread, blk, kzoom; cbn [fs_blk set_blk]; by rewrite E2).
  rewrite (kbind_ret _ _ _ _ _ E2'). unfold bdata. krun. cbn [fs_blk set_blk].
  rewrite (bl_data_law B2 ({[x]} ∪ X) T x bp) by (first [done | set_solver]). rewrite V2, V1.
  unfold in_use in Hu. fold x in Hu. by rewrite Hu.
Qed.

Lemma balloc_takes_first_free_witness :
  exists l s', balloc ROOTDEV (ex_fs l) = Ret 59 s' /\ FsBlocks.view s' 59 = zeros /\ in_use s' 59 = true.
Proof.
  destruct ex_fs_ok as (l & Hok & Hv).
  destruct (balloc_takes_first_free (ex_fs l) ∅ ∅ Hok (ex_disk_ok l Hv)) as (b & s' & E & Hr & Hf & Hfirst & Hz & _ & Hu & _).
  - intros x Hx. set_solver.
  - intros b _. set_solver.
  - rewrite size_empty. apply Nat.ltb_lt. vm_compute. reflexivity.
  - rewrite size_empty. apply Nat.leb_le. vm_compute. reflexivity.
  - exists 59. split; [cbn; lia|]. by rewrite (ex_in_use l) by (done || lia).
  - cbn [sb_size fs_sb ex_fs ex_sb] in *. rewrite (ex_in_use l) in Hf by done. apply Z.ltb_ge in Hf.
    assert (b = 59) as ->.
    { destruct (decide (59 < b)) as [Hlt|]; [|lia]. specialize (Hfirst 59 ltac:(lia)).
      rewrite (ex_in_use l) in Hfirst by (done || lia). done. }
    exists l, s'. split; [exact E|]. split; [exact Hz|]. rewrite Hu by lia. by rewrite decide_True.
Defined.

Lemma bfree_undoes_balloc_witness :
  exists l b s', (let! b := balloc ROOTDEV in bfree ROOTDEV b ;; kret b) (ex_fs l) = Ret b s' /\
    FsBlocks.view s' 58 = (if decide (58 = b) then zeros else ex_bitmap).
Proof.
  destruct ex_fs_ok as (l & Hok & Hv).
  destruct (bfree_undoes_balloc (ex_fs l) ∅ ∅ Hok (ex_disk_ok l Hv)) as (b & s' & E & _ & _ & Hy).
  - intros x Hx. set_solver.
  - set_solver.
  - intros b _. set_solver.
  - rewrite size_empty. apply Nat.ltb_lt. vm_compute. reflexivity.
  - rewrite size_empty. apply Nat.leb_le. vm_compute. reflexivity.
  - intros x. rewrite Hv. apply (ex_disk_cases (Forall (fun c => 0 <= c < 256)));
      apply (bool_decide_unpack _); vm_compute; reflexivity.
  - exists 59. split; [cbn; lia|]. by rewrite (ex_in_use l) by (done || lia).
  - exists l, b, s'. split; [exact E|]. rewrite Hy. case_decide; [reflexivity|]. rewrite Hv. reflexivity.
Defined.

Lemma bfree_rejects_free_block_witness :
  exists l, bfree ROOTDEV 70 (ex_fs l) = Panic "freeing free block".
Proof.
  destruct ex_fs_ok as (l & Hok & Hv). exists l.
  apply (bfree_rejects_free_block (ex_fs l) ∅ ∅ 70 Hok (ex_disk_ok l Hv)).
  - cbn. lia.
  - by rewrite (ex_in_use l) by (done || lia).
  - set_solver.
  - set_solver.
  - rewrite size_empty. apply Nat.ltb_lt. vm_compute. reflexivity.
Defined.
