(* ===== verification/FsRwProps.v ===== *)
(** * Properties of readi and writei *)

From S2P Require Import Prelude Layout Sleeplock Bio Bcache Fsdefs Log LogSafe LogOps.
From S2P Require Import Fs FsBlocks FsAlloc FsFile FsRw FsLog FsGeom.

Section props.
Context `{FH : FsH} {FL : FsLaws} {B : Type} `{BL : BlockLayer B} {LL : BlockLaws B}.
Notation S := (fsstate B).

(** An inode whose cached and disk copies agree, of a file without holes that is not a device. *)
Record file_ok (ip : nat) (s : S) : Prop := {
  fo_disk : disk_ok s;
  fo_ino : ino_ok ip s;
  fo_full : full ip s;
  fo_synced : synced ip s;
  fo_wf : dinode_wf (to_dinode (ino ip s));
  fo_type : i_type (ino ip s) <> T_DEV
}.

(** Log entries and free blocks that writing [n] bytes at [off] may take. *)
Definition write_cost (ip : nat) (s : S) (T : gset Z) (off n : Z) : nat :=
  (c_ind ip s T + 2 * nblk off n + absent ip s (off / BSIZE))%nat.
Definition write_need (ip : nat) (s : S) (off n : Z) : nat :=
  (f_ind ip s + nblk off n + absent ip s (off / BSIZE))%nat.

Lemma writei_file_ok dw ip s T src off :
  bl_ok (fs_blk s) ∅ T -> file_ok ip s -> 0 <= off <= i_size (ino ip s) -> src <> [] ->
  off + Z.of_nat (length src) <= MAXFILE * BSIZE ->
  (size T + write_cost ip s T off (Z.of_nat (length src)) <= max_logged)%nat ->
  (write_need ip s off (Z.of_nat (length src)) <= nfree s + 1)%nat ->
  exists s' T', writei dw ip src off (Z.of_nat (length src)) s = Ret (Z.of_nat (length src)) s' /\
    writei_post ip s off src s' T' /\ file_ok ip s'.
Proof.
  unfold write_cost, write_need. intros Hok [F1 F2 F3 F4 F5 F6] Ho Hn Hmax HT Hf.
  assert (Hwp : wp (writei dw ip src off (Z.of_nat (length src))) s (fun r s' => r = Z.of_nat (length src) /\
    exists T', writei_post ip s off src s' T')) by (apply (writei_spec ip dw s T); done || lia).
  apply wp_iff in Hwp as (r & s' & E & -> & T' & P). exists s', T'. split; [done|]. split; [done|].
  pose proof P as [W1 W2 W3 W4 W5 W6 W7 W8 W9 W10 Wfr W11 W12]. constructor; try done.
  destruct W11 as [l El]. unfold ino, inode_at in *. rewrite El, nth_alter_eq by apply F2. done.
Qed.
End props.

(** C35: writing [src] at an offset within a file without holes, with room for it in the
    log and on the disk, returns its length.  Afterwards the file holds [src] at that
    offset and its old bytes everywhere else, its size is the larger of the old size and
    the end of the write, the disk inode agrees with the cached one, there is still no
    hole, no used block became free, and no block outside the file, the bitmap and the
    block of its inode has changed. *)
Theorem writei_replaces_bytes `{FsH} {FL : FsLaws} {B : Type} `{BlockLayer B} {LL : BlockLaws B}
    dw (ip : nat) (s : fsstate B) (T : gset Z) (src : list Z) (off : Z) :
  bl_ok (fs_blk s) ∅ T -> file_ok ip s -> 0 <= off <= i_size (ino ip s) -> src <> [] ->
  off + Z.of_nat (length src) <= MAXFILE * BSIZE ->
  (size T + write_cost ip s T off (Z.of_nat (length src)) <= max_logged)%nat ->
  (write_need ip s off (Z.of_nat (length src)) <= nfree s + 1)%nat ->
  exists s', writei dw ip src off (Z.of_nat (length src)) s = Ret (Z.of_nat (length src)) s' /\ file_ok ip s' /\
    i_size (ino ip s') = Z.max (i_size (ino ip s)) (off + Z.of_nat (length src)) /\
    (forall o, 0 <= o < MAXFILE * BSIZE -> fbyte ip s' o =
       if decide (off <= o < off + Z.of_nat (length src)) then nth (Z.to_nat (o - off)) src 0 else fbyte ip s o) /\
    (forall y, 0 <= y < sb_size (fs_sb s) -> in_use s y = true -> in_use s' y = true) /\
    (forall y, 0 <= y < sb_size (fs_sb s) -> in_use s y = true -> ~ in_map s y -> y <> ind ip s -> y <> iblk ip s ->
       (forall k, 0 <= k < MAXFILE -> blockno ip s k <> y) -> FsBlocks.view s' y = FsBlocks.view s y).
Proof.
  intros Hok Hf Ho Hn Hmax HT Hfr.
  destruct (writei_file_ok dw ip s T src off Hok Hf Ho Hn Hmax HT Hfr) as (s' & T' & E & P & Hf').
  exists s'. destruct P. split_and!; done.
Qed.

(** What writei has written, readi returns: reading the written range back gives the
    very bytes, whatever the file held before. *)
Theorem read_after_write `{FsH} {FL : FsLaws} {B : Type} `{BlockLayer B} {LL : BlockLaws B}
    dr dw (ip : nat) (s : fsstate B) (T : gset Z) (src : list Z) (off : Z) :
  bl_ok (fs_blk s) ∅ T -> file_ok ip s -> 0 <= off <= i_size (ino ip s) -> src <> [] ->
  off + Z.of_nat (length src) <= MAXFILE * BSIZE ->
  (size T + write_cost ip s T off (Z.of_nat (length src)) <= max_logged)%nat ->
  (write_need ip s off (Z.of_nat (length src)) <= nfree s + 1)%nat ->
  exists s', (writei dw ip src off (Z.of_nat (length src)) ;; readi dr ip off (Z.of_nat (length src))) s =
    Ret (Z.of_nat (length src), src) s'.
Proof.
  intros Hok Hf Ho Hn Hmax HT Hfr. pose proof bsize_pos. pose proof maxfile_small.
  destruct (writei_file_ok dw ip s T src off Hok Hf Ho Hn Hmax HT Hfr) as (s1 & T1 & E & P & Hf1).
  rewrite (kbind_ret _ _ _ _ _ E). set (n := Z.of_nat (length src)) in *. destruct Hf1 as [F1 F2 F3 F4 F5 F6].
  pose proof (readi_spec ip dr s1 T1 off n (wi_ok _ _ _ _ _ _ P) F1 F2 F3 F6) as Hr.
  apply wp_iff in Hr as (r & s2 & E2 & B' & -> & _ & _ & Hr); [|lia|lia].
  rewrite (wi_size _ _ _ _ _ _ P) in Hr. fold n in Hr.
  rewrite (proj2 (Z.ltb_ge _ off)), (proj2 (Z.leb_gt 4294967296 _)) in Hr by lia. cbn [orb] in Hr.
  replace (Z.min n _) with n in Hr by lia. eexists. rewrite E2, Hr. do 2 f_equal.
  apply list_eq. intros i. rewrite list_lookup_fmap. destruct (decide (i < length src)%nat) as [Hi|Hi].
  - rewrite lookup_seqZ_lt by lia. cbn. rewrite (wi_bytes _ _ _ _ _ _ P) by (unfold n in *; lia).
    rewrite decide_True by lia. rewrite (nth_lookup_lt src i 0) by done. do 2 f_equal. lia.
  - rewrite lookup_seqZ_ge by lia. rewrite lookup_ge_None_2 by lia. done.
Qed.

(** Readi on a file without holes returns exactly the bytes of the file from the
    offset on, as many as were asked for or as there are before the end; an offset
    beyond the end, or one that overflows with the count, is an error.  Nothing that is
    stored changes. *)
Theorem readi_returns_bytes `{FsH} {FL : FsLaws} {B : Type} `{BlockLayer B} {LL : BlockLaws B}
    dr (ip : nat) (s : fsstate B) (T : gset Z) (off n : Z) :
  bl_ok (fs_blk s) ∅ T -> file_ok ip s -> 0 <= off < 4294967296 -> 0 <= n < 4294967296 ->
  exists s', readi dr ip off n s = Ret
      (if (i_size (ino ip s) <? off) || (4294967296 <=? off + n) then (-1, [])
       else (Z.min n (i_size (ino ip s) - off), fbyte ip s <$> seqZ off (Z.min n (i_size (ino ip s) - off)))) s' /\
    inodes s' = inodes s /\ forall y, FsBlocks.view s' y = FsBlocks.view s y.
Proof.
  intros Hok [F1 F2 F3 F4 F5 F6] Ho Hn.
  pose proof (readi_spec ip dr s T off n Hok F1 F2 F3 F6 Ho Hn) as Hr.
  apply wp_iff in Hr as (r & s2 & E2 & B' & -> & _ & Hv & Hr). exists (set_blk B' s). rewrite E2.
  split; [by destruct (_ || _); subst r|]. by split.
Qed.

(** ** The file of the example disk *)

Lemma ex_nfree l : (forall y, FsBlocks.view (ex_fs l) y = ex_disk y) -> nfree (ex_fs l) = 941%nat.
Proof.
  intros Hv. unfold nfree. rewrite (filter_ext_in _ (fun b => (b <? 59) = false)); [vm_compute; reflexivity|].
  intros b Hb%elem_of_seqZ. cbn [fs_sb ex_fs ex_sb sb_size] in Hb. by rewrite (ex_in_use l _ Hv) by lia.
Qed.

(** The empty inodes of the example: the blocks and the consistency of both. *)
Section ex.
Context (l : logstate) (ip : nat).
Hypothesis Hv : forall y, FsBlocks.view (ex_fs l) y = ex_disk y.
Hypothesis Hip : (ip < 2)%nat.

Lemma ex_ind : ind ip (ex_fs l) = 0.
Proof. destruct ip as [|[|]]; [done|done|lia]. Qed.

Lemma ex_blockno k : blockno ip (ex_fs l) k = 0.
Proof.
  unfold blockno. rewrite ex_ind. destruct (k <? NDIRECT); [|done].
  replace (i_addrs (ino ip (ex_fs l))) with (replicate 13 0); [apply nth_replicate_same|].
  destruct ip as [|[|]]; [done|done|lia].
Qed.

Lemma ex_ino_ok : ino_ok ip (ex_fs l).
Proof.
  assert (Hib : iblk ip (ex_fs l) = 32) by (destruct ip as [|[|]]; [done|done|lia]).
  constructor; rewrite ?Hib.
  - cbn. lia.
  - destruct ip as [|[|]]; [done|done|lia].
  - destruct ip as [|[|]]; [done|done|lia].
  - intros k _ Hn. by rewrite ex_blockno in Hn.
  - intros Hn. by rewrite ex_ind in Hn.
  - intros j k _ _ Hn. by rewrite ex_blockno in Hn.
  - by rewrite (ex_in_use l _ Hv) by lia.
  - split; [cbn; lia|]. split; [by rewrite (ex_in_use l _ Hv) by lia|]. split; [cbn; unfold outside; lia|].
    split; [lia|]. intros (b & Hb & E). revert E. cbn [BBLOCK geom fs_sb ex_fs ex_sb sb_bmapstart].
    cbn [fs_sb ex_fs ex_sb sb_size] in Hb. rewrite Z.div_small by lia. lia.
Qed.

Lemma ex_file_ok : file_ok ip (ex_fs l).
Proof.
  constructor.
  - by apply ex_disk_ok.
  - apply ex_ino_ok.
  - split; [destruct ip as [|[|]]; [done|done|lia]|]. intros k Hk Hk2. exfalso.
    replace (i_size (ino ip (ex_fs l))) with 0 in Hk2 by (destruct ip as [|[|]]; [done|done|lia]).
    cbn [BSIZE geom] in Hk2. lia.
  - unfold synced. rewrite Hv. destruct ip as [|[|]]; [vm_compute; reflexivity|vm_compute; reflexivity|lia].
  - destruct ip as [|[|]]; [| |lia]; unfold dinode_wf, is_short, is_uint; cbn; split_and!; try lia; try done;
      apply (bool_decide_unpack _); vm_compute; reflexivity.
  - destruct ip as [|[|]]; [done|done|lia].
Qed.

Lemma ex_write_cost off n : (write_cost ip (ex_fs l) ∅ off n = 3 + 2 * nblk off n)%nat.
Proof. unfold write_cost, c_ind, absent. rewrite ex_ind, ex_blockno. cbn [Z.eqb]. lia. Qed.
Lemma ex_write_need off n : (write_need ip (ex_fs l) off n = 2 + nblk off n)%nat.
Proof. unfold write_need, f_ind, absent. rewrite ex_ind, ex_blockno. cbn [Z.eqb]. lia. Qed.
End ex.

(** Three bytes fit in every way. *)
Lemma ex_write_room l : (forall y, FsBlocks.view (ex_fs l) y = ex_disk y) ->
  (size (∅ : gset Z) + write_cost 1 (ex_fs l) ∅ 0 3 <= max_logged)%nat /\ (write_need 1 (ex_fs l) 0 3 <= nfree (ex_fs l) + 1)%nat.
Proof.
  intros Hv. rewrite (ex_nfree l Hv), ex_write_cost, ex_write_need, size_empty by lia.
  change (nblk 0 3) with 1%nat. change max_logged with 10%nat. lia.
Qed.

Lemma writei_replaces_bytes_witness : exists l s',
  writei (fun _ => None) 1 [104; 105; 10] 0 3 (ex_fs l) = Ret 3 s' /\ i_size (ino 1 s') = 3 /\ fbyte 1 s' 1 = 105.
Proof.
  destruct ex_fs_ok as (l & Hok & Hv). destruct (ex_write_room l Hv) as [R1 R2].
  destruct (writei_replaces_bytes (fun _ => None) 1 (ex_fs l) ∅ [104; 105; 10] 0 Hok (ex_file_ok l 1 Hv ltac:(lia)))
    as (s' & E & _ & Hs & Hb & _); [cbn; lia|done|cbn; lia|exact R1|exact R2|].
  exists l, s'. split; [exact E|]. split; [exact Hs|]. rewrite Hb by (cbn; lia). reflexivity.
Defined.

Lemma read_after_write_witness : exists l s',
  (writei (fun _ => None) 1 [104; 105; 10] 0 3 ;; readi (fun _ => None) 1 0 3) (ex_fs l) = Ret (3, [104; 105; 10]) s'.
Proof.
  destruct ex_fs_ok as (l & Hok & Hv). destruct (ex_write_room l Hv) as [R1 R2]. exists l.
  apply (read_after_write (fun _ => None) (fun _ => None) 1 (ex_fs l) ∅ [104; 105; 10] 0 Hok (ex_file_ok l 1 Hv ltac:(lia)));
    [cbn; lia|done|cbn; lia|exact R1|exact R2].
Defined.

Lemma readi_returns_bytes_witness : exists l s',
  readi (fun _ => None) 1 0 5 (ex_fs l) = Ret (0, []) s' /\ inodes s' = ex_inodes.
Proof.
  destruct ex_fs_ok as (l & Hok & Hv). exists l.
  destruct (readi_returns_bytes (fun _ => None) 1 (ex_fs l) ∅ 0 5 Hok (ex_file_ok l 1 Hv ltac:(lia))) as (s' & E & Hi & _);
    [lia|lia|]. exists s'. split; [exact E|exact Hi].
Defined.
