(* ===== verification/FsDir.v ===== *)
(** * Directories: dirlookup and dirlink (fs.c)

    A directory is a file of entries.  dirlookup finds the first entry in use with a
    name, dirlink writes an entry for a name that is not there. *)

From S2P Require Import Prelude Layout Sleeplock Fsdefs Fs FsBlocks FsAlloc FsFile FsRw FsRwProps.

(** ** Names *)

Lemma strncpy_arr_length n t : length (strncpy_arr n t) = n.
Proof.
  revert t. induction n as [|n IH]; intros t; cbn [strncpy_arr]; [done|].
  destruct (_ =? 0); [apply length_replicate|]. cbn. by rewrite IH.
Qed.

(** A name compares equal to its copy in a directory entry. *)
Lemma strncmp_strncpy n t : strncmp_arr n t (strncpy_arr n t) = 0.
Proof.
  revert t. induction n as [|n IH]; intros t; cbn [strncmp_arr strncpy_arr]; [done|].
  destruct (Z.eqb_spec (nth 0 t 0) 0) as [E|E].
  - rewrite E. cbn. done.
  - cbn [nth tail]. unfold truth. rewrite (proj2 (Z.eqb_neq _ _) E), Z.eqb_refl. cbn [negb andb]. apply IH.
Qed.

(** Names are bytes; two that compare equal compare alike with every third. *)
Lemma strncmp_eq n p q : strncmp_arr n p q = 0 -> Forall (fun c => 0 <= c < 256) p -> Forall (fun c => 0 <= c < 256) q ->
  strncpy_arr n p = strncpy_arr n q.
Proof.
  assert (Hby : forall l, Forall (fun c => 0 <= c < 256) l -> 0 <= nth 0 l 0 < 256 /\ Forall (fun c => 0 <= c < 256) (tail l)).
  { intros [|c l] Hl; cbn; [split; [lia|constructor]|]. by apply Forall_cons in Hl. }
  revert p q. induction n as [|n IH]; intros p q E Hp Hq; cbn [strncmp_arr strncpy_arr] in *; [done|].
  destruct (Hby p Hp) as [Hp0 Hpt], (Hby q Hq) as [Hq0 Hqt]. unfold truth in E.
  destruct (Z.eqb_spec (nth 0 p 0) 0) as [E0|E0]; cbn [negb andb] in E.
  - rewrite !u8_small in E by lia. by rewrite (proj2 (Z.eqb_eq (nth 0 q 0) 0)) by lia.
  - destruct (Z.eqb_spec (nth 0 p 0) (nth 0 q 0)) as [E1|E1]; [|rewrite !u8_small in E by lia; lia].
    rewrite <- E1, (proj2 (Z.eqb_neq _ _) E0). f_equal. by apply IH.
Qed.

Section dir.
Context `{FH : FsH} {FL : FsLaws} {B : Type} `{BL : BlockLayer B} {LL : BlockLaws B}.
Notation S := (fsstate B).
Implicit Types (s : S) (T : gset Z).
Variable dr : Z -> option (nat -> Z -> K S (Z * list Z)).
Variable dw : Z -> option (nat -> list Z -> Z -> K S Z).
Variable dp : nat.
Notation ino := (ino dp).
Notation sz := sizeof_dirent.

(** ** Entries *)

Definition dent (s : S) (k : Z) : dirent := dirent_of (fbyte dp s <$> seqZ (k * sz) sz).
Definition ndents (s : S) : Z := i_size (ino s) / sz.

Record dir_ok (s : S) : Prop := {
  dd_file : file_ok dp s;
  dd_type : i_type (ino s) = T_DIR;
  dd_size : i_size (ino s) mod sz = 0
}.

(** The entry in use at [k] has the name. *)
Definition entry_matches (s : S) (name : list Z) (k : Z) : Prop :=
  de_inum (dent s k) <> 0 /\ namecmp name (de_name (dent s k)) = 0.

Lemma dir_size s : dir_ok s -> i_size (ino s) = ndents s * sz /\ 0 <= ndents s.
Proof.
  intros [D1 D2 D3]. pose proof (proj1 sizeof_dirent_pos). destruct (fo_full dp s D1) as [Hs _]. unfold ndents.
  split; [|apply Z.div_pos; lia]. rewrite (Z.div_mod (i_size (ino s)) sz) at 1 by lia. lia.
Qed.

Lemma dir_entries_eq s : dir_ok s -> dir_entries (i_size (ino s)) = Z.to_nat (ndents s).
Proof.
  intros Hd. destruct (dir_size s Hd) as [E Hn]. pose proof (proj1 sizeof_dirent_pos). unfold dir_entries. f_equal. rewrite E.
  replace (ndents s * sz + sz - 1) with (ndents s * sz + (sz - 1)) by lia.
  rewrite Z.div_add_l, Z.div_small by lia. lia.
Qed.

Lemma sv_file_ok s B' : (forall y, bl_view B' y = view s y) -> file_ok dp s -> file_ok dp (set_blk B' s).
Proof.
  intros Hv [F1 F2 F3 F4 F5 F6]. constructor; try done.
  - by apply sv_disk_ok.
  - by apply sv_ino_ok.
  - destruct F3 as [G1 G2]. split; [done|]. intros k Hk Hk2. rewrite sv_blockno by done. by apply G2.
  - unfold synced in *. change (iblk dp (set_blk B' s)) with (iblk dp s). by rewrite sv_view.
Qed.

Lemma sv_dir_ok s B' : (forall y, bl_view B' y = view s y) -> dir_ok s -> dir_ok (set_blk B' s).
Proof. intros Hv [D1 D2 D3]. constructor; [by apply sv_file_ok|done|done]. Qed.

Lemma sv_dent s B' k : (forall y, bl_view B' y = view s y) -> dent (set_blk B' s) k = dent s k.
Proof. intros Hv. unfold dent. f_equal. apply list_fmap_ext. intros i o _. by apply sv_fbyte. Qed.

Lemma size_small s : dir_ok s -> i_size (ino s) < 2147483648.
Proof. intros Hd. destruct (fo_full dp s (dd_file s Hd)) as [[_ Hs] _]. pose proof maxfile_small. lia. Qed.

Lemma read_dirent_spec s T k msg :
  bl_ok (fs_blk s) ∅ T -> dir_ok s -> 0 <= k < ndents s ->
  wp (read_dirent dr dp (k * sz) msg) s (fun de s' => de = dent s k /\ exists B', s' = set_blk B' s /\ bl_ok B' ∅ T /\
    forall y, bl_view B' y = view s y).
Proof.
  intros Hok Hd Hk. pose proof (proj1 sizeof_dirent_pos) as Hsz. destruct (dir_size s Hd) as [Es _]. pose proof (size_small s Hd).
  destruct (dd_file s Hd) as [F1 F2 F3 F4 F5 F6]. unfold read_dirent. apply wp_bind.
  eapply wp_mono; [apply (readi_spec dp dr s T (k * sz) sz Hok F1 F2 F3 F6); nia|].
  intros r s' (B' & -> & Ok' & V' & Hr). rewrite Es in Hr.
  rewrite (proj2 (Z.ltb_ge _ _)), (proj2 (Z.leb_gt 4294967296 _)) in Hr by nia. cbn [orb] in Hr.
  rewrite Z.min_l in Hr by nia. rewrite Hr. cbn [fst snd]. rewrite Z.eqb_refl. cbn [negb]. apply wp_ret.
  split; [done|]. by exists B'.
Qed.

(** ** dirlookup *)

(** The body of the loop of dirlookup. *)
Definition scan_body (name : list Z) (dev k : Z) : K S (option (nat * Z)) :=
  let off := k * sz in
  let! de := read_dirent dr dp off "dirlookup read" in
  if de_inum de =? 0 then kret None else
  if namecmp name (de_name de) =? 0 then
    let! ip := iget dev (de_inum de) in kret (Some (ip, off))
  else kret None.

Lemma dirlookup_eq name s : dir_ok s ->
  dirlookup dr dp name s = kfor (Z.to_nat (ndents s)) 0 (scan_body name ROOTDEV) s.
Proof.
  intros Hd. unfold dirlookup, iget_field. rewrite kbind_get. unfold id. change (inode_at s dp) with (ino s).
  rewrite (dd_type s Hd), (io_dev dp s (fo_ino dp s (dd_file s Hd))). cbn [T_DIR Z.eqb Pos.eqb negb]. by rewrite (dir_entries_eq s Hd).
Qed.

(** As long as no entry matches, the loop goes on. *)
Lemma scan_prefix s T name n :
  bl_ok (fs_blk s) ∅ T -> dir_ok s -> Z.of_nat n <= ndents s -> (forall k, 0 <= k < Z.of_nat n -> ~ entry_matches s name k) ->
  wp (kfor n 0 (scan_body name ROOTDEV)) s (fun r s' => r = None /\ exists B', s' = set_blk B' s /\ bl_ok B' ∅ T /\
    forall y, bl_view B' y = view s y).
Proof.
  intros Hok Hd Hn Hno.
  eapply (wp_for _ _ _ _ (fun k s' => exists B', s' = set_blk B' s /\ bl_ok B' ∅ T /\ forall y, bl_view B' y = view s y)).
  - exists (fs_blk s). split; [by destruct s|done].
  - intros k s' Hk (B' & -> & Ok' & V'). unfold scan_body. apply wp_bind.
    eapply wp_mono; [apply (read_dirent_spec (set_blk B' s) T k); [done|by apply sv_dir_ok|change (ndents (set_blk B' s)) with (ndents s); lia]|].
    intros de s' (-> & B2 & -> & Ok2 & V2). rewrite sv_dent by done.
    assert (V2' : forall y, bl_view B2 y = view s y) by (intros y; rewrite V2; apply V').
    destruct (Z.eqb_spec (de_inum (dent s k)) 0) as [E|E]; [apply wp_ret; by exists B2|].
    destruct (Z.eqb_spec (namecmp name (de_name (dent s k))) 0) as [E2|E2]; [|apply wp_ret; by exists B2].
    exfalso. apply (Hno k); [lia|]. by split.
  - intros s' Hs. by split.
Qed.

Lemma dirlookup_miss s T name :
  bl_ok (fs_blk s) ∅ T -> dir_ok s -> (forall k, 0 <= k < ndents s -> ~ entry_matches s name k) ->
  wp (dirlookup dr dp name) s (fun r s' => r = None /\ exists B', s' = set_blk B' s /\ bl_ok B' ∅ T /\
    forall y, bl_view B' y = view s y).
Proof.
  intros Hok Hd Hno. unfold wp. rewrite dirlookup_eq by done. destruct (dir_size s Hd) as [_ Hn].
  apply (scan_prefix s T name (Z.to_nat (ndents s))); [done|done|lia|]. intros k Hk. apply Hno. lia.
Qed.

Lemma kfor_app {R} n m i (body : Z -> K S (option R)) s :
  kfor (n + m) i body s = (let! r := kfor n i body in match r with Some v => kret (Some v) | None => kfor m (i + Z.of_nat n) body end) s.
Proof.
  revert i s. induction n as [|n IH]; intros i s; cbn [kfor Nat.add].
  - unfold kbind, kret. by rewrite Z.add_0_r.
  - unfold kbind in *. destruct (body i s) as [[v|] s1| | |]; try done. rewrite IH.
    by replace (i + 1 + Z.of_nat n) with (i + Z.of_nat (Datatypes.S n)) by lia.
Qed.

(** The first entry with the name decides. *)
Lemma dirlookup_hit s T name k :
  bl_ok (fs_blk s) ∅ T -> dir_ok s -> 0 <= k < ndents s -> entry_matches s name k ->
  (forall j, 0 <= j < k -> ~ entry_matches s name j) ->
  exists B', dirlookup dr dp name s =
      (let! ip := iget ROOTDEV (de_inum (dent s k)) in kret (Some (ip, k * sz))) (set_blk B' s) /\
    bl_ok B' ∅ T /\ forall y, bl_view B' y = view s y.
Proof.
  intros Hok Hd Hk Hm Hfirst. rewrite dirlookup_eq by done.
  replace (Z.to_nat (ndents s)) with (Z.to_nat k + Datatypes.S (Z.to_nat (ndents s - k - 1)))%nat by lia. rewrite kfor_app.
  pose proof (scan_prefix s T name (Z.to_nat k) Hok Hd) as Hwp.
  apply wp_iff in Hwp as (r & s1 & E1 & -> & B1 & -> & Ok1 & V1); [|lia|intros j Hj; apply Hfirst; lia].
  rewrite (kbind_ret _ _ _ _ _ E1). cbn [kfor].
  replace (0 + Z.of_nat (Z.to_nat k)) with k by lia. unfold scan_body at 1.
  assert (Hrd : wp (read_dirent dr dp (k * sz) "dirlookup read") (set_blk B1 s) (fun de s' => de = dent s k /\
    exists B', s' = set_blk B' s /\ bl_ok B' ∅ T /\ forall y, bl_view B' y = view s y)).
  { eapply wp_mono; [apply (read_dirent_spec (set_blk B1 s) T k); [done|by apply sv_dir_ok|exact Hk]|].
    intros de s' (-> & B2 & -> & Ok2 & V2). rewrite sv_dent by done. split; [done|]. exists B2. split; [done|]. split; [done|].
    intros y. rewrite V2. apply V1. }
  apply wp_iff in Hrd as (de & s2 & E2 & -> & B2 & -> & Ok2 & V2). exists B2. split; [|done].
  cbv zeta. rewrite kbind_assoc. rewrite (kbind_ret _ _ _ _ _ E2).
  destruct Hm as [Hm1 Hm2]. rewrite (proj2 (Z.eqb_neq _ _) Hm1), Hm2. cbn [Z.eqb]. rewrite kbind_assoc.
  unfold kbind, kret. by destruct (iget ROOTDEV (de_inum (dent s k)) (set_blk B2 s)).
Qed.

(** ** dirlink *)

Lemma nblk_dirent k : 0 <= k -> nblk (k * sz) sz = 1%nat.
Proof.
  intros Hk. destruct sizeof_dirent_pos as [Hsz Hmod]. pose proof bsize_pos. unfold nblk.
  rewrite (proj2 (Z.ltb_lt 0 sz)) by lia. apply Z.mod_divide in Hmod as [m Em]; [|lia]. rewrite Em.
  assert (0 < m) by nia. rewrite (Z.mul_comm m sz), <- !Z.div_div by lia.
  replace (k * sz + sz - 1) with (k * sz + (sz - 1)) by lia. rewrite Z.div_add_l, Z.div_mul, (Z.div_small (sz - 1)) by lia.
  rewrite Z.add_0_r. replace (k / m - k / m + 1) with 1 by lia. done.
Qed.

(** Where dirlink writes: the first free entry, or the end. *)
Definition is_slot (s : S) (k : Z) : Prop :=
  0 <= k <= ndents s /\ (forall j, 0 <= j < k -> de_inum (dent s j) <> 0) /\ (k < ndents s -> de_inum (dent s k) = 0).

Definition find_slot (size : Z) : K S Z :=
  let! r := kfor (dir_entries size) 0 (fun k =>
    let off := k * sz in
    let! de := read_dirent dr dp off "dirlink read" in
    kret (if de_inum de =? 0 then Some off else None)) in
  kret (match r with Some off => off | None => Z.of_nat (dir_entries size) * sz end).

Lemma find_slot_spec s T :
  bl_ok (fs_blk s) ∅ T -> dir_ok s ->
  wp (find_slot (i_size (ino s))) s (fun off s' => exists k B', off = k * sz /\ is_slot s k /\ s' = set_blk B' s /\ bl_ok B' ∅ T /\
    forall y, bl_view B' y = view s y).
Proof.
  intros Hok Hd. destruct (dir_size s Hd) as [_ Hn]. unfold find_slot. rewrite (dir_entries_eq s Hd). apply wp_bind.
  eapply (wp_for _ _ _ _ (fun k s' => (forall j, 0 <= j < k -> de_inum (dent s j) <> 0) /\ exists B', s' = set_blk B' s /\
    bl_ok B' ∅ T /\ forall y, bl_view B' y = view s y)).
  - split; [intros; lia|]. exists (fs_blk s). split; [by destruct s|done].
  - intros k s' Hk (Hj & B' & -> & Ok' & V'). cbv zeta. apply wp_bind.
    eapply wp_mono; [apply (read_dirent_spec (set_blk B' s) T k); [done|by apply sv_dir_ok|change (ndents (set_blk B' s)) with (ndents s); lia]|].
    intros de s' (-> & B2 & -> & Ok2 & V2). rewrite sv_dent by done. apply wp_ret.
    assert (V2' : forall y, bl_view B2 y = view s y) by (intros y; rewrite V2; apply V').
    destruct (Z.eqb_spec (de_inum (dent s k)) 0) as [E|E].
    + apply wp_ret. exists k, B2. split; [done|]. split; [|done]. split; [lia|]. by split.
    + split; [|by exists B2]. intros j Hjk. destruct (decide (j = k)) as [->|]; [done|]. apply Hj. lia.
  - intros s' (Hj & B' & -> & Ok' & V'). apply wp_ret. exists (ndents s), B'. split; [by rewrite Z2Nat.id by lia|]. split; [|done].
    split; [lia|]. split; [|lia]. intros j Hjn. apply Hj. lia.
Qed.

Record dirlink_post (s : S) (de : dirent) (k : Z) (s' : S) : Prop := {
  dl_dir : dir_ok s';
  dl_ok : exists T', bl_ok (fs_blk s') ∅ T';
  dl_size : ndents s' = Z.max (ndents s) (k + 1);
  dl_new : dent s' k = de;
  dl_old : forall j, 0 <= j < ndents s -> j <> k -> dent s' j = dent s j;
  dl_use : forall y, 0 <= y < sb_size (fs_sb s) -> in_use s y = true -> in_use s' y = true;
  dl_frame : forall y, 0 <= y < sb_size (fs_sb s) -> in_use s y = true -> ~ in_map s y -> y <> ind dp s -> y <> iblk dp s ->
    (forall j, 0 <= j < MAXFILE -> blockno dp s j <> y) -> view s' y = view s y;
  dl_inodes : exists l z, inodes s' = alter (fun i => set_isize z (set_addrs l i)) dp (inodes s);
  dl_rest : ic_lk s' = ic_lk s /\ fs_sb s' = fs_sb s
}.

Lemma fbyte_chunk s s' o n (src : list Z) off :
  (forall i, 0 <= i < MAXFILE * BSIZE -> fbyte dp s' i =
     if decide (off <= i < off + Z.of_nat (length src)) then nth (Z.to_nat (i - off)) src 0 else fbyte dp s i) ->
  0 <= o -> o + n <= MAXFILE * BSIZE -> o + n <= off \/ off + Z.of_nat (length src) <= o ->
  fbyte dp s' <$> seqZ o n = fbyte dp s <$> seqZ o n.
Proof.
  intros Hb Ho Hn Hd. apply list_fmap_ext. intros j i Hi%list_elem_of_lookup_2. apply elem_of_seqZ in Hi.
  rewrite Hb by lia. by rewrite decide_False by lia.
Qed.

Lemma fbyte_chunk_new s s' (src : list Z) off :
  (forall i, 0 <= i < MAXFILE * BSIZE -> fbyte dp s' i =
     if decide (off <= i < off + Z.of_nat (length src)) then nth (Z.to_nat (i - off)) src 0 else fbyte dp s i) ->
  0 <= off -> off + Z.of_nat (length src) <= MAXFILE * BSIZE ->
  fbyte dp s' <$> seqZ off (Z.of_nat (length src)) = src.
Proof.
  intros Hb Ho Hn. apply list_eq. intros i. rewrite list_lookup_fmap. destruct (decide (i < length src)%nat) as [Hi|Hi].
  - rewrite lookup_seqZ_lt by lia. cbn. rewrite Hb by lia. rewrite decide_True by lia.
    rewrite (nth_lookup_lt src i 0) by done. do 2 f_equal. lia.
  - rewrite lookup_seqZ_ge by lia. rewrite lookup_ge_None_2 by lia. done.
Qed.

(** Room in the log and on the disk for one entry. *)
Definition entry_room (s : S) (T : gset Z) : Prop :=
  (size T + 5 <= max_logged)%nat /\ (2 <= nfree s)%nat /\ i_size (ino s) + sz <= MAXFILE * BSIZE.

Lemma entry_write s T k de :
  bl_ok (fs_blk s) ∅ T -> dir_ok s -> entry_room s T -> 0 <= k <= ndents s ->
  0 <= de_inum de < 65536 -> length (de_name de) = Z.to_nat DIRSIZ ->
  exists s', writei dw dp (bytes_of_dirent de) (k * sz) sz s = Ret sz s' /\ dirlink_post s de k s'.
Proof.
  intros Hok Hd (HT & Hfr & Hmax) Hk Hde Hnm. destruct (dir_size s Hd) as [Es Hn]. destruct sizeof_dirent_pos as [Hsz _].
  assert (El : Z.of_nat (length (bytes_of_dirent de)) = sz) by (rewrite dirent_length; lia).
  assert (Hko : 0 <= k * sz <= i_size (ino s)) by (rewrite Es; nia).
  destruct (writei_file_ok dw dp s T (bytes_of_dirent de) (k * sz) Hok (dd_file s Hd) Hko) as (s' & T' & E & P & Hf').
  - intros E. rewrite E in El. cbn in El. lia.
  - rewrite El. lia.
  - rewrite El. unfold write_cost. rewrite nblk_dirent by lia. pose proof (absent_le dp s (k * sz / BSIZE)).
    unfold c_ind. destruct (ind dp s =? 0); [|case_decide]; lia.
  - rewrite El. unfold write_need. rewrite nblk_dirent by lia. pose proof (absent_le dp s (k * sz / BSIZE)).
    unfold f_ind. destruct (ind dp s =? 0); lia.
  - rewrite El in E. exists s'. split; [exact E|]. destruct P as [W1 W2 W3 W4 W5 W6 W7 W8 W9 W10 Wfr [l W11] W12].
    rewrite El in W7. destruct W4 as [[W4a W4b] _].
    assert (Ei : i_size (ino s') = Z.max (ndents s) (k + 1) * sz) by (rewrite W7, Es; nia).
    assert (Nd : ndents s' = Z.max (ndents s) (k + 1)) by (unfold ndents at 1; rewrite Ei, Z.div_mul; lia).
    constructor; try done.
    + constructor; [done| |by rewrite Ei, Z.mod_mul by lia].
      unfold ino, inode_at in *. rewrite W11, nth_alter_eq by apply (fo_ino dp s (dd_file s Hd)). apply (dd_type s Hd).
    + by exists T'.
    + unfold dent. rewrite <- El at 2. rewrite (fbyte_chunk_new s s' _ _ W8); [by apply dirent_get_put|lia|lia].
    + intros j Hj Hjk. unfold dent. f_equal. apply (fbyte_chunk s s' _ _ _ _ W8); rewrite ?El; nia.
    + by exists l, (i_size (ino s')).
    + destruct W12 as (R1 & R2 & _). done.
Qed.

Lemma dirlink_eq name inum s :
  dirlink dr dw dp name inum s =
  (let! r := dirlookup dr dp name in
   match r with
   | Some (ip, _) => iput ip ;; kret (-1)
   | None =>
       let! size := iget_field dp i_size in
       let! off := find_slot size in
       let! w := writei dw dp (bytes_of_dirent (Dirent (u16 inum) (strncpy_arr (Z.to_nat DIRSIZ) name))) off sz in
       if negb (w =? sz) then kpanic "dirlink" else kret 0
   end) s.
Proof.
  unfold dirlink, find_slot, iget_field. unfold kbind, kget, kret. destruct (dirlookup dr dp name s) as [[[ip off]|] s1| | |]; try done.
  by destruct (kfor _ _ _ s1).
Qed.

(** A new name. *)
Lemma dirlink_new s T name inum :
  bl_ok (fs_blk s) ∅ T -> dir_ok s -> entry_room s T -> 0 <= inum < 65536 ->
  (forall k, 0 <= k < ndents s -> ~ entry_matches s name k) ->
  exists k s', dirlink dr dw dp name inum s = Ret 0 s' /\ is_slot s k /\
    dirlink_post s (Dirent inum (strncpy_arr (Z.to_nat DIRSIZ) name)) k s'.
Proof.
  intros Hok Hd HR Hin Hno. rewrite dirlink_eq. replace (u16 inum) with inum by (unfold u16; by rewrite Z.mod_small).
  set (de := Dirent inum _). pose proof (dirlookup_miss s T name Hok Hd Hno) as Hwp.
  apply wp_iff in Hwp as (r & s1 & E1 & -> & B1 & -> & Ok1 & V1). rewrite (kbind_ret _ _ _ _ _ E1).
  unfold iget_field. rewrite kbind_get. change (inode_at (set_blk B1 s) dp) with (ino (set_blk B1 s)).
  assert (Hd1 : dir_ok (set_blk B1 s)) by (by apply sv_dir_ok).
  pose proof (find_slot_spec (set_blk B1 s) T Ok1 Hd1) as Hwp.
  apply wp_iff in Hwp as (off & s2 & E2 & k & B2 & -> & Hk & -> & Ok2 & V2). rewrite (kbind_ret _ _ _ _ _ E2).
  change (set_blk B2 (set_blk B1 s)) with (set_blk B2 s).
  assert (V2' : forall y, bl_view B2 y = view s y) by (intros y; rewrite V2; apply V1).
  assert (Hd2 : dir_ok (set_blk B2 s)) by (by apply sv_dir_ok).
  assert (HR2 : entry_room (set_blk B2 s) T).
  { destruct HR as (H1 & H2 & H3). split; [done|]. split; [|done]. by rewrite sv_nfree. }
  destruct (entry_write (set_blk B2 s) T k de Ok2 Hd2 HR2) as (s' & E3 & P); [apply Hk|done|apply strncpy_arr_length|].
  exists k, s'. rewrite (kbind_ret _ _ _ _ _ E3). rewrite Z.eqb_refl. cbn [negb]. split; [done|]. split.
  - destruct Hk as (K1 & K2 & K3). change (ndents (set_blk B1 s)) with (ndents s) in *. split; [done|]. split.
    + intros j Hj. specialize (K2 j Hj). by rewrite sv_dent in K2.
    + intros Hlt. specialize (K3 Hlt). by rewrite sv_dent in K3.
  - destruct P as [P1 P2 P3 P4 P5 P6 P7 P8 P9]. constructor; try done.
    + intros j Hj Hjk. rewrite P5 by done. by apply sv_dent.
    + intros y Hy Hu. apply P6; [done|]. by rewrite sv_use.
    + intros y Hy Hu Hm H1 H2 H3. rewrite P7; [by apply sv_view|done|by rewrite sv_use|done|done|done|].
      intros j Hj. rewrite sv_blockno by done. by apply H3.
Qed.
End dir.
