(* ===== verification/FsDirProps.v ===== *)
(** * Properties of directories *)

From S2P Require Import Prelude Layout Sleeplock Bio Bcache Fsdefs Log LogSafe LogOps.
From S2P Require Import Fs FsBlocks FsAlloc FsFile FsRw FsTrunc FsIcache FsLog FsGeom FsRwProps FsDir.

(** C39: linking a name that a directory does not have returns 0, and looking the name up
    afterwards finds an inode cache entry for exactly the inode that was linked.  For
    every other name the same entries match as before, so that nothing else in the
    directory is hidden, changed or uncovered. *)
Theorem dirlink_then_dirlookup `{FsH} {FL : FsLaws} {B : Type} `{BlockLayer B} {LL : BlockLaws B}
    dr dw (dp : nat) (s : fsstate B) (T : gset Z) (name : list Z) (inum : Z) (free : nat) :
  bl_ok (fs_blk s) ∅ T -> dir_ok dp s -> entry_room dp s T -> 0 < inum < 65536 ->
  (forall k, 0 <= k < ndents dp s -> ~ entry_matches dp s name k) ->
  ic_lk s = false -> (free < length (inodes s))%nat -> i_ref (inode_at s free) = 0 ->
  exists s1, dirlink dr dw dp name inum s = Ret 0 s1 /\ dir_ok dp s1 /\
    (exists ip off s2, dirlookup dr dp name s1 = Ret (Some (ip, off)) s2 /\
       i_dev (inode_at s2 ip) = ROOTDEV /\ i_inum (inode_at s2 ip) = inum) /\
    (forall name' j, namecmp name' (strncpy_arr (Z.to_nat DIRSIZ) name) <> 0 -> 0 <= j < ndents dp s1 ->
       entry_matches dp s1 name' j <-> j < ndents dp s /\ entry_matches dp s name' j).
Proof.
  intros Hok Hd HR Hin Hno Hl Hlt Hfr.
  destruct (dirlink_new dr dw dp s T name inum Hok Hd HR) as (k & s1 & E1 & (K1 & K2 & K3) & P); [lia|done|].
  destruct P as [P1 (T1 & P2) P3 P4 P5 P6 P7 (l & z & P8) (P9 & P10)]. exists s1. split; [done|]. split; [done|]. split.
  - assert (Hm : entry_matches dp s1 name k).
    { unfold entry_matches. rewrite P4. cbn. split; [lia|]. apply strncmp_strncpy. }
    destruct (dirlookup_hit dr dp s1 T1 name k P2 P1) as (B' & E2 & _); [lia|done| |].
    { intros j Hj [M1 M2]. rewrite P5 in M1, M2 by lia. apply (Hno j); [lia|]. by split. }
    rewrite P4 in E2. cbn [de_inum] in E2.
    assert (Hin1 : inodes (set_blk B' s1) = alter (fun i => set_isize z (set_addrs l i)) dp (inodes s)) by exact P8.
    destruct (iget_finds ROOTDEV inum (set_blk B' s1) free) as (ip & s2 & E3 & Hdev & Hinum & _).
    + by cbn; rewrite P9.
    + rewrite Hin1. by rewrite length_alter.
    + unfold inode_at. rewrite Hin1. destruct (decide (free = dp)) as [->|Hne]; [by rewrite nth_alter_eq|by rewrite nth_alter_ne].
    + exists ip, (k * sizeof_dirent), s2. rewrite E2, (kbind_ret _ _ _ _ _ E3). done.
  - intros name' j Hne Hj. destruct (decide (j = k)) as [->|Hjk].
    + unfold entry_matches. rewrite P4. cbn. split; [by intros [_ ?]|]. intros [Hlt' [M1 _]]. by specialize (K3 Hlt').
    + unfold entry_matches. rewrite P5 by lia. split; [|tauto]. intros Hm. split; [lia|done].
Qed.

(** An attempt to link a name whose entry leads back to the directory itself, such
    as the path "." given to link, never returns: dirlink holds the sleep lock of the
    directory and iput of the entry found waits for that very lock. *)
Theorem dirlink_self_entry_deadlocks `{FsH} {FL : FsLaws} {B : Type} `{BlockLayer B} {LL : BlockLaws B}
    dr dw (dp : nat) (s : fsstate B) (T : gset Z) (name : list Z) (inum k : Z) :
  bl_ok (fs_blk s) ∅ T -> dir_ok dp s -> 0 <= k < ndents dp s -> entry_matches dp s name k ->
  (forall j, 0 <= j < k -> ~ entry_matches dp s name j) ->
  de_inum (dent dp s k) = i_inum (ino dp s) -> Fs.find_cached ROOTDEV (i_inum (ino dp s)) (inodes s) 0 = Some dp ->
  ic_lk s = false -> sl_lk (i_lock (ino dp s)) = false -> sl_locked (i_lock (ino dp s)) = 1 ->
  exists s', dirlink dr dw dp name inum s = Sleep (inode_chan dp) s' /\
    sl_locked (i_lock (ino dp s')) = 1 /\ sl_pid (i_lock (ino dp s')) = sl_pid (i_lock (ino dp s)).
Proof.
  intros Hok Hd Hk Hm Hfirst Hself Hc Hl Hlk Hlocked.
  destruct (dirlookup_hit dr dp s T name k Hok Hd Hk Hm Hfirst) as (B' & E1 & _). rewrite Hself in E1.
  set (s1 := set_inodes (alter (fun i => set_ref (i_ref i + 1) i) dp (inodes s)) (set_blk B' s)).
  assert (Eg : iget ROOTDEV (i_inum (ino dp s)) (set_blk B' s) = Ret dp s1).
  { unfold iget, ic_acquire, ic_release, upd_inode. krun. cbn [ic_lk set_blk inodes]. rewrite Hl. krun. cbn [inodes set_ic_lk set_blk].
    rewrite Hc. krun. cbn [ic_lk set_ic_lk set_inodes]. krun. unfold kret, s1, set_inodes, set_ic_lk. cbn. by rewrite Hl. }
  rewrite (kbind_ret _ _ _ _ _ Eg) in E1. unfold kret in E1. rewrite dirlink_eq, (kbind_ret _ _ _ _ _ E1).
  assert (Ei : ino dp s1 = set_ref (i_ref (ino dp s) + 1) (ino dp s)).
  { unfold ino, inode_at, s1. cbn. rewrite nth_alter_eq; [done|]. apply (fo_ino dp s (dd_file dp s Hd)). }
  assert (Ea : iacquiresleep dp s1 = Sleep (inode_chan dp) (set_inodes (alter (set_ilock (i_lock (ino dp s))) dp (inodes s1)) s1)).
  { unfold iacquiresleep, on_ilock. krun. unfold kzoom. fold (ino dp s1). rewrite Ei. cbn [i_lock set_ref].
    rewrite acquiresleep_eq by done. by rewrite Hlocked. }
  eexists. split; [unfold iput, kbind; rewrite Ea; reflexivity|].
  unfold ino at 1 3, inode_at. cbn [inodes set_inodes]. rewrite nth_alter_eq; [done|]. unfold s1. cbn. rewrite length_alter.
  apply (fo_ino dp s (dd_file dp s Hd)).
Qed.

(** ** The directory of the example disk *)

Lemma ex_dir_ok l : (forall y, FsBlocks.view (ex_fs l) y = ex_disk y) -> dir_ok 0 (ex_fs l).
Proof. intros Hv. constructor; [apply (ex_file_ok l 0 Hv); lia|done|done]. Qed.

Lemma ex_entry_room l : (forall y, FsBlocks.view (ex_fs l) y = ex_disk y) -> entry_room 0 (ex_fs l) ∅.
Proof.
  intros Hv. split; [apply Nat.leb_le; vm_compute; reflexivity|]. split; [rewrite (ex_nfree l Hv); lia|]. cbn. lia.
Qed.

(** The name "." *)
Definition ex_dot : list Z := [46].

Lemma dirlink_then_dirlookup_witness : exists l s1, dirlink (fun _ => None) (fun _ => None) 0 ex_dot 1 (ex_fs l) = Ret 0 s1 /\
  exists ip off s2, dirlookup (fun _ => None) 0 ex_dot s1 = Ret (Some (ip, off)) s2 /\ i_inum (inode_at s2 ip) = 1.
Proof.
  destruct ex_fs_ok as (l & Hok & Hv).
  destruct (dirlink_then_dirlookup (fun _ => None) (fun _ => None) 0 (ex_fs l) ∅ ex_dot 1 5 Hok (ex_dir_ok l Hv) (ex_entry_room l Hv))
    as (s1 & E & _ & (ip & off & s2 & E2 & _ & Hi) & _); [lia|intros k Hk; change (ndents 0 (ex_fs l)) with 0 in Hk; lia|done|cbn; lia|done|].
  exists l, s1. split; [exact E|]. exists ip, off, s2. split; [exact E2|exact Hi].
Defined.

Lemma dirlink_self_entry_deadlocks_witness : exists s s',
  dirlink (fun _ => None) (fun _ => None) 0 ex_dot 2 s = Sleep (inode_chan 0) s'.
Proof.
  destruct ex_fs_ok as (l & Hok & Hv).
  destruct (dirlink_new (fun _ => None) (fun _ => None) 0 (ex_fs l) ∅ ex_dot 1 Hok (ex_dir_ok l Hv) (ex_entry_room l Hv))
    as (k & s & _ & (K1 & K2 & K3) & P); [lia|intros k Hk; change (ndents 0 (ex_fs l)) with 0 in Hk; lia|].
  assert (k = 0) as -> by (change (ndents 0 (ex_fs l)) with 0 in K1; lia).
  destruct P as [P1 (T1 & P2) P3 P4 P5 P6 P7 (a & z & P8) (P9 & P10)]. exists s.
  assert (Ei : ino 0 s = set_isize z (set_addrs a (ino 0 (ex_fs l)))) by (unfold ino, inode_at; by rewrite P8).
  destruct (dirlink_self_entry_deadlocks (fun _ => None) (fun _ => None) 0 s T1 ex_dot 2 0 P2 P1) as (s' & E & _).
  - rewrite P3. change (ndents 0 (ex_fs l)) with 0. lia.
  - unfold entry_matches. rewrite P4. cbn [de_inum de_name]. split; [lia|apply strncmp_strncpy].
  - intros j Hj. lia.
  - rewrite P4, Ei. reflexivity.
  - rewrite Ei, P8. reflexivity.
  - by rewrite P9.
  - by rewrite Ei.
  - by rewrite Ei.
  - exists s'. exact E.
Defined.

(** ** Properties of iput and of the inode cache *)

(** C37: when the last reference to an inode without links is dropped, iput returns, and
    afterwards exactly the blocks of the file, its indirect block included, have become
    free, the disk inode has type 0, no blocks and size 0, the cache entry is free, and
    no block but the bitmap and the block of the inode has changed. *)
Theorem iput_frees_unlinked_file `{FsH} {FL : FsLaws} {B : Type} `{BlockLayer B} {LL : BlockLaws B}
    (ip : nat) (s : fsstate B) (T M : gset Z) :
  bl_ok (fs_blk s) ∅ T -> disk_ok s -> ino_ok ip s -> dinode_wf (to_dinode (ino ip s)) -> trunc_room ip s T M ->
  unlocked ip s -> i_valid (ino ip s) <> 0 -> i_nlink (ino ip s) = 0 -> i_ref (ino ip s) = 1 ->
  exists s', iput ip s = Ret tt s' /\ disk_ok s' /\
    i_ref (ino ip s') = 0 /\ i_valid (ino ip s') = 0 /\
    (forall b, 0 <= b < sb_size (fs_sb s) -> in_use s' b = true <-> in_use s b = true /\ ~ file_block ip s b) /\
    dinode_at (FsBlocks.view s' (iblk ip s)) (i_inum (ino ip s) mod IPB) =
      Dinode 0 (i_major (ino ip s)) (i_minor (ino ip s)) 0 0 (replicate (Z.to_nat (NDIRECT + 1)) 0) /\
    (forall y, ~ in_map s y -> y <> iblk ip s -> FsBlocks.view s' y = FsBlocks.view s y) /\
    (forall j, j <> ip -> inode_at s' j = inode_at s j).
Proof.
  intros Hok Hd Hi Hwf HR Hu Hva Hnl Hrf.
  pose proof (iput_last_spec ip s T M Hok Hd Hi Hwf HR Hu Hva Hnl Hrf) as Hwp.
  apply wp_iff in Hwp as ([] & s' & E & [P1 P2 [P3 P3'] P4 P5 P6 P7 P8 P9]). exists s'. split_and!; done.
Qed.

(** While a file has links, or another pointer to it is held, or it was never read in,
    iput only drops the reference: it changes no block, no other entry, and nothing of
    the entry but its lock, which it leaves free, and its count. *)
Theorem iput_keeps_linked_file `{FsH} {B : Type} `{BlockLayer B} (ip : nat) (s : fsstate B) :
  (ip < length (inodes s))%nat -> unlocked ip s ->
  i_valid (ino ip s) = 0 \/ i_nlink (ino ip s) <> 0 \/ i_ref (ino ip s) <> 1 ->
  exists s' nm, iput ip s = Ret tt s' /\ fs_blk s' = fs_blk s /\
    ino ip s' = set_ref (i_ref (ino ip s) - 1) (set_ilock (SleepLock 0 false nm 0) (ino ip s)) /\
    forall j, j <> ip -> inode_at s' j = inode_at s j.
Proof.
  intros Hip Hu Hc. destruct (iput_keeps ip s Hip Hu) as [nm E].
  { unfold truth. destruct Hc as [->|[Hc|Hc]]; [done| |]; rewrite (proj2 (Z.eqb_neq _ _) Hc); by rewrite ?andb_false_r. }
  eexists _, nm. split; [exact E|]. split; [done|]. split.
  - unfold ino, inode_at. cbn. by rewrite nth_alter_eq.
  - intros j Hj. unfold inode_at. cbn. by apply nth_alter_ne.
Qed.

(** The example file without links, unlocked. *)
Definition ex_unlinked (l : logstate) : fsstate logstate :=
  with_ino 1 (fun i => set_nlink 0 (set_ilock (SleepLock 0 false "inode" 0) i)) (ex_fs l).

Lemma ex_unlinked_room l : (forall y, FsBlocks.view (ex_fs l) y = ex_disk y) -> trunc_room 1 (ex_unlinked l) ∅ {[32; 58]}.
Proof.
  intros Hv. constructor.
  - set_solver.
  - intros b Hb. cbn [fs_sb ex_unlinked with_ino set_inodes ex_fs ex_sb sb_size sb_bmapstart BBLOCK geom] in *.
    rewrite Z.div_small by lia. set_solver.
  - change (iblk 1 (ex_unlinked l)) with 32. set_solver.
  - apply Nat.leb_le. vm_compute. reflexivity.
Qed.

Lemma ex_unlinked_ok l : (forall y, FsBlocks.view (ex_fs l) y = ex_disk y) ->
  disk_ok (ex_unlinked l) /\ ino_ok 1 (ex_unlinked l) /\ dinode_wf (to_dinode (ino 1 (ex_unlinked l))).
Proof.
  intros Hv. destruct (ex_file_ok l 1 Hv ltac:(lia)) as [F1 F2 F3 F4 F5 F6]. split_and!.
  - by apply (disk_ok_ext (ex_fs l)).
  - by apply (ino_ok_ext 1 (ex_fs l)).
  - destruct F5 as (G1 & G2 & G3 & G4 & G5). unfold dinode_wf. split_and!; try done; try exact G1; try exact G2; try exact G3;
      apply G5.
Qed.

Lemma iput_frees_unlinked_file_witness : exists l s', iput 1 (ex_unlinked l) = Ret tt s' /\ i_ref (ino 1 s') = 0 /\
  in_use s' 59 = false.
Proof.
  destruct ex_fs_ok as (l & Hok & Hv). destruct (ex_unlinked_ok l Hv) as (Hd & Hi & Hwf).
  destruct (iput_frees_unlinked_file 1 (ex_unlinked l) ∅ {[32; 58]} Hok Hd Hi Hwf (ex_unlinked_room l Hv))
    as (s' & E & _ & Hr & _ & Hu & _); [by split_and!|done|done|done|].
  exists l, s'. split; [exact E|]. split; [exact Hr|]. destruct (in_use s' 59) eqn:E59; [|done].
  apply Hu in E59 as [E59 _]; [|cbn; lia]. change (in_use (ex_fs l) 59 = true) in E59.
  by rewrite (ex_in_use l _ Hv) in E59 by lia.
Defined.

Lemma iput_keeps_linked_file_witness : exists l s' nm, iput 1 (with_ino 1 (set_nlink 1) (ex_unlinked l)) = Ret tt s' /\
  ino 1 s' = set_ref 0 (set_ilock (SleepLock 0 false nm 0) (ino 1 (with_ino 1 (set_nlink 1) (ex_unlinked l)))).
Proof.
  destruct ex_fs_ok as (l & _ & _). exists l.
  destruct (iput_keeps_linked_file 1 (with_ino 1 (set_nlink 1) (ex_unlinked l))) as (s' & nm & E & _ & Hi & _);
    [cbn; lia|by split_and!|by right; left|]. exists s', nm. split; [exact E|exact Hi].
Defined.

(** Two calls for the same inode, on an empty cache. *)
Definition ex_empty_cache (l : logstate) : fsstate logstate :=
  FsState false (replicate 50 null_inode) ex_sb l 1 0%nat [].

Lemma icache_references_witness : exists l s,
  (let! _ := iget 1 7 in iget 1 7) (ex_empty_cache l) = Ret 0%nat s /\ i_ref (inode_at s 0) = held 0 [0; 0]%nat.
Proof.
  destruct ex_fs_ok as (l & _ & _). exists l. destruct (iget 1 7 (ex_empty_cache l)) as [p1 s1| | |] eqn:E1; [|done..].
  destruct (iget 1 7 s1) as [p2 s2| | |] eqn:E2; [|injection E1 as <- <-; discriminate E2..].
  assert (p1 = 0%nat) as -> by (by injection E1).
  assert (p2 = 0%nat) as -> by (injection E1 as <-; by injection E2).
  exists s2. split; [by rewrite (kbind_ret _ _ _ _ _ E1)|].
  apply (icache_references (ex_empty_cache l) s2 [0; 0]%nat).
  - split; [done|]. intros ip. unfold inode_at. cbn [inodes ex_empty_cache]. by rewrite nth_replicate_same.
  - eapply rtc_l; [by eapply st_iget|]. eapply rtc_l; [by eapply st_iget|]. apply rtc_refl.
  - left.
Defined.
