(* ===== verification/File.v ===== *)
(** * Open files (file.c) and the creation of pipes (pipe.c)

    The table of open files over the inodes of fs.c, the log's transactions and the
    pipes.  A pipe lives in a page; kalloc and kfree are seen here as a list of free
    pages. *)

From S2P Require Import Prelude Layout Sleeplock Pipe Fsdefs Fs FsBlocks.

(** struct file (file.h) *)
Inductive fdtype := FD_NONE | FD_PIPE | FD_INODE.
#[export] Instance fdtype_eq_dec : EqDecision fdtype.
Proof. solve_decision. Defined.
Record file := File {
  f_type : fdtype; f_ref : Z; f_readable : bool; f_writable : bool; f_pipe : Z; f_ip : nat; f_off : Z
}.
Definition set_fref (v : Z) (f : file) : file := File (f_type f) v (f_readable f) (f_writable f) (f_pipe f) (f_ip f) (f_off f).
Definition set_ftype (v : fdtype) (f : file) : file := File v (f_ref f) (f_readable f) (f_writable f) (f_pipe f) (f_ip f) (f_off f).
Definition set_foff (v : Z) (f : file) : file := File (f_type f) (f_ref f) (f_readable f) (f_writable f) (f_pipe f) (f_ip f) v.
Definition set_fmode (r w : bool) (f : file) : file := File (f_type f) (f_ref f) r w (f_pipe f) (f_ip f) (f_off f).
Definition set_fpipe (p : Z) (f : file) : file := File (f_type f) (f_ref f) (f_readable f) (f_writable f) p (f_ip f) (f_off f).
Definition set_fip (ip : nat) (f : file) : file := File (f_type f) (f_ref f) (f_readable f) (f_writable f) (f_pipe f) ip (f_off f).
Definition null_file : file := File FD_NONE 0 false false 0 0 0.

Record fdstate (B : Type) := FdState {
  ft_lk : bool;               (* ftable.lock held *)
  files : list file;          (* ftable.file *)
  fd_pipes : gmap Z pipe;     (* the pipes, by address *)
  fd_pages : list Z;          (* free pages *)
  fd_fs : fsstate B;
  fd_killed : bool            (* myproc()->killed *)
}.
Arguments FdState {B} _ _ _ _ _ _.
Arguments ft_lk {B} _.
Arguments files {B} _.
Arguments fd_pipes {B} _.
Arguments fd_pages {B} _.
Arguments fd_fs {B} _.
Arguments fd_killed {B} _.

Section file.
Context `{FsH} {B : Type} `{BlockLayer B} `{TxLayer B}.
Notation S := (fdstate B).
Variable dev_read : Z -> option (nat -> Z -> K (fsstate B) (Z * list Z)).
Variable dev_write : Z -> option (nat -> list Z -> Z -> K (fsstate B) Z).

Definition set_ft_lk (v : bool) (s : S) : S := FdState v (files s) (fd_pipes s) (fd_pages s) (fd_fs s) (fd_killed s).
Definition set_files (v : list file) (s : S) : S := FdState (ft_lk s) v (fd_pipes s) (fd_pages s) (fd_fs s) (fd_killed s).
Definition set_pipes (v : gmap Z pipe) (s : S) : S := FdState (ft_lk s) (files s) v (fd_pages s) (fd_fs s) (fd_killed s).
Definition set_pages (v : list Z) (s : S) : S := FdState (ft_lk s) (files s) (fd_pipes s) v (fd_fs s) (fd_killed s).
Definition set_fs (v : fsstate B) (s : S) : S := FdState (ft_lk s) (files s) (fd_pipes s) (fd_pages s) v (fd_killed s).

Definition file_at (s : S) (f : nat) : file := nth f (files s) null_file.
Definition upd_file (f : nat) (g : file -> file) : K S unit := kmodify (fun s => set_files (alter g f (files s)) s).

Definition ft_acquire : K S unit :=
  let! held := kget ft_lk in
  if held : bool then kpanic "acquire" else kmodify (set_ft_lk true).
Definition ft_release : K S unit :=
  let! held := kget ft_lk in
  if held : bool then kmodify (set_ft_lk false) else kpanic "release".

Definition fs {A} (c : K (fsstate B) A) : K S A := kzoom fd_fs set_fs c.
Definition begin_tx : K S unit := fs (blk tx_begin).
Definition end_tx : K S unit := fs (blk tx_end).

(** A routine of pipe.c on the pipe at [p]. *)
Definition null_pipe : pipe := Pipe false [] 0 0 0 0 [].
Definition on_pipe {A} (p : Z) (c : K pipe A) : K S A :=
  kzoom (fun s => default null_pipe (fd_pipes s !! p)) (fun x s => set_pipes (<[p := x]> (fd_pipes s)) s) c.

Definition fileinit : K S unit := kmodify (set_ft_lk false).

Fixpoint find_file (l : list file) (k : nat) : option nat :=
  match l with
  | [] => None
  | f :: l' => if f_ref f =? 0 then Some k else find_file l' (Datatypes.S k)
  end.

Definition filealloc : K S (option nat) :=
  ft_acquire ;;
  let! l := kget files in
  match find_file l 0 with
  | Some f => upd_file f (set_fref 1) ;; ft_release ;; kret (Some f)
  | None => ft_release ;; kret None
  end.

Definition filedup (f : nat) : K S nat :=
  ft_acquire ;;
  let! r := kget (fun s => f_ref (file_at s f)) in
  if r <? 1 then kpanic "filedup" else
  upd_file f (fun x => set_fref (f_ref x + 1) x) ;;
  ft_release ;;
  kret f.

(** kfree of the page of a pipe. *)
Definition pipe_free (p : Z) : K S unit := kmodify (fun s => set_pages (p :: fd_pages s) (set_pipes (delete p (fd_pipes s)) s)).

Definition fileclose (f : nat) : K S unit :=
  ft_acquire ;;
  let! r := kget (fun s => f_ref (file_at s f)) in
  if r <? 1 then kpanic "fileclose" else
  upd_file f (fun x => set_fref (f_ref x - 1) x) ;;
  if 0 <? r - 1 then ft_release else
  let! ff := kget (fun s => file_at s f) in
  upd_file f (set_fref 0) ;;
  upd_file f (set_ftype FD_NONE) ;;
  ft_release ;;
  match f_type ff with
  | FD_PIPE =>
      let! freed := on_pipe (f_pipe ff) (pipeclose (f_writable ff)) in
      if freed : bool then pipe_free (f_pipe ff) else kret tt
  | FD_INODE => begin_tx ;; fs (iput (f_ip ff)) ;; end_tx
  | FD_NONE => kret tt
  end.

Definition filestat (f : nat) : K S (Z * option stat) :=
  let! ff := kget (fun s => file_at s f) in
  match f_type ff with
  | FD_INODE =>
      fs (ilock (f_ip ff)) ;;
      let! st := fs (stati (f_ip ff)) in
      fs (iunlock (f_ip ff)) ;;
      kret (0, Some st)
  | _ => kret (-1, None)
  end.

(** fileread answers the value of the call and the bytes stored at the address. *)
Definition fileread (f : nat) (n : Z) : K S (Z * list Z) :=
  let! ff := kget (fun s => file_at s f) in
  if negb (f_readable ff) then kret (-1, []) else
  match f_type ff with
  | FD_PIPE =>
      let! k := kget fd_killed in
      let! r := on_pipe (f_pipe ff) (piperead k n) in
      match r with
      | RBytes l => kret (Z.of_nat (length l), l)
      | RSleep => ksleep (f_pipe ff + nread_chan)
      | RFail => kret (-1, [])
      end
  | FD_INODE =>
      fs (ilock (f_ip ff)) ;;
      let! r := fs (readi dev_read (f_ip ff) (f_off ff) (u32 n)) in
      (if 0 <? fst r then upd_file f (fun x => set_foff (u32 (f_off x + fst r)) x) else kret tt) ;;
      fs (iunlock (f_ip ff)) ;;
      kret r
  | FD_NONE => kpanic "fileread"
  end.

Definition write_max : Z := ((MAXOPBLOCKS - 1 - 1 - 2) / 2) * 512.

(** The loop of filewrite, for the bytes that remain; it answers [i]. *)
Fixpoint filewrite_loop (fuel : nat) (f ip : nat) (src : list Z) (i n : Z) : K S Z :=
  if i <? n then
    match fuel with
    | O => knofuel
    | Datatypes.S fuel' =>
        let n1 := if write_max <? n - i then write_max else n - i in
        begin_tx ;;
        fs (ilock ip) ;;
        let! off := kget (fun s => f_off (file_at s f)) in
        let! r := fs (writei dev_write ip (take (Z.to_nat n1) src) off n1) in
        (if 0 <? r then upd_file f (fun x => set_foff (u32 (f_off x + r)) x) else kret tt) ;;
        fs (iunlock ip) ;;
        end_tx ;;
        if r <? 0 then kret i else
        if negb (r =? n1) then kpanic "short filewrite" else
        filewrite_loop fuel' f ip (drop (Z.to_nat r) src) (i + r) n
    end
  else kret i.

(** filewrite; [src] holds the [n] bytes at the address. *)
Definition filewrite (f : nat) (src : list Z) (n : Z) : K S Z :=
  let! ff := kget (fun s => file_at s f) in
  if negb (f_writable ff) then kret (-1) else
  match f_type ff with
  | FD_PIPE =>
      let! k := kget fd_killed in
      let! r := on_pipe (f_pipe ff) (pipewrite k src) in
      match pipewrite_result n (fst r) with
      | Some v => kret v
      | None => ksleep (f_pipe ff + nwrite_chan)
      end
  | FD_INODE =>
      let! i := filewrite_loop (Z.to_nat n) f (f_ip ff) src 0 n in
      kret (if i =? n then n else -1)
  | FD_NONE => kpanic "filewrite"
  end.

(** kalloc: the contents of the page are what they were. *)
Definition page_alloc : K S (option Z) :=
  let! l := kget fd_pages in
  match l with
  | [] => kret None
  | p :: l' => kmodify (set_pages l') ;; kret (Some p)
  end.

(** pipealloc; [junk] is what the data of the pipe holds before the first write. *)
Definition pipealloc (junk : list Z) : K S (Z * option (nat * nat)) :=
  let! f0 := filealloc in
  match f0 with
  | None => kret (-1, None)
  | Some f0 =>
      let! f1 := filealloc in
      match f1 with
      | None => fileclose f0 ;; kret (-1, None)
      | Some f1 =>
          let! p := page_alloc in
          match p with
          | None => fileclose f0 ;; fileclose f1 ;; kret (-1, None)
          | Some p =>
              kmodify (fun s => set_pipes (<[p := pipe_init junk]> (fd_pipes s)) s) ;;
              upd_file f0 (set_ftype FD_PIPE) ;; upd_file f0 (set_fmode true false) ;; upd_file f0 (set_fpipe p) ;;
              upd_file f1 (set_ftype FD_PIPE) ;; upd_file f1 (set_fmode false true) ;; upd_file f1 (set_fpipe p) ;;
              kret (0, Some (f0, f1))
          end
      end
  end.
End file.
