(* ===== verification/Syscall.v ===== *)
(** * System call arguments and dispatch (syscall.c)

    The arguments of a system call lie on the user stack: the kernel reads them from
    the caller's memory, which [u_mem] is as the kernel sees it at user addresses. *)

From S2P Require Import Prelude Layout Mem.

(** What syscall.c reads of the current process. *)
Record uproc := UProc {
  u_sz : Z;      (* curproc->sz *)
  u_esp : Z;     (* curproc->tf->esp *)
  u_mem : mem
}.

(** An int argument that is fetched, or None for the result -1. *)
Definition fetchint (u : uproc) (addr : Z) : option Z :=
  if (u_sz u <=? addr) || (u_sz u <? u32 (addr + 4)) then None
  else Some (s32 (load32 (u_mem u) addr)).

(** The loop of fetchstr from [s] on, over the [k] bytes below [ep]. *)
Fixpoint fetchstr_loop (k : nat) (m : mem) (s p : Z) : option Z :=
  match k with
  | O => None
  | Datatypes.S k' => if m s =? 0 then Some (s - p) else fetchstr_loop k' m (s + 1) p
  end.

(** fetchstr; it answers the length. *)
Definition fetchstr (u : uproc) (addr : Z) : option Z :=
  if u_sz u <=? addr then None
  else fetchstr_loop (Z.to_nat (u_sz u - addr)) (u_mem u) addr addr.

Definition argint (u : uproc) (n : Z) : option Z := fetchint u (u32 (u_esp u + 4 + 4 * n)).

Definition argptr (u : uproc) (n size : Z) : option Z :=
  match argint u n with
  | None => None
  | Some i =>
      if (size <? 0) || (u_sz u <=? u32 i) || (u_sz u <? u32 (u32 i + size)) then None
      else Some (u32 i)
  end.

(** argstr; it answers the address and the length. *)
Definition argstr (u : uproc) (n : Z) : option (Z * Z) :=
  match argint u n with
  | None => None
  | Some addr => match fetchstr u (u32 addr) with Some len => Some (u32 addr, len) | None => None end
  end.

(** The bytes of the user's memory at [p]. *)
Definition ubytes (u : uproc) (p : Z) (n : nat) : list Z := (fun k => u_mem u (p + Z.of_nat k)) <$> seq 0 n.

(** ** Dispatch *)

Inductive sysno :=
| SYS_fork | SYS_exit | SYS_wait | SYS_pipe | SYS_read | SYS_kill | SYS_exec | SYS_fstat | SYS_chdir | SYS_dup
| SYS_getpid | SYS_sbrk | SYS_sleep | SYS_uptime | SYS_open | SYS_write | SYS_mknod | SYS_unlink | SYS_link
| SYS_mkdir | SYS_close | SYS_dump | SYS_ps | SYS_thread_create | SYS_thread_join | SYS_thread_exit
| SYS_mysleep | SYS_mywakeup.
#[export] Instance sysno_eq_dec : EqDecision sysno.
Proof. solve_decision. Defined.

(** The table, from entry 0 on; entry 0 is empty. *)
Definition syscalls : list (option sysno) :=
  [None; Some SYS_fork; Some SYS_exit; Some SYS_wait; Some SYS_pipe; Some SYS_read; Some SYS_kill; Some SYS_exec;
   Some SYS_fstat; Some SYS_chdir; Some SYS_dup; Some SYS_getpid; Some SYS_sbrk; Some SYS_sleep; Some SYS_uptime;
   Some SYS_open; Some SYS_write; Some SYS_mknod; Some SYS_unlink; Some SYS_link; Some SYS_mkdir; Some SYS_close;
   Some SYS_dump; Some SYS_ps; Some SYS_thread_create; Some SYS_thread_join; Some SYS_thread_exit;
   Some SYS_mysleep; Some SYS_mywakeup].

(** syscall, for a state with the register eax of the caller's trap frame and the
    routines of the table. *)
Section dispatch.
Context {S : Type} (get_eax : S -> Z) (set_eax : Z -> S -> S) (sys : sysno -> K S Z).

Definition syscall : K S unit :=
  let! eax := kget get_eax in
  let num := s32 eax in
  match (if (0 <? num) && (num <? Z.of_nat (length syscalls)) then nth (Z.to_nat num) syscalls None else None) with
  | Some call => let! r := sys call in kmodify (set_eax (u32 r))
  | None => kmodify (set_eax (u32 (-1)))
  end.
End dispatch.

(** ** The arguments lie in the caller's memory *)

(** The address space of a user process ends below the kernel (allocuvm refuses more). *)
Definition uproc_ok (u : uproc) : Prop := 0 <= u_sz u <= KERNBASE /\ mem_ok (u_mem u).

Lemma fetchint_iff u addr v : uproc_ok u -> 0 <= addr < 4294967296 ->
  fetchint u addr = Some v <-> addr + 4 <= u_sz u /\ v = s32 (load32 (u_mem u) addr).
Proof.
  intros [Hs _] Ha. unfold KERNBASE in Hs. unfold fetchint. destruct (Z.leb_spec (u_sz u) addr); cbn [orb].
  - split; [done|lia].
  - rewrite u32_small by lia. destruct (Z.ltb_spec (u_sz u) (addr + 4)); split; intros E; try done; [lia| |].
    + injection E as <-. split; [lia|done].
    + by destruct E as [_ ->].
Qed.

Lemma argint_iff u n v : uproc_ok u ->
  argint u n = Some v <-> u32 (u_esp u + 4 + 4 * n) + 4 <= u_sz u /\ v = s32 (load32 (u_mem u) (u32 (u_esp u + 4 + 4 * n))).
Proof. intros Hu. apply fetchint_iff; [done|apply u32_range]. Qed.

Lemma argptr_iff u n size p : uproc_ok u -> -2147483648 <= size < 2147483648 ->
  argptr u n size = Some p <->
  u32 (u_esp u + 4 + 4 * n) + 4 <= u_sz u /\ p = load32 (u_mem u) (u32 (u_esp u + 4 + 4 * n)) /\
  0 <= size /\ p < u_sz u /\ p + size <= u_sz u.
Proof.
  intros Hu Hz. pose proof (argint_iff u n) as Ha. unfold argptr. set (a := u32 (u_esp u + 4 + 4 * n)) in *.
  pose proof (load32_range (u_mem u) a (proj2 Hu)) as Hr. assert (Hk : u_sz u <= 2147483648) by apply Hu.
  destruct (argint u n) as [i|] eqn:Ei.
  - destruct (proj1 (Ha i Hu) eq_refl) as [Hi ->]. rewrite u32_s32, (u32_small (load32 _ _)) by done.
    destruct (Z.ltb_spec size 0); cbn [orb]; [split; [done|lia]|]. destruct (Z.leb_spec (u_sz u) (load32 (u_mem u) a)); cbn [orb]; [split; [done|lia]|].
    rewrite u32_small by lia. destruct (Z.ltb_spec (u_sz u) (load32 (u_mem u) a + size)); split; intros E; try done; [lia| |].
    + injection E as <-. lia.
    + by destruct E as (_ & -> & _).
  - split; [done|]. intros (Hi & _). pose proof (proj2 (Ha (s32 (load32 (u_mem u) a)) Hu)) as Hc. naive_solver.
Qed.

Lemma fetchstr_loop_iff k m s p len :
  fetchstr_loop k m s p = Some len <->
  exists l, is_cstr m s l /\ (length l < k)%nat /\ len = s - p + Z.of_nat (length l).
Proof.
  revert s. induction k as [|k IH]; intros s; cbn [fetchstr_loop]; [naive_solver lia|].
  destruct (Z.eqb_spec (m s) 0) as [E|E].
  - split.
    + intros [= <-]. exists []. cbn. split; [done|lia].
    + intros (l & Hl & _ & ->). destruct l as [|c l]; [cbn; f_equal; lia|]. destruct Hl as (? & ? & _). lia.
  - rewrite IH. split.
    + intros (l & Hl & Hk & ->). exists (m s :: l). cbn. split; [done|lia].
    + intros (l & Hl & Hk & ->). destruct l as [|c l]; [done|]. destruct Hl as (_ & _ & Hl). exists l. cbn in Hk |- *. split; [done|lia].
Qed.

Lemma fetchstr_iff u addr len :
  fetchstr u addr = Some len <-> exists l, is_cstr (u_mem u) addr l /\ len = Z.of_nat (length l) /\ addr + len < u_sz u.
Proof.
  unfold fetchstr. destruct (Z.leb_spec (u_sz u) addr) as [H|H].
  - split; [done|]. intros (l & _ & -> & Hl). lia.
  - rewrite fetchstr_loop_iff. split; intros (l & Hl & E); exists l; (split; [done|]); lia.
Qed.

Lemma is_cstr_bytes u p l : is_cstr (u_mem u) p l -> ubytes u p (length l) = l.
Proof.
  unfold ubytes. revert p. induction l as [|c l IH]; intros p; [done|]. cbn [is_cstr length seq]. intros (E & _ & Hl).
  rewrite fmap_cons. f_equal; [by rewrite Z.add_0_r|]. rewrite <- (IH _ Hl) at 2. rewrite <- fmap_S_seq, <- list_fmap_compose.
  apply list_fmap_ext. intros i x _. cbn. f_equal. lia.
Qed.

(** C2: the argument checks admit exactly the buffers and strings inside the caller's
    memory: argptr answers an address if and only if the argument word itself and all
    [size] bytes at that address lie below the process size, and argstr if and only if
    a zero-terminated string lies there completely; the machine additions in the checks
    do not wrap. *)
Theorem user_arguments_confined (u : uproc) (n : Z) : uproc_ok u ->
  (forall size p, -2147483648 <= size < 2147483648 ->
     argptr u n size = Some p <->
     u32 (u_esp u + 4 + 4 * n) + 4 <= u_sz u /\ p = load32 (u_mem u) (u32 (u_esp u + 4 + 4 * n)) /\
     0 <= size /\ p < u_sz u /\ p + size <= u_sz u) /\
  (forall p len, argstr u n = Some (p, len) <->
     u32 (u_esp u + 4 + 4 * n) + 4 <= u_sz u /\ p = load32 (u_mem u) (u32 (u_esp u + 4 + 4 * n)) /\
     is_cstr (u_mem u) p (ubytes u p (Z.to_nat len)) /\ 0 <= len /\ p + len < u_sz u).
Proof.
  intros Hu. split; [intros size p; by apply argptr_iff|]. intros p len. pose proof (argint_iff u n) as Ha. unfold argstr.
  set (a := u32 (u_esp u + 4 + 4 * n)) in *. pose proof (load32_range (u_mem u) a (proj2 Hu)) as Hr.
  destruct (argint u n) as [i|] eqn:Ei.
  - destruct (proj1 (Ha i Hu) eq_refl) as [Hi ->]. rewrite u32_s32, (u32_small (load32 _ _)) by done. pose proof (fetchstr_iff u (load32 (u_mem u) a)) as Hf.
    destruct (fetchstr u (load32 (u_mem u) a)) as [len'|] eqn:Ef.
    + destruct (proj1 (Hf len') eq_refl) as (l & Hl & -> & Hlt). pose proof (is_cstr_bytes u _ l Hl) as Hb. split.
      * intros [= <- <-]. rewrite Nat2Z.id, Hb. split_and!; (done || lia).
      * intros (_ & -> & Hc & Hp & Hlen). f_equal. f_equal. assert (Hex : Some (Z.of_nat (length l)) = Some len); [|by injection Hex].
        rewrite <- Ef. apply fetchstr_iff. eexists. split; [exact Hc|]. unfold ubytes. rewrite length_fmap, length_seq. lia.
    + split; [done|]. intros (_ & -> & Hc & Hp & Hlen). assert (Hex : None = Some len); [|done].
      rewrite <- Ef. apply fetchstr_iff. eexists. split; [exact Hc|]. unfold ubytes. rewrite length_fmap, length_seq. lia.
  - split; [done|]. intros (Hi & _). pose proof (proj2 (Ha (s32 (load32 (u_mem u) a)) Hu)) as Hc. naive_solver.
Qed.

(** The word at 104 points to the string at 200; the process has 4096 bytes. *)
Definition ex_uproc : uproc :=
  UProc 4096 100 (fun a => if a =? 104 then 200 else if a =? 200 then 47 else if a =? 201 then 97 else 0).

Lemma user_arguments_confined_witness :
  argptr ex_uproc 0 3896 = Some 200 /\ argptr ex_uproc 0 3897 = None /\ argstr ex_uproc 0 = Some (200, 2).
Proof.
  assert (Hok : uproc_ok ex_uproc).
  { split; [cbn; unfold KERNBASE; lia|]. intros a. cbn. repeat case_match; lia. }
  destruct (user_arguments_confined ex_uproc 0 Hok) as [Hp Hs]. split_and!.
  - apply Hp; vm_compute; intuition discriminate.
  - destruct (argptr ex_uproc 0 3897) as [p|] eqn:E; [|done]. apply Hp in E; [|lia]. destruct E as (_ & -> & E). vm_compute in E. by destruct E as (_ & _ & []).
  - apply Hs. vm_compute. intuition discriminate.
Defined.
