(* ===== verification/Sysfile.v ===== *)
(** * The file-system calls (sysfile.c)

    The calls of one process: its descriptor table and its memory over the open files,
    the inodes, the log and the pipes.  A call answers the value for the register eax;
    buffers and path names are read from and written to the caller's memory. *)

From S2P Require Import Prelude Layout Mem Pipe Fsdefs Fs FsBlocks File Syscall.

Definition O_RDONLY : Z := 0.
Definition O_WRONLY : Z := 1.
Definition O_RDWR : Z := 2.
Definition O_CREATE : Z := 512.

(** The calling process and the kernel. *)
Record sysstate (B : Type) := SysState {
  sy_fd : fdstate B;
  sy_u : uproc;
  sy_ofile : list (option nat)      (* myproc()->ofile *)
}.
Arguments SysState {B} _ _ _.
Arguments sy_fd {B} _.
Arguments sy_u {B} _.
Arguments sy_ofile {B} _.

Definition store16 (m : mem) (p v : Z) : mem := mset (mset m p (u8 v)) (p + 1) (u8 (v / 256)).

(** An entry that was just allocated becomes an open inode (the end of sys_open). *)
Definition as_inode (ip : nat) (r w : bool) (x : file) : file := set_fmode r w (set_foff 0 (set_fip ip (set_ftype FD_INODE x))).

Section sysfile.
Context `{FsH} {B : Type} `{BlockLayer B} `{TxLayer B}.
Notation S := (sysstate B).
Notation FS := (fsstate B).
Variable dr : Z -> option (nat -> Z -> K FS (Z * list Z)).
Variable dw : Z -> option (nat -> list Z -> Z -> K FS Z).
(** What the arrays [name] on the kernel stack hold before their first use. *)
Variable junk : list Z.

Definition set_fd (v : fdstate B) (s : S) : S := SysState v (sy_u s) (sy_ofile s).
Definition set_u (v : uproc) (s : S) : S := SysState (sy_fd s) v (sy_ofile s).
Definition set_ofiles (v : list (option nat)) (s : S) : S := SysState (sy_fd s) (sy_u s) v.
Definition set_umem (m : mem) (u : uproc) : uproc := UProc (u_sz u) (u_esp u) m.
Definition upd_umem (g : mem -> mem) : K S unit := kmodify (fun s => set_u (set_umem (g (u_mem (sy_u s))) (sy_u s)) s).
Definition set_fcwd (ip : nat) (s : FS) : FS := FsState (ic_lk s) (inodes s) (fs_sb s) (fs_blk s) (fs_pid s) ip (fs_woken s).

Definition fd {A} (c : K (fdstate B) A) : K S A := kzoom sy_fd set_fd c.
Definition fsys {A} (c : K FS A) : K S A := fd (fs c).
Definition begin_op : K S unit := fd begin_tx.
Definition end_op : K S unit := fd end_tx.

(** Read an argument, or return -1. *)
Definition arg {A} (get : uproc -> option A) (k : A -> K S Z) : K S Z :=
  let! o := kget (fun s => get (sy_u s)) in
  match o with Some a => k a | None => kret (-1) end.

(** ** Descriptors *)

Definition argfd (n : Z) (s : S) : option (Z * nat) :=
  match argint (sy_u s) n with
  | None => None
  | Some fd =>
      if (fd <? 0) || (NOFILE <=? fd) then None else
      match nth (Z.to_nat fd) (sy_ofile s) None with
      | Some f => Some (fd, f)
      | None => None
      end
  end.

Definition with_fd (n : Z) (k : Z * nat -> K S Z) : K S Z :=
  let! o := kget (argfd n) in
  match o with Some a => k a | None => kret (-1) end.

Fixpoint find_fd (l : list (option nat)) (k : nat) : option nat :=
  match l with
  | [] => None
  | None :: _ => Some k
  | Some _ :: l' => find_fd l' (Datatypes.S k)
  end.

Definition fdalloc (f : nat) : K S Z :=
  let! l := kget sy_ofile in
  match find_fd l 0 with
  | Some k => kmodify (set_ofiles (<[k := Some f]> l)) ;; kret (Z.of_nat k)
  | None => kret (-1)
  end.

Definition clear_fd (fd : Z) : K S unit := kmodify (fun s => set_ofiles (<[Z.to_nat fd := None]> (sy_ofile s)) s).

Definition sys_dup : K S Z :=
  with_fd 0 (fun '(_, f) =>
    let! fdn := fdalloc f in
    if fdn <? 0 then kret (-1) else
    fd (filedup f) ;;
    kret fdn).

Definition sys_read : K S Z :=
  with_fd 0 (fun '(_, f) =>
    arg (fun u => argint u 2) (fun n =>
    arg (fun u => argptr u 1 n) (fun p =>
    let! r := fd (fileread dr f n) in
    upd_umem (fun m => store_bytes m p (snd r)) ;;
    kret (fst r)))).

Definition sys_write : K S Z :=
  with_fd 0 (fun '(_, f) =>
    arg (fun u => argint u 2) (fun n =>
    arg (fun u => argptr u 1 n) (fun p =>
    let! src := kget (fun s => ubytes (sy_u s) p (Z.to_nat n)) in
    fd (filewrite dw f src n)))).

Definition sys_close : K S Z :=
  with_fd 0 (fun '(fdn, f) =>
    clear_fd fdn ;;
    fd (fileclose f) ;;
    kret 0).

(** struct stat has its fields at 0, 4, 8, 12 and 16. *)
Definition sizeof_stat : Z := 20.
Definition store_stat (p : Z) (st : stat) (m : mem) : mem :=
  store32 (store16 (store32 (store32 (store16 m p (st_type st)) (p + 4) (st_dev st)) (p + 8) (st_ino st))
    (p + 12) (st_nlink st)) (p + 16) (st_size st).

Definition sys_fstat : K S Z :=
  with_fd 0 (fun '(_, f) =>
    arg (fun u => argptr u 1 sizeof_stat) (fun p =>
    let! r := fd (filestat f) in
    match snd r with
    | Some st => upd_umem (store_stat p st) ;; kret (fst r)
    | None => kret (fst r)
    end)).

(** A path argument. *)
Definition argpath (n : Z) (u : uproc) : option (list Z) :=
  match argstr u n with Some (p, len) => Some (ubytes u p (Z.to_nat len)) | None => None end.

(** ** Links *)

Definition add_nlink (d : Z) (i : inode) : inode := set_nlink (s16 (i_nlink i + d)) i.

(** From the label bad of sys_link. *)
Definition link_bad (ip : nat) : K S Z :=
  fsys (ilock ip) ;;
  fsys (upd_inode ip (add_nlink (-1))) ;;
  fsys (iupdate ip) ;;
  fsys (iunlockput ip) ;;
  end_op ;;
  kret (-1).

Definition sys_link : K S Z :=
  arg (argpath 0) (fun old =>
  arg (argpath 1) (fun new =>
  begin_op ;;
  let! r := fsys (namei dr old junk) in
  match r with
  | None => end_op ;; kret (-1)
  | Some ip =>
      fsys (ilock ip) ;;
      let! t := fsys (iget_field ip i_type) in
      if t =? T_DIR then fsys (iunlockput ip) ;; end_op ;; kret (-1) else
      fsys (upd_inode ip (add_nlink 1)) ;;
      fsys (iupdate ip) ;;
      fsys (iunlock ip) ;;
      let! r := fsys (nameiparent dr new junk) in
      match r with
      | None => link_bad ip
      | Some (dp, name) =>
          fsys (ilock dp) ;;
          let! ddev := fsys (iget_field dp i_dev) in
          let! idev := fsys (iget_field ip i_dev) in
          let! inum := fsys (iget_field ip i_inum) in
          let! bad := (if negb (ddev =? idev) then kret true
                       else let! v := fsys (dirlink dr dw dp name inum) in kret (v <? 0)) in
          if bad : bool then fsys (iunlockput dp) ;; link_bad ip else
          fsys (iunlockput dp) ;;
          fsys (iput ip) ;;
          end_op ;;
          kret 0
      end
  end)).

Definition isdirempty (dp : nat) : K FS bool :=
  let! size := iget_field dp i_size in
  let! r := kfor (dir_entries size - 2) 2 (fun k =>
    let! de := read_dirent dr dp (k * sizeof_dirent) "isdirempty: readi" in
    kret (if negb (de_inum de =? 0) then Some tt else None)) in
  kret (match r with Some _ => false | None => true end).

(** From the label bad of sys_unlink. *)
Definition unlink_bad (dp : nat) : K S Z := fsys (iunlockput dp) ;; end_op ;; kret (-1).

Definition dot : list Z := [46; 0].
Definition dotdot : list Z := [46; 46; 0].

Definition sys_unlink : K S Z :=
  arg (argpath 0) (fun path =>
  begin_op ;;
  let! r := fsys (nameiparent dr path junk) in
  match r with
  | None => end_op ;; kret (-1)
  | Some (dp, name) =>
      fsys (ilock dp) ;;
      if (namecmp name dot =? 0) || (namecmp name dotdot =? 0) then unlink_bad dp else
      let! r := fsys (dirlookup dr dp name) in
      match r with
      | None => unlink_bad dp
      | Some (ip, off) =>
          fsys (ilock ip) ;;
          let! nlink := fsys (iget_field ip i_nlink) in
          if nlink <? 1 then kpanic "unlink: nlink < 1" else
          let! t := fsys (iget_field ip i_type) in
          let! full := (if t =? T_DIR then let! e := fsys (isdirempty ip) in kret (negb e) else kret false) in
          if full : bool then fsys (iunlockput ip) ;; unlink_bad dp else
          let! w := fsys (writei dw dp (replicate (Z.to_nat sizeof_dirent) 0) off sizeof_dirent) in
          if negb (w =? sizeof_dirent) then kpanic "unlink: writei" else
          (if t =? T_DIR then fsys (upd_inode dp (add_nlink (-1))) ;; fsys (iupdate dp) else kret tt) ;;
          fsys (iunlockput dp) ;;
          fsys (upd_inode ip (add_nlink (-1))) ;;
          fsys (iupdate ip) ;;
          fsys (iunlockput ip) ;;
          end_op ;;
          kret 0
      end
  end).

(** ** Creation *)

(** The entries "." and ".." of a new directory. *)
Definition make_dots (ip dp : nat) : K FS unit :=
  upd_inode dp (add_nlink 1) ;;
  iupdate dp ;;
  let! inum := iget_field ip i_inum in
  let! v := dirlink dr dw ip dot inum in
  if v <? 0 then kpanic "create dots" else
  let! dnum := iget_field dp i_inum in
  let! v := dirlink dr dw ip dotdot dnum in
  if v <? 0 then kpanic "create dots" else kret tt.

Definition create (path : list Z) (type major minor : Z) : K FS (option nat) :=
  let! r := nameiparent dr path junk in
  match r with
  | None => kret None
  | Some (dp, name) =>
      ilock dp ;;
      let! r := dirlookup dr dp name in
      match r with
      | Some (ip, _) =>
          iunlockput dp ;;
          ilock ip ;;
          let! t := iget_field ip i_type in
          if (type =? T_FILE) && (t =? T_FILE) then kret (Some ip) else
          iunlockput ip ;;
          kret None
      | None =>
          let! dev := iget_field dp i_dev in
          let! ip := ialloc dev type in
          ilock ip ;;
          upd_inode ip (set_devnums (s16 major) (s16 minor)) ;;
          upd_inode ip (set_nlink 1) ;;
          iupdate ip ;;
          (if type =? T_DIR then make_dots ip dp else kret tt) ;;
          let! inum := iget_field ip i_inum in
          let! v := dirlink dr dw dp name inum in
          if v <? 0 then kpanic "create: dirlink" else
          iunlockput dp ;;
          kret (Some ip)
      end
  end.

(** The inode sys_open opens, locked. *)
Definition open_inode (path : list Z) (omode : Z) : K FS (option nat) :=
  if truth (Z.land omode O_CREATE) then create path T_FILE 0 0 else
  let! r := namei dr path junk in
  match r with
  | None => kret None
  | Some ip =>
      ilock ip ;;
      let! t := iget_field ip i_type in
      if (t =? T_DIR) && negb (omode =? O_RDONLY) then iunlockput ip ;; kret None else kret (Some ip)
  end.

Definition sys_open : K S Z :=
  arg (argpath 0) (fun path =>
  arg (fun u => argint u 1) (fun omode =>
  begin_op ;;
  let! r := fsys (open_inode path omode) in
  match r with
  | None => end_op ;; kret (-1)
  | Some ip =>
      let! f := fd filealloc in
      match f with
      | None => fsys (iunlockput ip) ;; end_op ;; kret (-1)
      | Some f =>
          let! fdn := fdalloc f in
          if fdn <? 0 then fd (fileclose f) ;; fsys (iunlockput ip) ;; end_op ;; kret (-1) else
          fsys (iunlock ip) ;;
          end_op ;;
          fd (upd_file f (as_inode ip (negb (truth (Z.land omode O_WRONLY)))
            (truth (Z.land omode O_WRONLY) || truth (Z.land omode O_RDWR)))) ;;
          kret fdn
      end
  end)).

(** sys_mkdir and sys_mknod begin their transaction before they look at the arguments. *)
Definition make_node (args : uproc -> option (list Z * Z * Z)) (type : Z) : K S Z :=
  begin_op ;;
  let! a := kget (fun s => args (sy_u s)) in
  let! r := match a with
            | None => kret None
            | Some (path, major, minor) => fsys (create path type major minor)
            end in
  match r with
  | None => end_op ;; kret (-1)
  | Some ip => fsys (iunlockput ip) ;; end_op ;; kret 0
  end.

Definition sys_mkdir : K S Z :=
  make_node (fun u => match argpath 0 u with Some path => Some (path, 0, 0) | None => None end) T_DIR.

Definition sys_mknod : K S Z :=
  make_node (fun u => match argpath 0 u, argint u 1, argint u 2 with
                      | Some path, Some major, Some minor => Some (path, major, minor)
                      | _, _, _ => None
                      end) T_DEV.

Definition sys_chdir : K S Z :=
  begin_op ;;
  let! a := kget (fun s => argpath 0 (sy_u s)) in
  let! r := match a with None => kret None | Some path => fsys (namei dr path junk) end in
  match r with
  | None => end_op ;; kret (-1)
  | Some ip =>
      fsys (ilock ip) ;;
      let! t := fsys (iget_field ip i_type) in
      if negb (t =? T_DIR) then fsys (iunlockput ip) ;; end_op ;; kret (-1) else
      fsys (iunlock ip) ;;
      let! cwd := fsys (kget fs_cwd) in
      fsys (iput cwd) ;;
      end_op ;;
      fsys (kmodify (set_fcwd ip)) ;;
      kret 0
  end.

(** ** exec and pipe *)

(** The loop of sys_exec, for the entries of argv that remain. *)
Fixpoint exec_args (k : nat) (u : uproc) (uargv i : Z) : option (list (list Z)) :=
  match k with
  | O => None
  | Datatypes.S k' =>
      match fetchint u (u32 (uargv + 4 * i)) with
      | None => None
      | Some uarg =>
          if uarg =? 0 then Some [] else
          match fetchstr u (u32 uarg) with
          | None => None
          | Some len =>
              match exec_args k' u uargv (i + 1) with
              | None => None
              | Some l => Some (ubytes u (u32 uarg) (Z.to_nat len) :: l)
              end
          end
      end
  end.

(** sys_exec, for the routine of exec.c. *)
Definition sys_exec (exec : list Z -> list (list Z) -> K S Z) : K S Z :=
  arg (argpath 0) (fun path =>
  arg (fun u => argint u 1) (fun uargv =>
  arg (fun u => exec_args (Z.to_nat MAXARG) u (u32 uargv) 0) (fun argv =>
  exec path argv))).

(** The contents of a new pipe's page are [page]. *)
Definition sys_pipe (page : list Z) : K S Z :=
  arg (fun u => argptr u 0 8) (fun p =>
  let! r := fd (pipealloc page) in
  match snd r with
  | None => kret (-1)
  | Some (rf, wf) =>
      let! fd0 := fdalloc rf in
      if fd0 <? 0 then fd (fileclose rf) ;; fd (fileclose wf) ;; kret (-1) else
      let! fd1 := fdalloc wf in
      if fd1 <? 0 then
        clear_fd fd0 ;; fd (fileclose rf) ;; fd (fileclose wf) ;; kret (-1)
      else
        upd_umem (fun m => store32 m p fd0) ;;
        upd_umem (fun m => store32 m (p + 4) fd1) ;;
        kret 0
  end).
End sysfile.
