(* ===== verification/FileTable.v ===== *)
(** * The table of open files and the lifetime of pipes (file.c, pipe.c)

    In every sequence of filealloc, filedup, fileclose, pipealloc, fileread and
    filewrite calls the reference counts are exact, an open pipe descriptor always
    leads to an allocated pipe, and a pipe without open descriptors is freed. *)

From S2P Require Import Prelude Layout Sleeplock Pipe Fsdefs Fs FsBlocks FsIcache File Syscall Sysfile.

(** ** The calls on a pipe keep its lock and its open ends *)

Definition same_ends (p p' : pipe) : Prop :=
  p_lk p' = false /\ p_readopen p' = p_readopen p /\ p_writeopen p' = p_writeopen p.

Lemma pipewrite_copy_ends killed l : forall p, p_lk p = true ->
  wlp (pipewrite_copy killed l) p (fun r p' => p_readopen p' = p_readopen p /\ p_writeopen p' = p_writeopen p /\
    p_lk p' = match r.1 with WAll => true | _ => false end) (fun _ => False).
Proof.
  induction l as [|c l IH]; intros p Hp; cbn [pipewrite_copy]; [by apply wlp_ret|].
  apply wlp_bind, wlp_get. unfold id. destruct (_ =? _); [destruct (_ || _)|].
  - unfold p_release. apply wlp_bind, wlp_bind, wlp_get. rewrite Hp. by apply wlp_modify, wlp_ret.
  - apply wlp_bind, wlp_modify. unfold p_release. apply wlp_bind, wlp_bind, wlp_get. cbn. rewrite Hp. by apply wlp_modify, wlp_ret.
  - apply wlp_bind, wlp_modify. by apply (IH (p_put c p)).
Qed.

Lemma pipewrite_ends killed l p : p_lk p = false ->
  wlp (pipewrite killed l) p (fun _ p' => same_ends p p') (fun _ => False).
Proof.
  intros Hp. unfold pipewrite, p_acquire. apply wlp_bind, wlp_bind, wlp_get. rewrite Hp. apply wlp_modify, wlp_bind.
  eapply wlp_mono; [by apply pipewrite_copy_ends| |done]. intros [[] rest] p' (E1 & E2 & E3); cbn in E1, E2, E3.
  - apply wlp_bind, wlp_modify. unfold p_release. apply wlp_bind, wlp_bind, wlp_get. cbn [p_lk p_wakeup]. rewrite E3. apply wlp_modify, wlp_ret. split; [done|]. by cbn.
  - apply wlp_ret. split; [done|]. by cbn.
  - apply wlp_ret. split; [done|]. by cbn.
Qed.

Lemma piperead_copy_ends n : forall p, wlp (piperead_copy n) p (fun _ p' =>
  p_readopen p' = p_readopen p /\ p_writeopen p' = p_writeopen p /\ p_lk p' = p_lk p) (fun _ => False).
Proof.
  induction n as [|n IH]; intros p; cbn [piperead_copy]; [by apply wlp_ret|].
  apply wlp_bind, wlp_get. unfold id. destruct (_ =? _); [by apply wlp_ret|]. apply wlp_bind, wlp_modify, wlp_bind.
  eapply wlp_mono; [apply IH| |done]. intros l p' E. by apply wlp_ret.
Qed.

Lemma piperead_ends killed n p : p_lk p = false ->
  wlp (piperead killed n) p (fun _ p' => same_ends p p') (fun _ => False).
Proof.
  intros Hp. unfold piperead, p_acquire. apply wlp_bind, wlp_bind, wlp_get. rewrite Hp. apply wlp_modify, wlp_bind, wlp_get. unfold id.
  destruct (_ && _).
  - destruct killed; unfold p_release; apply wlp_bind, wlp_bind, wlp_get; cbn [p_lk p_set_lk]; apply wlp_modify, wlp_ret; by split.
  - apply wlp_bind. eapply wlp_mono; [apply piperead_copy_ends| |done]. intros l p' (E1 & E2 & E3). cbn in E1, E2, E3.
    apply wlp_bind, wlp_modify. unfold p_release. apply wlp_bind, wlp_bind, wlp_get. cbn [p_lk p_wakeup]. rewrite E3. apply wlp_modify, wlp_ret. split; [done|]. by cbn.
Qed.

(** Which end a descriptor is. *)
Definition end_open (w : bool) (p : pipe) : Z := if w then p_writeopen p else p_readopen p.

Lemma pipeclose_eq w p : p_lk p = false -> exists p',
  pipeclose w p = Ret (end_open (negb w) p =? 0) p' /\
  p_lk p' = false /\ end_open w p' = 0 /\ end_open (negb w) p' = end_open (negb w) p.
Proof.
  intros Hp. unfold pipeclose, p_acquire, p_release, kbind, kget, kmodify, kret, id. rewrite Hp. destruct w; cbn.
  - rewrite andb_true_r. destruct (p_readopen p =? 0); (eexists; split; [reflexivity|done]).
  - destruct (p_writeopen p =? 0); (eexists; split; [reflexivity|done]).
Qed.

Section table.
Context `{FsH} {B : Type} `{BlockLayer B} `{TxLayer B}.
Notation S := (fdstate B).
Implicit Types k : S.

(** An open descriptor of a pipe. *)
Definition open_end k (f : nat) (p : Z) (w : bool) : Prop :=
  0 < f_ref (file_at k f) /\ f_type (file_at k f) = FD_PIPE /\ f_pipe (file_at k f) = p /\ f_writable (file_at k f) = w.

Record ft_inv (k : S) (h : list nat) : Prop := {
  fi_lk : ft_lk k = false;
  fi_len : forall f, f ∈ h -> (f < length (files k))%nat;
  fi_ref : forall f, (f < length (files k))%nat -> f_ref (file_at k f) = held f h;
  fi_free : forall f, f_ref (file_at k f) = 0 -> f_type (file_at k f) = FD_NONE;
  fi_pipe : forall f p w, open_end k f p w -> exists pp, fd_pipes k !! p = Some pp /\ end_open w pp = 1;
  fi_end : forall f g p w, open_end k f p w -> open_end k g p w -> f = g;
  fi_live : forall p pp, fd_pipes k !! p = Some pp -> p_lk pp = false /\ (exists w, end_open w pp = 1) /\
    forall w, end_open w pp = 0 \/ end_open w pp = 1 /\ exists f, open_end k f p w;
  fi_pages : NoDup (fd_pages k) /\ forall p, p ∈ fd_pages k -> fd_pipes k !! p = None
}.

Lemma file_at_alter g f k (l : list file) : files k = alter g f l -> (f < length l)%nat -> file_at k f = g (nth f l null_file).
Proof. intros E Hf. unfold file_at. rewrite E. by apply nth_alter_eq. Qed.
Lemma file_at_ne g f j k (l : list file) : files k = alter g f l -> j <> f -> file_at k j = nth j l null_file.
Proof. intros E Hj. unfold file_at. rewrite E. by apply nth_alter_ne. Qed.

Lemma file_at_beyond k f : ~ (f < length (files k))%nat -> file_at k f = null_file.
Proof. intros Hf. unfold file_at. apply nth_overflow. lia. Qed.

Lemma open_end_lt k f p w : open_end k f p w -> (f < length (files k))%nat.
Proof. intros [Hr _]. destruct (decide (f < length (files k))%nat); [done|]. rewrite file_at_beyond in Hr by done. cbn in Hr. lia. Qed.

(** A change of one entry that keeps what the invariant is about, and moves its count. *)
Lemma inv_upd k k' h h' f g :
  ft_inv k h -> (f < length (files k))%nat -> files k' = alter g f (files k) -> ft_lk k' = false ->
  fd_pipes k' = fd_pipes k -> fd_pages k' = fd_pages k ->
  (forall x, f_type (g x) = f_type x /\ f_pipe (g x) = f_pipe x /\ f_writable (g x) = f_writable x) ->
  (forall j, j ∈ h' -> j ∈ h \/ j = f) ->
  (forall j, held j h' = held j h + if decide (j = f) then f_ref (g (file_at k f)) - f_ref (file_at k f) else 0) ->
  (0 < f_ref (file_at k f) \/ f_type (file_at k f) = FD_NONE) -> (0 < f_ref (g (file_at k f))) ->
  ft_inv k' h'.
Proof.
  intros [I1 I2 I3 I4 I5 I6 I7 I8] Hf Ef El Ep Ea Hg Hsub Hh Hpos Hpos'.
  assert (Hat : forall j, file_at k' j = if decide (j = f) then g (file_at k f) else file_at k j).
  { intros j. destruct (decide (j = f)) as [->|Hj]; [exact (file_at_alter g f k' (files k) Ef Hf)|exact (file_at_ne g f j k' (files k) Ef Hj)]. }
  assert (Hend : forall j p w, open_end k' j p w <-> open_end k j p w).
  { intros j p w. unfold open_end. rewrite Hat. destruct (decide (j = f)) as [->|]; [|done]. destruct (Hg (file_at k f)) as (-> & -> & ->).
    destruct Hpos as [Hp|Hp]; [naive_solver|]. rewrite Hp. naive_solver. }
  assert (Hlen : length (files k') = length (files k)) by (rewrite Ef; apply length_alter).
  constructor; rewrite ?Ep, ?Ea; try done.
  - intros j Hj. rewrite Hlen. destruct (Hsub j Hj) as [?| ->]; [by apply I2|done].
  - intros j Hj. rewrite Hat, Hh. rewrite Hlen in Hj. rewrite <- (I3 j Hj). destruct (decide (j = f)) as [->|]; lia.
  - intros j. rewrite Hat. destruct (decide (j = f)) as [->|]; [lia|apply I4].
  - intros j p w Hj. apply Hend in Hj. by eapply I5.
  - intros j g' p w Hj Hg'. apply Hend in Hj, Hg'. by eapply I6.
  - intros p pp Hp. destruct (I7 p pp Hp) as (L1 & L2 & L3). split; [done|]. split; [done|]. intros w.
    destruct (L3 w) as [?|[? [j Hj]]]; [by left|right]. split; [done|]. exists j. by apply Hend.
Qed.

(** ** Each call *)

Lemma find_file_spec l n :
  match find_file l n with
  | Some f => (n <= f)%nat /\ (f - n < length l)%nat /\ f_ref (nth (f - n) l null_file) = 0
  | None => forall f, (f < length l)%nat -> f_ref (nth f l null_file) <> 0
  end.
Proof.
  revert n. induction l as [|x l IH]; intros n; cbn [find_file]; [intros f Hf; cbn in Hf; lia|].
  destruct (Z.eqb_spec (f_ref x) 0) as [E|E]; [rewrite Nat.sub_diag; cbn; lia|].
  specialize (IH (Datatypes.S n)). destruct (find_file l (Datatypes.S n)) as [f|].
  - destruct IH as (H1' & H2' & H3'). replace (f - n)%nat with (Datatypes.S (f - Datatypes.S n)) by lia. cbn. split; [lia|]. split; [lia|done].
  - intros [|f] Hf; cbn in *; [done|]. apply IH. lia.
Qed.

Lemma filealloc_cases k r k' : filealloc k = Ret r k' -> ft_lk k = false ->
  match r with
  | Some f => (f < length (files k))%nat /\ f_ref (file_at k f) = 0 /\ k' = set_files (alter (set_fref 1) f (files k)) k
  | None => k' = k
  end.
Proof.
  intros E Hl. unfold filealloc, ft_acquire, ft_release, upd_file, kbind, kget, kmodify, kret in E. rewrite Hl in E. cbn in E.
  pose proof (find_file_spec (files k) 0) as Hs. destruct (find_file (files k) 0) as [f|]; cbn in E; injection E as <- <-.
  - rewrite Nat.sub_0_r in Hs. split; [apply Hs|]. split; [apply Hs|]. unfold set_files, set_ft_lk. cbn. by rewrite Hl.
  - unfold set_ft_lk. destruct k; cbn in *. by subst.
Qed.

Lemma alloc_inv k h f k' : ft_inv k h -> filealloc k = Ret (Some f) k' -> ft_inv k' (f :: h).
Proof.
  intros I E. pose proof (filealloc_cases k _ k' E (fi_lk k h I)) as (Hf & Hr & ->).
  eapply (inv_upd k _ h (f :: h) f (set_fref 1)); try done.
  - apply I.
  - intros j [->|Hj]%elem_of_cons; [by right|by left].
  - intros j. rewrite held_cons. rewrite Hr. cbn. case_decide; lia.
  - right. by apply I.
Qed.

Lemma dup_inv k h f f' k' : ft_inv k h -> f ∈ h -> filedup f k = Ret f' k' -> ft_inv k' (f' :: h).
Proof.
  intros I Hin E. unfold filedup, ft_acquire, ft_release, upd_file, kbind, kget, kmodify, kret in E. rewrite (fi_lk k h I) in E. cbn in E.
  fold (file_at k f) in E. change (file_at (set_ft_lk true k) f) with (file_at k f) in E.
  destruct (Z.ltb_spec (f_ref (file_at k f)) 1); [done|]. injection E as <- <-.
  eapply (inv_upd k _ h (f :: h) f (fun x => set_fref (f_ref x + 1) x)); try done.
  - by apply I.
  - intros j [->|Hj]%elem_of_cons; [by right|by left].
  - intros j. rewrite held_cons. cbn. case_decide; lia.
  - left. lia.
  - cbn. lia.
Qed.

(** The parts of the invariant that the end of an entry does not touch. *)
Definition clear (x : file) : file := set_ftype FD_NONE (set_fref 0 x).

Section clear.
Context (k k' : S) (h : list nat) (f : nat).
Hypothesis I : ft_inv k h.
Hypothesis Hin : f ∈ h.
Hypothesis Hone : f_ref (file_at k f) = 1.
Hypothesis Ef : files k' = alter clear f (files k).
Hypothesis El : ft_lk k' = false.

Lemma cl_at j : file_at k' j = if decide (j = f) then clear (file_at k f) else file_at k j.
Proof.
  destruct (decide (j = f)) as [->|Hj]; [|exact (file_at_ne clear f j k' (files k) Ef Hj)].
  exact (file_at_alter clear f k' (files k) Ef (fi_len k h I f Hin)).
Qed.

Lemma cl_end j p w : open_end k' j p w <-> open_end k j p w /\ j <> f.
Proof.
  unfold open_end. rewrite cl_at. destruct (decide (j = f)) as [->|Hj]; [cbn; naive_solver lia|naive_solver].
Qed.

(** What remains to be shown of the pipes. *)
Lemma clear_inv :
  (forall j p w, open_end k j p w -> j <> f -> exists pp, fd_pipes k' !! p = Some pp /\ end_open w pp = 1) ->
  (forall p pp, fd_pipes k' !! p = Some pp -> p_lk pp = false /\ (exists w, end_open w pp = 1) /\
    forall w, end_open w pp = 0 \/ end_open w pp = 1 /\ exists j, open_end k j p w /\ j <> f) ->
  NoDup (fd_pages k') /\ (forall p, p ∈ fd_pages k' -> fd_pipes k' !! p = None) ->
  ft_inv k' (drop_one f h).
Proof.
  intros H5 H7 H8. destruct I as [I1 I2 I3 I4 I5 I6 I7 I8]. assert (Hlen : length (files k') = length (files k)) by (rewrite Ef; apply length_alter).
  constructor; try done.
  - intros j Hj. rewrite Hlen. apply I2. by eapply in_drop_one.
  - intros j Hj. rewrite Hlen in Hj. rewrite cl_at, held_drop by done. rewrite <- (I3 j Hj).
    destruct (decide (j = f)) as [->|]; [cbn; lia|lia].
  - intros j. rewrite cl_at. destruct (decide (j = f)) as [->|]; [done|apply I4].
  - intros j p w [Hj Hne]%cl_end. by apply (H5 j).
  - intros j g p w [Hj _]%cl_end [Hg _]%cl_end. by eapply I6.
  - intros p pp Hp. destruct (H7 p pp Hp) as (L1 & L2 & L3). split; [done|]. split; [done|]. intros w.
    destruct (L3 w) as [?|[? [j Hj]]]; [by left|right]. split; [done|]. exists j. by apply cl_end.
Qed.

(** The entry was not a pipe. *)
Lemma clear_other : f_type (file_at k f) <> FD_PIPE -> fd_pipes k' = fd_pipes k -> fd_pages k' = fd_pages k -> ft_inv k' (drop_one f h).
Proof.
  intros Ht Ep Ea. assert (Hne : forall j p w, open_end k j p w -> j <> f) by (intros j p w (_ & E & _) ->; done).
  apply clear_inv; rewrite ?Ep, ?Ea.
  - intros j p w Hj _. by apply (fi_pipe k h I j).
  - intros p pp Hp. destruct (fi_live k h I p pp Hp) as (L1 & L2 & L3). split; [done|]. split; [done|]. intros w.
    destruct (L3 w) as [?|[? [j Hj]]]; [by left|right]. split; [done|]. exists j. split; [done|by eapply Hne].
  - apply I.
Qed.

(** The entry was an end of a pipe. *)
Lemma clear_pipe pp pp' :
  let p := f_pipe (file_at k f) in let w := f_writable (file_at k f) in
  f_type (file_at k f) = FD_PIPE -> fd_pipes k !! p = Some pp ->
  p_lk pp' = false -> end_open w pp' = 0 -> end_open (negb w) pp' = end_open (negb w) pp ->
  (if end_open (negb w) pp =? 0 then fd_pipes k' = delete p (fd_pipes k) /\ fd_pages k' = p :: fd_pages k
   else fd_pipes k' = <[p := pp']> (fd_pipes k) /\ fd_pages k' = fd_pages k) ->
  ft_inv k' (drop_one f h).
Proof.
  intros p w Ht Hp Hlk Hz0 Hz1 Hcase. destruct (fi_pages k h I) as [Hnd Hpg].
  assert (Hof : open_end k f p w) by (split_and!; try done; lia).
  destruct (fi_live k h I p pp Hp) as (L1 & L2 & L3).
  assert (Hsame : forall j w', open_end k j p w' -> j <> f -> w' = negb w).
  { intros j w' Hj Hne. destruct (decide (w' = w)) as [->|Hw]; [destruct Hne; by eapply (fi_end k h I)|]. destruct w, w'; done. }
  destruct (Z.eqb_spec (end_open (negb w) pp) 0) as [E0|E0]; destruct Hcase as [Ep Ea].
  - assert (Hno : forall j p' w', open_end k j p' w' -> j <> f -> p' <> p).
    { intros j p' w' Hj Hne ->. pose proof (Hsame j w' Hj Hne) as ->.
      destruct (fi_pipe k h I j p (negb w) Hj) as (pp2 & Hp2 & Ho). rewrite Hp in Hp2. injection Hp2 as <-. lia. }
    apply clear_inv; rewrite ?Ep, ?Ea.
    + intros j p' w' Hj Hne. rewrite lookup_delete_ne by (by apply not_eq_sym, (Hno j p' w')). by apply (fi_pipe k h I j).
    + intros p' pp2 Hp2. destruct (decide (p' = p)) as [->|Hpp]; [by rewrite lookup_delete_eq in Hp2|].
      rewrite lookup_delete_ne in Hp2 by done. destruct (fi_live k h I p' pp2 Hp2) as (M1 & M2 & M3). split; [done|]. split; [done|].
      intros w'. destruct (M3 w') as [?|[? [j Hj]]]; [by left|right]. split; [done|]. exists j. split; [done|].
      intros ->. destruct Hj as (_ & _ & Hj & _). done.
    + split; [constructor; [|done]|].
      * intros Hpi. rewrite (Hpg p Hpi) in Hp. done.
      * intros p' [->|Hp']%elem_of_cons; [by apply lookup_delete_eq|]. destruct (decide (p' = p)) as [->|]; [by apply lookup_delete_eq|].
        rewrite lookup_delete_ne by done. by apply Hpg.
  - assert (E1 : end_open (negb w) pp = 1) by (destruct (L3 (negb w)) as [?|[? _]]; done).
    apply clear_inv; rewrite ?Ep, ?Ea.
    + intros j p' w' Hj Hne. destruct (decide (p' = p)) as [->|Hpp].
      * rewrite lookup_insert_eq. exists pp'. split; [done|]. rewrite (Hsame j w' Hj Hne). congruence.
      * rewrite lookup_insert_ne by done. by apply (fi_pipe k h I j).
    + intros p' pp2 Hp2. destruct (decide (p' = p)) as [->|Hpp].
      * rewrite lookup_insert_eq in Hp2. injection Hp2 as <-. split; [done|]. split; [exists (negb w); congruence|].
        intros w'. destruct (decide (w' = w)) as [->|Hw]; [by left|]. right. assert (w' = negb w) as -> by (destruct w, w'; done).
        split; [congruence|]. destruct (L3 (negb w)) as [?|[_ [j Hj]]]; [lia|]. exists j. split; [done|].
        intros ->. destruct Hj as (_ & _ & _ & Hj). fold w in Hj. by destruct w.
      * rewrite lookup_insert_ne in Hp2 by done. destruct (fi_live k h I p' pp2 Hp2) as (M1 & M2 & M3). split; [done|]. split; [done|].
        intros w'. destruct (M3 w') as [?|[? [j Hj]]]; [by left|right]. split; [done|]. exists j. split; [done|].
        intros ->. destruct Hj as (_ & _ & Hj & _). done.
    + split; [done|]. intros p' Hp'. rewrite lookup_insert_ne; [by apply Hpg|]. intros ->. rewrite (Hpg _ Hp') in Hp. done.
Qed.
End clear.

Lemma inv_fs k h s : ft_inv k h -> ft_inv (set_fs s k) h.
Proof. intros [I1 I2 I3 I4 I5 I6 I7 I8]. by constructor. Qed.

Lemma fs_shape {A} (c : K (fsstate B) A) k a k' : fs c k = Ret a k' -> exists s, k' = set_fs s k.
Proof. unfold fs, kzoom. destruct (c (fd_fs k)); [|done..]. intros [= <- <-]. by eexists. Qed.

Lemma close_inv k h f k' : ft_inv k h -> f ∈ h -> fileclose f k = Ret tt k' -> ft_inv k' (drop_one f h).
Proof.
  intros I Hin E. pose proof (fi_lk k h I) as Hl. pose proof (fi_len k h I f Hin) as Hf. pose proof (held_in f h Hin) as Hh.
  pose proof (fi_ref k h I f Hf) as Hr. unfold fileclose, ft_acquire, upd_file in E. rewrite kbind_assoc, kbind_get, Hl, kbind_modify, kbind_get in E.
  change (file_at (set_ft_lk true k) f) with (file_at k f) in E. rewrite (proj2 (Z.ltb_ge _ 1)) in E by lia.
  rewrite kbind_modify in E. destruct (Z.ltb_spec 0 (f_ref (file_at k f) - 1)) as [Hm|Hm].
  - unfold ft_release in E. rewrite kbind_get in E. cbn [ft_lk set_files set_ft_lk] in E. injection E as <-.
    eapply (inv_upd k _ h (drop_one f h) f (fun x => set_fref (f_ref x - 1) x)); try done.
    + intros j Hj. left. by eapply in_drop_one.
    + intros j. rewrite held_drop by done. cbn. case_decide; lia.
    + left. lia.
  - assert (Hone : f_ref (file_at k f) = 1) by lia.
    rewrite kbind_get in E. set (ff := file_at _ f) in E. rewrite !kbind_modify in E. unfold ft_release in E.
    rewrite kbind_assoc, kbind_get in E. cbn [ft_lk set_files set_ft_lk] in E. rewrite kbind_modify in E.
    match type of E with _ ?st = _ => set (k1 := st) in E end.
    assert (Ef : files k1 = alter clear f (files k)).
    { unfold k1. cbn. rewrite !alter_alter. by apply list_alter_ext. }
    assert (Eff : f_type ff = f_type (file_at k f) /\ f_pipe ff = f_pipe (file_at k f) /\ f_writable ff = f_writable (file_at k f)).
    { unfold ff, file_at. cbn. rewrite nth_alter_eq by done. done. }
    destruct Eff as (Et & Epi & Ew). rewrite Et, Epi, Ew in E. destruct (f_type (file_at k f)) eqn:Ety.
    + injection E as <-. apply (clear_other k k1 h f I Hin Hone Ef eq_refl); [by rewrite Ety|done|done].
    + set (p := f_pipe (file_at k f)) in *. set (w := f_writable (file_at k f)) in *.
      destruct (fi_pipe k h I f p w) as (pp & Hp & Ho); [split_and!; try done; lia|].
      destruct (fi_live k h I p pp Hp) as (L1 & _). destruct (pipeclose_eq w pp L1) as (pp' & Ec & C1 & C2 & C3).
      assert (E1 : on_pipe p (pipeclose w) k1 = Ret (end_open (negb w) pp =? 0) (set_pipes (<[p := pp']> (fd_pipes k1)) k1)).
      { unfold on_pipe, kzoom. change (fd_pipes k1) with (fd_pipes k). rewrite Hp. change (default null_pipe (Some pp)) with pp. by rewrite Ec. }
      rewrite (kbind_ret _ _ _ _ _ E1) in E.
      destruct (Z.eqb_spec (end_open (negb w) pp) 0) as [E0|E0]; injection E as <-;
        eapply (clear_pipe k _ h f I Hin Hone) with (pp := pp) (pp' := pp'); try done;
        fold w p; [rewrite E0; cbn; split; [|done]; by rewrite delete_insert_eq|].
      by rewrite (proj2 (Z.eqb_neq _ _) E0).
    + assert (I1 : ft_inv k1 (drop_one f h)) by (apply (clear_other k k1 h f I Hin Hone Ef eq_refl); [by rewrite Ety|done|done]).
      unfold begin_tx, end_tx in E. unfold kbind in E at 1. destruct (fs (blk tx_begin) k1) as [? k2| | |] eqn:E1; [|done..].
      apply fs_shape in E1 as [s1 ->]. unfold kbind in E at 1.
      match type of E with match ?c with _ => _ end = _ => destruct c as [? k3| | |] eqn:E2; [|done..] end.
      apply fs_shape in E2 as [s2 ->]. apply fs_shape in E as [s3 ->]. by do 3 apply inv_fs.
Qed.

(** A new pipe with its two descriptors. *)
Lemma link_pipe k k' h f0 f1 p junk l :
  ft_inv k (f1 :: f0 :: h) -> f0 <> f1 -> f_type (file_at k f0) = FD_NONE -> f_type (file_at k f1) = FD_NONE ->
  fd_pages k = p :: l -> ft_lk k' = false -> fd_pages k' = l -> fd_pipes k' = <[p := pipe_init junk]> (fd_pipes k) ->
  length (files k') = length (files k) ->
  (forall j, j <> f0 -> j <> f1 -> file_at k' j = file_at k j) ->
  file_at k' f0 = set_fpipe p (set_fmode true false (set_ftype FD_PIPE (file_at k f0))) ->
  file_at k' f1 = set_fpipe p (set_fmode false true (set_ftype FD_PIPE (file_at k f1))) ->
  ft_inv k' (f0 :: f1 :: h).
Proof.
  intros [I1 I2 I3 I4 I5 I6 I7 [I8 I9]] Hne T0 T1 Epg El Epg' Epi Hlen Hat A0 A1.
  rewrite Epg in *. apply NoDup_cons in I8 as [Hpl Hnd].
  assert (Hpn : fd_pipes k !! p = None) by (apply I9; left).
  assert (Hin0 : (f0 < length (files k))%nat) by (apply I2; right; left). assert (Hin1 : (f1 < length (files k))%nat) by (apply I2; left).
  assert (Href : forall j, f_ref (file_at k' j) = f_ref (file_at k j)).
  { intros j. destruct (decide (j = f0)) as [->|]; [by rewrite A0|]. destruct (decide (j = f1)) as [->|]; [by rewrite A1|]. by rewrite Hat. }
  assert (R0 : 0 < f_ref (file_at k f0)) by (rewrite I3 by done; pose proof (held_in f0 (f1 :: f0 :: h) ltac:(set_solver)); lia).
  assert (R1 : 0 < f_ref (file_at k f1)) by (rewrite I3 by done; pose proof (held_in f1 (f1 :: f0 :: h) ltac:(set_solver)); lia).
  assert (Hend : forall j q w, open_end k' j q w <-> open_end k j q w \/ (q = p /\ j = if w then f1 else f0)).
  { intros j q w. unfold open_end. destruct (decide (j = f0)) as [->|N0]; [|destruct (decide (j = f1)) as [->|N1]].
    - rewrite A0, T0. cbn. destruct w; naive_solver.
    - rewrite A1, T1. cbn. destruct w; naive_solver.
    - rewrite Hat by done. destruct w; naive_solver. }
  assert (Hnop : forall j q w, open_end k j q w -> q <> p).
  { intros j q w Hj ->. destruct (I5 j p w Hj) as (pp & Hp & _). congruence. }
  constructor.
  - done.
  - intros j Hj. rewrite Hlen. apply I2. set_solver.
  - intros j Hj. rewrite Hlen in Hj. rewrite Href, I3 by done. rewrite !held_cons. lia.
  - intros j. rewrite Href. intros E. destruct (decide (j = f0)) as [->|]; [lia|]. destruct (decide (j = f1)) as [->|]; [lia|].
    rewrite Hat by done. by apply I4.
  - intros j q w [Hj|[-> ->]]%Hend; rewrite Epi.
    + rewrite lookup_insert_ne by (by apply not_eq_sym, (Hnop j q w)). by apply (I5 j).
    + rewrite lookup_insert_eq. eexists. split; [done|]. by destruct w.
  - intros j g q w [Hj|[Hq ->]]%Hend [Hg|[Hq' ->]]%Hend; [by eapply I6| | |done].
    + by destruct (Hnop j q w Hj).
    + by destruct (Hnop g q w Hg).
  - intros q pp Hq. rewrite Epi in Hq. destruct (decide (q = p)) as [->|Hqp].
    + rewrite lookup_insert_eq in Hq. injection Hq as <-. split; [done|]. split; [by exists true|]. intros w. right. split; [by destruct w|].
      exists (if w then f1 else f0). apply Hend. by right.
    + rewrite lookup_insert_ne in Hq by done. destruct (I7 q pp Hq) as (L1 & L2 & L3). split; [done|]. split; [done|]. intros w.
      destruct (L3 w) as [?|[? [j Hj]]]; [by left|right]. split; [done|]. exists j. apply Hend. by left.
  - rewrite Epg', Epi. split; [done|]. intros q Hq. rewrite lookup_insert_ne by (by intros ->). apply I9. by right.
Qed.

Lemma pipealloc_inv k h junk r k' : ft_inv k h -> pipealloc junk k = Ret r k' ->
  match r.2 with Some (f0, f1) => r.1 = 0 /\ ft_inv k' (f0 :: f1 :: h) | None => r.1 = -1 /\ ft_inv k' h end.
Proof.
  intros I E. unfold pipealloc in E. unfold kbind in E at 1. destruct (filealloc k) as [[f0|] k1| | |] eqn:E0; [|injection E as <- <-|done..].
  2: { split; [done|]. by pose proof (filealloc_cases k _ k1 E0 (fi_lk k h I)) as ->. }
  pose proof (alloc_inv k h f0 k1 I E0) as I1. pose proof (filealloc_cases k _ k1 E0 (fi_lk k h I)) as (Hf0 & Hr0 & Ek1).
  unfold kbind in E at 1. destruct (filealloc k1) as [[f1|] k2| | |] eqn:E1; [| |done..].
  2: { pose proof (filealloc_cases k1 _ k2 E1 (fi_lk k1 _ I1)) as ->. unfold kbind in E at 1.
       destruct (fileclose f0 k1) as [[] k3| | |] eqn:E2; [|done..]. injection E as <- <-. split; [done|].
       pose proof (close_inv k1 (f0 :: h) f0 k3 I1 ltac:(left) E2) as I3. cbn in I3. by rewrite decide_True in I3. }
  pose proof (alloc_inv k1 _ f1 k2 I1 E1) as I2. pose proof (filealloc_cases k1 _ k2 E1 (fi_lk k1 _ I1)) as (Hf1 & Hr1 & Ek2).
  assert (Hne : f0 <> f1).
  { intros ->. rewrite Ek1 in Hr1. unfold file_at in Hr1. cbn in Hr1. by rewrite nth_alter_eq in Hr1. }
  unfold page_alloc in E. rewrite kbind_assoc, kbind_get in E. destruct (fd_pages k2) as [|p l] eqn:Epg.
  - rewrite kbind_kret in E. unfold kbind in E at 1. destruct (fileclose f0 k2) as [[] k3| | |] eqn:E2; [|done..].
    pose proof (close_inv k2 _ f0 k3 I2 ltac:(right; left) E2) as I3. cbn [drop_one] in I3. rewrite decide_False, decide_True in I3 by done.
    unfold kbind in E at 1. destruct (fileclose f1 k3) as [[] k4| | |] eqn:E3; [|done..]. injection E as <- <-. split; [done|].
    pose proof (close_inv k3 _ f1 k4 I3 ltac:(left) E3) as I4. cbn in I4. by rewrite decide_True in I4.
  - rewrite kbind_assoc, kbind_modify, kbind_kret in E. unfold upd_file in E. rewrite !kbind_modify in E. injection E as <- <-.
    split; [done|]. assert (Hl2 : length (files k2) = length (files k)) by (rewrite Ek2, Ek1; cbn; by rewrite !length_alter).
    assert (Hf1' : (f1 < length (files k2))%nat) by (rewrite Hl2; rewrite Ek1 in Hf1; cbn in Hf1; by rewrite length_alter in Hf1).
    assert (Hf0' : (f0 < length (files k2))%nat) by (by rewrite Hl2).
    eapply (link_pipe k2 _ h f0 f1 p junk l I2 Hne); try done.
    + rewrite Ek2, Ek1. unfold file_at. cbn. rewrite nth_alter_ne, nth_alter_eq by done. by apply (fi_free k h I).
    + rewrite Ek2. unfold file_at. cbn. rewrite nth_alter_eq by done. by apply (fi_free k1 _ I1).
    + apply (fi_lk k2 _ I2).
    + cbn. by rewrite !length_alter.
    + intros j N0 N1. unfold file_at. cbn. by rewrite !nth_alter_ne by done.
    + unfold file_at. cbn. rewrite !(nth_alter_ne _ _ f1) by done. rewrite !alter_alter. by rewrite nth_alter_eq.
    + unfold file_at. cbn. rewrite !alter_alter. rewrite nth_alter_eq by (by rewrite length_alter). by rewrite nth_alter_ne.
Qed.

(** Reading and writing. *)
Lemma inv_file k h f g : ft_inv k h -> f ∈ h ->
  (forall x, f_type (g x) = f_type x /\ f_pipe (g x) = f_pipe x /\ f_writable (g x) = f_writable x) -> (forall x, f_ref (g x) = f_ref x) ->
  ft_inv (set_files (alter g f (files k)) k) h.
Proof.
  intros I Hin Hg Hr. pose proof (fi_len k h I f Hin) as Hf. pose proof (fi_ref k h I f Hf) as Hh. pose proof (held_in f h Hin).
  eapply (inv_upd k _ h h f g); try done.
  - apply I.
  - by left.
  - intros j. rewrite Hr. case_decide; lia.
  - left. lia.
  - rewrite Hr. lia.
Qed.

Lemma inv_on_pipe {A} k h f (c : K pipe A) a k' :
  ft_inv k h -> f ∈ h -> f_type (file_at k f) = FD_PIPE ->
  (forall p, p_lk p = false -> wlp c p (fun _ p' => same_ends p p') (fun _ => True)) ->
  on_pipe (f_pipe (file_at k f)) c k = Ret a k' -> ft_inv k' h.
Proof.
  intros I Hin Ht Hc E. pose proof (fi_len k h I f Hin) as Hf. pose proof (fi_ref k h I f Hf) as Hh. pose proof (held_in f h Hin).
  set (p := f_pipe (file_at k f)) in *. destruct (fi_pipe k h I f p (f_writable (file_at k f))) as (pp & Hp & Ho); [split_and!; try done; lia|].
  destruct (fi_live k h I p pp Hp) as (L1 & L2 & L3). unfold on_pipe, kzoom in E. rewrite Hp in E. change (default null_pipe (Some pp)) with pp in E.
  specialize (Hc pp L1). unfold wlp in Hc. destruct (c pp) as [a' pp'| | |]; [|done..]. injection E as _ <-. destruct Hc as (S1 & S2 & S3).
  assert (Hends : forall w, end_open w pp' = end_open w pp) by (by intros []).
  destruct I as [I1 I2 I3 I4 I5 I6 I7 [I8 I9]]. constructor; cbn [ft_lk files fd_pipes fd_pages set_pipes]; try done.
  - intros j q w Hj. destruct (I5 j q w Hj) as (pp2 & Hq & Ho2). destruct (decide (q = p)) as [->|].
    + rewrite lookup_insert_eq. exists pp'. split; [done|]. rewrite Hends. congruence.
    + rewrite lookup_insert_ne by done. by exists pp2.
  - intros q pp2 Hq. destruct (decide (q = p)) as [->|].
    + rewrite lookup_insert_eq in Hq. injection Hq as <-. split; [done|]. destruct L2 as [w0 L2]. split; [exists w0; by rewrite Hends|].
      intros w. rewrite Hends. apply L3.
    + rewrite lookup_insert_ne in Hq by done. by apply I7.
  - split; [done|]. intros q Hq. rewrite lookup_insert_ne; [by apply I9|]. intros ->. rewrite (I9 _ Hq) in Hp. done.
Qed.

(** A call that may return or be suspended. *)
Notation keeps h c k := (wlp c k (fun _ k' => ft_inv k' h) (fun k' => ft_inv k' h)).

Lemma keeps_fs {A} (c : K (fsstate B) A) k h : ft_inv k h -> keeps h (fs c) k.
Proof. intros I. unfold wlp, fs, kzoom. destruct (c (fd_fs k)); try done; by apply inv_fs. Qed.

Lemma keeps_bind {A C} (c : K S A) (d : A -> K S C) k h :
  keeps h c k -> (forall a k', ft_inv k' h -> keeps h (d a) k') -> keeps h (kbind c d) k.
Proof. intros Hc Hd. apply wlp_bind. eapply wlp_mono; [exact Hc| |done]. intros a k' I. by apply Hd. Qed.

Lemma keeps_off k h f v : ft_inv k h -> f ∈ h -> keeps h (upd_file f (fun x => set_foff (u32 (f_off x + v)) x)) k.
Proof. intros I Hin. apply wlp_modify. by apply inv_file. Qed.

Lemma keeps_pipe {A} k h f (c : K pipe A) : ft_inv k h -> f ∈ h -> f_type (file_at k f) = FD_PIPE ->
  (forall p, p_lk p = false -> wlp c p (fun _ p' => same_ends p p') (fun _ => False)) ->
  keeps h (on_pipe (f_pipe (file_at k f)) c) k.
Proof.
  intros I Hin Ht Hc. pose proof (fi_len k h I f Hin) as Hf. pose proof (fi_ref k h I f Hf) as Hh. pose proof (held_in f h Hin).
  unfold wlp. destruct (on_pipe _ c k) as [a k'| |ch k'|] eqn:E; try done.
  - eapply (inv_on_pipe k h f c); [done|done|done| |exact E]. intros p Hp. eapply wlp_mono; [by apply Hc|done|done].
  - exfalso. destruct (fi_pipe k h I f (f_pipe (file_at k f)) (f_writable (file_at k f))) as (pp & Hp & _); [split_and!; try done; lia|].
    destruct (fi_live k h I _ pp Hp) as (L1 & _). unfold on_pipe, kzoom in E. rewrite Hp in E. change (default null_pipe (Some pp)) with pp in E.
    specialize (Hc pp L1). unfold wlp in Hc. by destruct (c pp).
Qed.

Variable dr : Z -> option (nat -> Z -> K (fsstate B) (Z * list Z)).
Variable dw : Z -> option (nat -> list Z -> Z -> K (fsstate B) Z).

Lemma keeps_read k h f n : ft_inv k h -> f ∈ h -> keeps h (fileread dr f n) k.
Proof.
  intros I Hin. unfold fileread. apply wlp_bind, wlp_get. destruct (negb _); [by apply wlp_ret|].
  destruct (f_type (file_at k f)) eqn:Et; [done| |].
  - apply wlp_bind, wlp_get. apply keeps_bind.
    + apply keeps_pipe; [done..|]. intros p Hp. by apply piperead_ends.
    + intros [l| |] k' I'; [by apply wlp_ret|by apply wlp_sleep|by apply wlp_ret].
  - apply keeps_bind; [by apply keeps_fs|]. intros _ k1 I1. apply keeps_bind; [by apply keeps_fs|]. intros r k2 I2.
    apply keeps_bind; [destruct (0 <? _); [by apply keeps_off|by apply wlp_ret]|]. intros _ k3 I3.
    apply keeps_bind; [by apply keeps_fs|]. intros _ k4 I4. by apply wlp_ret.
Qed.

Lemma keeps_write_loop fuel f ip n h : f ∈ h -> forall src i k, ft_inv k h -> keeps h (filewrite_loop dw fuel f ip src i n) k.
Proof.
  intros Hin. induction fuel as [|fuel IH]; intros src i k I; cbn [filewrite_loop]; (destruct (i <? n); [|by apply wlp_ret]); [done|].
  unfold begin_tx, end_tx. apply keeps_bind; [by apply keeps_fs|]. intros _ k1 I1. apply keeps_bind; [by apply keeps_fs|]. intros _ k2 I2.
  apply wlp_bind, wlp_get. apply keeps_bind; [by apply keeps_fs|]. intros r k3 I3.
  apply keeps_bind; [destruct (0 <? _); [by apply keeps_off|by apply wlp_ret]|]. intros _ k4 I4.
  apply keeps_bind; [by apply keeps_fs|]. intros _ k5 I5. apply keeps_bind; [by apply keeps_fs|]. intros _ k6 I6.
  destruct (r <? 0); [by apply wlp_ret|]. destruct (negb _); [done|]. by apply IH.
Qed.

Lemma keeps_write k h f src n : ft_inv k h -> f ∈ h -> keeps h (filewrite dw f src n) k.
Proof.
  intros I Hin. unfold filewrite. apply wlp_bind, wlp_get. destruct (negb _); [by apply wlp_ret|].
  destruct (f_type (file_at k f)) eqn:Et; [done| |].
  - apply wlp_bind, wlp_get. apply keeps_bind.
    + apply keeps_pipe; [done..|]. intros p Hp. by apply pipewrite_ends.
    + intros r k' I'. destruct (pipewrite_result n r.1); [by apply wlp_ret|by apply wlp_sleep].
  - apply keeps_bind; [by apply keeps_write_loop|]. intros i k' I'. by apply wlp_ret.
Qed.


Lemma inode_inv k h f ip r w : ft_inv k h -> f ∈ h -> f_type (file_at k f) = FD_NONE ->
  ft_inv (set_files (alter (as_inode ip r w) f (files k)) k) h.
Proof.
  intros I Hin Ht. pose proof (fi_len k h I f Hin) as Hf. pose proof (fi_ref k h I f Hf) as Hh. pose proof (held_in f h Hin) as Hp.
  set (k' := set_files _ k). assert (Hat : forall j, file_at k' j = if decide (j = f) then as_inode ip r w (file_at k f) else file_at k j).
  { intros j. destruct (decide (j = f)) as [->|Hj]; [exact (file_at_alter _ f k' (files k) eq_refl Hf)|exact (file_at_ne _ f j k' (files k) eq_refl Hj)]. }
  assert (Hend : forall j p v, open_end k' j p v <-> open_end k j p v).
  { intros j p v. unfold open_end. rewrite Hat. destruct (decide (j = f)) as [->|]; [|done]. rewrite Ht. cbn. naive_solver. }
  assert (Hlen : length (files k') = length (files k)) by (cbn; apply length_alter).
  destruct I as [I1 I2 I3 I4 I5 I6 I7 I8]. constructor; try done.
  - intros j Hj. rewrite Hlen. by apply I2.
  - intros j Hj. rewrite Hlen in Hj. rewrite Hat, <- (I3 j Hj). by destruct (decide (j = f)) as [->|].
  - intros j. rewrite Hat. destruct (decide (j = f)) as [->|]; [cbn; lia|apply I4].
  - intros j p v Hj. apply Hend in Hj. by eapply I5.
  - intros j g p v Hj Hg. apply Hend in Hj, Hg. by eapply I6.
  - intros p pp Hq. destruct (I7 p pp Hq) as (L1 & L2 & L3). split; [done|]. split; [done|]. intros v.
    destruct (L3 v) as [?|[? [j Hj]]]; [by left|right]. split; [done|]. exists j. by apply Hend.
Qed.

(** ** Sequences of calls

    A configuration is the kernel's state and the descriptors held: every entry that a
    process's table or a routine refers to, once for each reference. *)
Inductive fstep : S * list nat -> S * list nat -> Prop :=
| FAlloc k h f k' : filealloc k = Ret (Some f) k' -> fstep (k, h) (k', f :: h)
| FOpen k h f ip r w : f ∈ h -> f_type (file_at k f) = FD_NONE ->
    fstep (k, h) (set_files (alter (as_inode ip r w) f (files k)) k, h)
| FDup k h f f' k' : f ∈ h -> filedup f k = Ret f' k' -> fstep (k, h) (k', f' :: h)
| FClose k h f k' : f ∈ h -> fileclose f k = Ret tt k' -> fstep (k, h) (k', drop_one f h)
| FPipe k h junk v f0 f1 k' : pipealloc junk k = Ret (v, Some (f0, f1)) k' -> fstep (k, h) (k', f0 :: f1 :: h)
| FPipeFail k h junk v k' : pipealloc junk k = Ret (v, None) k' -> fstep (k, h) (k', h)
| FRead k h f n r k' : f ∈ h -> fileread dr f n k = Ret r k' -> fstep (k, h) (k', h)
| FReadSleep k h f n ch k' : f ∈ h -> fileread dr f n k = Sleep ch k' -> fstep (k, h) (k', h)
| FWrite k h f src n r k' : f ∈ h -> filewrite dw f src n k = Ret r k' -> fstep (k, h) (k', h)
| FWriteSleep k h f src n ch k' : f ∈ h -> filewrite dw f src n k = Sleep ch k' -> fstep (k, h) (k', h).

Lemma fstep_inv c c' : fstep c c' -> ft_inv c.1 c.2 -> ft_inv c'.1 c'.2.
Proof.
  intros Hs I. destruct Hs as [k h f k' E|k h f ip r w Hin Ht|k h f f' k' Hin E|k h f k' Hin E|k h junk v f0 f1 k' E|k h junk v k' E
    |k h f n r k' Hin E|k h f n ch k' Hin E|k h f src n r k' Hin E|k h f src n ch k' Hin E]; cbn [fst snd] in *.
  - by eapply alloc_inv.
  - by apply inode_inv.
  - by eapply dup_inv.
  - by eapply close_inv.
  - by apply (pipealloc_inv k h junk _ k' I E).
  - by apply (pipealloc_inv k h junk _ k' I E).
  - by apply (wlp_use _ _ _ _ (keeps_read k h f n I Hin)) in E.
  - by apply (wlp_use _ _ _ _ (keeps_read k h f n I Hin)) in E.
  - by apply (wlp_use _ _ _ _ (keeps_write k h f src n I Hin)) in E.
  - by apply (wlp_use _ _ _ _ (keeps_write k h f src n I Hin)) in E.
Qed.

(** The table at boot: no references, no pipes. *)
Definition ftable_fresh (k : S) : Prop :=
  ft_lk k = false /\ Forall (fun f => f = null_file) (files k) /\ fd_pipes k = ∅ /\ NoDup (fd_pages k).

Lemma ftable_fresh_inv k : ftable_fresh k -> ft_inv k [].
Proof.
  intros (Hl & Hf & Hp & Hg). assert (Hat : forall f, file_at k f = null_file).
  { intros f. unfold file_at. destruct (nth_lookup_or_length (files k) f null_file) as [E|E]; [|by apply nth_overflow].
    by apply (proj1 (Forall_lookup _ _) Hf f). }
  assert (Hno : forall f p w, ~ open_end k f p w) by (intros f p w [E _]; rewrite Hat in E; cbn in E; lia).
  constructor; try done.
  - intros f Hin. by apply elem_of_nil in Hin.
  - intros f Hlt. by rewrite Hat.
  - intros f _. by rewrite Hat.
  - intros f p w Ho. by destruct (Hno f p w).
  - intros f g p w Ho. by destruct (Hno f p w).
  - intros p pp E. rewrite Hp in E. by rewrite lookup_empty in E.
  - split; [done|]. intros p _. by rewrite Hp.
Qed.

End table.

(** From an empty table, in every sequence of filealloc, opening as a file, filedup,
    fileclose, pipealloc, fileread and filewrite calls (completed or suspended) that use
    only descriptors they hold: the count of an entry is the number of references to it,
    each end of a pipe has at most one entry, that entry leads to an allocated pipe whose
    end is still open, a pipe with no open descriptor has been freed, and no free page
    holds a pipe. *)
Theorem ftable_references `{FsH} {B : Type} `{BlockLayer B} `{TxLayer B} dr dw (k0 k : fdstate B) (h : list nat) :
  ftable_fresh k0 -> rtc (fstep dr dw) (k0, []) (k, h) ->
  (forall f, (f < length (files k))%nat -> f_ref (file_at k f) = held f h) /\
  (forall f p w, open_end k f p w -> exists pp, fd_pipes k !! p = Some pp /\ end_open w pp = 1) /\
  (forall f g p w, open_end k f p w -> open_end k g p w -> f = g) /\
  (forall p pp, fd_pipes k !! p = Some pp -> exists f w, open_end k f p w) /\
  NoDup (fd_pages k) /\ (forall p, p ∈ fd_pages k -> fd_pipes k !! p = None).
Proof.
  intros Hf Hr. assert (I : ft_inv k h).
  { change (ft_inv (k, h).1 (k, h).2). apply ftable_fresh_inv in Hf. change (ft_inv (k0, @nil nat).1 (k0, @nil nat).2) in Hf.
    revert Hf. induction Hr as [|c1 c2 c3 Hs _ IH]; [done|]. intros Hc. by apply IH, (fstep_inv dr dw _ _ Hs). }
  split; [apply I|]. split; [apply (fi_pipe k h I)|]. split; [apply (fi_end k h I)|]. split; [|apply I].
  intros p pp Hp. destruct (fi_live k h I p pp Hp) as (_ & [w Hw] & L). destruct (L w) as [?|[_ [f Ho]]]; [lia|]. by exists f, w.
Qed.
