(* ===== verification/SysRefs.v ===== *)
(** * References held across the file-system calls

    Every open file is referred to by the descriptor tables, every cache entry of an
    inode by the open files and the current directories; each call of sysfile.c keeps
    the counts exact on every path through it, the error returns included. *)

From S2P Require Import Prelude Layout Mem Sleeplock Pipe Fsdefs Fs FsBlocks FsIcache FsRefs File Syscall Sysfile FileTable.
From Stdlib Require Import Permutation.

(** The inode references of the open files. *)
Definition inode_ref (x : file) : list nat :=
  if bool_decide (0 < f_ref x) && bool_decide (f_type x = FD_INODE) then [f_ip x] else [].
Definition file_inodes (l : list file) : list nat := mjoin (inode_ref <$> l).

Lemma file_inodes_split l (f : nat) : (f < length l)%nat -> exists rest,
  file_inodes l ≡ₚ inode_ref (nth f l null_file) ++ rest /\
  forall g, file_inodes (alter g f l) ≡ₚ inode_ref (g (nth f l null_file)) ++ rest.
Proof.
  revert f. induction l as [|x l IH]; intros f Hf; cbn in Hf; [lia|]. destruct f as [|f].
  - exists (file_inodes l). cbn. split; [done|]. intros g. done.
  - destruct (IH f) as (rest & E1 & E2); [lia|]. exists (inode_ref x ++ rest). cbn [nth]. split.
    + change (file_inodes (x :: l)) with (inode_ref x ++ file_inodes l). rewrite E1, !app_assoc. by rewrite (Permutation_app_comm (inode_ref x)).
    + intros g. change (file_inodes (alter g (Datatypes.S f) (x :: l))) with (inode_ref x ++ file_inodes (alter g f l)).
      rewrite E2, !app_assoc. by rewrite (Permutation_app_comm (inode_ref x)).
Qed.

Lemma alter_beyond {A} (f : nat) (l : list A) g : (length l <= f)%nat -> alter g f l = l.
Proof. intros Hf. rewrite <- (app_nil_r l) at 1. rewrite alter_app_r_alt by done. apply app_nil_r. Qed.

Lemma file_inodes_same g (l : list file) (f : nat) :
  (forall x, nth f l null_file = x -> inode_ref (g x) = inode_ref x) -> file_inodes (alter g f l) ≡ₚ file_inodes l.
Proof.
  intros Hg. destruct (decide (f < length l)%nat) as [Hf|Hf].
  - destruct (file_inodes_split l f Hf) as (rest & E1 & E2). by rewrite E1, E2, Hg.
  - rewrite (alter_beyond f l g); [done|]. lia.
Qed.

Section refs.
Context `{FsH} {B : Type} `{BlockLayer B} `{TxLayer B}.
Notation F := (fdstate B).
Notation FS := (fsstate B).
Implicit Types k : F.
Variable dr : Z -> option (nat -> Z -> K FS (Z * list Z)).
Variable dw : Z -> option (nat -> list Z -> Z -> K FS Z).
Hypothesis Hdr : forall m f, dr m = Some f -> forall ip n, quiet (f ip n).
Hypothesis Hdw : forall m f, dw m = Some f -> forall ip l n, quiet (f ip l n).
Variable cw : nat.

Lemma ft_perm (k : F) h h' : h ≡ₚ h' -> ft_inv k h -> ft_inv k h'.
Proof.
  intros E [I1 I2 I3 I4 I5 I6 I7 I8]. constructor; try done.
  - intros f Hf. apply I2. by rewrite E.
  - intros f Hf. rewrite <- (held_perm f h h' E). by apply I3.
Qed.

(** The references [h] to open files and [j] to inodes are out, apart from those of the
    open files. *)
Definition refs (k : F) (h j : list nat) : Prop := ft_inv k h /\ holds cw (fd_fs k) (j ++ file_inodes (files k)).

Lemma refs_perm k h h' j j' : h ≡ₚ h' -> j ≡ₚ j' -> refs k h j -> refs k h' j'.
Proof. intros Eh Ej [I J]. split; [by apply (ft_perm k h)|]. by apply (holds_perm cw _ (j ++ file_inodes (files k))); [rewrite Ej|]. Qed.

Notation rwlp c k Q := (wlp c k Q (fun _ => True)).

(** A routine of fs.c. *)
Lemma refs_fs {A} (c : K FS A) k h j (g : A -> list nat) : refs k h j ->
  wlp c (fd_fs k) (fun a s' => holds cw s' (g a ++ file_inodes (files k))) (fun _ => True) ->
  rwlp (fs c) k (fun a k' => refs k' h (g a)).
Proof.
  intros [I J] Hc. unfold wlp, fs, kzoom in *. destruct (c (fd_fs k)); try done. split; [by apply inv_fs|exact Hc].
Qed.

Lemma refs_quiet {A} (c : K FS A) k h j : quiet c -> refs k h j -> rwlp (fs c) k (fun _ k' => refs k' h j).
Proof. intros Hq Hr. apply (refs_fs c k h j (fun _ => j)); [done|]. apply gives_quiet; [done|apply Hr]. Qed.

Lemma refs_put ip k h j j' : refs k h j -> j ≡ₚ ip :: j' -> rwlp (fs (iput ip)) k (fun _ k' => refs k' h j').
Proof. intros Hr Hp. apply (refs_fs (iput ip) k h j (fun _ => j')); [done|]. eapply gives_iput; [apply Hr|]. by rewrite Hp. Qed.

Lemma refs_unput ip k h j j' : refs k h j -> j ≡ₚ ip :: j' -> rwlp (fs (iunlockput ip)) k (fun _ k' => refs k' h j').
Proof. intros Hr Hp. apply (refs_fs (iunlockput ip) k h j (fun _ => j')); [done|]. eapply gives_iunlockput; [apply Hr|]. by rewrite Hp. Qed.

Lemma refs_namei path name k h j : refs k h j -> cw ∈ j -> rwlp (fs (namei dr path name)) k (fun r k' => refs k' h (got1 r j)).
Proof.
  intros Hr Hin. apply (refs_fs _ k h j (fun r => got1 r j)); [done|].
  eapply wlp_mono; [apply (gives_namei dr Hdr cw path name _ _ (proj2 Hr)); set_solver| |done]. by intros [ip|] s'.
Qed.

Lemma refs_namex path np name k h j : refs k h j -> cw ∈ j -> rwlp (fs (namex dr path np name)) k (fun r k' => refs k' h (got r j)).
Proof.
  intros Hr Hin. apply (refs_fs _ k h j (fun r => got r j)); [done|].
  eapply wlp_mono; [apply (gives_namex dr Hdr cw path np name _ _ (proj2 Hr)); set_solver| |done]. by intros [[ip n]|] s'.
Qed.

Lemma refs_dirlookup dp name k h j : refs k h j -> rwlp (fs (dirlookup dr dp name)) k (fun r k' => refs k' h (got r j)).
Proof.
  intros Hr. apply (refs_fs _ k h j (fun r => got r j)); [done|].
  eapply wlp_mono; [apply (gives_dirlookup dr Hdr cw dp name _ _ (proj2 Hr))| |done]. by intros [[ip n]|] s'.
Qed.

Lemma refs_dirlink dp name inum k h j : refs k h j -> rwlp (fs (dirlink dr dw dp name inum)) k (fun _ k' => refs k' h j).
Proof. intros Hr. apply (refs_fs _ k h j (fun _ => j)); [done|]. apply gives_dirlink; [done|done|apply Hr]. Qed.

(** ** Open files *)

Lemma refs_alloc k h j : refs k h j -> rwlp filealloc k (fun r k' => 
  match r with
  | Some f => refs k' (f :: h) j /\ f_type (file_at k' f) = FD_NONE /\ forall g, f_type (file_at k' g) = f_type (file_at k g)
  | None => refs k' h j
  end).
Proof.
  intros [I J]. apply wlp_rets. intros [f|] k' E; pose proof (filealloc_cases k _ k' E (fi_lk k h I)) as C; [|cbn in C; subst k'; by split].
  destruct C as (Hf & Hr & Ek). pose proof (fi_free k h I f Hr) as Ht. split; [split|].
  - by apply (alloc_inv k h f k').
  - subst k'. cbn [files set_files fd_fs]. eapply holds_perm; [|exact J]. rewrite file_inodes_same; [reflexivity|]. intros x Hx. unfold file_at in Hr, Ht. rewrite Hx in Hr, Ht.
    unfold inode_ref. cbn [f_ref f_type set_fref]. by rewrite Hr, Ht.
  - assert (Ha : forall g, f_type (file_at k' g) = f_type (file_at k g)); [|split; [by rewrite Ha|done]].
    intros g. subst k'. unfold file_at. cbn. destruct (decide (g = f)) as [->|]; [by rewrite nth_alter_eq|by rewrite nth_alter_ne].
Qed.

Lemma refs_dup k h j f : refs k h j -> f ∈ h -> rwlp (filedup f) k (fun _ k' => refs k' (f :: h) j).
Proof.
  intros [I J] Hin. apply wlp_rets. intros f' k' E. pose proof (dup_inv k h f f' k' I Hin E) as I'.
  unfold filedup, ft_acquire, ft_release, upd_file, kbind, kget, kmodify, kret in E. rewrite (fi_lk k h I) in E. cbn in E.
  fold (file_at k f) in E. change (file_at (set_ft_lk true k) f) with (file_at k f) in E. destruct (Z.ltb_spec (f_ref (file_at k f)) 1) as [Hlt|Hlt]; [done|].
  injection E as <- <-. split; [exact I'|]. cbn [files set_files fd_fs set_ft_lk]. eapply holds_perm; [|exact J].
  rewrite file_inodes_same; [reflexivity|]. intros x Hx. clear I'. unfold file_at in *. rewrite Hx in *. unfold inode_ref. cbn. by rewrite (bool_decide_true (0 < f_ref x)), (bool_decide_true (0 < f_ref x + 1)) by lia.
Qed.

(** The entry becomes an open inode and takes over the reference. *)
Lemma refs_open k h j f ip r w : refs k h (ip :: j) -> f ∈ h -> f_type (file_at k f) = FD_NONE ->
  refs (set_files (alter (as_inode ip r w) f (files k)) k) h j.
Proof.
  intros [I J] Hin Ht. split; [by apply inode_inv|]. cbn [files set_files fd_fs]. pose proof (fi_len k h I f Hin) as Hf.
  pose proof (fi_ref k h I f Hf) as Hr. pose proof (held_in f h Hin). destruct (file_inodes_split (files k) f Hf) as (rest & E1 & E2).
  eapply holds_perm; [|exact J]. rewrite E1, E2. unfold file_at in *. unfold inode_ref. rewrite Ht. cbn. rewrite !bool_decide_true by (done || lia).
  rewrite (bool_decide_false (FD_NONE = FD_INODE)) by done. rewrite andb_false_r. cbn. by rewrite Permutation_middle.
Qed.

(** Whatever the kind of the file, a close gives back what the entry held. *)
Lemma refs_close k h h' j f : refs k h j -> h ≡ₚ f :: h' -> rwlp (fileclose f) k (fun _ k' => refs k' h' j).
Proof.
  intros [I J] Hp. assert (Hin : f ∈ h) by (rewrite Hp; left). pose proof (fi_len k h I f Hin) as Hf.
  pose proof (fi_ref k h I f Hf) as Hr. pose proof (held_in f h Hin) as Hh. apply wlp_rets. intros [] k' E. split.
  { apply (ft_perm k' (drop_one f h)); [apply (Permutation_cons_inv (a := f)); by rewrite <- Hp, <- drop_one_perm|]. by apply (close_inv k h f k' I). }
  destruct (file_inodes_split (files k) f Hf) as (rest & E1 & E2). fold (file_at k f) in E1, E2.
  unfold fileclose, ft_acquire, upd_file in E. rewrite kbind_assoc, kbind_get, (fi_lk k h I), kbind_modify, kbind_get in E.
  change (file_at (set_ft_lk true k) f) with (file_at k f) in E. rewrite (proj2 (Z.ltb_ge _ 1)) in E by lia.
  rewrite kbind_modify in E. destruct (Z.ltb_spec 0 (f_ref (file_at k f) - 1)) as [Hm|Hm].
  { unfold ft_release in E. rewrite kbind_get in E. cbn [ft_lk set_files set_ft_lk] in E. injection E as <-. cbn [files set_files fd_fs set_ft_lk].
    eapply holds_perm; [|exact J]. rewrite E1, E2. unfold inode_ref. cbn.
    by rewrite (bool_decide_true (0 < f_ref (file_at k f))), (bool_decide_true (0 < f_ref (file_at k f) - 1)) by lia. }
  rewrite kbind_get in E. set (ff := file_at _ f) in E. rewrite !kbind_modify in E. unfold ft_release in E.
  rewrite kbind_assoc, kbind_get in E. cbn [ft_lk set_files set_ft_lk] in E. rewrite kbind_modify in E.
  match type of E with _ ?st = _ => set (k1 := st) in E end.
  assert (Hk1 : files k1 = alter clear f (files k)) by (unfold k1; cbn; rewrite !alter_alter; by apply list_alter_ext).
  assert (Hc : file_inodes (files k1) ≡ₚ rest) by (rewrite Hk1, E2; done).
  assert (Eff : f_type ff = f_type (file_at k f) /\ f_ip ff = f_ip (file_at k f)) by (unfold ff, file_at; cbn; by rewrite nth_alter_eq).
  destruct Eff as [Et Ei]. rewrite Et in E.
  assert (Hone : inode_ref (file_at k f) = if decide (f_type (file_at k f) = FD_INODE) then [f_ip (file_at k f)] else []).
  { unfold inode_ref. rewrite (bool_decide_true (0 < _)) by lia. cbn. case_decide; [by rewrite bool_decide_true|by rewrite bool_decide_false]. }
  rewrite Hone in E1. assert (J1 : holds cw (fd_fs k1) (j ++ (if decide (f_type (file_at k f) = FD_INODE) then [f_ip (file_at k f)] else []) ++ file_inodes (files k1))).
  { change (fd_fs k1) with (fd_fs k). eapply holds_perm; [|exact J]. by rewrite E1, Hc. }
  clearbody k1. destruct (f_type (file_at k f)) eqn:Ety; cbn in J1.
  - injection E as <-. done.
  - unfold kbind in E. destruct (on_pipe _ _ k1) as [fr k2| | |] eqn:Ep; [|done..].
    unfold on_pipe, kzoom in Ep. destruct (pipeclose _ _) as [? pp| | |]; [|done..]. injection Ep as <- <-.
    destruct a; injection E as <-; exact J1.
  - rewrite Ei in E. unfold begin_tx, end_tx in E. assert (W : wlp (fs (blk tx_begin) ;; fs (iput (f_ip (file_at k f))) ;; fs (blk tx_end)) k1
      (fun _ k' => holds cw (fd_fs k') (j ++ file_inodes (files k'))) (fun _ => True)).
    { assert (Z0 : forall (c : K FS unit) k2 g, wlp c (fd_fs k2) (fun _ s => holds cw s g) (fun _ => True) ->
        wlp (fs c) k2 (fun _ k3 => holds cw (fd_fs k3) g /\ files k3 = files k2) (fun _ => True)).
      { intros c k2 g Hcc. unfold wlp, fs, kzoom in *. by destruct (c (fd_fs k2)). }
      apply wlp_bind. eapply wlp_mono; [eapply Z0, gives_quiet; [apply quiet_blk|exact J1]| |done]. intros _ k2 [J2 F2].
      apply wlp_bind. eapply wlp_mono; [eapply Z0, gives_iput; [exact J2|symmetry; apply Permutation_middle]| |done]. intros _ k3 [J3 F3].
      eapply wlp_mono; [eapply Z0, gives_quiet; [apply quiet_blk|exact J3]| |done]. intros _ k4 [J4 F4]. by rewrite F4, F3, F2. }
    by apply (proj1 (wlp_use _ _ _ _ W) _ _ E).
Qed.

(** The part about the inodes on its own. *)
Notation inos j k := (holds cw (fd_fs k) (j ++ file_inodes (files k))).
Notation iwlp j c k := (wlp c k (fun _ k' => inos j k') (fun _ => True)).

Lemma wlp_and {T A} (c : K T A) (s : T) Q Q' : wlp c s Q (fun _ => True) -> wlp c s Q' (fun _ => True) ->
  wlp c s (fun a s' => Q a s' /\ Q' a s') (fun _ => True).
Proof. unfold wlp. by destruct (c s). Qed.

Lemma iwlp_fs {A} (c : K FS A) k j : quiet c -> inos j k -> iwlp j (fs c) k.
Proof.
  intros Hq J. pose proof (gives_quiet cw c _ _ Hq J) as Hc. unfold wlp, fs, kzoom in *. by destruct (c (fd_fs k)).
Qed.

Lemma iwlp_bind {A C} (c : K F A) (d : A -> K F C) k j : iwlp j c k -> (forall a k', inos j k' -> iwlp j (d a) k') -> iwlp j (kbind c d) k.
Proof. intros Hc Hd. apply wlp_bind. eapply wlp_mono; [exact Hc| |done]. intros a k' Hk. by apply Hd. Qed.

Lemma iwlp_off f v (k : F) j : inos j k -> iwlp j (upd_file f (fun x => set_foff (u32 (f_off x + v)) x)) k.
Proof. intros J. apply wlp_modify. cbn [files set_files fd_fs]. eapply holds_perm; [|exact J]. by rewrite file_inodes_same. Qed.

Lemma iwlp_pipe {A} p (c : K pipe A) (k : F) j : inos j k -> iwlp j (on_pipe p c) k.
Proof. intros J. unfold wlp, on_pipe, kzoom. by destruct (c _). Qed.

Lemma iwlp_read f n k j : inos j k -> iwlp j (fileread dr f n) k.
Proof.
  intros J. unfold fileread. apply wlp_bind, wlp_get. destruct (negb _); [by apply wlp_ret|]. destruct (f_type _); [done| |].
  - apply wlp_bind, wlp_get. apply iwlp_bind; [by apply iwlp_pipe|]. intros [l| |] k1 J1; [by apply wlp_ret|done|by apply wlp_ret].
  - apply iwlp_bind; [by apply iwlp_fs; [apply quiet_ilock|]|]. intros _ k1 J1. apply iwlp_bind; [by apply iwlp_fs; [apply quiet_readi|]|]. intros r k2 J2.
    apply iwlp_bind; [destruct (0 <? _); [by apply iwlp_off|by apply wlp_ret]|]. intros _ k3 J3.
    apply iwlp_bind; [by apply iwlp_fs; [apply quiet_iunlock|]|]. intros _ k4 J4. by apply wlp_ret.
Qed.

Lemma iwlp_write_loop fuel f ip n j : forall src i k, inos j k -> iwlp j (filewrite_loop dw fuel f ip src i n) k.
Proof.
  induction fuel as [|fuel IH]; intros src i k J; cbn [filewrite_loop]; (destruct (i <? n); [|by apply wlp_ret]); [done|].
  unfold begin_tx, end_tx. apply iwlp_bind; [by apply iwlp_fs; [apply quiet_blk|]|]. intros _ k1 J1.
  apply iwlp_bind; [by apply iwlp_fs; [apply quiet_ilock|]|]. intros _ k2 J2. apply wlp_bind, wlp_get.
  apply iwlp_bind; [by apply iwlp_fs; [apply quiet_writei|]|]. intros r k3 J3.
  apply iwlp_bind; [destruct (0 <? _); [by apply iwlp_off|by apply wlp_ret]|]. intros _ k4 J4.
  apply iwlp_bind; [by apply iwlp_fs; [apply quiet_iunlock|]|]. intros _ k5 J5. apply iwlp_bind; [by apply iwlp_fs; [apply quiet_blk|]|]. intros _ k6 J6.
  destruct (r <? 0); [by apply wlp_ret|]. destruct (negb _); [done|]. by apply IH.
Qed.

Lemma iwlp_write f src n k j : inos j k -> iwlp j (filewrite dw f src n) k.
Proof.
  intros J. unfold filewrite. apply wlp_bind, wlp_get. destruct (negb _); [by apply wlp_ret|]. destruct (f_type _); [done| |].
  - apply wlp_bind, wlp_get. apply iwlp_bind; [by apply iwlp_pipe|]. intros r k1 J1. by destruct (pipewrite_result n r.1).
  - apply iwlp_bind; [by apply iwlp_write_loop|]. intros i k1 J1. by apply wlp_ret.
Qed.

Lemma refs_read f n k h j : refs k h j -> f ∈ h -> rwlp (fileread dr f n) k (fun _ k' => refs k' h j).
Proof.
  intros [I J] Hin. apply wlp_and; [|by apply iwlp_read]. eapply wlp_mono; [by apply keeps_read|done|done].
Qed.

Lemma refs_write f src n k h j : refs k h j -> f ∈ h -> rwlp (filewrite dw f src n) k (fun _ k' => refs k' h j).
Proof.
  intros [I J] Hin. apply wlp_and; [|by apply iwlp_write]. eapply wlp_mono; [by apply keeps_write|done|done].
Qed.

Lemma refs_stat f k h j : refs k h j -> rwlp (filestat f) k (fun _ k' => refs k' h j).
Proof.
  intros Hr. unfold filestat. apply wlp_bind, wlp_get. destruct (f_type _); [by apply wlp_ret..|].
  apply wlp_bind. eapply wlp_mono; [apply refs_quiet; [apply quiet_ilock|exact Hr]| |done]. intros ? k1 H1'.
  apply wlp_bind. eapply wlp_mono; [apply refs_quiet; [apply quiet_get|exact H1']| |done]. intros st k2 H2'.
  apply wlp_bind. eapply wlp_mono; [apply refs_quiet; [apply quiet_iunlock|exact H2']| |done]. intros ? k3 H3'. by apply wlp_ret.
Qed.

(** An entry that is not an open file becomes the end of a pipe. *)
Lemma inos_pipe_end g f k j : f_type (file_at k f) <> FD_INODE -> (forall x, f_type (g x) = FD_PIPE) -> inos j k ->
  holds cw (fd_fs k) (j ++ file_inodes (alter g f (files k))).
Proof.
  intros Ht Hg J. eapply holds_perm; [|exact J]. rewrite file_inodes_same; [reflexivity|]. intros x Hx. unfold file_at in Ht. rewrite Hx in Ht.
  unfold inode_ref. rewrite Hg, (bool_decide_false (FD_PIPE = _)), (bool_decide_false (f_type x = _)) by done. by rewrite !andb_false_r.
Qed.

Lemma iwlp_pipealloc page k h j : refs k h j -> iwlp j (pipealloc page) k.
Proof.
  intros Hr. unfold pipealloc. apply wlp_bind. eapply wlp_mono; [by eapply refs_alloc| |done].
  intros [f0|] k1 R1; [|apply wlp_ret, R1]. destruct R1 as (R1 & T0 & _).
  apply wlp_bind. eapply wlp_mono; [by eapply refs_alloc| |done]. intros [f1|] k2 R2.
  2: { apply wlp_bind. eapply wlp_mono; [by apply (refs_close k2 (f0 :: h) h j f0)| |done]. intros ? k3 R3. apply wlp_ret, R3. }
  destruct R2 as (R2 & T1 & Tk). rewrite <- Tk in T0. unfold page_alloc. apply wlp_bind, wlp_bind, wlp_get. destruct (fd_pages k2) as [|p l].
  - apply wlp_ret, wlp_bind. eapply wlp_mono; [apply (refs_close k2 _ (f1 :: h) j f0 R2), Permutation_swap| |done]. intros ? k3 R3.
    apply wlp_bind. eapply wlp_mono; [by apply (refs_close k3 (f1 :: h) h j f1)| |done]. intros ? k4 R4. apply wlp_ret, R4.
  - apply wlp_bind, wlp_modify, wlp_ret. unfold upd_file. do 7 apply wlp_bind, wlp_modify. apply wlp_ret. cbn [files set_files set_pipes set_pages fd_fs].
    rewrite !alter_alter. match goal with |- context [alter ?g1 f1 (alter ?g0 f0 _)] => set (e1 := g1); set (e0 := g0) end.
    set (k3 := set_files (alter e0 f0 (files k2)) k2).
    assert (J3 : inos j k3) by (apply (inos_pipe_end e0 f0 k2 j); [by rewrite T0|done|apply R2]).
    apply (inos_pipe_end e1 f1 k3 j); [|done|exact J3]. unfold file_at, k3. cbn [files set_files].
    destruct (decide (f1 = f0)) as [->|Hne]; [|rewrite nth_alter_ne by done; fold (file_at k2 f1); by rewrite T1].
    destruct (decide (f0 < length (files k2))%nat); [by rewrite nth_alter_eq|]. by rewrite alter_beyond, nth_overflow by lia.
Qed.

Lemma refs_pipealloc page k h j : refs k h j ->
  rwlp (pipealloc page) k (fun r k' => refs k' (match r.2 with Some (f0, f1) => f0 :: f1 :: h | None => h end) j).
Proof.
  intros Hr. apply wlp_and; [|by eapply iwlp_pipealloc]. apply wlp_rets. intros [v o] k' E.
  pose proof (pipealloc_inv k h page _ k' (proj1 Hr) E) as C. cbn in C |- *. destruct o as [[f0 f1]|]; apply C.
Qed.

(** ** Creation *)

Notation gives c s Q := (wlp c s (fun a s' => holds cw s' (Q a)) (fun _ => True)).

Lemma quiet_nlink ip (v : Z) : quiet (upd_inode ip (add_nlink v) : K FS unit).
Proof. quiet. Qed.

Lemma gives_make_dots ip dp (s : FS) h : holds cw s h -> gives (make_dots dr dw ip dp) s (fun _ => h).
Proof.
  intros Hs. unfold make_dots. eapply gives_seq; [apply quiet_nlink|exact Hs|]. intros _ s1 S1.
  eapply gives_seq; [apply quiet_iupdate|exact S1|]. intros _ s2 S2. unfold iget_field. apply wlp_bind, wlp_get.
  apply gives_bind with (Q := fun _ => h); [by apply (gives_dirlink dr dw Hdr Hdw)|]. intros v s3 S3. destruct (v <? 0); [done|]. apply wlp_bind, wlp_get.
  apply gives_bind with (Q := fun _ => h); [by apply (gives_dirlink dr dw Hdr Hdw)|]. intros v' s4 S4. by destruct (v' <? 0).
Qed.

Lemma gives_create junk path type ma mi (s : FS) h : holds cw s h -> cw ∈ h -> gives (create dr dw junk path type ma mi) s (fun r => got1 r h).
Proof.
  intros Hs Hin. unfold create, nameiparent. eapply gives_bind; [by apply (gives_namex dr Hdr)|]. intros [[dp name]|] s1 S1; [|by apply wlp_ret].
  cbn [got] in S1. eapply gives_seq; [apply quiet_ilock|exact S1|]. intros _ s2 S2.
  eapply gives_bind; [by apply (gives_dirlookup dr Hdr)|]. intros [[ip off]|] s3 S3; cbn [got] in S3.
  - eapply gives_unput; [exact S3|apply Permutation_swap|]. intros _ s4 S4. eapply gives_seq; [apply quiet_ilock|exact S4|]. intros _ s5 S5.
    unfold iget_field. apply wlp_bind, wlp_get. destruct (_ && _); [by apply wlp_ret|].
    eapply gives_unput; [exact S5|done|]. intros _ s6 S6. by apply wlp_ret.
  - unfold iget_field. apply wlp_bind, wlp_get. eapply gives_bind; [by apply gives_ialloc|]. intros ip s4 S4; cbn beta in S4.
    eapply gives_seq; [apply quiet_ilock|exact S4|]. intros _ s5 S5. eapply gives_seq; [by apply quiet_upd|exact S5|]. intros _ s6 S6.
    eapply gives_seq; [by apply quiet_upd|exact S6|]. intros _ s7 S7. eapply gives_seq; [apply quiet_iupdate|exact S7|]. intros _ s8 S8.
    apply gives_bind with (Q := fun _ => ip :: dp :: h); [destruct (type =? T_DIR); [by apply gives_make_dots|by apply wlp_ret]|]. intros _ s9 S9.
    apply wlp_bind, wlp_get. apply gives_bind with (Q := fun _ => ip :: dp :: h); [by apply (gives_dirlink dr dw Hdr Hdw)|]. intros v s10 S10; cbn beta in S10. destruct (v <? 0); [done|].
    eapply gives_unput; [exact S10|apply Permutation_swap|]. intros _ s11 S11. by apply wlp_ret.
Qed.

Lemma gives_open_inode junk path omode (s : FS) h : holds cw s h -> cw ∈ h -> gives (open_inode dr dw junk path omode) s (fun r => got1 r h).
Proof.
  intros Hs Hin. unfold open_inode. destruct (truth _); [by apply gives_create|].
  eapply gives_bind; [by apply (gives_namei dr Hdr)|]. intros [ip|] s1 S1; [|by apply wlp_ret]. cbn [got1] in S1.
  eapply gives_seq; [apply quiet_ilock|exact S1|]. intros _ s2 S2. unfold iget_field. apply wlp_bind, wlp_get.
  destruct (_ && _); [|by apply wlp_ret]. eapply gives_unput; [exact S2|done|]. intros _ s3 S3. by apply wlp_ret.
Qed.

Lemma refs_got1 (c : K FS (option nat)) k h j :
  (forall h', cw ∈ h' -> holds cw (fd_fs k) h' -> gives c (fd_fs k) (fun r => got1 r h')) -> cw ∈ j -> refs k h j ->
  rwlp (fs c) k (fun r k' => refs k' h (got1 r j)).
Proof.
  intros Hc Hin Hr. apply (refs_fs c k h j (fun r => got1 r j)); [done|].
  eapply wlp_mono; [apply (Hc (j ++ file_inodes (files k))); [set_solver|apply Hr]| |done]. by intros [ip|] s'.
Qed.

(** ** The calls *)

Section calls.
Notation S := (sysstate B).
Implicit Types s : S.
Variable junk : list Z.
Variable h0 j0 : list nat.     (* references of the other processes *)

Definition ofds s : list nat := omap id (sy_ofile s).
(** During a call: it holds [h] and [j] beyond the tables. *)
Definition mid s (h j : list nat) : Prop := refs (sy_fd s) (h ++ ofds s ++ h0) (j ++ cw :: j0).

Notation swlp c s Q := (wlp c s Q (fun _ => True)).
Notation done_with c s := (swlp c s (fun _ s' => mid s' [] [])).

Lemma mid_perm s h h' j j' : h ≡ₚ h' -> j ≡ₚ j' -> mid s h j -> mid s h' j'.
Proof. intros Eh Ej. apply refs_perm; by rewrite ?Eh, ?Ej. Qed.

Lemma mid_fd {A} (c : K F A) s h j (P : A -> F -> Prop) :
  (refs (sy_fd s) (h ++ ofds s ++ h0) (j ++ cw :: j0) -> rwlp c (sy_fd s) P) -> mid s h j ->
  swlp (fd c) s (fun a s' => P a (sy_fd s') /\ ofds s' = ofds s /\ sy_ofile s' = sy_ofile s /\ sy_u s' = sy_u s).
Proof. intros Hc Hm. specialize (Hc Hm). unfold wlp, fd, kzoom in *. by destruct (c (sy_fd s)). Qed.

(** The next routine of fs.c. *)
Lemma seq_fs {A C} (c : K FS A) (d : A -> K S C) s h j (g : A -> list nat) Q :
  (forall k h', refs k h' (j ++ cw :: j0) -> rwlp (fs c) k (fun a k' => refs k' h' (g a ++ cw :: j0))) -> mid s h j ->
  (forall a s', mid s' h (g a) -> swlp (d a) s' Q) -> swlp (kbind (fsys c) d) s Q.
Proof.
  intros Hc Hm Hd. apply wlp_bind. eapply wlp_mono; [apply (mid_fd (fs c) s h j); [apply Hc|exact Hm]| |done].
  intros a s' (P & E & _). apply Hd. unfold mid. by rewrite E.
Qed.

Lemma seq_quiet {A C} (c : K FS A) (d : A -> K S C) s h j Q :
  quiet c -> mid s h j -> (forall a s', mid s' h j -> swlp (d a) s' Q) -> swlp (kbind (fsys c) d) s Q.
Proof. intros Hq. apply (seq_fs c d s h j (fun _ => j)). intros k h' Hr. by apply refs_quiet. Qed.

Lemma seq_unput {C} ip (d : unit -> K S C) s h j j' Q :
  mid s h j -> j ≡ₚ ip :: j' -> (forall a s', mid s' h j' -> swlp (d a) s' Q) -> swlp (kbind (fsys (iunlockput ip)) d) s Q.
Proof. intros Hm Hp. apply (seq_fs _ d s h j (fun _ => j')); [|done]. intros k h' Hr. eapply refs_unput; [done|]. by rewrite Hp. Qed.

Lemma seq_put {C} ip (d : unit -> K S C) s h j j' Q :
  mid s h j -> j ++ cw :: j0 ≡ₚ ip :: j' ++ cw :: j0 -> (forall a s', mid s' h j' -> swlp (d a) s' Q) -> swlp (kbind (fsys (iput ip)) d) s Q.
Proof. intros Hm Hp. apply (seq_fs _ d s h j (fun _ => j')); [|done]. intros k h' Hr. by eapply refs_put. Qed.

Lemma seq_begin {C} (d : unit -> K S C) s h j Q : mid s h j -> (forall a s', mid s' h j -> swlp (d a) s' Q) -> swlp (kbind begin_op d) s Q.
Proof. apply (seq_quiet (blk tx_begin) d). apply quiet_blk. Qed.
Lemma seq_end {C} (d : unit -> K S C) s h j Q : mid s h j -> (forall a s', mid s' h j -> swlp (d a) s' Q) -> swlp (kbind end_op d) s Q.
Proof. apply (seq_quiet (blk tx_end) d). apply quiet_blk. Qed.

Lemma seq_arg {A} (get : uproc -> option A) (d : A -> K S Z) s Q :
  Q (-1) s -> (forall a, swlp (d a) s Q) -> swlp (arg get d) s Q.
Proof. intros Hn Hd. unfold arg. apply wlp_bind, wlp_get. destruct (get (sy_u s)); [apply Hd|by apply wlp_ret]. Qed.

(** Quiet routines also leave the tables alone. *)
Lemma seq_quiet_tables {A C} (c : K FS A) (d : A -> K S C) s h j Q :
  quiet c -> mid s h j ->
  (forall a s', mid s' h j -> files (sy_fd s') = files (sy_fd s) -> sy_ofile s' = sy_ofile s -> swlp (d a) s' Q) ->
  swlp (kbind (fsys c) d) s Q.
Proof.
  intros Hq Hm Hd. apply wlp_bind. pose proof (refs_quiet c (sy_fd s) _ _ Hq Hm) as Hc. unfold wlp, fsys, fd, fs, kzoom in *.
  destruct (c (fd_fs (sy_fd s))); [|done..]. by apply Hd.
Qed.

(** Descriptors. *)
Lemma omap_insert (l : list (option nat)) (k : nat) old : l !! k = Some old -> exists rest,
  omap id l ≡ₚ option_list old ++ rest /\ forall v, omap id (<[k := v]> l) ≡ₚ option_list v ++ rest.
Proof.
  revert k. induction l as [|x l IH]; intros k Hk; [done|]. destruct k as [|k]; cbn in Hk.
  - injection Hk as ->. exists (omap id l). split; [by destruct old|]. intros v. by destruct v.
  - destruct (IH k Hk) as (rest & E1 & E2). exists (option_list x ++ rest). split.
    + rewrite (Permutation_app_swap_app (option_list old)), <- E1. by destruct x.
    + intros v. rewrite (Permutation_app_swap_app (option_list v)), <- E2. by destruct x.
Qed.

Lemma argfd_spec n s fdn f : argfd n s = Some (fdn, f) -> sy_ofile s !! Z.to_nat fdn = Some (Some f).
Proof.
  unfold argfd. destruct (argint (sy_u s) n) as [i|]; [|done]. destruct (_ || _); [done|].
  destruct (nth (Z.to_nat i) (sy_ofile s) None) as [g|] eqn:E; [|done]. intros [= <- <-].
  destruct (nth_lookup_or_length (sy_ofile s) (Z.to_nat i) None) as [E'|E']; [by rewrite E', E|]. rewrite nth_overflow in E by done. done.
Qed.

Lemma argfd_in n s fdn f : argfd n s = Some (fdn, f) -> f ∈ ofds s.
Proof.
  intros E%argfd_spec. unfold ofds. apply list_elem_of_omap. exists (Some f). split; [by eapply list_elem_of_lookup_2|done].
Qed.

Lemma find_fd_spec l n (k : nat) : find_fd l n = Some k -> (n <= k)%nat /\ l !! (k - n)%nat = Some None.
Proof.
  revert n. induction l as [|[x|] l IH]; intros n E; cbn in E; [done| |injection E as <-; by rewrite Nat.sub_diag].
  apply IH in E as [E1 E2]. split; [lia|]. by replace (k - n)%nat with (Datatypes.S (k - Datatypes.S n)) by lia.
Qed.

Lemma fdalloc_cases f s : wp (fdalloc f) s (fun v s' =>
  (v = -1 /\ s' = s) \/ (0 <= v /\ ofds s' ≡ₚ f :: ofds s /\ sy_fd s' = sy_fd s /\ sy_ofile s' !! Z.to_nat v = Some (Some f))).
Proof.
  unfold fdalloc. apply wp_bind, wp_get. destruct (find_fd (sy_ofile s) 0) as [k|] eqn:E; [|apply wp_ret; by left].
  apply find_fd_spec in E as [_ E]. rewrite Nat.sub_0_r in E. apply wp_bind, wp_modify, wp_ret. right. split; [lia|].
  destruct (omap_insert _ _ _ E) as (rest & E1 & E2). unfold ofds. cbn [sy_ofile set_ofiles]. split; [by rewrite E2, E1|]. split; [done|].
  rewrite Nat2Z.id. apply list_lookup_insert_eq. by eapply lookup_lt_Some.
Qed.

Lemma seq_fdalloc {C} f (d : Z -> K S C) s h j Q : mid s (f :: h) j -> swlp (d (-1)) s Q ->
  (forall v s', 0 <= v -> mid s' h j -> sy_ofile s' !! Z.to_nat v = Some (Some f) -> sy_fd s' = sy_fd s -> swlp (d v) s' Q) ->
  swlp (kbind (fdalloc f) d) s Q.
Proof.
  intros Hm Hn Hd. pose proof (fdalloc_cases f s) as Hc. unfold wp in Hc. apply wlp_bind. unfold wlp at 1. destruct (fdalloc f s) as [v s'| | |]; [|done..].
  destruct Hc as [[-> ->]|(Hv & Ho & Ef & Hl)]; [done|]. apply Hd; try done. unfold mid in *. rewrite Ef.
  eapply refs_perm; [|done|exact Hm]. rewrite Ho. apply Permutation_middle.
Qed.

Lemma seq_close {C} f (d : unit -> K S C) s h h' j Q : mid s h j -> h ++ ofds s ++ h0 ≡ₚ f :: h' ++ ofds s ++ h0 ->
  (forall a s', mid s' h' j -> swlp (d a) s' Q) -> swlp (kbind (fd (fileclose f)) d) s Q.
Proof.
  intros Hm Hp Hd. apply wlp_bind. eapply wlp_mono; [apply (mid_fd (fileclose f) s h j _ (fun R => refs_close _ _ (h' ++ ofds s ++ h0) _ f R Hp) Hm)| |done].
  intros a s' (P & E & _). apply Hd. unfold mid. by rewrite E.
Qed.

Lemma with_fd_spec n (d : Z * nat -> K S Z) s Q : Q (-1) s ->
  (forall fdn f, sy_ofile s !! Z.to_nat fdn = Some (Some f) -> f ∈ ofds s -> swlp (d (fdn, f)) s Q) -> swlp (with_fd n d) s Q.
Proof.
  intros Hn Hd. unfold with_fd. apply wlp_bind, wlp_get. destruct (argfd n s) as [[fdn f]|] eqn:E; [|by apply wlp_ret].
  apply Hd; [by eapply argfd_spec|by eapply argfd_in].
Qed.

(** *** Each call *)

Lemma refs_sys_dup s : mid s [] [] -> done_with sys_dup s.
Proof.
  intros Hm. unfold sys_dup. apply with_fd_spec; [done|]. intros fdn f Hl Hin. apply wlp_bind.
  pose proof (fdalloc_cases f s) as Hc. unfold wp in Hc. unfold wlp at 1. destruct (fdalloc f s) as [v s1| | |]; [|done..].
  destruct Hc as [[-> ->]|(Hv & Ho & Ef & _)]; [by apply wlp_ret|]. rewrite (proj2 (Z.ltb_ge _ _)) by done. apply wlp_bind.
  assert (Hd : rwlp (filedup f) (sy_fd s1) (fun _ k' => refs k' (f :: ofds s ++ h0) (cw :: j0))).
  { rewrite Ef. apply refs_dup; [exact Hm|]. set_solver. }
  unfold wlp, fd, kzoom in *. destruct (filedup f (sy_fd s1)) as [f' k'| | |]; [|done..].
  eapply refs_perm; [|done|exact Hd]. unfold ofds in *. cbn [sy_ofile set_fd]. by rewrite Ho.
Qed.

Lemma refs_sys_read s : mid s [] [] -> done_with (sys_read dr) s.
Proof.
  intros Hm. unfold sys_read. apply with_fd_spec; [done|]. intros fdn f Hl Hin. apply seq_arg; [done|]. intros n. apply seq_arg; [done|]. intros p.
  apply wlp_bind. eapply wlp_mono; [eapply (mid_fd _ s [] [] _ (fun R => refs_read f n _ _ _ R ltac:(set_solver)) Hm)| |done].
  intros r s1 (P & E & _). apply wlp_bind, wlp_modify, wlp_ret. unfold mid, ofds in *. cbn [sy_fd sy_ofile set_u]. by rewrite E.
Qed.

Lemma refs_sys_write s : mid s [] [] -> done_with (sys_write dw) s.
Proof.
  intros Hm. unfold sys_write. apply with_fd_spec; [done|]. intros fdn f Hl Hin. apply seq_arg; [done|]. intros n. apply seq_arg; [done|]. intros p.
  apply wlp_bind, wlp_get. eapply wlp_mono; [eapply (mid_fd _ s [] [] _ (fun R => refs_write f _ n _ _ _ R ltac:(set_solver)) Hm)| |done].
  intros r s1 (P & E & _). unfold mid. by rewrite E.
Qed.

Lemma refs_sys_fstat s : mid s [] [] -> done_with sys_fstat s.
Proof.
  intros Hm. unfold sys_fstat. apply with_fd_spec; [done|]. intros fdn f Hl Hin. apply seq_arg; [done|]. intros p.
  apply wlp_bind. eapply wlp_mono; [eapply (mid_fd _ s [] [] _ (fun R => refs_stat f _ _ _ R) Hm)| |done].
  intros r s1 (P & E & _). assert (Hm1 : mid s1 [] []) by (unfold mid; by rewrite E).
  destruct (r.2); [apply wlp_bind, wlp_modify|]; by apply wlp_ret.
Qed.

(** The slot of a descriptor is cleared; the call holds its reference. *)
Lemma mid_clear s (fdn : Z) f h j : sy_ofile s !! Z.to_nat fdn = Some (Some f) -> mid s h j ->
  mid (set_ofiles (<[Z.to_nat fdn := None]> (sy_ofile s)) s) (f :: h) j.
Proof.
  intros Hl Hm. destruct (omap_insert _ _ _ Hl) as (rest & E1 & E2). unfold mid, ofds in *. cbn [sy_ofile sy_fd set_ofiles].
  eapply refs_perm; [|done|exact Hm]. rewrite E1, (E2 None). cbn. by rewrite <- Permutation_middle.
Qed.

Lemma refs_sys_close s : mid s [] [] -> done_with sys_close s.
Proof.
  intros Hm. unfold sys_close. apply with_fd_spec; [done|]. intros fdn f Hl Hin. unfold clear_fd. apply wlp_bind, wlp_modify.
  eapply (seq_close f _ _ [f] [] []); [by apply (mid_clear s fdn f [] [])|done|]. intros _ s1 H1'. by apply wlp_ret.
Qed.

Lemma refs_sys_pipe page s : mid s [] [] -> done_with (sys_pipe page) s.
Proof.
  intros Hm. unfold sys_pipe. apply seq_arg; [done|]. intros p.
  apply wlp_bind. eapply wlp_mono; [eapply (mid_fd _ s [] [] _ (fun R => refs_pipealloc page _ _ _ R) Hm)| |done].
  intros [v o] s1 (P & E & _). cbn [snd] in *. destruct o as [[rf wf]|]; [|apply wlp_ret; unfold mid; by rewrite E].
  assert (Hm1 : mid s1 [rf; wf] []) by (unfold mid; by rewrite E). clear P E.
  eapply seq_fdalloc; [exact Hm1| |].
  { cbn. eapply (seq_close rf _ _ _ [wf]); [exact Hm1|done|]. intros _ s2 H2'. eapply (seq_close wf _ _ _ []); [exact H2'|done|]. intros _ s3 H3'. by apply wlp_ret. }
  intros fd0 s2 Hv0 Hm2 Hl2 _. rewrite (proj2 (Z.ltb_ge _ _)) by done. eapply seq_fdalloc; [exact Hm2| |].
  { cbn. unfold clear_fd. apply wlp_bind, wlp_modify. pose proof (mid_clear s2 fd0 rf _ _ Hl2 Hm2) as Hm3.
    eapply (seq_close rf _ _ _ [wf]); [exact Hm3|done|]. intros _ s3 H3'. eapply (seq_close wf _ _ _ []); [exact H3'|done|]. intros _ s4 H4'. by apply wlp_ret. }
  intros fd1 s3 Hv1 Hm3 _ _. rewrite (proj2 (Z.ltb_ge _ _)) by done. apply wlp_bind, wlp_modify, wlp_bind, wlp_modify, wlp_ret. exact Hm3.
Qed.

(** Routines that answer a reference. *)
Lemma seq_got1 {C} (c : K FS (option nat)) (d : option nat -> K S C) s h j Q :
  (forall (t : FS) h', holds cw t h' -> cw ∈ h' -> gives c t (fun r => got1 r h')) -> mid s h j ->
  (forall r s', mid s' h (got1 r j) -> swlp (d r) s' Q) -> swlp (kbind (fsys c) d) s Q.
Proof.
  intros Hc. apply (seq_fs c d s h j (fun r => got1 r j)). intros k h' Hr.
  eapply wlp_mono; [apply (refs_got1 c k h' (j ++ cw :: j0)); [intros; by apply Hc|set_solver|exact Hr]| |done]. by intros [ip|] k'.
Qed.

Lemma seq_namex {C} path np name (d : option (nat * list Z) -> K S C) s h j Q : mid s h j ->
  (forall r s', mid s' h (got r j) -> swlp (d r) s' Q) -> swlp (kbind (fsys (namex dr path np name)) d) s Q.
Proof.
  apply (seq_fs _ d s h j (fun r => got r j)). intros k h' Hr. eapply wlp_mono; [apply refs_namex; [exact Hr|set_solver]| |done]. by intros [[ip n]|] k'.
Qed.

Lemma seq_dirlookup {C} dp name (d : option (nat * Z) -> K S C) s h j Q : mid s h j ->
  (forall r s', mid s' h (got r j) -> swlp (d r) s' Q) -> swlp (kbind (fsys (dirlookup dr dp name)) d) s Q.
Proof.
  apply (seq_fs _ d s h j (fun r => got r j)). intros k h' Hr. eapply wlp_mono; [by apply refs_dirlookup| |done]. by intros [[ip n]|] k'.
Qed.

Lemma seq_dirlink {C} dp name inum (d : Z -> K S C) s h j Q : mid s h j ->
  (forall r s', mid s' h j -> swlp (d r) s' Q) -> swlp (kbind (fsys (dirlink dr dw dp name inum)) d) s Q.
Proof. apply (seq_fs _ d s h j (fun _ => j)). intros k h' Hr. by apply refs_dirlink. Qed.

(** The end of the failing paths: drop the lock and the reference, end the operation. *)
Lemma refs_drop ip (v : Z) s j : mid s [] j -> j ≡ₚ [ip] -> done_with (fsys (iunlockput ip) ;; end_op ;; kret v) s.
Proof. intros Hm Hp. eapply seq_unput; [exact Hm|exact Hp|]. intros _ s1 M1. eapply seq_end; [exact M1|]. intros _ s2 M2. by apply wlp_ret. Qed.

Lemma refs_link_bad ip s : mid s [] [ip] -> done_with (link_bad ip) s.
Proof.
  intros Hm. unfold link_bad. eapply seq_quiet; [apply quiet_ilock|exact Hm|]. intros _ s1 M1.
  eapply seq_quiet; [apply quiet_nlink|exact M1|]. intros _ s2 M2. eapply seq_quiet; [apply quiet_iupdate|exact M2|]. intros _ s3 M3.
  by eapply refs_drop.
Qed.

Lemma refs_sys_link s : mid s [] [] -> done_with (sys_link dr dw junk) s.
Proof.
  intros Hm. unfold sys_link. apply seq_arg; [done|]. intros old. apply seq_arg; [done|]. intros new.
  eapply seq_begin; [exact Hm|]. intros _ s1 M1. eapply seq_got1; [intros; by apply (gives_namei dr Hdr)|exact M1|]. intros [ip|] s2 M2; cbn [got1] in M2.
  2: { eapply seq_end; [exact M2|]. intros _ s3 M3. by apply wlp_ret. }
  eapply seq_quiet; [apply quiet_ilock|exact M2|]. intros _ s3 M3. eapply seq_quiet; [apply quiet_get|exact M3|]. intros t s4 M4.
  destruct (t =? T_DIR); [by eapply refs_drop|].
  eapply seq_quiet; [apply quiet_nlink|exact M4|]. intros _ s5 M5. eapply seq_quiet; [apply quiet_iupdate|exact M5|]. intros _ s6 M6.
  eapply seq_quiet; [apply quiet_iunlock|exact M6|]. intros _ s7 M7. unfold nameiparent. eapply seq_namex; [exact M7|]. intros [[dp name]|] s8 M8; cbn [got] in M8.
  2: by apply refs_link_bad.
  eapply seq_quiet; [apply quiet_ilock|exact M8|]. intros _ s9 M9. eapply seq_quiet; [apply quiet_get|exact M9|]. intros ddev s10 M10.
  eapply seq_quiet; [apply quiet_get|exact M10|]. intros idev s11 M11. eapply seq_quiet; [apply quiet_get|exact M11|]. intros inum s12 M12.
  apply wlp_bind. eapply wlp_mono with (Q := fun _ s' => mid s' [] [dp; ip]) (R := fun _ => True); [|intros bad s13 M13|done].
  { destruct (negb _); [by apply wlp_ret|]. eapply seq_dirlink; [exact M12|]. intros v s13 M13. by apply wlp_ret. }
  destruct bad.
  - eapply seq_unput; [exact M13|done|]. intros _ s14 M14. by apply refs_link_bad.
  - eapply seq_unput; [exact M13|done|]. intros _ s14 M14. eapply (seq_put ip _ _ _ _ []); [exact M14|done|]. intros _ s15 M15.
    eapply seq_end; [exact M15|]. intros _ s16 M16. by apply wlp_ret.
Qed.

Lemma quiet_isdirempty dp : quiet (isdirempty dr dp : K FS bool).
Proof. unfold isdirempty, iget_field. quiet. by apply quiet_read_dirent. Qed.

Lemma refs_sys_unlink s : mid s [] [] -> done_with (sys_unlink dr dw junk) s.
Proof.
  intros Hm. unfold sys_unlink. apply seq_arg; [done|]. intros path. eapply seq_begin; [exact Hm|]. intros _ s1 M1.
  unfold nameiparent. eapply seq_namex; [exact M1|]. intros [[dp name]|] s2 M2; cbn [got] in M2.
  2: { eapply seq_end; [exact M2|]. intros _ s3 M3. by apply wlp_ret. }
  eapply seq_quiet; [apply quiet_ilock|exact M2|]. intros _ s3 M3. destruct (_ || _); [by eapply refs_drop|].
  eapply seq_dirlookup; [exact M3|]. intros [[ip off]|] s4 M4; cbn [got] in M4; [|by eapply refs_drop].
  eapply seq_quiet; [apply quiet_ilock|exact M4|]. intros _ s5 M5. eapply seq_quiet; [apply quiet_get|exact M5|]. intros nl s6 M6.
  destruct (nl <? 1); [done|]. eapply seq_quiet; [apply quiet_get|exact M6|]. intros t s7 M7.
  apply wlp_bind. eapply wlp_mono with (Q := fun _ s' => mid s' [] [ip; dp]) (R := fun _ => True); [|intros full s8 M8|done].
  { destruct (t =? T_DIR); [|by apply wlp_ret]. eapply seq_quiet; [apply quiet_isdirempty|exact M7|]. intros e s8 M8. by apply wlp_ret. }
  destruct full. { eapply seq_unput; [exact M8|done|]. intros _ s9 M9. by eapply refs_drop. }
  eapply seq_quiet; [by apply quiet_writei|exact M8|]. intros w s9 M9. destruct (negb _); [done|].
  apply wlp_bind. eapply wlp_mono with (Q := fun _ s' => mid s' [] [ip; dp]) (R := fun _ => True); [|intros _ s10 M10|done].
  { destruct (t =? T_DIR); [|by apply wlp_ret]. eapply seq_quiet; [apply quiet_nlink|exact M9|]. intros _ s10 M10.
    pose proof (refs_quiet (iupdate dp) (sy_fd s10) _ _ (quiet_iupdate dp) M10) as W. unfold wlp, fsys, fd, kzoom in *. by destruct (fs (iupdate dp) (sy_fd s10)). }
  eapply seq_unput; [exact M10|apply Permutation_swap|]. intros _ s11 M11. eapply seq_quiet; [apply quiet_nlink|exact M11|]. intros _ s12 M12.
  eapply seq_quiet; [apply quiet_iupdate|exact M12|]. intros _ s13 M13. by eapply refs_drop.
Qed.

Lemma refs_make_node args type s : mid s [] [] -> done_with (make_node dr dw junk args type) s.
Proof.
  intros Hm. unfold make_node. eapply seq_begin; [exact Hm|]. intros _ s1 M1. apply wlp_bind, wlp_get.
  assert (He : forall s', mid s' [] [] -> done_with (end_op ;; kret (-1)) s').
  { intros s' M'. eapply seq_end; [exact M'|]. intros _ s2 M2. by apply wlp_ret. }
  destruct (args (sy_u s1)) as [[[path ma] mi]|]; [|by apply wlp_bind, wlp_ret, He].
  eapply seq_got1; [intros; by apply gives_create|exact M1|]. intros [ip|] s2 M2; cbn [got1] in M2; [by eapply refs_drop|by apply He].
Qed.

(** The end of sys_open: the descriptor takes over the reference to the inode. *)
Lemma refs_open_end ip f r w (v : Z) s : mid s [] [ip] -> f ∈ ofds s -> f_type (file_at (sy_fd s) f) = FD_NONE ->
  done_with (fsys (iunlock ip) ;; end_op ;; fd (upd_file f (as_inode ip r w)) ;; kret v) s.
Proof.
  intros Hm Hin Ht. eapply seq_quiet_tables; [apply quiet_iunlock|exact Hm|]. intros _ s1 M1 F1 O1.
  change end_op with (fsys (blk tx_end : K FS unit)). eapply seq_quiet_tables; [apply quiet_blk|exact M1|]. intros _ s2 M2 F2 O2.
  apply wlp_bind. unfold fd, wlp, kzoom, upd_file, kmodify. unfold mid, ofds in *. cbn [sy_fd sy_ofile set_fd]. apply (refs_open _ _ _ f ip r w M2).
  - rewrite O2, O1. set_solver.
  - unfold file_at in *. by rewrite F2, F1.
Qed.

Lemma refs_sys_open s : mid s [] [] -> done_with (sys_open dr dw junk) s.
Proof.
  intros Hm. unfold sys_open. apply seq_arg; [done|]. intros path. apply seq_arg; [done|]. intros omode.
  eapply seq_begin; [exact Hm|]. intros _ s1 M1. eapply seq_got1; [intros; by apply gives_open_inode|exact M1|]. intros [ip|] s2 M2; cbn [got1] in M2.
  2: { eapply seq_end; [exact M2|]. intros _ s3 M3. by apply wlp_ret. }
  apply wlp_bind. eapply wlp_mono; [apply (mid_fd _ s2 [] [ip] _ (fun R => refs_alloc _ _ _ R) M2)| |done]. intros [f|] s3 (P & E & _).
  2: { eapply refs_drop; [unfold mid; rewrite E; exact P|done]. }
  destruct P as (P & Ht & _). assert (M3 : mid s3 [f] [ip]) by (unfold mid; by rewrite E). eapply seq_fdalloc; [exact M3| |].
  - cbn. eapply (seq_close f _ _ _ []); [exact M3|done|]. intros _ s4 M4. by eapply refs_drop.
  - intros v s4 Hv M4 Hl Ef. rewrite (proj2 (Z.ltb_ge _ _)) by done. apply refs_open_end; [done| |by rewrite Ef].
    unfold ofds. apply list_elem_of_omap. exists (Some f). split; [by eapply list_elem_of_lookup_2|done].
Qed.
End calls.

(** A change of directory moves the reference of the process. *)
Lemma refs_chdir_end h0 j0 ip (s : sysstate B) : mid h0 j0 s [] [ip] ->
  wlp (let! cwd := fsys (kget fs_cwd) in fsys (iput cwd) ;; end_op ;; fsys (kmodify (set_fcwd ip)) ;; kret 0) s
    (fun _ s' => fs_cwd (fd_fs (sy_fd s')) = ip /\ ft_inv (sy_fd s') (ofds s' ++ h0) /\
       icache_inv (fd_fs (sy_fd s')) (ip :: j0 ++ file_inodes (files (sy_fd s')))) (fun _ => True).
Proof.
  intros Hm. change (let! cwd := fsys (kget fs_cwd) in fsys (iput cwd) ;; end_op ;; fsys (kmodify (set_fcwd ip)) ;; kret 0)
    with (kbind (fsys (B := B) (kget fs_cwd)) (fun cwd => fsys (iput cwd) ;; end_op ;; fsys (kmodify (set_fcwd ip)) ;; kret 0)).
  apply wlp_bind. assert (Hc : fs_cwd (fd_fs (sy_fd s)) = cw) by apply Hm.
  unfold wlp at 1, fsys at 1, fd at 1, fs at 1, kzoom, kget. rewrite Hc.
  set (s1 := set_fd _ s). assert (M1 : mid h0 j0 s1 [] [ip]) by (destruct s as [[] ]; exact Hm). clearbody s1. clear Hm Hc s.
  apply wlp_bind. unfold wlp at 1. unfold fsys at 1, fd at 1, kzoom at 1.
  pose proof (refs_put cw (sy_fd s1) _ _ (ip :: j0) M1 (Permutation_swap _ _ _)) as W. unfold wlp in W.
  destruct (fs (iput cw) (sy_fd s1)) as [u k2| | |]; [|done..]. apply wlp_bind. unfold wlp at 1. unfold end_op, end_tx, fd at 1, kzoom at 1. cbn [sy_fd set_fd].
  pose proof (refs_quiet (blk tx_end) k2 _ _ (quiet_blk _) W) as W2. unfold wlp in W2.
  destruct (fs (blk tx_end) k2) as [u3 k3| | |]; [|done..]. destruct W2 as [I3 [J3 C3]]. cbn. split; [done|]. split.
  - unfold ofds in *. cbn. by apply (inv_fs k3).
  - destruct J3 as [L1 L2 L3 L4]. by constructor.
Qed.
End refs.
