(* ===== verification/FileWrite.v ===== *)
(** * filewrite on an inode (file.c)

    A write is cut into chunks, each in a transaction of its own.  A chunk always fits
    in what a transaction may log, so the whole is written, however long it is. *)

From S2P Require Import Prelude Layout Sleeplock Pipe Fsdefs Fs FsBlocks FsAlloc FsFile FsRw FsTrunc FsRwProps File.

Section filewrite.
Context `{FH : FsH} {FL : FsLaws} {B : Type} `{BL : BlockLayer B} {LL : BlockLaws B} `{TL : TxLayer B} {TW : TxLaws B}.
Variable ip : nat.
Notation ino := (ino ip).

(** ** The end of a transaction leaves every file alone *)

Section home_view.
Context (s : fsstate B) (B' : B).
Hypothesis H1 : bl_home 1.
Hypothesis Hv : forall y, bl_home y -> bl_view B' y = view s y.
Hypothesis Hn : forall n, (forall y, length (view s y) = n) -> forall y, length (bl_view B' y) = n.
Hypothesis Hf : file_ok ip s.
Notation s' := (set_blk B' s).

Lemma hv_use b : 0 <= b < sb_size (fs_sb s) -> in_use s' b = in_use s b.
Proof.
  intros Hb. unfold in_use, view at 1. cbn [fs_sb fs_blk set_blk]. rewrite Hv; [done|].
  apply (do_map s (fo_disk ip s Hf) b Hb).
Qed.

Lemma hv_disk : disk_ok s'.
Proof.
  pose proof (fo_disk ip s Hf) as [D1 D2 D3 D4 D5 (D6 & D7 & D8 & D9)]. constructor; cbn [fs_sb set_blk]; try done.
  - intros x. unfold view. cbn. by apply Hn.
  - intros b Hb. rewrite hv_use by done. by apply D4.
  - intros b Hb. destruct (D5 b Hb) as (E1 & E2 & E3). split; [done|]. split; [done|]. by rewrite hv_use.
  - split; [done|]. split; [by rewrite hv_use by lia|]. split; [|done]. unfold view. cbn. by rewrite Hv.
Qed.

Lemma hv_blockno k : blockno ip s' k = blockno ip s k.
Proof.
  unfold blockno. change (FsFile.ino ip s') with (ino s). change (ind ip s') with (ind ip s).
  destruct (k <? NDIRECT); [done|]. destruct (Z.eqb_spec (ind ip s) 0) as [|E]; [done|].
  unfold view at 1. cbn. rewrite Hv; [done|]. by apply (io_ind ip s (fo_ino ip s Hf)).
Qed.

Lemma hv_data_block y : data_block ip s' y <-> data_block ip s y.
Proof.
  unfold data_block. change (fs_sb s') with (fs_sb s). change (iblk ip s') with (iblk ip s). change (in_map s' y) with (in_map s y).
  split; intros (E1 & E2 & E3); (split; [done|]); (split; [|done]); [by rewrite <- hv_use by lia|by rewrite hv_use by lia].
Qed.

Lemma hv_fbyte o : 0 <= o < MAXFILE * BSIZE -> fbyte ip s' o = fbyte ip s o.
Proof.
  intros Ho. pose proof bsize_pos. unfold fbyte, fblock. rewrite hv_blockno.
  destruct (Z.eqb_spec (blockno ip s (o / BSIZE)) 0) as [|E]; [done|]. unfold view at 1. cbn. rewrite Hv; [done|].
  apply (io_blk ip s (fo_ino ip s Hf)); [|done]. split; [apply Z.div_pos; lia|apply Z.div_lt_upper_bound; lia].
Qed.

Lemma hv_file_ok : file_ok ip s'.
Proof.
  pose proof (fo_disk ip s Hf) as Hd. destruct Hf as [F1 F2 F3 F4 F5 F6]. pose proof F2 as [I1 I2 I3 I4 I5 I6 I7 I8]. constructor; try done.
  - apply hv_disk.
  - constructor; try done.
    + intros k Hk. rewrite hv_blockno, hv_data_block. by apply I4.
    + intros E. rewrite hv_data_block. by apply I5.
    + intros j k Hj Hk. rewrite !hv_blockno. by apply I6.
    + rewrite hv_use; [done|]. pose proof (do_size s Hd). lia.
    + destruct I8 as (J1 & J2 & J3). split; [done|]. split; [|done]. change (iblk ip s') with (iblk ip s). by rewrite hv_use by lia.
  - destruct F3 as [G1 G2]. split; [done|]. intros k Hk1 Hk2. rewrite hv_blockno. by apply G2.
  - unfold synced in *. change (iblk ip s') with (iblk ip s). unfold view. cbn. rewrite Hv; [done|]. apply I8.
Qed.

Lemma hv_nfree : nfree s' = nfree s.
Proof.
  unfold nfree. cbn [fs_sb set_blk]. f_equal. apply filter_ext_in. intros b Hb%elem_of_seqZ. by rewrite hv_use by lia.
Qed.
End home_view.

(** ** Locking a valid inode *)

(** An inode that is referenced, read in and unlocked. *)
Definition inode_idle (s : fsstate B) : Prop :=
  unlocked ip s /\ 1 <= i_ref (ino s) /\ i_valid (ino s) <> 0 /\ (ip < length (inodes s))%nat.

Lemma ilock_valid (s : fsstate B) : inode_idle s ->
  ilock ip s = Ret tt (with_ino ip (set_ilock (SleepLock 1 false (sl_name (i_lock (ino s))) (fs_pid s))) s).
Proof.
  intros (Hu & Hr & Hva & Hl). unfold ilock, iget_field. rewrite kbind_get. fold (ino s). rewrite (proj2 (Z.ltb_ge _ _) Hr).
  rewrite (kbind_ret _ _ _ _ _ (acquiresleep_ino ip s Hu)). rewrite kbind_get. unfold id.
  set (g := set_ilock _). set (s1 := with_ino ip g s). assert (Ei : inode_at s1 ip = g (ino s)) by (by apply upd_ino).
  rewrite Ei. cbn [i_valid g set_ilock]. by rewrite (proj2 (Z.eqb_neq _ _) Hva).
Qed.

(** Locking an inode that was not read in yet reads its disk inode. *)
Lemma ilock_fresh (s : fsstate B) T : bl_ok (fs_blk s) ∅ T -> unlocked ip s -> 1 <= i_ref (ino s) -> i_valid (ino s) = 0 ->
  i_dev (ino s) = ROOTDEV -> (ip < length (inodes s))%nat -> bl_block (iblk ip s) ->
  let d := dinode_at (view s (iblk ip s)) (i_inum (ino s) mod IPB) in di_type d <> 0 ->
  exists B', ilock ip s = Ret tt (set_blk B' (with_ino ip (fun i => set_valid 1 (load_dinode d
      (set_ilock (SleepLock 1 false (sl_name (i_lock (ino s))) (fs_pid s)) i))) s)) /\
    bl_ok B' ∅ T /\ forall y, bl_view B' y = view s y.
Proof.
  intros Hok Hu Hr Hva Hdev Hl Hbl d Hty. set (g := set_ilock (SleepLock 1 false (sl_name (i_lock (ino s))) (fs_pid s))).
  set (x := iblk ip s) in *. cut (wp (ilock ip) s (fun _ s' => exists B', s' = set_blk B' (with_ino ip (fun i => set_valid 1 (load_dinode d (g i))) s) /\
    bl_ok B' ∅ T /\ forall y, bl_view B' y = view s y)).
  { intros (u & s' & E & B' & -> & Hw)%wp_iff. destruct u. by exists B'. }
  unfold ilock, iget_field. apply wp_bind, wp_get. fold (ino s). rewrite (proj2 (Z.ltb_ge _ _) Hr).
  apply wp_bind. unfold wp at 1. rewrite (acquiresleep_ino ip s Hu). fold g. set (s1 := with_ino ip g s). apply wp_bind, wp_get. unfold id.
  assert (Ei : inode_at s1 ip = g (ino s)) by (by apply upd_ino). rewrite Ei. cbn [i_valid i_dev i_inum g set_ilock]. rewrite Hva, Hdev. cbn [Z.eqb].
  apply wp_bind, wp_get. change (IBLOCK (i_inum (ino s)) (fs_sb s1)) with x. apply wp_bind.
  eapply (wp_bread s1 ∅ T x); [done|set_solver|done|rewrite size_empty; apply max_held_pos|].
  intros bp B1 Ok1 Hh1 V1 K1. apply wp_bind. eapply (wp_bdata _ ({[x]} ∪ ∅) T x); [done|set_solver|done|].
  rewrite (sv_view s1 B1 V1). change (view s1 x) with (view s x). fold d. apply wp_bind, wp_modify, wp_bind.
  eapply (wp_brelse _ ({[x]} ∪ ∅) T x bp); [exact Ok1|set_solver|done|]. intros B2 Ok2 V2 K2.
  replace (({[x]} ∪ ∅) ∖ {[x]}) with (∅ : gset Z) in Ok2 by set_solver. apply wp_bind, wp_modify.
  rewrite (proj2 (Z.eqb_neq _ _) Hty). apply wp_ret. exists B2. split; [|split; [done|]].
  - unfold with_ino, set_inodes, set_blk. cbn. by rewrite !alter_alter.
  - intros y. rewrite V2. exact (V1 y).
Qed.

Lemma iunlock_held (s : fsstate B) : sl_lk (i_lock (ino s)) = false -> sl_locked (i_lock (ino s)) = 1 -> 1 <= i_ref (ino s) ->
  (ip < length (inodes s))%nat ->
  iunlock ip s = Ret tt (add_woken (inode_chan ip) (with_ino ip (set_ilock (SleepLock 0 false (sl_name (i_lock (ino s))) 0)) s)).
Proof.
  intros Hlk Hld Hr Hl. unfold iunlock, on_ilock.
  assert (E : kzoom (fun s => i_lock (inode_at s ip)) (fun l s => set_inodes (alter (set_ilock l) ip (inodes s)) s) holdingsleep s =
    Ret true s).
  { unfold kzoom. fold (ino s). rewrite (holdingsleep_eq (i_lock (ino s))) by done. rewrite Hld. cbn. f_equal.
    unfold set_inodes. destruct s as [lk il sb b pd cw wk]; cbn in *. f_equal. apply list_eq. intros j.
    destruct (decide (j = ip)) as [->|Hj]; [|by rewrite list_lookup_alter_ne].
    rewrite list_lookup_alter_eq, (nth_lookup_lt il ip null_inode) by done. cbn. f_equal.
    unfold FsFile.ino, inode_at. cbn. by destruct (nth ip il null_inode). }
  rewrite (kbind_ret _ _ _ _ _ E). unfold iget_field. rewrite kbind_get. fold (ino s). rewrite (proj2 (Z.ltb_ge _ _) Hr). cbn [negb orb].
  by apply releasesleep_ino.
Qed.

(** Only the lock of the inode differs. *)
Section relock.
Context (s s' : fsstate B) (lk : sleeplock).
Hypothesis Hb : fs_blk s' = fs_blk s.
Hypothesis Hsb : fs_sb s' = fs_sb s.
Hypothesis Hin : inodes s' = alter (set_ilock lk) ip (inodes s).
Hypothesis Hl : (ip < length (inodes s))%nat.

Lemma rl_ino : ino s' = set_ilock lk (ino s).
Proof. unfold FsFile.ino, inode_at. rewrite Hin. by rewrite nth_alter_eq. Qed.

Lemma rl_view y : view s' y = view s y.
Proof. unfold view. by rewrite Hb. Qed.

Lemma rl_blockno k : blockno ip s' k = blockno ip s k.
Proof. unfold blockno, ind. rewrite rl_ino. cbn [i_addrs set_ilock]. by rewrite rl_view. Qed.

Lemma rl_fbyte o : fbyte ip s' o = fbyte ip s o.
Proof. unfold fbyte, fblock. rewrite rl_blockno. by rewrite rl_view. Qed.

Lemma rl_nfree : nfree s' = nfree s.
Proof.
  unfold nfree. rewrite Hsb. f_equal. apply filter_ext_in. intros b _. unfold in_use. by rewrite Hsb, rl_view.
Qed.

Lemma rl_file_ok : file_ok ip s -> file_ok ip s'.
Proof.
  intros [F1 F2 F3 F4 F5 F6]. constructor.
  - by apply (disk_ok_ext s).
  - apply (ino_ok_ext ip s); try done; rewrite ?rl_ino, ?Hin, ?length_alter; done.
  - destruct F3 as [G1 G2]. split; rewrite rl_ino; [done|]. intros k Hk1 Hk2. rewrite rl_blockno. by apply G2.
  - unfold synced, iblk in *. rewrite rl_ino, Hsb, rl_view. exact F4.
  - by rewrite rl_ino.
  - by rewrite rl_ino.
Qed.
End relock.

(** ** One chunk *)

Record open_ok (f : nat) (k : fdstate B) : Prop := {
  oo_file : file_ok ip (fd_fs k);
  oo_idle : inode_idle (fd_fs k);
  oo_tx : tx_idle (fs_blk (fd_fs k));
  oo_slot : (f < length (files k))%nat
}.

Variable dw : Z -> option (nat -> list Z -> Z -> K (fsstate B) Z).

(** The body of the loop of filewrite up to end_op. *)
Definition chunk (f : nat) (src : list Z) (n1 : Z) : K (fdstate B) Z :=
  begin_tx ;;
  fs (ilock ip) ;;
  let! off := kget (fun s => f_off (file_at s f)) in
  let! r := fs (writei dw ip src off n1) in
  (if 0 <? r then upd_file f (fun x => set_foff (u32 (f_off x + r)) x) else kret tt) ;;
  fs (iunlock ip) ;;
  end_tx ;;
  kret r.

Lemma filewrite_loop_step fuel f src i n k :
  i < n ->
  filewrite_loop dw (Datatypes.S fuel) f ip src i n k =
    (let n1 := if write_max <? n - i then write_max else n - i in
     let! r := chunk f (take (Z.to_nat n1) src) n1 in
     if r <? 0 then kret i else
     if negb (r =? n1) then kpanic "short filewrite" else
     filewrite_loop dw fuel f ip (drop (Z.to_nat r) src) (i + r) n) k.
Proof.
  intros Hi. cbn [filewrite_loop]. rewrite (proj2 (Z.ltb_lt _ _) Hi). cbv zeta. unfold chunk, kbind, kget, kret.
  destruct (begin_tx k); try done. destruct (fs (ilock ip) s) as [|m|c t|]; try done. destruct (fs (writei dw ip _ _ _) s0) as [r|m|c t|]; try done.
  destruct (0 <? r); cbn; (destruct (fs (iunlock ip) _); try done; by destruct (end_tx _)).
Qed.

(** What a chunk of [src] at [off] leaves. *)
Record chunk_post (f : nat) (k : fdstate B) (off : Z) (src : list Z) (k' : fdstate B) : Prop := {
  cp_open : open_ok f k';
  cp_file : file_at k' f = set_foff (off + Z.of_nat (length src)) (file_at k f);
  cp_others : forall g, g <> f -> file_at k' g = file_at k g;
  cp_size : i_size (ino (fd_fs k')) = Z.max (i_size (ino (fd_fs k))) (off + Z.of_nat (length src));
  cp_bytes : forall o, 0 <= o < MAXFILE * BSIZE -> fbyte ip (fd_fs k') o =
    if decide (off <= o < off + Z.of_nat (length src)) then nth (Z.to_nat (o - off)) src 0 else fbyte ip (fd_fs k) o;
  cp_free : (nfree (fd_fs k) + f_ind ip (fd_fs k') <= nfree (fd_fs k') + f_ind ip (fd_fs k) +
    (nblk off (Z.of_nat (length src)) + absent ip (fd_fs k) (off / BSIZE) - 1))%nat;
  cp_rest : ft_lk k' = ft_lk k /\ fd_pipes k' = fd_pipes k /\ fd_pages k' = fd_pages k /\ fd_killed k' = fd_killed k /\
    length (files k') = length (files k)
}.

(** The constant of filewrite is right: a chunk logs at most MAXOPBLOCKS blocks. *)
Lemma chunk_cost s off n :
  512 <= BSIZE -> file_ok ip s -> 0 <= off <= i_size (ino s) -> 0 < n <= write_max ->
  (write_cost ip s ∅ off n <= max_logged)%nat.
Proof.
  intros Hbs Hf Ho Hn. pose proof bsize_pos. unfold write_cost. change write_max with 1536 in Hn. change max_logged with 10%nat.
  assert (Hc : (c_ind ip s ∅ <= 2)%nat) by (unfold c_ind; destruct (_ =? 0); [|case_decide]; lia).
  pose proof (absent_le ip s (off / BSIZE)) as Ha. unfold nblk. rewrite (proj2 (Z.ltb_lt 0 n)) by lia.
  pose proof (div_bsize off) as Eo. pose proof (mod_bsize off) as Hm.
  destruct (Z.eq_dec (off mod BSIZE) 0) as [E0|E0].
  - assert ((off + n - 1) / BSIZE <= off / BSIZE + 2); [|lia].
    apply Z.lt_succ_r, Z.div_lt_upper_bound; [lia|]. nia.
  - assert (Hp : absent ip s (off / BSIZE) = 0%nat).
    { unfold absent. rewrite (proj2 (Z.eqb_neq _ _)); [done|]. destruct (fo_full ip s Hf) as [_ Hfull].
      apply Hfull; [apply Z.div_pos; lia|]. nia. }
    assert ((off + n - 1) / BSIZE <= off / BSIZE + 3); [|lia].
    apply Z.lt_succ_r, Z.div_lt_upper_bound; [lia|]. nia.
Qed.

Lemma fs_ret {A} (c : K (fsstate B) A) k a s' : c (fd_fs k) = Ret a s' -> fs c k = Ret a (set_fs s' k).
Proof. intros E. unfold fs, kzoom. by rewrite E. Qed.

Lemma chunk_spec f k src :
  512 <= BSIZE -> bl_home 1 -> open_ok f k ->
  let off := f_off (file_at k f) in let n := Z.of_nat (length src) in
  0 <= off <= i_size (ino (fd_fs k)) -> 0 < n <= write_max -> off + n <= MAXFILE * BSIZE ->
  (write_need ip (fd_fs k) off n <= nfree (fd_fs k) + 1)%nat ->
  exists k', chunk f src n k = Ret n k' /\ chunk_post f k off src k'.
Proof.
  intros Hbs H1 [Of Oi Ot Os] off n Ho Hn Hmax Hneed. pose proof maxfile_small as Hms.
  assert (Hsrc : src <> []) by (intros ->; unfold n in Hn; cbn in Hn; lia).
  set (s0 := fd_fs k) in *. destruct (tx_begin_law (fs_blk s0) Ot) as (b1 & Eb & Ok1 & V1). set (s1 := set_blk b1 s0).
  assert (Eb' : begin_tx k = Ret tt (set_fs s1 k)) by (apply fs_ret; fold s0; unfold blk, kzoom; by rewrite Eb).
  assert (Hlen1 : forall m, (forall y, length (view s0 y) = m) -> forall y, length (bl_view b1 y) = m)
    by (intros m Hm y; rewrite V1; apply Hm).
  assert (F1 : file_ok ip s1) by (apply hv_file_ok; try done; intros y _; apply V1).
  assert (I1 : inode_idle s1) by exact Oi.
  set (nm := sl_name (i_lock (ino s1))). set (lk := SleepLock 1 false nm (fs_pid s1)). set (s2 := with_ino ip (set_ilock lk) s1).
  assert (Hl1 : (ip < length (inodes s1))%nat) by apply I1.
  pose proof (rl_ino s1 s2 lk eq_refl Hl1) as Ei2.
  assert (F2 : file_ok ip s2) by (by apply (rl_file_ok s1 s2 lk)).
  assert (Efb : forall o, 0 <= o < MAXFILE * BSIZE -> fbyte ip s2 o = fbyte ip s0 o).
  { intros o Ho'. rewrite (rl_fbyte s1 s2 lk) by done. apply hv_fbyte; done. }
  assert (Enf : nfree s2 = nfree s0).
  { rewrite (rl_nfree s1 s2) by done. apply hv_nfree; done. }
  assert (Eab : forall j, absent ip s2 j = absent ip s0 j).
  { intros j. unfold absent. rewrite (rl_blockno s1 s2 lk) by done. unfold s1. by rewrite (sv_blockno ip s0 b1 V1). }
  assert (Efi : f_ind ip s2 = f_ind ip s0) by (unfold f_ind, ind; by rewrite Ei2).
  destruct (writei_file_ok dw ip s2 ∅ src off Ok1 F2) as (s3 & T3 & E3 & P & F3); try done.
  { rewrite Ei2. exact Ho. }
  { rewrite size_empty. apply (chunk_cost s2 off n); try done. by rewrite Ei2. }
  { unfold write_need in *. by rewrite Efi, Eab, Enf. }
  fold n in E3. destruct P as [P1 P2 P3 P4 P5 P6 P7 P8 P9 P10 P11 [l P12] (P13 & P14 & P15 & P16)].
  assert (Ei3 : ino s3 = set_isize (i_size (ino s3)) (set_addrs l (ino s2))).
  { unfold FsFile.ino at 1, inode_at. rewrite P12. rewrite nth_alter_eq; [done|]. cbn. by rewrite length_alter. }
  assert (Hl3 : (ip < length (inodes s3))%nat) by (rewrite P12, length_alter; cbn; by rewrite length_alter).
  assert (Elk : i_lock (ino s3) = lk) by (rewrite Ei3, Ei2; done).
  assert (Er3 : i_ref (ino s3) = i_ref (ino s0)) by (rewrite Ei3, Ei2; done).
  assert (Eu : iunlock ip s3 = Ret tt (add_woken (inode_chan ip) (with_ino ip (set_ilock (SleepLock 0 false nm 0)) s3))).
  { rewrite iunlock_held; [by rewrite Elk|by rewrite Elk..| |done]. rewrite Er3. apply Oi. }
  set (s4 := add_woken _ _) in Eu. assert (Ei4 : ino s4 = set_ilock (SleepLock 0 false nm 0) (ino s3)) by (by apply (rl_ino s3 s4)).
  assert (F4 : file_ok ip s4) by (by apply (rl_file_ok s3 s4 (SleepLock 0 false nm 0))).
  destruct (tx_end_law (fs_blk s4) T3 P1) as (b5 & Ee & Id5 & V5 & L5). set (s5 := set_blk b5 s4).
  set (k1 := set_fs s3 k). set (k' := set_fs s5 (set_files (alter (fun x => set_foff (u32 (f_off x + n)) x) f (files k)) k)).
  exists k'. split.
  - unfold chunk. rewrite (kbind_ret _ _ _ _ _ Eb').
    rewrite (kbind_ret _ _ _ _ _ (fs_ret (ilock ip) (set_fs s1 k) tt s2 (ilock_valid s1 I1))).
    rewrite kbind_get. change (f_off (file_at (set_fs s2 (set_fs s1 k)) f)) with off.
    rewrite (kbind_ret _ _ _ _ _ (fs_ret (writei dw ip src off n) (set_fs s2 (set_fs s1 k)) n s3 E3)).
    rewrite (proj2 (Z.ltb_lt 0 n)) by lia. unfold upd_file. rewrite kbind_modify.
    match goal with |- kbind _ _ ?st = _ => rewrite (kbind_ret _ _ st _ _ (fs_ret (iunlock ip) st tt s4 Eu)) end.
    match goal with |- kbind _ _ ?st = _ => assert (Ee' : end_tx st = Ret tt (set_fs s5 st)) end.
    { apply fs_ret. unfold blk, kzoom. cbn [fd_fs set_fs]. by rewrite Ee. }
    rewrite (kbind_ret _ _ _ _ _ Ee'). done.
  - assert (Hv5 : forall y, bl_home y -> bl_view b5 y = view s4 y) by done.
    assert (Esz : i_size (ino s5) = i_size (ino s3)) by (change (ino s5) with (ino s4); by rewrite Ei4).
    constructor; cbn [fd_fs set_fs k'].
    + constructor; cbn [fd_fs set_fs k' files set_files].
      * by apply hv_file_ok.
      * change (inode_idle s4). unfold inode_idle, unlocked. rewrite Ei4. cbn [i_lock i_ref i_valid set_ilock sl_lk sl_locked]. split_and!.
        -- transitivity (ic_lk s3); [done|]. rewrite P14. apply Oi.
        -- done.
        -- done.
        -- rewrite Er3. apply Oi.
        -- rewrite Ei3, Ei2. apply Oi.
        -- cbn. by rewrite length_alter.
      * exact Id5.
      * by rewrite length_alter.
    + unfold file_at at 1. cbn [files set_fs set_files k']. rewrite nth_alter_eq by done. fold (file_at k f). fold off.
      by rewrite u32_small by lia.
    + intros g Hg. unfold file_at. cbn. by apply nth_alter_ne.
    + rewrite Esz, P7, Ei2. done.
    + intros o Ho'. unfold s5. rewrite hv_fbyte by done. rewrite (rl_fbyte s3 s4 (SleepLock 0 false nm 0)) by done.
      rewrite P8 by done. case_decide; [done|by apply Efb].
    + assert (E5 : nfree s5 = nfree s3) by (unfold s5; rewrite hv_nfree by done; by apply rl_nfree).
      assert (Ef5 : f_ind ip s5 = f_ind ip s3) by (change (f_ind ip s5) with (f_ind ip s4); unfold f_ind, ind; by rewrite Ei4).
      rewrite E5, Ef5. rewrite Efi, Eab, Enf in P11. exact P11.
    + cbn. by rewrite length_alter.
Qed.

(** ** The whole write *)

Lemma nblk_split off a b :
  0 <= off -> 0 < a -> 0 < b ->
  (nblk off a + nblk (off + a) b = nblk off (a + b) + if decide ((off + a) mod BSIZE = 0)%Z then 0 else 1)%nat.
Proof.
  intros Ho Ha Hb. pose proof bsize_pos. unfold nblk. rewrite !(proj2 (Z.ltb_lt 0 _)) by lia.
  replace (off + a + b - 1) with (off + (a + b) - 1) by lia.
  pose proof (Z.div_le_mono off (off + a - 1) BSIZE). pose proof (Z.div_le_mono (off + a) (off + (a + b) - 1) BSIZE).
  pose proof (div_bsize (off + a)). pose proof (mod_bsize (off + a)).
  assert (E : (off + a - 1) / BSIZE = (off + a) / BSIZE - if decide ((off + a) mod BSIZE = 0) then 1 else 0).
  { destruct (decide ((off + a) mod BSIZE = 0)) as [E0|E0].
    - symmetry. apply (Z.div_unique _ _ _ (BSIZE - 1)); lia.
    - symmetry. apply (Z.div_unique _ _ _ ((off + a) mod BSIZE - 1)); lia. }
  rewrite E. destruct (decide ((off + a) mod BSIZE = 0)); lia.
Qed.

(** At the end of a chunk that stops inside a block, that block is there. *)
Lemma absent_inside s off : file_ok ip s -> 0 <= off <= i_size (ino s) -> off mod BSIZE <> 0 -> absent ip s (off / BSIZE) = 0%nat.
Proof.
  intros Hf Ho E. pose proof bsize_pos. pose proof (div_bsize off). pose proof (mod_bsize off).
  unfold absent. rewrite (proj2 (Z.eqb_neq _ _)); [done|]. apply (fo_full ip s Hf); [apply Z.div_pos; lia|nia].
Qed.

Lemma chunk_post_trans f k off s1 k1 s2 k2 :
  0 <= off <= i_size (ino (fd_fs k)) -> s1 <> [] -> s2 <> [] ->
  chunk_post f k off s1 k1 -> chunk_post f k1 (off + Z.of_nat (length s1)) s2 k2 -> chunk_post f k off (s1 ++ s2) k2.
Proof.
  intros Ho Hn1 Hn2 [A1 A2 A3 A4 A5 A6 (A7 & A8 & A9 & A10 & A11)] [C1 C2 C3 C4 C5 C6 (C7 & C8 & C9 & C10 & C11)].
  assert (H1 : 0 < Z.of_nat (length s1)) by (destruct s1; [done|cbn; lia]).
  assert (H2 : 0 < Z.of_nat (length s2)) by (destruct s2; [done|cbn; lia]).
  constructor; rewrite ?length_app, ?Nat2Z.inj_add.
  - done.
  - rewrite C2, A2. unfold set_foff. cbn. f_equal. lia.
  - intros g Hg. by rewrite C3, A3.
  - rewrite C4, A4. lia.
  - intros o Hr. rewrite C5, A5 by done. repeat case_decide; try lia; try done.
    + rewrite app_nth2 by lia. f_equal. lia.
    + by rewrite app_nth1 by lia.
  - pose proof (nblk_split off (Z.of_nat (length s1)) (Z.of_nat (length s2)) ltac:(lia) H1 H2) as En.
    pose proof (nblk_pos off (Z.of_nat (length s1)) ltac:(lia) H1) as N1.
    pose proof (nblk_pos (off + Z.of_nat (length s1)) (Z.of_nat (length s2)) ltac:(lia) H2) as N2.
    pose proof (absent_le ip (fd_fs k1) ((off + Z.of_nat (length s1)) / BSIZE)).
    destruct (decide ((off + Z.of_nat (length s1)) mod BSIZE = 0)) as [E0|E0].
    + lia.
    + rewrite (absent_inside (fd_fs k1)) in C6; [lia|by apply (oo_file f k1)|rewrite A4; lia|done].
  - split_and!; congruence.
Qed.

Lemma filewrite_loop_spec fuel : forall f k src i n,
  512 <= BSIZE -> bl_home 1 -> open_ok f k -> 0 <= i < n -> Z.of_nat (length src) = n - i -> n - i <= Z.of_nat fuel ->
  let off := f_off (file_at k f) in
  0 <= off <= i_size (ino (fd_fs k)) -> off + (n - i) <= MAXFILE * BSIZE ->
  (write_need ip (fd_fs k) off (n - i) <= nfree (fd_fs k) + 1)%nat ->
  exists k', filewrite_loop dw fuel f ip src i n k = Ret n k' /\ chunk_post f k off src k'.
Proof.
  induction fuel as [|fuel IH]; intros f k src i n Hbs H1 Hop Hi Hlen Hfuel off Ho Hmax Hneed; [lia|].
  rewrite filewrite_loop_step by lia. cbv zeta. set (n1 := if write_max <? n - i then write_max else n - i).
  assert (Hn1 : 0 < n1 <= write_max /\ n1 <= n - i).
  { unfold n1. assert (0 < write_max) by reflexivity. destruct (Z.ltb_spec write_max (n - i)); lia. }
  assert (Hl1 : Z.of_nat (length (take (Z.to_nat n1) src)) = n1) by (rewrite length_take; lia).
  unfold write_need in Hneed.
  assert (Hneed1 : (write_need ip (fd_fs k) off n1 <= nfree (fd_fs k) + 1)%nat).
  { unfold write_need. destruct (decide (n1 = n - i)) as [->|]; [done|].
    pose proof (nblk_split off n1 (n - i - n1) ltac:(lia) ltac:(lia) ltac:(lia)) as En.
    pose proof (nblk_pos (off + n1) (n - i - n1) ltac:(lia) ltac:(lia)).
    replace (n1 + (n - i - n1)) with (n - i) in En by lia. case_decide; lia. }
  destruct (chunk_spec f k (take (Z.to_nat n1) src) Hbs H1 Hop) as (k1 & E1 & P1);
    fold off; rewrite ?Hl1; try done; try lia.
  rewrite Hl1 in E1. rewrite (kbind_ret _ _ _ _ _ E1). rewrite (proj2 (Z.ltb_ge n1 0)), Z.eqb_refl by lia. cbn [negb].
  destruct (decide (i + n1 = n)) as [Ed|Ed].
  - exists k1. split; [rewrite Ed; destruct fuel; cbn [filewrite_loop]; by rewrite Z.ltb_irrefl|].
    by rewrite take_ge in P1 by lia.
  - pose proof P1 as [A1 A2 A3 A4 A5 A6 A7]. fold off in A2, A4, A5, A6. rewrite Hl1 in *.
    assert (Eoff : f_off (file_at k1 f) = off + n1) by (by rewrite A2).
    pose proof (nblk_split off n1 (n - i - n1) ltac:(lia) ltac:(lia) ltac:(lia)) as En.
    pose proof (nblk_pos off n1 ltac:(lia) ltac:(lia)).
    replace (n1 + (n - i - n1)) with (n - i) in En by lia.
    destruct (IH f k1 (drop (Z.to_nat n1) src) (i + n1) n Hbs H1 A1) as (k2 & E2 & P2); try lia.
    + rewrite length_drop. lia.
    + rewrite Eoff. unfold write_need. replace (n - (i + n1)) with (n - i - n1) by lia.
      pose proof (absent_le ip (fd_fs k1) ((off + n1) / BSIZE)).
      destruct (decide ((off + n1) mod BSIZE = 0)) as [E0|E0]; [lia|].
      rewrite (absent_inside (fd_fs k1)); [lia|by apply (oo_file f k1)|rewrite A4; lia|done].
    + exists k2. split; [exact E2|]. rewrite <- (take_drop (Z.to_nat n1) src).
      eapply chunk_post_trans; [done| | |exact P1|].
      * intros E. rewrite E in Hl1. cbn in Hl1. lia.
      * intros E. apply (f_equal length) in E. rewrite length_drop in E. cbn in E. lia.
      * rewrite Hl1. by rewrite Eoff in P2.
Qed.
End filewrite.

(** C34: filewrite on a file that is open for writing writes every byte, in as many
    transactions as it takes: it returns the full count, never panics on a transaction
    that is too large for the log, and leaves no transaction open.  Afterwards the file
    holds the bytes at the old offset and its old bytes elsewhere, the size and the
    offset have moved accordingly, and the inode is unlocked. *)
Theorem filewrite_writes_all `{FsH} {FL : FsLaws} {B : Type} `{BlockLayer B} {LL : BlockLaws B} `{!TxLayer B} {TW : TxLaws B}
    dw (ip f : nat) (k : fdstate B) (src : list Z) :
  512 <= BSIZE -> bl_home 1 -> open_ok ip f k ->
  f_type (file_at k f) = FD_INODE -> f_ip (file_at k f) = ip -> f_writable (file_at k f) = true ->
  0 <= f_off (file_at k f) <= i_size (ino ip (fd_fs k)) ->
  f_off (file_at k f) + Z.of_nat (length src) <= MAXFILE * BSIZE ->
  (write_need ip (fd_fs k) (f_off (file_at k f)) (Z.of_nat (length src)) <= nfree (fd_fs k) + 1)%nat ->
  exists k', filewrite dw f src (Z.of_nat (length src)) k = Ret (Z.of_nat (length src)) k' /\ open_ok ip f k' /\
    f_off (file_at k' f) = f_off (file_at k f) + Z.of_nat (length src) /\
    i_size (ino ip (fd_fs k')) = Z.max (i_size (ino ip (fd_fs k))) (f_off (file_at k f) + Z.of_nat (length src)) /\
    (forall o, 0 <= o < MAXFILE * BSIZE -> fbyte ip (fd_fs k') o =
       if decide (f_off (file_at k f) <= o < f_off (file_at k f) + Z.of_nat (length src))
       then nth (Z.to_nat (o - f_off (file_at k f))) src 0 else fbyte ip (fd_fs k) o) /\
    (forall g, g <> f -> file_at k' g = file_at k g) /\ fd_pipes k' = fd_pipes k.
Proof.
  intros Hbs H1 Hop Hty Hip Hw Ho Hmax Hneed. unfold filewrite. rewrite kbind_get, Hw, Hty, Hip. cbn [negb].
  destruct (decide (src = [])) as [->|Hn].
  - exists k. cbn [length Z.of_nat Z.to_nat filewrite_loop Z.ltb]. split; [done|]. split; [done|]. split; [lia|]. split; [lia|].
    split; [|done]. intros o _. by rewrite decide_False by lia.
  - assert (0 < length src)%nat by (destruct src; [done|cbn; lia]).
    destruct (filewrite_loop_spec ip dw (Z.to_nat (Z.of_nat (length src))) f k src 0 (Z.of_nat (length src)) Hbs H1 Hop)
      as (k' & E & [P1 P2 P3 P4 P5 P6 (P7 & P8 & P9)]); rewrite ?Z.sub_0_r; try done; try lia.
    exists k'. rewrite (kbind_ret _ _ _ _ _ E), Z.eqb_refl. split; [done|]. split; [done|]. split; [by rewrite P2|]. done.
Qed.

(** ** Examples of the open files over the log *)

From S2P Require Import Bio Bcache Log LogSafe LogOps.
From S2P Require Import FsIcache FsLog FsGeom FileTable.

(** Descriptor table entry 0 is the file of the example disk, unlocked and read in. *)
Definition ex_open (l : logstate) : fdstate logstate :=
  FdState false [File FD_INODE 1 true true 0 1 0] ∅ []
    (with_ino 1 (set_ilock (SleepLock 0 false "inode" 0)) (ex_fs l)) false.

Lemma ex_open_ok l : tx_idle l -> (forall y, FsBlocks.view (ex_fs l) y = ex_disk y) -> open_ok 1 0 (ex_open l).
Proof.
  intros Hid Hv. constructor; [|split_and!; try done; cbn; lia|exact Hid|cbn; lia].
  eapply (rl_file_ok 1 (ex_fs l)); [done|done|done|cbn; lia|]. apply (ex_file_ok l 1 Hv). lia.
Qed.

(** 2000 bytes take two transactions. *)
Lemma filewrite_writes_all_witness : exists l k',
  filewrite (fun _ => None) 0 (replicate 2000 65) 2000 (ex_open l) = Ret 2000 k' /\ f_off (file_at k' 0) = 2000 /\
  i_size (ino 1 (fd_fs k')) = 2000.
Proof.
  destruct ex_log_rest as (l & Hid & Hv).
  destruct (filewrite_writes_all (fun _ => None) 1 0 (ex_open l) (replicate 2000 65)) as (k' & E & _ & Ho & Hs & _).
  - done.
  - cbn. unfold outside. lia.
  - by apply ex_open_ok.
  - done.
  - done.
  - done.
  - cbn. lia.
  - rewrite length_replicate. cbn. lia.
  - rewrite length_replicate. change (nfree (fd_fs (ex_open l))) with (nfree (ex_fs l)). rewrite (ex_nfree l Hv).
    change (write_need 1 (fd_fs (ex_open l)) (f_off (file_at (ex_open l) 0)) (Z.of_nat 2000)) with (write_need 1 (ex_fs l) 0 (Z.of_nat 2000)).
    rewrite ex_write_need by lia. change (nblk 0 (Z.of_nat 2000)) with 4%nat. lia.
  - rewrite length_replicate in E, Ho, Hs. exists l, k'. split; [exact E|]. split; [exact Ho|exact Hs].
Defined.

(** A table of three entries; a pipe is made, its write end is shared, five bytes are
    written and one reference to the write end is closed. *)
Definition ex_table (l : logstate) : fdstate logstate :=
  FdState false (replicate 3 null_file) ∅ [4096; 8192] (ex_fs l) false.
Definition ex_piped (l : logstate) : fdstate logstate :=
  match (pipealloc (replicate 512 0) ;; filedup 1 ;; filewrite (fun _ => None) 1 [1; 2; 3; 4; 5] 5 ;; fileclose 1) (ex_table l) with
  | Ret _ k => k
  | _ => ex_table l
  end.

Ltac eval_call := match goal with |- ?c = _ => let v := eval vm_compute in c in transitivity v; [vm_compute; reflexivity|reflexivity] end.

Lemma ex_piped_reached l : rtc (fstep (fun _ => None) (fun _ => None)) (ex_table l, []) (ex_piped l, [0; 1]%nat).
Proof.
  eapply rtc_l; [eapply (FPipe _ _ _ _ (replicate 512 0)); eval_call|].
  eapply rtc_l; [eapply (FDup _ _ _ _ 1); [set_solver|eval_call]|].
  eapply rtc_l; [eapply (FWrite _ _ _ _ 1 [1; 2; 3; 4; 5] 5); [set_solver|eval_call]|].
  eapply rtc_l; [eapply (FClose _ _ _ _ 1); [set_solver|eval_call]|]. reflexivity.
Qed.

Lemma ftable_references_witness : exists l,
  f_ref (file_at (ex_piped l) 1) = 1 /\ exists pp, fd_pipes (ex_piped l) !! 4096 = Some pp /\ end_open true pp = 1.
Proof.
  destruct ex_log_rest as (l & _). exists l.
  destruct (ftable_references (fun _ => None) (fun _ => None) (ex_table l) (ex_piped l) [0; 1]%nat) as (R & P & _).
  - split; [done|]. split; [repeat constructor|]. split; [done|]. cbn. repeat constructor; set_solver.
  - apply ex_piped_reached.
  - split; [exact (R 1%nat ltac:(vm_compute; lia))|]. apply (P 1%nat 4096 true). split_and!; vm_compute; reflexivity.
Defined.
