(* ===== verification/SysProps.v ===== *)
(** * Sequences of file-system calls

    The calls of sysfile.c by one process, in any order and with any memory contents
    between them, over tables that other processes may also refer to. *)

From S2P Require Import Prelude Layout Mem Sleeplock Pipe Fsdefs Log Fs FsBlocks FsIcache FsRefs FsLog FsGeom File Syscall Sysfile FileTable SysRefs.
From S2P Require Import FileWrite.
From Stdlib Require Import Permutation.

Section sequences.
Context `{FsH} {B : Type} `{BlockLayer B} `{TxLayer B}.
Notation FS := (fsstate B).
Notation S := (sysstate B).
Implicit Types s : S.
Variable dr : Z -> option (nat -> Z -> K FS (Z * list Z)).
Variable dw : Z -> option (nat -> list Z -> Z -> K FS Z).
Hypothesis Hdr : forall m f, dr m = Some f -> forall ip n, quiet (f ip n).
Hypothesis Hdw : forall m f, dw m = Some f -> forall ip l n, quiet (f ip l n).

(** The calls of sysfile.c, exec apart. *)
Definition file_call (junk page : list Z) (c : sysno) : option (K S Z) :=
  match c with
  | SYS_dup => Some sys_dup
  | SYS_read => Some (sys_read dr)
  | SYS_write => Some (sys_write dw)
  | SYS_close => Some sys_close
  | SYS_fstat => Some sys_fstat
  | SYS_link => Some (sys_link dr dw junk)
  | SYS_unlink => Some (sys_unlink dr dw junk)
  | SYS_open => Some (sys_open dr dw junk)
  | SYS_mkdir => Some (sys_mkdir dr dw junk)
  | SYS_mknod => Some (sys_mknod dr dw junk)
  | SYS_chdir => Some (sys_chdir dr junk)
  | SYS_pipe => Some (sys_pipe page)
  | _ => None
  end.

(** The process runs, or a call completes. *)
Inductive sstep : S -> S -> Prop :=
| st_user u s : sstep s (set_u u s)
| st_call junk page c m v s s' : file_call junk page c = Some m -> m s = Ret v s' -> sstep s s'.

(** The counts are exact; [j0] are the inode references of the others. *)
Definition sys_inv (j0 : list nat) s : Prop :=
  ft_inv (sy_fd s) (ofds s) /\
  icache_inv (fd_fs (sy_fd s)) (fs_cwd (fd_fs (sy_fd s)) :: j0 ++ file_inodes (files (sy_fd s))).

Lemma sys_inv_mid j0 s : sys_inv j0 s <-> mid (fs_cwd (fd_fs (sy_fd s))) [] j0 s [] [].
Proof.
  unfold sys_inv, mid, refs, holds. cbn [app]. rewrite app_nil_r. split; [intros [I J]; split; [done|by split]|by intros [I [J _]]].
Qed.

Lemma mid_sys_inv cw j0 s : mid cw [] j0 s [] [] -> sys_inv j0 s.
Proof. intros Hm. assert (E : fs_cwd (fd_fs (sy_fd s)) = cw) by apply Hm. apply sys_inv_mid. by rewrite E. Qed.

Lemma chdir_inv j0 junk s : sys_inv j0 s -> wlp (sys_chdir dr junk) s (fun _ s' => sys_inv j0 s') (fun _ => True).
Proof.
  intros Hi. apply sys_inv_mid in Hi. set (cw := fs_cwd _) in Hi. clearbody cw. unfold sys_chdir.
  assert (Hfail : forall s', mid cw [] j0 s' [] [] -> wlp (end_op ;; kret (-1)) s' (fun _ s2 => sys_inv j0 s2) (fun _ => True)).
  { intros s' M. eapply seq_end; [exact M|]. intros _ s2 M2. apply wlp_ret. by eapply mid_sys_inv. }
  eapply seq_begin; [exact Hi|]. intros _ s1 M1. apply wlp_bind, wlp_get. destruct (argpath 0 (sy_u s1)) as [path|]; [|by apply wlp_bind, wlp_ret, Hfail].
  eapply (seq_got1 dr dw Hdr Hdw); [intros; by apply (gives_namei dr Hdr)|exact M1|]. intros [ip|] s2 M2; cbn [got1] in M2; [|by apply Hfail].
  eapply seq_quiet; [apply quiet_ilock|exact M2|]. intros _ s3 M3. eapply seq_quiet; [apply quiet_get|exact M3|]. intros t s4 M4.
  destruct (negb _).
  - eapply wlp_mono; [by eapply refs_drop| |done]. intros ? s'. apply mid_sys_inv.
  - eapply seq_quiet; [apply quiet_iunlock|exact M4|]. intros _ s5 M5. eapply wlp_mono; [by eapply refs_chdir_end| |done].
    intros ? s' (E & I & J). split; [by rewrite app_nil_r in I|by rewrite E].
Qed.

Lemma sstep_inv j0 s s' : sstep s s' -> sys_inv j0 s -> sys_inv j0 s'.
Proof.
  intros Hs Hi. destruct Hs as [u s|junk page c m v s s' Hc E]; [done|]. pose proof (proj1 (sys_inv_mid j0 s) Hi) as Hm.
  set (cw := fs_cwd _) in Hm. clearbody cw. assert (W : wlp m s (fun _ s' => sys_inv j0 s') (fun _ => True)).
  { destruct (decide (c = SYS_chdir)) as [->|Hn]; [cbn in Hc; injection Hc as <-; by apply chdir_inv|].
    assert (W : wlp m s (fun _ s' => mid cw [] j0 s' [] []) (fun _ => True)).
    { destruct c; cbn in Hc; try done; injection Hc as <-.
      - by eapply refs_sys_pipe.
      - by eapply refs_sys_read.
      - by eapply refs_sys_fstat.
      - by eapply refs_sys_dup.
      - by eapply refs_sys_open.
      - by eapply refs_sys_write.
      - by eapply refs_make_node.
      - by eapply refs_sys_unlink.
      - by eapply refs_sys_link.
      - by eapply refs_make_node.
      - by eapply refs_sys_close. }
    eapply wlp_mono; [exact W| |done]. intros ? s2. apply mid_sys_inv. }
  by apply (proj1 (wlp_use _ _ _ _ W) _ _ E).
Qed.

(** A process that has no file open yet. *)
Definition sys_fresh (j0 : list nat) s : Prop :=
  Forall (fun o => o = None) (sy_ofile s) /\ ftable_fresh (sy_fd s) /\
  icache_inv (fd_fs (sy_fd s)) (fs_cwd (fd_fs (sy_fd s)) :: j0).

Lemma fresh_sys_inv j0 s : sys_fresh j0 s -> sys_inv j0 s.
Proof.
  intros (Ho & Hf & Hi). assert (E1 : ofds s = []).
  { unfold ofds. induction Ho as [|o l Ho _ IH]; [done|]. subst o. exact IH. }
  assert (E2 : file_inodes (files (sy_fd s)) = []).
  { destruct Hf as (_ & Hf & _). induction Hf as [|x l Hx _ IH]; [done|]. subst x. exact IH. }
  unfold sys_inv. rewrite E1, E2, app_nil_r. split; [by apply ftable_fresh_inv|done].
Qed.
End sequences.

(** C1: in every sequence of dup, read, write, close, fstat, link, unlink, open, mkdir,
    mknod, chdir and pipe calls by a process that starts without open files, with any
    contents of its memory at each call and whichever calls fail: the reference count
    of an open file is the number of descriptors that lead to it, and the reference
    count of a cached inode is the number of open files on it, plus one where it is the
    current directory, plus the references of others. *)
Theorem file_calls_balance_references `{FsH} {B : Type} `{BlockLayer B} `{TxLayer B}
    (dr : Z -> option (nat -> Z -> K (fsstate B) (Z * list Z))) (dw : Z -> option (nat -> list Z -> Z -> K (fsstate B) Z))
    (j0 : list nat) (s0 s : sysstate B) :
  (forall m f, dr m = Some f -> forall ip n, quiet (f ip n)) -> (forall m f, dw m = Some f -> forall ip l n, quiet (f ip l n)) ->
  sys_fresh j0 s0 -> rtc (sstep dr dw) s0 s ->
  (forall f, (f < length (files (sy_fd s)))%nat -> f_ref (file_at (sy_fd s) f) = held f (omap id (sy_ofile s))) /\
  (forall ip, (ip < length (inodes (fd_fs (sy_fd s))))%nat ->
     i_ref (inode_at (fd_fs (sy_fd s)) ip) = held ip (fs_cwd (fd_fs (sy_fd s)) :: j0 ++ file_inodes (files (sy_fd s)))).
Proof.
  intros Hdr Hdw Hf Hr. assert (I : sys_inv j0 s).
  { apply fresh_sys_inv in Hf. induction Hr as [|s1 s2 s3 Hs _ IH]; [done|]. apply IH. by apply (sstep_inv dr dw Hdr Hdw j0 s1). }
  destruct I as [I J]. split; [apply I|]. intros ip Hip. destruct (nth_lookup_or_length (inodes (fd_fs (sy_fd s))) ip null_inode) as [E|E]; [|lia].
  apply (ii_ref _ _ J ip (i_dev (inode_at (fd_fs (sy_fd s)) ip), i_inum (inode_at (fd_fs (sy_fd s)) ip))).
  unfold entries. rewrite list_lookup_fmap, E. done.
Qed.

(** The example table with a process whose stack holds the address 200. *)
Definition ex_caller : uproc := UProc 4096 100 (fun a => if a =? 104 then 200 else 0).
Definition ex_sys (l : logstate) : sysstate logstate := SysState (ex_table l) ex_caller (replicate 16 None).
Definition ex_sys_pipe (l : logstate) : sysstate logstate :=
  match sys_pipe (replicate 512 0) (ex_sys l) with Ret _ s => s | _ => ex_sys l end.

Lemma ex_entries l ip e r : entries (ex_fs l) !! ip = Some (e, r) ->
  (ip = 0%nat /\ e = (ROOTDEV, 1) /\ r = 1) \/ (ip = 1%nat /\ e = (ROOTDEV, 2) /\ r = 1) \/ ((2 <= ip)%nat /\ r = 0).
Proof.
  intros He. destruct ip as [|[|ip]]; [vm_compute in He; injection He as <- <-; naive_solver..|]. right; right.
  unfold entries in He. rewrite list_lookup_fmap in He. change (inodes (ex_fs l) !! _) with (replicate 48 null_inode !! ip) in He.
  destruct (replicate 48 null_inode !! ip) as [x|] eqn:Ex; [|done]. apply lookup_replicate in Ex as [-> _]. injection He as _ <-. split; [lia|done].
Qed.

Lemma ex_icache l : icache_inv (ex_fs l) [0; 1]%nat.
Proof.
  constructor.
  - done.
  - intros ip Hip. apply elem_of_cons in Hip as [->|Hip]; [by eexists|]. apply list_elem_of_singleton in Hip as ->. by eexists.
  - intros ip e r He. apply ex_entries in He as [(-> & _ & ->)|[(-> & _ & ->)|[Hip ->]]]; [done..|]. rewrite !held_cons, !decide_False by lia. done.
  - intros ip jp e r r' Hi%ex_entries Hj%ex_entries Hr Hr'. naive_solver lia.
Qed.

Lemma file_calls_balance_references_witness : exists l,
  f_ref (file_at (sy_fd (ex_sys_pipe l)) 0) = 1 /\ f_ref (file_at (sy_fd (ex_sys_pipe l)) 1) = 1.
Proof.
  destruct ex_log_rest as (l & _). exists l.
  destruct (file_calls_balance_references (fun _ => None) (fun _ => None) [1%nat] (ex_sys l) (ex_sys_pipe l)) as [R _].
  - done.
  - done.
  - split; [repeat constructor|]. split; [|exact (ex_icache l)]. split; [done|]. split; [repeat constructor|]. split; [done|].
    cbn. repeat constructor; set_solver.
  - apply rtc_once. eapply (st_call _ _ [] (replicate 512 0) SYS_pipe); [reflexivity|]. vm_compute. reflexivity.
  - split; [exact (R 0%nat ltac:(vm_compute; lia))|exact (R 1%nat ltac:(vm_compute; lia))].
Defined.
