(* ===== verification/Grep.v ===== *)
(** * grep (grep.c)

    The pattern matcher and the loop over the lines of a file.  A C string is the list
    of its bytes before the terminating zero. *)

From S2P Require Import Prelude.

Definition star : Z := 42.        (* '*' *)
Definition period : Z := 46.      (* '.' *)
Definition dollar : Z := 36.      (* '$' *)
Definition caret : Z := 94.       (* '^' *)
Definition newline : Z := 10.

(** ** The matcher *)

(** matchstar, with the search for the rest of the pattern as a function. *)
Fixpoint matchstar (here : list Z -> bool) (c : Z) (text : list Z) : bool :=
  here text ||
  match text with
  | t :: text' => if (t =? c) || (c =? period) then matchstar here c text' else false
  | [] => false
  end.

Fixpoint matchhere (re text : list Z) {struct re} : bool :=
  match re with
  | [] => true
  | c :: re1 =>
      let literal :=
        if (c =? dollar) && bool_decide (re1 = []) then bool_decide (text = [])
        else match text with
             | t :: text' => if (c =? period) || (c =? t) then matchhere re1 text' else false
             | [] => false
             end in
      match re1 with
      | s :: re2 => if s =? star then matchstar (matchhere re2) c text else literal
      | [] => literal
      end
  end.

(** The loop of match. *)
Fixpoint match_loop (re text : list Z) : bool :=
  matchhere re text || match text with _ :: text' => match_loop re text' | [] => false end.

Definition match_ (re text : list Z) : bool :=
  match re with
  | c :: re' => if c =? caret then matchhere re' text else match_loop re text
  | [] => match_loop re text
  end.

(** ** The loop over the lines *)

(** strchr (ulib.c): the position of [c], if it comes before the end of the string. *)
Fixpoint strchr (s : list Z) (c : Z) : option nat :=
  match s with
  | [] => None
  | x :: s' => if x =? 0 then None else if x =? c then Some 0%nat else option_map Datatypes.S (strchr s' c)
  end.

(** The inner loop: the lines at [p], each matched and printed; it answers the output
    and where [p] ends. *)
Fixpoint grep_lines (fuel : nat) (pattern p : list Z) : list Z * list Z :=
  match fuel with
  | O => ([], p)
  | Datatypes.S fuel' =>
      match strchr p newline with
      | None => ([], p)
      | Some q =>
          let out := if match_ pattern (take q p) then take (q + 1) p else [] in
          let '(out', p') := grep_lines fuel' pattern (drop (q + 1) p) in
          (out ++ out', p')
      end
  end.

Definition buf_size : Z := 1024.

(** grep on the bytes [input] that are left of the file; [buf] are the [m] bytes kept in
    the buffer, and [read] is how many of the bytes left the system call delivers when
    so many are asked for. *)
Fixpoint grep (fuel : nat) (read : Z -> list Z -> nat) (pattern buf input : list Z) : option (list Z) :=
  match fuel with
  | O => None
  | Datatypes.S fuel' =>
      let m := Z.of_nat (length buf) in
      let n := read (buf_size - m - 1) input in
      if (0 <? n)%nat then
        let data := buf ++ take n input in
        let '(out, p) := grep_lines (length data) pattern data in
        let buf' := if (length p =? length data)%nat then [] else p in
        match grep fuel' read pattern buf' (drop n input) with
        | Some out' => Some (out ++ out')
        | None => None
        end
      else Some []
  end.

(** ** What a pattern means *)

Inductive item := Chr (c : Z) | Star (c : Z).

Definition accepts (c t : Z) : Prop := c = period \/ t = c.

(** The items of a pattern, and whether it ends in the end anchor. *)
Fixpoint items (re : list Z) : list item * bool :=
  match re with
  | [] => ([], false)
  | c :: re1 =>
      match re1 with
      | [] => if c =? dollar then ([], true) else ([Chr c], false)
      | s :: re2 =>
          if s =? star then (Star c :: fst (items re2), snd (items re2))
          else (Chr c :: fst (items re1), snd (items re1))
      end
  end.

Inductive lang : list item -> list Z -> Prop :=
| lang_nil : lang [] []
| lang_chr c t r s : accepts c t -> lang r s -> lang (Chr c :: r) (t :: s)
| lang_star c u r s : Forall (accepts c) u -> lang r s -> lang (Star c :: r) (u ++ s).

(** A prefix of the text is in the language; with the end anchor, the whole text. *)
Definition matches_at (re text : list Z) : Prop :=
  exists s rest, text = s ++ rest /\ lang (fst (items re)) s /\ (snd (items re) = true -> rest = []).

(** The text contains a match, at its start where the pattern begins with the start anchor. *)
Definition matches (re text : list Z) : Prop :=
  match re with
  | c :: re' => if c =? caret then matches_at re' text else exists pre post, text = pre ++ post /\ matches_at re post
  | [] => exists pre post, text = pre ++ post /\ matches_at re post
  end.

Lemma matchstar_iff here c text :
  matchstar here c text = true <-> exists u v, text = u ++ v /\ Forall (accepts c) u /\ here v = true.
Proof.
  split.
  - induction text as [|t text IH]; cbn [matchstar]; intros E; apply orb_true_iff in E as [E|E].
    + by exists [], [].
    + done.
    + by exists [], (t :: text).
    + destruct ((t =? c) || (c =? period)) eqn:A; [|done]. destruct (IH E) as (u & v & -> & Hu & Hv).
      exists (t :: u), v. split; [done|]. split; [|done]. constructor; [|done]. unfold accepts. lia.
  - intros (u & v & -> & Hu & Hv). induction Hu as [|t u Ht _ IH]; cbn [app matchstar].
    + destruct v; cbn [matchstar]; by rewrite Hv.
    + assert ((t =? c) || (c =? period) = true) as -> by (unfold accepts in Ht; lia). rewrite IH. by rewrite orb_true_r.
Qed.

Lemma matches_at_star c re2 text :
  matches_at (c :: star :: re2) text <-> exists u v, text = u ++ v /\ Forall (accepts c) u /\ matches_at re2 v.
Proof.
  unfold matches_at. cbn. split.
  - intros (s & rest & -> & Hl & He). inversion Hl as [| |c' u r s' Hu Hr]; subst. exists u, (s' ++ rest). rewrite <- app_assoc. naive_solver.
  - intros (u & v & -> & Hu & s & rest & -> & Hl & He). exists (u ++ s), rest. rewrite app_assoc. split; [done|]. split; [by constructor|done].
Qed.

(** The matcher's case of a single character. *)
Lemma matches_at_chr c re1 text : items (c :: re1) = (Chr c :: fst (items re1), snd (items re1)) ->
  matches_at (c :: re1) text <-> exists t text', text = t :: text' /\ accepts c t /\ matches_at re1 text'.
Proof.
  intros E. unfold matches_at. rewrite E. cbn. split.
  - intros (s & rest & -> & Hl & He). inversion Hl as [|c' t r s' Ht Hr|]; subst. exists t, (s' ++ rest). naive_solver.
  - intros (t & text' & -> & Ht & s & rest & -> & Hl & He). exists (t :: s), rest. split; [done|]. split; [by constructor|done].
Qed.

Lemma literal_iff c re1 text : (forall v, matchhere re1 v = true <-> matches_at re1 v) ->
  items (c :: re1) = (Chr c :: fst (items re1), snd (items re1)) ->
  match text with t :: text' => if (c =? period) || (c =? t) then matchhere re1 text' else false | [] => false end = true <->
  matches_at (c :: re1) text.
Proof.
  intros IH E. rewrite (matches_at_chr c re1 text E). destruct text as [|t text']; [naive_solver|].
  destruct ((c =? period) || (c =? t)) eqn:A.
  - rewrite IH. split; [intros Hm; exists t, text'; unfold accepts; split; [done|]; split; [lia|done]|naive_solver].
  - split; [done|]. intros (t' & text2 & [= <- <-] & Ha & _). unfold accepts in Ha. lia.
Qed.


Lemma matchhere_iff_len n : forall re text, (length re <= n)%nat -> matchhere re text = true <-> matches_at re text.
Proof.
  induction n as [|n IH]; intros re text Hn.
  { destruct re as [|c re]; [|cbn in Hn; lia]. cbn. split; [|done]. intros _. exists [], text. split; [done|]. split; [constructor|done]. }
  destruct re as [|c re1]; [cbn; split; [|done]; intros _; exists [], text; split; [done|]; split; [constructor|done]|].
  cbn in Hn. assert (IH1 : forall v, matchhere re1 v = true <-> matches_at re1 v) by (intros v; apply IH; lia).
  destruct re1 as [|s re2].
  - cbn [matchhere]. destruct (Z.eqb_spec c dollar) as [->|Hd]; cbn [andb].
    + rewrite bool_decide_true by done. rewrite bool_decide_eq_true. unfold matches_at. cbn. split.
      * intros ->. exists [], []. split; [done|]. split; [constructor|done].
      * intros (s & rest & -> & Hl & He). inversion Hl. by rewrite He.
    + apply (literal_iff c [] text IH1). cbn. by rewrite (proj2 (Z.eqb_neq _ _) Hd).
  - cbn [length] in Hn. destruct (Z.eqb_spec s star) as [->|Hs].
    + assert (E : matchhere (c :: star :: re2) text = matchstar (matchhere re2) c text) by done.
      rewrite E, matchstar_iff, matches_at_star. assert (IH2 : forall v, matchhere re2 v = true <-> matches_at re2 v) by (intros v; apply IH; lia).
      split; intros (u & v & ? & ? & Hv%IH2); by exists u, v.
    + rewrite <- (literal_iff c (s :: re2) text IH1); [|cbn; by rewrite (proj2 (Z.eqb_neq _ _) Hs)].
      cbn [matchhere]. rewrite (proj2 (Z.eqb_neq _ _) Hs). rewrite (bool_decide_false (s :: re2 = [])) by done. by rewrite andb_false_r.
Qed.

Lemma match_loop_iff re text : match_loop re text = true <-> exists pre post, text = pre ++ post /\ matches_at re post.
Proof.
  pose proof (fun v => matchhere_iff_len (length re) re v (Nat.le_refl _)) as Hh. induction text as [|t text IH]; cbn [match_loop]; rewrite orb_true_iff, Hh.
  - split; [intros [Hm|?]; [by exists [], []|done]|]. intros (pre & post & E & Hm). symmetry in E. apply app_eq_nil in E as [-> ->]. by left.
  - rewrite IH. split.
    + intros [Hm|(pre & post & -> & Hm)]; [by exists [], (t :: text)|by exists (t :: pre), post].
    + intros (pre & post & E & Hm). destruct pre as [|x pre]; [left; by rewrite E|]. injection E as -> ->. right. by exists pre, post.
Qed.

(** C13: the recursive matcher answers yes exactly when the text contains a string of the
    language the pattern denotes: characters, the period for any character, closures of
    one character, and the anchors at both ends. *)
Theorem match_denotes (re text : list Z) : match_ re text = true <-> matches re text.
Proof.
  unfold match_, matches. destruct re as [|c re']; [apply match_loop_iff|]. destruct (c =? caret); [|apply match_loop_iff].
  by apply (matchhere_iff_len (length re')).
Qed.

(** ** The lines of a file *)

(** The complete lines of an input after the bytes [cur] of the first one, and what is
    left behind the last newline. *)
Fixpoint lines (cur input : list Z) : list (list Z) * list Z :=
  match input with
  | [] => ([], cur)
  | c :: rest => if c =? newline then (cur :: fst (lines [] rest), snd (lines [] rest)) else lines (cur ++ [c]) rest
  end.

Definition print_match (pattern l : list Z) : list Z := if match_ pattern l then l ++ [newline] else [].

(** What grep should print. *)
Definition grep_output (pattern cur input : list Z) : list Z := mjoin (print_match pattern <$> fst (lines cur input)).

(** read of a file: as much as was asked for and is there. *)
Definition file_read (size : Z) (input : list Z) : nat := Nat.min (Z.to_nat size) (length input).

Lemma lines_app cur a b :
  lines cur (a ++ b) = (fst (lines cur a) ++ fst (lines (snd (lines cur a)) b), snd (lines (snd (lines cur a)) b)).
Proof.
  revert cur. induction a as [|c a IH]; intros cur; cbn [app lines fst snd]; [by destruct (lines cur b)|].
  destruct (c =? newline); [|apply IH]. cbn [fst snd app]. by rewrite IH.
Qed.

Lemma lines_flat cur a : newline ∉ a -> lines cur a = ([], cur ++ a).
Proof.
  revert cur. induction a as [|c a IH]; intros cur Ha; cbn [lines]; [by rewrite app_nil_r|].
  destruct (Z.eqb_spec c newline) as [->|Hc]; [destruct Ha; left|]. rewrite IH by set_solver. by rewrite <- app_assoc.
Qed.

Lemma lines_cur cur a : newline ∉ cur -> lines cur a = lines [] (cur ++ a).
Proof. intros Hc. rewrite lines_app, (lines_flat [] cur Hc). cbn. by destruct (lines cur a). Qed.

Lemma lines_tail cur a : newline ∉ cur -> newline ∉ snd (lines cur a).
Proof.
  revert cur. induction a as [|c a IH]; intros cur Hc; cbn [lines]; [done|]. destruct (Z.eqb_spec c newline); [apply IH; set_solver|].
  apply IH. set_solver.
Qed.

Lemma grep_output_app pattern cur a b :
  grep_output pattern cur (a ++ b) = grep_output pattern cur a ++ grep_output pattern (snd (lines cur a)) b.
Proof. unfold grep_output. rewrite lines_app. cbn [fst]. by rewrite fmap_app, join_app. Qed.

Lemma strchr_spec s c : 0 ∉ s ->
  match strchr s c with
  | Some q => s = take q s ++ c :: drop (q + 1) s /\ c ∉ take q s
  | None => c ∉ s
  end.
Proof.
  induction s as [|x s IH]; intros H0; cbn [strchr]; [set_solver|]. destruct (Z.eqb_spec x 0) as [->|]; [set_solver|].
  destruct (Z.eqb_spec x c) as [->|Hx]; [cbn [take drop app Nat.add]; split; [done|set_solver]|].
  specialize (IH ltac:(set_solver)). destruct (strchr s c) as [q|]; cbn; [|set_solver].
  destruct IH as [E Hn]. split; [by rewrite <- E|set_solver].
Qed.

Lemma grep_lines_spec pattern fuel p : 0 ∉ p -> (length p <= fuel)%nat ->
  grep_lines fuel pattern p = (grep_output pattern [] p, snd (lines [] p)).
Proof.
  revert p. induction fuel as [|fuel IH]; intros p H0 Hf; cbn [grep_lines].
  { destruct p; [done|cbn in Hf; lia]. }
  pose proof (strchr_spec p newline H0) as Hs. destruct (strchr p newline) as [q|].
  - destruct Hs as [E Hn]. set (a := take q p) in *. set (b := drop (q + 1) p) in *.
    assert (Hlen : (length b < length p)%nat) by (rewrite E, length_app; cbn; lia).
    rewrite IH by (rewrite ?E in H0; set_solver || lia).
    assert (El : forall cur, lines cur p = ((cur ++ a) :: fst (lines [] b), snd (lines [] b))).
    { intros cur. rewrite E, lines_app, (lines_flat cur a Hn). cbn. done. }
    unfold grep_output. rewrite El. cbn. f_equal. f_equal. unfold print_match.
    assert (Et : take (q + 1) p = a ++ [newline]).
    { assert (length a = q) as Hq by (apply length_take_le; rewrite E, length_app in Hlen; destruct (decide (q <= length p)%nat); [done|];
        exfalso; assert (length a = length p) by (apply length_take_ge; lia); rewrite E, length_app in *; cbn in *; lia).
      rewrite E. replace (q + 1)%nat with (length a + 1)%nat by lia. by rewrite take_app_add. }
    by rewrite Et.
  - rewrite (lines_flat [] p Hs). unfold grep_output. by rewrite (lines_flat [] p Hs).
Qed.

(** Every line fits into the buffer with its newline. *)
Definition short_lines (input : list Z) : Prop :=
  Forall (fun l => Z.of_nat (length l) + 1 < buf_size) (fst (lines [] input)) /\ Z.of_nat (length (snd (lines [] input))) + 1 < buf_size.

Lemma lines_short a : forall cur, Forall (fun l => Z.of_nat (length l) + 1 < buf_size) (fst (lines cur a)) ->
  Z.of_nat (length (snd (lines cur a))) + 1 < buf_size -> Z.of_nat (length cur) + 1 < buf_size.
Proof.
  induction a as [|c a IH]; intros cur G1 G2; cbn [lines] in *; [done|]. destruct (c =? newline); cbn [fst snd] in *.
  - by apply Forall_cons in G1 as [G1 _].
  - apply (IH (cur ++ [c])) in G2; [|done]. rewrite length_app in G2. lia.
Qed.

Lemma lines_tail_length a : forall cur, (length (snd (lines cur a)) <= length cur + length a)%nat.
Proof.
  induction a as [|c a IH]; intros cur; cbn [lines length]; [cbn; lia|]. destruct (c =? newline); cbn [snd]; [specialize (IH []); cbn in IH; lia|].
  specialize (IH (cur ++ [c])). rewrite length_app in IH. cbn in IH. lia.
Qed.

Lemma lines_tail_sub a : forall cur, snd (lines cur a) ⊆ cur ++ a.
Proof.
  induction a as [|c a IH]; intros cur; cbn [lines]; [cbn; set_solver|]. destruct (c =? newline); cbn [snd].
  - specialize (IH []). set_solver.
  - specialize (IH (cur ++ [c])). set_solver.
Qed.

Lemma grep_spec pattern : forall fuel buf input, (length input < fuel)%nat -> 0 ∉ buf ++ input -> newline ∉ buf -> short_lines (buf ++ input) ->
  grep fuel file_read pattern buf input = Some (grep_output pattern buf input).
Proof.
  induction fuel as [|fuel IH]; intros buf input Hf H0 Hb [Hs1 Hs2]; [lia|]. cbn [grep].
  assert (Hm : Z.of_nat (length buf) + 1 < buf_size).
  { rewrite lines_app, (lines_flat [] buf Hb) in Hs1, Hs2. cbn [fst snd app] in Hs1, Hs2. by apply (lines_short input). }
  unfold file_read at 1. set (n := Nat.min (Z.to_nat (buf_size - Z.of_nat (length buf) - 1)) (length input)).
  assert (Hrd : file_read (buf_size - Z.of_nat (length buf) - 1) input = n) by done. rewrite ?Hrd.
  destruct (Nat.ltb_spec 0 n) as [Hn|Hn].
  2: { assert (input = []) as ->; [|done]. unfold n, buf_size in *. destruct input; [done|cbn in *; lia]. }
  rewrite grep_lines_spec; [|rewrite <- (take_drop n input) in H0; set_solver|done].
  rewrite <- (lines_cur buf _ Hb). unfold grep_output at 1. rewrite <- (lines_cur buf _ Hb). fold (grep_output pattern buf (take n input)).
  set (t := snd (lines buf (take n input))). assert (Ht : newline ∉ t) by (by apply lines_tail).
  assert (Hd : (length (drop n input) < fuel)%nat) by (rewrite length_drop; lia).
  replace (grep_output pattern buf input) with (grep_output pattern buf (take n input ++ drop n input)) by (by rewrite take_drop).
  rewrite grep_output_app. fold t.
  destruct (Nat.eqb_spec (length t) (length (buf ++ take n input))) as [El|El].
  - (* no newline in the buffer: it is the end of the file *)
    assert (Hno : newline ∉ take n input).
    { intros Hin. apply list_elem_of_split in Hin as (x & y & E). unfold t in El. rewrite E in El. rewrite lines_app in El. cbn in El.
      pose proof (lines_tail_length y []) as G. rewrite !length_app in El. cbn in El, G. lia. }
    assert (Hall : n = length input).
    { destruct (decide (n = length input)) as [|Hne]; [done|]. exfalso. assert (En : n = Z.to_nat (buf_size - Z.of_nat (length buf) - 1)) by (unfold n in *; lia).
      assert (Hlen : Z.of_nat (length (buf ++ take n input)) = buf_size - 1) by (rewrite length_app, length_take_le by lia; lia).
      rewrite <- (take_drop n input), app_assoc, lines_app, (lines_flat [] (buf ++ take n input)) in Hs1, Hs2 by set_solver.
      cbn [fst snd app] in Hs1, Hs2. pose proof (lines_short _ _ Hs1 Hs2). lia. }
    rewrite Hall, drop_all. destruct fuel; [cbn in Hd; lia|]. done.
  - rewrite IH; [done|done| |done|].
    + assert (t ⊆ buf ++ take n input); [|rewrite <- (take_drop n input) in H0; set_solver].
      apply lines_tail_sub.
    + unfold short_lines. rewrite <- (lines_cur t _ Ht). rewrite <- (take_drop n input), app_assoc, lines_app in Hs1, Hs2.
      rewrite <- (lines_cur buf _ Hb) in Hs1, Hs2. fold t in Hs1, Hs2. cbn [fst snd] in Hs1, Hs2. apply Forall_app in Hs1 as [_ Hs1]. done.
Qed.

(** C14: on a file without zero bytes whose lines are shorter than the buffer, grep
    terminates and prints exactly the complete lines that match, in order and each with
    its newline. *)
Theorem grep_prints_matching_lines (pattern input : list Z) :
  0 ∉ input -> short_lines input ->
  grep (length input + 1) file_read pattern [] input = Some (grep_output pattern [] input).
Proof. intros H0 Hs. apply grep_spec; [lia|done|set_solver|done]. Qed.

Definition ex_text : list Z := [97; 98; 10; 99; 10; 99; 97; 10; 97].

Lemma grep_prints_matching_lines_witness :
  grep (length ex_text + 1) file_read [97] [] ex_text = Some [97; 98; 10; 99; 97; 10].
Proof.
  rewrite (grep_prints_matching_lines [97] ex_text).
  - reflexivity.
  - unfold ex_text. set_solver.
  - split; [repeat constructor|]; vm_compute; reflexivity.
Defined.

(** A read that delivers part of a line is enough to lose the line: with the input
    "ab", newline delivered as "a" and the rest, grep for "b" drops the first byte of the
    line, and grep for "a" prints nothing although the line matches. *)
Theorem grep_loses_line_on_short_read :
  let input := [97; 98; newline] in
  let one_byte_first := fun (size : Z) (l : list Z) => if (length l =? 3)%nat then 1%nat else length l in
  grep 4 file_read [97] [] input = Some input /\
  grep 4 one_byte_first [97] [] input = Some [] /\
  grep 4 one_byte_first [98] [] input = Some [98; newline].
Proof. vm_compute. done. Qed.
