(* ===== verification/Printf.v ===== *)
(** * Formatted output and number parsing (printf.c, console.c, ulib.c)

    printf of the user library and cprintf of the kernel, as the bytes they give to putc
    and consputc; what atoi makes of the numbers they print with %d. *)

From S2P Require Import Prelude.
From Stdlib Require Import Ascii.

Definition pct : Z := 37.
Definition minus : Z := 45.
Definition ch0 : Z := 48.

(** The static arrays [digits]. *)
Definition digits_upper : list Z := (fun k => if (k <? 10)%nat then 48 + Z.of_nat k else 55 + Z.of_nat k) <$> seq 0 16.
Definition digits_lower : list Z := (fun k => if (k <? 10)%nat then 48 + Z.of_nat k else 87 + Z.of_nat k) <$> seq 0 16.

(** The do loop: the digits of [x], the last one first, as they are stored in buf. *)
Fixpoint digit_loop (fuel : nat) (digits : list Z) (base x : Z) : option (list Z) :=
  match fuel with
  | O => None
  | S fuel' =>
      let d := nth (Z.to_nat (x mod base)) digits 0 in
      if x / base =? 0 then Some [d]
      else match digit_loop fuel' digits base (x / base) with Some l => Some (d :: l) | None => None end
  end.

Definition digit_fuel : nat := 32.

(** The contents of buf when printint (printf.c) prints it, backwards. *)
Definition int_buf (digits : list Z) (xx base : Z) (sgn : bool) : option (list Z) :=
  let neg := sgn && (xx <? 0) in
  let x := if neg then u32 (- xx) else u32 xx in
  match digit_loop digit_fuel digits base x with
  | Some l => Some (if neg then l ++ [minus] else l)
  | None => None
  end.

Definition printint (xx base : Z) (sgn : bool) : list Z := rev (default [] (int_buf digits_upper xx base sgn)).
Definition cons_printint (xx base : Z) (sgn : bool) : list Z := rev (default [] (int_buf digits_lower xx base sgn)).

Definition ch (a : ascii) : Z := Z.of_N (N_of_ascii a).
Arguments ch _%_char.
Definition null_text : list Z := ch <$> ["("; "n"; "u"; "l"; "l"; ")"]%char.

(** printf; [args] are the words behind the format on the stack, [str] the string at an
    address, [state] whether the last character was a percent sign. *)
Fixpoint printf (str : Z -> list Z) (args : nat -> Z) (ap : nat) (state : bool) (fmt : list Z) : list Z :=
  match fmt with
  | [] => []
  | c :: fmt' =>
      if negb state then
        if c =? pct then printf str args ap true fmt' else c :: printf str args ap false fmt'
      else if c =? ch "d" then printint (s32 (args ap)) 10 true ++ printf str args (S ap) false fmt'
      else if (c =? ch "x") || (c =? ch "p") then printint (s32 (args ap)) 16 false ++ printf str args (S ap) false fmt'
      else if c =? ch "s" then
        (if args ap =? 0 then null_text else str (args ap)) ++ printf str args (S ap) false fmt'
      else if c =? ch "c" then u8 (args ap) :: printf str args (S ap) false fmt'
      else if c =? pct then c :: printf str args ap false fmt'
      else pct :: c :: printf str args ap false fmt'
  end.

(** cprintf (console.c); its lock is taken around the whole. *)
Fixpoint cprintf (str : Z -> list Z) (args : nat -> Z) (argp : nat) (fmt : list Z) : list Z :=
  match fmt with
  | [] => []
  | c :: fmt' =>
      if negb (c =? pct) then c :: cprintf str args argp fmt' else
      match fmt' with
      | [] => []
      | c :: fmt'' =>
          if c =? ch "d" then cons_printint (s32 (args argp)) 10 true ++ cprintf str args (S argp) fmt''
          else if (c =? ch "x") || (c =? ch "p") then cons_printint (s32 (args argp)) 16 false ++ cprintf str args (S argp) fmt''
          else if c =? ch "s" then
            (if args argp =? 0 then null_text else str (args argp)) ++ cprintf str args (S argp) fmt''
          else if c =? pct then pct :: cprintf str args argp fmt''
          else pct :: c :: cprintf str args argp fmt''
      end
  end.

(** atoi (ulib.c): the [int] arithmetic is modulo 2^32. *)
Fixpoint atoi_loop (n : Z) (s : list Z) : Z :=
  match s with
  | c :: s' => if (ch0 <=? c) && (c <=? ch0 + 9) then atoi_loop (s32 (n * 10 + c - ch0)) s' else n
  | [] => n
  end.
Definition atoi (s : list Z) : Z := atoi_loop 0 s.

(** ** The digits *)

Definition is_digit (c : Z) : Prop := ch0 <= c <= ch0 + 9.

(** The number that digits stand for, the last one first. *)
Fixpoint value (base : Z) (l : list Z) : Z := match l with [] => 0 | d :: l' => d + base * value base l' end.

Lemma digit_loop_value digits base : 2 <= base -> forall fuel x, 0 <= x < base ^ Z.of_nat (S fuel) ->
  exists ds, digit_loop (S fuel) digits base x = Some ((fun d => nth (Z.to_nat d) digits 0) <$> ds) /\
    Forall (fun d => 0 <= d < base) ds /\ value base ds = x /\ (1 <= length ds <= S fuel)%nat.
Proof.
  intros Hb. induction fuel as [|fuel IH]; intros x Hx.
  - change (Z.of_nat 1) with 1 in Hx. rewrite Z.pow_1_r in Hx. exists [x]. cbn. rewrite Z.mod_small, Z.div_small by lia. cbn.
    split; [done|]. split; [repeat constructor; lia|]. lia.
  - change (digit_loop (S (S fuel)) digits base x) with (let d := nth (Z.to_nat (x mod base)) digits 0 in if x / base =? 0 then Some [d]
      else match digit_loop (S fuel) digits base (x / base) with Some l => Some (d :: l) | None => None end).
    destruct (Z.eqb_spec (x / base) 0) as [E|E].
    + exists [x mod base]. split; [done|]. split; [repeat constructor; apply Z.mod_pos_bound; lia|]. cbn.
      rewrite Z.mul_0_r, Z.add_0_r. pose proof (Z.div_mod x base ltac:(lia)). lia.
    + assert (Hx' : 0 <= x / base < base ^ Z.of_nat (S fuel)).
      { rewrite (Nat2Z.inj_succ (S fuel)), Z.pow_succ_r in Hx by lia. split; [apply Z.div_pos; lia|apply Z.div_lt_upper_bound; lia]. }
      destruct (IH (x / base) Hx') as (ds & El & Hf & Hv & Hl). cbv zeta. rewrite El.
      exists (x mod base :: ds). split; [done|]. split; [constructor; [apply Z.mod_pos_bound; lia|done]|]. cbn [value length]. rewrite Hv.
      pose proof (Z.div_mod x base ltac:(lia)). split; [lia|lia].
Qed.

Lemma digit_loop_more digits base k : forall fuel x l, digit_loop fuel digits base x = Some l -> digit_loop (fuel + k) digits base x = Some l.
Proof.
  induction fuel as [|fuel IH]; intros x l E; [done|]. cbn [digit_loop Nat.add] in *. destruct (_ =? _); [done|].
  destruct (digit_loop fuel digits base (x / base)) as [l'|] eqn:El; [|done]. by rewrite (IH _ _ El).
Qed.

(** A 32-bit number has at most ten digits in base 10 and above. *)
Lemma digit_loop_short digits base x : 10 <= base -> 0 <= x < 4294967296 ->
  exists ds, digit_loop digit_fuel digits base x = Some ((fun d => nth (Z.to_nat d) digits 0) <$> ds) /\
    Forall (fun d => 0 <= d < base) ds /\ value base ds = x /\ (1 <= length ds <= 10)%nat.
Proof.
  intros Hb Hx. destruct (digit_loop_value digits base ltac:(lia) 9 x) as (ds & E & Hf & Hv & Hl).
  { assert (10 ^ 10 <= base ^ 10) by (apply Z.pow_le_mono_l; lia). change (Z.of_nat 10) with 10. lia. }
  exists ds. split; [exact (digit_loop_more digits base 22 10 x _ E)|done].
Qed.

(** The magnitude that is printed. *)
Definition magnitude (xx : Z) (sgn : bool) : Z := if sgn && (xx <? 0) then - xx else u32 xx.

Lemma int_buf_spec digits xx base sgn : 10 <= base -> -2147483648 <= xx < 2147483648 ->
  exists ds, int_buf digits xx base sgn = Some (((fun d => nth (Z.to_nat d) digits 0) <$> ds) ++ (if sgn && (xx <? 0) then [minus] else [])) /\
    Forall (fun d => 0 <= d < base) ds /\ value base ds = magnitude xx sgn /\ (1 <= length ds <= 10)%nat.
Proof.
  intros Hb Hx. unfold int_buf, magnitude. destruct (sgn && (xx <? 0)) eqn:En.
  - destruct (digit_loop_short digits base (u32 (- xx)) Hb (u32_range _)) as (ds & E & Hf & Hv & Hl). rewrite E. exists ds.
    rewrite u32_small in Hv by lia. done.
  - destruct (digit_loop_short digits base (u32 xx) Hb (u32_range _)) as (ds & E & Hf & Hv & Hl). rewrite E. exists ds. by rewrite app_nil_r.
Qed.

(** ** Reading the digits back *)

Lemma atoi_loop_app n l s : Forall is_digit l -> -2147483648 <= n < 2147483648 -> atoi_loop n (l ++ s) = atoi_loop (atoi_loop n l) s.
Proof.
  revert n. induction l as [|c l IH]; intros n Hf Hn; [done|]. apply Forall_cons in Hf as [Hc Hf]. cbn [app atoi_loop]. unfold is_digit in Hc.
  assert ((ch0 <=? c) && (c <=? ch0 + 9) = true) as -> by lia. apply IH; [done|apply s32_range].
Qed.

Lemma s32_step x d : s32 (s32 x * 10 + d) = s32 (x * 10 + d).
Proof. unfold s32, u32. repeat case_match; Z.div_mod_to_equations; lia. Qed.

(** atoi computes the number of the digits, modulo 2^32. *)
Lemma atoi_digits ds : Forall (fun d => 0 <= d < 10) ds -> atoi_loop 0 (rev ((fun d => ch0 + d) <$> ds)) = s32 (value 10 ds).
Proof.
  induction ds as [|d ds IH]; intros Hf; [done|]. apply Forall_cons in Hf as [Hd Hf]. cbn [value].
  rewrite fmap_cons. cbn [rev]. rewrite atoi_loop_app; [|apply Forall_rev, Forall_fmap; eapply Forall_impl; [exact Hf|]; intros x Hx; cbn beta in Hx; unfold compose, is_digit; lia|lia].
  rewrite IH by done. cbn [atoi_loop]. assert ((ch0 <=? ch0 + d) && (ch0 + d <=? ch0 + 9) = true) as -> by lia.
  replace (s32 (value 10 ds) * 10 + (ch0 + d) - ch0) with (s32 (value 10 ds) * 10 + d) by lia. rewrite s32_step. f_equal. lia.
Qed.

Lemma digits_small digits ds : (digits = digits_upper \/ digits = digits_lower) -> Forall (fun d => 0 <= d < 10) ds ->
  (fun d => nth (Z.to_nat d) digits 0) <$> ds = (fun d => ch0 + d) <$> ds.
Proof.
  intros Hd Hf. apply list_fmap_ext. intros i d Hi. assert (Hr : 0 <= d < 10) by (by eapply (proj1 (Forall_lookup _ _) Hf)).
  assert (Hc : forall k, (k < 10)%nat -> nth k digits 0 = ch0 + Z.of_nat k).
  { intros k Hk. destruct Hd as [->| ->]; do 10 (destruct k as [|k]; [reflexivity|]); lia. }
  rewrite Hc by lia. lia.
Qed.

(** The text of a number in base 10: a minus sign if it is negative, and digits that atoi
    reads as its magnitude. *)
Lemma decimal_text digits xx : (digits = digits_upper \/ digits = digits_lower) -> -2147483648 <= xx < 2147483648 ->
  exists t, rev (default [] (int_buf digits xx 10 true)) = (if xx <? 0 then [minus] else []) ++ t /\ atoi t = s32 (Z.abs xx).
Proof.
  intros Hd Hx. destruct (int_buf_spec digits xx 10 true ltac:(lia) Hx) as (ds & E & Hf & Hv & _). rewrite E, (digits_small digits ds Hd Hf).
  cbn [andb from_option]. unfold id. exists (rev ((fun d => ch0 + d) <$> ds)). split.
  - destruct (xx <? 0); [by rewrite rev_app_distr|by rewrite app_nil_r].
  - unfold atoi. rewrite atoi_digits by done. rewrite Hv. unfold magnitude. cbn [andb]. destruct (Z.ltb_spec xx 0); [f_equal; lia|].
    rewrite u32_small by lia. f_equal. lia.
Qed.

(** C33: printint of printf.c and of console.c never writes behind its 16-byte buffer in
    the bases that are used, for no 32-bit number.  atoi reads a non-negative number printed
    with %d back as itself; of a negative number it reads 0, since it knows no minus sign, and
    from behind the sign the magnitude, as an int. *)
Theorem printint_atoi (xx base : Z) (sgn : bool) : 10 <= base <= 16 -> -2147483648 <= xx < 2147483648 ->
  (exists l, int_buf digits_upper xx base sgn = Some l /\ (length l <= 11)%nat) /\
  (exists l, int_buf digits_lower xx base sgn = Some l /\ (length l <= 11)%nat) /\
  (0 <= xx -> atoi (printint xx 10 true) = xx /\ atoi (cons_printint xx 10 true) = xx) /\
  (xx < 0 -> atoi (printint xx 10 true) = 0 /\ atoi (cons_printint xx 10 true) = 0 /\
    (exists t, printint xx 10 true = minus :: t /\ atoi t = s32 (- xx)) /\ (exists t, cons_printint xx 10 true = minus :: t /\ atoi t = s32 (- xx))).
Proof.
  intros Hb Hx. assert (Hlen : forall digits, exists l, int_buf digits xx base sgn = Some l /\ (length l <= 11)%nat).
  { intros digits. destruct (int_buf_spec digits xx base sgn ltac:(lia) Hx) as (ds & E & _ & _ & Hl). rewrite E. eexists. split; [done|].
    rewrite length_app, length_fmap. destruct (sgn && _); cbn; lia. }
  split; [apply Hlen|]. split; [apply Hlen|]. unfold printint, cons_printint.
  destruct (decimal_text digits_upper xx ltac:(by left) Hx) as (t & -> & Ht), (decimal_text digits_lower xx ltac:(by right) Hx) as (t' & -> & Ht').
  split; intros H0.
  - rewrite (proj2 (Z.ltb_ge _ _)) by lia. cbn [app]. rewrite Ht, Ht', Z.abs_eq by lia. rewrite s32_small by lia. done.
  - rewrite (proj2 (Z.ltb_lt _ _)) by lia. rewrite <- (Z.abs_neq xx) by lia. split; [done|]. split; [done|]. split; [by exists t|by exists t'].
Qed.

Lemma printint_atoi_witness : printint (-2147483648) 10 true = [45; 50; 49; 52; 55; 52; 56; 51; 54; 52; 56] /\
  atoi (printint 2147483647 10 true) = 2147483647 /\ atoi (printint (-7) 10 true) = 0.
Proof.
  split; [reflexivity|]. split.
  - exact (proj1 (proj1 (proj2 (proj2 (printint_atoi 2147483647 10 true ltac:(lia) ltac:(lia)))) ltac:(lia))).
  - exact (proj1 (proj2 (proj2 (proj2 (printint_atoi (-7) 10 true ltac:(lia) ltac:(lia)))) ltac:(lia))).
Defined.

(** ** The two formatters agree *)

(** Formats without the directives %c, %x and %p; the last two print other digits. *)
Fixpoint plain (state : bool) (fmt : list Z) : Prop :=
  match fmt with
  | [] => True
  | c :: fmt' => (state = true -> c <> ch "c" /\ c <> ch "x" /\ c <> ch "p") /\ plain (if state then false else c =? pct) fmt'
  end.

Lemma digit_loop_decimal fuel : forall x, digit_loop fuel digits_upper 10 x = digit_loop fuel digits_lower 10 x.
Proof.
  induction fuel as [|fuel IH]; intros x; [done|]. cbn [digit_loop].
  assert (E : nth (Z.to_nat (x mod 10)) digits_upper 0 = nth (Z.to_nat (x mod 10)) digits_lower 0).
  { pose proof (Z.mod_pos_bound x 10 ltac:(lia)). assert (Hc : forall k, (k < 10)%nat -> nth k digits_upper 0 = nth k digits_lower 0).
    { intros k Hk. do 10 (destruct k as [|k]; [reflexivity|]). lia. }
    apply Hc. lia. }
  by rewrite E, IH.
Qed.

Lemma printint_decimal xx : printint xx 10 true = cons_printint xx 10 true.
Proof. unfold printint, cons_printint, int_buf. by rewrite digit_loop_decimal. Qed.

Lemma printf_agrees str args n : forall fmt ap, (length fmt <= n)%nat -> plain false fmt ->
  cprintf str args ap fmt = printf str args ap false fmt.
Proof.
  induction n as [|n IH]; intros fmt ap Hn Hp; (destruct fmt as [|c fmt]; [done|]); cbn [length] in Hn; [lia|].
  destruct Hp as [_ Hp]. cbn [cprintf printf negb]. destruct (Z.eqb_spec c pct) as [->|Hc]; cbn [negb]; [|by rewrite IH by (done || lia)].
  destruct fmt as [|c fmt]; [done|]. cbn [length] in Hn. destruct Hp as [Hk Hp]. destruct (Hk eq_refl) as (K1 & K2 & K3). cbn [printf negb].
  rewrite (proj2 (Z.eqb_neq c (ch "x")) K2), (proj2 (Z.eqb_neq c (ch "p")) K3), (proj2 (Z.eqb_neq c (ch "c")) K1). cbn [orb].
  destruct (c =? ch "d"); [by rewrite printint_decimal, IH by (done || lia)|]. destruct (c =? ch "s"); [by rewrite IH by (done || lia)|].
  destruct (Z.eqb_spec c pct) as [->|]; by rewrite IH by (done || lia).
Qed.

(** Cprintf of the kernel and printf of the user library print the same bytes for
    every format without %c, which the kernel does not know, and without %x and %p, where
    the two use different letters. *)
Theorem cprintf_agrees_with_printf str args fmt : plain false fmt -> cprintf str args 0 fmt = printf str args 0 false fmt.
Proof. apply (printf_agrees str args (length fmt)). lia. Qed.

Lemma cprintf_agrees_with_printf_witness :
  cprintf (fun _ => [97]) (fun k => if (k =? 0)%nat then 42 else 4096) 0 [pct; 100; 32; pct; 115; pct] =
  printf (fun _ => [97]) (fun k => if (k =? 0)%nat then 42 else 4096) 0 false [pct; 100; 32; pct; 115; pct] /\
  printf (fun _ => [97]) (fun k => if (k =? 0)%nat then 42 else 4096) 0 false [pct; 100; 32; pct; 115; pct] = [52; 50; 32; 97].
Proof.
  split; [|reflexivity]. apply cprintf_agrees_with_printf. cbn. repeat split; intros; discriminate.
Defined.
