(* ===== verification/Ulib.v ===== *)
(** * The user library (ulib.c): strings, memory and stat

    strchr is in Grep.v, gets in ShRun.v and atoi in Printf.v, with the programs that use
    them.  These routines work on the memory of the process; a loop to the end of a string
    takes one step per byte, its fuel. *)

From S2P Require Import Prelude Mem.

Fixpoint u_strcpy (fuel : nat) (m : mem) (s t : Z) : option mem :=
  match fuel with
  | O => None
  | S fuel =>
      let c := m t in
      let m := mset m s c in
      if negb (c =? 0) then u_strcpy fuel m (s + 1) (t + 1) else Some m
  end.

Fixpoint u_strcmp (fuel : nat) (m : mem) (p q : Z) : option Z :=
  match fuel with
  | O => None
  | S fuel =>
      if negb (m p =? 0) && (m p =? m q) then u_strcmp fuel m (p + 1) (q + 1) else Some (u8 (m p) - u8 (m q))
  end.

Definition u_strlen (fuel : nat) (m : mem) (s : Z) : option Z := strlen_loop fuel m s 0.
Definition u_memset (m : mem) (dst c n : Z) : mem := stosb m dst c (Z.to_nat n).
Definition u_memmove (m : mem) (vdst vsrc n : Z) : mem := copy_forward m vdst vsrc (Z.to_nat n).

(** ** The strings they compare and copy *)

(** Lexicographic order of byte strings. *)
Fixpoint bytes_lt (l1 l2 : list Z) : bool :=
  match l1, l2 with
  | _, [] => false
  | [], _ :: _ => true
  | x :: l1, y :: l2 => if x =? y then bytes_lt l1 l2 else x <? y
  end.

Lemma u_strcmp_spec m lp : forall fuel p q lq, mem_ok m -> is_cstr m p lp -> is_cstr m q lq -> (length lp < fuel)%nat ->
  exists r, u_strcmp fuel m p q = Some r /\ (r = 0 <-> lp = lq) /\ (r < 0 <-> bytes_lt lp lq = true).
Proof.
  induction lp as [|x lp IH]; intros fuel p q lq Hm Hp Hq Hf; (destruct fuel as [|fuel]; [lia|]); cbn [u_strcmp].
  - simpl in Hp. rewrite Hp. cbn. eexists. split; [done|]. destruct lq as [|y lq]; simpl in Hq.
    + rewrite Hq. change (u8 0 - u8 0) with 0. split; [done|]. split; [intros; exfalso; lia|done].
    + destruct Hq as (Hy & Hy0 & _). rewrite Hy. pose proof (Hm q). unfold u8. rewrite (Z.mod_small y) by lia. change (0 mod 256) with 0. cbn [bytes_lt].
      split; split; intros; done || lia.
  - destruct Hp as (Hx & Hx0 & Hp). rewrite Hx. rewrite (proj2 (Z.eqb_neq x 0)) by done. cbn [negb andb].
    pose proof (Hm p) as Hb. rewrite Hx in Hb. pose proof (Hm q) as Hbq. destruct (Z.eqb_spec x (m q)) as [E|E].
    + destruct lq as [|y lq]; [simpl in Hq; congruence|]. destruct Hq as (Hy & Hy0 & Hq). assert (x = y) as <- by congruence.
      destruct (IH fuel (p + 1) (q + 1) lq Hm Hp Hq ltac:(simpl in Hf; lia)) as (r & Er & H0 & Hlt). exists r. split; [done|].
      simpl. rewrite Z.eqb_refl. split; [rewrite H0; split; congruence|done].
    + eexists. split; [done|]. unfold u8. rewrite !Z.mod_small by lia. destruct lq as [|y lq]; simpl in Hq.
      * rewrite Hq in *. simpl. split; split; intros; done || lia.
      * destruct Hq as (Hy & _). rewrite Hy in *. simpl. rewrite (proj2 (Z.eqb_neq x y)) by done. rewrite Z.ltb_lt.
        split; [split; [lia|congruence]|lia].
Qed.

(** strcpy copies the string with its zero byte, where the target does not run into the part
    of the source that is still to be read; nothing else changes. *)
Lemma u_strcpy_spec l : forall fuel m s t, is_cstr m t l -> (length l < fuel)%nat -> (s <= t \/ t + Z.of_nat (length l) < s) ->
  exists m', u_strcpy fuel m s t = Some m' /\ is_cstr m' s l /\ forall x, ~ (s <= x <= s + Z.of_nat (length l)) -> m' x = m x.
Proof.
  induction l as [|c l IH]; intros fuel m s t Ht Hf Hst; (destruct fuel as [|fuel]; [simpl in Hf; lia|]); cbn [u_strcpy is_cstr length] in *.
  - rewrite Ht. exists (mset m s 0). split; [done|]. split; [apply mset_eq|]. intros x Hx. apply mset_ne. simpl in Hx. lia.
  - destruct Ht as (Hc & Hc0 & Ht). rewrite Hc, (proj2 (Z.eqb_neq c 0)) by done. cbn [negb].
    destruct (IH fuel (mset m s c) (s + 1) (t + 1)) as (m' & E & Hl & Ho); [|lia|lia|].
    { eapply is_cstr_ext; [|exact Ht]. intros x Hx. symmetry. apply mset_ne. lia. }
    exists m'. split; [done|]. split_and!; [|done|done|].
    + rewrite Ho by lia. apply mset_eq.
    + intros x Hx. rewrite Ho by lia. apply mset_ne. lia.
Qed.

(** memmove of the user library copies upwards only: it agrees with the kernel's memmove
    unless the target begins inside the source. *)
Lemma u_memmove_agrees m dst src n : 0 <= n -> dst <= src \/ src + n <= dst -> mem_eq (u_memmove m dst src n) (memmove m dst src n).
Proof.
  intros Hn Ho. unfold u_memmove, memmove. destruct (_ && _) eqn:E; [|done].
  apply andb_true_iff in E as [E1%Z.ltb_lt E2%Z.ltb_lt]. lia.
Qed.

(** There it repeats the first bytes instead. *)
Example u_memmove_overlap : let m := store_bytes (fun _ => 0) 0 [1; 2; 3; 4] in
  map (u_memmove m 1 0 3) (seqZ 0 4) = [1; 1; 1; 1] /\ map (memmove m 1 0 3) (seqZ 0 4) = [1; 1; 2; 3].
Proof. vm_compute. done. Qed.

(** ** stat *)

(** The calls that stat makes, over the state of the process. *)
Record filecalls (S St : Type) := FileCalls {
  fc_open : string -> Z -> K S Z;
  fc_fstat : Z -> K S (Z * option St);
  fc_close : Z -> K S Z }.
Arguments fc_open {S St} _ _ _.
Arguments fc_fstat {S St} _ _.
Arguments fc_close {S St} _ _.

(** The result and what fstat wrote into the caller's structure. *)
Definition u_stat {S St} (c : filecalls S St) (n : string) : K S (Z * option St) :=
  let! fd := fc_open c n 0 in
  if fd <? 0 then kret (-1, None) else
  let! r := fc_fstat c fd in
  fc_close c fd ;;
  kret r.

(** stat gives back the descriptor it opens, on every path. *)
Lemma u_stat_closes {S St} (c : filecalls S St) (fds : S -> gset Z) n s r s' :
  (forall fl s fd s1, fc_open c n fl s = Ret fd s1 -> if fd <? 0 then fds s1 = fds s else fd ∉ fds s /\ fds s1 = fds s ∪ {[fd]}) ->
  (forall fd s r s1, fc_fstat c fd s = Ret r s1 -> fds s1 = fds s) ->
  (forall fd s r s1, fc_close c fd s = Ret r s1 -> fds s1 = fds s ∖ {[fd]}) ->
  u_stat c n s = Ret r s' -> fds s' = fds s.
Proof.
  intros Ho Hf Hc E. unfold u_stat, kbind in E. destruct (fc_open c n 0 s) as [fd s1| | |] eqn:E1; try done. apply Ho in E1.
  destruct (fd <? 0); [injection E as _ <-; done|]. destruct E1 as [Hn E1]. destruct (fc_fstat c fd s1) as [r2 s2| | |] eqn:E2; try done. apply Hf in E2.
  destruct (fc_close c fd s2) as [r3 s3| | |] eqn:E3; try done. apply Hc in E3. injection E as _ <-. rewrite E3, E2, E1. set_solver.
Qed.
