(* ===== verification/Console.v ===== *)
(** * The console (console.c)

    Output to the screen and the serial port, and the line discipline of the input: a
    ring of 128 bytes with three free-running indices, read (r), committed (w) and edit
    (e).  The interrupt handler gets the values of its successive calls of getc as a
    list; a read sleeps when there is nothing committed and goes on with what it has
    copied so far. *)

From S2P Require Import Prelude Layout.

Definition INPUT_BUF : Z := 128.
Definition BACKSPACE : Z := 256.
Definition C_ (x : Z) : Z := x - 64.          (* C(x), x - '@' *)
Definition ctl_P : Z := C_ 80.
Definition ctl_U : Z := C_ 85.
Definition ctl_H : Z := C_ 72.
Definition ctl_D : Z := C_ 68.
Definition del : Z := 127.
Definition nl : Z := 10.
Definition cr : Z := 13.

Record console := Console {
  cons_lk : bool;            (* cons.lock held *)
  locking : bool;            (* cons.locking *)
  panicked : bool;
  uart : list Z;             (* bytes given to uartputc *)
  cursor : Z;                (* the cursor registers of the CRT controller *)
  crt : Z -> Z;              (* the cells of the screen *)
  ibuf : list Z;             (* input.buf *)
  i_r : Z; i_w : Z; i_e : Z; (* input.r, input.w, input.e *)
  cons_woken : list Z        (* channels given to wakeup *)
}.

Definition set_cons_lk (v : bool) (s : console) : console :=
  Console v (locking s) (panicked s) (uart s) (cursor s) (crt s) (ibuf s) (i_r s) (i_w s) (i_e s) (cons_woken s).
Definition set_locking (v : bool) (s : console) : console :=
  Console (cons_lk s) v (panicked s) (uart s) (cursor s) (crt s) (ibuf s) (i_r s) (i_w s) (i_e s) (cons_woken s).
Definition add_uart (c : Z) (s : console) : console :=
  Console (cons_lk s) (locking s) (panicked s) (uart s ++ [c]) (cursor s) (crt s) (ibuf s) (i_r s) (i_w s) (i_e s) (cons_woken s).
Definition set_screen (pos : Z) (m : Z -> Z) (s : console) : console :=
  Console (cons_lk s) (locking s) (panicked s) (uart s) pos m (ibuf s) (i_r s) (i_w s) (i_e s) (cons_woken s).
Definition set_input (b : list Z) (r w e : Z) (s : console) : console :=
  Console (cons_lk s) (locking s) (panicked s) (uart s) (cursor s) (crt s) b r w e (cons_woken s).
Definition cons_wakeup (ch : Z) (s : console) : console :=
  Console (cons_lk s) (locking s) (panicked s) (uart s) (cursor s) (crt s) (ibuf s) (i_r s) (i_w s) (i_e s) (cons_woken s ++ [ch]).
(** &input.r *)
Definition input_chan : Z := 0.

Definition cons_acquire : K console unit :=
  let! held := kget cons_lk in
  if held : bool then kpanic "acquire" else kmodify (set_cons_lk true).
Definition cons_release : K console unit :=
  let! held := kget cons_lk in
  if held : bool then kmodify (set_cons_lk false) else kpanic "release".

(** ** Output *)

Definition COLS : Z := 80.
Definition cell_set (m : Z -> Z) (p v : Z) : Z -> Z := fun x => if x =? p then v else m x.
(** memmove(crt, crt+80, 23*80 cells) *)
Definition cells_up (m : Z -> Z) : Z -> Z := fun x => if (0 <=? x) && (x <? 23 * 80) then m (x + 80) else m x.
(** memset(crt+pos, 0, n cells) *)
Definition cells_clear (m : Z -> Z) (pos n : Z) : Z -> Z := fun x => if (pos <=? x) && (x <? pos + n) then 0 else m x.

Definition cgaputc (c : Z) : K console unit :=
  let! pos := kget cursor in
  let! m := kget crt in
  let '(pos, m) :=
    if c =? nl then (pos + (80 - pos mod 80), m)
    else if c =? BACKSPACE then ((if 0 <? pos then pos - 1 else pos), m)
    else (pos + 1, cell_set m pos (Z.lor (Z.land c 255) 1792)) in
  if (pos <? 0) || (25 * 80 <? pos) then kpanic "pos under/overflow" else
  let '(pos, m) :=
    if 24 <=? pos / 80 then (pos - 80, cells_clear (cells_up m) (pos - 80) (24 * 80 - (pos - 80)))
    else (pos, m) in
  kmodify (set_screen pos (cell_set m pos (Z.lor 32 1792))).

(** A CPU that finds [panicked] set stops. *)
Definition consputc (c : Z) : K console unit :=
  let! p := kget panicked in
  if p : bool then kpanic "panicked" else
  (if c =? BACKSPACE then kmodify (add_uart 8) ;; kmodify (add_uart 32) ;; kmodify (add_uart 8)
   else kmodify (add_uart c)) ;;
  cgaputc c.

(** ** Input *)

Definition at_ (i : Z) (s : console) : Z := nth (Z.to_nat (i mod INPUT_BUF)) (ibuf s) 0.
Definition set_e (e : Z) (s : console) : console := set_input (ibuf s) (i_r s) (i_w s) e s.
Definition set_w (w : Z) (s : console) : console := set_input (ibuf s) (i_r s) w (i_e s) s.
Definition set_r (r : Z) (s : console) : console := set_input (ibuf s) r (i_w s) (i_e s) s.
(** [input.buf[input.e++ % INPUT_BUF] = c] *)
Definition put_e (c : Z) (s : console) : console :=
  set_input (<[Z.to_nat (i_e s mod INPUT_BUF) := u8 c]> (ibuf s)) (i_r s) (i_w s) (u32 (i_e s + 1)) s.

(** The loop of ^U. *)
Fixpoint kill_line (fuel : nat) : K console unit :=
  let! s := kget id in
  if negb (i_e s =? i_w s) && negb (at_ (u32 (i_e s - 1)) s =? nl) then
    match fuel with
    | O => knofuel
    | S fuel' => kmodify (set_e (u32 (i_e s - 1))) ;; consputc BACKSPACE ;; kill_line fuel'
    end
  else kret tt.

(** One character; it answers whether a process listing was asked for. *)
Definition console_key (c : Z) : K console bool :=
  if c =? ctl_P then kret true
  else if c =? ctl_U then kill_line (Z.to_nat INPUT_BUF) ;; kret false
  else if (c =? ctl_H) || (c =? del) then
    let! s := kget id in
    (if negb (i_e s =? i_w s) then kmodify (set_e (u32 (i_e s - 1))) ;; consputc BACKSPACE else kret tt) ;;
    kret false
  else
    let! s := kget id in
    (if negb (c =? 0) && (u32 (i_e s - i_r s) <? INPUT_BUF) then
       let c := if c =? cr then nl else c in
       kmodify (put_e c) ;;
       consputc c ;;
       let! s := kget id in
       if (c =? nl) || (c =? ctl_D) || (i_e s =? u32 (i_r s + INPUT_BUF)) then
         kmodify (set_w (i_e s)) ;; kmodify (cons_wakeup input_chan)
       else kret tt
     else kret tt) ;;
    kret false.

(** The loop of consoleintr, over what getc returns until it is negative. *)
Fixpoint console_keys (cs : list Z) : K console bool :=
  match cs with
  | [] => kret false
  | c :: cs' =>
      let! d := console_key c in
      let! d' := console_keys cs' in
      kret (d || d')
  end.

(** consoleintr; it answers whether procdump is called at the end. *)
Definition consoleintr (cs : list Z) : K console bool :=
  cons_acquire ;;
  let! d := console_keys cs in
  cons_release ;;
  kret d.

(** What a passage through the loops of consoleread leads to: the bytes of the call, or
    sleep with the bytes copied so far and the count that remains, or -1. *)
Inductive cread := CBytes (l : list Z) | CSleep (l : list Z) (n : nat) | CKilled.

Fixpoint consoleread_loop (killed : bool) (got : list Z) (n : nat) : K console cread :=
  match n with
  | O => kret (CBytes got)
  | S n' =>
      let! s := kget id in
      if i_r s =? i_w s then
        if killed then kret CKilled else kret (CSleep got n)
      else
        let c := at_ (i_r s) s in
        kmodify (set_r (u32 (i_r s + 1))) ;;
        if c =? ctl_D then
          (if negb (bool_decide (got = [])) then kmodify (fun s => set_r (u32 (i_r s - 1)) s) else kret tt) ;;
          kret (CBytes got)
        else if c =? nl then kret (CBytes (got ++ [c]))
        else consoleread_loop killed (got ++ [c]) n'
  end.

(** consoleread between the unlocking and the locking of the inode, from its start or
    from the wakeup of its sleep. *)
Definition consoleread_cons (killed : bool) (got : list Z) (n : nat) : K console cread :=
  cons_acquire ;;
  let! r := consoleread_loop killed got n in
  cons_release ;;
  kret r.

Fixpoint consputs (l : list Z) : K console unit :=
  match l with
  | [] => kret tt
  | c :: l' => consputc (Z.land c 255) ;; consputs l'
  end.

(** consolewrite, without the unlocking and the locking of the inode. *)
Definition consolewrite_cons (l : list Z) : K console Z :=
  cons_acquire ;;
  consputs l ;;
  cons_release ;;
  kret (Z.of_nat (length l)).

(** consoleinit, without the device table and the interrupt controller. *)
Definition consoleinit_cons : K console unit :=
  kmodify (set_cons_lk false) ;; kmodify (set_locking true).

(** ** The screen *)

(** The cursor is in one of the first 24 lines. *)
Definition on_screen (s : console) : Prop := 0 <= cursor s < 24 * 80.

(** What output leaves alone. *)
Definition same_input (s s' : console) : Prop :=
  ibuf s' = ibuf s /\ i_r s' = i_r s /\ i_w s' = i_w s /\ i_e s' = i_e s /\ cons_lk s' = cons_lk s /\ panicked s' = panicked s /\ cons_woken s' = cons_woken s.

Lemma cgaputc_spec c s : on_screen s ->
  wp (cgaputc c) s (fun _ s' => on_screen s' /\ same_input s s' /\ uart s' = uart s /\
    forall x, ~ (0 <= x < 25 * 80) -> crt s' x = crt s x).
Proof.
  intros Hp. unfold on_screen in *. unfold cgaputc. apply wp_bind, wp_get, wp_bind, wp_get.
  set (pm := if c =? nl then _ else _).
  assert (H1 : 0 <= fst pm <= 24 * 80 /\ forall x, ~ (0 <= x < 25 * 80) -> snd pm x = crt s x).
  { unfold pm. destruct (c =? nl); cbn [fst snd]; [split; [dlia|done]|]. destruct (c =? BACKSPACE); cbn [fst snd].
    - split; [destruct (Z.ltb_spec 0 (cursor s)); lia|done].
    - split; [lia|]. intros x Hx. unfold cell_set. rewrite (proj2 (Z.eqb_neq _ _)) by lia. done. }
  destruct pm as [pos m]. cbn [fst snd] in H1. destruct H1 as [H1 H2].
  rewrite (proj2 (Z.ltb_ge _ _)), (proj2 (Z.ltb_ge _ _)) by lia. cbn [orb].
  set (pm2 := if 24 <=? pos / 80 then _ else _).
  assert (H3 : 0 <= fst pm2 < 24 * 80 /\ forall x, ~ (0 <= x < 25 * 80) -> snd pm2 x = crt s x).
  { unfold pm2. destruct (Z.leb_spec 24 (pos / 80)) as [Hq|Hq]; cbn [fst snd].
    - assert (pos = 24 * 80) as -> by dlia. split; [lia|]. intros x Hx. unfold cells_clear, cells_up.
      destruct (_ && _) eqn:E1; [lia|]. destruct ((0 <=? x) && (x <? 23 * 80)) eqn:E2; [lia|]. by apply H2.
    - split; [dlia|done]. }
  destruct pm2 as [pos2 m2]. cbn [fst snd] in H3. apply wp_modify. split; [apply H3|]. split; [done|]. split; [done|].
  intros x Hx. cbn. unfold cell_set. rewrite (proj2 (Z.eqb_neq _ _)) by lia. by apply H3.
Qed.

Lemma consputc_spec c s : on_screen s -> panicked s = false ->
  wp (consputc c) s (fun _ s' => on_screen s' /\ same_input s s' /\ forall x, ~ (0 <= x < 25 * 80) -> crt s' x = crt s x).
Proof.
  intros Hp Hn. unfold consputc. apply wp_bind, wp_get. rewrite Hn. apply wp_bind.
  apply wp_mono with (Q := fun _ s1 => on_screen s1 /\ same_input s s1 /\ crt s1 = crt s).
  { destruct (c =? BACKSPACE); [apply wp_bind, wp_modify, wp_bind, wp_modify, wp_modify|apply wp_modify]; done. }
  intros _ s1 (H1 & H2 & H3). eapply wp_mono; [by apply cgaputc_spec|]. intros _ s2 (J1 & J2 & _ & J4). split; [done|]. split; [|by rewrite <- H3].
  unfold same_input in *. intuition congruence.
Qed.

Lemma consputs_spec l : forall s, on_screen s -> panicked s = false ->
  wp (consputs l) s (fun _ s' => on_screen s' /\ same_input s s' /\ forall x, ~ (0 <= x < 25 * 80) -> crt s' x = crt s x).
Proof.
  induction l as [|c l IH]; intros s Hp Hn; cbn [consputs]; [by apply wp_ret|]. apply wp_bind. eapply wp_mono; [by apply consputc_spec|].
  intros _ s1 (H1 & H2 & H3). eapply wp_mono; [apply IH; [done|unfold same_input in H2; intuition congruence]|].
  intros _ s2 (J1 & J2 & J3). split; [done|]. split; [unfold same_input in *; intuition congruence|]. intros x Hx. by rewrite J3, H3.
Qed.

(** Writing any bytes to the console returns their number, whatever they are: the
    cursor stays in the first 24 lines, so the check on its position never panics, and
    no cell outside the 25 lines of the screen is written. *)
Theorem consolewrite_stays_on_screen (l : list Z) (s : console) :
  on_screen s -> panicked s = false -> cons_lk s = false ->
  exists s', consolewrite_cons l s = Ret (Z.of_nat (length l)) s' /\ on_screen s' /\ cons_lk s' = false /\
    forall x, ~ (0 <= x < 25 * 80) -> crt s' x = crt s x.
Proof.
  intros Hp Hn Hl. pose proof (consputs_spec l (set_cons_lk true s) Hp Hn) as Hw. apply wp_iff in Hw as ([] & s1 & E & H1 & H2 & H3).
  unfold consolewrite_cons, cons_acquire, cons_release. rewrite kbind_assoc, kbind_get, Hl, kbind_modify, (kbind_ret _ _ _ _ _ E).
  assert (Hk : cons_lk s1 = true) by (unfold same_input in H2; cbn in H2; intuition). rewrite kbind_assoc, kbind_get, Hk, kbind_modify.
  eexists. split; [reflexivity|]. done.
Qed.

Definition ex_console : console :=
  Console false true false [] (24 * 80 - 1) (fun _ => 0) (replicate 128 0) 4294967295 4294967295 4294967295 [].

Lemma consolewrite_stays_on_screen_witness : exists s', consolewrite_cons [104; 105; 10] ex_console = Ret 3 s' /\ on_screen s'.
Proof.
  destruct (consolewrite_stays_on_screen [104; 105; 10] ex_console) as (s' & E & H1 & _); [unfold on_screen; cbn; lia|done|done|].
  exists s'. split; [exact E|exact H1].
Defined.

(** ** The line discipline *)

(** Committed and edited bytes, as the indices and the ring give them. *)
Definition nw (s : console) : Z := u32 (i_w s - i_r s).
Definition ne (s : console) : Z := u32 (i_e s - i_r s).
Definition region (s : console) (a n : Z) : list Z := (fun k => at_ (i_r s + k) s) <$> seqZ a n.
Definition committed (s : console) : list Z := region s 0 (nw s).
Definition editing (s : console) : list Z := region s (nw s) (ne s - nw s).

Record input_ok (s : console) : Prop := {
  io_len : length (ibuf s) = 128%nat;
  io_r : 0 <= i_r s < 4294967296;
  io_w : 0 <= i_w s < 4294967296;
  io_e : 0 <= i_e s < 4294967296;
  io_order : nw s <= ne s <= INPUT_BUF;
  io_edit : nl ∉ editing s
}.

(** The abstract console: the bytes a reader may take, and the line being typed. *)
Definition acons : Type := list Z * list Z.
Definition acons_of (s : console) : acons := (committed s, editing s).

Definition akey (c : Z) (a : acons) : acons :=
  let '(q, ed) := a in
  if c =? ctl_P then a
  else if c =? ctl_U then (q, [])
  else if (c =? ctl_H) || (c =? del) then (q, take (length ed - 1) ed)
  else if negb (c =? 0) && (Z.of_nat (length q + length ed) <? INPUT_BUF) then
    let c := if c =? cr then nl else c in
    let ed' := ed ++ [c] in
    if (c =? nl) || (c =? ctl_D) || (Z.of_nat (length q + length ed') =? INPUT_BUF) then (q ++ ed', []) else (q, ed')
  else a.

Lemma at_u32 i s : at_ (u32 i) s = at_ i s.
Proof. unfold at_, INPUT_BUF. f_equal. f_equal. dlia. Qed.
Lemma length_region s a n : length (region s a n) = Z.to_nat n.
Proof. unfold region. by rewrite length_fmap, length_seqZ. Qed.
Lemma region_split s a m n : 0 <= m -> 0 <= n -> region s a (m + n) = region s a m ++ region s (a + m) n.
Proof. intros Hm Hn. unfold region. by rewrite seqZ_app, fmap_app. Qed.
Lemma region_one s a : region s a 1 = [at_ (i_r s + a) s].
Proof. done. Qed.
Lemma region_ext s s' a n : (forall k, a <= k < a + n -> at_ (i_r s' + k) s' = at_ (i_r s + k) s) -> region s' a n = region s a n.
Proof.
  intros Hk. unfold region. apply list_fmap_ext. intros i k Hi. apply Hk. apply list_elem_of_lookup_2, elem_of_seqZ in Hi. lia.
Qed.

Lemma ne_of_e s : input_ok s -> i_e s = u32 (i_r s + ne s).
Proof. intros [_ Hr _ He _ _]. unfold ne. dlia. Qed.
Lemma nw_of_w s : input_ok s -> i_w s = u32 (i_r s + nw s).
Proof. intros [_ Hr Hw _ _ _]. unfold nw. dlia. Qed.
Lemma nw_nonneg s : 0 <= nw s.
Proof. unfold nw. apply u32_range. Qed.
Lemma e_is_w s : input_ok s -> (i_e s =? i_w s) = (ne s =? nw s).
Proof.
  intros I. pose proof (ne_of_e s I). pose proof (nw_of_w s I). pose proof (nw_nonneg s). destruct I as [_ Hr Hw He Ho _]. unfold INPUT_BUF in Ho.
  unfold ne, nw in *. destruct (Z.eqb_spec (i_e s) (i_w s)) as [E|E]; symmetry; [apply Z.eqb_eq; by rewrite E|apply Z.eqb_neq]. dlia.
Qed.

(** Moving the edit index back by one. *)
Lemma back_one s : input_ok s -> nw s < ne s -> let s' := set_e (u32 (i_e s - 1)) s in
  input_ok s' /\ committed s' = committed s /\ editing s' = take (length (editing s) - 1) (editing s) /\ ne s' = ne s - 1 /\ nw s' = nw s.
Proof.
  intros I Hlt s'. pose proof (nw_nonneg s) as Hn0. destruct I as [I1 I2 I3 I4 I5 I6].
  assert (En : ne s' = ne s - 1) by (unfold ne, s' in *; cbn; dlia).
  assert (Ew : nw s' = nw s) by done.
  assert (Ed : editing s' = take (length (editing s) - 1) (editing s)).
  { assert (Es : editing s = region s (nw s) (ne s - 1 - nw s) ++ region s (nw s + (ne s - 1 - nw s)) 1).
    { unfold editing. rewrite <- region_split by lia. f_equal. lia. }
    rewrite Es, length_app, length_region, length_region. replace (Z.to_nat (ne s - 1 - nw s) + Z.to_nat 1 - 1)%nat with (Z.to_nat (ne s - 1 - nw s)) by lia.
    rewrite take_app_le by (rewrite length_region; lia). rewrite take_ge by (rewrite length_region; lia).
    unfold editing. by rewrite En, Ew. }
  split; [constructor; try done|done].
  - cbn. apply u32_range.
  - rewrite En, Ew. lia.
  - rewrite Ed. intros Hin. apply I6. eapply elem_of_take in Hin as (i & Hi & _). by eapply list_elem_of_lookup_2.
Qed.

(** One more byte behind the edit index. *)
Lemma put_one s c : input_ok s -> ne s < INPUT_BUF -> 0 <= c < 256 -> let s' := put_e c s in
  committed s' = committed s /\ editing s' = editing s ++ [c] /\ ne s' = ne s + 1 /\ nw s' = nw s /\
  length (ibuf s') = 128%nat /\ 0 <= i_e s' < 4294967296.
Proof.
  intros I Hlt Hc s'. pose proof (nw_nonneg s) as Hn0. pose proof (ne_of_e s I) as Ee. destruct I as [I1 I2 I3 I4 I5 I6]. unfold INPUT_BUF in *.
  assert (En : ne s' = ne s + 1) by (unfold ne, s' in *; cbn; dlia).
  assert (Ew : nw s' = nw s) by done.
  assert (Hold : forall k, 0 <= k < ne s -> at_ (i_r s' + k) s' = at_ (i_r s + k) s).
  { intros k Hk. unfold at_, s'. cbn. rewrite nth_insert_ne; [done|]. rewrite Ee. unfold INPUT_BUF. dlia. }
  assert (Hnew : at_ (i_r s' + ne s) s' = c).
  { unfold at_, s'. cbn. replace (Z.to_nat ((i_r s + ne s) mod INPUT_BUF)) with (Z.to_nat (i_e s mod INPUT_BUF)) by (unfold INPUT_BUF; rewrite Ee; f_equal; dlia).
    rewrite nth_insert_eq; [unfold u8; by rewrite Z.mod_small|]. rewrite I1. unfold INPUT_BUF. dlia. }
  split; [unfold committed; rewrite Ew; apply region_ext; intros k Hk; apply Hold; lia|]. split.
  { unfold editing. rewrite En, Ew. replace (ne s + 1 - nw s) with (ne s - nw s + 1) by lia. rewrite region_split by lia. f_equal.
    - apply region_ext. intros k Hk. apply Hold. lia.
    - rewrite region_one. replace (nw s + (ne s - nw s)) with (ne s) by lia. by rewrite Hnew. }
  split; [done|]. split; [done|]. split; [cbn; by rewrite length_insert|]. cbn. apply u32_range.
Qed.

(** Output between two looks at the input. *)
Lemma input_same s s' : same_input s s' -> input_ok s -> input_ok s' /\ acons_of s' = acons_of s /\ nw s' = nw s /\ ne s' = ne s.
Proof.
  intros (E1 & E2 & E3 & E4 & _) I. assert (Ew : nw s' = nw s) by (unfold nw; by rewrite E2, E3). assert (Ene : ne s' = ne s) by (unfold ne; by rewrite E2, E4).
  assert (Er : forall a n, region s' a n = region s a n) by (intros; apply region_ext; intros; unfold at_; by rewrite E1, E2).
  assert (Ea : acons_of s' = acons_of s) by (unfold acons_of, committed, editing; by rewrite !Er, Ew, Ene).
  split; [|done]. destruct I as [I1 I2 I3 I4 I5 I6]. injection Ea as _ Ed. constructor; rewrite ?E1, ?E2, ?E3, ?E4, ?Ew, ?Ene, ?Ed; done.
Qed.

(** All that the handler needs. *)
Definition cons_ok (s : console) : Prop := input_ok s /\ on_screen s /\ panicked s = false.

Lemma back_echo s : cons_ok s -> nw s < ne s ->
  wp (kmodify (set_e (u32 (i_e s - 1))) ;; consputc BACKSPACE) s (fun _ s' => cons_ok s' /\ cons_lk s' = cons_lk s /\
    acons_of s' = (committed s, take (length (editing s) - 1) (editing s)) /\ ne s' = ne s - 1 /\ nw s' = nw s).
Proof.
  intros (I & Hp & Hn) Hlt. destruct (back_one s I Hlt) as (I1 & E1 & E2 & E3 & E4). apply wp_bind, wp_modify.
  eapply wp_mono; [by apply consputc_spec|]. intros _ s2 (P2 & S2 & _). destruct (input_same _ s2 S2 I1) as (I2 & A2 & W2 & N2).
  split; [split; [done|]; split; [done|]; unfold same_input in S2; cbn in S2; intuition congruence|].
  split; [unfold same_input in S2; cbn in S2; intuition congruence|]. rewrite A2, W2, N2. unfold acons_of. by rewrite E1, E2.
Qed.

(** The line being typed has no newline, so ^U drops all of it. *)
Lemma last_not_nl s : input_ok s -> nw s < ne s -> at_ (u32 (i_e s - 1)) s <> nl.
Proof.
  intros I Hlt E. apply (io_edit s I). pose proof (ne_of_e s I) as Ee. pose proof (nw_nonneg s).
  assert (Er : at_ (i_r s + (ne s - 1)) s = nl).
  { rewrite <- E, at_u32. rewrite Ee. unfold at_, INPUT_BUF. f_equal. f_equal. dlia. }
  unfold editing, region. apply list_elem_of_fmap. exists (ne s - 1). split; [done|]. apply elem_of_seqZ. lia.
Qed.

Lemma kill_line_spec fuel : forall s, cons_ok s -> (Z.to_nat (ne s - nw s) <= fuel)%nat ->
  wp (kill_line fuel) s (fun _ s' => cons_ok s' /\ cons_lk s' = cons_lk s /\ acons_of s' = (committed s, [])).
Proof.
  induction fuel as [|fuel IH]; intros s C Hf; pose proof (proj1 C) as I; pose proof (io_order s I) as Ho;
    cbn [kill_line]; apply wp_bind, wp_get; unfold id; rewrite (e_is_w s I).
  - assert (E : ne s = nw s) by lia. rewrite E, Z.eqb_refl. apply wp_ret. split; [done|]. split; [done|]. unfold acons_of, editing, region. by rewrite E, Z.sub_diag.
  - destruct (Z.eqb_spec (ne s) (nw s)) as [E|E]; cbn [negb andb].
    + apply wp_ret. split; [done|]. split; [done|]. unfold acons_of, editing, region. by rewrite E, Z.sub_diag.
    + rewrite (proj2 (Z.eqb_neq _ _) (last_not_nl s I ltac:(lia))). cbn [negb].
      pose proof (back_echo s C ltac:(lia)) as Hb. apply wp_iff in Hb as (a & s1 & E1 & C1 & L1 & A1 & N1 & W1).
      apply wp_iff. assert (Hr : wp (kill_line fuel) s1 (fun _ s' => cons_ok s' /\ cons_lk s' = cons_lk s /\ acons_of s' = (committed s, []))).
      { eapply wp_mono; [apply IH; [done|lia]|]. intros _ s2 (C2 & L2 & A2). split; [done|]. split; [congruence|]. rewrite A2. injection A1 as -> _. done. }
      apply wp_iff in Hr as (b & s2 & E2 & R2). exists b, s2. split; [|done]. rewrite kbind_modify in E1 |- *.
      rewrite (kbind_ret _ _ _ _ _ E1). exact E2.
Qed.

Lemma length_acons s : input_ok s -> Z.of_nat (length (committed s)) = nw s /\ Z.of_nat (length (editing s)) = ne s - nw s.
Proof. intros I. pose proof (nw_nonneg s). pose proof (io_order s I). unfold committed, editing. rewrite !length_region. lia. Qed.

(** The committed bytes and the line join when w moves up to e. *)
Lemma commit_line s : length (ibuf s) = 128%nat -> 0 <= i_r s < 4294967296 -> 0 <= i_e s < 4294967296 -> nw s <= ne s <= INPUT_BUF ->
  input_ok (set_w (i_e s) s) /\ acons_of (set_w (i_e s) s) = (committed s ++ editing s, []).
Proof.
  intros Hl Hr He Ho. set (s' := set_w (i_e s) s). pose proof (nw_nonneg s). assert (Ew : nw s' = ne s) by done. assert (Ene : ne s' = ne s) by done.
  assert (Ed : editing s' = []) by (unfold editing, region; by rewrite Ew, Ene, Z.sub_diag).
  split; [constructor; try done|].
  - rewrite Ew, Ene. lia.
  - rewrite Ed. set_solver.
  - unfold acons_of. rewrite Ed. f_equal. unfold committed, editing. rewrite Ew. change (region s' 0 (ne s)) with (region s 0 (ne s)).
    rewrite <- (region_split s 0 (nw s)) by lia. f_equal. lia.
Qed.

Lemma console_key_spec c s : cons_ok s -> 0 <= c < 256 ->
  wp (console_key c) s (fun d s' => cons_ok s' /\ cons_lk s' = cons_lk s /\ d = (c =? ctl_P) /\ acons_of s' = akey c (acons_of s)).
Proof.
  intros C Hc. pose proof (proj1 C) as I. destruct (length_acons s I) as [Lq Le]. pose proof (io_order s I) as Ho. pose proof (nw_nonneg s) as Hw0.
  unfold console_key, akey. unfold acons_of at 2. cbn [fst snd]. destruct (c =? ctl_P); [by apply wp_ret|]. destruct (c =? ctl_U).
  { apply wp_bind. eapply wp_mono; [apply kill_line_spec; [done|unfold INPUT_BUF in *; lia]|]. intros _ s1 (C1 & L1 & A1). by apply wp_ret. }
  destruct ((c =? ctl_H) || (c =? del)).
  { apply wp_bind, wp_get. unfold id. rewrite (e_is_w s I). apply wp_bind. destruct (Z.eqb_spec (ne s) (nw s)) as [E|E]; cbn [negb].
    - apply wp_ret, wp_ret. split; [done|]. split; [done|]. split; [done|]. unfold acons_of. assert (editing s = []) as -> by (unfold editing, region; by rewrite E, Z.sub_diag). done.
    - eapply wp_mono; [apply back_echo; [done|lia]|]. intros _ s1 (C1 & L1 & A1 & _). by apply wp_ret. }
  apply wp_bind, wp_get. unfold id. apply wp_bind.
  assert (Eroom : (u32 (i_e s - i_r s) <? INPUT_BUF) = (Z.of_nat (length (committed s) + length (editing s)) <? INPUT_BUF)).
  { change (u32 (i_e s - i_r s)) with (ne s). f_equal. lia. }
  rewrite Eroom. destruct (negb (c =? 0) && _) eqn:Eg; [|by apply wp_ret, wp_ret].
  set (c' := if c =? cr then nl else c). assert (Hc' : 0 <= c' < 256) by (unfold c', nl; destruct (c =? cr); lia).
  assert (Hne : ne s < INPUT_BUF) by (clear Eroom; apply andb_true_iff in Eg as [_ Eg%Z.ltb_lt]; lia). destruct (put_one s c' I Hne Hc') as (Q1 & D1 & N1 & W1 & L1 & R1). set (s1 := put_e c' s) in *.
  apply wp_bind, wp_modify. fold s1. apply wp_bind. destruct C as (_ & Hp & Hn). eapply wp_mono; [apply (consputc_spec c' s1); done|].
  intros _ s2 (P2 & S2 & _). assert (S2' := S2). destruct S2 as (B2 & Er2 & Ew2 & Ee2 & Lk2 & Pn2 & _).
  assert (Er : forall a n, region s2 a n = region s1 a n) by (intros; apply region_ext; intros; unfold at_; by rewrite B2, Er2).
  assert (N2 : ne s2 = ne s + 1) by (unfold ne in *; by rewrite Er2, Ee2). assert (W2 : nw s2 = nw s) by (unfold nw in *; by rewrite Er2, Ew2).
  assert (Q2 : committed s2 = committed s) by (unfold committed in *; rewrite Er, W2, <- W1; exact Q1).
  assert (D2 : editing s2 = editing s ++ [c']) by (unfold editing in *; rewrite Er, W2, N2, <- W1, <- N1; exact D1).
  apply wp_bind, wp_get. unfold id. rewrite Ee2.
  assert (Efull : (i_e s1 =? u32 (i_r s2 + INPUT_BUF)) = (Z.of_nat (length (committed s) + length (editing s ++ [c'])) =? INPUT_BUF)).
  { rewrite length_app. cbn [length]. assert (i_e s1 = u32 (i_r s + (ne s + 1))) as -> by (unfold s1; cbn; rewrite (ne_of_e s I); dlia).
    rewrite Er2. change (i_r s1) with (i_r s). unfold INPUT_BUF in *. pose proof (io_r s I).
    destruct (Z.eqb_spec (u32 (i_r s + (ne s + 1))) (u32 (i_r s + 128))) as [E|E]; symmetry; [apply Z.eqb_eq|apply Z.eqb_neq]; dlia. }
  rewrite Efull. destruct ((c' =? nl) || (c' =? ctl_D) || _) eqn:Ec.
  - apply wp_bind, wp_modify, wp_modify, wp_ret. rewrite <- Ee2.
    destruct (commit_line s2) as [I3 A3]; [by rewrite B2|rewrite Er2; apply I|by rewrite Ee2|rewrite N2, W2; lia|].
    split; [split; [|split; [exact P2|exact (eq_trans Pn2 Hn)]]|].
    + destruct I3 as [J1 J2 J3 J4 J5 J6]. by constructor.
    + split; [cbn; rewrite Lk2; done|]. split; [done|]. change (acons_of (cons_wakeup input_chan (set_w (i_e s2) s2))) with (acons_of (set_w (i_e s2) s2)).
      rewrite A3, Q2, D2. done.
  - apply wp_ret, wp_ret. split; [split; [|split; [exact P2|exact (eq_trans Pn2 Hn)]]|].
    + constructor.
      * by rewrite B2.
      * rewrite Er2. apply I.
      * rewrite Ew2. apply I.
      * by rewrite Ee2.
      * rewrite N2, W2. lia.
      * rewrite D2. intros [Hin|Hin]%elem_of_app; [by apply (io_edit s I)|]. apply list_elem_of_singleton in Hin. apply orb_false_iff in Ec as [Ec _]. lia.
    + split; [done|]. split; [done|]. unfold acons_of. by rewrite Q2, D2.
Qed.

(** ** Reading *)

(** A reader on the committed bytes: up to and including a newline, up to an end of
    file, which is left for the next read when it comes behind other bytes, or until it
    has enough; with nothing committed it sleeps. *)
Fixpoint aread (killed : bool) (got : list Z) (n : nat) (q : list Z) : cread * list Z :=
  match n, q with
  | O, _ => (CBytes got, q)
  | S _, [] => (if killed then CKilled else CSleep got n, [])
  | S n', c :: q' =>
      if c =? ctl_D then (CBytes got, if bool_decide (got = []) then q' else q)
      else if c =? nl then (CBytes (got ++ [c]), q')
      else aread killed (got ++ [c]) n' q'
  end.

Lemma take_one s : cons_ok s -> 0 < nw s -> let s' := set_r (u32 (i_r s + 1)) s in
  cons_ok s' /\ cons_lk s' = cons_lk s /\ committed s = at_ (i_r s) s :: committed s' /\ editing s' = editing s.
Proof.
  intros (I & Hp & Hn) Hlt s'. pose proof (io_order s I) as Ho. destruct I as [I1 I2 I3 I4 I5 I6]. unfold INPUT_BUF in *.
  assert (Ew : nw s' = nw s - 1) by (unfold nw, s' in *; cbn; dlia). assert (Ene : ne s' = ne s - 1) by (unfold ne, nw, s' in *; cbn; dlia).
  assert (Er : forall a n, region s' a n = region s (a + 1) n).
  { intros a n. unfold region. apply list_eq. intros i. rewrite !list_lookup_fmap.
    destruct (decide (Z.of_nat i < n)) as [Hi|Hi].
    - rewrite !lookup_seqZ_lt by lia. cbn. f_equal. change (at_ (u32 (i_r s + 1) + (a + Z.of_nat i)) s = at_ (i_r s + (a + 1 + Z.of_nat i)) s).
      rewrite <- at_u32, u32_add_l, at_u32. f_equal. lia.
    - rewrite !lookup_seqZ_ge by lia. done. }
  assert (Ec : committed s = at_ (i_r s) s :: committed s').
  { unfold committed. rewrite Ew, Er. replace (nw s) with (1 + (nw s - 1)) at 1 by lia. rewrite region_split by lia. rewrite region_one, Z.add_0_r. done. }
  assert (Ed : editing s' = editing s).
  { unfold editing. rewrite Ew, Ene, Er. f_equal; lia. }
  split; [|done]. split; [|done]. constructor; try done.
  - cbn. apply u32_range.
  - rewrite Ew, Ene. unfold INPUT_BUF. lia.
  - by rewrite Ed.
Qed.

Lemma set_r_back s : 0 <= i_r s < 4294967296 -> set_r (u32 (u32 (i_r s + 1) - 1)) (set_r (u32 (i_r s + 1)) s) = s.
Proof.
  intros Hr. assert (E : u32 (u32 (i_r s + 1) - 1) = i_r s) by dlia. rewrite E. by destruct s.
Qed.

Lemma w_is_r s : input_ok s -> (i_r s =? i_w s) = (nw s =? 0).
Proof.
  intros I. pose proof (nw_of_w s I). destruct I as [_ Hr Hw _ _ _]. unfold nw in *.
  destruct (Z.eqb_spec (i_r s) (i_w s)) as [E|E]; symmetry; [apply Z.eqb_eq; rewrite E, Z.sub_diag; done|apply Z.eqb_neq]. dlia.
Qed.

Lemma consoleread_loop_spec killed n : forall got s, cons_ok s ->
  wp (consoleread_loop killed got n) s (fun r s' => cons_ok s' /\ cons_lk s' = cons_lk s /\
    editing s' = editing s /\ (r, committed s') = aread killed got n (committed s)).
Proof.
  induction n as [|n IH]; intros got s C; cbn [consoleread_loop]; [by apply wp_ret|].
  apply wp_bind, wp_get. unfold id. pose proof (proj1 C) as I. rewrite (w_is_r s I). destruct (Z.eqb_spec (nw s) 0) as [E|E].
  { assert (committed s = []) as Ec by (unfold committed, region; by rewrite E). rewrite Ec. cbn [aread].
    destruct killed; apply wp_ret; (split; [done|]; split; [done|]; split; [done|]; by rewrite Ec). }
  pose proof (nw_nonneg s) as Hw0. destruct (take_one s C ltac:(lia)) as (C1 & L1 & Ec & Ed). apply wp_bind, wp_modify. rewrite Ec. cbn [aread].
  set (s1 := set_r (u32 (i_r s + 1)) s) in *. destruct (at_ (i_r s) s =? ctl_D).
  - apply wp_bind. destruct (decide (got = [])) as [->|Hg].
    + rewrite bool_decide_true by done. cbn [negb]. apply wp_ret, wp_ret. done.
    + rewrite bool_decide_false by done. cbn [negb]. apply wp_modify, wp_ret. unfold s1. cbn [i_r set_r set_input]. rewrite set_r_back by apply I.
      split; [done|]. split; [done|]. split; [done|]. by rewrite Ec.
  - destruct (at_ (i_r s) s =? nl); [by apply wp_ret|]. eapply wp_mono; [by apply IH|]. intros r s2 (C2 & L2 & D2 & A2).
    split; [done|]. split; [by rewrite L2|]. split; [by rewrite D2|done].
Qed.

(** ** Sequences of interrupts and reads *)

Inductive cevent := EKeys (cs : list Z) | ERead (killed : bool) (got : list Z) (n : nat).

(** The answers of the reads. *)
Fixpoint run_console (evs : list cevent) : K console (list cread) :=
  match evs with
  | [] => kret []
  | EKeys cs :: evs' => consoleintr cs ;; run_console evs'
  | ERead k got n :: evs' => let! r := consoleread_cons k got n in let! l := run_console evs' in kret (r :: l)
  end.

Fixpoint run_lines (evs : list cevent) (a : acons) : list cread * acons :=
  match evs with
  | [] => ([], a)
  | EKeys cs :: evs' => run_lines evs' (foldl (fun a c => akey c a) a cs)
  | ERead k got n :: evs' =>
      let '(r, q) := aread k got n (fst a) in
      let '(l, a') := run_lines evs' (q, snd a) in (r :: l, a')
  end.

Lemma console_keys_spec cs : Forall (fun c => 0 <= c < 256) cs -> forall s, cons_ok s ->
  wp (console_keys cs) s (fun _ s' => cons_ok s' /\ cons_lk s' = cons_lk s /\ acons_of s' = foldl (fun a c => akey c a) (acons_of s) cs).
Proof.
  induction 1 as [|c cs Hc _ IH]; intros s C; cbn [console_keys foldl]; [by apply wp_ret|]. apply wp_bind.
  eapply wp_mono; [by apply console_key_spec|]. intros d s1 (C1 & L1 & _ & A1). apply wp_bind. eapply wp_mono; [by apply IH|].
  intros d' s2 (C2 & L2 & A2). apply wp_ret. split; [done|]. split; [congruence|]. by rewrite A2, A1.
Qed.

(** A routine under cons.lock. *)
Lemma locked {A} (c : K console A) s Q : cons_lk s = false ->
  wp c (set_cons_lk true s) (fun a s' => cons_lk s' = true /\ Q a (set_cons_lk false s')) ->
  wp (cons_acquire ;; let! r := c in cons_release ;; kret r) s Q.
Proof.
  intros Hl Hc. unfold cons_acquire, cons_release. apply wp_bind, wp_bind, wp_get. rewrite Hl. apply wp_modify, wp_bind.
  eapply wp_mono; [exact Hc|]. intros a s' [Hk HQ]. apply wp_bind, wp_bind, wp_get. rewrite Hk. by apply wp_modify, wp_ret.
Qed.

Lemma cons_ok_lk b s : cons_ok s -> cons_ok (set_cons_lk b s).
Proof. intros ([I1 I2 I3 I4 I5 I6] & Hp & Hn). split; [by constructor|done]. Qed.

Lemma run_console_spec evs : Forall (fun e => match e with EKeys cs => Forall (fun c => 0 <= c < 256) cs | _ => True end) evs ->
  forall s, cons_ok s -> cons_lk s = false ->
  wp (run_console evs) s (fun l s' => cons_ok s' /\ cons_lk s' = false /\ (l, acons_of s') = run_lines evs (acons_of s)).
Proof.
  induction 1 as [|e evs He _ IH]; intros s C Hl; cbn [run_console run_lines]; [by apply wp_ret|]. destruct e as [cs|k got n].
  - apply wp_bind. apply wp_mono with (Q := fun _ s1 => cons_ok s1 /\ cons_lk s1 = false /\ acons_of s1 = foldl (fun a c => akey c a) (acons_of s) cs).
    + unfold consoleintr. apply locked; [done|]. eapply wp_mono; [apply console_keys_spec; [done|by apply cons_ok_lk]|].
      intros d s1 (C1 & L1 & A1). split; [done|]. split; [by apply cons_ok_lk|]. split; [done|]. exact A1.
    + intros _ s1 (C1 & L1 & A1). rewrite <- A1. by apply IH.
  - apply wp_bind. apply wp_mono with (Q := fun r s1 => cons_ok s1 /\ cons_lk s1 = false /\ editing s1 = editing s /\ (r, committed s1) = aread k got n (committed s)).
    + unfold consoleread_cons. apply locked; [done|]. eapply wp_mono; [apply consoleread_loop_spec; by apply cons_ok_lk|].
      intros r s1 (C1 & L1 & D1 & A1). split; [done|]. split; [by apply cons_ok_lk|]. split; [done|]. split; [exact D1|exact A1].
    + intros r s1 (C1 & L1 & D1 & A1). apply wp_bind. eapply wp_mono; [by apply IH|]. intros l s2 (C2 & L2 & A2). apply wp_ret.
      split; [done|]. split; [done|]. cbn [acons_of fst snd]. rewrite <- A1. unfold acons_of in A2 at 2. rewrite D1 in A2. by rewrite <- A2.
Qed.

(** C3: every sequence of keyboard interrupts and reads completes (a read with an answer,
    asleep or killed), and the ring with its wrapping indices behaves as a queue of
    committed bytes with the line being typed: erase and kill act on that line only, a
    newline, an end of file or a full buffer commits it, and no committed byte is lost or
    given twice. *)
Theorem console_refines_lines (evs : list cevent) (s : console) :
  cons_ok s -> cons_lk s = false ->
  Forall (fun e => match e with EKeys cs => Forall (fun c => 0 <= c < 256) cs | _ => True end) evs ->
  exists l s', run_console evs s = Ret l s' /\ cons_ok s' /\ (l, acons_of s') = run_lines evs (acons_of s).
Proof.
  intros C Hl He. pose proof (run_console_spec evs He s C Hl) as Hw. apply wp_iff in Hw as (l & s' & E & C' & _ & A). by exists l, s'.
Qed.

Lemma ex_console_ok : cons_ok ex_console.
Proof.
  split; [|split; [unfold on_screen; cbn; lia|done]]. constructor; try (vm_compute; done); cbn; try lia.
  unfold editing, region. change (ne ex_console - nw ex_console) with 0. set_solver.
Qed.

(** The indices wrap; "ab", erase, "c", newline is read as "ac". *)
Lemma console_refines_lines_witness : exists s',
  run_console [EKeys [97; 98; 8; 99]; ERead false [] 10; EKeys [13]; ERead false [] 10] ex_console = Ret [CSleep [] 10; CBytes [97; 99; 10]] s'.
Proof.
  destruct (console_refines_lines [EKeys [97; 98; 8; 99]; ERead false [] 10; EKeys [13]; ERead false [] 10] ex_console) as (l & s' & E & _ & A).
  - apply ex_console_ok.
  - done.
  - repeat constructor; lia.
  - exists s'. rewrite E. f_equal. apply (f_equal fst) in A. cbn [fst] in A. rewrite A. vm_compute. reflexivity.
Defined.

(** ** The device routines

    consoleread and consolewrite are called with the inode locked and give it up while
    they wait for and hold cons.lock. *)
Section device.
Context {T : Type} (iunlock ilock : nat -> K T unit).
Definition on_inode {A} (c : K T A) : K (T * console) A := kzoom fst (fun t s => (t, snd s)) c.
Definition on_console {A} (c : K console A) : K (T * console) A := kzoom snd (fun k s => (fst s, k)) c.

(** From its start, or from the wakeup of its sleep, with what is copied so far. *)
Definition consoleread_resume (killed : bool) (ip : nat) (got : list Z) (n : nat) : K (T * console) (Z * list Z) :=
  let! r := on_console (consoleread_cons killed got n) in
  match r with
  | CBytes l => on_inode (ilock ip) ;; kret (Z.of_nat (length l), l)
  | CKilled => on_inode (ilock ip) ;; kret (-1, [])
  | CSleep _ _ => ksleep input_chan
  end.
Definition consoleread (killed : bool) (ip : nat) (n : Z) : K (T * console) (Z * list Z) :=
  on_inode (iunlock ip) ;;
  consoleread_resume killed ip [] (Z.to_nat n).

Definition consolewrite (ip : nat) (l : list Z) : K (T * console) Z :=
  on_inode (iunlock ip) ;;
  let! n := on_console (consolewrite_cons l) in
  on_inode (ilock ip) ;;
  kret n.
End device.
