(* ===== verification/Sh.v ===== *)
(** * The shell's parser (sh.c)

    The pointer into the command line is the list of the bytes from there to its end;
    a token is the distance of its first byte from the end and its bytes (q and eq).
    panic is the outcome of the same name.  The command structures are values: the
    constructors of sh.c do not check what malloc returns, and here it does not fail. *)

From S2P Require Import Prelude.

Definition O_RDONLY : Z := 0.
Definition O_WRONLY_CREATE : Z := 513.
Definition MAXARGS : nat := 10.

Record token := Token { t_rest : nat; t_str : list Z }.

(** The command structures, with [X] for the pairs of pointers to the strings. *)
Inductive cmd (X : Type) :=
| EXEC (argv : list X)
| REDIR (c : cmd X) (file : X) (mode fd : Z)
| PIPE (left right : cmd X)
| LIST (left right : cmd X)
| BACK (c : cmd X).
Arguments EXEC {X} _.
Arguments REDIR {X} _ _ _ _.
Arguments PIPE {X} _ _.
Arguments LIST {X} _ _.
Arguments BACK {X} _.

Definition P (A : Type) : Type := K (list Z) A.

Definition whitespace : list Z := [32; 9; 13; 10; 11].
Definition symbols : list Z := [60; 124; 62; 38; 59; 40; 41].     (* "<|>&;()" *)
Definition is_ws (c : Z) : bool := bool_decide (c ∈ whitespace).
Definition is_sym (c : Z) : bool := bool_decide (c ∈ symbols).
Definition word_char (c : Z) : bool := negb (is_ws c) && negb (is_sym c).

Definition lt_ : Z := 60.
Definition bar : Z := 124.
Definition gt_ : Z := 62.
Definition amp : Z := 38.
Definition semi : Z := 59.
Definition lpar : Z := 40.
Definition rpar : Z := 41.
Definition plus_ : Z := 43.
Definition tok_a : Z := 97.

Fixpoint skip_ws (s : list Z) : list Z :=
  match s with c :: s' => if is_ws c then skip_ws s' else s | [] => [] end.
Fixpoint span_word (s : list Z) : list Z * list Z :=
  match s with
  | c :: s' => if word_char c then (c :: fst (span_word s'), snd (span_word s')) else ([], s)
  | [] => ([], [])
  end.

(** gettoken; it answers the kind of the token and q, eq. *)
Definition gettoken : P (Z * token) := fun s0 =>
  let s := skip_ws s0 in
  let q := length s in
  match s with
  | [] => Ret (0, Token q []) []
  | c :: s1 =>
      if c =? gt_ then
        match s1 with
        | d :: s2 => if d =? gt_ then Ret (plus_, Token q [c; d]) (skip_ws s2) else Ret (c, Token q [c]) (skip_ws s1)
        | [] => Ret (c, Token q [c]) []
        end
      else if is_sym c then Ret (c, Token q [c]) (skip_ws s1)
      else
        let '(w, rest) := span_word s in Ret (tok_a, Token q w) (skip_ws rest)
  end.

Definition peek (toks : list Z) : P bool := fun s0 =>
  let s := skip_ws s0 in
  Ret (match s with c :: _ => bool_decide (c ∈ toks) | [] => false end) s.

(** The while loop of parseredirs: the redirections it reads. *)
Fixpoint redir_loop (n : nat) : P (list (token * Z * Z)) :=
  let! more := peek [lt_; gt_] in
  if more : bool then
    match n with
    | O => knofuel
    | S n' =>
        let! t := gettoken in
        let! f := gettoken in
        if negb (fst f =? tok_a) then kpanic "missing file for redirection" else
        let r := if fst t =? lt_ then (snd f, O_RDONLY, 0) else (snd f, O_WRONLY_CREATE, 1) in
        let! l := redir_loop n' in
        kret (r :: l)
    end
  else kret [].

Definition redircmd {X} (c : cmd X) (r : X * Z * Z) : cmd X := REDIR c (fst (fst r)) (snd (fst r)) (snd r).

Definition parseredirs (c : cmd token) : P (cmd token) :=
  let! s := kget id in
  let! l := redir_loop (length s) in
  kret (foldl redircmd c l).

(** The while loop of parseexec: the arguments and the redirections between them; the
    redirections wrap the command to whose argv the arguments are added. *)
Fixpoint exec_loop (n : nat) (argc : nat) : P (list token * list (token * Z * Z)) :=
  let! stop := peek [bar; rpar; amp; semi] in
  if stop : bool then kret ([], []) else
  match n with
  | O => knofuel
  | S n' =>
      let! t := gettoken in
      if fst t =? 0 then kret ([], [])
      else if negb (fst t =? tok_a) then kpanic "syntax"
      else if (MAXARGS <=? S argc)%nat then kpanic "too many args"
      else
        let! s := kget id in
        let! rs := redir_loop (length s) in
        let! r := exec_loop n' (S argc) in
        kret (snd t :: fst r, rs ++ snd r)
  end.

(** The loop over & of parseline. *)
Fixpoint back_loop (n : nat) (c : cmd token) : P (cmd token) :=
  let! more := peek [amp] in
  if more : bool then
    match n with
    | O => knofuel
    | S n' => gettoken ;; back_loop n' (BACK c)
    end
  else kret c.

Fixpoint parseline (fuel : nat) : P (cmd token) :=
  match fuel with
  | O => knofuel
  | S fuel' =>
      let! c := parsepipe fuel' in
      let! s := kget id in
      let! c := back_loop (length s) c in
      let! more := peek [semi] in
      if more : bool then
        gettoken ;;
        let! d := parseline fuel' in
        kret (LIST c d)
      else kret c
  end
with parsepipe (fuel : nat) : P (cmd token) :=
  match fuel with
  | O => knofuel
  | S fuel' =>
      let! c := parseexec fuel' in
      let! more := peek [bar] in
      if more : bool then
        gettoken ;;
        let! d := parsepipe fuel' in
        kret (PIPE c d)
      else kret c
  end
with parseexec (fuel : nat) : P (cmd token) :=
  match fuel with
  | O => knofuel
  | S fuel' =>
      let! block := peek [lpar] in
      if block : bool then
        gettoken ;;
        let! c := parseline fuel' in
        let! close := peek [rpar] in
        if close : bool then gettoken ;; parseredirs c else kpanic "syntax - missing )"
      else
        let! s := kget id in
        let! rs := redir_loop (length s) in
        let! s := kget id in
        let! r := exec_loop (S (length s)) 0 in
        kret (foldl redircmd (EXEC (fst r)) (rs ++ snd r))
  end.

(** nulterminate on the line of [n] bytes with its terminating zero. *)
Definition cut (n : nat) (buf : list Z) (t : token) : list Z := <[(n - t_rest t + length (t_str t))%nat := 0]> buf.
Fixpoint nulterminate (n : nat) (c : cmd token) (buf : list Z) : list Z :=
  match c with
  | EXEC argv => foldl (cut n) buf argv
  | REDIR c f _ _ => cut n (nulterminate n c buf) f
  | PIPE l r => nulterminate n r (nulterminate n l buf)
  | LIST l r => nulterminate n r (nulterminate n l buf)
  | BACK c => nulterminate n c buf
  end.

Definition parse_fuel (s : list Z) : nat := 4 * length s + 3.

(** parsecmd; it answers the command and the buffer it points into. *)
Definition parsecmd (s : list Z) : outcome (list Z) (cmd token * list Z) :=
  (let! c := parseline (parse_fuel s) in
   peek [] ;;
   let! rest := kget id in
   if negb (bool_decide (rest = [])) then kpanic "syntax"
   else kret (c, nulterminate (length s) c (s ++ [0]))) s.

(** ** Every parse ends, and its tokens are words of the line *)

(** The routine returns with [Q], or panics. *)
Definition pwp {A} (c : P A) (s : list Z) (Q : A -> list Z -> Prop) : Prop :=
  match c s with Ret a s' => Q a s' | Panic _ => True | _ => False end.

Lemma pwp_bind {A C} (c : P A) (k : A -> P C) s Q : pwp c s (fun a s' => pwp (k a) s' Q) -> pwp (kbind c k) s Q.
Proof. unfold pwp, kbind. by destruct (c s). Qed.
Lemma pwp_mono {A} (c : P A) s (Q Q' : A -> list Z -> Prop) : pwp c s Q -> (forall a s', Q a s' -> Q' a s') -> pwp c s Q'.
Proof. unfold pwp. destruct (c s); naive_solver. Qed.
Lemma pwp_ret {A} (a : A) s (Q : A -> list Z -> Prop) : Q a s -> pwp (kret a) s Q.
Proof. done. Qed.

(** A redirection of standard input for reading or of standard output for writing. *)
Definition std_redir (mode fd : Z) : Prop := (mode = O_RDONLY /\ fd = 0) \/ (mode = O_WRONLY_CREATE /\ fd = 1).
Fixpoint cmd_all {X} (R : X -> Prop) (c : cmd X) : Prop :=
  match c with
  | EXEC argv => Forall R argv
  | REDIR c f m fd => cmd_all R c /\ R f /\ std_redir m fd
  | PIPE l r => cmd_all R l /\ cmd_all R r
  | LIST l r => cmd_all R l /\ cmd_all R r
  | BACK c => cmd_all R c
  end.

Lemma skip_ws_length s : (length (skip_ws s) <= length s)%nat.
Proof. induction s as [|c s IH]; cbn; [lia|]. destruct (is_ws c); cbn; lia. Qed.
Lemma skip_ws_suffix s : exists pre, s = pre ++ skip_ws s.
Proof.
  induction s as [|c s [pre IH]]; cbn; [by exists []|]. destruct (is_ws c); [|by exists []]. exists (c :: pre). cbn. by rewrite <- IH.
Qed.
Lemma skip_ws_head s c s' : skip_ws s = c :: s' -> is_ws c = false.
Proof. induction s as [|d s IH]; cbn; [done|]. destruct (is_ws d) eqn:E; [apply IH|]. by intros [= <- _]. Qed.
Lemma span_word_spec s : s = fst (span_word s) ++ snd (span_word s) /\ Forall (fun c => word_char c = true) (fst (span_word s)) /\
  match snd (span_word s) with [] => True | c :: _ => word_char c = false end.
Proof.
  induction s as [|c s (E & Hf & Hs)]; cbn [span_word]; [done|]. destruct (word_char c) eqn:Ec; cbn [fst snd]; [|done].
  split; [cbn; by rewrite <- E|]. split; [by constructor|done].
Qed.

Section line.
Variable s0 : list Z.

Definition suffix (s : list Z) : Prop := exists pre, s0 = pre ++ s.
(** The token is a word of the line, and what follows it is not part of a word. *)
Definition tok_ok (t : token) : Prop := exists pre post, s0 = pre ++ t_str t ++ post /\ t_rest t = length (t_str t ++ post) /\
  t_str t <> [] /\ Forall (fun c => word_char c = true) (t_str t) /\ match post with [] => True | c :: _ => word_char c = false end.

Lemma suffix_skip s : suffix s -> suffix (skip_ws s).
Proof. intros [pre E0]. destruct (skip_ws_suffix s) as [p E]. exists (pre ++ p). by rewrite E0, <- app_assoc, <- E. Qed.
Lemma suffix_app a s : suffix (a ++ s) -> suffix s.
Proof. intros [pre E0]. exists (pre ++ a). by rewrite E0, app_assoc. Qed.

Lemma sym_not_a c : is_sym c = true -> c <> tok_a /\ c <> 0.
Proof. unfold is_sym. rewrite bool_decide_eq_true. unfold symbols, tok_a. intros Hc. split; intros ->; set_solver. Qed.

Lemma gettoken_spec s : suffix s -> pwp gettoken s (fun r s' => suffix s' /\ (length s' <= length s)%nat /\
  (fst r = tok_a -> tok_ok (snd r)) /\ ((length s' < length s)%nat \/ fst r = 0)).
Proof.
  intros Hs. apply suffix_skip in Hs as Hk. unfold pwp, gettoken. pose proof (skip_ws_length s) as Hl. destruct (skip_ws s) as [|c s1] eqn:E.
  { split; [done|]. cbn. split; [lia|]. split; [done|by right]. }
  pose proof (skip_ws_head s c s1 E) as Hw. cbn [length] in Hl. assert (Hs1 : suffix s1) by (by apply (suffix_app [c])).
  destruct (Z.eqb_spec c gt_) as [->|Hg].
  { destruct s1 as [|d s2]; cbn [fst snd].
    - split; [done|]. cbn. split; [lia|]. split; [done|left; lia].
    - pose proof (skip_ws_length (d :: s2)) as L1. pose proof (skip_ws_length s2) as L2. destruct (Z.eqb_spec d gt_) as [->|Hd]; cbn [fst snd]; cbn [length] in *.
      + split; [by apply suffix_skip, (suffix_app [gt_])|]. split; [lia|]. split; [done|left; lia].
      + split; [by apply suffix_skip|]. split; [lia|]. split; [done|left; lia]. }
  destruct (is_sym c) eqn:Ec; cbn [fst snd].
  { pose proof (skip_ws_length s1). split; [by apply suffix_skip|]. split; [lia|]. split; [|left; lia]. intros ->. by destruct (sym_not_a _ Ec). }
  destruct (span_word_spec (c :: s1)) as (Es & Hf & Hp). destruct (span_word (c :: s1)) as [w rest] eqn:Ew. cbn [fst snd] in *.
  assert (Hne : w <> []). { cbn in Ew. unfold word_char in Ew. rewrite Hw, Ec in Ew. cbn in Ew. by injection Ew as <- _. }
  pose proof (skip_ws_length rest). assert (Hlen : (length (c :: s1) = length w + length rest)%nat) by (rewrite Es, length_app; done). cbn [length] in Hlen.
  assert (0 < length w)%nat by (destruct w; [done|cbn; lia]). split; [apply suffix_skip, (suffix_app w); by rewrite <- Es|]. split; [lia|].
  split; [|left; lia]. intros _. destruct Hk as [pre Hk]. exists pre, rest. cbn [t_str t_rest]. rewrite <- Es. split; [done|]. split; [done|].
  split; [done|]. split; [done|done].
Qed.

Lemma peek_spec toks s : suffix s -> pwp (peek toks) s (fun b s' => suffix s' /\ s' = skip_ws s /\ (length s' <= length s)%nat /\
  (b = true -> exists c r, s' = c :: r /\ c ∈ toks)).
Proof.
  intros Hs. unfold pwp, peek. split; [by apply suffix_skip|]. split; [done|]. split; [apply skip_ws_length|].
  destruct (skip_ws s) as [|c r]; [done|]. rewrite bool_decide_eq_true. intros Hc. by exists c, r.
Qed.

(** After a successful look ahead at a symbol the token is consumed. *)
Lemma gettoken_consumes s c r : suffix s -> s = c :: r -> is_sym c = true -> pwp gettoken s (fun _ s' => suffix s' /\ (length s' < length s)%nat).
Proof.
  intros Hs -> Hc. pose proof (gettoken_spec (c :: r) Hs) as Hg.
  assert (Hw : is_ws c = false). { unfold is_sym in Hc. apply bool_decide_eq_true in Hc. unfold is_ws. apply bool_decide_eq_false. unfold symbols, whitespace in *. set_solver. }
  assert (Hv : match gettoken (c :: r) with Ret (v, _) _ => v <> 0 | _ => True end).
  { unfold gettoken. cbn [skip_ws]. rewrite Hw. destruct (Z.eqb_spec c gt_) as [->|]; [destruct r as [|d r]; [done|by destruct (d =? gt_)]|].
    rewrite Hc. by apply sym_not_a. }
  unfold pwp in *. destruct (gettoken (c :: r)) as [[v t] s'| | |]; [|done..]. cbn [fst] in Hg. destruct Hg as (H1 & _ & _ & [H2|H2]); done.
Qed.

Definition redir_ok (r : token * Z * Z) : Prop := tok_ok (fst (fst r)) /\ std_redir (snd (fst r)) (snd r).

Lemma sym_of (c : Z) (toks : list Z) : (forall x, x ∈ toks -> x ∈ symbols) -> c ∈ toks -> is_sym c = true.
Proof. intros Hs Hc. unfold is_sym. apply bool_decide_eq_true. by apply Hs. Qed.

Lemma redir_loop_spec n : forall s, suffix s -> (length s <= n)%nat ->
  pwp (redir_loop n) s (fun l s' => suffix s' /\ (length s' <= length s)%nat /\ Forall redir_ok l).
Proof.
  induction n as [|n IH]; intros s Hs Hn; cbn [redir_loop]; apply pwp_bind; (eapply pwp_mono; [by apply peek_spec|]);
    intros b s1 (H1 & _ & L1 & Hb); (destruct b; [destruct (Hb eq_refl) as (c & r & E & Hc)|by apply pwp_ret; split; [done|]; split; [lia|]; constructor]).
  - exfalso. rewrite E in L1. cbn in L1. lia.
  - apply pwp_bind. eapply pwp_mono; [apply (gettoken_consumes s1 c r H1 E); apply (sym_of c [lt_; gt_]); [unfold symbols; set_solver|done]|].
    intros t s2 (H2 & L2). apply pwp_bind. eapply pwp_mono; [by apply gettoken_spec|]. intros f s3 (H3 & L3 & Ht & _).
    destruct (Z.eqb_spec (fst f) tok_a) as [Ef|Ef]; cbn [negb]; [|done]. apply pwp_bind. eapply pwp_mono; [apply IH; [done|lia]|].
    intros l s4 (H4 & L4 & Hl). apply pwp_ret. split; [done|]. split; [lia|]. constructor; [|done]. unfold redir_ok, std_redir. destruct (_ =? lt_); cbn; split; auto.
Qed.

Lemma foldl_redir (Rk : token -> Prop) l : forall c, cmd_all Rk c -> Forall (fun r => Rk (fst (fst r)) /\ std_redir (snd (fst r)) (snd r)) l -> cmd_all Rk (foldl redircmd c l).
Proof. induction l as [|r l IH]; intros c Hc Hl; [done|]. apply Forall_cons in Hl as [Hr Hl]. cbn. apply IH; [by split|done]. Qed.

Lemma parseredirs_spec c s : suffix s -> cmd_all tok_ok c ->
  pwp (parseredirs c) s (fun c' s' => suffix s' /\ (length s' <= length s)%nat /\ cmd_all tok_ok c').
Proof.
  intros Hs Hc. unfold parseredirs. apply pwp_bind. change (pwp (let! l := redir_loop (length s) in kret (foldl redircmd c l)) s
    (fun c' s' => suffix s' /\ (length s' <= length s)%nat /\ cmd_all tok_ok c')). apply pwp_bind.
  eapply pwp_mono; [by apply redir_loop_spec|]. intros l s1 (H1 & L1 & Hl). apply pwp_ret. split; [done|]. split; [done|]. by apply foldl_redir.
Qed.

Lemma exec_loop_spec n : forall argc s, suffix s -> (length s < n)%nat ->
  pwp (exec_loop n argc) s (fun r s' => suffix s' /\ (length s' <= length s)%nat /\ Forall tok_ok (fst r) /\ Forall redir_ok (snd r)).
Proof.
  induction n as [|n IH]; intros argc s Hs Hn; [lia|]. cbn [exec_loop]. apply pwp_bind. eapply pwp_mono; [by apply peek_spec|].
  intros b s1 (H1 & _ & L1 & _). destruct b; [by apply pwp_ret|]. apply pwp_bind. eapply pwp_mono; [by apply gettoken_spec|].
  intros t s2 (H2 & L2 & Ht & Hd). destruct (Z.eqb_spec (fst t) 0) as [E0|E0]; [apply pwp_ret; split; [done|]; split; [lia|done]|].
  destruct (Z.eqb_spec (fst t) tok_a) as [Ea|Ea]; cbn [negb]; [|done]. destruct (MAXARGS <=? S argc)%nat; [done|].
  apply pwp_bind. change (pwp (let! rs := redir_loop (length s2) in let! r := exec_loop n (S argc) in kret (snd t :: fst r, rs ++ snd r)) s2
    (fun r s' => suffix s' /\ (length s' <= length s)%nat /\ Forall tok_ok (fst r) /\ Forall redir_ok (snd r))).
  apply pwp_bind. eapply pwp_mono; [by apply redir_loop_spec|]. intros rs s3 (H3 & L3 & Hrs). apply pwp_bind.
  eapply pwp_mono; [apply IH; [done|destruct Hd; [lia|done]]|]. intros r s4 (H4 & L4 & Hr1 & Hr2). apply pwp_ret. cbn [fst snd].
  split; [done|]. split; [lia|]. split; [constructor; [by apply Ht|done]|]. by apply Forall_app.
Qed.

Lemma back_loop_spec n : forall c s, suffix s -> (length s <= n)%nat -> cmd_all tok_ok c ->
  pwp (back_loop n c) s (fun c' s' => suffix s' /\ (length s' <= length s)%nat /\ cmd_all tok_ok c').
Proof.
  induction n as [|n IH]; intros c s Hs Hn Hc; cbn [back_loop]; apply pwp_bind; (eapply pwp_mono; [by apply peek_spec|]);
    intros b s1 (H1 & _ & L1 & Hb); (destruct b; [destruct (Hb eq_refl) as (x & r & E & Hx)|by apply pwp_ret; split; [done|]; split; [lia|]]).
  - exfalso. rewrite E in L1. cbn in L1. lia.
  - apply pwp_bind. eapply pwp_mono; [apply (gettoken_consumes s1 x r H1 E); apply (sym_of x [amp]); [unfold symbols; set_solver|done]|].
    intros t s2 (H2 & L2). eapply pwp_mono; [apply IH; [done|lia|done]|]. intros c' s3 (H3 & L3 & Hc'). split; [done|]. split; [lia|done].
Qed.

Notation parses f s := (pwp f s%list (fun c s' => suffix s' /\ (length s' <= length s%list)%nat /\ cmd_all tok_ok c)).

(** A separator followed by another command. *)
Lemma rest_of_line (c : cmd token) (op : cmd token -> cmd token -> cmd token) (x : Z) (f : P (cmd token)) s :
  x ∈ symbols -> suffix s -> cmd_all tok_ok c -> (forall a b, cmd_all tok_ok a -> cmd_all tok_ok b -> cmd_all tok_ok (op a b)) ->
  (forall s', suffix s' -> (length s' < length s)%nat -> parses f s') ->
  parses (let! more := peek [x] in if more : bool then gettoken ;; let! d := f in kret (op c d) else kret c) s.
Proof.
  intros Hx Hs Hc Hop Hf. apply pwp_bind. eapply pwp_mono; [by apply peek_spec|]. intros b s1 (H1 & _ & L1 & Hb).
  destruct b; [|by apply pwp_ret]. destruct (Hb eq_refl) as (y & r & E & Hy). apply pwp_bind.
  eapply pwp_mono; [apply (gettoken_consumes s1 y r H1 E); apply (sym_of y [x]); [set_solver|done]|]. intros t s2 (H2 & L2).
  apply pwp_bind. eapply pwp_mono; [apply Hf; [done|lia]|]. intros d s3 (H3 & L3 & Hd). apply pwp_ret. split; [done|]. split; [lia|by apply Hop].
Qed.

Lemma parse_spec fuel : forall s, suffix s ->
  ((4 * length s + 3 <= fuel)%nat -> parses (parseline fuel) s) /\
  ((4 * length s + 2 <= fuel)%nat -> parses (parsepipe fuel) s) /\
  ((4 * length s + 1 <= fuel)%nat -> parses (parseexec fuel) s).
Proof.
  induction fuel as [|fuel IH]; intros s Hs; [lia|]. split; [|split]; intros Hf.
  - cbn [parseline]. apply pwp_bind. eapply pwp_mono; [apply IH; [done|lia]|]. intros c s1 (H1 & L1 & Hc). apply pwp_bind.
    change (pwp (let! c := back_loop (length s1) c in let! more := peek [semi] in if more : bool then gettoken ;; let! d := parseline fuel in kret (LIST c d) else kret c) s1
      (fun c s' => suffix s' /\ (length s' <= length s)%nat /\ cmd_all tok_ok c)).
    apply pwp_bind. eapply pwp_mono; [by apply back_loop_spec|]. intros c' s2 (H2 & L2 & Hc').
    eapply pwp_mono; [apply (rest_of_line c' LIST semi (parseline fuel)); [unfold symbols; set_solver|done|done|by split|]|].
    + intros s' Hs' Hl. apply IH; [done|lia].
    + cbn. intros d s3 (H3 & L3 & Hd). split; [done|]. split; [lia|done].
  - cbn [parsepipe]. apply pwp_bind. eapply pwp_mono; [apply IH; [done|lia]|]. intros c s1 (H1 & L1 & Hc).
    eapply pwp_mono; [apply (rest_of_line c PIPE bar (parsepipe fuel)); [unfold symbols; set_solver|done|done|by split|]|].
    + intros s' Hs' Hl. apply IH; [done|lia].
    + cbn. intros d s3 (H3 & L3 & Hd). split; [done|]. split; [lia|done].
  - cbn [parseexec]. apply pwp_bind. eapply pwp_mono; [by apply peek_spec|]. intros b s1 (H1 & _ & L1 & Hb). destruct b.
    + destruct (Hb eq_refl) as (x & r & E & Hx). apply pwp_bind.
      eapply pwp_mono; [apply (gettoken_consumes s1 x r H1 E); apply (sym_of x [lpar]); [unfold symbols; set_solver|done]|]. intros t s2 (H2 & L2).
      apply pwp_bind. eapply pwp_mono; [apply IH; [done|lia]|]. intros c s3 (H3 & L3 & Hc). apply pwp_bind.
      eapply pwp_mono; [by apply peek_spec|]. intros b s4 (H4 & _ & L4 & _). destruct b; [|done]. apply pwp_bind.
      eapply pwp_mono; [by apply gettoken_spec|]. intros t' s5 (H5 & L5 & _). eapply pwp_mono; [by apply parseredirs_spec|].
      intros c' s6 (H6 & L6 & Hc'). split; [done|]. split; [lia|done].
    + apply pwp_bind. change (pwp (let! rs := redir_loop (length s1) in let! s := kget id in let! r := exec_loop (S (length s)) 0 in
        kret (foldl redircmd (EXEC (fst r)) (rs ++ snd r))) s1 (fun c s' => suffix s' /\ (length s' <= length s)%nat /\ cmd_all tok_ok c)).
      apply pwp_bind. eapply pwp_mono; [by apply redir_loop_spec|]. intros rs s2 (H2 & L2 & Hrs). apply pwp_bind.
      change (pwp (let! r := exec_loop (S (length s2)) 0 in kret (foldl redircmd (EXEC (fst r)) (rs ++ snd r))) s2
        (fun c s' => suffix s' /\ (length s' <= length s)%nat /\ cmd_all tok_ok c)).
      apply pwp_bind. eapply pwp_mono; [apply exec_loop_spec; [done|lia]|]. intros r s3 (H3 & L3 & Hr1 & Hr2). apply pwp_ret.
      split; [done|]. split; [lia|]. apply foldl_redir; [done|]. by apply Forall_app.
Qed.

(** ** The strings of the command *)

(** Zeros are only written where no word is. *)
Record cut_ok (buf buf' : list Z) : Prop := {
  co_len : length buf' = length buf;
  co_word : forall i x, s0 !! i = Some x -> word_char x = true -> buf' !! i = buf !! i;
  co_zero : forall i, buf !! i = Some 0 -> buf' !! i = Some 0
}.

Lemma cut_ok_refl buf : cut_ok buf buf.
Proof. by constructor. Qed.
Lemma cut_ok_trans a b c : cut_ok a b -> cut_ok b c -> cut_ok a c.
Proof.
  intros [A1 A2 A3] [B1 B2 B3]. constructor; [congruence| |auto]. intros i x Hi Hx. by rewrite (B2 i x), (A2 i x).
Qed.

Definition zero_at (buf : list Z) (t : token) : Prop := buf !! (length s0 - t_rest t + length (t_str t))%nat = Some 0.

Lemma tok_pos t pre post : s0 = pre ++ t_str t ++ post -> t_rest t = length (t_str t ++ post) -> (length s0 - t_rest t)%nat = length pre.
Proof. intros E Er. rewrite Er, E, !length_app. lia. Qed.

Lemma cut_spec buf t : tok_ok t -> length buf = S (length s0) -> cut_ok buf (cut (length s0) buf t) /\ zero_at (cut (length s0) buf t) t.
Proof.
  intros (pre & post & E & Er & _ & _ & Hp) Hl. pose proof (tok_pos t pre post E Er) as Hq. unfold zero_at, cut. rewrite Hq.
  assert (Hlt : (length pre + length (t_str t) < length buf)%nat) by (rewrite Hl, E, !length_app; lia). split.
  - constructor.
    + by rewrite length_insert.
    + intros i x Hi Hx. destruct (decide (i = length pre + length (t_str t))%nat) as [->|Hne]; [|by rewrite list_lookup_insert_ne].
      exfalso. rewrite E, app_assoc, lookup_app_r in Hi by (rewrite length_app; lia).
      rewrite length_app, Nat.sub_diag in Hi. destruct post as [|y post]; [done|]. injection Hi as ->. congruence.
    + intros i Hi. destruct (decide (i = length pre + length (t_str t))%nat) as [->|Hne]; [by rewrite list_lookup_insert_eq|by rewrite list_lookup_insert_ne].
  - by rewrite list_lookup_insert_eq.
Qed.

Lemma cut_all l : forall buf, Forall tok_ok l -> length buf = S (length s0) ->
  cut_ok buf (foldl (cut (length s0)) buf l) /\ Forall (zero_at (foldl (cut (length s0)) buf l)) l.
Proof.
  induction l as [|t l IH]; intros buf Hf Hl; [split; [apply cut_ok_refl|constructor]|]. apply Forall_cons in Hf as [Ht Hf]. cbn [foldl].
  destruct (cut_spec buf t Ht Hl) as [C1 Z1]. destruct (IH (cut (length s0) buf t) Hf) as [C2 Z2]; [by rewrite (co_len _ _ C1)|].
  split; [by eapply cut_ok_trans|]. constructor; [by apply C2|done].
Qed.

Lemma zero_persists c buf buf' : cut_ok buf buf' -> cmd_all (zero_at buf) c -> cmd_all (zero_at buf') c.
Proof.
  intros C. induction c as [argv|c IH f m fd|l IHl r IHr|l IHl r IHr|c IH]; cbn; try naive_solver.
  - intros Hf. eapply Forall_impl; [exact Hf|]. intros t. apply C.
  - intros (Hc & Hf & Hm). split; [auto|]. split; [by apply C|done].
Qed.

Lemma nulterminate_spec c : forall buf, cmd_all tok_ok c -> length buf = S (length s0) ->
  cut_ok buf (nulterminate (length s0) c buf) /\ cmd_all (zero_at (nulterminate (length s0) c buf)) c.
Proof.
  induction c as [argv|c IH f m fd|l IHl r IHr|l IHl r IHr|c IH]; intros buf Hc Hl; cbn [nulterminate cmd_all] in *.
  - by apply cut_all.
  - destruct Hc as (Hc & Hf & Hm). destruct (IH buf Hc Hl) as [C1 Z1]. destruct (cut_spec (nulterminate (length s0) c buf) f Hf) as [C2 Z2]; [by rewrite (co_len _ _ C1)|].
    split; [by eapply cut_ok_trans|]. split; [by eapply zero_persists|]. by split.
  - destruct Hc as [Hc1 Hc2]. destruct (IHl buf Hc1 Hl) as [C1 Z1]. destruct (IHr (nulterminate (length s0) l buf) Hc2) as [C2 Z2]; [by rewrite (co_len _ _ C1)|].
    split; [by eapply cut_ok_trans|]. split; [by eapply zero_persists|done].
  - destruct Hc as [Hc1 Hc2]. destruct (IHl buf Hc1 Hl) as [C1 Z1]. destruct (IHr (nulterminate (length s0) l buf) Hc2) as [C2 Z2]; [by rewrite (co_len _ _ C1)|].
    split; [by eapply cut_ok_trans|]. split; [by eapply zero_persists|done].
  - by apply IH.
Qed.

End line.

(** The C string at an index of a buffer. *)
Fixpoint cstr (buf : list Z) : list Z :=
  match buf with c :: buf' => if c =? 0 then [] else c :: cstr buf' | [] => [] end.
Definition cstr_at (buf : list Z) (i : nat) : list Z := cstr (drop i buf).

Lemma cstr_prefix w buf : 0 ∉ w -> (forall i x, w !! i = Some x -> buf !! i = Some x) -> buf !! length w = Some 0 -> cstr buf = w.
Proof.
  revert buf. induction w as [|c w IH]; intros buf H0 Hw Hz; (destruct buf as [|b buf]; [done|]); cbn in Hz |- *.
  - by injection Hz as ->.
  - pose proof (Hw 0%nat c eq_refl) as E. cbn in E. injection E as ->. destruct (Z.eqb_spec c 0) as [->|]; [set_solver|]. f_equal.
    apply IH; [set_solver| |done]. intros i x Hi. exact (Hw (S i) x Hi).
Qed.

(** A word: what can be an argument or a file name. *)
Definition word (w : list Z) : Prop := w <> [] /\ Forall (fun c => word_char c = true) w.

Lemma parsecmd_spec (s : list Z) : 0 ∉ s ->
  match parsecmd s with
  | Ret (c, buf) _ => length buf = S (length s) /\
      cmd_all (fun t => word (t_str t) /\ cstr_at buf (length s - t_rest t) = t_str t) c
  | Panic _ => True
  | _ => False
  end.
Proof.
  intros H0. assert (Hp : pwp (let! c := parseline (parse_fuel s) in peek [] ;; let! rest := kget id in
     if negb (bool_decide (rest = [])) then kpanic "syntax" else kret (c, nulterminate (length s) c (s ++ [0]))) s
     (fun r _ => length (snd r) = S (length s) /\ cmd_all (fun t => word (t_str t) /\ cstr_at (snd r) (length s - t_rest t) = t_str t) (fst r))).
  { apply pwp_bind. eapply pwp_mono; [apply (parse_spec s (parse_fuel s) s); [by exists []|done]|]. intros c s1 (H1 & L1 & Hc).
    apply pwp_bind. eapply pwp_mono; [by apply (peek_spec s)|]. intros _ s2 _. apply pwp_bind. unfold pwp at 1, kget.
    destruct (negb _); [done|]. apply pwp_ret. cbn [fst snd].
    destruct (nulterminate_spec s c (s ++ [0]) Hc) as [[C1 C2 C3] Hzs]; [rewrite length_app; cbn; lia|]. split; [rewrite C1, length_app; cbn; lia|].
    set (buf := nulterminate (length s) c (s ++ [0])) in *. clearbody buf. clear H1 L1 s1 s2.
    assert (G : forall t, tok_ok s t -> zero_at s buf t -> word (t_str t) /\ cstr_at buf (length s - t_rest t) = t_str t).
    { intros t (pre & post & E & Er & Hne & Hf & Hp) Hz. split; [by split|]. unfold zero_at in Hz. rewrite (tok_pos s t pre post E Er) in *.
      unfold cstr_at. apply cstr_prefix; [rewrite E in H0; set_solver| |by rewrite lookup_drop].
      intros i x Hi. rewrite lookup_drop. assert (Hs : s !! (length pre + i)%nat = Some x).
      { rewrite E, lookup_app_r by lia. rewrite Nat.add_comm, Nat.add_sub. by apply lookup_app_l_Some. }
      rewrite (C2 _ x Hs); [|by apply (proj1 (Forall_lookup _ _) Hf i)]. by apply lookup_app_l_Some. }
    clear C1 C2 C3 H0. induction c as [argv|c IH f m fd|l IHl r IHr|l IHl r IHr|c IH]; cbn [cmd_all] in *;
      [|destruct Hc as (? & ? & ?), Hzs as (? & ? & ?); split; [|split]; auto|destruct Hc, Hzs; split; auto|destruct Hc, Hzs; split; auto|auto].
    apply Forall_forall. intros t Ht. apply G; [by apply (proj1 (Forall_forall _ _) Hc)|by apply (proj1 (Forall_forall _ _) Hzs)]. }
  unfold pwp in Hp. unfold parsecmd. by destruct (kbind _ _ s) as [[c buf] r| | |].
Qed.

(** C7: for every command line parsecmd returns or panics with a syntax error (it never
    runs away), and when it returns, every argument and file name of the command is a
    non-empty word and is, after nulterminate, a terminated string in the buffer: the
    zeros written behind the words damage no other word; and only standard input and output are redirected. *)
Theorem parsecmd_strings (s : list Z) : 0 ∉ s ->
  match parsecmd s with
  | Ret (c, buf) _ => length buf = S (length s) /\
      cmd_all (fun t => word (t_str t) /\ cstr_at buf (length s - t_rest t) = t_str t) c
  | Panic _ => True
  | _ => False
  end.
Proof. exact (parsecmd_spec s). Qed.

Lemma parsecmd_strings_witness :
  match parsecmd [108; 115; 62; 120; 10] with
  | Ret (c, buf) _ => length buf = 6%nat /\ buf = [108; 115; 0; 120; 0; 0]
  | _ => False
  end.
Proof.
  pose proof (parsecmd_strings [108; 115; 62; 120; 10] ltac:(set_solver)) as H.
  destruct (parsecmd [108; 115; 62; 120; 10]) as [[c buf] r| | |] eqn:E; [|discriminate E..]. split; [exact (proj1 H)|].
  vm_compute in E. by injection E.
Defined.
