(* ===== verification/ShPrint.v ===== *)
(** * Printing and parsing shell commands

    Every command is the parse of its text: a printer for the grammar of sh.c, with
    parentheses where the grammar needs them, and the proof that parsecmd inverts it. *)

From S2P Require Import Prelude Sh.

Definition sp : Z := 32.

Definition print_redir (r : list Z * Z * Z) : list Z := (if snd r =? 0 then lt_ else gt_) :: fst (fst r) ++ [sp].
Definition print_words (argv : list (list Z)) : list Z := mjoin ((fun w => w ++ [sp]) <$> argv).
Definition print_redirs (rs : list (list Z * Z * Z)) : list Z := mjoin (print_redir <$> rs).
Lemma print_redirs_cons r rs : print_redirs (r :: rs) = print_redir r ++ print_redirs rs.
Proof. done. Qed.
Lemma print_words_cons w argv : print_words (w :: argv) = w ++ sp :: print_words argv.
Proof. change (print_words (w :: argv)) with ((w ++ [sp]) ++ print_words argv). by rewrite <- app_assoc. Qed.
Definition paren (b : bool) (t : list Z) : list Z := if b then lpar :: t ++ [rpar] else t.

(** The text of a command as a line (0), before a ; (1), in a pipeline (2) and as one of
    its parts (3). *)
Fixpoint print (lvl : nat) (c : cmd (list Z)) : list Z :=
  match c with
  | EXEC argv => print_words argv
  | REDIR c f m fd => print 3 c ++ print_redir (f, m, fd)
  | PIPE l r => paren (2 <? lvl)%nat (print 3 l ++ bar :: print 2 r)
  | BACK c => paren (1 <? lvl)%nat (print 1 c ++ [amp])
  | LIST l r => paren (0 <? lvl)%nat (print 1 l ++ semi :: print 0 r)
  end.

Definition redir_wf (r : list Z * Z * Z) : Prop :=
  word (fst (fst r)) /\ ((snd (fst r) = O_RDONLY /\ snd r = 0) \/ (snd (fst r) = O_WRONLY_CREATE /\ snd r = 1)).

(** Commands the parser can build: words, few enough arguments, modes that fit. *)
Fixpoint cmd_wf (c : cmd (list Z)) : Prop :=
  match c with
  | EXEC argv => Forall word argv /\ (length argv < MAXARGS)%nat
  | REDIR c f m fd => cmd_wf c /\ redir_wf (f, m, fd)
  | PIPE l r => cmd_wf l /\ cmd_wf r
  | LIST l r => cmd_wf l /\ cmd_wf r
  | BACK c => cmd_wf c
  end.

(** The strings of the tokens. *)
Fixpoint strings (c : cmd token) : cmd (list Z) :=
  match c with
  | EXEC argv => EXEC (t_str <$> argv)
  | REDIR c f m fd => REDIR (strings c) (t_str f) m fd
  | PIPE l r => PIPE (strings l) (strings r)
  | LIST l r => LIST (strings l) (strings r)
  | BACK c => BACK (strings c)
  end.
Definition redir_strings (r : token * Z * Z) : list Z * Z * Z := (t_str (fst (fst r)), snd (fst r), snd r).

Lemma strings_redirs l : forall c, strings (foldl redircmd c l) = foldl redircmd (strings c) (redir_strings <$> l).
Proof. induction l as [|r l IH]; intros c; [done|]. cbn [foldl fmap list_fmap]. rewrite IH. done. Qed.

(** ** Tokens *)

Lemma sym_facts c : c ∈ symbols -> is_sym c = true /\ is_ws c = false /\ word_char c = false.
Proof.
  intros Hc. unfold word_char, is_sym, is_ws. rewrite (bool_decide_true (c ∈ symbols)) by done.
  rewrite bool_decide_false; [done|]. unfold symbols, whitespace in *. set_solver.
Qed.

Lemma word_char_facts c : word_char c = true -> is_ws c = false /\ is_sym c = false /\ c <> gt_ /\ forall l : list Z, (forall x, x ∈ l -> x ∈ symbols) -> c ∉ l.
Proof.
  unfold word_char. intros [E1 E2]%andb_true_iff. apply negb_true_iff in E1, E2. split; [done|]. split; [done|].
  unfold is_sym in E2. apply bool_decide_eq_false in E2. split; [intros ->; apply E2; unfold symbols; set_solver|]. intros l Hl Hc. by apply E2, Hl.
Qed.

Lemma span_word_word w r : Forall (fun c => word_char c = true) w -> match r with [] => True | c :: _ => word_char c = false end ->
  span_word (w ++ r) = (w, r).
Proof.
  intros Hw Hr. induction Hw as [|c w Hc _ IH]; cbn [app span_word]; [|by rewrite Hc, IH].
  destruct r as [|c r]; [done|]. cbn. by rewrite Hr.
Qed.

(** Text that does not begin with white space. *)
Definition nows (s : list Z) : Prop := match s with [] => True | c :: _ => is_ws c = false end.
Lemma skip_nows s : nows s -> skip_ws s = s.
Proof. destruct s as [|c s]; [done|]. cbn. by intros ->. Qed.

Lemma gettoken_word w r : word w -> nows r -> exists q, gettoken (w ++ sp :: r) = Ret (tok_a, Token q w) r.
Proof.
  intros [Hne Hw] Hr. assert (Hs : skip_ws (w ++ sp :: r) = w ++ sp :: r).
  { apply skip_nows. destruct w as [|c w]; [done|]. apply Forall_cons in Hw as [Hc _]. by apply word_char_facts in Hc as (? & _). }
  unfold gettoken. rewrite Hs. pose proof (span_word_word w (sp :: r) Hw eq_refl) as Hsp. destruct w as [|c w]; [done|].
  apply Forall_cons in Hw as [Hc Hw]. destruct (word_char_facts c Hc) as (_ & H2 & H3 & _). cbn [app] in *.
  rewrite (proj2 (Z.eqb_neq _ _) H3), H2, Hsp. cbn [skip_ws]. change (is_ws sp) with true. cbv iota. rewrite (skip_nows r Hr). by eexists.
Qed.

Lemma gettoken_sym c r : c ∈ symbols -> (c = gt_ -> match r with [] => True | d :: _ => d <> gt_ end) -> exists t, gettoken (c :: r) = Ret (c, t) (skip_ws r).
Proof.
  intros Hc Hg. destruct (sym_facts c Hc) as (H1 & H2 & _). unfold gettoken. cbn [skip_ws]. rewrite H2. destruct (Z.eqb_spec c gt_) as [->|Hne].
  - destruct r as [|d r]; [by eexists|]. rewrite (proj2 (Z.eqb_neq _ _) (Hg eq_refl)). by eexists.
  - rewrite H1. by eexists.
Qed.

Lemma peek_nows toks s : nows s -> peek toks s = Ret (match s with c :: _ => bool_decide (c ∈ toks) | [] => false end) s.
Proof. intros Hs. unfold peek. by rewrite skip_nows. Qed.

(** What may follow: the end of the line or one of some symbols. *)
Definition follows (l : list Z) (rest : list Z) : Prop := match rest with [] => True | c :: _ => c ∈ l end.
Definition stop3 : list Z -> Prop := follows [bar; rpar; amp; semi].
Definition stop2 : list Z -> Prop := follows [rpar; amp; semi].
Definition stop0 : list Z -> Prop := follows [rpar].

Lemma follows_nows l rest : (forall x, x ∈ l -> x ∈ symbols) -> follows l rest -> nows rest.
Proof. intros Hl. destruct rest as [|c r]; [done|]. intros Hc. by destruct (sym_facts c (Hl c Hc)) as (_ & ? & _). Qed.
Lemma stop3_nows rest : stop3 rest -> nows rest.
Proof. apply follows_nows. unfold symbols. set_solver. Qed.
Lemma stop2_3 rest : stop2 rest -> stop3 rest.
Proof. unfold stop2, stop3, follows. destruct rest; [done|]. set_solver. Qed.

(** ** Redirections and arguments *)

(** Text behind which no redirection comes. *)
Definition no_redir (s : list Z) : Prop := nows s /\ match s with [] => True | c :: _ => c <> lt_ /\ c <> gt_ end.

Lemma stop3_no_redir rest : stop3 rest -> no_redir rest.
Proof.
  intros Hs. split; [by apply stop3_nows|]. destruct rest as [|c r]; [done|]. unfold stop3, follows in Hs. unfold lt_, gt_, bar, rpar, amp, semi in *. set_solver.
Qed.

Lemma word_no_redir w r : word w -> no_redir (w ++ r).
Proof.
  intros [Hne Hw]. destruct w as [|c w]; [done|]. apply Forall_cons in Hw as [Hc _]. destruct (word_char_facts c Hc) as (H1 & _ & H3 & H4).
  split; [exact H1|]. split; [|done]. intros ->. apply (H4 [lt_]); [unfold symbols; set_solver|set_solver].
Qed.

Lemma nows_redirs rs rest : nows rest -> nows (print_redirs rs ++ rest).
Proof. destruct rs as [|[[f m] fd] rs]; [done|]. intros _. cbn. by destruct (fd =? 0). Qed.

Lemma length_print_redir r : (3 <= length (print_redir r) + 1)%nat.
Proof. destruct r as [[f m] fd]. unfold print_redir. cbn [length]. rewrite length_app. cbn. lia. Qed.

Lemma redir_loop_print rs : Forall redir_wf rs -> forall n rest, no_redir rest -> (length (print_redirs rs) <= n)%nat ->
  exists l, redir_loop n (print_redirs rs ++ rest) = Ret l rest /\ redir_strings <$> l = rs.
Proof.
  induction 1 as [|[[f m] fd] rs [Hf Hm] _ IH]; intros n rest [Hnw Hr] Hn.
  - exists []. split; [|done]. change (print_redirs [] ++ rest) with rest. assert (E : peek [lt_; gt_] rest = Ret false rest).
    { rewrite peek_nows by done. f_equal. destruct rest as [|c r]; [done|]. apply bool_decide_false. unfold lt_, gt_ in *. set_solver. }
    destruct n; cbn [redir_loop]; by rewrite (kbind_ret _ _ _ _ _ E).
  - cbn [fst snd] in Hf, Hm. set (op := if fd =? 0 then lt_ else gt_).
    assert (Et : print_redirs ((f, m, fd) :: rs) ++ rest = op :: f ++ sp :: (print_redirs rs ++ rest)).
    { rewrite print_redirs_cons. unfold print_redir. cbn [fst snd]. fold op. cbn [app]. by rewrite <- !app_assoc. }
    assert (Hlen : (length (print_redirs ((f, m, fd) :: rs)) = 2 + length f + length (print_redirs rs))%nat).
    { rewrite print_redirs_cons. unfold print_redir. cbn [fst snd]. cbn [length app]. rewrite !length_app. cbn [length]. lia. }
    rewrite Et. assert (Hop : op ∈ symbols /\ op ∈ [lt_; gt_]) by (unfold op, symbols, lt_, gt_; destruct (fd =? 0); set_solver). destruct Hop as [Hop Hop2].
    destruct n as [|n]; [lia|]. cbn [redir_loop].
    rewrite (kbind_ret _ _ _ _ _ (peek_nows [lt_; gt_] (op :: f ++ sp :: print_redirs rs ++ rest) (proj1 (proj2 (sym_facts op Hop))))).
    rewrite bool_decide_true by done. destruct (word_no_redir f (sp :: print_redirs rs ++ rest) Hf) as [Hnf Hgf].
    destruct (gettoken_sym op (f ++ sp :: print_redirs rs ++ rest) Hop) as [t Eg].
    { intros _. destruct (f ++ sp :: print_redirs rs ++ rest); [done|]. apply Hgf. }
    rewrite (kbind_ret _ _ _ _ _ Eg), (skip_nows _ Hnf). destruct (gettoken_word f (print_redirs rs ++ rest) Hf) as [q Ew]; [by apply nows_redirs|].
    rewrite (kbind_ret _ _ _ _ _ Ew). cbn [fst snd negb]. rewrite Z.eqb_refl. cbn [negb].
    destruct (IH n rest (conj Hnw Hr)) as (l & El & Hl); [lia|]. rewrite (kbind_ret _ _ _ _ _ El).
    eexists. split; [reflexivity|]. rewrite fmap_cons, Hl. f_equal. unfold op. destruct Hm as [[-> ->]|[-> ->]]; done.
Qed.

Lemma exec_loop_print argv : forall n argc rs rest, Forall word argv -> Forall redir_wf rs -> stop3 rest ->
  (argc + length argv < MAXARGS)%nat -> (length (print_words argv) < n)%nat -> (argv = [] -> rs = []) ->
  exists ts l, exec_loop n argc (print_words argv ++ print_redirs rs ++ rest) = Ret (ts, l) rest /\ t_str <$> ts = argv /\ redir_strings <$> l = rs.
Proof.
  induction argv as [|w argv IH]; intros n argc rs rest Hw Hrs Hst Ha Hn Hempty.
  - rewrite (Hempty eq_refl). exists [], []. split; [|done]. change (print_words [] ++ print_redirs [] ++ rest) with rest. destruct n as [|n]; [lia|].
    cbn [exec_loop]. rewrite (kbind_ret _ _ _ _ _ (peek_nows _ rest (stop3_nows rest Hst))). destruct rest as [|c r]; [done|].
    rewrite bool_decide_true by (exact Hst). done.
  - apply Forall_cons in Hw as [Hw Hws]. set (tail := print_words argv ++ print_redirs rs ++ rest).
    assert (Et : print_words (w :: argv) ++ print_redirs rs ++ rest = w ++ sp :: tail) by (unfold tail; rewrite print_words_cons, <- app_assoc; done).
    assert (Hlen : (length (print_words (w :: argv)) = length w + 1 + length (print_words argv))%nat) by (rewrite print_words_cons, length_app; cbn [length]; lia).
    rewrite Et. destruct n as [|n]; [lia|]. cbn [exec_loop]. destruct (word_no_redir w (sp :: tail) Hw) as [Hnw _].
    assert (Hnt : nows tail).
    { unfold tail. destruct argv as [|w' argv']; [change (nows (print_redirs rs ++ rest)); by apply nows_redirs, stop3_nows|].
      apply Forall_cons in Hws as [Hw' _]. rewrite print_words_cons, <- app_assoc. by apply word_no_redir. }
    rewrite (kbind_ret _ _ _ _ _ (peek_nows _ _ Hnw)).
    assert (Hh : match w ++ sp :: tail with c :: _ => bool_decide (c ∈ [bar; rpar; amp; semi]) | [] => false end = false).
    { destruct Hw as [Hne Hf]. destruct w as [|c w]; [done|]. apply Forall_cons in Hf as [Hc _]. cbn. apply bool_decide_false.
      destruct (word_char_facts c Hc) as (_ & _ & _ & H4). apply H4. unfold symbols. set_solver. }
    rewrite Hh. destruct (gettoken_word w tail Hw Hnt) as [q Eg]. rewrite (kbind_ret _ _ _ _ _ Eg). cbn [fst snd].
    change (tok_a =? 0) with false. rewrite Z.eqb_refl. cbn [negb]. cbn [length] in Ha. rewrite (proj2 (Nat.leb_gt _ _)) by lia. cbv iota. rewrite kbind_get. unfold id.
    assert (Hrd : exists l1 rs2, redir_loop (length tail) tail = Ret l1 (print_words argv ++ print_redirs rs2 ++ rest) /\
      (argv = [] -> rs2 = []) /\ Forall redir_wf rs2 /\ rs = (redir_strings <$> l1) ++ rs2).
    { destruct argv as [|w' argv'].
      - destruct (redir_loop_print rs Hrs (length tail) rest (stop3_no_redir rest Hst)) as (l & El & Hl); [unfold tail; cbn; rewrite length_app; lia|].
        exists l, []. unfold tail. cbn [print_words fmap list_fmap mjoin list_join app]. split; [exact El|]. by rewrite app_nil_r, Hl.
      - destruct (redir_loop_print [] (List.Forall_nil _) (length tail) tail) as (l & El & Hl); [|cbn; lia|].
        + apply Forall_cons in Hws as [Hw' _]. unfold tail. rewrite print_words_cons, <- app_assoc. by apply word_no_redir.
        + destruct l; [|done]. exists [], rs. split; [exact El|]. done. }
    destruct Hrd as (l1 & rs2 & E1 & He & Hrs2 & Ers). rewrite (kbind_ret _ _ _ _ _ E1).
    destruct (IH n (S argc) rs2 rest Hws Hrs2 Hst) as (ts & l2 & E2 & Hts & Hl2); [lia|lia|done|]. rewrite (kbind_ret _ _ _ _ _ E2).
    exists (Token q w :: ts), (l1 ++ l2). split; [done|]. split; [cbn; by rewrite Hts|]. by rewrite fmap_app, Hl2, Ers.
Qed.

(** ** Commands *)

Lemma nows_print c : cmd_wf c -> forall lvl rest, nows rest -> nows (print lvl c ++ rest).
Proof.
  induction c as [argv|c IH f m fd|l IHl r IHr|l IHl r IHr|c IH]; intros Hwf lvl rest Hr; cbn [print].
  - destruct argv as [|w argv]; [done|]. destruct Hwf as [Hw _]. apply Forall_cons in Hw as [Hw _]. rewrite print_words_cons, <- app_assoc. by apply word_no_redir.
  - rewrite <- app_assoc. apply IH; [by destruct Hwf|]. cbn. by destruct (fd =? 0).
  - destruct Hwf as [Hl _]. destruct (2 <? lvl)%nat; [done|]. cbn [paren]. rewrite <- app_assoc. by apply IHl.
  - destruct Hwf as [Hl _]. destruct (0 <? lvl)%nat; [done|]. cbn [paren]. rewrite <- app_assoc. by apply IHl.
  - destruct (1 <? lvl)%nat; [done|]. cbn [paren]. rewrite <- app_assoc. by apply IH.
Qed.

Notation len s := (length (s : list Z)).

Definition execs (c : cmd (list Z)) : Prop := forall fuel rs rest, Forall redir_wf rs -> stop3 rest ->
  (4 * len (print 3 c ++ print_redirs rs ++ rest) + 1 <= fuel)%nat ->
  exists c', parseexec fuel (print 3 c ++ print_redirs rs ++ rest) = Ret c' rest /\ strings c' = foldl redircmd c rs.
Definition pipes (c : cmd (list Z)) : Prop := forall fuel rest, stop2 rest ->
  (4 * len (print 2 c ++ rest) + 2 <= fuel)%nat -> exists c', parsepipe fuel (print 2 c ++ rest) = Ret c' rest /\ strings c' = c.
Definition backs (c : cmd (list Z)) : Prop := forall fuel rest, stop2 rest ->
  (4 * len (print 1 c ++ rest) + 2 <= fuel)%nat -> exists c' n, (len rest <= n)%nat /\ strings c' = c /\
    (let! c := parsepipe fuel in let! s := kget id in back_loop (length s) c) (print 1 c ++ rest) = back_loop n c' rest.
Definition lines (c : cmd (list Z)) : Prop := forall fuel rest, stop0 rest ->
  (4 * len (print 0 c ++ rest) + 3 <= fuel)%nat -> exists c', parseline fuel (print 0 c ++ rest) = Ret c' rest /\ strings c' = c.

(** A symbol that is looked for and there. *)
Lemma take_sym {A} (x : Z) (k : P A) (k' : P A) s : x ∈ symbols -> x <> gt_ -> nows s ->
  (let! more := peek [x] in if more : bool then gettoken ;; k else k') (x :: s) = k s.
Proof.
  intros Hx Hg Hs. rewrite (kbind_ret _ _ _ _ _ (peek_nows [x] (x :: s) (proj1 (proj2 (sym_facts x Hx))))). rewrite bool_decide_true by set_solver.
  destruct (gettoken_sym x s Hx) as [t E]; [done|]. rewrite (kbind_ret _ _ _ _ _ E). by rewrite (skip_nows s Hs).
Qed.

Lemma no_sym {A} (x : Z) (l : list Z) (k : P A) (k' : P A) rest : x ∉ l -> (forall y, y ∈ l -> y ∈ symbols) -> follows l rest ->
  (let! more := peek [x] in if more : bool then k else k') rest = k' rest.
Proof.
  intros Hx Hl Hf. rewrite (kbind_ret _ _ _ _ _ (peek_nows [x] rest (follows_nows l rest Hl Hf))). destruct rest as [|c r]; [done|].
  rewrite bool_decide_false; [done|]. intros Hc. apply list_elem_of_singleton in Hc as ->. by apply Hx.
Qed.

Lemma stop2_syms (y : Z) : y ∈ [rpar; amp; semi] -> y ∈ symbols.
Proof. unfold symbols. set_solver. Qed.
Lemma stop0_2 rest : stop0 rest -> stop2 rest.
Proof. unfold stop0, stop2, follows. destruct rest; [done|]. set_solver. Qed.

Lemma back_loop_stop n c rest : stop0 rest \/ follows [semi] rest -> back_loop n c rest = Ret c rest.
Proof.
  intros Hs. assert (E : (let! more := peek [amp] in if more : bool then match n with O => knofuel | S n' => gettoken ;; back_loop n' (BACK c) end else kret c) rest = Ret c rest).
  { destruct Hs as [Hs|Hs]; eapply no_sym; try exact Hs; unfold symbols, amp, rpar, semi; set_solver. }
  by destruct n.
Qed.

Lemma block c : cmd_wf c -> lines c -> forall fuel rs rest, Forall redir_wf rs -> stop3 rest ->
  (4 * len ((lpar :: print 0 c ++ [rpar]) ++ print_redirs rs ++ rest) + 1 <= fuel)%nat ->
  exists c', parseexec fuel ((lpar :: print 0 c ++ [rpar]) ++ print_redirs rs ++ rest) = Ret c' rest /\ strings c' = foldl redircmd c rs.
Proof.
  intros Hwf Hc fuel rs rest Hrs Hst Hf. set (tail := print_redirs rs ++ rest) in *.
  assert (Et : (lpar :: print 0 c ++ [rpar]) ++ tail = lpar :: (print 0 c ++ rpar :: tail)) by (cbn; by rewrite <- app_assoc). rewrite Et in *. cbn [length] in Hf.
  destruct fuel as [|fuel]; [lia|]. cbn [parseexec].
  assert (Hn : nows (print 0 c ++ rpar :: tail)) by (by apply nows_print). assert (Hnt : nows tail) by (by apply nows_redirs, stop3_nows).
  rewrite take_sym by (done || (unfold symbols; set_solver)). destruct (Hc fuel (rpar :: tail)) as (c' & E & Hs); [cbn; set_solver|lia|].
  rewrite (kbind_ret _ _ _ _ _ E). rewrite take_sym by (done || (unfold symbols; set_solver)). unfold parseredirs. rewrite kbind_get. unfold id.
  destruct (redir_loop_print rs Hrs (len tail) rest (stop3_no_redir rest Hst)) as (l & El & Hl); [unfold tail; rewrite length_app; lia|].
  rewrite (kbind_ret _ _ _ _ _ El). eexists. split; [reflexivity|]. by rewrite strings_redirs, Hs, Hl.
Qed.

Lemma execs_exec argv : cmd_wf (EXEC argv) -> execs (EXEC argv).
Proof.
  intros [Hw Ha] fuel rs rest Hrs Hst Hf. cbn [print] in *. destruct fuel as [|fuel]; [lia|]. cbn [parseexec].
  set (text := print_words argv ++ print_redirs rs ++ rest) in *.
  assert (Hh : nows text /\ match text with c :: _ => c <> lpar | [] => True end).
  { unfold text. destruct argv as [|w argv]; [|apply Forall_cons in Hw as [Hw _]; rewrite print_words_cons, <- app_assoc; split; [by apply word_no_redir|]].
    - cbn [print_words fmap list_fmap mjoin list_join app]. split; [by apply nows_redirs, stop3_nows|]. destruct rs as [|[[f m] fd] rs]; [|cbn; by destruct (fd =? 0)].
      cbn. destruct rest as [|c r]; [done|]. unfold stop3, follows in Hst. unfold lpar, bar, rpar, amp, semi in *. set_solver.
    - destruct Hw as [Hne Hf']. destruct w as [|c w]; [done|]. apply Forall_cons in Hf' as [Hc _]. cbn. intros ->.
      destruct (word_char_facts lpar Hc) as (_ & _ & _ & H4). apply (H4 [lpar]); [unfold symbols; set_solver|set_solver]. }
  destruct Hh as [Hnw Hlp]. rewrite (kbind_ret _ _ _ _ _ (peek_nows [lpar] text Hnw)).
  assert (Hb : match text with c :: _ => bool_decide (c ∈ [lpar]) | [] => false end = false) by (destruct text; [done|]; apply bool_decide_false; set_solver).
  rewrite Hb, kbind_get. unfold id. destruct argv as [|w argv].
  - change text with (print_redirs rs ++ rest) in *. destruct (redir_loop_print rs Hrs (len (print_redirs rs ++ rest)) rest (stop3_no_redir rest Hst)) as (l & El & Hl);
      [rewrite length_app; lia|]. rewrite (kbind_ret _ _ _ _ _ El), kbind_get. unfold id.
    destruct (exec_loop_print [] (S (len rest)) 0 [] rest) as (ts & l2 & E2 & Hts & Hl2); [done|done|done|cbn; unfold MAXARGS; lia|cbn; lia|done|].
    cbn [print_words print_redirs fmap list_fmap mjoin list_join app] in E2. rewrite (kbind_ret _ _ _ _ _ E2). eexists. split; [reflexivity|].
    cbn [fst snd]. rewrite strings_redirs, fmap_app, Hl, Hl2, app_nil_r. cbn [strings]. by rewrite Hts.
  - assert (Hnr : no_redir text) by (unfold text; apply Forall_cons in Hw as [Hw _]; rewrite print_words_cons, <- app_assoc; by apply word_no_redir).
    destruct (redir_loop_print [] (List.Forall_nil _) (len text) text Hnr) as (l & El & Hl); [cbn; lia|]. destruct l; [|done].
    change (print_redirs [] ++ text) with text in El. rewrite (kbind_ret _ _ _ _ _ El), kbind_get. unfold id.
    destruct (exec_loop_print (w :: argv) (S (len text)) 0 rs rest) as (ts & l2 & E2 & Hts & Hl2); [done|done|done|done|unfold text; rewrite !length_app; lia|done|].
    fold text in E2. rewrite (kbind_ret _ _ _ _ _ E2). eexists. split; [reflexivity|]. cbn [fst snd app]. rewrite strings_redirs, Hl2. cbn [strings]. by rewrite Hts.
Qed.

Lemma execs_redir c f m fd : cmd_wf (REDIR c f m fd) -> execs c -> execs (REDIR c f m fd).
Proof.
  intros [_ Hr] Hc fuel rs rest Hrs Hst Hf. cbn [print] in *. rewrite <- app_assoc in *.
  rewrite (app_assoc (print_redir _)) in *.
  rewrite <- print_redirs_cons in *. destruct (Hc fuel ((f, m, fd) :: rs) rest) as (c' & E & Hs); [by constructor|done|done|]. by exists c'.
Qed.

Lemma pipes_of_execs c : print 2 c = print 3 c -> execs c -> pipes c.
Proof.
  intros Ep Hc fuel rest Hst Hf. rewrite Ep in *. destruct fuel as [|fuel]; [lia|]. cbn [parsepipe].
  destruct (Hc fuel [] rest) as (c' & E & Hs); [done|by apply stop2_3|cbn; lia|]. change (print_redirs [] ++ rest) with rest in E.
  rewrite (kbind_ret _ _ _ _ _ E). exists c'. split; [|done]. apply (no_sym bar [rpar; amp; semi]); [unfold bar, rpar, amp, semi; set_solver|apply stop2_syms|done].
Qed.

Lemma pipes_pipe l r : cmd_wf r -> execs l -> pipes r -> pipes (PIPE l r).
Proof.
  intros Hwf Hl Hr fuel rest Hst Hf. cbn [print paren Nat.ltb Nat.leb] in *. rewrite <- app_assoc in *. cbn [app] in *. destruct fuel as [|fuel]; [lia|]. cbn [parsepipe].
  rewrite length_app in Hf. cbn [length] in Hf.
  destruct (Hl fuel [] (bar :: print 2 r ++ rest)) as (l' & El & Hsl); [done|cbn; set_solver|cbn; rewrite length_app; cbn; lia|].
  change (print_redirs [] ++ bar :: print 2 r ++ rest) with (bar :: print 2 r ++ rest) in El. rewrite (kbind_ret _ _ _ _ _ El).
  rewrite take_sym; [|unfold symbols; set_solver|done|apply nows_print; [done|]; by apply stop3_nows, stop2_3].
  destruct (Hr fuel rest Hst) as (r' & Er & Hsr); [lia|]. rewrite (kbind_ret _ _ _ _ _ Er). eexists. split; [reflexivity|]. cbn. cbn in Hsl. by rewrite Hsl, Hsr.
Qed.

Lemma backs_of_pipes c : print 1 c = print 2 c -> pipes c -> backs c.
Proof.
  intros Ep Hc fuel rest Hst Hf. rewrite Ep in *. destruct (Hc fuel rest Hst Hf) as (c' & E & Hs). exists c', (len rest). split; [done|]. split; [done|].
  rewrite (kbind_ret _ _ _ _ _ E), kbind_get. done.
Qed.

Lemma backs_back c : backs c -> backs (BACK c).
Proof.
  intros Hc fuel rest Hst Hf. cbn [print paren Nat.ltb Nat.leb] in *. rewrite <- app_assoc in *. cbn [app] in *.
  destruct (Hc fuel (amp :: rest)) as (c' & n & Hn & Hs & E); [cbn; set_solver|done|]. rewrite E. cbn [length] in Hn. destruct n as [|n]; [lia|].
  exists (BACK c'), n. split; [lia|]. split; [cbn; by rewrite Hs|]. cbn [back_loop]. apply take_sym; [unfold symbols; set_solver|done|by apply stop3_nows, stop2_3].
Qed.

(** parseline up to the loop over &. *)
Lemma parseline_unfold fuel s c n rest :
  (let! c := parsepipe fuel in let! s := kget id in back_loop (length s) c) s = back_loop n c rest -> stop0 rest \/ follows [semi] rest ->
  parseline (S fuel) s = (let! more := peek [semi] in if more : bool then gettoken ;; let! d := parseline fuel in kret (LIST c d) else kret c) rest.
Proof.
  intros E Hs. rewrite (back_loop_stop n c rest Hs) in E.
  transitivity (kbind (let! c := parsepipe fuel in let! s := kget id in back_loop (length s) c)
    (fun c => let! more := peek [semi] in if more : bool then gettoken ;; let! d := parseline fuel in kret (LIST c d) else kret c) s).
  - cbn [parseline]. unfold kbind, kget. by destruct (parsepipe fuel s).
  - by rewrite (kbind_ret _ _ _ _ _ E).
Qed.

Lemma lines_of_backs c : print 0 c = print 1 c -> backs c -> lines c.
Proof.
  intros Ep Hc fuel rest Hst Hf. rewrite Ep in *. destruct fuel as [|fuel]; [lia|]. destruct (Hc fuel rest) as (c' & n & Hn & Hs & E); [by apply stop0_2|lia|].
  exists c'. split; [|done]. rewrite (parseline_unfold fuel _ c' n rest E) by (by left).
  apply (no_sym semi [rpar]); [unfold semi, rpar; set_solver|unfold symbols; set_solver|done].
Qed.

Lemma lines_list l r : cmd_wf r -> backs l -> lines r -> lines (LIST l r).
Proof.
  intros Hwf Hl Hr fuel rest Hst Hf. cbn [print paren Nat.ltb Nat.leb] in *. rewrite <- app_assoc in *. cbn [app] in *. destruct fuel as [|fuel]; [lia|].
  rewrite length_app in Hf. cbn [length] in Hf.
  destruct (Hl fuel (semi :: print 0 r ++ rest)) as (l' & n & Hn & Hs & E); [cbn; set_solver|rewrite length_app; cbn [length]; lia|].
  rewrite (parseline_unfold fuel _ l' n _ E) by (right; cbn; set_solver).
  rewrite take_sym; [|unfold symbols; set_solver|done|apply nows_print; [done|]; by apply stop3_nows, stop2_3, stop0_2].
  destruct (Hr fuel rest Hst) as (r' & Er & Hsr); [lia|]. rewrite (kbind_ret _ _ _ _ _ Er). eexists. split; [reflexivity|]. cbn. by rewrite Hs, Hsr.
Qed.

Lemma print_parses c : cmd_wf c -> execs c /\ pipes c /\ backs c /\ lines c.
Proof.
  induction c as [argv|c IH f m fd|l IHl r IHr|l IHl r IHr|c IH]; intros Hwf; pose proof Hwf as Hwf0.
  - assert (A := execs_exec argv Hwf). assert (Bp := pipes_of_execs (EXEC argv) eq_refl A). assert (Cb := backs_of_pipes (EXEC argv) eq_refl Bp).
    by pose proof (lines_of_backs (EXEC argv) eq_refl Cb).
  - destruct Hwf as [Hc _]. destruct (IH Hc) as [Ac _]. assert (A := execs_redir c f m fd Hwf0 Ac). assert (Bp := pipes_of_execs (REDIR c f m fd) eq_refl A).
    assert (Cb := backs_of_pipes (REDIR c f m fd) eq_refl Bp). by pose proof (lines_of_backs (REDIR c f m fd) eq_refl Cb).
  - destruct Hwf as [Hl Hr]. destruct (IHl Hl) as [Al _], (IHr Hr) as (_ & Br & _). assert (Bp := pipes_pipe l r Hr Al Br).
    assert (Cb := backs_of_pipes (PIPE l r) eq_refl Bp). assert (D := lines_of_backs (PIPE l r) eq_refl Cb). split; [|done].
    exact (block (PIPE l r) Hwf0 D).
  - destruct Hwf as [Hl Hr]. destruct (IHl Hl) as (_ & _ & Cl & _), (IHr Hr) as (_ & _ & _ & Dr). assert (D := lines_list l r Hr Cl Dr).
    assert (A : execs (LIST l r)) by exact (block (LIST l r) Hwf0 D). assert (Bp := pipes_of_execs (LIST l r) eq_refl A).
    by pose proof (backs_of_pipes (LIST l r) eq_refl Bp).
  - destruct (IH Hwf) as (_ & _ & Cc & _). assert (Cb := backs_back c Cc). assert (D := lines_of_backs (BACK c) eq_refl Cb).
    assert (A : execs (BACK c)) by exact (block (BACK c) Hwf0 D). by pose proof (pipes_of_execs (BACK c) eq_refl A).
Qed.

(** C4: parsecmd inverts printing: the text of any command, with words for names, fewer
    than ten arguments and the modes the shell knows, parses to that command. *)
Theorem parsecmd_print (c : cmd (list Z)) : cmd_wf c ->
  exists c' buf, parsecmd (print 0 c) = Ret (c', buf) [] /\ strings c' = c.
Proof.
  intros Hwf. destruct (print_parses c Hwf) as (_ & _ & _ & D). destruct (D (parse_fuel (print 0 c)) []) as (c' & E & Hs); [done|unfold parse_fuel; rewrite app_nil_r; lia|].
  rewrite app_nil_r in E. unfold parsecmd. rewrite (kbind_ret _ _ _ _ _ E). eexists c', _. split; [reflexivity|done].
Qed.

(** "(ls & ; cat x > y) | wc ;" *)
Lemma parsecmd_print_witness : exists c' buf,
  parsecmd (print 0 (LIST (PIPE (LIST (BACK (EXEC [[108; 115]])) (REDIR (EXEC [[99; 97; 116]; [120]]) [121] O_WRONLY_CREATE 1)) (EXEC [[119; 99]])) (EXEC [])))
    = Ret (c', buf) [] /\
  strings c' = LIST (PIPE (LIST (BACK (EXEC [[108; 115]])) (REDIR (EXEC [[99; 97; 116]; [120]]) [121] O_WRONLY_CREATE 1)) (EXEC [[119; 99]])) (EXEC []).
Proof.
  apply parsecmd_print. cbn. unfold word, redir_wf, word, MAXARGS. cbn. repeat split; try done; try lia; repeat constructor; try done; try (cbn; lia).
Defined.
