(* ===== verification/ShRun.v ===== *)
(** * The shell runs commands (sh.c)

    runcmd, getcmd and main over the system calls they make.  A process is its table of
    file descriptors and what it does, in order; fork gives the child a copy of the table,
    and what the child does is recorded in the parent's history.  A routine that exits is
    the last of its process, and returns here; panic prints and exits.  Whether fork, pipe,
    open, exec and chdir succeed is arbitrary, and the input is what the shell's own reads
    of descriptor 0 return (its children may read other bytes of the same file). *)

From S2P Require Import Prelude Sh.

(** What a descriptor refers to. *)
Inductive desc := FileD (name : list Z) (mode : Z) | PipeR (id : nat) | PipeW (id : nat).

Definition nfds : nat := 16.     (* NOFILE *)
Definition fdt : Type := list (option desc).

Inductive uev :=
| UExec (argv : list (list Z)) (fds : fdt)
| UFork (child : list uev)
| UWait
| UChdir (dir : list Z)
| UPrint (format : string) (arg : list Z)       (* printf(2, format, arg); the newline at the end of format is left out *)
| UPanic (msg : string).

Record ustate := UState { u_fds : fdt; u_pipes : nat; u_forks : nat; u_ev : list uev }.
Definition set_fds v s := UState v (u_pipes s) (u_forks s) (u_ev s).
Definition add_ev e s := UState (u_fds s) (u_pipes s) (u_forks s) (u_ev s ++ [e]).
Notation U := (K ustate).

Fixpoint lowest_free (l : fdt) : option nat :=
  match l with
  | [] => None
  | None :: _ => Some 0%nat
  | Some _ :: l' => S <$> lowest_free l'
  end.

Section sh.
Variable fork_ok pipe_ok : nat -> bool.
Variable open_ok : list Z -> Z -> bool.
Variable exec_ok : list (list Z) -> bool.
Variable chdir_ok : list Z -> bool.

(** ** System calls *)

Definition alloc_fd (d : desc) : U Z :=
  let! fds := kget u_fds in
  match lowest_free fds with
  | None => kret (-1)
  | Some n => kmodify (set_fds (<[n := Some d]> fds)) ;; kret (Z.of_nat n)
  end.
Definition u_close (fd : Z) : U unit := kmodify (fun s => set_fds (<[Z.to_nat fd := None]> (u_fds s)) s).
Definition u_open (file : list Z) (mode : Z) : U Z :=
  if open_ok file mode then alloc_fd (FileD file mode) else kret (-1).
Definition u_dup (fd : Z) : U Z :=
  let! fds := kget u_fds in
  match fds !! Z.to_nat fd with
  | Some (Some d) => alloc_fd d
  | _ => kret (-1)
  end.
Definition u_pipe : U (Z * Z * Z) :=
  let! n := kget u_pipes in
  kmodify (fun s => UState (u_fds s) (S (u_pipes s)) (u_forks s) (u_ev s)) ;;
  if pipe_ok n then
    let! p0 := alloc_fd (PipeR n) in
    let! p1 := alloc_fd (PipeW n) in
    if (p0 <? 0) || (p1 <? 0) then (if p0 <? 0 then kret tt else u_close p0) ;; kret (-1, 0, 0) else kret (0, p0, p1)
  else kret (-1, 0, 0).
Definition u_wait : U unit := kmodify (add_ev UWait).
Definition u_print (format : string) (arg : list Z) : U unit := kmodify (add_ev (UPrint format arg)).
Definition sh_panic (msg : string) : U unit := kmodify (add_ev (UPanic msg)).

(** [if(fork1() == 0) child; parent]: the child does not return. *)
Definition fork1 (child parent : U unit) : U unit := fun s =>
  if fork_ok (u_forks s) then
    match child (UState (u_fds s) (u_pipes s) (S (u_forks s)) []) with
    | Ret _ c => parent (UState (u_fds s) (u_pipes c) (u_forks c) (u_ev s ++ [UFork (u_ev c)]))
    | Panic m => Panic m
    | Sleep ch c => Sleep ch c
    | NoFuel => NoFuel
    end
  else sh_panic "fork" s.

(** ** runcmd *)

Fixpoint runcmd (c : cmd (list Z)) : U unit :=
  match c with
  | EXEC argv =>
      match argv with
      | [] => kret tt
      | name :: _ =>
          let! fds := kget u_fds in
          kmodify (add_ev (UExec argv fds)) ;;
          if exec_ok argv then kret tt else u_print "exec %s failed" name
      end
  | REDIR c file mode fd =>
      u_close fd ;;
      let! r := u_open file mode in
      if r <? 0 then u_print "open %s failed" file else runcmd c
  | LIST l r => fork1 (runcmd l) (u_wait ;; runcmd r)
  | PIPE l r =>
      let! p := u_pipe in
      let '(res, p0, p1) := p in
      if res <? 0 then sh_panic "pipe" else
      fork1 (u_close 1 ;; u_dup p1 ;; u_close p0 ;; u_close p1 ;; runcmd l)
        (fork1 (u_close 0 ;; u_dup p0 ;; u_close p0 ;; u_close p1 ;; runcmd r)
          (u_close p0 ;; u_close p1 ;; u_wait ;; u_wait))
  | BACK c => fork1 (runcmd c) (kret tt)
  end.

(** ** The main loop *)

(** gets of ulib.c: at most [max - 1] bytes; [None] is a read that returns no byte. *)
Fixpoint gets (max : nat) (input : list (option Z)) : list Z * list (option Z) :=
  match max, input with
  | S (S max' as m), Some c :: input' =>
      if (c =? 10) || (c =? 13) then ([c], input')
      else let '(l, rest) := gets m input' in (c :: l, rest)
  | S (S _), None :: input' => ([], input')
  | _, _ => ([], input)
  end.

Definition cd_prefix (l : list Z) : bool :=
  match l with 99 :: 100 :: 32 :: _ => true | _ => false end.

(** The command parsecmd built, with its strings as the buffer holds them. *)
Fixpoint cmd_strings (n : nat) (buf : list Z) (c : cmd token) : cmd (list Z) :=
  let str t := cstr_at buf (n - t_rest t) in
  match c with
  | EXEC argv => EXEC (str <$> argv)
  | REDIR c f m fd => REDIR (cmd_strings n buf c) (str f) m fd
  | PIPE l r => PIPE (cmd_strings n buf l) (cmd_strings n buf r)
  | LIST l r => LIST (cmd_strings n buf l) (cmd_strings n buf r)
  | BACK c => BACK (cmd_strings n buf c)
  end.

Definition run_line (line : list Z) : U unit :=
  match parsecmd line with
  | Ret (c, buf) _ => runcmd (cmd_strings (length line) buf c)
  | Panic msg => sh_panic msg
  | _ => knofuel
  end.

(** The body of the loop for the string in the buffer, and the rest of the loop. *)
Definition sh_line (line : list Z) (rest : U unit) : U unit :=
  if cd_prefix line then
    let dir := drop 3 (removelast line) in
    (if chdir_ok dir then kmodify (add_ev (UChdir dir)) else u_print "cannot cd %s" dir) ;;
    rest
  else fork1 (run_line line) (u_wait ;; rest).

Fixpoint sh_loop (fuel : nat) (input : list (option Z)) : U unit :=
  match fuel with
  | O => knofuel
  | S fuel' =>
      u_print "$ " [] ;;
      let '(buf, rest) := gets 100 input in
      match cstr buf with
      | [] => kret tt
      | line => sh_line line (sh_loop fuel' rest)
      end
  end.

(** "console" *)
Definition console_name : list Z := [99; 111; 110; 115; 111; 108; 101].

Definition rdwr : Z := 2.        (* O_RDWR *)

(** The loop that ensures that three file descriptors are open. *)
Fixpoint open_console (fuel : nat) : U unit :=
  match fuel with
  | O => knofuel
  | S fuel' =>
      let! fd := u_open console_name rdwr in
      if fd <? 0 then kret tt else
      if 3 <=? fd then u_close fd else open_console fuel'
  end.

Definition sh_main (input : list (option Z)) : U unit :=
  open_console (S nfds) ;; sh_loop (S (length input)) input.
End sh.
