(* ===== verification/ShRunProps.v ===== *)
(** * Pipes and redirections reach the right processes (sh.c)

    The descriptors of the programs a command starts, against the meaning of the command. *)

From S2P Require Import Prelude Sh ShPrint ShRun.

(** The programs that are started, in the order of the histories. *)
Fixpoint programs_of (e : uev) : list (list (list Z) * fdt) :=
  match e with
  | UExec argv fds => [(argv, fds)]
  | UFork child => flat_map programs_of child
  | _ => []
  end.
Definition programs (l : list uev) : list (list (list Z) * fdt) := flat_map programs_of l.

(** Children forked and waited for by one process. *)
Definition forks (l : list uev) : nat := length (filter (fun e => match e with UFork _ => true | _ => false end = true) l).
Definition waits (l : list uev) : nat := length (filter (fun e => match e with UWait => true | _ => false end = true) l).
(** Every process below waits for all its children. *)
Fixpoint balanced (e : uev) : bool :=
  match e with
  | UFork child => (forks child =? waits child)%nat && forallb balanced child
  | _ => true
  end.
Definition all_waited (l : list uev) : Prop := forks l = waits l /\ forallb balanced l = true.

(** ** The meaning of a command

    The programs of a command that runs with the descriptors [fds], each with its own
    descriptors; pipes are numbered from [n] on. *)
Fixpoint wire (c : cmd (list Z)) (fds : fdt) (n : nat) : list (list (list Z) * fdt) * nat :=
  match c with
  | EXEC argv => (match argv with [] => [] | _ => [(argv, fds)] end, n)
  | REDIR c file mode fd => wire c (<[Z.to_nat fd := Some (FileD file mode)]> fds) n
  | PIPE l r =>
      let '(a, n1) := wire l (<[1%nat := Some (PipeW n)]> fds) (S n) in
      let '(b, n2) := wire r (<[0%nat := Some (PipeR n)]> fds) n1 in
      (a ++ b, n2)
  | LIST l r =>
      let '(a, n1) := wire l fds n in
      let '(b, n2) := wire r fds n1 in
      (a ++ b, n2)
  | BACK c => wire c fds n
  end.

Fixpoint no_back {X} (c : cmd X) : bool :=
  match c with
  | EXEC _ => true
  | REDIR c _ _ _ => no_back c
  | PIPE l r | LIST l r => no_back l && no_back r
  | BACK _ => false
  end.

(** The parser only redirects descriptors 0 and 1. *)
Fixpoint redirs_ok {X} (c : cmd X) : Prop :=
  match c with
  | EXEC _ => True
  | REDIR c _ _ fd => (fd = 0 \/ fd = 1) /\ redirs_ok c
  | PIPE l r | LIST l r => redirs_ok l /\ redirs_ok r
  | BACK c => redirs_ok c
  end.

(** Standard input, output and error, and nothing else. *)
Definition std (fds : fdt) : Prop := exists a b c, fds = [Some a; Some b; Some c] ++ replicate 13 None.

Section props.
Variable fork_ok pipe_ok : nat -> bool.
Variable open_ok : list Z -> Z -> bool.
Variable exec_ok : list (list Z) -> bool.
Variable chdir_ok : list Z -> bool.
Notation runcmd := (runcmd fork_ok pipe_ok open_ok exec_ok).
Notation fork1 := (fork1 fork_ok).

Definition calls_succeed : Prop := (forall n, fork_ok n = true) /\ (forall n, pipe_ok n = true) /\ (forall f m, open_ok f m = true).

Lemma programs_app l l' : programs (l ++ l') = programs l ++ programs l'.
Proof. apply flat_map_app. Qed.
Lemma forks_app l l' : forks (l ++ l') = (forks l + forks l')%nat.
Proof. unfold forks. by rewrite filter_app, length_app. Qed.
Lemma waits_app l l' : waits (l ++ l') = (waits l + waits l')%nat.
Proof. unfold waits. by rewrite filter_app, length_app. Qed.

(** What is shown of a routine from state [s]: it returns, only adds to the history, starts
    programs with standard descriptors only, and if all calls succeed it starts those of [w]
    and, when [bal], waits for all its children and [k] more. *)
Definition good (c : U unit) (s : ustate) (w : list (list (list Z) * fdt) * nat) (bal : bool) (k : nat) : Prop :=
  exists s' evs, c s = Ret tt s' /\ u_ev s' = u_ev s ++ evs /\ Forall (fun x => std x.2) (programs evs) /\
    (calls_succeed -> (programs evs, u_pipes s') = w /\ (bal = true -> waits evs = (forks evs + k)%nat /\ forallb balanced evs = true)).

Lemma good_ev e d s w bal k : match e with UExec _ _ | UFork _ | UWait => False | _ => True end ->
  good d (add_ev e s) w bal k -> good (kmodify (add_ev e) ;; d) s w bal k.
Proof.
  intros Hne (s' & evs & E & He & Hs & Hw). exists s', (e :: evs). split; [exact E|]. split; [rewrite He; simpl; by rewrite <- app_assoc|].
  destruct e; done.
Qed.
Lemma good_last e s bal : match e with UExec _ _ | UFork _ | UWait => False | _ => True end -> good (kmodify (add_ev e)) s ([], u_pipes s) bal 0.
Proof. intros Hne. eexists _, [e]. split; [reflexivity|]. split; [done|]. by destruct e. Qed.
Lemma good_fail e s w bal k : match e with UExec _ _ | UFork _ | UWait => False | _ => True end -> ~ calls_succeed -> good (kmodify (add_ev e)) s w bal k.
Proof. intros Hne Hn. eexists _, [e]. split; [reflexivity|]. split; [done|]. by destruct e. Qed.

Lemma good_ret s bal : good (kret tt) s ([], u_pipes s) bal 0.
Proof. exists s, []. split; [done|]. split; [by rewrite app_nil_r|]. split; [constructor|]. intros _. done. Qed.

Lemma good_step (c d : U unit) s s1 w bal k : c s = Ret tt s1 -> u_ev s1 = u_ev s -> good d s1 w bal k -> good (c ;; d) s w bal k.
Proof. intros E He (s' & evs & Ed & Hev & H). exists s', evs. rewrite (kbind_ret _ _ _ _ _ E), <- He. done. Qed.

Lemma good_wait d s w bal k : (forall s1, u_fds s1 = u_fds s -> u_pipes s1 = u_pipes s -> good d s1 w bal k) -> good (u_wait ;; d) s w bal (S k).
Proof.
  intros Hd. destruct (Hd (add_ev UWait s) eq_refl eq_refl) as (s' & evs & E & He & Hs & Hw). exists s', (UWait :: evs). unfold u_wait. krun.
  split; [done|]. split; [by rewrite He; unfold add_ev; simpl; rewrite <- app_assoc|]. split; [done|]. intros Hc. destruct (Hw Hc) as [Hx Hb]. split; [done|].
  intros Hbal. destruct (Hb Hbal) as [H1 H2]. split; [|done]. change (UWait :: evs) with ([UWait] ++ evs). rewrite waits_app, forks_app. change (waits [UWait]) with 1%nat. change (forks [UWait]) with 0%nat. lia.
Qed.

Lemma good_wait_end s bal : good u_wait s ([], u_pipes s) bal 1.
Proof.
  exists (add_ev UWait s), [UWait]. split; [done|]. split; [done|]. split; [constructor|]. intros _. split; [done|]. intros _. done.
Qed.

Lemma good_fork child parent s wl wr bl bp k :
  good child (UState (u_fds s) (u_pipes s) (S (u_forks s)) []) wl bl 0 ->
  (forall s1, u_fds s1 = u_fds s -> (calls_succeed -> u_pipes s1 = wl.2) -> good parent s1 wr bp (S k)) ->
  good (fork1 child parent) s (wl.1 ++ wr.1, wr.2) (bl && bp) k.
Proof.
  intros (sc & evc & Ec & Hev & Hstd & Hw) Hp. destruct (fork_ok (u_forks s)) eqn:Ef.
  - set (s1 := UState (u_fds s) (u_pipes sc) (u_forks sc) (u_ev s ++ [UFork (u_ev sc)])).
    destruct (Hp s1 eq_refl) as (s' & evs & E & He & Hs & Hwr); [intros Hc; destruct (Hw Hc) as [<- _]; done|].
    exists s', (UFork evc :: evs). simpl in Hev. split; [unfold ShRun.fork1; by rewrite Ef, Ec|]. split; [rewrite He; unfold s1; simpl; by rewrite Hev, <- app_assoc|].
    change (UFork evc :: evs) with ([UFork evc] ++ evs). rewrite programs_app, forks_app, waits_app. change (programs [UFork evc]) with (flat_map programs_of evc ++ []). rewrite app_nil_r.
    split; [by apply Forall_app|]. intros Hc. destruct (Hw Hc) as [<- Hb], (Hwr Hc) as [<- Hbr]. split; [done|]. intros Hbal. apply andb_prop in Hbal as [B1 B2].
    destruct (Hb B1) as [F1 F2], (Hbr B2) as [F3 F4]. split; [change (waits [UFork evc]) with 0%nat; change (forks [UFork evc]) with 1%nat; lia|].
    cbn [app forallb balanced]. rewrite F2, F4, (proj2 (Nat.eqb_eq _ _)) by lia. done.
  - destruct (good_fail (UPanic "fork") s (wl.1 ++ wr.1, wr.2) (bl && bp) k) as (s' & evs & E & H); [done|intros (Hf & _); by rewrite Hf in Ef|].
    exists s', evs. split; [unfold ShRun.fork1; by rewrite Ef|done].
Qed.

Lemma good_weaken c s w w' bal bal' k : good c s w bal k -> (calls_succeed -> w = w') -> (bal' = true -> bal = true) -> good c s w' bal' k.
Proof.
  intros (s' & evs & E & He & Hs & Hw) Ew Hb. exists s', evs. split_and!; try done. intros Hc. destruct (Hw Hc) as [? HB].
  rewrite <- (Ew Hc). split; [done|]. auto.
Qed.

(** The children of a pipe. *)
Lemma pipe_left a b e n : let t := [Some a; Some b; Some e; Some (PipeR n); Some (PipeW n)] ++ replicate 11 None in
  forall p f ev (c : U unit), (u_close 1 ;; u_dup 4 ;; u_close 3 ;; u_close 4 ;; c) (UState t p f ev) =
    c (UState ([Some a; Some (PipeW n); Some e] ++ replicate 13 None) p f ev).
Proof. done. Qed.
Lemma pipe_right a b e n : let t := [Some a; Some b; Some e; Some (PipeR n); Some (PipeW n)] ++ replicate 11 None in
  forall p f ev (c : U unit), (u_close 0 ;; u_dup 3 ;; u_close 3 ;; u_close 4 ;; c) (UState t p f ev) =
    c (UState ([Some (PipeR n); Some b; Some e] ++ replicate 13 None) p f ev).
Proof. done. Qed.
Lemma pipe_parent a b e n : let t := [Some a; Some b; Some e; Some (PipeR n); Some (PipeW n)] ++ replicate 11 None in
  forall p f ev (c : U unit), (u_close 3 ;; u_close 4 ;; c) (UState t p f ev) =
    c (UState ([Some a; Some b; Some e] ++ replicate 13 None) p f ev).
Proof. done. Qed.

Lemma good_at (c d : U unit) s s1 w bal k : c s = d s1 -> u_ev s1 = u_ev s -> good d s1 w bal k -> good c s w bal k.
Proof. intros E He (s' & evs & Ed & Hev & H). exists s', evs. rewrite E, <- He. done. Qed.

Lemma runcmd_good c : forall s, redirs_ok c -> std (u_fds s) -> good (runcmd c) s (wire c (u_fds s) (u_pipes s)) (no_back c) 0.
Proof.
  induction c as [argv|c IH file mode fd|l IHl r IHr|l IHl r IHr|c IH]; intros s Hr Hstd; cbn [ShRun.runcmd wire no_back].
  - destruct argv as [|name argv]; [apply good_ret|]. destruct (exec_ok (name :: argv)) eqn:Ee.
    + exists (add_ev (UExec (name :: argv) (u_fds s)) s), [UExec (name :: argv) (u_fds s)]. split; [done|]. split; [done|]. split; [by repeat constructor|]. intros _. done.
    + exists (add_ev (UPrint "exec %s failed" name) (add_ev (UExec (name :: argv) (u_fds s)) s)), [UExec (name :: argv) (u_fds s); UPrint "exec %s failed" name].
      split; [done|]. split; [unfold add_ev; simpl; by rewrite <- app_assoc|]. split; [by repeat constructor|]. intros _. done.
  - destruct Hr as [Hfd Hr]. destruct Hstd as (a & b & e & Hf). eapply good_step; [reflexivity|done|]. set (s1 := set_fds _ s). unfold u_open.
    destruct (open_ok file mode) eqn:Eo.
    + assert (El : lowest_free (u_fds s1) = Some (Z.to_nat fd)) by (unfold s1; simpl; rewrite Hf; by destruct Hfd as [-> | ->]).
      eapply (good_at _ (runcmd c) _ (set_fds (<[Z.to_nat fd := Some (FileD file mode)]> (u_fds s1)) s1)).
      * unfold alloc_fd. krun. rewrite El. krun. by rewrite (proj2 (Z.ltb_ge _ _)) by lia.
      * done.
      * eapply good_weaken; [apply IH; [done|]| |done].
        -- unfold s1. simpl. rewrite Hf. destruct Hfd as [-> | ->]; simpl; unfold std; eauto.
        -- intros _. unfold s1, set_fds. cbn [u_fds u_pipes]. f_equal. apply list_insert_insert_eq.
    + eapply (good_at _ (u_print "open %s failed" file) _ s1); [done|done|]. apply good_fail; [done|]. intros (_ & _ & Hall). by rewrite Hall in Eo.
  - destruct Hr as [Hrl Hrr]. destruct Hstd as (a & b & e & Hf). set (n := u_pipes s).
    destruct (pipe_ok n) eqn:Ep.
    2:{ eapply (good_at _ (sh_panic "pipe") _ (UState (u_fds s) (S n) (u_forks s) (u_ev s))); [unfold u_pipe; krun; fold n; by rewrite Ep|done|].
        apply good_fail; [done|]. intros (_ & Hall & _). by rewrite Hall in Ep. }
    set (t := [Some a; Some b; Some e; Some (PipeR n); Some (PipeW n)] ++ replicate 11 None).
    eapply (good_at _ (fork1 (u_close 1 ;; u_dup 4 ;; u_close 3 ;; u_close 4 ;; runcmd l)
        (fork1 (u_close 0 ;; u_dup 3 ;; u_close 3 ;; u_close 4 ;; runcmd r) (u_close 3 ;; u_close 4 ;; u_wait ;; u_wait))) _ (UState t (S n) (u_forks s) (u_ev s))).
    { unfold u_pipe. krun. fold n. rewrite Ep. unfold alloc_fd. krun. cbn [u_fds]. rewrite Hf. reflexivity. }
    { done. }
    assert (Hpl : <[1%nat := Some (PipeW n)]> (u_fds s) = [Some a; Some (PipeW n); Some e] ++ replicate 13 None) by (by rewrite Hf).
    assert (Hpr : <[0%nat := Some (PipeR n)]> (u_fds s) = [Some (PipeR n); Some b; Some e] ++ replicate 13 None) by (by rewrite Hf).
    rewrite Hpl, Hpr. set (tl := [Some a; Some (PipeW n); Some e] ++ replicate 13 None). set (tr := [Some (PipeR n); Some b; Some e] ++ replicate 13 None).
    destruct (wire l tl (S n)) as [wa n1] eqn:El. destruct (wire r tr n1) as [wb n2] eqn:Er.
    eapply good_weaken; [apply (good_fork _ _ _ (wa, n1) (wb ++ [], n2) (no_back l) (no_back r && true))| |].
    + eapply good_at; [apply pipe_left|done|]. eapply good_weaken; [apply IHl; [done|by exists a, (PipeW n), e]| |done]. intros _. exact El.
    + intros [fd1 p1 k1 ev1] H1 H2. simpl in H1, H2. subst fd1. apply (good_fork _ _ _ (wb, n2) ([], n2)).
      * eapply good_at; [apply pipe_right|done|]. eapply good_weaken; [apply IHr; [done|by exists (PipeR n), b, e]| |done]. intros Hc. simpl. rewrite (H2 Hc). exact Er.
      * intros [fd2 p2 k2 ev2] H3 H4. simpl in H3, H4. subst fd2. eapply good_at; [apply pipe_parent|done|]. apply good_wait. intros s3 H5 H6.
        eapply good_weaken; [apply good_wait_end| |done]. intros Hc. rewrite H6. simpl. by rewrite (H4 Hc).
    + intros _. simpl. by rewrite app_nil_r.
    + simpl. by rewrite andb_true_r.
  - destruct Hr as [Hrl Hrr]. destruct (wire l (u_fds s) (u_pipes s)) as [wa n1] eqn:El. destruct (wire r (u_fds s) n1) as [wb n2] eqn:Er.
    apply (good_fork _ _ s (wa, n1) (wb, n2)).
    + eapply good_weaken; [apply IHl; [done|done]| |done]. intros _. exact El.
    + intros s1 H1 H2. apply good_wait. intros s2 H3 H4. eapply good_weaken; [apply IHr; [done|by rewrite H3, H1]| |done].
      intros Hc. by rewrite H3, H1, H4, (H2 Hc).
  - eapply good_weaken; [apply (good_fork _ _ s (wire c (u_fds s) (u_pipes s)) ([], (wire c (u_fds s) (u_pipes s)).2) (no_back c) false)| |done].
    + exact (IH (UState (u_fds s) (u_pipes s) (S (u_forks s)) []) Hr Hstd).
    + intros s1 H1 H2. exists s1, []. split; [done|]. split; [by rewrite app_nil_r|]. split; [constructor|]. intros Hc. split; [by rewrite <- (H2 Hc)|done].
    + intros _. simpl. rewrite app_nil_r. by destruct (wire c _ _).
Qed.

(** ** The commands of a session *)

Definition line_wire (line : list Z) (fds : fdt) (n : nat) : list (list (list Z) * fdt) * nat :=
  if cd_prefix line then ([], n) else
  match parsecmd line with Ret (c, _) _ => wire (strings c) fds n | _ => ([], n) end.
Definition line_fg (line : list Z) : bool :=
  cd_prefix line || match parsecmd line with Ret (c, _) _ => no_back c | _ => true end.

(** The lines that are read, up to the first empty one. *)
Fixpoint lines (fuel : nat) (input : list (option Z)) : list (list Z) :=
  match fuel with
  | O => []
  | S fuel' => let '(buf, rest) := gets 100 input in match cstr buf with [] => [] | line => line :: lines fuel' rest end
  end.
Fixpoint session (ls : list (list Z)) (fds : fdt) (n : nat) : list (list (list Z) * fdt) * nat :=
  match ls with
  | [] => ([], n)
  | line :: ls' => let '(a, n1) := line_wire line fds n in let '(b, n2) := session ls' fds n1 in (a ++ b, n2)
  end.

Lemma no_back_strings c : no_back (strings c) = no_back c.
Proof. induction c; simpl; congruence. Qed.
Lemma redirs_ok_strings (R : token -> Prop) c : cmd_all R c -> redirs_ok (strings c).
Proof. induction c; simpl; unfold std_redir; naive_solver. Qed.

Lemma cmd_strings_spec n buf c : cmd_all (fun t => word (t_str t) /\ cstr_at buf (n - t_rest t) = t_str t) c -> cmd_strings n buf c = strings c.
Proof.
  induction c as [argv|c IH f m fd|l IHl r IHr|l IHl r IHr|c IH]; simpl; intros H; try (f_equal; naive_solver).
  f_equal. apply list_fmap_ext. intros i t Hi. by apply (proj1 (Forall_lookup _ _) H i t Hi).
Qed.

Lemma cstr_nonzero l : 0 ∉ cstr l.
Proof. induction l as [|c l IH]; simpl; [set_solver|]. destruct (Z.eqb_spec c 0); set_solver. Qed.

Lemma run_line_good line s : 0 ∉ line -> cd_prefix line = false -> std (u_fds s) ->
  good (run_line fork_ok pipe_ok open_ok exec_ok line) s (line_wire line (u_fds s) (u_pipes s)) (line_fg line) 0.
Proof.
  intros H0 Ecd Hstd. pose proof (parsecmd_spec line H0) as Hp. unfold run_line, line_wire, line_fg. rewrite Ecd.
  destruct (parsecmd line) as [[c buf] r|msg| |]; [|by apply good_last|done|done]. destruct Hp as [_ Hp]. cbn [orb].
  rewrite (cmd_strings_spec _ _ _ Hp), <- no_back_strings. apply runcmd_good; [by eapply redirs_ok_strings|done].
Qed.

Lemma gets_rest max : forall input, (length (gets max input).1 + length (gets max input).2 <= length input)%nat.
Proof.
  induction max as [|[|m] IH]; intros input; [done|done|]. destruct input as [|[c|] input]; [done| |simpl; lia].
  change (gets (S (S m)) (Some c :: input)) with (if (c =? 10) || (c =? 13) then ([c], input) else let '(l, rest) := gets (S m) input in (c :: l, rest)).
  destruct ((c =? 10) || (c =? 13)); [simpl; lia|]. specialize (IH input). destruct (gets (S m) input) as [l rest]. simpl in *. lia.
Qed.

Notation sh_loop := (sh_loop fork_ok pipe_ok open_ok exec_ok chdir_ok).

Lemma sh_loop_good fuel : forall input s, (length input < fuel)%nat -> std (u_fds s) ->
  good (sh_loop fuel input) s (session (lines fuel input) (u_fds s) (u_pipes s)) (forallb line_fg (lines fuel input)) 0.
Proof.
  induction fuel as [|fuel IH]; intros input s Hlt Hstd; [lia|]. cbn [ShRun.sh_loop lines].
  apply good_ev; [done|]. pose proof (gets_rest 100 input) as Hg. destruct (gets 100 input) as [buf rest].
  pose proof (cstr_nonzero buf) as H0. destruct (cstr buf) as [|c0 l] eqn:Eb; [apply (good_ret (add_ev _ s))|].
  set (line := c0 :: l) in *. assert (Hrest : (length rest < fuel)%nat) by (destruct buf; [done|simpl in Hg; lia]).
  cbn [session forallb]. unfold sh_line. destruct (line_wire line (u_fds s) (u_pipes s)) as [a n1] eqn:Ea.
  destruct (session _ _ n1) as [b n2] eqn:Es. unfold line_wire in Ea. destruct (cd_prefix line) eqn:Ecd.
  - injection Ea as <- <-. unfold line_fg. rewrite Ecd. cbn [orb andb app]. set (dir := drop 3 _).
    destruct (chdir_ok dir); (apply good_ev; [done|]); (eapply good_weaken; [apply IH; [done|done]|intros _; exact Es|done]).
  - eapply good_weaken; [apply (good_fork _ _ _ (a, n1) (b, n2) (line_fg line) (forallb line_fg (lines fuel rest)))|done|done].
    + eapply good_weaken; [apply run_line_good; done| |done]. intros _. unfold line_wire. rewrite Ecd. exact Ea.
    + intros s1 H1 H2. apply good_wait. intros s2 H3 H4. eapply good_weaken; [apply IH; [done|by rewrite H3, H1]| |done].
      intros Hc. by rewrite H3, H1, H4, (H2 Hc).
Qed.

(** ** The descriptors of the shell *)

Lemma open_console_std a b e s : u_fds s = [a; b; e] ++ replicate 13 None -> open_ok console_name rdwr = true ->
  let con o := match o with Some d => Some d | None => Some (FileD console_name rdwr) end in
  open_console open_ok (S nfds) s = Ret tt (set_fds ([con a; con b; con e] ++ replicate 13 None) s).
Proof.
  intros Hf Ho. destruct s as [t p f ev]. simpl in Hf. subst t. cbn [open_console nfds]. unfold u_open. rewrite Ho.
  destruct a, b, e; reflexivity.
Qed.
End props.

(** C5: whatever calls fail, a command run with descriptors 0, 1 and 2 open comes to its end,
    and every program it starts has exactly three descriptors, 0, 1 and 2: the ends of the
    pipes are closed again wherever they are not a standard input or output, so that readers
    see the end of their input.  If fork, pipe and open succeed, the programs that are
    started and the descriptors of each are those the command means, and when there is no &
    every process waits for all the children it forks. *)
Theorem runcmd_wires fork_ok pipe_ok open_ok exec_ok (c : cmd (list Z)) (s : ustate) : redirs_ok c -> std (u_fds s) ->
  exists s' evs, runcmd fork_ok pipe_ok open_ok exec_ok c s = Ret tt s' /\ u_ev s' = u_ev s ++ evs /\ Forall (fun x => std x.2) (programs evs) /\
    (calls_succeed fork_ok pipe_ok open_ok -> (programs evs, u_pipes s') = wire c (u_fds s) (u_pipes s) /\ (no_back c = true -> all_waited evs)).
Proof.
  intros Hr Hs. destruct (runcmd_good fork_ok pipe_ok open_ok exec_ok c s Hr Hs) as (s' & evs & E & He & Hx & Hw).
  exists s', evs. split_and!; try done. intros Hc. destruct (Hw Hc) as [H1 H2]. split; [done|]. intros Hb. destruct (H2 Hb). split; [lia|done].
Qed.

(** A word of one letter, and three descriptors. *)
Definition ex_fds : fdt := [Some (FileD console_name rdwr); Some (FileD console_name rdwr); Some (FileD console_name rdwr)] ++ replicate 13 None.
Lemma ex_fds_std : std ex_fds.
Proof. unfold std, ex_fds. eauto. Qed.

(** [a | b > c]: b's output goes to the file and its input comes from the pipe. *)
Lemma runcmd_wires_witness : exists s' evs,
  runcmd (fun _ => true) (fun _ => true) (fun _ _ => true) (fun _ => true) (PIPE (EXEC [[97]]) (REDIR (EXEC [[98]]) [99] O_WRONLY_CREATE 1)) (UState ex_fds 0 0 []) = Ret tt s' /\
  programs evs = [([[97]], <[1%nat := Some (PipeW 0)]> ex_fds); ([[98]], <[1%nat := Some (FileD [99] O_WRONLY_CREATE)]> (<[0%nat := Some (PipeR 0)]> ex_fds))] /\
  all_waited evs.
Proof.
  destruct (runcmd_wires (fun _ => true) (fun _ => true) (fun _ _ => true) (fun _ => true) (PIPE (EXEC [[97]]) (REDIR (EXEC [[98]]) [99] O_WRONLY_CREATE 1)) (UState ex_fds 0 0 []))
    as (s' & evs & E & _ & _ & H); [simpl; auto|exact ex_fds_std|]. exists s', evs.
  destruct H as [H1 H2]; [unfold calls_succeed; auto|]. split; [exact E|]. split; [exact (f_equal fst H1)|exact (H2 eq_refl)].
Defined.

(** C6: the shell, started with any of descriptors 0 to 2 open and nothing else, opens the
    console on the others and reads lines until an empty one, whatever its children do and
    whatever calls fail: the loop ends, and every program started for a line has exactly
    descriptors 0, 1 and 2.  If fork, pipe and open succeed, the programs started are, line by
    line, those the parsed commands mean (a cd line or a line with a syntax error starts
    none and the session goes on), and when no line has an & every process waits for all
    its children. *)
Theorem sh_main_runs fork_ok pipe_ok open_ok exec_ok chdir_ok (input : list (option Z)) (a b e : option desc) (p f : nat) :
  open_ok console_name rdwr = true ->
  let con o := match o with Some d => Some d | None => Some (FileD console_name rdwr) end in
  let fds := [con a; con b; con e] ++ replicate 13 None in
  let ls := lines (S (length input)) input in
  exists s', sh_main fork_ok pipe_ok open_ok exec_ok chdir_ok input (UState ([a; b; e] ++ replicate 13 None) p f []) = Ret tt s' /\
    Forall (fun x => std x.2) (programs (u_ev s')) /\
    (calls_succeed fork_ok pipe_ok open_ok -> programs (u_ev s') = (session ls fds p).1 /\ (forallb line_fg ls = true -> all_waited (u_ev s'))).
Proof.
  intros Ho con fds ls. unfold sh_main. erewrite kbind_ret by (by apply open_console_std).
  destruct (sh_loop_good fork_ok pipe_ok open_ok exec_ok chdir_ok (S (length input)) input (UState fds p f [])) as (s' & evs & E & He & Hx & Hw).
  - lia.
  - unfold fds, std. simpl. destruct a, b, e; simpl; eauto.
  - exists s'. split; [exact E|]. simpl in He. rewrite He. split; [done|]. intros Hc. destruct (Hw Hc) as [H1 H2]. split; [exact (f_equal fst H1)|].
    intros Hb. destruct (H2 Hb). split; [lia|done].
Qed.

(** The lines [cd /], [a], [)] and [a|b]; the third is a syntax error. *)
Lemma sh_main_runs_witness : exists s',
  sh_main (fun _ => true) (fun _ => true) (fun _ _ => true) (fun _ => true) (fun _ => true)
    (Some <$> [99; 100; 32; 47; 10; 97; 10; 41; 10; 97; 124; 98; 10]) (UState (replicate 16 None) 0 0 []) = Ret tt s' /\
  programs (u_ev s') = [([[97]], ex_fds); ([[97]], <[1%nat := Some (PipeW 0)]> ex_fds); ([[98]], <[0%nat := Some (PipeR 0)]> ex_fds)] /\
  all_waited (u_ev s').
Proof.
  destruct (sh_main_runs (fun _ => true) (fun _ => true) (fun _ _ => true) (fun _ => true) (fun _ => true)
    (Some <$> [99; 100; 32; 47; 10; 97; 10; 41; 10; 97; 124; 98; 10]) None None None 0 0 eq_refl) as (s' & E & _ & H).
  exists s'. destruct H as [H1 H2]; [unfold calls_succeed; auto|]. split; [exact E|]. split; [rewrite H1; vm_compute; reflexivity|]. apply H2. vm_compute. reflexivity.
Defined.

(** A last line without a newline: [cd ab] changes to the directory [a]. *)
Example cd_last_line : exists s', sh_main (fun _ => true) (fun _ => true) (fun _ _ => true) (fun _ => true) (fun _ => true)
    (Some <$> [99; 100; 32; 97; 98]) (UState ex_fds 0 0 []) = Ret tt s' /\ UChdir [97] ∈ u_ev s'.
Proof. eexists. split; [vm_compute; reflexivity|]. set_solver. Qed.
