(* ===== verification/Umalloc.v ===== *)
(** * The user memory allocator (umalloc.c)

    The circular free list lies in the process's memory: a block starts with a header of
    two words, the address of the next block and the size in units of eight bytes.  The
    list starts at the static header [base], which lies below the heap.  [avail] says
    whether the kernel finds the pages to grow the process; its answers are arbitrary. *)

From S2P Require Import Prelude Mem Layout.

(** The memory of the process as its program sees it, the variable freep, and the size of
    the process, where sbrk adds memory. *)
Record heap := Heap { h_mem : mem; h_freep : Z; h_brk : Z }.

Definition set_hmem m h := Heap m (h_freep h) (h_brk h).
Definition set_freep p h := Heap (h_mem h) p (h_brk h).
Definition set_brk b h := Heap (h_mem h) (h_freep h) b.

Section Umalloc.
Variable base : Z.
Variable avail : Z -> Z -> bool.

(** The fields of a header, and pointer arithmetic on headers. *)
Definition s_ptr (p : Z) (h : heap) : Z := load32 (h_mem h) p.
Definition s_size (p : Z) (h : heap) : Z := load32 (h_mem h) (p + 4).
Definition set_ptr (p v : Z) : K heap unit := kmodify (fun h => set_hmem (store32 (h_mem h) p v) h).
Definition set_size (p v : Z) : K heap unit := kmodify (fun h => set_hmem (store32 (h_mem h) (p + 4) v) h).
Definition hdr_add (p n : Z) : Z := u32 (p + 8 * n).

(** The system call: sys_sbrk and growproc, with allocuvm and deallocuvm seen through the
    size they answer. *)
Definition sbrk (n : Z) : K heap Z :=
  let! addr := kget h_brk in
  let newsz := u32 (addr + n) in
  let sz :=
    if 0 <? n then
      if KERNBASE <=? newsz then 0 else
      if newsz <? addr then addr else
      if avail addr newsz then newsz else 0
    else if n <? 0 then (if addr <=? newsz then addr else newsz)
    else addr in
  if truth n && (sz =? 0) then kret (-1) else
  kmodify (set_brk sz) ;;
  kret addr.

(** There is at most one header for every eight bytes of the process. *)
Definition list_fuel (h : heap) : nat := Z.to_nat (h_brk h / 8) + 2.

Fixpoint free_loop (fuel : nat) (bp p : Z) : K heap Z :=
  match fuel with
  | O => knofuel
  | S fuel =>
    let! next := kget (s_ptr p) in
    if (p <? bp) && (bp <? next) then kret p else
    if (next <=? p) && ((p <? bp) || (bp <? next)) then kret p else
    free_loop fuel bp next
  end.

(** Join the block with the one after it in the list, or link it in front of it. *)
Definition free_upper (bp p : Z) : K heap unit :=
  let! size := kget (s_size bp) in
  let! next := kget (s_ptr p) in
  if hdr_add bp size =? next then
    let! nsize := kget (s_size next) in
    set_size bp (u32 (size + nsize)) ;;
    let! nnext := kget (s_ptr next) in
    set_ptr bp nnext
  else set_ptr bp next.

(** Join the block before it with it, or link it behind that one. *)
Definition free_lower (bp p : Z) : K heap unit :=
  let! psize := kget (s_size p) in
  if hdr_add p psize =? bp then
    let! size := kget (s_size bp) in
    set_size p (u32 (psize + size)) ;;
    let! next := kget (s_ptr bp) in
    set_ptr p next
  else set_ptr p bp.

Definition free (ap : Z) : K heap unit :=
  let bp := hdr_add ap (-1) in
  let! fuel := kget list_fuel in
  let! fp := kget h_freep in
  let! p := free_loop fuel bp fp in
  free_upper bp p ;;
  free_lower bp p ;;
  kmodify (set_freep p).

Definition morecore (nu : Z) : K heap Z :=
  let nu := if nu <? 4096 then 4096 else nu in
  let! p := sbrk (s32 (nu * 8)) in
  if p =? -1 then kret 0 else
  set_size p nu ;;
  free (hdr_add p 1) ;;
  kget h_freep.

(** The body of the branch that takes the block [p], whose size is enough. *)
Definition take (nunits prevp p : Z) : K heap Z :=
  let! size := kget (s_size p) in
  let! q :=
    (if size =? nunits then
       let! next := kget (s_ptr p) in
       set_ptr prevp next ;;
       kret p
     else
       set_size p (u32 (size - nunits)) ;;
       let! rest := kget (s_size p) in
       set_size (hdr_add p rest) nunits ;;
       kret (hdr_add p rest)) in
  kmodify (set_freep prevp) ;;
  kret (hdr_add q 1).

Fixpoint malloc_loop (fuel : nat) (nunits prevp p : Z) : K heap Z :=
  match fuel with
  | O => knofuel
  | S fuel =>
    let! size := kget (s_size p) in
    if nunits <=? size then take nunits prevp p else
    let! fp := kget h_freep in
    if p =? fp then
      let! p' := morecore nunits in
      if p' =? 0 then kret 0 else
      let! next := kget (s_ptr p') in
      malloc_loop fuel nunits p' next
    else
      let! next := kget (s_ptr p) in
      malloc_loop fuel nunits p next
  end.

Definition units (nbytes : Z) : Z := u32 (nbytes + 8 - 1) / 8 + 1.

Definition malloc (nbytes : Z) : K heap Z :=
  let nunits := units nbytes in
  let! fp := kget h_freep in
  (if fp =? 0 then
     kmodify (set_freep base) ;;
     set_ptr base base ;;
     set_size base 0
   else kret tt) ;;
  let! fuel := kget list_fuel in
  let! prevp := kget h_freep in
  let! p := kget (s_ptr prevp) in
  malloc_loop (2 * fuel + 2) nunits prevp p.
End Umalloc.
