(* ===== verification/UmallocProps.v ===== *)
(** * The blocks of malloc (umalloc.c)

    The free list as a list of blocks, sorted by address with a gap between any two, and
    what free, morecore and malloc do to it.  Blocks are pairs of the address of a header
    and a size in units; the header [base] is a block of size zero. *)

From S2P Require Import Prelude Mem Layout Umalloc.

Notation blk := (Z * Z)%type.

Definition in_blk (z : Z) (b : blk) : Prop := b.1 <= z < b.1 + 8 * b.2.
Definition in_blks (z : Z) (l : list blk) : Prop := Exists (in_blk z) l.
Definition disj (a b : blk) : Prop := forall z, in_blk z a -> in_blk z b -> False.

Definition hd_addr (l : list blk) (e : Z) : Z := match l with [] => e | b :: _ => b.1 end.

(** The blocks [l] are linked in this order in memory, and the last one leads to [e]. *)
Fixpoint chain (m : mem) (l : list blk) (e : Z) : Prop :=
  match l with
  | [] => True
  | b :: r => load32 m b.1 = hd_addr r e /\ load32 m (b.1 + 4) = b.2 /\ chain m r e
  end.

(** The blocks lie above [lo] and end below [hi], in order, and two neighbours never
    touch. *)
Definition stop (b : blk) : Z := Z.max (b.1 + 8 * b.2) (b.1 + 7).
Fixpoint spaced (lo : Z) (l : list blk) (hi : Z) : Prop :=
  match l with
  | [] => True
  | b :: r => lo < b.1 /\ 0 <= b.2 /\ stop b <= hi /\ spaced (stop b) r hi
  end.

(** [l] with [x] in front, joined with the first block if the two touch. *)
Definition glue (x : blk) (l : list blk) : list blk :=
  match l with
  | [] => [x]
  | y :: r => if x.1 + 8 * x.2 =? y.1 then (x.1, x.2 + y.2) :: r else x :: y :: r
  end.

Lemma hd_addr_app l1 l2 e : hd_addr (l1 ++ l2) e = hd_addr l1 (hd_addr l2 e).
Proof. by destruct l1. Qed.

Lemma hd_addr_glue x l e : hd_addr (glue x l) e = x.1.
Proof. destruct l as [|y r]; [done|]. simpl. by destruct (_ =? _). Qed.

Lemma blocks_chain_app m l1 l2 e : chain m (l1 ++ l2) e <-> chain m l1 (hd_addr l2 e) /\ chain m l2 e.
Proof.
  induction l1 as [|b r IH]; simpl; [tauto|]. rewrite hd_addr_app, IH. tauto.
Qed.

(** A memory that agrees on the headers has the same list. *)
Lemma chain_frame m m' l e :
  (forall b x, b ∈ l -> b.1 <= x < b.1 + 8 -> m' x = m x) -> chain m l e -> chain m' l e.
Proof.
  induction l as [|b r IH]; intros Hm; simpl; [done|]. intros (H1 & H2 & H3).
  assert (Hb : forall x, b.1 <= x < b.1 + 8 -> m' x = m x) by (intros; apply (Hm b); [left|done]).
  split; [|split].
  - rewrite <- H1. apply load32_ext. intros; apply Hb; lia.
  - rewrite <- H2. apply load32_ext. intros; apply Hb; lia.
  - apply IH; [|done]. intros c x Hc. apply Hm. by right.
Qed.

Lemma spaced_weaken lo lo' l hi hi' : lo' <= lo -> hi <= hi' -> spaced lo l hi -> spaced lo' l hi'.
Proof.
  revert lo lo'. induction l as [|b r IH]; intros lo lo' H1 H2; simpl; [done|].
  intros (? & ? & ? & ?). split_and!; [lia|lia|lia|]. eapply IH; [|done|done]. lia.
Qed.

Definition last_stop (lo : Z) (l : list blk) : Z := foldl (fun _ b => stop b) lo l.

Lemma spaced_app lo l1 l2 hi : spaced lo (l1 ++ l2) hi <-> spaced lo l1 hi /\ spaced (last_stop lo l1) l2 hi.
Proof.
  revert lo. induction l1 as [|b r IH]; intros lo; simpl; [unfold last_stop; simpl; tauto|].
  rewrite IH. unfold last_stop. simpl. tauto.
Qed.

Lemma last_stop_snoc lo l b : last_stop lo (l ++ [b]) = stop b.
Proof. unfold last_stop. by rewrite foldl_app. Qed.

(** What is known of a member of a spaced list. *)
Lemma spaced_elem lo l hi b : spaced lo l hi -> b ∈ l -> lo < b.1 /\ 0 <= b.2 /\ stop b <= hi.
Proof.
  revert lo. induction l as [|c r IH]; intros lo; simpl; [intros _ ?%elem_of_nil; done|].
  intros (? & ? & ? & Hr) [->|Hb]%elem_of_cons; [done|].
  destruct (IH _ Hr Hb) as (? & ? & ?). unfold stop in *. split_and!; lia.
Qed.

(** The blocks before a member end before it, those after it start after its end. *)
Lemma spaced_split lo l1 b l2 hi : spaced lo (l1 ++ b :: l2) hi ->
  (forall c, c ∈ l1 -> c.1 + 8 <= b.1 /\ c.1 + 8 * c.2 < b.1) /\
  (forall c, c ∈ l2 -> stop b < c.1).
Proof.
  revert lo. induction l1 as [|a r IH]; intros lo; simpl.
  - intros (_ & _ & _ & Hr). split; [intros ? ?%elem_of_nil; done|].
    intros c Hc. apply (spaced_elem _ _ _ _ Hr Hc).
  - intros (_ & _ & _ & Hr). destruct (IH _ Hr) as [H1 H2]. split; [|done].
    intros c [->|Hc]%elem_of_cons; [|by apply H1].
    destruct (spaced_elem _ _ _ b Hr) as (Hb & _ & _);
      [apply elem_of_app; right; left|]. unfold stop in Hb. lia.
Qed.

Lemma spaced_length lo l hi : spaced lo l hi -> lo <= hi -> 8 * Z.of_nat (length l) <= hi - lo + 1.
Proof.
  revert lo. induction l as [|b r IH]; intros lo; simpl; [lia|].
  intros (? & ? & Hs & Hr) _. specialize (IH _ Hr Hs). unfold stop in *. lia.
Qed.

Lemma glue_bytes z x l : 0 <= x.2 -> Forall (fun b => 0 <= b.2) l ->
  (in_blks z (glue x l) <-> in_blk z x \/ in_blks z l).
Proof.
  intros Hx Hl. unfold in_blks, in_blk. destruct l as [|y r]; simpl.
  - rewrite Exists_cons, Exists_nil. tauto.
  - apply Forall_cons in Hl as [Hy _]. destruct (Z.eqb_spec (x.1 + 8 * x.2) y.1) as [E|E].
    + rewrite !Exists_cons. simpl. split; [intros [?|?]; [|tauto]|intros [?|[?|?]]; [..|tauto]];
        first [left; lia | destruct (decide (z < y.1)); [left; lia|right; left; lia]].
    + rewrite !Exists_cons. tauto.
Qed.

(** Blocks that touch at most become blocks that do not touch. *)
Lemma glue_spaced lo x l hi : lo < x.1 -> 0 <= x.2 -> stop x <= hi ->
  spaced (Z.max (x.1 + 8 * x.2 - 1) (x.1 + 7)) l hi -> spaced lo (glue x l) hi.
Proof.
  intros H1 H2 H3. destruct l as [|y r]; simpl; [done|]. intros (H4 & H5 & H6 & H7).
  destruct (Z.eqb_spec (x.1 + 8 * x.2) y.1) as [E|E]; simpl.
  - unfold stop in *. simpl. split_and!; [lia|lia|lia|].
    eapply spaced_weaken; [..|exact H7]; lia.
  - unfold stop in *. split_and!; try lia; done.
Qed.

Lemma glue_pos x l : 1 <= x.2 -> Forall (fun b => 1 <= b.2) l -> Forall (fun b => 1 <= b.2) (glue x l).
Proof.
  intros Hx Hl. destruct l as [|y r]; simpl; [by constructor|].
  apply Forall_cons in Hl as [Hy Hr]. destruct (_ =? _); repeat constructor; simpl; done || lia.
Qed.

(** ** Linking a block in front of a list

    Both halves of free do the same to different blocks: they let the header at [x] lead
    to the block at [y], or take that block over. *)
Definition link (m : mem) (x sx y : Z) : mem :=
  if hdr_add x sx =? y then
    let m1 := store32 m (x + 4) (u32 (sx + load32 m (y + 4))) in store32 m1 x (load32 m1 y)
  else store32 m x y.

Lemma link_out m x sx y z : ~ (x <= z < x + 8) -> link m x sx y z = m z.
Proof. intros Hz. unfold link. destruct (_ =? _); rewrite !store32_out; done || lia. Qed.

Lemma free_upper_link bp p h :
  free_upper bp p h = Ret tt (set_hmem (link (h_mem h) bp (s_size bp h) (s_ptr p h)) h).
Proof.
  unfold free_upper, link, set_size, set_ptr. krun. simpl.
  destruct (_ =? _); reflexivity.
Qed.

Lemma free_lower_link bp p h :
  free_lower bp p h = Ret tt (set_hmem (link (h_mem h) p (s_size p h) bp) h).
Proof.
  unfold free_lower, link, set_size, set_ptr. krun. simpl.
  destruct (_ =? _); reflexivity.
Qed.

(** After linking, the memory holds the glued list. *)
Lemma link_chain m x l e hi : chain m l e -> load32 m (x.1 + 4) = x.2 ->
  0 <= x.1 -> 0 <= x.2 -> stop x <= hi -> hi < 4294967296 -> 0 <= e <= x.1 ->
  spaced (Z.max (x.1 + 8 * x.2 - 1) (x.1 + 7)) l hi ->
  (l = [] -> x.1 + 8 * x.2 <> e) ->
  chain (link m x.1 x.2 (hd_addr l e)) (glue x l) e.
Proof.
  intros Hc Hx H1 H2 H3 H4 He Hs Hne.
  assert (Hfr : forall c z, c ∈ l -> c.1 <= z < c.1 + 8 -> ~ (x.1 <= z < x.1 + 8)).
  { intros c z Hin Hz. destruct (spaced_elem _ _ _ _ Hs Hin) as (? & _). lia. }
  assert (Hw : hdr_add x.1 x.2 = x.1 + 8 * x.2) by (apply u32_small; unfold stop in *; lia).
  unfold link. rewrite Hw. destruct l as [|y r]; simpl in *.
  - replace (x.1 + 8 * x.2 =? e) with false by (symmetry; apply Z.eqb_neq; auto). simpl.
    split_and!; [|rewrite load32_store32_ne by lia; done|done].
    rewrite load32_store32_eq. apply u32_small. unfold stop in *. lia.
  - destruct Hc as (Hy1 & Hy2 & Hr). destruct Hs as (Hs1 & Hs2 & Hs3 & Hs4).
    destruct (Z.eqb_spec (x.1 + 8 * x.2) y.1) as [E|E]; simpl.
    + rewrite (load32_store32_ne _ _ _ y.1) by lia. split_and!.
      * rewrite load32_store32_eq, Hy1. apply u32_small. destruct r as [|z r']; simpl; [unfold stop in *; lia|].
        destruct (spaced_elem _ _ _ z Hs4) as (? & ? & ?); [left|]. unfold stop in *. lia.
      * rewrite load32_store32_ne, load32_store32_eq, Hy2, u32_u32 by lia.
        apply u32_small. unfold stop in *. lia.
      * eapply chain_frame; [|exact Hr]. intros c z Hin Hz.
        rewrite !store32_out; [done|..]; pose proof (Hfr c z ltac:(by right) Hz); lia.
    + split_and!.
      * rewrite load32_store32_eq. apply u32_small. unfold stop in *. lia.
      * by rewrite load32_store32_ne by lia.
      * rewrite load32_store32_ne; [done|]. lia.
      * rewrite load32_store32_ne; [done|]. lia.
      * eapply chain_frame; [|exact Hr]. intros c z Hin Hz.
        rewrite store32_out; [done|]. pose proof (Hfr c z ltac:(by right) Hz). lia.
Qed.

(** ** The list in memory *)
Section Ring.
Variable base : Z.

Record ring (h : heap) (F : list blk) : Prop := {
  r_base : 0 < base;
  r_brk : base + 8 <= h_brk h <= KERNBASE;
  r_freep : exists f, f ∈ (base, 0) :: F /\ f.1 = h_freep h;
  r_chain : chain (h_mem h) ((base, 0) :: F) base;
  r_spaced : spaced (base - 1) ((base, 0) :: F) (h_brk h);
  r_pos : Forall (fun b => 1 <= b.2) F }.

Lemma ring_ptr h F X x Y : ring h F -> (base, 0) :: F = X ++ x :: Y ->
  s_ptr x.1 h = hd_addr Y base /\ s_size x.1 h = x.2.
Proof.
  intros R E. pose proof (r_chain _ _ R) as Hc. rewrite E in Hc.
  apply blocks_chain_app in Hc as [_ Hc]. simpl in Hc. unfold s_ptr, s_size. tauto.
Qed.

Lemma ring_elem h F x : ring h F -> x ∈ (base, 0) :: F ->
  base <= x.1 /\ 0 <= x.2 /\ stop x <= h_brk h.
Proof. intros R Hx. destruct (spaced_elem _ _ _ _ (r_spaced _ _ R) Hx) as (? & ? & ?). split_and!; lia. Qed.

Lemma ring_next h F X x y Y : ring h F -> (base, 0) :: F = X ++ x :: y :: Y -> stop x < y.1.
Proof.
  intros R E. pose proof (r_spaced _ _ R) as Hs. rewrite E in Hs.
  apply spaced_split in Hs as [_ Hs]. apply Hs. left.
Qed.

Lemma ring_fuel h F : ring h F -> (S (length F) < list_fuel h)%nat.
Proof.
  intros R. pose proof (spaced_length _ _ _ (r_spaced _ _ R)) as Hl.
  pose proof (r_base _ _ R). pose proof (r_brk _ _ R). simpl in Hl. unfold list_fuel. dlia.
Qed.

Lemma last_of_cons {A} (l : list A) x d : List.last (x :: l) d = List.last l x.
Proof. revert x d. induction l as [|y l IH]; intros x d; [done|]. etrans; [apply (IH y d)|]. symmetry. apply IH. Qed.

Lemma free_loop_S n bp p h : free_loop (S n) bp p h =
  (if (p <? bp) && (bp <? s_ptr p h) then Ret p h else
   if (s_ptr p h <=? p) && ((p <? bp) || (bp <? s_ptr p h)) then Ret p h else
   free_loop n bp (s_ptr p h) h).
Proof. cbn [free_loop]. krun. by repeat destruct (_ && _). Qed.

(** From a block below [bp] the search stops at the last one below it. *)
Lemma free_loop_below h F X x Y Z bp k : ring h F -> (base, 0) :: F = X ++ x :: Y ++ Z ->
  Forall (fun b => b.1 < bp) (x :: Y) -> Forall (fun b => bp < b.1) Z ->
  free_loop (S (length Y) + k) bp x.1 h = Ret (List.last Y x).1 h.
Proof.
  intros R. revert X x. induction Y as [|y Y IH]; intros X x E HY HZ.
  - apply Forall_cons in HY as [Hx _]. destruct (ring_ptr _ _ _ _ _ R E) as [Hp _].
    cbn [length Nat.add]. rewrite free_loop_S, Hp. cbn [app List.last]. destruct Z as [|z Z]; simpl.
    + destruct (ring_elem h F x R) as (? & _); [rewrite E; apply elem_of_app; right; left|].
      repeat match goal with |- context [?a <? ?b] => destruct (Z.ltb_spec a b) end; simpl; try done;
        replace (base <=? x.1) with true by (symmetry; apply Z.leb_le; lia); try done; lia.
    + apply Forall_cons in HZ as [Hz _].
      replace (x.1 <? bp) with true by (symmetry; apply Z.ltb_lt; lia).
      by replace (bp <? z.1) with true by (symmetry; apply Z.ltb_lt; lia).
  - apply Forall_cons in HY as [Hx HY]. pose proof HY as [Hy _]%Forall_cons.
    destruct (ring_ptr _ _ _ _ _ R E) as [Hp _]. pose proof (ring_next _ _ _ _ _ _ R E) as Hn.
    assert (Hn' : x.1 < y.1) by (unfold stop in Hn; lia). clear Hn.
    cbn [length Nat.add]. rewrite free_loop_S, Hp. cbn [hd_addr app].
    replace (bp <? y.1) with false by (symmetry; apply Z.ltb_ge; lia).
    replace (y.1 <=? x.1) with false by (symmetry; apply Z.leb_gt; lia).
    rewrite andb_false_r, andb_false_l.
    change (S (length Y + k)) with (S (length Y) + k)%nat.
    rewrite (IH (X ++ [x]) y); [|rewrite E, <- app_assoc; done|done|done].
    by rewrite last_of_cons.
Qed.

(** From a block above [bp] it goes round to the base. *)
Lemma free_loop_above h F X x Y bp k : ring h F -> (base, 0) :: F = X ++ x :: Y -> base < bp ->
  Forall (fun b => bp < b.1) (x :: Y) ->
  free_loop (S (length Y) + k) bp x.1 h = free_loop k bp base h.
Proof.
  intros R. revert X x. induction Y as [|y Y IH]; intros X x E Hb HY;
    apply Forall_cons in HY as [Hx HY]; destruct (ring_ptr _ _ _ _ _ R E) as [Hp _];
    cbn [length Nat.add]; rewrite free_loop_S, Hp; cbn [hd_addr app];
    replace (x.1 <? bp) with false by (symmetry; apply Z.ltb_ge; lia); cbn [andb orb].
  - replace (bp <? base) with false by (symmetry; apply Z.ltb_ge; lia). by rewrite andb_false_r.
  - pose proof (ring_next _ _ _ _ _ _ R E) as Hn.
    assert (Hn' : x.1 < y.1) by (unfold stop in Hn; lia). clear Hn.
    replace (y.1 <=? x.1) with false by (symmetry; apply Z.leb_gt; lia). cbn [andb].
    apply (IH (X ++ [x]) y); [by rewrite E, <- app_assoc|done|done].
Qed.

(** So the search always stops at the block before [bp]. *)
Lemma free_loop_spec h F F1 F2 P p bp : ring h F -> F = F1 ++ F2 -> (base, 0) :: F1 = P ++ [p] ->
  base < bp -> Forall (fun b => b.1 < bp) F1 -> Forall (fun b => bp < b.1) F2 ->
  free_loop (list_fuel h) bp (h_freep h) h = Ret p.1 h.
Proof.
  intros R -> E Hb H1 H2. pose proof (ring_fuel _ _ R) as Hl. rewrite length_app in Hl.
  assert (HL : forall x Y X, (base, 0) :: F1 = X ++ x :: Y -> (List.last Y x).1 = p.1).
  { intros x Y X EX. rewrite E in EX. destruct Y as [|y Y] using rev_ind.
    - apply app_inj_tail in EX as [_ <-]. done.
    - rewrite app_comm_cons, app_assoc in EX. apply app_inj_tail in EX as [_ <-].
      by rewrite last_last. }
  assert (HF1 : Forall (fun b => b.1 < bp) ((base, 0) :: F1)) by (constructor; [simpl; lia|done]).
  destruct (r_freep _ _ R) as (f & Hf & <-). rewrite app_comm_cons in Hf.
  assert (Hbase : forall k, free_loop (S (length F1) + k) bp base h = Ret p.1 h).
  { intros k. rewrite <- (HL (base, 0) F1 []) by done.
    apply (free_loop_below h (F1 ++ F2) [] (base, 0) F1 F2); done. }
  apply elem_of_app in Hf as [Hf|Hf]; apply list_elem_of_split in Hf as (X & Y & EX).
  - pose proof (f_equal length EX) as Hlen. rewrite length_app in Hlen. simpl in Hlen.
    replace (list_fuel h) with (S (length Y) + (list_fuel h - S (length Y)))%nat by lia.
    rewrite <- (HL f Y X EX).
    apply (free_loop_below h (F1 ++ F2) X f Y F2); try done.
    + by rewrite app_comm_cons, EX, <- app_assoc.
    + rewrite EX in HF1. by apply Forall_app in HF1 as [_ ?].
  - pose proof (f_equal length EX) as Hlen. rewrite length_app in Hlen. simpl in Hlen.
    replace (list_fuel h) with (S (length Y) + (list_fuel h - S (length Y)))%nat by lia.
    rewrite (free_loop_above h (F1 ++ F2) ((base, 0) :: F1 ++ X) f Y); try done.
    + replace (list_fuel h - S (length Y))%nat
        with (S (length F1) + (list_fuel h - S (length Y) - S (length F1)))%nat by lia. apply Hbase.
    + by rewrite EX, <- app_comm_cons, <- app_assoc.
    + rewrite EX in H2. by apply Forall_app in H2 as [_ ?].
Qed.
Lemma spaced_lower lo lo' l hi : (forall c, c ∈ l -> lo' < c.1) -> spaced lo l hi -> spaced lo' l hi.
Proof. destruct l as [|b r]; simpl; [done|]. intros H (? & ? & ? & ?). split_and!; try done. apply H. left. Qed.

(** A block that overlaps no free block has its place in the list. *)
Lemma split_around lo F hi b : spaced lo F hi -> Forall (fun c => 1 <= c.2) F -> 1 <= b.2 ->
  (forall z, in_blks z F -> ~ in_blk z b) ->
  exists F1 F2, F = F1 ++ F2 /\ Forall (fun c => c.1 + 8 * c.2 <= b.1) F1 /\
    Forall (fun c => b.1 + 8 * b.2 <= c.1) F2.
Proof.
  revert lo. induction F as [|c r IH]; intros lo Hs Hp Hb Hd; [by exists [], []|].
  apply Forall_cons in Hp as [Hc Hp]. pose proof Hs as (_ & _ & _ & Hr).
  destruct (decide (c.1 + 8 * c.2 <= b.1)).
  - destruct (IH _ Hr Hp Hb) as (F1 & F2 & -> & H1 & H2).
    { intros z Hz. apply Hd. by right. }
    exists (c :: F1), F2. split_and!; [done|by constructor|done].
  - exists [], (c :: r). split_and!; [done|constructor|].
    assert (b.1 + 8 * b.2 <= c.1).
    { destruct (decide (b.1 + 8 * b.2 <= c.1)); [done|]. destruct (Hd (Z.max b.1 c.1)).
      - left. unfold in_blk. lia.
      - unfold in_blk. lia. }
    constructor; [done|]. apply Forall_forall. intros d Hd'.
    destruct (spaced_elem _ _ _ _ Hr Hd') as (? & _). unfold stop in *. lia.
Qed.

Lemma in_blks_base z F : in_blks z ((base, 0) :: F) <-> in_blks z F.
Proof. unfold in_blks. rewrite Exists_cons. unfold in_blk at 1. simpl. split; [intros [?|?]; [lia|done]|tauto]. Qed.

Lemma in_blks_app z l1 l2 : in_blks z (l1 ++ l2) <-> in_blks z l1 \/ in_blks z l2.
Proof. apply Exists_app. Qed.
Lemma in_blks_cons z b l : in_blks z (b :: l) <-> in_blk z b \/ in_blks z l.
Proof. apply Exists_cons. Qed.

(** ** Inserting a block *)
Section Insert.
Variables (h : heap) (F1 F2 P : list blk) (p b : blk).
Hypothesis R : ring h (F1 ++ F2).
Hypothesis E1 : (base, 0) :: F1 = P ++ [p].
Hypothesis Hsize : load32 (h_mem h) (b.1 + 4) = b.2.
Hypothesis Hpos : 1 <= b.2.
Hypothesis Hlow : base + 8 <= b.1.
Hypothesis Hhigh : b.1 + 8 * b.2 <= h_brk h.
Hypothesis H1 : Forall (fun c => c.1 + 8 * c.2 <= b.1) F1.
Hypothesis H2 : Forall (fun c => b.1 + 8 * b.2 <= c.1) F2.

Let F' := match P with [] => glue b F2 | _ :: P' => P' ++ glue p (glue b F2) end.

Local Lemma ins_whole : (base, 0) :: F1 ++ F2 = P ++ p :: F2.
Proof. by rewrite app_comm_cons, E1, <- app_assoc. Qed.

Local Lemma ins_new : (base, 0) :: F' = P ++ glue p (glue b F2).
Proof.
  subst F'. destruct P as [|q P']; simpl in E1 |- *; inversion E1 as [[Hq HP]]; [|done].
  assert (Hh := hd_addr_glue b F2 0). destruct (glue b F2) as [|y r]; [done|]. simpl in *.
  replace (base + 8 * 0 =? y.1) with false; [done|]. symmetry. apply Z.eqb_neq. lia.
Qed.

Local Lemma ins_p : base <= p.1 /\ p.1 + 8 <= b.1 /\ p.1 + 8 * p.2 <= b.1 /\ 0 <= p.2.
Proof.
  assert (Hin : p ∈ (base, 0) :: F1) by (rewrite E1; apply elem_of_app; right; left).
  destruct (ring_elem h (F1 ++ F2) p R) as (? & ? & ?).
  { rewrite app_comm_cons. apply elem_of_app. by left. }
  apply elem_of_cons in Hin as [->|Hin]; simpl; [lia|].
  pose proof (r_pos _ _ R) as Hp. apply Forall_app in Hp as [Hp _].
  rewrite Forall_forall in Hp, H1. specialize (Hp p Hin).
  specialize (H1 p Hin). simpl in *. lia.
Qed.

Local Lemma ins_tail : spaced (Z.max (b.1 + 8 * b.2 - 1) (b.1 + 7)) F2 (h_brk h).
Proof.
  pose proof (r_spaced _ _ R) as Hs. rewrite app_comm_cons in Hs. apply spaced_app in Hs as [_ Hs].
  eapply spaced_lower; [|exact Hs]. intros c Hc.
  rewrite Forall_forall in H2. specialize (H2 c Hc). simpl in *. lia.
Qed.

Local Lemma ins_spaced : spaced (base - 1) ((base, 0) :: F') (h_brk h).
Proof.
  rewrite ins_new. pose proof (r_spaced _ _ R) as Hs. rewrite ins_whole in Hs.
  apply spaced_app in Hs as [HP Hs]. apply spaced_app. split; [done|]. simpl in Hs.
  destruct ins_p as (? & ? & ? & ?). pose proof ins_tail. apply glue_spaced; try tauto.
  apply glue_spaced; [lia|lia|unfold stop; lia|done].
Qed.

Local Lemma ins_pos : Forall (fun c => 1 <= c.2) F'.
Proof.
  pose proof (r_pos _ _ R) as Hp. apply Forall_app in Hp as [Hp1 Hp2].
  subst F'. destruct P as [|q P']; simpl in E1; inversion E1 as [[Hq HP]]; [by apply glue_pos|].
  rewrite HP in Hp1. apply Forall_app in Hp1 as [? [? _]%Forall_cons].
  apply Forall_app. split; [done|]. by apply glue_pos, glue_pos.
Qed.

Local Lemma ins_bytes z : in_blks z F' <-> in_blk z b \/ in_blks z (F1 ++ F2).
Proof.
  rewrite <- in_blks_base, ins_new, <- (in_blks_base z (F1 ++ F2)), ins_whole.
  pose proof (r_pos _ _ R) as Hp. apply Forall_app in Hp as [_ Hp].
  destruct ins_p as (_ & _ & _ & ?).
  assert (Hge : forall l, Forall (fun c : blk => 1 <= c.2) l -> Forall (fun c : blk => 0 <= c.2) l).
  { intros l Hl. eapply Forall_impl; [exact Hl|]. simpl. lia. }
  rewrite !in_blks_app, in_blks_cons, !glue_bytes by (done || lia || (apply Hge; try apply glue_pos; done)).
  tauto.
Qed.

(** Some block of the new list is as large as the one inserted. *)
Local Lemma ins_large : exists c, c ∈ (base, 0) :: F' /\ b.2 <= c.2.
Proof.
  rewrite ins_new. destruct ins_p as (_ & _ & _ & Hp).
  pose proof (r_pos _ _ R) as HF. apply Forall_app in HF as [_ HF].
  assert (exists c r, glue b F2 = c :: r /\ b.2 <= c.2) as (c & r & -> & Hc).
  { destruct F2 as [|y r]; simpl; [by eexists _, _|]. apply Forall_cons in HF as [? _].
    destruct (_ =? _); eexists _, _; split; try done; simpl; lia. }
  simpl. destruct (_ =? _).
  - exists (p.1, p.2 + c.2). split; [apply elem_of_app; right; left|simpl; lia].
  - exists c. split; [apply elem_of_app; right; right; left|done].
Qed.

Let m1 := link (h_mem h) b.1 b.2 (hd_addr F2 base).
Let m2 := link m1 p.1 p.2 b.1.

Local Lemma ins_headers : hd_addr F2 base = s_ptr p.1 h /\ s_size p.1 h = p.2 /\
  chain (h_mem h) P p.1 /\ chain (h_mem h) F2 base.
Proof.
  destruct (ring_ptr h _ P p F2 R ins_whole) as [Hp ->]. rewrite Hp. pose proof (r_chain _ _ R) as Hc.
  rewrite ins_whole in Hc. apply blocks_chain_app in Hc as [HP Hc]. simpl in *. tauto.
Qed.

Local Lemma ins_chain : chain m2 ((base, 0) :: F') base.
Proof.
  rewrite ins_new. destruct ins_p as (? & ? & ? & ?). destruct ins_headers as (_ & Hps & HP & HF).
  pose proof (r_base _ _ R). pose proof (r_brk _ _ R). unfold KERNBASE in *.
  apply blocks_chain_app. rewrite hd_addr_glue. split.
  - eapply chain_frame; [|exact HP]. intros c x Hc Hx.
    pose proof (r_spaced _ _ R) as Hs. rewrite ins_whole in Hs. apply spaced_split in Hs as [Hs _].
    destruct (Hs c Hc). unfold m2, m1. rewrite !link_out; done || lia.
  - unfold m2. rewrite <- (hd_addr_glue b F2 base).
    apply (link_chain _ _ _ _ (h_brk h)); try (done || lia || (unfold stop; lia)).
    + apply (link_chain _ _ _ _ (h_brk h)); try (done || lia || (unfold stop; lia)). apply ins_tail.
    + rewrite <- Hps. unfold s_size. apply load32_ext. intros x Hx. apply link_out. lia.
    + apply glue_spaced; [lia|lia|unfold stop; lia|apply ins_tail].
    + by destruct F2; simpl; try destruct (_ =? _).
Qed.

Local Lemma ins_run : free (b.1 + 8) h = Ret tt (Heap m2 p.1 (h_brk h)).
Proof.
  pose proof (r_base _ _ R). pose proof (r_brk _ _ R) as Hk. unfold KERNBASE in Hk.
  destruct ins_headers as (Hn & Hps & _). destruct ins_p as (? & ? & ? & ?).
  assert (Ha : hdr_add (b.1 + 8) (-1) = b.1).
  { unfold hdr_add. replace (b.1 + 8 + 8 * -1) with b.1 by lia. apply u32_small. lia. }
  unfold free. rewrite Ha. krun.
  rewrite (kbind_ret _ _ _ p.1 h).
  2:{ eapply free_loop_spec; [done|done|done|lia|..].
      - pose proof (r_pos _ _ R) as Hp. apply Forall_app in Hp as [Hp _].
        eapply Forall_impl; [exact (proj2 (Forall_and _ _) (conj H1 Hp))|]. simpl. intros. lia.
      - eapply Forall_impl; [exact H2|]. simpl. intros. lia. }
  rewrite (kbind_ret _ _ _ _ _ (free_upper_link _ _ _)), (kbind_ret _ _ _ _ _ (free_lower_link _ _ _)).
  assert (Hs1 : s_size b.1 h = b.2) by done. rewrite Hs1, <- Hn.
  assert (Hs2 : s_size p.1 (set_hmem (link (h_mem h) b.1 b.2 (hd_addr F2 base)) h) = p.2).
  { rewrite <- Hps. unfold s_size. simpl. apply load32_ext. intros x Hx. apply link_out. lia. }
  rewrite Hs2. reflexivity.
Qed.

Local Lemma ins_ring : ring (Heap m2 p.1 (h_brk h)) F'.
Proof.
  split; simpl; [apply R|apply R| |apply ins_chain|apply ins_spaced|apply ins_pos].
  rewrite ins_new. assert (Hh := hd_addr_glue p (glue b F2) 0).
  destruct (glue p (glue b F2)) as [|c r] eqn:E; [destruct (glue b F2); simpl in E; [done|by destruct (_ =? _)]|].
  exists c. split; [apply elem_of_app; right; left|done].
Qed.

Local Lemma ins_out x : ~ (base <= x < base + 8) -> ~ in_blk x b -> ~ in_blks x (F1 ++ F2) ->
  m2 x = h_mem h x.
Proof.
  intros Hx1 Hx2 Hx3. unfold m2, m1. rewrite !link_out; [done|unfold in_blk in Hx2; lia|].
  rewrite <- in_blks_base, ins_whole, in_blks_app, in_blks_cons in Hx3. unfold in_blk in *.
  assert (Hin : p ∈ (base, 0) :: F1) by (rewrite E1; apply elem_of_app; right; left).
  apply elem_of_cons in Hin as [->|Hin]; [simpl; lia|].
  pose proof (r_pos _ _ R) as Hp. apply Forall_app in Hp as [Hp _].
  rewrite Forall_forall in Hp. specialize (Hp p Hin). simpl in Hp. intros ?. apply Hx3. right. left. lia.
Qed.
End Insert.

(** free puts a block that overlaps no free block back, joined with its neighbours. *)
Lemma free_spec h F b : ring h F -> load32 (h_mem h) (b.1 + 4) = b.2 -> 1 <= b.2 ->
  base + 8 <= b.1 -> b.1 + 8 * b.2 <= h_brk h -> (forall z, in_blks z F -> ~ in_blk z b) ->
  exists h' F', free (b.1 + 8) h = Ret tt h' /\ ring h' F' /\ h_brk h' = h_brk h /\
    (forall z, in_blks z F' <-> in_blk z b \/ in_blks z F) /\
    (exists c, c ∈ (base, 0) :: F' /\ b.2 <= c.2) /\ (length F' <= S (length F))%nat /\
    (forall x, ~ (base <= x < base + 8) -> ~ in_blk x b -> ~ in_blks x F -> h_mem h' x = h_mem h x).
Proof.
  intros R Hs Hb Hl Hh Hd. pose proof (r_spaced _ _ R) as Hsp. simpl in Hsp.
  destruct (split_around _ F _ b ltac:(apply Hsp) (r_pos _ _ R) Hb Hd) as (F1 & F2 & -> & H1 & H2).
  destruct (exists_last (l := (base, 0) :: F1)) as (P & p & E1); [done|].
  eexists _, (match P with [] => glue b F2 | _ :: P' => P' ++ glue p (glue b F2) end).
  split; [by eapply ins_run|]. split; [by apply (ins_ring h F1 F2 P p b)|]. split; [done|].
  split; [intros; by apply (ins_bytes h F1 F2 P p b)|]. split; [by apply (ins_large h F1 F2 P p b)|]. split; [|intros; by apply (ins_out h F1 F2 P p b)].
  pose proof (f_equal length (ins_new F1 F2 P p b E1 Hl)) as Hn.
  pose proof (f_equal length (ins_whole F1 F2 P p E1)) as Hw.
  rewrite !length_app in *. simpl in *. rewrite ?length_app in *. simpl in *.
  assert (Hg : forall x l, (length (glue x l) <= S (length l))%nat).
  { intros x [|y l]; simpl; [lia|]. destruct (_ =? _); simpl; lia. }
  pose proof (Hg p (glue b F2)). pose proof (Hg b F2). lia.
Qed.
End Ring.
