(* ===== verification/UmallocSys.v ===== *)
(** * malloc and the sequences of its calls (umalloc.c)

    The search of malloc round the free list, the growth of the heap, and the theorem on
    any sequence of calls: the blocks handed out never overlap, every call returns, and
    every byte obtained from the kernel is in exactly one block. *)

From S2P Require Import Prelude Mem Layout Umalloc UmallocProps.

Section Malloc.
Variable base : Z.
Notation ring := (ring base).

(** A change of memory that spares the headers keeps the list. *)
Lemma ring_frame h F m brk : ring h F -> h_brk h <= brk <= KERNBASE ->
  (forall x, base <= x < base + 8 \/ in_blks x F -> m x = h_mem h x) ->
  ring (Heap m (h_freep h) brk) F.
Proof.
  intros R Hb Hm. pose proof (r_brk _ _ _ R). split; simpl; try apply R; [lia| |].
  - apply (chain_frame (h_mem h) m ((base, 0) :: F) base); [|apply R].
    intros b x Hin Hx. apply Hm. apply elem_of_cons in Hin as [->|Hin]; [left; done|right].
    apply Exists_exists. exists b. split; [done|]. pose proof (r_pos _ _ _ R) as Hp.
    rewrite Forall_forall in Hp. specialize (Hp b Hin). unfold in_blk. simpl in *. lia.
  - apply (spaced_weaken _ _ ((base, 0) :: F) _ _ (Z.le_refl _) (proj1 Hb) (r_spaced _ _ _ R)).
Qed.

Lemma ring_bytes h F z : ring h F -> in_blks z F -> base + 8 <= z < h_brk h.
Proof.
  intros R Hz. apply Exists_exists in Hz as (b & Hb & Hz). unfold in_blk in Hz.
  pose proof (r_spaced _ _ _ R) as Hs. simpl in Hs. destruct Hs as (_ & _ & _ & Hs).
  destruct (spaced_elem _ _ _ _ Hs Hb) as (? & ? & ?). unfold stop in *. simpl in *. lia.
Qed.

(** ** Growing the heap *)

Lemma sbrk_spec avail n h : 0 < n < 2147483648 -> 0 < h_brk h <= KERNBASE ->
  sbrk avail n h = Ret (-1) h \/
  sbrk avail n h = Ret (h_brk h) (set_brk (h_brk h + n) h) /\ h_brk h + n < KERNBASE.
Proof.
  unfold KERNBASE. intros Hn Hb. unfold sbrk. krun. rewrite u32_small by lia.
  replace (0 <? n) with true by (symmetry; apply Z.ltb_lt; lia). unfold truth.
  replace (n =? 0) with false by (symmetry; apply Z.eqb_neq; lia). unfold KERNBASE. cbn [negb andb].
  destruct (Z.leb_spec 2147483648 (h_brk h + n)); [by left|].
  replace (h_brk h + n <? h_brk h) with false by (symmetry; apply Z.ltb_ge; lia).
  destruct (avail _ _); [|by left].
  replace (h_brk h + n =? 0) with false by (symmetry; apply Z.eqb_neq; lia). by right.
Qed.

Lemma morecore_spec avail nu h F : ring h F -> 1 <= nu -> nu * 8 < 2147483648 ->
  morecore avail nu h = Ret 0 h \/
  exists b h' F', b.1 = h_brk h /\ nu <= b.2 /\
    morecore avail nu h = Ret (h_freep h') h' /\ ring h' F' /\ h_brk h' = h_brk h + 8 * b.2 /\
    (forall z, in_blks z F' <-> in_blk z b \/ in_blks z F) /\
    (exists c, c ∈ (base, 0) :: F' /\ nu <= c.2) /\ (length F' <= S (length F))%nat /\
    (forall x, ~ (base <= x < base + 8) -> ~ in_blk x b -> ~ in_blks x F -> h_mem h' x = h_mem h x).
Proof.
  intros R Hn Hm. pose proof (r_brk _ _ _ R) as Hb. pose proof (r_base _ _ _ R) as Hp.
  unfold morecore. set (n := if nu <? 4096 then 4096 else nu).
  assert (Hnn : nu <= n /\ 1 <= n /\ n * 8 < 2147483648) by (unfold n; destruct (Z.ltb_spec nu 4096); lia).
  rewrite (s32_small (n * 8)) by lia.
  destruct (sbrk_spec avail (n * 8) h) as [E|[E Hk]]; [lia|lia|left|right].
  { by rewrite (kbind_ret _ _ _ _ _ E). }
  rewrite (kbind_ret _ _ _ _ _ E). replace (h_brk h =? -1) with false by (symmetry; apply Z.eqb_neq; lia).
  unfold set_size. krun. unfold set_hmem, set_brk; cbn [h_mem h_freep h_brk].
  set (h1 := Heap _ _ _). unfold KERNBASE in *.
  assert (R1 : ring h1 F).
  { apply ring_frame; [done|unfold KERNBASE; lia|]. intros x Hx. apply store32_out.
    assert (x < h_brk h) by (destruct Hx as [?|Hx]; [lia|apply (ring_bytes _ _ _ R Hx)]). lia. }
  destruct (free_spec base h1 F (h_brk h, n) R1) as (h' & F' & Ef & R' & Hb' & Hby & Hc & Hl & Ho).
  - simpl. by rewrite load32_store32_eq, u32_small by lia.
  - simpl. lia.
  - simpl. lia.
  - simpl. lia.
  - intros z Hz Hz'. pose proof (ring_bytes _ _ _ R Hz). unfold in_blk in Hz'. simpl in Hz'. lia.
  - exists (h_brk h, n), h', F'. split; [done|]. split; [simpl; lia|]. split.
    { replace (hdr_add (h_brk h) 1) with (h_brk h + 8) by (symmetry; apply u32_small; lia).
      by rewrite (kbind_ret _ _ _ _ _ Ef). }
    split; [done|]. split; [rewrite Hb'; simpl; lia|]. split; [done|].
    split; [destruct Hc as (c & ? & ?); exists c; simpl in *; split; [done|lia]|]. split; [done|].
    intros x H1 H2 H3. rewrite Ho by done. simpl. apply store32_out. unfold in_blk in H2. simpl in H2. lia.
Qed.

(** ** Taking a block off the list *)
Section Take.
Variables (h : heap) (F P S : list blk) (pr q : blk) (n : Z).
Hypothesis R : ring h F.
Hypothesis E : (base, 0) :: F = P ++ pr :: q :: S.
Hypothesis Hn : 1 <= n <= q.2.

Let rest := q.2 - n.
Let a : blk := (q.1 + 8 * rest, n).
Let S' := if rest =? 0 then S else (q.1, rest) :: S.

Local Lemma take_order : base <= pr.1 /\ pr.1 + 8 <= q.1 /\ pr.1 + 8 * pr.2 < q.1 /\ 0 <= pr.2 /\
  q.1 + 8 * q.2 <= h_brk h /\ (forall c, c ∈ P -> c.1 + 8 <= pr.1) /\
  (forall c, c ∈ S -> q.1 + 8 * q.2 < c.1 /\ c.1 < KERNBASE).
Proof.
  pose proof (r_spaced _ _ _ R) as Hs. rewrite E in Hs. pose proof (r_brk _ _ _ R).
  pose proof (spaced_split _ _ _ _ _ Hs) as [Hq1 Hq2].
  pose proof (Hq2 q ltac:(left)) as Hq3. unfold stop in Hq3.
  destruct (ring_elem base h F pr R) as (? & ? & ?); [rewrite E; apply elem_of_app; right; left|].
  destruct (ring_elem base h F q R) as (? & ? & Hq4); [rewrite E; apply elem_of_app; right; right; left|].
  unfold stop in Hq4. split_and!; try lia; [intros c Hc; apply (Hq1 c Hc)|].
  apply spaced_app in Hs as [_ Hs]. simpl in Hs. intros c Hc.
  destruct (spaced_elem (stop q) S (h_brk h) c) as (Hq5 & Hq6 & Hq7); [tauto|done|].
  unfold stop in Hq5, Hq7. lia.
Qed.

Local Lemma take_split : exists F', (base, 0) :: F' = P ++ pr :: S'.
Proof. destruct P as [|c P']; simpl in *; inversion E; eauto. Qed.

Local Lemma take_chains : chain (h_mem h) P pr.1 /\ s_ptr pr.1 h = q.1 /\ s_size pr.1 h = pr.2 /\
  s_ptr q.1 h = hd_addr S base /\ s_size q.1 h = q.2 /\ chain (h_mem h) S base.
Proof.
  pose proof (r_chain _ _ _ R) as Hc. rewrite E in Hc. apply blocks_chain_app in Hc as [HP Hc]. simpl in Hc.
  unfold s_ptr, s_size. tauto.
Qed.

(** The memory afterwards: the remainder keeps its place, or the block before is linked to
    the one after; the block taken has its size in its header. *)
Let m' := if rest =? 0 then store32 (h_mem h) pr.1 (hd_addr S base)
          else store32 (store32 (h_mem h) (q.1 + 4) rest) (a.1 + 4) n.

Local Lemma take_run : take n pr.1 q.1 h = Ret (a.1 + 8) (Heap m' pr.1 (h_brk h)).
Proof.
  destruct take_order as (? & ? & ? & ? & ? & _). destruct take_chains as (_ & _ & _ & Hq & Hs & _).
  pose proof (r_base _ _ _ R). pose proof (r_brk _ _ _ R) as Hb. unfold KERNBASE in Hb.
  unfold take. krun. rewrite Hs. unfold m', a, rest.
  destruct (Z.eqb_spec q.2 n) as [Ee|Ee].
  - replace (q.2 - n =? 0) with true by (symmetry; apply Z.eqb_eq; lia). unfold set_ptr. krun.
    rewrite Hq. cbn [fst]. replace (q.1 + 8 * (q.2 - n)) with q.1 by lia.
    unfold hdr_add. rewrite u32_small by lia. reflexivity.
  - replace (q.2 - n =? 0) with false by (symmetry; apply Z.eqb_neq; lia). unfold set_size. krun.
    unfold s_size. cbn [h_mem set_hmem]. rewrite load32_store32_eq.
    rewrite (u32_u32 (q.2 - n)), (u32_small (q.2 - n)) by lia. cbn [fst].
    replace (hdr_add q.1 (q.2 - n)) with (q.1 + 8 * (q.2 - n)) by (symmetry; apply u32_small; lia).
    unfold hdr_add. rewrite u32_small by lia. reflexivity.
Qed.

Local Lemma take_out x : ~ (pr.1 <= x < pr.1 + 8) -> ~ in_blk x q -> m' x = h_mem h x.
Proof.
  intros H1 H2. unfold in_blk in H2. unfold m', a, rest. destruct (Z.eqb_spec (q.2 - n) 0); simpl.
  - rewrite store32_out; [done|lia].
  - rewrite !store32_out; [done|lia|lia].
Qed.

Local Lemma take_header : load32 m' (a.1 + 4) = n.
Proof.
  destruct take_order as (? & ? & ? & ? & ? & _). destruct take_chains as (_ & _ & _ & _ & Hs & _).
  pose proof (r_base _ _ _ R). pose proof (r_brk _ _ _ R) as Hb. unfold KERNBASE in Hb.
  unfold m', a, rest. destruct (Z.eqb_spec (q.2 - n) 0); simpl.
  - rewrite load32_store32_ne by lia. replace (q.1 + 8 * (q.2 - n)) with q.1 by lia.
    unfold s_size in Hs. lia.
  - rewrite load32_store32_eq. apply u32_small. lia.
Qed.

Local Lemma take_chain : chain m' (P ++ pr :: S') base.
Proof.
  destruct take_order as (? & ? & ? & ? & ? & HP & HS).
  destruct take_chains as (Hc1 & Hp1 & Hp2 & Hq1 & Hq2 & Hc2). unfold s_ptr, s_size in *.
  pose proof (r_base _ _ _ R). pose proof (r_brk _ _ _ R) as Hb. unfold KERNBASE in *.
  assert (Hfr : forall c x, c ∈ P \/ c ∈ S -> c.1 <= x < c.1 + 8 -> m' x = h_mem h x).
  { intros c x [Hc|Hc] Hx; apply take_out; unfold in_blk;
      first [specialize (HP c Hc); lia | destruct (HS c Hc); lia]. }
  apply blocks_chain_app. simpl. split; [eapply chain_frame; [|exact Hc1]; intros; eapply Hfr; eauto|].
  assert (HcS : chain m' S base) by (eapply chain_frame; [|exact Hc2]; intros; eapply Hfr; eauto).
  unfold m', S', a, rest in *. destruct (Z.eqb_spec (q.2 - n) 0); simpl in *.
  - split_and!; [|rewrite load32_store32_ne; lia|done]. rewrite load32_store32_eq. apply u32_small.
    destruct S as [|c ?]; simpl; [lia|]. destruct (HS c); [left|lia].
  - rewrite !(load32_store32_ne _ _ _ pr.1), !(load32_store32_ne _ _ _ (pr.1 + 4)) by lia.
    split_and!; [done|done|..|done].
    + rewrite !load32_store32_ne by lia. done.
    + rewrite load32_store32_ne, load32_store32_eq by lia. apply u32_small. lia.
Qed.

Local Lemma take_spaced : spaced (base - 1) (P ++ pr :: S') (h_brk h).
Proof.
  pose proof (r_spaced _ _ _ R) as Hs. rewrite E in Hs.
  apply spaced_app in Hs as [HP Hs]. apply spaced_app. split; [done|].
  simpl in Hs |- *. destruct Hs as (? & ? & ? & Hq1 & Hq2 & Hq3 & Hq4). split_and!; try done.
  unfold S', rest. destruct (Z.eqb_spec (q.2 - n) 0); simpl.
  - eapply spaced_weaken; [| |exact Hq4]; unfold stop in *; lia.
  - split_and!; [done|lia|unfold stop in *; simpl; lia|].
    eapply spaced_weaken; [| |exact Hq4]; unfold stop in *; simpl; lia.
Qed.

Local Lemma take_bytes z : (in_blks z (P ++ pr :: q :: S) <-> in_blk z a \/ in_blks z (P ++ pr :: S')) /\
  (in_blk z a -> ~ in_blks z (P ++ pr :: S')).
Proof.
  destruct take_order as (? & ? & ? & ? & ? & HP & HS).
  rewrite !in_blks_app, !in_blks_cons.
  assert (HSz : in_blks z S' <-> in_blks z S \/ q.1 <= z < q.1 + 8 * rest).
  { unfold S'. destruct (Z.eqb_spec rest 0) as [->|]; [|rewrite in_blks_cons; unfold in_blk; simpl; tauto].
    split; [tauto|intros [?|?]; [done|lia]]. }
  rewrite HSz. unfold in_blk, a, rest. simpl. split.
  - split; [|intuition lia]. intros [?|[?|[?|?]]]; try tauto.
    destruct (decide (z < q.1 + 8 * (q.2 - n))); [tauto|left; lia].
  - intros Hz [HzP|[?|[HzS|?]]]; [|lia| |lia].
    + apply Exists_exists in HzP as (c & Hc & Hz'). unfold in_blk in Hz'.
      pose proof (r_spaced _ _ _ R) as Hs. rewrite E in Hs. apply spaced_split in Hs as [Hs _].
      destruct (Hs c Hc). lia.
    + apply Exists_exists in HzS as (c & Hc & Hz'). unfold in_blk in Hz'. destruct (HS c Hc). lia.
Qed.

Lemma take_spec : exists h' F', take n pr.1 q.1 h = Ret (a.1 + 8) h' /\ ring h' F' /\
  h_brk h' = h_brk h /\ load32 (h_mem h') (a.1 + 4) = n /\
  (forall z, in_blks z F <-> in_blk z a \/ in_blks z F') /\ (forall z, in_blk z a -> ~ in_blks z F') /\
  (forall x, ~ (base <= x < base + 8) -> ~ in_blks x F -> h_mem h' x = h_mem h x).
Proof.
  destruct take_split as (F' & EF). exists (Heap m' pr.1 (h_brk h)), F'.
  assert (HF : forall z, in_blks z F <-> in_blks z (P ++ pr :: q :: S)) by (intros; rewrite <- E; symmetry; apply in_blks_base).
  assert (HF' : forall z, in_blks z F' <-> in_blks z (P ++ pr :: S')) by (intros; rewrite <- EF; symmetry; apply in_blks_base).
  pose proof (r_pos _ _ _ R) as Hpos.
  split; [apply take_run|]. split; [|split; [done|split; [apply take_header|split; [|split]]]].
  - split; cbn [h_mem h_freep h_brk]; try apply R; [|rewrite EF; apply take_chain|rewrite EF; apply take_spaced|].
    + exists pr. rewrite EF. split; [apply elem_of_app; right; left|done].
    + assert (HSp : Forall (fun b : blk => 1 <= b.2) S -> Forall (fun b : blk => 1 <= b.2) S').
      { intros HS. unfold S'. destruct (Z.eqb_spec rest 0); [done|]. constructor; [|done]. unfold rest in *. simpl. lia. }
      destruct P as [|c P']; simpl in E, EF; inversion E as [[E1 E2]]; inversion EF as [[E3 E4]]; rewrite E2 in Hpos.
      * apply HSp. by apply Forall_cons in Hpos as [_ ?].
      * rewrite Forall_app, !Forall_cons in *. tauto.
  - intros z. rewrite HF, HF'. apply take_bytes.
  - intros z Hz. rewrite HF'. by apply take_bytes.
  - intros x H1 H2. rewrite HF, in_blks_app, !in_blks_cons in H2. apply take_out; [|tauto].
    intros Hx. destruct P as [|c P'] eqn:EP; simpl in E; inversion E as [[E1 E2]].
    + rewrite <- E1 in Hx. simpl in Hx. lia.
    + rewrite E2 in Hpos. rewrite Forall_app, !Forall_cons in Hpos. destruct Hpos as (_ & Hpos & _).
      apply H2. right. left. unfold in_blk. lia.
Qed.
End Take.

(** ** The search *)

Lemma malloc_loop_S avail k n prevp p h : malloc_loop avail (S k) n prevp p h =
  if n <=? s_size p h then take n prevp p h else
  if p =? h_freep h then
    (let! p' := morecore avail n in
     if p' =? 0 then kret 0 else
     let! next := kget (s_ptr p') in malloc_loop avail k n p' next) h
  else malloc_loop avail k n p (s_ptr p h) h.
Proof. cbn [malloc_loop]. krun. destruct (_ <=? _); [done|]. krun. by destruct (_ =? _). Qed.

(** Along a part of the list without freep the search takes a block that fits, or arrives
    at the end of the part. *)
Lemma malloc_walk avail k n h F Y P x Z : ring h F -> (base, 0) :: F = P ++ x :: Y ++ Z ->
  Forall (fun c => c.1 <> h_freep h) Y ->
  (exists Q pr q T, (base, 0) :: F = Q ++ pr :: q :: T /\ n <= q.2 /\
     malloc_loop avail (length Y + k) n x.1 (hd_addr (Y ++ Z) base) h = take n pr.1 q.1 h) \/
  (Forall (fun c => c.2 < n) Y /\
     malloc_loop avail (length Y + k) n x.1 (hd_addr (Y ++ Z) base) h =
     malloc_loop avail k n (List.last Y x).1 (hd_addr Z base) h).
Proof.
  intros R. revert P x. induction Y as [|y Y IH]; intros P x E HY; [right; by split|].
  apply Forall_cons in HY as [Hy HY]. cbn [length Nat.add app hd_addr]. rewrite malloc_loop_S.
  assert (E' : (base, 0) :: F = (P ++ [x]) ++ y :: Y ++ Z) by (by rewrite E, <- app_assoc).
  destruct (ring_ptr _ _ _ _ _ _ R E') as [-> ->].
  destruct (Z.leb_spec n y.2) as [Hn|Hn]; [left; by exists P, x, y, (Y ++ Z)|].
  replace (y.1 =? h_freep h) with false by (symmetry; by apply Z.eqb_neq).
  destruct (IH _ _ E' HY) as [?|[H1 H2]]; [by left|right]. split; [by constructor|].
  by rewrite H2, last_of_cons.
Qed.

Definition grow_and_retry avail k n : K heap Z :=
  let! p' := morecore avail n in
  if p' =? 0 then kret 0 else
  let! next := kget (s_ptr p') in malloc_loop avail k n p' next.

(** At freep the search takes the block or asks for more memory. *)
Lemma malloc_at_freep avail k n h F P x f Z : ring h F -> (base, 0) :: F = P ++ x :: f :: Z ->
  f.1 = h_freep h ->
  (n <= f.2 /\ malloc_loop avail (S k) n x.1 f.1 h = take n x.1 f.1 h) \/
  (f.2 < n /\ malloc_loop avail (S k) n x.1 f.1 h = grow_and_retry avail k n h).
Proof.
  intros R E Hf. rewrite malloc_loop_S.
  assert (E' : (base, 0) :: F = (P ++ [x]) ++ f :: Z) by (by rewrite E, <- app_assoc).
  destruct (ring_ptr _ _ _ _ _ _ R E') as [_ ->]. rewrite Hf, Z.eqb_refl.
  destruct (Z.leb_spec n f.2); [by left|by right].
Qed.

(** Once round the list, a block that fits is taken if there is one. *)
Lemma malloc_round avail k n h F : ring h F -> 1 <= n ->
  (exists Q pr q T, (base, 0) :: F = Q ++ pr :: q :: T /\ n <= q.2 /\
     malloc_loop avail (S (length F) + k) n (h_freep h) (s_ptr (h_freep h) h) h = take n pr.1 q.1 h) \/
  (Forall (fun c => c.2 < n) ((base, 0) :: F) /\ exists k', (k <= k')%nat /\
     malloc_loop avail (S (length F) + k) n (h_freep h) (s_ptr (h_freep h) h) h =
     grow_and_retry avail k' n h).
Proof.
  intros R Hn. destruct (r_freep _ _ _ R) as (f & Hf & Ef). rewrite <- Ef.
  apply list_elem_of_split in Hf as (X & Y & E). destruct (ring_ptr _ _ _ _ _ _ R E) as [-> _].
  pose proof (f_equal length E) as Hlen. rewrite length_app in Hlen. simpl in Hlen.
  pose proof (r_spaced _ _ _ R) as Hs. rewrite E in Hs. apply spaced_split in Hs as [HX HY].
  assert (E0 : (base, 0) :: F = X ++ f :: Y ++ []) by (by rewrite app_nil_r).
  replace (S (length F) + k)%nat with (length Y + S (length X + k))%nat by lia.
  destruct (malloc_walk avail (S (length X + k)) n h F Y X f [] R E0) as [H|[H1 H2]].
  { apply Forall_forall. intros c Hc. specialize (HY c Hc). unfold stop in HY. lia. }
  { left. by rewrite app_nil_r in H. }
  rewrite app_nil_r in H2. rewrite H2. clear H2. cbn [hd_addr]. rewrite malloc_loop_S.
  destruct (ring_ptr base h F [] (base, 0) F R eq_refl) as [Hbp Hbs]. cbn [fst snd] in Hbp, Hbs. rewrite Hbp, Hbs.
  replace (n <=? 0) with false by (symmetry; apply Z.leb_gt; lia).
  destruct X as [|x X]; simpl in E; inversion E as [[E1 E2]].
  - rewrite <- Ef, <- E1. simpl. rewrite Z.eqb_refl. right. split; [constructor; [simpl; lia|done]|].
    exists k. by split.
  - subst x. rewrite <- E2. destruct (HX (base, 0) ltac:(left)) as [Hfb _]. cbn [fst] in Hfb.
    replace (base =? h_freep h) with false by (symmetry; apply Z.eqb_neq; lia).
    replace (length ((base, 0%Z) :: X) + k)%nat with (length X + S k)%nat by (simpl; lia).
    destruct (malloc_walk avail (S k) n h F X [] (base, 0) (f :: Y) R E) as [H|[H2 H3]].
    { apply Forall_forall. intros c Hc. destruct (HX c ltac:(by right)). lia. }
    { left. cbn [fst] in H. rewrite <- E2 in H. exact H. }
    cbn [fst] in H3. rewrite <- E2 in H3. rewrite H3. cbn [hd_addr].
    destruct (exists_last (l := (base, 0) :: X)) as (Q & pr & EQ); [done|].
    assert (El : List.last X (base, 0) = pr).
    { rewrite <- (last_of_cons X (base, 0) pr), EQ. apply last_last. }
    assert (E3 : (base, 0) :: F = Q ++ pr :: f :: Y) by (rewrite E, app_comm_cons, EQ, <- app_assoc; done).
    rewrite El. destruct (malloc_at_freep avail k n h F Q pr f Y R E3 Ef) as [[H4 H5]|[H4 H5]].
    + left. by exists Q, pr, f, Y.
    + right. split; [|by exists k]. rewrite E2. constructor; [simpl; lia|].
      apply Forall_app. split; [done|by constructor].
Qed.

(** ** malloc *)

(** What a call that hands out the block at [r] does: [u] units were added to the heap. *)
Definition served (h h' : heap) (F F' : list blk) (r n u : Z) : Prop :=
  r <> 0 /\ load32 (h_mem h') (r - 8 + 4) = n /\
  (forall z, in_blk z (r - 8, n) \/ in_blks z F' <-> in_blk z (h_brk h, u) \/ in_blks z F) /\
  (forall z, in_blk z (r - 8, n) -> ~ in_blks z F') /\
  (forall x, ~ (base <= x < base + 8) -> ~ in_blk x (h_brk h, u) -> ~ in_blks x F -> h_mem h' x = h_mem h x).

Definition malloc_post (h : heap) (F : list blk) (n : Z) (o : outcome heap Z) : Prop :=
  exists r h' F' u, o = Ret r h' /\ ring h' F' /\ 0 <= u /\ h_brk h' = h_brk h + 8 * u /\
    (r = 0 /\ h' = h /\ F' = F /\ Forall (fun c => c.2 < n) F \/ served h h' F F' r n u).

Lemma take_post h F Q pr q T n : ring h F -> (base, 0) :: F = Q ++ pr :: q :: T -> 1 <= n <= q.2 ->
  malloc_post h F n (take n pr.1 q.1 h).
Proof.
  intros R E Hn. destruct (take_spec h F Q T pr q n R E Hn) as (h' & F' & -> & R' & Hb & Hh & Hby & Hd & Ho).
  destruct (ring_elem base h F q R) as (? & _ & _); [rewrite E; apply elem_of_app; right; right; left|].
  pose proof (r_base _ _ _ R). cbn [fst] in *. eexists _, h', F', 0.
  split; [done|]. split; [done|]. split; [lia|]. split; [lia|]. right.
  unfold served. replace (q.1 + 8 * (q.2 - n) + 8 - 8) with (q.1 + 8 * (q.2 - n)) by lia.
  assert (Hz0 : forall z, ~ in_blk z (h_brk h, 0)) by (intros z; unfold in_blk; simpl; lia).
  split; [lia|]. split; [done|]. split; [|split; [done|intros; by apply Ho]].
  intros z. rewrite <- Hby. specialize (Hz0 z). tauto.
Qed.

Lemma grow_post avail k n h F : ring h F -> 1 <= n -> n * 8 < 2147483648 ->
  Forall (fun c => c.2 < n) ((base, 0) :: F) -> (S (S (length F)) <= k)%nat ->
  malloc_post h F n (grow_and_retry avail k n h).
Proof.
  intros R Hn Hm Hno Hk. unfold grow_and_retry.
  destruct (morecore_spec avail n h F R Hn Hm) as [E|(b & h1 & F1 & Eb & Hb & E & R1 & Hbrk & Hby & Hc & Hl & Ho)];
    rewrite (kbind_ret _ _ _ _ _ E).
  - exists 0, h, F, 0. apply Forall_cons in Hno as [_ Hno]. split_and!; [done|done|lia|lia|]. by left.
  - destruct (r_freep _ _ _ R1) as (f & Hf & Ef). destruct (ring_elem _ _ _ _ R1 Hf) as (Hf1 & _).
    pose proof (r_base _ _ _ R).
    replace (h_freep h1 =? 0) with false by (symmetry; apply Z.eqb_neq; lia). krun.
    replace k with (S (length F1) + (k - S (length F1)))%nat by lia.
    destruct (malloc_round avail (k - S (length F1)) n h1 F1 R1 Hn) as [(Q & pr & q & T & E1 & Hq & ->)|[Hno1 _]].
    2:{ destruct Hc as (c & Hc & Hcn). rewrite Forall_forall in Hno1. specialize (Hno1 c Hc). simpl in *. lia. }
    destruct (take_post h1 F1 Q pr q T n R1 E1) as (r & h' & F' & u & Er & R' & Hu & Hbrk' & H2); [lia|].
    exists r, h', F', (b.2 + u). split; [done|]. split; [done|]. split; [lia|]. split; [lia|]. right.
    destruct H2 as [(? & ? & ? & Hno2)|(H2 & H3 & H4 & H5 & H6)].
    { destruct Hc as (c & Hc & Hcn). apply elem_of_cons in Hc as [->|Hc]; [simpl in *; lia|].
      rewrite Forall_forall in Hno2. specialize (Hno2 c Hc). simpl in *. lia. }
    assert (Hsp : forall z, in_blk z (h_brk h, b.2 + u) <-> in_blk z (h_brk h1, u) \/ in_blk z b).
    { intros z. unfold in_blk. rewrite Hbrk, Eb. simpl. lia. }
    split; [done|]. split; [done|]. split; [|split; [done|]].
    + intros z. rewrite H4, Hby, Hsp. tauto.
    + intros x Hx1 Hx2 Hx3. rewrite Hsp in Hx2. rewrite H6, Ho; try tauto. rewrite Hby. tauto.
Qed.

Lemma malloc_ring avail nb h F : ring h F -> 0 <= nb < 2147483632 ->
  malloc_post h F (units nb) (malloc base avail nb h).
Proof.
  intros R Hnb. destruct (r_freep _ _ _ R) as (f & Hf & Ef). destruct (ring_elem _ _ _ _ R Hf) as (Hf1 & _).
  pose proof (r_base _ _ _ R). pose proof (ring_fuel _ _ _ R) as Hfuel.
  assert (Hn : 1 <= units nb /\ units nb * 8 < 2147483648).
  { unfold units. rewrite u32_small by lia. dlia. }
  unfold malloc. krun. replace (h_freep h =? 0) with false by (symmetry; apply Z.eqb_neq; lia). krun.
  set (k := (2 * list_fuel h + 2 - S (length F))%nat).
  replace (2 * list_fuel h + 2)%nat with (S (length F) + k)%nat by (unfold k; lia).
  destruct (malloc_round avail k (units nb) h F R) as [(Q & pr & q & T & E1 & Hq & ->)|(Hno & k' & Hk & ->)]; [lia|..].
  - eapply take_post; eauto. lia.
  - apply grow_post; try tauto; lia.
Qed.

(** The first call makes the list, which is empty. *)
Lemma malloc_first avail nb h : h_freep h = 0 -> 0 < base -> base + 8 <= h_brk h <= KERNBASE ->
  exists h0, malloc base avail nb h = malloc base avail nb h0 /\ ring h0 [] /\ h_brk h0 = h_brk h /\
    (forall x, ~ (base <= x < base + 8) -> h_mem h0 x = h_mem h x).
Proof.
  intros Hf Hb Hk. unfold KERNBASE in Hk.
  exists (Heap (store32 (store32 (h_mem h) base base) (base + 4) 0) base (h_brk h)).
  split; [|split; [|split; [done|]]].
  - unfold malloc at 1 2. krun. rewrite Hf. cbn [h_freep].
    replace (base =? 0) with false by (symmetry; apply Z.eqb_neq; lia). reflexivity.
  - split; simpl; [done|unfold KERNBASE; lia| | |unfold stop; simpl; lia|constructor].
    + exists (base, 0). split; [left|done].
    + rewrite load32_store32_eq, load32_store32_ne, load32_store32_eq by lia.
      split_and!; [apply u32_small; lia|done|done].
  - intros x Hx. simpl. rewrite !store32_out; done || lia.
Qed.

(** ** Sequences of calls

    [w_alloc] are the blocks the program holds, [w_grant] the memory morecore obtained, and
    [w_other] the bytes of the process that are not the allocator's: its image, its stack,
    and what the program itself obtained from sbrk. *)
Record world := World {
  w_heap : heap; w_alloc : list blk; w_grant : list blk; w_other : Z -> Prop }.

Definition grown (h h' : heap) (G : list blk) : list blk :=
  if h_brk h' =? h_brk h then G else (h_brk h, (h_brk h' - h_brk h) / 8) :: G.

Inductive hstep : world -> world -> Prop :=
| h_malloc avail n p h' w : 0 <= n < 2147483632 -> malloc base avail n (w_heap w) = Ret p h' ->
    hstep w (World h' (if p =? 0 then w_alloc w else (p - 8, units n) :: w_alloc w)
               (grown (w_heap w) h' (w_grant w)) (w_other w))
| h_free b A1 A2 h' w : w_alloc w = A1 ++ b :: A2 -> free (b.1 + 8) (w_heap w) = Ret tt h' ->
    hstep w (World h' (A1 ++ A2) (w_grant w) (w_other w))
| h_write m w :
    (forall z, m z = h_mem (w_heap w) z \/
       (exists b, b ∈ w_alloc w /\ b.1 + 8 <= z < b.1 + 8 * b.2) \/
       (w_other w z /\ ~ (base <= z < base + 8))) ->
    hstep w (World (set_hmem m (w_heap w)) (w_alloc w) (w_grant w) (w_other w))
| h_sbrk avail n a h' w : 0 <= n < 2147483648 -> sbrk avail n (w_heap w) = Ret a h' ->
    hstep w (World h' (w_alloc w) (w_grant w)
               (fun z => w_other w z \/ h_brk (w_heap w) <= z < h_brk h')).

(** A program starts with a heap that was never used. *)
Inductive hreach : world -> Prop :=
| h_start m brk : 0 < base -> base + 8 <= brk <= KERNBASE ->
    hreach (World (Heap m 0 brk) [] [] (fun z => 0 <= z < brk))
| h_next w w' : hreach w -> hstep w w' -> hreach w'.

Record blocks_ok (h : heap) (F A G : list blk) : Prop := {
  b_ring : ring h F;
  b_head : Forall (fun b => load32 (h_mem h) (b.1 + 4) = b.2 /\ 1 <= b.2) A;
  b_pair : ForallOrdPairs disj A;
  b_sep : forall z, in_blks z F -> in_blks z A -> False;
  b_cons : forall z, in_blks z F \/ in_blks z A <-> in_blks z G }.

Record winv (w : world) : Prop := {
  v_base : 0 < base;
  v_brk : base + 8 <= h_brk (w_heap w) <= KERNBASE;
  v_other : forall z, w_other w z -> z < h_brk (w_heap w) /\ ~ in_blks z (w_grant w);
  v_grant : forall z, in_blks z (w_grant w) -> base + 8 <= z < h_brk (w_heap w);
  v_blocks : (h_freep (w_heap w) = 0 /\ w_alloc w = [] /\ w_grant w = []) \/
             exists F, blocks_ok (w_heap w) F (w_alloc w) (w_grant w) }.

Lemma disj_sym a b : disj a b -> disj b a.
Proof. intros H z H1 H2. by apply (H z). Qed.

Lemma pairs_elem A a b : ForallOrdPairs disj A -> a ∈ A -> b ∈ A -> a = b \/ disj a b.
Proof.
  intros H. induction H as [|c l Hc Hl IH]; [by intros ?%elem_of_nil|].
  rewrite Forall_forall in Hc. intros [->|Ha]%elem_of_cons [->|Hb]%elem_of_cons; auto using disj_sym.
Qed.

Lemma pairs_middle A1 b A2 : ForallOrdPairs disj (A1 ++ b :: A2) ->
  ForallOrdPairs disj (A1 ++ A2) /\ Forall (disj b) (A1 ++ A2).
Proof.
  induction A1 as [|a A1 IH]; simpl; intros H; inversion H as [|? ? Ha Hl]; subst; [done|].
  destruct (IH Hl) as [H1 H2]. rewrite Forall_app, Forall_cons in Ha. split.
  - constructor; [rewrite Forall_app; tauto|done].
  - constructor; [apply disj_sym; tauto|done].
Qed.

Lemma in_blks_elem z b l : b ∈ l -> in_blk z b -> in_blks z l.
Proof. intros. apply Exists_exists. eauto. Qed.

Lemma disj_blks b l : (forall z, in_blk z b -> ~ in_blks z l) -> Forall (disj b) l.
Proof. intros H. apply Forall_forall. intros c Hc z H1 H2. by apply (H z H1), (in_blks_elem z c). Qed.

(** Headers of blocks that are held lie outside what the allocator writes. *)
Lemma heads_frame h m A (W : Z -> Prop) : (forall z, ~ W z -> m z = h_mem h z) ->
  (forall b z, b ∈ A -> b.1 <= z < b.1 + 8 -> ~ W z) ->
  Forall (fun b => load32 (h_mem h) (b.1 + 4) = b.2 /\ 1 <= b.2) A ->
  Forall (fun b => load32 m (b.1 + 4) = b.2 /\ 1 <= b.2) A.
Proof.
  intros Hm HW. rewrite !Forall_forall. intros H b Hb. destruct (H b Hb) as [H1 H2].
  split; [|done]. etrans; [|exact H1]. apply load32_ext. intros z Hz. apply Hm. eapply HW; [done|lia].
Qed.

Lemma held_bytes h F A G b z : blocks_ok h F A G -> b ∈ A -> b.1 <= z < b.1 + 8 ->
  in_blks z A /\ in_blks z G /\ ~ in_blks z F.
Proof.
  intros B Hb Hz. assert (in_blks z A).
  { apply (in_blks_elem z b); [done|]. pose proof (b_head _ _ _ _ B) as Hh. rewrite Forall_forall in Hh.
    destruct (Hh b Hb). unfold in_blk. lia. }
  split; [done|]. split; [apply (b_cons _ _ _ _ B); by right|]. intros HF. by apply (b_sep _ _ _ _ B z).
Qed.

(** A block is put back. *)
Lemma free_keeps h F A1 b A2 G : blocks_ok h F (A1 ++ b :: A2) G -> (forall z, in_blks z G -> base + 8 <= z < h_brk h) ->
  exists h' F', free (b.1 + 8) h = Ret tt h' /\ h_brk h' = h_brk h /\ blocks_ok h' F' (A1 ++ A2) G.
Proof.
  intros B HG. assert (Hin : b ∈ A1 ++ b :: A2) by (apply elem_of_app; right; left).
  pose proof (b_head _ _ _ _ B) as Hh. pose proof Hh as Hh'. rewrite Forall_forall in Hh'.
  destruct (Hh' b Hin) as [Hs Hp]. clear Hh'.
  assert (HbA : forall z, in_blk z b -> in_blks z (A1 ++ b :: A2)) by (intros; by eapply in_blks_elem).
  assert (HbG : forall z, in_blk z b -> base + 8 <= z < h_brk h).
  { intros z Hz. apply HG, (b_cons _ _ _ _ B). right. auto. }
  pose proof (HbG b.1 ltac:(unfold in_blk; lia)). pose proof (HbG (b.1 + 8 * b.2 - 1) ltac:(unfold in_blk; lia)).
  destruct (free_spec base h F b (b_ring _ _ _ _ B) Hs Hp) as (h' & F' & E & R' & Hb & Hby & _ & _ & Ho);
    [lia|lia| |].
  { intros z HF Hz. apply (b_sep _ _ _ _ B z HF). auto. }
  destruct (pairs_middle _ _ _ (b_pair _ _ _ _ B)) as [HP1 HP2].
  assert (HA : forall z, in_blks z (A1 ++ b :: A2) <-> in_blk z b \/ in_blks z (A1 ++ A2)).
  { intros z. rewrite !in_blks_app, in_blks_cons. tauto. }
  assert (HbN : forall z, in_blk z b -> ~ in_blks z (A1 ++ A2)).
  { intros z Hz (c & Hc & Hcz)%Exists_exists. rewrite Forall_forall in HP2. by apply (HP2 c Hc z). }
  exists h', F'. split; [done|]. split; [done|]. split; [done| |done| |].
  - apply (heads_frame h _ _ (fun z => base <= z < base + 8 \/ in_blk z b \/ in_blks z F)).
    + intros z Hz. apply Ho; tauto.
    + intros c z Hc Hz. assert (Hc' : c ∈ A1 ++ b :: A2) by (set_solver).
      destruct (held_bytes _ _ _ _ _ _ B Hc' Hz) as (H1 & H2 & H3). pose proof (HG z H2).
      assert (in_blks z (A1 ++ A2)).
      { apply (in_blks_elem z c); [done|]. rewrite Forall_forall in Hh. destruct (Hh c Hc'). unfold in_blk. lia. }
      intros [?|[?|?]]; [lia|by apply (HbN z)|done].
    + rewrite Forall_app, Forall_cons in Hh. rewrite Forall_app. tauto.
  - intros z HF' HA'. apply Hby in HF' as [?|?]; [by apply (HbN z)|]. apply (b_sep _ _ _ _ B z); [done|]. apply HA. by right.
  - intros z. rewrite Hby, <- (b_cons _ _ _ _ B), HA. tauto.
Qed.

(** A block is handed out, or nothing changes. *)
Lemma malloc_keeps avail n h F A G : blocks_ok h F A G -> (forall z, in_blks z G -> base + 8 <= z < h_brk h) ->
  0 <= n < 2147483632 ->
  exists p h' F', malloc base avail n h = Ret p h' /\ h_brk h <= h_brk h' /\
    (forall z, in_blks z (grown h h' G) <-> in_blks z G \/ h_brk h <= z < h_brk h') /\
    blocks_ok h' F' (if p =? 0 then A else (p - 8, units n) :: A) (grown h h' G).
Proof.
  intros B HG Hn. pose proof (b_ring _ _ _ _ B) as R.
  destruct (malloc_ring avail n h F R Hn) as (p & h' & F' & u & E & R' & Hu & Hb & H).
  assert (Hg : forall z, in_blks z (grown h h' G) <-> in_blks z G \/ in_blk z (h_brk h, u)).
  { intros z. unfold grown. rewrite Hb. destruct (Z.eqb_spec (h_brk h + 8 * u) (h_brk h)).
    - unfold in_blk. simpl. intuition lia.
    - replace (h_brk h + 8 * u - h_brk h) with (u * 8) by lia. rewrite Z.div_mul by lia.
      rewrite in_blks_cons. tauto. }
  exists p, h', F'. split; [done|]. split; [lia|]. split.
  { intros z. rewrite Hg, Hb. unfold in_blk. simpl. tauto. }
  destruct H as [(-> & -> & -> & _)|(Hp & Hh & Hby & Hd & Ho)].
  { simpl. unfold grown. by rewrite Z.eqb_refl. }
  replace (p =? 0) with false by (symmetry; by apply Z.eqb_neq).
  assert (HAG : forall z, in_blks z A -> ~ in_blks z F /\ z < h_brk h /\ base + 8 <= z).
  { intros z Hz. split; [intros HF; by apply (b_sep _ _ _ _ B z)|].
    destruct (HG z); [apply (b_cons _ _ _ _ B); by right|lia]. }
  assert (HAz : forall z, in_blks z A -> ~ (in_blk z (h_brk h, u) \/ in_blks z F)).
  { intros z Hz [Hz'|Hz']; [unfold in_blk in Hz'; simpl in Hz'|]; destruct (HAG z Hz); [lia|done]. }
  split; [done| | | |].
  - constructor.
    + simpl. split; [done|]. unfold units. rewrite u32_small by lia. dlia.
    + apply (heads_frame h _ _ (fun z => base <= z < base + 8 \/ in_blk z (h_brk h, u) \/ in_blks z F)).
      * intros z Hz. apply Ho; tauto.
      * intros c z Hc Hz. destruct (held_bytes _ _ _ _ _ _ B Hc Hz) as (H1 & _ & _).
        destruct (HAG z H1). specialize (HAz z H1). intros [?|?]; [lia|done].
      * apply B.
  - constructor; [|apply B]. apply disj_blks. intros z Hz HA. apply (HAz z HA), Hby. by left.
  - intros z HF' [Hz|Hz]%in_blks_cons; [by apply (Hd z)|]. apply (HAz z Hz), Hby. by right.
  - intros z. rewrite Hg, in_blks_cons, <- (b_cons _ _ _ _ B). specialize (Hby z). tauto.
Qed.

Lemma malloc_world avail n w : winv w -> 0 <= n < 2147483632 ->
  exists p h', malloc base avail n (w_heap w) = Ret p h' /\
    winv (World h' (if p =? 0 then w_alloc w else (p - 8, units n) :: w_alloc w)
            (grown (w_heap w) h' (w_grant w)) (w_other w)).
Proof.
  intros V Hn. destruct w as [h A G O]. destruct V as [Hb Hk HO HG HB]. simpl in *.
  assert (exists h0 F, malloc base avail n h = malloc base avail n h0 /\ blocks_ok h0 F A G /\ h_brk h0 = h_brk h)
    as (h0 & F & E & B & Eb).
  { destruct HB as [(Hf & -> & ->)|[F B]]; [|by exists h, F].
    destruct (malloc_first avail n h Hf Hb Hk) as (h0 & E & R & Eb & _). exists h0, [].
    split_and!; [done| |done]. split; [done|constructor|constructor|by intros z ?%Exists_nil|].
    intros z. unfold in_blks. rewrite Exists_nil. tauto. }
  destruct (malloc_keeps avail n h0 F A G B) as (p & h' & F' & Em & Hle & Hg & B'); [by rewrite Eb|done|].
  assert (Egr : grown h h' G = grown h0 h' G) by (unfold grown; by rewrite Eb).
  exists p, h'. split; [by rewrite E|]. rewrite Egr. pose proof (r_brk _ _ _ (b_ring _ _ _ _ B')) as Hk'.
  split; simpl; [done|done| | |right; by exists F'].
  - intros z Hz. destruct (HO z Hz). rewrite Hg, Eb. split; [lia|]. intros [?|?]; [done|lia].
  - intros z. rewrite Hg, Eb. intros [Hz|?]; [specialize (HG z Hz); lia|lia].
Qed.

Lemma free_world w A1 b A2 : winv w -> w_alloc w = A1 ++ b :: A2 ->
  exists h', free (b.1 + 8) (w_heap w) = Ret tt h' /\ winv (World h' (A1 ++ A2) (w_grant w) (w_other w)).
Proof.
  intros V EA. destruct w as [h A G O]. destruct V as [Hb Hk HO HG HB]. simpl in *. subst A.
  destruct HB as [(_ & EA & _)|[F B]]; [by destruct A1|].
  destruct (free_keeps h F A1 b A2 G B HG) as (h' & F' & E & Eb & B'). exists h'. split; [done|].
  split; simpl; rewrite ?Eb; try done. right. by exists F'.
Qed.

Lemma write_world w m : winv w ->
  (forall z, m z = h_mem (w_heap w) z \/ (exists b, b ∈ w_alloc w /\ b.1 + 8 <= z < b.1 + 8 * b.2) \/
     (w_other w z /\ ~ (base <= z < base + 8))) ->
  winv (World (set_hmem m (w_heap w)) (w_alloc w) (w_grant w) (w_other w)).
Proof.
  intros V Hm. destruct w as [h A G O]. destruct V as [Hb Hk HO HG HB]. simpl in *.
  split; simpl; try done. destruct HB as [?|[F B]]; [by left|right]. exists F. destruct h as [m0 fp brk].
  unfold set_hmem. simpl in *.
  assert (HmA : forall z, in_blks z G -> ~ O z) by (intros z Hz Hz'; by apply (HO z Hz')).
  split; try apply B.
  - apply (ring_frame (Heap m0 fp brk)); [apply B|simpl; lia|]. simpl. intros x Hx.
    destruct (Hm x) as [?|[(b & Hbb & Hx')|[Hx1 Hx2]]]; [done|exfalso..].
    + assert (HA : in_blks x A) by (apply (in_blks_elem x b); [done|unfold in_blk; lia]).
      destruct Hx as [Hx|Hx]; [|by apply (b_sep _ _ _ _ B x)].
      destruct (HG x); [apply (b_cons _ _ _ _ B); by right|lia].
    + destruct Hx as [?|Hx]; [done|]. apply (HmA x); [apply (b_cons _ _ _ _ B); by left|done].
  - pose proof (b_head _ _ _ _ B) as Hh. simpl in Hh. rewrite Forall_forall in *.
    intros b Hbb. destruct (Hh b Hbb) as [H1 H2]. split; [|done]. etrans; [|exact H1].
    apply load32_ext. intros z Hz.
    destruct (held_bytes _ _ _ _ b z B Hbb ltac:(lia)) as (_ & HzG & _).
    destruct (Hm z) as [?|[(c & Hc & Hz')|[Hz1 _]]]; [done| |by destruct (HmA z HzG)].
    exfalso.
    destruct (pairs_elem _ b c (b_pair _ _ _ _ B) Hbb Hc) as [<-|Hd]; [lia|].
    apply (Hd z); unfold in_blk; lia.
Qed.

Lemma sbrk_world avail n w a h' : winv w -> 0 <= n < 2147483648 -> sbrk avail n (w_heap w) = Ret a h' ->
  winv (World h' (w_alloc w) (w_grant w) (fun z => w_other w z \/ h_brk (w_heap w) <= z < h_brk h')).
Proof.
  intros V Hn E. destruct w as [h A G O]. destruct V as [Hb Hk HO HG HB]. simpl in *.
  assert (exists brk', h' = set_brk brk' h /\ h_brk h <= brk' <= KERNBASE) as (brk' & -> & Hle).
  { destruct (decide (n = 0)) as [->|Hn0].
    - unfold sbrk in E. krun. simpl in E. exists (h_brk h). destruct h. split; [by inversion E|simpl in *; lia].
    - destruct (sbrk_spec avail n h) as [E'|[E' ?]]; [lia|lia|..]; rewrite E' in E; injection E as _ <-.
      + exists (h_brk h). destruct h. split; [done|simpl in *; lia].
      + exists (h_brk h + n). split; [done|lia]. }
  split; simpl; [done|lia| | |].
  - intros z [Hz|Hz]; [destruct (HO z Hz); split; [lia|done]|]. split; [lia|]. intros HzG. specialize (HG z HzG). lia.
  - intros z Hz. specialize (HG z Hz). lia.
  - destruct HB as [?|[F B]]; [by left|right]. exists F. split; try apply B.
    apply (ring_frame h F (h_mem h) brk'); [apply B|done|done].
Qed.

Lemma hreach_inv w : hreach w -> winv w.
Proof.
  induction 1 as [m brk Hb Hk|w w' _ IH Hs].
  - split; simpl; try done; [|by intros z ?%Exists_nil|by left].
    intros z Hz. split; [lia|]. by intros ?%Exists_nil.
  - destruct Hs as [avail n p h' w Hn E|b A1 A2 h' w EA E|m w Hm|avail n a h' w Hn E].
    + destruct (malloc_world avail n w IH Hn) as (p' & h'' & E' & V). rewrite E' in E. by injection E as -> ->.
    + destruct (free_world w A1 b A2 IH EA) as (h'' & E' & V). rewrite E' in E. by injection E as ->.
    + by apply write_world.
    + by eapply sbrk_world.
Qed.
End Malloc.

(** C11: in every sequence of calls of free and of malloc with requests below 2^31 - 16 bytes
    (for larger ones see [malloc_huge_requests]) of a program, with writes to the memory it
    holds and sbrk calls of its own in between: the blocks held never overlap each other or
    other memory; such a malloc of n bytes always returns, and what it returns is 0 or a block of at
    least n bytes inside the process that overlaps nothing in use; free of a held block
    always returns; and every byte malloc obtained from the kernel is in exactly one block,
    held or on the free list, whose neighbours never touch (nothing leaks and free space is
    joined). *)
Theorem umalloc_blocks base w : hreach base w ->
  ForallOrdPairs disj (w_alloc w) /\
  (forall z, in_blks z (w_alloc w) -> z < h_brk (w_heap w) /\ ~ w_other w z) /\
  (forall avail n, 0 <= n < 2147483632 ->
    exists p h', malloc base avail n (w_heap w) = Ret p h' /\
      (p <> 0 -> n + 8 <= 8 * units n /\ Forall (disj (p - 8, units n)) (w_alloc w) /\
         forall z, in_blk z (p - 8, units n) -> z < h_brk h' /\ ~ w_other w z)) /\
  (forall b, b ∈ w_alloc w -> exists h', free (b.1 + 8) (w_heap w) = Ret tt h') /\
  (h_freep (w_heap w) <> 0 -> exists F,
    chain (h_mem (w_heap w)) ((base, 0) :: F) base /\ spaced (base + 7) F (h_brk (w_heap w)) /\
    forall z, (in_blks z F \/ in_blks z (w_alloc w) <-> in_blks z (w_grant w)) /\
              ~ (in_blks z F /\ in_blks z (w_alloc w))).
Proof.
  intros Hr. pose proof (hreach_inv base w Hr) as V.
  assert (HA : forall w, winv base w -> ForallOrdPairs disj (w_alloc w) /\
    (forall z, in_blks z (w_alloc w) -> z < h_brk (w_heap w) /\ ~ w_other w z)).
  { clear. intros w [_ _ HO HG [(_ & -> & _)|[F B]]].
    - split; [constructor|by intros z ?%Exists_nil].
    - split; [apply B|]. intros z Hz. assert (HzG : in_blks z (w_grant w)) by (apply B; by right).
      split; [by apply HG|]. intros HzO. by apply (HO z HzO). }
  destruct (HA w V) as [H1 H2]. split_and!; [done|done|..].
  - intros avail n Hn. destruct (malloc_world base avail n w V Hn) as (p & h' & E & V').
    exists p, h'. split; [done|]. intros Hp. destruct (HA _ V') as [H3 H4]. simpl in H3, H4.
    replace (p =? 0) with false in * by (symmetry; by apply Z.eqb_neq).
    split; [unfold units; rewrite u32_small by lia; dlia|].
    inversion H3 as [|? ? Hd _]; subst. split; [done|]. intros z Hz. apply H4. by left.
  - intros b (A1 & A2 & EA)%list_elem_of_split.
    destruct (free_world base w A1 b A2 V EA) as (h' & E & _). by exists h'.
  - intros Hf. destruct (v_blocks _ _ V) as [[? _]|[F B]]; [done|]. exists F.
    split; [apply B|]. pose proof (r_spaced _ _ _ (b_ring _ _ _ _ _ B)) as Hs. simpl in Hs.
    split; [eapply spaced_weaken; [| |apply Hs]; unfold stop; simpl; lia|].
    intros z. split; [apply B|]. intros [? ?]. by apply (b_sep _ _ _ _ _ B z).
Qed.

(** A program of 12288 bytes calls malloc(100) and can free the block it gets. *)
Lemma umalloc_blocks_witness : exists w, hreach 2048 w /\ w_alloc w = [(44944, 14)] /\
  exists h', free 44952 (w_heap w) = Ret tt h'.
Proof.
  set (w0 := World (Heap (fun _ => 0) 0 12288) [] [] (fun z => 0 <= z < 12288)).
  set (yes := fun _ _ : Z => true).
  assert (R0 : hreach 2048 w0) by (apply h_start; [lia|unfold KERNBASE; lia]).
  destruct (malloc 2048 yes 100 (w_heap w0)) as [p h'|?|?|] eqn:E;
    try (exfalso; apply (f_equal (fun o => match o with Ret _ _ => true | _ => false end)) in E;
         vm_compute in E; done).
  assert (Ep : p = 44952).
  { apply (f_equal (fun o => match o with Ret p _ => p | _ => 0 end)) in E. vm_compute in E. by subst. }
  subst p. eassert (R1 : hreach 2048 _) by (eapply h_next; [exact R0|eapply h_malloc; [|exact E]; lia]).
  eexists. split; [exact R1|]. split; [reflexivity|].
  apply (proj1 (proj2 (proj2 (proj2 (umalloc_blocks _ _ R1)))) (44944, 14)). left.
Defined.

(** Requests close to 2^32 bytes: the count of units wraps around, so that malloc answers a
    block of one unit, with no usable byte; requests from 2^31 bytes on turn the argument
    of sbrk negative, which does not fail, and malloc answers memory the process does not
    have. *)
Lemma malloc_huge_requests :
  (exists h', malloc 2048 (fun _ _ => true) 4294967292 (Heap (fun _ => 0) 0 12288) = Ret 45056 h' /\
     s_size 45048 h' = 1) /\
  (exists h', malloc 2048 (fun _ _ => true) 2147483648 (Heap (fun _ => 0) 0 12288) = Ret 12296 h' /\
     h_brk h' = 12288).
Proof. split; eexists; (split; [vm_compute; reflexivity|vm_compute; reflexivity]). Qed.
