(* ===== verification/Mkfs.v ===== *)
(** * Building a disk image (mkfs.c)

    The program that writes the initial file system.  The image file is its blocks and its
    length in blocks; blocks never written read as zeros.  Calls of the host system succeed,
    except for reading past the end of the file; a failing assert and exit(1) are the
    outcome [Panic].  A file to copy is its name and the pieces in which read delivers it. *)

From S2P Require Import Prelude Layout Fsdefs Fs.

Definition NINODES : Z := 200.

(** The bytes of a superblock, as memmove copies them. *)
Class MkfsH `{FsH} := { bytes_of_sb : superblock -> list Z }.

Record image := Image { im_blk : Z -> list Z; im_len : Z; im_freeinode : Z; im_freeblock : Z }.

Section Mkfs.
Context `{FH : FsH} {MH : MkfsH}.

Definition nbitmap : Z := FSSIZE / (BSIZE * 8) + 1.
Definition ninodeblocks : Z := NINODES / IPB + 1.
Definition nlog : Z := LOGSIZE.
Definition nmeta : Z := 2 + nlog + ninodeblocks + nbitmap.
Definition nblocks : Z := FSSIZE - nmeta.

(** Convert to Intel byte order, on a little-endian host. *)
Definition xshort (x : Z) : Z := u8 x + 256 * u8 (x / 256).
Definition xint (x : Z) : Z := u8 x + 256 * u8 (x / 256) + 65536 * u8 (x / 65536) + 16777216 * u8 (x / 16777216).

Definition sb : superblock :=
  Superblock (xint FSSIZE) (xint nblocks) (xint NINODES) (xint nlog) (xint 2) (xint (2 + nlog))
    (xint (2 + nlog + ninodeblocks)).

Definition set_im_freeinode (i : Z) (im : image) : image := Image (im_blk im) (im_len im) i (im_freeblock im).
Definition set_im_freeblock (b : Z) (im : image) : image := Image (im_blk im) (im_len im) (im_freeinode im) b.

Definition wsect (sec : Z) (buf : list Z) : K image unit :=
  kmodify (fun im => Image (fun y => if y =? sec then buf else im_blk im y) (Z.max (im_len im) (sec + 1))
                       (im_freeinode im) (im_freeblock im)).

Definition rsect (sec : Z) : K image (list Z) :=
  let! len := kget im_len in
  if sec <? len then kget (fun im => im_blk im sec) else kpanic "read".

Definition winode (inum : Z) (d : dinode) : K image unit :=
  let bn := IBLOCK inum sb in
  let! buf := rsect bn in
  wsect bn (put_dinode (inum mod IPB) d buf).

Definition rinode (inum : Z) : K image dinode :=
  let! buf := rsect (IBLOCK inum sb) in
  kret (dinode_at buf (inum mod IPB)).

Definition ialloc (type : Z) : K image Z :=
  let! inum := kget im_freeinode in
  kmodify (set_im_freeinode (u32 (inum + 1))) ;;
  winode inum (Dinode (xshort type) 0 0 (xshort 1) (xint 0) (replicate (Z.to_nat (NDIRECT + 1)) 0)) ;;
  kret inum.

Fixpoint mark_first (n : nat) (i : Z) (buf : list Z) : list Z :=
  match n with
  | O => buf
  | S n => mark_first n (i + 1) (mark_bit i buf)
  end.

Definition balloc (used : Z) : K image unit :=
  if negb (used <? BSIZE * 8) then kpanic "assert" else
  wsect (sb_bmapstart sb) (mark_first (Z.to_nat used) 0 zeros).

(** freeblock++ *)
Definition next_block : K image Z :=
  let! b := kget im_freeblock in
  kmodify (set_im_freeblock (u32 (b + 1))) ;;
  kret b.

Definition set_addr (k : Z) (a : Z) (d : dinode) : dinode :=
  Dinode (di_type d) (di_major d) (di_minor d) (di_nlink d) (di_size d) (<[Z.to_nat k := a]> (di_addrs d)).
Definition set_size (n : Z) (d : dinode) : dinode :=
  Dinode (di_type d) (di_major d) (di_minor d) (di_nlink d) n (di_addrs d).
Definition addr (k : Z) (d : dinode) : Z := nth (Z.to_nat k) (di_addrs d) 0.

(** Give the inode an address in slot [k] if it has none there. *)
Definition need_addr (k : Z) (din : dinode) : K image dinode :=
  if xint (addr k din) =? 0 then
    let! b := next_block in
    kret (set_addr k (xint b) din)
  else kret din.

(** The block of the file that holds block [fbn], allocated if it is not there. *)
Definition iappend_block (din : dinode) (fbn : Z) : K image (dinode * Z) :=
  if fbn <? NDIRECT then
    let! din := need_addr fbn din in
    kret (din, xint (addr fbn din))
  else
    let! din := need_addr NDIRECT din in
    let! indirect := rsect (xint (addr NDIRECT din)) in
    let o := (4 * Z.to_nat (fbn - NDIRECT))%nat in
    let! indirect :=
      (if ld32 indirect o =? 0 then
         let! b := next_block in
         let indirect := st32 indirect o (xint b) in
         wsect (xint (addr NDIRECT din)) indirect ;;
         kret indirect
       else kret indirect) in
    kret (din, xint (ld32 indirect o)).

(** Every turn writes at least one byte. *)
Fixpoint iappend_loop (fuel : nat) (din : dinode) (off : Z) (p : list Z) : K image (dinode * Z) :=
  match p with
  | [] => kret (din, off)
  | _ =>
    match fuel with
    | O => knofuel
    | S fuel =>
      let fbn := off / BSIZE in
      if negb (fbn <? MAXFILE) then kpanic "assert" else
      let! r := iappend_block din fbn in
      let n1 := Z.min (Z.of_nat (length p)) ((fbn + 1) * BSIZE - off) in
      let! buf := rsect r.2 in
      wsect r.2 (splice (Z.to_nat (off - fbn * BSIZE)) (take (Z.to_nat n1) p) buf) ;;
      iappend_loop fuel r.1 (off + n1) (drop (Z.to_nat n1) p)
    end
  end.

Definition iappend (inum : Z) (p : list Z) : K image unit :=
  let! din := rinode inum in
  let! r := iappend_loop (length p) din (xint (di_size din)) p in
  winode inum (set_size (xint r.2) r.1).

Fixpoint zero_blocks (n : nat) (i : Z) : K image unit :=
  match n with
  | O => kret tt
  | S n => wsect i zeros ;; zero_blocks n (i + 1)
  end.

Fixpoint iappend_all (inum : Z) (pieces : list (list Z)) : K image unit :=
  match pieces with
  | [] => kret tt
  | p :: pieces => iappend inum p ;; iappend_all inum pieces
  end.

(** A C string put into a name field that was cleared. *)
Definition name_field (s : list Z) : list Z := s ++ replicate (Z.to_nat DIRSIZ - length s) 0.
Definition add_entry (rootino inum : Z) (name : list Z) : K image unit :=
  iappend rootino (bytes_of_dirent (Dirent (xshort inum) name)).

(** The name without the underscore the build puts in front of it. *)
Definition file_name (arg : list Z) : list Z :=
  match arg with c :: r => if c =? 95 then r else arg | [] => [] end.

Fixpoint add_files (rootino : Z) (files : list (list Z * list (list Z))) : K image unit :=
  match files with
  | [] => kret tt
  | (arg, pieces) :: files =>
    if existsb (fun c => c =? 47) arg then kpanic "assert" else
    let! inum := ialloc T_FILE in
    add_entry rootino inum (strncpy_arr (Z.to_nat DIRSIZ) (file_name arg)) ;;
    iappend_all inum pieces ;;
    add_files rootino files
  end.

Definition mkfs (files : list (list Z * list (list Z))) : K image unit :=
  kmodify (set_im_freeblock nmeta) ;;
  zero_blocks (Z.to_nat FSSIZE) 0 ;;
  wsect 1 (take (Z.to_nat BSIZE) (bytes_of_sb sb ++ zeros)) ;;
  let! rootino := ialloc T_DIR in
  if negb (rootino =? ROOTINO) then kpanic "assert" else
  add_entry rootino rootino (name_field [46]) ;;
  add_entry rootino rootino (name_field [46; 46]) ;;
  add_files rootino files ;;
  let! din := rinode rootino in
  let off := u32 ((xint (di_size din) / BSIZE + 1) * BSIZE) in
  winode rootino (set_size (xint off) din) ;;
  let! used := kget im_freeblock in
  balloc used.

(** The image file is opened empty; freeinode starts at 1. *)
Definition blank : image := Image (fun _ => zeros) 0 1 0.
End Mkfs.
