(* ===== verification/MkfsProps.v ===== *)
(** * The image mkfs writes (mkfs.c)

    The inodes of the image, which blocks they own, and what their files contain; every
    routine of mkfs.c in these terms. *)

From S2P Require Import Prelude Layout Fsdefs Fs FsAlloc Mkfs.

(** What is documented of the layout and used by mkfs.c. *)
Class MkfsLaws `{FL : FsLaws} {MH : MkfsH} : Prop := {
  sb_bytes_law : sb_of_bytes (take (Z.to_nat BSIZE) (bytes_of_sb sb ++ zeros)) = sb;
  meta_fits : nmeta < FSSIZE;
  bitmap_fits : FSSIZE < BSIZE * 8;
  rootino_def : ROOTINO = 1;
  dirsiz_two : 2 <= DIRSIZ }.

Section Image.
Context `{FH : FsH} {FL : FsLaws} {MH : MkfsH} {ML : MkfsLaws}.
Implicit Types (blk : Z -> list Z) (D : Z -> dinode) (C : Z -> list Z) (Pr : Z -> Z -> Prop).

Lemma xint_u32 x : xint x = u32 x.
Proof. unfold xint. dlia. Qed.
Lemma xint_id x : is_uint x -> xint x = x.
Proof. intros. rewrite xint_u32. by apply u32_small. Qed.
Lemma xshort_id x : 0 <= x < 65536 -> xshort x = x.
Proof. intros. unfold xshort. dlia. Qed.

(** The blocks of an inode: slot [k] is that of block [k] of the file, and slot MAXFILE the
    indirect block itself. *)
Definition slot blk (d : dinode) (k : Z) : Z :=
  if k =? MAXFILE then addr NDIRECT d else
  if k <? NDIRECT then addr k d else
  if addr NDIRECT d =? 0 then 0 else ld32 (blk (addr NDIRECT d)) (4 * Z.to_nat (k - NDIRECT)).

Definition upd {A} (f : Z -> A) (i : Z) (x : A) : Z -> A := fun j => if decide (j = i) then x else f j.
Lemma upd_eq {A} (f : Z -> A) i x : upd f i x i = x.
Proof. unfold upd. by rewrite decide_True. Qed.
Lemma upd_ne {A} (f : Z -> A) i x j : j <> i -> upd f i x j = f j.
Proof. intros. unfold upd. by rewrite decide_False. Qed.

(** Inodes 1 to [fi - 1] with dinodes [D] have the contents [C]; [Pr i k] says which slots
    are in use.  Blocks from [fb] on are free and zero; those in use belong to one slot. *)
Record data_ok blk (fb fi : Z) D C Pr : Prop := {
  d_len : forall y, length (blk y) = Z.to_nat BSIZE;
  d_fb : nmeta <= fb;
  d_fresh : forall y, fb <= y -> blk y = zeros;
  d_wf : forall i, 1 <= i < fi -> length (di_addrs (D i)) = Z.to_nat (NDIRECT + 1);
  d_slot : forall i k, 1 <= i < fi -> 0 <= k <= MAXFILE -> Pr i k -> nmeta <= slot blk (D i) k < fb;
  d_none : forall i k, 1 <= i < fi -> 0 <= k <= MAXFILE -> ~ Pr i k -> slot blk (D i) k = 0;
  d_dec : forall i k, 1 <= i < fi -> 0 <= k <= MAXFILE -> Pr i k \/ ~ Pr i k;
  d_inj : forall i j k l, 1 <= i < fi -> 1 <= j < fi -> 0 <= k <= MAXFILE -> 0 <= l <= MAXFILE ->
    Pr i k -> Pr j l -> slot blk (D i) k = slot blk (D j) l -> i = j /\ k = l;
  d_bytes : forall i o, 1 <= i < fi -> 0 <= o -> o / BSIZE < MAXFILE -> Pr i (o / BSIZE) ->
    nth (Z.to_nat (o mod BSIZE)) (blk (slot blk (D i) (o / BSIZE))) 0 = nth (Z.to_nat o) (C i) 0 }.

Lemma nmeta_pos : 0 < nmeta.
Proof.
  pose proof bsize_pos. pose proof ipb_pos. unfold nmeta, nlog, LOGSIZE, MAXOPBLOCKS, ninodeblocks, nbitmap, NINODES, FSSIZE.
  assert (0 <= 200 / IPB) by (apply Z.div_pos; lia). assert (0 <= 1000 / (BSIZE * 8)) by (apply Z.div_pos; lia). lia.
Qed.

Lemma maxfile_gt : NDIRECT < MAXFILE.
Proof. rewrite maxfile_def, nindirect_def. pose proof bsize_pos. pose proof bsize_words. dlia. Qed.

Lemma nth_zeros n : nth n zeros 0 = 0.
Proof. apply nth_replicate_same. Qed.

(** The indirect block of an inode is none of the blocks that hold data. *)
Lemma slot_not_ind blk fb fi D C Pr i j k : data_ok blk fb fi D C Pr -> 1 <= i < fi -> 1 <= j < fi ->
  0 <= k < MAXFILE -> Pr i k -> slot blk (D i) k <> addr NDIRECT (D j).
Proof.
  intros H Hi Hj Hk Hp E. pose proof maxfile_gt. pose proof ndirect_pos. pose proof nmeta_pos.
  assert (Es : slot blk (D j) MAXFILE = addr NDIRECT (D j)) by (unfold slot; by rewrite Z.eqb_refl).
  pose proof (d_slot _ _ _ _ _ _ H i k Hi ltac:(lia) Hp).
  destruct (d_dec _ _ _ _ _ _ H j (@MAXFILE FH) Hj ltac:(lia)) as [Hm|Hm].
  - destruct (d_inj _ _ _ _ _ _ H i j k (@MAXFILE FH) Hi Hj ltac:(lia) ltac:(lia) Hp Hm); [congruence|lia].
  - pose proof (d_none _ _ _ _ _ _ H j (@MAXFILE FH) Hj ltac:(lia) Hm). lia.
Qed.

(** Slots only look at the indirect block. *)
Lemma slot_frame blk blk' d k : (addr NDIRECT d <> 0 -> blk' (addr NDIRECT d) = blk (addr NDIRECT d)) ->
  slot blk' d k = slot blk d k.
Proof.
  intros H. unfold slot. destruct (_ =? MAXFILE), (k <? NDIRECT); try done.
  destruct (Z.eqb_spec (addr NDIRECT d) 0) as [E|E]; [done|]. by rewrite H.
Qed.

(** A slot that was empty gets the first free block. *)
Lemma data_claim blk blk' fb fi D d' C Pr i k :
  data_ok blk fb fi D C Pr -> 1 <= i < fi -> 0 <= k <= MAXFILE -> ~ Pr i k ->
  length (di_addrs d') = Z.to_nat (NDIRECT + 1) ->
  (forall l, 0 <= l <= MAXFILE -> slot blk' d' l = if decide (l = k) then fb else slot blk (D i) l) ->
  (forall y, y <> addr NDIRECT d' -> blk' y = blk y) -> length (blk' (addr NDIRECT d')) = Z.to_nat BSIZE ->
  blk' fb = zeros -> (k < MAXFILE -> Z.of_nat (length (C i)) <= k * BSIZE) ->
  data_ok blk' (fb + 1) fi (upd D i d') C (fun j l => Pr j l \/ (j = i /\ l = k)).
Proof.
  intros H Hi Hk Hn Hl Hsl Hb Hbl Hfb HC. pose proof maxfile_gt. pose proof ndirect_pos. pose proof nmeta_pos. pose proof bsize_pos.
  pose proof (d_fb _ _ _ _ _ _ H) as Hfbm.
  assert (Ed : addr NDIRECT d' = if decide (MAXFILE = k) then fb else addr NDIRECT (D i)).
  { specialize (Hsl (@MAXFILE FH) ltac:(lia)). unfold slot in Hsl. by rewrite Z.eqb_refl in Hsl. }
  assert (Hind : forall j, 1 <= j < fi -> addr NDIRECT (D j) < fb).
  { intros j Hj. assert (Es : slot blk (D j) MAXFILE = addr NDIRECT (D j)) by (unfold slot; by rewrite Z.eqb_refl).
    destruct (d_dec _ _ _ _ _ _ H j (@MAXFILE FH) Hj ltac:(lia)) as [Hm|Hm].
    - pose proof (d_slot _ _ _ _ _ _ H j (@MAXFILE FH) Hj ltac:(lia) Hm). lia.
    - pose proof (d_none _ _ _ _ _ _ H j (@MAXFILE FH) Hj ltac:(lia) Hm). lia. }
  assert (Hso : forall j l, 1 <= j < fi -> 0 <= l <= MAXFILE ->
    slot blk' (upd D i d' j) l = if decide (j = i /\ l = k) then fb else slot blk (D j) l).
  { intros j l Hj Hlr. destruct (decide (j = i)) as [->|Hji].
    - rewrite upd_eq, Hsl by done. destruct (decide (l = k)); [by rewrite decide_True|by rewrite decide_False by naive_solver].
    - rewrite upd_ne, decide_False by naive_solver. apply slot_frame. intros Hz. apply Hb. rewrite Ed.
      destruct (decide (MAXFILE = k)); [specialize (Hind j Hj); lia|]. intros E. apply Hji.
      assert (Es : forall j, slot blk (D j) MAXFILE = addr NDIRECT (D j)) by (intros; unfold slot; by rewrite Z.eqb_refl).
      assert (Hpm : forall j, 1 <= j < fi -> addr NDIRECT (D j) <> 0 -> Pr j MAXFILE).
      { intros j' Hj' Hz'. destruct (d_dec _ _ _ _ _ _ H j' (@MAXFILE FH) Hj' ltac:(lia)) as [?|Hm]; [done|].
        pose proof (d_none _ _ _ _ _ _ H j' (@MAXFILE FH) Hj' ltac:(lia) Hm). congruence. }
      apply (d_inj _ _ _ _ _ _ H j i (@MAXFILE FH) (@MAXFILE FH)); try lia; [by apply Hpm|apply Hpm; congruence|congruence]. }
  split.
  - intros y. destruct (decide (y = addr NDIRECT d')) as [->|?]; [done|]. rewrite Hb by done. apply H.
  - lia.
  - intros y Hy. rewrite Hb; [apply H; lia|]. rewrite Ed. destruct (decide (MAXFILE = k)); [lia|]. specialize (Hind i Hi). lia.
  - intros j Hj. destruct (decide (j = i)) as [->|?]; [by rewrite upd_eq|rewrite upd_ne by done; by apply H].
  - intros j l Hj Hlr Hp. rewrite Hso by done. destruct (decide (j = i /\ l = k)) as [_|Hd]; [lia|].
    pose proof (d_slot _ _ _ _ _ _ H j l Hj Hlr ltac:(tauto)). lia.
  - intros j l Hj Hlr Hp. rewrite Hso by done. rewrite decide_False by tauto. apply H; tauto.
  - intros j l Hj Hlr. destruct (d_dec _ _ _ _ _ _ H j l Hj Hlr), (decide (j = i /\ l = k)); tauto.
  - intros j1 j2 l1 l2 Hj1 Hj2 Hl1 Hl2 Hp1 Hp2. rewrite !Hso by done.
    destruct (decide (j1 = i /\ l1 = k)) as [[-> ->]|Hd1], (decide (j2 = i /\ l2 = k)) as [[-> ->]|Hd2]; [done|..].
    + pose proof (d_slot _ _ _ _ _ _ H j2 l2 Hj2 Hl2 ltac:(tauto)). lia.
    + pose proof (d_slot _ _ _ _ _ _ H j1 l1 Hj1 Hl1 ltac:(tauto)). lia.
    + apply H; tauto.
  - intros j o Hj Ho Hom Hp. assert (Hq : 0 <= o / BSIZE) by (apply Z.div_pos; lia). rewrite Hso by lia.
    destruct (decide (j = i /\ o / BSIZE = k)) as [[-> Ek]|Hd].
    + rewrite Hfb, nth_zeros, nth_overflow; [done|]. rewrite Ek in Hom. specialize (HC Hom).
      assert (k * BSIZE <= o) by (rewrite <- Ek, Z.mul_comm; apply Z.mul_div_le; lia). lia.
    + rewrite Hb; [apply H; tauto|]. rewrite Ed. destruct (decide (MAXFILE = k)).
      * pose proof (d_slot _ _ _ _ _ _ H j (o / @BSIZE FH) Hj ltac:(lia) ltac:(tauto)). lia.
      * apply (slot_not_ind blk fb fi D C Pr); try done; try lia; tauto.
Qed.

(** Writing a block of a file changes the bytes of that file there, and nothing else. *)
Lemma data_write blk blk' fb fi D C Pr i k (data c : list Z) :
  data_ok blk fb fi D C Pr -> 1 <= i < fi -> 0 <= k < MAXFILE -> Pr i k ->
  length data = Z.to_nat BSIZE ->
  (forall y, blk' y = if y =? slot blk (D i) k then data else blk y) ->
  (forall o, 0 <= o -> o / BSIZE = k -> nth (Z.to_nat (o mod BSIZE)) data 0 = nth (Z.to_nat o) c 0) ->
  (forall o, 0 <= o -> o / BSIZE <> k -> nth (Z.to_nat o) c 0 = nth (Z.to_nat o) (C i) 0) ->
  data_ok blk' fb fi D (upd C i c) Pr.
Proof.
  intros H Hi Hk Hp Hl Hb H1 H2. pose proof maxfile_gt. pose proof ndirect_pos. pose proof bsize_pos.
  pose proof (d_slot _ _ _ _ _ _ H i k Hi ltac:(lia) Hp) as Hs.
  assert (Hso : forall j l, 1 <= j < fi -> slot blk' (D j) l = slot blk (D j) l).
  { intros j l Hj. apply slot_frame. intros Hz. rewrite Hb.
    destruct (Z.eqb_spec (addr NDIRECT (D j)) (slot blk (D i) k)) as [E|E]; [|done].
    symmetry in E. destruct (slot_not_ind _ _ _ _ _ _ i j k H Hi Hj Hk Hp E). }
  split; try apply H.
  - intros y. rewrite Hb. destruct (_ =? _); [done|apply H].
  - intros y Hy. rewrite Hb. replace (y =? _) with false by (symmetry; apply Z.eqb_neq; lia). by apply H.
  - intros j l Hj Hl' Hp'. rewrite Hso by done. by apply H.
  - intros j l Hj Hl' Hp'. rewrite Hso by done. by apply H.
  - intros j1 j2 l1 l2 Hj1 Hj2 Hl1 Hl2 Hp1 Hp2. rewrite !Hso by done. by apply H.
  - intros j o Hj Ho Hom Hp'. rewrite Hso by done. assert (Hq : 0 <= o / BSIZE) by (apply Z.div_pos; lia).
    rewrite Hb. destruct (decide (j = i)) as [->|Hji].
    + rewrite upd_eq. destruct (decide (o / BSIZE = k)) as [E|E].
      * rewrite E, Z.eqb_refl. by apply H1.
      * rewrite H2 by done. replace (_ =? _) with false; [by apply H|]. symmetry. apply Z.eqb_neq. intros E'.
        destruct (d_inj _ _ _ _ _ _ H i i (o / @BSIZE FH) k Hi Hi ltac:(lia) ltac:(lia) Hp' Hp E'). done.
    + rewrite upd_ne by done. replace (_ =? _) with false; [by apply H|]. symmetry. apply Z.eqb_neq. intros E'.
      destruct (d_inj _ _ _ _ _ _ H j i (o / @BSIZE FH) k Hj Hi ltac:(lia) ltac:(lia) Hp' Hp E'). done.
Qed.

(** The blocks before nmeta hold no data, and only the addresses of a dinode matter. *)
Lemma data_ext blk blk' fb fi D D' C C' Pr Pr' :
  data_ok blk fb fi D C Pr -> (forall y, nmeta <= y -> blk' y = blk y) ->
  (forall y, length (blk' y) = Z.to_nat BSIZE) -> (forall i, 1 <= i < fi -> di_addrs (D' i) = di_addrs (D i)) ->
  (forall i k, 1 <= i < fi -> 0 <= k <= MAXFILE -> Pr' i k <-> Pr i k) -> (forall i, 1 <= i < fi -> C' i = C i) ->
  data_ok blk' fb fi D' C' Pr'.
Proof.
  intros H Hb Hl Ha HP HC. pose proof maxfile_gt. pose proof ndirect_pos. pose proof bsize_pos.
  assert (Hso : forall j l, 1 <= j < fi -> slot blk' (D' j) l = slot blk (D j) l).
  { intros j l Hj. assert (E : forall k, addr k (D' j) = addr k (D j)) by (intros; unfold addr; by rewrite Ha by done).
    transitivity (slot blk' (D j) l); [unfold slot; by rewrite !E|]. apply slot_frame. intros Hz. apply Hb.
    assert (Es : slot blk (D j) MAXFILE = addr NDIRECT (D j)) by (unfold slot; by rewrite Z.eqb_refl).
    destruct (d_dec _ _ _ _ _ _ H j (@MAXFILE FH) Hj ltac:(lia)) as [Hm|Hm].
    - pose proof (d_slot _ _ _ _ _ _ H j (@MAXFILE FH) Hj ltac:(lia) Hm). lia.
    - pose proof (d_none _ _ _ _ _ _ H j (@MAXFILE FH) Hj ltac:(lia) Hm). lia. }
  pose proof (d_fb _ _ _ _ _ _ H). split; try done.
  - intros y Hy. rewrite Hb by lia. by apply H.
  - intros i Hi. rewrite Ha by done. by apply H.
  - intros i k Hi Hk Hp. rewrite Hso by done. by apply H, HP.
  - intros i k Hi Hk Hp. rewrite Hso by done. apply H; try done. by rewrite <- HP.
  - intros i k Hi Hk. rewrite HP by done. by apply H.
  - intros i j k l Hi Hj Hk Hl' Hp1 Hp2. rewrite !Hso by done. apply H; try done; by apply HP.
  - intros i o Hi Ho Hom Hp. rewrite Hso, HC by done. assert (Hq : 0 <= o / BSIZE) by (apply Z.div_pos; lia).
    assert (Hp' : Pr i (o / BSIZE)) by (apply HP; [done|lia|done]). rewrite Hb; [by apply H|].
    apply (d_slot _ _ _ _ _ _ H i); [done|lia|done].
Qed.

(** A new inode owns nothing. *)
Lemma data_new blk fb fi D C Pr : data_ok blk fb fi D C Pr -> 1 <= fi ->
  (forall k, 0 <= k <= MAXFILE -> slot blk (D fi) k = 0) -> length (di_addrs (D fi)) = Z.to_nat (NDIRECT + 1) ->
  (forall k, 0 <= k <= MAXFILE -> ~ Pr fi k) -> data_ok blk fb (fi + 1) D C Pr.
Proof.
  intros H Hfi Hz Hl Hn. pose proof bsize_pos.
  assert (Hc : forall i, 1 <= i < fi + 1 -> i = fi \/ 1 <= i < fi) by lia.
  split; try apply H.
  - intros i Hi. destruct (Hc i Hi) as [->|?]; [done|]. by apply H.
  - intros i k Hi Hk Hp. destruct (Hc i Hi) as [->|?]; [by destruct (Hn k)|]. by apply H.
  - intros i k Hi Hk Hp. destruct (Hc i Hi) as [->|?]; [by apply Hz|]. by apply H.
  - intros i k Hi Hk. destruct (Hc i Hi) as [->|?]; [right; by apply Hn|]. by apply H.
  - intros i j k l Hi Hj Hk Hl' Hp1 Hp2. destruct (Hc i Hi) as [->|?]; [by destruct (Hn k)|].
    destruct (Hc j Hj) as [->|?]; [by destruct (Hn l)|]. by apply H.
  - intros i o Hi Ho Hom Hp. assert (Hq : 0 <= o / BSIZE) by (apply Z.div_pos; lia).
    destruct (Hc i Hi) as [->|?]; [destruct (Hn (o / BSIZE)); [lia|done]|]. by apply H.
Qed.

(** ** Allocating blocks *)

Record img_ok (im : image) D C Pr : Prop := {
  g_data : data_ok (im_blk im) (im_freeblock im) (im_freeinode im) D C Pr;
  g_len : FSSIZE <= im_len im;
  g_fb : im_freeblock im <= FSSIZE }.

(** The dinodes differ in their addresses only. *)
Definition same_meta (d d' : dinode) : Prop :=
  di_type d' = di_type d /\ di_major d' = di_major d /\ di_minor d' = di_minor d /\
  di_nlink d' = di_nlink d /\ di_size d' = di_size d.

(** The number of the slot that address [k] of a dinode fills. *)
Definition dslot (k : Z) : Z := if k =? NDIRECT then MAXFILE else k.

Lemma dslot_range k : 0 <= k <= NDIRECT -> 0 <= dslot k <= MAXFILE.
Proof. pose proof maxfile_gt. unfold dslot. destruct (Z.eqb_spec k NDIRECT); lia. Qed.

Lemma slot_dslot blk d k : 0 <= k <= NDIRECT -> slot blk d (dslot k) = addr k d.
Proof.
  intros Hk. pose proof maxfile_gt. unfold slot, dslot. destruct (Z.eqb_spec k NDIRECT) as [->|]; [by rewrite Z.eqb_refl|].
  replace (k =? MAXFILE) with false by (symmetry; apply Z.eqb_neq; lia).
  by replace (k <? NDIRECT) with true by (symmetry; apply Z.ltb_lt; lia).
Qed.

Lemma slot_uint im D C Pr i k : img_ok im D C Pr -> 1 <= i < im_freeinode im -> 0 <= k <= MAXFILE ->
  is_uint (slot (im_blk im) (D i) k).
Proof.
  intros [H _ Hf] Hi Hk. pose proof nmeta_pos. unfold is_uint, FSSIZE in *.
  destruct (d_dec _ _ _ _ _ _ H i k Hi Hk) as [Hp|Hp].
  - pose proof (d_slot _ _ _ _ _ _ H i k Hi Hk Hp). lia.
  - rewrite (d_none _ _ _ _ _ _ H i k Hi Hk Hp). lia.
Qed.

Lemma addr_set_eq k a d : 0 <= k <= NDIRECT -> length (di_addrs d) = Z.to_nat (NDIRECT + 1) -> addr k (set_addr k a d) = a.
Proof. intros Hk Hl. unfold addr, set_addr. simpl. apply nth_insert_eq. lia. Qed.
Lemma addr_set_ne k j a d : 0 <= k -> 0 <= j -> j <> k -> addr j (set_addr k a d) = addr j d.
Proof. intros Hk Hj Hn. unfold addr, set_addr. simpl. apply nth_insert_ne. lia. Qed.

Lemma ld32_fresh o : ld32 zeros o = 0.
Proof. unfold ld32. by rewrite !nth_zeros. Qed.

(** The slots after an address was set; a fresh indirect block has no entries. *)
Lemma slot_set_addr blk d k a l : 0 <= k <= NDIRECT -> length (di_addrs d) = Z.to_nat (NDIRECT + 1) -> 0 <= l <= MAXFILE ->
  (k = NDIRECT -> addr NDIRECT d = 0 /\ blk a = zeros) ->
  slot blk (set_addr k a d) l = if decide (l = dslot k) then a else slot blk d l.
Proof.
  intros Hk Hl Hlr Hi. pose proof maxfile_gt. pose proof ndirect_pos.
  destruct (decide (l = dslot k)) as [->|Hn]; [rewrite slot_dslot by done; by apply addr_set_eq|].
  unfold slot, dslot in *. destruct (Z.eqb_spec k NDIRECT) as [->|Hkn].
  - destruct (Hi eq_refl) as [-> Hb]. rewrite addr_set_eq by done. cbn [Z.eqb].
    replace (l =? MAXFILE) with false by (symmetry; by apply Z.eqb_neq).
    destruct (Z.ltb_spec l NDIRECT); [apply addr_set_ne; lia|].
    rewrite Hb, ld32_fresh. by destruct (_ =? _).
  - rewrite (addr_set_ne k NDIRECT) by lia. destruct (l =? MAXFILE); [done|].
    destruct (Z.ltb_spec l NDIRECT); [apply addr_set_ne; lia|done].
Qed.

Lemma next_block_spec im : is_uint (im_freeblock im + 1) ->
  next_block im = Ret (im_freeblock im) (set_im_freeblock (im_freeblock im + 1) im).
Proof. intros H. unfold next_block. krun. by rewrite u32_small. Qed.

Lemma need_addr_spec im D C Pr i k : img_ok im D C Pr -> 1 <= i < im_freeinode im -> 0 <= k <= NDIRECT ->
  (~ Pr i (dslot k) -> im_freeblock im < FSSIZE /\ (k < NDIRECT -> Z.of_nat (length (C i)) <= k * BSIZE)) ->
  exists d' n, need_addr k (D i) im = Ret d' (set_im_freeblock (im_freeblock im + n) im) /\
    (Pr i (dslot k) /\ n = 0 /\ d' = D i \/ ~ Pr i (dslot k) /\ n = 1) /\
    img_ok (set_im_freeblock (im_freeblock im + n) im) (upd D i d') C (fun j l => Pr j l \/ (j = i /\ l = dslot k)) /\
    same_meta (D i) d'.
Proof.
  intros G Hi Hk Hn. pose proof (dslot_range k Hk) as Hds. pose proof G as [H Hlen Hfb].
  pose proof (slot_uint _ _ _ _ i (dslot k) G Hi Hds) as Hu.
  rewrite slot_dslot in Hu by done. unfold need_addr. rewrite xint_id by done.
  pose proof nmeta_pos. pose proof (d_fb _ _ _ _ _ _ H). pose proof maxfile_gt.
  destruct (d_dec _ _ _ _ _ _ H i (dslot k) Hi Hds) as [Hp|Hp].
  - pose proof (d_slot _ _ _ _ _ _ H i _ Hi Hds Hp) as Hs. rewrite slot_dslot in Hs by done.
    replace (addr k (D i) =? 0) with false by (symmetry; apply Z.eqb_neq; lia).
    exists (D i), 0. rewrite Z.add_0_r. split; [by destruct im|]. split; [left; done|]. split; [|done].
    split; [|done|done]. eapply data_ext; try exact H; try done; [apply H| | ].
    + intros j. unfold upd. destruct (decide (j = i)) as [->|]; done.
    + intros j l Hj Hl. split; [|tauto]. intros [?|[-> ->]]; done.
  - pose proof (d_none _ _ _ _ _ _ H i _ Hi Hds Hp) as Hs. rewrite slot_dslot in Hs by done. rewrite Hs, Z.eqb_refl.
    destruct (Hn Hp) as [Hroom HC]. unfold FSSIZE in *.
    rewrite (kbind_ret _ _ _ _ _ (next_block_spec im ltac:(unfold is_uint; lia))), xint_id by (unfold is_uint; lia).
    exists (set_addr k (im_freeblock im) (D i)), 1. split; [done|]. split; [right; done|]. split; [|done].
    pose proof (d_wf _ _ _ _ _ _ H i Hi) as Hw.
    split; [|done|simpl; unfold FSSIZE; lia]. simpl. eapply (data_claim (im_blk im)); try done.
    + simpl. by rewrite length_insert.
    + intros l Hl. apply slot_set_addr; try done. intros ->. split; [done|]. apply H. lia.
    + apply H.
    + apply H. lia.
    + unfold dslot. destruct (Z.eqb_spec k NDIRECT); [lia|]. intros _. apply HC. lia.
Qed.

Lemma rsect_spec im y : y < im_len im -> rsect y im = Ret (im_blk im y) im.
Proof. intros H. unfold rsect. krun. by replace (y <? im_len im) with true by (symmetry; by apply Z.ltb_lt). Qed.

(** The image with other contents in block [y]. *)
Definition with_block (y : Z) (d : list Z) (im : image) : image :=
  Image (fun z => if z =? y then d else im_blk im z) (im_len im) (im_freeinode im) (im_freeblock im).

Lemma wsect_spec im y d : y < im_len im -> wsect y d im = Ret tt (with_block y d im).
Proof. intros H. unfold wsect, kmodify, with_block. by rewrite Z.max_l by lia. Qed.

(** The part of iappend that goes through the indirect block. *)
Definition indirect_part (din : dinode) (fbn : Z) : K image (dinode * Z) :=
  let! indirect := rsect (xint (addr NDIRECT din)) in
  let o := (4 * Z.to_nat (fbn - NDIRECT))%nat in
  let! indirect :=
    (if ld32 indirect o =? 0 then
       let! b := next_block in
       let indirect := st32 indirect o (xint b) in
       wsect (xint (addr NDIRECT din)) indirect ;;
       kret indirect
     else kret indirect) in
  kret (din, xint (ld32 indirect o)).

Lemma slot_entry blk d k : NDIRECT <= k < MAXFILE -> addr NDIRECT d <> 0 ->
  slot blk d k = ld32 (blk (addr NDIRECT d)) (4 * Z.to_nat (k - NDIRECT)).
Proof.
  intros Hk Ha. unfold slot. replace (k =? MAXFILE) with false by (symmetry; apply Z.eqb_neq; lia).
  replace (k <? NDIRECT) with false by (symmetry; apply Z.ltb_ge; lia).
  by replace (addr NDIRECT d =? 0) with false by (symmetry; by apply Z.eqb_neq).
Qed.

Lemma entry_room k : NDIRECT <= k < MAXFILE -> (4 * Z.to_nat (k - NDIRECT) + 4 <= Z.to_nat BSIZE)%nat.
Proof. rewrite maxfile_def, nindirect_def. pose proof bsize_pos. dlia. Qed.

(** The slots after an entry of the indirect block was set. *)
Lemma slot_set_entry blk d k v l : NDIRECT <= k < MAXFILE -> 0 <= l <= MAXFILE -> addr NDIRECT d <> 0 -> is_uint v ->
  length (blk (addr NDIRECT d)) = Z.to_nat BSIZE ->
  slot (fun y => if y =? addr NDIRECT d then st32 (blk (addr NDIRECT d)) (4 * Z.to_nat (k - NDIRECT)) v else blk y) d l =
  if decide (l = k) then v else slot blk d l.
Proof.
  intros Hk Hl Ha Hv Hlen. pose proof ndirect_pos.
  destruct (decide (NDIRECT <= l < MAXFILE)) as [Hlr|Hlr].
  - rewrite !slot_entry by done. rewrite Z.eqb_refl. destruct (decide (l = k)) as [->|Hn].
    + rewrite ld32_st32_eq by (rewrite Hlen; by apply entry_room). by apply u32_small.
    + apply ld32_st32_ne. lia.
  - rewrite decide_False by lia. unfold slot. destruct (Z.eqb_spec l MAXFILE); [done|].
    by replace (l <? NDIRECT) with true by (symmetry; apply Z.ltb_lt; lia).
Qed.

Lemma indirect_part_spec im D C Pr i k : img_ok im D C Pr -> 1 <= i < im_freeinode im -> NDIRECT <= k < MAXFILE ->
  Pr i MAXFILE -> (~ Pr i k -> im_freeblock im < FSSIZE /\ Z.of_nat (length (C i)) <= k * BSIZE) ->
  exists im' n, indirect_part (D i) k im = Ret (D i, slot (im_blk im') (D i) k) im' /\
    (Pr i k /\ n = 0 \/ ~ Pr i k /\ n = 1) /\ im_freeblock im' = im_freeblock im + n /\
    img_ok im' D C (fun j l => Pr j l \/ (j = i /\ l = k)) /\ im_freeinode im' = im_freeinode im /\
    (forall y, y < nmeta -> im_blk im' y = im_blk im y).
Proof.
  intros G Hi Hk Hm Hn. pose proof G as [H Hlen Hfb]. pose proof nmeta_pos. pose proof ndirect_pos.
  pose proof (slot_uint _ _ _ _ i k G Hi ltac:(lia)) as Hu.
  pose proof (d_slot _ _ _ _ _ _ H i (@MAXFILE FH) Hi ltac:(lia) Hm) as Hs.
  unfold slot in Hs at 1 2. rewrite Z.eqb_refl in Hs.
  assert (Ha : addr NDIRECT (D i) <> 0) by lia. unfold FSSIZE in *.
  pose proof (slot_entry (im_blk im) (D i) k Hk Ha) as Hse.
  unfold indirect_part. rewrite xint_id by (unfold is_uint; lia).
  rewrite (kbind_ret _ _ _ _ _ (rsect_spec im (addr (@NDIRECT FH) (D i)) ltac:(lia))). rewrite <- Hse.
  destruct (d_dec _ _ _ _ _ _ H i k Hi ltac:(lia)) as [Hp|Hp].
  - pose proof (d_slot _ _ _ _ _ _ H i k Hi ltac:(lia) Hp).
    replace (slot (im_blk im) (D i) k =? 0) with false by (symmetry; apply Z.eqb_neq; lia). krun.
    rewrite <- Hse, xint_id by done. exists im, 0. split; [done|]. split; [by left|]. split; [lia|].
    split; [|done]. split; [|done|done]. eapply data_ext; try exact H; try done; [apply H|].
    intros j l Hj Hl. split; [|tauto]. intros [?|[-> ->]]; done.
  - rewrite (d_none _ _ _ _ _ _ H i k Hi ltac:(lia) Hp). cbn [Z.eqb]. destruct (Hn Hp) as [Hroom HC]. rewrite kbind_assoc.
    rewrite (kbind_ret _ _ _ _ _ (next_block_spec im ltac:(unfold is_uint; lia))).
    pose proof (d_fb _ _ _ _ _ _ H). rewrite xint_id by (unfold is_uint; lia). rewrite kbind_assoc.
    rewrite (kbind_ret _ _ _ _ _ (wsect_spec (set_im_freeblock (im_freeblock im + 1) im) (addr (@NDIRECT FH) (D i)) _ ltac:(simpl; lia))). krun.
    rewrite ld32_st32_eq by (rewrite (d_len _ _ _ _ _ _ H); by apply entry_room).
    rewrite xint_u32, u32_u32, (u32_small (im_freeblock im)) by lia.
    pose proof (slot_set_entry (im_blk im) (D i) k (im_freeblock im)) as Hss.
    eexists (with_block _ _ _), 1. split; [unfold kret; do 2 f_equal; cbn [im_blk with_block set_im_freeblock]|].
    { rewrite Hss; [by rewrite decide_True|done|lia|done|unfold is_uint; lia|apply H]. }
    split; [by right|]. split; [done|]. split; [|split; [done|]].
    + split; [|simpl; unfold FSSIZE; lia|simpl; unfold FSSIZE; lia].
      eapply (data_ext _ _ _ _ (upd D i (D i))); [eapply (data_claim (im_blk im) (im_blk (with_block _ _ _)) _ _ D (D i) C Pr i k); try done| | | | |]; try done.
      * lia.
      * by apply H.
      * intros l Hl. cbn [im_blk with_block set_im_freeblock]. apply Hss; try done; [unfold is_uint; lia|apply H].
      * intros y Hy. cbn [im_blk with_block set_im_freeblock]. by replace (y =? _) with false by (symmetry; by apply Z.eqb_neq).
      * cbn [im_blk with_block set_im_freeblock]. rewrite Z.eqb_refl, length_st32. apply H.
      * cbn [im_blk with_block set_im_freeblock]. replace (_ =? _) with false by (symmetry; apply Z.eqb_neq; lia). apply H. lia.
      * intros y. simpl. destruct (_ =? _); [rewrite length_st32|]; apply H.
      * intros j. unfold upd. destruct (decide (j = i)) as [->|]; done.
    + intros y Hy. simpl. by replace (y =? _) with false by (symmetry; apply Z.eqb_neq; lia).
Qed.

(** ** Appending to a file *)

(** The blocks a file of [len] bytes takes, its indirect block included. *)
Definition need (len : Z) : Z := (len + BSIZE - 1) / BSIZE + (if NDIRECT * BSIZE <? len then 1 else 0).

(** The slots in use when every file has exactly the blocks its length needs. *)
Definition slots_of C (i k : Z) : Prop :=
  if k =? MAXFILE then NDIRECT * BSIZE < Z.of_nat (length (C i)) else k * BSIZE < Z.of_nat (length (C i)).

Lemma slots_of_lt C i k : k < MAXFILE -> slots_of C i k <-> k * BSIZE < Z.of_nat (length (C i)).
Proof. intros H. unfold slots_of. by replace (k =? MAXFILE) with false by (symmetry; apply Z.eqb_neq; lia). Qed.
Lemma slots_of_ind C i : slots_of C i MAXFILE <-> NDIRECT * BSIZE < Z.of_nat (length (C i)).
Proof. unfold slots_of. by rewrite Z.eqb_refl. Qed.

Lemma div_step q r : 0 <= r < BSIZE ->
  (BSIZE * q + r + 1 + BSIZE - 1) / BSIZE = q + 1 /\
  (BSIZE * q + r + BSIZE - 1) / BSIZE = if r =? 0 then q else q + 1.
Proof.
  intros Hr. split; [symmetry; apply (Z.div_unique _ _ _ r); [by left|ring]|].
  destruct (Z.eqb_spec r 0) as [->|Hn]; symmetry.
  - apply (Z.div_unique _ _ _ (BSIZE - 1)); [lia|ring].
  - apply (Z.div_unique _ _ _ (r - 1)); [lia|ring].
Qed.

Lemma need_succ off : 0 <= off ->
  need (off + 1) = need off + (if off mod BSIZE =? 0 then 1 + (if off =? NDIRECT * BSIZE then 1 else 0) else 0).
Proof.
  intros Ho. pose proof bsize_pos. pose proof (Z.div_mod off (@BSIZE FH) ltac:(lia)) as E.
  pose proof (Z.mod_pos_bound off (@BSIZE FH) ltac:(lia)) as Hr. destruct (div_step (off / BSIZE) (off mod BSIZE) Hr) as [E1 E2].
  rewrite <- E in E1, E2. unfold need. rewrite E1, E2.
  destruct (Z.eqb_spec (off mod BSIZE) 0) as [Hz|Hz].
  - destruct (Z.ltb_spec (NDIRECT * BSIZE) (off + 1)), (Z.ltb_spec (NDIRECT * BSIZE) off), (Z.eqb_spec off (NDIRECT * BSIZE)); lia.
  - assert (off <> NDIRECT * BSIZE) by (intros ->; rewrite Z.mod_mul in Hz; lia).
    destruct (Z.ltb_spec (NDIRECT * BSIZE) (off + 1)), (Z.ltb_spec (NDIRECT * BSIZE) off); lia.
Qed.

(** The two comparisons that decide whether a block is there. *)
Lemma block_at off : 0 <= off -> off / BSIZE * BSIZE <= off /\ (off / BSIZE * BSIZE < off <-> off mod BSIZE <> 0) /\
  off < (off / BSIZE + 1) * BSIZE.
Proof.
  intros Ho. pose proof bsize_pos. pose proof (Z.div_mod off (@BSIZE FH) ltac:(lia)).
  pose proof (Z.mod_pos_bound off (@BSIZE FH) ltac:(lia)). rewrite (Z.mul_comm _ BSIZE). lia.
Qed.

Definition claimed C (i fbn : Z) (j l : Z) : Prop :=
  slots_of C j l \/ (j = i /\ (l = fbn \/ (l = MAXFILE /\ NDIRECT <= fbn))).

Lemma img_ok_slots im D D' C Pr Pr' : img_ok im D C Pr -> (forall i, 1 <= i < im_freeinode im -> di_addrs (D' i) = di_addrs (D i)) ->
  (forall i k, 1 <= i < im_freeinode im -> 0 <= k <= MAXFILE -> Pr' i k <-> Pr i k) -> img_ok im D' C Pr'.
Proof. intros [H ? ?] Ha HP. split; try done. eapply data_ext; try exact H; try done. apply H. Qed.

Lemma iappend_block_spec im D C i : img_ok im D C (slots_of C) -> 1 <= i < im_freeinode im ->
  let off := Z.of_nat (length (C i)) in let fbn := off / BSIZE in
  fbn < MAXFILE -> im_freeblock im + need (off + 1) - need off <= FSSIZE ->
  exists d' im', iappend_block (D i) fbn im = Ret (d', slot (im_blk im') d' fbn) im' /\
    img_ok im' (upd D i d') C (claimed C i fbn) /\ same_meta (D i) d' /\
    im_freeblock im' = im_freeblock im + need (off + 1) - need off /\ im_freeinode im' = im_freeinode im /\
    (forall y, y < nmeta -> im_blk im' y = im_blk im y).
Proof.
  intros G Hi off fbn Hf Hroom. assert (Ho : 0 <= off) by lia. pose proof bsize_pos. pose proof ndirect_pos. pose proof maxfile_gt.
  assert (Hf0 : 0 <= fbn) by (apply Z.div_pos; lia).
  destruct (block_at off Ho) as (Hb1 & Hb2 & Hb3). fold fbn in Hb1, Hb2, Hb3.
  pose proof (need_succ off Ho) as Hns. pose proof (slots_of_lt C i fbn Hf) as Hsl. fold off in Hsl.
  pose proof (slots_of_ind C i) as Hsi. fold off in Hsi.
  unfold iappend_block. destruct (Z.ltb_spec fbn NDIRECT) as [Hd|Hd].
  - assert (Eds : dslot fbn = fbn) by (unfold dslot; by replace (fbn =? NDIRECT) with false by (symmetry; apply Z.eqb_neq; lia)).
    assert (Hne : off <> NDIRECT * BSIZE) by nia.
    destruct (need_addr_spec im D C (slots_of C) i fbn G Hi) as (d' & n & E & Hcase & G' & Hm); [lia|..].
    { rewrite Eds, Hsl. intros Hn. destruct (Z.eqb_spec (off mod BSIZE) 0); [|tauto].
      replace (off =? NDIRECT * BSIZE) with false in Hns by (symmetry; by apply Z.eqb_neq). fold off. split; lia. }
    rewrite Eds in *. rewrite (kbind_ret _ _ _ _ _ E).
    pose proof (slot_uint _ _ _ _ i fbn G' Hi ltac:(lia)) as Hu. rewrite upd_eq in Hu.
    pose proof (slot_dslot (im_blk (set_im_freeblock (im_freeblock im + n) im)) d' fbn ltac:(lia)) as Esd. rewrite Eds in Esd.
    rewrite <- Esd, xint_id by done. eexists d', _. split; [done|]. split; [|split; [done|split; [|done]]].
    + eapply img_ok_slots; [exact G'|done|]. intros j l Hj Hl. unfold claimed. split; [|tauto]. intros [?|[-> [->|?]]]; tauto || lia.
    + simpl. rewrite Hns. destruct (Z.eqb_spec (off mod BSIZE) 0) as [Hz|Hz].
      * replace (off =? NDIRECT * BSIZE) with false by (symmetry; by apply Z.eqb_neq). destruct Hcase as [[Hc _]|[_ ->]]; [|lia].
        apply Hsl in Hc. tauto.
      * destruct Hcase as [[_ [-> _]]|[Hc _]]; [lia|]. destruct Hc. apply Hsl. tauto.
  - change (kbind (need_addr NDIRECT (D i)) _) with
      (let! din := need_addr NDIRECT (D i) in indirect_part din fbn).
    assert (Eds : dslot NDIRECT = MAXFILE) by (unfold dslot; by rewrite Z.eqb_refl).
    assert (Hge : NDIRECT * BSIZE <= off) by nia.
    assert (Hmodnd : (NDIRECT * BSIZE) mod BSIZE = 0) by (apply Z.mod_mul; lia).
    destruct (need_addr_spec im D C (slots_of C) i NDIRECT G Hi) as (d' & n & E & Hcase & G' & Hm); [lia|..].
    { rewrite Eds, Hsi. intros Hn. assert (Eo : off = NDIRECT * BSIZE) by lia. rewrite Eo, Hmodnd, !Z.eqb_refl in Hns.
      rewrite Eo in Hroom. cbn [Z.eqb] in Hns. split; lia. }
    rewrite Eds in *. rewrite (kbind_ret _ _ _ _ _ E).
    destruct (indirect_part_spec _ _ _ _ i fbn G' Hi ltac:(lia)) as (im' & n' & E' & Hcase' & Hfb' & G'' & Hfi & Hlow); [by right|..].
    { intros Hn. assert (Hn' : ~ slots_of C i fbn) by tauto. rewrite Hsl in Hn'. fold off.
      assert (Hz : off mod BSIZE = 0) by (destruct (decide (off mod BSIZE = 0)); tauto). rewrite Hz in Hns. cbn [Z.eqb] in Hns.
      split; [|lia]. simpl. destruct Hcase as [[_ [-> _]]|[Hc ->]]; [destruct (off =? NDIRECT * BSIZE); lia|].
      rewrite Hsi in Hc. replace (off =? NDIRECT * BSIZE) with true in Hns by (symmetry; apply Z.eqb_eq; lia). lia. }
    rewrite upd_eq in E'. rewrite E'. eexists d', im'. split; [done|]. split; [|split; [done|split; [|split; [done|done]]]].
    + eapply img_ok_slots; [exact G''|done|]. intros j l Hj Hl. unfold claimed. tauto.
    + rewrite Hfb', Hns. simpl. rewrite Hsi in Hcase. unfold claimed in Hcase'. rewrite Hsl, Hb2 in Hcase'.
      destruct (Z.eqb_spec (off mod BSIZE) 0) as [Hz|Hz], (Z.eqb_spec off (NDIRECT * BSIZE)) as [He|He];
        destruct Hcase' as [[Hc' ->]|[Hc' ->]], Hcase as [[Hc [-> _]]|[Hc ->]]; try lia; exfalso;
        try (destruct Hc' as [?|[_ ?]]; [done|lia]); try (apply Hc'; left; done);
        try (apply Hz; rewrite He; exact Hmodnd).
Qed.

Lemma need_block q l : 0 <= q -> q * BSIZE < l <= (q + 1) * BSIZE -> need l = q + 1 + (if NDIRECT <=? q then 1 else 0).
Proof.
  intros Hq Hl. pose proof bsize_pos. unfold need.
  assert (E : (l + BSIZE - 1) / BSIZE = q + 1) by (symmetry; apply (Z.div_unique _ _ _ (l - 1 - q * BSIZE)); lia).
  rewrite E. f_equal. destruct (Z.leb_spec NDIRECT q), (Z.ltb_spec (NDIRECT * BSIZE) l); try done; exfalso; nia.
Qed.

Lemma need_mono l l' : 0 <= l <= l' -> need l <= need l'.
Proof.
  intros H. pose proof bsize_pos. unfold need. assert ((l + BSIZE - 1) / BSIZE <= (l' + BSIZE - 1) / BSIZE) by (apply Z.div_le_mono; lia).
  destruct (Z.ltb_spec (NDIRECT * BSIZE) l), (Z.ltb_spec (NDIRECT * BSIZE) l'); lia.
Qed.

Lemma img_ok_ext im D D' C C' Pr Pr' : img_ok im D C Pr -> (forall i, 1 <= i < im_freeinode im -> di_addrs (D' i) = di_addrs (D i)) ->
  (forall i, 1 <= i < im_freeinode im -> C' i = C i) ->
  (forall i k, 1 <= i < im_freeinode im -> 0 <= k <= MAXFILE -> Pr' i k <-> Pr i k) -> img_ok im D' C' Pr'.
Proof. intros [H ? ?] Ha HC HP. split; try done. eapply data_ext; try exact H; try done. apply H. Qed.

(** The bytes of a block after a piece was copied into it. *)
Lemma nth_splice o (src d : list Z) j : (o + length src <= length d)%nat ->
  nth j (splice o src d) 0 = if decide (o <= j < o + length src)%nat then nth (j - o) src 0 else nth j d 0.
Proof.
  intros Hl. unfold splice. assert (Hto : length (take o d) = o) by (rewrite length_take; lia).
  destruct (decide (j < o)%nat).
  - rewrite decide_False, app_nth1 by lia. rewrite !nth_lookup, lookup_take_lt by lia. done.
  - rewrite app_nth2, Hto by lia. destruct (decide (j < o + length src)%nat).
    + rewrite decide_True, app_nth1 by lia. done.
    + rewrite decide_False, app_nth2 by lia. rewrite !nth_lookup, lookup_drop. do 2 f_equal. lia.
Qed.

Lemma splice_length_fits o (src d : list Z) : (o + length src <= length d)%nat -> length (splice o src d) = length d.
Proof. intros H. unfold splice. rewrite !length_app, length_take, length_drop. lia. Qed.

(** One piece of a block is written. *)
Lemma iappend_piece im D C i (q : list Z) : img_ok im D C (claimed C i (Z.of_nat (length (C i)) / BSIZE)) ->
  1 <= i < im_freeinode im -> let off := Z.of_nat (length (C i)) in let fbn := off / BSIZE in
  fbn < MAXFILE -> 0 < Z.of_nat (length q) -> off + Z.of_nat (length q) <= (fbn + 1) * BSIZE ->
  let x := slot (im_blk im) (D i) fbn in
  x < im_len im /\ nmeta <= x /\
  img_ok (with_block x (splice (Z.to_nat (off - fbn * BSIZE)) q (im_blk im x)) im) D (upd C i (C i ++ q)) (slots_of (upd C i (C i ++ q))).
Proof.
  intros G Hi off fbn Hf Hq Hfit x. pose proof G as [H Hlen Hfb]. pose proof bsize_pos. pose proof ndirect_pos. pose proof maxfile_gt.
  assert (Ho : 0 <= off) by lia. assert (Hf0 : 0 <= fbn) by (apply Z.div_pos; lia).
  destruct (block_at off Ho) as (Hb1 & Hb2 & Hb3). fold fbn in Hb1, Hb2, Hb3.
  assert (Hp : claimed C i fbn i fbn) by (right; tauto).
  pose proof (d_slot _ _ _ _ _ _ H i fbn Hi ltac:(lia) Hp) as Hs. fold x in Hs.
  split; [lia|]. split; [lia|]. pose proof (d_len _ _ _ _ _ _ H x) as Hlx.
  assert (Hroom : (Z.to_nat (off - fbn * BSIZE) + length q <= length (im_blk im x))%nat) by (rewrite Hlx; lia).
  apply (img_ok_ext (with_block x (splice (Z.to_nat (off - fbn * BSIZE)) q (im_blk im x)) im) D D (upd C i (C i ++ q)) _ (claimed C i fbn)); try done.
  - split; [|done|done]. apply (data_write (im_blk im) _ _ _ D C (claimed C i fbn) i fbn (splice (Z.to_nat (off - fbn * BSIZE)) q (im_blk im x))); try done; [by rewrite splice_length_fits|..].
    + intros o Ho' Eo. rewrite nth_splice by done.
      assert (Ed : o = BSIZE * fbn + o mod BSIZE) by (rewrite <- Eo; apply Z.div_mod; lia).
      pose proof (Z.mod_pos_bound o (@BSIZE FH) ltac:(lia)).
      destruct (decide _) as [Hd|Hd].
      * rewrite app_nth2 by lia. f_equal. lia.
      * assert (Hold : nth (Z.to_nat (o mod BSIZE)) (im_blk im x) 0 = nth (Z.to_nat o) (C i) 0).
        { unfold x. rewrite <- Eo. apply H; try done; rewrite Eo; done. }
        rewrite Hold. destruct (decide (o < off)); [rewrite app_nth1 by lia; done|].
        rewrite !nth_overflow; [done|rewrite length_app; lia|lia].
    + intros o Ho' Eo. destruct (decide (o < off)); [rewrite app_nth1 by lia; done|].
      assert (~ o < (fbn + 1) * BSIZE).
      { intros Hlt. apply Eo. symmetry. apply (Z.div_unique _ _ _ (o - fbn * BSIZE)); lia. }
      rewrite !nth_overflow; [done|lia|rewrite length_app; lia].
  - intros j l Hj Hl. unfold claimed, slots_of, upd. cbn [im_freeinode with_block] in Hj.
    destruct (decide (j = i)) as [->|Hji]; [|tauto]. rewrite length_app, Nat2Z.inj_add. fold off.
    destruct (Z.eqb_spec l MAXFILE) as [->|Hlm].
    + split; [|intros [?|[_ [?|[_ ?]]]]; [lia|lia|nia]]. intros Hlt. destruct (decide (NDIRECT * BSIZE < off)); [by left|right].
      split; [done|right; split; [done|nia]].
    + split; [|intros [?|[_ [->|[? _]]]]; lia]. intros Hlt. destruct (decide (l * BSIZE < off)); [by left|right].
      split; [done|left]. assert (~ fbn < l) by nia. assert (~ l < fbn) by nia. lia.
Qed.

Lemma same_meta_trans d1 d2 d3 : same_meta d1 d2 -> same_meta d2 d3 -> same_meta d1 d3.
Proof. unfold same_meta. intuition congruence. Qed.

Lemma iappend_loop_spec i fuel : forall p im D C, (length p <= fuel)%nat ->
  img_ok im D C (slots_of C) -> 1 <= i < im_freeinode im ->
  let off := Z.of_nat (length (C i)) in let off' := off + Z.of_nat (length p) in
  off' <= MAXFILE * BSIZE -> im_freeblock im + need off' - need off <= FSSIZE ->
  exists d' im', iappend_loop fuel (D i) off p im = Ret (d', off') im' /\
    img_ok im' (upd D i d') (upd C i (C i ++ p)) (slots_of (upd C i (C i ++ p))) /\ same_meta (D i) d' /\
    im_freeblock im' = im_freeblock im + need off' - need off /\ im_freeinode im' = im_freeinode im /\
    (forall y, y < nmeta -> im_blk im' y = im_blk im y).
Proof.
  induction fuel as [|fuel IH]; intros [|c p] im D C Hfuel G Hi off off' Hmax Hroom; try (simpl in Hfuel; lia).
  1,2: exists (D i), im; unfold off'; simpl; rewrite Z.add_0_r; split; [done|]; split; [|split; [done|split; [lia|done]]];
    rewrite app_nil_r; apply (img_ok_ext im D _ C _ (slots_of C)); try done;
    [intros j; unfold upd; destruct (decide (j = i)) as [->|]; done
    |intros j _; unfold upd; destruct (decide (j = i)) as [->|]; done
    |intros j k _ _; unfold slots_of, upd; destruct (decide (j = i)) as [->|]; done].
  pose proof bsize_pos. assert (Ho : 0 <= off) by lia. set (fbn := off / BSIZE).
  assert (Hf0 : 0 <= fbn) by (apply Z.div_pos; lia). destruct (block_at off Ho) as (Hb1 & Hb2 & Hb3). fold fbn in Hb1, Hb2, Hb3.
  set (pp := c :: p) in *. assert (Hpp : 0 < Z.of_nat (length pp)) by (simpl; lia).
  assert (Hf : fbn < MAXFILE) by nia.
  set (n1 := Z.min (Z.of_nat (length pp)) ((fbn + 1) * BSIZE - off)).
  assert (Hn1 : 1 <= n1 <= Z.of_nat (length pp) /\ off + n1 <= (fbn + 1) * BSIZE) by lia.
  assert (Hnb : need (off + n1) = need (off + 1)) by (rewrite !(need_block fbn) by lia; done).
  assert (Hm1 : need (off + 1) <= need off') by (apply need_mono; lia).
  destruct (iappend_block_spec im D C i G Hi Hf) as (d1 & im1 & E1 & G1 & M1 & F1 & I1 & L1); [fold off; lia|].
  fold off in E1, G1, F1. fold fbn in E1, G1.
  assert (Ht : length (take (Z.to_nat n1) pp) = Z.to_nat n1) by (rewrite length_take; lia).
  destruct (iappend_piece im1 (upd D i d1) C i (take (Z.to_nat n1) pp) G1) as (Hx1 & Hx2 & G2);
    [by rewrite I1|done|lia|fold off fbn; lia|]. fold off fbn in Hx1, Hx2, G2. rewrite upd_eq in Hx1, Hx2, G2.
  cbn [iappend_loop]. fold pp. change (c :: p) with pp. fold fbn.
  replace (fbn <? MAXFILE) with true by (symmetry; apply Z.ltb_lt; lia). cbn [negb].
  unfold pp at 1. cbv iota. rewrite (kbind_ret _ _ _ _ _ E1). cbn [fst snd]. rewrite (kbind_ret _ _ _ _ _ (rsect_spec im1 _ Hx1)).
  fold n1. rewrite (kbind_ret _ _ _ _ _ (wsect_spec im1 _ _ Hx1)).
  set (im2 := with_block _ _ im1) in *. set (C2 := upd C i (C i ++ take (Z.to_nat n1) pp)) in *.
  assert (Hl2 : Z.of_nat (length (C2 i)) = off + n1) by (unfold C2; rewrite upd_eq, length_app, Ht; lia).
  assert (Hld : Z.of_nat (length (drop (Z.to_nat n1) pp)) = Z.of_nat (length pp) - n1) by (rewrite length_drop; lia).
  specialize (IH (drop (Z.to_nat n1) pp) im2 (upd D i d1) C2). cbv zeta in IH. rewrite upd_eq, Hl2, Hld in IH.
  replace (off + n1 + (Z.of_nat (length pp) - n1)) with off' in IH by lia.
  destruct IH as (d' & im' & E & G' & M' & F' & I' & L'); [rewrite length_drop; simpl in *; lia|done|simpl; rewrite I1; lia|done|simpl; lia|].
  exists d', im'. rewrite E. split; [done|]. split; [|split; [by eapply same_meta_trans|split; [simpl in F'; lia|split; [by rewrite I'|]]]].
  - assert (EC : forall j, upd C2 i (C2 i ++ drop (Z.to_nat n1) pp) j = upd C i (C i ++ pp) j).
    { intros j. unfold C2, upd. destruct (decide (j = i)) as [->|]; [|done]. rewrite decide_True by done.
      by rewrite <- app_assoc, take_drop. }
    eapply img_ok_ext; [exact G'|..].
    + intros j. unfold upd. by destruct (decide (j = i)).
    + intros j _. by rewrite EC.
    + intros j k _ _. unfold slots_of. by rewrite EC.
  - intros y Hy. rewrite L' by done. simpl. replace (y =? _) with false by (symmetry; apply Z.eqb_neq; lia). by apply L1.
Qed.
End Image.
