(* ===== verification/MkfsImage.v ===== *)
(** * The inodes and files of the image (mkfs.c)

    ialloc, iappend and the main program over the whole image: the inodes stored in the
    inode blocks agree with what was appended to their files. *)

From S2P Require Import Prelude Layout Fsdefs Fs FsAlloc Mkfs MkfsProps.

Section Inodes.
Context `{FH : FsH} {FL : FsLaws} {MH : MkfsH} {ML : MkfsLaws}.
Implicit Types (D : Z -> dinode) (C : Z -> list Z) (Ty : Z -> Z).

(** ** Where things are *)

Definition istart : Z := 2 + nlog.
Definition bstart : Z := 2 + nlog + ninodeblocks.

Lemma layout_facts : 1 < istart /\ istart < bstart /\ bstart < nmeta /\ nmeta < FSSIZE /\ bstart = istart + NINODES / IPB + 1.
Proof.
  pose proof bsize_pos. pose proof ipb_pos. pose proof meta_fits.
  assert (0 <= NINODES / IPB) by (apply Z.div_pos; [unfold NINODES; lia|lia]).
  assert (0 <= FSSIZE / (BSIZE * 8)) by (apply Z.div_pos; unfold FSSIZE; lia).
  unfold bstart, istart, nmeta, nbitmap, ninodeblocks, nlog, LOGSIZE, MAXOPBLOCKS in *. lia.
Qed.

Lemma sb_fields : sb_size sb = FSSIZE /\ sb_inodestart sb = istart /\ sb_bmapstart sb = bstart.
Proof.
  pose proof layout_facts as (H1 & H2 & H3 & H4 & _). unfold sb. simpl. unfold istart, bstart, FSSIZE in *.
  rewrite !xint_id; [done|..]; unfold is_uint, FSSIZE; lia.
Qed.

Lemma IBLOCK_range i : 1 <= i < NINODES -> IBLOCK i sb = i / IPB + istart /\ istart <= IBLOCK i sb < bstart.
Proof.
  intros Hi. pose proof ipb_pos. destruct layout_facts as (_ & _ & _ & _ & E). destruct sb_fields as (_ & Es & _).
  rewrite iblock_def, Es, E. split; [done|].
  assert (0 <= i / IPB) by (apply Z.div_pos; lia). assert (i / IPB <= NINODES / IPB) by (apply Z.div_le_mono; lia). lia.
Qed.

Lemma same_inode i j : i / IPB = j / IPB -> i mod IPB = j mod IPB -> i = j.
Proof. intros E1 E2. pose proof ipb_pos. rewrite (Z.div_mod i IPB), (Z.div_mod j IPB) by lia. congruence. Qed.

(** ** Inodes on the image *)

Record fs_img (im : image) D C Ty : Prop := {
  s_img : img_ok im D C (slots_of C);
  s_fi : 1 <= im_freeinode im <= NINODES;
  s_store : forall i, 1 <= i < im_freeinode im -> dinode_at (im_blk im (IBLOCK i sb)) (i mod IPB) = D i;
  s_dinode : forall i, 1 <= i < im_freeinode im ->
    di_type (D i) = Ty i /\ is_short (Ty i) /\ di_major (D i) = 0 /\ di_minor (D i) = 0 /\ di_nlink (D i) = 1 /\
    di_size (D i) = Z.of_nat (length (C i)) /\ Z.of_nat (length (C i)) <= MAXFILE * BSIZE }.

Lemma img_addrs_uint im D C Pr i : img_ok im D C Pr -> 1 <= i < im_freeinode im ->
  length (di_addrs (D i)) = Z.to_nat (NDIRECT + 1) /\ Forall is_uint (di_addrs (D i)).
Proof.
  intros G Hi. pose proof (d_wf _ _ _ _ _ _ (g_data _ _ _ _ G) i Hi) as Hw. split; [done|].
  pose proof ndirect_pos. apply Forall_lookup. intros k a Ha.
  assert (Hk : 0 <= Z.of_nat k <= NDIRECT) by (apply lookup_lt_Some in Ha; lia).
  pose proof (slot_uint _ _ _ _ i _ G Hi (dslot_range _ Hk)) as Hu. rewrite slot_dslot in Hu by done.
  unfold addr in Hu. rewrite Nat2Z.id, nth_lookup, Ha in Hu. done.
Qed.

Lemma fs_img_wf im D C Ty i : fs_img im D C Ty -> 1 <= i < im_freeinode im -> dinode_wf (D i).
Proof.
  intros S Hi. destruct (s_dinode _ _ _ _ S i Hi) as (E1 & Ht & E2 & E3 & E4 & E5 & Hl). pose proof maxfile_small.
  unfold dinode_wf. rewrite E1, E2, E3, E4, E5. split_and!; try done; [unfold is_uint; lia|..];
    apply (img_addrs_uint im D C _ i (s_img _ _ _ _ S) Hi).
Qed.

Definition put_inode (i : Z) (d : dinode) (im : image) : image :=
  with_block (IBLOCK i sb) (put_dinode (i mod IPB) d (im_blk im (IBLOCK i sb))) im.

Lemma winode_spec im i d : FSSIZE <= im_len im -> 1 <= i < NINODES -> winode i d im = Ret tt (put_inode i d im).
Proof.
  intros Hl Hi. destruct (IBLOCK_range i Hi) as [_ Hr]. destruct layout_facts as (_ & _ & ? & ? & _).
  unfold winode. pose proof (rsect_spec im (IBLOCK i sb)) as Er. rewrite (kbind_ret _ _ _ _ _ (Er ltac:(lia))). apply wsect_spec. lia.
Qed.

Lemma rinode_spec im i : FSSIZE <= im_len im -> 1 <= i < NINODES ->
  rinode i im = Ret (dinode_at (im_blk im (IBLOCK i sb)) (i mod IPB)) im.
Proof.
  intros Hl Hi. destruct (IBLOCK_range i Hi) as [_ Hr]. destruct layout_facts as (_ & _ & ? & ? & _).
  unfold rinode. pose proof (rsect_spec im (IBLOCK i sb)) as Er. by rewrite (kbind_ret _ _ _ _ _ (Er ltac:(lia))).
Qed.

Lemma put_inode_at im i j d : 1 <= i < NINODES -> 1 <= j < NINODES -> dinode_wf d ->
  (forall y, length (im_blk im y) = Z.to_nat BSIZE) ->
  dinode_at (im_blk (put_inode i d im) (IBLOCK j sb)) (j mod IPB) =
  if decide (j = i) then d else dinode_at (im_blk im (IBLOCK j sb)) (j mod IPB).
Proof.
  intros Hi Hj Hw Hl. pose proof ipb_pos. destruct (IBLOCK_range i Hi) as [Ei _]. destruct (IBLOCK_range j Hj) as [Ej _].
  cbn [im_blk put_inode with_block]. destruct (Z.eqb_spec (IBLOCK j sb) (IBLOCK i sb)) as [E|E].
  - rewrite E, dinode_get_put; [|apply Z.mod_pos_bound; lia|apply Z.mod_pos_bound; lia|done|done].
    destruct (decide (j mod IPB = i mod IPB)) as [E'|E'].
    + rewrite decide_True; [done|]. apply same_inode; [lia|done].
    + rewrite decide_False; [done|]. by intros ->.
  - rewrite decide_False; [done|]. by intros ->.
Qed.

(** Storing a dinode leaves the data alone. *)
Lemma put_inode_img im D D' C C' Pr i d : img_ok im D C Pr -> 1 <= i < NINODES ->
  (forall j, di_addrs (D' j) = di_addrs (D j)) -> (forall j, 1 <= j < im_freeinode im -> C' j = C j) ->
  img_ok (put_inode i d im) D' C' Pr.
Proof.
  intros [H Hl Hf] Hi Ha HC. destruct (IBLOCK_range i Hi) as [_ Hr]. destruct layout_facts as (_ & _ & ? & ? & _).
  split; [|done|done]. eapply (data_ext (im_blk im)); try done.
  - intros y Hy. simpl. by replace (y =? _) with false by (symmetry; apply Z.eqb_neq; lia).
  - intros y. simpl. destruct (_ =? _); [rewrite put_dinode_length|]; apply H.
Qed.

(** A new inode, with an empty file. *)
Lemma ialloc_spec im D C Ty t : fs_img im D C Ty -> im_freeinode im < NINODES -> 0 <= t < 32768 ->
  let i := im_freeinode im in
  exists im' D', ialloc t im = Ret i im' /\ fs_img im' D' (upd C i []) (upd Ty i t) /\
    im_freeinode im' = i + 1 /\ im_freeblock im' = im_freeblock im /\ (forall y, y < istart -> im_blk im' y = im_blk im y).
Proof.
  intros S Hn Ht i. pose proof (s_img _ _ _ _ S) as G. pose proof G as [H Hl Hf]. pose proof (s_fi _ _ _ _ S) as Hfi.
  fold i in Hn, Hfi. assert (Hi : 1 <= i < NINODES) by lia. pose proof ndirect_pos. pose proof maxfile_gt. pose proof bsize_pos.
  set (d0 := Dinode t 0 0 1 0 (replicate (Z.to_nat (NDIRECT + 1)) 0)).
  assert (Ea : forall k, addr k d0 = 0) by (intros; unfold addr, d0; apply nth_replicate_same).
  assert (Hw0 : dinode_wf d0).
  { unfold dinode_wf, d0, is_short, is_uint. simpl. rewrite length_replicate. split_and!; try lia.
    apply Forall_replicate. unfold is_uint. lia. }
  set (im1 := set_im_freeinode (i + 1) im). exists (put_inode i d0 im1), (upd D i d0). split.
  { unfold ialloc. krun. fold i. rewrite u32_small by (unfold NINODES in *; lia).
    rewrite (kbind_ret _ _ _ _ _ (winode_spec im1 i _ Hl Hi)). rewrite xshort_id by lia. reflexivity. }
  assert (Hlow : forall y, y < istart -> im_blk (put_inode i d0 im1) y = im_blk im y).
  { intros y Hy. destruct (IBLOCK_range i Hi) as [_ Hr]. simpl. by replace (y =? _) with false by (symmetry; apply Z.eqb_neq; lia). }
  assert (Hst : forall j, 1 <= j < i + 1 -> dinode_at (im_blk (put_inode i d0 im1) (IBLOCK j sb)) (j mod IPB) = upd D i d0 j).
  { intros j Hj. rewrite put_inode_at; [|done|lia|done|apply H]. unfold upd. destruct (decide (j = i)); [done|]. apply S. lia. }
  split; [|split; [done|split; [done|done]]]. split; [|simpl; lia|done|].
  - apply (put_inode_img im1 (upd D i d0) _ (upd C i []) _); try done. split; [|done|done]. simpl.
    apply data_new; [|lia|intros k ?; unfold slot; rewrite upd_eq, !Ea, Z.eqb_refl; by destruct (k =? MAXFILE), (k <? NDIRECT)
                    |rewrite upd_eq; apply length_replicate|].
    + eapply (data_ext (im_blk im)); try exact H; try done; [apply H| | |].
      * intros j Hj. fold i in Hj. by rewrite upd_ne by lia.
      * intros j k Hj Hk. fold i in Hj. unfold slots_of. by rewrite upd_ne by lia.
      * intros j Hj. fold i in Hj. by rewrite upd_ne by lia.
    + intros k Hk. unfold slots_of. rewrite upd_eq. simpl. destruct (_ =? _); nia.
  - intros j Hj. simpl in Hj. destruct (decide (j = i)) as [->|Hji].
    + rewrite !upd_eq. simpl. unfold is_short. pose proof maxfile_small. split_and!; try lia. nia.
    + rewrite !upd_ne by done. apply S. fold i. lia.
Qed.

(** iappend makes the file longer by the bytes given. *)
Lemma iappend_spec im D C Ty i p : fs_img im D C Ty -> 1 <= i < im_freeinode im ->
  let off := Z.of_nat (length (C i)) in let off' := off + Z.of_nat (length p) in
  off' <= MAXFILE * BSIZE -> im_freeblock im + need off' - need off <= FSSIZE ->
  exists im' D', iappend i p im = Ret tt im' /\ fs_img im' D' (upd C i (C i ++ p)) Ty /\
    im_freeinode im' = im_freeinode im /\ im_freeblock im' = im_freeblock im + need off' - need off /\
    (forall y, y < istart -> im_blk im' y = im_blk im y).
Proof.
  intros S Hi off off' Hmax Hroom. pose proof (s_fi _ _ _ _ S) as Hfi. assert (Hin : 1 <= i < NINODES) by lia.
  pose proof (s_img _ _ _ _ S) as G. pose proof (g_len _ _ _ _ G) as Hl. pose proof maxfile_small.
  destruct (s_dinode _ _ _ _ S i Hi) as (E1 & Ht & E2 & E3 & E4 & E5 & Hlen). fold off in E5, Hlen.
  destruct (iappend_loop_spec i (length p) p im D C) as (d1 & im1 & E & G1 & (M1 & M2 & M3 & M4 & M5) & F1 & I1 & L1); [done..|].
  fold off off' in E, F1. unfold iappend. rewrite (kbind_ret _ _ _ _ _ (rinode_spec im i Hl Hin)).
  rewrite (s_store _ _ _ _ S i Hi), E5, (xint_id off) by (unfold is_uint; lia). rewrite (kbind_ret _ _ _ _ _ E). cbn [fst snd].
  rewrite (xint_id off') by (unfold is_uint; lia).
  exists (put_inode i (set_size off' d1) im1), (upd D i (set_size off' d1)).
  split; [apply winode_spec; [apply G1|done]|].
  destruct layout_facts as (_ & ? & ? & ? & _). destruct (IBLOCK_range i Hin) as [_ Hr].
  assert (G2 : img_ok (put_inode i (set_size off' d1) im1) (upd D i (set_size off' d1)) (upd C i (C i ++ p)) (slots_of (upd C i (C i ++ p)))).
  { apply (put_inode_img im1 (upd D i d1) _ (upd C i (C i ++ p)) _); try done. intros j. unfold upd. by destruct (decide (j = i)). }
  assert (Hdn : forall j, 1 <= j < im_freeinode im1 ->
    di_type (upd D i (set_size off' d1) j) = Ty j /\ is_short (Ty j) /\ di_major (upd D i (set_size off' d1) j) = 0 /\
    di_minor (upd D i (set_size off' d1) j) = 0 /\ di_nlink (upd D i (set_size off' d1) j) = 1 /\
    di_size (upd D i (set_size off' d1) j) = Z.of_nat (length (upd C i (C i ++ p) j)) /\
    Z.of_nat (length (upd C i (C i ++ p) j)) <= MAXFILE * BSIZE).
  { intros j Hj. rewrite I1 in Hj. destruct (decide (j = i)) as [->|Hji]; [|rewrite !upd_ne by done; by apply S].
    rewrite !upd_eq, length_app, Nat2Z.inj_add. fold off off'. unfold set_size. simpl. rewrite M1, M2, M3, M4.
    unfold off' in *. split_and!; done. }
  split; [|split; [done|split; [done|]]].
  - split; [done|simpl; lia| |done]. intros j Hj. cbn [im_freeinode put_inode with_block] in Hj. rewrite I1 in Hj.
    rewrite put_inode_at; [|done|lia| |apply G1].
    + unfold upd. destruct (decide (j = i)); [done|]. rewrite L1; [by apply S|]. destruct (IBLOCK_range j ltac:(lia)). lia.
    + destruct (Hdn i ltac:(lia)) as (T1 & T2 & T3 & T4 & T5 & T6 & T7). rewrite !upd_eq in *.
      unfold dinode_wf. rewrite T1, T3, T4, T5, T6. destruct (img_addrs_uint _ _ _ _ i G1 ltac:(lia)) as [A1 A2]. rewrite upd_eq in A1, A2.
      split_and!; try done. unfold is_uint; lia.
  - intros y Hy. cbn [im_blk put_inode with_block]. replace (y =? _) with false by (symmetry; apply Z.eqb_neq; lia). apply L1. lia.
Qed.

Lemma iappend_all_spec i pieces : forall im D C Ty, fs_img im D C Ty -> 1 <= i < im_freeinode im ->
  let off := Z.of_nat (length (C i)) in let off' := off + Z.of_nat (length (concat pieces)) in
  off' <= MAXFILE * BSIZE -> im_freeblock im + need off' - need off <= FSSIZE ->
  exists im' D' C', iappend_all i pieces im = Ret tt im' /\ fs_img im' D' C' Ty /\
    (forall j, C' j = upd C i (C i ++ concat pieces) j) /\
    im_freeinode im' = im_freeinode im /\ im_freeblock im' = im_freeblock im + need off' - need off /\
    (forall y, y < istart -> im_blk im' y = im_blk im y).
Proof.
  induction pieces as [|p pieces IH]; intros im D C Ty S Hi off off' Hmax Hroom.
  - exists im, D, C. unfold off'. simpl. rewrite Z.add_0_r. split; [done|]. split; [done|]. split; [|split; [done|split; [lia|done]]].
    intros j. unfold upd. destruct (decide (j = i)) as [->|]; [by rewrite app_nil_r|done].
  - assert (Eo : off' = off + Z.of_nat (length p) + Z.of_nat (length (concat pieces))) by (unfold off'; simpl; rewrite length_app; lia).
    pose proof (need_mono off (off + Z.of_nat (length p)) ltac:(lia)).
    pose proof (need_mono (off + Z.of_nat (length p)) off' ltac:(lia)) as Hmono.
    destruct (iappend_spec im D C Ty i p S Hi) as (im1 & D1 & E1 & S1 & I1 & F1 & L1); [fold off; lia..|].
    fold off in F1. set (C1 := upd C i (C i ++ p)) in *.
    assert (Hl1 : Z.of_nat (length (C1 i)) = off + Z.of_nat (length p)) by (unfold C1; rewrite upd_eq, length_app; lia).
    specialize (IH im1 D1 C1 Ty S1). cbv zeta in IH. rewrite Hl1 in IH.
    replace (off + Z.of_nat (length p) + Z.of_nat (length (concat pieces))) with off' in IH by lia.
    destruct IH as (im' & D' & C' & E' & S' & HC & I' & F' & L'); [lia|done|lia|].
    exists im', D', C'. simpl. rewrite (kbind_ret _ _ _ _ _ E1). split; [done|]. split; [done|].
    split; [|split; [lia|split; [lia|intros y Hy; rewrite L' by done; by apply L1]]].
    intros j. rewrite HC. unfold C1, upd. destruct (decide (j = i)) as [->|]; [|done]. rewrite decide_True by done. by rewrite app_assoc.
Qed.

(** ** The files *)

Definition file := (list Z * list (list Z))%type.
Definition contents (f : file) : list Z := concat f.2.
Definition entry (inum : Z) (name : list Z) : list Z := bytes_of_dirent (Dirent inum name).

(** The directory entries of files numbered from [i] on. *)
Fixpoint entries (i : Z) (files : list file) : list Z :=
  match files with
  | [] => []
  | f :: r => entry i (strncpy_arr (Z.to_nat DIRSIZ) (file_name f.1)) ++ entries (i + 1) r
  end.

Definition total_need (files : list file) : Z :=
  foldr (fun f n => need (Z.of_nat (length (contents f))) + n) 0 files.

Lemma length_entries i files : Z.of_nat (length (entries i files)) = Z.of_nat (length files) * sizeof_dirent.
Proof.
  revert i. induction files as [|f r IH]; intros i; [done|]. simpl. rewrite length_app, Nat2Z.inj_add, IH.
  unfold entry. rewrite dirent_length. pose proof (proj1 sizeof_dirent_pos). lia.
Qed.

Lemma need_nonneg l : 0 <= l -> 0 <= need l.
Proof.
  intros Hl. pose proof bsize_pos. unfold need. assert (0 <= (l + BSIZE - 1) / BSIZE) by (apply Z.div_pos; lia).
  destruct (_ <? _); lia.
Qed.

Lemma total_need_nonneg files : 0 <= total_need files.
Proof. induction files as [|f r IH]; simpl; [lia|]. pose proof (need_nonneg (Z.of_nat (length (contents f))) ltac:(lia)). lia. Qed.

Lemma need_0 : need 0 = 0.
Proof.
  pose proof bsize_pos. pose proof ndirect_pos. unfold need. rewrite Z.div_small by lia.
  destruct (Z.ltb_spec (NDIRECT * BSIZE) 0); [nia|done].
Qed.

Definition no_slash (f : file) : Prop := Forall (fun c => c <> 47) f.1.

Lemma no_slash_existsb f : no_slash f -> existsb (fun c => c =? 47) f.1 = false.
Proof.
  intros H. unfold no_slash in H. induction H as [|c l Hc _ IH]; [done|]. simpl. rewrite IH.
  by replace (c =? 47) with false by (symmetry; by apply Z.eqb_neq).
Qed.

Lemma add_files_spec files : forall im D C Ty, fs_img im D C Ty -> 1 < im_freeinode im ->
  Forall no_slash files -> Forall (fun f => Z.of_nat (length (contents f)) <= MAXFILE * BSIZE) files ->
  let i := im_freeinode im in let off := Z.of_nat (length (C 1)) in
  let off' := off + Z.of_nat (length files) * sizeof_dirent in
  i + Z.of_nat (length files) <= NINODES -> off' <= MAXFILE * BSIZE ->
  im_freeblock im + need off' - need off + total_need files <= FSSIZE ->
  exists im' D' C' Ty', add_files 1 files im = Ret tt im' /\ fs_img im' D' C' Ty' /\
    im_freeinode im' = i + Z.of_nat (length files) /\
    im_freeblock im' = im_freeblock im + need off' - need off + total_need files /\
    C' 1 = C 1 ++ entries i files /\ Ty' 1 = Ty 1 /\
    (forall j, 1 < j < i -> C' j = C j /\ Ty' j = Ty j) /\
    (forall k f, files !! k = Some f -> C' (i + Z.of_nat k) = contents f /\ Ty' (i + Z.of_nat k) = T_FILE) /\
    (forall y, y < istart -> im_blk im' y = im_blk im y).
Proof.
  induction files as [|f files IH]; intros im D C Ty S H1 Hns Hlen i off off' Hin Hmax Hroom.
  - exists im, D, C, Ty. unfold off'. simpl. rewrite !Z.add_0_r, app_nil_r. unfold i. split_and!; try done; try lia.
  - apply Forall_cons in Hns as [Hns1 Hns]. apply Forall_cons in Hlen as [Hl1 Hlen].
    pose proof (proj1 sizeof_dirent_pos) as Hsz. pose proof (total_need_nonneg files) as Htn. simpl in Hin, Hroom.
    pose proof (need_nonneg (Z.of_nat (length (contents f))) ltac:(lia)) as Hnf.
    destruct (ialloc_spec im D C Ty T_FILE S) as (im1 & D1 & E1 & S1 & I1 & F1 & L1); [fold i; lia|unfold T_FILE; lia|].
    fold i in E1, S1, I1. set (C1 := upd C i []) in *.
    assert (HC1 : C1 1 = C 1) by (unfold C1; rewrite upd_ne; [done|lia]).
    set (e := entry i (strncpy_arr (Z.to_nat DIRSIZ) (file_name f.1))).
    assert (Hle : Z.of_nat (length e) = sizeof_dirent) by (unfold e, entry; rewrite dirent_length; lia).
    pose proof (need_mono (off + sizeof_dirent) off' ltac:(unfold off'; simpl; lia)) as Hm1.
    destruct (iappend_spec im1 D1 C1 _ 1 e S1) as (im2 & D2 & E2 & S2 & I2 & F2 & L2); rewrite ?HC1, ?Hle; fold off.
    { lia. } { unfold off' in Hmax. simpl in Hmax. lia. } { lia. }
    rewrite HC1, Hle in F2. rewrite HC1 in S2. fold off in F2. set (C2 := upd C1 1 (C 1 ++ e)) in *.
    assert (HC2 : C2 i = []) by (unfold C2, C1; rewrite upd_ne by lia; apply upd_eq).
    destruct (iappend_all_spec i f.2 im2 D2 C2 _ S2) as (im3 & D3 & C3 & E3 & S3 & HC3 & I3 & F3 & L3); rewrite ?HC2; simpl length.
    { lia. } { unfold contents in Hl1. lia. } { change (Z.of_nat 0) with 0. rewrite need_0, Z.add_0_l. unfold contents in *. lia. }
    rewrite HC2 in F3. change (Z.of_nat (length [])) with 0 in F3. rewrite need_0, Z.add_0_l in F3. fold (contents f) in F3.
    assert (HC31 : C3 1 = C 1 ++ e) by (rewrite HC3, upd_ne by lia; unfold C2; apply upd_eq).
    specialize (IH im3 D3 C3 _ S3). cbv zeta in IH. rewrite HC31, I3, I2, I1 in IH.
    rewrite length_app, Nat2Z.inj_add, Hle in IH. fold off in IH.
    replace (off + sizeof_dirent + Z.of_nat (length files) * sizeof_dirent) with off' in IH by (unfold off'; simpl; lia).
    destruct IH as (im' & D' & C' & Ty' & E' & S' & I' & F' & R1 & R2 & R3 & R4 & L'); try done; try lia.
    exists im', D', C', Ty'. cbn [add_files]. destruct f as [arg pieces]. cbn [fst] in *.
    pose proof (no_slash_existsb _ Hns1) as Hex. cbn [fst] in Hex. rewrite Hex. rewrite (kbind_ret _ _ _ _ _ E1).
    unfold add_entry. rewrite xshort_id by (unfold NINODES in *; lia). fold (entry i (strncpy_arr (Z.to_nat DIRSIZ) (file_name arg))). fold e.
    rewrite (kbind_ret _ _ _ _ _ E2), (kbind_ret _ _ _ _ _ E3). split; [done|]. split; [done|]. split; [simpl; lia|].
    split; [simpl; lia|]. split; [rewrite R1, <- app_assoc; done|]. split; [rewrite R2; rewrite upd_ne by lia; done|].
    split; [|split].
    + intros j Hj. destruct (R3 j ltac:(lia)) as [-> ->]. rewrite HC3. unfold C2, C1. by rewrite !upd_ne by lia.
    + intros [|k] g Hg; simpl in Hg.
      * injection Hg as <-. rewrite Z.add_0_r. destruct (R3 i ltac:(lia)) as [-> ->]. rewrite HC3, HC2, !upd_eq. done.
      * destruct (R4 k g Hg) as [<- <-]. replace (i + Z.of_nat (Datatypes.S k)) with (i + 1 + Z.of_nat k) by lia. done.
    + intros y Hy. rewrite L', L3, L2 by done. by apply L1.
Qed.
End Inodes.
