(* ===== verification/MkfsFs.v ===== *)
(** * The file system mkfs makes, read by the kernel

    What is on the image when mkfs ends, and that the routines of fs.c find on it the files
    that were copied: the invariants the theorems on fs.c assume hold of the image. *)

From S2P Require Import Prelude Layout Sleeplock Fsdefs Fs FsBlocks FsAlloc FsFile FsRw FsRwProps FsIcache FsDir Mkfs MkfsProps MkfsImage.

(** Running a sequence whose first part is known. *)
Lemma seq2 {S A} (a b : K S unit) (k : K S A) s s' : (a ;; b) s = Ret tt s' -> (a ;; b ;; k) s = k s'.
Proof. unfold kbind. destruct (a s) as [[] t|?|?|]; try done. by intros ->. Qed.
Lemma seq3 {S A} (a b c : K S unit) (k : K S A) s s' : (a ;; b ;; c) s = Ret tt s' -> (a ;; b ;; c ;; k) s = k s'.
Proof. unfold kbind. destruct (a s) as [[] t|?|?|]; try done. destruct (b t) as [[] t'|?|?|]; try done. by intros ->. Qed.

Section Main.
Context `{FH : FsH} {FL : FsLaws} {MH : MkfsH} {ML : MkfsLaws}.

(** The files fit on the disk. *)
Record fits (files : list file) : Prop := {
  f_names : Forall no_slash files;
  f_lens : Forall (fun f => Z.of_nat (length (contents f)) <= MAXFILE * BSIZE) files;
  f_inodes : 2 + Z.of_nat (length files) <= NINODES;
  f_dir : (2 + Z.of_nat (length files)) * sizeof_dirent <= MAXFILE * BSIZE;
  f_room : nmeta + need ((2 + Z.of_nat (length files)) * sizeof_dirent) + total_need files <= FSSIZE }.

Definition root_entries (files : list file) : list Z :=
  entry 1 (name_field [46]) ++ entry 1 (name_field [46; 46]) ++ entries 2 files.
Definition root_size (files : list file) : Z :=
  ((2 + Z.of_nat (length files)) * sizeof_dirent / BSIZE + 1) * BSIZE.
Definition used_blocks (files : list file) : Z :=
  nmeta + need ((2 + Z.of_nat (length files)) * sizeof_dirent) + total_need files.

(** What is on the image: [D] and [C] are the inodes and the contents of their files. *)
Record made (files : list file) (im : image) (D : Z -> dinode) (C : Z -> list Z) : Prop := {
  m_img : img_ok im D C (slots_of C);
  m_fi : im_freeinode im = 2 + Z.of_nat (length files);
  m_fb : im_freeblock im = used_blocks files;
  m_store : forall i, 1 <= i < im_freeinode im ->
    dinode_at (im_blk im (IBLOCK i sb)) (i mod IPB) = D i /\ dinode_wf (D i) /\ di_nlink (D i) = 1;
  m_root : C 1 = root_entries files /\ di_type (D 1) = T_DIR /\ di_size (D 1) = root_size files;
  m_files : forall k f, files !! k = Some f ->
    C (2 + Z.of_nat k) = contents f /\ di_type (D (2 + Z.of_nat k)) = T_FILE /\
    di_size (D (2 + Z.of_nat k)) = Z.of_nat (length (contents f));
  m_sb : sb_of_bytes (im_blk im 1) = sb;
  m_map : forall b, 0 <= b -> bit_set (im_blk im bstart) b = (b <? used_blocks files) }.

Lemma zero_blocks_spec n : forall i im, (forall y, im_blk im y = zeros) -> 0 <= i -> 0 <= im_len im ->
  exists im', zero_blocks n i im = Ret tt im' /\ (forall y, im_blk im' y = zeros) /\
    Z.max (im_len im) (if n then 0 else i + Z.of_nat n) = im_len im' /\
    im_freeinode im' = im_freeinode im /\ im_freeblock im' = im_freeblock im.
Proof.
  induction n as [|n IH]; intros i im Hz Hi Hl.
  - exists im. split; [done|]. split; [done|]. split; [lia|done].
  - cbn [zero_blocks]. unfold wsect. krun.
    destruct (IH (i + 1) (Image (fun y => if y =? i then zeros else im_blk im y) (Z.max (im_len im) (i + 1)) (im_freeinode im) (im_freeblock im)))
      as (im' & E & H1 & H2 & H3 & H4); [intros y; simpl; by destruct (_ =? _)|lia|simpl; lia|].
    exists im'. split; [done|]. split; [done|]. split; [|done]. rewrite <- H2. simpl. destruct n; lia.
Qed.

Lemma mark_first_spec n : forall i d b, 0 <= i -> i + Z.of_nat n <= 8 * Z.of_nat (length d) -> 0 <= b ->
  bit_set (mark_first n i d) b = (i <=? b) && (b <? i + Z.of_nat n) || bit_set d b /\
  length (mark_first n i d) = length d.
Proof.
  induction n as [|n IH]; intros i d b Hi Hn Hb; cbn [mark_first].
  - split; [|done]. destruct (Z.leb_spec i b), (Z.ltb_spec b (i + Z.of_nat 0)); done || lia.
  - destruct (IH (i + 1) (mark_bit i d) b) as [-> ->]; [lia|rewrite length_mark_bit; lia|done|].
    rewrite length_mark_bit, bit_set_mark by lia. split; [|done].
    destruct (Z.leb_spec i b), (Z.leb_spec (i + 1) b), (Z.ltb_spec b (i + 1 + Z.of_nat n)), (Z.ltb_spec b (i + Z.of_nat (S n)));
      try lia; case_bool_decide; try lia; done.
Qed.

Lemma bit_set_zeros b : 0 <= b -> bit_set zeros b = false.
Proof. intros Hb. rewrite bit_set_testbit by done. rewrite nth_zeros. apply Z.bits_0. Qed.

Lemma length_root_entries files : Z.of_nat (length (root_entries files)) = (2 + Z.of_nat (length files)) * sizeof_dirent.
Proof.
  unfold root_entries, entry. rewrite !length_app, !dirent_length, !Nat2Z.inj_add, length_entries.
  pose proof (proj1 sizeof_dirent_pos). lia.
Qed.

(** The state after the superblock is written: no inodes, no data. *)
Lemma start_img : exists im, (kmodify (set_im_freeblock nmeta) ;; zero_blocks (Z.to_nat FSSIZE) 0 ;;
    wsect 1 (take (Z.to_nat BSIZE) (bytes_of_sb sb ++ zeros))) blank = Ret tt im /\
  fs_img im (fun _ => Dinode 0 0 0 0 0 []) (fun _ => []) (fun _ => 0) /\ im_freeinode im = 1 /\
  im_freeblock im = nmeta /\ sb_of_bytes (im_blk im 1) = sb.
Proof.
  destruct layout_facts as (H1 & H2 & H3 & H4 & _). pose proof bsize_pos. krun.
  destruct (zero_blocks_spec (Z.to_nat FSSIZE) 0 (set_im_freeblock nmeta blank)) as (im & E & Hz & Hl & Hi & Hf); [done|lia|done|].
  rewrite (kbind_ret _ _ _ _ _ E). assert (Hlen : im_len im = FSSIZE) by (rewrite <- Hl; done).
  rewrite (wsect_spec im 1) by (rewrite Hlen; lia). eexists. split; [done|].
  simpl in Hi, Hf. split; [|split; [done|split; [done|]]].
  - split; simpl; rewrite ?Hi; [|unfold NINODES; lia|intros; lia|intros; lia].
    split; simpl; rewrite ?Hi, ?Hf; [|lia|lia]. split; try (intros; lia).
    + intros y. destruct (_ =? _); [rewrite length_take, length_app|rewrite Hz]; unfold zeros; rewrite length_replicate; lia.
    + intros y Hy. by replace (y =? 1) with false by (symmetry; apply Z.eqb_neq; lia).
  - simpl. apply sb_bytes_law.
Qed.

(** The two entries every directory starts with. *)
Lemma root_spec im D C Ty : fs_img im D C Ty -> im_freeinode im = 1 -> im_freeblock im = nmeta ->
  2 * sizeof_dirent <= MAXFILE * BSIZE -> nmeta + need (2 * sizeof_dirent) <= FSSIZE ->
  exists im1 im' D' C' Ty', ialloc T_DIR im = Ret 1 im1 /\
    (add_entry 1 1 (name_field [46]) ;; add_entry 1 1 (name_field [46; 46])) im1 = Ret tt im' /\
    fs_img im' D' C' Ty' /\ im_freeinode im' = 2 /\ im_freeblock im' = nmeta + need (2 * sizeof_dirent) /\
    C' 1 = entry 1 (name_field [46]) ++ entry 1 (name_field [46; 46]) /\ Ty' 1 = T_DIR /\
    (forall y, y < istart -> im_blk im' y = im_blk im y).
Proof.
  intros S Hfi Hfb Hmax Hroom. pose proof (proj1 sizeof_dirent_pos) as Hsz.
  destruct (ialloc_spec im D C Ty T_DIR S) as (im1 & D1 & E1 & S1 & I1 & F1 & L1); [rewrite Hfi; unfold NINODES; lia|unfold T_DIR; lia|].
  rewrite Hfi in E1, S1, I1. set (C1 := upd C 1 []) in *. assert (HC1 : C1 1 = []) by apply upd_eq.
  assert (Hdbl : sizeof_dirent + sizeof_dirent = 2 * sizeof_dirent) by lia.
  set (e1 := entry 1 (name_field [46])). set (e2 := entry 1 (name_field [46; 46])).
  assert (Hl : Z.of_nat (length e1) = sizeof_dirent /\ Z.of_nat (length e2) = sizeof_dirent).
  { unfold e1, e2, entry. rewrite !dirent_length. lia. }
  pose proof (need_mono sizeof_dirent (2 * sizeof_dirent)) as Hm. specialize (Hm ltac:(lia)).
  destruct (iappend_spec im1 D1 C1 _ 1 e1 S1) as (im2 & D2 & E2 & S2 & I2 & F2 & L2); rewrite ?HC1, ?(proj1 Hl);
    change (Z.of_nat (length [])) with 0; rewrite ?Z.add_0_l, ?need_0; [lia|lia|lia|].
  rewrite HC1, (proj1 Hl) in F2. change (Z.of_nat (length [])) with 0 in F2. rewrite Z.add_0_l, need_0 in F2.
  rewrite HC1 in S2. set (C2 := upd C1 1 ([] ++ e1)) in *. assert (HC2 : C2 1 = e1) by (unfold C2; by rewrite upd_eq).
  destruct (iappend_spec im2 D2 C2 _ 1 e2 S2) as (im3 & D3 & E3 & S3 & I3 & F3 & L3); rewrite ?HC2, ?(proj1 Hl), ?(proj2 Hl), ?Hdbl; [lia|lia|lia|].
  rewrite HC2, (proj1 Hl), (proj2 Hl), Hdbl in F3.
  exists im1, im3, D3, (upd C2 1 (C2 1 ++ e2)), (upd Ty 1 T_DIR). split; [done|]. unfold add_entry. rewrite xshort_id by lia.
  fold (entry 1 (name_field [46])) (entry 1 (name_field [46; 46])). fold e1 e2. rewrite (kbind_ret _ _ _ _ _ E2).
  split; [done|]. split; [done|]. split; [lia|]. split; [lia|]. split; [rewrite upd_eq, HC2; done|]. split; [apply upd_eq|].
  intros y Hy. rewrite L3, L2 by done. by apply L1.
Qed.

Lemma with_block_low im D C Pr y d : img_ok im D C Pr -> y < nmeta -> length d = Z.to_nat BSIZE -> img_ok (with_block y d im) D C Pr.
Proof.
  intros [H Hl Hf] Hy Hd. split; [|done|done]. eapply (data_ext (im_blk im)); try exact H; try done.
  - intros z Hz. simpl. by replace (z =? y) with false by (symmetry; apply Z.eqb_neq; lia).
  - intros z. simpl. destruct (_ =? _); [done|apply H].
Qed.

Lemma root_size_range files : fits files -> 0 <= root_size files <= (MAXFILE + 1) * BSIZE /\ is_uint (root_size files).
Proof.
  intros F. pose proof (f_dir _ F) as Hd. pose proof (proj1 sizeof_dirent_pos). pose proof bsize_pos. pose proof maxfile_small.
  unfold root_size. set (l := _ * sizeof_dirent) in *. assert (0 <= l) by (unfold l; nia).
  assert (0 <= l / BSIZE) by (apply Z.div_pos; lia). assert (l / BSIZE <= MAXFILE).
  { apply Z.div_le_upper_bound; lia. }
  unfold is_uint. nia.
Qed.

(** The end of main: the size of the root directory and the bitmap. *)
Lemma finish_spec files im D C Ty : fits files -> fs_img im D C Ty -> im_freeinode im = 2 + Z.of_nat (length files) ->
  im_freeblock im = used_blocks files -> C 1 = root_entries files -> Ty 1 = T_DIR ->
  (forall k f, files !! k = Some f -> C (2 + Z.of_nat k) = contents f /\ Ty (2 + Z.of_nat k) = T_FILE) ->
  sb_of_bytes (im_blk im 1) = sb ->
  exists im' D', (let! din := rinode 1 in
     let off := u32 ((xint (di_size din) / BSIZE + 1) * BSIZE) in
     winode 1 (set_size (xint off) din) ;;
     let! used := kget im_freeblock in
     balloc used) im = Ret tt im' /\ made files im' D' C.
Proof.
  intros F S Hfi Hfb HC1 HT1 HCf Hsb. pose proof (s_img _ _ _ _ S) as G. pose proof (g_len _ _ _ _ G) as Hl.
  destruct layout_facts as (H1 & H2 & H3 & H4 & _). assert (Hi1 : 1 <= 1 < NINODES) by (unfold NINODES; lia).
  assert (H1fi : 1 <= 1 < im_freeinode im) by lia. pose proof (s_fi _ _ _ _ S) as Hfir.
  rewrite (kbind_ret _ _ _ _ _ (rinode_spec im 1 Hl Hi1)), (s_store _ _ _ _ S 1 H1fi).
  destruct (s_dinode _ _ _ _ S 1 H1fi) as (E1 & T1 & E2 & E3 & E4 & E5 & Hlen). destruct (root_size_range files F) as [Hrs Hru].
  pose proof maxfile_small. rewrite E5, (xint_id (Z.of_nat (length (C 1)))) by (unfold is_uint; lia).
  rewrite HC1, length_root_entries. cbv zeta. fold (root_size files). rewrite (u32_small (root_size files)), xint_id by done.
  set (d1 := set_size (root_size files) (D 1)). rewrite (kbind_ret _ _ _ _ _ (winode_spec im 1 d1 Hl Hi1)). krun.
  cbn [im_freeblock put_inode with_block]. rewrite Hfb. pose proof (f_room _ F) as Hroom. fold (used_blocks files) in Hroom.
  pose proof bitmap_fits. unfold balloc. replace (used_blocks files <? BSIZE * 8) with true by (symmetry; apply Z.ltb_lt; lia). cbn [negb].
  destruct sb_fields as (_ & _ & ->). pose proof bsize_pos.
  assert (Hub : 0 <= used_blocks files) by (pose proof (d_fb _ _ _ _ _ _ (g_data _ _ _ _ G)); pose proof nmeta_pos; lia).
  assert (Hlz : length zeros = Z.to_nat BSIZE) by apply length_replicate.
  assert (Hmf : forall b, 0 <= b -> bit_set (mark_first (Z.to_nat (used_blocks files)) 0 zeros) b = (b <? used_blocks files) /\
    length (mark_first (Z.to_nat (used_blocks files)) 0 zeros) = Z.to_nat BSIZE).
  { intros b Hb. destruct (mark_first_spec (Z.to_nat (used_blocks files)) 0 zeros b) as [-> ->]; [lia|rewrite Hlz; lia|done|].
    rewrite bit_set_zeros, orb_false_r, Z.add_0_l, Z2Nat.id by done. replace (0 <=? b) with true by (symmetry; by apply Z.leb_le). done. }
  rewrite wsect_spec by (simpl; lia). eexists _, (upd D 1 d1). split; [done|].
  assert (Hw1 : dinode_wf d1).
  { destruct (fs_img_wf im D C Ty 1 S H1fi) as (W1 & W2 & W3 & W4 & W5 & W6 & W7). unfold dinode_wf, d1. simpl. tauto. }
  assert (Hib : forall i, 1 <= i < im_freeinode im -> istart <= IBLOCK i sb < bstart) by (intros i Hi; apply IBLOCK_range; lia).
  split; try done.
  - apply with_block_low; [|lia|by apply (Hmf 0)]. apply (put_inode_img im D _ C); try done.
    intros j. unfold upd. by destruct (decide (j = 1)) as [->|].
  - intros i Hi. cbn [im_freeinode with_block put_inode] in Hi. cbn [im_blk with_block].
    replace (IBLOCK i sb =? bstart) with false by (symmetry; apply Z.eqb_neq; specialize (Hib i Hi); lia).
    fold (put_inode 1 d1 im). rewrite put_inode_at; [|done|lia|done|apply G]. unfold upd.
    destruct (decide (i = 1)) as [->|]; [unfold d1; simpl; split_and!; done|].
    split; [by apply S|]. split; [by apply (fs_img_wf im D C Ty)|by apply (s_dinode _ _ _ _ S i Hi)].
  - split; [done|]. rewrite upd_eq. unfold d1. simpl. split; [congruence|done].
  - intros k f Hk. destruct (HCf k f Hk) as [<- <-]. rewrite upd_ne by lia. split; [done|].
    assert (Hki : 1 <= 2 + Z.of_nat k < im_freeinode im) by (apply lookup_lt_Some in Hk; lia).
    destruct (s_dinode _ _ _ _ S _ Hki) as (-> & _ & _ & _ & _ & -> & _). done.
  - cbn [im_blk with_block put_inode]. replace (1 =? bstart) with false by (symmetry; apply Z.eqb_neq; lia).
    replace (1 =? IBLOCK 1 sb) with false by (symmetry; apply Z.eqb_neq; specialize (Hib 1 H1fi); lia). done.
  - intros b Hb. cbn [im_blk with_block]. rewrite Z.eqb_refl. by apply Hmf.
Qed.

(** mkfs succeeds when the files fit. *)
Lemma mkfs_made files : fits files -> exists im D C, mkfs files blank = Ret tt im /\ made files im D C.
Proof.
  intros F. destruct start_img as (im0 & E0 & S0 & I0 & F0 & B0). pose proof (proj1 sizeof_dirent_pos) as Hsz.
  pose proof (f_dir _ F) as Hd. pose proof (f_room _ F) as Hr. pose proof (total_need_nonneg files) as Htn.
  pose proof (need_mono (2 * sizeof_dirent) ((2 + Z.of_nat (length files)) * sizeof_dirent)) as Hm. specialize (Hm ltac:(nia)).
  destruct (root_spec im0 _ _ _ S0 I0 F0) as (im1a & im1 & D1 & C1 & Ty1 & E1a & E1 & S1 & I1 & F1 & HC1 & HT1 & L1); [nia|lia|].
  assert (Hl1 : Z.of_nat (length (C1 1)) = 2 * sizeof_dirent).
  { rewrite HC1. unfold entry. rewrite length_app, !dirent_length. lia. }
  destruct (add_files_spec files im1 D1 C1 Ty1 S1) as (im2 & D2 & C2 & Ty2 & E2 & S2 & I2 & F2 & R1 & R2 & _ & R4 & L2);
    rewrite ?I1, ?Hl1; try apply F; try lia.
  { replace (2 * sizeof_dirent + Z.of_nat (length files) * sizeof_dirent) with ((2 + Z.of_nat (length files)) * sizeof_dirent) by lia. lia. }
  rewrite Hl1, I1 in *. replace (2 * sizeof_dirent + Z.of_nat (length files) * sizeof_dirent) with ((2 + Z.of_nat (length files)) * sizeof_dirent) in F2 by lia.
  destruct layout_facts as (H1 & _).
  destruct (finish_spec files im2 D2 C2 Ty2 F S2 I2) as (im & D & E & M).
  - unfold used_blocks. lia.
  - rewrite R1, HC1. unfold root_entries. by rewrite <- app_assoc.
  - congruence.
  - apply R4.
  - rewrite L2, L1 by lia. done.
  - exists im, D, C2. split; [|done]. unfold mkfs. rewrite (seq3 _ _ _ _ _ _ E0), (kbind_ret _ _ _ _ _ E1a), rootino_def. cbn [Z.eqb Pos.eqb negb].
    rewrite (seq2 _ _ _ _ _ E1), (kbind_ret _ _ _ _ _ E2). exact E.
Qed.

(** ** The image under the kernel *)
Section Kernel.
Context {B : Type} `{BL : BlockLayer B} {LL : BlockLaws B}.
Implicit Types s : fsstate B.

(** The disk holds the image; the kernel has read the superblock.  The blocks of the log are
    not for the file system. *)
Record mounted (im : image) s : Prop := {
  mo_view : forall y, view s y = im_blk im y;
  mo_sb : fs_sb s = sb;
  mo_block : forall b, 0 <= b < FSSIZE -> bl_block b;
  mo_home : forall b, 0 <= b < FSSIZE -> ~ (2 <= b < istart) -> bl_home b }.

(** Entry [ip] of the inode cache holds inode [i], as ilock reads it. *)
Record loaded (i : Z) (ip : nat) s : Prop := {
  lo_ip : (ip < length (inodes s))%nat;
  lo_dev : i_dev (ino ip s) = ROOTDEV;
  lo_inum : i_inum (ino ip s) = i;
  lo_dinode : to_dinode (ino ip s) = dinode_at (view s (IBLOCK i (fs_sb s))) (i mod IPB) }.

Section Mount.
Variables (files : list file) (im : image) (D : Z -> dinode) (C : Z -> list Z) (s : fsstate B).
Hypothesis F : fits files.
Hypothesis M : made files im D C.
Hypothesis Mo : mounted im s.

Lemma used_range : nmeta <= used_blocks files <= FSSIZE.
Proof.
  split; [|apply F]. rewrite <- (m_fb _ _ _ _ M). apply (d_fb _ _ _ _ _ _ (g_data _ _ _ _ (m_img _ _ _ _ M))).
Qed.

Lemma mount_bblock b : 0 <= b < FSSIZE -> BBLOCK b (fs_sb s) = bstart /\ b mod BPB = b.
Proof.
  intros Hb. pose proof bitmap_fits. rewrite (mo_sb _ _ Mo), bblock_def, bpb_def. destruct sb_fields as (_ & _ & ->).
  rewrite Z.div_small, Z.mod_small by lia. split; [lia|done].
Qed.

Lemma mount_in_use b : 0 <= b < FSSIZE -> in_use s b = (b <? used_blocks files).
Proof.
  intros Hb. destruct (mount_bblock b Hb) as [E1 E2]. unfold in_use. rewrite E1, E2, (mo_view _ _ Mo).
  apply (m_map _ _ _ _ M). lia.
Qed.

Lemma mount_disk : disk_ok s.
Proof.
  destruct sb_fields as (Es & _ & _). pose proof used_range. destruct layout_facts as (L1 & L2 & L3 & L4 & _).
  split; rewrite ?(mo_sb _ _ Mo), ?Es.
  - unfold FSSIZE. lia.
  - intros x. rewrite (mo_view _ _ Mo). apply (m_img _ _ _ _ M).
  - apply Mo.
  - intros b Hb Hu. rewrite mount_in_use in Hu by done. apply Mo; [done|]. apply Z.ltb_ge in Hu. lia.
  - intros b Hb. destruct (mount_bblock b Hb) as [E1 _]. rewrite (mo_sb _ _ Mo) in E1. rewrite E1. split; [lia|].
    split; [apply Mo; lia|]. rewrite mount_in_use by lia. apply Z.ltb_lt. lia.
  - split; [unfold FSSIZE; lia|]. split; [rewrite mount_in_use by (unfold FSSIZE; lia); apply Z.ltb_lt; lia|].
    split; [rewrite (mo_view _ _ Mo); apply M|]. intros b Hb. destruct (mount_bblock b Hb) as [E1 _].
    rewrite (mo_sb _ _ Mo) in E1. rewrite E1. lia.
Qed.

Variables (i : Z) (ip : nat).
Hypothesis Hi : 1 <= i < im_freeinode im.
Hypothesis Lo : loaded i ip s.

Lemma mount_dinode : to_dinode (ino ip s) = D i.
Proof. rewrite (lo_dinode _ _ _ Lo), (mo_view _ _ Mo), (mo_sb _ _ Mo). by apply M. Qed.

Lemma mount_addr k : nth (Z.to_nat k) (i_addrs (ino ip s)) 0 = addr k (D i).
Proof. unfold addr. by rewrite <- mount_dinode. Qed.

Lemma mount_slot k : 0 <= k < MAXFILE -> blockno ip s k = slot (im_blk im) (D i) k.
Proof.
  intros Hk. unfold blockno, slot, ind. rewrite !mount_addr, (mo_view _ _ Mo).
  by replace (k =? MAXFILE) with false by (symmetry; apply Z.eqb_neq; lia).
Qed.

Lemma mount_ind : ind ip s = slot (im_blk im) (D i) MAXFILE.
Proof. unfold ind, slot. by rewrite Z.eqb_refl, mount_addr. Qed.

Lemma mount_iblk : istart <= iblk ip s < bstart.
Proof.
  unfold iblk. rewrite (lo_inum _ _ _ Lo), (mo_sb _ _ Mo). apply IBLOCK_range.
  pose proof (f_inodes _ F). rewrite (m_fi _ _ _ _ M) in Hi. lia.
Qed.

Lemma mount_data_block a : nmeta <= a < used_blocks files -> data_block ip s a.
Proof.
  intros Ha. pose proof used_range. pose proof nmeta_pos. destruct layout_facts as (L1 & L2 & L3 & L4 & _). pose proof mount_iblk.
  unfold data_block. rewrite (mo_sb _ _ Mo), (proj1 sb_fields). split; [lia|].
  split; [rewrite mount_in_use by lia; apply Z.ltb_lt; lia|]. split; [apply Mo; lia|]. split; [lia|]. split; [|lia].
  intros (b & Hb & E). rewrite (mo_sb _ _ Mo), (proj1 sb_fields) in Hb. destruct (mount_bblock b Hb) as [E1 _]. lia.
Qed.

Lemma mount_slots k : 0 <= k <= MAXFILE ->
  (slots_of C i k /\ nmeta <= slot (im_blk im) (D i) k < used_blocks files) \/ (~ slots_of C i k /\ slot (im_blk im) (D i) k = 0).
Proof.
  intros Hk. pose proof (g_data _ _ _ _ (m_img _ _ _ _ M)) as H. rewrite (m_fb _ _ _ _ M) in H.
  destruct (d_dec _ _ _ _ _ _ H i k Hi Hk) as [Hp|Hp]; [left|right]; (split; [done|]).
  - by apply (d_slot _ _ _ _ _ _ H).
  - by apply (d_none _ _ _ _ _ _ H).
Qed.

Lemma mount_ino : ino_ok ip s.
Proof.
  pose proof nmeta_pos. pose proof maxfile_gt. pose proof ndirect_pos. pose proof (g_data _ _ _ _ (m_img _ _ _ _ M)) as HD.
  pose proof used_range. pose proof mount_iblk. destruct layout_facts as (L1 & L2 & L3 & L4 & _).
  assert (Hinj : forall k l, 0 <= k <= MAXFILE -> 0 <= l <= MAXFILE -> slot (im_blk im) (D i) k <> 0 ->
    slot (im_blk im) (D i) k = slot (im_blk im) (D i) l -> k = l).
  { intros k l Hk Hl Hz E. destruct (mount_slots k Hk) as [[Hp _]|[_ ?]]; [|done].
    destruct (mount_slots l Hl) as [[Hp' _]|[_ ?]]; [|congruence]. apply (d_inj _ _ _ _ _ _ HD i i k l Hi Hi Hk Hl Hp Hp' E). }
  split; try apply Lo.
  - pose proof (d_wf _ _ _ _ _ _ HD i Hi) as Hw. by rewrite <- mount_dinode in Hw.
  - intros k Hk. rewrite mount_slot, mount_ind by done. intros Hz. split.
    + apply mount_data_block. destruct (mount_slots k ltac:(lia)) as [[_ ?]|[_ ?]]; [done|congruence].
    + intros E. specialize (Hinj k (@MAXFILE FH) ltac:(lia) ltac:(lia) Hz E). lia.
  - rewrite mount_ind. intros Hz. apply mount_data_block. destruct (mount_slots (@MAXFILE FH) ltac:(lia)) as [[_ ?]|[_ ?]]; [done|congruence].
  - intros j k Hj Hk. rewrite !mount_slot by done. intros Hz E. apply Hinj; try done; lia.
  - rewrite mount_in_use by (unfold FSSIZE; lia). apply Z.ltb_lt. lia.
  - rewrite (mo_sb _ _ Mo), (proj1 sb_fields). split; [lia|]. split; [rewrite mount_in_use by lia; apply Z.ltb_lt; lia|].
    split; [apply Mo; lia|]. split; [lia|]. intros (b & Hb & E). rewrite (mo_sb _ _ Mo), (proj1 sb_fields) in Hb.
    destruct (mount_bblock b Hb) as [E1 _]. lia.
Qed.

Lemma mount_file : 0 <= di_size (D i) <= MAXFILE * BSIZE -> di_type (D i) <> T_DEV ->
  (forall k, 0 <= k < MAXFILE -> k * BSIZE < di_size (D i) -> slots_of C i k) -> file_ok ip s.
Proof.
  intros Hsz Hty Hfull. pose proof bsize_pos. pose proof nmeta_pos.
  assert (Es : i_size (ino ip s) = di_size (D i)) by (by rewrite <- mount_dinode).
  split; [apply mount_disk|apply mount_ino| | | |].
  - split; [by rewrite Es|]. intros k Hk Hlt. rewrite Es in Hlt. assert (Hkm : 0 <= k < MAXFILE) by nia.
    rewrite mount_slot by done. destruct (mount_slots k ltac:(lia)) as [[_ ?]|[Hn _]]; [lia|]. destruct Hn. by apply Hfull.
  - unfold synced, iblk. rewrite (lo_inum _ _ _ Lo). symmetry. apply Lo.
  - rewrite mount_dinode. by apply M.
  - change (i_type (ino ip s)) with (di_type (to_dinode (ino ip s))). by rewrite mount_dinode.
Qed.

Lemma mount_bytes o : 0 <= o -> o / BSIZE < MAXFILE -> slots_of C i (o / BSIZE) -> fbyte ip s o = nth (Z.to_nat o) (C i) 0.
Proof.
  intros Ho Hk Hs. pose proof bsize_pos. pose proof nmeta_pos. assert (Hq : 0 <= o / BSIZE) by (apply Z.div_pos; lia).
  unfold fbyte, fblock. rewrite mount_slot by lia. destruct (mount_slots (o / @BSIZE FH) ltac:(lia)) as [[_ Hr]|[? _]]; [|done].
  replace (slot (im_blk im) (D i) (o / BSIZE) =? 0) with false by (symmetry; apply Z.eqb_neq; lia).
  rewrite (mo_view _ _ Mo). by apply (m_img _ _ _ _ M).
Qed.

(** Bytes below the length of the contents are there. *)
Lemma mount_content o : 0 <= o < Z.of_nat (length (C i)) -> Z.of_nat (length (C i)) <= MAXFILE * BSIZE ->
  fbyte ip s o = nth (Z.to_nat o) (C i) 0.
Proof.
  intros Ho Hl. pose proof bsize_pos. destruct (block_at o ltac:(lia)) as (Hb & _ & _). assert (o / BSIZE < MAXFILE) by nia.
  apply mount_bytes; [lia|done|]. apply slots_of_lt; [done|lia].
Qed.
End Mount.
End Kernel.

(** ** Directory entries *)

Lemma fmap_nth_seqZ (l : list Z) a n : 0 <= a -> 0 <= n -> a + n <= Z.of_nat (length l) ->
  (fun o => nth (Z.to_nat o) l 0) <$> seqZ a n = take (Z.to_nat n) (drop (Z.to_nat a) l).
Proof.
  intros Ha Hn Hl. apply list_eq. intros k. rewrite list_lookup_fmap.
  destruct (decide (k < Z.to_nat n)%nat) as [Hk|Hk].
  - rewrite lookup_seqZ_lt by lia. rewrite lookup_take_lt by done. rewrite lookup_drop. simpl.
    rewrite <- nth_lookup_lt; [|lia]. f_equal. lia.
  - rewrite lookup_seqZ_ge by lia. rewrite lookup_take_ge by lia. done.
Qed.

Lemma take_drop_entries i files k f : files !! k = Some f ->
  take (Z.to_nat sizeof_dirent) (drop (Z.to_nat (Z.of_nat k * sizeof_dirent)) (entries i files)) =
  entry (i + Z.of_nat k) (strncpy_arr (Z.to_nat DIRSIZ) (file_name f.1)).
Proof.
  pose proof (proj1 sizeof_dirent_pos) as Hsz. revert i k. induction files as [|g r IH]; intros i [|k] Hk; try done; simpl in Hk.
  - injection Hk as ->. simpl. rewrite Z.add_0_r, drop_0, take_app_length'; [done|]. unfold entry. by rewrite dirent_length.
  - cbn [entries]. rewrite drop_app_ge by (unfold entry; rewrite dirent_length; nia).
    replace (i + Z.of_nat (S k)) with (i + 1 + Z.of_nat k) by lia. rewrite <- IH by done. do 2 f_equal.
    unfold entry. rewrite dirent_length. nia.
Qed.

Lemma root_entry files k : let e := root_entries files in
  take (Z.to_nat sizeof_dirent) (drop (Z.to_nat 0) e) = entry 1 (name_field [46]) /\
  take (Z.to_nat sizeof_dirent) (drop (Z.to_nat sizeof_dirent) e) = entry 1 (name_field [46; 46]) /\
  (forall f, files !! k = Some f -> take (Z.to_nat sizeof_dirent) (drop (Z.to_nat ((2 + Z.of_nat k) * sizeof_dirent)) e) =
     entry (2 + Z.of_nat k) (strncpy_arr (Z.to_nat DIRSIZ) (file_name f.1))).
Proof.
  pose proof (proj1 sizeof_dirent_pos) as Hsz. unfold root_entries.
  assert (Hl : forall i n, length (entry i n) = Z.to_nat sizeof_dirent) by (intros; apply dirent_length).
  split; [|split].
  - rewrite drop_0. by apply take_app_length'.
  - rewrite drop_app_length' by done. by apply take_app_length'.
  - intros f Hf. rewrite <- (take_drop_entries 2 files k f Hf). rewrite drop_app_ge, Hl by (rewrite Hl; nia).
    rewrite drop_app_ge, Hl by (rewrite Hl; nia). do 2 f_equal. nia.
Qed.

(** The kernel's view of a file of the image. *)
Lemma mounted_bytes files im D C {B : Type} {BL : BlockLayer B} {LL : BlockLaws B} (s : fsstate B) k f ip :
  fits files -> made files im D C -> mounted im s -> files !! k = Some f -> loaded (2 + Z.of_nat k) ip s ->
  file_ok ip s /\ i_type (ino ip s) = T_FILE /\ i_size (ino ip s) = Z.of_nat (length (contents f)) /\
  fbyte ip s <$> seqZ 0 (Z.of_nat (length (contents f))) = contents f.
Proof.
  intros F M Mo Hk Lo. destruct (m_files _ _ _ _ M k f Hk) as (HC & Ht & Hs).
  assert (Hi : 1 <= 2 + Z.of_nat k < im_freeinode im) by (rewrite (m_fi _ _ _ _ M); apply lookup_lt_Some in Hk; lia).
  pose proof (f_lens _ F) as Hl. rewrite Forall_lookup in Hl. specialize (Hl k f Hk). simpl in Hl. pose proof maxfile_small.
  pose proof (mount_dinode files im D C s M Mo _ ip Hi Lo) as Ed. split_and!.
  - apply (mount_file files im D C s F M Mo _ ip Hi Lo); [rewrite Hs; lia|rewrite Ht; done|].
    intros j Hj Hlt. apply slots_of_lt; [lia|]. rewrite HC. lia.
  - change (di_type (to_dinode (ino ip s)) = T_FILE). congruence.
  - change (di_size (to_dinode (ino ip s)) = Z.of_nat (length (contents f))). congruence.
  - transitivity ((fun o => nth (Z.to_nat o) (contents f) 0) <$> seqZ 0 (Z.of_nat (length (contents f)))).
    + apply list_fmap_ext. intros j o Ho. apply lookup_seqZ in Ho as [-> ?]. rewrite <- HC.
      apply (mount_content files im D C s M Mo _ ip Hi Lo); rewrite HC; lia.
    + rewrite fmap_nth_seqZ by lia. rewrite drop_0. apply take_ge. lia.
Qed.

(** The kernel reads a file of the image. *)
Lemma mounted_file files im D C {B : Type} {BL : BlockLayer B} {LL : BlockLaws B} (s : fsstate B) k f ip :
  fits files -> made files im D C -> mounted im s -> files !! k = Some f -> loaded (2 + Z.of_nat k) ip s ->
  file_ok ip s /\ i_type (ino ip s) = T_FILE /\
  forall dr T, bl_ok (fs_blk s) ∅ T -> let n := Z.of_nat (length (contents f)) in
    exists s', readi dr ip 0 n s = Ret (n, contents f) s'.
Proof.
  intros F M Mo Hk Lo. destruct (mounted_bytes files im D C s k f ip F M Mo Hk Lo) as (Hf & Ht & Es & Hb). split; [done|]. split; [done|].
  pose proof (f_lens _ F) as Hl. rewrite Forall_lookup in Hl. specialize (Hl k f Hk). simpl in Hl. pose proof maxfile_small.
  intros dr T Hok n. destruct (readi_returns_bytes dr ip s T 0 n Hok Hf) as (s' & E & _); [lia|lia|].
  exists s'. rewrite E, Es. fold n. replace (n <? 0) with false by (symmetry; apply Z.ltb_ge; lia).
  replace (4294967296 <=? 0 + n) with false by (symmetry; apply Z.leb_gt; lia). cbn [orb]. rewrite Z.sub_0_r, Z.min_id. subst n. by rewrite Hb.
Qed.

(** The name of a file as its entry has it. *)
Definition stored_name (f : file) : list Z := strncpy_arr (Z.to_nat DIRSIZ) (file_name f.1).

(** The kernel finds the entries in the root directory. *)
Lemma mounted_root files im D C {B : Type} {BL : BlockLayer B} {LL : BlockLaws B} (s : fsstate B) ip :
  fits files -> made files im D C -> mounted im s -> loaded 1 ip s ->
  ((2 + Z.of_nat (length files)) * sizeof_dirent) mod BSIZE <> 0 ->
  dir_ok ip s /\ dent ip s 0 = Dirent 1 (name_field [46]) /\ dent ip s 1 = Dirent 1 (name_field [46; 46]) /\
  (forall k f, files !! k = Some f -> dent ip s (2 + Z.of_nat k) = Dirent (2 + Z.of_nat k) (stored_name f)) /\
  2 + Z.of_nat (length files) <= ndents ip s.
Proof.
  intros F M Mo Lo Hmod. destruct (m_root _ _ _ _ M) as (HC & Ht & Hs). pose proof (proj1 sizeof_dirent_pos) as Hsz.
  assert (Hi : 1 <= 1 < im_freeinode im) by (rewrite (m_fi _ _ _ _ M); lia). pose proof bsize_pos. pose proof dirsiz_two.
  pose proof (length_root_entries files) as Hl. set (l := (2 + Z.of_nat (length files)) * sizeof_dirent) in *.
  pose proof (f_dir _ F) as Hd. fold l in Hd. pose proof (f_inodes _ F) as Hn. assert (Hl0 : 0 <= l) by (unfold l; nia).
  destruct (block_at l Hl0) as (Hb1 & Hb2 & Hb3). apply Hb2 in Hmod.
  assert (Hlm : l / BSIZE < MAXFILE) by nia. assert (Hq : 0 <= l / BSIZE) by (apply Z.div_pos; lia).
  pose proof (mount_dinode files im D C s M Mo _ ip Hi Lo) as Ed.
  assert (Es : i_size (ino ip s) = root_size files) by (change (di_size (to_dinode (ino ip s)) = root_size files); congruence).
  assert (Hf : file_ok ip s).
  { apply (mount_file files im D C s F M Mo _ ip Hi Lo); [rewrite Hs; unfold root_size; fold l; nia|rewrite Ht; done|].
    intros j Hj Hlt. apply slots_of_lt; [lia|]. rewrite HC, Hl. rewrite Hs in Hlt. unfold root_size in Hlt. fold l in Hlt.
    assert (j <= l / BSIZE) by nia. nia. }
  assert (Hdent : forall k i n, 0 <= k -> (k + 1) * sizeof_dirent <= l -> 0 <= i < 65536 -> length n = Z.to_nat DIRSIZ ->
    take (Z.to_nat sizeof_dirent) (drop (Z.to_nat (k * sizeof_dirent)) (root_entries files)) = entry i n -> dent ip s k = Dirent i n).
  { intros k i n Hk Hkl Hir Hnl E. unfold dent. rewrite <- (dirent_get_put (Dirent i n)) by done. f_equal. fold (entry i n). rewrite <- E.
    rewrite <- fmap_nth_seqZ by nia. apply list_fmap_ext. intros j o Ho. apply lookup_seqZ in Ho as [-> ?]. rewrite <- HC.
    apply (mount_content files im D C s M Mo _ ip Hi Lo); rewrite HC, Hl; nia. }
  assert (Hnf : forall c, (length c <= 2)%nat -> length (name_field c) = Z.to_nat DIRSIZ).
  { intros c Hc. unfold name_field. rewrite length_app, length_replicate. lia. }
  split; [|split; [|split; [|split]]]; [|..|unfold ndents; rewrite Es; apply Z.div_le_lower_bound; [lia|]; unfold root_size; fold l; rewrite Z.mul_comm; fold l; nia].
  - split; [done|change (di_type (to_dinode (ino ip s)) = T_DIR); congruence|]. rewrite Es. unfold root_size.
    rewrite Z.mul_mod, (proj2 sizeof_dirent_pos), Z.mul_0_r by lia. apply Z.mod_0_l. lia.
  - apply Hdent; try lia; try (unfold l; nia); [apply Hnf; simpl; lia|]. rewrite Z.mul_0_l. apply (root_entry files 0).
  - apply Hdent; try lia; try (unfold l; nia); [apply Hnf; simpl; lia|]. rewrite Z.mul_1_l. apply (root_entry files 0).
  - intros k f Hk. pose proof (lookup_lt_Some _ _ _ Hk) as Hkn. unfold NINODES in *.
    change (k < @length file files)%nat in Hkn.
    assert (Hkl : (2 + Z.of_nat k + 1) * sizeof_dirent <= (2 + Z.of_nat (length files)) * sizeof_dirent).
    { apply Z.mul_le_mono_nonneg_r; lia. }
    apply Hdent; [lia|done|lia|apply strncpy_arr_length|].
    by apply root_entry.
Qed.

(** dirlookup finds a file by its name, when no earlier entry has the same name. *)
Lemma mounted_lookup_eq files im D C {B : Type} {BL : BlockLayer B} {LL : BlockLaws B} (s : fsstate B) ip dr T name k f :
  fits files -> made files im D C -> mounted im s -> loaded 1 ip s ->
  ((2 + Z.of_nat (length files)) * sizeof_dirent) mod BSIZE <> 0 -> bl_ok (fs_blk s) ∅ T ->
  files !! k = Some f -> namecmp name (stored_name f) = 0 ->
  Forall (fun n => namecmp name n <> 0) (name_field [46] :: name_field [46; 46] :: (stored_name <$> take k files)) ->
  exists B', dirlookup dr ip name s =
      (let! jp := iget ROOTDEV (2 + Z.of_nat k) in kret (Some (jp, (2 + Z.of_nat k) * sizeof_dirent))) (set_blk B' s) /\
    bl_ok B' ∅ T /\ forall y, bl_view B' y = view s y.
Proof.
  intros F M Mo Lo Hmod Hok Hk Hn Hfirst.
  destruct (mounted_root files im D C s ip F M Mo Lo Hmod) as (Hd & D0 & D1 & Dk & Hnd). pose proof (lookup_lt_Some _ _ _ Hk) as Hkl.
  change (k < @length file files)%nat in Hkl. apply Forall_cons in Hfirst as [N0 [N1 Nk]%Forall_cons].
  destruct (dirlookup_hit dr ip s T name (2 + Z.of_nat k) Hok Hd) as (B' & E & Hb); [lia| | |].
  - unfold entry_matches. rewrite (Dk k f Hk). cbn. split; [lia|done].
  - intros j Hj [_ Hm]. destruct (decide (j = 0)) as [->|]; [by rewrite D0 in Hm|]. destruct (decide (j = 1)) as [->|]; [by rewrite D1 in Hm|].
    destruct (lookup_lt_is_Some_2 files (Z.to_nat (j - 2))) as [g Hg]; [change (Z.to_nat (j - 2) < @length file files)%nat; lia|].
    specialize (Dk _ _ Hg). replace (2 + Z.of_nat (Z.to_nat (j - 2))) with j in Dk by lia. rewrite Dk in Hm.
    rewrite Forall_fmap, Forall_lookup in Nk. apply (Nk (Z.to_nat (j - 2)) g); [|done]. rewrite lookup_take_lt by lia. done.
  - rewrite (Dk k f Hk) in E. exists B'. by split.
Qed.

Lemma mounted_lookup files im D C {B : Type} {BL : BlockLayer B} {LL : BlockLaws B} (s : fsstate B) ip dr T name k f free :
  fits files -> made files im D C -> mounted im s -> loaded 1 ip s ->
  ((2 + Z.of_nat (length files)) * sizeof_dirent) mod BSIZE <> 0 -> bl_ok (fs_blk s) ∅ T ->
  files !! k = Some f -> namecmp name (stored_name f) = 0 ->
  Forall (fun n => namecmp name n <> 0) (name_field [46] :: name_field [46; 46] :: (stored_name <$> take k files)) ->
  ic_lk s = false -> (free < length (inodes s))%nat -> i_ref (inode_at s free) = 0 ->
  exists jp off s', dirlookup dr ip name s = Ret (Some (jp, off)) s' /\
    i_dev (inode_at s' jp) = ROOTDEV /\ i_inum (inode_at s' jp) = 2 + Z.of_nat k.
Proof.
  intros F M Mo Lo Hmod Hok Hk Hn Hfirst Hlk Hfl Hfr.
  destruct (mounted_lookup_eq files im D C s ip dr T name k f F M Mo Lo Hmod Hok Hk Hn Hfirst) as (B' & E & _).
  destruct (iget_finds ROOTDEV (2 + Z.of_nat k) (set_blk B' s) free Hlk Hfl Hfr) as (jp & s2 & E3 & Hdev & Hinum & _).
  exists jp, ((2 + Z.of_nat k) * sizeof_dirent), s2. rewrite E, (kbind_ret _ _ _ _ _ E3). done.
Qed.

(** With a directory that ends at a block boundary the size that mkfs writes for the root
    reaches into a block that is not there: reading the directory makes readi allocate it. *)
Lemma mounted_root_hole files im D C {B : Type} {BL : BlockLayer B} {LL : BlockLaws B} (s : fsstate B) ip :
  fits files -> made files im D C -> mounted im s -> loaded 1 ip s ->
  ((2 + Z.of_nat (length files)) * sizeof_dirent) mod BSIZE = 0 ->
  (2 + Z.of_nat (length files)) * sizeof_dirent < MAXFILE * BSIZE ->
  exists k, 0 <= k < MAXFILE /\ k * BSIZE < i_size (ino ip s) /\ blockno ip s k = 0.
Proof.
  intros F M Mo Lo Hmod Hlt. destruct (m_root _ _ _ _ M) as (HC & Ht & Hs). pose proof (proj1 sizeof_dirent_pos) as Hsz.
  assert (Hi : 1 <= 1 < im_freeinode im) by (rewrite (m_fi _ _ _ _ M); lia). pose proof bsize_pos.
  pose proof (length_root_entries files) as Hl. set (l := (2 + Z.of_nat (length files)) * sizeof_dirent) in *.
  assert (Hl0 : 0 <= l) by (unfold l; nia). pose proof (Z.div_mod l BSIZE) as Edm.
  assert (Hq : 0 <= l / BSIZE) by (apply Z.div_pos; lia). assert (Hlm : l / BSIZE < MAXFILE) by nia.
  pose proof (mount_dinode files im D C s M Mo _ ip Hi Lo) as Ed.
  assert (Es : i_size (ino ip s) = root_size files) by (change (di_size (to_dinode (ino ip s)) = root_size files); congruence).
  exists (l / BSIZE). split; [done|]. split; [rewrite Es; unfold root_size; fold l; nia|].
  rewrite (mount_slot files im D C s M Mo _ ip Hi Lo) by done.
  destruct (mount_slots files im D C M _ Hi (l / BSIZE)) as [[Hp _]|[_ ?]]; [lia| |done].
  apply slots_of_lt in Hp; [|done]. rewrite HC, Hl in Hp. nia.
Qed.
End Main.

(** C12: when the files fit on the disk mkfs succeeds, and on a kernel whose disk holds the image
    it wrote every file can be read: inode 2 + k holds file k, readi returns exactly its
    bytes, however read cut it into pieces, and the invariants the file system relies on
    (bitmap, distinct blocks, no holes) hold.  Unless the entries of the root directory end at a
    block boundary, the root is a directory without holes and dirlookup finds every file in it
    by its name, the first of those with the same first DIRSIZ bytes.  If they do end at a block
    boundary, the size that mkfs gives the root reaches into a block that is not there. *)
Theorem mkfs_files_readable `{FH : FsH} {FL : FsLaws} {MH : MkfsH} {ML : MkfsLaws} (files : list file) :
  fits files ->
  exists im, mkfs files blank = Ret tt im /\
    forall (B : Type) (BL : BlockLayer B) (LL : BlockLaws B) (s : fsstate B), mounted im s ->
    (forall k f ip, files !! k = Some f -> loaded (2 + Z.of_nat k) ip s ->
       file_ok ip s /\ i_type (ino ip s) = T_FILE /\
       forall dr T, bl_ok (fs_blk s) ∅ T -> let n := Z.of_nat (length (contents f)) in
         exists s', readi dr ip 0 n s = Ret (n, contents f) s') /\
    (forall ip, loaded 1 ip s -> let dirsize := (2 + Z.of_nat (length files)) * sizeof_dirent in
       (dirsize mod BSIZE <> 0 -> dir_ok ip s /\
          forall dr T name k f free, bl_ok (fs_blk s) ∅ T -> files !! k = Some f -> namecmp name (stored_name f) = 0 ->
            Forall (fun n => namecmp name n <> 0) (name_field [46] :: name_field [46; 46] :: (stored_name <$> take k files)) ->
            ic_lk s = false -> (free < length (inodes s))%nat -> i_ref (inode_at s free) = 0 ->
            exists jp off s', dirlookup dr ip name s = Ret (Some (jp, off)) s' /\
              i_dev (inode_at s' jp) = ROOTDEV /\ i_inum (inode_at s' jp) = 2 + Z.of_nat k) /\
       (dirsize mod BSIZE = 0 -> dirsize < MAXFILE * BSIZE ->
          exists k, 0 <= k < MAXFILE /\ k * BSIZE < i_size (ino ip s) /\ blockno ip s k = 0)).
Proof.
  intros F. destruct (mkfs_made files F) as (im & D & C & E & M). exists im. split; [done|].
  intros B BL LL s Mo. split.
  - intros k f ip Hk Lo. by apply (mounted_file files im D C s k).
  - intros ip Lo. split; [|by apply (mounted_root_hole files im D C)]. intros Hmod.
    split; [by apply (mounted_root files im D C)|]. intros. by eapply (mounted_lookup files im D C).
Qed.

(** ** mkfs on the layout of FsGeom.v

    The laws of mkfs hold of the concrete layout, and a small image is made. *)

From S2P Require Import Log LogSafe FsLog FsGeom.

#[export] Instance geom_mkfs : MkfsH := {
  bytes_of_sb s := le32 (sb_size s) ++ le32 (sb_nblocks s) ++ le32 (sb_ninodes s) ++ le32 (sb_nlog s) ++
    le32 (sb_logstart s) ++ le32 (sb_inodestart s) ++ le32 (sb_bmapstart s) }.

#[export] Instance geom_mkfs_laws : MkfsLaws.
Proof. split; vm_compute; done. Qed.

(** A README of 532 bytes, delivered in two pieces, and an empty program _c. *)
Definition two_files : list file := [([82; 69], [replicate 512 65; replicate 20 66]); ([95; 99], [])].

Lemma two_files_fit : fits two_files.
Proof.
  split; [| |vm_compute; done|vm_compute; done|vm_compute; done].
  - repeat constructor; vm_compute; done.
  - repeat constructor; vm_compute; done.
Qed.

(** The kernel's state on a disk with image [im]: inodes 1 to 3 are in the cache as ilock
    reads them, the other entries are free. *)
Definition disk_inode (im : image) (i : Z) : inode :=
  let d := dinode_at (im_blk im (IBLOCK i sb)) (i mod IPB) in
  Inode ROOTDEV i 1 (SleepLock 1 false "inode" 1) 1 (di_type d) (di_major d) (di_minor d) (di_nlink d) (di_size d) (di_addrs d).
Definition booted (im : image) (l : logstate) : fsstate logstate :=
  FsState false (disk_inode im 1 :: disk_inode im 2 :: disk_inode im 3 :: replicate 47 null_inode) sb l 1 0%nat [].

Lemma geom_mounted im (s : fsstate logstate) : (forall y, FsBlocks.view s y = im_blk im y) -> fs_sb s = sb -> mounted im s.
Proof.
  intros Hv Hs. constructor; [exact Hv|done|intros b Hb; exact Hb|]. intros b Hb Ho. change istart with 32 in Ho. cbn. unfold outside. lia.
Qed.
Lemma booted_loaded im l i : (forall y, bl_view l y = im_blk im y) -> (i < 3)%nat -> loaded (1 + Z.of_nat i) i (booted im l).
Proof.
  intros Hv Hi. assert (E : forall x, FsBlocks.view (booted im l) x = im_blk im x) by exact Hv.
  destruct i as [|[|[|i]]]; [..|lia]; (constructor; [cbn; lia|done|done|]; rewrite E; cbn [fs_sb booted];
    unfold to_dinode; cbn [ino inode_at inodes nth booted disk_inode i_type i_major i_minor i_nlink i_size i_addrs]; by destruct (dinode_at _ _)).
Qed.

(** The image of the two files, mounted over the log: reading inode 2 returns the README, and
    the program is found by the name c. *)
Lemma mkfs_files_readable_witness : exists im l, mkfs two_files blank = Ret tt im /\ im_freeblock im = 62 /\ mounted im (booted im l) /\
  (exists s', readi (fun _ => None) 1 0 532 (booted im l) = Ret (532, replicate 512 65 ++ replicate 20 66) s') /\
  (exists jp off s', dirlookup (fun _ => None) 0 [99; 0] (booted im l) = Ret (Some (jp, off)) s' /\ i_inum (inode_at s' jp) = 3).
Proof.
  destruct (mkfs_files_readable two_files two_files_fit) as (im & E & H). exists im.
  assert (Hc : forall (A : Type) (g : image -> A) (d : A), g im = match mkfs two_files blank with Ret _ im' => g im' | _ => d end) by (intros; by rewrite E).
  destruct (boot_begun (im_blk im)) as (l & Hok & Hv).
  { rewrite (Hc Z (fun im => hd_n (im_blk im 2)) 0). vm_compute. reflexivity. }
  { apply Nat.leb_le. rewrite (Hc bool (fun im => Nat.leb _ (length (im_blk im 2))) true). vm_compute. reflexivity. }
  exists l. pose proof (geom_mounted im (booted im l) Hv eq_refl) as Mo. destruct (H logstate _ _ (booted im l) Mo) as [Hf Hr].
  split; [exact E|]. split; [rewrite (Hc Z im_freeblock 62); vm_compute; reflexivity|]. split; [exact Mo|]. split.
  - destruct (Hf 0%nat _ 1%nat eq_refl (booted_loaded im l 1 Hv ltac:(lia))) as (_ & _ & Hrd). exact (Hrd (fun _ => None) ∅ Hok).
  - destruct (Hr 0%nat (booted_loaded im l 0 Hv ltac:(lia))) as [Hl _].
    destruct Hl as [_ Hl]; [vm_compute; discriminate|].
    destruct (Hl (fun _ => None) ∅ [99; 0] 1%nat ([95; 99], []) 5%nat Hok eq_refl eq_refl) as (jp & off & s' & E1 & _ & E2);
      [repeat constructor; vm_compute; discriminate|reflexivity|vm_compute; lia|reflexivity|].
    exists jp, off, s'. split; [exact E1|exact E2].
Defined.
