(* ===== verification/Ide.v ===== *)
(** * The disk driver (ide.c)

    The queue of buffers that wait for the disk, linked through qnext, and the routines
    that append to it and take from it.  What the driver writes to the controller's ports is
    recorded in order; what it reads is arbitrary: [status n] is the value of the n-th read
    of the status port, [sector_data n] what the n-th insl delivers.  The interrupt
    controller is programmed elsewhere (ioapicenable is left out). *)

From S2P Require Import Prelude Layout Sleeplock Fsdefs.

Definition SECTOR_SIZE : Z := 512.
Definition IDE_BSY : Z := 128.
Definition IDE_DRDY : Z := 64.
Definition IDE_DF : Z := 32.
Definition IDE_ERR : Z := 1.
Definition IDE_CMD_READ : Z := 32.
Definition IDE_CMD_WRITE : Z := 48.
Definition IDE_CMD_RDMUL : Z := 196.
Definition IDE_CMD_WRMUL : Z := 197.

(** The buffer flags of buf.h. *)
Definition F_VALID : Z := 2.
Definition F_DIRTY : Z := 4.

Record ibuf := IBuf {
  ib_flags : Z; ib_dev : Z; ib_blockno : Z; ib_lock : sleeplock; ib_qnext : option nat; ib_data : list Z }.

(** Output to the ports: outb and outsl. *)
Inductive io := Outb (port v : Z) | Outsl (port : Z) (data : list Z).

Record ide := Ide {
  ide_bufs : list ibuf;
  idequeue : option nat;
  idelock : bool;            (* idelock held *)
  havedisk1 : Z;
  ide_out : list io;         (* port output, in order *)
  ide_polls : nat;           (* reads of the status port so far *)
  ide_reads : nat;           (* insl calls so far *)
  ide_woken : list nat       (* buffers given to wakeup, in order *)
}.

Definition set_ibufs l s := Ide l (idequeue s) (idelock s) (havedisk1 s) (ide_out s) (ide_polls s) (ide_reads s) (ide_woken s).
Definition set_idequeue q s := Ide (ide_bufs s) q (idelock s) (havedisk1 s) (ide_out s) (ide_polls s) (ide_reads s) (ide_woken s).
Definition set_idelock b s := Ide (ide_bufs s) (idequeue s) b (havedisk1 s) (ide_out s) (ide_polls s) (ide_reads s) (ide_woken s).
Definition set_havedisk1 v s := Ide (ide_bufs s) (idequeue s) (idelock s) v (ide_out s) (ide_polls s) (ide_reads s) (ide_woken s).
Definition add_out o s := Ide (ide_bufs s) (idequeue s) (idelock s) (havedisk1 s) (ide_out s ++ [o]) (ide_polls s) (ide_reads s) (ide_woken s).
Definition add_poll s := Ide (ide_bufs s) (idequeue s) (idelock s) (havedisk1 s) (ide_out s) (S (ide_polls s)) (ide_reads s) (ide_woken s).
Definition add_read s := Ide (ide_bufs s) (idequeue s) (idelock s) (havedisk1 s) (ide_out s) (ide_polls s) (S (ide_reads s)) (ide_woken s).
Definition add_woken b s := Ide (ide_bufs s) (idequeue s) (idelock s) (havedisk1 s) (ide_out s) (ide_polls s) (ide_reads s) (ide_woken s ++ [b]).

Definition set_iflags v b := IBuf v (ib_dev b) (ib_blockno b) (ib_lock b) (ib_qnext b) (ib_data b).
Definition set_ilock l b := IBuf (ib_flags b) (ib_dev b) (ib_blockno b) l (ib_qnext b) (ib_data b).
Definition set_qnext q b := IBuf (ib_flags b) (ib_dev b) (ib_blockno b) (ib_lock b) q (ib_data b).
Definition set_idata d b := IBuf (ib_flags b) (ib_dev b) (ib_blockno b) (ib_lock b) (ib_qnext b) d.

Definition null_buf : ibuf := IBuf 0 0 0 (SleepLock 0 false "" 0) None [].
Definition ibuf_at (s : ide) (b : nat) : ibuf := nth b (ide_bufs s) null_buf.
Definition upd_ibuf (b : nat) (f : ibuf -> ibuf) (s : ide) : ide := set_ibufs (alter f b (ide_bufs s)) s.

Section Ide.
Context `{FH : FsH}.
Variable status : nat -> Z.
Variable sector_data : nat -> list Z.
(** How often the status port is polled before the model gives up. *)
Variable poll_limit : nat.

Definition outb (port v : Z) : K ide unit := kmodify (add_out (Outb port (u8 v))).
Definition outsl (port : Z) (d : list Z) : K ide unit := kmodify (add_out (Outsl port d)).
Definition inb_status : K ide Z :=
  let! n := kget ide_polls in
  kmodify add_poll ;;
  kret (u8 (status n)).
Definition insl : K ide (list Z) :=
  let! n := kget ide_reads in
  kmodify add_read ;;
  kret (sector_data n).

Definition ide_acquire : K ide unit :=
  let! held := kget idelock in
  if held : bool then kpanic "acquire" else kmodify (set_idelock true).
Definition ide_release : K ide unit :=
  let! held := kget idelock in
  if held : bool then kmodify (set_idelock false) else kpanic "release".

Fixpoint poll (fuel : nat) : K ide Z :=
  match fuel with
  | O => knofuel
  | S fuel =>
    let! r := inb_status in
    if Z.land r (Z.lor IDE_BSY IDE_DRDY) =? IDE_DRDY then kret r else poll fuel
  end.

Definition idewait (checkerr : bool) : K ide Z :=
  let! r := poll poll_limit in
  if checkerr && truth (Z.land r (Z.lor IDE_DF IDE_ERR)) then kret (-1) else kret 0.

(** Look whether disk 1 is there: up to 1000 reads of its status. *)
Fixpoint probe (n : nat) : K ide unit :=
  match n with
  | O => kret tt
  | S n =>
    let! r := inb_status in
    if truth r then kmodify (set_havedisk1 1) else probe n
  end.

Definition ideinit : K ide unit :=
  kmodify (set_idelock false) ;;
  idewait false ;;
  outb 502 (Z.lor 224 (Z.shiftl 1 4)) ;;
  probe 1000 ;;
  outb 502 (Z.lor 224 (Z.shiftl 0 4)).

Definition idestart (b : option nat) : K ide unit :=
  match b with
  | None => kpanic "idestart"
  | Some b =>
    let! x := kget (fun s => ibuf_at s b) in
    if FSSIZE <=? ib_blockno x then kpanic "incorrect blockno" else
    let sector_per_block := BSIZE / SECTOR_SIZE in
    let sector := s32 (ib_blockno x * sector_per_block) in
    let read_cmd := if sector_per_block =? 1 then IDE_CMD_READ else IDE_CMD_RDMUL in
    let write_cmd := if sector_per_block =? 1 then IDE_CMD_WRITE else IDE_CMD_WRMUL in
    if 7 <? sector_per_block then kpanic "idestart" else
    idewait false ;;
    outb 1014 0 ;;
    outb 498 sector_per_block ;;
    outb 499 (Z.land sector 255) ;;
    outb 500 (Z.land (Z.shiftr sector 8) 255) ;;
    outb 501 (Z.land (Z.shiftr sector 16) 255) ;;
    outb 502 (Z.lor (Z.lor 224 (Z.shiftl (Z.land (ib_dev x) 1) 4)) (Z.land (Z.shiftr sector 24) 15)) ;;
    if truth (Z.land (ib_flags x) F_DIRTY) then
      outb 503 write_cmd ;;
      outsl 496 (ib_data x)
    else outb 503 read_cmd
  end.

Definition ideintr : K ide unit :=
  ide_acquire ;;
  let! q := kget idequeue in
  match q with
  | None => ide_release
  | Some b =>
    let! x := kget (fun s => ibuf_at s b) in
    kmodify (set_idequeue (ib_qnext x)) ;;
    (if truth (Z.land (ib_flags x) F_DIRTY) then kret tt else
     let! r := idewait true in
     if 0 <=? r then
       let! d := insl in
       kmodify (upd_ibuf b (set_idata d))
     else kret tt) ;;
    kmodify (upd_ibuf b (fun x => set_iflags (Z.lor (ib_flags x) F_VALID) x)) ;;
    kmodify (upd_ibuf b (fun x => set_iflags (Z.land (ib_flags x) (Z.lnot F_DIRTY)) x)) ;;
    kmodify (add_woken b) ;;
    let! q' := kget idequeue in
    (match q' with None => kret tt | Some _ => idestart q' end) ;;
    ide_release
  end.

(** [for(pp = &idequeue; *pp; pp = &( *pp)->qnext)]: the last buffer of the queue. *)
Fixpoint queue_end (fuel : nat) (b : nat) : K ide nat :=
  match fuel with
  | O => knofuel
  | S fuel =>
    let! x := kget (fun s => ibuf_at s b) in
    match ib_qnext x with
    | None => kret b
    | Some c => queue_end fuel c
    end
  end.

Definition enqueue (b : nat) : K ide unit :=
  let! q := kget idequeue in
  match q with
  | None => kmodify (set_idequeue (Some b))
  | Some h =>
    let! n := kget (fun s => length (ide_bufs s)) in
    let! e := queue_end n h in
    kmodify (upd_ibuf e (set_qnext (Some b)))
  end.

Definition ide_on_lock {A} (b : nat) (c : K sleeplock A) : K ide A :=
  kzoom (fun s => ib_lock (ibuf_at s b)) (fun l => upd_ibuf b (set_ilock l)) c.

Definition ide_chan (b : nat) : Z := Z.of_nat b.

(** The loop of iderw up to its next sleep, which gives idelock up. *)
Definition iderw_wait (b : nat) : K ide unit :=
  let! x := kget (fun s => ibuf_at s b) in
  if Z.land (ib_flags x) (Z.lor F_VALID F_DIRTY) =? F_VALID then ide_release
  else ide_release ;; ksleep (ide_chan b).

(** After a wakeup sleep takes idelock again and the loop goes on. *)
Definition iderw_resume (b : nat) : K ide unit := ide_acquire ;; iderw_wait b.

Definition iderw (b : nat) : K ide unit :=
  let! h := ide_on_lock b holdingsleep in
  if negb h then kpanic "iderw: buf not locked" else
  let! x := kget (fun s => ibuf_at s b) in
  if Z.land (ib_flags x) (Z.lor F_VALID F_DIRTY) =? F_VALID then kpanic "iderw: nothing to do" else
  let! have := kget havedisk1 in
  if negb (ib_dev x =? 0) && negb (truth have) then kpanic "iderw: ide disk 1 not present" else
  ide_acquire ;;
  kmodify (upd_ibuf b (set_qnext None)) ;;
  enqueue b ;;
  let! q := kget idequeue in
  (if bool_decide (q = Some b) then idestart (Some b) else kret tt) ;;
  iderw_wait b.
End Ide.
