(* ===== verification/IdeProps.v ===== *)
(** * The disk driver under concurrent requests (ide.c)

    Processes that hold a buffer call iderw, sleep in it and are woken by the interrupt
    handler, in any order.  Requests reach the disk one at a time, in the order in which
    they were made, and no process sleeps whose request is not in the queue. *)

From S2P Require Import Prelude Layout Sleeplock Fsdefs Ide.

(** The queue that starts at [q] holds the buffers [Q]. *)
Fixpoint linked (bs : list ibuf) (q : option nat) (Q : list nat) : Prop :=
  match Q with
  | [] => q = None
  | b :: r => q = Some b /\ (b < length bs)%nat /\ linked bs (ib_qnext (nth b bs null_buf)) r
  end.

Lemma linked_frame bs bs' q Q : length bs' = length bs ->
  (forall b, b ∈ Q -> ib_qnext (nth b bs' null_buf) = ib_qnext (nth b bs null_buf)) ->
  linked bs q Q -> linked bs' q Q.
Proof.
  intros Hl. revert q. induction Q as [|b r IH]; intros q Hq; [done|]. simpl. intros (H1 & H2 & H3).
  split_and!; [done|lia|]. rewrite Hq by left. apply IH; [|done]. intros c Hc. apply Hq. by right.
Qed.

(** Appending at the last buffer. *)
Lemma linked_snoc bs q Q e b : linked bs q (Q ++ [e]) -> NoDup (Q ++ [e]) -> b ∉ Q ++ [e] -> (b < length bs)%nat ->
  ib_qnext (nth b bs null_buf) = None -> linked (alter (set_qnext (Some b)) e bs) q (Q ++ [e; b]).
Proof.
  revert q. induction Q as [|c r IH]; intros q; simpl.
  - intros (-> & He & _) _ Hb Hlt Hn. rewrite length_alter, nth_alter_eq by done. simpl.
    split_and!; try done. rewrite nth_alter_ne; [done|]. intros ->. apply Hb. left.
  - intros (-> & Hc & Hr) [Hnc Hnd]%NoDup_cons Hb Hlt Hn. rewrite length_alter. split_and!; try done.
    rewrite nth_alter_ne; [|intros ->; apply Hnc, elem_of_app; right; left].
    apply IH; try done. intros Hin. apply Hb. by right.
Qed.

Section Props.
Context `{FH : FsH}.
Variable status : nat -> Z.
Variable sector_data : nat -> list Z.
Variable poll_limit : nat.
(** The controller is ready within [poll_limit] reads of its status. *)
Hypothesis ready : forall n, exists k, (k < poll_limit)%nat /\
  Z.land (u8 (status (n + k))) (Z.lor IDE_BSY IDE_DRDY) = IDE_DRDY.
Hypothesis few_sectors : 1 <= BSIZE / SECTOR_SIZE <= 7.

Notation idewait := (idewait status poll_limit).
Notation idestart := (idestart status poll_limit).
Notation ideintr := (ideintr status sector_data poll_limit).
Notation iderw := (iderw status poll_limit).

(** ** Polling *)

Definition set_polls (n : nat) (s : ide) : ide :=
  Ide (ide_bufs s) (idequeue s) (idelock s) (havedisk1 s) (ide_out s) n (ide_reads s) (ide_woken s).

Lemma poll_ok fuel s : (exists k, (k < fuel)%nat /\ Z.land (u8 (status (ide_polls s + k))) (Z.lor IDE_BSY IDE_DRDY) = IDE_DRDY) ->
  exists r n, poll status fuel s = Ret r (set_polls n s).
Proof.
  revert s. induction fuel as [|fuel IH]; intros s (k & Hk & Hr); [lia|]. cbn [poll]. unfold inb_status. krun.
  destruct (Z.eqb_spec (Z.land (u8 (status (ide_polls s))) (Z.lor IDE_BSY IDE_DRDY)) IDE_DRDY) as [E|E].
  - by eexists _, (S (ide_polls s)).
  - destruct k as [|k]; [by rewrite Nat.add_0_r in Hr|].
    destruct (IH (add_poll s)) as (r & n & En); [exists k; split; [lia|]; simpl; by rewrite <- Nat.add_succ_r|].
    exists r, n. rewrite En. done.
Qed.

Lemma idewait_ok c s : exists r n, idewait c s = Ret r (set_polls n s).
Proof.
  destruct (poll_ok poll_limit s (ready _)) as (r & n & E). unfold idewait. rewrite (kbind_ret _ _ _ _ _ E).
  destruct (c && _); by eexists _, n.
Qed.

(** ** Starting a request *)

(** What is written to the ports for a request. *)
Definition sector_of (x : ibuf) : Z := s32 (ib_blockno x * (BSIZE / SECTOR_SIZE)).
Definition drive_of (x : ibuf) : Z :=
  Z.lor (Z.lor 224 (Z.shiftl (Z.land (ib_dev x) 1) 4)) (Z.land (Z.shiftr (sector_of x) 24) 15).
Definition start_io (x : ibuf) : list io :=
  [Outb 1014 (u8 0); Outb 498 (u8 (BSIZE / SECTOR_SIZE)); Outb 499 (u8 (Z.land (sector_of x) 255));
   Outb 500 (u8 (Z.land (Z.shiftr (sector_of x) 8) 255)); Outb 501 (u8 (Z.land (Z.shiftr (sector_of x) 16) 255));
   Outb 502 (u8 (drive_of x))] ++
  if truth (Z.land (ib_flags x) F_DIRTY) then
    [Outb 503 (u8 (if BSIZE / SECTOR_SIZE =? 1 then IDE_CMD_WRITE else IDE_CMD_WRMUL)); Outsl 496 (ib_data x)]
  else [Outb 503 (u8 (if BSIZE / SECTOR_SIZE =? 1 then IDE_CMD_READ else IDE_CMD_RDMUL))].

Definition add_outs (l : list io) (s : ide) : ide :=
  Ide (ide_bufs s) (idequeue s) (idelock s) (havedisk1 s) (ide_out s ++ l) (ide_polls s) (ide_reads s) (ide_woken s).

Lemma add_out_first o s : add_out o s = add_outs [o] s.
Proof. done. Qed.
Lemma add_out_outs o l s : add_out o (add_outs l s) = add_outs (l ++ [o]) s.
Proof. destruct s. unfold add_outs, add_out. simpl. by rewrite <- app_assoc. Qed.

Lemma idestart_ok b s : ib_blockno (ibuf_at s b) < FSSIZE ->
  exists n, idestart (Some b) s = Ret tt (add_outs (start_io (ibuf_at s b)) (set_polls n s)).
Proof.
  intros Hb. destruct (idewait_ok false s) as (r & n & E). exists n. unfold idestart. krun.
  replace (FSSIZE <=? ib_blockno (ibuf_at s b)) with false by (symmetry; apply Z.leb_gt; lia).
  replace (7 <? BSIZE / SECTOR_SIZE) with false by (symmetry; apply Z.ltb_ge; lia).
  rewrite (kbind_ret _ _ _ _ _ E). unfold outb, outsl. krun. unfold start_io, drive_of. change (s32 (ib_blockno (ibuf_at s b) * (BSIZE / SECTOR_SIZE))) with (sector_of (ibuf_at s b)).
  generalize (sector_of (ibuf_at s b)). intros sec.
  destruct (truth _); krun; unfold kmodify; rewrite (add_out_first (Outb 1014 (u8 0))), !add_out_outs; reflexivity.
Qed.

(** ** The queue *)

Definition pending (x : ibuf) : Prop := Z.land (ib_flags x) (Z.lor F_VALID F_DIRTY) <> F_VALID.

Lemma flags_done f : Z.land (Z.land (Z.lor f F_VALID) (Z.lnot F_DIRTY)) (Z.lor F_VALID F_DIRTY) = F_VALID.
Proof.
  rewrite <- Z.land_assoc. change (Z.land (Z.lnot F_DIRTY) (Z.lor F_VALID F_DIRTY)) with F_VALID.
  rewrite Z.land_lor_distr_l. change F_VALID with (2 ^ 1). rewrite (land_bit 1 f) by lia. by destruct (Z.testbit f 1).
Qed.

(** The same buffer up to its place in the queue. *)
Definition same_core (x y : ibuf) : Prop :=
  ib_flags x = ib_flags y /\ ib_dev x = ib_dev y /\ ib_blockno x = ib_blockno y /\ ib_data x = ib_data y.

Lemma same_core_sym x y : same_core x y -> same_core y x.
Proof. intros (? & ? & ? & ?). unfold same_core. by split_and!. Qed.
Lemma same_core_trans x y z : same_core x y -> same_core y z -> same_core x z.
Proof. intros (? & ? & ? & ?) (? & ? & ? & ?). unfold same_core. split_and!; congruence. Qed.
Lemma start_io_core x y : same_core x y -> start_io x = start_io y.
Proof. intros (E1 & E2 & E3 & E4). unfold start_io, drive_of, sector_of. by rewrite E1, E2, E3, E4. Qed.

Lemma queue_end_ok Q e : forall fuel h s, linked (ide_bufs s) (Some h) (Q ++ [e]) -> (length (Q ++ [e]) <= fuel)%nat ->
  queue_end fuel h s = Ret e s.
Proof.
  induction Q as [|c r IH]; intros [|fuel] h s; simpl; try lia; intros (E & _ & Hr) Hl; injection E as ->; krun; unfold ibuf_at.
  - by rewrite Hr.
  - assert (Hx : exists g, ib_qnext (nth c (ide_bufs s) null_buf) = Some g) by (destruct r; destruct Hr as [-> _]; eauto).
    destruct Hx as [g Hg]. rewrite Hg in *. by apply IH; [|lia].
Qed.

Lemma linked_lt bs q Q b : linked bs q Q -> b ∈ Q -> (b < length bs)%nat.
Proof.
  revert q. induction Q as [|c r IH]; intros q; simpl; [intros _ ?%elem_of_nil; done|].
  intros (_ & Hc & Hr) [->|Hb]%elem_of_cons; [done|]. by eapply IH.
Qed.

Lemma linked_length bs q Q : linked bs q Q -> NoDup Q -> (length Q <= length bs)%nat.
Proof.
  intros HL Hn. rewrite <- (length_seq (length bs) 0). apply NoDup_incl_length; [by apply NoDup_ListNoDup|].
  intros b Hb%list_elem_of_In. apply in_seq. pose proof (linked_lt _ _ _ _ HL Hb). lia.
Qed.

Lemma enqueue_ok b s Q : linked (ide_bufs s) (idequeue s) Q -> NoDup Q -> b ∉ Q -> (b < length (ide_bufs s))%nat ->
  ib_qnext (ibuf_at s b) = None ->
  exists bs', enqueue b s = Ret tt (set_ibufs bs' (set_idequeue (Some (hd b Q)) s)) /\
    length bs' = length (ide_bufs s) /\ linked bs' (Some (hd b Q)) (Q ++ [b]) /\
    forall c, same_core (nth c bs' null_buf) (ibuf_at s c).
Proof.
  intros HL Hn Hb Hlt Hq. unfold enqueue. krun. destruct Q as [|h r].
  - simpl in HL. rewrite HL. exists (ide_bufs s). split; [done|]. split; [done|]. split; [|done].
    simpl. split_and!; done.
  - pose proof HL as (E & _ & _). rewrite E. destruct (exists_last (l := h :: r)) as (Q' & e & EQ); [done|].
    rewrite EQ in HL, Hn, Hb. krun.
    rewrite (kbind_ret _ _ _ e s); [|apply (queue_end_ok Q'); [by rewrite <- E|by eapply linked_length]].
    exists (alter (set_qnext (Some b)) e (ide_bufs s)). split; [simpl; unfold kmodify, upd_ibuf; do 2 f_equal; destruct s; simpl in *; by subst|].
    split; [apply length_alter|]. split.
    + cbn [hd]. rewrite EQ. rewrite E in HL. rewrite <- app_assoc. by apply linked_snoc.
    + intros c. unfold ibuf_at. destruct (decide (c = e)) as [->|Hc].
      * rewrite nth_alter_eq; [done|]. eapply linked_lt; [exact HL|]. apply elem_of_app. right. left.
      * rewrite nth_alter_ne by done. done.
Qed.

(** ** Processes and interrupts

    A call is known by its buffer, whose sleep lock the process holds; [true] means that
    the process sleeps in iderw.  [y_arrived] are the requests in the order of the calls,
    with the buffer as it was at the call; the first [y_served] of them have had
    their interrupt. *)
Record isys := ISys {
  y_ide : ide; y_calls : gmap nat bool; y_arrived : list (nat * ibuf); y_served : nat }.

Definition can_call (s : ide) (b : nat) : Prop :=
  (b < length (ide_bufs s))%nat /\ sl_locked (ib_lock (ibuf_at s b)) = 1 /\ sl_lk (ib_lock (ibuf_at s b)) = false /\
  pending (ibuf_at s b) /\ 0 <= ib_blockno (ibuf_at s b) < FSSIZE /\ (ib_dev (ibuf_at s b) = 0 \/ havedisk1 s <> 0).

(** wakeup(b) wakes whoever sleeps on the buffers given to it; [newly_woken] are the buffers
    the driver gave to wakeup between two states. *)
Definition wake_callers (l : list nat) (c : gmap nat bool) : gmap nat bool := foldr (fun b => alter (fun _ => false) b) c l.
Definition newly_woken (s s' : ide) : list nat := drop (length (ide_woken s)) (ide_woken s').

(** The system after an interrupt: who runs again is what the handler woke. *)
Definition interrupted (y : isys) (s' : ide) : isys :=
  ISys s' (wake_callers (newly_woken (y_ide y) s') (y_calls y)) (y_arrived y)
    (match idequeue (y_ide y) with Some _ => S (y_served y) | None => y_served y end).

Inductive istep : isys -> isys -> Prop :=
| i_call b s' y : y_calls y !! b = None -> can_call (y_ide y) b -> iderw b (y_ide y) = Sleep (ide_chan b) s' ->
    istep y (ISys s' (<[b := true]> (y_calls y)) (y_arrived y ++ [(b, ibuf_at (y_ide y) b)]) (y_served y))
| i_touch b f y : y_calls y !! b = None ->
    istep y (ISys (upd_ibuf b f (y_ide y)) (y_calls y) (y_arrived y) (y_served y))
| i_intr s' y : ideintr (y_ide y) = Ret tt s' ->
    istep y (interrupted y s')
| i_return b s' y : y_calls y !! b = Some false -> iderw_resume b (y_ide y) = Ret tt s' ->
    istep y (ISys s' (delete b (y_calls y)) (y_arrived y) (y_served y))
| i_sleep_again b s' y : y_calls y !! b = Some false -> iderw_resume b (y_ide y) = Sleep (ide_chan b) s' ->
    istep y (ISys s' (<[b := true]> (y_calls y)) (y_arrived y) (y_served y)).

(** The driver starts with an empty queue, after [o] was written to the ports. *)
Inductive ireach (o : list io) : isys -> Prop :=
| i_start bs d1 np nr w : ireach o (ISys (Ide bs None false d1 o np nr w) ∅ [] 0)
| i_next y y' : ireach o y -> istep y y' -> ireach o y'.

Record iinv (o : list io) (y : isys) (Q : list nat) : Prop := {
  v_lock : idelock (y_ide y) = false;
  v_linked : linked (ide_bufs (y_ide y)) (idequeue (y_ide y)) Q;
  v_nodup : NoDup Q;
  v_served : (y_served y <= length (y_arrived y))%nat;
  v_order : fst <$> drop (y_served y) (y_arrived y) = Q;
  v_io : forall k b x, drop (y_served y) (y_arrived y) !! k = Some (b, x) -> same_core x (ibuf_at (y_ide y) b);
  v_blocks : Forall (fun bx => 0 <= ib_blockno bx.2 < FSSIZE) (y_arrived y);
  v_queued : forall b, b ∈ Q -> y_calls y !! b = Some true /\ ib_blockno (ibuf_at (y_ide y) b) < FSSIZE /\ pending (ibuf_at (y_ide y) b);
  v_calls : forall b a, y_calls y !! b = Some a -> (b < length (ide_bufs (y_ide y)))%nat /\
    (b ∉ Q -> a = false /\ ~ pending (ibuf_at (y_ide y) b));
  v_out : ide_out (y_ide y) = o ++ concat ((fun bx => start_io bx.2) <$> take (y_served y + Nat.min 1 (length Q)) (y_arrived y)) }.

Lemma iderw_wait_pending b s : pending (ibuf_at s b) -> idelock s = true ->
  iderw_wait b s = Sleep (ide_chan b) (set_idelock false s).
Proof.
  intros Hp Hl. unfold iderw_wait. krun. replace (_ =? F_VALID) with false by (symmetry; by apply Z.eqb_neq).
  unfold ide_release. krun. by rewrite Hl.
Qed.

Lemma pending_core x y : same_core x y -> pending y -> pending x.
Proof. intros (E & _). unfold pending. by rewrite E. Qed.

(** What iderw does: the request is the last of the queue, and is started at once when the
    queue was empty; the process sleeps. *)
Lemma iderw_ok b s Q : can_call s b -> idelock s = false -> linked (ide_bufs s) (idequeue s) Q -> NoDup Q -> b ∉ Q ->
  exists s', iderw b s = Sleep (ide_chan b) s' /\ idelock s' = false /\ length (ide_bufs s') = length (ide_bufs s) /\
    linked (ide_bufs s') (idequeue s') (Q ++ [b]) /\ (forall c, same_core (ibuf_at s' c) (ibuf_at s c)) /\
    ide_out s' = ide_out s ++ (if Q then start_io (ibuf_at s b) else []).
Proof.
  intros (Hb & Hlk & Hsl & Hp & Hbn & Hd) Hi HL Hn Hnin. unfold iderw, ide_on_lock.
  rewrite (kbind_ret _ _ _ true (upd_ibuf b (set_ilock (ib_lock (ibuf_at s b))) s)).
  2:{ unfold kzoom. rewrite holdingsleep_eq by done. by rewrite Hlk. }
  assert (Es : upd_ibuf b (set_ilock (ib_lock (ibuf_at s b))) s = s).
  { unfold upd_ibuf, set_ibufs. destruct s as [bs q lk d1 o np nr w]. cbn in *. f_equal. apply list_eq. intros j.
    destruct (decide (j = b)) as [->|Hj]; [|by rewrite list_lookup_alter_ne]. rewrite list_lookup_alter_eq.
    rewrite (nth_lookup_lt bs b null_buf) by done. simpl. f_equal. unfold ibuf_at. simpl. by destruct (nth b bs null_buf). }
  rewrite Es. cbn [negb]. krun. replace (_ =? F_VALID) with false by (symmetry; by apply Z.eqb_neq). krun.
  replace (negb (ib_dev (ibuf_at s b) =? 0) && negb (truth (havedisk1 s))) with false.
  2:{ symmetry. destruct Hd as [->|Hd]; [done|]. unfold truth. replace (havedisk1 s =? 0) with false by (symmetry; by apply Z.eqb_neq). apply andb_false_r. }
  unfold ide_acquire. krun. rewrite Hi. krun. set (s1 := upd_ibuf b (set_qnext None) (set_idelock true s)).
  assert (Hsame1 : forall c, same_core (ibuf_at s1 c) (ibuf_at s c)).
  { intros c. unfold s1, ibuf_at, upd_ibuf. simpl. destruct (decide (c = b)) as [->|Hc]; [by rewrite nth_alter_eq|by rewrite nth_alter_ne by done]. }
  destruct (enqueue_ok b s1 Q) as (bs' & E & Hl' & HL' & Hc'); [|done|done|unfold s1; simpl; by rewrite length_alter|unfold s1, ibuf_at; simpl; by rewrite nth_alter_eq|].
  { unfold s1. simpl. eapply linked_frame; [apply length_alter| |exact HL]. intros c Hc. rewrite nth_alter_ne; [done|]. by intros ->. }
  rewrite (kbind_ret _ _ _ _ _ E). krun. set (s2 := set_ibufs bs' _).
  assert (Hsame : forall c, same_core (ibuf_at s2 c) (ibuf_at s c)).
  { intros c. destruct (Hc' c) as (A1 & A2 & A3 & A4), (Hsame1 c) as (B1 & B2 & B3 & B4). unfold same_core, s2, ibuf_at in *. simpl in *. split_and!; congruence. }
  assert (Hlen : length bs' = length (ide_bufs s)) by (rewrite Hl'; unfold s1; simpl; apply length_alter).
  assert (Hps : pending (ibuf_at s2 b)) by (eapply pending_core; [apply Hsame|done]).
  assert (Hq : bool_decide (idequeue s2 = Some b) = match Q with [] => true | _ => false end).
  { unfold s2. simpl. destruct Q as [|h r]; [by rewrite bool_decide_true|]. apply bool_decide_false. intros [= ->]. apply Hnin. left. }
  rewrite Hq. destruct Q as [|h r].
  - destruct (idestart_ok b s2) as (n & En); [destruct (Hsame b) as (_ & _ & -> & _); lia|]. rewrite (kbind_ret _ _ _ _ _ En).
    rewrite iderw_wait_pending by done. eexists. split; [done|]. split; [done|]. split; [done|]. split; [done|]. split; [done|].
    simpl. by rewrite (start_io_core _ _ (Hsame b)).
  - krun. rewrite iderw_wait_pending by done. eexists. split; [done|]. split; [done|]. split; [done|]. split; [done|]. split; [done|].
    simpl. by rewrite app_nil_r.
Qed.

Lemma ibuf_upd_ne b c f s : c <> b -> ibuf_at (upd_ibuf b f s) c = ibuf_at s c.
Proof. intros H. unfold ibuf_at, upd_ibuf. simpl. by rewrite nth_alter_ne. Qed.
Lemma ibuf_upd_eq b f s : (b < length (ide_bufs s))%nat -> ibuf_at (upd_ibuf b f s) b = f (ibuf_at s b).
Proof. intros H. unfold ibuf_at, upd_ibuf. simpl. by rewrite nth_alter_eq. Qed.

(** The data transfer of the interrupt handler: at most the data of [b] changes. *)
Lemma intr_read b s : exists s', (if truth (Z.land (ib_flags (ibuf_at s b)) F_DIRTY) then kret tt else
     let! r := idewait true in
     if 0 <=? r then let! d := insl sector_data in kmodify (upd_ibuf b (set_idata d)) else kret tt) s = Ret tt s' /\
  idelock s' = idelock s /\ idequeue s' = idequeue s /\ ide_out s' = ide_out s /\ length (ide_bufs s') = length (ide_bufs s) /\
  (forall c, c <> b -> ibuf_at s' c = ibuf_at s c) /\ ide_woken s' = ide_woken s.
Proof.
  destruct (truth _); [by exists s|]. destruct (idewait_ok true s) as (r & n & E). rewrite (kbind_ret _ _ _ _ _ E).
  destruct (0 <=? r); [|by exists (set_polls n s)]. unfold insl. krun. eexists. split; [reflexivity|]. simpl. rewrite length_alter.
  split_and!; try done. intros c Hc. unfold ibuf_at. simpl. by rewrite nth_alter_ne.
Qed.

Lemma ideintr_ok b r s : idelock s = false -> linked (ide_bufs s) (idequeue s) (b :: r) -> b ∉ r ->
  (forall c, c ∈ r -> ib_blockno (ibuf_at s c) < FSSIZE) ->
  exists s', ideintr s = Ret tt s' /\ idelock s' = false /\ length (ide_bufs s') = length (ide_bufs s) /\
    linked (ide_bufs s') (idequeue s') r /\ (forall c, c <> b -> ibuf_at s' c = ibuf_at s c) /\
    ~ pending (ibuf_at s' b) /\ ide_woken s' = ide_woken s ++ [b] /\ ide_out s' = ide_out s ++ match r with [] => [] | c :: _ => start_io (ibuf_at s c) end.
Proof.
  intros Hi HL Hn Hbn. unfold ideintr, ide_acquire. krun. rewrite Hi. krun. pose proof HL as (Eq & Hb & Hr).
  cbn [idequeue set_idelock]. rewrite Eq. krun. set (s1 := set_idequeue _ _).
  change (ibuf_at (set_idelock true s) b) with (ibuf_at s1 b).
  destruct (intr_read b s1) as (s2 & E2 & Hlk & Hq & Ho & Hlen & Hsame & Hw). rewrite (kbind_ret _ _ _ _ _ E2). krun.
  set (s3 := upd_ibuf b (fun x => set_iflags (Z.land (ib_flags x) (Z.lnot F_DIRTY)) x) _).
  assert (Hb2 : (b < length (ide_bufs s2))%nat) by (rewrite Hlen; done).
  assert (Hsame3 : forall c, c <> b -> ibuf_at s3 c = ibuf_at s c).
  { intros c Hc. unfold s3. rewrite !ibuf_upd_ne by done. by apply Hsame. }
  assert (Hp3 : ~ pending (ibuf_at s3 b)).
  { unfold s3. rewrite !ibuf_upd_eq by (unfold upd_ibuf; simpl; rewrite ?length_alter; done). unfold pending. simpl. rewrite flags_done. tauto. }
  assert (Hlen3 : length (ide_bufs s3) = length (ide_bufs s)) by (unfold s3, upd_ibuf; simpl; by rewrite !length_alter).
  assert (Hq3 : idequeue (add_woken b s3) = ib_qnext (ibuf_at s b)) by (unfold s3; simpl; by rewrite Hq).
  assert (HL3 : linked (ide_bufs s3) (ib_qnext (ibuf_at s b)) r).
  { eapply linked_frame; [exact Hlen3| |exact Hr]. intros c Hc. change (ib_qnext (ibuf_at s3 c) = ib_qnext (ibuf_at s c)). rewrite Hsame3; [done|]. by intros ->. }
  rewrite Hq3. assert (Hlk3 : idelock (add_woken b s3) = true) by (unfold s3; simpl; by rewrite Hlk).
  destruct r as [|c r].
  - simpl in HL3. rewrite HL3 in *. krun. unfold ide_release. krun. rewrite Hlk3. eexists. split; [reflexivity|].
    split; [done|]. split; [done|]. split; [cbn [linked idequeue set_idelock]; by rewrite Hq3|]. split; [done|]. split; [done|].
    split; [unfold s3; simpl; by rewrite Hw|].
    unfold s3. simpl. rewrite Ho, app_nil_r. done.
  - pose proof HL3 as (Eqc & _ & _). rewrite Eqc. assert (Hcb : c <> b) by (intros ->; apply Hn; left).
    destruct (idestart_ok c (add_woken b s3)) as (n & En); [change (ib_blockno (ibuf_at s3 c) < FSSIZE); rewrite Hsame3 by done; apply Hbn; left|].
    rewrite (kbind_ret _ _ _ _ _ En). unfold ide_release. krun. cbn [idelock add_outs set_polls]. rewrite Hlk3. eexists. split; [reflexivity|].
    split; [done|]. split; [done|]. split.
    { cbn [idequeue ide_bufs set_idelock add_outs set_polls]. rewrite Hq3. done. }
    split; [done|]. split; [done|]. split; [unfold s3; simpl; by rewrite Hw|]. change (ibuf_at (add_woken b s3) c) with (ibuf_at s3 c). rewrite Hsame3 by done.
    unfold s3. simpl. rewrite Ho. done.
Qed.

Lemma ideintr_idle s : idelock s = false -> idequeue s = None -> ideintr s = Ret tt s.
Proof.
  intros Hi Hq. unfold ideintr, ide_acquire. krun. rewrite Hi. krun. cbn [idequeue set_idelock]. rewrite Hq.
  unfold ide_release. krun. cbn [idelock set_idelock]. unfold kmodify. destruct s. simpl in *. by subst.
Qed.

Lemma iderw_resume_ok b s : idelock s = false -> ~ pending (ibuf_at s b) -> iderw_resume b s = Ret tt s.
Proof.
  intros Hi Hp. unfold iderw_resume, ide_acquire. krun. rewrite Hi. krun. unfold iderw_wait. krun.
  change (ibuf_at (set_idelock true s) b) with (ibuf_at s b). unfold pending in Hp.
  destruct (Z.eqb_spec (Z.land (ib_flags (ibuf_at s b)) (Z.lor F_VALID F_DIRTY)) F_VALID) as [_|E]; [|tauto].
  unfold ide_release. krun. unfold kmodify. destruct s. simpl in *. by subst.
Qed.

(** ** The invariant *)

Lemma queue_length o y Q : iinv o y Q -> (length Q = length (y_arrived y) - y_served y)%nat.
Proof. intros V. by rewrite <- (v_order _ _ _ V), length_fmap, length_drop. Qed.

Lemma woken_done o y Q b : iinv o y Q -> y_calls y !! b = Some false -> b ∉ Q /\ ~ pending (ibuf_at (y_ide y) b).
Proof.
  intros V Hc. assert (Hn : b ∉ Q) by (intros Hb; destruct (v_queued _ _ _ V b Hb); congruence).
  split; [done|]. by apply (v_calls _ _ _ V b false Hc).
Qed.

Lemma ide_call_inv o y Q b s' : iinv o y Q -> y_calls y !! b = None -> can_call (y_ide y) b -> iderw b (y_ide y) = Sleep (ide_chan b) s' ->
  iinv o (ISys s' (<[b := true]> (y_calls y)) (y_arrived y ++ [(b, ibuf_at (y_ide y) b)]) (y_served y)) (Q ++ [b]).
Proof.
  intros V Hc Hcan E. assert (Hn : b ∉ Q) by (intros Hb; destruct (v_queued _ _ _ V b Hb); congruence).
  pose proof (queue_length _ _ _ V) as Hql. destruct V as [V1 V2 V3 V4 V5 V6 Vb V7 V8 V9].
  destruct (iderw_ok b (y_ide y) Q Hcan V1 V2 V3 Hn) as (s1 & E1 & Hl & Hlen & HL & Hsame & Ho). rewrite E in E1. injection E1 as <-.
  destruct Hcan as (Hb & _ & _ & Hp & Hbn & _).
  split; cbn [y_ide y_calls y_arrived y_served]; try done.
  - apply NoDup_app. split_and!; [done| |apply NoDup_singleton]. intros c Hc' ->%list_elem_of_singleton. done.
  - rewrite length_app. lia.
  - rewrite drop_app_le by lia. by rewrite fmap_app, V5.
  - intros k c l Hk. rewrite drop_app_le in Hk by lia. apply lookup_app_Some in Hk as [Hk|[_ Hk]].
    + eapply same_core_trans; [by eapply V6|]. apply same_core_sym, Hsame.
    + apply list_lookup_singleton_Some in Hk as [_ [= <- <-]]. apply same_core_sym, Hsame.
  - apply Forall_app. split; [done|]. by apply Forall_singleton.
  - intros c Hc'. destruct (Hsame c) as (A1 & A2 & A3 & A4). rewrite A3.
    assert (Hpc : pending (ibuf_at (y_ide y) c) -> pending (ibuf_at s' c)) by (apply pending_core; done).
    destruct (decide (c = b)) as [->|Hcb]; [rewrite lookup_insert_eq; destruct Hbn; auto|rewrite lookup_insert_ne by done].
    apply elem_of_app in Hc' as [Hc'|Hc'%list_elem_of_singleton]; [|done]. destruct (V7 c Hc') as (? & ? & ?). auto.
  - intros c a Hca. rewrite Hlen. destruct (decide (c = b)) as [->|Hcb].
    + split; [done|]. intros []. apply elem_of_app. right. left.
    + rewrite lookup_insert_ne in Hca by done. destruct (V8 c a Hca) as [? HV]. split; [done|]. intros Hnin.
      destruct HV as [-> Hnp]; [set_solver|]. split; [done|]. destruct (Hsame c) as (A1 & _). unfold pending in *. by rewrite A1.
  - rewrite Ho, V9. rewrite length_app. simpl length. replace (Nat.min 1 (length Q + 1)) with 1%nat by lia. rewrite <- app_assoc. f_equal.
    destruct Q as [|h r]; simpl in Hql |- *.
    + rewrite Nat.add_0_r, (take_ge (y_arrived y)) by lia. rewrite take_ge by (rewrite length_app; simpl; lia).
      rewrite fmap_app, concat_app. cbn [fmap list_fmap concat snd]. by rewrite app_nil_r.
    + rewrite app_nil_r. by rewrite take_app_le by lia.
Qed.

(** An interrupt that has a request to finish wakes the process that made it. *)
Lemma interrupted_eq o y b r s' : iinv o y (b :: r) -> ideintr (y_ide y) = Ret tt s' ->
  interrupted y s' = ISys s' (<[b := false]> (y_calls y)) (y_arrived y) (S (y_served y)).
Proof.
  intros V E. destruct (ideintr_ok b r (y_ide y)) as (s1 & E1 & _ & _ & _ & _ & _ & Hw & _); try apply V.
  { by pose proof (v_nodup _ _ _ V) as [? _]%NoDup_cons. }
  { intros c Hc. apply (v_queued _ _ _ V). by right. }
  rewrite E in E1. injection E1 as <-. destruct (v_linked _ _ _ V) as [Hq _]. destruct (v_queued _ _ _ V b) as [Hb _]; [left|].
  unfold interrupted, newly_woken. rewrite Hq, Hw, drop_app_length. cbn [wake_callers foldr]. f_equal. apply map_eq. intros c.
  destruct (decide (c = b)) as [->|Hc]; [by rewrite lookup_alter_eq, lookup_insert_eq, Hb|by rewrite lookup_alter_ne, lookup_insert_ne].
Qed.

Lemma intr_inv o y b r s' : iinv o y (b :: r) -> ideintr (y_ide y) = Ret tt s' -> iinv o (interrupted y s') r.
Proof.
  intros V E. rewrite (interrupted_eq _ _ _ _ _ V E). pose proof (queue_length _ _ _ V) as Hql. destruct V as [V1 V2 V3 V4 V5 V6 Vb V7 V8 V9]. apply NoDup_cons in V3 as [Hnb V3].
  destruct (ideintr_ok b r (y_ide y) V1 V2 Hnb) as (s1 & E1 & Hl & Hlen & HL & Hsame & Hp & _ & Ho).
  { intros c Hc. apply V7. by right. }
  rewrite E in E1. injection E1 as <-. simpl in Hql.
  destruct (drop (y_served y) (y_arrived y)) as [|[b' l] rest] eqn:Ed; [done|]. simpl in V5. injection V5 as Eb V5. simpl in Eb. subst b'.
  assert (Ed' : drop (S (y_served y)) (y_arrived y) = rest) by (rewrite <- Nat.add_1_r, <- drop_drop, Ed; done).
  split; cbn [y_ide y_calls y_arrived y_served]; try done.
  - lia.
  - by rewrite Ed'.
  - intros k c l' Hk. rewrite Ed' in Hk. rewrite Hsame; [by apply (V6 (S k))|]. intros ->.
    apply Hnb. rewrite <- V5. apply list_elem_of_fmap. exists (b, l'). split; [done|]. by eapply list_elem_of_lookup_2.
  - intros c Hc. assert (Hcb : c <> b) by (by intros ->). rewrite lookup_insert_ne, Hsame by done. apply V7. by right.
  - intros c a Hca. rewrite Hlen. destruct (decide (c = b)) as [->|Hcb].
    + rewrite lookup_insert_eq in Hca. injection Hca as <-. destruct (V7 b ltac:(left)) as [Hcb _]. destruct (V8 b true Hcb). split; [done|]. by split.
    + rewrite lookup_insert_ne in Hca by done. destruct (V8 c a Hca) as [? HV]. rewrite Hsame by done. split; [done|]. intros Hcr. apply HV. set_solver.
  - rewrite Ho, V9, <- app_assoc. f_equal.
    replace (y_served y + Nat.min 1 (length (b :: r)))%nat with (S (y_served y)) by (simpl; lia). destruct r as [|c r].
    + replace (S (y_served y) + Nat.min 1 (length []))%nat with (S (y_served y)) by (simpl; lia). by rewrite app_nil_r.
    + destruct rest as [|[c' l'] rest]; [done|]. simpl in V5. injection V5 as -> _.
      assert (Hlk : y_arrived y !! (S (y_served y)) = Some (c, l')) by (rewrite <- (Nat.add_0_r (S _)), <- lookup_drop, Ed'; done).
      replace (S (y_served y) + Nat.min 1 (length (c :: r)))%nat with (S (S (y_served y))) by (simpl; lia).
      rewrite (take_S_r _ (S (y_served y)) _ Hlk), fmap_app, concat_app. cbn [fmap list_fmap concat snd]. rewrite app_nil_r.
      by rewrite (start_io_core l' (ibuf_at (y_ide y) c)) by (by apply (V6 1%nat)).
Qed.

Lemma touch_inv o y Q b f : iinv o y Q -> y_calls y !! b = None ->
  iinv o (ISys (upd_ibuf b f (y_ide y)) (y_calls y) (y_arrived y) (y_served y)) Q.
Proof.
  intros V Hc. assert (Hn : b ∉ Q) by (intros Hb; destruct (v_queued _ _ _ V b Hb); congruence).
  destruct V as [V1 V2 V3 V4 V5 V6 Vb V7 V8 V9]. assert (HQ : forall c, c ∈ Q -> c <> b) by (by intros c Hc' ->).
  split; cbn [y_ide y_calls y_arrived y_served]; try done.
  - eapply linked_frame; [apply length_alter| |exact V2]. intros c Hc'. unfold upd_ibuf. cbn [ide_bufs set_ibufs].
    rewrite nth_alter_ne; [done|]. apply not_eq_sym; by apply HQ.
  - intros k c l Hk. rewrite ibuf_upd_ne; [by eapply V6|]. apply HQ. rewrite <- V5. apply list_elem_of_fmap.
    exists (c, l). split; [done|]. by eapply list_elem_of_lookup_2.
  - intros c Hc'. rewrite ibuf_upd_ne by auto. by apply V7.
  - intros c a Hca. assert (c <> b) by congruence. rewrite ibuf_upd_ne by done. unfold upd_ibuf. cbn [ide_bufs set_ibufs].
    rewrite length_alter. by apply V8.
Qed.

Lemma return_inv o y Q b : iinv o y Q -> y_calls y !! b = Some false ->
  iinv o (ISys (y_ide y) (delete b (y_calls y)) (y_arrived y) (y_served y)) Q.
Proof.
  intros V Hc. destruct (woken_done _ _ _ _ V Hc) as [Hn _]. destruct V as [V1 V2 V3 V4 V5 V6 Vb V7 V8 V9].
  split; cbn [y_ide y_calls y_arrived y_served]; try done.
  - intros c Hc'. rewrite lookup_delete_ne by (by intros ->). by apply V7.
  - intros c a Hca. apply lookup_delete_Some in Hca as [_ Hca]. by apply V8.
Qed.

Lemma ide_step_inv o y y' Q : iinv o y Q -> istep y y' -> exists Q', iinv o y' Q'.
Proof.
  intros V Hs. destruct Hs as [b s' y Hc Hcan E|b f y Hc|s' y E|b s' y Hc E|b s' y Hc E].
  - eexists. by apply ide_call_inv.
  - eexists. by apply touch_inv.
  - pose proof (v_linked _ _ _ V) as HL. destruct Q as [|b r]; simpl in HL.
    + rewrite ideintr_idle in E by (done || apply V). injection E as <-. exists []. unfold interrupted, newly_woken.
      rewrite HL, drop_all. by destruct y.
    + exists r. by apply (intr_inv o y b r s').
  - destruct (woken_done _ _ _ _ V Hc) as [_ Hp]. rewrite iderw_resume_ok in E by (done || apply V). injection E as <-.
    exists Q. by apply return_inv.
  - destruct (woken_done _ _ _ _ V Hc) as [_ Hp]. by rewrite iderw_resume_ok in E by (done || apply V).
Qed.

Lemma ireach_inv o y : ireach o y -> exists Q, iinv o y Q.
Proof.
  induction 1 as [bs d1 np nr w|y y' _ [Q V] Hs]; [|by eapply ide_step_inv].
  exists []. split; cbn; try done; [apply NoDup_nil_2|by intros b ?%elem_of_nil|by rewrite app_nil_r].
Qed.

(** ** What the controller is asked

    The controller's side of the ports: it keeps the last value written to each register
    and carries a request out when a command is written. *)
Record regs := Regs { r_count : Z; r_lba0 : Z; r_lba1 : Z; r_lba2 : Z; r_head : Z }.

(** [q_write] is the data of a write, None for a read. *)
Record request := Request { q_drive : Z; q_sector : Z; q_count : Z; q_write : option (list Z) }.

Definition reg_request (r : regs) (w : option (list Z)) : request :=
  Request (r_head r / 16 mod 2) (r_lba0 r + 256 * r_lba1 r + 65536 * r_lba2 r + 16777216 * (r_head r mod 16)) (r_count r) w.

Definition set_reg (port v : Z) (r : regs) : regs :=
  if port =? 498 then Regs v (r_lba0 r) (r_lba1 r) (r_lba2 r) (r_head r)
  else if port =? 499 then Regs (r_count r) v (r_lba1 r) (r_lba2 r) (r_head r)
  else if port =? 500 then Regs (r_count r) (r_lba0 r) v (r_lba2 r) (r_head r)
  else if port =? 501 then Regs (r_count r) (r_lba0 r) (r_lba1 r) v (r_head r)
  else if port =? 502 then Regs (r_count r) (r_lba0 r) (r_lba1 r) (r_lba2 r) v
  else r.

Definition is_write (cmd : Z) : bool := (cmd =? IDE_CMD_WRITE) || (cmd =? IDE_CMD_WRMUL).

Fixpoint requests (r : regs) (l : list io) : list request :=
  match l with
  | [] => []
  | Outsl _ _ :: l => requests r l
  | Outb port v :: l =>
    if port =? 503 then
      reg_request r (if is_write v then match l with Outsl _ d :: _ => Some d | _ => None end else None) :: requests r l
    else requests (set_reg port v r) l
  end.

(** The request a buffer stands for: the sectors of its block on its drive. *)
Definition request_of (x : ibuf) : request :=
  Request (ib_dev x mod 2) (ib_blockno x * (BSIZE / SECTOR_SIZE)) (BSIZE / SECTOR_SIZE)
    (if truth (Z.land (ib_flags x) F_DIRTY) then Some (ib_data x) else None).

Lemma sector_bytes n : 0 <= n < 268435456 ->
  u8 (Z.land n 255) + 256 * u8 (Z.land (Z.shiftr n 8) 255) + 65536 * u8 (Z.land (Z.shiftr n 16) 255) +
  16777216 * Z.land (Z.shiftr n 24) 15 = n.
Proof.
  intros Hn. change 255 with (Z.ones 8). change 15 with (Z.ones 4). rewrite !Z.land_ones, !Z.shiftr_div_pow2 by lia.
  rewrite !u8_small by (apply Z.mod_pos_bound; lia). Z.div_mod_to_equations. lia.
Qed.

Lemma head_parts dev h : 0 <= h < 16 ->
  let v := u8 (Z.lor (Z.lor 224 (Z.shiftl (Z.land dev 1) 4)) h) in v / 16 mod 2 = dev mod 2 /\ v mod 16 = h.
Proof.
  intros Hh v. subst v. change 1 with (Z.ones 1). rewrite Z.land_ones by lia. change (2 ^ 1) with 2.
  assert (Hd : dev mod 2 = 0 \/ dev mod 2 = 1) by (pose proof (Z.mod_pos_bound dev 2); lia).
  assert (Hc : forallb (fun h => forallb (fun d => let v := u8 (Z.lor (Z.lor 224 (Z.shiftl d 4)) h) in (v / 16 mod 2 =? d) && (v mod 16 =? h)) [0; 1])
    (seqZ 0 16) = true) by (vm_compute; reflexivity).
  rewrite forallb_forall in Hc. specialize (Hc h). rewrite forallb_forall in Hc.
  specialize (Hc ltac:(apply list_elem_of_In, elem_of_seqZ; lia) (dev mod 2) ltac:(simpl; lia)).
  apply andb_prop in Hc as [H1%Z.eqb_eq H2%Z.eqb_eq]. done.
Qed.

(** The bytes that idestart writes are read back as the request. *)
Lemma requests_start x r l : 0 <= ib_blockno x < FSSIZE ->
  exists r', requests r (start_io x ++ l) = request_of x :: requests r' l.
Proof.
  intros Hb. unfold start_io. assert (Hs : sector_of x = ib_blockno x * (BSIZE / SECTOR_SIZE)).
  { unfold sector_of. unfold FSSIZE in Hb. apply s32_small. nia. }
  assert (Hn : 0 <= sector_of x < 268435456) by (rewrite Hs; unfold FSSIZE in Hb; nia).
  assert (Hh : 0 <= Z.land (Z.shiftr (sector_of x) 24) 15 < 16) by (change 15 with (Z.ones 4); rewrite Z.land_ones by lia; apply Z.mod_pos_bound; lia).
  destruct (head_parts (ib_dev x) _ Hh) as [H1 H2].
  assert (Hr : forall w, reg_request (Regs (u8 (BSIZE / SECTOR_SIZE)) (u8 (Z.land (sector_of x) 255)) (u8 (Z.land (Z.shiftr (sector_of x) 8) 255))
     (u8 (Z.land (Z.shiftr (sector_of x) 16) 255)) (u8 (drive_of x))) w =
     Request (ib_dev x mod 2) (ib_blockno x * (BSIZE / SECTOR_SIZE)) (BSIZE / SECTOR_SIZE) w).
  { intros w. unfold reg_request, drive_of. cbn [r_count r_lba0 r_lba1 r_lba2 r_head]. rewrite H1, H2, sector_bytes, <- Hs by done.
    by rewrite u8_small by lia. }
  unfold request_of. destruct (truth _), (BSIZE / SECTOR_SIZE =? 1); eexists; cbn [app requests set_reg Z.eqb Pos.eqb is_write u8];
    cbn; rewrite Hr; reflexivity.
Qed.

Lemma requests_concat (l : list (nat * ibuf)) r : Forall (fun bx => 0 <= ib_blockno bx.2 < FSSIZE) l ->
  requests r (concat ((fun bx => start_io bx.2) <$> l)) = (fun bx => request_of bx.2) <$> l.
Proof.
  intros Hl. revert r. induction Hl as [|bx l Hb _ IH]; intros r; [done|]. cbn [fmap list_fmap concat].
  destruct (requests_start bx.2 r (concat ((fun bx => start_io bx.2) <$> l)) Hb) as [r' ->]. f_equal. apply IH.
Qed.

(** ** Interrupts alone finish every request *)

Fixpoint interrupts (n : nat) (y : isys) : option isys :=
  match n with
  | O => Some y
  | S n => match ideintr (y_ide y) with Ret _ s' => interrupts n (interrupted y s') | _ => None end
  end.

Lemma interrupts_drain o n : forall y Q, iinv o y Q -> length Q = n ->
  exists y', interrupts n y = Some y' /\ iinv o y' [] /\ y_arrived y' = y_arrived y /\ y_served y' = length (y_arrived y) /\
    (forall b, is_Some (y_calls y !! b) -> y_calls y' !! b = Some false).
Proof.
  induction n as [|n IH]; intros y Q V HQ; pose proof (queue_length _ _ _ V) as Hql.
  - apply nil_length_inv in HQ as ->. simpl in Hql. pose proof (v_served _ _ _ V). exists y. split_and!; try done; [lia|].
    intros b [a Ha]. destruct (v_calls _ _ _ V b a Ha) as [_ Hn]. destruct Hn as [-> _]; [by intros ?%elem_of_nil|]. done.
  - destruct Q as [|b r]; [done|]. injection HQ as HQ. destruct (ideintr_ok b r (y_ide y)) as (s1 & E & _).
    { apply V. } { apply V. } { by pose proof (v_nodup _ _ _ V) as [? _]%NoDup_cons. } { intros c Hc. apply (v_queued _ _ _ V). by right. }
    destruct (IH _ _ (intr_inv _ _ _ _ _ V E) HQ) as (y' & E' & V' & Ha & Hs & Hc). exists y'. cbn [interrupts]. rewrite E.
    split_and!; try done. intros d Hd. apply Hc. rewrite (interrupted_eq _ _ _ _ _ V E). cbn [y_calls].
    destruct (decide (d = b)) as [->|?]; [rewrite lookup_insert_eq; eauto|by rewrite lookup_insert_ne].
Qed.

(** C29: Whatever the order in which processes call iderw, sleep in it and return, change
    buffers of their own, and interrupts arrive: the controller is asked for exactly the
    calls' requests, in the order of the calls and one at a time (the first [y_served], and
    the next one if there is one); who sleeps waits for a request that is still to be
    served; a call with a locked buffer that has work to do queues up and sleeps; a process
    that was woken finds its request done; and as many interrupts as there are requests
    left serve them all, in order, and wake every process that sleeps, after which every call
    returns.  A process is awake only when the handler's own wakeup has woken it. *)
Theorem ide_requests_fifo o y : ireach o y ->
  let left := (length (y_arrived y) - y_served y)%nat in
  (exists t, ide_out (y_ide y) = o ++ t /\
     forall r, requests r t = (fun bx => request_of bx.2) <$> take (y_served y + Nat.min 1 left) (y_arrived y)) /\
  (forall b, y_calls y !! b = Some true -> exists k x, (y_served y <= k)%nat /\ y_arrived y !! k = Some (b, x)) /\
  (forall b, y_calls y !! b = None -> can_call (y_ide y) b -> exists s', iderw b (y_ide y) = Sleep (ide_chan b) s') /\
  (forall b, y_calls y !! b = Some false -> iderw_resume b (y_ide y) = Ret tt (y_ide y)) /\
  (exists y' t, interrupts left y = Some y' /\ idequeue (y_ide y') = None /\ ide_out (y_ide y') = o ++ t /\
     (forall r, requests r t = (fun bx => request_of bx.2) <$> y_arrived y) /\
     (forall b, is_Some (y_calls y !! b) -> y_calls y' !! b = Some false /\ iderw_resume b (y_ide y') = Ret tt (y_ide y'))).
Proof.
  intros [Q V]%ireach_inv. cbv zeta. rewrite <- (queue_length _ _ _ V). split_and!.
  - eexists. split; [apply V|]. intros r. apply requests_concat, Forall_take, V.
  - intros b Hb. destruct (decide (b ∈ Q)) as [Hq|Hq]; [|destruct (v_calls _ _ _ V b true Hb) as [_ Hn]; by destruct (Hn Hq)].
    rewrite <- (v_order _ _ _ V) in Hq. apply list_elem_of_fmap in Hq as ([c x] & -> & Hq).
    apply list_elem_of_lookup in Hq as [k Hk]. rewrite lookup_drop in Hk. exists (y_served y + k)%nat, x. split; [lia|done].
  - intros b Hb Hcan. assert (Hn : b ∉ Q) by (intros Hq; destruct (v_queued _ _ _ V b Hq); congruence).
    destruct (iderw_ok b (y_ide y) Q Hcan) as (s' & E & _); try apply V; eauto.
  - intros b Hb. apply iderw_resume_ok; [apply V|]. by eapply woken_done.
  - destruct (interrupts_drain o _ y Q V eq_refl) as (y' & E & V' & Ha & Hs & Hc). eexists y', _. split; [done|].
    split; [apply (v_linked _ _ _ V')|]. split; [apply (v_out _ _ _ V')|]. split.
    + intros r. cbn [length Nat.min]. rewrite Ha, Hs, take_ge by lia. apply requests_concat, (v_blocks _ _ _ V).
    + intros b Hb. specialize (Hc b Hb). split; [done|]. apply iderw_resume_ok; [apply (v_lock _ _ _ V')|]. by eapply (woken_done _ _ _ _ V').
Qed.
End Props.

(** ** Two requests at the disk

    A disk that is always ready, a buffer to be written and a buffer to be read: both are
    queued, the first is with the controller. *)

From S2P Require Import FsGeom.

Definition ex_status (n : nat) : Z := IDE_DRDY.
Definition ex_sector (n : nat) : list Z := replicate 512 7.

Definition ex_held : sleeplock := SleepLock 1 false "buffer" 3.
Definition ex_write_buf : ibuf := IBuf F_DIRTY 1 300 ex_held None (replicate 512 9).
Definition ex_read_buf : ibuf := IBuf 0 1 5 ex_held None (replicate 512 0).

(** The driver after ideinit. *)
Definition ex_boot : ide :=
  match ideinit ex_status 1 (Ide [ex_write_buf; ex_read_buf] None false 0 [] 0 0 []) with
  | Ret _ s => s
  | _ => Ide [] None false 0 [] 0 0 []
  end.

Definition after_call (b : nat) (s : ide) : ide :=
  match iderw ex_status 1 b s with Sleep _ s' => s' | _ => s end.

Definition call (b : nat) (y : isys) : isys :=
  ISys (after_call b (y_ide y)) (<[b := true]> (y_calls y)) (y_arrived y ++ [(b, ibuf_at (y_ide y) b)]) (y_served y).

Definition ex_two : isys := call 1 (call 0 (ISys ex_boot ∅ [] 0)).

Definition sleeps (b : nat) (s : ide) : bool :=
  match iderw ex_status 1 b s with Sleep c _ => c =? ide_chan b | _ => false end.

Lemma call_reach o b y : ireach ex_status ex_sector 1 o y -> y_calls y !! b = None -> can_call (y_ide y) b ->
  sleeps b (y_ide y) = true -> ireach ex_status ex_sector 1 o (call b y).
Proof.
  intros Hr Hn Hc Hs. eapply i_next; [exact Hr|]. apply i_call; [done..|]. unfold after_call, sleeps in *.
  destruct (iderw _ _ _ _); try done. by apply Z.eqb_eq in Hs as ->.
Qed.

Lemma ex_two_reach : ireach ex_status ex_sector 1 (ide_out ex_boot) ex_two.
Proof.
  apply call_reach; [apply call_reach|..].
  - replace ex_boot with (Ide (ide_bufs ex_boot) None false (havedisk1 ex_boot) (ide_out ex_boot) (ide_polls ex_boot)
      (ide_reads ex_boot) (ide_woken ex_boot)) at 2 by (vm_compute; reflexivity). apply i_start.
  - done.
  - vm_compute. split_and!; (lia || done || by right).
  - vm_compute. reflexivity.
  - reflexivity.
  - vm_compute. split_and!; (lia || done || by right).
  - vm_compute. reflexivity.
Qed.

(** The write of block 300 of drive 1 is with the controller; the read of block 5 follows
    it after one interrupt, and two interrupts serve both. *)
Lemma ide_requests_fifo_witness :
  (exists t, ide_out (y_ide ex_two) = ide_out ex_boot ++ t /\
     forall r, requests r t = [Request 1 300 1 (Some (replicate 512 9))]) /\
  (exists y', interrupts ex_status ex_sector 1 2 ex_two = Some y' /\ y_calls y' !! 1%nat = Some false /\ iderw_resume 1 (y_ide y') = Ret tt (y_ide y')).
Proof.
  assert (Hr : forall n, exists k, (k < 1)%nat /\ Z.land (u8 (ex_status (n + k))) (Z.lor IDE_BSY IDE_DRDY) = IDE_DRDY)
    by (intros n; exists 0%nat; split; [lia|reflexivity]).
  assert (Hf : 1 <= BSIZE / SECTOR_SIZE <= 7) by (vm_compute; split; discriminate).
  destruct (ide_requests_fifo ex_status ex_sector 1 Hr Hf _ ex_two ex_two_reach) as ((t & Ht & Hq) & _ & _ & _ & (y' & t' & E & _ & _ & _ & Hc)).
  split.
  - exists t. split; [exact Ht|]. intros r. rewrite Hq. vm_compute. reflexivity.
  - exists y'. split; [exact E|]. apply Hc. vm_compute. eexists. reflexivity.
Defined.

(** A read for which the controller reports an error: the data of the buffer stay as they
    were, yet the buffer is valid afterwards. *)
Example read_error_marked_valid :
  exists s', ideintr (fun _ => Z.lor IDE_DRDY IDE_ERR) ex_sector 1 (Ide [ex_read_buf] (Some 0%nat) false 0 [] 0 0 []) = Ret tt s' /\
    ib_data (ibuf_at s' 0) = ib_data ex_read_buf /\ ib_flags (ibuf_at s' 0) = F_VALID.
Proof. eexists. vm_compute. split_and!; reflexivity. Qed.
