(* ===== verification/Exec.v ===== *)
(** * Program loading (exec.c, elf.h; switchuvm of vm.c)

    exec works on the file system, the kernel's memory and the process that calls it.  Of
    the file system it only uses the operations of [ExecFs]; the memory is the allocator's
    state with the page tables of Vm.v in it.  argv is the list of the argument strings
    without their zero bytes; the code labelled [bad] is a routine of its own. *)

From S2P Require Import Proc.
From S2P Require Import Prelude Mem Layout Kalloc Vm Fsdefs.

(** ** elf.h *)

Definition ELF_MAGIC : Z := 0x464C457F.
Definition ELF_PROG_LOAD : Z := 1.
Definition sizeof_elfhdr : Z := 52.
Definition sizeof_proghdr : Z := 32.

Definition ld16 (d : list Z) (off : nat) : Z := nth off d 0 + 256 * nth (off + 1) d 0.

Record elfhdr := ElfHdr { e_magic : Z; e_entry : Z; e_phoff : Z; e_phnum : Z }.
Definition elfhdr_of (l : list Z) : elfhdr := ElfHdr (ld32 l 0) (ld32 l 24) (ld32 l 28) (ld16 l 44).

Record proghdr := ProgHdr { ph_type : Z; ph_off : Z; ph_vaddr : Z; ph_filesz : Z; ph_memsz : Z }.
Definition proghdr_of (l : list Z) : proghdr := ProgHdr (ld32 l 0) (ld32 l 4) (ld32 l 8) (ld32 l 16) (ld32 l 20).

(** ** The state *)

(** What exec uses of struct proc; eip and esp are fields of its trap frame. *)
Record xproc := XProc { xp_pgdir : Z; xp_sz : Z; xp_eip : Z; xp_esp : Z; xp_kstack : Z; xp_name : list Z }.

(** What switchuvm sets in the processor: the page-table register and the task state. *)
Record xcpu := XCpu { cr3 : Z; ts_ss0 : Z; ts_esp0 : Z; ts_iomb : Z }.

Record xstate (F : Type) := XState { x_fs : F; x_km : kmem; x_proc : xproc; x_cpu : xcpu }.
Arguments XState {F} _ _ _ _.
Arguments x_fs {F} _.
Arguments x_km {F} _.
Arguments x_proc {F} _.
Arguments x_cpu {F} _.

(** The operations of the file system that exec uses; readi also answers the bytes read. *)
Class ExecFs (F : Type) := {
  xf_begin_op : K F unit;
  xf_end_op : K F unit;
  xf_namei : list Z -> K F (option nat);
  xf_ilock : nat -> K F unit;
  xf_iunlockput : nat -> K F unit;
  xf_readi : nat -> Z -> Z -> K F (Z * list Z) }.

Section exec.
Context {F : Type} `{ExecFs F}.
(** The linker symbols. *)
Variable end_ data : Z.
Notation X := (xstate F).

Definition fsx {A} (c : K F A) : K X A := kzoom x_fs (fun f x => XState f (x_km x) (x_proc x) (x_cpu x)) c.
Definition vm (A : Type) (c : K kmem A) : K X A := kzoom x_km (fun k x => XState (x_fs x) k (x_proc x) (x_cpu x)) c.
Arguments vm {A} _.
Definition set_proc (p : xproc) (x : X) : X := XState (x_fs x) (x_km x) p (x_cpu x).
Definition set_cpu (c : xcpu) (x : X) : X := XState (x_fs x) (x_km x) (x_proc x) c.

(** The task-state descriptor itself, which is the same at every call, is left out. *)
Definition switchuvm (p : xproc) : K X unit :=
  if xp_kstack p =? 0 then kpanic "switchuvm: no kstack" else
  if xp_pgdir p =? 0 then kpanic "switchuvm: no pgdir" else
  kmodify (set_cpu (XCpu (V2P (xp_pgdir p)) (Z.shiftl SEG_KDATA 3) (u32 (xp_kstack p + KSTACKSIZE)) 0xFFFF)).

Definition bad (pgdir : Z) (ip : option nat) : K X Z :=
  (if truth pgdir then vm (freevm end_ pgdir) else kret tt) ;;
  (match ip with
   | Some ip => fsx (xf_iunlockput ip) ;; fsx xf_end_op
   | None => kret tt
   end) ;;
  kret (-1).

(** The loop over the program headers; [n] are left.  None stands for [goto bad]. *)
Fixpoint load_segments (n : nat) (ip : nat) (pgdir off sz : Z) : K X (option Z) :=
  match n with
  | O => kret (Some sz)
  | S n' =>
      let! r := fsx (xf_readi ip (u32 off) sizeof_proghdr) in
      if negb (fst r =? sizeof_proghdr) then kret None else
      let ph := proghdr_of (snd r) in
      if negb (ph_type ph =? ELF_PROG_LOAD) then load_segments n' ip pgdir (s32 (off + sizeof_proghdr)) sz else
      if ph_memsz ph <? ph_filesz ph then kret None else
      if u32 (ph_vaddr ph + ph_memsz ph) <? ph_vaddr ph then kret None else
      let! sz := vm (allocuvm end_ pgdir sz (u32 (ph_vaddr ph + ph_memsz ph))) in
      if sz =? 0 then kret None else
      if negb (ph_vaddr ph mod PGSIZE =? 0) then kret None else
      let! r := loaduvm (@vm) (fun off n => fsx (xf_readi ip off n)) pgdir (ph_vaddr ph) (ph_off ph) (ph_filesz ph) in
      if r <? 0 then kret None else
      load_segments n' ip pgdir (s32 (off + sizeof_proghdr)) sz
  end.

(** The loop that pushes the arguments: the stack pointer and the words of ustack from the
    third on. *)
Fixpoint push_args (argv : list (list Z)) (argc pgdir sp : Z) (ptrs : list Z) : K X (option (Z * list Z)) :=
  match argv with
  | [] => kret (Some (sp, ptrs))
  | a :: argv' =>
      if MAXARG <=? argc then kret None else
      let len := Z.of_nat (length a) in
      let sp := Z.land (u32 (sp - (len + 1))) (Z.lnot 3) in
      let! r := vm (copyout pgdir sp (a ++ [0]) (len + 1)) in
      if r <? 0 then kret None else
      push_args argv' (argc + 1) pgdir sp (ptrs ++ [sp])
  end.

(** [for (last = s = path; *s; s++) if ( *s == '/') last = s + 1;] *)
Fixpoint last_elem (s last : list Z) : list Z :=
  match s with
  | [] => last
  | c :: s' => if c =? 0 then last else last_elem s' (if c =? 47 then s' else last)
  end.

(** From the stack on: the address space [pgdir] holds the program, the file is closed. *)
Definition exec_stack (path : list Z) (argv : list (list Z)) (entry pgdir sz : Z) : K X Z :=
  let sz := PGROUNDUP sz in
  let! sz := vm (allocuvm end_ pgdir sz (u32 (sz + 2 * PGSIZE))) in
  if sz =? 0 then bad pgdir None else
  vm (clearpteu pgdir (u32 (sz - 2 * PGSIZE))) ;;
  let! r := push_args argv 0 pgdir sz [] in
  match r with
  | None => bad pgdir None
  | Some (sp, ptrs) =>
      let argc := Z.of_nat (length argv) in
      let ustack := [0xffffffff; argc; u32 (sp - (argc + 1) * 4)] ++ ptrs ++ [0] in
      let sp := u32 (sp - (3 + argc + 1) * 4) in
      let! r := vm (copyout pgdir sp (concat (map le32 ustack)) ((3 + argc + 1) * 4)) in
      if r <? 0 then bad pgdir None else
      let! p := kget x_proc in
      let oldpgdir := xp_pgdir p in
      let p := XProc pgdir sz entry sp (xp_kstack p) (safe_name (xp_name p) (last_elem path path)) in
      kmodify (set_proc p) ;;
      switchuvm p ;;
      vm (freevm end_ oldpgdir) ;;
      kret 0
  end.

Definition exec (path : list Z) (argv : list (list Z)) : K X Z :=
  fsx xf_begin_op ;;
  let! r := fsx (xf_namei path) in
  match r with
  | None => fsx xf_end_op ;; kret (-1)
  | Some ip =>
      fsx (xf_ilock ip) ;;
      let! h := fsx (xf_readi ip 0 sizeof_elfhdr) in
      if negb (fst h =? sizeof_elfhdr) then bad 0 (Some ip) else
      let elf := elfhdr_of (snd h) in
      if negb (e_magic elf =? ELF_MAGIC) then bad 0 (Some ip) else
      let! pgdir := vm (setupkvm end_ data) in
      if pgdir =? 0 then bad 0 (Some ip) else
      let! r := load_segments (Z.to_nat (e_phnum elf)) ip pgdir (s32 (e_phoff elf)) 0 in
      match r with
      | None => bad pgdir (Some ip)
      | Some sz =>
          fsx (xf_iunlockput ip) ;;
          fsx xf_end_op ;;
          exec_stack path argv (e_entry elf) pgdir sz
      end
  end.
End exec.
