(* ===== verification/ExecProps.v ===== *)
(** * Loading a program: all or nothing (exec.c)

    exec against a file system that keeps the laws of [ExecFsLaws]: which operations may be
    called when, and that readi delivers the bytes of the file.  The routines of Fs.v are proved
    to keep them, and the theorem is about exec over Fs.v; its example is the program ls on a
    disk that mkfs made. *)

From S2P Require Import Proc.
From S2P Require Import Prelude Mem Layout Kalloc Vm VmMap VmUser VmSpace VmCopy Fsdefs Exec.

(** What exec relies on once the file is open: [xf_open ip file] says that inode [ip] is a
    locked regular file with the bytes [file], [xf_tx] that a transaction is open and no inode
    is held, [xf_idle] that no transaction is open.  fs.c keeps these laws (below). *)
Class ExecFsLaws (F : Type) `{ExecFs F} := {
  xf_idle : F -> Prop;
  xf_tx : F -> Prop;
  xf_open : nat -> list Z -> F -> Prop;
  xf_end_ok f : xf_tx f -> exists f', xf_end_op f = Ret tt f' /\ xf_idle f';
  xf_iunlockput_ok ip file f : xf_open ip file f -> exists f', xf_iunlockput ip f = Ret tt f' /\ xf_tx f';
  xf_readi_ok ip file f off n : xf_open ip file f -> 0 <= off < 4294967296 -> 0 <= n <= 4096 ->
    exists c l f', xf_readi ip off n f = Ret (c, l) f' /\ xf_open ip file f' /\
      Z.of_nat (length l) <= n /\ Forall (fun b => 0 <= b < 256) l /\
      (u32 c = n -> Z.of_nat (length l) = n /\ l = take (Z.to_nat n) (drop (Z.to_nat off) file));
  xf_file_small ip file f : xf_open ip file f -> Z.of_nat (length file) < 2147483648 }.

(** Looking [path] up in a new transaction finds nothing, or a file that could be locked. *)
Inductive found {F : Type} `{ExecFsLaws F} (f : F) (path : list Z) : option (list Z) -> Prop :=
| found_none f1 f2 : xf_begin_op f = Ret tt f1 -> xf_namei path f1 = Ret None f2 -> xf_tx f2 -> found f path None
| found_file ip file f1 f2 f3 : xf_begin_op f = Ret tt f1 -> xf_namei path f1 = Ret (Some ip) f2 ->
    xf_ilock ip f2 = Ret tt f3 -> xf_open ip file f3 -> found f path (Some file).

(** ** What the file says *)

(** The program header at offset [o] of the file. *)
Definition ph_at (file : list Z) (o : Z) : proghdr := proghdr_of (take 32 (drop (Z.to_nat (u32 o)) file)).

(** Memory after a segment was loaded over it. *)
Definition seg_image (file : list Z) (ph : proghdr) (img : Z -> Z) (va : Z) : Z :=
  if decide (ph_type ph = ELF_PROG_LOAD /\ ph_vaddr ph <= va < ph_vaddr ph + ph_filesz ph)
  then nth (Z.to_nat (ph_off ph + (va - ph_vaddr ph))) file 0 else img va.

Fixpoint image_from (file : list Z) (n : nat) (o : Z) (img : Z -> Z) : Z -> Z :=
  match n with
  | O => img
  | S n => image_from file n (o + 32) (seg_image file (ph_at file o) img)
  end.

(** The program the file holds: its segments, later ones over earlier ones, over zeros. *)
Definition elf_image (file : list Z) : Z -> Z :=
  let h := elfhdr_of (take 52 file) in
  image_from file (Z.to_nat (e_phnum h)) (e_phoff h) (fun _ => 0).

Lemma ld32_range l o : Forall (fun b => 0 <= b < 256) l -> 0 <= ld32 l o < 4294967296.
Proof.
  intros Hl. assert (Hn : forall i, 0 <= nth i l 0 < 256).
  { intros i. destruct (decide (i < length l)%nat); [|rewrite nth_overflow by lia; lia]. rewrite Forall_nth in Hl. by apply Hl. }
  unfold ld32. pose proof (Hn o). pose proof (Hn (o + 1)%nat). pose proof (Hn (o + 2)%nat). pose proof (Hn (o + 3)%nat). lia.
Qed.

Section props.
Context {F : Type} `{EF : ExecFs F} `{EL : !ExecFsLaws F}.
Variable end_ data : Z.
Hypothesis end_high : KERNBASE < end_.
Hypothesis data_aligned : data mod 4096 = 0.
Hypothesis data_range : KERNLINK < data < KERNBASE + PHYSTOP.
Notation X := (xstate F).
Notation space_new := (space_new end_).
Notation kernel_mapped := (kernel_mapped data).

Lemma fsx_ret {A} (c : K F A) f k p cp a f' : c f = Ret a f' -> fsx c (XState f k p cp) = Ret a (XState f' k p cp).
Proof. intros E. unfold fsx, kzoom. simpl. by rewrite E. Qed.
Lemma vm_ret {A} (c : K kmem A) (f : F) k p cp a k' : c k = Ret a k' -> vm A c (XState f k p cp) = Ret a (XState f k' p cp).
Proof. intros E. unfold vm, kzoom. simpl. by rewrite E. Qed.

(** An address space under construction that holds the memory [img] below [sz]. *)
Record built (k0 : kmem) (ps0 : list Z) (d : Z) (img : Z -> Z) (sz : Z) (k : kmem) (ps : list Z) : Prop := {
  bt_space : space_new k0 ps0 d k ps;
  bt_kernel : kernel_mapped (km_mem k) d;
  bt_pages : user_pages (km_mem k) d sz;
  bt_sz : 0 <= sz < KERNBASE;
  bt_img : forall va, 0 <= va < page_up sz -> ubyte (km_mem k) d va = img va;
  bt_zero : forall va, page_up sz <= va -> img va = 0 }.

(** ** loaduvm *)

Notation load ip := (loaduvm_loop (@vm F) (fun off n => fsx (xf_readi ip off n))).

Lemma loaduvm_loop_spec k0 ps0 d sz ip file addr off fsz p cp n : forall f k ps i,
  xf_open ip file f -> space_new k0 ps0 d k ps -> user_pages (km_mem k) d sz -> 0 <= sz < KERNBASE ->
  0 <= addr -> addr mod 4096 = 0 -> 0 <= off < 4294967296 -> addr + fsz <= sz -> 0 <= i -> i mod 4096 = 0 -> (i = 0 \/ off < 2147483648) ->
  fsz <= i + Z.of_nat n * 4096 ->
  exists r f' k', load ip n d addr i off fsz (XState f k p cp) = Ret r (XState f' k' p cp) /\
    xf_open ip file f' /\ space_new k0 ps0 d k' ps /\ (forall v, pte_of (km_mem k') d v = pte_of (km_mem k) d v) /\
    (r = -1 \/ (r = 0 /\ forall va, mapped_at (km_mem k) d va -> ubyte (km_mem k') d va =
       if decide (addr + i <= va < addr + fsz) then nth (Z.to_nat (off + (va - addr))) file 0 else ubyte (km_mem k) d va)).
Proof.
  induction n as [|n IH]; intros f k ps i Ho Hs Hu Hsz Ha Ham Hoff Hfit Hi Him Hio Hn; unfold KERNBASE in Hsz; cbn [loaduvm_loop];
    destruct (Z.ltb_spec i fsz) as [Hlt|Hge]; try lia;
    try (exists 0, f, k; split; [done|]; split; [done|]; split; [done|]; split; [done|]; right; split; [done|]; intros va _; by rewrite decide_False by lia).
  pose proof (page_up_bounds sz) as Hup. rewrite (u32_small (addr + i)) by lia. set (va0 := addr + i).
  assert (Hva0 : 0 <= va0 /\ va0 mod 4096 = 0 /\ va0 < sz) by (unfold va0; split_and!; (lia || dlia)). destruct Hva0 as (Hv1 & Hv2 & Hv3).
  assert (Hma : mapped_at (km_mem k) d va0) by (eapply user_pages_mapped; [done|lia|unfold KERNBASE; lia]).
  rewrite (kbind_ret _ _ _ _ _ (vm_ret _ f k p cp _ _ (walkpgdir_look k d va0))).
  assert (Hpd : present (pde_at (km_mem k) d (PDX va0)) = true).
  { destruct Hma as [_ Hp]. unfold pte_of in Hp. by destruct (present (pde_at (km_mem k) d (PDX va0))). }
  assert (Ee : load32 (km_mem k) (table (pde_at (km_mem k) d (PDX va0)) + 4 * PTX va0) = pte_of (km_mem k) d va0) by (unfold pte_of; by rewrite Hpd).
  destruct (vo_tab _ _ _ _ (uo_vm _ _ _ _ (sn_ok _ _ _ _ _ _ Hs)) (PDX va0) (PDX_range va0) Hpd) as (Ht & _). apply page_ok_range in Ht.
  unfold KERNBASE in Ht. pose proof (PTX_range va0). rewrite Hpd, (proj2 (Z.eqb_neq _ 0)) by lia.
  rewrite (kbind_ret _ _ _ _ _ (vm_ret (mload _) f k p cp _ _ eq_refl)). rewrite Ee. fold (frame (km_mem k) d va0).
  set (len := if u32 (fsz - i) <? PGSIZE then u32 (fsz - i) else PGSIZE).
  assert (Hlen : 0 < len <= 4096 /\ i + len <= fsz /\ (i + len = fsz \/ len = 4096)).
  { unfold len, PGSIZE. rewrite u32_small by lia. destruct (Z.ltb_spec (fsz - i) 4096); lia. }
  destruct Hlen as (Hl1 & Hl2 & Hl3). clearbody len.
  destruct (xf_readi_ok ip file f (u32 (off + i)) len Ho (u32_range _) ltac:(lia)) as (c & l & f' & E & Ho' & Hll & Hby & Hslice).
  rewrite (kbind_ret _ _ _ _ _ (fsx_ret _ _ k p cp _ _ E)). cbn [fst snd].
  destruct (space_write end_ k0 ps0 d k ps va0 0 l Hs Hma Hv2) as (Hs1 & Hpte1 & Hub1); [lia|lia|done|]. rewrite Z.add_0_r in *.
  unfold mwrite. rewrite (kbind_ret _ _ _ _ _ (vm_ret (kmodify _) f' k p cp tt _ eq_refl)). set (k1 := set_mem _ k) in *. clearbody k1.
  destruct (Z.eqb_spec (u32 c) len) as [Ec|Ec]; cbn [negb].
  2:{ exists (-1), f', k1. split; [done|]. split; [done|]. split; [done|]. split; [done|]. by left. }
  destruct (Hslice Ec) as [Hll' El]. pose proof (xf_file_small _ _ _ Ho) as Hsm.
  assert (Hin : u32 (off + i) + len <= Z.of_nat (length file)).
  { rewrite El, length_take, length_drop in Hll'. pose proof (u32_range (off + i)). lia. }
  assert (Eo : u32 (off + i) = off + i) by (apply u32_small; destruct Hio as [->|?]; lia). rewrite Eo in *.
  destruct (IH f' k1 ps (i + 4096)) as (r & f2 & k2 & E2 & Ho2 & Hs2 & Hpte2 & Hr); try done; try lia; [|dlia|].
  { destruct Hu as [Hu1 Hu2]. split; intros v Hv; rewrite Hpte1; auto. }
  unfold PGSIZE. rewrite (u32_small (i + 4096)) by lia. exists r, f2, k2. split; [done|]. split; [done|]. split; [done|].
  split; [intros v; by rewrite Hpte2|]. destruct Hr as [->|[-> Hub2]]; [by left|right]. split; [done|]. intros va Hva.
  rewrite Hub2 by (unfold mapped_at in *; by rewrite Hpte1). rewrite Hub1 by done. unfold va0. repeat case_decide; try lia.
  rewrite El, nth_firstn, (proj2 (Nat.ltb_lt _ _)), nth_skipn by lia. f_equal. lia.
Qed.

(** ** The program headers *)

Lemma built_load k0 ps0 d img sz ip file ph f k ps p cp :
  xf_open ip file f -> built k0 ps0 d img sz k ps -> ph_type ph = ELF_PROG_LOAD -> 0 <= ph_vaddr ph -> ph_vaddr ph mod 4096 = 0 ->
  0 <= ph_off ph < 4294967296 -> 0 <= ph_filesz ph -> ph_vaddr ph + ph_filesz ph <= sz ->
  exists r f' k', loaduvm (@vm F) (fun off n => fsx (xf_readi ip off n)) d (ph_vaddr ph) (ph_off ph) (ph_filesz ph) (XState f k p cp) = Ret r (XState f' k' p cp) /\
    xf_open ip file f' /\ space_new k0 ps0 d k' ps /\ (r = -1 \/ (r = 0 /\ built k0 ps0 d (seg_image file ph img) sz k' ps)).
Proof.
  intros Ho [B1 B2 B3 B4 B5 B6] Hty Hva Ham Hoff Hfs Hfit. unfold loaduvm, truth, PGSIZE. rewrite Ham. cbn [Z.eqb negb].
  destruct (loaduvm_loop_spec k0 ps0 d sz ip file (ph_vaddr ph) (ph_off ph) (ph_filesz ph) p cp (Z.to_nat (ph_filesz ph / 4096 + 1)) f k ps 0)
    as (r & f' & k' & E & Ho' & Hs' & Hpte & Hr); try done; [by left|rewrite Z2Nat.id by dlia; dlia|].
  exists r, f', k'. split; [done|]. split; [done|]. split; [done|]. destruct Hr as [->|[-> Hub]]; [by left|right]. split; [done|].
  unfold KERNBASE in B4. pose proof (page_up_bounds sz) as Hup. constructor; try done.
  - intros v Hv. rewrite Hpte. by apply B2.
  - destruct B3 as [Hu1 Hu2]. split; intros v Hv; rewrite Hpte; auto.
  - intros va Hv. rewrite Hub by (eapply user_pages_mapped; [done|done|unfold KERNBASE; lia]). unfold seg_image. rewrite Z.add_0_r, B5 by done.
    repeat case_decide; try tauto; lia.
  - intros va Hv. unfold seg_image. rewrite decide_False by lia. by apply B6.
Qed.

Lemma built_alloc k0 ps0 d img sz newsz k ps : built k0 ps0 d img sz k ps -> 0 <= newsz ->
  exists r k' ps', allocuvm end_ d sz newsz k = Ret r k' /\ space_new k0 ps0 d k' ps' /\
    (r = 0 \/ (r = Z.max sz newsz /\ built k0 ps0 d img r k' ps')).
Proof.
  intros [B1 B2 B3 B4 B5 B6] Hn. destruct (space_allocuvm end_ end_high data k0 ps0 d k ps sz newsz B1 B2 B3 B4 Hn) as (r & k' & ps' & E & Hs & Hk & Hr).
  exists r, k', ps'. split; [done|]. split; [done|]. destruct Hr as [->|(Er & Hr & Hu & Hold & Hnew)]; [by left|right]. split; [done|].
  constructor; try done; [lia| |].
  - intros va Hv. destruct (decide (va < page_up sz)); [destruct (Hold va) as [_ ->]; [lia|]; apply B5; lia|]. rewrite Hnew by lia. symmetry. apply B6. lia.
  - intros va Hv. apply B6. pose proof (page_up_mono sz r). lia.
Qed.

Lemma load_segments_spec k0 ps0 d ip file p cp n : forall f k ps off o img sz,
  xf_open ip file f -> built k0 ps0 d img sz k ps -> u32 off = u32 o ->
  exists r f' k' ps', load_segments end_ n ip d off sz (XState f k p cp) = Ret r (XState f' k' p cp) /\
    xf_open ip file f' /\ space_new k0 ps0 d k' ps' /\
    match r with None => True | Some sz' => built k0 ps0 d (image_from file n o img) sz' k' ps' end.
Proof.
  induction n as [|n IH]; intros f k ps off o img sz Ho Hb Eo; cbn [load_segments image_from].
  { exists (Some sz), f, k, ps. split; [done|]. split; [done|]. split; [apply Hb|done]. }
  destruct (xf_readi_ok ip file f (u32 off) sizeof_proghdr Ho (u32_range _) ltac:(done)) as (c & l & f1 & E & Ho1 & _ & Hby & Hslice).
  rewrite (kbind_ret _ _ _ _ _ (fsx_ret _ _ k p cp _ _ E)). cbn [fst snd]. pose proof (bt_space _ _ _ _ _ _ _ Hb) as Hs.
  assert (Hnone : exists r f' k' ps', kret (@None Z) (XState f1 k p cp) = Ret r (XState f' k' p cp) /\ xf_open ip file f' /\ space_new k0 ps0 d k' ps' /\
    match r with None => True | Some sz' => built k0 ps0 d (image_from file n (o + 32) (seg_image file (ph_at file o) img)) sz' k' ps' end)
    by (exists None, f1, k, ps; done).
  destruct (Z.eqb_spec c sizeof_proghdr) as [->|Hc]; cbn [negb]; [|done]. destruct (Hslice eq_refl) as [_ El]. rewrite Eo in El. change (Z.to_nat sizeof_proghdr) with 32%nat in El.
  assert (Eo' : u32 (s32 (off + sizeof_proghdr)) = u32 (o + 32)).
  { rewrite u32_s32. unfold sizeof_proghdr. by rewrite <- (u32_add_l off), Eo, u32_add_l. }
  assert (Eph : proghdr_of l = ph_at file o) by (by rewrite El). rewrite Eph. set (ph := ph_at file o) in *.
  assert (Hr : 0 <= ph_off ph < 4294967296 /\ 0 <= ph_vaddr ph < 4294967296 /\ 0 <= ph_filesz ph < 4294967296 /\ 0 <= ph_memsz ph < 4294967296).
  { rewrite <- Eph. cbn [proghdr_of ph_off ph_vaddr ph_filesz ph_memsz]. by split_and!; apply ld32_range. }
  destruct Hr as (R1 & R2 & R3 & R4).
  destruct (Z.eqb_spec (ph_type ph) ELF_PROG_LOAD) as [Ety|Ety]; cbn [negb].
  2:{ apply (IH f1 k ps); [done| |done]. destruct Hb as [B1 B2 B3 B4 B5 B6]. constructor; try done; intros va Hv; unfold seg_image; rewrite decide_False by tauto; auto. }
  destruct (Z.ltb_spec (ph_memsz ph) (ph_filesz ph)) as [|Hms]; [done|].
  destruct (Z.ltb_spec (u32 (ph_vaddr ph + ph_memsz ph)) (ph_vaddr ph)) as [|Hov]; [done|].
  assert (Ev : u32 (ph_vaddr ph + ph_memsz ph) = ph_vaddr ph + ph_memsz ph) by (apply u32_small; revert Hov; unfold u32; dlia).
  rewrite Ev in *. destruct (built_alloc _ _ _ _ _ (ph_vaddr ph + ph_memsz ph) _ _ Hb) as (r & k1 & ps1 & E1 & Hs1 & Hr); [lia|].
  rewrite (kbind_ret _ _ _ _ _ (vm_ret _ f1 k p cp _ _ E1)). destruct (Z.eqb_spec r 0) as [Er|Er]; [exists None, f1, k1, ps1; done|].
  destruct Hr as [?|[Er' Hb1]]; [done|]. unfold PGSIZE. destruct (Z.eqb_spec (ph_vaddr ph mod 4096) 0) as [Ham|Ham]; cbn [negb]; [|exists None, f1, k1, ps1; done].
  destruct (built_load k0 ps0 d img r ip file ph f1 k1 ps1 p cp Ho1 Hb1 Ety) as (q & f2 & k2 & E2 & Ho2 & Hs2 & Hq); [lia|done|done|lia|lia|].
  rewrite (kbind_ret _ _ _ _ _ E2). destruct Hq as [->|[-> Hb2]]; [exists None, f2, k2, ps1; done|].
  change (0 <? 0) with false. cbv iota. by apply (IH f2 k2 ps1).
Qed.

(** ** The stack *)

(** The string [a] with its zero byte at user address [q]. *)
Definition ucstr (m : mem) (d q : Z) (a : list Z) : Prop :=
  forall j, (j <= length a)%nat -> ubyte m d (q + Z.of_nat j) = nth j (a ++ [0]) 0.

(** The program [img], a page the user cannot access, and the stack page below [top], filled
    down to [sp] with the strings [args] at the addresses [ptrs]. *)
Record stacked (k0 : kmem) (ps0 : list Z) (d : Z) (img : Z -> Z) (top : Z) (k : kmem) (ps : list Z)
    (sp : Z) (args : list (list Z)) (ptrs : list Z) : Prop := {
  st_space : space_new k0 ps0 d k ps;
  st_kernel : kernel_mapped (km_mem k) d;
  st_top : 8192 <= top < KERNBASE /\ top mod 4096 = 0;
  st_guard : forall v, top - 8192 <= v < top - 4096 -> present (pte_of (km_mem k) d v) = true /\ ~ user_access (km_mem k) d v;
  st_user : forall v, 0 <= v < top - 8192 \/ top - 4096 <= v < top -> PTE_FLAGS (pte_of (km_mem k) d v) = 7;
  st_none : forall v, top <= v < KERNBASE -> present (pte_of (km_mem k) d v) = false;
  st_img : forall v, 0 <= v < top - 8192 -> ubyte (km_mem k) d v = img v;
  st_sp : top - 4096 <= sp <= top /\ sp mod 4 = 0;
  st_args : Forall2 (fun q a => sp <= q /\ q + Z.of_nat (length a) < top /\ ucstr (km_mem k) d q a) ptrs args }.

Lemma stacked_present k0 ps0 d img top k ps sp args ptrs v : stacked k0 ps0 d img top k ps sp args ptrs -> 0 <= v < top ->
  present (pte_of (km_mem k) d v) = true.
Proof.
  intros [S1 S2 S3 S4 S5 S6 S7 S8 S9] Hv. destruct (decide (top - 8192 <= v < top - 4096)) as [Hg|Hg]; [by apply S4|].
  apply user_flags_present. apply S5. lia.
Qed.

(** A copy that ends at the stack pointer stays in the stack page or fails. *)
Lemma stack_copyout k0 ps0 d img top k ps sp args ptrs va buf :
  stacked k0 ps0 d img top k ps sp args ptrs -> 0 <= va -> va mod 4 = 0 -> Forall (fun b => 0 <= b < 256) buf -> buf <> [] ->
  sp - 3 <= va + Z.of_nat (length buf) <= sp ->
  exists r k', copyout d va buf (Z.of_nat (length buf)) k = Ret r k' /\ space_new k0 ps0 d k' ps /\
    (r = -1 \/ (r = 0 /\ stacked k0 ps0 d img top k' ps va args ptrs /\
       forall j, (j < length buf)%nat -> ubyte (km_mem k') d (va + Z.of_nat j) = nth j buf 0)).
Proof.
  intros Hst Hva Hva4 Hby Hne Hend. pose proof Hst as [S1 S2 [S3 S3'] S4 S5 S6 S7 [S8 S8'] S9]. unfold KERNBASE in S3.
  assert (Hpos : (0 < length buf)%nat) by (destruct buf; [done|simpl; lia]).
  destruct (copyout_spec end_ data k0 ps0 d k ps va buf S1 S2 Hva) as (r & k' & E & Hs & Hpte & Hr); [lia|done|intros v Hv; eapply stacked_present; [done|lia]|].
  exists r, k'. split; [done|]. split; [done|]. destruct Hr as [(-> & Hu & Hub)|[-> _]]; [right|by left]. split; [done|].
  assert (Hlow : top - 4096 <= va).
  { destruct (decide (top - 4096 <= va)); [done|]. exfalso. destruct (decide (top - 8192 <= va)) as [Hg|Hg].
    - destruct (S4 va) as [_ Hn]; [lia|]. apply Hn, Hu. lia.
    - destruct (S4 (top - 8192)) as [_ Hn]; [lia|]. apply Hn, Hu. lia. }
  assert (Hma : forall v, 0 <= v < top -> mapped_at (km_mem k) d v) by (intros v Hv; split; [unfold KERNBASE; lia|by eapply stacked_present]).
  split.
  - constructor; try done.
    + intros v Hv. rewrite Hpte. by apply S2.
    + intros v Hv. unfold user_access. rewrite Hpte. by apply S4.
    + intros v Hv. rewrite Hpte. by apply S5.
    + intros v Hv. rewrite Hpte. by apply S6.
    + intros v Hv. rewrite Hub by (apply Hma; lia). rewrite decide_False by lia. by apply S7.
    + split; [lia|done].
    + eapply Forall2_impl; [exact S9|]. intros q a0 (Q1 & Q2 & Q3). split; [lia|]. split; [done|]. intros j Hj.
      rewrite Hub by (apply Hma; lia). rewrite decide_False by lia. by apply Q3.
  - intros j Hj. rewrite Hub by (apply Hma; lia). rewrite decide_True by lia. f_equal. lia.
Qed.

(** A copy to an address above the kernel's memory fails at once. *)
Lemma copyout_denied k0 ps0 d k ps va buf : space_new k0 ps0 d k ps -> kernel_mapped (km_mem k) d -> DEVSPACE <= va < 4294967296 ->
  buf <> [] -> copyout d va buf (Z.of_nat (length buf)) k = Ret (-1) k.
Proof.
  intros Hs Hk Hva Hne. unfold DEVSPACE in Hva. assert (Hpos : 0 < Z.of_nat (length buf)) by (destruct buf; [done|simpl; lia]). unfold copyout, PGSIZE.
  destruct (Z.to_nat (Z.of_nat (length buf) / 4096 + 2)) as [|n] eqn:En; [exfalso; dlia|]. cbn [copyout_loop].
  rewrite (proj2 (Z.ltb_lt 0 _)) by done. rewrite PGROUNDDOWN_eq. set (va0 := va - va mod 4096).
  assert (Hv0 : 4261412864 <= va0 < 4294967296 /\ va0 mod 4096 = 0) by (unfold va0; dlia).
  assert (Ek : pte_of (km_mem k) d va0 = va0 + 3).
  { rewrite Hk by (unfold KERNBASE; lia). unfold kpte, KERNBASE, KERNLINK, EXTMEM, PHYSTOP, DEVSPACE in *. rewrite !(proj2 (Z.ltb_ge va0 _)) by (simpl; lia).
    change (Z.lor PTE_W PTE_P) with 3. lia. }
  assert (Hp : present (pte_of (km_mem k) d va0) = true).
  { rewrite Ek, present_bit, PTE_FLAGS_eq. replace ((va0 + 3) mod 4096) with 3 by dlia. done. }
  rewrite (kbind_ret _ _ _ _ _ (uva2ka_spec end_ k ps d va0 (uo_vm _ _ _ _ (sn_ok _ _ _ _ _ _ Hs)) Hp)).
  pose proof (kpte_not_user data va0) as Hnu. rewrite <- Hk in Hnu by (unfold KERNBASE; lia). rewrite Hnu. done.
Qed.

Lemma push_sp sp len : 0 <= sp < 2147483648 -> 0 <= len < 16777216 ->
  let sp' := Z.land (u32 (sp - (len + 1))) (Z.lnot 3) in
  sp' mod 4 = 0 /\ ((0 <= sp' /\ sp - 3 <= sp' + (len + 1) <= sp) \/ (DEVSPACE <= sp' < 4294967296)).
Proof.
  intros Hsp Hlen sp'. assert (E : sp' = u32 (sp - (len + 1)) - u32 (sp - (len + 1)) mod 4).
  { unfold sp'. change 3 with (Z.ones 2). rewrite <- Z.ldiff_land, Z.ldiff_ones_r, Z.shiftl_mul_pow2, Z.shiftr_div_pow2 by lia. change (2 ^ 2) with 4. dlia. }
  unfold DEVSPACE. rewrite E. clear E sp'. unfold u32. destruct (decide (len + 1 <= sp)).
  - rewrite (Z.mod_small (sp - (len + 1))) by lia. split; [dlia|left; dlia].
  - replace ((sp - (len + 1)) mod 4294967296) with (sp - (len + 1) + 4294967296) by (apply Z.mod_unique with (-1); lia). split; [dlia|right; dlia].
Qed.

(** The arguments exec is given: bytes, none zero, and no string of 16 MB or more. *)
Definition arg_ok (a : list Z) : Prop := Forall (fun b => 0 < b < 256) a /\ Z.of_nat (length a) < 16777216.

Lemma push_args_spec k0 ps0 d img top ps (f : F) p cp argv : forall k sp done_args ptrs,
  Forall arg_ok argv -> stacked k0 ps0 d img top k ps sp done_args ptrs ->
  exists r k', push_args argv (Z.of_nat (length done_args)) d sp ptrs (XState f k p cp) = Ret r (XState f k' p cp) /\ space_new k0 ps0 d k' ps /\
    match r with
    | None => True
    | Some (sp', ptrs') => stacked k0 ps0 d img top k' ps sp' (done_args ++ argv) ptrs' /\ Z.of_nat (length (done_args ++ argv)) <= Z.max MAXARG (Z.of_nat (length done_args))
    end.
Proof.
  induction argv as [|a argv IH]; intros k sp da ptrs Hok Hst; cbn [push_args].
  { exists (Some (sp, ptrs)), k. rewrite app_nil_r. split; [done|]. split; [apply Hst|]. split; [done|lia]. }
  apply Forall_cons in Hok as [[Ha Hal] Hok]. pose proof (st_space _ _ _ _ _ _ _ _ _ _ Hst) as Hs. pose proof (st_kernel _ _ _ _ _ _ _ _ _ _ Hst) as Hk.
  destruct (Z.leb_spec MAXARG (Z.of_nat (length da))) as [|Hmax]; [exists None, k; done|].
  destruct (st_top _ _ _ _ _ _ _ _ _ _ Hst) as [Htop _]. destruct (st_sp _ _ _ _ _ _ _ _ _ _ Hst) as [Hsp _]. unfold KERNBASE in Htop.
  destruct (push_sp sp (Z.of_nat (length a))) as [Hal4 Hnew]; [lia|lia|]. set (sp' := Z.land _ (Z.lnot 3)) in *. clearbody sp'.
  replace (Z.of_nat (length a) + 1) with (Z.of_nat (length (a ++ [0]))) in * by (rewrite length_app; simpl; lia).
  destruct Hnew as [[Hpos Hend]|Hhigh].
  - destruct (stack_copyout _ _ _ _ _ _ _ _ _ _ sp' (a ++ [0]) Hst Hpos Hal4) as (r & k1 & E & Hs1 & Hr).
    { apply Forall_app. split; [eapply Forall_impl; [exact Ha|]; simpl; lia|]. apply Forall_singleton. lia. } { by destruct a. } { done. }
    rewrite (kbind_ret _ _ _ _ _ (vm_ret _ f k p cp _ _ E)). destruct Hr as [->|(-> & Hst1 & Hub)]; [exists None, k1; done|].
    change (0 <? 0) with false. cbv iota.
    assert (Hst2 : stacked k0 ps0 d img top k1 ps sp' (da ++ [a]) (ptrs ++ [sp'])).
    { destruct Hst1 as [T1 T2 T3 T4 T5 T6 T7 T8 T9]. constructor; try done. apply Forall2_app; [done|]. apply Forall2_cons. split; [|done].
      split; [lia|]. split; [rewrite length_app in Hend; simpl in Hend; lia|]. intros j Hj. apply Hub. rewrite length_app. simpl. lia. }
    destruct (IH k1 sp' (da ++ [a]) (ptrs ++ [sp']) Hok Hst2) as (r & k' & E' & Hs' & Hr).
    replace (Z.of_nat (length da) + 1) with (Z.of_nat (length (da ++ [a]))) by (rewrite length_app; simpl; lia).
    exists r, k'. split; [done|]. split; [done|]. destruct r as [[sp'' ptrs']|]; [|done]. rewrite <- app_assoc in Hr. destruct Hr as [Hst' Hlen]. split; [done|].
    revert Hlen. rewrite !length_app. simpl. unfold MAXARG in *. lia.
  - rewrite (kbind_ret _ _ _ _ _ (vm_ret _ f k p cp _ _ (copyout_denied _ _ _ _ _ sp' (a ++ [0]) Hs Hk Hhigh ltac:(by destruct a)))).
    exists None, k. done.
Qed.

Lemma PTE_flags7_access m d v : PTE_FLAGS (pte_of m d v) = 7 -> user_access m d v.
Proof. intros E. unfold user_access. rewrite user_bit, E. done. Qed.

(** The two pages above the program, the lower one closed to the user. *)
Lemma make_stack k0 ps0 d img psz k ps : built k0 ps0 d img psz k ps ->
  exists r k1 ps1, allocuvm end_ d (PGROUNDUP psz) (u32 (PGROUNDUP psz + 2 * PGSIZE)) k = Ret r k1 /\ space_new k0 ps0 d k1 ps1 /\
    (r = 0 \/ (r = page_up psz + 8192 /\ exists k2, clearpteu d (u32 (r - 2 * PGSIZE)) k1 = Ret tt k2 /\ stacked k0 ps0 d img r k2 ps1 r [] [])).
Proof.
  intros Hb. pose proof Hb as [B1 B2 B3 B4 B5 B6]. unfold KERNBASE in B4. rewrite PGROUNDUP_page_up by (unfold KERNBASE; lia).
  pose proof (page_up_bounds psz) as Hup. set (q := page_up psz) in *. unfold PGSIZE. rewrite (u32_small (q + 2 * 4096)) by lia.
  assert (Eq : page_up q = q) by (unfold page_up; dlia).
  destruct (decide (q = 2147483648)) as [Ebig|Hsm].
  { unfold allocuvm. rewrite (proj2 (Z.leb_le KERNBASE _)) by (unfold KERNBASE; lia). exists 0, k, ps. split; [done|]. split; [done|]. by left. }
  assert (Hq : q < 2147483648) by (assert (q <= 2147483648) by dlia; lia).
  assert (Hb' : built k0 ps0 d img q k ps).
  { constructor; try done; [|unfold KERNBASE; lia|by rewrite Eq|by rewrite Eq]. destruct B3 as [Hu1 Hu2]. by split; rewrite Eq. }
  destruct (built_alloc _ _ _ _ _ (q + 2 * 4096) _ _ Hb') as (r & k1 & ps1 & E & Hs & Hr); [lia|].
  exists r, k1, ps1. split; [done|]. split; [done|]. destruct Hr as [->|[Er Hb1]]; [by left|right].
  assert (Er' : r = q + 8192) by lia. split; [done|]. destruct Hb1 as [C1 C2 [C3 C3'] C4 C5 C6]. unfold KERNBASE in C4.
  assert (Epr : page_up r = r) by (unfold page_up; dlia). rewrite Epr in *. rewrite (u32_small (r - 2 * 4096)) by lia. replace (r - 2 * 4096) with q by lia.
  assert (Hma : forall v, 0 <= v < r -> mapped_at (km_mem k1) d v) by (intros v Hv; split; [unfold KERNBASE; lia|apply user_flags_present, C3, Hv]).
  destruct (clearpteu_spec end_ k0 ps0 d k1 ps1 q C1) as (k2 & E2 & Hs2 & Hpte & Hub); [apply Hma; lia|lia|].
  exists k2. split; [done|]. constructor; try done.
  - intros v Hv. unfold KERNBASE in Hv. rewrite Hpte by lia. rewrite decide_False by lia. apply C2. unfold KERNBASE. lia.
  - unfold KERNBASE. split; [lia|dlia].
  - intros v Hv. unfold user_access. rewrite Hpte, decide_True by lia. destruct (clear_user_bit (pte_of (km_mem k1) d v)) as (_ & -> & ->). split; [apply Hma; lia|tauto].
  - intros v Hv. rewrite Hpte, decide_False by lia. apply C3. lia.
  - intros v Hv. unfold KERNBASE in Hv. rewrite Hpte, decide_False by lia. apply C3'. unfold KERNBASE. lia.
  - intros v Hv. rewrite Hub by (apply Hma; lia). apply C5. lia.
  - split; [lia|dlia].
Qed.

(** ** The finished image *)

Definition uword (m : mem) (d va : Z) : Z :=
  ubyte m d va + 256 * ubyte m d (va + 1) + 65536 * ubyte m d (va + 2) + 16777216 * ubyte m d (va + 3).

(** The user memory a program starts with: the program, the closed page, and the stack with
    the arguments as main(argc, argv) expects them. *)
Record started (m : mem) (d top sp : Z) (img : Z -> Z) (argv : list (list Z)) : Prop := {
  sd_user : forall v, 0 <= v < top - 8192 \/ top - 4096 <= v < top -> PTE_FLAGS (pte_of m d v) = 7;
  sd_guard : forall v, top - 8192 <= v < top - 4096 -> present (pte_of m d v) = true /\ ~ user_access m d v;
  sd_none : forall v, top <= v < KERNBASE -> present (pte_of m d v) = false;
  sd_img : forall v, 0 <= v < top - 8192 -> ubyte m d v = img v;
  sd_sp : top - 4096 <= sp < top /\ sp mod 4 = 0;
  sd_ret : uword m d sp = 4294967295;
  sd_argc : uword m d (sp + 4) = Z.of_nat (length argv);
  sd_argv : uword m d (sp + 8) = sp + 12;
  sd_end : uword m d (sp + 12 + 4 * Z.of_nat (length argv)) = 0;
  sd_args : forall i a, argv !! i = Some a -> exists q, uword m d (sp + 12 + 4 * Z.of_nat i) = q /\ sp < q /\
    q + Z.of_nat (length a) < top /\ ucstr m d q a }.

Lemma le32_word x : 0 <= x < 4294967296 ->
  u8 x + 256 * u8 (x / 256) + 65536 * u8 (x / 65536) + 16777216 * u8 (x / 16777216) = x.
Proof. clear data_aligned data_range. intros Hx. unfold u8. dlia. Qed.

Lemma nth_words ws j b : (j < length ws)%nat -> (b < 4)%nat -> nth (4 * j + b) (concat (map le32 ws)) 0 = nth b (le32 (nth j ws 0)) 0.
Proof.
  revert j. induction ws as [|w ws IH]; intros j Hj Hb; simpl in Hj; [lia|]. cbn [map concat]. destruct j as [|j].
  - rewrite app_nth1; [f_equal; lia|]. simpl. lia.
  - rewrite app_nth2 by (simpl; lia). change (length (le32 w)) with 4%nat. replace (4 * S j + b - 4)%nat with (4 * j + b)%nat by lia. cbn [nth]. apply IH; lia.
Qed.

Lemma length_words ws : length (concat (map le32 ws)) = (4 * length ws)%nat.
Proof. induction ws as [|w ws IH]; [done|]. cbn [map concat]. rewrite length_app, IH. simpl. lia. Qed.

Lemma words_bytes ws : Forall (fun b => 0 <= b < 256) (concat (map le32 ws)).
Proof.
  induction ws as [|w ws IH]; [constructor|]. cbn [map concat]. apply Forall_app. split; [|done]. unfold le32.
  repeat (constructor; [apply u8_range|]). constructor.
Qed.

(** The last copy: ustack below the strings. *)
Lemma push_ustack k0 ps0 d img top k ps sp argv ptrs :
  stacked k0 ps0 d img top k ps sp argv ptrs -> Z.of_nat (length argv) <= MAXARG ->
  let argc := Z.of_nat (length argv) in
  let sp' := u32 (sp - (3 + argc + 1) * 4) in
  exists r k', copyout d sp' (concat (map le32 ([0xffffffff; argc; u32 (sp - (argc + 1) * 4)] ++ ptrs ++ [0]))) ((3 + argc + 1) * 4) k = Ret r k' /\
    space_new k0 ps0 d k' ps /\ (r = -1 \/ (r = 0 /\ kernel_mapped (km_mem k') d /\ started (km_mem k') d top sp' img argv)).
Proof.
  intros Hst Hmax argc sp'. unfold MAXARG in Hmax. destruct (st_top _ _ _ _ _ _ _ _ _ _ Hst) as [Htop Htop4]. destruct (st_sp _ _ _ _ _ _ _ _ _ _ Hst) as [Hsp Hsp4].
  unfold KERNBASE in Htop. pose proof (Forall2_length _ _ _ (st_args _ _ _ _ _ _ _ _ _ _ Hst)) as Hlp.
  assert (Esp : sp' = sp - (3 + argc + 1) * 4) by (unfold sp'; apply u32_small; unfold argc; lia). rewrite (u32_small (sp - (argc + 1) * 4)) by (unfold argc; lia).
  set (ws := [0xffffffff; argc; sp - (argc + 1) * 4] ++ ptrs ++ [0]).
  assert (Hlw : length ws = (4 + length argv)%nat) by (unfold ws; rewrite !length_app; simpl; lia).
  replace ((3 + argc + 1) * 4) with (Z.of_nat (length (concat (map le32 ws)))) by (rewrite length_words, Hlw; unfold argc; lia).
  destruct (stack_copyout _ _ _ _ _ _ _ _ _ _ sp' (concat (map le32 ws)) Hst) as (r & k' & E & Hs & Hr).
  { unfold argc in Esp. lia. } { rewrite Esp. dlia. } { apply words_bytes. } { intros En. apply (f_equal length) in En. rewrite length_words, Hlw in En. simpl in En. lia. }
  { rewrite length_words, Hlw, Esp. unfold argc. lia. }
  exists r, k'. split; [done|]. split; [done|]. destruct Hr as [->|(-> & Hst' & Hub)]; [by left|right]. split; [done|]. split; [apply Hst'|].
  assert (Hw : forall j, (j < length ws)%nat -> 0 <= nth j ws 0 < 4294967296 -> uword (km_mem k') d (sp' + 4 * Z.of_nat j) = nth j ws 0).
  { intros j Hj Hr. unfold uword. rewrite length_words in Hub.
    replace (sp' + 4 * Z.of_nat j) with (sp' + Z.of_nat (4 * j + 0)) by lia. rewrite Hub by lia.
    replace (sp' + Z.of_nat (4 * j + 0) + 1) with (sp' + Z.of_nat (4 * j + 1)) by lia. rewrite Hub by lia.
    replace (sp' + Z.of_nat (4 * j + 0) + 2) with (sp' + Z.of_nat (4 * j + 2)) by lia. rewrite Hub by lia.
    replace (sp' + Z.of_nat (4 * j + 0) + 3) with (sp' + Z.of_nat (4 * j + 3)) by lia. rewrite Hub by lia.
    rewrite !nth_words by lia. cbn [le32 nth]. by apply le32_word. }
  pose proof Hst' as [T1 T2 T3 T4 T5 T6 T7 [T8 T8'] T9]. unfold argc in *. constructor; try done.
  - split; [lia|done].
  - specialize (Hw 0%nat). rewrite Z.add_0_r in Hw. apply Hw; [lia|simpl; lia].
  - apply (Hw 1%nat); [lia|simpl; lia].
  - replace (sp' + 8) with (sp' + 4 * Z.of_nat 2) by lia. rewrite Hw; [simpl; lia|lia|simpl; lia].
  - replace (sp' + 12 + 4 * Z.of_nat (length argv)) with (sp' + 4 * Z.of_nat (3 + length argv)) by lia. rewrite Hw by (rewrite ?Hlw; try lia;
      unfold ws; rewrite app_nth2, app_nth2 by (simpl; lia); replace (3 + length argv - length _ - length ptrs)%nat with 0%nat by (simpl; lia); simpl; lia).
    unfold ws. rewrite app_nth2, app_nth2 by (simpl; lia). replace (3 + length argv - length _ - length ptrs)%nat with 0%nat by (simpl; lia). done.
  - intros i a Hi. pose proof (lookup_lt_Some _ _ _ Hi) as Hilt.
    destruct (Forall2_lookup_r _ _ _ _ _ T9 Hi) as (q & Hq & Q1 & Q2 & Q3). exists q.
    destruct (Forall2_lookup_r _ _ _ _ _ (st_args _ _ _ _ _ _ _ _ _ _ Hst) Hi) as (q' & Hq' & Q1' & _). rewrite Hq in Hq'. injection Hq' as <-.
    assert (En : nth (3 + i) ws 0 = q).
    { unfold ws. rewrite app_nth2, app_nth1 by (simpl; lia). replace (3 + i - length _)%nat with i by (simpl; lia). by apply nth_lookup_Some. }
    split; [|split; [lia|done]]. replace (sp' + 12 + 4 * Z.of_nat i) with (sp' + 4 * Z.of_nat (3 + i)) by lia.
    rewrite Hw; [done|lia|rewrite En; lia].
Qed.

(** ** exec *)

Lemma bad_closed k0 ps0 d (f : F) k ps p cp : space_new k0 ps0 d k ps -> d <> 0 ->
  exists k' ps', bad end_ d None (XState f k p cp) = Ret (-1) (XState f k' p cp) /\ restored end_ k0 ps0 k' ps'.
Proof.
  intros Hs Hd. destruct (space_free end_ end_high _ _ _ _ _ Hs) as (k' & ps' & E & Hr). exists k', ps'. unfold bad, truth.
  rewrite (proj2 (Z.eqb_neq d 0)) by done. cbn [negb]. rewrite (kbind_ret _ _ _ _ _ (vm_ret _ f k p cp _ _ E)). done.
Qed.

Lemma bad_open k0 ps0 d ip file f k ps p cp : space_new k0 ps0 d k ps -> d <> 0 -> xf_open ip file f ->
  exists f' k' ps', bad end_ d (Some ip) (XState f k p cp) = Ret (-1) (XState f' k' p cp) /\ xf_idle f' /\ restored end_ k0 ps0 k' ps'.
Proof.
  intros Hs Hd Ho. destruct (space_free end_ end_high _ _ _ _ _ Hs) as (k' & ps' & E & Hr).
  destruct (xf_iunlockput_ok ip file f Ho) as (f1 & E1 & Ht). destruct (xf_end_ok f1 Ht) as (f2 & E2 & Hi). exists f2, k', ps'. unfold bad, truth.
  rewrite (proj2 (Z.eqb_neq d 0)) by done. cbn [negb]. rewrite (kbind_ret _ _ _ _ _ (vm_ret _ f k p cp _ _ E)), kbind_assoc.
  rewrite (kbind_ret _ _ _ _ _ (fsx_ret _ _ k' p cp _ _ E1)), (kbind_ret _ _ _ _ _ (fsx_ret _ _ k' p cp _ _ E2)). done.
Qed.

Lemma bad_early ip file f k p cp : xf_open ip file f ->
  exists f', bad end_ 0 (Some ip) (XState f k p cp) = Ret (-1) (XState f' k p cp) /\ xf_idle f'.
Proof.
  intros Ho. destruct (xf_iunlockput_ok ip file f Ho) as (f1 & E1 & Ht). destruct (xf_end_ok f1 Ht) as (f2 & E2 & Hi). exists f2. unfold bad. cbn [truth Z.eqb negb]. krun.
  rewrite (kbind_ret _ _ _ _ _ (fsx_ret _ _ k p cp _ _ E1)), (kbind_ret _ _ _ _ _ (fsx_ret _ _ k p cp _ _ E2)). done.
Qed.

(** The process and its memory after a successful exec; before it they were [p] and [k0], with
    the free pages [ps0]. *)
Record exec_done (k0 : kmem) (ps0 : list Z) (p : xproc) (path : list Z) (argv : list (list Z)) (entry : Z) (img : Z -> Z)
    (k : kmem) (ps : list Z) (p' : xproc) (cp' : xcpu) : Prop := {
  xd_space : uvm_ok end_ k ps (xp_pgdir p');
  xd_kernel : kernel_mapped (km_mem k) (xp_pgdir p');
  xd_start : started (km_mem k) (xp_pgdir p') (xp_sz p') (xp_esp p') img argv;
  xd_entry : xp_eip p' = entry;
  xd_name : xp_name p' = safe_name (xp_name p) (last_elem path path);
  xd_cr3 : cr3 cp' = V2P (xp_pgdir p') /\ ts_esp0 cp' = u32 (xp_kstack p + KSTACKSIZE) /\ xp_kstack p' = xp_kstack p;
  xd_pages : forall w, w ∈ ps \/ owned (km_mem k) (xp_pgdir p') w <-> w ∈ ps0 \/ owned (km_mem k0) (xp_pgdir p) w;
  xd_others : forall w x, page_ok end_ w -> w ∉ ps0 -> ~ owned (km_mem k0) (xp_pgdir p) w -> w <= x < w + 4096 -> km_mem k x = km_mem k0 x }.

Lemma started_intact k d k' ps' top sp img argv : intact end_ k d k' ps' -> 8192 <= top < KERNBASE -> Z.of_nat (length argv) <= MAXARG ->
  sp + 12 + 4 * Z.of_nat (length argv) + 4 <= top -> started (km_mem k) d top sp img argv -> started (km_mem k') d top sp img argv.
Proof.
  intros [_ Hp _ Hd] Htop Hmax Hfit [D1 D2 D3 D4 D5 D6 D7 D8 D9 D10]. unfold KERNBASE in Htop.
  assert (Hub : forall v, 0 <= v < top -> ubyte (km_mem k') d v = ubyte (km_mem k) d v).
  { intros v Hv. apply Hd. split; [unfold KERNBASE; lia|]. destruct (decide (top - 8192 <= v < top - 4096)); [by apply D2|]. apply user_flags_present, D1. lia. }
  assert (Huw : forall v, 0 <= v -> v + 4 <= top -> uword (km_mem k') d v = uword (km_mem k) d v) by (intros v Hv1 Hv2; unfold uword; by rewrite !Hub by lia).
  constructor; try (intros; rewrite Hp; auto; fail); try done.
  - intros v Hv. unfold user_access. rewrite Hp. by apply D2.
  - intros v Hv. rewrite Hub by lia. by apply D4.
  - rewrite Huw by lia. done.
  - rewrite Huw by lia. done.
  - rewrite Huw by lia. done.
  - rewrite Huw by lia. done.
  - intros i a Hi. pose proof (lookup_lt_Some _ _ _ Hi). destruct (D10 i a Hi) as (q & Q1 & Q2 & Q3 & Q4). exists q. rewrite Huw by lia.
    split; [done|]. split; [done|]. split; [done|]. intros j Hj. rewrite Hub by lia. by apply Q4.
Qed.

Definition fails (k0 : kmem) (ps0 : list Z) (p : xproc) (cp : xcpu) (x : X) : Prop :=
  xf_idle (x_fs x) /\ x_proc x = p /\ x_cpu x = cp /\ exists ps, restored end_ k0 ps0 (x_km x) ps.

Definition succeeds (k0 : kmem) (ps0 : list Z) (p : xproc) (path : list Z) (argv : list (list Z)) (entry : Z) (img : Z -> Z) (x : X) : Prop :=
  xf_idle (x_fs x) /\ exists ps, exec_done k0 ps0 p path argv entry img (x_km x) ps (x_proc x) (x_cpu x).

Lemma exec_stack_spec k0 ps0 d img psz f k ps p cp path argv entry :
  uvm_ok end_ k0 ps0 (xp_pgdir p) -> xp_kstack p <> 0 -> Forall arg_ok argv -> xf_idle f -> d <> 0 -> built k0 ps0 d img psz k ps ->
  exists r x', exec_stack end_ path argv entry d psz (XState f k p cp) = Ret r x' /\
    ((r = -1 /\ fails k0 ps0 p cp x') \/ (r = 0 /\ succeeds k0 ps0 p path argv entry img x')).
Proof.
  intros Hold Hks Hargs Hidle Hd Hb. unfold exec_stack.
  assert (Hbad : forall k ps, space_new k0 ps0 d k ps -> exists r x', bad end_ d None (XState f k p cp) = Ret r x' /\
    ((r = -1 /\ fails k0 ps0 p cp x') \/ (r = 0 /\ succeeds k0 ps0 p path argv entry img x'))).
  { intros k2 ps2 Hs. destruct (bad_closed k0 ps0 d f k2 ps2 p cp Hs Hd) as (k' & ps' & E & Hr). exists (-1), (XState f k' p cp). split; [done|]. left.
    split; [done|]. split; [done|]. split; [done|]. split; [done|]. by exists ps'. }
  destruct (make_stack _ _ _ _ _ _ _ Hb) as (r & k1 & ps1 & E & Hs1 & Hr). rewrite (kbind_ret _ _ _ _ _ (vm_ret _ f k p cp _ _ E)).
  destruct (Z.eqb_spec r 0) as [Er|Er]; [by eapply Hbad|]. destruct Hr as [?|(_ & k2 & E2 & Hst)]; [done|].
  rewrite (kbind_ret _ _ _ _ _ (vm_ret _ f k1 p cp _ _ E2)).
  destruct (push_args_spec k0 ps0 d img r ps1 f p cp argv k2 r [] [] Hargs Hst) as (q & k3 & E3 & Hs3 & Hq). simpl in E3. rewrite (kbind_ret _ _ _ _ _ E3).
  destruct q as [[sp ptrs]|]; [|by eapply Hbad]. destruct Hq as [Hst3 Hlen]. cbn [app length] in Hst3, Hlen.
  assert (Hmax : Z.of_nat (length argv) <= MAXARG) by (unfold MAXARG in *; lia).
  destruct (push_ustack _ _ _ _ _ _ _ _ _ _ Hst3 Hmax) as (q & k4 & E4 & Hs4 & Hq). rewrite (kbind_ret _ _ _ _ _ (vm_ret _ f k3 p cp _ _ E4)).
  destruct Hq as [->|(-> & Hk4 & Hsd)]; [by eapply Hbad|]. change (0 <? 0) with false. cbv iota. set (sp' := u32 (sp - (3 + Z.of_nat (length argv) + 1) * 4)) in *. krun. cbn [x_proc].
  destruct (others_intact end_ _ _ _ _ _ _ Hold Hs4) as [O1 O2 O3 O4].
  destruct (freevm_spec end_ end_high k4 ps1 (xp_pgdir p) O1) as (k5 & ps5 & E5 & Hf5 & Hps5 & Hm5).
  unfold switchuvm. cbn [xp_kstack xp_pgdir]. rewrite (proj2 (Z.eqb_neq (xp_kstack p) 0)), (proj2 (Z.eqb_neq d 0)) by done. krun.
  unfold set_proc, set_cpu. cbn [x_fs x_km x_proc x_cpu]. rewrite (kbind_ret _ _ _ _ _ (vm_ret _ f k4 _ _ _ _ E5)). eexists 0, _. split; [done|]. right. split; [done|].
  split; [done|]. exists ps5. cbn [x_km x_proc x_cpu].
  assert (Hnew : intact end_ k4 d k5 ps5).
  { eapply owned_intact; [apply Hs4|done|]. intros w Hw. destruct (owned_page end_ _ _ _ _ (sn_ok _ _ _ _ _ _ Hs4) Hw) as [Hp Hn].
    assert (Hn5 : w ∉ ps5).
    { rewrite Hps5. intros [?|Ho]; [done|]. apply O3 in Ho. destruct (owned_page end_ _ _ _ _ Hold Ho) as [_ Hn0]. apply Hn0. by apply (sn_own _ _ _ _ _ _ Hs4). }
    split; [done|]. intros x. by apply Hm5. }
  destruct (st_top _ _ _ _ _ _ _ _ _ _ Hst3) as [Htop _]. destruct (st_sp _ _ _ _ _ _ _ _ _ _ Hst3) as [Hsp _].
  assert (Esp : sp' = sp - (3 + Z.of_nat (length argv) + 1) * 4) by (unfold sp'; apply u32_small; unfold MAXARG, KERNBASE in *; lia).
  constructor; cbn [xp_pgdir xp_sz xp_eip xp_esp xp_kstack xp_name cr3 ts_esp0]; try done.
  - apply Hnew.
  - intros v Hv. rewrite (in_pte _ _ _ _ _ Hnew). by apply Hk4.
  - eapply started_intact; try done. lia.
  - intros w. rewrite Hps5, (in_own _ _ _ _ _ Hnew), O3. split.
    + intros [[?|?]|?]; [left; by apply (sn_free _ _ _ _ _ _ Hs4)|by right|left; by apply (sn_own _ _ _ _ _ _ Hs4)].
    + intros [Hw|?]; [|by left; right]. destruct (sn_all _ _ _ _ _ _ Hs4 w Hw); [by left; left|by right].
  - intros w x Hw Hn Ho Hx. rewrite (Hm5 w x), (sn_data _ _ _ _ _ _ Hs4 w x); try done. rewrite Hps5, O3. intros [?|?]; [|done].
    apply Hn. by apply (sn_free _ _ _ _ _ _ Hs4).
Qed.

(** [exec] succeeds with the program of an ELF file. *)
Definition runs (k : kmem) (ps : list Z) (p : xproc) (path : list Z) (argv : list (list Z)) (file : list Z) (x : X) : Prop :=
  (52 <= length file)%nat /\ e_magic (elfhdr_of (take 52 file)) = ELF_MAGIC /\
  succeeds k ps p path argv (e_entry (elfhdr_of (take 52 file))) (elf_image file) x.

Lemma exec_spec f k ps p cp path argv o :
  uvm_ok end_ k ps (xp_pgdir p) -> xp_kstack p <> 0 -> Forall arg_ok argv -> found f path o ->
  exists r x', exec end_ data path argv (XState f k p cp) = Ret r x' /\
    ((r = -1 /\ fails k ps p cp x') \/ (r = 0 /\ exists file, o = Some file /\ runs k ps p path argv file x')).
Proof.
  intros Hold Hks Hargs Hfound. unfold exec. pose proof (uvm_free end_ _ _ _ Hold) as Hfree.
  assert (Hsame : restored end_ k ps k ps) by (split; [done|]; by split).
  destruct Hfound as [f1 f2 E1 E2 Ht|ip file f1 f2 f3 E1 E2 E3 Ho3];
    rewrite (kbind_ret _ _ _ _ _ (fsx_ret _ _ k p cp _ _ E1)), (kbind_ret _ _ _ _ _ (fsx_ret _ _ k p cp _ _ E2)).
  { destruct (xf_end_ok f2 Ht) as (f3 & E3 & Hi). rewrite (kbind_ret _ _ _ _ _ (fsx_ret _ _ k p cp _ _ E3)). eexists _, _. split; [done|]. left. split; [done|].
    split; [done|]. split; [done|]. split; [done|]. by exists ps. }
  rewrite (kbind_ret _ _ _ _ _ (fsx_ret _ _ k p cp _ _ E3)).
  destruct (xf_readi_ok ip file f3 0 sizeof_elfhdr Ho3 ltac:(lia) ltac:(done)) as (c & l & f4 & E4 & Ho4 & _ & Hby & Hslice).
  rewrite (kbind_ret _ _ _ _ _ (fsx_ret _ _ k p cp _ _ E4)). cbn [fst snd].
  assert (Hearly : exists r x', bad end_ 0 (Some ip) (XState f4 k p cp) = Ret r x' /\ ((r = -1 /\ fails k ps p cp x') \/
     (r = 0 /\ exists file', Some file = Some file' /\ runs k ps p path argv file' x'))).
  { destruct (bad_early ip file f4 k p cp Ho4) as (f' & E & Hi). exists (-1), (XState f' k p cp). split; [done|]. left. split; [done|].
    split; [done|]. split; [done|]. split; [done|]. by exists ps. }
  destruct (Z.eqb_spec c sizeof_elfhdr) as [->|Hc]; cbn [negb]; [|done]. destruct (Hslice eq_refl) as [Hll El]. change (take _ (drop _ file)) with (take 52 file) in El.
  destruct (Z.eqb_spec (e_magic (elfhdr_of l)) ELF_MAGIC) as [Hm|Hm]; cbn [negb]; [|done].
  destruct (setupkvm_spec end_ end_high data data_aligned data_range k ps Hfree) as (d & k1 & ps1 & E5 & Hd). rewrite (kbind_ret _ _ _ _ _ (vm_ret _ f4 k p cp _ _ E5)).
  destruct Hd as [[-> Hre]|(Hd & Hs & Hk)].
  { rewrite Z.eqb_refl. destruct (bad_early ip file f4 k1 p cp Ho4) as (f' & E & Hi). exists (-1), (XState f' k1 p cp). split; [done|]. left. split; [done|].
    split; [done|]. split; [done|]. split; [done|]. by exists ps1. }
  rewrite (proj2 (Z.eqb_neq d 0)) by done.
  assert (Hb : built k ps d (fun _ => 0) 0 k1 ps1).
  { constructor; try done.
    - intros v Hv. rewrite Hk by (unfold KERNBASE in *; lia). by rewrite (proj2 (Z.ltb_lt _ _)) by lia.
    - split; [change (page_up 0) with 0; lia|]. intros v Hv. unfold KERNBASE in Hv. change (page_up 0) with 0 in Hv. rewrite Hk by lia. unfold kpte, KERNBASE.
      rewrite !(proj2 (Z.ltb_lt _ _)) by lia. done.
    - intros va Hva. change (page_up 0) with 0 in Hva. lia. }
  destruct (load_segments_spec k ps d ip file p cp (Z.to_nat (e_phnum (elfhdr_of l))) f4 k1 ps1 (s32 (e_phoff (elfhdr_of l))) (e_phoff (elfhdr_of l)) _ 0 Ho4 Hb (u32_s32 _))
    as (r & f5 & k2 & ps2 & E6 & Ho5 & Hs2 & Hr2). rewrite (kbind_ret _ _ _ _ _ E6). destruct r as [psz|].
  2:{ destruct (bad_open k ps d ip file f5 k2 ps2 p cp Hs2 Hd Ho5) as (f' & k' & ps' & E & Hi & Hre). exists (-1), (XState f' k' p cp). split; [done|]. left. split; [done|].
      split; [done|]. split; [done|]. split; [done|]. by exists ps'. }
  destruct (xf_iunlockput_ok ip file f5 Ho5) as (f6 & E7 & Ht6). rewrite (kbind_ret _ _ _ _ _ (fsx_ret _ _ k2 p cp _ _ E7)).
  destruct (xf_end_ok f6 Ht6) as (f7 & E8 & Hi7). rewrite (kbind_ret _ _ _ _ _ (fsx_ret _ _ k2 p cp _ _ E8)).
  destruct (exec_stack_spec k ps d _ psz f7 k2 ps2 p cp path argv (e_entry (elfhdr_of l)) Hold Hks Hargs Hi7 Hd Hr2) as (q & x' & E9 & Hq).
  exists q, x'. split; [done|]. destruct Hq as [?|[-> Hq]]; [by left|right]. split; [done|]. exists file. split; [done|].
  split; [rewrite El, length_take in Hll; unfold sizeof_elfhdr in Hll; lia|]. rewrite <- El. split; [done|].
  replace (elf_image file) with (image_from file (Z.to_nat (e_phnum (elfhdr_of l))) (e_phoff (elfhdr_of l)) (fun _ => 0)) by (unfold elf_image; by rewrite <- El). done.
Qed.
End props.


(** A stretch of the numbers below [z]. *)
Lemma seqZ_split off m z : 0 <= off -> 0 <= m -> off + m <= z -> seqZ 0 z = seqZ 0 off ++ seqZ off m ++ seqZ (off + m) (z - off - m).
Proof.
  intros H1 H2 H3. replace z with (off + (m + (z - off - m))) at 1 by lia. rewrite seqZ_app by lia. f_equal. by rewrite seqZ_app by lia.
Qed.

(** ** fs.c keeps the laws *)

From S2P Require Import Sleeplock Fs FsBlocks FsAlloc FsFile FsRw FsTrunc FsRwProps FsIcache FsDir FileWrite.

Section real.
Context `{FH : FsH} {FL : FsLaws} {B : Type} `{BL : BlockLayer B} {LL : BlockLaws B} `{TL : TxLayer B} {TW : TxLaws B}.
Notation S := (fsstate B).
Variable dr : Z -> option (nat -> Z -> K S (Z * list Z)).
(** The contents of the name buffer before namei, which are not read. *)
Variable junk : list Z.

(** exec over fs.c. *)
Definition fs_exec : ExecFs S := {|
  xf_begin_op := blk tx_begin;
  xf_end_op := blk tx_end;
  xf_namei path := namei dr path junk;
  xf_ilock := ilock;
  xf_iunlockput := iunlockput;
  xf_readi := readi dr |}.

(** Inode [ip] is a file, not a device, that is locked and has the bytes [file]; it has links, or
    somebody else holds it too, so that iunlockput does not delete it. *)
Record fs_open (ip : nat) (file : list Z) (s : S) : Prop := {
  op_tx : exists T, bl_ok (fs_blk s) ∅ T;
  op_file : file_ok ip s;
  op_ic : ic_lk s = false;
  op_lock : sl_lk (i_lock (ino ip s)) = false /\ sl_locked (i_lock (ino ip s)) = 1;
  op_ref : 1 <= i_ref (ino ip s) /\ (i_nlink (ino ip s) <> 0 \/ i_ref (ino ip s) <> 1);
  op_bytes : file = fbyte ip s <$> seqZ 0 (i_size (ino ip s));
  op_range : Forall (fun b => 0 <= b < 256) file }.

Lemma fs_end s T : bl_ok (fs_blk s) ∅ T -> exists s', blk tx_end s = Ret tt s' /\ tx_idle (fs_blk s').
Proof.
  intros Hok. destruct (tx_end_law _ _ Hok) as (b & E & Hi & _). exists (set_blk b s). split; [|done]. unfold blk, kzoom. by rewrite E.
Qed.

Lemma fs_iunlockput ip file s : fs_open ip file s -> exists s', iunlockput ip s = Ret tt s' /\ fs_blk s' = fs_blk s.
Proof.
  intros [_ O2 O3 [O4 O5] [O6 O7] _ _]. pose proof (io_ip ip s (fo_ino ip s O2)) as Hip. unfold iunlockput.
  rewrite (kbind_ret _ _ _ _ _ (iunlock_held ip s O4 O5 O6 Hip)). set (s1 := add_woken _ _).
  assert (Ei : ino ip s1 = set_ilock (SleepLock 0 false (sl_name (i_lock (ino ip s))) 0) (ino ip s)).
  { unfold s1, ino, inode_at. cbn. by rewrite nth_alter_eq. }
  destruct (iput_keeps ip s1) as (nm & E).
  - unfold s1. cbn. by rewrite length_alter.
  - split; [done|]. rewrite Ei. done.
  - rewrite Ei. cbn [i_valid i_nlink i_ref set_ilock]. destruct O7 as [H7|H7]; rewrite (proj2 (Z.eqb_neq _ _) H7); by rewrite ?andb_false_r.
  - eexists. split; [exact E|]. done.
Qed.

Lemma fs_readi ip file s off n : fs_open ip file s -> 0 <= off < 4294967296 -> 0 <= n <= 4096 ->
  exists c l s', readi dr ip off n s = Ret (c, l) s' /\ fs_open ip file s' /\ Z.of_nat (length l) <= n /\ Forall (fun b => 0 <= b < 256) l /\
    (u32 c = n -> Z.of_nat (length l) = n /\ l = take (Z.to_nat n) (drop (Z.to_nat off) file)).
Proof.
  intros [(T & O1) O2 O3 O4 O5 O6 O7] Hoff Hn. pose proof O2 as [F1 F2 F3 F4 F5 F6]. pose proof maxfile_small. pose proof F3 as [Hsz _].
  pose proof (readi_spec ip dr s T off n O1 F1 F2 F3 F6 Hoff ltac:(lia)) as Hr.
  apply wp_iff in Hr as ((c & l) & s2 & E & B' & -> & Ok' & Hv & Hr). exists c, l, (set_blk B' s). split; [done|].
  assert (Hopen : fs_open ip file (set_blk B' s)).
  { constructor; try done; [by exists T|by apply sv_file_ok|]. rewrite O6. change (ino ip (set_blk B' s)) with (ino ip s).
    apply list_fmap_ext. intros i o _. by rewrite sv_fbyte. }
  split; [done|]. set (z := i_size (ino ip s)) in *.
  destruct (Z.ltb_spec z off) as [Hlt|Hle]; cbn [orb] in Hr.
  { injection Hr as -> ->. cbn. split; [lia|]. split; [constructor|]. change (u32 (-1)) with 4294967295. lia. }
  rewrite (proj2 (Z.leb_gt _ _)) in Hr by lia. injection Hr as -> ->. set (m := Z.min n (z - off)).
  assert (El : fbyte ip s <$> seqZ off m = take (Z.to_nat m) (drop (Z.to_nat off) file)).
  { rewrite O6, <- fmap_drop, <- fmap_take. f_equal. rewrite (seqZ_split off m z) by lia.
    rewrite drop_app_length' by (rewrite length_seqZ; lia). by rewrite take_app_length' by (rewrite length_seqZ; lia). }
  rewrite length_fmap, length_seqZ. split; [lia|]. split; [rewrite El; by apply Forall_take, Forall_drop|].
  rewrite u32_small by lia. intros Em. split; [lia|]. by rewrite El, Em.
Qed.

#[export] Instance fs_exec_laws : @ExecFsLaws S fs_exec.
Proof.
  refine (@Build_ExecFsLaws S fs_exec (fun s => tx_idle (fs_blk s)) (fun s => exists T, bl_ok (fs_blk s) ∅ T) fs_open _ _ _ _).
  - intros s [T HT]. by eapply fs_end.
  - intros ip file s Ho. destruct (fs_iunlockput ip file s Ho) as (s' & E & Eb). exists s'. split; [done|]. rewrite Eb. apply Ho.
  - apply fs_readi.
  - intros ip file s [_ O2 _ _ _ -> _]. destruct (fo_full ip s O2) as [Hs _]. pose proof maxfile_small. rewrite length_fmap, length_seqZ. lia.
Defined.
#[local] Existing Instance fs_exec.

(** C30: exec of a path that names no file, or names a file (not a device) that can be locked,
    always returns, whatever bytes the file holds.  With -1 the process, the processor and the
    file system's protocol are as before, the same pages are free and no other page has
    changed.  With 0 the file has a complete ELF header with the magic number, and the process
    runs on a new address space that holds the segments of the file, in order over zeros, then
    a page the user cannot touch, then one page of stack with argc, argv and the strings as
    main expects them; entry point, stack pointer, size and name are set; the page-table
    register points to it; the old address space is free again, no page is lost or shared, and
    no page of anybody else has changed. *)
Theorem exec_all_or_nothing (end_ data : Z) (s : S) (k : kmem) (ps : list Z) (p : xproc) (cp : xcpu)
    (path : list Z) (argv : list (list Z)) (o : option (list Z)) :
  KERNBASE < end_ -> data mod PGSIZE = 0 -> KERNLINK < data < KERNBASE + PHYSTOP ->
  uvm_ok end_ k ps (xp_pgdir p) -> xp_kstack p <> 0 -> Forall arg_ok argv -> found s path o ->
  exists r x', exec end_ data path argv (XState s k p cp) = Ret r x' /\
    ((r = -1 /\ fails end_ k ps p cp x') \/ (r = 0 /\ exists file, o = Some file /\ runs end_ data k ps p path argv file x')).
Proof. intros He Ha Hr Hok Hks Hargs Hf. by apply exec_spec. Qed.
End real.

(** ** A small program on a disk made by mkfs *)

From S2P Require Import Log LogSafe FsLog FsGeom Mkfs MkfsImage MkfsFs.

(** An ELF header, one program header and eight bytes of code, to be loaded at address 0
    with 4096 bytes of memory. *)
Definition ex_elf : list Z :=
  le32 ELF_MAGIC ++ replicate 20 0 ++ le32 4 ++ le32 52 ++ replicate 12 0 ++ [1; 0] ++ replicate 6 0 ++
  le32 ELF_PROG_LOAD ++ le32 84 ++ le32 0 ++ le32 0 ++ le32 8 ++ le32 4096 ++ le32 7 ++ le32 4096 ++ [49; 192; 195; 1; 2; 3; 4; 5].

Lemma ex_elf_bytes : Forall (fun b => 0 <= b < 256) ex_elf.
Proof. apply (bool_decide_unpack _). vm_compute. exact I. Qed.

(** The program is the file _ls of mkfs. *)
Definition ls_file : file := ([95; 108; 115], [ex_elf]).
Lemma ls_fits : fits [ls_file].
Proof. split; [repeat constructor; vm_compute; done|repeat constructor; vm_compute; done|vm_compute; done..]. Qed.

(** The kernel on that disk, with [il] in the inode cache. *)
Definition on_disk (il : list inode) (l : logstate) (w : list Z) : fsstate logstate := FsState false il sb l 1 0%nat w.
Definition entry_of (i : Z) (ref : Z) (lk : Z) (d : dinode) : inode :=
  Inode ROOTDEV i ref (SleepLock lk false "" lk) 1 (di_type d) (di_major d) (di_minor d) (di_nlink d) (di_size d) (di_addrs d).
Definition new_entry (i : Z) : inode := Inode ROOTDEV i 1 (SleepLock 0 false "" 0) 0 0 0 0 0 0 [].

Section ls.
Variables (im : image) (D : Z -> dinode) (C : Z -> list Z).
Hypothesis M : made [ls_file] im D C.
(** What mkfs wrote for the root directory and for the file. *)
Definition ex_d1 : dinode := dinode_at (im_blk im 32) 1.
Definition ex_d2 : dinode := dinode_at (im_blk im 32) 2.
Hypothesis Hd1 : di_type ex_d1 = T_DIR /\ di_nlink ex_d1 = 1.
Hypothesis Hd2 : di_type ex_d2 = T_FILE /\ di_nlink ex_d2 = 1.

Lemma on_disk_mounted il l w : (forall y, bl_view l y = im_blk im y) -> mounted im (on_disk il l w).
Proof. intros Hv. apply geom_mounted; [exact Hv|done]. Qed.

Lemma on_disk_loaded j i il l w d : (j < length il)%nat -> nth j il null_inode = entry_of i 1 1 d -> d = dinode_at (bl_view l (IBLOCK i sb)) (i mod IPB) ->
  loaded i j (on_disk il l w).
Proof.
  intros Hj Hi Hd. assert (Ei : ino j (on_disk il l w) = entry_of i 1 1 d) by exact Hi. constructor; [done|by rewrite Ei..|].
  rewrite Ei. change (to_dinode (entry_of i 1 1 d) = dinode_at (bl_view l (IBLOCK i sb)) (i mod IPB)). rewrite <- Hd. by destruct d.
Qed.

(** Locking an entry of the cache that was not read in yet. *)
Lemma on_disk_ilock j i il l w T : bl_ok l ∅ T -> (j < length il)%nat -> nth j il null_inode = new_entry i -> 0 <= IBLOCK i sb < 1000 ->
  let d := dinode_at (bl_view l (IBLOCK i sb)) (i mod IPB) in di_type d <> 0 ->
  exists l', ilock j (on_disk il l w) = Ret tt (on_disk (<[j := entry_of i 1 1 d]> il) l' w) /\ bl_ok l' ∅ T /\ forall y, bl_view l' y = bl_view l y.
Proof.
  intros Hok Hj Hi Hb d Hty. assert (Ei : ino j (on_disk il l w) = new_entry i) by exact Hi. assert (Hi' : il !! j = Some (new_entry i)) by (rewrite <- Hi; by apply nth_lookup_lt).
  assert (Eb : iblk j (on_disk il l w) = IBLOCK i sb) by (unfold iblk; by rewrite Ei).
  destruct (ilock_fresh j (on_disk il l w) T Hok) as (l' & E & Ok' & V); rewrite ?Ei, ?Eb; try done.
  { by split; [|rewrite Ei]. }
  exists l'. split; [|done]. rewrite E, Ei, Eb. do 2 f_equal. unfold with_ino, set_inodes, set_blk, on_disk. cbn [inodes ic_lk fs_sb fs_blk fs_pid fs_cwd fs_woken]. f_equal.
  apply list_eq. intros n. destruct (decide (n = j)) as [->|Hn]; [|by rewrite list_lookup_alter_ne, list_lookup_insert_ne].
  rewrite list_lookup_alter_eq, list_lookup_insert_eq, Hi' by done. done.
Qed.

(** Looking /ls up in an empty inode cache. *)
Lemma ls_found dr l : tx_idle l -> (forall y, bl_view l y = im_blk im y) ->
  @found _ (fs_exec dr (replicate 14 0)) _ (on_disk (replicate 50 null_inode) l []) [47; 108; 115] (Some ex_elf).
Proof.
  intros Hid Hv. destruct (tx_begin_law l Hid) as (l1 & E1 & Ok1 & V1). assert (V1' : forall y, bl_view l1 y = im_blk im y) by (intros y; by rewrite V1).
  set (s1 := on_disk (new_entry 1 :: replicate 49 null_inode) l1 []).
  assert (Eg : iget ROOTDEV ROOTINO (on_disk (replicate 50 null_inode) l1 []) = Ret 0%nat s1) by reflexivity.
  destruct (on_disk_ilock 0 1 (new_entry 1 :: replicate 49 null_inode) l1 [] ∅ Ok1) as (l2 & E2 & Ok2 & V2); [apply Nat.ltb_lt; reflexivity|done|done| |].
  { change (di_type (dinode_at (bl_view l1 32) 1) <> 0). rewrite V1'. fold ex_d1. by rewrite (proj1 Hd1). }
  change (dinode_at (bl_view l1 (IBLOCK 1 sb)) (1 mod IPB)) with (dinode_at (bl_view l1 32) 1) in E2. rewrite V1' in E2. fold ex_d1 in E2.
  assert (V2' : forall y, bl_view l2 y = im_blk im y) by (intros y; by rewrite V2). set (il2 := <[0%nat := entry_of 1 1 1 ex_d1]> _) in E2.
  destruct (mounted_lookup_eq [ls_file] im D C (on_disk il2 l2 []) 0 dr ∅ ([108; 115; 0] ++ replicate 11 0) 0 ls_file ls_fits M) as (l3 & E3 & Ok3 & V3).
  { by apply on_disk_mounted. }
  { apply (on_disk_loaded 0 1 il2 l2 [] ex_d1); [apply Nat.ltb_lt; reflexivity|done|]. change (ex_d1 = dinode_at (bl_view l2 32) 1). by rewrite V2'. }
  { vm_compute. discriminate. } { exact Ok2. } { done. } { vm_compute. reflexivity. } { repeat constructor; vm_compute; discriminate. }
  set (il3 := entry_of 1 1 1 ex_d1 :: new_entry 2 :: replicate 48 null_inode).
  assert (Eg3 : iget ROOTDEV 2 (set_blk l3 (on_disk il2 l2 [])) = Ret 1%nat (on_disk il3 l3 [])) by reflexivity.
  assert (V3' : forall y, bl_view l3 y = im_blk im y) by (intros y; rewrite V3; exact (V2' y)).
  assert (Ep : exists e w, iunlockput 0 (on_disk il3 l3 []) = Ret tt (on_disk (e :: new_entry 2 :: replicate 48 null_inode) l3 w)).
  { unfold iunlockput. rewrite (kbind_ret _ _ _ _ _ (iunlock_held 0 (on_disk il3 l3 []) eq_refl eq_refl ltac:(done) ltac:(by apply Nat.ltb_lt))).
    edestruct (iput_keeps 0) as (nm & E); [| | |rewrite E; eexists _, _; reflexivity].
    - apply Nat.ltb_lt. reflexivity.
    - done.
    - change (truth 1 && (di_nlink ex_d1 =? 0) && (1 =? 1) = false). by rewrite (proj2 Hd1). }
  destruct Ep as (e & w & Ep). set (il4 := e :: new_entry 2 :: replicate 48 null_inode) in *.
  assert (En : namei dr [47; 108; 115] (replicate 14 0) (on_disk (replicate 50 null_inode) l1 []) = Ret (Some 1%nat) (on_disk il4 l3 w)).
  { unfold namei, namex. cbn [nth]. change (47 =? slash) with true. cbv iota. rewrite kbind_assoc, (kbind_ret _ _ _ _ _ Eg).
    change (length [47; 108; 115]) with 3%nat. cbn [namex_loop]. change (skipelem [47; 108; 115] (replicate 14 0)) with (Some ([] : list Z, [108; 115; 0] ++ replicate 11 0)).
    cbv iota. rewrite kbind_assoc, (kbind_ret _ _ _ _ _ E2). unfold iget_field. rewrite kbind_assoc, kbind_get.
    change (i_type (inode_at (on_disk il2 l2 []) 0)) with (di_type ex_d1). rewrite (proj1 Hd1). cbn [T_DIR Z.eqb Pos.eqb negb andb].
    rewrite kbind_assoc. change (2 + Z.of_nat 0) with 2 in E3. rewrite (kbind_ret _ _ _ _ _ Eg3) in E3. rewrite (kbind_ret _ _ _ _ _ E3).
    rewrite kbind_assoc, (kbind_ret _ _ _ _ _ Ep). reflexivity. }
  destruct (on_disk_ilock 1 2 il4 l3 w ∅ Ok3) as (l5 & E5 & Ok5 & V5); [apply Nat.ltb_lt; reflexivity|done|done| |].
  { change (di_type (dinode_at (bl_view l3 32) 2) <> 0). rewrite V3'. fold ex_d2. by rewrite (proj1 Hd2). }
  change (dinode_at (bl_view l3 (IBLOCK 2 sb)) (2 mod IPB)) with (dinode_at (bl_view l3 32) 2) in E5. rewrite V3' in E5. fold ex_d2 in E5.
  assert (V5' : forall y, bl_view l5 y = im_blk im y) by (intros y; by rewrite V5). set (s5 := on_disk _ l5 w) in E5.
  apply (found_file _ _ 1 ex_elf (on_disk (replicate 50 null_inode) l1 []) (on_disk il4 l3 w) s5); [|exact En|exact E5|].
  - cbn [xf_begin_op fs_exec]. unfold blk, kzoom. cbn [fs_blk on_disk]. by rewrite E1.
  - destruct (mounted_bytes [ls_file] im D C s5 0 ls_file 1 ls_fits M) as (Hf & _ & Hsz & Hby); [by apply on_disk_mounted|done| |].
    { apply (on_disk_loaded 1 2 _ l5 w ex_d2); [apply Nat.ltb_lt; reflexivity|done|]. change (ex_d2 = dinode_at (bl_view l5 32) 2). by rewrite V5'. }
    constructor; [by exists ∅|done|done|done| | |exact ex_elf_bytes].
    + split; [done|]. left. change (di_nlink ex_d2 <> 0). by rewrite (proj2 Hd2).
    + rewrite Hsz, Hby. reflexivity.
Qed.
End ls.

Definition ex_proc : xproc := XProc ex_pageA 0 0 0 0x80300000 (replicate 16 0).
Definition ex_argv : list (list Z) := [[108; 115]; [45; 108]].

(** exec of /ls on the disk that mkfs makes with the program on it. *)
Lemma exec_all_or_nothing_witness : exists im l, mkfs [ls_file] blank = Ret tt im /\ (forall y, bl_view l y = im_blk im y) /\
  elf_image ex_elf 2 = 195 /\ elf_image ex_elf 8 = 0 /\
  exists r x', @exec _ (fs_exec (fun _ => None) (replicate 14 0)) ex_end 0x80108000 [47; 108; 115] ex_argv
      (XState (on_disk (replicate 50 null_inode) l []) ex_uvm ex_proc (XCpu 0 0 0 0)) = Ret r x' /\ tx_idle (fs_blk (x_fs x')) /\
    (r = 0 -> started (km_mem (x_km x')) (xp_pgdir (x_proc x')) (xp_sz (x_proc x')) (xp_esp (x_proc x')) (elf_image ex_elf) ex_argv).
Proof.
  destruct (mkfs_made [ls_file] ls_fits) as (im & D & C & E & M).
  assert (Hc : forall (A : Type) (g : image -> A) (d : A), g im = match mkfs [ls_file] blank with Ret _ im' => g im' | _ => d end) by (intros; by rewrite E).
  destruct (boot_rest (im_blk im)) as (l & Hid & Hv).
  { rewrite (Hc Z (fun im => hd_n (im_blk im 2)) 0). vm_compute. reflexivity. }
  { apply Nat.leb_le. rewrite (Hc bool (fun im => Nat.leb _ (length (im_blk im 2))) true). vm_compute. reflexivity. }
  exists im, l. split; [exact E|]. split; [exact Hv|]. split; [vm_compute; reflexivity|]. split; [vm_compute; reflexivity|].
  destruct (exec_all_or_nothing (fun _ => None) (replicate 14 0) ex_end 0x80108000 (on_disk (replicate 50 null_inode) l []) ex_uvm [ex_pageB; ex_pageC; ex_pageD]
    ex_proc (XCpu 0 0 0 0) [47; 108; 115] ex_argv (Some ex_elf)) as (r & x' & Ex & Hr).
  - reflexivity.
  - reflexivity.
  - split; reflexivity.
  - exact ex_uvm_ok.
  - discriminate.
  - repeat (constructor; [split; [repeat (constructor; [split; reflexivity|]); constructor|reflexivity]|]). constructor.
  - apply (ls_found im D C M); [| |exact Hid|exact Hv].
    + split; [rewrite (Hc Z (fun im => di_type (ex_d1 im)) 0)|rewrite (Hc Z (fun im => di_nlink (ex_d1 im)) 0)]; vm_compute; reflexivity.
    + split; [rewrite (Hc Z (fun im => di_type (ex_d2 im)) 0)|rewrite (Hc Z (fun im => di_nlink (ex_d2 im)) 0)]; vm_compute; reflexivity.
  - exists r, x'. split; [exact Ex|]. destruct Hr as [[-> [Hi _]]|(-> & file & Ef & _ & _ & Hi & ps & Hd)].
    + split; [exact Hi|]. intros H. discriminate H.
    + split; [exact Hi|]. intros _. injection Ef as <-. exact (xd_start _ _ _ _ _ _ _ _ _ _ _ _ _ Hd).
Defined.
