(* ===== verification/Threads.v ===== *)
(** * The thread library (lockFunc.h, lock.h, extracredit1.c)

    Mutexes, condition variables, semaphores and mailboxes of the user programs, over
    mysleep and mywakeup of proc.c.  A thread is the place in the library call it makes; each
    place does one access to memory that the threads share, or one passage that holds the
    lock of the process table, so that the threads interleave at every access.  The programs
    that call the library are arbitrary: a client answers, from the local variables of its
    thread and the variables the threads share, the new variables and the next call. *)

From stdpp Require Import functions.
From S2P Require Import Prelude.

(** struct q, and what has been done to it: the completed increments and decrements of the
    semaphore and the messages put and taken. *)
Record qst := QSt { q_lock : Z; q_num : Z; q_ptr : Z; q_posts : nat; q_takes : nat; q_sent : list Z; q_rcvd : list Z }.

Definition set_lock v q := QSt v (q_num q) (q_ptr q) (q_posts q) (q_takes q) (q_sent q) (q_rcvd q).
Definition num_inc q := QSt (q_lock q) (u32 (q_num q + 1)) (q_ptr q) (S (q_posts q)) (q_takes q) (q_sent q) (q_rcvd q).
Definition num_dec q := QSt (q_lock q) (u32 (q_num q - 1)) (q_ptr q) (q_posts q) (S (q_takes q)) (q_sent q) (q_rcvd q).
Definition ptr_put p q := QSt (q_lock q) (q_num q) p (q_posts q) (q_takes q) (q_sent q ++ [p]) (q_rcvd q).
Definition ptr_clear p q := QSt (q_lock q) (q_num q) 0 (q_posts q) (q_takes q) (q_sent q) (q_rcvd q ++ [p]).

(** thread_mutex_init, thread_cond_init and sem_init. *)
Definition thread_mutex_init (q : qst) : qst := set_lock 0 q.
Definition thread_cond_init (q : qst) : qst := thread_mutex_init q.
Definition sem_init (num : Z) (q : qst) : qst :=
  thread_cond_init (QSt (q_lock q) num 0 (q_posts q) (q_takes q) (q_sent q) (q_rcvd q)).

(** The places of mysleep (proc.c). *)
Inductive mspc :=
| MAcquire     (* acquire(&ptable.lock) *)
| MUnlock      (* kernel_mutex_unlock *)
| MSched       (* p->chan = chan, p->state = SLEEPING; the scheduler releases ptable.lock *)
| MAsleep
| MRun         (* RUNNABLE; the scheduler switches to it, p->chan = 0, release(&ptable.lock) *)
| MRelock.     (* kernel_mutex_lock *)

(** The places of the library; [Lock] and [Unlock] are thread_mutex_lock and
    thread_mutex_unlock as calls of a program, and thread_spin_lock and thread_spin_unlock.
    Between two tries thread_mutex_lock sleeps for a tick and kernel_mutex_lock yields: the
    other threads run. *)
Inductive lpc :=
| Lock | Unlock
| WaitLock | WaitTest | WaitCond (m : mspc) | WaitDec | WaitUnlock
| PostLock | PostInc | PostUnlock | PostSignal
| SendLock (p : Z) | SendSpin (p : Z) | SendPut (p : Z) | SendSignal (p : Z) | SendUnlock (p : Z)
| RecvLock | RecvTest | RecvCond (m : mspc) | RecvClear (p : Z) | RecvUnlock (p : Z).

(** What a step does besides: return from the call, or hold or use the table lock. *)
Inductive ctl := Next (l : lpc) | Return (v : Z).
Inductive pteff := PtNone | PtAcquire | PtRelease | PtUse | PtWake.

(** [xchg(&lock, 1)]: go on if the lock was free, else try again. *)
Definition xchg_lock (q : qst) (next : ctl) (again : lpc) : qst * ctl :=
  (set_lock 1 q, if q_lock q =? 0 then next else Next again).

(** mysleep; [at_] is the place of the caller, [back] where it goes on. *)
Definition mysleep_step (m : mspc) (q : qst) (at_ : mspc -> lpc) (back : lpc) : option (qst * ctl * pteff) :=
  match m with
  | MAcquire => Some (q, Next (at_ MUnlock), PtAcquire)
  | MUnlock => Some (set_lock 0 q, Next (at_ MSched), PtNone)
  | MSched => Some (q, Next (at_ MAsleep), PtRelease)
  | MAsleep => None
  | MRun => Some (q, Next (at_ MRelock), PtUse)
  | MRelock => Some (xchg_lock q (Next back) (at_ MRelock), PtNone)
  end.

(** One step of a library routine.  num++ and num-- read and write num in one step; the code
    makes them with the lock of the semaphore held, and that no other thread is then between
    acquiring and releasing it is proved in ThreadsProps.v. *)
Definition lib_step (l : lpc) (q : qst) : option (qst * ctl * pteff) :=
  match l with
  | Lock => Some (xchg_lock q (Return 0) Lock, PtNone)
  | Unlock => Some (set_lock 0 q, Return 0, PtNone)
  (* sem_wait *)
  | WaitLock => Some (xchg_lock q (Next WaitTest) WaitLock, PtNone)
  | WaitTest => Some (q, Next (if q_num q =? 0 then WaitCond MAcquire else WaitDec), PtNone)
  | WaitCond m => mysleep_step m q WaitCond WaitTest
  | WaitDec => Some (num_dec q, Next WaitUnlock, PtNone)
  | WaitUnlock => Some (set_lock 0 q, Return 0, PtNone)
  (* sem_post *)
  | PostLock => Some (xchg_lock q (Next PostInc) PostLock, PtNone)
  | PostInc => Some (num_inc q, Next PostUnlock, PtNone)
  | PostUnlock => Some (set_lock 0 q, Next PostSignal, PtNone)
  | PostSignal => Some (q, Return 0, PtWake)
  (* send *)
  | SendLock p => Some (xchg_lock q (Next (SendSpin p)) (SendLock p), PtNone)
  | SendSpin p => Some (q, Next (if q_ptr q =? 0 then SendPut p else SendSpin p), PtNone)
  | SendPut p => Some (ptr_put p q, Next (SendSignal p), PtNone)
  | SendSignal p => Some (q, Next (SendUnlock p), PtWake)
  | SendUnlock p => Some (set_lock 0 q, Return p, PtNone)
  (* recv *)
  | RecvLock => Some (xchg_lock q (Next RecvTest) RecvLock, PtNone)
  | RecvTest => Some (q, Next (if q_ptr q =? 0 then RecvCond MAcquire else RecvClear (q_ptr q)), PtNone)
  | RecvCond m => mysleep_step m q RecvCond RecvTest
  | RecvClear p => Some (ptr_clear p q, Next (RecvUnlock p), PtNone)
  | RecvUnlock p => Some (set_lock 0 q, Return p, PtNone)
  end.

(** The calls and where they start. *)
Inductive op := OLock | OUnlock | OWait | OPost | OSend (p : Z) | ORecv.
Definition entry (o : op) : lpc :=
  match o with OLock => Lock | OUnlock => Unlock | OWait => WaitLock | OPost => PostLock | OSend p => SendLock p | ORecv => RecvLock end.

(** A thread is in the program, having got [r] from its last call, or in a call on the
    structure [qi], or has ended. *)
Inductive pc := Out (r : Z) | In (qi : nat) (l : lpc) | Ended.
Inductive next := Go | Call (qi : nat) (o : op) | Exit.

(** mywakeup: the sleepers on the channel of [qi] become runnable. *)
Definition woken (l : lpc) : lpc :=
  match l with WaitCond MAsleep => WaitCond MRun | RecvCond MAsleep => RecvCond MRun | _ => l end.
Definition wake (qi : nat) (p : pc) : pc :=
  match p with In qj l => if (qi =? qj)%nat then In qj (woken l) else p | _ => p end.

Section system.
Context {L C : Type}.
Variable client : nat -> L -> C -> Z -> L * C * next.

Record thread := Thread { t_loc : L; t_pc : pc }.
(** [y_pt] is the thread that holds the lock of the process table. *)
Record sys := Sys { y_c : C; y_q : nat -> qst; y_pt : option nat; y_thr : list thread }.

Definition pt_ok (e : pteff) (pt : option nat) : bool :=
  match e with PtNone | PtRelease => true | _ => bool_decide (pt = None) end.
Definition pt_after (e : pteff) (i : nat) (pt : option nat) : option nat :=
  match e with PtAcquire => Some i | PtRelease => None | _ => pt end.
Definition wake_all (e : pteff) (qi : nat) (l : list thread) : list thread :=
  match e with PtWake => (fun t => Thread (t_loc t) (wake qi (t_pc t))) <$> l | _ => l end.

(** One step of thread [i]. *)
Definition tstep (i : nat) (s : sys) : option sys :=
  t ← y_thr s !! i;
  match t_pc t with
  | Ended => None
  | Out r =>
      let '(loc, c, n) := client i (t_loc t) (y_c s) r in
      let p := match n with Go => Out 0 | Call qi o => In qi (entry o) | Exit => Ended end in
      Some (Sys c (y_q s) (y_pt s) (<[i := Thread loc p]> (y_thr s)))
  | In qi l =>
      '(q, c, e) ← lib_step l (y_q s qi);
      if pt_ok e (y_pt s) then
        let p := match c with Next l' => In qi l' | Return v => Out v end in
        Some (Sys (y_c s) (<[qi := q]> (y_q s)) (pt_after e i (y_pt s)) (<[i := Thread (t_loc t) p]> (wake_all e qi (y_thr s))))
      else None
  end.

Definition step (s s' : sys) : Prop := exists i, tstep i s = Some s'.
End system.
Arguments thread L : clear implicits.
Arguments sys L C : clear implicits.

(** ** The programs of the thread library (thread.c, extracredit1.c)

    do_work of thread.c and the producer and consumer of extracredit1.c as clients of the
    library, one client step for each access to a variable the threads share. *)

(** *** thread.c *)

(** The places of the loop of do_work, by what comes next. *)
Inductive dw_at := DTop | DMutex | DRead | DWrite | DUnlock | DSpinUnlock.
Record dw := Dw { dw_i : Z; dw_old : Z; dw_pc : dw_at }.

(** [lock] and [ml] are the structures 0 and 1, the shared variable is total_balance, and
    [amount] is the amount of the thread's argument; delay does nothing that is seen. *)
Definition do_work (amount : nat -> Z) (tid : nat) (w : dw) (total_balance : Z) (r : Z) : dw * Z * next :=
  let at_ p := Dw (dw_i w) (dw_old w) p in
  match dw_pc w with
  | DTop => if dw_i w <? amount tid then (at_ DMutex, total_balance, Call 0 OLock) else (w, total_balance, Exit)
  | DMutex => (at_ DRead, total_balance, Call 1 OLock)
  | DRead => (Dw (dw_i w) total_balance DWrite, total_balance, Go)
  | DWrite => (at_ DUnlock, s32 (dw_old w + 1), Go)
  | DUnlock => (at_ DSpinUnlock, total_balance, Call 1 OUnlock)
  | DSpinUnlock => (Dw (dw_i w + 1) (dw_old w) DTop, total_balance, Call 0 OUnlock)
  end.

Definition dw_start : dw := Dw 0 0 DTop.

(** *** extracredit1.c *)

Definition NUM : Z := 128.
Definition MAX_NUM : Z := 20.

(** The places of the two loops, by what comes next. *)
Inductive pk_at := Top | Waited | Locked | Printed | Post | Advance.
Record pk := Pk { pk_pos : Z; pk_count : Z; pk_pc : pk_at }.
(** What the two threads print. *)
Inductive line := Produce (n : Z) | Consume (n : Z).
Record shared := Shared { queue : list Z; out : list line }.

Definition queue_at (c : shared) (i : Z) : Z := nth (Z.to_nat i) (queue c) 0.
Definition queue_set (i v : Z) (c : shared) : shared := Shared (<[Z.to_nat i := v]> (queue c)) (out c).
Definition say (l : line) (c : shared) : shared := Shared (queue c) (out c ++ [l]).

(** [consumer], [producer] and [printLock] are the structures 0, 1 and 2; the calls of
    sleep do nothing that is seen. *)
Definition prod_work (w : pk) (c : shared) : pk * shared * next :=
  let at_ p := Pk (pk_pos w) (pk_count w) p in
  match pk_pc w with
  | Top => if MAX_NUM <? pk_count w then (w, c, Exit) else (at_ Waited, c, Call 0 OWait)
  | Waited => (at_ Locked, c, Call 2 OLock)
  | Locked => (Pk (pk_pos w) (pk_count w + 1) Printed, queue_set (pk_pos w) (pk_count w + 1) c, Go)
  | Printed => (at_ Post, say (Produce (queue_at c (pk_pos w))) c, Call 2 OUnlock)
  | Post => (at_ Advance, c, Call 1 OPost)
  | Advance => (Pk ((pk_pos w + 1) mod NUM) (pk_count w) Top, c, Go)
  end.
Definition cons_work (w : pk) (c : shared) : pk * shared * next :=
  let at_ p := Pk (pk_pos w) (pk_count w) p in
  match pk_pc w with
  | Top => if MAX_NUM <? pk_count w then (w, c, Exit) else (at_ Waited, c, Call 1 OWait)
  | Waited => (at_ Locked, c, Call 2 OLock)
  | Locked => (at_ Printed, say (Consume (queue_at c (pk_pos w))) c, Go)
  | Printed => (Pk (pk_pos w) (pk_count w + 1) Post, queue_set (pk_pos w) 0 c, Call 2 OUnlock)
  | Post => (at_ Advance, c, Call 0 OPost)
  | Advance => (Pk ((pk_pos w + 1) mod NUM) (pk_count w) Top, c, Go)
  end.
Definition semm (tid : nat) (w : pk) (c : shared) (r : Z) : pk * shared * next :=
  if (tid =? 0)%nat then prod_work w c else cons_work w c.

(** semm_test: sem_init of the two semaphores, and the threads that thread_create starts. *)
Definition semm_nums (qi : nat) : Z := if (qi =? 0)%nat then NUM else 0.
Definition pk_start : pk := Pk 0 0 Top.
Definition shared_start : shared := Shared (replicate (Z.to_nat NUM) 0) [].
