(* ===== verification/ThreadsProps.v ===== *)
(** * Semaphores and mailboxes of the thread library

    Invariants of every interleaving of the library's calls, for arbitrary client programs. *)

From stdpp Require Import functions relations.
From S2P Require Import Prelude Threads.

(** The places that own the mutex of the structure. *)
Definition holds (l : lpc) : bool :=
  match l with
  | WaitTest | WaitDec | WaitUnlock | WaitCond MAcquire | WaitCond MUnlock | PostInc | PostUnlock
  | SendSpin _ | SendPut _ | SendSignal _ | SendUnlock _
  | RecvTest | RecvClear _ | RecvUnlock _ | RecvCond MAcquire | RecvCond MUnlock => true
  | _ => false
  end.
Definition pc_holds (qi : nat) (p : pc) : bool := match p with In qj l => (qi =? qj)%nat && holds l | _ => false end.

(** The places that own the lock of the process table. *)
Definition holds_pt (p : pc) : bool :=
  match p with In _ (WaitCond (MUnlock | MSched)) | In _ (RecvCond (MUnlock | MSched)) => true | _ => false end.

(** A thread that has put something and has still to call mywakeup. *)
Definition will_signal (qi : nat) (p : pc) : bool :=
  match p with In qj (PostUnlock | PostSignal | SendSignal _) => (qi =? qj)%nat | _ => false end.

Lemma woken_holds l : holds (woken l) = holds l.
Proof. by destruct l as [| | | |[]| | | | | | | | | | | | | |[]| |]. Qed.
Lemma wake_holds qi qj p : pc_holds qi (wake qj p) = pc_holds qi p.
Proof. destruct p as [|qk l|]; simpl; [done| |done]. destruct (qj =? qk)%nat; simpl; by rewrite ?woken_holds. Qed.
Lemma wake_holds_pt qj p : holds_pt (wake qj p) = holds_pt p.
Proof. destruct p as [|qk l|]; simpl; [done| |done]. destruct (qj =? qk)%nat; simpl; [|done]. by destruct l as [| | | |[]| | | | | | | | | | | | | |[]| |]. Qed.

Section sums.
Context {A : Type} (f : A -> nat).
Lemma sum_insert l i t t' : l !! i = Some t -> (sum_list_with f (<[i := t']> l) + f t = sum_list_with f l + f t')%nat.
Proof. revert i. induction l as [|a l IH]; intros [|i] H; simpl in *; [done|done|injection H as ->; lia|]. specialize (IH i H). lia. Qed.
Lemma sum_lookup l i t : l !! i = Some t -> (f t <= sum_list_with f l)%nat.
Proof. revert i. induction l as [|a l IH]; intros [|i] H; simpl in *; [done|done|injection H as ->; lia|]. specialize (IH i H). lia. Qed.
Lemma sum_lookup2 l i j t u : i <> j -> l !! i = Some t -> l !! j = Some u -> (f t + f u <= sum_list_with f l)%nat.
Proof.
  revert i j. induction l as [|a l IH]; intros [|i] [|j] Hne Hi Hj; simpl in *; try done.
  - injection Hi as ->. pose proof (sum_lookup l j u Hj). lia.
  - injection Hj as ->. pose proof (sum_lookup l i t Hi). lia.
  - specialize (IH i j ltac:(lia) Hi Hj). lia.
Qed.
Lemma sum_pos l : (0 < sum_list_with f l)%nat -> exists i t, l !! i = Some t /\ (0 < f t)%nat.
Proof. induction l as [|a l IH]; simpl; [lia|]. intros H. destruct (f a) eqn:E; [|exists 0%nat, a; split; [done|lia]]. destruct IH as (i & t & Hi & Ht); [lia|]. by exists (S i), t. Qed.
End sums.
Lemma sum_fmap {A} (f : A -> nat) (g : A -> A) l : (forall a, f (g a) = f a) -> sum_list_with f (g <$> l) = sum_list_with f l.
Proof. intros H. induction l as [|a l IH]; [done|]. cbn. rewrite H. f_equal. exact IH. Qed.

Section inv.
Context {L C : Type}.
Variable client : nat -> L -> C -> Z -> L * C * next.
Notation sys := (sys L C).

(** The structures whose mutex the programs do not touch themselves. *)
Variable priv : nat -> bool.
Definition disciplined : Prop := forall i loc c r, match (client i loc c r).2 with Call qi (OLock | OUnlock) => priv qi = false | _ => True end.
Variable init : nat -> Z.

Definition hold (qi : nat) (t : thread L) : nat := if pc_holds qi (t_pc t) then 1 else 0.
Definition pending (qi : nat) (s : sys) : Prop := exists j t, y_thr s !! j = Some t /\ will_signal qi (t_pc t) = true.

(** What a thread knows of the structure at each place. *)
Definition place_ok (qi : nat) (s : sys) (l : lpc) : Prop :=
  let q := y_q s qi in
  match l with
  | Lock | Unlock => False
  | WaitDec => q_num q <> 0
  | WaitCond (MAcquire | MUnlock) => q_num q = 0
  | WaitCond (MSched | MAsleep) => q_num q <> 0 -> pending qi s
  | SendPut _ => q_ptr q = 0
  | RecvClear p => q_ptr q = p /\ p <> 0
  | RecvCond (MAcquire | MUnlock) => q_ptr q = 0
  | RecvCond (MSched | MAsleep) => q_ptr q <> 0 -> pending qi s
  | _ => True
  end.

Record data_ok (i0 : Z) (q : qst) : Prop := {
  do_num : 0 <= q_num q < 2 ^ 32;
  do_count : i0 + Z.of_nat (q_posts q) < 2 ^ 32 -> q_num q + Z.of_nat (q_takes q) = i0 + Z.of_nat (q_posts q);
  do_mail : filter (fun p => p <> 0) (q_sent q) = q_rcvd q ++ (if q_ptr q =? 0 then [] else [q_ptr q])
}.

Record qinv (qi : nat) (s : sys) : Prop := {
  qi_lock : q_lock (y_q s qi) = 0 \/ q_lock (y_q s qi) = 1;
  qi_sum : Z.of_nat (sum_list_with (hold qi) (y_thr s)) = q_lock (y_q s qi);
  qi_place : forall i t l, y_thr s !! i = Some t -> t_pc t = In qi l -> place_ok qi s l;
  qi_data : data_ok (init qi) (y_q s qi)
}.
Definition pt_inv (s : sys) : Prop := forall i, y_pt s = Some i <-> exists t, y_thr s !! i = Some t /\ holds_pt (t_pc t) = true.
Definition inv (s : sys) : Prop := pt_inv s /\ forall qi, priv qi = true -> qinv qi s.

(** ** A step preserves the invariants *)

Definition woke (e : pteff) (qi : nat) (t : thread L) : thread L := match e with PtWake => Thread (t_loc t) (wake qi (t_pc t)) | _ => t end.
Lemma wake_all_woke e qi l : wake_all e qi l = woke e qi <$> l.
Proof. destruct e; simpl; [symmetry; apply list_fmap_id..|done]. Qed.
Lemma woke_hold e qi qk t : hold qk (woke e qi t) = hold qk t.
Proof. unfold hold. destruct e; simpl; [done..|]. by rewrite wake_holds. Qed.
Lemma woke_holds_pt e qi t : holds_pt (t_pc (woke e qi t)) = holds_pt (t_pc t).
Proof. destruct e; simpl; [done..|]. apply wake_holds_pt. Qed.
Lemma woke_at e qi qk t l : t_pc (woke e qi t) = In qk l -> exists l0, t_pc t = In qk l0 /\ (l = l0 \/ (qi = qk /\ e = PtWake /\ l = woken l0)).
Proof.
  destruct e; simpl; try by (intros ->; eauto). destruct (t_pc t) as [|qj l0|]; simpl; try done.
  destruct (Nat.eqb_spec qi qj) as [->|]; intros [= -> <-]; eauto 6.
Qed.
Lemma woke_here e qi t l : t_pc (woke e qi t) = In qi l -> exists l0, t_pc t = In qi l0 /\ l = match e with PtWake => woken l0 | _ => l0 end.
Proof.
  destruct e; simpl; try by (intros ->; eauto). destruct (t_pc t) as [|qj l0|]; simpl; try done.
  destruct (Nat.eqb_spec qi qj) as [->|Hq]; [intros [= <-]; eauto|]. intros [= -> _]. by destruct Hq.
Qed.
Lemma woke_signal e qi qk t : will_signal qk (t_pc (woke e qi t)) = will_signal qk (t_pc t).
Proof.
  destruct e; simpl; [done..|]. destruct (t_pc t) as [|qj l|]; simpl; [done| |done]. destruct (qi =? qj)%nat; simpl; [|done].
  by destruct l as [| | | |[]| | | | | | | | | | | | | |[]| |].
Qed.

Section thread_step.
Variables (s s' : sys) (i : nat) (t t' : thread L) (e : pteff) (qi : nat).
Hypothesis Hi : y_thr s !! i = Some t.
Hypothesis Hthr : y_thr s' = <[i := t']> (woke e qi <$> y_thr s).

Lemma after_sum qk : (sum_list_with (hold qk) (y_thr s') + hold qk t = sum_list_with (hold qk) (y_thr s) + hold qk t')%nat.
Proof using Hi Hthr.
  rewrite Hthr. rewrite <- (sum_fmap (hold qk) (woke e qi) (y_thr s)) by (intros; apply woke_hold). rewrite <- (woke_hold e qi qk t).
  apply sum_insert. by rewrite list_lookup_fmap, Hi.
Qed.
Lemma after_lookup j u : y_thr s' !! j = Some u -> (j = i /\ u = t') \/ (j <> i /\ exists u0, y_thr s !! j = Some u0 /\ u = woke e qi u0).
Proof using Hi Hthr.
  rewrite Hthr. intros H. destruct (decide (j = i)) as [->|Hne].
  - rewrite list_lookup_insert_eq in H by (rewrite length_fmap; by eapply lookup_lt_Some). left. by injection H as <-.
  - rewrite list_lookup_insert_ne, list_lookup_fmap in H by done. apply fmap_Some in H as (u0 & H & ->). eauto.
Qed.
Lemma after_self : y_thr s' !! i = Some t'.
Proof using Hi Hthr. rewrite Hthr. apply list_lookup_insert_eq. rewrite length_fmap. by eapply lookup_lt_Some. Qed.
Lemma after_other j u : j <> i -> y_thr s !! j = Some u -> y_thr s' !! j = Some (woke e qi u).
Proof using Hi Hthr. intros Hne H. rewrite Hthr, list_lookup_insert_ne, list_lookup_fmap, H by done. done. Qed.

(** Someone who will signal still will, unless it is the thread that has just done so. *)
Lemma pending_other qk : pending qk s -> (will_signal qk (t_pc t) = true -> will_signal qk (t_pc t') = true) -> pending qk s'.
Proof using Hi Hthr.
  intros (j & u & Hj & Hu) Ht. destruct (decide (j = i)) as [->|Hne].
  - rewrite Hi in Hj. injection Hj as <-. exists i, t'. split; [apply after_self|auto].
  - exists j, (woke e qi u). split; [by apply after_other|]. by rewrite woke_signal.
Qed.

(** A structure the step is not about. *)
Lemma qinv_frame qk : (e = PtWake -> qi <> qk) -> y_q s' qk = y_q s qk -> (forall l, t_pc t <> In qk l) ->
  (forall l, t_pc t' = In qk l -> holds l = false /\ forall s0, place_ok qk s0 l) -> qinv qk s -> qinv qk s'.
Proof using Hi Hthr.
  intros He Eq Ht Ht' [A B P D]. assert (H0 : hold qk t = 0%nat).
  { unfold hold, pc_holds. destruct (t_pc t) as [|qj l|] eqn:E; [done| |done]. destruct (Nat.eqb_spec qk qj) as [->|]; [by destruct (Ht l)|done]. }
  assert (H0' : hold qk t' = 0%nat).
  { unfold hold, pc_holds. destruct (t_pc t') as [|qj l|] eqn:E; [done| |done]. destruct (Nat.eqb_spec qk qj) as [->|]; [|done]. by destruct (Ht' l eq_refl) as [-> _]. }
  constructor; rewrite ?Eq; try done.
  - pose proof (after_sum qk). rewrite <- B. lia.
  - intros j u l Hj Hl. destruct (after_lookup j u Hj) as [[-> ->]|(Hne & u0 & Hu0 & ->)]; [by apply (Ht' l)|].
    destruct (woke_at e qi qk u0 l Hl) as (l0 & E0 & [-> | (-> & Ew & _)]); [|by destruct (He Ew)].
    specialize (P j u0 l0 Hu0 E0). assert (Hp : pending qk s -> pending qk s').
    { intros Hp. apply pending_other; [done|]. unfold will_signal. destruct (t_pc t) as [|qj l1|] eqn:E; [done| |done].
      destruct l1; try done; destruct (Nat.eqb_spec qk qj) as [->|]; try done; by destruct (Ht _ eq_refl). }
    unfold place_ok in *. rewrite Eq. destruct l0 as [| | | |[]| | | | | | | | | | | | | |[]| |]; auto.
Qed.
End thread_step.

(** ** The steps of the library *)

Definition ctl_pc (qi : nat) (c : ctl) : pc := match c with Next l => In qi l | Return v => Out v end.

(** Own knowledge of a place, that needs no other thread. *)
Definition knows (q : qst) (l : lpc) : Prop :=
  match l with
  | Lock | Unlock => False
  | WaitDec => q_num q <> 0
  | WaitCond (MAcquire | MUnlock) => q_num q = 0
  | SendPut _ | RecvCond (MAcquire | MUnlock) => q_ptr q = 0
  | RecvClear p => q_ptr q = p /\ p <> 0
  | _ => True
  end.
Lemma place_knows qi s l : place_ok qi s l -> knows (y_q s qi) l.
Proof. by destruct l as [| | | |[]| | | | | | | | | | | | | |[]| |]. Qed.

Ltac lib_cases l H := destruct l as [| | | |[]| | | | | | | | | | | | | |[]| |]; simpl in H; simplify_option_eq; unfold xchg_lock in *; simplify_eq.

Lemma lib_lock l q q' c e qi : lib_step l q = Some (q', c, e) -> knows q l -> q_lock q = 0 \/ q_lock q = 1 -> (holds l = true -> q_lock q = 1) ->
  (q_lock q' = 0 \/ q_lock q' = 1) /\ q_lock q' + (if holds l then 1 else 0) = q_lock q + (if pc_holds qi (ctl_pc qi c) then 1 else 0).
Proof.
  intros H Hk H01 Hh. lib_cases l H; try done; try specialize (Hh eq_refl); destruct H01 as [E|E]; rewrite ?E in *; simpl in *; rewrite ?Nat.eqb_refl, ?E; simpl; try lia;
    (destruct (_ =? 0); simpl; rewrite ?Nat.eqb_refl; simpl; lia).
Qed.

Lemma lib_data l q q' c e i0 : lib_step l q = Some (q', c, e) -> knows q l -> data_ok i0 q -> data_ok i0 q'.
Proof.
  intros H Hk [D1 D2 D3]. lib_cases l H; constructor; simpl in *; try done.
  - pose proof (u32_range (q_num q - 1)). lia.
  - intros Hb. specialize (D2 Hb). rewrite u32_small by lia. lia.
  - pose proof (u32_range (q_num q + 1)). lia.
  - intros Hb. specialize (D2 ltac:(lia)). rewrite u32_small by lia. lia.
  - rewrite filter_app, D3, Hk. simpl. rewrite app_nil_r. f_equal. destruct (Z.eqb_spec p 0); simpl.
    + by rewrite filter_cons_False by lia.
    + by rewrite filter_cons_True by lia.
  - destruct Hk as [Hp Hn]. rewrite D3, Hp, (proj2 (Z.eqb_neq p 0)) by done. by rewrite app_nil_r.
Qed.

(** The semaphore and the mailbox change only under the mutex; who fills them will signal. *)
Lemma lib_changes l q q' c e qi : lib_step l q = Some (q', c, e) -> knows q l ->
  (q_num q' <> q_num q \/ q_ptr q' <> q_ptr q -> holds l = true) /\
  (q_num q' <> 0 -> q_num q <> 0 \/ will_signal qi (ctl_pc qi c) = true) /\
  (q_ptr q' <> 0 -> q_ptr q <> 0 \/ will_signal qi (ctl_pc qi c) = true).
Proof. intros H Hk. lib_cases l H; simpl in *; rewrite ?Nat.eqb_refl; intuition lia. Qed.

(** Who will signal goes on to, or has done so with the table lock free. *)
Lemma lib_signal l q q' c e qi : lib_step l q = Some (q', c, e) -> will_signal qi (In qi l) = true -> e = PtWake \/ will_signal qi (ctl_pc qi c) = true.
Proof. intros H Hs. lib_cases l H; simpl in *; auto. Qed.

Lemma lib_own l q q' c e : lib_step l q = Some (q', c, e) -> knows q l -> match c with Next l' => knows q' l' | Return _ => True end.
Proof. intros H Hk. lib_cases l H; simpl in *; try done; repeat case_match; simplify_eq; simpl; lia. Qed.

Lemma qinv_lib s i t qi l q' c e : let s' := Sys (y_c s) (<[qi := q']> (y_q s)) (pt_after e i (y_pt s)) (<[i := Thread (t_loc t) (ctl_pc qi c)]> (wake_all e qi (y_thr s))) in
  pt_inv s -> y_thr s !! i = Some t -> t_pc t = In qi l -> lib_step l (y_q s qi) = Some (q', c, e) -> pt_ok e (y_pt s) = true -> qinv qi s -> qinv qi s'.
Proof.
  intros s' Hpt Hi Ept Hl Hok [A B P D]. pose proof (place_knows _ _ _ (P i t l Hi Ept)) as Hk.
  assert (Hq : y_q s' qi = q') by (unfold s'; simpl; by rewrite fn_lookup_insert).
  assert (Hthr : y_thr s' = <[i := Thread (t_loc t) (ctl_pc qi c)]> (woke e qi <$> y_thr s)) by (unfold s'; simpl; by rewrite wake_all_woke).
  assert (Hold : hold qi t = if holds l then 1%nat else 0%nat) by (unfold hold; rewrite Ept; simpl; by rewrite Nat.eqb_refl).
  assert (Hh : holds l = true -> q_lock (y_q s qi) = 1).
  { intros E. rewrite E in Hold. pose proof (sum_lookup (hold qi) _ _ _ Hi). destruct A; lia. }
  destruct (lib_lock l _ _ _ _ qi Hl Hk A Hh) as [A' B']. pose proof (after_sum s s' i t _ e qi Hi Hthr qi) as Hsum.
  destruct (lib_changes l _ _ _ _ qi Hl Hk) as (Hch & Hn & Hp).
  assert (Hpend : pending qi s -> e <> PtWake -> pending qi s').
  { intros Hpe He. eapply pending_other; [exact Hi|exact Hthr|done|]. rewrite Ept. intros Hs. by destruct (lib_signal _ _ _ _ _ _ Hl Hs). }
  assert (Hself : will_signal qi (ctl_pc qi c) = true -> pending qi s') by (intros Hs; eexists i, _; split; [by eapply after_self|done]).
  constructor; rewrite ?Hq; try done.
  - rewrite Hold in Hsum. change (hold qi (Thread (t_loc t) (ctl_pc qi c))) with (if pc_holds qi (ctl_pc qi c) then 1%nat else 0%nat) in Hsum. rewrite <- B in B'. destruct (holds l), (pc_holds qi (ctl_pc qi c)); lia.
  - intros j u l2 Hj Hl2. destruct (after_lookup s s' i t _ e qi Hi Hthr j u Hj) as [[-> ->]|(Hne & u0 & Hu0 & ->)].
    + simpl in Hl2. destruct c as [l'|v]; simpl in Hl2; [|done]. injection Hl2 as ->. pose proof (lib_own _ _ _ _ _ Hl Hk) as Hk'. simpl in Hk'.
      unfold place_ok. rewrite Hq. lib_cases l Hl; simpl in *; try done; repeat case_match; simplify_eq; simpl in *; auto; try lia.
      all: intros Hne; apply Hpend; [exact (P i t _ Hi Ept Hne)|done].
    + destruct (woke_here e qi u0 l2 Hl2) as (l0 & E0 & El2). pose proof (P j u0 l0 Hu0 E0) as P0.
      assert (Hex : holds l0 = true -> q_num q' = q_num (y_q s qi) /\ q_ptr q' = q_ptr (y_q s qi)).
      { intros E. assert (El : holds l = false).
        { apply not_true_is_false. intros E'. rewrite E' in Hold. pose proof (sum_lookup2 (hold qi) _ _ _ _ _ Hne Hu0 Hi) as H2.
          assert (hold qi u0 = 1%nat) by (unfold hold; rewrite E0; simpl; by rewrite Nat.eqb_refl, E). destruct A; lia. }
        rewrite El in Hch. destruct (decide (q_num q' = q_num (y_q s qi))), (decide (q_ptr q' = q_ptr (y_q s qi))); auto; by discriminate Hch; auto. }
      assert (Hpt' : e = PtWake -> holds_pt (In qi l0) = false).
      { intros ->. apply not_true_is_false. intros E. simpl in Hok. apply bool_decide_eq_true in Hok.
        rewrite (proj2 (Hpt j)) in Hok; [done|]. exists u0. by rewrite E0. }
      unfold place_ok. rewrite Hq. destruct l0 as [| | | |[]| | | | | | | | | | | | | |[]| |]; destruct e; subst l2; simpl in *; try done;
        try (specialize (Hpt' eq_refl)); try done; try (destruct (Hex eq_refl) as [? ?]; congruence);
        try (intros Hne0; (destruct (Hn Hne0) || destruct (Hp Hne0)); auto).
  - by eapply lib_data.
Qed.

Lemma lib_pt l q q' c e qi : lib_step l q = Some (q', c, e) ->
  match e with
  | PtAcquire => holds_pt (ctl_pc qi c) = true
  | PtRelease => holds_pt (In qi l) = true /\ holds_pt (ctl_pc qi c) = false
  | _ => holds_pt (ctl_pc qi c) = holds_pt (In qi l)
  end.
Proof. intros H. lib_cases l H; simpl; repeat case_match; simplify_eq; done. Qed.

Lemma pt_inv_lib s s' i t qi l q' c e : pt_inv s -> y_thr s !! i = Some t -> t_pc t = In qi l -> lib_step l (y_q s qi) = Some (q', c, e) -> pt_ok e (y_pt s) = true ->
  y_pt s' = pt_after e i (y_pt s) -> y_thr s' = <[i := Thread (t_loc t) (ctl_pc qi c)]> (woke e qi <$> y_thr s) -> pt_inv s'.
Proof.
  intros Hpt Hi Ept Hl Hok Ep Hthr j. pose proof (lib_pt l _ _ _ _ qi Hl) as H.
  assert (Hown : holds_pt (In qi l) = true <-> y_pt s = Some i).
  { rewrite (Hpt i). split; [intros E; exists t; by rewrite Ept|]. intros (u & Hu & E). rewrite Hi in Hu. injection Hu as <-. by rewrite Ept in E. }
  rewrite Ep. destruct (decide (j = i)) as [->|Hne].
  - assert (Hj : (exists u, y_thr s' !! i = Some u /\ holds_pt (t_pc u) = true) <-> holds_pt (ctl_pc qi c) = true).
    { rewrite (after_self s s' i t _ e qi Hi Hthr). split; [by intros (u & [= <-] & E)|eauto]. }
    rewrite Hj. destruct e; simpl in *; rewrite ?H, ?Hown; try done. destruct H as [_ H]. by rewrite H.
  - assert (Hj : (exists u, y_thr s' !! j = Some u /\ holds_pt (t_pc u) = true) <-> y_pt s = Some j).
    { rewrite (Hpt j). split; intros (u & Hu & E).
      - destruct (after_lookup s s' i t _ e qi Hi Hthr j u Hu) as [[-> _]|(_ & u0 & Hu0 & ->)]; [done|]. exists u0. by rewrite woke_holds_pt in E.
      - exists (woke e qi u). split; [by apply (after_other s s' i t _ e qi Hi Hthr)|by rewrite woke_holds_pt]. }
    rewrite Hj. destruct e; simpl in *; try done.
    + apply bool_decide_eq_true in Hok. rewrite Hok. split; congruence.
    + destruct H as [H _]. apply Hown in H. rewrite H. split; congruence.
Qed.

Lemma tstep_inv s i s' : disciplined -> inv s -> tstep client i s = Some s' -> inv s'.
Proof.
  intros Hd [Hpt Hq] Hs. unfold tstep in Hs. destruct (y_thr s !! i) as [t|] eqn:Hi; [|done]. cbn [mbind option_bind] in Hs.
  destruct (t_pc t) as [r|qi l|] eqn:Ept; [| |done].
  - destruct (client i (t_loc t) (y_c s) r) as [[loc c] n] eqn:Ec. injection Hs as <-. set (p := match n with Go => Out 0 | Call qi o => In qi (entry o) | Exit => Ended end).
    set (s' := Sys c _ _ _). assert (Hthr : y_thr s' = <[i := Thread loc p]> (woke PtNone 0 <$> y_thr s)) by (unfold s'; simpl; by rewrite list_fmap_id).
    assert (Hp0 : holds_pt p = false) by (unfold p; destruct n as [|? []|]; done). split.
    + intros j. unfold s'. simpl. rewrite (Hpt j). destruct (decide (j = i)) as [->|Hne].
      * rewrite list_lookup_insert_eq by (by eapply lookup_lt_Some). split; intros (u & Hu & E); exfalso; [rewrite Hi in Hu; injection Hu as <-; by rewrite Ept in E|].
        injection Hu as <-. simpl in E. by rewrite Hp0 in E.
      * by rewrite list_lookup_insert_ne.
    + intros qk Hk. eapply (qinv_frame s s' i t _ PtNone 0 Hi Hthr qk); [done|done|by rewrite Ept| |by apply Hq].
      intros l Hl. simpl in Hl. unfold p in Hl. specialize (Hd i (t_loc t) (y_c s) r). rewrite Ec in Hd. simpl in Hd.
      destruct n as [|qi o|]; [done| |done]. injection Hl as -> <-. destruct o; simpl in *; try congruence; done.
  - destruct (lib_step l (y_q s qi)) as [[[q' c] e]|] eqn:El; [|done]. cbn [mbind option_bind] in Hs.
    destruct (pt_ok e (y_pt s)) eqn:Eok; [|done]. injection Hs as <-. fold (ctl_pc qi c). set (s' := Sys _ _ _ _).
    assert (Hthr : y_thr s' = <[i := Thread (t_loc t) (ctl_pc qi c)]> (woke e qi <$> y_thr s)) by (unfold s'; simpl; by rewrite wake_all_woke). split.
    + by eapply pt_inv_lib.
    + intros qk Hk. destruct (decide (qk = qi)) as [->|Hne]; [by eapply qinv_lib; eauto|].
      eapply (qinv_frame s s' i t _ e qi Hi Hthr qk); [congruence|unfold s'; simpl; by rewrite fn_lookup_insert_ne|congruence| |by apply Hq].
      intros l2 Hl2. simpl in Hl2. destruct c; simpl in Hl2; congruence.
Qed.

(** ** Reachable states *)

(** The structures as sem_init and thread_cond_init leave them, and threads that start. *)
Definition blank : qst := QSt 0 0 0 0 0 [] [].
Definition start (c : C) (locs : list L) : sys := Sys c (fun qi => sem_init (init qi) blank) None ((fun loc => Thread loc (Out 0)) <$> locs).

Lemma inv_start c locs : (forall qi, priv qi = true -> 0 <= init qi < 2 ^ 32) -> inv (start c locs).
Proof.
  intros Hinit. assert (Hout : forall i t, y_thr (start c locs) !! i = Some t -> t_pc t = Out 0).
  { intros i t Ht. simpl in Ht. rewrite list_lookup_fmap in Ht. by apply fmap_Some in Ht as (loc & _ & ->). }
  split.
  - intros i. split; [done|]. intros (t & Ht & E). by rewrite (Hout _ _ Ht) in E.
  - intros qi Hp. constructor; simpl.
    + auto.
    + assert (E : forall l : list L, sum_list_with (hold qi) ((fun loc => Thread loc (Out 0)) <$> l) = 0%nat); [|by rewrite E].
      induction l as [|a l IH]; [done|]. exact IH.
    + intros i t l Ht El. by rewrite (Hout i t Ht) in El.
    + constructor; simpl; [by apply Hinit|lia|done].
Qed.

Definition reachable (c : C) (locs : list L) : sys -> Prop := rtc (step client) (start c locs).
Lemma inv_steps s s' : disciplined -> rtc (step client) s s' -> inv s -> inv s'.
Proof. intros Hd. induction 1 as [|s s1 s2 [i Hs] _ IH]; [done|]. intros Hi. apply IH. by eapply tstep_inv. Qed.
Lemma inv_reachable c locs s : disciplined -> (forall qi, priv qi = true -> 0 <= init qi < 2 ^ 32) -> reachable c locs s -> inv s.
Proof. intros Hd Hinit Hr. eapply inv_steps; [done|exact Hr|by apply inv_start]. Qed.

Lemma hold_one qi t : pc_holds qi (t_pc t) = true -> hold qi t = 1%nat.
Proof. unfold hold. by intros ->. Qed.
Lemma mutex_unique s qi i j t u : qinv qi s -> y_thr s !! i = Some t -> y_thr s !! j = Some u ->
  pc_holds qi (t_pc t) = true -> pc_holds qi (t_pc u) = true -> i = j.
Proof.
  intros [A B _ _] Hi Hj Ht Hu. destruct (decide (i = j)) as [|Hne]; [done|]. exfalso.
  pose proof (sum_lookup2 (hold qi) _ _ _ _ _ Hne Hi Hj) as H. rewrite !hold_one in H by done. destruct A; lia.
Qed.
Lemma mutex_holder s qi : qinv qi s -> q_lock (y_q s qi) <> 0 -> exists j u, y_thr s !! j = Some u /\ pc_holds qi (t_pc u) = true.
Proof.
  intros [A B _ _] Hl. destruct (sum_pos (hold qi) (y_thr s)) as (j & u & Hj & Hu); [lia|]. exists j, u. split; [done|].
  unfold hold in Hu. destruct (pc_holds qi (t_pc u)); [done|lia].
Qed.

(** ** Progress *)

(** A thread in a call gets to another place of it, or returns. *)
Definition can_move (i : nat) (s : sys) : Prop :=
  exists t qi l s' t', y_thr s !! i = Some t /\ t_pc t = In qi l /\ tstep client i s = Some s' /\ y_thr s' !! i = Some t' /\ t_pc t' <> t_pc t.

Lemma move_by s i t qi l q' c e : y_thr s !! i = Some t -> t_pc t = In qi l -> lib_step l (y_q s qi) = Some (q', c, e) -> pt_ok e (y_pt s) = true ->
  c <> Next l -> can_move i s.
Proof.
  intros Hi Et Hl Hok Hc. eexists t, qi, l, _, _. split; [done|]. split; [done|]. split; [|split].
  - unfold tstep. rewrite Hi. cbn [mbind option_bind]. rewrite Et, Hl. cbn [mbind option_bind]. by rewrite Hok.
  - simpl. apply list_lookup_insert_eq. rewrite wake_all_woke, length_fmap. by eapply lookup_lt_Some.
  - simpl. rewrite Et. destruct c; congruence.
Qed.

Definition sem_place (l : lpc) : bool :=
  match l with WaitLock | WaitTest | WaitCond _ | WaitDec | WaitUnlock | PostLock | PostInc | PostUnlock | PostSignal => true | _ => false end.
(** Every call in progress is one on a semaphore. *)
Definition sems_only (s : sys) : Prop := forall i t qi l, y_thr s !! i = Some t -> t_pc t = In qi l -> sem_place l = true /\ priv qi = true.

Lemma sem_progress s i t qi l : inv s -> sems_only s -> y_thr s !! i = Some t -> t_pc t = In qi l ->
  l <> WaitCond MAsleep \/ q_num (y_q s qi) <> 0 -> exists j, can_move j s.
Proof.
  intros [Hpt Hq] Hsem Hi Et Hl. destruct (y_pt s) as [k|] eqn:Ek.
  - apply Hpt in Ek as (u & Hu & E). exists k. destruct (t_pc u) as [|qk lk|] eqn:Eu; try done.
    destruct (Hsem k u qk lk Hu Eu) as [Hs _]. destruct lk as [| | | |[]| | | | | | | | | | | | | |[]| |]; try done; by eapply move_by.
  - destruct (Hsem i t qi l Hi Et) as [Hs Hp]. pose proof (Hq qi Hp) as Hqi.
    assert (Hho : q_lock (y_q s qi) <> 0 -> exists j, can_move j s).
    { intros Hne. destruct (mutex_holder s qi Hqi Hne) as (j & u & Hj & Hu). destruct (t_pc u) as [|qj lj|] eqn:Eu; try done.
      destruct (Hsem j u qj lj Hj Eu) as [Hs' _]. simpl in Hu. destruct (Nat.eqb_spec qi qj) as [<-|]; [|done]. exists j.
      destruct lj as [| | | |[]| | | | | | | | | | | | | |[]| |]; try done; eapply move_by; try done; try reflexivity; try (by rewrite Ek); by destruct (_ =? 0). }
    assert (Hpe : pending qi s -> exists j, can_move j s).
    { intros (j & u & Hj & Hu). destruct (t_pc u) as [|qj lj|] eqn:Eu; try done. destruct (Hsem j u qj lj Hj Eu) as [Hs' _]. exists j.
      destruct lj as [| | | |[]| | | | | | | | | | | | | |[]| |]; try done; eapply move_by; try done; try reflexivity; by rewrite Ek. }
    destruct (Z.eq_dec (q_lock (y_q s qi)) 0) as [E0|E0]; [|auto].
    pose proof (qi_place _ _ Hqi i t l Hi Et) as Hpl.
    destruct l as [| | | |[]| | | | | | | | | | | | | |[]| |]; try done; simpl in Hpl;
      try (destruct Hl as [Hl|Hl]; [done|]; by apply Hpe, Hpl);
      (exists i; eapply move_by; try done; try reflexivity; try (by rewrite Ek); try (by rewrite E0); by destruct (_ =? 0)).
Qed.
End inv.
