(* ===== verification/ThreadsThms.v ===== *)
(** * What the thread library promises

    Semaphores count and do not deadlock, mailboxes deliver in order, and a second message
    blocks a mailbox for good. *)

From stdpp Require Import functions relations.
From S2P Require Import Prelude Threads ThreadsProps.

Section semaphores.
Context {L C : Type}.
Variable client : nat -> L -> C -> Z -> L * C * next.
Variable priv : nat -> bool.

(** Programs that only call sem_wait and sem_post. *)
Definition sem_client : Prop :=
  forall i loc c r, match (client i loc c r).2 with Call qi (OWait | OPost) => priv qi = true | Call _ _ => False | _ => True end.

Lemma sem_client_disciplined : sem_client -> disciplined client priv.
Proof. intros H i loc c r. specialize (H i loc c r). by destruct ((client i loc c r).2) as [|? []|]. Qed.

Lemma lib_sem_place l q q' c e : lib_step l q = Some (q', c, e) -> sem_place l = true -> match c with Next l' => sem_place l' = true | Return _ => True end.
Proof. intros H Hs. destruct l as [| | | |[]| | | | | | | | | | | | | |[]| |]; simpl in H; unfold xchg_lock in *; simplify_eq; try done; by destruct (_ =? 0). Qed.

Lemma sems_only_step s s' : sem_client -> sems_only priv s -> step client s s' -> sems_only priv s'.
Proof.
  intros Hc Hs [i Hst]. unfold tstep in Hst. destruct (y_thr s !! i) as [t|] eqn:Hi; [|done]. cbn [mbind option_bind] in Hst.
  assert (G : forall e qi p c q pt loc, (forall qj l, p = In qj l -> sem_place l = true /\ priv qj = true) -> sems_only priv (Sys c q pt (<[i := Thread loc p]> (wake_all e qi (y_thr s))) : sys L C)).
  { intros e qi p c q pt loc Hp j u qj l Hu El. simpl in Hu. rewrite wake_all_woke in Hu. destruct (decide (j = i)) as [->|Hne].
    - rewrite list_lookup_insert_eq in Hu by (rewrite length_fmap; by eapply lookup_lt_Some). injection Hu as <-. by apply Hp.
    - rewrite list_lookup_insert_ne, list_lookup_fmap in Hu by done. apply fmap_Some in Hu as (u0 & Hu0 & ->).
      destruct (woke_at e qi qj u0 l El) as (l0 & E0 & Hl). destruct (Hs j u0 qj l0 Hu0 E0) as [H1 H2]. split; [|done].
      destruct Hl as [-> | (_ & _ & ->)]; [done|]. by destruct l0 as [| | | |[]| | | | | | | | | | | | | |[]| |]. }
  destruct (t_pc t) as [r|qi l|] eqn:Et; [| |done].
  - specialize (Hc i (t_loc t) (y_c s) r). destruct (client i (t_loc t) (y_c s) r) as [[loc c] n]. injection Hst as <-. apply (G PtNone 0%nat).
    intros qj l El. simpl in Hc. destruct n as [|qn o|]; [done| |done]. injection El as -> <-. by destruct o.
  - destruct (lib_step l (y_q s qi)) as [[[q' c] e]|] eqn:El; [|done]. cbn [mbind option_bind] in Hst. destruct (pt_ok e (y_pt s)); [|done]. injection Hst as <-.
    apply G. intros qj l' E. destruct (Hs i t qi l Hi Et) as [H1 H2]. pose proof (lib_sem_place _ _ _ _ _ El H1). destruct c; [|done]. by injection E as <- <-.
Qed.

Lemma sems_only_reachable init c locs s : sem_client -> reachable client init c locs s -> sems_only priv s.
Proof.
  intros Hc Hr. assert (H0 : sems_only priv (start init c locs)).
  { intros i t qi l Ht El. simpl in Ht. rewrite list_lookup_fmap in Ht. apply fmap_Some in Ht as (loc & _ & ->). done. }
  unfold reachable in Hr. induction Hr as [|s1 s2 s3 Hs _ IH]; [done|]. apply IH. by eapply sems_only_step.
Qed.
End semaphores.

(** C8: for any programs that call sem_wait and sem_post, in every interleaving of their
    accesses to memory, kernel passages included: at most one thread is between the lock
    and the unlock of a semaphore; its value is the initial one plus the completed posts
    less the completed waits, as long as it fits 32 bits, so that no wait returns without a post
    that paid for it; and no wakeup is lost: while a thread is in a call and is not
    rightly asleep at value 0, some thread in a call can move on. *)
Theorem semaphores_count {L C} (client : nat -> L -> C -> Z -> L * C * next) (priv : nat -> bool) (init : nat -> Z) (c : C) (locs : list L) (s : sys L C) :
  sem_client client priv -> (forall qi, priv qi = true -> 0 <= init qi < 2 ^ 32) -> reachable client init c locs s ->
  forall qi, priv qi = true ->
  (forall i j t u, y_thr s !! i = Some t -> y_thr s !! j = Some u -> pc_holds qi (t_pc t) = true -> pc_holds qi (t_pc u) = true -> i = j) /\
  (init qi + Z.of_nat (q_posts (y_q s qi)) < 2 ^ 32 ->
     q_num (y_q s qi) = init qi + Z.of_nat (q_posts (y_q s qi)) - Z.of_nat (q_takes (y_q s qi)) /\ 0 <= q_num (y_q s qi)) /\
  (forall i t l, y_thr s !! i = Some t -> t_pc t = In qi l -> l <> WaitCond MAsleep \/ q_num (y_q s qi) <> 0 -> exists j, can_move client j s).
Proof.
  intros Hc Hinit Hr qi Hp. pose proof (inv_reachable client priv init c locs s (sem_client_disciplined client priv Hc) Hinit Hr) as Hinv.
  destruct (proj2 Hinv qi Hp) as [A B P [D1 D2 D3]] eqn:E. clear E. split_and!.
  - intros i j t u. apply (mutex_unique init s qi). by apply Hinv.
  - intros Hb. specialize (D2 Hb). lia.
  - intros i t l Hi Et Hl. eapply sem_progress; [exact Hinv|by eapply sems_only_reachable|done|done|done].
Qed.

(** ** Runs *)

Fixpoint run {L C} (client : nat -> L -> C -> Z -> L * C * next) (sch : list nat) (s : sys L C) : option (sys L C) :=
  match sch with [] => Some s | i :: sch' => s1 ← tstep client i s; run client sch' s1 end.
Lemma run_steps {L C} (client : nat -> L -> C -> Z -> L * C * next) sch : forall s s', run client sch s = Some s' -> rtc (step client) s s'.
Proof.
  induction sch as [|i sch IH]; intros s s' H; simpl in H; [by injection H as ->|].
  destruct (tstep client i s) as [s1|] eqn:E; [|done]. eapply rtc_l; [by exists i|]. by apply IH.
Qed.

(** Thread 0 waits for thread 1: each makes one call and ends. *)
Definition wait_post (i : nat) (done : bool) (c : unit) (r : Z) : bool * unit * next :=
  (true, c, if done then Exit else Call 0 (if (i =? 0)%nat then OWait else OPost)).

(** Thread 0 is asleep and thread 1 has incremented the semaphore and not called mywakeup yet. *)
Lemma semaphores_count_witness : exists s,
  run wait_post [0; 0; 0; 0; 0; 0; 1; 1; 1; 1]%nat (start (fun _ => 0) tt [false; false]) = Some s /\
  t_pc <$> y_thr s = [In 0 (WaitCond MAsleep); In 0 PostSignal] /\ q_num (y_q s 0) = 1 /\ exists j, can_move wait_post j s.
Proof.
  eexists. split; [vm_compute; reflexivity|]. split; [reflexivity|]. split; [reflexivity|].
  match goal with |- exists j, can_move _ j ?s => set (s0 := s) end.
  destruct (semaphores_count wait_post (fun _ => true) (fun _ => 0) tt [false; false] s0) with (qi := 0%nat) as (_ & _ & H).
  - intros i loc c r. simpl. by destruct loc, (i =? 0)%nat.
  - lia.
  - apply (run_steps wait_post [0; 0; 0; 0; 0; 0; 1; 1; 1; 1]%nat). vm_compute. reflexivity.
  - reflexivity.
  - by apply (H 0%nat (Thread true (In 0 (WaitCond MAsleep))) (WaitCond MAsleep)); [| |right].
Defined.

(** ** Mailboxes *)

Section mailbox.
Context {L C : Type}.
Variable client : nat -> L -> C -> Z -> L * C * next.
Variable priv : nat -> bool.
Variable init : nat -> Z.

Lemma lib_history l q q' c e : lib_step l q = Some (q', c, e) -> l <> Lock -> l <> Unlock -> holds l = false -> q_ptr q' = q_ptr q /\ q_sent q' = q_sent q /\ q_rcvd q' = q_rcvd q.
Proof. intros H H1 H2 Hh. destruct l as [| | | |[]| | | | | | | | | | | | | |[]| |]; simpl in H; unfold xchg_lock in *; simplify_eq; done. Qed.

(** A sender that waits with the mutex for the mailbox to be emptied. *)
Definition blocked (qi i : nat) (p : Z) (q : qst) (s : sys L C) : Prop :=
  (exists t, y_thr s !! i = Some t /\ t_pc t = In qi (SendSpin p)) /\ q_ptr (y_q s qi) = q_ptr q /\ q_sent (y_q s qi) = q_sent q /\ q_rcvd (y_q s qi) = q_rcvd q.

Lemma blocked_step qi i p q s s' : q_ptr q <> 0 -> priv qi = true -> inv priv init s -> blocked qi i p q s -> step client s s' -> blocked qi i p q s'.
Proof.
  intros Hne Hp Hinv ((t & Hi & Et) & E1 & E2 & E3) [j Hst]. unfold tstep in Hst. destruct (y_thr s !! j) as [u|] eqn:Hj; [|done]. cbn [mbind option_bind] in Hst.
  assert (G : forall e qk x, j <> i -> <[j := x]> (wake_all e qk (y_thr s)) !! i = Some t).
  { intros e qk x Hn. rewrite wake_all_woke, list_lookup_insert_ne, list_lookup_fmap, Hi by done. simpl. f_equal. destruct t as [loc pc0]. simpl in Et. subst pc0.
    destruct e; [done..|]. simpl. by destruct (qk =? qi)%nat. }
  destruct (t_pc u) as [r|qk l|] eqn:Eu; [| |done].
  - destruct (client j (t_loc u) (y_c s) r) as [[loc c] n]. injection Hst as <-. split; [|done]. exists t. split; [|done].
    apply (G PtNone 0%nat). intros ->. rewrite Hi in Hj. injection Hj as <-. congruence.
  - destruct (lib_step l (y_q s qk)) as [[[q' c] e]|] eqn:El; [|done]. cbn [mbind option_bind] in Hst. destruct (pt_ok e (y_pt s)); [|done]. injection Hst as <-.
    destruct (decide (j = i)) as [->|Hji].
    + rewrite Hi in Hj. injection Hj as <-. rewrite Et in Eu. injection Eu as <- <-. simpl in El. rewrite E1, (proj2 (Z.eqb_neq _ _) Hne) in El. injection El as <- <- <-.
      unfold blocked. simpl. rewrite !fn_lookup_insert. split; [|done]. eexists. rewrite list_lookup_insert_eq by (by eapply lookup_lt_Some). done.
    + split; [exists t; split; [by apply G|done]|]. simpl. destruct (decide (qk = qi)) as [->|Hqk]; [|by rewrite fn_lookup_insert_ne].
      rewrite fn_lookup_insert. pose proof (proj2 Hinv qi Hp) as Hqi. pose proof (place_knows _ _ _ (qi_place _ _ _ Hqi j u l Hj Eu)) as Hk.
      assert (Hh : holds l = false).
      { apply not_true_is_false. intros E. destruct Hji. apply (mutex_unique init s qi j i u t Hqi Hj Hi); [rewrite Eu|rewrite Et]; simpl; by rewrite Nat.eqb_refl. }
      destruct (lib_history _ _ _ _ _ El) as (-> & -> & ->); [by intros ->|by intros ->|done|done].
Qed.
End mailbox.

(** For any programs, in every interleaving, the messages received from a mailbox are
    those sent, in order, with at most the last one still in the mailbox (a null pointer is no
    message); but a second message sent before the first is received blocks the mailbox for
    good: the sender waits with the mutex locked, and whatever runs afterwards, the sender
    waits on, and no message is ever put or received again. *)
Theorem mailbox_order_and_deadlock {L C} (client : nat -> L -> C -> Z -> L * C * next) (priv : nat -> bool) (init : nat -> Z) (c : C) (locs : list L) (s : sys L C) (qi : nat) :
  disciplined client priv -> (forall qi, priv qi = true -> 0 <= init qi < 2 ^ 32) -> reachable client init c locs s -> priv qi = true ->
  let q := y_q s qi in
  filter (fun p => p <> 0) (q_sent q) = q_rcvd q ++ (if q_ptr q =? 0 then [] else [q_ptr q]) /\
  (forall i t p, y_thr s !! i = Some t -> t_pc t = In qi (SendSpin p) -> q_ptr q <> 0 ->
     forall s', rtc (step client) s s' -> blocked qi i p q s').
Proof.
  intros Hd Hinit Hr Hp q. pose proof (inv_reachable client priv init c locs s Hd Hinit Hr) as Hinv. split.
  - apply (do_mail _ _ (qi_data _ _ _ (proj2 Hinv qi Hp))).
  - intros i t p Hi Et Hne s' Hs. assert (H0 : blocked qi i p q s) by (split; [by exists t|done]).
    clearbody q. clear Hr Hi Et. revert Hinv H0. induction Hs as [|s1 s2 s3 Hst _ IH]; [done|]. intros Hinv H0.
    apply IH; [destruct Hst; by eapply tstep_inv|]. by eapply blocked_step.
Qed.

(** Thread 0 sends 5 and 6, thread 1 receives twice. *)
Definition two_messages (i : nat) (n : nat) (c : unit) (r : Z) : nat * unit * next :=
  (S n, c, if (n <? 2)%nat then Call 0 (if (i =? 0)%nat then OSend (5 + Z.of_nat n) else ORecv) else Exit).

Lemma mailbox_order_and_deadlock_witness : exists s,
  run two_messages [0; 0; 0; 0; 0; 0; 0; 0]%nat (start (fun _ => 0) tt [0; 0]%nat) = Some s /\
  forall s', rtc (step two_messages) s s' -> blocked 0 0 6 (y_q s 0) s' /\ q_rcvd (y_q s' 0) = [].
Proof.
  eexists. split; [vm_compute; reflexivity|]. match goal with |- forall s', rtc _ ?s _ -> _ => set (s0 := s) end. intros s' Hs'.
  destruct (mailbox_order_and_deadlock two_messages (fun _ => true) (fun _ => 0) tt [0; 0]%nat s0 0%nat) as [_ H].
  - intros i loc c r. simpl. by destruct (loc <? 2)%nat, (i =? 0)%nat.
  - lia.
  - apply (run_steps two_messages [0; 0; 0; 0; 0; 0; 0; 0]%nat). vm_compute. reflexivity.
  - reflexivity.
  - assert (Hb : blocked 0 0 6 (y_q s0 0) s') by (by eapply (H 0%nat (Thread 2%nat (In 0 (SendSpin 6))))). split; [exact Hb|]. by destruct Hb as (_ & _ & _ & E).
Defined.
