(* ===== verification/ThreadsBalance.v ===== *)
(** * The threads of thread.c lose no update *)

From stdpp Require Import functions relations.
From S2P Require Import Prelude Threads ThreadsProps ThreadsThms.

Section balance.
Variable amount : nat -> Z.
Hypothesis amount_pos : forall k, 0 <= amount k.
Notation client := (do_work amount).
Notation sys := (sys dw Z).

(** The threads that hold [lock] and [ml]. *)
Definition crit0 (t : thread dw) : nat :=
  match dw_pc (t_loc t), t_pc t with
  | DTop, In _ _ | DMutex, Out _ => 1
  | (DTop | DMutex), _ => 0
  | _, _ => 1
  end.
Definition crit1 (t : thread dw) : nat :=
  match dw_pc (t_loc t), t_pc t with
  | DRead, Out _ | (DWrite | DUnlock), _ | DSpinUnlock, In _ _ => 1
  | _, _ => 0
  end.
(** The increments a thread has done. *)
Definition incs (t : thread dw) : nat :=
  Z.to_nat (dw_i (t_loc t) + match dw_pc (t_loc t) with DUnlock | DSpinUnlock => 1 | _ => 0 end).

(** Where a thread can be, and what it knows there; [c] is the total. *)
Definition dw_ok (k : nat) (c : Z) (t : thread dw) : Prop :=
  let w := t_loc t in
  0 <= dw_i w <= amount k /\
  match dw_pc w, t_pc t with
  | DTop, (Out _ | In 0 Unlock) => True
  | DTop, Ended => dw_i w = amount k
  | DMutex, (Out _ | In 0 Lock) | DRead, (Out _ | In 1 Lock) | DUnlock, Out _ | DSpinUnlock, (Out _ | In 1 Unlock) => dw_i w < amount k
  | DWrite, Out _ => dw_i w < amount k /\ dw_old w = c
  | _, _ => False
  end.

Record dw_inv (s : sys) : Prop := {
  dv_0 : q_lock (y_q s 0) = Z.of_nat (sum_list_with crit0 (y_thr s)) /\ q_lock (y_q s 0) <= 1;
  dv_1 : q_lock (y_q s 1) = Z.of_nat (sum_list_with crit1 (y_thr s)) /\ q_lock (y_q s 1) <= 1;
  dv_total : y_c s = s32 (Z.of_nat (sum_list_with incs (y_thr s)));
  dv_thr : forall k t, y_thr s !! k = Some t -> dw_ok k (y_c s) t
}.

Lemma dw_upd s s' i t t' : dw_inv s -> y_thr s !! i = Some t -> y_thr s' = <[i := t']> (y_thr s) ->
  q_lock (y_q s' 0) + Z.of_nat (crit0 t) = q_lock (y_q s 0) + Z.of_nat (crit0 t') -> q_lock (y_q s' 0) <= 1 ->
  q_lock (y_q s' 1) + Z.of_nat (crit1 t) = q_lock (y_q s 1) + Z.of_nat (crit1 t') -> q_lock (y_q s' 1) <= 1 ->
  y_c s' = s32 (Z.of_nat (sum_list_with incs (y_thr s)) - Z.of_nat (incs t) + Z.of_nat (incs t')) ->
  (y_c s' = y_c s \/ crit0 t = 1%nat) -> dw_ok i (y_c s') t' -> dw_inv s'.
Proof.
  intros [[A0 B0] [A1 B1] T K] Hi Hthr E0 L0 E1 L1 Ec Hc Hok. constructor.
  - split; [|done]. pose proof (sum_insert crit0 _ _ _ t' Hi). rewrite Hthr. lia.
  - split; [|done]. pose proof (sum_insert crit1 _ _ _ t' Hi). rewrite Hthr. lia.
  - rewrite Ec. f_equal. pose proof (sum_insert incs _ _ _ t' Hi). rewrite Hthr. lia.
  - intros k u Hk. rewrite Hthr in Hk. destruct (decide (k = i)) as [->|Hne].
    + rewrite list_lookup_insert_eq in Hk by (by eapply lookup_lt_Some). by injection Hk as <-.
    + rewrite list_lookup_insert_ne in Hk by done. specialize (K k u Hk). destruct Hc as [-> |Hc]; [done|].
      assert (crit0 u <> 1%nat) by (intros E; pose proof (sum_lookup2 crit0 _ _ _ _ _ Hne Hk Hi); lia).
      unfold dw_ok, crit0 in *. destruct (dw_pc (t_loc u)), (t_pc u) as [|[|[|]] []|]; try done.
Qed.

Lemma s32_succ x : s32 (s32 x + 1) = s32 (x + 1).
Proof. unfold s32 at 1 3. rewrite <- (u32_add_l (s32 x)), u32_s32, u32_add_l. done. Qed.

Lemma dw_step s s' : dw_inv s -> step client s s' -> dw_inv s'.
Proof using amount_pos.
  intros Hinv [i Hs]. unfold tstep in Hs. destruct (y_thr s !! i) as [t|] eqn:Hi; [|done]. cbn [mbind option_bind] in Hs.
  pose proof (dv_thr s Hinv i t Hi) as Hok. pose proof (dv_total s Hinv) as Ht. destruct (dv_0 s Hinv) as [A0 B0]. destruct (dv_1 s Hinv) as [A1 B1].
  destruct t as [[n old at_] p]. unfold dw_ok in Hok. cbn [t_loc t_pc dw_i dw_old dw_pc] in *. destruct Hok as [Hn Hok].
  pose proof (sum_lookup crit0 _ _ _ Hi) as C0. pose proof (sum_lookup crit1 _ _ _ Hi) as C1.
  destruct at_; destruct p as [r|[|[|qi]] []|]; try done; unfold do_work in Hs; simpl in Hs;
    repeat match type of Hs with context [if ?b then _ else _] => destruct b eqn:?E end; simpl in Hs; simplify_eq;
    eapply (dw_upd s _ i _ _ Hinv Hi); unfold crit0, crit1, incs in *; simpl in *; rewrite ?fn_lookup_insert, ?fn_lookup_insert_ne by done; try done; simpl.
  all: try (by left); try (by right); try lia; try (rewrite Ht at 1; f_equal; lia).
  all: unfold dw_ok; simpl; try lia.
  destruct Hok as [_ ->]. rewrite Ht, s32_succ. f_equal. lia.
Qed.

Lemma dw_reach n s : reachable client (fun _ => 0) 0 (replicate n dw_start) s -> dw_inv s.
Proof using amount_pos.
  assert (H0 : forall k t, y_thr (start (fun _ => 0) 0 (replicate n dw_start) : sys) !! k = Some t -> t = Thread dw_start (Out 0)).
  { intros k t Hk. simpl in Hk. rewrite list_lookup_fmap in Hk. apply fmap_Some in Hk as (w & Hw & ->). by apply lookup_replicate in Hw as [-> _]. }
  assert (Hz : forall f : thread dw -> nat, f (Thread dw_start (Out 0)) = 0%nat -> sum_list_with f (y_thr (start (fun _ => 0) 0 (replicate n dw_start) : sys)) = 0%nat).
  { intros f Hf. simpl. clear H0. induction n as [|n' IH]; [done|]. cbn. rewrite Hf. exact IH. }
  intros Hr. unfold reachable in Hr. assert (Hs : dw_inv (start (fun _ => 0) 0 (replicate n dw_start))).
  { constructor; [by rewrite Hz|by rewrite Hz|by rewrite Hz|]. intros k t Hk. rewrite (H0 k t Hk). unfold dw_ok. simpl. split; [|done]. pose proof (amount_pos k). lia. }
  clear H0 Hz. revert Hs. induction Hr as [|s1 s2 s3 Hst _ IH]; [done|]. intros Hs. apply IH. by eapply dw_step.
Qed.

Lemma dw_length n s : reachable client (fun _ => 0) 0 (replicate n dw_start) s -> length (y_thr s) = n.
Proof.
  assert (H : forall s1 s2 : sys, step client s1 s2 -> length (y_thr s2) = length (y_thr s1)).
  { intros s1 s2 [i Hs]. unfold tstep in Hs. destruct (y_thr s1 !! i) as [t|]; [|done]. cbn [mbind option_bind] in Hs.
    destruct (t_pc t) as [r|qi l|]; [| |done].
    - destruct (client i (t_loc t) (y_c s1) r) as [[loc c] nx]. injection Hs as <-. simpl. by rewrite length_insert.
    - destruct (lib_step l (y_q s1 qi)) as [[[q c] e]|]; [|done]. cbn [mbind option_bind] in Hs. destruct (pt_ok e (y_pt s1)); [|done].
      injection Hs as <-. simpl. by rewrite length_insert, wake_all_woke, length_fmap. }
  intros Hr. unfold reachable in Hr. assert (H0 : length (y_thr (start (fun _ => 0) 0 (replicate n dw_start) : sys)) = n) by (simpl; by rewrite length_fmap, length_replicate).
  revert H0. induction Hr as [|s1 s2 s3 Hst _ IH]; [done|]. intros H0. apply IH. by rewrite (H _ _ Hst).
Qed.

(** The threads have all ended. *)
Definition all_ended (s : sys) : Prop := forall k t, y_thr s !! k = Some t -> t_pc t = Ended.

Lemma incs_amounts l : (forall k t, l !! k = Some t -> Z.of_nat (incs t) = amount k) ->
  Z.of_nat (sum_list_with incs l) = foldr Z.add 0 (amount <$> seq 0 (length l)).
Proof.
  clear amount_pos. revert amount. induction l as [|t l IH]; intros am H; [done|]. simpl. rewrite Nat2Z.inj_add, (H 0%nat t eq_refl).
  f_equal. rewrite (IH (fun k => am (S k))) by (intros k u Hk; by apply (H (S k))). f_equal. rewrite <- fmap_S_seq, <- list_fmap_compose. done.
Qed.

(** A step of thread [j] that changes it. *)
Definition moves (j : nat) (s : sys) : Prop :=
  exists s' t', tstep client j s = Some s' /\ y_thr s' !! j = Some t' /\ y_thr s !! j <> Some t'.

Lemma dw_progress s k t : dw_inv s -> y_thr s !! k = Some t -> t_pc t <> Ended -> exists j, moves j s.
Proof.
  intros Hinv Hk Hne. destruct (dv_0 s Hinv) as [A0 B0], (dv_1 s Hinv) as [A1 B1].
  assert (M : forall j u, y_thr s !! j = Some u -> (crit0 u = 0%nat -> q_lock (y_q s 0) = 0) -> (crit1 u = 0%nat -> crit0 u = 1%nat -> q_lock (y_q s 1) = 0) ->
    t_pc u <> Ended -> moves j s).
  { intros j u Hj H0 H1 Hu. pose proof (dv_thr s Hinv j u Hj) as [_ Hok]. assert (Hlen : (j < length (y_thr s))%nat) by (by eapply lookup_lt_Some).
    unfold moves. destruct u as [[n old at_] p]. unfold crit0, crit1 in *. cbn [t_loc t_pc dw_i dw_old dw_pc] in *.
    destruct at_; destruct p as [r|[|[|qi]] []|]; try done;
      unfold tstep; rewrite Hj; cbn [mbind option_bind t_pc t_loc y_c lib_step xchg_lock]; unfold do_work; cbn [dw_pc dw_i dw_old pt_ok wake_all];
      try (rewrite H0 by done); try (rewrite H1 by done); try (destruct (_ <? _));
      (eexists _, _; split; [reflexivity|]; split; [simpl; by rewrite list_lookup_insert_eq|congruence]). }
  destruct (Z.eq_dec (q_lock (y_q s 0)) 0) as [E|E].
  - exists k. apply (M k t Hk); [done| |done]. intros _ Hc. pose proof (sum_lookup crit0 _ _ _ Hk). lia.
  - destruct (sum_pos crit0 (y_thr s)) as (j & u & Hj & Hu); [lia|]. exists j. apply (M j u Hj); [lia| |].
    + intros H1 H0. destruct (Z.eq_dec (q_lock (y_q s 1)) 0) as [|E1]; [done|]. exfalso.
      destruct (sum_pos crit1 (y_thr s)) as (j' & u' & Hj' & Hu'); [lia|]. destruct (decide (j = j')) as [<-|Hn]; [simplify_eq; lia|].
      pose proof (sum_lookup2 crit0 _ _ _ _ _ Hn Hj Hj') as H2. assert (crit1 u' <= crit0 u')%nat; [|lia].
      unfold crit0, crit1. destruct (dw_pc (t_loc u')), (t_pc u'); lia.
    + intros Ee. pose proof (dv_thr s Hinv j u Hj) as [_ Hok]. unfold crit0 in Hu. rewrite Ee in *. destruct (dw_pc (t_loc u)); done || lia.
Qed.
End balance.

(** C10: however many threads run do_work, with whatever amounts, in every interleaving of
    their accesses: when all have ended, total_balance is the sum of the amounts (as a
    32-bit integer): the two locks lose no increment; and until then some thread can always
    go on. *)
Theorem total_balance_exact (amount : nat -> Z) (n : nat) (s : sys dw Z) : (forall k, 0 <= amount k) ->
  reachable (do_work amount) (fun _ => 0) 0 (replicate n dw_start) s ->
  (all_ended s -> y_c s = s32 (foldr Z.add 0 (amount <$> seq 0 n))) /\
  (~ all_ended s -> exists j, moves amount j s).
Proof.
  intros Ha Hr. pose proof (dw_reach amount Ha n s Hr) as Hinv. pose proof (dw_length amount n s Hr) as Hlen. split.
  - intros He. rewrite (dv_total amount s Hinv). f_equal. rewrite (incs_amounts amount), Hlen; [done|]. intros k t Hk.
    pose proof (dv_thr amount s Hinv k t Hk) as [Hi Hok]. unfold incs. rewrite (He k t Hk) in Hok. destruct (dw_pc (t_loc t)); try done. lia.
  - intros Hne. assert (Hex : Exists (fun t : thread dw => t_pc t <> Ended) (y_thr s)).
    { apply not_Forall_Exists; [intros t; destruct (t_pc t); [right; auto..|left; done]|]. intros HF. apply Hne. intros k t Hk.
      apply (proj1 (Forall_lookup _ _) HF k t Hk). }
    apply Exists_exists in Hex as (t & Ht & Hp). apply list_elem_of_lookup_1 in Ht as [k Hk]. by eapply dw_progress.
Qed.

(** Two increments and one, with a thread that finds [lock] taken. *)
Lemma total_balance_exact_witness : exists s,
  run (do_work (fun k => if (k =? 0)%nat then 2 else 1)) ([0; 0; 1; 1] ++ replicate 19 0 ++ replicate 10 1)%nat (start (fun _ => 0) 0 (replicate 2 dw_start)) = Some s /\
  all_ended s /\ y_c s = 3.
Proof.
  eexists. split; [vm_compute; reflexivity|]. match goal with |- all_ended ?s /\ _ => set (s0 := s) end.
  assert (He : all_ended s0) by (intros [|[|k]] t [= <-]; reflexivity). split; [exact He|].
  destruct (total_balance_exact (fun k => if (k =? 0)%nat then 2 else 1) 2 s0) as [H _].
  - intros k. by destruct (k =? 0)%nat.
  - apply (run_steps _ ([0; 0; 1; 1] ++ replicate 19 0 ++ replicate 10 1)%nat). vm_compute. reflexivity.
  - exact (H He).
Defined.
