(* ===== verification/ThreadsSemm.v ===== *)
(** * The producer and the consumer of extracredit1.c *)

From stdpp Require Import functions relations.
From S2P Require Import Prelude Threads ThreadsProps ThreadsThms.

(** The producer ([true]) waits on structure 0 and posts on 1, the consumer the other way. *)
Definition wq (b : bool) : nat := if b then 0%nat else 1%nat.
Definition pq (b : bool) : nat := if b then 1%nat else 0%nat.

Definition wait_place (l : lpc) : bool := match l with WaitLock | WaitTest | WaitCond _ | WaitDec | WaitUnlock => true | _ => false end.
Definition post_place (l : lpc) : bool := match l with PostLock | PostInc | PostUnlock | PostSignal => true | _ => false end.

Definition shape (b : bool) (w : pk) (p : pc) : Prop :=
  match pk_pc w, p with
  | Top, Out _ => pk_count w <= 21
  | Top, Ended => pk_count w = 21
  | Waited, Out _ => pk_count w <= 20
  | Waited, In qi l => qi = wq b /\ wait_place l = true /\ pk_count w <= 20
  | Locked, (Out _ | In 2 Lock) => pk_count w <= 20
  | Printed, Out _ => pk_count w <= if b then 21 else 20
  | Post, (Out _ | In 2 Unlock) => pk_count w <= 21
  | Advance, Out _ => pk_count w <= 21
  | Advance, In qi l => qi = pq b /\ post_place l = true /\ pk_count w <= 21
  | _, _ => False
  end.
(** A completed wait the count does not show yet, and a post it shows already. *)
Definition taken (b : bool) (w : pk) (p : pc) : Z :=
  match pk_pc w, p with
  | Waited, (Out _ | In _ WaitUnlock) => 1
  | Locked, _ => 1
  | Printed, _ => if b then 0 else 1
  | _, _ => 0
  end.
Definition owed (b : bool) (w : pk) (p : pc) : Z :=
  match pk_pc w, p with
  | Printed, _ => if b then 1 else 0
  | Post, _ => 1
  | Advance, In _ (PostLock | PostInc) => 1
  | _, _ => 0
  end.
(** The number of the slot [pk_pos] stands for. *)
Definition slot (b : bool) (w : pk) : Z :=
  match pk_pc w with Top | Waited | Locked => pk_count w | Printed => if b then pk_count w - 1 else pk_count w | _ => pk_count w - 1 end.

Record role_ok (b : bool) (q : nat -> qst) (w : pk) (p : pc) : Prop := {
  ro_shape : shape b w p;
  ro_takes : Z.of_nat (q_takes (q (wq b))) = pk_count w + taken b w p;
  ro_posts : Z.of_nat (q_posts (q (pq b))) = pk_count w - owed b w p;
  ro_pos : pk_pos w = slot b w mod NUM
}.

Definition produced (c : shared) : list Z := omap (fun l => match l with Produce n => Some n | _ => None end) (out c).
Definition consumed (c : shared) : list Z := omap (fun l => match l with Consume n => Some n | _ => None end) (out c).

(** The queue between [cc] items consumed and [cp] items produced. *)
Record queue_ok (c : shared) (wp wc : pk) : Prop := {
  qo_len : length (queue c) = Z.to_nat NUM;
  qo_items : forall k, pk_count wc <= k < pk_count wp -> queue_at c (k mod NUM) = k + 1;
  qo_prod : produced c = seqZ 1 (pk_count wp - match pk_pc wp with Printed => 1 | _ => 0 end);
  qo_cons : consumed c = seqZ 1 (pk_count wc + match pk_pc wc with Printed => 1 | _ => 0 end)
}.

Record semm_inv (s : sys pk shared) : Prop := {
  si_inv : inv (fun q => (q <? 2)%nat) semm_nums s;
  si_thr : exists wp pp wc pc_, y_thr s = [Thread wp pp; Thread wc pc_] /\
    role_ok true (y_q s) wp pp /\ role_ok false (y_q s) wc pc_ /\ queue_ok (y_c s) wp wc
}.

Lemma semm_disciplined : disciplined semm (fun q => (q <? 2)%nat).
Proof.
  intros i w c r. unfold semm, prod_work, cons_work. destruct (i =? 0)%nat, (pk_pc w); simpl; try done; by destruct (MAX_NUM <? pk_count w).
Qed.

(** ** The two roles under a step of the library *)

Lemma wait_lib l q q' c e : lib_step l q = Some (q', c, e) -> wait_place l = true ->
  q_posts q' = q_posts q /\ e <> PtWake /\ match c with Next l' => wait_place l' = true | Return _ => l = WaitUnlock end /\
  Z.of_nat (q_takes q') + (match l with WaitUnlock => 1 | _ => 0 end) =
  Z.of_nat (q_takes q) + match c with Next WaitUnlock | Return _ => 1 | _ => 0 end.
Proof. intros H Hw. destruct l as [| | | |[]| | | | | | | | | | | | | |[]| |]; simpl in H; unfold xchg_lock in *; simplify_eq; simpl; repeat case_match; simplify_eq; split_and!; done || lia. Qed.
Lemma post_lib l q q' c e : lib_step l q = Some (q', c, e) -> post_place l = true ->
  q_takes q' = q_takes q /\ match c with Next l' => post_place l' = true | Return _ => l = PostSignal end /\
  Z.of_nat (q_posts q') - (match l with PostLock | PostInc => 1 | _ => 0 end) =
  Z.of_nat (q_posts q) - match c with Next (PostLock | PostInc) => 1 | _ => 0 end.
Proof. intros H Hw. destruct l as [| | | |[]| | | | | | | | | | | | | |[]| |]; simpl in H; unfold xchg_lock in *; simplify_eq; simpl; repeat case_match; simplify_eq; split_and!; done || lia. Qed.

Lemma role_lib b q w qi l q' c e : role_ok b q w (In qi l) -> lib_step l (q qi) = Some (q', c, e) -> role_ok b (<[qi := q']> q) w (ctl_pc qi c).
Proof.
  intros [S T P X] Hl. destruct w as [pos cnt at_]. unfold shape in S. cbn [pk_pc pk_count] in S. destruct at_; try done.
  - destruct S as (-> & Hw & Hc). destruct (wait_lib _ _ _ _ _ Hl Hw) as (Hp & _ & Hc' & Ht). constructor; [| | |done].
    + unfold shape, ctl_pc. simpl. by destruct c.
    + rewrite fn_lookup_insert. unfold taken, ctl_pc in *. simpl in *. destruct l; try done; destruct c as [[]|]; try done; lia.
    + rewrite fn_lookup_insert_ne by (by destruct b). done.
  - destruct qi as [|[|[|qi]]]; try done. destruct l; try done. simpl in Hl. injection Hl as <- <- <-.
    constructor; rewrite ?fn_lookup_insert_ne by (by destruct b); try done; unfold ctl_pc; by destruct (_ =? 0).
  - destruct qi as [|[|[|qi]]]; try done. destruct l; try done. simpl in Hl. injection Hl as <- <- <-.
    constructor; rewrite ?fn_lookup_insert_ne by (by destruct b); try done; unfold ctl_pc; by destruct (_ =? 0).
  - destruct S as (-> & Hw & Hc). destruct (post_lib _ _ _ _ _ Hl Hw) as (Hp & Hc' & Ht). constructor; [| | |done].
    + unfold shape, ctl_pc. simpl. by destruct c.
    + rewrite fn_lookup_insert_ne by (by destruct b). done.
    + rewrite fn_lookup_insert. unfold owed, ctl_pc in *. simpl in *. destruct l; try done; destruct c as [[]|]; try done; lia.
Qed.

Lemma role_wake b q w p qi : role_ok b q w p -> role_ok b q w (wake qi p).
Proof.
  intros [S T P X]. destruct p as [|qk l|]; [done| |done]. simpl. destruct (qi =? qk)%nat; [|done].
  destruct l as [| | | |[]| | | | | | | | | | | | | |[]| |]; try done;
    (constructor; [|unfold taken in *; by destruct (pk_pc w)|unfold owed in *; by destruct (pk_pc w)|done]);
    unfold shape in *; destruct (pk_pc w); try done; by destruct qk as [|[|[|]]].
Qed.

Lemma role_other b q w w2 qi l p2 q' c e : role_ok b q w (In qi l) -> lib_step l (q qi) = Some (q', c, e) ->
  role_ok (negb b) q w2 p2 -> role_ok (negb b) (<[qi := q']> q) w2 (match e with PtWake => wake qi p2 | _ => p2 end).
Proof.
  intros [S T P X] Hl H2. assert (H : role_ok (negb b) (<[qi := q']> q) w2 p2).
  { assert (Hq : q_takes (<[qi := q']> q (wq (negb b))) = q_takes (q (wq (negb b))) /\ q_posts (<[qi := q']> q (pq (negb b))) = q_posts (q (pq (negb b)))).
    { destruct w as [pos cnt at_]. unfold shape in S. cbn [pk_pc pk_count] in S. destruct at_; try done.
      - destruct S as (-> & Hw & _). destruct (wait_lib _ _ _ _ _ Hl Hw) as (Hp & _). destruct b; simpl in *; by rewrite fn_lookup_insert, fn_lookup_insert_ne.
      - destruct qi as [|[|[|qi]]]; try done. rewrite !fn_lookup_insert_ne by (by destruct b). done.
      - destruct qi as [|[|[|qi]]]; try done. rewrite !fn_lookup_insert_ne by (by destruct b). done.
      - destruct S as (-> & Hw & _). destruct (post_lib _ _ _ _ _ Hl Hw) as (Hp & _). destruct b; simpl in *; by rewrite fn_lookup_insert, fn_lookup_insert_ne. }
    destruct Hq as [Eq1 Eq2]. destruct H2 as [S2 T2 P2 X2]. constructor; [done|by rewrite Eq1|by rewrite Eq2|done]. }
  destruct e; try done. by apply role_wake.
Qed.

(** ** What the semaphores give *)

Lemma semm_counts (s : sys pk shared) wp pp wc pc_ : inv (fun q => (q <? 2)%nat) semm_nums s -> role_ok true (y_q s) wp pp -> role_ok false (y_q s) wc pc_ ->
  pk_count wc + taken false wc pc_ <= pk_count wp - owed true wp pp /\ pk_count wp + taken true wp pp <= NUM + pk_count wc - owed false wc pc_.
Proof.
  intros [_ Hq] [Sp Tp Pp _] [Sc Tc Pc _].
  destruct (qi_data _ _ _ (Hq 0%nat eq_refl)) as [N0 C0 _], (qi_data _ _ _ (Hq 1%nat eq_refl)) as [N1 C1 _].
  simpl in *. change (semm_nums 0) with 128 in *. change (semm_nums 1) with 0 in *. unfold NUM.
  assert (pk_count wp <= 21 /\ pk_count wc <= 21) as [? ?].
  { unfold shape in *. split; [destruct (pk_pc wp), pp as [|[|[|[|]]] []|]|destruct (pk_pc wc), pc_ as [|[|[|[|]]] []|]]; simpl in *; intuition lia. }
  assert (0 <= owed true wp pp <= 1 /\ 0 <= owed false wc pc_ <= 1) as [? ?].
  { unfold owed. split; [destruct (pk_pc wp), pp as [|? []|]|destruct (pk_pc wc), pc_ as [|? []|]]; lia. }
  rewrite Pc, Tp in C0. rewrite Pp, Tc in C1. lia.
Qed.

Lemma mod_distinct a b : a <> b -> -128 < a - b < 128 -> a mod NUM <> b mod NUM.
Proof. unfold NUM. intros H1 H2 E. dlia. Qed.
Lemma slot_range a : 0 <= a mod NUM < NUM.
Proof. unfold NUM. apply Z.mod_pos_bound. lia. Qed.

Lemma queue_at_set c i v k : length (queue c) = Z.to_nat NUM -> 0 <= i < NUM -> 0 <= k < NUM -> queue_at (queue_set i v c) k = if k =? i then v else queue_at c k.
Proof.
  intros Hl Hi Hk. unfold queue_at, queue_set. simpl. unfold NUM in *. destruct (Z.eqb_spec k i) as [->|Hne].
  - apply nth_insert_eq. lia.
  - apply nth_insert_ne. lia.
Qed.
Lemma seqZ1_snoc n : 0 <= n -> seqZ 1 n ++ [n + 1] = seqZ 1 (n + 1).
Proof. intros H. rewrite seqZ_app by lia. f_equal. simpl. rewrite (Z.add_comm n 1). done. Qed.

(** ** The steps of the two programs *)

Definition next_pc (n : next) : pc := match n with Go => Out 0 | Call qi o => In qi (entry o) | Exit => Ended end.

Lemma slot_advance x : (((x - 1) mod NUM) + 1) mod NUM = x mod NUM.
Proof. unfold NUM. rewrite Zplus_mod_idemp_l. f_equal. lia. Qed.

Ltac role_tac := split; constructor; unfold shape, taken, owed, slot, NUM in *; simpl in *; rewrite ?length_insert; try done; try lia.

Lemma prod_step q w r c wc pc_ w' c' n : role_ok true q w (Out r) -> queue_ok c w wc ->
  pk_count wc + taken false wc pc_ <= pk_count w - owed true w (Out r) -> pk_count w + taken true w (Out r) <= NUM + pk_count wc - owed false wc pc_ ->
  0 <= taken false wc pc_ -> 0 <= owed false wc pc_ -> prod_work w c = (w', c', n) -> role_ok true q w' (next_pc n) /\ queue_ok c' w' wc.
Proof.
  intros [S T P X] [Q1 Q2 Q3 Q4] H1 H2 Ht Ho E. destruct w as [pos cnt at_]. set (tk := taken false wc pc_) in *. set (ow := owed false wc pc_) in *. clearbody tk ow. unfold prod_work, shape, taken, owed, slot, NUM, MAX_NUM in *. cbn [pk_pc pk_count pk_pos] in *.
  destruct at_; [destruct (Z.ltb_spec 20 cnt)|..]; injection E as <- <- <-.
  - role_tac.
  - role_tac.
  - role_tac.
  - role_tac.
    + rewrite X. f_equal. lia.
    + intros k Hk. rewrite queue_at_set; [|done|rewrite X; apply slot_range|apply slot_range]. rewrite X. destruct (Z.eqb_spec (k mod 128) (cnt mod 128)) as [Ek|Ek].
      * destruct (Z.eq_dec k cnt) as [->|Hne]; [done|]. exfalso. apply (mod_distinct k cnt); [done|lia|exact Ek].
      * apply Q2. destruct (Z.eq_dec k cnt) as [->|]; [done|lia].
    + replace (cnt + 1 - 1) with (cnt - 0) by lia. done.
  - role_tac.
    + unfold produced in *. simpl. rewrite omap_app, Q3. simpl. rewrite X. rewrite (Q2 (cnt - 1)) by lia. rewrite seqZ1_snoc by lia. f_equal. lia.
    + unfold consumed in *. simpl. rewrite omap_app, Q4. simpl. by rewrite app_nil_r.
  - role_tac.
  - role_tac. rewrite X. apply slot_advance.
Qed.

Lemma cons_step q w r c wp pp w' c' n : role_ok false q w (Out r) -> queue_ok c wp w ->
  pk_count w + taken false w (Out r) <= pk_count wp - owed true wp pp -> pk_count wp + taken true wp pp <= NUM + pk_count w - owed false w (Out r) ->
  0 <= taken true wp pp -> 0 <= owed true wp pp -> cons_work w c = (w', c', n) -> role_ok false q w' (next_pc n) /\ queue_ok c' wp w'.
Proof.
  intros [S T P X] [Q1 Q2 Q3 Q4] H1 H2 Ht Ho E. destruct w as [pos cnt at_]. set (tk := taken true wp pp) in *. set (ow := owed true wp pp) in *. clearbody tk ow. unfold cons_work, shape, taken, owed, slot, NUM, MAX_NUM in *. cbn [pk_pc pk_count pk_pos] in *.
  destruct at_; [destruct (Z.ltb_spec 20 cnt)|..]; injection E as <- <- <-.
  - role_tac.
  - role_tac.
  - role_tac.
  - role_tac.
    + unfold produced in *. simpl. rewrite omap_app, Q3. simpl. by rewrite app_nil_r.
    + unfold consumed in *. simpl. rewrite omap_app, Q4. simpl. rewrite X. rewrite (Q2 cnt) by lia. rewrite Z.add_0_r. apply seqZ1_snoc. lia.
  - role_tac.
    + rewrite X. f_equal. lia.
    + intros k Hk. rewrite queue_at_set; [|done|rewrite X; apply slot_range|apply slot_range]. rewrite X. destruct (Z.eqb_spec (k mod 128) (cnt mod 128)) as [Ek|Ek].
      * exfalso. apply (mod_distinct k cnt); [lia|lia|exact Ek].
      * apply Q2. lia.
    + unfold consumed in *. simpl. rewrite Q4. f_equal. lia.
  - role_tac.
  - role_tac. rewrite X. apply slot_advance.
Qed.

(** ** The system *)

Lemma taken_pos b w p : 0 <= taken b w p.
Proof. unfold taken. destruct (pk_pc w), p as [|? []|], b; lia. Qed.
Lemma owed_pos b w p : 0 <= owed b w p.
Proof. unfold owed. destruct (pk_pc w), p as [|? []|], b; lia. Qed.

Lemma semm_step s s' : semm_inv s -> step semm s s' -> semm_inv s'.
Proof.
  intros [Hinv (wp & pp & wc & pc_ & Hthr & Rp & Rc & Q)] [i Hs]. split; [eapply tstep_inv; [apply semm_disciplined|exact Hinv|exact Hs]|].
  destruct (semm_counts s wp pp wc pc_ Hinv Rp Rc) as [K1 K2]. unfold tstep in Hs. rewrite Hthr in Hs.
  destruct i as [|[|i]]; [| |done]; cbn [lookup list_lookup mbind option_bind t_pc t_loc] in Hs.
  - destruct pp as [r|qi l|]; [| |done].
    + change (semm 0 wp (y_c s) r) with (prod_work wp (y_c s)) in Hs. destruct (prod_work wp (y_c s)) as [[w' c'] n] eqn:E. injection Hs as <-.
      destruct (prod_step _ _ _ _ _ _ _ _ _ Rp Q K1 K2 (taken_pos _ _ _) (owed_pos _ _ _) E) as [R' Q']. exists w', (next_pc n), wc, pc_. done.
    + destruct (lib_step l (y_q s qi)) as [[[q' c] e]|] eqn:El; [|done]. cbn [mbind option_bind] in Hs. destruct (pt_ok e (y_pt s)); [|done]. injection Hs as <-.
      exists wp, (ctl_pc qi c), wc, (match e with PtWake => wake qi pc_ | _ => pc_ end). split; [by destruct e|]. simpl.
      split; [by eapply role_lib|]. split; [|done]. exact (role_other true _ _ _ _ _ _ _ _ _ Rp El Rc).
  - destruct pc_ as [r|qi l|]; [| |done].
    + change (semm 1 wc (y_c s) r) with (cons_work wc (y_c s)) in Hs. destruct (cons_work wc (y_c s)) as [[w' c'] n] eqn:E. injection Hs as <-.
      destruct (cons_step _ _ _ _ _ _ _ _ _ Rc Q K1 K2 (taken_pos _ _ _) (owed_pos _ _ _) E) as [R' Q']. exists wp, pp, w', (next_pc n). done.
    + destruct (lib_step l (y_q s qi)) as [[[q' c] e]|] eqn:El; [|done]. cbn [mbind option_bind] in Hs. destruct (pt_ok e (y_pt s)); [|done]. injection Hs as <-.
      exists wp, (match e with PtWake => wake qi pp | _ => pp end), wc, (ctl_pc qi c). split; [by destruct e|]. simpl.
      split; [exact (role_other false _ _ _ _ _ _ _ _ _ Rc El Rp)|]. split; [by eapply role_lib|done].
Qed.

Definition semm_test : sys pk shared := start semm_nums shared_start [pk_start; pk_start].

Lemma semm_start : semm_inv semm_test.
Proof.
  split; [apply inv_start; intros [|[|qi]]; unfold semm_nums, NUM; simpl; lia|]. exists pk_start, (Out 0), pk_start, (Out 0).
  split; [done|]. split; [by constructor|]. split; [by constructor|]. constructor; [done| |done|done]. simpl. lia.
Qed.

Lemma semm_reach s : rtc (step semm) semm_test s -> semm_inv s.
Proof. intros Hr. generalize semm_start. induction Hr as [|s1 s2 s3 Hst _ IH]; [done|]. intros H. apply IH. by eapply semm_step. Qed.

Definition both_ended (s : sys pk shared) : Prop := forall k t, y_thr s !! k = Some t -> t_pc t = Ended.

(** C9: in every interleaving of the producer and the consumer, at every access: the consumer
    prints exactly 1, 2, 3, ... without a gap or a repetition, never an item before the
    producer has printed it; the producer is never more than the length of the queue ahead;
    and when both have ended, the 21 items have been produced and consumed. *)
Theorem producer_consumer (s : sys pk shared) : rtc (step semm) semm_test s ->
  exists np nc, produced (y_c s) = seqZ 1 np /\ consumed (y_c s) = seqZ 1 nc /\ 0 <= nc <= np /\ np <= NUM + nc /\
    (both_ended s -> np = 21 /\ nc = 21).
Proof.
  intros Hr. destruct (semm_reach s Hr) as [Hinv (wp & pp & wc & pc_ & Hthr & Rp & Rc & [Q1 Q2 Q3 Q4])].
  destruct (semm_counts s wp pp wc pc_ Hinv Rp Rc) as [K1 K2]. eexists _, _. split; [exact Q3|]. split; [exact Q4|].
  pose proof (taken_pos true wp pp). pose proof (taken_pos false wc pc_). pose proof (owed_pos true wp pp). pose proof (owed_pos false wc pc_).
  destruct Rp as [Sp Tp Pp Xp], Rc as [Sc Tc Pc Xc]. split_and!.
  - unfold taken, owed in *. destruct (pk_pc wc); lia.
  - unfold taken, owed in *. destruct (pk_pc wp), (pk_pc wc); lia.
  - unfold taken, owed in *. destruct (pk_pc wp), (pk_pc wc); lia.
  - intros He. unfold both_ended in He. rewrite Hthr in He. pose proof (He 0%nat _ eq_refl) as Ep. pose proof (He 1%nat _ eq_refl) as Ec. simpl in Ep, Ec. subst pp pc_.
    unfold shape in *. destruct (pk_pc wp); try done. destruct (pk_pc wc); try done. simpl. lia.
Qed.

(** The threads in turn, one step each. *)
Fixpoint in_turn (n : nat) (s : sys pk shared) : sys pk shared :=
  match n with
  | O => s
  | S n' => let s1 := default s (tstep semm 0 s) in in_turn n' (default s1 (tstep semm 1 s1))
  end.
Lemma in_turn_steps n : forall s, rtc (step semm) s (in_turn n s).
Proof.
  assert (H : forall i s, rtc (step semm) s (default s (tstep semm i s))).
  { intros i s. destruct (tstep semm i s) as [s1|] eqn:E; [|done]. apply rtc_once. by exists i. }
  induction n as [|n IH]; intros s; [done|]. cbn [in_turn]. etransitivity; [apply (H 0%nat)|]. etransitivity; [apply (H 1%nat)|]. apply IH.
Qed.

Lemma both_ended_pcs s : t_pc <$> y_thr s = [Ended; Ended] -> both_ended s.
Proof.
  intros E k t Hk. assert (Hk' : (t_pc <$> y_thr s) !! k = Some (t_pc t)) by (by rewrite list_lookup_fmap, Hk).
  rewrite E in Hk'. by destruct k as [|[|[|k]]]; simplify_eq/=.
Qed.

Lemma producer_consumer_witness : let s := in_turn 700 semm_test in
  both_ended s /\ exists np, consumed (y_c s) = seqZ 1 np /\ np = 21.
Proof.
  intros s. assert (He : both_ended s) by (apply both_ended_pcs; vm_compute; reflexivity).
  split; [exact He|]. destruct (producer_consumer s (in_turn_steps 700 semm_test)) as (np & nc & _ & Hc & _ & _ & H).
  exists nc. split; [exact Hc|exact (proj2 (H He))].
Defined.
