(* ===== verification/Trap.v ===== *)
(** * Traps and process calls (trap.c, sysproc.c)

    The kernel's entry from user programs and devices, over the process table.  [me] is the
    running process, if any.  A routine ends in [Sleep] where the process gives up the
    processor; the parts that follow the context switch are definitions of their own.  The
    file-system calls and the device handlers are arguments. *)

From S2P Require Import Prelude Layout Mem Proc Syscall.

Definition T_SYSCALL : Z := 64.
Definition T_IRQ0 : Z := 32.
Definition IRQ_TIMER : Z := 0.
Definition IRQ_KBD : Z := 1.
Definition IRQ_COM1 : Z := 4.
Definition IRQ_IDE : Z := 14.
Definition IRQ_SPURIOUS : Z := 31.

(** The process table with the ticks, and the number of acknowledged interrupts (lapiceoi). *)
Record kst (E : Type) := KSt { k_pt : ptable E; k_ticks : Z; k_eoi : Z }.
Arguments KSt {E} _ _ _.
Arguments k_pt {E} _.
Arguments k_ticks {E} _.
Arguments k_eoi {E} _.

Section trap.
Context {E : Type} `{ProcEnv E}.
Definition set_kpt (v : ptable E) (s : kst E) : kst E := KSt v (k_ticks s) (k_eoi s).
Definition set_ticks (v : Z) (s : kst E) : kst E := KSt (k_pt s) v (k_eoi s).
Definition pt {A} (c : K (ptable E) A) : K (kst E) A := kzoom k_pt set_kpt c.

(** The addresses of tickslock and of ticks; the processor's number. *)
Variable tickslock ticks_chan cpuid : Z.
(** The caller's memory as the kernel sees it, by page table. *)
Variable umem : E -> Z -> mem.
(** What uninitialised variables of the kernel stack hold. *)
Variable junk : Z -> Z.
(** The entry behind the end of the process table, and the copy of dump. *)
Variable past_end : ptable E -> proc.
Variable mycopybuffer : Z -> Z -> Z -> Z -> K (kst E) Z.
(** The calls of sysfile.c and the device handlers. *)
Variable sys_file : nat -> sysno -> K (kst E) Z.
Variable ideintr kbdintr uartintr : K (kst E) unit.

Definition lapiceoi : K (kst E) unit := kmodify (fun s => KSt (k_pt s) (k_ticks s) (k_eoi s + 1)).
Definition killed_at (i : nat) : K (kst E) Z := kget (fun s => killed (p_at (k_pt s) i)).

(** ** sysproc.c *)

(** What the argument routines of syscall.c read. *)
Definition caller (s : kst E) (me : nat) : uproc :=
  let p := p_at (k_pt s) me in UProc (sz p) (tf_esp (tf p)) (umem (penv (k_pt s)) (pgdir p)).

Definition sys_fork (me : nat) : K (kst E) Z := pt (fork me).
Definition sys_exit (me : nat) : K (kst E) Z := pt (exit me) ;; kret 0.
Definition sys_wait (me : nat) : K (kst E) Z := pt (wait me).
Definition sys_kill (me : nat) : K (kst E) Z :=
  let! u := kget (fun s => caller s me) in
  match argint u 0 with None => kret (-1) | Some n => pt (kill n) end.
Definition sys_getpid (me : nat) : K (kst E) Z := kget (fun s => pid (p_at (k_pt s) me)).
Definition sys_sbrk_call (me : nat) : K (kst E) Z :=
  let! u := kget (fun s => caller s me) in
  match argint u 0 with
  | None => kret (-1)
  | Some n =>
      let! addr := kget (fun s => s32 (sz (p_at (k_pt s) me))) in
      let! r := pt (growproc me n) in
      if r <? 0 then kret (-1) else kret addr
  end.

(** The loop of sys_sleep from its test on, with tickslock held; n is compared as unsigned. *)
Definition sleep_round (me : nat) (n ticks0 : Z) : K (kst E) Z :=
  let! t := kget k_ticks in
  if u32 (t - ticks0) <? u32 n then
    let! k := killed_at me in
    if truth k then pt (other_release tickslock) ;; kret (-1)
    else pt (sleep me ticks_chan (Some tickslock)) ;; kret 0
  else pt (other_release tickslock) ;; kret 0.
Definition sys_sleep (me : nat) : K (kst E) Z :=
  let! u := kget (fun s => caller s me) in
  match argint u 0 with
  | None => kret (-1)
  | Some n =>
      pt (other_acquire tickslock) ;;
      let! ticks0 := kget k_ticks in
      sleep_round me n ticks0
  end.
(** sys_sleep when the process runs again. *)
Definition sys_sleep_resume (me : nat) (n ticks0 : Z) : K (kst E) Z :=
  pt (sleep_resume me (Some tickslock)) ;; sleep_round me n ticks0.

Definition sys_uptime : K (kst E) Z :=
  pt (other_acquire tickslock) ;;
  let! xticks := kget k_ticks in
  pt (other_release tickslock) ;;
  kret (s32 xticks).

Definition dump (n addr buffer buffersize : Z) : K (kst E) Z :=
  let! p := kget (fun s => match find_pid n (procs (k_pt s)) 0 with Some i => p_at (k_pt s) i | None => past_end (k_pt s) end) in
  if negb (pid p =? n) then kpanic "dump: fail to get pid" else
  let! r := mycopybuffer (pgdir p) addr buffer buffersize in
  if negb (r =? 0) then kpanic "dump: fail to copy" else kret 0.
Definition sys_dump (me : nat) : K (kst E) Z :=
  let! u := kget (fun s => caller s me) in
  match argint u 0, argptr u 1 4, argptr u 2 4, argint u 3 with
  | Some n, Some addr, Some buffer, Some size => dump n addr buffer (u32 size)
  | _, _, _, _ => kpanic "sys_dump: args error"
  end.
Definition ps : K (kst E) Z := kpanic "ps exec".
Definition sys_ps : K (kst E) Z := ps.

(** A pointer argument whose check is not looked at. *)
Definition arg_or_junk (u : uproc) (n : Z) : Z := match argptr u n 4 with Some p => p | None => junk n end.
Definition sys_thread_create (me : nat) : K (kst E) Z :=
  let! u := kget (fun s => caller s me) in
  pt (thread_create me (arg_or_junk u 0) (arg_or_junk u 1) (arg_or_junk u 2)).
Definition sys_thread_join (me : nat) : K (kst E) Z := pt (thread_join me).
Definition sys_thread_exit (me : nat) : K (kst E) Z := pt (thread_exit me) ;; kret 0.
Definition sys_mysleep (me : nat) : K (kst E) Z :=
  let! u := kget (fun s => caller s me) in
  pt (mysleep me (arg_or_junk u 0) (arg_or_junk u 1)) ;; kret 0.
Definition sys_mywakeup (me : nat) : K (kst E) Z :=
  let! u := kget (fun s => caller s me) in pt (mywakeup (arg_or_junk u 0)).

(** The table of the calls. *)
Definition sys (me : nat) (c : sysno) : K (kst E) Z :=
  match c with
  | SYS_fork => sys_fork me | SYS_exit => sys_exit me | SYS_wait => sys_wait me | SYS_kill => sys_kill me
  | SYS_getpid => sys_getpid me | SYS_sbrk => sys_sbrk_call me | SYS_sleep => sys_sleep me | SYS_uptime => sys_uptime
  | SYS_dump => sys_dump me | SYS_ps => sys_ps
  | SYS_thread_create => sys_thread_create me | SYS_thread_join => sys_thread_join me | SYS_thread_exit => sys_thread_exit me
  | SYS_mysleep => sys_mysleep me | SYS_mywakeup => sys_mywakeup me
  | _ => sys_file me c
  end.

(** syscall for the running process: its number and result are in eax of the trap frame. *)
Definition get_eax_of (me : nat) (s : kst E) : Z := tf_eax (tf (p_at (k_pt s) me)).
Definition set_eax_of (me : nat) (v : Z) (s : kst E) : kst E :=
  set_kpt (set_procs (alter (fun p => set_tf (set_eax v (tf p)) p) me (procs (k_pt s))) (k_pt s)) s.
Definition syscall_of (me : nat) : K (kst E) unit := syscall (get_eax_of me) (set_eax_of me) (sys me).

(** ** trap.c *)

(** The end of a system call: also where a call that slept goes on. *)
Definition trap_syscall_end (me : nat) : K (kst E) unit :=
  let! k := killed_at me in
  if truth k then pt (exit me) else kret tt.
Definition trap_syscall (me : nat) (f : trapframe) : K (kst E) unit :=
  let! k := killed_at me in
  if truth k then pt (exit me) else
  pt (upd_proc me (set_tf f)) ;;
  syscall_of me ;;
  trap_syscall_end me.

(** Whether the interrupted code is the user's. *)
Definition from_user (f : trapframe) : bool := Z.land (tf_cs f) 3 =? DPL_USER.

(** The switch over the interrupts; [rcr2] and the messages are left out. *)
Definition trap_switch (me : option nat) (trapno : Z) (f : trapframe) : K (kst E) unit :=
  if trapno =? T_IRQ0 + IRQ_TIMER then
    (if cpuid =? 0 then
       pt (other_acquire tickslock) ;;
       kmodify (fun s => set_ticks (u32 (k_ticks s + 1)) s) ;;
       pt (wakeup ticks_chan) ;;
       pt (other_release tickslock)
     else kret tt) ;;
    lapiceoi
  else if trapno =? T_IRQ0 + IRQ_IDE then ideintr ;; lapiceoi
  else if trapno =? T_IRQ0 + IRQ_IDE + 1 then kret tt
  else if trapno =? T_IRQ0 + IRQ_KBD then kbdintr ;; lapiceoi
  else if trapno =? T_IRQ0 + IRQ_COM1 then uartintr ;; lapiceoi
  else if (trapno =? T_IRQ0 + 7) || (trapno =? T_IRQ0 + IRQ_SPURIOUS) then lapiceoi
  else match me with
       | Some i => if Z.land (tf_cs f) 3 =? 0 then kpanic "trap" else pt (upd_proc i (set_killed 1))
       | None => kpanic "trap"
       end.

(** Exit if the process has been killed and was in user space. *)
Definition exit_if_killed (i : nat) (f : trapframe) : K (kst E) unit :=
  let! k := killed_at i in
  if truth k && from_user f then pt (exit i) else kret tt.

Definition trap (me : option nat) (trapno : Z) (f : trapframe) : K (kst E) unit :=
  if trapno =? T_SYSCALL then
    match me with Some i => trap_syscall i f | None => kpanic "null dereference" end
  else
    trap_switch me trapno f ;;
    match me with
    | None => kret tt
    | Some i =>
        exit_if_killed i f ;;
        let! st := kget (fun s => state (p_at (k_pt s) i)) in
        (if bool_decide (st = RUNNING) && (trapno =? T_IRQ0 + IRQ_TIMER) then pt (yield i) else kret tt) ;;
        exit_if_killed i f
    end.
(** trap when the process that yielded runs again. *)
Definition trap_yield_resume (i : nat) (f : trapframe) : K (kst E) unit :=
  pt yield_resume ;; exit_if_killed i f.
End trap.
