(* ===== verification/TrapProps.v ===== *)
(** * Killed processes leave, and sleepers wake up in time (trap.c, sysproc.c) *)

From stdpp Require Import relations.
From S2P Require Import Prelude Layout Mem Proc Syscall Trap.

Section props.
Context {E : Type} `{ProcEnv E}.

(** ** exit does not return *)

Lemma bind_ret_inv {S A B} (c : K S A) (k : A -> K S B) s b s' : kbind c k s = Ret b s' -> exists a s1, c s = Ret a s1 /\ k a s1 = Ret b s'.
Proof. unfold kbind. destruct (c s) as [a s1| | |]; try done. eauto. Qed.

Lemma sched_no_ret me (s : ptable E) r s' : sched me s <> Ret r s'.
Proof. unfold sched. unfold kbind, kget, ksleep. by repeat case_match. Qed.

Lemma exit_no_ret me (s : ptable E) r s' : exit me s <> Ret r s'.
Proof.
  intros Hx. unfold exit in Hx. apply bind_ret_inv in Hx as (ip & s1 & _ & Hx). destruct (bool_decide _); [done|].
  repeat (lazymatch type of Hx with kbind _ _ _ = _ => apply bind_ret_inv in Hx as (? & ? & _ & Hx) end). by eapply sched_no_ret.
Qed.

Lemma pt_ret {A} (c : K (ptable E) A) (s : kst E) a s' : pt c s = Ret a s' -> exists p, c (k_pt s) = Ret a p /\ s' = set_kpt p s.
Proof. unfold pt, kzoom. destruct (c (k_pt s)) as [a' p| | |]; try done. intros [= -> <-]. eauto. Qed.
Lemma pt_exit_no_ret me (s : kst E) r s' : pt (exit me) s <> Ret r s'.
Proof. intros Hx. apply pt_ret in Hx as (p & Hx & _). by eapply exit_no_ret. Qed.

Variable tickslock ticks_chan cpuid : Z.
Variable umem : E -> Z -> mem.
Variable junk : Z -> Z.
Variable past_end : ptable E -> proc.
Variable mycopybuffer : Z -> Z -> Z -> Z -> K (kst E) Z.
Variable sys_file : nat -> sysno -> K (kst E) Z.
Variable ideintr kbdintr uartintr : K (kst E) unit.
Notation trap := (trap tickslock ticks_chan cpuid umem junk past_end mycopybuffer sys_file ideintr kbdintr uartintr).

Lemma truth_false k : truth k = false -> k = 0.
Proof. unfold truth. destruct (Z.eqb_spec k 0); done. Qed.

Lemma exit_if_killed_ret i f (s : kst E) s' : exit_if_killed i f s = Ret tt s' -> from_user f = true -> s' = s /\ killed (p_at (k_pt s') i) = 0.
Proof.
  intros Hx Hu. unfold exit_if_killed, killed_at in Hx. apply bind_ret_inv in Hx as (k & s1 & [= <- <-] & Hx). rewrite Hu, andb_true_r in Hx.
  destruct (truth _) eqn:Ek; [by apply pt_exit_no_ret in Hx|]. injection Hx as <-. split; [done|]. by apply truth_false.
Qed.
Lemma trap_syscall_end_ret i (s : kst E) s' : trap_syscall_end i s = Ret tt s' -> killed (p_at (k_pt s') i) = 0.
Proof.
  intros Hx. unfold trap_syscall_end, killed_at in Hx. apply bind_ret_inv in Hx as (k & s1 & [= <- <-] & Hx).
  destruct (truth _) eqn:Ek; [by apply pt_exit_no_ret in Hx|]. injection Hx as <-. by apply truth_false.
Qed.
End props.

(** C23: a process that has been killed does not get back to its program: whenever trap
    returns to user code, after a system call, an interrupt or a fault, at once or after the
    process has given up the processor on the clock tick or inside the call, the process has
    not been killed. *)
Theorem killed_never_returns {E} `{ProcEnv E} tickslock ticks_chan cpuid umem junk past_end mycopybuffer sys_file ideintr kbdintr uartintr (i : nat) (trapno : Z) (f : trapframe) (s s' : kst E) :
  from_user f = true ->
  (trap tickslock ticks_chan cpuid umem junk past_end mycopybuffer sys_file ideintr kbdintr uartintr (Some i) trapno f s = Ret tt s' \/
   trap_yield_resume i f s = Ret tt s' \/ trap_syscall_end i s = Ret tt s') ->
  killed (p_at (k_pt s') i) = 0.
Proof.
  intros Hu [Hx|[Hx|Hx]].
  - unfold trap in Hx. destruct (trapno =? T_SYSCALL).
    + unfold trap_syscall, killed_at in Hx. apply bind_ret_inv in Hx as (k & s1 & [= <- <-] & Hx). destruct (truth _); [by apply pt_exit_no_ret in Hx|].
      apply bind_ret_inv in Hx as (? & ? & _ & Hx). apply bind_ret_inv in Hx as (? & ? & _ & Hx). by apply trap_syscall_end_ret in Hx.
    + apply bind_ret_inv in Hx as (? & s1 & _ & Hx). apply bind_ret_inv in Hx as (? & s2 & _ & Hx). apply bind_ret_inv in Hx as (? & s3 & _ & Hx).
      apply bind_ret_inv in Hx as (? & s4 & _ & Hx). by apply exit_if_killed_ret in Hx as [_ ?].
  - unfold trap_yield_resume in Hx. apply bind_ret_inv in Hx as (? & s1 & _ & Hx). by apply exit_if_killed_ret in Hx as [_ ?].
  - by apply trap_syscall_end_ret in Hx.
Qed.

(** ** Sleeping for a number of ticks *)

Section sleeping.
Context {E : Type} `{ProcEnv E}.
Variable tickslock ticks_chan : Z.
Variable ideintr kbdintr uartintr : K (kst E) unit.
Notation sleep_round := (sleep_round tickslock ticks_chan).
Notation sys_sleep_resume := (sys_sleep_resume tickslock ticks_chan).
Notation tick := (trap_switch tickslock ticks_chan 0 ideintr kbdintr uartintr).

Definition unlocked (s : kst E) : Prop := pt_lk (k_pt s) = false /\ locks_held (k_pt s) = ∅.
Definition proc_of (s : kst E) (i : nat) : proc := p_at (k_pt s) i.

(** The scheduler runs process [i]: it holds ptable.lock and marks the process. *)
Definition dispatched (i : nat) (s : kst E) : kst E :=
  set_kpt (set_pt_lk true (set_procs (alter (set_state RUNNING) i (procs (k_pt s))) (k_pt s))) s.
(** The scheduler after the process has gone back to sleep. *)
Definition switched (s : kst E) : kst E := set_kpt (set_pt_lk false (set_locks_held ∅ (k_pt s))) s.

(** What happens while process [i] is in sys_sleep: clock interrupts, the scheduler running
    it, and anything that leaves its entry alone or wakes or kills it. *)
Inductive while_asleep (i : nat) (n t0 : Z) : kst E -> kst E -> Prop :=
| wa_tick me f s s' : tick me (T_IRQ0 + IRQ_TIMER) f s = Ret tt s' -> while_asleep i n t0 s s'
| wa_run ch s s' : state (proc_of s i) = RUNNABLE -> sys_sleep_resume i n t0 (dispatched i s) = Sleep ch s' -> while_asleep i n t0 s (switched s')
| wa_other s s' : k_ticks s' = k_ticks s -> unlocked s' -> length (procs (k_pt s')) = length (procs (k_pt s)) -> chan (proc_of s' i) = chan (proc_of s i) ->
    (state (proc_of s' i) = state (proc_of s i) \/ state (proc_of s i) = SLEEPING /\ state (proc_of s' i) = RUNNABLE) -> while_asleep i n t0 s s'.

(** Asleep only before the time is over. *)
Record asleep_ok (i : nat) (n t0 : Z) (s : kst E) : Prop := {
  as_len : (i < length (procs (k_pt s)))%nat;
  as_locks : unlocked s;
  as_state : state (proc_of s i) = SLEEPING /\ chan (proc_of s i) = ticks_chan /\ u32 (k_ticks s - t0) < u32 n \/ state (proc_of s i) = RUNNABLE
}.

(** The rest of the loop: the time is over, or the process has been killed, or it sleeps again. *)
Lemma sleep_round_spec i n t0 (s : kst E) : (i < length (procs (k_pt s)))%nat -> pt_lk (k_pt s) = false -> locks_held (k_pt s) = {[tickslock]} ->
  match sleep_round i n t0 s with
  | Ret r s' => (r = 0 /\ u32 n <= u32 (k_ticks s - t0)) \/ (r = -1 /\ killed (proc_of s i) <> 0)
  | Sleep _ s' => asleep_ok i n t0 (switched s') /\ u32 (k_ticks s - t0) < u32 n
  | _ => False
  end.
Proof.
  intros Hi Hl Hh. unfold Trap.sleep_round, kbind, kget. destruct (Z.ltb_spec (u32 (k_ticks s - t0)) (u32 n)) as [Hlt|Hge].
  - unfold killed_at, kget. destruct (truth (killed (p_at (k_pt s) i))) eqn:Ek.
    + unfold pt, kzoom, other_release, kbind, kget. rewrite Hh, bool_decide_eq_true_2 by set_solver. simpl. right. split; [done|]. intros E0. unfold proc_of in E0. rewrite E0 in Ek. done.
    + unfold pt, kzoom, sleep, other_release, pt_acquire, upd_proc, kbind, kget, kmodify. rewrite Hl. cbn [set_pt_lk locks_held pt_lk]. rewrite Hh, bool_decide_eq_true_2 by set_solver.
      replace (({[tickslock]} : gset Z) ∖ {[tickslock]}) with (∅ : gset Z) by set_solver.
      unfold sched, kbind, kget. cbn [id locks_held set_procs set_locks_held pt_lk set_pt_lk procs negb]. rewrite size_empty. simpl.
      set (l := alter (set_chan ticks_chan) i (procs (k_pt s))). assert (Hll : (i < length l)%nat) by (unfold l; by rewrite length_alter).
      assert (Es : nth i (alter (set_state SLEEPING) i l) zero_proc = set_state SLEEPING (nth i l zero_proc)) by (by apply nth_alter_eq).
      rewrite bool_decide_eq_false_2 by (unfold p_at; simpl; by rewrite Es). unfold ksleep. split; [|done].
      constructor; simpl; [by rewrite length_alter|done|left]. unfold proc_of, p_at. simpl. rewrite Es. simpl. split; [done|]. split; [|done].
      unfold l. by rewrite nth_alter_eq.
  - unfold pt, kzoom, other_release, kbind, kget. rewrite Hh, bool_decide_eq_true_2 by set_solver. simpl. left. done.
Qed.

Lemma tick_spec me f (s s' : kst E) : unlocked s -> tick me (T_IRQ0 + IRQ_TIMER) f s = Ret tt s' ->
  k_ticks s' = u32 (k_ticks s + 1) /\ procs (k_pt s') = wake_proc ticks_chan <$> procs (k_pt s) /\ unlocked s'.
Proof.
  intros [Hl Hh] Ht. unfold trap_switch in Ht. rewrite Z.eqb_refl in Ht. change (0 =? 0) with true in Ht. unfold pt, kzoom, other_acquire, other_release, wakeup, wakeup1, pt_acquire, pt_release, lapiceoi, kbind, kget, kmodify in Ht.
  rewrite Hh in Ht. rewrite bool_decide_eq_false_2 in Ht by set_solver. cbn [k_pt set_kpt set_ticks set_locks_held pt_lk] in Ht. rewrite Hl in Ht.
  cbn [k_pt set_kpt set_ticks set_locks_held pt_lk set_pt_lk set_procs locks_held procs k_ticks k_eoi kret] in Ht.
  rewrite bool_decide_eq_true_2 in Ht by set_solver. injection Ht as <-. split; [done|]. split; [done|]. split; [done|].
  cbn [k_pt set_locks_held locks_held]. set_solver.
Qed.

Lemma dispatched_round i n t0 (s : kst E) : (i < length (procs (k_pt s)))%nat -> unlocked s ->
  exists s1, sys_sleep_resume i n t0 (dispatched i s) = sleep_round i n t0 s1 /\ (i < length (procs (k_pt s1)))%nat /\ pt_lk (k_pt s1) = false /\
    locks_held (k_pt s1) = {[tickslock]} /\ k_ticks s1 = k_ticks s /\ killed (proc_of s1 i) = killed (proc_of s i).
Proof.
  intros Hi [Hl Hh]. eexists. split.
  - unfold Trap.sys_sleep_resume, dispatched, pt, kzoom, sleep_resume, upd_proc, pt_release, other_acquire, kbind, kget, kmodify.
    cbn [k_pt set_kpt pt_lk set_pt_lk set_procs locks_held]. rewrite Hh, bool_decide_eq_false_2 by set_solver. reflexivity.
  - cbn [k_pt set_kpt procs set_procs set_pt_lk set_locks_held pt_lk locks_held k_ticks]. rewrite !length_alter. split_and!; [done|done|set_solver|done|].
    unfold proc_of, p_at. simpl. rewrite nth_alter_eq by (by rewrite length_alter). simpl. by rewrite nth_alter_eq.
Qed.

Lemma while_asleep_ok i n t0 s s' : asleep_ok i n t0 s -> while_asleep i n t0 s s' -> asleep_ok i n t0 s'.
Proof.
  intros Hok Hw. destruct Hw as [me f s1 s2 Ht|ch s1 s2 Hr Hs|s1 s2 Ht Hl Hlen Hch Hs]; destruct Hok as [Hi Hlk Hst].
  - destruct (tick_spec _ _ _ _ Hlk Ht) as (Et & Ep & Hlk'). constructor; [rewrite Ep; by rewrite length_fmap|done|]. right.
    unfold proc_of, p_at. rewrite Ep. destruct (lookup_lt_is_Some_2 _ _ Hi) as [p Hp].
    assert (Hn : nth i (procs (k_pt s1)) zero_proc = p) by (by apply nth_lookup_Some).
    rewrite (nth_lookup_Some _ _ _ (wake_proc ticks_chan p)) by (by rewrite list_lookup_fmap, Hp). unfold proc_of, p_at in Hst. rewrite Hn in Hst. unfold wake_proc.
    destruct Hst as [(Es & Ec & _)|Es]; rewrite Es; [rewrite Ec, Z.eqb_refl; done|done].
  - destruct (dispatched_round i n t0 s1 Hi Hlk) as (s3 & E3 & Hi3 & Hl3 & Hh3 & _). rewrite E3 in Hs.
    pose proof (sleep_round_spec i n t0 s3 Hi3 Hl3 Hh3) as Hsp. rewrite Hs in Hsp. by destruct Hsp.
  - constructor; [by rewrite Hlen|done|]. rewrite Ht, Hch. destruct Hs as [-> |[Es ->]]; [done|by right].
Qed.
End sleeping.

(** C24: a process in the call sleep(n) is asleep only while fewer than n clock ticks have
    passed since the call (n and the number of ticks as unsigned 32-bit integers): whatever
    else happens, the tick that completes the time has made it runnable.  When it runs, it
    returns 0 only if the time has passed and -1 only if it has been killed; and once the
    time has passed it does return 0. *)
Theorem sys_sleep_in_time {E} `{ProcEnv E} tickslock ticks_chan umem ideintr kbdintr uartintr (i : nat) (n ch : Z) (s s0 s1 : kst E) :
  (i < length (procs (k_pt s)))%nat -> unlocked s -> argint (caller umem s i) 0 = Some n ->
  sys_sleep tickslock ticks_chan umem i s = Sleep ch s0 ->
  rtc (while_asleep tickslock ticks_chan ideintr kbdintr uartintr i n (k_ticks s)) (switched s0) s1 ->
  let gone := u32 (k_ticks s1 - k_ticks s) in
  (state (proc_of s1 i) = SLEEPING -> gone < u32 n) /\
  (forall r s2, sys_sleep_resume tickslock ticks_chan i n (k_ticks s) (dispatched i s1) = Ret r s2 ->
     (r = 0 /\ u32 n <= gone) \/ (r = -1 /\ killed (proc_of s1 i) <> 0)) /\
  (u32 n <= gone -> exists s2, sys_sleep_resume tickslock ticks_chan i n (k_ticks s) (dispatched i s1) = Ret 0 s2).
Proof.
  intros Hi [Hl Hh] Ha Hs Hr gone. assert (H0 : asleep_ok ticks_chan i n (k_ticks s) (switched s0)).
  { unfold sys_sleep, kbind, kget in Hs. rewrite Ha in Hs. unfold pt at 1, kzoom, other_acquire, kbind, kget, kmodify in Hs. rewrite Hh in Hs.
    rewrite bool_decide_eq_false_2 in Hs by set_solver. cbn [k_ticks set_kpt] in Hs.
    match type of Hs with sleep_round _ _ _ _ _ ?x = _ => pose proof (sleep_round_spec tickslock ticks_chan i n (k_ticks s) x) as Hsp end.
    rewrite Hs in Hsp. apply Hsp; [done|done|]. cbn [k_pt set_kpt set_locks_held locks_held]. set_solver. }
  assert (H1 : asleep_ok ticks_chan i n (k_ticks s) s1).
  { clear Hs gone. revert H0. induction Hr as [|x y z Hxy _ IH]; [done|]. intros H0. apply IH. by eapply while_asleep_ok. }
  destruct H1 as [Hi1 Hlk1 Hst1]. destruct (dispatched_round tickslock ticks_chan i n (k_ticks s) s1 Hi1 Hlk1) as (s3 & E3 & Hi3 & Hl3 & Hh3 & Ht3 & Hk3).
  pose proof (sleep_round_spec tickslock ticks_chan i n (k_ticks s) s3 Hi3 Hl3 Hh3) as Hsp. rewrite Ht3, Hk3 in Hsp. rewrite E3. split_and!.
  - intros Es. destruct Hst1 as [(_ & _ & ?)|Er]; [done|congruence].
  - intros r s2 E2. by rewrite E2 in Hsp.
  - intros Hge. unfold sleep_round, kbind, kget. rewrite Ht3. fold gone. rewrite (proj2 (Z.ltb_ge _ _)) by lia.
    unfold pt, kzoom, other_release, kbind, kget. rewrite Hh3, bool_decide_eq_true_2 by set_solver. eexists. reflexivity.
Qed.

(** ** Runs of the trap handler *)

From S2P Require Import ProcInv ProcSys ProcProps.

(** The first process calls sleep(2) at tick 5. *)
Definition x_start : kst tenv := KSt (set_procs (alter (fun p => set_tf (set_esp 100 (tf p)) p) 0%nat (procs r_run)) r_run) 5 0.
Definition x_umem (_ : tenv) (_ : Z) : mem := fun a => if a =? 104 then 2 else 0.
Definition x_user : trapframe := TrapFrame 0 0 0 27 0 0 0 0 [].
Definition x_none : K (kst tenv) unit := kret tt.
Definition x_st {A} (o : outcome (kst tenv) A) : kst tenv := match o with Ret _ s => s | Sleep _ s => s | _ => x_start end.

Definition x_asleep : kst tenv := switched (x_st (sys_sleep 1 2 x_umem 0 x_start)).
Definition x_tick (s : kst tenv) : kst tenv := x_st (trap_switch 1 2 0 x_none x_none x_none None 32 x_user s).
(** One tick, after which the process runs and goes back to sleep, and another tick. *)
Definition x_again : kst tenv := switched (x_st (sys_sleep_resume 1 2 0 2 5 (dispatched 0 (x_tick x_asleep)))).

Lemma x_steps : rtc (while_asleep 1 2 x_none x_none x_none 0 2 5) x_asleep (x_tick x_again).
Proof.
  eapply rtc_l; [|eapply rtc_l; [|apply rtc_once]].
  - apply (wa_tick _ _ _ _ _ _ _ _ None x_user x_asleep (x_tick x_asleep)). vm_compute. reflexivity.
  - apply (wa_run _ _ _ _ _ _ _ _ 0 (x_tick x_asleep) (x_st (sys_sleep_resume 1 2 0 2 5 (dispatched 0 (x_tick x_asleep))))); vm_compute; reflexivity.
  - apply (wa_tick _ _ _ _ _ _ _ _ None x_user x_again (x_tick x_again)). vm_compute. reflexivity.
Qed.

Lemma sys_sleep_in_time_witness :
  k_ticks (x_tick x_again) = 7 /\ exists s2, sys_sleep_resume 1 2 0 2 5 (dispatched 0 (x_tick x_again)) = Ret 0 s2.
Proof.
  split; [vm_compute; reflexivity|].
  destruct (sys_sleep_in_time 1 2 x_umem x_none x_none x_none 0 2 0 x_start (x_st (sys_sleep 1 2 x_umem 0 x_start)) (x_tick x_again)) as (_ & _ & H).
  - vm_compute. lia.
  - split; vm_compute; reflexivity.
  - vm_compute. reflexivity.
  - vm_compute. reflexivity.
  - exact x_steps.
  - apply H. vm_compute. congruence.
Defined.

(** A spurious interrupt returns to the program of a process that is not killed. *)
Lemma killed_never_returns_witness : killed (p_at (k_pt x_start) 0) = 0.
Proof.
  apply (killed_never_returns 1 2 0 x_umem (fun _ => 0) (fun _ => zero_proc) (fun _ _ _ _ => kret 0) (fun _ _ => kret 0) x_none x_none x_none 0 47 x_user x_start x_start).
  - reflexivity.
  - left. vm_compute. reflexivity.
Defined.

(** A killed process does not come back from the same interrupt. *)
Example killed_leaves : exists ch s,
  trap 1 2 0 x_umem (fun _ => 0) (fun _ => zero_proc) (fun _ _ _ _ => kret 0) (fun _ _ => kret 0) x_none x_none x_none (Some 1%nat) 47 x_user
    (KSt (set_procs (alter (set_killed 1) 1%nat (procs r_fork)) r_fork) 5 0) = Sleep ch s /\ state (p_at (k_pt s) 1) = ZOMBIE.
Proof. do 2 eexists. split; [vm_compute; reflexivity|reflexivity]. Qed.

(** sleep(-1) asks for 4294967295 ticks. *)
Example sleep_negative : exists ch s, sleep_round 1 2 0 (-1) 5 (set_kpt (set_locks_held {[1]} (k_pt x_start)) (set_ticks 1000 x_start)) = Sleep ch s.
Proof. do 2 eexists. vm_compute. reflexivity. Qed.
