(* ===== verification/Descr.v ===== *)
(** * Segment and gate descriptors (mmu.h; seginit of vm.c, tvinit and idtinit of trap.c)

    The tables the kernel gives to the processor, field by field, and what the processor
    reads from them. *)

From S2P Require Import Prelude Layout Trap.

(** A value stored into a bit field of [w] bits. *)
Definition bits (w x : Z) : Z := x mod 2 ^ w.

Record segdesc := SegDesc {
  lim_15_0 : Z; base_15_0 : Z; base_23_16 : Z; sd_type : Z; sd_s : Z; sd_dpl : Z; sd_p : Z;
  lim_19_16 : Z; sd_avl : Z; sd_rsv1 : Z; sd_db : Z; sd_g : Z; base_31_24 : Z
}.

Definition STA_X : Z := 0x8.
Definition STA_W : Z := 0x2.
Definition STA_R : Z := 0x2.
Definition STS_IG32 : Z := 0xE.
Definition STS_TG32 : Z := 0xF.

Definition SEG (ty base lim dpl : Z) : segdesc :=
  SegDesc (Z.land (Z.shiftr lim 12) 0xffff) (Z.land (u32 base) 0xffff) (Z.land (Z.shiftr (u32 base) 16) 0xff)
    (bits 4 ty) 1 (bits 2 dpl) 1 (bits 4 (Z.shiftr (u32 lim) 28)) 0 0 1 1 (bits 8 (Z.shiftr (u32 base) 24)).
Definition SEG16 (ty base lim dpl : Z) : segdesc :=
  SegDesc (Z.land lim 0xffff) (Z.land (u32 base) 0xffff) (Z.land (Z.shiftr (u32 base) 16) 0xff)
    (bits 4 ty) 1 (bits 2 dpl) 1 (bits 4 (Z.shiftr (u32 lim) 16)) 0 0 1 0 (bits 8 (Z.shiftr (u32 base) 24)).

Record gatedesc := GateDesc {
  off_15_0 : Z; g_cs : Z; g_args : Z; g_rsv1 : Z; g_type : Z; g_s : Z; g_dpl : Z; g_p : Z; off_31_16 : Z
}.

Definition SETGATE (istrap : bool) (sel off d : Z) : gatedesc :=
  GateDesc (Z.land (u32 off) 0xffff) (bits 16 sel) 0 0 (if istrap then STS_TG32 else STS_IG32) 0 (bits 2 d) 1 (bits 16 (Z.shiftr (u32 off) 16)).

(** seginit: the entries of the CPU's table it sets; entry 0 and the task state keep theirs. *)
Definition seginit (gdt : list segdesc) : list segdesc :=
  <[4%nat := SEG STA_W 0 0xffffffff DPL_USER]>
  (<[3%nat := SEG (Z.lor STA_X STA_R) 0 0xffffffff DPL_USER]>
  (<[2%nat := SEG STA_W 0 0xffffffff 0]>
  (<[1%nat := SEG (Z.lor STA_X STA_R) 0 0xffffffff 0]> gdt))).

(** tvinit, for the entry points of vectors.S. *)
Definition tvinit (vectors : Z -> Z) : list gatedesc :=
  <[Z.to_nat T_SYSCALL := SETGATE true (Z.shiftl SEG_KCODE 3) (vectors T_SYSCALL) DPL_USER]>
  ((fun i => SETGATE false (Z.shiftl SEG_KCODE 3) (vectors i) 0) <$> seqZ 0 256).

(** The operand of lgdt and lidt: limit and address of a table. *)
Definition pseudo_desc (p size : Z) : list Z := [u16 (size - 1); u16 p; u16 (Z.shiftr (u32 p) 16)].
Definition lgdt (p size : Z) : list Z := pseudo_desc p size.
Definition lidt (p size : Z) : list Z := pseudo_desc p size.
(** [lidt(idt, sizeof(idt))]: 256 gates of 8 bytes. *)
Definition idtinit (idt : Z) : list Z := lidt idt 2048.

(** ** What the processor reads *)

Definition seg_base (d : segdesc) : Z := base_15_0 d + base_23_16 d * 2 ^ 16 + base_31_24 d * 2 ^ 24.
Definition seg_limit (d : segdesc) : Z :=
  let l := lim_15_0 d + lim_19_16 d * 2 ^ 16 in if sd_g d =? 1 then l * 4096 + 4095 else l.
Definition gate_offset (g : gatedesc) : Z := off_15_0 g + off_31_16 g * 2 ^ 16.
(** A program at privilege level [cpl] may name the gate in an int instruction. *)
Definition int_allowed (cpl : Z) (g : gatedesc) : bool := cpl <=? g_dpl g.
Definition clears_if (g : gatedesc) : bool := g_type g =? STS_IG32.
Definition table_of (l : list Z) : Z * Z := match l with [lim; a; b] => (a + b * 2 ^ 16, lim + 1) | _ => (0, 0) end.

Lemma land_ones16 x : Z.land x 0xffff = x mod 65536.
Proof. exact (Z.land_ones x 16 ltac:(lia)). Qed.
Lemma land_ones8 x : Z.land x 0xff = x mod 256.
Proof. exact (Z.land_ones x 8 ltac:(lia)). Qed.

Ltac fields := rewrite ?land_ones16, ?land_ones8, ?Z.shiftr_div_pow2 by lia; unfold bits, u32, u16; change (2 ^ 16) with 65536; change (2 ^ 24) with 16777216; change (2 ^ 12) with 4096;
  change (2 ^ 28) with 268435456; change (2 ^ 8) with 256; change (2 ^ 4) with 16; change (2 ^ 2) with 4.

Lemma SEG_read ty base lim dpl : 0 <= ty < 16 -> 0 <= base < 2 ^ 32 -> 0 <= lim < 2 ^ 32 -> 0 <= dpl < 4 ->
  let d := SEG ty base lim dpl in seg_base d = base /\ seg_limit d = lim / 4096 * 4096 + 4095 /\ sd_dpl d = dpl /\ sd_type d = ty.
Proof. intros Ht Hb Hl Hd d. unfold d, SEG, seg_base, seg_limit. cbn [base_15_0 base_23_16 base_31_24 lim_15_0 lim_19_16 sd_g sd_dpl sd_type]. fields. simpl (1 =? 1). cbv iota. split_and!; dlia. Qed.
Lemma SEG16_read ty base lim dpl : 0 <= ty < 16 -> 0 <= base < 2 ^ 32 -> 0 <= lim < 2 ^ 20 -> 0 <= dpl < 4 ->
  let d := SEG16 ty base lim dpl in seg_base d = base /\ seg_limit d = lim /\ sd_dpl d = dpl /\ sd_type d = ty.
Proof. intros Ht Hb Hl Hd d. unfold d, SEG16, seg_base, seg_limit. cbn [base_15_0 base_23_16 base_31_24 lim_15_0 lim_19_16 sd_g sd_dpl sd_type]. fields. simpl (0 =? 1). cbv iota. split_and!; dlia. Qed.
Lemma SETGATE_read istrap sel off d : 0 <= sel < 65536 -> 0 <= off < 2 ^ 32 -> 0 <= d < 4 ->
  let g := SETGATE istrap sel off d in gate_offset g = off /\ g_cs g = sel /\ g_dpl g = d /\ clears_if g = negb istrap.
Proof.
  intros Hs Ho Hd g. unfold g, SETGATE, gate_offset, clears_if. cbn [off_15_0 off_31_16 g_cs g_dpl g_type]. fields.
  split_and!; [dlia|dlia|dlia|by destruct istrap].
Qed.
Lemma pseudo_desc_read p size : 0 <= p < 2 ^ 32 -> 1 <= size <= 65536 -> table_of (pseudo_desc p size) = (p, size).
Proof. intros Hp Hs. unfold table_of, pseudo_desc. fields. f_equal; dlia. Qed.

(** The gates of tvinit: for entry points anywhere in the address space, each of the 256
    vectors enters the kernel's code segment at its entry point. *)
Lemma tvinit_gate vectors i : (forall i, 0 <= vectors i < 2 ^ 32) -> 0 <= i < 256 -> exists g, tvinit vectors !! Z.to_nat i = Some g /\
  g_p g = 1 /\ gate_offset g = vectors i /\ g_cs g = Z.shiftl SEG_KCODE 3 /\ int_allowed 3 g = (i =? T_SYSCALL) /\ clears_if g = negb (i =? T_SYSCALL).
Proof.
  intros Hv Hi. unfold tvinit. destruct (Z.eqb_spec i T_SYSCALL) as [->|Hne].
  - eexists. rewrite list_lookup_insert_eq by (rewrite length_fmap, length_seqZ; unfold T_SYSCALL; lia). split; [done|].
    destruct (SETGATE_read true (Z.shiftl SEG_KCODE 3) (vectors T_SYSCALL) DPL_USER) as (E1 & E2 & E3 & E4); [done|apply Hv|done|].
    split_and!; [done|done|done|unfold int_allowed; by rewrite E3|done].
  - eexists. rewrite list_lookup_insert_ne by (unfold T_SYSCALL in *; lia). rewrite list_lookup_fmap, lookup_seqZ_lt by lia. rewrite Z2Nat.id by lia. simpl. split; [done|].
    destruct (SETGATE_read false (Z.shiftl SEG_KCODE 3) (vectors i) 0) as (E1 & E2 & E3 & E4); [done|apply Hv|done|].
    rewrite Z.add_0_l. split_and!; [done|done|done|unfold int_allowed; by rewrite E3|done].
Qed.

(** The kind of the gates: exceptions and device interrupts clear FL_IF on entry, the system
    call does not. *)
Lemma gate_kinds vectors i : (forall i, 0 <= vectors i < 2 ^ 32) -> 0 <= i < 256 ->
  exists g, tvinit vectors !! Z.to_nat i = Some g /\ clears_if g = negb (i =? T_SYSCALL).
Proof. intros Hv Hi. destruct (tvinit_gate vectors i Hv Hi) as (g & Hg & _ & _ & _ & _ & Hc). by exists g. Qed.

(** C26: entry points and privilege levels of the tables.  After tvinit, for entry points
    anywhere in the address space, each of the 256 vectors has a gate that is present and
    enters the kernel's code segment at its entry point, and a program at user level may raise
    only the system call; idtinit makes the processor use the 256 gates at idt.  After seginit
    the four segments start at 0 and cover all 4 GB, kernel segments are out of reach of
    programs, and only the code segments are executable. *)
Theorem descriptor_tables (vectors : Z -> Z) (gdt : list segdesc) (idt : Z) :
  (forall i, 0 <= vectors i < 2 ^ 32) -> length gdt = 6%nat -> 0 <= idt < 2 ^ 32 ->
  (forall i, 0 <= i < 256 -> exists g, tvinit vectors !! Z.to_nat i = Some g /\
     g_p g = 1 /\ gate_offset g = vectors i /\ g_cs g = Z.shiftl SEG_KCODE 3 /\ int_allowed 3 g = (i =? T_SYSCALL)) /\
  length (tvinit vectors) = 256%nat /\ table_of (idtinit idt) = (idt, 8 * 256) /\
  (forall k, SEG_KCODE <= k <= SEG_UDATA -> exists d, seginit gdt !! Z.to_nat k = Some d /\
     seg_base d = 0 /\ seg_limit d = 2 ^ 32 - 1 /\ sd_dpl d = (if k <? SEG_UCODE then 0 else DPL_USER) /\
     Z.testbit (sd_type d) 3 = ((k =? SEG_KCODE) || (k =? SEG_UCODE))).
Proof.
  intros Hv Hg Hi. split_and!.
  - intros i Hi'. destruct (tvinit_gate vectors i Hv Hi') as (g & ? & ? & ? & ? & ? & _). by exists g.
  - unfold tvinit. by rewrite length_insert, length_fmap, length_seqZ.
  - unfold idtinit, lidt. by apply pseudo_desc_read.
  - intros k Hk. unfold SEG_KCODE, SEG_UDATA in Hk. destruct gdt as [|d0 [|d1 [|d2 [|d3 [|d4 gdt]]]]]; try done.
    assert (k = 1 \/ k = 2 \/ k = 3 \/ k = 4) as [-> | [-> | [-> | ->]]] by lia; (eexists; split; [reflexivity|]; split_and!; reflexivity).
Qed.

Lemma descriptor_tables_witness : exists g, tvinit (fun i => 0x80105000 + 10 * i mod 1000) !! 64%nat = Some g /\ gate_offset g = 0x80105280 /\ int_allowed 3 g = true.
Proof.
  destruct (descriptor_tables (fun i => 0x80105000 + 10 * i mod 1000) (replicate 6 (SegDesc 0 0 0 0 0 0 0 0 0 0 0 0 0)) 0x80114000) as [H _].
  - intros i. pose proof (Z.mod_pos_bound (10 * i) 1000). lia.
  - reflexivity.
  - lia.
  - destruct (H 64) as (g & Hg & _ & Ho & _ & Hi); [lia|]. exists g. split; [exact Hg|]. split; [exact Ho|exact Hi].
Defined.
