(* ===== verification/Mp.v ===== *)
(** * Multiprocessor tables (mp.c, mp.h)

    The search for the tables the firmware leaves in memory and their evaluation.  The
    structures are read from memory at their offsets: physaddr is at 4 and imcrp at 12 of
    struct mp (16 bytes), length at 4, version at 6 and lapicaddr at 36 of struct mpconf
    (44 bytes), apicid at 1 of struct mpproc (20 bytes) and apicno at 1 of struct mpioapic
    (8 bytes). *)

From S2P Require Import Prelude Layout Mem.

Definition MPPROC : Z := 0.
Definition MPBUS : Z := 1.
Definition MPIOAPIC : Z := 2.
Definition MPIOINTR : Z := 3.
Definition MPLINTR : Z := 4.

(** What mpinit sets; [mi_out] is what it writes to the ports. *)
Record mpst := MpSt { mi_cpus : list Z; mi_ncpu : Z; mi_ioapicid : Z; mi_lapic : Z; mi_out : list (Z * Z) }.

(** [memcmp] with a constant. *)
Fixpoint mem_is (m : mem) (p : Z) (l : list Z) : bool :=
  match l with [] => true | c :: l' => (m p =? c) && mem_is m (p + 1) l' end.

Fixpoint sum_loop (m : mem) (addr : Z) (len : nat) : Z :=
  match len with O => 0 | S n => m addr + sum_loop m (addr + 1) n end.
Definition sum (m : mem) (addr len : Z) : Z := u8 (sum_loop m addr (Z.to_nat len)).

(** The loop of mpsearch1 over [k] structures from [p] on. *)
Fixpoint mpsearch1_loop (k : nat) (m : mem) (p : Z) : Z :=
  match k with
  | O => 0
  | S k' => if mem_is m p [95; 77; 80; 95] && (sum m p 16 =? 0) then p else mpsearch1_loop k' m (p + 16)
  end.
Definition mpsearch1 (m : mem) (a len : Z) : Z := mpsearch1_loop (Z.to_nat ((len + 15) / 16)) m (P2V a).

Definition mpsearch (m : mem) : Z :=
  let bda := P2V 0x400 in
  let p := Z.shiftl (Z.lor (Z.shiftl (m (bda + 0x0F)) 8) (m (bda + 0x0E))) 4 in
  let mp := if negb (p =? 0) then mpsearch1 m p 1024
            else mpsearch1 m (u32 (Z.lor (Z.shiftl (m (bda + 0x14)) 8) (m (bda + 0x13)) * 1024 - 1024)) 1024 in
  if negb (mp =? 0) then mp else mpsearch1 m 0xF0000 0x10000.

(** ushort *)
Definition load16 (m : mem) (a : Z) : Z := m a + 256 * m (a + 1).

(** mpconfig: the two structures. *)
Definition mpconfig (m : mem) : option (Z * Z) :=
  let mp := mpsearch m in
  if (mp =? 0) || (load32 m (mp + 4) =? 0) then None else
  let conf := P2V (load32 m (mp + 4)) in
  if negb (mem_is m conf [80; 67; 77; 80]) then None else
  if negb (m (conf + 6) =? 1) && negb (m (conf + 6) =? 4) then None else
  if negb (sum m conf (load16 m (conf + 4)) =? 0) then None else
  Some (mp, conf).

Definition add_cpu (id : Z) (s : mpst) : mpst :=
  if mi_ncpu s <? NCPU then MpSt (<[Z.to_nat (mi_ncpu s) := id]> (mi_cpus s)) (mi_ncpu s + 1) (mi_ioapicid s) (mi_lapic s) (mi_out s) else s.
Definition set_ioapicid (id : Z) (s : mpst) : mpst := MpSt (mi_cpus s) (mi_ncpu s) id (mi_lapic s) (mi_out s).

(** The loop over the entries; the break of the default case leaves the switch, not the
    loop, and does not move p. *)
Fixpoint mpinit_loop (fuel : nat) (m : mem) (p e : Z) (ismp : bool) : K mpst bool :=
  match fuel with
  | O => knofuel
  | S fuel' =>
      if p <? e then
        if m p =? MPPROC then kmodify (add_cpu (m (p + 1))) ;; mpinit_loop fuel' m (p + 20) e ismp
        else if m p =? MPIOAPIC then kmodify (set_ioapicid (m (p + 1))) ;; mpinit_loop fuel' m (p + 8) e ismp
        else if (m p =? MPBUS) || (m p =? MPIOINTR) || (m p =? MPLINTR) then mpinit_loop fuel' m (p + 8) e ismp
        else mpinit_loop fuel' m p e false
      else kret ismp
  end.

(** [imcr] is what inb(0x23) reads. *)
Definition mpinit (fuel : nat) (m : mem) (imcr : Z) : K mpst unit :=
  match mpconfig m with
  | None => kpanic "Expect to run on an SMP"
  | Some (mp, conf) =>
      kmodify (fun s => MpSt (mi_cpus s) (mi_ncpu s) (mi_ioapicid s) (load32 m (conf + 36)) (mi_out s)) ;;
      let! ismp := mpinit_loop fuel m (conf + 44) (conf + load16 m (conf + 4)) true in
      if negb ismp then kpanic "Didn't find a suitable machine" else
      if negb (m (mp + 12) =? 0) then
        kmodify (fun s => MpSt (mi_cpus s) (mi_ncpu s) (mi_ioapicid s) (mi_lapic s) (mi_out s ++ [(0x22, 0x70); (0x23, Z.lor imcr 1)]))
      else kret tt
  end.

(** ** The entries of a table *)

Inductive entry := EProc (apicid : Z) (rest : list Z) | EIoapic (apicno : Z) (rest : list Z) | EOther (type : Z) (rest : list Z).
Definition entry_bytes (e : entry) : list Z :=
  match e with EProc id r => MPPROC :: id :: r | EIoapic id r => MPIOAPIC :: id :: r | EOther t r => t :: r end.
Definition entry_ok (e : entry) : Prop :=
  match e with
  | EProc _ r => length r = 18%nat
  | EIoapic _ r => length r = 6%nat
  | EOther t r => (t = MPBUS \/ t = MPIOINTR \/ t = MPLINTR) /\ length r = 7%nat
  end.
Definition table (l : list entry) : list Z := l ≫= entry_bytes.

Definition bytes_in (m : mem) (a : Z) (l : list Z) : Prop := forall i x, l !! i = Some x -> m (a + Z.of_nat i) = x.

Lemma bytes_in_app m a l l' : bytes_in m a (l ++ l') -> bytes_in m a l /\ bytes_in m (a + Z.of_nat (length l)) l'.
Proof.
  intros H. split; intros i x Hi.
  - apply H. by apply lookup_app_l_Some.
  - rewrite <- Z.add_assoc, <- Nat2Z.inj_add. apply H. rewrite lookup_app_r by lia. rewrite <- Hi. f_equal. lia.
Qed.
Lemma bytes_in_head m a x l : bytes_in m a (x :: l) -> m a = x.
Proof. intros H. rewrite <- (H 0%nat x eq_refl). f_equal. lia. Qed.
Lemma bytes_in_second m a x y l : bytes_in m a (x :: y :: l) -> m (a + 1) = y.
Proof. intros H. exact (H 1%nat y eq_refl). Qed.

(** What the entries say. *)
Definition proc_ids (l : list entry) : list Z := omap (fun e => match e with EProc id _ => Some id | _ => None end) l.
Definition ioapic_id (old : Z) (l : list entry) : Z := foldl (fun o e => match e with EIoapic id _ => id | _ => o end) old l.
Definition apply_entries (l : list entry) (s : mpst) : mpst :=
  foldl (fun s e => match e with EProc id _ => add_cpu id s | EIoapic id _ => set_ioapicid id s | EOther _ _ => s end) s l.

Lemma mpinit_loop_entries l : forall fuel m p e ismp s rest, Forall entry_ok l -> bytes_in m p (table l ++ rest) -> p + Z.of_nat (length (table l)) <= e -> (length l < fuel)%nat ->
  exists fuel', (fuel' = fuel - length l)%nat /\ mpinit_loop fuel m p e ismp s = mpinit_loop fuel' m (p + Z.of_nat (length (table l))) e ismp (apply_entries l s).
Proof.
  induction l as [|en l IH]; intros fuel m p e ismp s rest Hok Hb He Hf.
  - exists fuel. split; [simpl; lia|]. simpl. by rewrite Z.add_0_r.
  - apply Forall_cons in Hok as [Hen Hok]. destruct fuel as [|fuel]; [simpl in Hf; lia|]. simpl in Hf.
    change (table (en :: l)) with (entry_bytes en ++ table l) in *. rewrite <- app_assoc in Hb. destruct (bytes_in_app _ _ _ _ Hb) as [Hb1 Hb2].
    rewrite length_app in He |- *.
    assert (Hlen : (0 < length (entry_bytes en))%nat) by (destruct en; simpl; lia).
    assert (Hp : p < e) by lia.
    assert (E : mpinit_loop (S fuel) m p e ismp s = mpinit_loop fuel m (p + Z.of_nat (length (entry_bytes en))) e ismp (apply_entries [en] s)).
    { cbn [mpinit_loop]. rewrite (proj2 (Z.ltb_lt _ _) Hp). destruct en as [id r|id r|t r]; simpl in Hen.
      - rewrite (bytes_in_head _ _ _ _ Hb1), (bytes_in_second _ _ _ _ _ Hb1). simpl. rewrite Hen. done.
      - rewrite (bytes_in_head _ _ _ _ Hb1), (bytes_in_second _ _ _ _ _ Hb1). simpl. rewrite Hen. done.
      - destruct Hen as [Ht Hr]. rewrite (bytes_in_head _ _ _ _ Hb1). simpl. rewrite Hr. destruct Ht as [-> |[-> | ->]]; done. }
    rewrite E. destruct (IH fuel m (p + Z.of_nat (length (entry_bytes en))) e ismp (apply_entries [en] s) rest Hok Hb2) as (fuel' & -> & E'); [lia|lia|].
    exists (fuel - length l)%nat. split; [simpl; lia|]. rewrite E'. f_equal. lia.
Qed.

(** An unknown entry stops the loop for good. *)
Lemma mpinit_loop_unknown fuel : forall m p e ismp s, p < e -> 4 < m p -> mpinit_loop fuel m p e ismp s = NoFuel.
Proof.
  induction fuel as [|fuel IH]; intros m p e ismp s Hp Hm; [done|]. cbn [mpinit_loop]. rewrite (proj2 (Z.ltb_lt _ _) Hp).
  unfold MPPROC, MPIOAPIC, MPBUS, MPIOINTR, MPLINTR. rewrite !(proj2 (Z.eqb_neq _ _)) by lia. simpl. by apply IH.
Qed.

(** ** What mpinit finds *)

Record cpus_ok (ids : list Z) (s : mpst) : Prop := {
  ck_len : length (mi_cpus s) = Z.to_nat NCPU;
  ck_n : mi_ncpu s = Z.min NCPU (Z.of_nat (length ids));
  ck_ids : take (Z.to_nat (mi_ncpu s)) (mi_cpus s) = take (Z.to_nat NCPU) ids
}.

Lemma add_cpu_ok ids id s : cpus_ok ids s -> cpus_ok (ids ++ [id]) (add_cpu id s).
Proof.
  intros [A B C]. unfold add_cpu, NCPU in *. destruct (Z.ltb_spec (mi_ncpu s) 8) as [Hlt|Hge].
  - assert (En : mi_ncpu s = Z.of_nat (length ids)) by lia. constructor; simpl.
    + by rewrite length_insert.
    + rewrite length_app. cbn [length]. unfold NCPU. lia.
    + rewrite En, Nat2Z.id in *. unfold NCPU in *. rewrite (take_ge (ids ++ [id])) by (rewrite length_app; simpl; lia). rewrite (take_ge ids) in C by lia.
      replace (Z.to_nat (Z.of_nat (length ids) + 1)) with (S (length ids)) by lia.
      rewrite (take_S_r _ _ id) by (apply list_lookup_insert_eq; lia). rewrite take_insert_ge by lia. by rewrite C.
  - constructor; [done|rewrite length_app; cbn [length]; unfold NCPU in *; lia|]. unfold NCPU in *. rewrite take_app_le by lia. done.
Qed.
Lemma apply_entries_ok l : forall ids s, cpus_ok ids s -> cpus_ok (ids ++ proc_ids l) (apply_entries l s).
Proof.
  induction l as [|e l IH]; intros ids s Hs; [by rewrite app_nil_r|]. destruct e as [id r|id r|t r]; simpl.
  - change (id :: proc_ids l) with ([id] ++ proc_ids l). rewrite app_assoc. apply IH. by apply add_cpu_ok.
  - apply IH. by destruct Hs.
  - by apply IH.
Qed.
Lemma apply_entries_rest l : forall s, mi_ioapicid (apply_entries l s) = ioapic_id (mi_ioapicid s) l /\ mi_lapic (apply_entries l s) = mi_lapic s /\ mi_out (apply_entries l s) = mi_out s.
Proof.
  induction l as [|e l IH]; intros s; [done|]. simpl. destruct e as [id r|id r|t r]; [|destruct (IH (set_ioapicid id s)) as (-> & -> & ->); done|apply IH].
  destruct (IH (add_cpu id s)) as (-> & -> & ->). unfold add_cpu. by destruct (_ <? _).
Qed.

Definition mp_fresh : mpst := MpSt (replicate (Z.to_nat NCPU) 0) 0 0 0 [].

(** When the firmware's tables pass the checks of mpconfig, mpinit enters exactly the
    processors of the table, in its order, up to NCPU, with their APIC ids, the last I/O APIC
    and the address of the local APIC.  An entry of a type it does not know, which is meant
    to make it panic, makes it loop for ever instead: it never returns, after however many
    steps. *)
Theorem mpinit_reads_table (m : mem) (mp conf imcr : Z) (l : list entry) (rest : list Z) :
  mpconfig m = Some (mp, conf) -> Forall entry_ok l -> bytes_in m (conf + 44) (table l ++ rest) ->
  load16 m (conf + 4) = 44 + Z.of_nat (length (table l)) + Z.of_nat (length rest) ->
  forall fuel, (length l < fuel)%nat ->
  match rest with
  | [] => exists s, mpinit fuel m imcr mp_fresh = Ret tt s /\ mi_ncpu s = Z.min NCPU (Z.of_nat (length (proc_ids l))) /\
      take (Z.to_nat (mi_ncpu s)) (mi_cpus s) = take (Z.to_nat NCPU) (proc_ids l) /\ mi_ioapicid s = ioapic_id 0 l /\ mi_lapic s = load32 m (conf + 36)
  | t :: _ => 4 < t -> mpinit fuel m imcr mp_fresh = NoFuel
  end.
Proof.
  intros Hc Hok Hb Hlen fuel Hf. unfold mpinit. rewrite Hc. set (s0 := MpSt (replicate (Z.to_nat NCPU) 0) 0 0 (load32 m (conf + 36)) []).
  unfold kbind, kmodify. cbn [mi_cpus mi_ncpu mi_ioapicid mi_out mp_fresh]. fold s0.
  destruct (mpinit_loop_entries l fuel m (conf + 44) (conf + load16 m (conf + 4)) true s0 rest Hok Hb) as (fuel' & Ef & E); [lia|done|]. rewrite E.
  destruct fuel' as [|fuel']; [lia|]. destruct rest as [|t rest].
  - cbn [mpinit_loop]. rewrite (proj2 (Z.ltb_ge _ _)) by (simpl in Hlen; lia). unfold kret. cbn [negb].
    assert (H0 : cpus_ok [] s0) by (by constructor). destruct (apply_entries_ok l [] s0 H0) as [A B C]. destruct (apply_entries_rest l s0) as (Hi & Hl & _).
    destruct (negb (m (mp + 12) =? 0)); eexists; (split; [reflexivity|]); simpl; split_and!; done.
  - intros Ht. destruct (bytes_in_app _ _ _ _ Hb) as [_ Hr]. rewrite mpinit_loop_unknown; [done|simpl in Hlen; lia|]. by rewrite (bytes_in_head _ _ _ _ Hr).
Qed.

(** The search takes the first structure with the signature and a zero checksum. *)
Lemma mpsearch1_first k : forall m p, 0 < p ->
  let r := mpsearch1_loop k m p in
  let good q := mem_is m q [95; 77; 80; 95] && (sum m q 16 =? 0) = true in
  (r = 0 /\ forall j, (j < k)%nat -> ~ good (p + 16 * Z.of_nat j)) \/
  (exists j, (j < k)%nat /\ r = p + 16 * Z.of_nat j /\ good r /\ forall i, (i < j)%nat -> ~ good (p + 16 * Z.of_nat i)).
Proof.
  induction k as [|k IH]; intros m p Hp; cbn zeta; [left; split; [done|lia]|]. cbn [mpsearch1_loop].
  destruct (mem_is m p [95; 77; 80; 95] && (sum m p 16 =? 0)) eqn:E.
  - right. exists 0%nat. split; [lia|]. split; [lia|]. split; [done|lia].
  - destruct (IH m (p + 16) ltac:(lia)) as [[-> Hn]|(j & Hj & -> & Hg & Hn)].
    + left. split; [done|]. intros [|i] Hi; [rewrite Z.mul_0_r, Z.add_0_r; congruence|].
      replace (p + 16 * Z.of_nat (S i)) with (p + 16 + 16 * Z.of_nat i) by lia. apply Hn. lia.
    + right. exists (S j). split; [lia|]. split; [lia|]. split; [done|]. intros [|i] Hi; [rewrite Z.mul_0_r, Z.add_0_r; congruence|].
      replace (p + 16 * Z.of_nat (S i)) with (p + 16 + 16 * Z.of_nat i) by lia. apply Hn. lia.
Qed.

(** One processor and one I/O APIC. *)
Definition ex_mp : list Z := [95; 77; 80; 95; 64; 252; 9; 0; 1; 4; 91; 0; 0; 0; 0; 0].
Definition ex_conf : list Z := [80; 67; 77; 80; 72; 0; 4; 154; 0; 0; 0; 0; 0; 0; 0; 0; 0; 0; 0; 0; 0; 0; 0; 0; 0; 0; 0; 0; 0; 0; 0; 0; 0; 0; 2; 0; 0; 0; 224; 254; 0; 0; 0; 0].
Definition ex_entries : list entry := [EProc 3 (replicate 18 0); EIoapic 5 (replicate 6 0)].
Definition ex_mem : mem := fun a =>
  let p := a - KERNBASE in
  if p =? 0x40E then 0xC0 else if p =? 0x40F then 0x9F
  else if (0x9FC00 <=? p) && (p <? 0x9FC10) then nth (Z.to_nat (p - 0x9FC00)) ex_mp 0
  else if (0x9FC40 <=? p) && (p <? 0x9FC88) then nth (Z.to_nat (p - 0x9FC40)) (ex_conf ++ table ex_entries) 0
  else 0.

Lemma mpinit_reads_table_witness : exists s, mpinit 3 ex_mem 0 mp_fresh = Ret tt s /\ mi_ncpu s = 1 /\ take 1 (mi_cpus s) = [3] /\ mi_ioapicid s = 5.
Proof.
  assert (Hb : forallb (fun i => ex_mem (P2V 0x9FC40 + 44 + Z.of_nat i) =? nth i (table ex_entries) 0) (seq 0 28) = true) by (vm_compute; reflexivity).
  destruct (mpinit_reads_table ex_mem (P2V 0x9FC00) (P2V 0x9FC40) 0 ex_entries []) with (fuel := 3%nat) as (s & E & Hn & Hi & Hio & _).
  - vm_compute. reflexivity.
  - by repeat constructor.
  - rewrite app_nil_r. intros i x Hx. assert (Hl : (i < 28)%nat) by (by apply lookup_lt_Some in Hx). rewrite forallb_forall in Hb.
    specialize (Hb i ltac:(apply in_seq; lia)). apply Z.eqb_eq in Hb. rewrite Hb. by apply nth_lookup_Some.
  - vm_compute. reflexivity.
  - simpl. lia.
  - exists s. split; [exact E|]. rewrite Hn in Hi. split; [exact Hn|]. split; [exact Hi|exact Hio].
Defined.
