(* ===== verification/Kbd.v ===== *)
(** * The keyboard (kbd.c, kbd.h)

    The tables of the key codes, and kbdgetc as a function of the controller's status and
    data, with its static variable [shift]; what a sequence of key codes gives to consoleintr. *)

From S2P Require Import Prelude Console.

Definition NO : Z := 0.
Definition SHIFT : Z := 1.
Definition CTL : Z := 2.
Definition ALT : Z := 4.
Definition CAPSLOCK : Z := 8.
Definition NUMLOCK : Z := 16.
Definition SCROLLLOCK : Z := 32.
Definition E0ESC : Z := 64.
Definition KBS_DIB : Z := 1.

(** A table of 256 bytes: the first entries, and entries by their index. *)
Definition byte_table (l : list Z) (at_ : list (nat * Z)) : list Z :=
  foldl (fun t iv => <[iv.1 := iv.2]> t) (l ++ replicate (256 - length l) NO) at_.

Definition shiftcode : list Z := byte_table [] [(0x1D, CTL); (0x2A, SHIFT); (0x36, SHIFT); (0x38, ALT); (0x9D, CTL); (0xB8, ALT)]%nat.
Definition togglecode : list Z := byte_table [] [(0x3A, CAPSLOCK); (0x45, NUMLOCK); (0x46, SCROLLLOCK)]%nat.

(** KEY_UP, KEY_DN, KEY_PGUP, KEY_PGDN, KEY_LF, KEY_RT, KEY_HOME, KEY_END, KEY_INS and KEY_DEL. *)
Definition key_codes : list (nat * Z) :=
  [(0xC8%nat, 0xE2); (0xD0%nat, 0xE3); (0xC9%nat, 0xE6); (0xD1%nat, 0xE7); (0xCB%nat, 0xE4); (0xCD%nat, 0xE5); (0x97%nat, 0xE0); (0xCF%nat, 0xE1);
   (0xD2%nat, 0xE8); (0xD3%nat, 0xE9)].
(** Enter and / of the key pad first. *)
Definition normalmap : list Z := byte_table
  [0; 27; 49; 50; 51; 52; 53; 54;
   55; 56; 57; 48; 45; 61; 8; 9;
   113; 119; 101; 114; 116; 121; 117; 105;
   111; 112; 91; 93; 10; 0; 97; 115;
   100; 102; 103; 104; 106; 107; 108; 59;
   39; 96; 0; 92; 122; 120; 99; 118;
   98; 110; 109; 44; 46; 47; 0; 42;
   0; 32; 0; 0; 0; 0; 0; 0;
   0; 0; 0; 0; 0; 0; 0; 55;
   56; 57; 45; 52; 53; 54; 43; 49;
   50; 51; 48; 46; 0; 0; 0; 0]
  ((0x9C%nat, 10) :: (0xB5%nat, 47) :: key_codes).
Definition shiftmap : list Z := byte_table
  [0; 27; 33; 64; 35; 36; 37; 94;
   38; 42; 40; 41; 95; 43; 8; 9;
   81; 87; 69; 82; 84; 89; 85; 73;
   79; 80; 123; 125; 10; 0; 65; 83;
   68; 70; 71; 72; 74; 75; 76; 58;
   34; 126; 0; 124; 90; 88; 67; 86;
   66; 78; 77; 60; 62; 63; 0; 42;
   0; 32; 0; 0; 0; 0; 0; 0;
   0; 0; 0; 0; 0; 0; 0; 55;
   56; 57; 45; 52; 53; 54; 43; 49;
   50; 51; 48; 46; 0; 0; 0; 0]
  ((0x9C%nat, 10) :: (0xB5%nat, 47) :: key_codes).
Definition ctlmap : list Z := byte_table
  [0; 0; 0; 0; 0; 0; 0; 0;
   0; 0; 0; 0; 0; 0; 0; 0;
   17; 23; 5; 18; 20; 25; 21; 9;
   15; 16; 0; 0; 13; 0; 1; 19;
   4; 6; 7; 8; 10; 11; 12; 0;
   0; 0; 0; 28; 26; 24; 3; 22;
   2; 14; 13; 0; 0; 239; 0; 0]
  ((0x9C%nat, 13) :: (0xB5%nat, 239) :: key_codes).

Definition tab (t : list Z) (i : Z) : Z := nth (Z.to_nat i) t 0.
Definition charcode (i : Z) : list Z := if i =? 0 then normalmap else if i =? 1 then shiftmap else ctlmap.

(** kbdgetc: the result and the new [shift]. *)
Definition kbdgetc (st data shift : Z) : Z * Z :=
  if Z.land st KBS_DIB =? 0 then (-1, shift)
  else if data =? 0xE0 then (0, Z.lor shift E0ESC)
  else if truth (Z.land data 0x80) then
    let data := if truth (Z.land shift E0ESC) then data else Z.land data 0x7F in
    (0, Z.land shift (Z.lnot (Z.lor (tab shiftcode data) E0ESC)))
  else
    let '(data, shift) := if truth (Z.land shift E0ESC) then (Z.lor data 0x80, Z.land shift (Z.lnot E0ESC)) else (data, shift) in
    let shift := Z.lor shift (tab shiftcode data) in
    let shift := Z.lxor shift (tab togglecode data) in
    let c := tab (charcode (Z.land shift (Z.lor CTL SHIFT))) data in
    let c := if truth (Z.land shift CAPSLOCK) then
               if (97 <=? c) && (c <=? 122) then c + (65 - 97)
               else if (65 <=? c) && (c <=? 90) then c + (97 - 65) else c
             else c in
    (c, shift).

(** The characters kbdintr hands to consoleintr while the controller has the bytes [data]. *)
Fixpoint kbd_keys (data : list Z) (shift : Z) : list Z * Z :=
  match data with
  | [] => ([], shift)
  | d :: data' =>
      let '(c, shift1) := kbdgetc KBS_DIB d shift in
      let '(cs, shift2) := kbd_keys data' shift1 in
      (c :: cs, shift2)
  end.
Definition kbdintr (data : list Z) (shift : Z) : K console (bool * Z) :=
  let '(cs, shift') := kbd_keys data shift in
  let! d := consoleintr cs in
  kret (d, shift').

(** ** Ranges *)

Lemma tab_range t lo hi i : lo <= 0 < hi -> Forall (fun x => lo <= x < hi) t -> lo <= tab t i < hi.
Proof.
  intros H0 Ht. unfold tab. destruct (t !! Z.to_nat i) as [x|] eqn:E.
  - rewrite (nth_lookup_Some _ _ _ _ E). by apply (proj1 (Forall_lookup _ _) Ht (Z.to_nat i)).
  - rewrite nth_overflow by (by apply lookup_ge_None). lia.
Qed.
Definition in_range (lo hi : Z) (t : list Z) : bool := forallb (fun x => (lo <=? x) && (x <? hi)) t.
Lemma in_range_Forall lo hi t : in_range lo hi t = true -> Forall (fun x => lo <= x < hi) t.
Proof. intros H. apply List.Forall_forall. intros x Hx. unfold in_range in H. rewrite forallb_forall in H. specialize (H x Hx). lia. Qed.

Lemma shiftcode_range i : 0 <= tab shiftcode i < 64.
Proof. apply tab_range; [lia|]. apply in_range_Forall. vm_compute. reflexivity. Qed.
Lemma togglecode_range i : 0 <= tab togglecode i < 64.
Proof. apply tab_range; [lia|]. apply in_range_Forall. vm_compute. reflexivity. Qed.
Lemma charcode_range k i : 0 <= tab (charcode k) i < 256.
Proof. unfold charcode. destruct (k =? 0); [|destruct (k =? 1)]; (apply tab_range; [lia|]; apply in_range_Forall; vm_compute; reflexivity). Qed.

(** [n] bits, as a mask. *)
Lemma fits_iff n x : 0 <= n -> 0 <= x < 2 ^ n <-> Z.land x (Z.ones n) = x.
Proof.
  intros Hn. rewrite Z.land_ones by lia. pose proof (Z.pow_pos_nonneg 2 n ltac:(lia) Hn). split; intros E; [by apply Z.mod_small|].
  rewrite <- E. apply Z.mod_pos_bound. lia.
Qed.
Lemma land_fits n a b : 0 <= n -> 0 <= a < 2 ^ n -> 0 <= Z.land a b < 2 ^ n.
Proof. intros Hn Ha%fits_iff; [|done]. apply fits_iff; [done|]. rewrite <- Z.land_assoc, (Z.land_comm b), Z.land_assoc. by rewrite Ha. Qed.
Lemma lor_fits n a b : 0 <= n -> 0 <= a < 2 ^ n -> 0 <= b < 2 ^ n -> 0 <= Z.lor a b < 2 ^ n.
Proof. intros Hn Ha%fits_iff Hb%fits_iff; [|done..]. apply fits_iff; [done|]. rewrite Z.land_lor_distr_l. by rewrite Ha, Hb. Qed.
Lemma lxor_fits n a b : 0 <= n -> 0 <= a < 2 ^ n -> 0 <= b < 2 ^ n -> 0 <= Z.lxor a b < 2 ^ n.
Proof.
  intros Hn Ha%fits_iff Hb%fits_iff; [|done..]. apply fits_iff; [done|]. rewrite <- Ha at 2. rewrite <- Hb at 2. apply Z.bits_inj'. intros k Hk.
  rewrite !Z.land_spec, !Z.lxor_spec, !Z.land_spec. by destruct (Z.testbit a k), (Z.testbit b k), (Z.testbit (Z.ones n) k).
Qed.

Lemma kbdgetc_range st data shift : 0 <= shift < 2 ^ 7 -> -1 <= (kbdgetc st data shift).1 < 256 /\ 0 <= (kbdgetc st data shift).2 < 2 ^ 7.
Proof.
  intros Hs. assert (Hn : 0 <= 7) by lia. unfold kbdgetc. destruct (_ =? 0); [done|]. destruct (data =? 0xE0); [split; [done|]; by apply lor_fits|].
  destruct (truth (Z.land data 0x80)); [split; [done|]; by apply land_fits|].
  set (ds := if truth (Z.land shift E0ESC) then _ else _). assert (Hd : 0 <= ds.2 < 2 ^ 7) by (unfold ds; destruct (truth _); [by apply land_fits|done]).
  destruct ds as [d sh]. cbn [snd] in Hd. pose proof (shiftcode_range d). pose proof (togglecode_range d).
  assert (H1 : 0 <= Z.lxor (Z.lor sh (tab shiftcode d)) (tab togglecode d) < 2 ^ 7) by (apply lxor_fits; [done|apply lor_fits; [done|done|]|]; change (2 ^ 7) with 128; lia).
  set (sh' := Z.lxor _ _) in *. cbn zeta. cbn [fst snd]. split; [|done]. pose proof (charcode_range (Z.land sh' (Z.lor CTL SHIFT)) d) as Hc.
  set (c := tab (charcode _) d) in *. clearbody c. destruct (truth (Z.land sh' CAPSLOCK)); [|lia]. destruct ((97 <=? c) && (c <=? 122)) eqn:E1; [lia|]. destruct ((65 <=? c) && (c <=? 90)) eqn:E2; lia.
Qed.

(** ** Typing *)

(** The keys for a character: one alone, or with the left shift key. *)
Definition type_char (c : Z) : list Z :=
  match list_find (fun x => x = c) (take 88 normalmap) with
  | Some (i, _) => [Z.of_nat i; Z.of_nat i + 128]
  | None =>
      match list_find (fun x => x = c) (take 88 shiftmap) with
      | Some (i, _) => [0x2A; Z.of_nat i; Z.of_nat i + 128; 0xAA]
      | None => []
      end
  end.
Definition type_text (l : list Z) : list Z := l ≫= type_char.
Definition typeable (c : Z) : Prop := 32 <= c <= 126 \/ c = 10.

Lemma kbd_keys_app l l' sh : kbd_keys (l ++ l') sh = let '(a, s1) := kbd_keys l sh in let '(b, s2) := kbd_keys l' s1 in (a ++ b, s2).
Proof.
  revert sh. induction l as [|d l IH]; intros sh; simpl; [by destruct (kbd_keys l' sh)|]. destruct (kbdgetc KBS_DIB d sh) as [c s1].
  rewrite IH. destruct (kbd_keys l s1) as [a s2]. by destruct (kbd_keys l' s2).
Qed.
Definition chars (l : list Z) : list Z := filter (fun c => c <> 0) l.

Lemma type_char_keys c : typeable c -> chars (kbd_keys (type_char c) 0).1 = [c] /\ (kbd_keys (type_char c) 0).2 = 0.
Proof.
  intros Hc. assert (H : forallb (fun c => bool_decide (chars (kbd_keys (type_char c) 0).1 = [c]) && ((kbd_keys (type_char c) 0).2 =? 0)) (10 :: seqZ 32 95) = true)
    by (vm_compute; reflexivity).
  rewrite forallb_forall in H. assert (Hin : List.In c (10 :: seqZ 32 95)).
  { destruct Hc as [Hc| ->]; [|by left]. right. apply list_elem_of_In, elem_of_seqZ. lia. }
  specialize (H c Hin). apply andb_prop in H as [H1 H2]. apply bool_decide_eq_true in H1. split; [done|lia].
Qed.
Lemma type_text_keys l : Forall typeable l -> chars (kbd_keys (type_text l) 0).1 = l /\ (kbd_keys (type_text l) 0).2 = 0.
Proof.
  induction 1 as [|c l Hc _ IH]; [done|]. change (type_text (c :: l)) with (type_char c ++ type_text l). rewrite kbd_keys_app.
  destruct (type_char_keys c Hc) as [H1 H2], IH as [H3 H4]. destruct (kbd_keys (type_char c) 0) as [a s1]. simpl in H1, H2. subst s1.
  destruct (kbd_keys (type_text l) 0) as [b s2]. simpl in *. split; [|done]. unfold chars in *. by rewrite filter_app, H1, H3.
Qed.

(** The interrupts that bring the bytes in pieces. *)
Fixpoint kbd_events (pieces : list (list Z)) (shift : Z) : list cevent :=
  match pieces with [] => [] | d :: ps => EKeys (kbd_keys d shift).1 :: kbd_events ps (kbd_keys d shift).2 end.

Lemma kbd_keys_range l : forall sh, 0 <= sh < 2 ^ 7 -> Forall (fun c => 0 <= c < 256) (kbd_keys l sh).1 /\ 0 <= (kbd_keys l sh).2 < 2 ^ 7.
Proof.
  induction l as [|d l IH]; intros sh Hs; [done|]. simpl. pose proof (kbdgetc_range KBS_DIB d sh Hs) as [H1 H2].
  assert (H0 : (kbdgetc KBS_DIB d sh).1 <> -1).
  { unfold kbdgetc. change (Z.land KBS_DIB KBS_DIB =? 0) with false. cbv iota. destruct (d =? 0xE0); [done|]. destruct (truth (Z.land d 0x80)); [done|].
    destruct (if truth (Z.land sh E0ESC) then _ else _) as [d' sh']. cbn zeta. cbn [fst]. pose proof (charcode_range (Z.land (Z.lxor (Z.lor sh' (tab shiftcode d')) (tab togglecode d')) (Z.lor CTL SHIFT)) d').
    repeat case_match; lia. }
  destruct (kbdgetc KBS_DIB d sh) as [c s1]. cbn [fst snd] in *. destruct (IH s1 H2) as [H3 H4]. destruct (kbd_keys l s1) as [cs s2]. cbn [fst snd] in *.
  split; [constructor; [lia|done]|done].
Qed.

Lemma akey_zero a : akey 0 a = a.
Proof. by destruct a. Qed.
Lemma foldl_chars l : forall a, foldl (fun a c => akey c a) a l = foldl (fun a c => akey c a) a (chars l).
Proof.
  induction l as [|c l IH]; intros a; [done|]. unfold chars. simpl. destruct (decide (c = 0)) as [->|Hc].
  - rewrite filter_cons_False by auto. rewrite akey_zero. apply IH.
  - rewrite filter_cons_True by done. simpl. apply IH.
Qed.
Lemma run_lines_pieces pieces : forall sh evs a,
  run_lines (kbd_events pieces sh ++ evs) a = run_lines evs (foldl (fun a c => akey c a) a (kbd_keys (mjoin pieces) sh).1).
Proof.
  induction pieces as [|d ps IH]; intros sh evs a; [done|]. simpl. rewrite IH, kbd_keys_app. destruct (kbd_keys d sh) as [cs s1]. simpl.
  destruct (kbd_keys (mjoin ps) s1) as [cs' s2]. simpl. by rewrite foldl_app.
Qed.
Lemma akey_plain w : forall ed, Forall (fun c => 32 <= c <= 126) w -> (length ed + length w < 128)%nat -> foldl (fun a c => akey c a) ([], ed) w = ([], ed ++ w).
Proof.
  induction w as [|c w IH]; intros ed Hw Hl; [by rewrite app_nil_r|]. apply Forall_cons in Hw as [Hc Hw]. simpl in Hl. cbn [foldl].
  assert (E : akey c ([], ed) = ([], ed ++ [c])).
  { unfold akey, ctl_P, ctl_U, ctl_H, ctl_D, del, cr, nl, C_, INPUT_BUF. rewrite !(proj2 (Z.eqb_neq c _)) by lia. cbn [orb negb andb].
    rewrite (proj2 (Z.ltb_lt _ _)) by (simpl; lia). rewrite (proj2 (Z.eqb_neq _ _)) by (rewrite length_app; simpl; lia). done. }
  rewrite E, IH; [by rewrite <- app_assoc|done|]. rewrite length_app. simpl. lia.
Qed.
Lemma aread_line k w : forall got n, Forall (fun c => 32 <= c <= 126) w -> (length w < n)%nat -> aread k got n (w ++ [10]) = (CBytes (got ++ w ++ [10]), []).
Proof.
  induction w as [|c w IH]; intros got n Hw Hn; (destruct n as [|n]; [simpl in Hn; lia|]).
  - done.
  - apply Forall_cons in Hw as [Hc Hw]. simpl. unfold ctl_D, nl, C_. rewrite !(proj2 (Z.eqb_neq c _)) by lia. rewrite IH; [by rewrite <- app_assoc|done|simpl in Hn; lia].
Qed.

(** C25: from the keyboard to read: when a line of printable characters is typed, each with
    the key that has it on it and shift where needed, and the key codes arrive in any
    pieces of interrupts, the keyboard driver and the console deliver exactly that line to
    the next read. *)
Theorem typed_line_is_read (w : list Z) (pieces : list (list Z)) (n : nat) (s : console) :
  Forall (fun c => 32 <= c <= 126) w -> (length w < 127)%nat -> mjoin pieces = type_text (w ++ [10]) -> (length w < n)%nat ->
  cons_ok s -> cons_lk s = false -> acons_of s = ([], []) ->
  exists s', run_console (kbd_events pieces 0 ++ [ERead false [] n]) s = Ret [CBytes (w ++ [10])] s' /\ cons_ok s' /\ acons_of s' = ([], []).
Proof.
  intros Hw Hl Hp Hn C Hlk Ha. assert (Ht : Forall typeable (w ++ [10])).
  { apply Forall_app. split; [|repeat constructor; by right]. eapply Forall_impl; [exact Hw|]. intros c Hc. by left. }
  assert (Hev : forall ps sh, 0 <= sh < 2 ^ 7 -> Forall (fun e => match e with EKeys cs => Forall (fun c => 0 <= c < 256) cs | _ => True end) (kbd_events ps sh ++ [ERead false [] n])).
  { induction ps as [|d ps IH]; intros sh Hsh; simpl; [by repeat constructor|]. destruct (kbd_keys_range d sh Hsh) as [H1 H2]. constructor; [done|]. by apply IH. }
  pose proof (run_console_spec _ (Hev pieces 0 ltac:(lia)) s C Hlk) as Hr. apply wp_iff in Hr as (l & s' & E & C' & _ & A). exists s'. rewrite E.
  rewrite run_lines_pieces, Ha, Hp, foldl_chars in A. rewrite (proj1 (type_text_keys _ Ht)), foldl_app, akey_plain in A by (done || simpl; lia).
  assert (Enl : foldl (fun a c => akey c a) ([], [] ++ w) [10] = (w ++ [10], [])).
  { simpl. unfold akey, ctl_P, ctl_U, ctl_H, ctl_D, del, cr, nl, C_, INPUT_BUF. cbn [Z.sub Z.eqb Z.opp orb negb]. simpl. rewrite (proj2 (Z.ltb_lt _ _)) by (simpl; lia). done. }
  rewrite Enl in A. simpl in A. rewrite aread_line in A by done. simpl in A. injection A as -> A1 A2. split; [done|]. split; [done|]. unfold acons_of. congruence.
Qed.

(** [H] with shift and [i], with the key codes in three interrupts. *)
Lemma typed_line_is_read_witness : exists s',
  run_console (kbd_events [[0x2A; 0x23]; [0xA3; 0xAA; 0x17]; [0x97; 0x1C; 0x9C]] 0 ++ [ERead false [] 10]) ex_console = Ret [CBytes [72; 105; 10]] s'.
Proof.
  destruct (typed_line_is_read [72; 105] [[0x2A; 0x23]; [0xA3; 0xAA; 0x17]; [0x97; 0x1C; 0x9C]] 10 ex_console) as (s' & E & _).
  - repeat constructor; lia.
  - simpl. lia.
  - vm_compute. reflexivity.
  - simpl. lia.
  - apply ex_console_ok.
  - reflexivity.
  - vm_compute. reflexivity.
  - exists s'. exact E.
Defined.
