(* ===== verification/Userprogs.v ===== *)
(** * User programs (wc.c, cat.c, ls.c, rm.c, mkdir.c, ln.c, kill.c, forktest.c)

    For wc and cat a file is what the calls of read return: the pieces, each of 1 to 512
    bytes, and at the end whether the last call failed.  The other programs take the system
    calls they make as arguments.  What they print is a list of messages, without the
    newlines. *)

From S2P Require Import Prelude Grep Printf.

Record source := Source { pieces : list (list Z); read_fails : bool }.

(** ** wc *)

(** The whitespace of wc. *)
Definition wc_space : list Z := [32; 13; 9; 10; 11].
Record counts := Counts { n_l : Z; n_w : Z; n_c : Z; inword : bool }.

Definition wc_byte (x : Z) (s : counts) : counts :=
  let c := s32 (n_c s + 1) in
  let l := if x =? 10 then s32 (n_l s + 1) else n_l s in
  match strchr wc_space x with
  | Some _ => Counts l (n_w s) c false
  | None => if negb (inword s) then Counts l (s32 (n_w s + 1)) c true else Counts l (n_w s) c (inword s)
  end.
Definition wc_loop (ps : list (list Z)) (s : counts) : counts := foldl (fun s p => foldl (fun s x => wc_byte x s) s p) s ps.

(** What a program prints: the counts of a file, a message, or a message with its
    arguments. *)
Inductive uline := Totals (l w c : Z) (name : string) | Message (m : string) | Failed (m : string) (args : list (list Z)).
(** wc; the flag says whether the program goes on. *)
Definition wc (f : source) (name : string) : list uline * bool :=
  let s := wc_loop (pieces f) (Counts 0 0 0 false) in
  if read_fails f then ([Message "wc: read error"], false)
  else ([Totals (n_l s) (n_w s) (n_c s) name], true).

(** main of wc and of cat: [prog] for the standard input, or for each file that opens. *)
Fixpoint each_file {A} (prog : source -> string -> list A * bool) (cannot : string -> A) (args : list (string * option source)) : list A :=
  match args with
  | [] => []
  | (name, None) :: _ => [cannot name]
  | (name, Some f) :: rest => let '(o, go) := prog f name in if go : bool then o ++ each_file prog cannot rest else o
  end.
Definition wc_main (stdin : source) (args : list (string * option source)) : list uline :=
  match args with
  | [] => fst (wc stdin "")
  | _ => each_file wc (fun name => Message ("wc: cannot open " +:+ name)) args
  end.

(** ** cat *)

(** The bytes written to standard output, or a message; [wr] is the result of a write. *)
Inductive coutput := Bytes (l : list Z) | CMessage (m : string).
Fixpoint cat_loop (wr : list Z -> Z) (ps : list (list Z)) (fails : bool) : list coutput * bool :=
  match ps with
  | [] => if fails then ([CMessage "cat: read error"], false) else ([], true)
  | p :: ps' =>
      if negb (wr p =? Z.of_nat (length p)) then ([Bytes (take (Z.to_nat (wr p)) p); CMessage "cat: write error"], false)
      else let '(o, go) := cat_loop wr ps' fails in (Bytes p :: o, go)
  end.
Definition cat (wr : list Z -> Z) (f : source) (name : string) : list coutput * bool := cat_loop wr (pieces f) (read_fails f).
Definition cat_main (wr : list Z -> Z) (stdin : source) (args : list (string * option source)) : list coutput :=
  match args with
  | [] => fst (cat wr stdin "")
  | _ => each_file (cat wr) (fun name => CMessage ("cat: cannot open " +:+ name)) args
  end.

(** ** fmtname *)

(** The part of the path behind the last slash. *)
Fixpoint after_slash (path cur : list Z) : list Z :=
  match path with [] => cur | c :: p => after_slash p (if c =? 47 then p else cur) end.
(** [DIRSIZ] is a constant of fs.h. *)
Definition fmtname (DIRSIZ : nat) (path : list Z) : list Z :=
  let p := after_slash path path in
  if (DIRSIZ <=? length p)%nat then p else p ++ replicate (DIRSIZ - length p) 32.

(** ** Reference counts *)

Definition is_space (x : Z) : bool := bool_decide (x ∈ wc_space).
Definition newlines (l : list Z) : nat := length (filter (fun x => x = 10) l).
(** The words: places where a byte that is not white space follows white space or the start. *)
Fixpoint words (inw : bool) (l : list Z) : nat :=
  match l with
  | [] => 0
  | x :: l' => (if negb (is_space x) && negb inw then 1 else 0) + words (negb (is_space x)) l'
  end.

Lemma wc_space_strchr x : match strchr wc_space x with Some _ => is_space x = true | None => is_space x = false end.
Proof.
  unfold is_space. destruct (decide (x ∈ wc_space)) as [Hx|Hx].
  - rewrite bool_decide_eq_true_2 by done. unfold wc_space in Hx. assert (Hc : x = 32 \/ x = 13 \/ x = 9 \/ x = 10 \/ x = 11) by set_solver. by destruct Hc as [-> |[-> |[-> |[-> | ->]]]].
  - rewrite bool_decide_eq_false_2 by done. unfold wc_space in *. rewrite !not_elem_of_cons in Hx. destruct Hx as (H1 & H2 & H3 & H4 & H5 & _). cbn [strchr].
    rewrite (proj2 (Z.eqb_neq 32 x)), (proj2 (Z.eqb_neq 13 x)), (proj2 (Z.eqb_neq 9 x)), (proj2 (Z.eqb_neq 10 x)), (proj2 (Z.eqb_neq 11 x)) by done. done.
Qed.

Lemma s32_add x y : s32 (s32 x + y) = s32 (x + y).
Proof. unfold s32 at 1 3. rewrite <- (u32_add_l (s32 x)), u32_s32, u32_add_l. done. Qed.

Lemma wc_bytes l : forall s a b c, n_l s = s32 a -> n_w s = s32 b -> n_c s = s32 c ->
  let s' := foldl (fun s x => wc_byte x s) s l in
  n_l s' = s32 (a + Z.of_nat (newlines l)) /\ n_w s' = s32 (b + Z.of_nat (words (inword s) l)) /\ n_c s' = s32 (c + Z.of_nat (length l)).
Proof.
  induction l as [|x l IH]; intros s a b c Ha Hb Hc; cbn zeta; [simpl; by rewrite !Z.add_0_r|]. cbn [foldl].
  set (a' := a + if x =? 10 then 1 else 0). set (b' := b + if negb (is_space x) && negb (inword s) then 1 else 0).
  assert (H : n_l (wc_byte x s) = s32 a' /\ n_w (wc_byte x s) = s32 b' /\ n_c (wc_byte x s) = s32 (c + 1) /\ inword (wc_byte x s) = negb (is_space x)).
  { unfold wc_byte, a', b'. pose proof (wc_space_strchr x) as Hs. destruct (strchr wc_space x); rewrite Hs; cbn [negb andb].
    - cbn [n_l n_w n_c inword]. rewrite Ha, Hb, Hc, s32_add, Z.add_0_r. destruct (x =? 10); rewrite ?s32_add, ?Z.add_0_r; done.
    - destruct (inword s) eqn:Ei; cbn [negb n_l n_w n_c inword]; rewrite Ha, Hb, Hc, !s32_add, ?Z.add_0_r; destruct (x =? 10); rewrite ?s32_add, ?Z.add_0_r; done. }
  destruct H as (H1 & H2 & H3 & H4). destruct (IH (wc_byte x s) a' b' (c + 1) H1 H2 H3) as (-> & -> & ->). rewrite H4. unfold newlines. cbn [words length].
  split_and!; f_equal; [|unfold b'; destruct (negb (is_space x) && negb (inword s)); lia|lia]. unfold a'.
  destruct (Z.eqb_spec x 10) as [->|Hx]; [rewrite filter_cons_True by done; simpl; lia|rewrite filter_cons_False by done; lia].
Qed.

(** Wc prints, for a file that can be read, the number of its newlines, of its words and
    of its bytes (as 32-bit integers), however the reads cut the file into pieces. *)
Theorem wc_counts (f : source) (name : string) : read_fails f = false ->
  let l := mjoin (pieces f) in
  wc f name = ([Totals (s32 (Z.of_nat (newlines l))) (s32 (Z.of_nat (words false l))) (s32 (Z.of_nat (length l))) name], true).
Proof.
  intros Hf l. unfold wc. rewrite Hf. assert (E : wc_loop (pieces f) (Counts 0 0 0 false) = foldl (fun s x => wc_byte x s) (Counts 0 0 0 false) l).
  { unfold wc_loop, l. generalize (Counts 0 0 0 false). induction (pieces f) as [|p ps IH]; intros s; [done|]. simpl. by rewrite foldl_app, IH. }
  rewrite E. destruct (wc_bytes l (Counts 0 0 0 false) 0 0 0 eq_refl eq_refl eq_refl) as (H1 & H2 & H3). by rewrite H1, H2, H3.
Qed.

Lemma wc_counts_witness : wc (Source [[97; 32; 98]; [99; 10; 32]] false) "x" = ([Totals 1 2 6 "x"], true).
Proof. exact (wc_counts (Source [[97; 32; 98]; [99; 10; 32]] false) "x" eq_refl). Defined.

(** cat writes the file, in its order, and goes on, when no call fails. *)
Lemma cat_copies wr f name : read_fails f = false -> (forall p, wr p = Z.of_nat (length p)) -> cat wr f name = (Bytes <$> pieces f, true).
Proof.
  intros Hf Hw. unfold cat. rewrite Hf. induction (pieces f) as [|p ps IH]; [done|]. simpl. rewrite Hw, Z.eqb_refl. simpl. by rewrite IH.
Qed.

(** fmtname pads the last element of the path and never cuts it. *)
Lemma after_slash_spec path cur : (exists a, path = a ++ 47 :: after_slash path cur /\ 47 ∉ after_slash path cur) \/ (47 ∉ path /\ after_slash path cur = cur).
Proof.
  revert cur. induction path as [|c p IH]; intros cur; [right; split; [apply not_elem_of_nil|done]|]. simpl. destruct (Z.eqb_spec c 47) as [->|Hc].
  - left. destruct (IH p) as [(a & E & Hn)|[Hn E]]; [exists (47 :: a); split; [by rewrite E at 1|done]|]. exists []. simpl. rewrite E. done.
  - destruct (IH cur) as [(a & E & Hn)|[Hn E]]; [left; exists (c :: a); split; [by rewrite E at 1|done]|]. right. split; [|done]. apply not_elem_of_cons. split; [congruence|done].
Qed.

(** ** ls *)

Definition T_DIR : Z := 1.
Definition T_FILE : Z := 2.
Record statbuf := StatBuf { st_type : Z; st_ino : Z; st_size : Z }.
Inductive lsline := Row (name : list Z) (st : statbuf) | LsMessage (m : string) (path : list Z).

Section ls.
(** [DIRSIZ] is a constant of fs.h.  What ls sees of the file system: whether a path opens,
    what fstat answers, and the entries read from a directory (number and name bytes). *)
Variable DIRSIZ : nat.
Variable opens : list Z -> bool.
Variable fstat : list Z -> option statbuf.
Variable entries : list Z -> list (Z * list Z).

Definition ls_stat (path : list Z) : option statbuf := if opens path then fstat path else None.
(** The bytes of a name before its zero. *)
Fixpoint c_name (l : list Z) : list Z := match l with [] => [] | c :: l => if c =? 0 then [] else c :: c_name l end.

Fixpoint ls_loop (path : list Z) (des : list (Z * list Z)) : list lsline :=
  match des with
  | [] => []
  | (inum, name) :: des =>
      if inum =? 0 then ls_loop path des else
      let buf := path ++ [47] ++ c_name (take DIRSIZ name) in
      match ls_stat buf with
      | None => LsMessage "ls: cannot stat" buf :: ls_loop path des
      | Some st => Row (fmtname DIRSIZ buf) st :: ls_loop path des
      end
  end.

Definition ls (path : list Z) : list lsline :=
  if negb (opens path) then [LsMessage "ls: cannot open" path] else
  match fstat path with
  | None => [LsMessage "ls: cannot stat" path]
  | Some st =>
      if st_type st =? T_FILE then [Row (fmtname DIRSIZ path) st]
      else if st_type st =? T_DIR then
        if 512 <? Z.of_nat (length path) + 1 + Z.of_nat DIRSIZ + 1 then [LsMessage "ls: path too long" []]
        else ls_loop path (entries path)
      else []
  end.
Definition ls_main (args : list (list Z)) : list lsline :=
  match args with [] => ls [46] | _ => mjoin (ls <$> args) end.

(** A name padded with blanks. *)
Definition padded (name : list Z) : list Z := name ++ replicate (DIRSIZ - length name) 32.

Lemma fmtname_entry path name : 47 ∉ name -> fmtname DIRSIZ (path ++ 47 :: name) = padded name.
Proof.
  intros Hn. unfold fmtname, padded. assert (E : forall cur, after_slash (path ++ 47 :: name) cur = name).
  { induction path as [|c path IH]; intros cur; [|apply IH]. simpl. destruct (after_slash_spec name name) as [(a & E & _)|[_ E]]; [|done].
    exfalso. apply Hn. rewrite E. set_solver. }
  rewrite E. destruct (Nat.leb_spec DIRSIZ (length name)); [|done]. replace (DIRSIZ - length name)%nat with 0%nat by lia. by rewrite app_nil_r.
Qed.

Lemma c_name_sub l x : x ∈ c_name l -> x ∈ l.
Proof. induction l as [|c l IH]; simpl; [done|]. destruct (c =? 0); [by intros ?%not_elem_of_nil|]. rewrite !elem_of_cons. naive_solver. Qed.

(** ls of a directory prints, in the order of the directory, one line for each entry in use:
    its name padded with blanks and what stat answers for it; the path it builds for that
    fits its buffer of 512 bytes with the zero byte. *)
Theorem ls_directory (path : list Z) (st : statbuf) :
  opens path = true -> fstat path = Some st -> st_type st = T_DIR -> (length path + 1 + DIRSIZ + 1 <= 512)%nat ->
  Forall (fun de => 47 ∉ snd de) (entries path) ->
  let full name := path ++ 47 :: name in
  ls path = (fun name => match ls_stat (full name) with Some st => Row (padded name) st | None => LsMessage "ls: cannot stat" (full name) end) <$>
    ((fun de => c_name (take DIRSIZ (snd de))) <$> filter (fun de => fst de <> 0) (entries path)) /\
  Forall (fun de => (length (full (c_name (take DIRSIZ (snd de)))) + 1 <= 512)%nat) (entries path).
Proof.
  intros Ho Hf Ht Hlen Hs full. assert (Hc : forall l, (length (c_name l) <= length l)%nat) by (induction l as [|c l IH]; simpl; [done|destruct (c =? 0); simpl; lia]).
  split.
  - unfold ls. rewrite Ho, Hf, Ht. cbn [negb]. change (T_DIR =? T_FILE) with false. change (T_DIR =? T_DIR) with true. cbv iota.
    rewrite (proj2 (Z.ltb_ge 512 _)) by lia. induction Hs as [|[i name] des Hn Hs IH]; [done|]. cbn [ls_loop snd] in *.
    destruct (Z.eqb_spec i 0) as [Hi|Hi]; [rewrite filter_cons_False by (simpl; tauto); done|]. rewrite filter_cons_True by done.
    rewrite !fmap_cons. cbn [snd]. change (path ++ [47] ++ c_name (take DIRSIZ name)) with (full (c_name (take DIRSIZ name))). rewrite <- IH.
    assert (Hnn : 47 ∉ c_name (take DIRSIZ name)) by (intros Hx%c_name_sub; apply Hn; rewrite <- (take_drop DIRSIZ name); set_solver).
    pose proof (fmtname_entry path _ Hnn) as E. fold (full (c_name (take DIRSIZ name))) in E. rewrite E. by destruct (ls_stat _).
  - apply Forall_forall. intros [i name] _. unfold full. rewrite length_app. cbn [length snd]. pose proof (Hc (take DIRSIZ name)). rewrite length_take in *. lia.
Qed.
End ls.

(** ** rm, mkdir, ln and kill *)

Section calls.
Context {S : Type}.
Variable call : list Z -> K S Z.

(** The loop of rm and of mkdir: it ends at the first call that fails, with a message about
    that argument. *)
Fixpoint until_failure (args : list (list Z)) : K S (option (list Z)) :=
  match args with
  | [] => kret None
  | a :: args =>
      let! r := call a in
      if r <? 0 then kret (Some a) else until_failure args
  end.

(** One file after the other: all calls but the last one made have succeeded. *)
Lemma until_failure_prefix args s r s' : until_failure args s = Ret r s' ->
  exists tried rest, args = tried ++ rest /\
    match r with Some a => exists before, tried = before ++ [a] | None => rest = [] end.
Proof.
  revert s. induction args as [|a args IH]; intros s; simpl.
  - intros [= <- _]. by exists [], [].
  - unfold kbind. destruct (call a s) as [v s1| | |]; try done. destruct (v <? 0).
    + intros [= <- _]. exists [a], args. split; [done|]. by exists [].
    + intros E. destruct (IH s1 E) as (t & rest & -> & H). exists (a :: t), rest. split; [done|]. destruct r as [b|]; [|done].
      destruct H as (before & ->). by exists (a :: before).
Qed.
End calls.

Definition rm_main {S} (unlink : list Z -> K S Z) (args : list (list Z)) : K S (list uline) :=
  match args with
  | [] => kret [Message "Usage: rm files..."]
  | _ => let! r := until_failure unlink args in
         kret (match r with Some a => [Failed "rm: %s failed to delete" [a]] | None => [] end)
  end.
Definition mkdir_main {S} (mkdir : list Z -> K S Z) (args : list (list Z)) : K S (list uline) :=
  match args with
  | [] => kret [Message "Usage: mkdir files..."]
  | _ => let! r := until_failure mkdir args in
         kret (match r with Some a => [Failed "mkdir: %s failed to create" [a]] | None => [] end)
  end.
Definition ln_main {S} (link : list Z -> list Z -> K S Z) (args : list (list Z)) : K S (list uline) :=
  match args with
  | [old; new] => let! r := link old new in kret (if r <? 0 then [Failed "link %s %s: failed" [old; new]] else [])
  | _ => kret [Message "Usage: ln old new"]
  end.
Fixpoint kill_loop {S} (kill : Z -> K S Z) (args : list (list Z)) : K S unit :=
  match args with [] => kret tt | a :: args => kill (atoi a) ;; kill_loop kill args end.
Definition kill_main {S} (kill : Z -> K S Z) (args : list (list Z)) : K S (list uline) :=
  match args with [] => kret [Message "usage: kill pid..."] | _ => kill_loop kill args ;; kret [] end.

(** ** forktest *)

Section forktest.
Context {S : Type}.
(** fork as the parent sees it, and wait. *)
Variables fork wait : K S Z.
Definition fork_N : nat := 1000.

(** The number of children made; a failing fork ends the loop.  The child, to which fork
    returns 0, exits at once and is not part of the run. *)
Fixpoint fork_loop (todo made : nat) : K S nat :=
  match todo with
  | O => kret made
  | Datatypes.S todo => let! pid := fork in if pid <? 0 then kret made else fork_loop todo (Datatypes.S made)
  end.
(** Whether every wait found a child. *)
Fixpoint wait_loop (n : nat) : K S bool :=
  match n with
  | O => kret true
  | Datatypes.S n => let! r := wait in if r <? 0 then kret false else wait_loop n
  end.
Definition forktest : K S (list uline) :=
  let! n := fork_loop fork_N 0 in
  if (n =? fork_N)%nat then kret [Message "fork test"; Message "fork claimed to work N times!"] else
  let! ok := wait_loop n in
  if negb ok then kret [Message "fork test"; Message "wait stopped early"] else
  let! r := wait in
  if negb (r =? -1) then kret [Message "fork test"; Message "wait got too many"]
  else kret [Message "fork test"; Message "fork test OK"].

(** The process table: entries that are free, and children of the caller. *)
Variables free kids : S -> nat.
Hypothesis fork_law : forall s, exists r s', fork s = Ret r s' /\
  if decide (free s = 0)%nat then r = -1 /\ free s' = 0%nat /\ kids s' = kids s
  else 0 < r /\ (free s = Datatypes.S (free s'))%nat /\ kids s' = Datatypes.S (kids s).
Hypothesis wait_law : forall s, exists r s', wait s = Ret r s' /\
  if decide (kids s = 0)%nat then r = -1 /\ free s' = free s /\ kids s' = 0%nat
  else 0 <= r /\ free s' = Datatypes.S (free s) /\ (kids s = Datatypes.S (kids s'))%nat.

Lemma fork_loop_ok todo : forall made s, exists n s', fork_loop todo made s = Ret n s' /\
  n = (made + min todo (free s))%nat /\ (free s' = free s - min todo (free s))%nat /\ (kids s' = kids s + min todo (free s))%nat.
Proof using fork_law.
  induction todo as [|todo IH]; intros made s; [exists made, s; split; [done|simpl; lia]|]. cbn [fork_loop].
  destruct (fork_law s) as (r & s1 & E & H). rewrite (kbind_ret _ _ _ _ _ E). destruct (decide (free s = 0%nat)) as [H0|H0].
  - destruct H as (-> & Hf & Hk). simpl. exists made, s1. split; [done|]. rewrite H0. lia.
  - destruct H as (Hr & Hf & Hk). rewrite (proj2 (Z.ltb_ge r 0)) by lia. destruct (IH (Datatypes.S made) s1) as (n & s' & E' & Hn & Hf' & Hk').
    exists n, s'. split; [done|]. lia.
Qed.

Lemma wait_loop_ok n : forall s, (n <= kids s)%nat -> exists s', wait_loop n s = Ret true s' /\ free s' = (free s + n)%nat /\ (kids s = kids s' + n)%nat.
Proof using wait_law.
  induction n as [|n IH]; intros s Hn; [exists s; split; [done|lia]|]. cbn [wait_loop].
  destruct (wait_law s) as (r & s1 & E & H). rewrite (kbind_ret _ _ _ _ _ E). rewrite decide_False in H by lia. destruct H as (Hr & Hf & Hk).
  rewrite (proj2 (Z.ltb_ge r 0)) by lia. destruct (IH s1) as (s' & E' & Hf' & Hk'); [lia|]. exists s'. split; [done|]. lia.
Qed.

(** forktest always ends.  On a table with fewer than 1000 free entries it finds fork to fail
    gracefully, and it leaves the table as it was. *)
Theorem forktest_ends (s : S) : kids s = 0%nat ->
  exists s', forktest s = Ret (if (free s <? fork_N)%nat then [Message "fork test"; Message "fork test OK"]
                               else [Message "fork test"; Message "fork claimed to work N times!"]) s' /\
    ((free s < fork_N)%nat -> free s' = free s /\ kids s' = 0%nat).
Proof using fork_law wait_law.
  intros Hk. destruct (fork_loop_ok fork_N 0 s) as (n & s1 & E & Hn & Hf & Hk1). unfold forktest. rewrite (kbind_ret _ _ _ _ _ E).
  unfold fork_N in *. destruct (Nat.ltb_spec (free s) 1000) as [Hlt|Hge].
  - rewrite (proj2 (Nat.eqb_neq n 1000)) by lia. destruct (wait_loop_ok n s1) as (s2 & E2 & Hf2 & Hk2); [lia|]. rewrite (kbind_ret _ _ _ _ _ E2). cbn [negb].
    destruct (wait_law s2) as (r & s3 & E3 & H3). rewrite (kbind_ret _ _ _ _ _ E3). rewrite decide_True in H3 by lia. destruct H3 as (-> & Hf3 & Hk3).
    exists s3. split; [done|]. intros _. lia.
  - rewrite (proj2 (Nat.eqb_eq n 1000)) by lia. exists s1. split; [done|]. lia.
Qed.
End forktest.

(** A table of 61 entries, as a number of free entries and one of children. *)
Definition toy_fork : K (nat * nat) Z := fun s => match s with (O, k) => Ret (-1) (O, k) | (S f, k) => Ret 7 (f, S k) end.
Definition toy_wait : K (nat * nat) Z := fun s => match s with (f, O) => Ret (-1) (f, O) | (f, S k) => Ret 7 (S f, k) end.

Lemma forktest_ends_witness : exists s', forktest toy_fork toy_wait (61, 0)%nat = Ret [Message "fork test"; Message "fork test OK"] s' /\ fst s' = 61%nat.
Proof.
  destruct (forktest_ends toy_fork toy_wait fst snd) with (s := (61, 0)%nat) as (s' & E & H).
  - intros [[|f] k]; (eexists _, _; split; [reflexivity|]); simpl; repeat split; lia.
  - intros [f [|k]]; (eexists _, _; split; [reflexivity|]); simpl; repeat split; lia.
  - reflexivity.
  - exists s'. split; [exact E|]. apply H. unfold fork_N. simpl. lia.
Defined.
