(* ===== verification/Boot.v ===== *)
(** * The boot loader (bootmain.c, elf.h) and the boot page table (entrypgdir of main.c)

    The boot loader reads the kernel from the disk, one sector at a time, through the ports
    of the disk controller.  The controller is a parameter: the status it shows at each read,
    and the bytes it delivers as a function of its registers. *)

From Stdlib Require Import Sorted.
From S2P Require Import Prelude Mem Layout.

Definition SECTSIZE : Z := 512.
Definition ELF_MAGIC : Z := 0x464C457F.

(** Memory, the last byte written to each port, and how often the status was read. *)
Record loader := Loader { b_mem : mem; b_regs : Z -> Z; b_polls : nat }.
Definition set_bmem m s := Loader m (b_regs s) (b_polls s).
Definition set_breg port v s := Loader (b_mem s) (mset (b_regs s) port v) (b_polls s).
Definition add_bpoll s := Loader (b_mem s) (b_regs s) (S (b_polls s)).

(** struct elfhdr and struct proghdr: the fields that the boot loader reads. *)
Record bhdr := BHdr { h_magic : Z; h_entry : Z; h_phoff : Z; h_phnum : Z }.
Record bseg := BSeg { s_off : Z; s_paddr : Z; s_filesz : Z; s_memsz : Z }.
Definition bhdr_at (m : mem) (a : Z) : bhdr := BHdr (load32 m a) (load32 m (a + 24)) (load32 m (a + 28)) (m (a + 44) + 256 * m (a + 45)).
Definition bseg_at (m : mem) (a : Z) : bseg := BSeg (load32 m (a + 4)) (load32 m (a + 12)) (load32 m (a + 16)) (load32 m (a + 20)).
Definition elf : Z := 0x10000.

Section boot.
(** The value of the status port at each read of it, and the bytes of the sector that the
    controller delivers for the contents of its registers. *)
Variable status : nat -> Z.
Variable reply : (Z -> Z) -> list Z.
(** How often the status port is polled before the model gives up. *)
Variable poll_limit : nat.

Definition boot_outb (port v : Z) : K loader unit := kmodify (set_breg port (u8 v)).
Definition boot_inb : K loader Z :=
  let! n := kget b_polls in
  kmodify add_bpoll ;;
  kret (u8 (status n)).
Definition boot_insl (dst cnt : Z) : K loader unit :=
  let! s := kget id in
  kmodify (set_bmem (store_bytes (b_mem s) dst (take (Z.to_nat (4 * cnt)) (reply (b_regs s))))).

Fixpoint waitdisk (fuel : nat) : K loader unit :=
  match fuel with
  | O => knofuel
  | S fuel =>
      let! r := boot_inb in
      if negb (Z.land r 0xC0 =? 0x40) then waitdisk fuel else kret tt
  end.

Definition readsect (dst offset : Z) : K loader unit :=
  waitdisk poll_limit ;;
  boot_outb 0x1F2 1 ;;
  boot_outb 0x1F3 offset ;;
  boot_outb 0x1F4 (Z.shiftr offset 8) ;;
  boot_outb 0x1F5 (Z.shiftr offset 16) ;;
  boot_outb 0x1F6 (Z.lor (Z.shiftr offset 24) 0xE0) ;;
  boot_outb 0x1F7 0x20 ;;
  waitdisk poll_limit ;;
  boot_insl dst (SECTSIZE / 4).

Fixpoint readseg_loop (fuel : nat) (pa epa offset : Z) : K loader unit :=
  match fuel with
  | O => knofuel
  | S fuel =>
      if pa <? epa
      then readsect pa offset ;; readseg_loop fuel (u32 (pa + SECTSIZE)) epa (u32 (offset + 1))
      else kret tt
  end.

Definition readseg (pa count offset : Z) : K loader unit :=
  let epa := u32 (pa + count) in
  let pa := u32 (pa - offset mod SECTSIZE) in
  let offset := u32 (offset / SECTSIZE + 1) in
  readseg_loop (Z.to_nat (count / SECTSIZE + 3)) pa epa offset.

(** The loop over the program headers, which lie in the scratch page. *)
Fixpoint boot_segments (fuel : nat) (ph eph : Z) : K loader unit :=
  match fuel with
  | O => knofuel
  | S fuel =>
      if ph <? eph then
        let! h := kget (fun s => bseg_at (b_mem s) ph) in
        let pa := s_paddr h in
        readseg pa (s_filesz h) (s_off h) ;;
        (if s_filesz h <? s_memsz h
         then kmodify (fun s => set_bmem (stosb (b_mem s) (u32 (pa + s_filesz h)) 0 (Z.to_nat (s_memsz h - s_filesz h))) s)
         else kret tt) ;;
        boot_segments fuel (u32 (ph + 32)) eph
      else kret tt
  end.

(** Some entry point that is jumped to, or None when bootmain returns to bootasm.S. *)
Definition bootmain : K loader (option Z) :=
  readseg elf 4096 0 ;;
  let! h := kget (fun s => bhdr_at (b_mem s) elf) in
  if negb (h_magic h =? ELF_MAGIC) then kret None else
  let ph := u32 (elf + h_phoff h) in
  let eph := u32 (ph + 32 * h_phnum h) in
  boot_segments (S (Z.to_nat (h_phnum h))) ph eph ;;
  let! e := kget (fun s => h_entry (bhdr_at (b_mem s) elf)) in
  kret (Some e).

(** ** What the disk controller promises *)

(** The bytes of the disk. *)
Variable disk : Z -> Z.
Definition sector (n : Z) : list Z := (fun i => disk (SECTSIZE * n + i)) <$> seqZ 0 512.

(** It becomes ready within [poll_limit] reads of its status. *)
Hypothesis ready : forall n, exists k, (k < poll_limit)%nat /\ Z.land (u8 (status (n + k))) 0xC0 = 0x40.
(** The command "read sectors" for one sector delivers the sector of the 28-bit address. *)
Hypothesis reads : forall r lba, 0 <= lba < 2 ^ 28 -> r 0x1F2 = 1 -> r 0x1F7 = 0x20 ->
  r 0x1F3 = lba mod 256 -> r 0x1F4 = lba / 2 ^ 8 mod 256 -> r 0x1F5 = lba / 2 ^ 16 mod 256 ->
  r 0x1F6 = Z.lor (lba / 2 ^ 24) 0xE0 -> reply r = sector lba.

Lemma sector_length n : length (sector n) = 512%nat.
Proof. unfold sector. by rewrite length_fmap, length_seqZ. Qed.

Lemma waitdisk_ok s : exists n, waitdisk poll_limit s = Ret tt (Loader (b_mem s) (b_regs s) n).
Proof.
  destruct (ready (b_polls s)) as (k & Hk & Hr). clear ready reads. revert s k Hk Hr. induction poll_limit as [|f IH]; intros s k Hk Hr; [lia|].
  simpl. unfold boot_inb. krun.
  destruct (Z.eqb_spec (Z.land (u8 (status (b_polls s))) 0xC0) 0x40) as [E|E]; simpl; [by eexists|].
  destruct k as [|k]; [rewrite Nat.add_0_r in Hr; done|]. destruct (IH (add_bpoll s) k) as (n & En); [lia|simpl; by rewrite <- Nat.add_succ_r|].
  exists n. rewrite En. done.
Qed.

Lemma shiftr_u8 x k : 0 <= k -> u8 (Z.shiftr x k) = x / 2 ^ k mod 256.
Proof. intros. unfold u8. by rewrite Z.shiftr_div_pow2. Qed.

Lemma lor_E0_range x : 0 <= x < 16 -> u8 (Z.lor x 0xE0) = Z.lor x 0xE0.
Proof.
  intros H. unfold u8. apply Z.mod_small. assert (x ∈ seqZ 0 16) by (apply elem_of_seqZ; lia).
  revert x H H0. intros x _ Hx. revert Hx. change (seqZ 0 16) with [0;1;2;3;4;5;6;7;8;9;10;11;12;13;14;15].
  rewrite !elem_of_cons. intros Hx. repeat destruct Hx as [-> |Hx]; try (by vm_compute). by apply not_elem_of_nil in Hx.
Qed.

Lemma readsect_ok dst off s : 0 <= off < 2 ^ 28 ->
  exists s', readsect dst off s = Ret tt s' /\ b_mem s' = store_bytes (b_mem s) dst (sector off).
Proof.
  intros Ho. unfold readsect, boot_outb, boot_insl. destruct (waitdisk_ok s) as (n1 & E1). rewrite (kbind_ret _ _ _ _ _ E1). krun.
  match goal with |- context [kbind (waitdisk _) _ ?t] => destruct (waitdisk_ok t) as (n2 & E2); rewrite (kbind_ret _ _ _ _ _ E2); set (t0 := t) in * end.
  krun. eexists. split; [done|]. cbn [b_mem set_bmem id b_regs]. rewrite (reads _ off Ho); [|done|done|..].
  - rewrite take_ge; [done|]. by rewrite sector_length.
  - done.
  - change (u8 (Z.shiftr off 8) = off / 2 ^ 8 mod 256). by apply shiftr_u8.
  - change (u8 (Z.shiftr off 16) = off / 2 ^ 16 mod 256). by apply shiftr_u8.
  - change (u8 (Z.lor (Z.shiftr off 24) 0xE0) = Z.lor (off / 2 ^ 24) 0xE0). rewrite Z.shiftr_div_pow2 by lia. apply lor_E0_range.
    split; [apply Z.div_pos; lia|apply Z.div_lt_upper_bound; lia].
Qed.

(** ** What is in memory *)

(** The kernel file, which starts at the second sector of the disk. *)
Definition image : mem := fun k => disk (SECTSIZE + k).
(** The first address that readseg writes, and the address behind the last. *)
Definition lo (pa off : Z) : Z := pa - off mod SECTSIZE.
Definition hi (pa count off : Z) : Z := lo pa off + SECTSIZE * ((count + off mod SECTSIZE + 511) / SECTSIZE).

Lemma sector_lookup n i : 0 <= i < 512 -> nth (Z.to_nat i) (sector n) 0 = disk (SECTSIZE * n + i).
Proof.
  intros Hi. apply nth_lookup_Some. unfold sector. apply list_lookup_fmap_Some.
  exists i. split; [done|]. apply lookup_seqZ. lia.
Qed.

Lemma readseg_loop_ok n : forall fuel pa epa off s,
  (n < fuel)%nat -> 0 <= pa -> pa + SECTSIZE * Z.of_nat n < 2 ^ 32 -> 0 <= off -> off + Z.of_nat n < 2 ^ 28 ->
  (pa + SECTSIZE * (Z.of_nat n - 1) < epa <= pa + SECTSIZE * Z.of_nat n \/ n = O /\ epa <= pa) ->
  exists s', readseg_loop fuel pa epa off s = Ret tt s' /\
    forall x, b_mem s' x = if decide (pa <= x < pa + SECTSIZE * Z.of_nat n) then disk (SECTSIZE * off + (x - pa)) else b_mem s x.
Proof.
  unfold SECTSIZE. induction n as [|n IH]; intros fuel pa epa off s Hf Hp Hb Ho Hob He; (destruct fuel as [|fuel]; [lia|]); cbn [readseg_loop].
  - rewrite (proj2 (Z.ltb_ge _ _)) by lia. eexists. split; [done|]. intros x. by rewrite decide_False by lia.
  - rewrite (proj2 (Z.ltb_lt _ _)) by lia. destruct (readsect_ok pa off s) as (s1 & E1 & M1); [lia|]. rewrite (kbind_ret _ _ _ _ _ E1).
    unfold SECTSIZE. rewrite !u32_small by lia. destruct (IH fuel (pa + 512) epa (off + 1) s1) as (s' & E & M); [lia..|].
    exists s'. split; [done|]. intros x. rewrite M, M1, store_bytes_lookup, sector_length.
    destruct (decide (pa + 512 <= x < pa + 512 + 512 * Z.of_nat n)) as [H|H]; [rewrite decide_True by lia; f_equal; lia|].
    destruct (decide (pa <= x < pa + Z.of_nat 512)) as [H2|H2]; [|by rewrite decide_False by lia].
    rewrite decide_True by lia. rewrite sector_lookup by lia. done.
Qed.

Lemma readseg_ok pa count off s :
  0 <= off < 2 ^ 32 -> 0 <= count -> off mod SECTSIZE <= pa -> pa + count + 512 < 2 ^ 32 ->
  exists s', readseg pa count off s = Ret tt s' /\
    forall x, b_mem s' x = if decide (lo pa off <= x < hi pa count off) then image (off + (x - pa)) else b_mem s x.
Proof.
  unfold hi, lo, image, readseg, SECTSIZE. intros Ho Hc Hl Hb. pose proof (Z.mod_pos_bound off 512 eq_refl). pose proof (Z.div_mod off 512 ltac:(lia)).
  set (r := off mod 512) in *. set (q := off / 512) in *. set (N := (count + r + 511) / 512).
  assert (HN : 512 * N <= count + r + 511 < 512 * N + 512) by (unfold N; pose proof (Z.div_mod (count + r + 511) 512 ltac:(lia)); pose proof (Z.mod_pos_bound (count + r + 511) 512 eq_refl); lia).
  rewrite !u32_small by lia.
  destruct (readseg_loop_ok (Z.to_nat N) (Z.to_nat (count / 512 + 3)) (pa - r) (pa + count) (q + 1) s) as (s' & E & M); unfold SECTSIZE; rewrite ?Z2Nat.id; try lia.
  { pose proof (Z.div_mod count 512 ltac:(lia)). pose proof (Z.mod_pos_bound count 512 eq_refl). lia. }
  exists s'. split; [done|]. intros x. rewrite M. unfold SECTSIZE. rewrite Z2Nat.id by lia. destruct (decide _); [|done]. f_equal. lia.
Qed.

(** ** Segments *)

Definition seg_end (h : bseg) : Z := s_paddr h + Z.max (s_filesz h) (s_memsz h).
(** A header with nothing to load, for which readseg reads no sector. *)
Definition seg_empty (h : bseg) : Prop := s_filesz h = 0 /\ s_memsz h = 0 /\ s_off h mod SECTSIZE = 0.
(** The segment lies above the scratch page, its first sector included, and below 4 GB. *)
Definition seg_ok (h : bseg) : Prop :=
  seg_empty h \/ 0 <= s_off h < 2 ^ 32 /\ 0 <= s_filesz h /\ elf + 4096 <= lo (s_paddr h) (s_off h) /\ seg_end h + 512 < 2 ^ 32.
(** [h1] ends where the first sector of [h2] begins, or before. *)
Definition seg_before (h1 h2 : bseg) : Prop := seg_empty h1 \/ seg_empty h2 \/ seg_end h1 <= lo (s_paddr h2) (s_off h2).
(** The bytes of the file are in memory, and zeros behind them. *)
Definition in_place (m : mem) (h : bseg) : Prop :=
  (forall k, 0 <= k < s_filesz h -> m (s_paddr h + k) = image (s_off h + k)) /\
  (forall k, s_filesz h <= k < s_memsz h -> m (s_paddr h + k) = 0).
(** The scratch page holds the first 4096 bytes of the kernel file. *)
Definition scratch_ok (m : mem) : Prop := forall k, 0 <= k < 4096 -> m (elf + k) = image k.

(** One turn of the loop over the program headers. *)
Definition load_one (h : bseg) : K loader unit :=
  readseg (s_paddr h) (s_filesz h) (s_off h) ;;
  (if s_filesz h <? s_memsz h
   then kmodify (fun s => set_bmem (stosb (b_mem s) (u32 (s_paddr h + s_filesz h)) 0 (Z.to_nat (s_memsz h - s_filesz h))) s)
   else kret tt).

Lemma mod_sect_range x : 0 <= x mod SECTSIZE < 512.
Proof. exact (Z.mod_pos_bound x 512 eq_refl). Qed.

Lemma load_empty h s : seg_empty h -> load_one h s = Ret tt s.
Proof.
  intros (E1 & E2 & E3). unfold load_one, readseg. rewrite E1, E2, E3, Z.add_0_r, Z.sub_0_r. cbn [Z.to_nat Z.div Z.add readseg_loop Z.ltb Z.compare].
  change (Z.to_nat (0 / SECTSIZE + 3)) with 3%nat. cbn [readseg_loop]. by rewrite Z.ltb_irrefl.
Qed.

Lemma empty_in_place m h : seg_empty h -> in_place m h.
Proof. intros (E1 & E2 & _). split; intros k Hk; lia. Qed.

#[local] Instance seg_empty_dec h : Decision (seg_empty h).
Proof. unfold seg_empty. apply _. Defined.

Lemma load_one_ok h s : seg_ok h ->
  exists s', load_one h s = Ret tt s' /\ in_place (b_mem s') h /\
    if decide (seg_empty h) then s' = s else elf + 4096 <= lo (s_paddr h) (s_off h) /\ forall x, x < lo (s_paddr h) (s_off h) -> b_mem s' x = b_mem s x.
Proof.
  destruct (decide (seg_empty h)) as [He|Hne]; [exists s; rewrite load_empty by done; split; [done|]; split; [by apply empty_in_place|done]|].
  intros [?|(Ho & Hf & Hl & He)]; [done|]. unfold seg_end, elf in *. pose proof (mod_sect_range (s_off h)) as Hm.
  destruct (readseg_ok (s_paddr h) (s_filesz h) (s_off h) s) as (s1 & E1 & M1); [lia|lia|unfold lo in Hl; lia|lia|].
  assert (Hhi : s_paddr h + s_filesz h <= hi (s_paddr h) (s_filesz h) (s_off h)).
  { unfold hi, lo, SECTSIZE in *. set (r := s_off h mod 512) in *. pose proof (Z.div_mod (s_filesz h + r + 511) 512 ltac:(lia)).
    pose proof (Z.mod_pos_bound (s_filesz h + r + 511) 512 eq_refl). lia. }
  unfold load_one. rewrite (kbind_ret _ _ _ _ _ E1).
  assert (Hfile : forall k, 0 <= k < s_filesz h -> b_mem s1 (s_paddr h + k) = image (s_off h + k)).
  { intros k Hk. rewrite M1, decide_True by (unfold lo in *; lia). f_equal. lia. }
  assert (Hlow : forall x, x < lo (s_paddr h) (s_off h) -> b_mem s1 x = b_mem s x).
  { intros x Hx. rewrite M1, decide_False by lia. done. }
  destruct (Z.ltb_spec (s_filesz h) (s_memsz h)) as [Hz|Hz].
  - eexists. split; [done|]. cbn [b_mem set_bmem]. rewrite u32_small by (unfold lo in *; lia). split; [split|].
    + intros k Hk. rewrite stosb_filled, filled_out by lia. auto.
    + intros k Hk. rewrite stosb_filled, filled_in by lia. done.
    + split; [done|]. intros x Hx. rewrite stosb_filled, filled_out by (unfold lo in *; lia). auto.
  - exists s1. split; [done|]. split; [split; [done|intros; lia]|done].
Qed.

Lemma in_place_mono m m' h b : in_place m h -> seg_end h <= b -> (forall x, x < b -> m' x = m x) -> in_place m' h.
Proof. unfold seg_end. intros [H1 H2] Hb Hm. split; intros k Hk; rewrite Hm by lia; auto. Qed.

Lemma bseg_at_scratch m k : scratch_ok m -> 0 <= k -> k + 32 <= 4096 -> bseg_at m (elf + k) = bseg_at image k.
Proof.
  intros H H0 H1. unfold bseg_at, load32. rewrite <- !Z.add_assoc, !H by lia. done.
Qed.
Lemma bhdr_at_scratch m : scratch_ok m -> bhdr_at m elf = bhdr_at image 0.
Proof. intros H. unfold bhdr_at, load32. rewrite <- !Z.add_assoc. rewrite <- (Z.add_0_r elf) at 1 8 9. rewrite <-?Z.add_assoc, !H by lia. done. Qed.

(** The program headers of the kernel file, from the one at offset [o]. *)
Fixpoint headers (n : nat) (o : Z) : list bseg :=
  match n with O => [] | S n => bseg_at image o :: headers n (o + 32) end.

Lemma boot_segments_ok n : forall o s done_,
  0 <= o -> o + 32 * Z.of_nat n <= 4096 -> scratch_ok (b_mem s) ->
  Forall seg_ok (headers n o) -> StronglySorted seg_before (headers n o) ->
  Forall (in_place (b_mem s)) done_ -> Forall (fun d => Forall (seg_before d) (headers n o)) done_ ->
  exists s', boot_segments (S n) (elf + o) (elf + o + 32 * Z.of_nat n) s = Ret tt s' /\ scratch_ok (b_mem s') /\
    Forall (in_place (b_mem s')) (done_ ++ headers n o).
Proof.
  induction n as [|n IH]; intros o s dn Ho Hb Hs Hok Hso Hd Hdb.
  - cbn [boot_segments]. rewrite (proj2 (Z.ltb_ge _ _)) by lia. exists s. cbn [headers]. by rewrite app_nil_r.
  - remember (S n) as n1 eqn:En. cbn [boot_segments]. rewrite (proj2 (Z.ltb_lt _ _)) by lia. krun. subst n1.
    rewrite bseg_at_scratch by (done || lia). set (h := bseg_at image o). cbn [headers] in *. fold h in Hok, Hso, Hdb |- *.
    apply Forall_cons in Hok as [Hh Hok]. apply StronglySorted_inv in Hso as [Hso Hfirst].
    destruct (load_one_ok h s Hh) as (s1 & E1 & Hin & Hlow).
    assert (Hkeep : scratch_ok (b_mem s1) /\ Forall (in_place (b_mem s1)) dn).
    { destruct (decide (seg_empty h)) as [He|Hne]; [by subst s1|]. destruct Hlow as [Hlo Hlow]. split; [intros k Hk; rewrite Hlow by lia; auto|].
      apply Forall_forall. intros d Hdin. rewrite Forall_forall in Hd, Hdb. destruct (decide (seg_empty d)); [by apply empty_in_place|].
      apply (in_place_mono (b_mem s) _ d (lo (s_paddr h) (s_off h))); [auto| |done]. specialize (Hdb d Hdin). apply Forall_cons in Hdb as [Hb1 _].
      by destruct Hb1 as [?|[?|?]]. }
    destruct (IH (o + 32) s1 (dn ++ [h])) as (s' & E & Hs' & Hp); [lia|lia|apply Hkeep|done|done| | |].
    + apply Forall_app. split; [apply Hkeep|by constructor].
    + apply Forall_app. split; [|by repeat constructor]. eapply Forall_impl; [exact Hdb|]. intros d Hd1. by apply Forall_cons in Hd1 as [_ ?].
    + exists s'. split; [|split; [done|]]; [|by rewrite <- app_assoc in Hp].
      unfold load_one in E1.
      rewrite <- kbind_assoc, (kbind_ret _ _ _ _ _ E1). rewrite u32_small by (unfold elf; lia). rewrite <- E. f_equal; lia.
Qed.

Lemma load32_bytes (m : mem) a : (forall x, 0 <= m x < 256) -> 0 <= load32 m a < 2 ^ 32.
Proof. intros H. unfold load32. pose proof (H a). pose proof (H (a + 1)). pose proof (H (a + 2)). pose proof (H (a + 3)). lia. Qed.

(** With the program headers in the first page of the file, each segment that has something to
    load above the scratch page, and each beginning, with the sector it begins in, at or behind
    the end of those before it, every segment is in place when the boot loader ends.  The
    segments need not be sector-aligned as long as no two share a sector. *)
Lemma boot_segments_in_place (s : loader) :
  (forall a, 0 <= disk a < 256) ->
  let h := bhdr_at image 0 in
  let segs := headers (Z.to_nat (h_phnum h)) (h_phoff h) in
  (h_magic h <> ELF_MAGIC -> exists s', bootmain s = Ret None s') /\
  (h_magic h = ELF_MAGIC -> h_phoff h + 32 * h_phnum h <= 4096 ->
   Forall seg_ok segs -> StronglySorted seg_before segs ->
   exists s', bootmain s = Ret (Some (h_entry h)) s' /\ Forall (in_place (b_mem s')) segs).
Proof.
  intros Hd h segs. assert (Hi : forall a, 0 <= image a < 256) by (intros; apply Hd).
  destruct (readseg_ok elf 4096 0 s) as (s1 & E1 & M1); [lia..|done|unfold elf; lia|].
  assert (Hs : scratch_ok (b_mem s1)).
  { intros k Hk. rewrite M1, decide_True; [f_equal; lia|]. unfold hi, lo. rewrite Zmod_0_l. change ((4096 + 0 + 511) / SECTSIZE) with 8. unfold SECTSIZE. lia. }
  unfold bootmain. rewrite (kbind_ret _ _ _ _ _ E1). krun. rewrite (bhdr_at_scratch _ Hs). fold h. split.
  - intros Hm. apply Z.eqb_neq in Hm as ->. by eexists.
  - intros -> Hfit Hok Hso. rewrite Z.eqb_refl. cbn [negb].
    assert (Hoff : 0 <= h_phoff h) by apply load32_bytes, Hi.
    assert (Hnum : 0 <= h_phnum h) by (unfold h; cbn [bhdr_at h_phnum]; pose proof (Hi (0 + 44)); pose proof (Hi (0 + 45)); lia).
    destruct (boot_segments_ok (Z.to_nat (h_phnum h)) (h_phoff h) s1 []) as (s' & E & Hs' & Hp); [lia|lia|done|done|done|done|done|].
    rewrite Z2Nat.id in E by lia. rewrite !u32_small by (unfold elf; lia). rewrite (kbind_ret _ _ _ _ _ E). krun.
    exists s'. split; [|done]. rewrite (bhdr_at_scratch _ Hs'). done.
Qed.

(** A segment as the kernel's linker lays it out: it begins with a sector of the file, lies
    above the scratch page and ends below 4 GB, or it has nothing to load. *)
Definition seg_aligned (h : bseg) : Prop := seg_empty h \/
  s_off h mod SECTSIZE = 0 /\ 0 <= s_off h < 2 ^ 32 /\ 0 <= s_filesz h /\ elf + 4096 <= s_paddr h /\ seg_end h + 512 < 2 ^ 32.
(** [h2] begins at or behind the end of [h1]. *)
Definition seg_above (h1 h2 : bseg) : Prop := seg_empty h1 \/ seg_empty h2 \/ seg_end h1 <= s_paddr h2.

Lemma aligned_ok h : seg_aligned h -> seg_ok h.
Proof. intros [?|(Ha & ?)]; [by left|right]. unfold lo. rewrite Ha. lia. Qed.

Lemma aligned_before h1 h2 : seg_aligned h2 -> seg_above h1 h2 -> seg_before h1 h2.
Proof. intros [?|(Ha & _)] [?|[?|?]]; unfold seg_before; auto. right. right. unfold lo. rewrite Ha. lia. Qed.

Lemma aligned_sorted l : Forall seg_aligned l -> StronglySorted seg_above l -> StronglySorted seg_before l.
Proof.
  intros Ha Hs. induction Hs as [|h l Hs IH Hf]; [constructor|]. apply Forall_cons in Ha as [_ Ha].
  constructor; [by apply IH|]. rewrite Forall_forall in Ha, Hf |- *. intros x Hx. apply aligned_before; auto.
Qed.

(** C40: the boot loader either returns, when the disk does not hold a kernel file, or jumps to
    the entry point with every segment in place: its bytes from the file at its physical
    address and zeros up to its size in memory.  The kernel file must have its program headers
    in its first page, and its segments must begin at sectors of the file, lie above the
    scratch page and follow each other in memory without overlap; headers with nothing to load
    may be anywhere.  (Segments that are not sector-aligned are loaded right when no two share
    a sector, [boot_segments_in_place], and else may overwrite each other,
    [boot_overwrites_zeros].) *)
Theorem boot_loads_kernel (s : loader) :
  (forall a, 0 <= disk a < 256) ->
  let h := bhdr_at image 0 in
  let segs := headers (Z.to_nat (h_phnum h)) (h_phoff h) in
  (h_magic h <> ELF_MAGIC -> exists s', bootmain s = Ret None s') /\
  (h_magic h = ELF_MAGIC -> h_phoff h + 32 * h_phnum h <= 4096 ->
   Forall seg_aligned segs -> StronglySorted seg_above segs ->
   exists s', bootmain s = Ret (Some (h_entry h)) s' /\ Forall (in_place (b_mem s')) segs).
Proof.
  intros Hd h segs. destruct (boot_segments_in_place s Hd) as [H1 H2]. split; [done|]. intros Hm Hf Ha Hs.
  apply H2; [done|done| |by apply aligned_sorted]. eapply Forall_impl; [exact Ha|]. apply aligned_ok.
Qed.
End boot.

(** ** A concrete disk *)

(** A controller with one disk that is always ready. *)
Definition ata (disk : Z -> Z) (r : Z -> Z) : list Z :=
  sector disk (r 0x1F3 + 256 * r 0x1F4 + 65536 * r 0x1F5 + 16777216 * Z.land (r 0x1F6) 15).

Lemma ata_reads disk r lba : 0 <= lba < 2 ^ 28 -> r 0x1F2 = 1 -> r 0x1F7 = 0x20 ->
  r 0x1F3 = lba mod 256 -> r 0x1F4 = lba / 2 ^ 8 mod 256 -> r 0x1F5 = lba / 2 ^ 16 mod 256 ->
  r 0x1F6 = Z.lor (lba / 2 ^ 24) 0xE0 -> ata disk r = sector disk lba.
Proof.
  intros Hl _ _ H3 H4 H5 H6. unfold ata. rewrite H3, H4, H5, H6. f_equal.
  rewrite Z.land_lor_distr_l. change (Z.land 0xE0 15) with 0. rewrite Z.lor_0_r. change 15 with (Z.ones 4). rewrite Z.land_ones by lia.
  Z.to_euclidean_division_equations. lia.
Qed.

Definition le32 (x : Z) : list Z := [x mod 256; x / 256 mod 256; x / 65536 mod 256; x / 16777216 mod 256].
Definition prog (off paddr filesz memsz : Z) : list Z := le32 1 ++ le32 off ++ le32 0 ++ le32 paddr ++ le32 filesz ++ le32 memsz ++ le32 7 ++ le32 4.
(** A kernel file with two segments, at offset 512 the bytes 1 to 20. *)
Definition kernel_file (segs : list Z) : list Z :=
  let head := [0x7F; 0x45; 0x4C; 0x46] ++ replicate 20 0 ++ le32 0x10000C ++ le32 52 ++ replicate 12 0 ++ [2; 0] ++ replicate 6 0 ++ segs in
  head ++ replicate (512 - length head) 0 ++ seqZ 1 20.
Definition disk_of (l : list Z) (a : Z) : Z := if a <? 512 then 0 else nth (Z.to_nat (a - 512)) l 0.
Definition boot_run (l : list Z) : K loader (option Z) := bootmain (fun _ => 0x40) (ata (disk_of l)) 1.
Definition boot_start : loader := Loader (fun _ => 204) (fun _ => 0) 0.

Definition good_file : list Z := kernel_file (prog 512 0x100000 3 6 ++ prog 512 0x100200 4 4).

Lemma disk_of_bytes l : Forall (fun b => 0 <= b < 256) l -> forall a, 0 <= disk_of l a < 256.
Proof.
  intros H a. unfold disk_of. destruct (a <? 512); [lia|]. destruct (nth_in_or_default (Z.to_nat (a - 512)) l 0) as [Hin| ->]; [|lia].
  rewrite Forall_forall in H. apply H, list_elem_of_In, Hin.
Qed.

Lemma boot_loads_kernel_witness : exists s', boot_run good_file boot_start = Ret (Some 0x10000C) s' /\
  b_mem s' 0x100002 = 3 /\ b_mem s' 0x100003 = 0 /\ b_mem s' 0x100200 = 1.
Proof.
  destruct (boot_loads_kernel (fun _ => 0x40) (ata (disk_of good_file)) 1 (disk_of good_file)
    ltac:(intros n; exists 0%nat; split; [lia|reflexivity]) (ata_reads _) boot_start) as [_ H].
  - apply disk_of_bytes. apply (bool_decide_unpack _). vm_compute. exact I.
  - destruct H as (s' & E & Hp); [reflexivity|vm_compute; congruence| | |].
    + apply (bool_decide_unpack _). vm_compute. exact I.
    + vm_compute. repeat constructor; congruence.
    + exists s'. split; [exact E|]. apply Forall_cons in Hp as [[H1 H2] Hp]. apply Forall_cons in Hp as [[H3 _] _]. split_and!.
      * exact (H1 2 ltac:(split; vm_compute; congruence)).
      * exact (H2 3 ltac:(split; vm_compute; congruence)).
      * exact (H3 0 ltac:(split; vm_compute; congruence)).
Defined.

(** Two segments in increasing order that do not overlap, but share a sector: reading the
    second one puts bytes of the file over the zeros at the end of the first. *)
Definition shared_sector_file : list Z := kernel_file (prog 512 0x100000 3 6 ++ prog 520 0x100008 4 4).

Example boot_overwrites_zeros :
  match boot_run shared_sector_file boot_start with
  | Ret (Some e) s => e = 0x10000C /\ map (b_mem s) (seqZ 0x100000 12) = seqZ 1 12
  | _ => False
  end.
Proof. vm_compute. split; reflexivity. Qed.
