(* ===== verification/Start.v ===== *)
(** * Starting the processors and their interrupts (main.c, ioapic.c, picirq.c; kvmalloc and
    switchkvm of vm.c)

    startothers gives each processor a stack and its entry code; entrypgdir is the page
    table they begin with; ioapicinit and ioapicenable set up which processor serves which
    interrupt.  lapicstartap belongs to lapic.c, which the tree does not have: a start is
    recorded with the words that the started processor finds under its entry code. *)

From S2P Require Import Prelude Mem Layout Kalloc Vm VmMap VmUser VmSpace.

(** ** The boot page table *)

Definition entrypgdir (i : Z) : Z :=
  if i =? 0 then Z.lor (Z.lor (Z.lor 0 PTE_P) PTE_W) PTE_PS
  else if i =? Z.shiftr KERNBASE PDXSHIFT then Z.lor (Z.lor (Z.lor 0 PTE_P) PTE_W) PTE_PS
  else 0.

(** Translation by the processor where a directory entry maps a page of 4 MB. *)
Definition big_translate (pgdir : Z -> Z) (va : Z) : option Z :=
  let e := pgdir (PDX va) in
  if negb (truth (Z.land e PTE_P)) then None
  else if truth (Z.land e PTE_PS) then Some (Z.land e (Z.lnot 0x3FFFFF) + va mod 0x400000) else None.

Lemma PDX_div va : 0 <= va < 2 ^ 32 -> PDX va = va / 0x400000.
Proof.
  intros H. unfold PDX, PDXSHIFT. rewrite Z.shiftr_div_pow2 by lia. change 0x3FF with (Z.ones 10). rewrite Z.land_ones by lia.
  change (2 ^ 22) with 0x400000. apply Z.mod_small. Z.to_euclidean_division_equations. lia.
Qed.

(** The first 4 MB of physical memory appear at 0 and at KERNBASE, and nothing else does. *)
Lemma entrypgdir_maps va : 0 <= va < 2 ^ 32 -> big_translate entrypgdir va =
  if va <? 0x400000 then Some va
  else if (KERNBASE <=? va) && (va <? KERNBASE + 0x400000) then Some (va - KERNBASE) else None.
Proof.
  intros H. unfold big_translate, entrypgdir. rewrite PDX_div by done. change (Z.shiftr KERNBASE PDXSHIFT) with 512.
  unfold KERNBASE. destruct (Z.ltb_spec va 0x400000); [|destruct (Z.leb_spec 0x80000000 va); [destruct (Z.ltb_spec va (0x80000000 + 0x400000))|]]; cbn [andb].
  - replace (va / 0x400000) with 0 by (symmetry; apply Z.div_small; lia). vm_compute (Z.eqb 0 0). cbv iota.
    change (negb _) with false. change (truth _) with true. cbv iota. rewrite Z.mod_small by lia. done.
  - replace (va / 0x400000) with 512 by (Z.to_euclidean_division_equations; lia). change (512 =? 0) with false. change (512 =? 512) with true. cbv iota.
    change (negb _) with false. change (truth _) with true. cbv iota. f_equal.
    change (Z.land _ (Z.lnot _)) with 0. Z.to_euclidean_division_equations; lia.
  - rewrite !(proj2 (Z.eqb_neq _ _)) by (Z.to_euclidean_division_equations; lia). done.
  - rewrite !(proj2 (Z.eqb_neq _ _)) by (Z.to_euclidean_division_equations; lia). done.
Qed.

(** ** The kernel's page table *)

(** The memory, the variable kpgdir and the page-table register. *)
Record kvm := Kvm { kv_km : kmem; kpgdir : Z; kv_cr3 : Z }.

Definition switchkvm : K kvm unit := kmodify (fun s => Kvm (kv_km s) (kpgdir s) (V2P (kpgdir s))).
Definition kvmalloc (end_ data : Z) : K kvm unit :=
  let! d := kzoom kv_km (fun k s => Kvm k (kpgdir s) (kv_cr3 s)) (setupkvm end_ data) in
  kmodify (fun s => Kvm (kv_km s) d (kv_cr3 s)) ;;
  switchkvm.

(** After kvmalloc the processor runs on a page table that maps exactly the kernel, in pages
    that were free; or memory was short, every page is free again and what is loaded is no
    page table at all: the result of setupkvm is not checked. *)
Lemma kvmalloc_loads (end_ data : Z) (s : kvm) (ps : list Z) :
  KERNBASE < end_ -> data mod PGSIZE = 0 -> KERNLINK < data < KERNBASE + PHYSTOP -> free_ok end_ (kv_km s) ps ->
  exists s' ps', kvmalloc end_ data s = Ret tt s' /\ kv_cr3 s' = V2P (kpgdir s') /\
    ((kpgdir s' = 0 /\ kv_cr3 s' = 0x80000000 /\ restored end_ (kv_km s) ps (kv_km s') ps') \/
     (kpgdir s' <> 0 /\ space_new end_ (kv_km s) ps (kpgdir s') (kv_km s') ps' /\ kernel_upto data 4294967296 (km_mem (kv_km s')) (kpgdir s'))).
Proof.
  intros He Hda Hdr Hf. destruct (setupkvm_spec end_ He data Hda Hdr (kv_km s) ps Hf) as (r & k' & ps' & E & Hr).
  unfold kvmalloc, kzoom, kbind at 1. rewrite E. exists (Kvm k' r (V2P r)), ps'. split; [done|]. split; [done|]. cbn [kpgdir kv_cr3 kv_km].
  destruct Hr as [[-> Hr]|Hr]; [left; done|right; done].
Qed.

(** ** startothers *)

(** What a processor finds when it starts: its id, the address of its entry code, and the
    three words below it (the stack, the routine to enter and the page table). *)
Record start := Start { ap_id : Z; ap_code : Z; ap_stack : Z; ap_enter : Z; ap_pgdir : Z }.
Record boot := Boot { bo_km : kmem; bo_starts : list start }.

Section startothers.
(** Linker symbols and the addresses of mpenter and entrypgdir; whether a started processor
    gets as far as setting [started]. *)
Variables (entryother_start entryother_size mpenter entrypgdir_addr : Z).
Variable comes_up : Z -> bool.
Variable end_ : Z.

Definition on_km {A} (c : K kmem A) : K boot A := kzoom bo_km (fun k b => Boot k (bo_starts b)) c.
Definition poke (a v : Z) : K boot unit := on_km (kmodify (fun k => set_mem (store32 (km_mem k) a v) k)).
Definition lapicstartap (apicid addr : Z) : K boot unit :=
  kmodify (fun b => let m := km_mem (bo_km b) in let code := P2V addr in
    Boot (bo_km b) (bo_starts b ++ [Start apicid addr (load32 m (code - 4)) (load32 m (code - 8)) (load32 m (code - 12))])).

(** The loop over the processors from number [i]; [me] runs it.  Waiting for a processor that
    never comes up does not end. *)
Fixpoint start_cpus (cpus : list Z) (i me : nat) (code : Z) : K boot unit :=
  match cpus with
  | [] => kret tt
  | apicid :: rest =>
      if decide (i = me) then start_cpus rest (S i) me code else
      let! stack := on_km kalloc in
      poke (code - 4) (stack + KSTACKSIZE) ;;
      poke (code - 8) mpenter ;;
      poke (code - 12) (V2P entrypgdir_addr) ;;
      lapicstartap apicid (V2P code) ;;
      (if comes_up apicid then start_cpus rest (S i) me code else knofuel)
  end.

Definition startothers (cpus : list Z) (me : nat) : K boot unit :=
  let code := P2V 0x7000 in
  on_km (kmodify (fun k => set_mem (memmove (km_mem k) code entryother_start entryother_size) k)) ;;
  start_cpus cpus 0 me code.

(** The processors other than number [me]. *)
Fixpoint others (cpus : list Z) (i me : nat) : list Z :=
  match cpus with
  | [] => []
  | c :: rest => if decide (i = me) then others rest (S i) me else c :: others rest (S i) me
  end.

(** Memory below the free pages may be written at will. *)
Lemma kmem_wf_below k ps m : (forall x, end_ <= x -> m x = km_mem k x) -> kmem_wf end_ k ps -> kmem_wf end_ (set_mem m k) ps.
Proof.
  intros Hm [Hl Hp Hn]. split; [done| |done]. eapply freelist_at_ext; [|exact Hp]. intros v x Hv Hx. apply Hm.
  pose proof (freelist_at_pages _ _ _ _ Hp) as Hok. rewrite Forall_forall in Hok. destruct (Hok v Hv) as (_ & _ & ? & _). lia.
Qed.

Definition code_addr : Z := P2V 0x7000.
Definition the_start (c v : Z) : start := Start c 0x7000 (v + KSTACKSIZE) (u32 mpenter) (u32 (V2P entrypgdir_addr)).

Lemma start_cpus_ok cpus : forall i me b ps,
  code_addr <= end_ -> kmem_wf end_ (bo_km b) ps -> (length (others cpus i me) <= length ps)%nat -> Forall (fun c => comes_up c = true) (others cpus i me) ->
  exists b', start_cpus cpus i me code_addr b = Ret tt b' /\
    bo_starts b' = bo_starts b ++ zip_with the_start (others cpus i me) ps /\
    kmem_wf end_ (bo_km b') (drop (length (others cpus i me)) ps) /\
    forall x, code_addr <= x -> km_mem (bo_km b') x = km_mem (bo_km b) x.
Proof.
  induction cpus as [|c rest IH]; intros i me b ps He Hwf Hlen Hup; cbn [start_cpus others] in *.
  - exists b. rewrite app_nil_r. done.
  - destruct (decide (i = me)); [by apply IH|]. destruct ps as [|v ps]; [simpl in Hlen; lia|]. apply Forall_cons in Hup as [Hc Hup].
    destruct (kalloc_wf end_ (bo_km b) (v :: ps) Hwf) as (r & k1 & E & Em & _ & -> & Hwf1).
    assert (Hv : 0 <= v + KSTACKSIZE < 4294967296).
    { destruct Hwf as [_ (_ & Hv & _) _]. pose proof (page_ok_range _ _ Hv). unfold KERNBASE, PHYSTOP, KSTACKSIZE in *. lia. }
    unfold on_km at 1, kzoom, kbind at 1. rewrite E. unfold poke, on_km, lapicstartap, kzoom, kmodify, kbind. rewrite Hc. cbn [bo_km bo_starts].
    match goal with |- context [start_cpus rest (S i) me code_addr ?t] => set (b1 := t) end.
    assert (Hm : forall x, code_addr <= x -> km_mem (bo_km b1) x = km_mem (bo_km b) x).
    { intros x Hx. unfold b1. cbn [bo_km set_mem km_mem]. rewrite !store32_out by lia. by rewrite Em. }
    destruct (IH (S i) me b1 ps He) as (b' & E' & Hs & Hw' & Hmem); [|simpl in Hlen; lia|done|].
    { unfold b1; cbn [bo_km]. do 3 (apply kmem_wf_below; [intros x Hx; by rewrite store32_out by lia|]). exact Hwf1. }
    exists b'. split; [done|]. split; [|split; [done|intros x Hx; rewrite Hmem by done; auto]].
    rewrite Hs. unfold b1 at 1. cbn [bo_starts zip_with]. rewrite <- app_assoc. f_equal. cbn [app]. f_equal. unfold the_start. cbn [bo_km set_mem km_mem].
    change (P2V (V2P code_addr)) with code_addr. change (V2P code_addr) with 0x7000.
    rewrite !load32_store32_eq. rewrite !(load32_store32_ne _ _ _ (code_addr - 4)) by lia. rewrite !(load32_store32_ne _ _ _ (code_addr - 8)) by lia.
    rewrite !load32_store32_eq, (u32_small (v + KSTACKSIZE)) by lia. done.
Qed.

(** Startothers starts every processor but its own, once and in order.  Each finds the
    entry code at 0x7000 and below it the top of a stack page of its own, mpenter and the
    boot page table; the stack pages are the first of the free list, which keeps the rest. *)
Theorem startothers_starts_each (cpus : list Z) (me : nat) (b : boot) (ps : list Z) :
  kmem_wf end_ (bo_km b) ps -> code_addr + entryother_size <= end_ -> 0 <= entryother_size ->
  let aps := others cpus 0 me in
  (length aps <= length ps)%nat -> Forall (fun c => comes_up c = true) aps ->
  exists b', startothers cpus me b = Ret tt b' /\
    bo_starts b' = bo_starts b ++ zip_with the_start aps ps /\
    NoDup (take (length aps) ps) /\ kmem_wf end_ (bo_km b') (drop (length aps) ps) /\
    forall x, 0 <= x < entryother_size -> km_mem (bo_km b') (code_addr + x) = km_mem (bo_km b) (entryother_start + x).
Proof.
  intros Hwf He Hs aps Hlen Hup. unfold startothers. fold code_addr. unfold on_km at 1, kzoom, kmodify, kbind.
  match goal with |- context [start_cpus cpus 0 me code_addr ?t] => set (b1 := t) end.
  destruct (start_cpus_ok cpus 0 me b1 ps) as (b' & E & Hst & Hw & Hm); [lia| |done|done|].
  { apply kmem_wf_below; [|done]. intros x Hx. rewrite memmove_copied by done. unfold copied. case_match; [lia|done]. }
  exists b'. split_and!; [done|done| |done|].
  - destruct Hwf as [_ _ Hn]. rewrite <- (take_drop (length aps) ps) in Hn. by apply NoDup_app in Hn as [? _].
  - intros x Hx. rewrite Hm by lia. unfold b1. cbn [bo_km set_mem km_mem]. rewrite memmove_copied by done. unfold copied. case_match; [f_equal; lia|lia].
Qed.
End startothers.

(** Three processors, the one with number 1 starts the others. *)
Definition ex_boot : boot := Boot (set_mem (mset (km_mem ex_kmem) 0x80110000 250) ex_kmem) [].

Lemma startothers_starts_each_witness :
  exists b', startothers 0x80110000 90 0x80103000 0x80109000 (fun _ => true) [0; 1; 2] 1 ex_boot = Ret tt b' /\
    bo_starts b' = [Start 0 0x7000 (ex_pageA + 4096) 0x80103000 0x109000; Start 2 0x7000 (ex_pageB + 4096) 0x80103000 0x109000] /\
    km_mem (bo_km b') 0x80007000 = 250.
Proof.
  destruct (startothers_starts_each 0x80110000 90 0x80103000 0x80109000 (fun _ => true) ex_end [0; 1; 2] 1 ex_boot [ex_pageA; ex_pageB])
    as (b' & E & Hs & _ & _ & Hm).
  - apply kmem_wf_below; [|exact ex_kmem_wf]. intros x Hx. apply mset_ne. unfold ex_end in Hx. lia.
  - vm_compute. congruence.
  - lia.
  - simpl. lia.
  - repeat constructor.
  - exists b'. split; [exact E|]. split; [rewrite Hs; reflexivity|]. exact (Hm 0 ltac:(lia)).
Defined.

(** kalloc's answer is not checked: without a free page the stack ends at address 4096. *)
Example startothers_without_memory :
  match startothers 0x80110000 90 0x80103000 0x80109000 (fun _ => true) [0; 1] 0 (Boot (kmem_boot (fun _ => 0)) []) with
  | Ret _ b => map ap_stack (bo_starts b) = [4096]
  | _ => False
  end.
Proof. vm_compute. reflexivity. Qed.

(** ** The interrupt controllers *)

Definition T_IRQ0 : Z := 32.
Definition REG_ID : Z := 0x00.
Definition REG_VER : Z := 0x01.
Definition REG_TABLE : Z := 0x10.
Definition INT_DISABLED : Z := 0x10000.

(** The I/O APIC: the register that is selected and the contents of the registers; and what
    ioapicinit prints. *)
Record ioapic := Ioapic { io_reg : Z; io_data : Z -> Z; io_printed : list string }.

Definition ioapicread (reg : Z) : K ioapic Z :=
  kmodify (fun s => Ioapic reg (io_data s) (io_printed s)) ;;
  kget (fun s => io_data s (io_reg s)).
Definition ioapicwrite (reg data : Z) : K ioapic unit :=
  kmodify (fun s => Ioapic reg (io_data s) (io_printed s)) ;;
  kmodify (fun s => Ioapic (io_reg s) (mset (io_data s) (io_reg s) (u32 data)) (io_printed s)).

Definition ioapic_mask (i : Z) : K ioapic (option unit) :=
  ioapicwrite (REG_TABLE + 2 * i) (Z.lor INT_DISABLED (T_IRQ0 + i)) ;;
  ioapicwrite (REG_TABLE + 2 * i + 1) 0 ;;
  kret None.
Definition ioapicinit (ioapicid : Z) : K ioapic unit :=
  let! ver := ioapicread REG_VER in
  let maxintr := Z.land (Z.shiftr ver 16) 0xFF in
  let! r := ioapicread REG_ID in
  let id := Z.shiftr r 24 in
  (if negb (id =? ioapicid)
   then kmodify (fun s => Ioapic (io_reg s) (io_data s) (io_printed s ++ ["ioapicinit: id isn't equal to ioapicid; not a MP"]))
   else kret tt) ;;
  kfor (Z.to_nat (maxintr + 1)) 0 ioapic_mask ;;
  kret tt.

Definition ioapicenable (irq cpunum : Z) : K ioapic unit :=
  ioapicwrite (REG_TABLE + 2 * irq) (T_IRQ0 + irq) ;;
  ioapicwrite (REG_TABLE + 2 * irq + 1) (Z.shiftl cpunum 24).

(** picinit: the bytes written to the ports of the two 8259A controllers. *)
Definition IO_PIC1 : Z := 0x20.
Definition IO_PIC2 : Z := 0xA0.
Definition picinit : list (Z * Z) := [(IO_PIC1 + 1, 0xFF); (IO_PIC2 + 1, 0xFF)].

(** Enable a list of interrupts, each for a processor. *)
Fixpoint ioapic_enable_all (l : list (Z * Z)) : K ioapic unit :=
  match l with
  | [] => kret tt
  | (irq, cpu) :: l => ioapicenable irq cpu ;; ioapic_enable_all l
  end.

(** How an interrupt is set up: masked, or served by a processor. *)
Definition entry_is (d : Z -> Z) (irq : Z) (route : option Z) : Prop :=
  match route with
  | None => d (REG_TABLE + 2 * irq) = INT_DISABLED + T_IRQ0 + irq /\ d (REG_TABLE + 2 * irq + 1) = 0
  | Some cpu => d (REG_TABLE + 2 * irq) = T_IRQ0 + irq /\ d (REG_TABLE + 2 * irq + 1) = cpu * 2 ^ 24
  end.
(** The processor an interrupt was last enabled for. *)
Definition route (l : list (Z * Z)) (irq : Z) (r : option Z) : option Z :=
  foldl (fun r p => if fst p =? irq then Some (snd p) else r) r l.

Lemma ioapicwrite_eq reg v s : ioapicwrite reg v s = Ret tt (Ioapic reg (mset (io_data s) reg (u32 v)) (io_printed s)).
Proof. done. Qed.

Lemma lor_disabled i : 0 <= i < 256 -> u32 (Z.lor INT_DISABLED (T_IRQ0 + i)) = INT_DISABLED + T_IRQ0 + i.
Proof.
  intros Hi. unfold INT_DISABLED, T_IRQ0. rewrite <- Z.lxor_lor, <- Z.add_nocarry_lxor; [rewrite u32_small by lia; lia|..].
  all: change 0x10000 with (Z.shiftl 1 16); apply Z.bits_inj'; intros n Hn; rewrite Z.land_spec, Z.bits_0, Z.shiftl_spec by done.
  all: destruct (Z.eq_dec n 16) as [->|]; [rewrite (Z.bits_above_log2 (32 + i)); [apply andb_false_r|lia|apply Z.log2_lt_pow2; lia]|].
  all: change 1 with (2 ^ 0); rewrite Z.pow2_bits_false by lia; done.
Qed.

Definition maxintr (s : ioapic) : Z := Z.land (Z.shiftr (io_data s REG_VER) 16) 0xFF.

(** One statement of the masking loop: entry [i] is masked, the registers below stay. *)
Lemma ioapic_mask_ok i s : 0 <= i < 256 -> exists s', ioapic_mask i s = Ret None s' /\ io_printed s' = io_printed s /\
  entry_is (io_data s') i None /\ forall x, x < REG_TABLE + 2 * i -> io_data s' x = io_data s x.
Proof.
  intros Hi. unfold ioapic_mask. rewrite (kbind_ret _ _ _ _ _ (ioapicwrite_eq _ _ _)), (kbind_ret _ _ _ _ _ (ioapicwrite_eq _ _ _)).
  eexists. split; [done|]. cbn [io_printed io_data entry_is]. rewrite lor_disabled by done. split_and!; [done| |apply mset_eq|].
  - rewrite mset_ne by lia. apply mset_eq.
  - intros x Hx. rewrite !mset_ne by lia. done.
Qed.

Lemma ioapic_mask_all n s : (n <= 256)%nat -> wp (kfor n 0 ioapic_mask) s (fun r s' => r = None /\ io_printed s' = io_printed s /\
  forall irq, 0 <= irq < Z.of_nat n -> entry_is (io_data s') irq None).
Proof.
  intros Hn. apply (wp_for _ _ _ _ (fun i s' => io_printed s' = io_printed s /\ forall irq, 0 <= irq < i -> entry_is (io_data s') irq None)).
  - split; [done|]. intros; lia.
  - intros j s1 Hj [Hp Hm]. destruct (ioapic_mask_ok j s1) as (s2 & E & Hp2 & He & Hlow); [lia|]. apply wp_iff. exists None, s2.
    split; [done|]. split; [congruence|]. intros irq Hi. destruct (decide (irq = j)) as [->|]; [done|].
    destruct (Hm irq) as [H1 H2]; [lia|]. split; rewrite Hlow by lia; done.
  - intros s' [Hp Hm]. done.
Qed.

Lemma ioapicinit_masks id s : exists s', ioapicinit id s = Ret tt s' /\
  (forall irq, 0 <= irq <= maxintr s -> entry_is (io_data s') irq None) /\
  (io_printed s' = io_printed s <-> Z.shiftr (io_data s REG_ID) 24 = id).
Proof.
  assert (Hmax : 0 <= maxintr s < 256) by (unfold maxintr; change 0xFF with (Z.ones 8); rewrite Z.land_ones by lia; apply Z.mod_pos_bound; lia).
  unfold ioapicinit, ioapicread. krun. cbn [io_data io_reg io_printed]. fold (maxintr s).
  assert (Hloop : forall s1, exists s', (kfor (Z.to_nat (maxintr s + 1)) 0 ioapic_mask ;; kret tt) s1 = Ret tt s' /\ io_printed s' = io_printed s1 /\
    forall irq, 0 <= irq <= maxintr s -> entry_is (io_data s') irq None).
  { intros s1. destruct (proj1 (wp_iff _ _ _) (ioapic_mask_all (Z.to_nat (maxintr s + 1)) s1 ltac:(lia))) as (r & s2 & E & _ & Hp & Hm).
    exists s2. rewrite (kbind_ret _ _ _ _ _ E). split; [done|]. split; [done|]. intros irq Hi. apply Hm. lia. }
  destruct (Z.eqb_spec (Z.shiftr (io_data s REG_ID) 24) id) as [Hid|Hid]; cbn [negb]; krun.
  - destruct (Hloop (Ioapic REG_ID (io_data s) (io_printed s))) as (s' & E & Hp & Hm). exists s'. done.
  - match goal with |- exists s', ?c ?t = _ /\ _ => destruct (Hloop t) as (s' & E & Hp & Hm) end. exists s'. split; [done|]. split; [done|].
    rewrite Hp. cbn [io_printed]. split; [|done]. intros H. exfalso. rewrite <- (app_nil_r (io_printed s)) in H at 2. by apply app_inv_head in H.
Qed.

Lemma ioapic_enable_routes l : forall s irq r, Forall (fun p => 0 <= fst p < 256 /\ 0 <= snd p < 256) l ->
  entry_is (io_data s) irq r -> exists s', ioapic_enable_all l s = Ret tt s' /\ entry_is (io_data s') irq (route l irq r).
Proof.
  induction l as [|[i c] l IH]; intros s irq r Hl He; [by exists s|]. apply Forall_cons in Hl as [[Hi Hc] Hl]. cbn [fst snd] in *.
  cbn [ioapic_enable_all]. unfold ioapicenable. rewrite kbind_assoc, !(kbind_ret _ _ _ _ _ (ioapicwrite_eq _ _ _)).
  apply IH; [done|]. cbn [io_data fst snd]. destruct (Z.eqb_spec i irq) as [->|Hne].
  - cbn [entry_is]. rewrite mset_eq, mset_ne, mset_eq by lia. rewrite Z.shiftl_mul_pow2 by lia. unfold T_IRQ0. rewrite !u32_small by lia. done.
  - destruct r; cbn [entry_is] in *; rewrite !mset_ne by lia; done.
Qed.

(** After ioapicinit and any sequence of ioapicenable, every interrupt is either masked
    and routed nowhere, or served by the processor it was last enabled for; its vector is 32
    plus its number, and it is edge triggered and active high. *)
Theorem ioapic_routes (id : Z) (s : ioapic) (l : list (Z * Z)) (irq : Z) :
  Forall (fun p => 0 <= fst p < 256 /\ 0 <= snd p < 256) l -> 0 <= irq <= maxintr s ->
  exists s', (ioapicinit id ;; ioapic_enable_all l) s = Ret tt s' /\ entry_is (io_data s') irq (route l irq None).
Proof.
  intros Hl Hi. destruct (ioapicinit_masks id s) as (s1 & E & Hm & _). rewrite (kbind_ret _ _ _ _ _ E).
  apply ioapic_enable_routes; [done|]. by apply Hm.
Qed.

Lemma ioapic_routes_witness : exists s', (ioapicinit 0 ;; ioapic_enable_all [(1, 0); (14, 3)]) (Ioapic 0 (fun r => if r =? 1 then 0x170011 else 0) []) = Ret tt s' /\
  io_data s' (REG_TABLE + 2 * 14) = T_IRQ0 + 14 /\ io_data s' (REG_TABLE + 2 * 14 + 1) = 3 * 2 ^ 24.
Proof.
  apply (ioapic_routes 0 (Ioapic 0 (fun r => if r =? 1 then 0x170011 else 0) []) [(1, 0); (14, 3)] 14); [repeat constructor; simpl; lia|vm_compute; split; congruence].
Defined.
